(* ===== verification/_CoqProject ===== *)
-Q . S2P
Prelude.v
StateLaws.v
Text.v
Session.v
AppState.v
IpForward.v
ControlLease.v
LeaseProofs.v
SessionPlane.v
PlaneProofs.v
JsonRpc.v
UsbPrefs.v
Config.v
ConfigProofs.v
Persist.v
Auth.v
Signaling.v
Hid.v
Gadget.v
Ums.v
Uac.v
NetAdapter.v
Manager.v
ManagerProofs.v
UsbControl.v
UsbControlProofs.v
Paths.v
RangeReader.v
Nbd.v
Uploads.v
UsbClient.v
Sidecar.v
VirtualMedia.v
MediaProofs.v
UsbSettings.v
SettingsProofs.v
DriveProofs.v
PrefsProofs.v
Words.v
IpAddr.v
NetConf.v
Cloud.v
NetSettings.v
NetSettingsProofs.v
Download.v
Ota.v
FileTree.v
RemoteFs.v
RemoteFsProofs.v
FtUploads.v
TimeSync.v
IpBridge.v
Jiggler.v
Tailscale.v
Wol.v
FileServing.v
StorageAdmin.v
Terminal.v
Edid.v
Netlink.v
DhcpLeases.v
NetIface.v
Mdns.v
Hdmi.v
RtcSession.v
VirtualMic.v
DevMode.v
Tls.v
Gui.v
RpcMethods.v
RpcHandlers.v
CmdSocket.v
Audio.v
Witnesses.v
UsbWitnesses.v
StorageWitnesses.v
SettingsWitnesses.v
NetWitnesses.v
UpdateWitnesses.v
DriveWitnesses.v
