(* ===== verification/Prelude.v ===== *)
(** * Verification of the ArkKVM firmware

    ArkKVM is a network-attached KVM: browsers (users) and automated clients
    (agents) connect over WebRTC, see the video of a controlled host and drive
    its keyboard and mouse.  The host sees the device as a composite USB gadget.
    The code is in two processes:
    - the application, src/arkkvm: sessions and who of them may drive the host,
      the JSON-RPC interface on the data channels, signaling, authentication,
      configuration, images and the file transfer drive, the network, the cloud,
      updates, the capture of the picture;
    - the USB sidecar, src/crates/usb_devices: a control service that builds the
      gadget from a set of switches and owns its functions (keyboard, mice, two
      drives, microphone, network adapter).
    They talk over a message bus; files below are named under src/arkkvm/src and
    src/crates/usb_devices/src.

    ** Reading order

    Rust functions keep their names.  An operation on a mutable structure is a
    function from the state to the state and a result; [SE] below is the
    state-and-error monad used where the source threads [?] through many calls,
    and keeps, as Rust does, what was written before an early return;
    [StateLaws] has its laws: what a computation keeps and where it leads.  Where
    the definitions and the proofs of a part are two files the second is named
    after the first.  [Text] and [Words] have the functions on strings, [Paths]
    those on paths.

    Sessions and control (application):
    - [Session]: roles, the parts of a session the control plane reads, the
      terminal slot (session.rs).
    - [AppState]: the registry of sessions, the slot of each role, queued ICE
      candidates (state.rs).
    - [IpForward]: destination and tickets of port forwards (ip_forward/resolve.rs,
      ticket.rs); [IpBridge]: the bridge between the channel of a forward and its
      target (ip_forward/bridge.rs, webrtc/dc.rs).
    - [ControlLease]: who owns keyboard and mouse, requests with a timeout, the
      gate in front of HID input (control_lease.rs).  A handler reads the
      registry, takes the lease lock and sends notifications after releasing
      it; the part under the lock is a definition [.._locked] that takes what was
      read before as arguments.  [LeaseProofs]: runs of such critical sections in
      any order and with any stale reads.
    - [SessionPlane], [PlaneProofs]: registry, lease, tickets and media sinks
      together, with the callbacks of peer connections; an interleaving relation
      of the critical sections and the proof that the handlers are its runs
      (state.rs, webrtc/mod.rs, webrtc/handler.rs).
    - [JsonRpc]: one message on a data channel; [RpcMethods]: the registry with all
      its methods, with the handlers as an argument; [RpcHandlers]: those that do
      work of their own (macros, resets, addresses of the cloud) and the events
      sent to the user (jsonrpc.rs, module/rtc_request_params.rs, config/types.rs).
    - [Signaling]: the three ways an offer becomes a session (web.rs,
      cloud/websocket.rs); [RtcSession]: what a session is set up with, the loop
      of the local WebSocket and its candidates, the start and stop of the media
      (webrtc/mod.rs, session.rs, web.rs).
    - [Terminal]: the actor between a data channel and a shell (terminal/core.rs).
    - [Hdmi]: from the plug of the cable to the frames of the sinks
      (hardware/hdmi/mod.rs, rk628_hpd.rs, video.rs); [Edid] (hardware/hdmi/edid.rs);
      [Audio]: from the packets of the bus to the tracks of the sessions (audio.rs);
      [VirtualMic]: from the packets of a browser's microphone to the process that
      plays the microphone of the gadget (services/virtual_mic.rs,
      hardware/usb/mic.rs).
    - [Gui]: the client of the display server and its protocol
      (services/gui_pipeline.rs).  [CmdSocket]: the commands it sends
      (services/cmd_socket.rs).

    Configuration and access:
    - [Config], [ConfigProofs]: validation and the configuration manager
      (config/types.rs, manager.rs).
    - [Persist]: the configuration file with backup and rename, under crashes
      (config/persistence.rs).
    - [Auth]: login, logout, setup and password handlers behind the
      middlewares (web.rs, middleware.rs).
    - [DevMode]: developer mode and the keys of its SSH server (config/mod.rs,
      network/ssh.rs, jsonrpc.rs).
    - [Tls]: the authority of the device, the certificate of its server, the files
      they are kept in and the reload while the server runs (cert.rs, tls.rs,
      web.rs).

    The sidecar:
    - [Hid]: report formats, handles and writer threads of keyboard and mice, the
      write loop (devices/hid_kb.rs, hid_abs.rs, hid_rel.rs, hid_io.rs).
    - [Gadget]: endpoint accounting, construction of the gadget, device nodes in
      configfs (devices/mod.rs, config.rs, error.rs).
    - [Ums]: the two drives (devices/ums.rs, ums1.rs).  [Uac]: the microphone
      process (devices/uac.rs).  [NetAdapter]: masks, DHCP pool and lease file,
      the adapter's handle with the commands it runs (devices/network).
    - [Manager], [ManagerProofs]: the device manager against the interface
      [UsbDevices] with the laws [UsbDeviceLaws] it relies on, and the UDC watch
      (manager.rs, events.rs, udc.rs).
    - [UsbControl], [UsbControlProofs]: the seven real handles as an instance of
      the interface, the media operations and the commands of the control service
      (manager.rs, control/service.rs).

    Media and USB settings (application):
    - [UsbClient]: requests on the bus, which can be lost before or after they
      are carried out (control/zenoh.rs, zenoh_bus.rs, services/usb.rs);
      [Sidecar]: the promises of the sidecar, and that the control service keeps
      them.
    - [RangeReader]: images on web servers, with retries, block
      cache and read-ahead; [Nbd]: the block device over any reader
      (hardware/usb/storage.rs, hardware/block_device.rs, remote_mount.rs).
    - [Uploads]: uploads to the image store; [StorageAdmin]: its
      listing, space and clearing (hardware/usb/storage.rs, web.rs,
      data_channel.rs).
    - [VirtualMedia], [MediaProofs], [DriveProofs]: what is mounted, and who has
      the image of the file transfer drive (hardware/usb/storage.rs,
      hardware/fs_remote.rs).
    - [FileTree], [RemoteFs], [RemoteFsProofs]: a tree of files whose calls can
      fail or write in part, and the operations on the mounted drive
      (hardware/fs_remote.rs); [FtUploads]: uploads to it;
      [FileServing]: downloads over HTTP and data channels (services/local_file.rs,
      services/ft_file.rs, web.rs, jsonrpc.rs).
    - [UsbPrefs], [UsbSettings], [PrefsProofs], [SettingsProofs]: stored switches
      of the USB functions, SSH forwarding and MCP, and the requests that change
      them (hardware/usb/mod.rs, mcp_ssh.rs, network_adapter.rs, jsonrpc.rs).

    Network, cloud, updates (application):
    - [IpAddr], [NetConf]: addresses and the file network.conf;
      [NetSettings], [NetSettingsProofs]: flat and VLAN settings and their
      application (network/network_conf.rs, vlan.rs, settings.rs, ..).
    - [Netlink]: the dump of addresses, byte by byte; [DhcpLeases], [NetIface]:
      leases, names and the state shown to clients (network/mod.rs, fqdn.rs);
      [Mdns] (network/mdns).
    - [Cloud]: the reconnect gate, the connection loop, pairing
      (cloud/manager.rs, cloud/websocket.rs).
    - [Download], [Ota]: resumed downloads and the tasks of an update
      (ota.rs, cloud/manager.rs).
    - [TimeSync] (time_sync.rs), [Jiggler] (jiggler.rs), [Wol] (wol.rs),
      [Tailscale] (plugin/).

    Files that end in [Witnesses] apply the theorems at concrete values, and show
    runs in which the code does not do what it means to; for the later parts
    these are at the end of their own file.

    ** What is shown

    Each theorem names its conditions; where the code does less than one would
    wish, a lemma next to the theorem or in the witnesses shows the run, and the
    doc comment of the theorem names it.

    - Control.  Under any interleaving at most one session passes the HID gate, as
      long as no session id is used with two roles (one signaling path does not
      ensure that: [two_roles_share_the_gate]); the lease refines a small arbiter;
      removal, refused offers and closed sockets leave nothing behind; the user
      can always take control back; over the whole registry, what drives keyboard
      and mouse runs for no other session; candidates reach their client in order;
      once the tasks are done the media run exactly if there is a session, when
      starts and stops succeed in their time.
    - Access.  A login opens exactly one role for a week; over HTTP nobody without
      the user's session touches a password that protects the device; the
      configuration on disk is valid, for operations one after the other and for
      updates that overlap without one being refused; a save on its own survives
      a crash at any of its steps; tickets are bounded; paths of clients stay in
      their directories; a certificate that is handed out is for the names asked
      for and goes with its key.
    - USB.  A bound gadget is the one of the current switches and fits the
      controller; a change of switches is atomic and, where the old tree can be
      removed, leaves no device suspended; no HID report is written during a
      change; the addresses offered to the host lie in the subnet.
    - Media.  Readers of remote images are equivalent to the image, and the block
      device serves them, for honest servers and images below what a [usize]
      holds; a mount that succeeds is what the host sees; the image of the file
      transfer drive is never shared by requests that do not overlap; uploads
      over HTTP are exact or invisible over failures and resumptions; what is
      written to the drive is read back when no write is lost in the background;
      what is served is what the headers say.
    - Streams.  Over every interleaving the bridge of a forward and the terminal
      give on a beginning of what they took, in order and at most once, and lose
      nothing while they live; what finds the queue of the terminal full, and what
      is on its way at the end, is lost.  The capture thread uses driver and
      encoder in their order and gives everything back.
    - Network and cloud.  Settings are read back as set, for clean flat settings
      that differ from the stored copy; the file network.conf keeps layer 3; no
      operation leaves reconnects suspended; the dump of addresses is decoded
      exactly.
    - Updates.  Only verified packages are installed while the cloud offers one
      release; downloads end and are prefixes of the file.  The clock is set to
      the median of the first three web servers that answer and agree.

    ** Choices

    Times are integers (milliseconds for tickets and the lease, seconds for login
    tokens) and an argument or a field of the state.  UUIDs come from a function
    of a counter, assumed injective where freshness matters.  Strings are byte
    sequences, so that [trim] follows the UTF-8 encodings of white space.
    Machine integers are [Z] with their wrap-around written out; [usize] has 32
    bits as on the device where a cast matters.  Floating point numbers are exact
    rationals.

    Code between two awaits, or under one lock, is one step; asynchronous tasks
    interleave between such steps, as relations or as runs over lists of events.
    A handler that is written with [?] through several awaits is given as a
    function, which is it run on its own, and where overlaps matter also as the
    list of its steps ([Async] of [StateLaws], definitions [.._steps]) that other
    tasks may run between; [alone_..] says that the two agree.  Crashes are the
    states between the steps of [Persist.save_file].

    A write to a file goes through a thread of [tokio]: it may fail after the call
    that made it has succeeded, and then the next write or flush on the same
    handle reports it ([Lost] of [FileTree], [WriteLost] of [Uploads]); [sync_all]
    does not.
    A loop that waits for the outside consumes a list of answers of its
    environment and ends with it; a bounded loop has the bound of the source (the
    interface wait of the adapter, the queued candidates, four tickets); the
    others take fuel or a measure, and a theorem next to them says that it is
    enough: [drain_spec] for the queue of a HID device, [evict_terminates] and
    [put_terminates] for the cache, [download_ends_exact] for a download.

    What the code calls and does not define is a parameter or an answer of the
    environment: bcrypt, JSON, encryption, WebRTC and WebSocket calls, web
    servers, commands and files of the kernel.  The theorems hold for every such
    answer unless they name the one they need.

    ** Not modelled

    The drivers behind the capture (V4L2, MPP, the encoder) and the capture of
    sound: calls of native libraries.  The making of keys and signatures, the NBD
    protocol, the encoding of messages on the bus: libraries.  Repairing and formatting the
    image of the drive: external tools.  The bodies of RPC methods that
    only forward to a part above, pages and static files of the web server, the
    drivers of ATX and front panel: glue.
    hardware/fs_fat32.rs and hardware/display.rs are not compiled.

    ** This file

    The vocabulary of the development: results, the state-and-error monad with
    its notation and tactic, machine integers, strings, and lemmas the components
    share. *)

From stdpp Require Export base gmap strings list option pretty.
From Stdlib Require Export ZArith Lia Ascii String.

(** [length] and [concat] are the ones on lists. *)
Abbreviation length := Datatypes.length (only parsing).
Abbreviation concat := List.concat (only parsing).

(** ** Results and the state-and-error monad

    Rust's [Result<T, E>] is [Result E T].  A fallible operation on a
    mutable state is a function [S -> S * Result E A]: as in Rust, what was
    written before an early return with [?] stays written. *)

Inductive Result (E A : Type) : Type :=
| Ok (a : A)
| Err (e : E).
Arguments Ok {E A} a.
Arguments Err {E A} e.

Definition is_ok {E A} (r : Result E A) : bool :=
  match r with Ok _ => true | Err _ => false end.

(** [Result::ok]. *)
Definition result_ok {E A} (r : Result E A) : option A :=
  match r with Ok a => Some a | Err _ => None end.

(** [Result::map] and [Result::map_err]. *)
Definition result_map {E A B} (f : A -> B) (r : Result E A) : Result E B :=
  match r with Ok a => Ok (f a) | Err e => Err e end.

Definition result_map_err {E F A} (f : E -> F) (r : Result E A) : Result F A :=
  match r with Ok a => Ok a | Err e => Err (f e) end.

(** [Option::ok_or_else]. *)
Definition ok_or {E A} (o : option A) (e : E) : Result E A :=
  match o with Some a => Ok a | None => Err e end.

#[export] Instance Result_eq_dec {E A} `{EqDecision E, EqDecision A} : EqDecision (Result E A).
Proof. solve_decision. Defined.

Definition SE (S E A : Type) : Type := S -> S * Result E A.

Section state_error.
Context {S E : Type}.

Definition se_ret {A} (a : A) : SE S E A := fun s => (s, Ok a).

Definition se_throw {A} (e : E) : SE S E A := fun s => (s, Err e).

Definition se_bind {A B} (m : SE S E A) (k : A -> SE S E B) : SE S E B :=
  fun s => match m s with
           | (s', Ok a) => k a s'
           | (s', Err e) => (s', Err e)
           end.

(** Reading the state, and changing it without failing. *)
Definition se_get {A} (f : S -> A) : SE S E A := fun s => (s, Ok (f s)).

Definition se_modify (f : S -> S) : SE S E unit := fun s => (f s, Ok tt).

(** A computation that returns a value and cannot fail. *)
Definition se_lift {A} (f : S -> S * A) : SE S E A :=
  fun s => let '(s', a) := f s in (s', Ok a).

(** [?] on a value. *)
Definition se_of_result {A} (r : Result E A) : SE S E A := fun s => (s, r).

(** Observe the outcome of [m] instead of propagating it ([match f() { .. }],
    [let _ = f()]). *)
Definition se_catch {F A} (m : SE S E A) : S -> S * Result F (Result E A) :=
  fun s => let '(s', r) := m s in (s', Ok r).

(** Early return when a guard holds. *)
Definition se_guard (b : bool) (e : E) : SE S E unit :=
  fun s => if b then (s, Err e) else (s, Ok tt).
End state_error.

Declare Scope se_scope.
Delimit Scope se_scope with se.
Notation "'let!' x ':=' m 'in' k" := (se_bind m (fun x => k))
  (at level 10, x pattern, m at level 100, k at level 200) : se_scope.
Notation "m ;;; k" := (se_bind m (fun _ => k))
  (at level 100, k at level 200, right associativity) : se_scope.
#[global] Open Scope se_scope.

(** Run the monad: expose what each step of a block does to the state. *)
Ltac se_unfold :=
  unfold se_bind, se_get, se_guard, se_modify, se_lift, se_of_result, se_catch, se_throw, se_ret.

(** ** Machine integers

    A [w]-bit unsigned value is a [Z] in [0 .. 2^w - 1]. *)

Definition u8_max : Z := 255.
Definition u16_max : Z := 65535.
Definition u32_max : Z := 4294967295.
Definition u64_max : Z := 18446744073709551615.

Definition wrap8 (z : Z) : Z := (z mod 256)%Z.
Definition wrap32 (z : Z) : Z := (z mod 4294967296)%Z.
Definition wrap64 (z : Z) : Z := (z mod 18446744073709551616)%Z.

(** [u32::wrapping_add], [u32::wrapping_sub], [u32::saturating_sub],
    [u8::saturating_add]. *)
Definition u32_wrapping_add (a b : Z) : Z := wrap32 (a + b).
Definition u32_wrapping_sub (a b : Z) : Z := wrap32 (a - b).
Definition u32_saturating_sub (a b : Z) : Z := Z.max 0 (a - b).
Definition u8_saturating_add (a b : Z) : Z := Z.min u8_max (a + b).

(** [as u8] and [as i8] on a 32-bit value, as [Z]. *)
Definition as_u8 (z : Z) : Z := wrap8 z.
Definition as_i8 (z : Z) : Z := let r := wrap8 z in if (r <? 128)%Z then r else (r - 256)%Z.

(** Big-endian reading of bytes ([uN::from_be_bytes]) and its inverse
    ([uN::to_be_bytes]). *)
Fixpoint be_combine (acc : Z) (bs : list Z) : Z :=
  match bs with
  | [] => acc
  | b :: bs' => be_combine (acc * 256 + b) bs'
  end.

Definition from_be_bytes (bs : list Z) : Z := be_combine 0 bs.

Fixpoint to_be_bytes (n : nat) (z : Z) : list Z :=
  match n with
  | O => []
  | S n' => to_be_bytes n' (z / 256) ++ [(z mod 256)%Z]
  end.

(** ** Strings

    A Rust [String] is its UTF-8 byte sequence: a [string] of 8-bit
    characters. *)

#[global] Open Scope string_scope.
#[global] Open Scope list_scope.

(** [char::is_whitespace] on the one, two and three byte encodings of the
    Unicode [White_Space] code points. *)
Definition byte_of (c : ascii) : Z := Z.of_N (N_of_ascii c).

Definition ws1 (a : ascii) : bool :=
  let a := byte_of a in ((9 <=? a) && (a <=? 13) || (a =? 32))%Z.

Definition ws2 (a b : ascii) : bool :=
  let a := byte_of a in let b := byte_of b in
  ((a =? 194) && ((b =? 133) || (b =? 160)))%Z.

Definition ws3 (a b c : ascii) : bool :=
  let a := byte_of a in let b := byte_of b in let c := byte_of c in
  (((a =? 225) && (b =? 154) && (c =? 128))
   || ((a =? 226) && (b =? 128) &&
       (((128 <=? c) && (c <=? 138)) || (c =? 168) || (c =? 169) || (c =? 175)))
   || ((a =? 226) && (b =? 129) && (c =? 159))
   || ((a =? 227) && (b =? 128) && (c =? 128)))%Z.

(** [str::trim_start] and, on the reversed bytes, [str::trim_end]. *)
Fixpoint trim_start (s : string) : string :=
  match s with
  | String a s1 =>
      if ws1 a then trim_start s1 else
      match s1 with
      | String b s2 =>
          if ws2 a b then trim_start s2 else
          match s2 with
          | String c s3 => if ws3 a b c then trim_start s3 else s
          | EmptyString => s
          end
      | EmptyString => s
      end
  | EmptyString => EmptyString
  end.

Fixpoint trim_end_rev (s : string) : string :=
  match s with
  | String a s1 =>
      if ws1 a then trim_end_rev s1 else
      match s1 with
      | String b s2 =>
          if ws2 b a then trim_end_rev s2 else
          match s2 with
          | String c s3 => if ws3 c b a then trim_end_rev s3 else s
          | EmptyString => s
          end
      | EmptyString => s
      end
  | EmptyString => EmptyString
  end.

Fixpoint string_rev_app (s acc : string) : string :=
  match s with
  | EmptyString => acc
  | String a s' => string_rev_app s' (String a acc)
  end.

Definition trim_end (s : string) : string :=
  string_rev_app (trim_end_rev (string_rev_app s EmptyString)) EmptyString.

Definition trim (s : string) : string := trim_end (trim_start s).

(** [str::to_ascii_lowercase] and [str::eq_ignore_ascii_case]. *)
Definition ascii_lower (c : ascii) : ascii :=
  let n := N_of_ascii c in
  if ((65 <=? n) && (n <=? 90))%N then ascii_of_N (n + 32) else c.

Fixpoint to_ascii_lowercase (s : string) : string :=
  match s with
  | EmptyString => EmptyString
  | String c s' => String (ascii_lower c) (to_ascii_lowercase s')
  end.

Definition eq_ignore_ascii_case (a b : string) : bool :=
  String.eqb (to_ascii_lowercase a) (to_ascii_lowercase b).

Definition is_empty (s : string) : bool :=
  match s with EmptyString => true | _ => false end.

(** [str::starts_with] and [str::contains] with a string pattern. *)
Definition starts_with (p s : string) : bool := String.prefix p s.

Fixpoint str_contains (p s : string) : bool :=
  starts_with p s ||
  match s with
  | EmptyString => false
  | String _ s' => str_contains p s'
  end.

(** [str::split(c)] with a character separator: the pieces, never empty. *)
Fixpoint split_on (c : ascii) (s : string) : list string :=
  match s with
  | EmptyString => [EmptyString]
  | String a s' =>
      if Ascii.eqb a c then EmptyString :: split_on c s' else
      match split_on c s' with
      | [] => [String a EmptyString]
      | p :: ps => String a p :: ps
      end
  end.

Definition digit_of (c : ascii) : option Z :=
  let n := byte_of c in
  if ((48 <=? n) && (n <=? 57))%Z then Some (n - 48)%Z else None.

Definition hex_digit_of (c : ascii) : option Z :=
  let n := byte_of c in
  if ((48 <=? n) && (n <=? 57))%Z then Some (n - 48)%Z
  else if ((97 <=? n) && (n <=? 102))%Z then Some (n - 87)%Z
  else if ((65 <=? n) && (n <=? 70))%Z then Some (n - 55)%Z
  else None.

(** The digit loop of [uN::from_str_radix]: every character a digit and no
    intermediate value above [max]. *)
Fixpoint parse_digits (radix max : Z) (dig : ascii -> option Z) (acc : Z) (s : string)
  : option Z :=
  match s with
  | EmptyString => Some acc
  | String c s' =>
      match dig c with
      | None => None
      | Some d =>
          let acc' := (acc * radix + d)%Z in
          if (acc' <=? max)%Z then parse_digits radix max dig acc' s' else None
      end
  end.

(** [uN::from_str_radix]: one leading [+] is accepted, the empty string and a
    lone sign are not. *)
Definition parse_unsigned (radix max : Z) (dig : ascii -> option Z) (s : string) : option Z :=
  match s with
  | EmptyString => None
  | String "+" EmptyString => None
  | String "+" s' => parse_digits radix max dig 0 s'
  | _ => parse_digits radix max dig 0 s
  end.

Definition parse_u8 : string -> option Z := parse_unsigned 10 u8_max digit_of.
Definition parse_u16 : string -> option Z := parse_unsigned 10 u16_max digit_of.
Definition parse_u32 : string -> option Z := parse_unsigned 10 u32_max digit_of.

(** Decimal rendering of an unsigned integer ([{}]), and of a byte as two
    lower-case hexadecimal digits ([{:02x}]). *)
Definition show_nat (z : Z) : string := pretty (Z.to_N z).

Definition hex_char (n : Z) : ascii :=
  if (n <? 10)%Z then ascii_of_N (Z.to_N (n + 48)) else ascii_of_N (Z.to_N (n + 87)).

Definition show_hex2 (b : Z) : string :=
  String (hex_char (b / 16)) (String (hex_char (b mod 16)) EmptyString).

(** ** Shared lemmas *)

(** What every step preserves, a run preserves. *)
Lemma fold_left_inv {A B} (P : A -> Prop) (f : A -> B -> A) l a :
  (∀ a b, P a -> P (f a b)) -> P a -> P (fold_left f l a).
Proof. intros Hf. revert a. induction l as [|b l IH]; intros a Ha; cbn; auto. Qed.

Lemma wrap64_small z : (0 <= z < 2 ^ 64)%Z -> wrap64 z = z.
Proof. intros Hz. unfold wrap64. by rewrite Z.mod_small. Qed.

Lemma be_combine_snoc acc bs b : be_combine acc (bs ++ [b]) = (be_combine acc bs * 256 + b)%Z.
Proof. revert acc. induction bs as [|x bs IH]; intros acc; cbn; [done|]. apply IH. Qed.

Lemma to_be_bytes_length n z : length (to_be_bytes n z) = n.
Proof.
  revert z. induction n as [|n IH]; intros z; cbn; [done|]. rewrite length_app, IH. cbn. lia.
Qed.

Lemma be_bytes_roundtrip n z :
  (0 <= z < 256 ^ Z.of_nat n)%Z -> from_be_bytes (to_be_bytes n z) = z.
Proof.
  unfold from_be_bytes. revert z. induction n as [|n IH]; intros z Hz; cbn [to_be_bytes].
  - cbn in Hz |- *. lia.
  - rewrite be_combine_snoc, IH.
    + pose proof (Z.div_mod z 256). lia.
    + rewrite Nat2Z.inj_succ, Z.pow_succ_r in Hz by lia.
      split; [apply Z.div_pos; lia|apply Z.div_lt_upper_bound; lia].
Qed.
