(* ===== verification/StateLaws.v ===== *)
(** * What computations leave alone

    For the state and error monad of the prelude: that a computation keeps a
    predicate of the state, or takes every state to one in a relation with
    it, from its parts; and what the parts of a successful run did.  At the
    end, computations that are cut into steps, between which others run. *)

From S2P Require Import Prelude.

(** ** Predicates *)

Definition keeps {S E} (P : S -> Prop) {A} (m : SE S E A) : Prop := ∀ s, P s -> P (m s).1.

Section keeps.
Context {S E : Type} (P : S -> Prop).
Implicit Types (s : S).

Lemma keeps_bind {A B} (m : SE S E A) (f : A -> SE S E B) :
  keeps P m -> (∀ x, keeps P (f x)) -> keeps P (se_bind m f).
Proof. intros Hm Hf s Hs. unfold se_bind. specialize (Hm s Hs). destruct (m s) as [s' [x|e]]; [by apply Hf|done]. Qed.

(** A part that reads the state first. *)
Lemma keeps_read {A B} (g : S -> A) (f : A -> SE S E B) :
  (∀ s, P s -> keeps P (f (g s))) -> keeps P (se_bind (se_get g) f).
Proof. intros Hf s Hs. by apply Hf. Qed.

Lemma keeps_ret {A} (a : A) : keeps P (se_ret (E := E) a).
Proof. by intros s. Qed.
Lemma keeps_throw {A} (e : E) : keeps P (se_throw (A := A) e).
Proof. by intros s. Qed.
Lemma keeps_get {A} (f : S -> A) : keeps P (se_get (E := E) f).
Proof. by intros s. Qed.
Lemma keeps_of_result {A} (r : Result E A) : keeps P (se_of_result r).
Proof. by intros s. Qed.
Lemma keeps_guard b (e : E) : keeps P (se_guard b e).
Proof. intros s. by destruct b. Qed.
Lemma keeps_catch {F A} (m : SE S E A) : keeps P m -> keeps P (se_catch (F := F) m).
Proof. intros Hm s Hs. unfold se_catch. specialize (Hm s Hs). by destruct (m s). Qed.
Lemma keeps_modify f : (∀ s, P s -> P (f s)) -> keeps P (se_modify (E := E) f).
Proof. intros Hf s. apply Hf. Qed.
End keeps.

Create HintDb keeps.
#[export] Hint Resolve keeps_ret keeps_throw keeps_get keeps_of_result keeps_guard keeps_catch : keeps.

(** Computations that agree on every state, in parts. *)
Lemma se_bind_ext {S E A B} (m m' : SE S E A) (k k' : A -> SE S E B) s :
  m s = m' s -> (∀ a s, k a s = k' a s) -> se_bind m k s = se_bind m' k' s.
Proof. unfold se_bind. intros -> Hk. by destruct (m' s) as [s' [a|e]]. Qed.

Lemma se_bind_assoc {S E A B C} (m : SE S E A) (k : A -> SE S E B) (l : B -> SE S E C) s :
  se_bind m (fun a => se_bind (k a) l) s = se_bind (se_bind m k) l s.
Proof. unfold se_bind. by destruct (m s) as [s' [a|e]]. Qed.

(** Split a computation into its parts. *)
Ltac keeps_step :=
  match goal with
  | |- keeps _ (se_bind _ _) => apply keeps_bind; [|intros ?]
  | |- keeps _ (se_catch _) => apply keeps_catch
  | |- keeps _ (match ?x with _ => _ end) => destruct x
  end.
Ltac keeps_solve := repeat first [solve [eauto with keeps] | keeps_step].

(** ** Relations *)

Definition moves {S E} (R : S -> S -> Prop) {A} (m : SE S E A) : Prop := ∀ s, R s (m s).1.

Section moves.
Context {S E : Type} (R : S -> S -> Prop) `{!PreOrder R}.

Lemma moves_bind {A B} (m : SE S E A) (k : A -> SE S E B) : moves R m -> (∀ a, moves R (k a)) -> moves R (se_bind m k).
Proof.
  intros Hm Hk s. unfold se_bind. specialize (Hm s). destruct (m s) as [s1 [a|x]]; [|done].
  etransitivity; [exact Hm|apply Hk].
Qed.

Lemma moves_pure {A} (m : SE S E A) : (∀ s, (m s).1 = s) -> moves R m.
Proof. intros Hm s. by rewrite Hm. Qed.

Lemma moves_guard b (x : E) : moves R (se_guard b x).
Proof. apply moves_pure. intros s. by destruct b. Qed.

Lemma moves_modify f : (∀ s, R s (f s)) -> moves R (se_modify (E := E) f).
Proof. intros Hf s. apply Hf. Qed.

Lemma moves_map {A B} (m : SE S E A) (f : Result E A -> Result E B) :
  moves R m -> moves R (fun s => let '(s, r) := m s in (s, f r)).
Proof. intros Hm s. specialize (Hm s). by destruct (m s). Qed.
End moves.

(** Steps of a proof that an operation moves as [P]: the pieces that read,
    throw or branch move nowhere; [tac] is for those that change the state. *)
Ltac moves_with tac :=
  repeat match goal with
  | |- moves _ (se_bind _ _) => apply moves_bind; [exact _| |intros ?]
  | |- moves _ (se_guard _ _) => apply moves_guard; exact _
  | |- moves _ (se_get _) => apply moves_pure; [exact _|done]
  | |- moves _ (se_ret _) => apply moves_pure; [exact _|done]
  | |- moves _ (se_throw _) => apply moves_pure; [exact _|done]
  | |- moves _ (se_of_result _) => apply moves_pure; [exact _|done]
  | |- moves _ (match ?x with _ => _ end) => destruct x
  | |- moves _ (fun s => let '(_, _) := ?m s in _) => apply moves_map
  | |- moves _ _ => tac
  end.

(** ** Successful runs *)

Lemma bind_ok {S E A B} (m : SE S E A) (f : A -> SE S E B) s s' b :
  se_bind m f s = (s', Ok b) -> ∃ s1 a, m s = (s1, Ok a) /\ f a s1 = (s', Ok b).
Proof. unfold se_bind. destruct (m s) as [s1 [a|e]]; [eauto|done]. Qed.

Lemma guard_ok {S E} b (e : E) (s s' : S) u : se_guard b e s = (s', Ok u) -> s' = s /\ b = false.
Proof. unfold se_guard. destruct b; [done|]. by intros [= <- _]. Qed.

Lemma of_result_ok {S E A} (r : Result E A) (s s' : S) a : se_of_result r s = (s', Ok a) -> s' = s /\ r = Ok a.
Proof. by intros [= <- ->]. Qed.

(** Take a successful run apart. *)
Ltac ok_step :=
  match goal with
  | E : se_bind _ _ _ = (_, Ok _) |- _ => let d := fresh "d" in let a := fresh "a" in apply bind_ok in E as (d & a & ? & E)
  | E : se_guard _ _ _ = (_, Ok _) |- _ => apply guard_ok in E as [-> ?]
  | E : se_of_result _ _ = (_, Ok _) |- _ => apply of_result_ok in E as [-> ?]
  | E : se_ret _ _ = (_, Ok _) |- _ => injection E as <- <-
  end.

(** ** Computations in steps

    A task of the program runs from one await to the next; between two of
    its steps other tasks may run, and the program may end. *)

Inductive Async (S E A : Type) : Type :=
| Done (r : Result E A)
| Step (f : S -> S * Async S E A).
Arguments Done {S E A} r.
Arguments Step {S E A} f.

Section async.
Context {S E : Type}.

(** A computation without an await, as one step. *)
Definition at_once {A} (m : SE S E A) : Async S E A :=
  Step (fun s => let '(s', r) := m s in (s', Done r)).

Fixpoint then_async {A B} (m : Async S E A) (k : A -> Async S E B) : Async S E B :=
  match m with
  | Done (Ok a) => k a
  | Done (Err e) => Done (Err e)
  | Step f => Step (fun s => let '(s', m') := f s in (s', then_async m' k))
  end.

(** The result, an error included, as a value. *)
Fixpoint catch_async {F A} (m : Async S E A) : Async S F (Result E A) :=
  match m with
  | Done r => Done (Ok r)
  | Step f => Step (fun s => let '(s', m') := f s in (s', catch_async m'))
  end.

(** A task that no other interrupts. *)
Fixpoint alone {A} (m : Async S E A) : SE S E A :=
  fun s => match m with
           | Done r => (s, r)
           | Step f => let '(s', m') := f s in alone m' s'
           end.

(** State and rest of the task after [n] of its steps. *)
Fixpoint after {A} (n : nat) (m : Async S E A) (s : S) : S * Async S E A :=
  match n, m with
  | Datatypes.S n, Step f => let '(s', m') := f s in after n m' s'
  | _, _ => (s, m)
  end.

(** Tasks side by side: each entry of the schedule names the task that takes
    the next step. *)
Fixpoint scheduled {A} (sched : list nat) (s : S) (ts : list (Async S E A)) : S * list (Async S E A) :=
  match sched with
  | [] => (s, ts)
  | i :: sched =>
      match ts !! i with
      | Some (Step f) => let '(s', t) := f s in scheduled sched s' (<[i := t]> ts)
      | _ => scheduled sched s ts
      end
  end.

(** [I] holds at every step of the task, [Q] of its result and last state. *)
Fixpoint through {A} (I : S -> Prop) (Q : Result E A -> S -> Prop) (m : Async S E A) (s : S) : Prop :=
  match m with
  | Done r => I s /\ Q r s
  | Step f => I s /\ let '(s', m') := f s in through I Q m' s'
  end.
End async.

Notation "'wait!' x ':=' m 'in' k" := (then_async m (fun x => k))
  (at level 10, x pattern, m at level 100, k at level 200) : se_scope.
Notation "m ;;> k" := (then_async m (fun _ => k))
  (at level 100, k at level 200, right associativity) : se_scope.

Section async_laws.
Context {S E : Type}.

(** Induction over the steps. *)
Lemma async_ind {A} (P : Async S E A -> Prop) :
  (∀ r, P (Done r)) -> (∀ f, (∀ s, P (f s).2) -> P (Step f)) -> ∀ m, P m.
Proof.
  intros Hd Hs. fix IH 1. intros [r|f]; [apply Hd|]. apply Hs. intros s. destruct (f s) as [s' m]. apply IH.
Qed.

Lemma alone_at_once {A} (m : SE S E A) s : alone (at_once m) s = m s.
Proof. unfold at_once. cbn. by destruct (m s). Qed.

Lemma alone_then {A B} (m : Async S E A) (k : A -> Async S E B) s :
  alone (then_async m k) s = se_bind (alone m) (fun a => alone (k a)) s.
Proof.
  revert s. induction m as [[a|e]|f IH] using async_ind; intros s; [done..|].
  cbn. specialize (IH s). unfold se_bind in *. cbn. destruct (f s) as [s' m]. apply IH.
Qed.

Lemma alone_catch {F A} (m : Async S E A) s : alone (catch_async (F := F) m) s = se_catch (alone m) s.
Proof.
  revert s. induction m as [r|f IH] using async_ind; intros s; [done|].
  cbn. specialize (IH s). unfold se_catch in *. cbn. destruct (f s) as [s' m]. apply IH.
Qed.

Lemma alone_catch_once {F A} (m : SE S E A) s : alone (catch_async (F := F) (at_once m)) s = se_catch m s.
Proof. rewrite alone_catch. unfold se_catch. by rewrite alone_at_once. Qed.

Section through.
Context (I : S -> Prop).

Lemma through_now {A} Q (m : Async S E A) s : through I Q m s -> I s.
Proof. destruct m; cbn; tauto. Qed.

Lemma through_mono {A} (Q Q' : Result E A -> S -> Prop) m s :
  (∀ r s', Q r s' -> Q' r s') -> through I Q m s -> through I Q' m s.
Proof.
  intros HQ. revert s. induction m as [r|f IH] using async_ind; intros s; cbn; [naive_solver|].
  intros [Hi Hr]. split; [done|]. specialize (IH s). destruct (f s) as [s' m]. by apply IH.
Qed.

Lemma through_then {A B} Q (m : Async S E A) (k : A -> Async S E B) s :
  through I (fun r s' => match r with Ok a => through I Q (k a) s' | Err e => Q (Err e) s' end) m s ->
  through I Q (then_async m k) s.
Proof.
  revert s. induction m as [[a|e]|f IH] using async_ind; intros s; cbn; [tauto|done|].
  intros [Hi Hr]. split; [done|]. specialize (IH s). destruct (f s) as [s' m]. by apply IH.
Qed.

Lemma through_catch {F A} Q (m : Async S E A) s :
  through I (fun r s' => Q (Ok r) s') m s -> through I Q (catch_async (F := F) m) s.
Proof.
  revert s. induction m as [r|f IH] using async_ind; intros s; cbn; [done|].
  intros [Hi Hr]. split; [done|]. specialize (IH s). destruct (f s) as [s' m]. by apply IH.
Qed.

Lemma through_at_once {A} Q (m : SE S E A) s :
  I s -> (let '(s', r) := m s in I s' /\ Q r s') -> through I Q (at_once m) s.
Proof. unfold at_once. cbn. destruct (m s). done. Qed.

(** At every point where the task may be cut off. *)
Lemma through_after {A} Q (m : Async S E A) n s : through I Q m s -> I (after n m s).1.
Proof.
  revert m s. induction n as [|n IH]; intros m s Ht; [by apply through_now in Ht|].
  destruct m as [r|f]; cbn in *; [apply Ht|]. destruct Ht as [_ Ht].
  destruct (f s) as [s' m]. by apply IH.
Qed.

Lemma through_alone {A} Q (m : Async S E A) s :
  through I Q m s -> Q (alone m s).2 (alone m s).1 /\ I (alone m s).1.
Proof.
  revert s. induction m as [r|f IH] using async_ind; intros s; cbn; [tauto|].
  intros [_ Ht]. specialize (IH s). destruct (f s) as [s' m]. by apply IH.
Qed.
End through.
End async_laws.
