(* ===== verification/Text.v ===== *)
(** * Text functions of the Rust standard library

    The [str] methods and number parsers beyond those of the prelude, and
    the part of [std::path] the source uses: components, [is_absolute],
    [file_name], [join] and [starts_with] of a Unix path. *)

From S2P Require Import Prelude.

(** ** Strings *)

Definition str_drop (n : nat) (s : string) : string :=
  String.substring n (String.length s - n) s.

(** [str::strip_prefix] and [str::strip_suffix] with a string pattern. *)
Definition strip_prefix (p s : string) : option string :=
  if starts_with p s then Some (str_drop (String.length p) s) else None.

Definition ends_with (p s : string) : bool :=
  starts_with (string_rev_app p EmptyString) (string_rev_app s EmptyString).

Definition strip_suffix (p s : string) : option string :=
  if ends_with p s then Some (String.substring 0 (String.length s - String.length p) s) else None.

(** [str::split_once(c)] with a character. *)
Fixpoint split_once (c : ascii) (s : string) : option (string * string) :=
  match s with
  | EmptyString => None
  | String a s' =>
      if Ascii.eqb a c then Some (EmptyString, s') else
      match split_once c s' with
      | Some (x, y) => Some (String a x, y)
      | None => None
      end
  end.

(** [str::trim_start_matches(c)] and [str::trim_end_matches(c)]. *)
Fixpoint trim_start_matches (c : ascii) (s : string) : string :=
  match s with
  | String a s' => if Ascii.eqb a c then trim_start_matches c s' else s
  | EmptyString => EmptyString
  end.

Definition trim_end_matches (c : ascii) (s : string) : string :=
  string_rev_app (trim_start_matches c (string_rev_app s EmptyString)) EmptyString.

(** [str::contains(p)]. *)
Fixpoint contains_str (p s : string) : bool :=
  starts_with p s || match s with EmptyString => false | String _ s' => contains_str p s' end.

(** [str::contains(c)]. *)
Fixpoint contains_char (c : ascii) (s : string) : bool :=
  match s with
  | EmptyString => false
  | String a s' => Ascii.eqb a c || contains_char c s'
  end.

(** [str::replace] of a character by a character, and of two adjacent equal
    characters by one ([replace("//", "/")]: the matches do not overlap). *)
Fixpoint replace_char (c d : ascii) (s : string) : string :=
  match s with
  | EmptyString => EmptyString
  | String a s' => String (if Ascii.eqb a c then d else a) (replace_char c d s')
  end.

Fixpoint replace_double (c : ascii) (s : string) : string :=
  match s with
  | String a (String b s' as t) =>
      if Ascii.eqb a c && Ascii.eqb b c then String c (replace_double c s')
      else String a (replace_double c t)
  | _ => s
  end.

(** [\[&str\]::join] with a separator. *)
Fixpoint str_join (sep : string) (l : list string) : string :=
  match l with
  | [] => EmptyString
  | [x] => x
  | x :: l' => x +:+ sep +:+ str_join sep l'
  end.

(** [i64::from_str] and [u64::from_str]. *)
Definition i64_max : Z := 9223372036854775807.

Definition parse_u64 : string -> option Z := parse_unsigned 10 u64_max digit_of.

Definition parse_i64 (s : string) : option Z :=
  match s with
  | String "-" EmptyString => None
  | String "-" s' => Z.opp <$> parse_digits 10 (i64_max + 1) digit_of 0 s'
  | _ => parse_unsigned 10 i64_max digit_of s
  end.

(** ** Paths *)

Inductive Component : Set :=
| RootDir | CurDir | ParentDir | Normal (name : string).

#[export] Instance Component_eq_dec : EqDecision Component.
Proof. solve_decision. Defined.

(** A piece between slashes: empty pieces and dots vanish. *)
Definition piece_component (p : string) : list Component :=
  if is_empty p || String.eqb p "." then []
  else if String.eqb p ".." then [ParentDir] else [Normal p].

(** [Path::components]: a leading slash is the root, a leading dot of a
    relative path is kept. *)
Definition components (s : string) : list Component :=
  match split_on "/" s with
  | [] => []
  | p :: ps =>
      (if starts_with "/" s then [RootDir]
       else if String.eqb p "." then [CurDir] else piece_component p)
      ++ List.concat (piece_component <$> ps)
  end.

Definition is_absolute (s : string) : bool := starts_with "/" s.

(** [Path::file_name]: the last component when it is a name. *)
Definition path_file_name (s : string) : option string :=
  match last (components s) with
  | Some (Normal n) => Some n
  | _ => None
  end.

(** [Path::join]. *)
Definition path_join (base p : string) : string :=
  if is_absolute p then p
  else if is_empty base || ends_with "/" base then base +:+ p
  else base +:+ "/" +:+ p.

(** [Path::starts_with]: by components. *)
Definition path_starts_with (s base : string) : bool :=
  bool_decide (take (length (components base)) (components s) = components base).

(** ** Lemmas *)

Lemma str_app_cons a s t : String a s +:+ t = String a (s +:+ t).
Proof. reflexivity. Qed.

Lemma str_app_nil s : s +:+ "" = s.
Proof. induction s as [|a s IH]; [done|]. by rewrite str_app_cons, IH. Qed.

Lemma str_app_assoc a b c : (a +:+ b) +:+ c = a +:+ b +:+ c.
Proof. induction a as [|x a IH]; [done|]. by rewrite !str_app_cons, IH. Qed.

Lemma str_length_app a b : String.length (a +:+ b) = (String.length a + String.length b)%nat.
Proof. induction a as [|x a IH]; [done|]. rewrite str_app_cons. cbn. by rewrite IH. Qed.

Lemma str_app_inj_r a b c : b +:+ a = c +:+ a -> b = c.
Proof.
  revert c. induction b as [|x b IH]; intros [|y c] H; [done|..].
  - apply (f_equal String.length) in H. rewrite !str_length_app in H. cbn in H. lia.
  - apply (f_equal String.length) in H. rewrite !str_length_app in H. cbn in H. lia.
  - rewrite !str_app_cons in H. injection H as -> H. f_equal. by apply IH.
Qed.

Lemma starts_with_app p s : starts_with p (p +:+ s) = true.
Proof.
  unfold starts_with. induction p as [|c p IH]; [by destruct s|].
  rewrite str_app_cons. cbn. by destruct (ascii_dec c c).
Qed.

Lemma substring_all s n : (String.length s <= n)%nat -> String.substring 0 n s = s.
Proof. revert n. induction s as [|c s IH]; intros [|n]; cbn; try done; [lia|]. intros. f_equal. apply IH. lia. Qed.

Lemma substring_prefix n x y : n = String.length x -> String.substring 0 n (x +:+ y) = x.
Proof. intros ->. induction x as [|a x IH]; [by destruct y|]. rewrite str_app_cons. cbn. by rewrite IH. Qed.

Lemma str_drop_app p s : str_drop (String.length p) (p +:+ s) = s.
Proof.
  unfold str_drop. rewrite str_length_app. replace (String.length p + String.length s - String.length p)%nat with (String.length s) by lia.
  induction p as [|c p IH]; [by apply substring_all|]. rewrite str_app_cons. cbn. exact IH.
Qed.

Lemma prefix_split p s : starts_with p s = true -> ∃ t, s = p +:+ t.
Proof.
  unfold starts_with. revert s. induction p as [|c p IH]; intros s H; [by exists s|].
  destruct s as [|d s]; [done|]. cbn in H. destruct (ascii_dec c d) as [<-|]; [|done].
  destruct (IH _ H) as [t ->]. exists t. by rewrite str_app_cons.
Qed.

Lemma strip_prefix_spec p s t : strip_prefix p s = Some t <-> s = p +:+ t.
Proof.
  unfold strip_prefix. split.
  - destruct (starts_with p s) eqn:E; [|done]. intros [= <-]. apply prefix_split in E as [t ->]. by rewrite str_drop_app.
  - intros ->. by rewrite starts_with_app, str_drop_app.
Qed.

Lemma strip_prefix_app p s : strip_prefix p (p +:+ s) = Some s.
Proof. by apply strip_prefix_spec. Qed.

Lemma split_on_not_nil c s : split_on c s ≠ [].
Proof. destruct s as [|a s]; cbn; [done|]. repeat case_match; done. Qed.

(** No piece of a split holds the separator. *)
Lemma split_on_pieces c s : Forall (fun p => contains_char c p = false) (split_on c s).
Proof.
  induction s as [|a s IH]; cbn; [by constructor|].
  destruct (Ascii.eqb a c) eqn:Ea; [by constructor|].
  destruct (split_on c s) as [|p ps]; [by constructor; cbn; rewrite ?Ea|].
  inversion IH; subst. constructor; [|done]. cbn. by rewrite Ea.
Qed.

Lemma split_on_app c s t :
  split_on c (s +:+ String c t) = split_on c s ++ split_on c t.
Proof.
  induction s as [|a s IH]; [|rewrite str_app_cons]; cbn.
  - change ("" +:+ String c t) with (String c t). cbn. by rewrite Ascii.eqb_refl.
  - destruct (Ascii.eqb a c); [cbn; by rewrite IH|]. rewrite IH.
    destruct (split_on c s) as [|p ps] eqn:E; [by destruct (split_on_not_nil c s)|done].
Qed.

Lemma split_on_whole c s : contains_char c s = false -> split_on c s = [s].
Proof.
  induction s as [|a s IH]; cbn; [done|]. intros [Ha Hs]%orb_false_iff. by rewrite Ha, (IH Hs).
Qed.

(** A name: what a single normal component can be. *)
Definition plain_name (s : string) : Prop :=
  s ≠ "" /\ s ≠ "." /\ s ≠ ".." /\ contains_char "/" s = false.

Lemma piece_component_plain s : plain_name s -> piece_component s = [Normal s].
Proof.
  intros (H1 & H2 & H3 & _). unfold piece_component.
  destruct (is_empty s) eqn:E; [by destruct s|].
  apply String.eqb_neq in H2, H3. by rewrite H2, H3.
Qed.

Lemma piece_component_normal p n :
  contains_char "/" p = false -> Normal n ∈ piece_component p -> plain_name n /\ p = n.
Proof.
  intros Hc. unfold piece_component. destruct (is_empty p) eqn:E; cbn [orb]; [set_solver|].
  destruct (String.eqb_spec p "."); [set_solver|]. destruct (String.eqb_spec p ".."); [set_solver|].
  intros [= ->]%list_elem_of_singleton. split; [|done]. split_and!; try done. by intros ->.
Qed.

(** Joining to an absolute directory without a trailing slash appends the
    components of a relative path. *)
Lemma components_join base p :
  is_absolute base = true -> ends_with "/" base = false -> is_absolute p = false ->
  components (path_join base p)
  = components base ++ List.concat (piece_component <$> split_on "/" p).
Proof.
  intros Hb He Hp. unfold path_join. rewrite Hp, He.
  destruct base as [|c base]; [done|]. cbn [is_empty orb].
  unfold is_absolute, starts_with in Hb. cbn in Hb. destruct (ascii_dec "/" c) as [<-|]; [|by case_match].
  change (String "/" base +:+ "/" +:+ p) with (String "/" (base +:+ String "/" p)).
  unfold components. cbn [split_on]. rewrite split_on_app. cbn.
  assert (He2 : ∀ s, String.prefix "" s = true) by (by intros []).
  by rewrite fmap_app, concat_app, !He2.
Qed.
