(* ===== verification/Session.v ===== *)
(** * Sessions (arkkvm/src/session.rs)

    The client role, the parts of a [Session] the control plane reads, and
    the WebTerminal slot a session owns until it is torn down. *)

From S2P Require Import Prelude.

(** ** Roles *)

Inductive SessionRole : Set := User | Agent.

#[export] Instance SessionRole_eq_dec : EqDecision SessionRole.
Proof. solve_decision. Defined.

#[export] Instance SessionRole_countable : Countable SessionRole.
Proof.
  apply (inj_countable' (fun r => match r with User => true | Agent => false end)
           (fun b : bool => if b then User else Agent)).
  by intros [].
Defined.

Definition role_as_str (r : SessionRole) : string :=
  match r with User => "user" | Agent => "agent" end.

Definition role_parse (s : string) : option SessionRole :=
  let s := to_ascii_lowercase (trim s) in
  if String.eqb s "user" then Some User
  else if String.eqb s "agent" then Some Agent
  else None.

Definition role_from_str (s : string) : Result string SessionRole :=
  ok_or (role_parse s) ("invalid session role: " +:+ s).

(** ** Sessions

    [session_ptr] is the address of the [Arc<Session>] allocation, which
    [Arc::ptr_eq] compares; [peer_connection] is the address of the shared
    peer connection.  The media tracks and the data channels are handles the
    control plane only passes on and are left out. *)

Record Session := mkSession {
  session_ptr : nat;
  session_id : string;
  session_role : SessionRole;
  peer_connection : option nat;
  is_cloud : bool;
  cloud_client_id : option string
}.

#[export] Instance Session_eq_dec : EqDecision Session.
Proof. solve_decision. Defined.

Definition new_with_role (ptr : nat) (id : string) (role : SessionRole) (cloud : bool) : Session :=
  mkSession ptr id role None cloud None.

Definition new_with_cloud (ptr : nat) (id : string) (cloud : bool) : Session :=
  new_with_role ptr id User cloud.

Definition session_new (ptr : nat) (id : string) : Session :=
  new_with_role ptr id User false.

(** [Arc::ptr_eq] *)
Definition ptr_eq (a b : Session) : bool := bool_decide (session_ptr a = session_ptr b).

(** ** The WebTerminal slot

    [TerminalHandle] is a number; [stop] and [stop_and_wait] on a handle are
    recorded in the list of stopped handles the operation returns. *)

Inductive TerminalSlot : Set :=
| Open (h : option nat)
| Closed.

Definition install_terminal (slot : TerminalSlot) (handle : nat)
  : TerminalSlot * list nat * Result nat unit :=
  match slot with
  | Closed => (Closed, [], Err handle)
  | Open inner =>
      let stopped := match inner with Some prev => [prev] | None => [] end in
      (Open (Some handle), stopped, Ok tt)
  end.

Definition stop_terminal (slot : TerminalSlot) : TerminalSlot * list nat :=
  let handle := match slot with Open h => h | Closed => None end in
  (Closed, match handle with Some h => [h] | None => [] end).

(** ** Theorems *)

Lemma role_parse_as_str r : role_parse (role_as_str r) = Some r.
Proof. by destruct r. Qed.

Section terminal.
Inductive TermOp : Set := OpInstall (h : nat) | OpStop.

(** What a run of operations did to the handles it was given: the slot, the
    handles stopped, and the handles handed back to the caller, who has to
    stop them. *)
Record TermRun := mkTermRun {
  tr_slot : TerminalSlot; tr_stopped : list nat; tr_returned : list nat }.

Definition term_step (t : TermRun) (o : TermOp) : TermRun :=
  match o with
  | OpInstall h =>
      let '(slot, stopped, r) := install_terminal (tr_slot t) h in
      mkTermRun slot (stopped ++ tr_stopped t)
        (match r with Err h' => h' :: tr_returned t | Ok _ => tr_returned t end)
  | OpStop =>
      let '(slot, stopped) := stop_terminal (tr_slot t) in
      mkTermRun slot (stopped ++ tr_stopped t) (tr_returned t)
  end.

Definition term_run (ops : list TermOp) : TermRun :=
  fold_left term_step ops (mkTermRun (Open None) [] []).

Definition live (slot : TerminalSlot) : list nat :=
  match slot with Open (Some h) => [h] | _ => [] end.

Definition installs (ops : list TermOp) : list nat :=
  omap (fun o => match o with OpInstall h => Some h | OpStop => None end) ops.

Lemma term_step_accounts t o :
  live (tr_slot (term_step t o)) ++ tr_stopped (term_step t o) ++ tr_returned (term_step t o)
  ≡ₚ installs [o] ++ live (tr_slot t) ++ tr_stopped t ++ tr_returned t.
Proof.
  destruct t as [[[h'|]|] st ret], o as [h|]; simpl; try reflexivity; [solve_Permutation..].
Qed.

(** No terminal handle is lost: after any sequence of installs and
    teardowns, the handles given are, each once, the one in the slot, the
    ones stopped, and the ones handed back to be stopped by the caller. *)
Theorem terminal_handles_accounted ops :
  installs ops ≡ₚ
    live (tr_slot (term_run ops)) ++ tr_stopped (term_run ops) ++ tr_returned (term_run ops).
Proof.
  unfold term_run.
  induction ops as [|o ops IH] using rev_ind; [reflexivity|].
  rewrite fold_left_app. simpl. rewrite term_step_accounts, <- IH.
  unfold installs. rewrite omap_app. simpl. solve_Permutation.
Qed.

(** Once closed, always closed: the rest of a run from a closed slot. *)
Lemma closed_run ops t :
  tr_slot t = Closed ->
  let t' := fold_left term_step ops t in
  tr_slot t' = Closed /\ tr_returned t' = reverse (installs ops) ++ tr_returned t.
Proof.
  revert t. induction ops as [|[h|] ops IH]; intros t Ht; cbn [fold_left]; cbv zeta; [done| |].
  - destruct (IH (term_step t (OpInstall h))) as [H1 H2]; [by simpl; rewrite Ht|].
    split; [exact H1|]. rewrite H2. simpl. rewrite Ht. simpl.
    by rewrite reverse_cons, <- app_assoc.
  - destruct (IH (term_step t OpStop)) as [H1 H2]; [done|].
    by split.
Qed.

(** Teardown is final: once a session stopped its terminal, the slot is
    closed after every later operation and each later install hands its
    handle back. *)
Theorem terminal_closed_is_final ops ops' :
  let t := term_run (ops ++ OpStop :: ops') in
  tr_slot t = Closed /\
  tr_returned t = reverse (installs ops') ++ tr_returned (term_run (ops ++ [OpStop])).
Proof.
  cbv zeta. unfold term_run. rewrite !fold_left_app. cbn [fold_left]. by apply closed_run.
Qed.
End terminal.
