(* ===== verification/AppState.v ===== *)
(** * The session registry (arkkvm/src/state.rs)

    The shared [AppState]: the registered sessions, the session id that holds
    each role's slot, and the ICE candidates queued for local WebSocket
    clients.  Each field sits behind its own lock; an operation that takes
    more than one is split where the locks are released (see
    [SessionPlane]). *)

From S2P Require Import Prelude Session.

Inductive ClaimRoleResult : Set :=
| Accepted (previous : option Session)
| RejectedOccupied
| RejectedMcpDisabled
| NotRegistered.

Record AppState := mkAppState {
  sessions : gmap string Session;
  role_sessions : gmap SessionRole string;
  sockets : gmap string nat;
  websocket_ice_queue : gmap string (list string)
}.

Definition app_new : AppState := mkAppState ∅ ∅ ∅ ∅.

Definition set_sessions (m : gmap string Session) (st : AppState) : AppState :=
  mkAppState m (role_sessions st) (sockets st) (websocket_ice_queue st).
Definition set_roles (m : gmap SessionRole string) (st : AppState) : AppState :=
  mkAppState (sessions st) m (sockets st) (websocket_ice_queue st).
Definition set_ice_queue (m : gmap string (list string)) (st : AppState) : AppState :=
  mkAppState (sessions st) (role_sessions st) (sockets st) m.

(** ** Operations *)

(** The replaced session and whether the first-connect side effects are
    spawned are returned beside the new state. *)
Definition add_session (s : Session) (st : AppState) : AppState * option Session * bool :=
  let previous := sessions st !! session_id s in
  let m := <[session_id s := s]> (sessions st) in
  let count := size m in
  let first_connect := bool_decide (previous = None) && (count =? 1)%nat in
  (set_sessions m st, previous, first_connect).

Definition get_session_by_id (st : AppState) (id : string) : option Session :=
  sessions st !! id.

Definition session_owns_peer (st : AppState) (id : string) (peer : nat) : bool :=
  match sessions st !! id with
  | Some s => match peer_connection s with
              | Some registered => bool_decide (registered = peer)
              | None => false
              end
  | None => false
  end.

(** The part of [remove_session_inner] under the [sessions] lock: the entry is
    taken out when it exists and, if a peer is expected, owns that peer. *)
Definition remove_session_entry (id : string) (expected_peer : option nat) (st : AppState)
  : AppState * option Session * nat :=
  let matches_expected_peer :=
    match sessions st !! id with
    | None => false
    | Some s => match expected_peer with
                | None => true
                | Some expected =>
                    match peer_connection s with
                    | Some actual => bool_decide (actual = expected)
                    | None => false
                    end
                end
    end in
  let removed := if matches_expected_peer then sessions st !! id else None in
  let m := if matches_expected_peer then delete id (sessions st) else sessions st in
  (set_sessions m st, removed, size m).

(** The part under the [role_sessions] lock: [roles.retain(|_, v| v != id)]. *)
Definition retain_roles (id : string) (st : AppState) : AppState :=
  set_roles (filter (fun '(_, v) => v ≠ id) (role_sessions st)) st.

Definition claim_role_slot (s : Session) (st : AppState) : AppState * ClaimRoleResult :=
  let registered := match sessions st !! session_id s with
                    | Some r => ptr_eq r s
                    | None => false
                    end in
  if negb registered then (st, NotRegistered) else
  let role := session_role s in
  match role_sessions st !! role with
  | None => (set_roles (<[role := session_id s]> (role_sessions st)) st, Accepted None)
  | Some existing_id =>
      if String.eqb existing_id (session_id s) then (st, Accepted None)
      else if bool_decide (role = Agent) then (st, RejectedOccupied)
      else (set_roles (<[role := session_id s]> (role_sessions st)) st,
            Accepted (sessions st !! existing_id))
  end.

Definition set_role_slot_if_none (role : SessionRole) (id : string) (st : AppState)
  : AppState * bool :=
  match role_sessions st !! role with
  | Some _ => (st, false)
  | None => (set_roles (<[role := id]> (role_sessions st)) st, true)
  end.

Definition clear_role_slot_if (role : SessionRole) (id : string) (st : AppState)
  : AppState * bool :=
  if bool_decide (role_sessions st !! role = Some id)
  then (set_roles (delete role (role_sessions st)) st, true)
  else (st, false).

Definition get_role_slot_id (st : AppState) (role : SessionRole) : option string :=
  role_sessions st !! role.

Definition get_session_for_role (st : AppState) (role : SessionRole) : option Session :=
  match role_sessions st !! role with
  | Some id => get_session_by_id st id
  | None => None
  end.

Definition has_any_session (st : AppState) : bool :=
  if negb (bool_decide (sessions st = ∅)) then true
  else negb (bool_decide (role_sessions st = ∅)).

Definition is_role_slot_holder (st : AppState) (id : string) : bool :=
  bool_decide (map_Exists (fun _ v => v = id) (role_sessions st)).

Definition session_count (st : AppState) : nat := size (sessions st).

Definition MAX_ICE_CANDIDATES : nat := 20.

Definition queue_ice_candidate (id candidate : string) (st : AppState) : AppState :=
  let ice_queue := default [] (websocket_ice_queue st !! id) in
  let ice_queue := if (MAX_ICE_CANDIDATES <=? length ice_queue)%nat
                   then drop 1 ice_queue else ice_queue in
  set_ice_queue (<[id := ice_queue ++ [candidate]]> (websocket_ice_queue st)) st.

Definition get_ice_candidates (id : string) (st : AppState) : AppState * list string :=
  (set_ice_queue (delete id (websocket_ice_queue st)) st,
   default [] (websocket_ice_queue st !! id)).

(** ** Well-formedness

    A session is registered under its own id, and a role slot names a
    registered session of that role. *)

Definition keys_wf (st : AppState) : Prop :=
  ∀ id s, sessions st !! id = Some s -> session_id s = id.

Definition slots_wf (st : AppState) : Prop :=
  ∀ r id, role_sessions st !! r = Some id ->
          ∃ s, sessions st !! id = Some s /\ session_role s = r.

Definition app_wf (st : AppState) : Prop := keys_wf st /\ slots_wf st.

(** A session that replaces a registered one under the same id has its role. *)
Definition same_role_replace (s : Session) (st : AppState) : Prop :=
  ∀ old, sessions st !! session_id s = Some old -> session_role old = session_role s.

Lemma is_role_slot_holder_iff st id :
  is_role_slot_holder st id = true <-> ∃ r, role_sessions st !! r = Some id.
Proof.
  unfold is_role_slot_holder. rewrite bool_decide_eq_true. unfold map_Exists.
  split.
  - intros (r & v & H & <-). eauto.
  - intros [r H]. exists r, id. eauto.
Qed.

Lemma session_owns_peer_iff st id p :
  session_owns_peer st id p = true <->
  ∃ s, sessions st !! id = Some s /\ peer_connection s = Some p.
Proof.
  unfold session_owns_peer. destruct (sessions st !! id) as [s|] eqn:E.
  - destruct (peer_connection s) as [q|] eqn:Ep; [rewrite bool_decide_eq_true|].
    + split; [intros ->; eauto|]. intros (s' & [= <-] & H). congruence.
    + split; [done|]. intros (s' & [= <-] & H). congruence.
  - split; [done|]. by intros (s' & H & _).
Qed.

Lemma app_new_wf : app_wf app_new.
Proof. split; intros ??; cbn; by rewrite lookup_empty. Qed.

Lemma add_session_wf s st :
  app_wf st -> same_role_replace s st -> app_wf (add_session s st).1.1.
Proof.
  intros [Hk Hs] Hr. split.
  - intros id s'. simpl. rewrite lookup_insert. case_decide; naive_solver.
  - intros r id Hrole. simpl in *. destruct (Hs _ _ Hrole) as (s' & Hl & <-).
    rewrite lookup_insert. case_decide as Hd; [|eauto].
    subst id. exists s. split; [done|]. symmetry. by apply Hr.
Qed.

(** [s] is a live allocation: a registered session at the same address is the
    same object. *)
Definition arc_coherent (s : Session) (st : AppState) : Prop :=
  ∀ id r, sessions st !! id = Some r -> session_ptr r = session_ptr s -> r = s.

(** What a claim tells about the claimant. *)
Lemma claim_registered s st :
  arc_coherent s st -> (claim_role_slot s st).2 ≠ NotRegistered ->
  sessions st !! session_id s = Some s.
Proof.
  unfold claim_role_slot, ptr_eq. intros Hc.
  destruct (sessions st !! session_id s) as [r|] eqn:E; [|done].
  destruct (bool_decide_reflect (session_ptr r = session_ptr s)) as [Hp|]; [|done].
  by rewrite (Hc _ _ E Hp).
Qed.

(** The four outcomes of a claim. *)
Lemma claim_role_slot_cases s st :
  let '(st', r) := claim_role_slot s st in
  match r with
  | Accepted previous =>
      role_sessions st' = <[session_role s := session_id s]> (role_sessions st)
      /\ (∀ p, previous = Some p ->
            session_role s = User /\
            ∃ id, role_sessions st !! User = Some id /\ id ≠ session_id s /\
                  sessions st !! id = Some p)
  | RejectedOccupied =>
      st' = st /\ session_role s = Agent /\
      ∃ id, role_sessions st !! Agent = Some id /\ id ≠ session_id s
  | NotRegistered => st' = st
  | RejectedMcpDisabled => False
  end /\ sessions st' = sessions st.
Proof.
  unfold claim_role_slot.
  destruct (negb _); [done|].
  destruct (role_sessions st !! session_role s) as [id|] eqn:E; [|done].
  destruct (String.eqb_spec id (session_id s)) as [->|Hne].
  { split; [|done]. split; [|done]. symmetry. by apply insert_id. }
  destruct (session_role s) eqn:Er; simpl.
  - split; [|done]. split; [done|]. intros p Hp. eauto.
  - split; [|done]. eauto.
Qed.

Lemma claim_role_slot_wf s st :
  app_wf st -> arc_coherent s st -> app_wf (claim_role_slot s st).1.
Proof.
  intros Hwf Hc. pose proof (claim_registered s st Hc) as Hreg.
  pose proof (claim_role_slot_cases s st) as H.
  destruct (claim_role_slot s st) as [st' [p| | |]]; simpl in *;
    destruct H as [H Hse]; [|by destruct H as [-> _]|done|by subst st'].
  destruct H as [Hro _], Hwf as [Hk Hs]. split.
  - intros id s'. rewrite Hse. apply Hk.
  - intros r id. rewrite Hro, Hse, lookup_insert. case_decide as Hd; [|apply Hs].
    intros [= <-]. exists s. subst r. split; [|done]. by apply Hreg.
Qed.

Lemma set_role_slot_if_none_wf r id st s :
  app_wf st -> sessions st !! id = Some s -> session_role s = r ->
  app_wf (set_role_slot_if_none r id st).1.
Proof.
  intros [Hk Hs] Hid Hr. unfold set_role_slot_if_none.
  destruct (role_sessions st !! r) eqn:E; [done|]. split; [done|].
  intros r' id'. simpl. rewrite lookup_insert. case_decide; [|apply Hs].
  intros [= <-]. subst. eauto.
Qed.

Lemma clear_role_slot_if_wf r id st :
  app_wf st -> app_wf (clear_role_slot_if r id st).1.
Proof.
  intros [Hk Hs]. unfold clear_role_slot_if. case_bool_decide; [|done].
  split; [done|]. intros r' id'. simpl. rewrite lookup_delete. case_decide; [done|apply Hs].
Qed.

(** Both halves of a removal leave the registry well formed; between them a
    slot may name the session just taken out. *)
Lemma remove_session_wf id p st :
  app_wf st ->
  let '(st', removed, _) := remove_session_entry id p st in
  match removed with
  | Some s => sessions st !! id = Some s /\ app_wf (retain_roles id st')
  | None => st' = st
  end.
Proof.
  intros [Hk Hs]. unfold remove_session_entry.
  set (b := match sessions st !! id with Some _ => _ | None => _ end).
  destruct b eqn:Eb; [|by destruct st].
  destruct (sessions st !! id) as [s|] eqn:E; [|done].
  split; [done|]. split.
  - intros id' s'. simpl. rewrite lookup_delete. case_decide; [done|apply Hk].
  - intros r id'. simpl. rewrite map_lookup_filter_Some. intros [Hr Hne].
    destruct (Hs _ _ Hr) as (s' & Hl & Hr'). exists s'.
    by rewrite lookup_delete_ne.
Qed.

(** ** Queued ICE candidates *)

Lemma queue_ice_lookup id c st :
  websocket_ice_queue (queue_ice_candidate id c st) !! id
  = Some ((if (MAX_ICE_CANDIDATES <=? length (default [] (websocket_ice_queue st !! id)))%nat
           then drop 1 (default [] (websocket_ice_queue st !! id))
           else default [] (websocket_ice_queue st !! id)) ++ [c]).
Proof. cbn. by rewrite lookup_insert_eq. Qed.

(** The queue is a window over the most recent candidates: whatever was
    queued for a session since its queue was last emptied, retrieval returns
    the last twenty in order and leaves the queue empty. *)
Theorem ice_queue_is_recent_window id cs st :
  websocket_ice_queue st !! id = None ->
  let st' := fold_left (fun st c => queue_ice_candidate id c st) cs st in
  (get_ice_candidates id st').2 = drop (length cs - MAX_ICE_CANDIDATES) cs
  /\ websocket_ice_queue (get_ice_candidates id st').1 !! id = None.
Proof.
  intros Hnone. cbv zeta. split; [|cbn; by rewrite lookup_delete_eq].
  induction cs as [|c cs IH] using rev_ind; [cbn; by rewrite Hnone|].
  rewrite fold_left_app. cbn [fold_left get_ice_candidates snd] in *.
  rewrite queue_ice_lookup. rewrite IH. cbn [default from_option]. unfold Datatypes.id. unfold MAX_ICE_CANDIDATES.
  rewrite length_drop, length_app. simpl length.
  destruct (Nat.leb_spec 20 (length cs - (length cs - 20))).
  - rewrite drop_drop, drop_app_le by lia. do 2 f_equal. lia.
  - replace (length cs - 20)%nat with 0%nat by lia.
    replace (length cs + 1 - 20)%nat with 0%nat by lia. done.
Qed.

Lemma ice_queue_is_recent_window_witness :
  websocket_ice_queue app_new !! "s" = None /\
  (get_ice_candidates "s"
     (fold_left (fun st c => queue_ice_candidate "s" c st) ["a"; "b"] app_new)).2 = ["a"; "b"].
Proof.
  split; [reflexivity|].
  exact (proj1 (ice_queue_is_recent_window "s" ["a"; "b"] app_new eq_refl)).
Defined.
