(* ===== verification/IpForward.v ===== *)
(** * Port forwarding tickets (arkkvm/src/ip_forward)

    [resolve.rs] picks the destination of a forward, [ticket.rs] keeps the
    one-shot tickets that tie a data channel label to a destination and to
    the session that asked for it.  Times are milliseconds of the monotonic
    clock. *)

From S2P Require Import Prelude.

(** ** Destination (resolve.rs) *)

Inductive IpForwardError : Set :=
| UsbNetworkDisabled | UsbPeerNotLeased | ConnectFailed | TicketInvalid | ForwardBridgeFailed.

Definition ip_forward_code (e : IpForwardError) : string :=
  match e with
  | UsbNetworkDisabled => "usb_network_disabled"
  | UsbPeerNotLeased => "usb_peer_not_leased"
  | ConnectFailed => "connect_failed"
  | TicketInvalid => "ticket_invalid"
  | ForwardBridgeFailed => "forward_bridge_failed"
  end.

Definition err_msg (code : IpForwardError) (detail : string) : string :=
  "[" +:+ ip_forward_code code +:+ "] " +:+ detail.

(** A lease as the USB sidecar reports it (proto [NetworkAdapterLease]). *)
Record NetworkAdapterLease := mkLease {
  lease_ip : string; lease_mac : string; lease_hostname : string; lease_expires : Z }.

#[export] Instance NetworkAdapterLease_eq_dec : EqDecision NetworkAdapterLease.
Proof. solve_decision. Defined.

(** What [resolve_usb_peer] reads: two switches of the configuration, whether
    a sidecar is there, and its answer to the lease query. *)
Record ForwardEnv := mkForwardEnv {
  ssh_forwarding_enabled : bool;
  network_adapter_enable : bool;
  usb_leases : option (Result string (list NetworkAdapterLease))
}.

(** [Iterator::max_by_key]: the last of the maximal elements. *)
Definition max_by_key {A} (key : A -> Z) (l : list A) : option A :=
  fold_left (fun acc x => match acc with
                          | None => Some x
                          | Some y => if (key y <=? key x)%Z then Some x else Some y
                          end) l None.

(** [Iterator::find] *)
Definition iter_find {A} (p : A -> bool) (l : list A) : option A := List.find p l.

Definition select_lease (leases : list NetworkAdapterLease) : option NetworkAdapterLease :=
  match max_by_key lease_expires leases with
  | Some best => iter_find (fun l => (lease_expires l =? lease_expires best)%Z) leases
  | None => None
  end.

(** The message of the [expect] on the selected lease: a panic, not an error
    ([select_lease_first_maximal] shows that it cannot happen). *)
Definition LEASES_NON_EMPTY : string := "leases non-empty".

Definition resolve_usb_peer (env : ForwardEnv) : Result string string :=
  if negb (ssh_forwarding_enabled env) then
    Err (err_msg UsbNetworkDisabled
           "SSH Forwarding is not enabled; enable MCP + SSH Forwarding to use USB peer forwarding")
  else if negb (network_adapter_enable env) then
    Err (err_msg UsbNetworkDisabled
           "USB network adapter is not enabled; enable SSH Forwarding to reach the HDMI-controlled host (or use startIpForward with an explicit host after user confirmation)")
  else match usb_leases env with
  | None => Err (err_msg ForwardBridgeFailed "USB sidecar not available")
  | Some (Err e) => Err (err_msg ForwardBridgeFailed ("failed to query USB DHCP leases: " +:+ e))
  | Some (Ok leases) =>
      match leases, select_lease leases with
      | [], _ =>
          Err (err_msg UsbPeerNotLeased
                 "no active USB DHCP lease; wait for the controlled host to obtain an address or enable/check USB network")
      | _, None => Err LEASES_NON_EMPTY
      | _, Some selected =>
          if is_empty (trim (lease_ip selected))
          then Err (err_msg UsbPeerNotLeased "USB DHCP lease has empty IP")
          else Ok (trim (lease_ip selected))
      end
  end.

Definition resolve_forward_host (env : ForwardEnv) (target host : option string)
  : Result string string :=
  let target_usb := match target with Some t => eq_ignore_ascii_case t "usb" | None => false end in
  let host := match host with
              | Some h => if is_empty (trim h) then None else Some (trim h)
              | None => None
              end in
  if target_usb then
    match host with
    | Some _ => Err "[invalid_argument] target=usb must not include host; peer IP comes from USB DHCP"
    | None => resolve_usb_peer env
    end
  else match host with
  | Some h => Ok h
  | None => Err "[invalid_argument] either target=usb or a non-empty host is required"
  end.

(** ** Tickets (ticket.rs) *)

Definition IP_FORWARD_PREFIX : string := "ip_forward_".
Definition TICKET_TTL : Z := 60000.
Definition MAX_PENDING_PER_SESSION : nat := 4.

Inductive ForwardProtocol : Set := Tcp | Udp.

#[export] Instance ForwardProtocol_eq_dec : EqDecision ForwardProtocol.
Proof. solve_decision. Defined.

Definition protocol_parse (s : string) : Result string ForwardProtocol :=
  let l := to_ascii_lowercase (trim s) in
  if String.eqb l "tcp" || String.eqb l "" then Ok Tcp
  else if String.eqb l "udp" then Ok Udp
  else Err ("[invalid_argument] protocol must be tcp or udp, got " +:+ l).

Definition protocol_as_str (p : ForwardProtocol) : string :=
  match p with Tcp => "tcp" | Udp => "udp" end.

Record StartIpForwardParams := mkStartParams {
  sp_target : option string; sp_host : option string; sp_port : Z; sp_protocol : string }.

Record StartIpForwardResponse := mkStartResponse {
  data_channel : string; resolved_host : string; resp_port : Z; resp_protocol : string }.

Record IpForwardParams := mkForwardParams {
  fw_host : string; fw_port : Z; fw_protocol : ForwardProtocol }.

Record PendingTicket := mkTicket {
  tk_session_id : string; tk_params : IpForwardParams; tk_expires_at : Z }.

#[export] Instance IpForwardParams_eq_dec : EqDecision IpForwardParams.
Proof. solve_decision. Defined.
#[export] Instance PendingTicket_eq_dec : EqDecision PendingTicket.
Proof. solve_decision. Defined.

Definition purge_expired (now : Z) (map : gmap string PendingTicket) : gmap string PendingTicket :=
  filter (fun '(_, t) => (now < tk_expires_at t)%Z) map.

(** The tickets of one session. *)
Definition tickets_of (sid : string) (map : gmap string PendingTicket)
  : gmap string PendingTicket :=
  filter (fun '(_, t) => tk_session_id t = sid) map.

(** [uuid] is the fresh v4 UUID, [created] the clock when the ticket is built
    and [now] the clock under the lock. *)
Definition start (env : ForwardEnv) (uuid : string) (created now : Z)
    (sid : string) (params : StartIpForwardParams)
  : SE (gmap string PendingTicket) string StartIpForwardResponse :=
  se_guard (sp_port params =? 0)%Z "[invalid_argument] port must be in 1..=65535" ;;;
  let! protocol := se_of_result (protocol_parse (sp_protocol params)) in
  let! host := se_of_result (resolve_forward_host env (sp_target params) (sp_host params)) in
  let label := IP_FORWARD_PREFIX +:+ uuid in
  let ticket := mkTicket sid (mkForwardParams host (sp_port params) protocol)
                  (created + TICKET_TTL) in
  se_modify (purge_expired now) ;;;
  let! pending_for_session := se_get (fun m => size (tickets_of sid m)) in
  se_guard (MAX_PENDING_PER_SESSION <=? pending_for_session)%nat
    "[invalid_argument] too many pending ip forward tickets for this session (max 4)" ;;;
  se_modify (fun m => <[label := ticket]> m) ;;;
  se_ret (mkStartResponse label host (sp_port params) (protocol_as_str protocol)).

(** [now] is the clock of the purge, [now'] that of the expiry test. *)
Definition consume (now now' : Z) (label sid : string)
  : SE (gmap string PendingTicket) string IpForwardParams :=
  se_modify (purge_expired now) ;;;
  let! found := se_get (fun m => m !! label) in
  match found with
  | None => se_throw "[ticket_invalid] ip forward ticket not found or already used"
  | Some ticket =>
      se_modify (delete label) ;;;
      se_guard (tk_expires_at ticket <=? now')%Z "[ticket_invalid] ip forward ticket expired" ;;;
      if String.eqb (tk_session_id ticket) sid then se_ret (tk_params ticket)
      else
        se_modify (fun m => <[label := ticket]> m) ;;;
        se_throw "[ticket_invalid] ip forward ticket session mismatch"
  end.

Definition clear_session (sid : string) (map : gmap string PendingTicket)
  : gmap string PendingTicket :=
  filter (fun '(_, t) => tk_session_id t ≠ sid) map.

Definition is_ip_forward_label (label : string) : bool := starts_with IP_FORWARD_PREFIX label.

(** ** The selected lease *)

Lemma max_by_key_spec {A} (key : A -> Z) (l : list A) :
  match max_by_key key l with
  | Some x => x ∈ l /\ ∀ y, y ∈ l -> (key y <= key x)%Z
  | None => l = []
  end.
Proof.
  unfold max_by_key.
  induction l as [|x l IH] using rev_ind; [done|].
  rewrite fold_left_app. simpl.
  destruct (fold_left _ l None) as [y|] eqn:E; simpl in *.
  - destruct IH as [Hin Hmax].
    destruct (Z.leb_spec (key y) (key x)); split; try set_solver;
      intros z Hz; apply elem_of_app in Hz as [Hz|Hz%list_elem_of_singleton];
      try apply Hmax in Hz; subst; lia.
  - subst l. split; [set_solver|]. intros y Hy%list_elem_of_singleton. subst. lia.
Qed.

Lemma iter_find_spec {A} (p : A -> bool) (l : list A) :
  match iter_find p l with
  | Some x => ∃ l1 l2, l = l1 ++ x :: l2 /\ p x = true /\ (∀ y, y ∈ l1 -> p y = false)
  | None => ∀ y, y ∈ l -> p y = false
  end.
Proof.
  unfold iter_find. induction l as [|x l IH]; simpl; [set_solver|].
  destruct (p x) eqn:Ep.
  - exists [], l. repeat split; [done|]. set_solver.
  - destruct (List.find p l) as [z|].
    + destruct IH as (l1 & l2 & -> & Hz & Hl). exists (x :: l1), l2.
      repeat split; [done|]. intros y [->|Hy]%elem_of_cons; auto.
    + intros y [->|Hy]%elem_of_cons; auto.
Qed.

Lemma select_lease_spec leases :
  match select_lease leases with
  | Some l => ∃ before after,
      leases = before ++ l :: after
      /\ (∀ x, x ∈ leases -> (lease_expires x <= lease_expires l)%Z)
      /\ (∀ x, x ∈ before -> (lease_expires x < lease_expires l)%Z)
  | None => leases = []
  end.
Proof.
  unfold select_lease. pose proof (max_by_key_spec lease_expires leases) as Hm.
  destruct (max_by_key lease_expires leases) as [best|]; [|done].
  destruct Hm as [Hin Hmax].
  pose proof (iter_find_spec (fun l => (lease_expires l =? lease_expires best)%Z) leases) as Hf.
  destruct (iter_find _ leases) as [l|].
  - destruct Hf as (l1 & l2 & Hl & He & Hlt). exists l1, l2. apply Z.eqb_eq in He.
    split; [done|]. rewrite He. split; [done|].
    intros x Hx. specialize (Hlt x Hx). apply Z.eqb_neq in Hlt.
    assert (lease_expires x <= lease_expires best)%Z by (apply Hmax; set_solver). lia.
  - specialize (Hf best Hin). by rewrite Z.eqb_refl in Hf.
Qed.

(** The controlled host is the lease with the most time left, the first
    such lease in file order, and there is one as soon as there is a lease:
    the [expect] of [resolve_usb_peer] cannot panic. *)
Theorem select_lease_first_maximal leases :
  match select_lease leases with
  | Some l => ∃ before after,
      leases = before ++ l :: after
      /\ (∀ x, x ∈ leases -> (lease_expires x <= lease_expires l)%Z)
      /\ (∀ x, x ∈ before -> (lease_expires x < lease_expires l)%Z)
  | None => leases = []
  end.
Proof. apply select_lease_spec. Qed.

(** ** Ticket theorems *)

Lemma tickets_of_insert_size sid label t m :
  (size (tickets_of sid (<[label := t]> m)) <=
   (if bool_decide (tk_session_id t = sid) then 1 else 0) + size (tickets_of sid m))%nat.
Proof.
  unfold tickets_of. case_bool_decide as Hs.
  - rewrite map_filter_insert_True by done. rewrite map_size_insert. simpl.
    destruct (filter _ m !! label); simpl; lia.
  - rewrite map_filter_insert_False by done. simpl.
    apply map_subseteq_size, map_filter_subseteq_mono, delete_subseteq.
Qed.

Lemma tickets_of_mono sid m m' : m ⊆ m' -> (size (tickets_of sid m) <= size (tickets_of sid m'))%nat.
Proof. intros H. by apply map_subseteq_size, map_filter_subseteq_mono. Qed.

Lemma purge_subseteq now m : purge_expired now m ⊆ m.
Proof. apply map_filter_subseteq. Qed.

Lemma purge_lookup now m label t :
  purge_expired now m !! label = Some t <-> m !! label = Some t /\ (now < tk_expires_at t)%Z.
Proof. apply map_lookup_filter_Some. Qed.

(** What a successful [start] did; a failed one at most purged. *)
Lemma start_spec env uuid created now sid params m :
  let '(m', r) := start env uuid created now sid params m in
  match r with
  | Ok resp => ∃ p,
      sp_port params ≠ 0%Z /\ protocol_parse (sp_protocol params) = Ok p
      /\ resolve_forward_host env (sp_target params) (sp_host params) = Ok (resolved_host resp)
      /\ resp = mkStartResponse (IP_FORWARD_PREFIX +:+ uuid) (resolved_host resp)
                  (sp_port params) (protocol_as_str p)
      /\ (size (tickets_of sid (purge_expired now m)) < MAX_PENDING_PER_SESSION)%nat
      /\ m' = <[data_channel resp :=
                  mkTicket sid (mkForwardParams (resolved_host resp) (sp_port params) p)
                    (created + TICKET_TTL)]> (purge_expired now m)
  | Err _ => m' ⊆ m
  end.
Proof.
  unfold start; se_unfold.
  destruct (Z.eqb_spec (sp_port params) 0) as [|Hport]; [done|].
  destruct (protocol_parse (sp_protocol params)) as [p|] eqn:Hp; [|done].
  destruct (resolve_forward_host _ _ _) as [h|] eqn:Hh; [|done].
  destruct (Nat.leb_spec MAX_PENDING_PER_SESSION (size (tickets_of sid (purge_expired now m))));
    [apply purge_subseteq|].
  exists p. simpl. auto 10.
Qed.

Lemma consume_spec now now' label sid m :
  let '(m', r) := consume now now' label sid m in
  match r with
  | Ok ps => ∃ t, m !! label = Some t /\ (now < tk_expires_at t)%Z /\ (now' < tk_expires_at t)%Z
                  /\ tk_session_id t = sid /\ ps = tk_params t
                  /\ m' = delete label (purge_expired now m)
  | Err _ =>
      m' ⊆ m
      /\ (∀ t, m !! label = Some t -> (now < tk_expires_at t)%Z -> (now' < tk_expires_at t)%Z ->
               tk_session_id t ≠ sid /\ m' !! label = Some t)
  end.
Proof.
  unfold consume; se_unfold.
  destruct (purge_expired now m !! label) as [t|] eqn:Ht.
  - pose proof Ht as [Hm Hnow]%purge_lookup.
    destruct (Z.leb_spec (tk_expires_at t) now').
    { split; [|intros t' ???; simplify_eq; lia].
      etrans; [apply delete_subseteq|apply purge_subseteq]. }
    destruct (String.eqb_spec (tk_session_id t) sid).
    { exists t. auto 10. }
    split; [|intros t' ???; simplify_map_eq; auto].
    rewrite insert_delete_id by done. apply purge_subseteq.
  - split; [apply purge_subseteq|]. intros t Hm Hnow _.
    assert (purge_expired now m !! label = Some t) by (by apply purge_lookup). congruence.
Qed.

(** A ticket opens the forward it was issued for: the session that started
    it, presenting the returned label before it expires, gets the resolved
    host with the requested port and protocol, and the label is spent. *)
Theorem ticket_roundtrip env uuid created t0 sid params m m1 resp t1 t2 :
  start env uuid created t0 sid params m = (m1, Ok resp) ->
  (t1 <= t2)%Z -> (t2 < created + TICKET_TTL)%Z ->
  ∃ p, protocol_as_str p = resp_protocol resp /\
       consume t1 t2 (data_channel resp) sid m1
       = (delete (data_channel resp) (purge_expired t1 m1),
          Ok (mkForwardParams (resolved_host resp) (resp_port resp) p)).
Proof.
  intros Hs Ht1 Ht2. pose proof (start_spec env uuid created t0 sid params m) as H.
  rewrite Hs in H. destruct H as (p & _ & _ & _ & Hr & _ & Hm1).
  exists p. split; [by rewrite Hr|].
  pose proof (consume_spec t1 t2 (data_channel resp) sid m1) as Hc.
  destruct (consume _ _ _ _ _) as [m' [ps|e]].
  - destruct Hc as (t & Hl & _ & _ & _ & -> & ->).
    rewrite Hm1, lookup_insert_eq in Hl. injection Hl as <-. by rewrite Hr.
  - destruct Hc as [_ Hc]. exfalso.
    rewrite Hm1, lookup_insert_eq in Hc.
    destruct (Hc _ eq_refl) as [Hn _]; simpl in *; [lia..|done].
Qed.

(** A ticket is good for one connection: after a successful consume, every
    later consume of the label fails, whoever asks, until the label is issued
    again. *)
Theorem ticket_single_use t1 t2 t3 t4 label sid sid' m m1 ps :
  consume t1 t2 label sid m = (m1, Ok ps) ->
  m1 !! label = None /\ ∃ e, (consume t3 t4 label sid' m1).2 = Err e.
Proof.
  intros H. pose proof (consume_spec t1 t2 label sid m) as Hc. rewrite H in Hc.
  destruct Hc as (t & _ & _ & _ & _ & _ & ->).
  split; [by rewrite lookup_delete_eq|].
  pose proof (consume_spec t3 t4 label sid' (delete label (purge_expired t1 m))) as Hd.
  destruct (consume t3 t4 _ _ _) as [m' [ps'|e]]; [|eauto].
  destruct Hd as (t' & Hl & _). by rewrite lookup_delete_eq in Hl.
Qed.

(** A ticket is bound to its session: another session's consume fails and
    the ticket stays valid for its owner; and once the owner's session is
    cleared no label of it can be consumed. *)
Theorem ticket_bound_to_session t1 t2 label sid m t :
  m !! label = Some t -> tk_session_id t ≠ sid ->
  (∃ e, (consume t1 t2 label sid m).2 = Err e) /\
  ((t1 < tk_expires_at t)%Z -> (t2 < tk_expires_at t)%Z ->
   (consume t1 t2 label sid m).1 !! label = Some t) /\
  (∃ e, (consume t1 t2 label (tk_session_id t) (clear_session (tk_session_id t) m)).2 = Err e).
Proof.
  intros Hl Hne. pose proof (consume_spec t1 t2 label sid m) as Hc.
  destruct (consume t1 t2 label sid m) as [m' [ps|e]]; simpl.
  { destruct Hc as (t' & Hl' & _ & _ & Hs & _). congruence. }
  split; [eauto|]. split; [intros; by eapply Hc|].
  pose proof (consume_spec t1 t2 label (tk_session_id t) (clear_session (tk_session_id t) m)) as Hd.
  destruct (consume _ _ _ _ (clear_session _ _)) as [m'' [ps|e']]; [|eauto].
  destruct Hd as (t' & Hl' & _ & _ & Hs & _).
  apply map_lookup_filter_Some in Hl' as [Hl' Hn]. congruence.
Qed.

(** ** The bound on pending tickets *)

Inductive TicketOp : Type :=
| TStart (env : ForwardEnv) (uuid : string) (created now : Z) (sid : string)
         (params : StartIpForwardParams)
| TConsume (now now' : Z) (label sid : string)
| TClear (sid : string).

Definition ticket_op (o : TicketOp) (m : gmap string PendingTicket) : gmap string PendingTicket :=
  match o with
  | TStart env uuid created now sid params => (start env uuid created now sid params m).1
  | TConsume now now' label sid => (consume now now' label sid m).1
  | TClear sid => clear_session sid m
  end.

Definition tickets_bounded (m : gmap string PendingTicket) : Prop :=
  ∀ sid, (size (tickets_of sid m) <= MAX_PENDING_PER_SESSION)%nat.

Lemma tickets_bounded_mono m m' : m' ⊆ m -> tickets_bounded m -> tickets_bounded m'.
Proof. intros Hs Hb sid. etrans; [by apply tickets_of_mono|apply Hb]. Qed.

Lemma ticket_op_bounded o m : tickets_bounded m -> tickets_bounded (ticket_op o m).
Proof.
  intros Hb. destruct o as [env uuid created now sid params|now now' label sid|sid]; simpl.
  - pose proof (start_spec env uuid created now sid params m) as H.
    destruct (start _ _ _ _ _ _ _) as [m' [resp|e]]; simpl; [|by eapply tickets_bounded_mono].
    destruct H as (p & _ & _ & _ & _ & Hlt & ->). intros sid'.
    etrans; [apply tickets_of_insert_size|]. simpl. case_bool_decide; [subst; simpl; lia|].
    simpl. etrans; [apply tickets_of_mono, purge_subseteq|apply Hb].
  - pose proof (consume_spec now now' label sid m) as H.
    destruct (consume _ _ _ _ _) as [m' [ps|e]]; simpl.
    + destruct H as (t & _ & _ & _ & _ & _ & ->).
      eapply tickets_bounded_mono; [|exact Hb].
      etrans; [apply delete_subseteq|apply purge_subseteq].
    + by eapply tickets_bounded_mono; [apply H|].
  - eapply tickets_bounded_mono; [apply map_filter_subseteq|done].
Qed.

(** C14: Whatever the sequence of starts, consumes and session teardowns, no
    session ever has more than four tickets pending. *)
Theorem pending_tickets_bounded ops :
  tickets_bounded (fold_left (fun m o => ticket_op o m) ops ∅).
Proof.
  apply fold_left_inv; [intros m o; apply ticket_op_bounded|].
  intros sid. unfold tickets_of. rewrite map_filter_empty, map_size_empty.
  unfold MAX_PENDING_PER_SESSION. lia.
Qed.
