(* ===== verification/ControlLease.v ===== *)
(** * The control lease (arkkvm/src/control_lease.rs)

    Which role may drive keyboard and mouse.  One role owns control; another
    may ask for it, which opens a single arbitration with a 120 s timer.

    Every handler reads which roles are online before it takes the lease
    lock and sends its notifications after releasing it.  The part under the
    lock is a definition of its own (suffix [_locked]) whose arguments are
    what was read before, so that theorems about it hold for stale reads and
    hence for every interleaving of the handlers. *)

From S2P Require Import Prelude Session AppState IpForward.

Definition CONTROL_TIMEOUT : Z := 120000.
Definition CONTROL_DENIED : string := "controlDenied".
Definition CONTROL_BUSY : string := "controlBusy".
Definition CONTROL_STALE : string := "controlStale".
Definition MCP_DISABLED : string := "mcpDisabled".

Inductive TimeoutPolicy : Set := GrantRequester | DenyRequester.

#[export] Instance TimeoutPolicy_eq_dec : EqDecision TimeoutPolicy.
Proof. solve_decision. Defined.

Record PendingRequest := mkPending {
  request_id : string;
  requester : SessionRole;
  policy : TimeoutPolicy;
  pending_generation : Z;
  deadline : Z;
  pending_reason : string
}.

Record ControlState := mkControl {
  owner : option SessionRole;
  pending : option PendingRequest
}.

Definition control_default : ControlState := mkControl None None.

Record PendingView := mkPendingView {
  pv_request_id : string; pv_requester : string; pv_reason : string;
  pv_deadline_ms : Z; pv_timeout_policy : string }.

Record ControlStateView := mkView {
  view_owner : option string; view_pending : option PendingView }.

(** Notifications pushed to a session over its rpc channel. *)
Inductive Notice : Type :=
| NControlChanged (owner : option string) (reason : string)
| NControlState (view : ControlStateView)
| NControlConflict (view : ControlStateView)
| NControlConflictHint (view : ControlStateView) (reason : string)
| NOtherSessionConnected
| NSessionCountChanged (count : nat).

(** A timer task spawned for an arbitration, with the time it fires. *)
Record Timer := mkTimer { tm_generation : Z; tm_request_id : string; tm_fire : Z }.

(** What the handlers share: the registry, the lease behind its lock, the
    [GENERATION] counter, the number of UUIDs drawn, the monotonic clock in
    milliseconds, the MCP switch of the configuration, the pending forward
    tickets, the spawned timers, the notifications sent and the counter of
    denied reports. *)
Record World := mkWorld {
  app : AppState;
  lease : ControlState;
  generation : Z;
  uuids : nat;
  clock : Z;
  mcp_enabled : bool;
  tickets : gmap string PendingTicket;
  timers : list Timer;
  outbox : list (string * Notice);
  hid_deny_log_counter : Z
}.

Definition set_app (a : AppState) (w : World) : World :=
  mkWorld a (lease w) (generation w) (uuids w) (clock w) (mcp_enabled w) (tickets w)
    (timers w) (outbox w) (hid_deny_log_counter w).
Definition set_lease (l : ControlState) (w : World) : World :=
  mkWorld (app w) l (generation w) (uuids w) (clock w) (mcp_enabled w) (tickets w)
    (timers w) (outbox w) (hid_deny_log_counter w).
Definition set_generation (g : Z) (w : World) : World :=
  mkWorld (app w) (lease w) g (uuids w) (clock w) (mcp_enabled w) (tickets w)
    (timers w) (outbox w) (hid_deny_log_counter w).
Definition set_uuids (n : nat) (w : World) : World :=
  mkWorld (app w) (lease w) (generation w) n (clock w) (mcp_enabled w) (tickets w)
    (timers w) (outbox w) (hid_deny_log_counter w).
Definition set_clock (t : Z) (w : World) : World :=
  mkWorld (app w) (lease w) (generation w) (uuids w) t (mcp_enabled w) (tickets w)
    (timers w) (outbox w) (hid_deny_log_counter w).
Definition set_tickets (m : gmap string PendingTicket) (w : World) : World :=
  mkWorld (app w) (lease w) (generation w) (uuids w) (clock w) (mcp_enabled w) m
    (timers w) (outbox w) (hid_deny_log_counter w).
Definition set_timers (l : list Timer) (w : World) : World :=
  mkWorld (app w) (lease w) (generation w) (uuids w) (clock w) (mcp_enabled w) (tickets w)
    l (outbox w) (hid_deny_log_counter w).
Definition set_outbox (l : list (string * Notice)) (w : World) : World :=
  mkWorld (app w) (lease w) (generation w) (uuids w) (clock w) (mcp_enabled w) (tickets w)
    (timers w) l (hid_deny_log_counter w).
Definition set_hid_denied (n : Z) (w : World) : World :=
  mkWorld (app w) (lease w) (generation w) (uuids w) (clock w) (mcp_enabled w) (tickets w)
    (timers w) (outbox w) n.

Definition set_owner (o : option SessionRole) (w : World) : World :=
  set_lease (mkControl o (pending (lease w))) w.
Definition set_pending (p : option PendingRequest) (w : World) : World :=
  set_lease (mkControl (owner (lease w)) p) w.

Definition policy_str (p : TimeoutPolicy) : string :=
  match p with GrantRequester => "grantRequester" | DenyRequester => "denyRequester" end.

(** [fetch_add] returns the old value and wraps around. *)
Definition next_generation (w : World) : World * Z :=
  (set_generation (wrap64 (generation w + 1)) w, generation w).

Definition snapshot (w : World) : ControlStateView :=
  mkView (role_as_str <$> owner (lease w))
    ((fun p => mkPendingView (request_id p) (role_as_str (requester p)) (pending_reason p)
                 (Z.max 0 (deadline p - clock w)) (policy_str (policy p)))
     <$> pending (lease w)).

Definition role_still_online (w : World) (role : SessionRole) : bool :=
  bool_decide (is_Some (get_session_for_role (app w) role)).

(** ** Notifications *)

Definition notify_roles (n : Notice) (roles : list SessionRole) (w : World) : World :=
  set_outbox
    (outbox w ++
     omap (fun role => (fun s => (session_id s, n)) <$> get_session_for_role (app w) role) roles) w.

Definition notify_control_changed (o : option SessionRole) (reason : string) (w : World) : World :=
  notify_roles (NControlChanged (role_as_str <$> o) reason) [User; Agent] w.

Definition notify_control_conflict (v : ControlStateView) (w : World) : World :=
  notify_roles (NControlConflict v) [User; Agent] w.

Inductive ControlEvent : Type :=
| Changed (o : option SessionRole) (reason : string)
| Conflict (v : ControlStateView)
| ConflictHint (v : ControlStateView) (reason : string).

Definition dispatch_event (w : World) (ev : ControlEvent) : World :=
  match ev with
  | Changed o reason => notify_control_changed o reason w
  | Conflict v => notify_control_conflict v w
  | ConflictHint v reason => notify_roles (NControlConflictHint v reason) [User; Agent] w
  end.

Definition dispatch_events (evs : list ControlEvent) (w : World) : World :=
  fold_left dispatch_event evs w.

(** ** Arbitration primitives *)

Definition clear_pending_locked (w : World) : World :=
  match pending (lease w) with
  | Some _ => (next_generation (set_pending None w)).1
  | None => w
  end.

Section lease.
(** The [n]-th UUID drawn by [Uuid::new_v4]. *)
Context (new_v4 : nat -> string).

Definition make_pending (req : SessionRole) (pol : TimeoutPolicy) (reason : string) (w : World)
  : World * PendingRequest :=
  let '(w, g) := next_generation w in
  let id := new_v4 (uuids w) in
  let w := set_uuids (S (uuids w)) w in
  (w, mkPending id req pol g (clock w + CONTROL_TIMEOUT) reason).

Definition spawn_timeout (g : Z) (id : string) (w : World) : World :=
  set_timers (timers w ++ [mkTimer g id (clock w + CONTROL_TIMEOUT)]) w.

(** ** Role slots claimed and released *)

Definition on_role_claimed_locked (role : SessionRole) (previous_user agent_online user_online : bool)
    (w : World) : World * list ControlEvent :=
  match role with
  | User =>
      if previous_user then
        (set_owner (Some User) (clear_pending_locked w), [Changed (Some User) "userTakeover"])
      else if bool_decide (owner (lease w) = Some Agent) && agent_online then
        (w, [ConflictHint (snapshot w) "agentHasControl"])
      else
        (set_owner (Some User) (clear_pending_locked w), [Changed (Some User) "userClaimed"])
  | Agent =>
      let owner_online := match owner (lease w) with
                          | Some User => user_online
                          | Some Agent => agent_online
                          | None => false
                          end in
      if bool_decide (owner (lease w) = None) || negb owner_online then
        (set_owner (Some Agent) (clear_pending_locked w), [Changed (Some Agent) "agentClaimed"])
      else (w, [])
  end.

Definition on_role_claimed (s : Session) (previous_user : option Session) (w : World) : World :=
  let agent_online := role_still_online w Agent in
  let user_online := role_still_online w User in
  let '(w, events) :=
    on_role_claimed_locked (session_role s) (bool_decide (is_Some previous_user))
      agent_online user_online w in
  dispatch_events events w.

Definition on_session_removed_locked (role : SessionRole) (user_online agent_online : bool)
    (w : World) : World * list ControlEvent :=
  let role_online := match role with User => user_online | Agent => agent_online end in
  let owner_gone := bool_decide (owner (lease w) = Some role) && negb role_online in
  let pending_requester_gone :=
    match pending (lease w) with
    | Some p => bool_decide (requester p = role) && negb role_online
    | None => false
    end in
  let '(w, events) :=
    if pending_requester_gone then
      let w := clear_pending_locked w in
      (w, [Changed (owner (lease w)) "requesterDisconnected"])
    else (w, []) in
  if owner_gone then
    let w := clear_pending_locked w in
    let new_owner := if user_online then Some User
                     else if agent_online then Some Agent else None in
    (set_owner new_owner w, events ++ [Changed new_owner "ownerDisconnected"])
  else (w, events).

Definition on_session_removed (s : Session) (w : World) : World :=
  let user_online := role_still_online w User in
  let agent_online := role_still_online w Agent in
  let '(w, events) := on_session_removed_locked (session_role s) user_online agent_online w in
  dispatch_events events w.

(** ** The HID gate *)

Definition allows_hid (w : World) (sid : string) : bool :=
  match get_session_by_id (app w) sid with
  | None => false
  | Some s =>
      if negb (is_role_slot_holder (app w) sid) then false
      else if bool_decide (session_role s = Agent) && negb (mcp_enabled w) then false
      else bool_decide (owner (lease w) = Some (session_role s))
  end.

Definition note_hid_denied (w : World) : World :=
  set_hid_denied (wrap64 (hid_deny_log_counter w + 1)) w.

Definition get_control_state (w : World) : ControlStateView := snapshot w.

(** ** Requests *)

Definition request_policy (o : option SessionRole) (role : SessionRole) : TimeoutPolicy :=
  match o, role with
  | Some User, Agent => GrantRequester
  | Some Agent, User => DenyRequester
  | Some Agent, Agent => DenyRequester
  | _, _ => DenyRequester
  end.

Definition request_reason (o : option SessionRole) (role : SessionRole) : string :=
  match o, role with
  | Some User, Agent => "humanHasControl"
  | Some Agent, User => "agentHasControl"
  | _, _ => "controlConflict"
  end.

(** The view returned, the change to notify and the conflict to notify. *)
Definition request_control_locked (role : SessionRole) (user_online agent_online : bool)
  : SE World string
      (ControlStateView * option (option SessionRole * string) * option ControlStateView) :=
  fun w =>
  if bool_decide (owner (lease w) = Some role) then (w, Ok (snapshot w, None, None)) else
  let owner_online := match owner (lease w) with
                      | Some User => user_online
                      | Some Agent => agent_online
                      | None => false
                      end in
  if bool_decide (owner (lease w) = None) || negb owner_online then
    let w := set_owner (Some role) (clear_pending_locked w) in
    (w, Ok (snapshot w, Some (Some role, "requestControlVacant"), None))
  else match pending (lease w) with
  | Some p =>
      if bool_decide (requester p = role) then (w, Ok (snapshot w, None, None))
      else (w, Err (CONTROL_BUSY +:+ ": arbitration already in progress"))
  | None =>
      let pol := request_policy (owner (lease w)) role in
      let reason := request_reason (owner (lease w)) role in
      let '(w, p) := make_pending role pol reason w in
      let w := spawn_timeout (pending_generation p) (request_id p) w in
      let w := set_pending (Some p) w in
      (w, Ok (snapshot w, None, Some (snapshot w)))
  end.

Definition request_control (sid : string) : SE World string ControlStateView :=
  let! s := se_get (fun w => get_session_by_id (app w) sid) in
  match s with
  | None => se_throw "session not found"
  | Some s =>
      let! holder := se_get (fun w => is_role_slot_holder (app w) sid) in
      se_guard (negb holder) "session is not the role slot holder" ;;;
      let! mcp := se_get mcp_enabled in
      se_guard (bool_decide (session_role s = Agent) && negb mcp)
        (MCP_DISABLED +:+ ": enable MCP on the device before agent control") ;;;
      let! user_online := se_get (fun w => role_still_online w User) in
      let! agent_online := se_get (fun w => role_still_online w Agent) in
      let! r := request_control_locked (session_role s) user_online agent_online in
      match r with
      | (view, changed, conflict) =>
          se_modify (fun w => match changed with
                              | Some (o, reason) => notify_control_changed o reason w
                              | None => w
                              end) ;;;
          se_modify (fun w => match conflict with
                              | Some v => notify_control_conflict v w
                              | None => w
                              end) ;;;
          se_ret view
      end
  end.

(** ** Resolution *)

Definition can_grant (req responder : SessionRole) : bool := negb (bool_decide (req = responder)).

Definition resolve_pending_locked (responder : SessionRole) (rid : option string) (grant : bool)
  : SE World string (ControlStateView * (option SessionRole * string)) :=
  fun w =>
  match pending (lease w) with
  | None => (w, Err (CONTROL_STALE +:+ ": no pending control request"))
  | Some p =>
      if match rid with Some id => negb (String.eqb id (request_id p)) | None => false end
      then (w, Err (CONTROL_STALE +:+ ": requestId mismatch"))
      else if grant && negb (can_grant (requester p) responder)
      then (w, Err (CONTROL_DENIED +:+ ": requester cannot grant its own arbitration; wait for the user decision or the 120s timeout"))
      else
        let w := clear_pending_locked w in
        let '(w, changed) :=
          if grant then (set_owner (Some (requester p)) w, (Some (requester p), "granted"))
          else (w, (owner (lease w), "denied")) in
        (w, Ok (snapshot w, changed))
  end.

Definition resolve_pending (sid : string) (rid : option string) (grant : bool)
  : SE World string ControlStateView :=
  let! s := se_get (fun w => get_session_by_id (app w) sid) in
  match s with
  | None => se_throw "session not found"
  | Some s =>
      let! r := resolve_pending_locked (session_role s) rid grant in
      match r with
      | (view, (o, reason)) =>
          se_modify (notify_control_changed o reason) ;;;
          se_ret view
      end
  end.

Definition grant_control (sid : string) (rid : option string) : SE World string ControlStateView :=
  resolve_pending sid rid true.

Definition deny_control (sid : string) (rid : option string) : SE World string ControlStateView :=
  resolve_pending sid rid false.

Definition take_over_locked (w : World) : World :=
  set_owner (Some User) (clear_pending_locked w).

Definition take_over_control (sid : string) : SE World string ControlStateView :=
  let! s := se_get (fun w => get_session_by_id (app w) sid) in
  match s with
  | None => se_throw "session not found"
  | Some s =>
      se_guard (negb (bool_decide (session_role s = User))) "only user can takeOverControl" ;;;
      let! holder := se_get (fun w => is_role_slot_holder (app w) sid) in
      se_guard (negb holder) "session is not the user slot holder" ;;;
      se_modify take_over_locked ;;;
      let! view := se_get snapshot in
      se_modify (notify_control_changed (Some User) "takeOver") ;;;
      se_ret view
  end.

Definition release_locked (role : SessionRole) (user_online agent_online : bool)
  : SE World string (ControlStateView * option SessionRole) :=
  fun w =>
  if negb (bool_decide (owner (lease w) = Some role))
  then (w, Err (CONTROL_DENIED +:+ ": caller is not control owner"))
  else
    let w := clear_pending_locked w in
    let new_owner := match role with
                     | User => if agent_online then Some Agent else None
                     | Agent => if user_online then Some User else None
                     end in
    let w := set_owner new_owner w in
    (w, Ok (snapshot w, new_owner)).

Definition release_control (sid : string) : SE World string ControlStateView :=
  let! s := se_get (fun w => get_session_by_id (app w) sid) in
  match s with
  | None => se_throw "session not found"
  | Some s =>
      let! user_online := se_get (fun w => role_still_online w User) in
      let! agent_online := se_get (fun w => role_still_online w Agent) in
      let! r := release_locked (session_role s) user_online agent_online in
      match r with
      | (view, new_owner) =>
          se_modify (notify_control_changed new_owner "released") ;;;
          se_ret view
      end
  end.

(** ** Timeout *)

Definition on_timeout_locked (g : Z) (rid : string) (mcp : bool) (w : World)
  : World * option (option SessionRole * string) :=
  match pending (lease w) with
  | None => (w, None)
  | Some p =>
      if negb (Z.eqb (pending_generation p) g) || negb (String.eqb (request_id p) rid)
      then (w, None)
      else
        let w := clear_pending_locked w in
        match policy p with
        | GrantRequester =>
            let mcp_ok := negb (bool_decide (requester p = Agent)) || mcp in
            if mcp_ok
            then (set_owner (Some (requester p)) w, Some (Some (requester p), "timeoutGranted"))
            else (w, Some (owner (lease w), "timeoutDeniedMcpDisabled"))
        | DenyRequester => (w, Some (owner (lease w), "timeoutDenied"))
        end
  end.

Definition on_timeout (g : Z) (rid : string) (w : World) : World :=
  let mcp := mcp_enabled w in
  let '(w, changed) := on_timeout_locked g rid mcp w in
  match changed with
  | Some (o, reason) => notify_control_changed o reason w
  | None => w
  end.

(** ** The rpc channel is ready *)

Definition on_rpc_ready (s : Session) (w : World) : World :=
  let view := get_control_state w in
  let w := set_outbox (outbox w ++ [(session_id s, NControlState view)]) w in
  if bool_decide (session_role s = User) && bool_decide (view_owner view = Some "agent")
     && match view_pending view with None => true | Some _ => false end
  then set_outbox (outbox w ++ [(session_id s, NControlConflictHint view "agentHasControl")]) w
  else w.

(** The code of an error, for the JSON-RPC layer. *)
Definition control_error_data (msg : string) : option (string * string) :=
  match List.find (fun code => str_contains code msg)
          [CONTROL_DENIED; CONTROL_BUSY; CONTROL_STALE; MCP_DISABLED] with
  | Some code => Some (code, msg)
  | None => None
  end.
End lease.
