(* ===== verification/LeaseProofs.v ===== *)
(** * Correctness of the control lease

    Runs of the lease are sequences of critical sections of the handlers of
    [ControlLease], in any order and with any values for what a handler read
    before taking the lock. *)

From S2P Require Import Prelude Session AppState IpForward ControlLease.

Inductive LeaseAct : Type :=
| ActClaim (role : SessionRole) (previous_user agent_online user_online : bool)
| ActRemoved (role : SessionRole) (user_online agent_online : bool)
| ActRequest (role : SessionRole) (user_online agent_online : bool)
| ActResolve (responder : SessionRole) (rid : option string) (grant : bool)
| ActTakeOver
| ActRelease (role : SessionRole) (user_online agent_online : bool)
| ActTimeout (i : nat) (mcp : bool)
| ActTick (d : N).

(** ** Projections of the arbitration primitives *)

Lemma clear_pending_lease w : lease (clear_pending_locked w) = mkControl (owner (lease w)) None.
Proof. unfold clear_pending_locked. destruct w as [? [? []]]; done. Qed.
Lemma clear_pending_timers w : timers (clear_pending_locked w) = timers w.
Proof. unfold clear_pending_locked. by destruct (pending (lease w)). Qed.
Lemma clear_pending_uuids w : uuids (clear_pending_locked w) = uuids w.
Proof. unfold clear_pending_locked. by destruct (pending (lease w)). Qed.
Lemma clear_pending_clock w : clock (clear_pending_locked w) = clock w.
Proof. unfold clear_pending_locked. by destruct (pending (lease w)). Qed.
Lemma clear_pending_app w : app (clear_pending_locked w) = app w.
Proof. unfold clear_pending_locked. by destruct (pending (lease w)). Qed.

Create Rewrite HintDb lease.
#[export] Hint Rewrite clear_pending_lease clear_pending_timers clear_pending_uuids
  clear_pending_clock clear_pending_app : lease.

Ltac lease_simpl := cbn in *; autorewrite with lease in *; cbn in *.

(** Split every test a handler makes. *)
Ltac lease_cases :=
  repeat match goal with
         | |- context [if ?b then _ else _] => destruct b eqn:?; lease_simpl
         | |- context [match ?o with _ => _ end] => destruct o eqn:?; lease_simpl
         end.

Section runs.
Context (new_v4 : nat -> string).

(** One critical section.  A timer can only fire when its time has come, and
    fires once. *)
Definition lease_act (a : LeaseAct) (w : World) : World :=
  match a with
  | ActClaim role prev ao uo => (on_role_claimed_locked role prev ao uo w).1
  | ActRemoved role uo ao => (on_session_removed_locked role uo ao w).1
  | ActRequest role uo ao => (request_control_locked new_v4 role uo ao w).1
  | ActResolve responder rid grant => (resolve_pending_locked responder rid grant w).1
  | ActTakeOver => take_over_locked w
  | ActRelease role uo ao => (release_locked role uo ao w).1
  | ActTimeout i mcp =>
      match timers w !! i with
      | Some t => if (tm_fire t <=? clock w)%Z
                  then (on_timeout_locked (tm_generation t) (tm_request_id t) mcp
                          (set_timers (delete i (timers w)) w)).1
                  else w
      | None => w
      end
  | ActTick d => set_clock (clock w + Z.of_N d) w
  end.

Definition lease_run (acts : list LeaseAct) (w : World) : World :=
  fold_left (fun w a => lease_act a w) acts w.

Definition timer_of (p : PendingRequest) : Timer :=
  mkTimer (pending_generation p) (request_id p) (deadline p).

(** ** The invariant *)

Definition drawn (w : World) (id : string) : Prop := ∃ k, (k < uuids w)%nat /\ id = new_v4 k.

Record LeaseInv (w : World) : Prop := {
  inv_contest : ∀ p, pending (lease w) = Some p ->
    ∃ o, owner (lease w) = Some o /\ requester p ≠ o
         /\ policy p = request_policy (Some o) (requester p);
  inv_drawn : ∀ p, pending (lease w) = Some p -> drawn w (request_id p);
  inv_timer : ∀ p, pending (lease w) = Some p -> timer_of p ∈ timers w;
  inv_timers_drawn : ∀ t, t ∈ timers w -> drawn w (tm_request_id t);
  inv_own_timer : ∀ p t, pending (lease w) = Some p -> t ∈ timers w ->
    tm_request_id t = request_id p -> t = timer_of p
}.

(** Every critical section but a new request and a timeout keeps timers and
    UUIDs, and the arbitration it leaves is the old one or none. *)
Definition settles (w w' : World) : Prop :=
  timers w' = timers w /\ uuids w' = uuids w /\ clock w' = clock w /\
  (lease w' = lease w \/ pending (lease w') = None).

Lemma settles_refl w : settles w w.
Proof. repeat split; auto. Qed.

Lemma settles_cleared o w : settles w (set_owner o (clear_pending_locked w)).
Proof. repeat split; lease_simpl; auto. Qed.

Lemma settles_clear w : settles w (clear_pending_locked w).
Proof. repeat split; lease_simpl; auto. Qed.

#[local] Hint Resolve settles_refl settles_cleared settles_clear : core.

Lemma claim_settles role prev ao uo w : settles w (on_role_claimed_locked role prev ao uo w).1.
Proof. unfold on_role_claimed_locked. lease_cases; auto. Qed.

Lemma removed_settles role uo ao w : settles w (on_session_removed_locked role uo ao w).1.
Proof.
  unfold on_session_removed_locked.
  destruct (match pending (lease w) with Some p => _ | None => false end);
    destruct (_ && _)%bool; cbn [fst]; auto.
  repeat split; lease_simpl; auto.
Qed.

Lemma removed_owner role uo ao w :
  owner (lease (on_session_removed_locked role uo ao w).1) =
  if bool_decide (owner (lease w) = Some role)
     && negb (match role with User => uo | Agent => ao end)
  then (if uo then Some User else if ao then Some Agent else None)
  else owner (lease w).
Proof.
  unfold on_session_removed_locked.
  destruct (match pending (lease w) with Some p => _ | None => false end);
    destruct (_ && _)%bool; cbn [fst]; lease_simpl; done.
Qed.

Lemma resolve_settles responder rid grant w :
  settles w (resolve_pending_locked responder rid grant w).1.
Proof. unfold resolve_pending_locked. lease_cases; auto. Qed.

Lemma release_settles role uo ao w : settles w (release_locked role uo ao w).1.
Proof. unfold release_locked. lease_cases; auto. Qed.

Lemma settles_inv w w' : settles w w' -> LeaseInv w -> LeaseInv w'.
Proof.
  intros (Ht & Hu & _ & [Hl|Hn]) [H1 H2 H3 H4 H5].
  - split; unfold drawn in *; rewrite ?Hl, ?Ht, ?Hu; auto.
  - split; unfold drawn in *; rewrite ?Ht, ?Hu; auto; congruence.
Qed.

(** ** What a request and a timeout do *)

Lemma request_cases role uo ao w :
  let w' := (request_control_locked new_v4 role uo ao w).1 in
  settles w w' \/
  ∃ o g r, owner (lease w) = Some o /\ o ≠ role /\ pending (lease w) = None /\
    let p := mkPending (new_v4 (uuids w)) role (request_policy (Some o) role) g
               (clock w + CONTROL_TIMEOUT) r in
    lease w' = mkControl (Some o) (Some p) /\ timers w' = timers w ++ [timer_of p]
    /\ uuids w' = S (uuids w) /\ clock w' = clock w.
Proof.
  cbv zeta. unfold request_control_locked.
  case_bool_decide as Ho; [auto|].
  case_bool_decide as Hn; cbn [orb]; [cbn [fst]; auto|].
  destruct (owner (lease w)) as [o|] eqn:Eo; [|done].
  destruct (negb _); [cbn [fst]; auto|].
  destruct (pending (lease w)) as [p|] eqn:Ep; [case_bool_decide; auto|].
  right. exists o, (generation w), (request_reason (Some o) role).
  cbn. rewrite Eo. repeat split; auto. congruence.
Qed.

Lemma timeout_cases g rid mcp w :
  let w' := (on_timeout_locked g rid mcp w).1 in
  settles w w' /\
  (w' = w /\ (∀ p, pending (lease w) = Some p ->
                  pending_generation p ≠ g \/ request_id p ≠ rid)
   \/ ∃ p, pending (lease w) = Some p /\ pending_generation p = g /\ request_id p = rid /\
          pending (lease w') = None /\
          owner (lease w') =
            match policy p with
            | GrantRequester => if negb (bool_decide (requester p = Agent)) || mcp
                                then Some (requester p) else owner (lease w)
            | DenyRequester => owner (lease w)
            end).
Proof.
  cbv zeta. unfold on_timeout_locked.
  destruct (pending (lease w)) as [p|] eqn:Ep; [|split; auto; by left].
  destruct (Z.eqb_spec (pending_generation p) g) as [Hg|Hg]; cbn [negb orb].
  2: { split; auto. left. split; [done|]. intros p' [= <-]. auto. }
  destruct (String.eqb_spec (request_id p) rid) as [Hr|Hr]; cbn [negb].
  2: { split; auto. left. split; [done|]. intros p' [= <-]. auto. }
  destruct (policy p) eqn:Epol; [destruct (negb _ || mcp)%bool eqn:Em|]; cbn [fst];
    (split; [auto|]); right; exists p; rewrite ?Epol, ?Em; lease_simpl; auto.
Qed.

Context `{!Inj (=) (=) new_v4}.

Lemma request_inv role uo ao w :
  LeaseInv w -> LeaseInv (request_control_locked new_v4 role uo ao w).1.
Proof.
  intros HI. destruct (request_cases role uo ao w) as [Hs|H]; [by eapply settles_inv|].
  destruct H as (o & g & r & Ho & Hne & Hp & Hl & Ht & Hu & _).
  set (p := mkPending _ _ _ _ _ _) in *.
  split; rewrite ?Hl, ?Ht; cbn.
  - intros p' [= <-]. exists o. cbn. auto.
  - intros p' [= <-]. exists (uuids w). rewrite Hu. split; [lia|done].
  - intros p' [= <-]. set_solver.
  - intros t [Hin| ->%list_elem_of_singleton]%elem_of_app.
    + destruct (inv_timers_drawn w HI _ Hin) as (k & Hk & He). exists k. rewrite Hu. eauto with lia.
    + exists (uuids w). rewrite Hu. split; [lia|done].
  - intros p' t [= <-] [Hin| ->%list_elem_of_singleton]%elem_of_app Hid; [|done].
    destruct (inv_timers_drawn w HI _ Hin) as (k & Hk & He).
    cbn in Hid. rewrite He in Hid. apply (inj _) in Hid. lia.
Qed.

(** Removing a timer that is not the one of the current arbitration. *)
Lemma drop_timer_inv w i t :
  timers w !! i = Some t -> (∀ p, pending (lease w) = Some p -> t ≠ timer_of p) ->
  LeaseInv w -> LeaseInv (set_timers (delete i (timers w)) w).
Proof.
  intros Hi Hne [H1 H2 H3 H4 H5].
  assert (Hsub : ∀ t', t' ∈ delete i (timers w) -> t' ∈ timers w).
  { intros t'. apply list_elem_of_delete_inv. }
  split; cbn; [auto| auto | | by eauto | by eauto].
  intros p Hp. specialize (H3 p Hp). specialize (Hne p Hp).
  rewrite (delete_take_drop (timers w) i).
  rewrite <- (take_drop_middle (timers w) i t Hi) in H3. set_solver.
Qed.

Lemma timeout_inv i mcp w :
  LeaseInv w -> LeaseInv (lease_act (ActTimeout i mcp) w).
Proof.
  intros HI. cbn [lease_act].
  destruct (timers w !! i) as [t|] eqn:Hi; [|done].
  destruct (Z.leb_spec (tm_fire t) (clock w)); [|done].
  pose proof (timeout_cases (tm_generation t) (tm_request_id t) mcp
                (set_timers (delete i (timers w)) w)) as [Hs H'].
  cbv zeta in *. destruct H' as [[Heq Hno]|(p & Hp & _ & _ & Hp' & _)].
  - rewrite Heq. eapply drop_timer_inv; [done| |done].
    intros p Hp ->. destruct (Hno p Hp); done.
  - destruct Hs as (Ht & Hu & _ & _). revert Hp' Ht Hu.
    generalize (on_timeout_locked (tm_generation t) (tm_request_id t) mcp
                  (set_timers (delete i (timers w)) w)).1.
    intros w' Hp' Ht Hu. split; rewrite ?Hp'; try done.
    intros t' Hin. unfold drawn. rewrite Hu. apply (inv_timers_drawn w HI).
    rewrite Ht in Hin. cbn in Hin.
    by eapply list_elem_of_delete_inv.
Qed.

Lemma lease_act_inv a w : LeaseInv w -> LeaseInv (lease_act a w).
Proof.
  destruct a; cbn [lease_act]; intros HI.
  - by eapply settles_inv; [apply claim_settles|].
  - by eapply settles_inv; [apply removed_settles|].
  - by apply request_inv.
  - by eapply settles_inv; [apply resolve_settles|].
  - by eapply settles_inv; [apply settles_cleared|].
  - by eapply settles_inv; [apply release_settles|].
  - by apply (timeout_inv i mcp).
  - by destruct HI; split.
Qed.

Lemma lease_run_inv acts w : LeaseInv w -> LeaseInv (lease_run acts w).
Proof. apply fold_left_inv. intros w' a. apply lease_act_inv. Qed.

Lemma fresh_inv w : pending (lease w) = None -> timers w = [] -> LeaseInv w.
Proof. intros Hp Ht. split; rewrite ?Hp, ?Ht; try done. set_solver. Qed.

(** ** Main theorems *)

(** In every run of the handlers' critical sections, whatever they read
    before locking, an open arbitration always has an owner other than its
    requester, carries the policy of that pair (grant after silence only for
    an agent asking a user), and has its timer scheduled at its deadline. *)
Theorem arbitration_well_formed w0 acts p :
  pending (lease w0) = None -> timers w0 = [] ->
  pending (lease (lease_run acts w0)) = Some p ->
  ∃ o, owner (lease (lease_run acts w0)) = Some o /\ requester p ≠ o
       /\ policy p = request_policy (Some o) (requester p)
       /\ mkTimer (pending_generation p) (request_id p) (deadline p)
           ∈ timers (lease_run acts w0).
Proof.
  intros Hp Ht Hr. pose proof (lease_run_inv acts w0 (fresh_inv w0 Hp Ht)) as HI.
  destruct (inv_contest _ HI p Hr) as (o & ? & ? & ?). exists o.
  split_and!; auto. by apply (inv_timer _ HI).
Qed.

(** The only ways control passes from the user to the agent: the user was
    offline when the agent claimed or asked, the user's session went away,
    the user released it, a user session granted the agent's open request,
    or that request's own timer fired, at or after its deadline, with MCP
    still enabled.  In particular the agent cannot grant its own request. *)
Theorem user_to_agent_causes w a :
  LeaseInv w ->
  owner (lease w) = Some User -> owner (lease (lease_act a w)) = Some Agent ->
  match a with
  | ActClaim role _ _ user_online => role = Agent /\ user_online = false
  | ActRequest role user_online _ => role = Agent /\ user_online = false
  | ActRemoved role user_online agent_online =>
      role = User /\ user_online = false /\ agent_online = true
  | ActRelease role _ agent_online => role = User /\ agent_online = true
  | ActResolve responder _ grant =>
      responder = User /\ grant = true /\
      ∃ p, pending (lease w) = Some p /\ requester p = Agent
  | ActTimeout i mcp =>
      mcp = true /\ ∃ t p, timers w !! i = Some t /\ pending (lease w) = Some p
        /\ t = timer_of p /\ requester p = Agent /\ (deadline p <= clock w)%Z
  | ActTakeOver | ActTick _ => False
  end.
Proof.
  intros HI Ho. destruct a as [role prev ao uo|role uo ao|role uo ao|resp rid grant| |role uo ao|i mcp|d];
    cbn [lease_act].
  - unfold on_role_claimed_locked. rewrite Ho.
    destruct role; cbn; [destruct prev; [|case_bool_decide]; cbn; congruence|].
    destruct uo; cbn; [congruence|auto].
  - rewrite removed_owner, Ho. case_bool_decide as Hr; cbn; [|congruence].
    destruct role; [|congruence]. destruct uo, ao; cbn; auto; congruence.
  - unfold request_control_locked. rewrite Ho.
    case_bool_decide; [cbn; congruence|]. case_bool_decide; [congruence|].
    destruct role; [congruence|]. destruct uo; cbn; [|auto].
    destruct (pending (lease w)) as [p|]; [case_bool_decide|]; cbn; congruence.
  - unfold resolve_pending_locked, can_grant.
    destruct (pending (lease w)) as [p|] eqn:Ep; [|cbn; congruence].
    destruct (match rid with Some _ => _ | None => _ end); [cbn; congruence|].
    destruct grant; cbn [andb]; [|lease_simpl; congruence].
    case_bool_decide as Hr; cbn; [congruence|]. intros [= Hq].
    destruct (inv_contest w HI p Ep) as (o & Ho' & Hne & _).
    destruct resp; [eauto|]. congruence.
  - cbn. congruence.
  - unfold release_locked. rewrite Ho. case_bool_decide; cbn; [|congruence].
    destruct role; [|congruence]. destruct ao; cbn; [auto|done].
  - destruct (timers w !! i) as [t|] eqn:Hi; [|congruence].
    destruct (Z.leb_spec (tm_fire t) (clock w)); [|congruence].
    pose proof (timeout_cases (tm_generation t) (tm_request_id t) mcp
                  (set_timers (delete i (timers w)) w)) as [_ Hc].
    cbv zeta in Hc. destruct Hc as [[-> _]|(p & Hp & Hg & Hid & _ & ->)]; [cbn; congruence|].
    assert (t = timer_of p) as Ht.
    { apply (inv_own_timer w HI); [done| |done].
      by eapply list_elem_of_lookup_2. }
    destruct (inv_contest w HI p Hp) as (o & Ho' & Hne & Hpol).
    cbn. destruct (policy p); [|congruence].
    destruct (requester p) eqn:Er; [congruence|]. rewrite bool_decide_true by done. cbn.
    destruct mcp; [|congruence]. intros _. split; [done|].
    exists t, p. subst t. auto.
  - cbn. congruence.
Qed.

(** A request id that was drawn and is not open any more. *)
Definition retired (id : string) (w : World) : Prop :=
  drawn w id /\ ∀ p, pending (lease w) = Some p -> request_id p ≠ id.

Lemma settles_retired id w w' : settles w w' -> retired id w -> retired id w'.
Proof.
  intros (_ & Hu & _ & Hl) [Hd Hr]. split; [unfold drawn in *; by rewrite Hu|].
  intros p. destruct Hl as [-> | ->]; [apply Hr|done].
Qed.

Lemma lease_act_retired id a w : retired id w -> retired id (lease_act a w).
Proof.
  intros HR. destruct a as [role prev ao uo|role uo ao|role uo ao|resp rid grant| |role uo ao|i mcp|d];
    cbn [lease_act].
  - by eapply settles_retired; [apply claim_settles|].
  - by eapply settles_retired; [apply removed_settles|].
  - destruct (request_cases role uo ao w) as [Hs|H]; [by eapply settles_retired|].
    destruct H as (o & g & r & _ & _ & _ & Hl & _ & Hu & _). destruct HR as [(k & Hk & ->) _].
    split; [exists k; rewrite Hu; split; [lia|done]|].
    rewrite Hl. cbn. intros p [= <-]. cbn. intros Heq%(inj new_v4). lia.
  - by eapply settles_retired; [apply resolve_settles|].
  - by eapply settles_retired; [apply settles_cleared|].
  - by eapply settles_retired; [apply release_settles|].
  - destruct (timers w !! i) as [t|]; [|done]. destruct (_ <=? _)%Z; [|done].
    eapply settles_retired; [apply timeout_cases|]. done.
  - done.
Qed.

(** A timer cannot act on a later arbitration: once a request is no longer
    the open one (granted, denied, timed out, cleared by a takeover, a
    release or a disconnect), its timer does nothing in any future run, even
    if the generation counter has wrapped around. *)
Theorem stale_timer_inert w id acts g mcp :
  retired id w ->
  on_timeout_locked g id mcp (lease_run acts w) = (lease_run acts w, None).
Proof.
  intros HR.
  assert (HR' : retired id (lease_run acts w)).
  { revert HR. apply fold_left_inv. intros w' a. apply lease_act_retired. }
  revert HR'. generalize (lease_run acts w). intros w' [_ Hr].
  unfold on_timeout_locked. destruct (pending (lease w')) as [p|]; [|done].
  specialize (Hr p eq_refl). destruct (String.eqb_spec (request_id p) id); [done|].
  by destruct (Z.eqb _ _).
Qed.

(** Silence grants: while an agent's request to a user is open, once its
    deadline has passed its timer is there to fire, and if MCP is enabled it
    hands control to the agent and closes the arbitration. *)
Theorem silence_grants_agent w p d :
  LeaseInv w -> pending (lease w) = Some p -> owner (lease w) = Some User ->
  (deadline p <= clock w + Z.of_N d)%Z ->
  ∃ i, lease (lease_run [ActTick d; ActTimeout i true] w) = mkControl (Some Agent) None.
Proof.
  intros HI Hp Ho Hd.
  pose proof (inv_timer w HI p Hp) as Hin.
  apply list_elem_of_lookup_1 in Hin as [i Hi]. exists i.
  destruct (inv_contest w HI p Hp) as (o & Ho' & Hne & Hpol).
  assert (requester p = Agent) as Hreq by (destruct (requester p); congruence).
  assert (o = User) by congruence. subst o. rewrite Hreq in Hpol. cbn in Hpol.
  cbn [lease_run fold_left lease_act]. cbn [timers set_clock clock]. rewrite Hi.
  cbn [tm_fire timer_of]. destruct (Z.leb_spec (deadline p) (clock w + Z.of_N d)); [|lia].
  unfold on_timeout_locked. cbn. rewrite Hp, Z.eqb_refl, String.eqb_refl. cbn.
  rewrite Hpol, Hreq, orb_true_r. cbn. by rewrite clear_pending_lease.
Qed.
End runs.

(** ** Refinement

    The abstract arbiter: control is free, held by a role, or held by a role
    and contested by the other one.  It knows no request ids, generations,
    deadlines or timers. *)

Definition other (r : SessionRole) : SessionRole := match r with User => Agent | Agent => User end.

Inductive Arbiter : Set := Free | Held (o : SessionRole) | Contested (o : SessionRole).

Inductive ArbEvent : Set :=
| EClaim (role : SessionRole) (previous_user : bool) (online : SessionRole -> bool)
| ERemoved (role : SessionRole) (online : SessionRole -> bool)
| ERequest (role : SessionRole) (online : SessionRole -> bool)
| EResolve (responder : SessionRole) (grant : bool)
| ETakeOver
| ERelease (role : SessionRole) (online : SessionRole -> bool)
| EExpire (mcp : bool)
| ENop.

Definition arb_owner (s : Arbiter) : option SessionRole :=
  match s with Free => None | Held o | Contested o => Some o end.

Definition first_online (online : SessionRole -> bool) : Arbiter :=
  if online User then Held User else if online Agent then Held Agent else Free.

Definition arb_next (e : ArbEvent) (s : Arbiter) : Arbiter :=
  match e with
  | EClaim User true _ => Held User
  | EClaim User false online =>
      match arb_owner s with
      | Some Agent => if online Agent then s else Held User
      | _ => Held User
      end
  | EClaim Agent _ online =>
      match arb_owner s with
      | Some o => if online o then s else Held Agent
      | None => Held Agent
      end
  | ERemoved r online =>
      if online r then s else
      match s with
      | Free => Free
      | Held o => if bool_decide (o = r) then first_online online else Held o
      | Contested o => if bool_decide (o = r) then first_online online else Held o
      end
  | ERequest r online =>
      match s with
      | Free => Held r
      | Held o => if bool_decide (o = r) then Held o
                  else if online o then Contested o else Held r
      | Contested o => if bool_decide (o = r) then Contested o
                       else if online o then Contested o else Held r
      end
  | EResolve responder grant =>
      match s with
      | Contested o => if grant then (if bool_decide (responder = o) then Held (other o) else s)
                       else Held o
      | _ => s
      end
  | ETakeOver => Held User
  | ERelease r online =>
      if bool_decide (arb_owner s = Some r)
      then (if online (other r) then Held (other r) else Free)
      else s
  | EExpire mcp =>
      match s with
      | Contested User => if mcp then Held Agent else Held User
      | Contested Agent => Held Agent
      | _ => s
      end
  | ENop => s
  end.

Definition arbiter_of (l : ControlState) : Arbiter :=
  match owner l, pending l with
  | None, _ => Free
  | Some o, None => Held o
  | Some o, Some _ => Contested o
  end.

Definition online_of (user_online agent_online : bool) (r : SessionRole) : bool :=
  match r with User => user_online | Agent => agent_online end.

(** The abstract event of a critical section: a response to another request
    id and a timer that is not due or not the open request's are no events. *)
Definition abs_event (w : World) (a : LeaseAct) : ArbEvent :=
  match a with
  | ActClaim role prev ao uo => EClaim role prev (online_of uo ao)
  | ActRemoved role uo ao => ERemoved role (online_of uo ao)
  | ActRequest role uo ao => ERequest role (online_of uo ao)
  | ActResolve responder rid grant =>
      match rid, pending (lease w) with
      | Some id, Some p => if String.eqb id (request_id p) then EResolve responder grant else ENop
      | _, _ => EResolve responder grant
      end
  | ActTakeOver => ETakeOver
  | ActRelease role uo ao => ERelease role (online_of uo ao)
  | ActTimeout i mcp =>
      match timers w !! i, pending (lease w) with
      | Some t, Some p =>
          if (tm_fire t <=? clock w)%Z && Z.eqb (pending_generation p) (tm_generation t)
             && String.eqb (request_id p) (tm_request_id t)
          then EExpire mcp else ENop
      | _, _ => ENop
      end
  | ActTick _ => ENop
  end.

Section refinement.
Context (new_v4 : nat -> string).

Lemma arbiter_cleared o w : arbiter_of (lease (set_owner (Some o) (clear_pending_locked w))) = Held o.
Proof. unfold arbiter_of. lease_simpl. done. Qed.

Lemma arbiter_owner w : arb_owner (arbiter_of (lease w)) = owner (lease w).
Proof. unfold arbiter_of. by destruct (owner (lease w)), (pending (lease w)). Qed.

Lemma arbiter_cleared_none w : arbiter_of (lease (set_owner None (clear_pending_locked w))) = Free.
Proof. unfold arbiter_of. lease_simpl. done. Qed.

Lemma arbiter_clear w :
  arbiter_of (lease (clear_pending_locked w))
  = match owner (lease w) with Some o => Held o | None => Free end.
Proof. unfold arbiter_of. by rewrite clear_pending_lease. Qed.

Ltac decide_roles := repeat case_bool_decide; simplify_eq; try done.

Lemma claim_refines role prev ao uo w :
  arbiter_of (lease (on_role_claimed_locked role prev ao uo w).1)
  = arb_next (EClaim role prev (online_of uo ao)) (arbiter_of (lease w)).
Proof.
  unfold on_role_claimed_locked, arb_next. rewrite arbiter_owner.
  destruct role; [destruct prev; [apply arbiter_cleared|]|];
    destruct (owner (lease w)) as [[]|]; cbn [online_of]; decide_roles;
    destruct ao, uo; cbn [fst negb andb orb]; auto using arbiter_cleared.
Qed.

Lemma removed_refines role uo ao w :
  LeaseInv new_v4 w ->
  arbiter_of (lease (on_session_removed_locked role uo ao w).1)
  = arb_next (ERemoved role (online_of uo ao)) (arbiter_of (lease w)).
Proof.
  intros HI. unfold on_session_removed_locked, arb_next, first_online.
  pose proof (inv_contest _ w HI) as Hc.
  destruct (pending (lease w)) as [p|] eqn:Ep.
  - destruct (Hc p eq_refl) as (o & Ho & Hne & _).
    unfold arbiter_of at 2. rewrite Ho, Ep. cbn [online_of].
    destruct role, uo, ao; cbn [negb andb]; rewrite ?andb_false_r, ?andb_true_r; cbn [fst];
      unfold arbiter_of; rewrite ?Ho, ?Ep; try done;
      destruct o, (requester p); decide_roles; lease_simpl; rewrite ?Ho; done.
  - unfold arbiter_of at 2. rewrite Ep.
    destruct (owner (lease w)) as [o|] eqn:Ho;
      [destruct role, uo, ao, o|destruct role, uo, ao]; decide_roles; cbn [fst andb negb online_of];
      unfold arbiter_of; lease_simpl; rewrite ?Ho, ?Ep; done.
Qed.

Lemma request_refines role uo ao w :
  LeaseInv new_v4 w ->
  arbiter_of (lease (request_control_locked new_v4 role uo ao w).1)
  = arb_next (ERequest role (online_of uo ao)) (arbiter_of (lease w)).
Proof.
  intros HI. unfold request_control_locked, arb_next.
  pose proof (inv_contest _ w HI) as Hc.
  destruct (pending (lease w)) as [p|] eqn:Ep.
  - destruct (Hc p eq_refl) as (o & Ho & Hne & _).
    unfold arbiter_of at 2. rewrite Ho, Ep.
    destruct role, o; decide_roles; destruct uo, ao; cbn [fst negb orb online_of];
      rewrite ?arbiter_cleared; try done; decide_roles; cbn [fst];
      unfold arbiter_of; rewrite ?Ho, ?Ep; try done; destruct (requester p); done.
  - unfold arbiter_of at 2. rewrite Ep.
    destruct (owner (lease w)) as [o|] eqn:Ho;
      [destruct role, o|destruct role]; decide_roles; destruct uo, ao;
      cbn [fst negb orb online_of]; rewrite ?arbiter_cleared; try done;
      unfold arbiter_of; cbn; rewrite ?Ho, ?Ep; done.
Qed.

Lemma resolve_refines responder rid grant w :
  LeaseInv new_v4 w ->
  arbiter_of (lease (resolve_pending_locked responder rid grant w).1)
  = arb_next (abs_event w (ActResolve responder rid grant)) (arbiter_of (lease w)).
Proof.
  intros HI. unfold resolve_pending_locked, abs_event, can_grant.
  destruct (pending (lease w)) as [p|] eqn:Ep.
  2: { unfold arbiter_of. cbn [fst]. rewrite Ep. by destruct rid, (owner (lease w)). }
  destruct (inv_contest _ w HI p Ep) as (o & Ho & Hne & _).
  assert (requester p = other o) as Hr by (destruct o, (requester p); done).
  assert (Hab : arbiter_of (lease w) = Contested o) by (unfold arbiter_of; by rewrite Ho, Ep).
  rewrite Hab, Hr.
  destruct rid as [id|]; [destruct (String.eqb id (request_id p)); cbn [negb]|];
    [|by cbn [fst]; rewrite Hab|]; unfold arb_next;
    (destruct grant; cbn [andb];
     [destruct o, responder; decide_roles; cbn [fst negb]; by rewrite ?arbiter_cleared, ?Hab
     |cbn [fst]; by rewrite arbiter_clear, Ho]).
Qed.

Lemma release_refines role uo ao w :
  arbiter_of (lease (release_locked role uo ao w).1)
  = arb_next (ERelease role (online_of uo ao)) (arbiter_of (lease w)).
Proof.
  unfold release_locked, arb_next. rewrite arbiter_owner.
  case_bool_decide; cbn [negb fst]; [|done].
  destruct role, uo, ao; cbn [online_of other fst];
    by rewrite ?arbiter_cleared, ?arbiter_cleared_none.
Qed.

Lemma timeout_refines i mcp w :
  LeaseInv new_v4 w ->
  arbiter_of (lease (lease_act new_v4 (ActTimeout i mcp) w))
  = arb_next (abs_event w (ActTimeout i mcp)) (arbiter_of (lease w)).
Proof.
  intros HI. cbn [lease_act abs_event].
  destruct (timers w !! i) as [t|]; [|by destruct (pending (lease w))].
  destruct (pending (lease w)) as [p|] eqn:Ep.
  2: { unfold on_timeout_locked. cbn. rewrite Ep. by destruct (_ <=? _)%Z. }
  destruct (inv_contest _ w HI p Ep) as (o & Ho & Hne & Hpol).
  assert (requester p = other o) as Hr by (destruct o, (requester p); done).
  assert (Hab : arbiter_of (lease w) = Contested o) by (unfold arbiter_of; by rewrite Ho, Ep).
  rewrite Hr in Hpol. rewrite Hab.
  destruct (_ <=? _)%Z; cbn [andb]; [|done].
  unfold on_timeout_locked. cbn. rewrite Ep, Hpol, Hr.
  destruct (Z.eqb _ _), (String.eqb _ _); cbn [andb negb orb fst]; try done.
  destruct o; cbn [other request_policy].
  - rewrite bool_decide_true by done. destruct mcp; cbn [orb negb fst];
      by rewrite ?arbiter_cleared, ?arbiter_clear; cbn; rewrite ?Ho.
  - cbn [fst]. rewrite arbiter_clear. cbn. by rewrite Ho.
Qed.

(** C2: The lease implements the abstract arbiter: in every state its
    invariant allows, each critical section moves the abstraction of the
    lease exactly as the arbiter moves on the abstract event, so request
    ids, generations and timers never make a difference beyond it. *)
Theorem lease_refines_arbiter a w :
  LeaseInv new_v4 w ->
  arbiter_of (lease (lease_act new_v4 a w)) = arb_next (abs_event w a) (arbiter_of (lease w)).
Proof.
  intros HI. destruct a.
  - apply claim_refines.
  - by apply removed_refines.
  - by apply request_refines.
  - by apply resolve_refines.
  - apply arbiter_cleared.
  - apply release_refines.
  - by apply timeout_refines.
  - done.
Qed.

(** With two roles the [controlBusy] error cannot occur: in every state
    the invariant allows, a request either succeeds at once, opens an
    arbitration or joins the one the same role opened. *)
Theorem request_never_busy role uo ao w :
  LeaseInv new_v4 w ->
  ∃ r, (request_control_locked new_v4 role uo ao w).2 = Ok r.
Proof.
  intros HI. unfold request_control_locked.
  case_bool_decide as Ho; [eexists; reflexivity|].
  destruct (bool_decide _ || _)%bool; [eexists; reflexivity|].
  destruct (pending (lease w)) as [p|] eqn:Ep; [|eexists; reflexivity].
  destruct (inv_contest _ w HI p Ep) as (o & Ho' & Hne & _).
  rewrite bool_decide_true; [eexists; reflexivity|].
  destruct (requester p), role, o; congruence.
Qed.
End refinement.
