(* ===== verification/SessionPlane.v ===== *)
(** * The session plane (arkkvm/src/state.rs, webrtc/mod.rs, webrtc/handler.rs)

    How the registry, the control lease, the forward tickets and the media
    sinks move together: registering, claiming, replacing and removing a
    session, and the callbacks of a peer connection.

    A session built by [new_session] always carries both tracks, so attaching
    its sinks enters it in both sink tables; a peer connection is a number and
    its ICE state, which the session and the callback handler share, is kept
    in a table under that number. *)

From S2P Require Import Prelude Session AppState IpForward ControlLease.

Inductive RTCIceConnectionState : Set :=
| IceUnspecified | IceNew | IceChecking | IceConnected | IceCompleted
| IceDisconnected | IceFailed | IceClosed.

(** The media tasks spawned on the first connect and the last disconnect. *)
Inductive MediaTask : Set := FirstSessionConnected | LastSessionDisconnected.

(** [delayed_closes] are the running [close_previous_session_after_delay]
    tasks; [closed] the sessions given to [close_removed_session];
    [webrtc_media] tells whether a WebRTC-backed virtual medium is mounted. *)
Record Plane := mkPlane {
  world : World;
  ice_states : gmap nat RTCIceConnectionState;
  video_sink : gmap SessionRole string;
  audio_sink : gmap SessionRole string;
  delayed_closes : list (string * nat);
  closed : list Session;
  media_tasks : list MediaTask;
  webrtc_media : bool
}.

Definition set_world (w : World) (p : Plane) : Plane :=
  mkPlane w (ice_states p) (video_sink p) (audio_sink p) (delayed_closes p) (closed p)
    (media_tasks p) (webrtc_media p).
Definition set_ice_states (m : gmap nat RTCIceConnectionState) (p : Plane) : Plane :=
  mkPlane (world p) m (video_sink p) (audio_sink p) (delayed_closes p) (closed p)
    (media_tasks p) (webrtc_media p).
Definition set_sinks (v a : gmap SessionRole string) (p : Plane) : Plane :=
  mkPlane (world p) (ice_states p) v a (delayed_closes p) (closed p)
    (media_tasks p) (webrtc_media p).
Definition set_delayed (l : list (string * nat)) (p : Plane) : Plane :=
  mkPlane (world p) (ice_states p) (video_sink p) (audio_sink p) l (closed p)
    (media_tasks p) (webrtc_media p).
Definition set_closed (l : list Session) (p : Plane) : Plane :=
  mkPlane (world p) (ice_states p) (video_sink p) (audio_sink p) (delayed_closes p) l
    (media_tasks p) (webrtc_media p).
Definition set_media_tasks (l : list MediaTask) (p : Plane) : Plane :=
  mkPlane (world p) (ice_states p) (video_sink p) (audio_sink p) (delayed_closes p) (closed p)
    l (webrtc_media p).
Definition set_webrtc_media (b : bool) (p : Plane) : Plane :=
  mkPlane (world p) (ice_states p) (video_sink p) (audio_sink p) (delayed_closes p) (closed p)
    (media_tasks p) b.

Definition papp (p : Plane) : AppState := app (world p).
Definition set_papp (a : AppState) (p : Plane) : Plane := set_world (set_app a (world p)) p.

(** ** Media sinks (video.rs, audio.rs) *)

Definition attach_webrtc_sink (role : SessionRole) (id : string)
    (sinks : gmap SessionRole string) : gmap SessionRole string :=
  <[role := id]> sinks.

Definition detach_if_session (role : SessionRole) (id : string)
    (sinks : gmap SessionRole string) : gmap SessionRole string :=
  let should_remove := match sinks !! role with
                       | Some entry => String.eqb entry id
                       | None => false
                       end in
  if should_remove then delete role sinks else sinks.

Definition ice_is_up (s : RTCIceConnectionState) : bool :=
  match s with IceConnected | IceCompleted => true | _ => false end.

Definition attach_role_session_sinks_if_connected (s : Session) (state : RTCIceConnectionState)
    (p : Plane) : Plane :=
  if negb (is_role_slot_holder (papp p) (session_id s)) then p
  else if negb (ice_is_up state) then p
  else set_sinks (attach_webrtc_sink (session_role s) (session_id s) (video_sink p))
                 (attach_webrtc_sink (session_role s) (session_id s) (audio_sink p)) p.

(** ** Removing a session (state.rs, webrtc/mod.rs) *)

Definition remove_session_inner (id : string) (expected_peer : option nat) (p : Plane)
  : Plane * option Session :=
  let '(a, removed, count) := remove_session_entry id expected_peer (papp p) in
  let p := set_papp a p in
  match removed with
  | None => (p, None)
  | Some s =>
      let p := set_papp (retain_roles id (papp p)) p in
      let p := set_world (set_tickets (clear_session id (tickets (world p))) (world p)) p in
      let p := set_world (on_session_removed s (world p)) p in
      let p := if (count =? 0)%nat
               then set_media_tasks (media_tasks p ++ [LastSessionDisconnected]) p else p in
      (p, Some s)
  end.

Definition remove_session (id : string) (p : Plane) : Plane * option Session :=
  remove_session_inner id None p.

Definition remove_session_for_peer (id : string) (peer : nat) (p : Plane) : Plane * option Session :=
  remove_session_inner id (Some peer) p.

Definition close_removed_session (s : Session) (p : Plane) : Plane :=
  set_closed (closed p ++ [s]) p.

(** [unmount_ok] is the outcome of [storage::unmount_image]. *)
Definition cleanup_last_session_resources (unmount_ok : bool) (p : Plane) : Plane :=
  if negb (session_count (papp p) =? 0)%nat then p else
  let p := set_sinks ∅ ∅ p in
  if webrtc_media p && unmount_ok then set_webrtc_media false p else p.

Definition remove_and_close_session (unmount_ok : bool) (id : string) (p : Plane) : Plane * bool :=
  match remove_session id p with
  | (p, None) => (p, false)
  | (p, Some s) => (cleanup_last_session_resources unmount_ok (close_removed_session s p), true)
  end.

Definition remove_and_close_session_for_peer (unmount_ok : bool) (id : string) (peer : nat)
    (p : Plane) : Plane * bool :=
  match remove_session_for_peer id peer p with
  | (p, None) => (p, false)
  | (p, Some s) => (cleanup_last_session_resources unmount_ok (close_removed_session s p), true)
  end.

(** The end of the one second delay of the [i]-th pending close. *)
Definition close_previous_session_after_delay (unmount_ok : bool) (i : nat) (p : Plane) : Plane :=
  match delayed_closes p !! i with
  | None => p
  | Some (old_id, old_peer) =>
      (remove_and_close_session_for_peer unmount_ok old_id old_peer
         (set_delayed (delete i (delayed_closes p)) p)).1
  end.

(** ** Registering a session (the end of [WebRTCApi::new_session]) *)

Definition new_session_register (s : Session) (p : Plane) : Plane :=
  let p := match peer_connection s with
           | Some peer => set_ice_states (<[peer := IceUnspecified]> (ice_states p)) p
           | None => p
           end in
  let '(a, previous, first_connect) := add_session s (papp p) in
  let p := set_papp a p in
  let p := if first_connect : bool
           then set_media_tasks (media_tasks p ++ [FirstSessionConnected]) p else p in
  match previous with
  | Some prev => close_removed_session prev p
  | None => p
  end.

(** ** Claiming a role slot (webrtc/mod.rs) *)

Definition on_active_sessions_changed (p : Plane) : Plane :=
  let count := session_count (papp p) in
  set_world (notify_roles (NSessionCountChanged count) [User] (world p)) p.

Definition connection_state_of (id : string) (p : Plane) : RTCIceConnectionState :=
  match get_session_by_id (papp p) id with
  | Some registered =>
      match peer_connection registered with
      | Some peer => default IceUnspecified (ice_states p !! peer)
      | None => IceUnspecified
      end
  | None => IceUnspecified
  end.

(** Tell the session that lost its slot and schedule its removal. *)
Definition kick_previous (new_session old_session : Session) (p : Plane) : Plane :=
  if ptr_eq old_session new_session then p else
  let p := set_world (set_outbox (outbox (world p) ++
                        [(session_id old_session, NOtherSessionConnected)]) (world p)) p in
  match peer_connection old_session with
  | Some old_peer => set_delayed (delayed_closes p ++ [(session_id old_session, old_peer)]) p
  | None => p
  end.

Definition claim_and_activate_session (s : Session) (p : Plane) : Plane * ClaimRoleResult :=
  if bool_decide (session_role s = Agent) && negb (mcp_enabled (world p))
  then (p, RejectedMcpDisabled) else
  let '(a, claim) := claim_role_slot s (papp p) in
  let p := set_papp a p in
  match claim with
  | Accepted previous =>
      let p := on_active_sessions_changed p in
      let connection_state := connection_state_of (session_id s) p in
      let p := attach_role_session_sinks_if_connected s connection_state p in
      let p := match previous with Some old => kick_previous s old p | None => p end in
      let prev := match previous with
                  | Some old => if ptr_eq old s then None else Some old
                  | None => None
                  end in
      (set_world (on_role_claimed s prev (world p)) p, claim)
  | _ => (p, claim)
  end.

(** ** Callbacks of the peer connection (webrtc/handler.rs)

    [upgraded] is the peer the handler's weak reference still reaches. *)

Definition ice_connected_task (id : string) (role : SessionRole) (peer : nat) (p : Plane) : Plane :=
  if negb (session_owns_peer (papp p) id peer) then p else
  let '(a, occupied) := set_role_slot_if_none role id (papp p) in
  let p := set_papp a p in
  let p := if occupied : bool then on_active_sessions_changed p else p in
  if negb (is_role_slot_holder (papp p) id) then p else
  let current := default IceUnspecified (ice_states p !! peer) in
  if negb (ice_is_up current) then p else
  match get_session_by_id (papp p) id with
  | Some s => attach_role_session_sinks_if_connected s current p
  | None => p
  end.

Definition on_ice_connection_state_change (unmount_ok : bool) (id : string) (role : SessionRole)
    (peer : nat) (upgraded : bool) (state : RTCIceConnectionState) (p : Plane) : Plane :=
  let p := set_ice_states (<[peer := state]> (ice_states p)) p in
  match state with
  | IceConnected => if upgraded then ice_connected_task id role peer p else p
  | IceDisconnected =>
      if negb upgraded then p
      else if negb (session_owns_peer (papp p) id peer) then p
      else set_sinks (detach_if_session role id (video_sink p))
                     (detach_if_session role id (audio_sink p)) p
  | IceFailed | IceClosed =>
      if negb upgraded then p else
      match remove_session_for_peer id peer p with
      | (p, None) => p
      | (p, Some s) =>
          cleanup_last_session_resources unmount_ok
            (on_active_sessions_changed (close_removed_session s p))
      end
  | _ => p
  end.

(** The peer connection is fully up: attach again (DTLS may have been late). *)
Definition on_connection_connected (id : string) (peer : nat) (upgraded : bool) (p : Plane) : Plane :=
  if negb upgraded then p
  else if negb (session_owns_peer (papp p) id peer) then p
  else if negb (is_role_slot_holder (papp p) id) then p
  else match get_session_by_id (papp p) id with
       | Some s => attach_role_session_sinks_if_connected s
                     (default IceUnspecified (ice_states p !! peer)) p
       | None => p
       end.

(** The rpc data channel opened. *)
Definition update_session_rpc_channel (id : string) (p : Plane) : Plane :=
  match get_session_by_id (papp p) id with
  | None => p
  | Some s => set_world (on_rpc_ready s (world p)) p
  end.
