(* ===== verification/PlaneProofs.v ===== *)
(** * Correctness of the session plane

    A step relation whose steps are the critical sections of the handlers, so
    that runs interleave them in any order; the registry invariant and the
    mutual exclusion of keyboard and mouse control over all runs; and what
    each handler does from start to end. *)

From S2P Require Import Prelude Session AppState IpForward ControlLease LeaseProofs SessionPlane.

(** ** Handlers leave the registry alone where they should *)

Lemma notify_roles_app n rs w : app (notify_roles n rs w) = app w.
Proof. done. Qed.
Lemma notify_roles_lease n rs w : lease (notify_roles n rs w) = lease w.
Proof. done. Qed.

Lemma dispatch_events_same evs w :
  app (dispatch_events evs w) = app w /\ lease (dispatch_events evs w) = lease w
  /\ tickets (dispatch_events evs w) = tickets w
  /\ mcp_enabled (dispatch_events evs w) = mcp_enabled w.
Proof.
  unfold dispatch_events. revert w. induction evs as [|ev evs IH]; intros w; [done|].
  cbn [fold_left]. destruct (IH (dispatch_event w ev)) as (-> & -> & -> & ->). by destruct ev.
Qed.

(** The fields of the world no lease operation touches. *)
Definition same_frame (w w' : World) : Prop :=
  app w' = app w /\ tickets w' = tickets w /\ mcp_enabled w' = mcp_enabled w.

Lemma same_frame_refl w : same_frame w w.
Proof. done. Qed.

Lemma same_frame_cleared w : same_frame w (clear_pending_locked w).
Proof. unfold clear_pending_locked. by destruct (pending (lease w)). Qed.

Lemma same_frame_cleared_owner o w : same_frame w (set_owner o (clear_pending_locked w)).
Proof. unfold clear_pending_locked. by destruct (pending (lease w)). Qed.

Lemma same_frame_cleared2 o w :
  same_frame w (set_owner o (clear_pending_locked (clear_pending_locked w))).
Proof.
  destruct (same_frame_cleared w) as (H1 & H2 & H3).
  destruct (same_frame_cleared_owner o (clear_pending_locked w)) as (G1 & G2 & G3).
  split_and!; congruence.
Qed.

Create HintDb frame.
#[export] Hint Resolve same_frame_refl same_frame_cleared same_frame_cleared_owner
  same_frame_cleared2 : frame.

Lemma claimed_frame role prev ao uo w :
  same_frame w (on_role_claimed_locked role prev ao uo w).1.
Proof.
  unfold on_role_claimed_locked.
  destruct role; [destruct prev; [|destruct (_ && _)%bool]|destruct (_ || _)%bool];
    cbn [fst]; auto with frame.
Qed.

Lemma removed_frame role uo ao w : same_frame w (on_session_removed_locked role uo ao w).1.
Proof.
  unfold on_session_removed_locked.
  destruct (match pending (lease w) with Some p => _ | None => false end);
    destruct (_ && _)%bool; cbn [fst]; auto with frame.
Qed.

Lemma on_role_claimed_frame s prev w : same_frame w (on_role_claimed s prev w).
Proof.
  unfold on_role_claimed.
  pose proof (claimed_frame (session_role s) (bool_decide (is_Some prev))
                (role_still_online w Agent) (role_still_online w User) w) as (H1 & H2 & H3).
  destruct (on_role_claimed_locked _ _ _ _ w) as [w' evs]. cbn [fst] in *.
  destruct (dispatch_events_same evs w') as (G1 & _ & G2 & G3). split_and!; congruence.
Qed.

Lemma on_session_removed_frame s w : same_frame w (on_session_removed s w).
Proof.
  unfold on_session_removed.
  pose proof (removed_frame (session_role s) (role_still_online w User)
                (role_still_online w Agent) w) as (H1 & H2 & H3).
  destruct (on_session_removed_locked _ _ _ w) as [w' evs]. cbn [fst] in *.
  destruct (dispatch_events_same evs w') as (G1 & _ & G2 & G3). split_and!; congruence.
Qed.

Lemma on_session_removed_lease s w :
  lease (on_session_removed s w) =
  lease (on_session_removed_locked (session_role s) (role_still_online w User)
           (role_still_online w Agent) w).1.
Proof.
  unfold on_session_removed. destruct (on_session_removed_locked _ _ _ w) as [w' evs].
  by destruct (dispatch_events_same evs w') as (_ & -> & _).
Qed.

Lemma on_role_claimed_lease s prev w :
  lease (on_role_claimed s prev w) =
  lease (on_role_claimed_locked (session_role s) (bool_decide (is_Some prev))
           (role_still_online w Agent) (role_still_online w User) w).1.
Proof.
  unfold on_role_claimed. destruct (on_role_claimed_locked _ _ _ _ w) as [w' evs].
  by destruct (dispatch_events_same evs w') as (_ & -> & _).
Qed.

(** ** Interleavings

    A step that puts a session into the registry or into a role slot carries
    the session id and the role it uses the id with. *)

Definition Use : Type := string * SessionRole.

(** One critical section on the registry, or any change that does not touch
    it (the lease, the tickets, the clock, the MCP switch). *)
Inductive wstep : option Use -> World -> World -> Prop :=
| ws_register s w :
    wstep (Some (session_id s, session_role s)) w (set_app (add_session s (app w)).1.1 w)
| ws_unregister id peer w : wstep None w (set_app (remove_session_entry id peer (app w)).1.1 w)
| ws_retain id w : wstep None w (set_app (retain_roles id (app w)) w)
| ws_claim s w :
    wstep (Some (session_id s, session_role s)) w (set_app (claim_role_slot s (app w)).1 w)
| ws_slot id role w : wstep (Some (id, role)) w (set_app (set_role_slot_if_none role id (app w)).1 w)
| ws_clear r id w : wstep None w (set_app (clear_role_slot_if r id (app w)).1 w)
| ws_other w w' : app w' = app w -> wstep None w w'.

(** A run of steps, with the uses of session ids in it. *)
Inductive plane_run : list Use -> World -> World -> Prop :=
| plane_run_nil w : plane_run [] w w
| plane_run_cons u us w w1 w2 : wstep u w w1 -> plane_run us w1 w2 -> plane_run (option_list u ++ us) w w2.

(** No session id is used with two roles. *)
Definition one_role (us : list Use) : Prop :=
  ∀ id r r', (id, r) ∈ us -> (id, r') ∈ us -> r = r'.

(** Every use in [us] is that of [id] with [role]. *)
Definition only_uses (id : string) (role : SessionRole) (us : list Use) : Prop :=
  Forall (fun u => u = (id, role)) us.

Lemma plane_run_app us us' w w1 w2 : plane_run us w w1 -> plane_run us' w1 w2 -> plane_run (us ++ us') w w2.
Proof. induction 1; intros; rewrite <- ?app_assoc; cbn; [done|]. econstructor; eauto. Qed.

Lemma plane_run_once u w w' : wstep u w w' -> plane_run (option_list u) w w'.
Proof. intros. rewrite <- (app_nil_r (option_list u)). econstructor; [done|constructor]. Qed.

(** Under one role per id, every session in the registry has the role of its
    id, and so has every slot. *)
Section roles.
Context (bound_role : string -> SessionRole).

Definition bound (s : Session) : Prop := session_role s = bound_role (session_id s).

Record PlaneInv (w : World) : Prop := {
  pinv_sessions : ∀ id s, sessions (app w) !! id = Some s -> session_id s = id /\ bound s;
  pinv_slots : ∀ r id, role_sessions (app w) !! r = Some id -> bound_role id = r
}.

Lemma wstep_inv u w w' :
  wstep u w w' -> (∀ id r, u = Some (id, r) -> bound_role id = r) -> PlaneInv w -> PlaneInv w'.
Proof.
  intros Hst Hu [Hs Hr]. destruct Hst as [s w|id peer w|id w|s w|id role w|r id w|w w' Ha].
  - pose proof (Hu _ _ eq_refl) as Hb. split; cbn; [|done]. intros id s'. rewrite lookup_insert.
    case_decide; [|apply Hs]. intros [= <-]. by subst.
  - split; cbn; [|done]. intros id' s'.
    destruct (match sessions (app w) !! id with Some _ => _ | None => _ end); [|apply Hs].
    rewrite lookup_delete. case_decide; [done|apply Hs].
  - split; cbn; [done|]. intros r id'. rewrite map_lookup_filter_Some. intros [H _]. by apply Hr.
  - pose proof (Hu _ _ eq_refl) as Hb. pose proof (claim_role_slot_cases s (app w)) as H.
    destruct (claim_role_slot s (app w)) as [a c]. cbn [fst]. destruct H as [H He].
    split; cbn; rewrite ?He; [done|]. intros r id.
    destruct c as [p| | |]; [|by destruct H as (-> & _); apply Hr|done|by subst a; apply Hr].
    destruct H as [-> _]. rewrite lookup_insert. case_decide; [|apply Hr].
    intros [= <-]. by subst r.
  - pose proof (Hu _ _ eq_refl) as Hb. unfold set_role_slot_if_none.
    destruct (role_sessions (app w) !! role); [done|].
    split; cbn; [done|]. intros r id'. rewrite lookup_insert.
    case_decide; [congruence|apply Hr].
  - unfold clear_role_slot_if. case_bool_decide; [|done]. split; cbn; [done|].
    intros r' id'. rewrite lookup_delete. case_decide; [done|apply Hr].
  - split; rewrite Ha; done.
Qed.

Lemma plane_run_inv us w w' :
  plane_run us w w' -> (∀ id r, (id, r) ∈ us -> bound_role id = r) -> PlaneInv w -> PlaneInv w'.
Proof.
  induction 1 as [|u us w w1 w2 Hst _ IH]; intros Hu Hi; [done|].
  apply IH; [intros id r ?; apply Hu, elem_of_app; by right|].
  apply (wstep_inv u w); [done| |done]. intros id r ->. apply Hu. cbn. left.
Qed.

Lemma plane_inv_new w : app w = app_new -> PlaneInv w.
Proof. intros H. split; rewrite H; cbn; intros ??; by rewrite lookup_empty. Qed.

(** Who passes the gate is the registered session in the owner's slot. *)
Lemma allows_hid_slot w id :
  PlaneInv w -> allows_hid w id = true ->
  ∃ r s, owner (lease w) = Some r /\ role_sessions (app w) !! r = Some id
         /\ sessions (app w) !! id = Some s /\ session_role s = r
         /\ (r = Agent -> mcp_enabled w = true).
Proof.
  intros [Hs Hr]. unfold allows_hid, get_session_by_id.
  destruct (sessions (app w) !! id) as [s|] eqn:E; [|done].
  destruct (is_role_slot_holder (app w) id) eqn:Eh; [|done]. cbn [negb].
  destruct (bool_decide (session_role s = Agent) && negb (mcp_enabled w))%bool eqn:Em; [done|].
  intros Ho%bool_decide_eq_true. apply is_role_slot_holder_iff in Eh as [r Hslot].
  destruct (Hs _ _ E) as [<- Hb]. pose proof (Hr _ _ Hslot) as Hbr.
  unfold bound in Hb. rewrite Hbr in Hb.
  exists r, s. rewrite <- Hb at 1. split_and!; try done.
  intros ->. rewrite Hb in Em. rewrite bool_decide_true in Em by done.
  by destruct (mcp_enabled w).
Qed.
End roles.

(** The role of an id, read off its first use. *)
Definition role_in (us : list Use) (id : string) : SessionRole :=
  match List.find (fun u => String.eqb (fst u) id) us with Some u => snd u | None => User end.

Lemma role_in_spec us id r : one_role us -> (id, r) ∈ us -> role_in us id = r.
Proof.
  intros Hone Hin. unfold role_in. destruct (List.find (fun u => String.eqb (fst u) id) us) as [[id' r']|] eqn:E.
  - apply List.find_some in E as [Hin' <-%String.eqb_eq]. cbn.
    apply list_elem_of_In in Hin'. by apply (Hone _ _ _ Hin' Hin).
  - apply list_elem_of_In in Hin. pose proof (List.find_none _ _ E _ Hin) as H. cbn in H.
    by rewrite String.eqb_refl in H.
Qed.

(** C1: Keyboard and mouse have one driver.  Whatever the interleaving of
    registrations, claims, removals, ICE callbacks and lease operations
    since startup, as long as no session id is used with two roles, at most
    one session passes the HID gate, it is the registered holder of the slot
    of the role that owns control, and an agent passes only while MCP is
    enabled.  Ids are drawn anew for each connection, and all signaling
    paths fix one role per id but one: a local WebSocket opened without
    clientType takes the role of each message ([legacy_socket_role_confusion]);
    there two sessions can pass, see [two_roles_share_the_gate]. *)
Theorem hid_gate_exclusive us w0 w id id' :
  app w0 = app_new -> plane_run us w0 w -> one_role us ->
  allows_hid w id = true ->
  (allows_hid w id' = true -> id' = id)
  /\ ∃ r, owner (lease w) = Some r /\ role_sessions (app w) !! r = Some id
          /\ (r = Agent -> mcp_enabled w = true).
Proof.
  intros H0 Hrun Hone H1.
  pose proof (plane_run_inv (role_in us) _ _ _ Hrun (fun _ _ => role_in_spec _ _ _ Hone)
                (plane_inv_new _ _ H0)) as HI.
  destruct (allows_hid_slot _ w id HI H1) as (r & s & Ho & Hsl & _ & _ & Hm).
  split; [|by eauto 10].
  intros H2. destruct (allows_hid_slot _ w id' HI H2) as (r' & s' & Ho' & Hsl' & _).
  congruence.
Qed.

(** The condition is needed: an id used with both roles keeps the slot of
    the first, and passes the gate beside the holder of the other slot. *)
Lemma two_roles_share_the_gate w0 :
  app w0 = app_new -> mcp_enabled w0 = true ->
  ∃ us w, plane_run us w0 w /\ allows_hid w "x" = true /\ allows_hid w "y" = true.
Proof.
  intros H0 Hm.
  set (xu := mkSession 1 "x" User None false None).
  set (xa := mkSession 2 "x" Agent None false None).
  set (ya := mkSession 3 "y" Agent None false None).
  set (w1 := set_app (add_session xu (app w0)).1.1 w0).
  set (w2 := set_app (claim_role_slot xu (app w1)).1 w1).
  set (w3 := set_app (add_session xa (app w2)).1.1 w2).
  set (w4 := set_app (add_session ya (app w3)).1.1 w3).
  set (w5 := set_app (claim_role_slot ya (app w4)).1 w4).
  set (w6 := set_lease (mkControl (Some Agent) None) w5).
  eexists _, w6. split.
  - eapply (plane_run_cons _ _ _ w1); [apply ws_register|].
    eapply (plane_run_cons _ _ _ w2); [apply ws_claim|].
    eapply (plane_run_cons _ _ _ w3); [apply ws_register|].
    eapply (plane_run_cons _ _ _ w4); [apply ws_register|].
    eapply (plane_run_cons _ _ _ w5); [apply ws_claim|].
    eapply (plane_run_cons _ _ _ w6); [by apply ws_other|constructor].
  - subst w6 w5 w4 w3 w2 w1. destruct w0. cbn in H0, Hm. subst. by split; vm_compute.
Qed.

(** ** The handlers are runs of steps *)

(** A run that uses no id but [id], and that only with [role]. *)
Definition wsteps (id : string) (role : SessionRole) (w w' : World) : Prop :=
  ∃ us, only_uses id role us /\ plane_run us w w'.
Definition psteps (id : string) (role : SessionRole) (p p' : Plane) : Prop :=
  wsteps id role (world p) (world p').

Section runs.
Context (id0 : string) (role0 : SessionRole).
Notation steps := (wsteps id0 role0).

#[local] Instance steps_refl : Reflexive steps.
Proof. exists []. split; constructor. Qed.

#[local] Instance steps_trans : Transitive steps.
Proof.
  intros w w1 w2 (us & H1 & R1) (us' & H2 & R2). exists (us ++ us').
  split; [by apply Forall_app|by eapply plane_run_app].
Qed.

Lemma step_none w w' : wstep None w w' -> steps w w'.
Proof. exists []. split; [constructor|by apply (plane_run_once None)]. Qed.

Lemma step_use w w' : wstep (Some (id0, role0)) w w' -> steps w w'.
Proof. exists [(id0, role0)]. split; [by repeat constructor|by apply (plane_run_once (Some _))]. Qed.

Lemma step_other w w' : app w' = app w -> steps w w'.
Proof. intros. by apply step_none, ws_other. Qed.

Lemma remove_session_inner_steps id peer p :
  steps (world p) (world (remove_session_inner id peer p).1).
Proof.
  unfold remove_session_inner.
  pose proof (ws_unregister id peer (world p)) as H1.
  unfold papp. destruct (remove_session_entry id peer (app (world p))) as [[a removed] count].
  cbn [fst] in *. destruct removed as [s|]; [|by apply step_none].
  set (w1 := set_app a (world p)) in *.
  etrans; [apply step_none; exact H1|].
  etrans; [apply step_none, (ws_retain id w1)|].
  set (w2 := set_app (retain_roles id (app w1)) w1).
  etrans; [apply (step_other w2 (set_tickets (clear_session id (tickets w2)) w2)); done|].
  set (w3 := set_tickets _ w2).
  etrans; [apply (step_other w3 (on_session_removed s w3)), on_session_removed_frame|].
  by destruct (count =? 0)%nat.
Qed.

Lemma attach_same_world s st p :
  world (attach_role_session_sinks_if_connected s st p) = world p.
Proof.
  unfold attach_role_session_sinks_if_connected.
  destruct (negb _); [done|]. by destruct (negb _).
Qed.

Lemma kick_same_app s old p : app (world (kick_previous s old p)) = app (world p).
Proof.
  unfold kick_previous. destruct (ptr_eq old s); [done|]. by destruct (peer_connection old).
Qed.

Lemma claim_steps s p :
  (session_id s, session_role s) = (id0, role0) ->
  steps (world p) (world (claim_and_activate_session s p).1).
Proof.
  intros Hb. unfold claim_and_activate_session.
  destruct (bool_decide _ && negb _)%bool; [done|].
  pose proof (ws_claim s (world p)) as H1. rewrite Hb in H1. apply step_use in H1. unfold papp.
  destruct (claim_role_slot s (app (world p))) as [a c]. cbn [fst] in *.
  etrans; [exact H1|]. destruct c as [previous| | |]; try done.
  cbv zeta. apply step_other. cbn [fst world set_world].
  rewrite (proj1 (on_role_claimed_frame _ _ _)).
  destruct previous as [old|]; rewrite ?kick_same_app, attach_same_world; done.
Qed.

Lemma cleanup_same_world ok p : world (cleanup_last_session_resources ok p) = world p.
Proof.
  unfold cleanup_last_session_resources. destruct (negb _); [done|]. by destruct (_ && _)%bool.
Qed.

Lemma ice_connected_steps peer p : steps (world p) (world (ice_connected_task id0 role0 peer p)).
Proof.
  unfold ice_connected_task. destruct (negb _); [done|].
  pose proof (step_use _ _ (ws_slot id0 role0 (world p))) as H1. unfold papp at 1.
  destruct (set_role_slot_if_none _ id0 (app (world p))) as [a b]. cbn [fst] in *.
  etrans; [exact H1|]. apply step_other.
  destruct b; (destruct (negb (is_role_slot_holder _ _)); [done|]);
    (destruct (negb (ice_is_up _)); [done|]);
    (destruct (get_session_by_id _ _); [by rewrite attach_same_world|done]).
Qed.

Lemma register_steps s p :
  (session_id s, session_role s) = (id0, role0) ->
  steps (world p) (world (new_session_register s p)).
Proof.
  intros Hb. unfold new_session_register.
  pose proof (ws_register s (world p)) as H1. rewrite Hb in H1. apply step_use in H1.
  unfold add_session in *.
  destruct (peer_connection s); unfold papp; cbn [world set_ice_states fst] in *;
    by destruct (_ && _)%bool, (sessions (app (world p)) !! session_id s).
Qed.

Lemma ice_change_steps ok peer up st p :
  steps (world p) (world (on_ice_connection_state_change ok id0 role0 peer up st p)).
Proof.
  unfold on_ice_connection_state_change. set (p1 := set_ice_states _ p).
  assert (Hrem : steps (world p1) (world (remove_session_inner id0 (Some peer) p1).1))
    by apply remove_session_inner_steps.
  unfold remove_session_for_peer in *. change (world p) with (world p1).
  destruct st; try done; destruct up; cbn [negb]; try done; try (apply ice_connected_steps).
  - by destruct (negb _).
  - destruct (remove_session_inner _ _ _) as [p' [s'|]]; cbn [fst] in *; [|done].
    rewrite cleanup_same_world. etrans; [exact Hrem|]. by apply step_other.
  - destruct (remove_session_inner _ _ _) as [p' [s'|]]; cbn [fst] in *; [|done].
    rewrite cleanup_same_world. etrans; [exact Hrem|]. by apply step_other.
Qed.
End runs.

(** The peer callbacks, removals, kicks and claims of the source are runs of
    the steps above that use only the id and role they are called with, so
    the exclusion theorem covers the states every one of them passes
    through. *)
Theorem handlers_are_runs ok id role peer up st s i p :
  psteps (session_id s) (session_role s) p (claim_and_activate_session s p).1
  /\ psteps (session_id s) (session_role s) p (new_session_register s p)
  /\ psteps id role p (remove_and_close_session ok id p).1
  /\ psteps id role p (close_previous_session_after_delay ok i p)
  /\ psteps id role p (on_ice_connection_state_change ok id role peer up st p).
Proof.
  unfold psteps. split_and!; [by apply claim_steps|by apply register_steps|..].
  - unfold remove_and_close_session, remove_session.
    pose proof (remove_session_inner_steps id role id None p) as H1.
    destruct (remove_session_inner id None p) as [p' [s'|]]; cbn [fst] in *; [|done].
    by rewrite cleanup_same_world.
  - unfold close_previous_session_after_delay, remove_and_close_session_for_peer.
    destruct (delayed_closes p !! i) as [[old_id old_peer]|]; [|apply steps_refl].
    pose proof (remove_session_inner_steps id role old_id (Some old_peer)
                  (set_delayed (delete i (delayed_closes p)) p)) as H1.
    unfold remove_session_for_peer. destruct (remove_session_inner _ _ _) as [p' [s'|]];
      cbn [fst] in *; [|done]. by rewrite cleanup_same_world.
  - apply ice_change_steps.
Qed.

(** ** Removal *)

(** A removal took the entry out exactly when it returns the session. *)
Lemma remove_session_inner_spec id peer p :
  let '(p', removed) := remove_session_inner id peer p in
  match removed with
  | Some s =>
      sessions (papp p) !! id = Some s
      /\ (∀ expected, peer = Some expected -> peer_connection s = Some expected)
      /\ sessions (papp p') = delete id (sessions (papp p))
      /\ role_sessions (papp p') = filter (fun '(_, v) => v ≠ id) (role_sessions (papp p))
      /\ tickets (world p') = clear_session id (tickets (world p))
      /\ mcp_enabled (world p') = mcp_enabled (world p)
      /\ ∃ w1, role_sessions (app w1) = role_sessions (papp p') /\ sessions (app w1) = sessions (papp p')
               /\ lease w1 = lease (world p) /\ lease (world p') = lease (on_session_removed s w1)
  | None => world p' = world p
            /\ (∀ s, sessions (papp p) !! id = Some s ->
                     ∃ expected, peer = Some expected /\ peer_connection s ≠ Some expected)
  end.
Proof.
  unfold remove_session_inner, remove_session_entry, papp.
  destruct (sessions (app (world p)) !! id) as [s|] eqn:E; cbn.
  - destruct peer as [expected|]; [destruct (peer_connection s) as [actual|] eqn:Ep;
      [case_bool_decide as Hd|]|].
    2,3: split; [by destruct p as [[[]]]|]; intros s' [= <-]; exists expected; split; congruence.
    all: match goal with |- context [on_session_removed ?s0 ?w] =>
           pose proof (on_session_removed_frame s0 w) as (H1 & H2 & H3); set (w1 := w) in * end.
    all: destruct (_ =? 0)%nat; cbn; rewrite ?H1, ?H2, ?H3;
         (split_and!; try done; try congruence; exists w1; done).
  - split; [by destruct p as [[[]]]|done].
Qed.

Lemma slot_of_removed w r id :
  role_sessions (app w) !! r = Some id -> sessions (app w) !! id = None ->
  role_still_online w r = false.
Proof.
  intros H1 H2. unfold role_still_online, get_session_for_role, get_session_by_id.
  rewrite H1, H2. by apply bool_decide_eq_false, is_Some_None.
Qed.

(** C3: Removing a session takes everything it held with it: it is no longer
    registered, no role slot names it, it fails the HID gate, none of its
    forward tickets is left; and if no other session is online for its role,
    that role no longer owns control. *)
Theorem removal_is_complete id p p' s :
  remove_session id p = (p', Some s) ->
  sessions (papp p') !! id = None
  /\ (∀ r, role_sessions (papp p') !! r ≠ Some id)
  /\ allows_hid (world p') id = false
  /\ (∀ label t, tickets (world p') !! label = Some t -> tk_session_id t ≠ id)
  /\ (role_still_online (world p') (session_role s) = false ->
      owner (lease (world p')) ≠ Some (session_role s)).
Proof.
  intros Hr. pose proof (remove_session_inner_spec id None p) as H.
  unfold remove_session in Hr. rewrite Hr in H.
  destruct H as (_ & _ & Hs & Hro & Ht & _ & w1 & Hw1 & Hw2 & _ & Hl).
  assert (Hgone : sessions (papp p') !! id = None) by (rewrite Hs; apply lookup_delete_eq).
  split_and!; [done| | | |].
  - intros r. rewrite Hro, map_lookup_filter_Some. by intros [_ ?].
  - unfold allows_hid, get_session_by_id. fold (papp p'). by rewrite Hgone.
  - intros label t. rewrite Ht. unfold clear_session. rewrite map_lookup_filter_Some. by intros [_ ?].
  - unfold role_still_online, get_session_for_role, get_session_by_id. fold (papp p').
    rewrite <- Hw1, <- Hw2. intros Hoff. rewrite Hl, on_session_removed_lease, removed_owner.
    unfold role_still_online, get_session_for_role, get_session_by_id.
    destruct (session_role s); rewrite Hoff; repeat case_bool_decide; cbn; congruence.
Qed.

(** A late callback is harmless: once the registry no longer maps the id to
    the peer that emitted it (the session was removed, or replaced under the
    same id), a state change of that peer and the delayed close of a kicked
    session leave registry, lease, tickets, notifications and sinks as they
    are. *)
Theorem stale_callback_harmless ok id role peer up st p :
  session_owns_peer (papp p) id peer = false ->
  let p' := on_ice_connection_state_change ok id role peer up st p in
  (world p' = world p /\ video_sink p' = video_sink p /\ audio_sink p' = audio_sink p)
  /\ remove_and_close_session_for_peer ok id peer p = (p, false).
Proof.
  intros Hown. cbv zeta.
  assert (Hrem : ∀ q, papp q = papp p -> remove_session_for_peer id peer q = (q, None)).
  { intros q Hq. unfold remove_session_for_peer, remove_session_inner, remove_session_entry.
    unfold session_owns_peer in Hown. rewrite Hq.
    destruct (sessions (papp p) !! id) as [s|] eqn:Es.
    - destruct (peer_connection s) as [actual|]; [rewrite Hown|];
        rewrite <- Hq; f_equal; by destruct q as [[[]]].
    - rewrite <- Hq. f_equal. by destruct q as [[[]]]. }
  split.
  - unfold on_ice_connection_state_change. set (q := set_ice_states _ p).
    destruct st; try done; destruct up; cbn [negb]; try done.
    + unfold ice_connected_task. change (papp q) with (papp p). by rewrite Hown.
    + change (papp q) with (papp p). by rewrite Hown.
    + by rewrite (Hrem q eq_refl).
    + by rewrite (Hrem q eq_refl).
  - unfold remove_and_close_session_for_peer. by rewrite (Hrem p eq_refl).
Qed.

(** ** Claims *)

Lemma claim_world s p :
  ∃ prev w1,
    match claim_and_activate_session s p with
    | (p', Accepted previous) =>
        papp p' = (claim_role_slot s (papp p)).1
        /\ app w1 = papp p' /\ lease w1 = lease (world p)
        /\ lease (world p') = lease (on_role_claimed s prev w1)
        /\ mcp_enabled (world p') = mcp_enabled (world p)
        /\ prev = match previous with
                  | Some old => if ptr_eq old s then None else Some old
                  | None => None
                  end
        /\ (claim_role_slot s (papp p)).2 = Accepted previous
        /\ (session_role s = Agent -> mcp_enabled (world p) = true)
    | (p', _) => world p' = world p
    end.
Proof.
  unfold claim_and_activate_session.
  destruct (bool_decide _ && negb _)%bool eqn:Em; [by exists None, (world p)|].
  pose proof (claim_role_slot_cases s (papp p)) as Hc.
  destruct (claim_role_slot s (papp p)) as [a c] eqn:Ec. cbn [fst snd].
  destruct c as [previous| | |].
  2-4: exists None, (world p); cbn; destruct Hc as [Hc _].
  2: destruct Hc as (-> & _). 4: subst a. 2,4: by destruct p as [[]]. 2: done.
  cbv zeta. set (p2 := attach_role_session_sinks_if_connected _ _ _).
  set (p3 := match previous with Some old => kick_previous s old p2 | None => p2 end).
  assert (H3 : app (world p3) = a /\ lease (world p3) = lease (world p)
               /\ mcp_enabled (world p3) = mcp_enabled (world p)).
  { assert (H2 : app (world p2) = a /\ lease (world p2) = lease (world p)
                 /\ mcp_enabled (world p2) = mcp_enabled (world p))
      by (subst p2; by rewrite attach_same_world).
    subst p3. destruct previous as [old|]; [|done].
    unfold kick_previous. destruct (ptr_eq old s); [done|]. by destruct (peer_connection old). }
  clearbody p3. destruct H3 as (<- & Hl & Hm).
  eexists _, (world p3). split_and!; try reflexivity; [| |done| |].
  - apply on_role_claimed_frame.
  - symmetry. apply on_role_claimed_frame.
  - rewrite <- Hm. apply on_role_claimed_frame.
  - intros Ha. rewrite Ha in Em. rewrite bool_decide_true in Em by done.
    by destruct (mcp_enabled (world p)).
Qed.

Lemma claim_role_slot_registered s st :
  sessions st !! session_id s = Some s ->
  (session_role s = User \/ role_sessions st !! Agent = None) ->
  ∃ previous, (claim_role_slot s st).2 = Accepted previous.
Proof.
  intros Hreg Hor. unfold claim_role_slot. rewrite Hreg. unfold ptr_eq.
  rewrite bool_decide_true by done. cbn [negb].
  destruct (role_sessions st !! session_role s) as [id|] eqn:E; [|by eexists].
  destruct (String.eqb _ _); [by eexists|].
  destruct Hor as [Hu|Ha]; [rewrite Hu; by eexists|].
  destruct (session_role s); [by eexists|congruence].
Qed.

(** What the gate asks of a user session. *)
Lemma user_passes_gate w s :
  sessions (app w) !! session_id s = Some s -> session_role s = User ->
  role_sessions (app w) !! User = Some (session_id s) -> owner (lease w) = Some User ->
  allows_hid w (session_id s) = true.
Proof.
  intros Hreg Hu Hsl Ho. unfold allows_hid, get_session_by_id. rewrite Hreg.
  rewrite (proj2 (is_role_slot_holder_iff _ _)) by eauto. rewrite Hu, Ho. cbn.
  by apply bool_decide_eq_true.
Qed.

(** The claimed slot, after an accepted claim. *)
Lemma claim_accepted_slot s p p' previous :
  claim_and_activate_session s p = (p', Accepted previous) ->
  role_sessions (papp p') !! session_role s = Some (session_id s)
  /\ sessions (papp p') = sessions (papp p).
Proof.
  intros Hc. destruct (claim_world s p) as (prev & w1 & H). rewrite Hc in H.
  destruct H as (Ha & _ & _ & _ & _ & _ & Hacc & _).
  pose proof (claim_role_slot_cases s (papp p)) as Hcases.
  destruct (claim_role_slot s (papp p)) as [a c]. cbn in *. subst c a.
  destruct Hcases as [[-> _] ->]. split; [apply lookup_insert_eq|done].
Qed.

(** A registered user session always gets the user slot.  If it replaced
    another user session, or the agent does not hold control, or no agent is
    online, it drives keyboard and mouse at once; otherwise the agent keeps
    control until the user asks. *)
Theorem user_claim_outcome s p :
  session_role s = User -> sessions (papp p) !! session_id s = Some s ->
  ∃ p' previous,
    claim_and_activate_session s p = (p', Accepted previous)
    /\ role_sessions (papp p') !! User = Some (session_id s)
    /\ (if bool_decide (owner (lease (world p)) = Some Agent)
           && role_still_online (world p') Agent
           && negb (match previous with Some old => negb (ptr_eq old s) | None => false end)
        then lease (world p') = lease (world p)
        else allows_hid (world p') (session_id s) = true
             /\ pending (lease (world p')) = None).
Proof.
  intros Hu Hreg.
  destruct (claim_role_slot_registered s (papp p) Hreg (or_introl Hu)) as [prev0 Hacc0].
  destruct (claim_and_activate_session s p) as [p' c] eqn:Ec.
  assert (c = Accepted prev0) as ->.
  { unfold claim_and_activate_session in Ec. rewrite Hu in Ec. cbn in Ec.
    destruct (claim_role_slot s (papp p)) as [a c']. cbn in *. subst c'. by injection Ec. }
  exists p', prev0. split; [done|].
  destruct (claim_accepted_slot s p p' prev0 Ec) as [Hsl Hse]. rewrite Hu in Hsl.
  split; [done|].
  destruct (claim_world s p) as (prev & w1 & H). rewrite Ec in H.
  destruct H as (_ & Happ & Hl1 & Hl & _ & Hprev & _).
  rewrite on_role_claimed_lease, Hu in Hl. unfold on_role_claimed_locked in Hl.
  assert (Hon : role_still_online w1 Agent = role_still_online (world p') Agent).
  { unfold role_still_online. by rewrite Happ. }
  rewrite Hon, Hl1 in Hl.
  assert (Hgate : lease (world p') = mkControl (Some User) None ->
                  allows_hid (world p') (session_id s) = true /\ pending (lease (world p')) = None).
  { intros Hls. split; [|by rewrite Hls]. apply user_passes_gate; [|done..|by rewrite Hls].
    fold (papp p'). by rewrite Hse. }
  destruct prev0 as [old|]; [destruct (ptr_eq old s)|]; subst prev; cbn [negb] in *.
  - rewrite andb_true_r.
    destruct (bool_decide (owner (lease (world p)) = Some Agent) && _)%bool; cbn in Hl.
    + by rewrite Hl, Hl1.
    + apply Hgate. rewrite Hl. cbn. by rewrite clear_pending_lease.
  - rewrite andb_false_r. cbn in Hl. apply Hgate. rewrite Hl. cbn. by rewrite clear_pending_lease.
  - rewrite andb_true_r.
    destruct (bool_decide (owner (lease (world p)) = Some Agent) && _)%bool; cbn in Hl.
    + by rewrite Hl, Hl1.
    + apply Hgate. rewrite Hl. cbn. by rewrite clear_pending_lease.
Qed.

(** An agent cannot claim while MCP is off or while another agent holds the
    slot, and such a claim changes nothing; otherwise a registered agent gets
    the slot, and control only if nobody online owned it. *)
Theorem agent_claim_outcome s p :
  session_role s = Agent -> sessions (papp p) !! session_id s = Some s ->
  let '(p', c) := claim_and_activate_session s p in
  if negb (mcp_enabled (world p)) then p' = p /\ c = RejectedMcpDisabled
  else match role_sessions (papp p) !! Agent with
       | Some id =>
           if bool_decide (id = session_id s)
           then c = Accepted None
           else world p' = world p /\ c = RejectedOccupied
       | None =>
           c = Accepted None
           /\ role_sessions (papp p') !! Agent = Some (session_id s)
           /\ owner (lease (world p')) =
              match owner (lease (world p)) with
              | Some User => if role_still_online (world p') User then Some User else Some Agent
              | _ => Some Agent
              end
       end.
Proof.
  intros Ha Hreg. destruct (claim_and_activate_session s p) as [p' c] eqn:Ec.
  pose proof Ec as Ec'. unfold claim_and_activate_session in Ec'. rewrite Ha in Ec'.
  rewrite bool_decide_true in Ec' by done. cbn [andb] in Ec'.
  destruct (mcp_enabled (world p)) eqn:Em; cbn [negb] in *; [|by injection Ec' as <- <-].
  pose proof (claim_role_slot_registered s (papp p) Hreg) as Hacc.
  destruct (role_sessions (papp p) !! Agent) as [id|] eqn:Esl.
  - unfold claim_role_slot in Ec'. rewrite Hreg in Ec'. unfold ptr_eq in Ec'.
    rewrite bool_decide_true in Ec' by done. cbn [negb] in Ec'. rewrite Ha, Esl in Ec'.
    destruct (bool_decide_reflect (id = session_id s)) as [Hd|Hd].
    + subst id. rewrite String.eqb_refl in Ec'. by injection Ec' as _ <-.
    + rewrite (proj2 (String.eqb_neq id (session_id s)) Hd), bool_decide_true in Ec' by done.
      injection Ec' as <- <-. by destruct p as [[]].
  - destruct (Hacc (or_intror eq_refl)) as [previous Hprev].
    pose proof (claim_role_slot_cases s (papp p)) as Hcases.
    assert (c = Accepted None) as ->.
    { destruct (claim_role_slot s (papp p)) as [a c']. cbn in *. subst c'.
      injection Ec' as _ <-. destruct previous as [old|]; [|done].
      destruct Hcases as [[_ Hp] _]. destruct (Hp old eq_refl) as [? _]. congruence. }
    split; [done|]. destruct (claim_accepted_slot s p p' None Ec) as [Hsl Hse].
    rewrite Ha in Hsl. split; [done|].
    destruct (claim_world s p) as (prev & w1 & H). rewrite Ec in H.
    destruct H as (_ & Happ & Hl1 & Hl & _). rewrite on_role_claimed_lease, Ha in Hl.
    assert (Hon : ∀ r, role_still_online w1 r = role_still_online (world p') r)
      by (intros r; unfold role_still_online; by rewrite Happ).
    assert (Hag : role_still_online (world p') Agent = true).
    { unfold role_still_online, get_session_for_role, get_session_by_id. fold (papp p').
      rewrite Hsl, Hse, Hreg. by apply bool_decide_eq_true. }
    unfold on_role_claimed_locked in Hl. rewrite !Hon, Hl1, Hag in Hl. rewrite Hl.
    destruct (owner (lease (world p))) as [[]|] eqn:Eo; cbn;
      try destruct (role_still_online (world p') User); cbn; rewrite ?Hl1; done.
Qed.

(** C36: The user can always take control back: from any state, a user session
    that holds the user slot gets it by [takeOverControl], passes the HID gate
    right after, and any open arbitration is closed. *)
Theorem take_over_gives_control w s :
  sessions (app w) !! session_id s = Some s -> session_role s = User ->
  role_sessions (app w) !! User = Some (session_id s) ->
  let '(w', r) := take_over_control (session_id s) w in
  is_ok r = true /\ allows_hid w' (session_id s) = true /\ pending (lease w') = None.
Proof.
  intros Hreg Hu Hsl. unfold take_over_control; se_unfold.
  unfold get_session_by_id. rewrite Hreg, Hu. rewrite bool_decide_true by done. cbn [negb].
  rewrite (proj2 (is_role_slot_holder_iff _ _)) by eauto. cbn [negb].
  unfold notify_control_changed, notify_roles, take_over_locked.
  assert (Happ : app (set_owner (Some User) (clear_pending_locked w)) = app w)
    by apply same_frame_cleared_owner.
  split_and!; [done| |].
  - apply user_passes_gate; cbn; rewrite ?clear_pending_app; done.
  - cbn. by rewrite clear_pending_lease.
Qed.
