(* ===== verification/JsonRpc.v ===== *)
(** * The JSON-RPC dispatcher (arkkvm/src/jsonrpc.rs)

    What one message on a data channel does: decoding, the gate in front of
    the keyboard and mouse methods, the handler of the registry, the answer.
    JSON values, the decoder of a request and the registry of handlers are
    parameters; the handlers act on the shared world. *)

From S2P Require Import Prelude Session AppState IpForward ControlLease LeaseProofs SessionPlane PlaneProofs.

Definition is_hid_method (m : string) : bool :=
  String.eqb m "keyboardReport" || String.eqb m "absMouseReport"
  || String.eqb m "relMouseReport" || String.eqb m "wheelReport".

(** The [data] of an error: absent, a bare string, or an object with a code
    and the message of the error it came from. *)
Inductive ErrorData : Set :=
| DataNone
| DataString (s : string)
| DataObject (code : string) (message : option string).

Record JsonRpcError := mkRpcError { e_code : Z; e_message : string; e_data : ErrorData }.

Definition parse_error : JsonRpcError := mkRpcError (-32700) "Parse error" DataNone.
Definition method_not_found : JsonRpcError := mkRpcError (-32601) "Method not found" DataNone.
Definition internal_error (data : option string) : JsonRpcError :=
  mkRpcError (-32603) "Internal error" (match data with Some s => DataString s | None => DataNone end).

(** The code replaces the one of an object passed as data. *)
Definition application_error (code message : string) (data : option (string * string)) : JsonRpcError :=
  mkRpcError (-32001) message
    (match data with
     | Some (_, m) => DataObject code (Some m)
     | None => DataObject code None
     end).

Section dispatch.
(** JSON values; raw messages. *)
Context {V Raw : Type}.

Record JsonRpcRequest := mkRequest { r_method : string; r_params : option V; r_id : option V }.

Record JsonRpcResponse := mkResponse {
  p_result : option V; p_error : option JsonRpcError; p_id : option V }.

Definition error_response (e : JsonRpcError) (id : option V) : JsonRpcResponse :=
  mkResponse None (Some e) id.

Definition RpcHandler : Type := option V -> string -> SE World string V.

Context (from_slice : Raw -> option JsonRpcRequest).
Context (registry : string -> option RpcHandler).

(** The answer of a handler's error. *)
Definition handler_error (e : string) : JsonRpcError :=
  match control_error_data e with
  | Some (code, msg) => application_error code e (Some (code, msg))
  | None => internal_error (Some e)
  end.

Definition handle_message (message : Raw) (sid : string) (w : World)
  : World * option JsonRpcResponse :=
  match from_slice message with
  | None => (w, Some (error_response parse_error None))
  | Some request =>
      if is_hid_method (r_method request) && negb (allows_hid w sid) then
        (note_hid_denied w,
         match r_id request with
         | Some id => Some (error_response
                              (application_error CONTROL_DENIED
                                 "HID blocked: session does not hold control" None) (Some id))
         | None => None
         end)
      else match registry (r_method request) with
      | None => (w, Some (error_response method_not_found (r_id request)))
      | Some handler =>
          match handler (r_params request) sid w with
          | (w, Ok result) =>
              (w, match r_id request with
                  | Some id => Some (mkResponse (Some result) None (Some id))
                  | None => None
                  end)
          | (w, Err e) =>
              (w, match r_id request with
                  | Some id => Some (error_response (handler_error e) (Some id))
                  | None => None
                  end)
          end
      end
  end.

(** The unreliable input channel: no answers. *)
Definition handle_input_message (message : Raw) (sid : string) (w : World) : World :=
  match from_slice message with
  | None => w
  | Some request =>
      if is_hid_method (r_method request) && negb (allows_hid w sid) then note_hid_denied w
      else match registry (r_method request) with
           | None => w
           | Some handler => (handler (r_params request) sid w).1
           end
  end.

(** A session that does not hold control cannot inject input: on either
    channel its keyboard and mouse messages reach no handler, whatever is
    registered, and change nothing but the counter of denied reports; a
    request with an id is answered with the [controlDenied] code. *)
Theorem hid_denied_has_no_effect message sid request w :
  from_slice message = Some request -> is_hid_method (r_method request) = true ->
  allows_hid w sid = false ->
  handle_input_message message sid w = note_hid_denied w
  /\ (handle_message message sid w).1 = note_hid_denied w
  /\ (handle_message message sid w).2 =
     ((fun id => error_response
                   (mkRpcError (-32001) "HID blocked: session does not hold control"
                      (DataObject "controlDenied" None)) (Some id)) <$> r_id request)
  /\ lease (note_hid_denied w) = lease w /\ app (note_hid_denied w) = app w
  /\ outbox (note_hid_denied w) = outbox w.
Proof.
  intros Hp Hm Hd. unfold handle_message, handle_input_message. rewrite Hp, Hm, Hd. cbn.
  by destruct (r_id request).
Qed.

(** A notification (no id) gets no answer, except that an unknown method
    is answered with a null id. *)
Theorem notification_answers message sid request w :
  from_slice message = Some request -> r_id request = None ->
  (handle_message message sid w).2 =
    if (is_hid_method (r_method request) && negb (allows_hid w sid))%bool then None
    else match registry (r_method request) with
         | Some _ => None
         | None => Some (error_response method_not_found None)
         end.
Proof.
  intros Hp Hi. unfold handle_message. rewrite Hp, Hi.
  destruct (_ && _)%bool; [done|]. destruct (registry _) as [h|]; [|done].
  by destruct (h _ _ _) as [w' [v|e]].
Qed.
End dispatch.

(** ** The control methods of the registry *)
Section control_methods.
Context (new_v4 : nat -> string).
Context {V : Type} (to_value : ControlStateView -> V) (request_id_param : option V -> option string).

Definition h_view (m : SE World string ControlStateView) : SE World string V :=
  let! v := m in se_ret (to_value v).

Definition control_registry (m : string) : option (option V -> string -> SE World string V) :=
  if String.eqb m "getControlState" then Some (fun _ _ => h_view (se_get get_control_state))
  else if String.eqb m "requestControl" then
    Some (fun _ sid => h_view (request_control new_v4 sid))
  else if String.eqb m "grantControl" then
    Some (fun ps sid => h_view (grant_control sid (request_id_param ps)))
  else if String.eqb m "denyControl" then
    Some (fun ps sid => h_view (deny_control sid (request_id_param ps)))
  else if String.eqb m "takeOverControl" then
    Some (fun _ sid => h_view (take_over_control sid))
  else if String.eqb m "releaseControl" then
    Some (fun _ sid => h_view (release_control sid))
  else None.

(** Nobody can approve their own request: while an arbitration is open, a
    [grantControl] from a session of the requesting role, with the right
    request id or none, leaves the world unchanged and is answered with the
    [controlDenied] code. *)
Theorem self_grant_denied (parse : unit -> option JsonRpcRequest) sid s p id ps w :
  parse tt = Some (mkRequest "grantControl" ps (Some id)) ->
  get_session_by_id (app w) sid = Some s ->
  pending (lease w) = Some p -> requester p = session_role s ->
  (∀ rid, request_id_param ps = Some rid -> rid = request_id p) ->
  ∃ e, handle_message parse control_registry tt sid w = (w, Some (error_response e (Some id)))
       /\ e_code e = (-32001)%Z /\ ∃ m, e_data e = DataObject CONTROL_DENIED m.
Proof.
  intros Hp Hs Hpend Hreq Hrid. unfold handle_message. rewrite Hp.
  cbn [r_method is_hid_method control_registry r_params r_id].
  unfold is_hid_method, control_registry. cbn -[grant_control].
  unfold h_view, grant_control, resolve_pending, se_bind, se_get. rewrite Hs.
  unfold resolve_pending_locked, can_grant. rewrite Hpend.
  rewrite bool_decide_true by done.
  assert (match request_id_param ps with
          | Some id => negb (String.eqb id (request_id p)) | None => false end = false) as ->.
  { destruct (request_id_param ps) as [rid|]; [|done].
    by rewrite (Hrid rid eq_refl), String.eqb_refl. }
  cbn [andb negb]. eexists. split; [reflexivity|]. by split; [|eexists].
Qed.
End control_methods.
