(* ===== verification/UsbPrefs.v ===== *)
(** * USB preferences of the application (config/types.rs)

    The USB part of the configuration: the identity of the gadget, the devices
    the owner wants, and where the file transfer image is mounted.  The names
    live in a module of their own because the sidecar uses the same ones. *)

From S2P Require Import Prelude.

Module Pref.

Inductive NetworkAdapterType : Set := Ncm | Rndis.

Record NetworkAdapterL3 := mkL3 {
  ip_address : string; subnet_mask : string; gateway : option string; dns_servers : option (list string) }.

Record NetworkAdapter := mkAdapter {
  enable : bool; adapter_type : NetworkAdapterType; l3_config : NetworkAdapterL3 }.

Record UsbDevices := mkDevices {
  absolute_mouse : bool; relative_mouse : bool; keyboard : bool; mass_storage_vm : bool;
  mass_storage_ft : bool; microphone : bool; camera : bool; network_adapter : NetworkAdapter }.

Record UsbConfig := mkUsbConfig {
  vendor_id : string; product_id : string; serial_number : string; manufacturer : string;
  product : string; force_full_speed : bool }.

Inductive FileTransferTarget : Set := TargetNone | Kvm | RemoteUsb.

Record UsbPrefs := mkPrefs {
  usb_config : UsbConfig; usb_devices : UsbDevices; file_transfer_target : FileTransferTarget }.

#[global] Instance adapter_type_eq_dec : EqDecision NetworkAdapterType.
Proof. solve_decision. Defined.
#[global] Instance l3_eq_dec : EqDecision NetworkAdapterL3.
Proof. solve_decision. Defined.
#[global] Instance adapter_eq_dec : EqDecision NetworkAdapter.
Proof. solve_decision. Defined.
#[global] Instance devices_eq_dec : EqDecision UsbDevices.
Proof. solve_decision. Defined.
#[global] Instance usb_config_eq_dec : EqDecision UsbConfig.
Proof. solve_decision. Defined.
#[global] Instance target_eq_dec : EqDecision FileTransferTarget.
Proof. solve_decision. Defined.
#[global] Instance prefs_eq_dec : EqDecision UsbPrefs.
Proof. solve_decision. Defined.

#[global] Instance adapter_type_countable : Countable NetworkAdapterType.
Proof.
  apply (inj_countable' (fun t => match t with Ncm => true | Rndis => false end)
           (fun b : bool => if b then Ncm else Rndis)). by intros [].
Defined.
#[global] Instance target_countable : Countable FileTransferTarget.
Proof.
  apply (inj_countable' (fun t => match t with TargetNone => None | Kvm => Some true | RemoteUsb => Some false end)
           (fun o => match o with None => TargetNone | Some true => Kvm | Some false => RemoteUsb end)).
  by intros [].
Defined.
#[global] Instance prefs_countable : Countable UsbPrefs.
Proof.
  apply (inj_countable'
    (fun p => let c := usb_config p in let d := usb_devices p in let n := network_adapter d in
              let l := l3_config n in
              ((vendor_id c, product_id c, serial_number c, manufacturer c, product c, force_full_speed c),
               (absolute_mouse d, relative_mouse d, keyboard d, mass_storage_vm d, mass_storage_ft d,
                microphone d, camera d),
               (enable n, adapter_type n, ip_address l, subnet_mask l, gateway l, dns_servers l),
               file_transfer_target p))
    (fun '((a, b, c, d, e, f), (g, h, i, j, k, l, m), (n, o, p, q, r, s), t) =>
       mkPrefs (mkUsbConfig a b c d e f) (mkDevices g h i j k l m (mkAdapter n o (mkL3 p q r s))) t)).
  by intros [[] [? ? ? ? ? ? ? [? ? []]] ?].
Defined.

(** The defaults; the serial number is the id of the hardware. *)
Definition l3_default : NetworkAdapterL3 := mkL3 "172.16.0.1" "255.255.255.0" None None.
Definition adapter_default : NetworkAdapter := mkAdapter false Ncm l3_default.
Definition devices_default : UsbDevices := mkDevices true true true true true true false adapter_default.
Definition usb_config_default (device_id : string) : UsbConfig :=
  mkUsbConfig "0x1d6b" "0x0104" device_id "ArkKVM" "Multifunction Composite Gadget" false.
Definition prefs_default (device_id : string) : UsbPrefs :=
  mkPrefs (usb_config_default device_id) devices_default Kvm.

Definition with_adapter_enable (b : bool) (d : UsbDevices) : UsbDevices :=
  mkDevices (absolute_mouse d) (relative_mouse d) (keyboard d) (mass_storage_vm d) (mass_storage_ft d)
    (microphone d) (camera d)
    (mkAdapter b (adapter_type (network_adapter d)) (l3_config (network_adapter d))).

Definition with_config (c : UsbConfig) (p : UsbPrefs) : UsbPrefs :=
  mkPrefs c (usb_devices p) (file_transfer_target p).
Definition with_devices (d : UsbDevices) (p : UsbPrefs) : UsbPrefs :=
  mkPrefs (usb_config p) d (file_transfer_target p).
Definition with_target (t : FileTransferTarget) (p : UsbPrefs) : UsbPrefs :=
  mkPrefs (usb_config p) (usb_devices p) t.

End Pref.
