(* ===== verification/Config.v ===== *)
(** * The device configuration (arkkvm/src/config)

    The parts of [Config] that carry logic: authentication, keyboard macros,
    Wake-on-LAN devices, the virtual media list, the display, the MCP
    switches, the USB preferences; their validation (types.rs), the manager that changes them in
    memory and on disk (manager.rs), and the file handling with its backup
    (persistence.rs).  Fields that are only stored and handed out are left
    out. *)

From S2P Require Import Prelude Session UsbPrefs.

(** ** Data (types.rs) *)

Definition MAX_MACROS_PER_DEVICE : nat := 25.
Definition MAX_STEPS_PER_MACRO : nat := 10.
Definition MAX_KEYS_PER_STEP : nat := 10.
Definition MIN_STEP_DELAY : Z := 50.
Definition MAX_STEP_DELAY : Z := 2000.

Record WakeOnLanDevice := mkWol {
  wol_name : string; mac_address : string; broadcast_address : string; wol_port : Z }.

Record KeyboardMacroStep := mkStep { keys : list string; modifiers : list string; delay : Z }.

Record KeyboardMacro := mkMacro {
  macro_id : string; macro_name : string; steps : list KeyboardMacroStep; sort_order : option Z }.

Record VirtualMediaItem := mkMedia { vm_name : string; vm_url : string; vm_icon_key : string }.

(** The token, CSRF token and expiry of one role. *)
Record AuthSlot := mkSlot {
  auth_token : option string; csrf_token : option string; expires_at : option Z }.

Definition empty_slot : AuthSlot := mkSlot None None None.

Record Config := mkConfig {
  hashed_password : option string;
  local_auth_mode : string;
  user_slot : AuthSlot;
  agent_slot : AuthSlot;
  wake_on_lan_devices : list WakeOnLanDevice;
  keyboard_macros : list KeyboardMacro;
  display_max_brightness : Z;
  display_dim_after_sec : Z;
  display_off_after_sec : Z;
  cfg_mcp_enabled : bool;
  cfg_ssh_forwarding_enabled : bool;
  cfg_usb : Pref.UsbPrefs;
  microphone_emulation : option bool;
  virtual_media_list : option (list VirtualMediaItem)
}.

(** [usb_devices.microphone]. *)
Definition usb_microphone (c : Config) : bool := Pref.microphone (Pref.usb_devices (cfg_usb c)).

(** The serial number in the USB identity is the id of the hardware; no
    operation here reads it, and it is left empty. *)
Definition config_default : Config :=
  mkConfig None "" empty_slot empty_slot [] [] 64 120 1800 false false (Pref.prefs_default "")
    (Some false) None.

Definition with_hashed_password (h : option string) (c : Config) : Config :=
  mkConfig h (local_auth_mode c) (user_slot c) (agent_slot c) (wake_on_lan_devices c)
    (keyboard_macros c) (display_max_brightness c) (display_dim_after_sec c)
    (display_off_after_sec c) (cfg_mcp_enabled c) (cfg_ssh_forwarding_enabled c)
    (cfg_usb c) (microphone_emulation c) (virtual_media_list c).
Definition with_auth_mode (m : string) (c : Config) : Config :=
  mkConfig (hashed_password c) m (user_slot c) (agent_slot c) (wake_on_lan_devices c)
    (keyboard_macros c) (display_max_brightness c) (display_dim_after_sec c)
    (display_off_after_sec c) (cfg_mcp_enabled c) (cfg_ssh_forwarding_enabled c)
    (cfg_usb c) (microphone_emulation c) (virtual_media_list c).
Definition with_slots (u a : AuthSlot) (c : Config) : Config :=
  mkConfig (hashed_password c) (local_auth_mode c) u a (wake_on_lan_devices c)
    (keyboard_macros c) (display_max_brightness c) (display_dim_after_sec c)
    (display_off_after_sec c) (cfg_mcp_enabled c) (cfg_ssh_forwarding_enabled c)
    (cfg_usb c) (microphone_emulation c) (virtual_media_list c).
Definition with_wol (l : list WakeOnLanDevice) (c : Config) : Config :=
  mkConfig (hashed_password c) (local_auth_mode c) (user_slot c) (agent_slot c) l
    (keyboard_macros c) (display_max_brightness c) (display_dim_after_sec c)
    (display_off_after_sec c) (cfg_mcp_enabled c) (cfg_ssh_forwarding_enabled c)
    (cfg_usb c) (microphone_emulation c) (virtual_media_list c).
Definition with_macros (l : list KeyboardMacro) (c : Config) : Config :=
  mkConfig (hashed_password c) (local_auth_mode c) (user_slot c) (agent_slot c)
    (wake_on_lan_devices c) l (display_max_brightness c) (display_dim_after_sec c)
    (display_off_after_sec c) (cfg_mcp_enabled c) (cfg_ssh_forwarding_enabled c)
    (cfg_usb c) (microphone_emulation c) (virtual_media_list c).
Definition with_display (b d o : Z) (c : Config) : Config :=
  mkConfig (hashed_password c) (local_auth_mode c) (user_slot c) (agent_slot c)
    (wake_on_lan_devices c) (keyboard_macros c) b d o (cfg_mcp_enabled c)
    (cfg_ssh_forwarding_enabled c) (cfg_usb c) (microphone_emulation c)
    (virtual_media_list c).
Definition with_switches (mcp ssh : bool) (c : Config) : Config :=
  mkConfig (hashed_password c) (local_auth_mode c) (user_slot c) (agent_slot c)
    (wake_on_lan_devices c) (keyboard_macros c) (display_max_brightness c)
    (display_dim_after_sec c) (display_off_after_sec c) mcp ssh (cfg_usb c)
    (microphone_emulation c) (virtual_media_list c).
Definition with_usb (u : Pref.UsbPrefs) (c : Config) : Config :=
  mkConfig (hashed_password c) (local_auth_mode c) (user_slot c) (agent_slot c)
    (wake_on_lan_devices c) (keyboard_macros c) (display_max_brightness c)
    (display_dim_after_sec c) (display_off_after_sec c) (cfg_mcp_enabled c)
    (cfg_ssh_forwarding_enabled c) u (microphone_emulation c) (virtual_media_list c).
Definition with_microphone (mic : option bool) (c : Config) : Config :=
  mkConfig (hashed_password c) (local_auth_mode c) (user_slot c) (agent_slot c)
    (wake_on_lan_devices c) (keyboard_macros c) (display_max_brightness c)
    (display_dim_after_sec c) (display_off_after_sec c) (cfg_mcp_enabled c)
    (cfg_ssh_forwarding_enabled c) (cfg_usb c) mic (virtual_media_list c).
Definition with_media (l : option (list VirtualMediaItem)) (c : Config) : Config :=
  mkConfig (hashed_password c) (local_auth_mode c) (user_slot c) (agent_slot c)
    (wake_on_lan_devices c) (keyboard_macros c) (display_max_brightness c)
    (display_dim_after_sec c) (display_off_after_sec c) (cfg_mcp_enabled c)
    (cfg_ssh_forwarding_enabled c) (cfg_usb c) (microphone_emulation c) l.

(** ** Validation (types.rs)

    [validate] takes [&mut self]: it also clamps delays, up to the first
    invalid step of a macro. *)

Definition clamp (lo hi z : Z) : Z := Z.max lo (Z.min hi z).

Definition step_validate (s : KeyboardMacroStep) : KeyboardMacroStep * option string :=
  if (MAX_KEYS_PER_STEP <? length (keys s))%nat
  then (s, Some "Too many keys in step (max 10)")
  else (mkStep (keys s) (modifiers s) (clamp MIN_STEP_DELAY MAX_STEP_DELAY (delay s)), None).

Fixpoint steps_validate (i : nat) (l : list KeyboardMacroStep)
  : list KeyboardMacroStep * option string :=
  match l with
  | [] => ([], None)
  | s :: l' =>
      match step_validate s with
      | (s', Some e) =>
          (s' :: l', Some ("Invalid step " +:+ pretty (N.of_nat (S i)) +:+ ": " +:+ e))
      | (s', None) => let '(l'', r) := steps_validate (S i) l' in (s' :: l'', r)
      end
  end.

Definition macro_validate (m : KeyboardMacro) : KeyboardMacro * option string :=
  if is_empty (trim (macro_name m)) then (m, Some "Macro name cannot be empty")
  else if bool_decide (steps m = []) then (m, Some "Macro must have at least one step")
  else if (MAX_STEPS_PER_MACRO <? length (steps m))%nat
  then (m, Some "Too many steps in macro (max 10)")
  else let '(st, r) := steps_validate 0 (steps m) in
       (mkMacro (macro_id m) (macro_name m) st (sort_order m), r).

Fixpoint macros_validate (i : nat) (l : list KeyboardMacro) : list KeyboardMacro * list string :=
  match l with
  | [] => ([], [])
  | m :: l' =>
      let '(m', r) := macro_validate m in
      let '(l'', errs) := macros_validate (S i) l' in
      (m' :: l'',
       match r with
       | Some e => ("Invalid macro " +:+ pretty (N.of_nat (S i)) +:+ ": " +:+ e) :: errs
       | None => errs
       end)
  end.

Definition validate (c : Config) : Config * list string :=
  let count := if (MAX_MACROS_PER_DEVICE <? length (keyboard_macros c))%nat
               then ["Too many macros (max 25)"] else [] in
  let '(ms, errs) := macros_validate 0 (keyboard_macros c) in
  let c := with_macros ms c in
  let bright := if (255 <? display_max_brightness c)%Z
                then ["Display max brightness cannot exceed 255"] else [] in
  let mode := if negb (is_empty (local_auth_mode c))
                 && negb (bool_decide (local_auth_mode c ∈ ["password"; "noPassword"]))
              then ["Invalid auth mode, must be 'password' or 'noPassword'"] else [] in
  (c, count ++ errs ++ bright ++ mode).

Definition is_setup_required (c : Config) : bool := is_empty (local_auth_mode c).

Definition effective_microphone_emulation (c : Config) : bool :=
  default false (microphone_emulation c).

Definition migrate_microphone_emulation (c : Config) : Config * bool :=
  match microphone_emulation c with
  | Some _ => (c, false)
  | None => (with_microphone (Some (usb_microphone c)) c, true)
  end.

(** ** The manager (manager.rs)

    [mem] is the configuration behind the lock, [disk] the last one saved.
    [save_ok] tells whether writing the file succeeds. *)

Inductive ConfigError : Type :=
| ValidationFailed (errors : list string)
| SaveFailed
| ConfigMsg (msg : string).

Record ConfigManager := mkManager { mem : Config; disk : Config }.

Definition CM (A : Type) : Type := SE ConfigManager ConfigError A.

Section manager.
(** Whether a save succeeds, and [Url::parse(..).is_ok()]. *)
Context (save_ok : bool) (url_ok : string -> bool).

Definition save : CM unit :=
  fun s => if save_ok then (mkManager (mem s) (mem s), Ok tt) else (s, Err SaveFailed).

(** The section of [update] under the write lock: a refused change stays in
    memory. *)
Definition update_locked (updater : Config -> Config) : CM unit :=
  fun s => let '(c, errors) := validate (updater (mem s)) in
           (mkManager c (disk s),
            match errors with [] => Ok tt | _ => Err (ValidationFailed errors) end).

(** The lock is given back before [save] takes it again for reading: between
    the two other updates may run (see [config_step]). *)
Definition update (updater : Config -> Config) : CM unit :=
  update_locked updater ;;;
  save.

Definition set_auth_mode (mode : string) : CM unit := update (with_auth_mode mode).

Definition set_hashed_password (h : option string) : CM unit := update (with_hashed_password h).

Definition AUTH_TOKEN_VALIDITY_SECS : Z := 7 * 24 * 3600.

Definition slot_of (role : SessionRole) (c : Config) : AuthSlot :=
  match role with User => user_slot c | Agent => agent_slot c end.

Definition with_slot (role : SessionRole) (s : AuthSlot) (c : Config) : Config :=
  match role with
  | User => with_slots s (agent_slot c) c
  | Agent => with_slots (user_slot c) s c
  end.

(** [now] is the time in seconds, [uuid] the fresh CSRF token. *)
Definition set_auth_token_for_role (now : Z) (uuid : string) (role : SessionRole)
    (token : option string) : CM (option string) :=
  let '(csrf, exp) := match token with
                      | Some _ => (Some uuid, Some (now + AUTH_TOKEN_VALIDITY_SECS)%Z)
                      | None => (None, None)
                      end in
  update (with_slot role (mkSlot token csrf exp)) ;;;
  se_ret csrf.

Definition set_auth_token (now : Z) (uuid : string) (token : option string) : CM (option string) :=
  set_auth_token_for_role now uuid User token.

Definition clear_all_auth_tokens : CM unit := update (with_slots empty_slot empty_slot).

Definition no_password (c : Config) : bool :=
  is_empty (local_auth_mode c) || String.eqb (local_auth_mode c) "noPassword".

Definition not_expired (now : Z) (s : AuthSlot) : bool :=
  match expires_at s with Some exp => (now <? exp)%Z | None => false end.

Definition token_matches (stored : option string) (token : string) : bool :=
  match stored with Some t => negb (is_empty token) && String.eqb t token | None => false end.

Definition validate_csrf_token_for_role (now : Z) (role : SessionRole) (token : string)
    (c : Config) : bool :=
  if no_password c then true else
  let s := slot_of role c in not_expired now s && token_matches (csrf_token s) token.

Definition validate_auth_token_for_role (now : Z) (role : SessionRole) (token : string)
    (c : Config) : bool :=
  if no_password c then true else
  let s := slot_of role c in not_expired now s && token_matches (auth_token s) token.

Definition is_setup (c : Config) : bool := negb (is_setup_required c).

(** Replace the first element with the same key, or append. *)
Fixpoint upsert {A} (same : A -> bool) (x : A) (l : list A) : list A :=
  match l with
  | [] => [x]
  | y :: l' => if same y then x :: l' else y :: upsert same x l'
  end.

Definition set_keyboard_macro (m : KeyboardMacro) : CM unit :=
  let '(m, r) := macro_validate m in
  match r with
  | Some e => se_throw (ConfigMsg e)
  | None => update (fun c => with_macros
                               (upsert (fun y => String.eqb (macro_id y) (macro_id m)) m
                                  (keyboard_macros c)) c)
  end.

Definition remove_keyboard_macro (id : string) : CM unit :=
  update (fun c => with_macros (List.filter (fun m => negb (String.eqb (macro_id m) id))
                                  (keyboard_macros c)) c).

Definition set_wake_on_lan_device (d : WakeOnLanDevice) : CM unit :=
  update (fun c => with_wol (upsert (fun y => String.eqb (wol_name y) (wol_name d)) d
                               (wake_on_lan_devices c)) c).

Definition remove_wake_on_lan_device (name : string) : CM unit :=
  update (fun c => with_wol (List.filter (fun d => negb (String.eqb (wol_name d) name))
                               (wake_on_lan_devices c)) c).

Definition set_display_config (b d o : option Z) : CM unit :=
  update (fun c => with_display (default (display_max_brightness c) b)
                     (default (display_dim_after_sec c) d)
                     (default (display_off_after_sec c) o) c).

Definition set_mcp_enabled (enabled : bool) : CM unit :=
  update (fun c => with_switches enabled (cfg_ssh_forwarding_enabled c) c).

Definition set_ssh_forwarding_enabled (enabled : bool) : CM unit :=
  update (fun c => with_switches (cfg_mcp_enabled c) enabled c).

Definition set_usb_config (u : Pref.UsbConfig) : CM unit :=
  update (fun c => with_usb (Pref.with_config u (cfg_usb c)) c).

Definition set_usb_devices (d : Pref.UsbDevices) : CM unit :=
  update (fun c => with_usb (Pref.with_devices d (cfg_usb c)) c).

Definition set_ft_mount_target (t : Pref.FileTransferTarget) : CM unit :=
  update (fun c => with_usb (Pref.with_target t (cfg_usb c)) c).

Definition set_microphone_emulation (enabled : bool) : CM unit :=
  update (with_microphone (Some enabled)).

(** *** The virtual media list *)

Definition check_virtual_media_item (i : VirtualMediaItem) : Result ConfigError unit :=
  if is_empty (vm_name i) then Err (ConfigMsg "Virtual media name cannot be empty")
  else if is_empty (vm_url i)
  then Err (ConfigMsg ("Virtual media(" +:+ vm_name i +:+ ") URL cannot be empty"))
  else if negb (url_ok (vm_url i))
  then Err (ConfigMsg ("Virtual media(" +:+ vm_name i +:+ ") URL is not valid"))
  else Ok tt.

Definition same_media (i p : VirtualMediaItem) : bool :=
  String.eqb (vm_name p) (vm_name i) || String.eqb (vm_url p) (vm_url i).

Definition add_virtual_media_item (i : VirtualMediaItem) : CM unit :=
  se_of_result (check_virtual_media_item i) ;;;
  let! l := se_get (fun s => virtual_media_list (mem s)) in
  match l with
  | Some l =>
      match List.find (same_media i) l with
      | Some old => se_throw (ConfigMsg ("Virtual media(" +:+ vm_name old +:+ ") already exists"))
      | None => update (with_media (Some (l ++ [i])))
      end
  | None => update (with_media (Some [i]))
  end.

Definition remove_virtual_media_item (name : string) : CM unit :=
  se_guard (is_empty name) (ConfigMsg "Virtual media name cannot be empty") ;;;
  update (fun c => with_media
    ((List.filter (fun i => negb (String.eqb (vm_name i) name))) <$> virtual_media_list c) c).

(** The loop over the new list with the names and urls seen so far. *)
Fixpoint check_media_list (names urls : gset string) (l : list VirtualMediaItem)
  : Result ConfigError unit :=
  match l with
  | [] => Ok tt
  | i :: l' =>
      match check_virtual_media_item i with
      | Err e => Err e
      | Ok _ =>
          if bool_decide (vm_name i ∈ names)
          then Err (ConfigMsg ("Virtual media name(" +:+ vm_name i +:+ ") can not repeat"))
          else if bool_decide (vm_url i ∈ urls)
          then Err (ConfigMsg ("Virtual media URL(" +:+ vm_url i +:+ ") can not repeat"))
          else check_media_list ({[vm_name i]} ∪ names) ({[vm_url i]} ∪ urls) l'
      end
  end.

Definition update_virtual_media_list (l : option (list VirtualMediaItem)) : CM unit :=
  se_of_result (match l with Some l => check_media_list ∅ ∅ l | None => Ok tt end) ;;;
  update (with_media l).
End manager.
