(* ===== verification/ConfigProofs.v ===== *)
(** * Correctness of the configuration manager

    What validation guarantees, that only validated configurations reach the
    disk, what a rejected update leaves behind, and the uniqueness of names in
    the lists the manager keeps. *)

From S2P Require Import Prelude Session UsbPrefs Config.

(** ** Validity *)

Definition step_valid (s : KeyboardMacroStep) : Prop :=
  (length (keys s) <= MAX_KEYS_PER_STEP)%nat
  /\ (MIN_STEP_DELAY <= delay s <= MAX_STEP_DELAY)%Z.

Definition macro_valid (m : KeyboardMacro) : Prop :=
  is_empty (trim (macro_name m)) = false
  /\ (1 <= length (steps m) <= MAX_STEPS_PER_MACRO)%nat
  /\ Forall step_valid (steps m).

Record config_valid (c : Config) : Prop := {
  cv_count : (length (keyboard_macros c) <= MAX_MACROS_PER_DEVICE)%nat;
  cv_macros : Forall macro_valid (keyboard_macros c);
  cv_brightness : (display_max_brightness c <= 255)%Z;
  cv_mode : local_auth_mode c ∈ [""; "password"; "noPassword"]
}.

Lemma steps_validate_spec i l :
  let '(l', r) := steps_validate i l in
  length l' = length l /\ (r = None -> Forall step_valid l').
Proof.
  revert i. induction l as [|s l IH]; intros i; cbn [steps_validate]; [by auto|].
  unfold step_validate. destruct (Nat.ltb_spec MAX_KEYS_PER_STEP (length (keys s))) as [Hk|Hk].
  - by split.
  - specialize (IH (S i)). destruct (steps_validate (S i) l) as [l' r].
    destruct IH as [IHl IHr]. cbn. split; [congruence|]. intros Hr. constructor; [|auto].
    unfold step_valid, clamp, MIN_STEP_DELAY, MAX_STEP_DELAY. cbn. lia.
Qed.

Lemma step_validate_fix s : step_valid s -> step_validate s = (s, None).
Proof.
  intros [Hk Hd]. unfold step_validate.
  destruct (Nat.ltb_spec MAX_KEYS_PER_STEP (length (keys s))); [lia|].
  destruct s as [k m d]. cbn in *. do 2 f_equal. unfold clamp, MIN_STEP_DELAY, MAX_STEP_DELAY in *.
  lia.
Qed.

Lemma steps_validate_fix i l : Forall step_valid l -> steps_validate i l = (l, None).
Proof.
  intros H. revert i. induction H as [|s l Hs Hl IH]; intros i; cbn [steps_validate]; [done|].
  by rewrite step_validate_fix, IH by done.
Qed.

Lemma macro_validate_spec m m' : macro_validate m = (m', None) -> macro_valid m'.
Proof.
  unfold macro_validate. destruct (is_empty (trim (macro_name m))) eqn:En; [done|].
  case_bool_decide as Hs; [done|].
  destruct (Nat.ltb_spec MAX_STEPS_PER_MACRO (length (steps m))) as [Hl|Hl]; [done|].
  pose proof (steps_validate_spec 0 (steps m)) as H.
  destruct (steps_validate 0 (steps m)) as [st r]. intros [= <- ->]. destruct H as [Hlen Hv].
  split_and!; cbn; [done|rewrite Hlen; by destruct (steps m); [|cbn; lia]|lia|auto].
Qed.

Lemma macro_validate_fix m : macro_valid m -> macro_validate m = (m, None).
Proof.
  intros (Hn & Hl & Hs). unfold macro_validate. rewrite Hn.
  rewrite bool_decide_false; [|intros H; rewrite H in Hl; cbn in Hl; lia].
  destruct (Nat.ltb_spec MAX_STEPS_PER_MACRO (length (steps m))); [lia|].
  rewrite steps_validate_fix by done. by destruct m.
Qed.

Lemma macros_validate_spec i l :
  let '(l', errs) := macros_validate i l in
  length l' = length l /\ (errs = [] -> Forall macro_valid l').
Proof.
  revert i. induction l as [|m l IH]; intros i; cbn [macros_validate]; [by auto|].
  pose proof (macro_validate_spec m) as Hm. destruct (macro_validate m) as [m' r].
  specialize (IH (S i)). destruct (macros_validate (S i) l) as [l' errs].
  destruct IH as [IHl IHe]. cbn. split; [congruence|].
  destruct r as [e|]; [done|]. intros ->. constructor; auto.
Qed.

Lemma macros_validate_fix i l : Forall macro_valid l -> macros_validate i l = (l, []).
Proof.
  intros H. revert i. induction H as [|m l Hm Hl IH]; intros i; cbn [macros_validate]; [done|].
  by rewrite macro_validate_fix, IH by done.
Qed.

Lemma mode_check (m : string) :
  (negb (is_empty m) && negb (bool_decide (m ∈ ["password"; "noPassword"])))%bool = false
  <-> m ∈ [""; "password"; "noPassword"].
Proof.
  destruct m as [|a m]; cbn [is_empty negb andb]; [split; [set_solver|done]|].
  rewrite negb_false_iff, bool_decide_eq_true. set_solver.
Qed.

Lemma validate_errors_valid c : (validate c).2 = [] -> config_valid (validate c).1.
Proof.
  unfold validate. pose proof (macros_validate_spec 0 (keyboard_macros c)) as Hm.
  destruct (macros_validate 0 (keyboard_macros c)) as [ms errs]. destruct Hm as [Hl He].
  cbn [fst snd with_macros display_max_brightness local_auth_mode].
  intros [H1 [-> [H2 H3]%app_nil]%app_nil]%app_nil.
  split; cbn [with_macros keyboard_macros display_max_brightness local_auth_mode].
  - revert H1. destruct (Nat.ltb_spec MAX_MACROS_PER_DEVICE (length (keyboard_macros c))); [done|lia].
  - auto.
  - revert H2. destruct (Z.ltb_spec 255 (display_max_brightness c)); [done|lia].
  - apply mode_check. by destruct (_ && _)%bool.
Qed.

Lemma validate_of_valid c : config_valid c -> validate c = (c, []).
Proof.
  intros [H1 H2 H3 H4]. unfold validate.
  destruct (Nat.ltb_spec MAX_MACROS_PER_DEVICE (length (keyboard_macros c))); [lia|].
  rewrite macros_validate_fix by done. cbn.
  destruct (Z.ltb_spec 255 (display_max_brightness c)); [lia|].
  rewrite (proj2 (mode_check _) H4). by destruct c.
Qed.

(** What validation accepts: after a validation without errors there are at
    most 25 macros, each named, with one to ten steps of at most ten keys and a
    delay between 50 and 2000 ms, the brightness is at most 255 and the
    authentication mode is one of the three known ones.  It is stable:
    validating the result again accepts it unchanged. *)
Theorem validate_sound c c' :
  validate c = (c', []) -> config_valid c' /\ validate c' = (c', []).
Proof.
  intros H. assert (Hv : config_valid c').
  { pose proof (validate_errors_valid c) as Hc. rewrite H in Hc. by apply Hc. }
  split; [done|]. by apply validate_of_valid.
Qed.

(** ** Updates *)

Lemma steps_validate_again i l :
  (steps_validate i (steps_validate i l).1).2 = (steps_validate i l).2.
Proof.
  revert i. induction l as [|s l IH]; intros i; cbn [steps_validate]; [done|].
  unfold step_validate.
  destruct (Nat.ltb_spec MAX_KEYS_PER_STEP (length (keys s))) as [Hk|Hk].
  - cbn [fst steps_validate]. unfold step_validate.
    by destruct (Nat.ltb_spec MAX_KEYS_PER_STEP (length (keys s))); [|lia].
  - specialize (IH (S i)). destruct (steps_validate (S i) l) as [l' r]. cbn [fst snd steps_validate] in *.
    unfold step_validate. cbn [keys].
    destruct (Nat.ltb_spec MAX_KEYS_PER_STEP (length (keys s))); [lia|].
    by destruct (steps_validate (S i) l').
Qed.

Lemma macro_validate_again m : (macro_validate (macro_validate m).1).2 = (macro_validate m).2.
Proof.
  unfold macro_validate at 2 3. destruct (is_empty (trim (macro_name m))) eqn:En.
  { cbn [fst]. unfold macro_validate. by rewrite En. }
  destruct (bool_decide (steps m = [])) eqn:Eb.
  { cbn [fst]. unfold macro_validate. by rewrite En, Eb. }
  destruct (MAX_STEPS_PER_MACRO <? length (steps m))%nat eqn:El.
  { cbn [fst]. unfold macro_validate. by rewrite En, Eb, El. }
  pose proof (steps_validate_spec 0 (steps m)) as H.
  pose proof (steps_validate_again 0 (steps m)) as Ha.
  destruct (steps_validate 0 (steps m)) as [st r]. destruct H as [Hlen _].
  cbn [fst snd] in *. unfold macro_validate. cbn [macro_name steps]. rewrite En, Hlen, El.
  rewrite bool_decide_false.
  - by destruct (steps_validate 0 st).
  - intros ->. apply bool_decide_eq_false in Eb. by destruct (steps m).
Qed.

Lemma macros_validate_again i l :
  (macros_validate i (macros_validate i l).1).2 = (macros_validate i l).2.
Proof.
  revert i. induction l as [|m l IH]; intros i; cbn [macros_validate]; [done|].
  pose proof (macro_validate_again m) as Hm. destruct (macro_validate m) as [m' r].
  specialize (IH (S i)). destruct (macros_validate (S i) l) as [l' errs].
  cbn [fst snd macros_validate] in *.
  destruct (macro_validate m') as [m'' r'], (macros_validate (S i) l') as [l'' errs'].
  cbn in *. by subst.
Qed.

(** The errors depend on macros, mode and brightness only, and come back when
    the normalised configuration is validated again. *)
Lemma validate_errs_ext c d :
  keyboard_macros d = keyboard_macros c -> local_auth_mode d = local_auth_mode c ->
  display_max_brightness d = display_max_brightness c -> (validate d).2 = (validate c).2.
Proof.
  intros H1 H2 H3. unfold validate. rewrite H1.
  destruct (macros_validate 0 (keyboard_macros c)) as [ms errs]. cbn. by rewrite H2, H3.
Qed.

Lemma validate_again c : (validate (validate c).1).2 = (validate c).2.
Proof.
  unfold validate. pose proof (macros_validate_again 0 (keyboard_macros c)) as Ha.
  pose proof (macros_validate_spec 0 (keyboard_macros c)) as Hs.
  destruct (macros_validate 0 (keyboard_macros c)) as [ms errs]. destruct Hs as [Hl _].
  cbn [fst snd with_macros keyboard_macros display_max_brightness local_auth_mode] in *.
  destruct (macros_validate 0 ms) as [ms' errs'].
  cbn [fst snd with_macros keyboard_macros display_max_brightness local_auth_mode] in *.
  by rewrite Hl, Ha.
Qed.

Lemma validate_rest c :
  local_auth_mode (validate c).1 = local_auth_mode c
  /\ hashed_password (validate c).1 = hashed_password c
  /\ user_slot (validate c).1 = user_slot c /\ agent_slot (validate c).1 = agent_slot c
  /\ virtual_media_list (validate c).1 = virtual_media_list c
  /\ wake_on_lan_devices (validate c).1 = wake_on_lan_devices c
  /\ display_max_brightness (validate c).1 = display_max_brightness c.
Proof. unfold validate. by destruct (macros_validate 0 (keyboard_macros c)). Qed.


(** An update as one case split. *)
Lemma update_cases ok f s :
  let '(s', r) := update ok f s in
  mem s' = (validate (f (mem s))).1 /\
  match r with
  | Ok _ => ok = true /\ (validate (f (mem s))).2 = [] /\ disk s' = mem s'
  | Err (ValidationFailed errs) => errs ≠ [] /\ (validate (f (mem s))).2 = errs /\ disk s' = disk s
  | Err SaveFailed => ok = false /\ (validate (f (mem s))).2 = [] /\ disk s' = disk s
  | Err (ConfigMsg _) => False
  end.
Proof.
  unfold update, update_locked, se_bind, save.
  destruct (validate (f (mem s))) as [c [|e errs]]; cbn; [|done]. by destruct ok.
Qed.

(** A configuration on disk is only ever replaced by a valid one. *)
Definition disk_step (s s' : ConfigManager) : Prop :=
  disk s' = disk s \/ (disk s' = mem s' /\ config_valid (disk s')).

Lemma update_disk ok f s : disk_step s (update ok f s).1.
Proof.
  pose proof (update_cases ok f s) as H.
  destruct (update ok f s) as [s' [u|[errs| |m]]]; cbn; destruct H as [Hm H];
    [|left; apply H..|done].
  right. destruct H as (_ & He & Hd). split; [done|]. rewrite Hd, Hm.
  by apply validate_errors_valid.
Qed.

Inductive ConfigOp : Type :=
| OpSetAuthMode (m : string)
| OpSetHashedPassword (h : option string)
| OpSetAuthToken (now : Z) (uuid : string) (r : SessionRole) (t : option string)
| OpClearTokens
| OpSetMacro (m : KeyboardMacro)
| OpRemoveMacro (id : string)
| OpSetWol (d : WakeOnLanDevice)
| OpRemoveWol (name : string)
| OpSetDisplay (b d o : option Z)
| OpSetMcp (b : bool)
| OpSetSsh (b : bool)
| OpSetMic (b : bool)
| OpSetUsbConfig (u : Pref.UsbConfig)
| OpSetUsbDevices (d : Pref.UsbDevices)
| OpSetFtTarget (t : Pref.FileTransferTarget)
| OpAddMedia (i : VirtualMediaItem)
| OpRemoveMedia (name : string)
| OpUpdateMedia (l : option (list VirtualMediaItem)).

Section ops.
Context (url_ok : string -> bool).

(** One operation, with the outcome of its save. *)
Definition config_op (o : ConfigOp) (save_ok : bool) (s : ConfigManager) : ConfigManager :=
  match o with
  | OpSetAuthMode m => (set_auth_mode save_ok m s).1
  | OpSetHashedPassword h => (set_hashed_password save_ok h s).1
  | OpSetAuthToken now uuid r t => (set_auth_token_for_role save_ok now uuid r t s).1
  | OpClearTokens => (clear_all_auth_tokens save_ok s).1
  | OpSetMacro m => (set_keyboard_macro save_ok m s).1
  | OpRemoveMacro id => (remove_keyboard_macro save_ok id s).1
  | OpSetWol d => (set_wake_on_lan_device save_ok d s).1
  | OpRemoveWol n => (remove_wake_on_lan_device save_ok n s).1
  | OpSetDisplay b d o => (set_display_config save_ok b d o s).1
  | OpSetMcp b => (set_mcp_enabled save_ok b s).1
  | OpSetSsh b => (set_ssh_forwarding_enabled save_ok b s).1
  | OpSetMic b => (set_microphone_emulation save_ok b s).1
  | OpSetUsbConfig u => (set_usb_config save_ok u s).1
  | OpSetUsbDevices d => (set_usb_devices save_ok d s).1
  | OpSetFtTarget t => (set_ft_mount_target save_ok t s).1
  | OpAddMedia i => (add_virtual_media_item save_ok url_ok i s).1
  | OpRemoveMedia n => (remove_virtual_media_item save_ok n s).1
  | OpUpdateMedia l => (update_virtual_media_list save_ok url_ok l s).1
  end.

Definition config_run (ops : list (ConfigOp * bool)) (s : ConfigManager) : ConfigManager :=
  fold_left (fun s '(o, ok) => config_op o ok s) ops s.

(** Every operation fails before it touches anything, or is one update. *)
Lemma config_op_update o ok s :
  config_op o ok s = s \/ ∃ f, config_op o ok s = (update ok f s).1.
Proof.
  destruct o; cbn [config_op]; try (right; eexists; reflexivity).
  - right. unfold set_auth_token_for_role.
    destruct t;
      match goal with |- context [update ok ?f] => exists f end;
      unfold se_bind, se_ret; by destruct (update ok _ s) as [s' [u|e]].
  - unfold set_keyboard_macro. destruct (macro_validate m) as [m' [e|]]; [by left|right].
    by eexists.
  - unfold add_virtual_media_item; se_unfold.
    destruct (check_virtual_media_item url_ok i); [|by left].
    destruct (virtual_media_list (mem s)) as [l|]; [|right; by eexists].
    destruct (List.find _ l); [by left|right; by eexists].
  - unfold remove_virtual_media_item, se_bind, se_guard.
    destruct (is_empty name); [by left|right; by eexists].
  - unfold update_virtual_media_list, se_bind, se_of_result.
    destruct (match l with Some _ => _ | None => _ end); [right; by eexists|by left].
Qed.

(** ** Operations that overlap

    The two sections of an update are steps of their own; every operation is
    at most one update ([config_op_update]).  [ct_waiting] counts the updates
    between their sections. *)

Record ConfigTasks := mkTasks { ct_manager : ConfigManager; ct_waiting : nat }.

Inductive ConfigEvent : Type :=
| EvUpdate (f : Config -> Config)
| EvSave (save_ok : bool).

Definition config_step (s : ConfigTasks) (e : ConfigEvent) : ConfigTasks :=
  match e with
  | EvUpdate f =>
      let '(m, r) := update_locked f (ct_manager s) in
      mkTasks m (if is_ok r then S (ct_waiting s) else ct_waiting s)
  | EvSave ok =>
      match ct_waiting s with
      | 0%nat => s
      | S n => mkTasks (save ok (ct_manager s)).1 n
      end
  end.

Definition config_steps (evs : list ConfigEvent) (s : ConfigTasks) : ConfigTasks :=
  fold_left config_step evs s.

(** The update of an operation is the two sections one after the other. *)
Lemma update_is_steps ok f s :
  is_ok (update_locked f s).2 = true ->
  config_steps [EvUpdate f; EvSave ok] (mkTasks s 0) = mkTasks (update ok f s).1 0.
Proof.
  intros Hok. unfold config_steps, update, se_bind. cbn.
  destruct (update_locked f s) as [m [u|e]]; [|done]. done.
Qed.

(** No change is refused by the validation while another update waits to
    save. *)
Fixpoint refused_apart (evs : list ConfigEvent) (s : ConfigTasks) : Prop :=
  match evs with
  | [] => True
  | e :: evs =>
      match e with
      | EvUpdate f => is_ok (update_locked f (ct_manager s)).2 = false -> ct_waiting s = 0%nat
      | EvSave _ => True
      end /\ refused_apart evs (config_step s e)
  end.

Lemma config_steps_valid evs s :
  config_valid (disk (ct_manager s)) -> (ct_waiting s ≠ 0%nat -> config_valid (mem (ct_manager s))) ->
  refused_apart evs s -> config_valid (disk (ct_manager (config_steps evs s))).
Proof.
  revert s. induction evs as [|e evs IH]; intros s Hd Hm Hr; [done|].
  cbn [config_steps fold_left]. destruct Hr as [He Hr]. apply IH; [..|done]; clear IH Hr.
  - destruct e as [f|ok]; cbn; [unfold update_locked; by destruct (validate _) as [c errs]|].
    destruct (ct_waiting s) eqn:Ew; [done|]. unfold save. destruct ok; [|done]. by apply Hm.
  - destruct e as [f|ok]; cbn in *.
    + unfold update_locked in *. pose proof (validate_errors_valid (f (mem (ct_manager s)))) as Hv.
      destruct (validate _) as [c [|x errs]]; cbn in *; [by auto|]. intros H. by destruct (H (He eq_refl)).
    + destruct (ct_waiting s) eqn:Ew; [done|]. intros _. unfold save. destruct ok; by apply Hm.
Qed.

(** C8: Only valid configurations reach the disk, starting from a valid one,
    with saves that fail or not: after any sequence of manager operations
    that run one after the other; and when updates overlap, one running
    between the two lock sections of another, as long as none is refused by
    the validation while another waits to save.  Without that condition the
    refused values are saved: [refused_update_is_saved]. *)
Theorem disk_always_valid s :
  config_valid (disk s) ->
  (∀ ops, config_valid (disk (config_run ops s)))
  /\ (∀ evs, refused_apart evs (mkTasks s 0) ->
        config_valid (disk (ct_manager (config_steps evs (mkTasks s 0))))).
Proof.
  intros Hv. split; [|intros evs Hr; by apply config_steps_valid].
  intros ops. apply (fold_left_inv (fun s => config_valid (disk s))); [|done].
  clear s Hv. intros s [o ok] Hs.
  destruct (config_op_update o ok s) as [->|[f ->]]; [done|].
  destruct (update_disk ok f s) as [->|[_ H]]; done.
Qed.

(** A change that is refused between the two sections of another update is
    saved with it. *)
Lemma refused_update_is_saved s :
  config_valid (mem s) ->
  let bad := with_auth_mode "none" in
  let evs := [EvUpdate (fun c => c); EvUpdate bad; EvSave true] in
  is_ok (update_locked bad s).2 = false
  /\ ¬ config_valid (disk (ct_manager (config_steps evs (mkTasks s 0)))).
Proof.
  intros Hv. cbv zeta.
  assert (Hbad : ∀ s', local_auth_mode (mem (update_locked (with_auth_mode "none") s').1) = "none"
            /\ is_ok (update_locked (with_auth_mode "none") s').2 = false).
  { intros s'. unfold update_locked.
    pose proof (validate_rest (with_auth_mode "none" (mem s'))) as (Hm & _).
    pose proof (validate_errors_valid (with_auth_mode "none" (mem s'))) as He.
    destruct (validate _) as [c [|x errs]]; cbn in *; [|done].
    destruct (He eq_refl) as [_ _ _ Hc]. rewrite Hm in Hc. set_solver. }
  split; [apply Hbad|].
  assert (H1 : config_step (mkTasks s 0) (EvUpdate (fun c => c)) = mkTasks (mkManager (mem s) (disk s)) 1).
  { cbn. unfold update_locked. by rewrite validate_of_valid. }
  unfold config_steps. cbn [fold_left]. rewrite H1. cbn [config_step ct_manager ct_waiting].
  specialize (Hbad (mkManager (mem s) (disk s))).
  destruct (update_locked (with_auth_mode "none") _) as [m r]. cbn in Hbad.
  destruct Hbad as [Hm ->]. cbn. intros [_ _ _ Hc]. cbn in Hc. rewrite Hm in Hc. set_solver.
Qed.

(** A rejected update is not rolled back: the values that failed stay in
    memory, the disk keeps the old ones, and from then on every update that
    does not touch macros, brightness or authentication mode (a login, say)
    is rejected as well. *)
Theorem rejected_update_sticks ok f s errs g ok' :
  (update ok f s).2 = Err (ValidationFailed errs) ->
  (∀ c, keyboard_macros (g c) = keyboard_macros c
        /\ local_auth_mode (g c) = local_auth_mode c
        /\ display_max_brightness (g c) = display_max_brightness c) ->
  let s1 := (update ok f s).1 in
  mem s1 = (validate (f (mem s))).1 /\ disk s1 = disk s
  /\ ∃ errs', (update ok' g s1).2 = Err (ValidationFailed errs').
Proof.
  intros Hr Hg. cbv zeta. pose proof (update_cases ok f s) as H.
  destruct (update ok f s) as [s1 r]. cbn in *. subst r.
  destruct H as (Hm & Hne & He & Hd). split; [done|]. split; [done|].
  pose proof (update_cases ok' g s1) as H.
  destruct (update ok' g s1) as [s2 r]. cbn. destruct H as [Hm2 H].
  destruct (Hg (mem s1)) as (G1 & G2 & G3).
  rewrite (validate_errs_ext _ _ G1 G2 G3), Hm, validate_again, He in H.
  destruct r as [u|[errs'| |m]]; [by destruct H as (_ & -> & _)|by eauto|by destruct H as (_ & -> & _)|done].
Qed.

(** ** The virtual media list *)

Definition media_unique (l : option (list VirtualMediaItem)) : Prop :=
  match l with
  | Some l => NoDup (vm_name <$> l) /\ NoDup (vm_url <$> l)
  | None => True
  end.

Lemma update_media ok f s :
  virtual_media_list (mem (update ok f s).1) = virtual_media_list (f (mem s)).
Proof.
  pose proof (update_cases ok f s) as H. destruct (update ok f s) as [s' r].
  cbn [fst]. destruct H as [-> _]. by destruct (validate_rest (f (mem s))) as (_ & _ & _ & _ & -> & _).
Qed.

Lemma NoDup_fmap_filter {A B} (g : A -> B) (p : A -> bool) (l : list A) :
  NoDup (g <$> l) -> NoDup (g <$> List.filter p l).
Proof.
  induction l as [|x l IH]; cbn; [done|]. intros [Hx Hl]%NoDup_cons.
  destruct (p x); cbn; [|auto]. apply NoDup_cons. split; [|auto].
  intros (y & Heq & Hy)%list_elem_of_fmap. apply Hx, list_elem_of_fmap. exists y.
  split; [done|]. apply list_elem_of_In in Hy. apply filter_In in Hy as [Hy _].
  by apply list_elem_of_In.
Qed.

Lemma check_media_list_unique names urls l :
  check_media_list url_ok names urls l = Ok tt ->
  NoDup (vm_name <$> l) /\ NoDup (vm_url <$> l)
  /\ (∀ i, i ∈ l -> (vm_name i ∉ names) /\ (vm_url i ∉ urls)).
Proof.
  revert names urls. induction l as [|i l IH]; intros names urls; cbn [check_media_list].
  { intros _. split_and!; [apply NoDup_nil_2..|set_solver]. }
  destruct (check_virtual_media_item url_ok i); [|done].
  case_bool_decide as Hn; [done|]. case_bool_decide as Hu; [done|].
  intros (H1 & H2 & H3)%IH. cbn. split_and!.
  - apply NoDup_cons. split; [|done]. intros (j & Hj & Hin)%list_elem_of_fmap.
    destruct (H3 j Hin). set_solver.
  - apply NoDup_cons. split; [|done]. intros (j & Hj & Hin)%list_elem_of_fmap.
    destruct (H3 j Hin). set_solver.
  - intros j [->|Hj]%elem_of_cons; [done|]. destruct (H3 j Hj). set_solver.
Qed.

Lemma find_none_fresh (i : VirtualMediaItem) l :
  List.find (same_media i) l = None ->
  (vm_name i ∉ (vm_name <$> l)) /\ (vm_url i ∉ (vm_url <$> l)).
Proof.
  intros Hf. assert (H : ∀ p, p ∈ l -> same_media i p = false).
  { intros p Hp. eapply find_none; [exact Hf|]. by apply list_elem_of_In. }
  unfold same_media in H.
  split; intros (p & Hp & Hin)%list_elem_of_fmap; specialize (H p Hin);
    apply orb_false_iff in H as [H1 H2];
    [apply String.eqb_neq in H1|apply String.eqb_neq in H2]; congruence.
Qed.

Lemma snoc_unique {A B} (g : A -> B) l x :
  NoDup (g <$> l) -> g x ∉ (g <$> l) -> NoDup (g <$> (l ++ [x])).
Proof.
  intros H1 H2. rewrite fmap_app. apply NoDup_app. split_and!; [done| |apply NoDup_singleton].
  intros y Hy Hx. apply H2. cbn in Hx. apply list_elem_of_singleton in Hx. by subst.
Qed.

Lemma config_op_media o ok s :
  media_unique (virtual_media_list (mem s)) ->
  media_unique (virtual_media_list (mem (config_op o ok s))).
Proof.
  intros Hs.
  destruct o; cbn [config_op]; try (unfold set_auth_mode, set_hashed_password,
    clear_all_auth_tokens, remove_keyboard_macro, set_wake_on_lan_device,
    remove_wake_on_lan_device, set_display_config, set_mcp_enabled,
    set_ssh_forwarding_enabled, set_microphone_emulation, set_usb_config, set_usb_devices,
    set_ft_mount_target; rewrite update_media; exact Hs).
  - unfold set_auth_token_for_role. destruct t; unfold se_bind, se_ret;
      match goal with |- context [update ok ?f s] => pose proof (update_media ok f s) as Hm end;
      destruct (update ok _ s) as [s' [u|e]]; cbn in *; rewrite Hm; by destruct r.
  - unfold set_keyboard_macro. destruct (macro_validate m) as [m' [e|]]; [exact Hs|].
    by rewrite update_media.
  - unfold add_virtual_media_item; se_unfold.
    destruct (check_virtual_media_item url_ok i); [|exact Hs].
    destruct (virtual_media_list (mem s)) as [l|] eqn:El.
    + destruct (List.find (same_media i) l) eqn:Ef; [cbn; by rewrite El|].
      rewrite update_media. apply find_none_fresh in Ef as [Hn Hu]. destruct Hs as [H1 H2].
      by split; apply snoc_unique.
    + rewrite update_media. split; apply NoDup_singleton.
  - unfold remove_virtual_media_item, se_bind, se_guard.
    destruct (is_empty name); [exact Hs|]. rewrite update_media. cbn.
    destruct (virtual_media_list (mem s)) as [l|]; [|done].
    destruct Hs as [H1 H2]. by split; apply NoDup_fmap_filter.
  - unfold update_virtual_media_list, se_bind, se_of_result.
    destruct l as [l|]; [|by rewrite update_media].
    destruct (check_media_list url_ok ∅ ∅ l) as [[]|] eqn:Ec; [|exact Hs].
    rewrite update_media. apply check_media_list_unique in Ec as (H1 & H2 & _). by split.
Qed.

(** The virtual media list never holds two entries with the same name or
    the same URL, whatever sequence of manager operations ran since it was
    empty. *)
Theorem media_list_unique ops s :
  virtual_media_list (mem s) = None ->
  match virtual_media_list (mem (config_run ops s)) with
  | Some l => NoDup (vm_name <$> l) /\ NoDup (vm_url <$> l)
  | None => True
  end.
Proof.
  intros Hn. change (media_unique (virtual_media_list (mem (config_run ops s)))).
  assert (H : media_unique (virtual_media_list (mem s))) by (by rewrite Hn).
  revert H. apply (fold_left_inv (fun s => media_unique (virtual_media_list (mem s)))).
  intros s' [o ok]. apply config_op_media.
Qed.
End ops.
