(* ===== verification/Persist.v ===== *)
(** * The configuration file (arkkvm/src/config/persistence.rs)

    Saving keeps a backup copy and goes through a temporary file and a rename;
    loading falls back to the backup.  A save is a task whose steps are the
    single changes of the file system, so a crash can cut a copy or a write
    at any point; a rename happens or does not.  Encryption, JSON and the
    fields filled in when they are empty are parameters. *)

From S2P Require Import Prelude StateLaws Session Config ConfigProofs.

Record Files := mkFiles {
  primary : option (list Z); backup : option (list Z); tmp : option (list Z) }.

Definition set_primary (c : option (list Z)) (fs : Files) : Files := mkFiles c (backup fs) (tmp fs).
Definition set_backup (c : option (list Z)) (fs : Files) : Files := mkFiles (primary fs) c (tmp fs).
Definition set_tmp (c : option (list Z)) (fs : Files) : Files := mkFiles (primary fs) (backup fs) c.

Inductive Path := Primary | Backup | Tmp.

Definition file (p : Path) (fs : Files) : option (list Z) :=
  match p with Primary => primary fs | Backup => backup fs | Tmp => tmp fs end.

Definition put (p : Path) : option (list Z) -> Files -> Files :=
  match p with Primary => set_primary | Backup => set_backup | Tmp => set_tmp end.

(** How the writing of a file goes: whether it can be created, after how
    many bytes each call stops, and whether the last one succeeds. *)
Record WriteAnswer := mkWrite { wr_created : bool; wr_cuts : list nat; wr_done : bool }.

(** The answers of the file system, and of the encryption, to one save. *)
Record SaveAnswers := mkSaves {
  dir_ok : bool; backup_write : WriteAnswer; sealed : bool; tmp_write : WriteAnswer; rename_ok : bool }.

Definition FM (A : Type) : Type := Async Files unit A.

(** One change of a file: create it empty, or add bytes at its end. *)
Definition create_file (p : Path) : FM unit := at_once (se_modify (put p (Some []))).
Definition add_bytes (p : Path) (bytes : list Z) : FM unit :=
  at_once (se_modify (fun fs => put p (Some (default [] (file p fs) ++ bytes)) fs)).

Fixpoint write_cut (p : Path) (cuts : list nat) (ok : bool) (bytes : list Z) : FM unit :=
  match cuts with
  | [] => if ok then add_bytes p bytes else Done (Err tt)
  | n :: cuts => add_bytes p (take n bytes) ;;> write_cut p cuts ok (drop n bytes)
  end.

(** [fs::write] *)
Definition fs_write (p : Path) (bytes : list Z) (w : WriteAnswer) : FM unit :=
  if wr_created w then create_file p ;;> write_cut p (wr_cuts w) (wr_done w) bytes
  else Done (Err tt).

(** [fs::copy] *)
Definition fs_copy (from to : Path) (w : WriteAnswer) : FM unit :=
  wait! bytes := at_once (fun fs => (fs, ok_or (file from fs) tt)) in
  fs_write to bytes w.

(** [fs::rename] of the temporary file to the primary one. *)
Definition rename_tmp (ok : bool) : FM unit :=
  at_once (fun fs => match ok, tmp fs with
                     | true, Some bytes => (mkFiles (Some bytes) (backup fs) None, Ok tt)
                     | _, _ => (fs, Err tt)
                     end).

Definition create_backup (w : WriteAnswer) : FM unit := fs_copy Primary Backup w.

Section persist.
(** [encode nonce c]: the configuration as JSON, sealed with AES-GCM under
    the device key; [decode] opens it and parses it, filling in empty
    identity fields. *)
Context (encode : nat -> Config -> list Z) (decode : list Z -> option Config).

Definition load_from_file (contents : option (list Z)) : option Config :=
  match contents with
  | None => None
  | Some [] => Some config_default
  | Some bytes =>
      match decode bytes with
      | None => None
      | Some c => match validate c with
                  | (c', []) => Some c'
                  | (_, _) => Some config_default
                  end
      end
  end.

(** [restore] is what [fs::copy] of the backup leaves in the primary. *)
Definition load (restore : list Z -> list Z) (fs : Files) : Files * Config :=
  match primary fs with
  | None => (fs, config_default)
  | Some _ =>
      match load_from_file (primary fs) with
      | Some c => (fs, c)
      | None =>
          match backup fs with
          | None => (fs, config_default)
          | Some b =>
              match load_from_file (Some b) with
              | Some c => (set_primary (Some (restore b)) fs, c)
              | None => (fs, config_default)
              end
          end
      end
  end.

(** [ConfigPersistence::save]: the steps of one save.  (Two saves that
    overlap share the temporary file, see [overlapping_saves_tear].) *)
Definition save_file (ans : SaveAnswers) (nonce : nat) (c : Config) : FM unit :=
  at_once (se_guard (negb (dir_ok ans)) tt) ;;>
  wait! exists_ := at_once (se_get (fun fs => bool_decide (is_Some (primary fs)))) in
  (if exists_ : bool then catch_async (create_backup (backup_write ans)) ;;> Done (Ok tt)
   else Done (Ok tt)) ;;>
  at_once (se_guard (negb (sealed ans)) tt) ;;>
  fs_write Tmp (encode nonce c) (tmp_write ans) ;;>
  rename_tmp (rename_ok ans).

(** *** The steps of a save

    As long as it is not renamed, the temporary file and the backup are all
    that changes. *)

Lemma write_through (I : Files -> Prop) p cuts ok bytes old fs Q :
  p ≠ Primary ->
  (∀ b fs, I fs -> I (put p (Some b) fs)) ->
  I fs -> file p fs = Some old ->
  (∀ fs', I fs' -> Q (Err tt) fs') ->
  (∀ fs', I fs' -> file p fs' = Some (old ++ bytes) ->
     (∀ q, q ≠ p -> file q fs' = file q fs) -> Q (Ok tt) fs') ->
  through I Q (write_cut p cuts ok bytes) fs.
Proof.
  intros Hp Hput. revert bytes old fs Q. induction cuts as [|n cuts IH]; intros bytes old fs Q Hi Ho He Hq; cbn [write_cut].
  - destruct ok; [|by split; [|apply He]].
    apply through_at_once; [done|]. unfold se_modify. rewrite Ho. cbn.
    split; [by apply Hput|]. apply Hq; [by apply Hput|by destruct p|].
    intros q Hne. by destruct p, q.
  - apply through_then, through_at_once; [done|]. unfold se_modify. rewrite Ho. cbn. split; [by apply Hput|].
    apply (IH _ (old ++ take n bytes)); [by apply Hput|by destruct p|done|].
    intros fs' Hi' Hf Hoth. apply Hq; [done| |].
    + by rewrite Hf, <- app_assoc, take_drop.
    + intros q Hne. rewrite Hoth by done. by destruct p, q.
Qed.

Lemma fs_write_through (I : Files -> Prop) p w bytes fs Q :
  p ≠ Primary -> (∀ b fs, I fs -> I (put p (Some b) fs)) -> I fs ->
  (∀ fs', I fs' -> Q (Err tt) fs') ->
  (∀ fs', I fs' -> file p fs' = Some bytes -> (∀ q, q ≠ p -> file q fs' = file q fs) -> Q (Ok tt) fs') ->
  through I Q (fs_write p bytes w) fs.
Proof.
  intros Hp Hput Hi He Hq. unfold fs_write. destruct (wr_created w); [|by split; [|apply He]].
  apply through_then, through_at_once; [done|]. cbn. split; [by apply Hput|].
  apply (write_through I p _ _ bytes []); [done|done|by apply Hput|by destruct p|done|].
  intros fs' Hi' Hf Hoth. apply Hq; [done..|]. intros q Hne. rewrite Hoth by done. by destruct p, q.
Qed.

(** Through a whole save the primary file is the old one or the new one, and
    the new one at the end of a successful save. *)
Definition old_or_new (nonce : nat) (c : Config) (old : option (list Z)) (fs : Files) : Prop :=
  primary fs = old \/ primary fs = Some (encode nonce c).

Lemma save_file_through ans nonce c fs :
  through (old_or_new nonce c (primary fs))
    (fun r fs' => r = Ok tt -> primary fs' = Some (encode nonce c))
    (save_file ans nonce c) fs.
Proof.
  set (I := old_or_new _ _ _).
  assert (Hput : ∀ p, p ≠ Primary -> ∀ b fs, I fs -> I (put p (Some b) fs)) by (by intros []).
  assert (H0 : I fs) by (by left).
  assert (Hend : ∀ fs', I fs' ->
    through I (fun r fs' => r = Ok tt -> primary fs' = Some (encode nonce c))
      (at_once (se_guard (negb (sealed ans)) tt) ;;>
       fs_write Tmp (encode nonce c) (tmp_write ans) ;;> rename_tmp (rename_ok ans)) fs').
  { intros fs' Hi. apply through_then, through_at_once; [done|]. unfold se_guard.
    destruct (negb (sealed ans)); [done|]. split; [done|]. apply through_then, fs_write_through; auto.
    - done.
    - intros fs2 Hi2 Hf _. cbn in Hf. apply through_at_once; [done|]. rewrite Hf.
      destruct (rename_ok ans); [|done]. by split; [right|]. }
  unfold save_file. apply through_then, through_at_once; [done|]. unfold se_guard at 1.
  destruct (negb (dir_ok ans)); [done|]. split; [done|].
  apply through_then, through_at_once; [done|]. unfold se_get. cbv beta iota. split; [done|].
  apply through_then. case_bool_decide as He; [|by split; [|apply Hend]].
  apply through_then, through_catch, through_then, through_at_once; [done|].
  destruct He as [b Hb]. cbn [file]. rewrite Hb. cbv beta iota delta [ok_or]. split; [done|].
  assert (Hdone : ∀ fs', I fs' -> I fs' /\ through I (fun r fs' => r = Ok tt -> primary fs' = Some (encode nonce c))
      (at_once (se_guard (negb (sealed ans)) tt) ;;>
       fs_write Tmp (encode nonce c) (tmp_write ans) ;;> rename_tmp (rename_ok ans)) fs')
    by (intros; split; [|apply Hend]; done).
  apply fs_write_through; [done|by apply Hput|done|exact Hdone|].
  intros fs' Hi _ _. by apply Hdone.
Qed.

(** Opening a sealed configuration gives it back, and a sealed one is not
    empty. *)
Context (decode_encode : ∀ n c, decode (encode n c) = Some c)
        (encode_nonempty : ∀ n c, encode n c ≠ []).

Lemma load_encoded n c : config_valid c -> load_from_file (Some (encode n c)) = Some c.
Proof.
  intros Hv. unfold load_from_file. rewrite decode_encode.
  rewrite (validate_of_valid c Hv). pose proof (encode_nonempty n c).
  by destruct (encode n c).
Qed.

(** C9: Saving is atomic under crashes: when a readable configuration is on
    disk and one save runs, then wherever the program ends in it -- after any
    number of the single changes of the file system it makes, any of which
    may fail -- loading gives the old configuration or the new one, never
    defaults and never the backup; a save that reports success gives the new
    one.  (What was written is taken to stay written; nothing is flushed, so
    that a power cut may also lose it is not covered.) *)
Theorem save_crash_safe restore ans nonce c old fs :
  config_valid c -> load_from_file (primary fs) = Some old ->
  (∀ n, let '(fs', _) := after n (save_file ans nonce c) fs in
        (load restore fs').2 = old \/ (load restore fs').2 = c)
  /\ (let '(fs', r) := alone (save_file ans nonce c) fs in
      r = Ok tt -> (load restore fs').2 = c).
Proof.
  intros Hv Hold.
  assert (Hnew : ∀ g, primary g = Some (encode nonce c) -> (load restore g).2 = c).
  { intros g Hg. unfold load. by rewrite Hg, load_encoded. }
  assert (Hkeep : ∀ g, primary g = primary fs -> (load restore g).2 = old).
  { intros g Hg. unfold load. rewrite Hg, Hold. by destruct (primary fs). }
  pose proof (save_file_through ans nonce c fs) as Ht. split.
  - intros n. pose proof (through_after _ _ _ n _ Ht) as H.
    destruct (after n _ fs) as [fs' m]. destruct H as [H|H]; [left|right]; auto.
  - apply through_alone in Ht as [H _]. destruct (alone _ fs) as [fs' r]. auto.
Qed.

(** A damaged configuration file is recovered from its backup: when the
    file cannot be opened and the backup holds a saved configuration, that
    configuration is loaded and the file is written back, so that the next
    load finds it without the backup. *)
Theorem load_recovers_from_backup nonce c fs bytes b' :
  config_valid c -> primary fs = Some bytes -> load_from_file (Some bytes) = None ->
  backup fs = Some (encode nonce c) ->
  let '(fs', loaded) := load (fun b => b) fs in
  loaded = c /\ (load (fun b => b) (set_backup b' fs')).2 = c.
Proof.
  intros Hv Hp Hbad Hb. unfold load at 1. rewrite Hp, Hbad, Hb, load_encoded by done.
  split; [done|]. unfold load.
  cbn [primary set_primary set_backup backup snd]. by rewrite load_encoded.
Qed.
(** Every answer good, and all written by one call each. *)
Definition good_write : WriteAnswer := mkWrite true [] true.
Definition good_answers : SaveAnswers := mkSaves true good_write true good_write true.

(** A save that goes well keeps the configuration before it as the backup. *)
Lemma save_keeps_backup nonce c bytes fs :
  primary fs = Some bytes ->
  alone (save_file good_answers nonce c) fs
  = (mkFiles (Some (encode nonce c)) (Some bytes) None, Ok tt).
Proof.
  intros Hp. destruct fs as [p b t]. cbn in Hp. subst p.
  unfold save_file, good_answers. cbn. done.
Qed.

(** Two saves that overlap share the temporary file: the second empties it,
    the first renames it, and if the program ends there the configuration is
    an empty file, which loads as the defaults. *)
Lemma overlapping_saves_tear restore nonce c bytes fs :
  primary fs = Some bytes ->
  let '(fs', _) := scheduled (replicate 8 0%nat ++ replicate 7 1%nat ++ [0%nat]) fs
                     [save_file good_answers nonce c; save_file good_answers (S nonce) c] in
  primary fs' = Some [] /\ (load restore fs').2 = config_default.
Proof. intros Hp. destruct fs as [p b t]. cbn in Hp. by subst p. Qed.
End persist.
