(* ===== verification/Auth.v ===== *)
(** * Local authentication (arkkvm/src/web.rs, middleware.rs)

    The HTTP handlers for setup, login, logout and password changes, and the
    middlewares in front of the protected routes: cookies, CSRF token and the
    access list of agents.  bcrypt is a parameter; a request carries the
    clock, the fresh UUIDs its handler draws and the outcome of each save. *)

From S2P Require Import Prelude Session UsbPrefs Config ConfigProofs.

Inductive Status : Set :=
| BadRequest | Unauthorized | Forbidden | Conflict | InternalServerError.

Definition HttpError : Type := Status * string.

Inductive Method : Set := GET | POST | PUT | DELETE | CONNECT.

#[export] Instance Method_eq_dec : EqDecision Method.
Proof. solve_decision. Defined.

(** What the handlers read of a request. *)
Record HttpRequest := mkHttp {
  h_method : Method;
  h_path : string;
  h_host : option string;
  h_authority : option string;
  h_origin : option string;
  h_referer : option string;
  cookie_user : option string;
  cookie_agent : option string;
  h_csrf : option string;
  q_csrf : option string;
  is_websocket : bool
}.

(** What the environment decides during a request. *)
Record HttpEnv := mkEnv {
  now : Z; token_uuid : string; csrf_uuid : string;
  save1 : bool; save2 : bool; save3 : bool }.

(** The answer: the auth cookie set for a role and the CSRF token. *)
Record ApiResponse := mkApi { message : string; set_cookie : option (SessionRole * string);
                              resp_csrf : option string }.

Definition parse_client_type (raw : option string) : Result string SessionRole :=
  match raw with
  | None => Ok User
  | Some s => if is_empty s then Ok User
              else ok_or (role_parse s) ("Invalid clientType: " +:+ s)
  end.

(** ** Same-origin check (web.rs)

    Header values are visible ASCII, on which [to_lowercase] and
    [to_ascii_lowercase] agree. *)

(** The rest after the first occurrence of a pattern. *)
Fixpoint after_first (p s : string) : option string :=
  if starts_with p s then Some (String.substring (String.length p) (String.length s) s)
  else match s with
       | EmptyString => None
       | String _ s' => after_first p s'
       end.

Definition extract_host_authority (s : string) : string :=
  let s := trim s in
  let after_scheme := default s (after_first "://" s) in
  default after_scheme (head (split_on "/" after_scheme)).

(** [rsplit_once(':')] *)
Fixpoint rsplit_colon (s : string) : option (string * string) :=
  match s with
  | EmptyString => None
  | String a s' =>
      match rsplit_colon s' with
      | Some (h, p) => Some (String a h, p)
      | None => if Ascii.eqb a ":" then Some (EmptyString, s') else None
      end
  end.

Definition normalize_host_for_compare (s : string) : string :=
  let s := trim s in
  match rsplit_colon s with
  | Some (host, port) => if String.eqb port "80" || String.eqb port "443" then host else s
  | None => s
  end.

Definition host_of (s : string) : string := to_ascii_lowercase (extract_host_authority s).
Definition norm_host (s : string) : string := to_ascii_lowercase (normalize_host_for_compare s).

Definition validate_setup_origin_referer (r : HttpRequest) : Result HttpError unit :=
  let request_host := match h_host r with
                      | Some s => Some (host_of s)
                      | None => host_of <$> h_authority r
                      end in
  match request_host with
  | None => Err (Forbidden, "Missing Host")
  | Some h =>
      if is_empty h then Err (Forbidden, "Missing Host") else
      let request_host_norm := norm_host h in
      if match h_origin r with
         | Some o => negb (String.eqb (norm_host (host_of o)) request_host_norm)
         | None => false
         end
      then Err (Forbidden, "Origin not allowed")
      else if match h_referer r with
              | Some o => negb (String.eqb (norm_host (host_of o)) request_host_norm)
              | None => false
              end
      then Err (Forbidden, "Referer not allowed")
      else Ok tt
  end.

(** ** Middlewares (middleware.rs) *)

(** The authenticated role, [None] when no password is configured. *)
Definition auth_middleware (t : Z) (r : HttpRequest) (c : Config)
  : Result HttpError (option SessionRole) :=
  if no_password c then Ok None
  else match cookie_user r, cookie_agent r with
  | Some _, Some _ => Err (BadRequest, "Ambiguous auth cookies")
  | Some tok, None => if validate_auth_token_for_role t User tok c then Ok (Some User)
                      else Err (Unauthorized, "Unauthorized")
  | None, Some tok => if validate_auth_token_for_role t Agent tok c then Ok (Some Agent)
                      else Err (Unauthorized, "Unauthorized")
  | None, None => Err (Unauthorized, "Unauthorized")
  end.

Definition csrf_middleware (t : Z) (r : HttpRequest) (role : option SessionRole) (c : Config)
  : Result HttpError unit :=
  if no_password c then Ok tt else
  let token := if is_websocket r then trim (default "" (q_csrf r))
               else default "" (trim <$> h_csrf r) in
  let role := default User role in
  if negb (validate_csrf_token_for_role t role token c)
  then Err (Unauthorized, "Invalid or missing CSRF token") else Ok tt.

Definition role_acl_middleware (r : HttpRequest) (role : option SessionRole)
  : Result HttpError unit :=
  match role with
  | Some Agent =>
      if starts_with "/cloud/" (h_path r) then Err (Forbidden, "Forbidden for agent")
      else if starts_with "/auth/" (h_path r) then
        let is_logout := bool_decide (h_method r = POST) && String.eqb (h_path r) "/auth/logout" in
        if negb is_logout then Err (Forbidden, "Forbidden for agent") else Ok tt
      else Ok tt
  | _ => Ok tt
  end.

(** The chain in front of the protected routes. *)
Definition protected (t : Z) (r : HttpRequest) (c : Config) : Result HttpError (option SessionRole) :=
  match auth_middleware t r c with
  | Err e => Err e
  | Ok role =>
      match csrf_middleware t r role c with
      | Err e => Err e
      | Ok _ => match role_acl_middleware r role with
                | Err e => Err e
                | Ok _ => Ok role
                end
      end
  end.

(** ** Handlers (web.rs) *)

Section handlers.
(** bcrypt: [hash password] (with a fresh salt; [None] on an error) and
    [verify password hashed]. *)
Context (bcrypt_hash : string -> option string) (bcrypt_verify : string -> string -> bool).

Definition HM (A : Type) : Type := SE ConfigManager HttpError A.

(** [map_err(|_| internal_server_error(brief))] on a manager operation. *)
Definition or500 {A} (brief : string) (m : CM A) : HM A :=
  fun s => let '(s', r) := m s in
           (s', result_map_err (fun _ => (InternalServerError, brief)) r).

Definition some_or500 {A} (brief : string) (o : option A) : HM A :=
  se_of_result (ok_or o (InternalServerError, brief)).

Definition validate_password (password : string) (c : Config) : bool :=
  match hashed_password c with
  | Some h => bcrypt_verify password h
  | None => false
  end.

Definition get_config {A} (f : Config -> A) : HM A := se_get (fun s => f (mem s)).

Definition handle_login_local (e : HttpEnv) (r : HttpRequest)
    (password : string) (client_type : option string) : HM ApiResponse :=
  se_of_result (validate_setup_origin_referer r) ;;;
  let! mode := get_config local_auth_mode in
  se_guard (String.eqb mode "noPassword")
    (BadRequest, "Login is disabled in noPassword mode") ;;;
  let! role := se_of_result (result_map_err (fun m => (BadRequest, m))
                               (parse_client_type client_type)) in
  let! valid := get_config (validate_password password) in
  se_guard (negb valid) (Unauthorized, "Invalid password") ;;;
  let! csrf := or500 "Failed to save configuration"
                 (set_auth_token_for_role (save1 e) (now e) (csrf_uuid e) role
                    (Some (token_uuid e))) in
  let! csrf := some_or500 "Failed to save configuration" csrf in
  let! saved := get_config (fun c => auth_token (slot_of role c)) in
  se_guard (negb (bool_decide (saved = Some (token_uuid e))))
    (InternalServerError, "Failed to save configuration") ;;;
  se_ret (mkApi "Login successful" (Some (role, token_uuid e)) (Some csrf)).

(** [auth] is the role the middleware put in the depot. *)
Definition handle_logout (e : HttpEnv) (r : HttpRequest) (auth : option SessionRole)
  : HM ApiResponse :=
  se_of_result (validate_setup_origin_referer r) ;;;
  let role := default User auth in
  or500 "Failed to save configuration"
    (set_auth_token_for_role (save1 e) (now e) (csrf_uuid e) role None) ;;;
  se_ret (mkApi "Logout successful" None None).

Definition create_password_local (e : HttpEnv) (r : HttpRequest) (password : string)
  : HM ApiResponse :=
  se_of_result (validate_setup_origin_referer r) ;;;
  let! h := get_config hashed_password in
  let! mode := get_config local_auth_mode in
  se_guard (bool_decide (is_Some h)) (BadRequest, "Password already set") ;;;
  se_guard (negb (String.eqb mode "noPassword")) (BadRequest, "Password mode is not enabled") ;;;
  se_guard (is_empty password) (BadRequest, "Invalid request") ;;;
  let! hashed := some_or500 "Failed to hash password" (bcrypt_hash password) in
  or500 "Failed to save password" (set_hashed_password (save1 e) (Some hashed)) ;;;
  let! csrf := or500 "Failed to save configuration"
                 (set_auth_token (save2 e) (now e) (csrf_uuid e) (Some (token_uuid e))) in
  let! csrf := some_or500 "Failed to save configuration" csrf in
  or500 "Failed to save configuration" (set_auth_mode (save3 e) "password") ;;;
  se_ret (mkApi "Password set successfully" (Some (User, token_uuid e)) (Some csrf)).

Definition modify_password_local (e : HttpEnv) (r : HttpRequest) (old_password new_password : string)
  : HM ApiResponse :=
  se_of_result (validate_setup_origin_referer r) ;;;
  let! h := get_config hashed_password in
  let! mode := get_config local_auth_mode in
  se_guard (bool_decide (h = None)) (BadRequest, "Password is not set") ;;;
  se_guard (negb (String.eqb mode "password")) (BadRequest, "Password mode is not enabled") ;;;
  se_guard (is_empty old_password || is_empty new_password) (BadRequest, "Invalid request") ;;;
  let! valid := get_config (validate_password old_password) in
  se_guard (negb valid) (BadRequest, "Incorrect old password") ;;;
  let! hashed := some_or500 "Failed to hash new password" (bcrypt_hash new_password) in
  or500 "Failed to save new password" (set_hashed_password (save1 e) (Some hashed)) ;;;
  let! csrf := or500 "Failed to save configuration"
                 (set_auth_token (save2 e) (now e) (csrf_uuid e) (Some (token_uuid e))) in
  let! csrf := some_or500 "Failed to save configuration" csrf in
  se_ret (mkApi "Password updated successfully" (Some (User, token_uuid e)) (Some csrf)).

Definition disable_local_password (e : HttpEnv) (r : HttpRequest) (password : string)
  : HM ApiResponse :=
  se_of_result (validate_setup_origin_referer r) ;;;
  let! h := get_config hashed_password in
  let! mode := get_config local_auth_mode in
  se_guard (bool_decide (h = None)) (BadRequest, "Password is not set") ;;;
  se_guard (negb (String.eqb mode "password")) (BadRequest, "Password mode is not enabled") ;;;
  se_guard (is_empty password) (BadRequest, "Invalid request") ;;;
  let! valid := get_config (validate_password password) in
  se_guard (negb valid) (BadRequest, "Incorrect password") ;;;
  or500 "Failed to save configuration" (set_hashed_password (save1 e) None) ;;;
  or500 "Failed to save configuration" (clear_all_auth_tokens (save2 e)) ;;;
  or500 "Failed to save configuration" (set_auth_mode (save3 e) "noPassword") ;;;
  se_ret (mkApi "Password disabled successfully" None None).

Record SetupRequest := mkSetup {
  su_auth_mode : string; su_password : option string; su_microphone : option bool }.

(** The settings of other subsystems the setup makes on the way (audio, UI,
    updates; then USB devices and the microphone) either all succeed or the
    handler returns with an error. *)
Record SetupEnv := mkSetupEnv {
  settings_ok : bool; save_mic : bool; usb_ok : bool; save_mode : bool }.

Definition handle_device_setup (e : HttpEnv) (se : SetupEnv) (r : HttpRequest) (req : SetupRequest)
  : HM ApiResponse :=
  se_of_result (validate_setup_origin_referer r) ;;;
  let! mode := get_config local_auth_mode in
  let! h := get_config hashed_password in
  se_guard (negb (is_empty mode) || bool_decide (is_Some h))
    (BadRequest, "Device is already set up") ;;;
  se_guard (negb (String.eqb (su_auth_mode req) "password")
            && negb (String.eqb (su_auth_mode req) "noPassword"))
    (BadRequest, "Invalid localAuthMode") ;;;
  se_guard (negb (settings_ok se)) (InternalServerError, "Failed to config settings") ;;;
  or500 "Failed to save microphone emulation"
    (set_microphone_emulation (save_mic se) (default false (su_microphone req))) ;;;
  se_guard (negb (usb_ok se)) (InternalServerError, "Failed to config usb devices") ;;;
  or500 "Failed to save config" (set_auth_mode (save_mode se) (su_auth_mode req)) ;;;
  if String.eqb (su_auth_mode req) "password" then
    let! password := se_of_result (ok_or (su_password req)
                       (BadRequest, "Password is required for password mode")) in
    se_guard (is_empty password) (BadRequest, "Password is required for password mode") ;;;
    let! hashed := some_or500 "Failed to hash password" (bcrypt_hash password) in
    or500 "Failed to save password" (set_hashed_password (save1 e) (Some hashed)) ;;;
    let! csrf := or500 "Failed to save config"
                   (set_auth_token (save2 e) (now e) (csrf_uuid e) (Some (token_uuid e))) in
    let! csrf := some_or500 "Failed to save config" csrf in
    se_ret (mkApi "Device setup completed successfully" (Some (User, token_uuid e)) (Some csrf))
  else
    or500 "Failed to save config" (set_hashed_password (save1 e) None) ;;;
    or500 "Failed to save config" (clear_all_auth_tokens (save2 e)) ;;;
    se_ret (mkApi "Device setup completed successfully" None None).

(** The configuration part of the [resetConfig] RPC (jsonrpc.rs). *)
Definition reset_config_fields (c : Config) : Config :=
  let d := config_default in
  let c := with_macros (keyboard_macros d) c in
  let c := with_display (display_max_brightness d) (display_dim_after_sec d)
             (display_off_after_sec d) c in
  let c := with_auth_mode (local_auth_mode d) c in
  let c := with_hashed_password (hashed_password d) c in
  let c := with_slots (mkSlot (auth_token (user_slot d)) (csrf_token (user_slot c))
                         (expires_at (user_slot c))) (agent_slot c) c in
  let c := with_usb (Pref.with_target (Pref.file_transfer_target (cfg_usb d))
                       (Pref.with_devices (Pref.usb_devices (cfg_usb d)) (cfg_usb c))) c in
  let c := with_microphone (microphone_emulation d) c in
  let c := with_switches (cfg_mcp_enabled d) (cfg_ssh_forwarding_enabled d) c in
  with_media (virtual_media_list d) c.

(** ** All of it: one HTTP request *)

Inductive AuthRequest : Type :=
| RLogin (password : string) (client_type : option string)
| RLogout
| RCreatePassword (password : string)
| RModifyPassword (old new : string)
| RDisablePassword (password : string)
| RSetup (se : SetupEnv) (req : SetupRequest).

(** The route of each request. *)
Definition route (q : AuthRequest) : Method * string :=
  match q with
  | RLogin _ _ => (POST, "/auth/login-local")
  | RLogout => (POST, "/auth/logout")
  | RCreatePassword _ => (POST, "/auth/password-local")
  | RModifyPassword _ _ => (PUT, "/auth/password-local")
  | RDisablePassword _ => (DELETE, "/auth/local-password")
  | RSetup _ _ => (POST, "/device/setup")
  end.

Definition routed (q : AuthRequest) (r : HttpRequest) : HttpRequest :=
  mkHttp (route q).1 (route q).2 (h_host r) (h_authority r) (h_origin r) (h_referer r)
    (cookie_user r) (cookie_agent r) (h_csrf r) (q_csrf r) (is_websocket r).

Definition serve (e : HttpEnv) (r : HttpRequest) (q : AuthRequest) : HM ApiResponse :=
  let r := routed q r in
  let guarded (k : option SessionRole -> HM ApiResponse) : HM ApiResponse :=
    let! p := get_config (protected (now e) r) in
    let! role := se_of_result p in k role in
  match q with
  | RLogin p ct => handle_login_local e r p ct
  | RSetup se req => handle_device_setup e se r req
  | RLogout => guarded (handle_logout e r)
  | RCreatePassword p => guarded (fun _ => create_password_local e r p)
  | RModifyPassword o n => guarded (fun _ => modify_password_local e r o n)
  | RDisablePassword p => guarded (fun _ => disable_local_password e r p)
  end.
End handlers.

(** ** Updates of a valid configuration *)

Lemma update_valid f s :
  config_valid (f (mem s)) ->
  update true f s = (mkManager (f (mem s)) (f (mem s)), Ok tt).
Proof.
  intros Hv. unfold update, update_locked, se_bind, save. by rewrite (validate_of_valid _ Hv).
Qed.

Lemma with_slots_valid u a c : config_valid c -> config_valid (with_slots u a c).
Proof. by intros []; split. Qed.
Lemma with_slot_valid r s c : config_valid c -> config_valid (with_slot r s c).
Proof. destruct r; apply with_slots_valid. Qed.
Lemma with_hashed_valid h c : config_valid c -> config_valid (with_hashed_password h c).
Proof. by intros []; split. Qed.
Lemma with_microphone_valid m c : config_valid c -> config_valid (with_microphone m c).
Proof. by intros []; split. Qed.
Lemma with_mode_valid m c :
  m ∈ [""; "password"; "noPassword"] -> config_valid c -> config_valid (with_auth_mode m c).
Proof. by intros Hm []; split. Qed.

Create HintDb cfg.
#[export] Hint Resolve with_slots_valid with_slot_valid with_hashed_valid
  with_microphone_valid : cfg.

(** ** Which tokens pass *)

Lemma token_accepts t r tok c :
  no_password c = false ->
  validate_auth_token_for_role t r tok c = true <->
  auth_token (slot_of r c) = Some tok /\ tok ≠ "" /\
  ∃ exp, expires_at (slot_of r c) = Some exp /\ (t < exp)%Z.
Proof.
  intros Hp. unfold validate_auth_token_for_role, not_expired, token_matches. rewrite Hp.
  destruct (slot_of r c) as [a cs [exp|]]; cbn; [|split; [done|by intros (_ & _ & ? & ? & _)]].
  rewrite andb_true_iff, Z.ltb_lt. destruct a as [a|]; [|split; [by intros [_ ?]|by intros [? _]]].
  rewrite andb_true_iff, negb_true_iff, String.eqb_eq.
  split.
  - intros (Ht & Hne & ->). split_and!; [done|by intros ->|eauto].
  - intros ([= ->] & Hne & exp' & [= <-] & Ht). split_and!; [done| |done]. by destruct tok.
Qed.

Lemma slot_with_slot r r' s c :
  slot_of r' (with_slot r s c) = if bool_decide (r = r') then s else slot_of r' c.
Proof. by destruct r, r'. Qed.

Lemma no_password_with_slot r s c : no_password (with_slot r s c) = no_password c.
Proof. by destruct r. Qed.

Section auth.
Context (bcrypt_hash : string -> option string) (bcrypt_verify : string -> string -> bool).

Let serve := serve bcrypt_hash bcrypt_verify.

(** ** Login *)

(** C6: Logging in opens the session it promises: with the right password on
    a valid configuration in password mode, the answer carries a cookie and
    a CSRF token with which, and only with which, requests pass as the role
    that logged in, for the next seven days; the other role's session is
    untouched. *)
Theorem login_opens_session e r password client_type role s :
  config_valid (mem s) -> local_auth_mode (mem s) = "password" ->
  validate_setup_origin_referer (routed (RLogin password client_type) r) = Ok tt ->
  parse_client_type client_type = Ok role ->
  validate_password bcrypt_verify password (mem s) = true ->
  save1 e = true -> token_uuid e ≠ "" -> csrf_uuid e ≠ "" -> trim (csrf_uuid e) = csrf_uuid e ->
  ∃ s', serve e r (RLogin password client_type) s =
          (s', Ok (mkApi "Login successful" (Some (role, token_uuid e)) (Some (csrf_uuid e))))
    /\ (∀ t tok, validate_auth_token_for_role t role tok (mem s') = true <->
                 tok = token_uuid e /\ (t < now e + 604800)%Z)
    /\ (∀ r', role ≠ r' -> slot_of r' (mem s') = slot_of r' (mem s))
    /\ (∀ t r', (t < now e + 604800)%Z ->
          (match role with User => cookie_user r' | Agent => cookie_agent r' end) = Some (token_uuid e) ->
          (match role with User => cookie_agent r' | Agent => cookie_user r' end) = None ->
          h_csrf r' = Some (csrf_uuid e) -> is_websocket r' = false ->
          role_acl_middleware r' (Some role) = Ok tt ->
          protected t r' (mem s') = Ok (Some role)).
Proof.
  intros Hv Hm Ho Hr Hp Hs Ht Hc Htrim.
  set (slot := mkSlot (Some (token_uuid e)) (Some (csrf_uuid e))
                 (Some (now e + AUTH_TOKEN_VALIDITY_SECS)%Z)).
  set (c' := with_slot role slot (mem s)).
  assert (Hnp : no_password c' = false).
  { unfold c'. rewrite no_password_with_slot. unfold no_password. by rewrite Hm. }
  assert (Hsl : slot_of role c' = slot).
  { unfold c'. rewrite slot_with_slot. by rewrite bool_decide_true. }
  exists (mkManager c' c'). split.
  - unfold serve, Auth.serve. unfold handle_login_local, se_bind, se_of_result at 1. rewrite Ho.
    unfold get_config, se_get. rewrite Hm. cbn [String.eqb]. unfold se_guard at 1. cbn.
    unfold se_of_result. rewrite Hr. cbn. rewrite Hp. unfold se_guard. cbn.
    unfold or500, se_bind, se_ret. rewrite Hs, update_valid by auto with cfg. cbn.
    fold slot. fold c'. rewrite Hsl. by rewrite bool_decide_true.
  - cbn [mem]. split_and!.
    + intros t tok. rewrite (token_accepts _ _ _ _ Hnp), Hsl. unfold slot. cbn.
      unfold AUTH_TOKEN_VALIDITY_SECS. split.
      * intros ([= ->] & _ & exp & [= <-] & Hlt). split; [done|lia].
      * intros [-> Hlt]. split_and!; [done|done|]. eexists. split; [done|lia].
    + intros r' Hne. unfold c'. rewrite slot_with_slot. by rewrite bool_decide_false.
    + intros t r' Hlt Hc1 Hc2 Hcs Hws Hacl. unfold protected, auth_middleware. rewrite Hnp.
      assert (Hval : validate_auth_token_for_role t role (token_uuid e) c' = true).
      { apply (token_accepts _ _ _ _ Hnp). rewrite Hsl. split_and!; [done|done|].
        eexists. split; [done|]. unfold AUTH_TOKEN_VALIDITY_SECS. lia. }
      assert (Hcsrf : csrf_middleware t r' (Some role) c' = Ok tt).
      { unfold csrf_middleware, validate_csrf_token_for_role. rewrite Hnp, Hws, Hcs. cbn.
        rewrite Htrim, Hsl. unfold slot, not_expired, token_matches. cbn.
        destruct (Z.ltb_spec t (now e + AUTH_TOKEN_VALIDITY_SECS)) as [|Hge];
          [|unfold AUTH_TOKEN_VALIDITY_SECS in Hge; lia].
        rewrite String.eqb_refl. by destruct (csrf_uuid e). }
      destruct role; rewrite Hc1, Hc2, Hval, Hcsrf, Hacl; done.
Qed.

(** ** Refusals leave the configuration alone *)

Lemma serve_guarded_refused e r q s :
  (match q with RLogin _ _ | RSetup _ _ => False | _ => True end) ->
  (∃ err, protected (now e) (routed q r) (mem s) = Err err) ->
  ∃ err, serve e r q s = (s, Err err).
Proof.
  intros Hq [err Hp]. exists err. unfold serve, Auth.serve.
  destruct q; try done; unfold get_config, se_bind, se_get, se_of_result; by rewrite Hp.
Qed.






(** Logging out revokes the session: after a successful logout in password
    mode, no token passes for the role that logged out, at any time. *)
Theorem logout_revokes e r s s' resp role :
  config_valid (mem s) -> no_password (mem s) = false ->
  protected (now e) (routed RLogout r) (mem s) = Ok (Some role) ->
  serve e r RLogout s = (s', Ok resp) ->
  ∀ t tok, validate_auth_token_for_role t role tok (mem s') = false
           /\ validate_csrf_token_for_role t role tok (mem s') = false.
Proof.
  intros Hv Hnp Hp. unfold serve, Auth.serve, get_config, se_bind, se_get, se_of_result.
  rewrite Hp. unfold handle_logout, se_bind, se_of_result.
  destruct (validate_setup_origin_referer _); [|done]. unfold or500. cbn [default].
  assert (Hm : ∀ ok, mem (set_auth_token_for_role ok (now e) (csrf_uuid e) role None s).1
                     = with_slot role empty_slot (mem s)).
  { intros ok. unfold set_auth_token_for_role, se_bind, se_ret.
    pose proof (update_cases ok (with_slot role (mkSlot None None None)) s) as H.
    destruct (update _ _ s) as [s1 [u|e']]; cbn; destruct H as [-> _];
      by rewrite validate_of_valid by auto with cfg. }
  specialize (Hm (save1 e)). unfold from_option, id.
  destruct (set_auth_token_for_role (save1 e) _ _ _ _ s) as [s1 [c|e']]; cbn; [|done].
  intros [= -> _] t tok. cbn in Hm. rewrite Hm.
  unfold validate_auth_token_for_role, validate_csrf_token_for_role.
  rewrite no_password_with_slot, Hnp, slot_with_slot, bool_decide_true by done. done.
Qed.

(** ** What a password change leaves valid *)

(** Changing the password ends the user's sessions but not the agent's:
    afterwards the only user token that passes is the new one, while every
    agent token that passed before still passes. *)
Theorem password_change_keeps_agent_session e r old new s s' resp :
  config_valid (mem s) ->
  modify_password_local bcrypt_hash bcrypt_verify e r old new s = (s', Ok resp) ->
  (∀ t tok, validate_auth_token_for_role t User tok (mem s') = true -> tok = token_uuid e)
  /\ (∀ t tok, validate_auth_token_for_role t Agent tok (mem s') =
               validate_auth_token_for_role t Agent tok (mem s)).
Proof.
  intros Hv. unfold modify_password_local, get_config; se_unfold.
  destruct (validate_setup_origin_referer r); [|done].
  destruct (bool_decide (hashed_password (mem s) = None)); [done|].
  destruct (String.eqb_spec (local_auth_mode (mem s)) "password") as [Hmode|]; [|done]. cbn [negb].
  destruct (_ || _)%bool; [done|]. destruct (negb _); [done|].
  unfold some_or500, se_of_result. destruct (bcrypt_hash new) as [hashed|]; [|done]. cbn [ok_or].
  unfold or500, set_hashed_password, set_auth_token, set_auth_token_for_role, se_bind, se_ret.
  pose proof (update_cases (save1 e) (with_hashed_password (Some hashed)) s) as H1.
  destruct (update (save1 e) _ s) as [s1 [u|e1]]; cbn [result_map_err]; [|done].
  destruct H1 as [Hm1 _]. rewrite validate_of_valid in Hm1 by auto with cfg. cbn [fst] in Hm1.
  match goal with |- context [update (save2 e) ?f s1] =>
    pose proof (update_cases (save2 e) f s1) as H2; destruct (update (save2 e) f s1) as [s2 [u2|e2]] end;
    cbn [result_map_err]; [|done].
  destruct H2 as [Hm2 _]. rewrite validate_of_valid in Hm2.
  2: { rewrite Hm1. auto with cfg. }
  cbn. intros [= -> _]. rewrite Hm2, Hm1. cbn [fst].
  split.
  - intros t tok. intros Hval.
    apply token_accepts in Hval as ([= ->] & _); [done|]. unfold no_password. cbn. by rewrite Hmode.
  - intros t tok. done.
Qed.

(** Resetting the configuration forgets the password but not the agent's
    session: when the device is then set up again in password mode, a token
    an agent got before the reset still passes. *)
Theorem reset_keeps_agent_session e se r req s s' resp t tok :
  config_valid (mem s) -> no_password (mem s) = false ->
  validate_auth_token_for_role t Agent tok (mem s) = true ->
  su_auth_mode req = "password" ->
  handle_device_setup bcrypt_hash e se r req
    (mkManager (reset_config_fields (mem s)) (disk s)) = (s', Ok resp) ->
  validate_auth_token_for_role t Agent tok (mem s') = true.
Proof.
  intros Hv Hnp Htok Hmode.
  set (s0 := mkManager (reset_config_fields (mem s)) (disk s)).
  assert (Hv0 : config_valid (mem s0)).
  { unfold s0, reset_config_fields. cbn. split; cbn; [lia|constructor|lia|set_solver]. }
  unfold handle_device_setup, get_config; se_unfold.
  destruct (validate_setup_origin_referer r); [|done].
  destruct (_ || _)%bool; [done|]. rewrite Hmode. cbn [String.eqb negb andb Ascii.eqb Bool.eqb].
  destruct (negb (settings_ok se)); [done|].
  unfold or500, set_microphone_emulation, set_auth_mode, set_hashed_password, set_auth_token,
    set_auth_token_for_role, se_bind, se_ret.
  match goal with |- context [update (save_mic se) ?f s0] =>
    pose proof (update_cases (save_mic se) f s0) as H1;
    destruct (update (save_mic se) f s0) as [s1 [u1|e1]] end; cbn [result_map_err]; [|done].
  destruct H1 as [Hm1 _]. rewrite validate_of_valid in Hm1 by auto with cfg. cbn [fst] in Hm1.
  destruct (negb (usb_ok se)); [done|].
  pose proof (update_cases (save_mode se) (with_auth_mode "password") s1) as H2.
  destruct (update (save_mode se) _ s1) as [s2 [u2|e2]]; cbn [result_map_err]; [|done].
  destruct H2 as [Hm2 _]. rewrite validate_of_valid in Hm2.
  2: { rewrite Hm1. apply with_mode_valid; [set_solver|auto with cfg]. }
  cbn [fst] in Hm2.
  destruct (su_password req) as [pw|]; cbn [ok_or]; [|done]. destruct (is_empty pw); [done|].
  unfold some_or500, se_of_result. destruct (bcrypt_hash pw) as [hashed|]; cbn [ok_or]; [|done].
  pose proof (update_cases (save1 e) (with_hashed_password (Some hashed)) s2) as H3.
  destruct (update (save1 e) _ s2) as [s3 [u3|e3]]; cbn [result_map_err]; [|done].
  destruct H3 as [Hm3 _]. rewrite validate_of_valid in Hm3.
  2: { rewrite Hm2, Hm1. apply with_hashed_valid, with_mode_valid; [set_solver|auto with cfg]. }
  cbn [fst] in Hm3.
  match goal with |- context [update (save2 e) ?f s3] =>
    pose proof (update_cases (save2 e) f s3) as H4;
    destruct (update (save2 e) f s3) as [s4 [u4|e4]] end; cbn [result_map_err]; [|done].
  destruct H4 as [Hm4 _]. rewrite validate_of_valid in Hm4.
  2: { rewrite Hm3, Hm2, Hm1. apply with_slot_valid, with_hashed_valid, with_mode_valid;
         [set_solver|auto with cfg]. }
  cbn. intros [= -> _]. rewrite Hm4, Hm3, Hm2, Hm1. cbn [fst].
  apply token_accepts in Htok; [|done]. apply token_accepts; [done|]. exact Htok.
Qed.

(** ** A setup without a password *)

Definition locked_out (c : Config) : Prop :=
  local_auth_mode c = "password" /\ hashed_password c = None
  /\ user_slot c = empty_slot /\ agent_slot c = empty_slot.

Lemma locked_out_refuses e r q s :
  locked_out (mem s) -> ∃ err, serve e r q s = (s, Err err).
Proof.
  intros (Hm & Hh & Hu & Ha).
  assert (Hnp : no_password (mem s) = false) by (unfold no_password; by rewrite Hm).
  destruct q as [pw ct| | | | |se req]; try (apply serve_guarded_refused; [done|];
    unfold protected, auth_middleware; rewrite Hnp;
    unfold validate_auth_token_for_role; rewrite Hnp; cbn [slot_of]; rewrite Hu, Ha;
    destruct (cookie_user _), (cookie_agent _); by eexists).
  - unfold serve, Auth.serve, handle_login_local, se_bind, se_of_result, get_config, se_get.
    destruct (validate_setup_origin_referer _); [|by eexists]. rewrite Hm. cbn.
    destruct (parse_client_type ct); [|by eexists]. cbn.
    unfold validate_password. rewrite Hh. by eexists.
  - unfold serve, Auth.serve, handle_device_setup, se_bind, se_of_result, get_config, se_get.
    destruct (validate_setup_origin_referer _); [|by eexists]. rewrite Hm. by eexists.
Qed.

(** A setup in password mode that brings no password locks the device: it
    is answered with an error, but the mode is already stored, and from then
    on every setup, login, logout and password request, whatever it brings
    and however many are tried, is refused. *)
Theorem setup_without_password_locks_out e se r pw mic s qs :
  mem s = config_default ->
  validate_setup_origin_referer (routed (RSetup se (mkSetup "password" pw mic)) r) = Ok tt ->
  pw = None \/ pw = Some "" ->
  settings_ok se = true -> save_mic se = true -> usb_ok se = true -> save_mode se = true ->
  let '(s1, res) := serve e r (RSetup se (mkSetup "password" pw mic)) s in
  res = Err (BadRequest, "Password is required for password mode")
  /\ ∀ s2 rs,
       (s2, rs) = fold_left (fun '(s, rs) '(e, r, q) =>
                               let '(s, res) := serve e r q s in (s, res :: rs)) qs (s1, []) ->
       s2 = s1 /\ Forall (fun res => is_ok res = false) rs.
Proof.
  intros Hs Ho Hpw H1 H2 H3 H4.
  assert (Hv : config_valid config_default) by (split; cbn; [lia|constructor|lia|set_solver]).
  set (c1 := with_auth_mode "password"
               (with_microphone (Some (default false mic)) config_default)).
  assert (Hv1 : config_valid c1) by (apply with_mode_valid; [set_solver|auto with cfg]).
  assert (Hres : serve e r (RSetup se (mkSetup "password" pw mic)) s
            = (mkManager c1 c1, Err (BadRequest, "Password is required for password mode"))).
  { unfold serve, Auth.serve, handle_device_setup, se_bind, se_of_result, get_config, se_get.
    rewrite Ho, Hs. unfold se_guard. rewrite H1, H3. cbn [su_auth_mode su_microphone su_password].
    cbn. unfold or500, set_microphone_emulation. rewrite H2.
    rewrite update_valid by (rewrite Hs; auto with cfg). cbn.
    unfold set_auth_mode. rewrite H4.
    rewrite update_valid by (cbn [mem]; rewrite Hs; exact Hv1). cbn [mem]. rewrite Hs.
    by destruct Hpw as [-> | ->]. }
  rewrite Hres. split; [done|].
  assert (Hl : locked_out (mem (mkManager c1 c1))) by done.
  revert Hl. generalize (mkManager c1 c1). intros s1 Hl.
  assert (Hgen : ∀ rs0, Forall (fun res : Result HttpError ApiResponse => is_ok res = false) rs0 ->
    ∀ s2 rs, (s2, rs) = fold_left (fun '(s, rs) '(e, r, q) =>
                let '(s, res) := serve e r q s in (s, res :: rs)) qs (s1, rs0) ->
      s2 = s1 /\ Forall (fun res => is_ok res = false) rs).
  { induction qs as [|[[e' r'] q'] qs IH]; cbn; intros rs0 Hrs0 s2 rs; [by intros [= -> ->]|].
    destruct (locked_out_refuses e' r' q' s1 Hl) as [err ->]. apply IH. by constructor. }
  apply Hgen. constructor.
Qed.
End auth.
