(* ===== verification/Signaling.v ===== *)
(** * Signaling (arkkvm/src/web.rs, cloud/websocket.rs)

    How an offer becomes a session on the three entry points: the HTTP
    endpoint, the local WebSocket and the cloud relay.  Creating the peer
    connection, exchanging the descriptions and sending a frame belong to the
    WebRTC and WebSocket libraries: an offer carries their outcomes. *)

From S2P Require Import Prelude Session AppState IpForward ControlLease LeaseProofs.
From S2P Require Import SessionPlane PlaneProofs Config ConfigProofs Auth.

(** [created]: the addresses of the new session and of its peer connection,
    if creating it succeeds. *)
Record OfferEnv := mkOffer {
  created : option (nat * nat); exchange_ok : bool; send_ok : bool; unmount_ok : bool }.

Definition offer_session (id : string) (role : SessionRole) (cloud : bool)
    (client : option string) (ptr peer : nat) : Session :=
  mkSession ptr id role (Some peer) cloud client.

(** Frames sent to the client. *)
Inductive Frame : Set := FAnswer | FError (code : string).

#[export] Instance Frame_eq_dec : EqDecision Frame.
Proof. solve_decision. Defined.

(** ** HTTP: [handle_webrtc_session] *)

Definition handle_webrtc_session (env : OfferEnv) (uuid : string) (client_type : option string)
    (cookie_role : option SessionRole) (p : Plane) : Plane * Result HttpError unit :=
  match parse_client_type client_type with
  | Err e => (p, Err (BadRequest, e))
  | Ok role =>
      if match cookie_role with Some c => negb (bool_decide (c = role)) | None => false end
      then (p, Err (Forbidden, "clientType does not match auth cookie role"))
      else match created env with
      | None => (p, Err (InternalServerError, "Failed to create session"))
      | Some (ptr, peer) =>
          let s := offer_session uuid role false None ptr peer in
          let p := new_session_register s p in
          if negb (exchange_ok env) then
            ((remove_and_close_session (unmount_ok env) uuid p).1,
             Err (InternalServerError, "Failed to exchange offer"))
          else match claim_and_activate_session s p with
          | (p, Accepted _) => (p, Ok tt)
          | (p, RejectedOccupied) =>
              ((remove_and_close_session (unmount_ok env) uuid p).1,
               Err (Conflict, "Agent session slot is already occupied"))
          | (p, RejectedMcpDisabled) =>
              ((remove_and_close_session (unmount_ok env) uuid p).1,
               Err (Forbidden, "MCP is disabled on the device; enable MCP before agent control"))
          | (p, NotRegistered) =>
              ((remove_and_close_session (unmount_ok env) uuid p).1,
               Err (InternalServerError, "Session is no longer registered"))
          end
      end
  end.

(** ** Local WebSocket *)

(** The upgrade: the role in the query, checked against the cookie. *)
Definition ws_upgrade (query : option string) (cookie_role : option SessionRole)
  : Result HttpError (option SessionRole) :=
  match match query with
        | Some raw => match role_parse raw with
                      | Some role => Ok (Some role)
                      | None => Err (BadRequest, "Invalid clientType: " +:+ raw)
                      end
        | None => Ok None
        end with
  | Err e => Err e
  | Ok ws_role =>
      if match cookie_role with
         | Some c => negb (bool_decide (default User ws_role = c))
         | None => false
         end
      then Err (Forbidden, "clientType does not match auth cookie role")
      else Ok ws_role
  end.

(** The role of an offer: [Ok None] is the mismatch that is answered with an
    error frame and closes the socket. *)
Definition ws_offer_role (ws_role : option SessionRole) (client_type : option string)
  : Result string (option SessionRole) :=
  match ws_role with
  | Some bound =>
      match client_type ≫= role_parse with
      | None => Err "offer clientType required and must match ws clientType"
      | Some offer_role => if bool_decide (offer_role = bound) then Ok (Some bound) else Ok None
      end
  | None => result_map Some (parse_client_type client_type)
  end.

(** The ["offer"] message: the frames sent and whether the socket closes. *)
Definition ws_offer (env : OfferEnv) (ws_role : option SessionRole) (client_type : option string)
    (connection_id : string) (p : Plane) : Plane * list Frame * Result string bool :=
  match ws_offer_role ws_role client_type with
  | Err e => (p, [], Err e)
  | Ok None => (p, [FError "clientTypeMismatch"], Ok true)
  | Ok (Some role) =>
      match created env with
      | None => (p, [], Ok false)
      | Some (ptr, peer) =>
          let s := offer_session connection_id role false None ptr peer in
          let p := new_session_register s p in
          let drop_it p := (remove_and_close_session (unmount_ok env) connection_id p).1 in
          if negb (exchange_ok env) then (drop_it p, [], Ok false)
          else match claim_and_activate_session s p with
          | (p, Accepted _) =>
              if negb (send_ok env) then (drop_it p, [], Err "Failed to send answer")
              else (p, [FAnswer], Ok false)
          | (p, RejectedOccupied) => (drop_it p, [FError "agentSlotOccupied"], Ok true)
          | (p, RejectedMcpDisabled) => (drop_it p, [FError "mcpDisabled"], Ok true)
          | (p, NotRegistered) => (drop_it p, [], Err "session is no longer registered")
          end
      end
  end.

(** The end of the socket: the session goes, and with it its entries in the
    socket table and in the ICE queue. *)
Definition ws_closed (unmount_ok : bool) (connection_id : string) (p : Plane) : Plane :=
  let p := (remove_and_close_session unmount_ok connection_id p).1 in
  let a := papp p in
  set_papp (mkAppState (sessions a) (role_sessions a) (delete connection_id (sockets a))
              (delete connection_id (websocket_ice_queue a))) p.

(** ** Cloud: [create_cloud_webrtc_session] *)

Definition create_cloud_webrtc_session (env : OfferEnv) (uuid : string)
    (client_type client_id : option string) (p : Plane) : Plane * list Frame * Result string unit :=
  match parse_client_type client_type with
  | Err e => (p, [], Err e)
  | Ok role =>
      match created env with
      | None => (p, [], Err "Failed to create WebRTC session")
      | Some (ptr, peer) =>
          let s := offer_session uuid role true client_id ptr peer in
          let p := new_session_register s p in
          let drop_it p := (remove_and_close_session (unmount_ok env) uuid p).1 in
          if negb (exchange_ok env) then (drop_it p, [], Err "Failed to exchange SDP offer")
          else match claim_and_activate_session s p with
          | (p, Accepted _) =>
              if negb (send_ok env)
              then (drop_it p, [], Err "Failed to send session response to cloud")
              else (p, [FAnswer], Ok tt)
          | (p, RejectedOccupied) =>
              (drop_it p, [FError "agentSlotOccupied"], Err "Agent session slot is already occupied")
          | (p, RejectedMcpDisabled) =>
              (drop_it p, [FError "mcpDisabled"], Err "MCP is disabled on the device")
          | (p, NotRegistered) => (drop_it p, [], Err "session is no longer registered")
          end
      end
  end.

(** ** Theorems *)

Lemma register_lookup s p :
  sessions (papp (new_session_register s p)) = <[session_id s := s]> (sessions (papp p)).
Proof.
  unfold new_session_register, add_session, papp.
  destruct (peer_connection s); cbn; destruct (_ && _)%bool, (sessions _ !! _); done.
Qed.

Lemma claim_sessions s p :
  sessions (papp (claim_and_activate_session s p).1) = sessions (papp p).
Proof.
  destruct (claim_and_activate_session s p) as [p' [prev| | |]] eqn:E; cbn.
  - by destruct (claim_accepted_slot s p p' prev E).
  - destruct (claim_world s p) as (? & ? & H). rewrite E in H. unfold papp. by rewrite H.
  - destruct (claim_world s p) as (? & ? & H). rewrite E in H. unfold papp. by rewrite H.
  - destruct (claim_world s p) as (? & ? & H). rewrite E in H. unfold papp. by rewrite H.
Qed.

Lemma drop_lookup ok id p : sessions (papp (remove_and_close_session ok id p).1) !! id = None.
Proof.
  unfold remove_and_close_session, remove_session.
  pose proof (remove_session_inner_spec id None p) as H.
  destruct (remove_session_inner id None p) as [p' [s|]]; cbn.
  - unfold papp. rewrite cleanup_same_world. cbn. destruct H as (_ & _ & H & _).
    unfold papp in H. rewrite H. apply lookup_delete_eq.
  - destruct H as [Hw H]. unfold papp. rewrite Hw. fold (papp p).
    destruct (sessions (papp p) !! id) as [s|] eqn:E; [|done].
    destruct (H s eq_refl) as (? & ? & _). done.
Qed.

(** The session of an offer holds its slot. *)
Definition holds_slot (p : Plane) (id : string) (role : SessionRole) : Prop :=
  role_sessions (papp p) !! role = Some id
  /\ ∃ s, sessions (papp p) !! id = Some s /\ session_role s = role.

Lemma accepted_holds s p p' prev :
  sessions (papp p) !! session_id s = Some s ->
  claim_and_activate_session s p = (p', Accepted prev) -> holds_slot p' (session_id s) (session_role s).
Proof.
  intros Hreg H. destruct (claim_accepted_slot s p p' prev H) as [Hs He].
  split; [done|]. exists s. by rewrite He.
Qed.

(** The claim of a session that was just registered. *)
Lemma register_claim s p :
  match claim_and_activate_session s (new_session_register s p) with
  | (p', Accepted _) => holds_slot p' (session_id s) (session_role s)
  | (p', _) => True
  end.
Proof.
  destruct (claim_and_activate_session s _) as [p' [prev| | |]] eqn:E; try done.
  eapply accepted_holds; [|exact E]. rewrite register_lookup. apply lookup_insert_eq.
Qed.

(** C4: An offer either ends with an answer and a registered session that holds
    its role's slot, or leaves no session behind: on all three entry points,
    when the answer could not be produced, claimed or sent, nothing is
    registered under the id of the offer. *)
Theorem offers_leave_no_orphan env uuid client_type cookie ws_role conn client_id p :
  sessions (papp p) !! uuid = None ->
  (let '(p', r) := handle_webrtc_session env uuid client_type cookie p in
   match r with
   | Ok _ => ∃ role, parse_client_type client_type = Ok role /\ holds_slot p' uuid role
   | Err _ => sessions (papp p') !! uuid = None
   end)
  /\ (let '(p', frames, r) := create_cloud_webrtc_session env uuid client_type client_id p in
      match r with
      | Ok _ => frames = [FAnswer] /\
                ∃ role, parse_client_type client_type = Ok role /\ holds_slot p' uuid role
      | Err _ => (FAnswer ∉ frames) /\ sessions (papp p') !! uuid = None
      end)
  /\ (let '(p', frames, r) := ws_offer env ws_role client_type conn p in
      if bool_decide (frames = [FAnswer])
      then ∃ role, ws_offer_role ws_role client_type = Ok (Some role) /\ holds_slot p' conn role
      else (FAnswer ∉ frames) /\ (p' = p \/ sessions (papp p') !! conn = None)).
Proof.
  intros Hfresh. split_and!.
  - unfold handle_webrtc_session. destruct (parse_client_type client_type) as [role|e]; [|done].
    destruct (match cookie with Some c => _ | None => false end); [done|].
    destruct (created env) as [[ptr peer]|]; [|done].
    set (s := offer_session uuid role false None ptr peer).
    destruct (exchange_ok env); cbn [negb]; [|apply drop_lookup].
    pose proof (register_claim s p) as Hc.
    destruct (claim_and_activate_session s _) as [p' [prev| | |]]; try apply drop_lookup.
    eauto.
  - unfold create_cloud_webrtc_session.
    destruct (parse_client_type client_type) as [role|e]; [|split; [set_solver|done]].
    destruct (created env) as [[ptr peer]|]; [|split; [set_solver|done]].
    set (s := offer_session uuid role true client_id ptr peer).
    destruct (exchange_ok env); cbn [negb]; [|split; [set_solver|apply drop_lookup]].
    pose proof (register_claim s p) as Hc.
    destruct (claim_and_activate_session s _) as [p' [prev| | |]];
      try (split; [set_solver|apply drop_lookup]).
    destruct (send_ok env); cbn [negb]; [eauto|split; [set_solver|apply drop_lookup]].
  - unfold ws_offer. destruct (ws_offer_role ws_role client_type) as [[role|]|e].
    2,3: rewrite bool_decide_false by done; split; [set_solver|by left].
    destruct (created env) as [[ptr peer]|].
    2: rewrite bool_decide_false by done; split; [set_solver|by left].
    set (s := offer_session conn role false None ptr peer).
    destruct (exchange_ok env); cbn [negb].
    2: rewrite bool_decide_false by done; split; [set_solver|right; apply drop_lookup].
    pose proof (register_claim s p) as Hc.
    destruct (claim_and_activate_session s _) as [p' [prev| | |]];
      [destruct (send_ok env); cbn [negb]|..].
    2-5: rewrite bool_decide_false by done; split; [set_solver|right; apply drop_lookup].
    rewrite bool_decide_true by done. eauto.
Qed.

(** On a socket opened with an explicit client type
    a session gets the role its cookie was issued for: an accepted
    upgrade fixes the role of every later offer, and it is the cookie's. *)
Theorem bound_socket_keeps_role query cookie role client_type role' :
  ws_upgrade (Some query) (Some cookie) = Ok role ->
  ws_offer_role role client_type = Ok (Some role') -> role' = cookie.
Proof.
  unfold ws_upgrade. destruct (role_parse query) as [r|]; [|done].
  case_bool_decide as Hd; cbn [negb]; [|done]. intros [= <-]. cbn in *.
  destruct (client_type ≫= role_parse) as [o|]; [|done]. case_bool_decide; congruence.
Qed.

(** ** The legacy socket *)

Definition legacy_world : World :=
  mkWorld app_new control_default 0 0 0 true ∅ [] [] 0.
Definition legacy_plane : Plane := mkPlane legacy_world ∅ ∅ ∅ [] [] [] false.

(** A socket opened without a client type and with a user cookie is not
    bound: an offer on it with client type agent is answered as an agent
    session.  After an earlier user offer on the same socket, one session of
    role agent then sits in both role slots, the user's included. *)
Theorem legacy_socket_role_confusion :
  ws_upgrade None (Some User) = Ok None /\
  let '(p1, f1, _) := ws_offer (mkOffer (Some (1%nat, 11%nat)) true true true) None None "c" legacy_plane in
  let '(p2, f2, _) := ws_offer (mkOffer (Some (2%nat, 12%nat)) true true true) None (Some "agent") "c" p1 in
  f1 = [FAnswer] /\ f2 = [FAnswer]
  /\ session_role <$> (sessions (papp p2) !! "c") = Some Agent
  /\ role_sessions (papp p2) !! User = Some "c" /\ role_sessions (papp p2) !! Agent = Some "c".
Proof. vm_compute. repeat split; reflexivity. Qed.
