(* ===== verification/Hid.v ===== *)
(** * HID devices of the USB sidecar (crates/usb_devices/src/devices/hid_*.rs)

    Report encodings, the handle that gates reports while the gadget changes,
    the thread that owns the device file, and the non-blocking write loop.
    The three devices share the structure of handle and thread and differ in
    their reports, so handle and thread are generic in the report type; the
    keyboard also has a thread that reads its LEDs. *)

From S2P Require Import Prelude.

(** ** Events (events.rs) *)

Inductive ChangeRequest : Set := RequestChange | PrepareChange | ChangeCompleted | ChangeCanceled.

Inductive ChangeResponse : Set := Proceed | Reject (reason : string).

#[export] Instance ChangeRequest_eq_dec : EqDecision ChangeRequest.
Proof. solve_decision. Defined.

(** ** Reports

    Bytes are values in [0 .. 255].  [keyboard_report] copies the keys into a
    slice of [min(len, 6)] bytes: with more than six keys the lengths differ
    and [copy_from_slice] panics ([None]). *)

Definition keyboard_report (mods : Z) (keys : list Z) : option (list Z) :=
  if (length keys =? Nat.min (length keys) 6)%nat
  then Some ([mods; 0%Z] ++ keys ++ replicate (6 - length keys) 0%Z)
  else None.

Definition abs_mouse_report (x y btns : Z) : list Z :=
  [1%Z; btns;
   as_u8 (Z.land x 255); as_u8 (Z.land (Z.shiftr x 8) 255);
   as_u8 (Z.land y 255); as_u8 (Z.land (Z.shiftr y 8) 255)].

Definition abs_mouse_wheel (y x : Z) : option (list Z) :=
  if (y =? 0)%Z && (x =? 0)%Z then None else Some [2%Z; as_u8 y; as_u8 x].

Definition rel_mouse_report (dx dy btns : Z) : list Z := [1%Z; btns; as_u8 dx; as_u8 dy; 0%Z].

Record KeyboardState := mkKbState {
  num_lock : bool; caps_lock : bool; scroll_lock : bool; compose : bool; kana : bool }.

#[export] Instance KeyboardState_eq_dec : EqDecision KeyboardState.
Proof. solve_decision. Defined.

Definition parse_keyboard_state (byte : Z) : KeyboardState :=
  mkKbState (negb (Z.land byte 1 =? 0)%Z) (negb (Z.land byte 2 =? 0)%Z)
    (negb (Z.land byte 4 =? 0)%Z) (negb (Z.land byte 8 =? 0)%Z) (negb (Z.land byte 16 =? 0)%Z).

(** ** The write loop (hid_io.rs)

    A script says how each system call goes: a write takes [n] bytes or fails,
    or would block, in which case the deadline may be over, or [poll] reports
    the device ready, times out or fails.  With the script used up the loop is
    still waiting ([None]). *)

Inductive IoErrorKind : Set := WriteZero | TimedOut | OtherIo (e : string).

Inductive PollOutcome : Set := PollReady | PollTimeout | PollError (e : string).

Inductive WriteCall : Set :=
| Wrote (n : nat)
| WouldBlock (deadline_over : bool) (p : PollOutcome)
| WriteFails (e : string).

Fixpoint write_all_with_timeout (script : list WriteCall) (buf : list Z)
  : list Z * option (Result IoErrorKind unit) :=
  match buf with
  | [] => ([], Some (Ok tt))
  | _ =>
      match script with
      | [] => ([], None)
      | Wrote 0 :: _ => ([], Some (Err WriteZero))
      | Wrote n :: script' =>
          let '(sent, r) := write_all_with_timeout script' (drop n buf) in
          (take n buf ++ sent, r)
      | WouldBlock true _ :: _ => ([], Some (Err TimedOut))
      | WouldBlock false PollTimeout :: _ => ([], Some (Err TimedOut))
      | WouldBlock false (PollError e) :: _ => ([], Some (Err (OtherIo e)))
      | WouldBlock false PollReady :: script' => write_all_with_timeout script' buf
      | WriteFails e :: _ => ([], Some (Err (OtherIo e)))
      end
  end.

(** ** Handle and thread *)

Section handle.
Context {R : Type}.

Inductive HidCmd : Type :=
| Stop
| OpenDev (path : string)
| Report (d : R).

(** The handle, its channel to the thread (a full channel blocks the sender,
    so nothing is lost), the thread's file and what it wrote, as pairs of
    the device and the report. *)
Record HidHandle := mkHid {
  enabled : bool;
  udc_updating : bool;
  warned_disabled : bool;
  warned_updating : bool;
  device_path : option string;
  queue : list HidCmd;
  file : option string;
  written : list (string * R)
}.

Definition hid_new (en : bool) : HidHandle := mkHid en false false false None [] None [].

Definition send (c : HidCmd) (h : HidHandle) : HidHandle :=
  mkHid (enabled h) (udc_updating h) (warned_disabled h) (warned_updating h) (device_path h)
    (queue h ++ [c]) (file h) (written h).
Definition set_flags (en up wd wu : bool) (h : HidHandle) : HidHandle :=
  mkHid en up wd wu (device_path h) (queue h) (file h) (written h).
Definition set_path (p : option string) (h : HidHandle) : HidHandle :=
  mkHid (enabled h) (udc_updating h) (warned_disabled h) (warned_updating h) p
    (queue h) (file h) (written h).

Definition set_enabled (en : bool) (h : HidHandle) : HidHandle :=
  if en
  then set_flags true (udc_updating h) false (warned_updating h) h
  else send Stop (set_flags false (udc_updating h) (warned_disabled h) (warned_updating h) h).

Definition submit (d : R) (h : HidHandle) : HidHandle :=
  if negb (enabled h)
  then set_flags (enabled h) (udc_updating h) true (warned_updating h) h
  else if udc_updating h
  then set_flags (enabled h) (udc_updating h) (warned_disabled h) true h
  else send (Report d) h.

(** [resolved] is the outcome of [resolve_hid_device_path]. *)
Definition sync_device_path (resolved : option string) (h : HidHandle) : HidHandle :=
  if negb (enabled h) then set_path None h else set_path resolved h.

Definition open_device_if_ready (h : HidHandle) : HidHandle :=
  if negb (enabled h) then h
  else match device_path h with
       | Some path => send (OpenDev path) h
       | None => h
       end.

Definition close_device (h : HidHandle) : HidHandle := send Stop h.

Definition on_change_request (resolved : option string) (req : ChangeRequest) (h : HidHandle)
  : HidHandle * ChangeResponse :=
  match req with
  | RequestChange =>
      (set_flags (enabled h) true (warned_disabled h) (warned_updating h) h, Proceed)
  | PrepareChange => (set_path None (close_device h), Proceed)
  | ChangeCompleted | ChangeCanceled =>
      let h := open_device_if_ready (sync_device_path resolved h) in
      (set_flags (enabled h) false (warned_disabled h) false h, Proceed)
  end.

(** One turn of the thread's loop: [can_open] tells whether opening a path
    succeeds.  A write that fails is reported and dropped: the report was
    handed to the device either way. *)
Definition io_step (can_open : string -> bool) (h : HidHandle) : HidHandle :=
  match queue h with
  | [] => h
  | c :: q =>
      let '(f, w) :=
        match c with
        | Stop => (None, written h)
        | OpenDev path => (if can_open path then Some path else None, written h)
        | Report d => (file h, match file h with
                               | Some dev => written h ++ [(dev, d)]
                               | None => written h
                               end)
        end in
      mkHid (enabled h) (udc_updating h) (warned_disabled h) (warned_updating h)
        (device_path h) q f w
  end.

(** The thread empties the channel. *)
Fixpoint io_steps (can_open : string -> bool) (n : nat) (h : HidHandle) : HidHandle :=
  match n with
  | O => h
  | S n' => io_steps can_open n' (io_step can_open h)
  end.

Definition drain (can_open : string -> bool) (h : HidHandle) : HidHandle :=
  io_steps can_open (length (queue h)) h.
End handle.
Arguments HidCmd R : clear implicits.
Arguments HidHandle R : clear implicits.

(** The devices: the mouse threads take these reports, the keyboard's these. *)
Inductive AbsReport : Type := AbsMouse (d : list Z) | MouseWheel (d : list Z).

Definition HidKbHandle : Type := HidHandle (list Z).
Definition HidAbsHandle : Type := HidHandle AbsReport.
Definition HidRelHandle : Type := HidHandle (list Z).

Definition kb_keyboard_report (mods : Z) (keys : list Z) (h : HidKbHandle) : option HidKbHandle :=
  (fun d => submit d h) <$> keyboard_report mods keys.

Definition abs_submit_report (x y btns : Z) (h : HidAbsHandle) : HidAbsHandle :=
  submit (AbsMouse (abs_mouse_report x y btns)) h.

Definition abs_submit_wheel (y x : Z) (h : HidAbsHandle) : HidAbsHandle :=
  match abs_mouse_wheel y x with
  | Some d => submit (MouseWheel d) h
  | None => h
  end.

Definition rel_submit_report (dx dy btns : Z) (h : HidRelHandle) : HidRelHandle :=
  submit (rel_mouse_report dx dy btns) h.

Definition hid_kb_write_loop : (string -> bool) -> HidKbHandle -> HidKbHandle := io_step.
Definition hid_abs_io_loop : (string -> bool) -> HidAbsHandle -> HidAbsHandle := io_step.
Definition hid_rel_io_loop : (string -> bool) -> HidRelHandle -> HidRelHandle := io_step.

Definition kb_on_change_request : option string -> ChangeRequest -> HidKbHandle -> HidKbHandle * ChangeResponse :=
  on_change_request.
Definition abs_on_change_request : option string -> ChangeRequest -> HidAbsHandle -> HidAbsHandle * ChangeResponse :=
  on_change_request.
Definition rel_on_change_request : option string -> ChangeRequest -> HidRelHandle -> HidRelHandle * ChangeResponse :=
  on_change_request.

(** ** The LED thread *)

Inductive LedRead : Set := LedByte (b : Z) | LedEmpty | LedWouldBlock | LedError.

Record LedState := mkLed { led_file : bool; last_led : option KeyboardState; published : list KeyboardState }.

(** The inner read loop of one turn, over the outcomes of its reads. *)
Fixpoint led_read_loop (reads : list LedRead) (l : LedState) : LedState :=
  match reads with
  | [] => l
  | LedByte b :: reads' =>
      let state := parse_keyboard_state b in
      let l := mkLed (led_file l) (Some state)
                 (if bool_decide (last_led l = Some state) then published l
                  else published l ++ [state]) in
      led_read_loop reads' l
  | LedEmpty :: _ | LedWouldBlock :: _ => l
  | LedError :: _ => mkLed false None (published l)
  end.

(** ** Report theorems *)

(** What a host reads back from a report: sixteen-bit little-endian
    coordinates, a signed byte. *)
Definition le16 (lo hi : Z) : Z := (lo + 256 * hi)%Z.

Lemma as_u8_low x : as_u8 (Z.land x 255) = (x mod 256)%Z.
Proof.
  unfold as_u8, wrap8. change 255%Z with (Z.ones 8). rewrite Z.land_ones by lia.
  change (2 ^ 8)%Z with 256%Z. by rewrite Z.mod_mod.
Qed.

Lemma le16_roundtrip x :
  (0 <= x < 65536)%Z ->
  le16 (as_u8 (Z.land x 255)) (as_u8 (Z.land (Z.shiftr x 8) 255)) = x.
Proof.
  intros Hx. rewrite !as_u8_low. unfold le16. rewrite Z.shiftr_div_pow2 by lia.
  change (2 ^ 8)%Z with 256%Z.
  rewrite (Z.mod_small (x / 256) 256) by (split; [apply Z.div_pos|apply Z.div_lt_upper_bound]; lia).
  pose proof (Z.div_mod x 256). lia.
Qed.

Lemma as_i8_as_u8 z : (-128 <= z < 128)%Z -> as_i8 (as_u8 z) = z.
Proof.
  intros Hz. unfold as_i8, as_u8, wrap8. rewrite Z.mod_mod by lia.
  destruct (Z.ltb_spec (z mod 256) 128) as [Hl|Hl];
    pose proof (Z.div_mod z 256); pose proof (Z.mod_pos_bound z 256); lia.
Qed.

Lemma as_u8_range z : (0 <= as_u8 z < 256)%Z.
Proof. unfold as_u8, wrap8. apply Z.mod_pos_bound. lia. Qed.

(** Mouse reports carry what they were given: every byte is in range, the
    host reads back the absolute coordinates of the full sixteen-bit range,
    and the relative and wheel movements with their sign. *)
Theorem mouse_reports_roundtrip x y dx dy btns :
  (0 <= x < 65536)%Z -> (0 <= y < 65536)%Z ->
  (-128 <= dx < 128)%Z -> (-128 <= dy < 128)%Z -> (0 <= btns < 256)%Z ->
  (∃ x0 x1 y0 y1, abs_mouse_report x y btns = [1; btns; x0; x1; y0; y1]%Z
     /\ le16 x0 x1 = x /\ le16 y0 y1 = y /\ Forall (fun b => 0 <= b < 256)%Z [x0; x1; y0; y1])
  /\ (∃ bx byy, rel_mouse_report dx dy btns = [1; btns; bx; byy; 0]%Z
     /\ as_i8 bx = dx /\ as_i8 byy = dy)
  /\ (if (dy =? 0)%Z && (dx =? 0)%Z then abs_mouse_wheel dy dx = None
      else ∃ wy wx, abs_mouse_wheel dy dx = Some [2; wy; wx]%Z /\ as_i8 wy = dy /\ as_i8 wx = dx).
Proof.
  intros Hx Hy Hdx Hdy Hb. split_and!.
  - do 4 eexists. split; [reflexivity|]. split_and!; [by apply le16_roundtrip..|].
    repeat constructor; apply as_u8_range.
  - do 2 eexists. split; [reflexivity|]. by split; apply as_i8_as_u8.
  - unfold abs_mouse_wheel. destruct (_ && _)%bool; [done|].
    do 2 eexists. split; [reflexivity|]. by split; apply as_i8_as_u8.
Qed.

(** A keyboard report exists exactly for up to six keys (with more the call
    panics); it is the eight byte boot report: modifiers, a zero, the keys in
    order, zeros. *)
Theorem keyboard_report_layout mods keys :
  (keyboard_report mods keys = None <-> (6 < length keys)%nat)
  /\ ∀ d, keyboard_report mods keys = Some d ->
     length d = 8%nat /\ d !! 0%nat = Some mods /\ d !! 1%nat = Some 0%Z
     /\ (∀ i k, keys !! i = Some k -> d !! (2 + i)%nat = Some k)
     /\ (∀ i, (length keys <= i < 6)%nat -> d !! (2 + i)%nat = Some 0%Z).
Proof.
  unfold keyboard_report. destruct (Nat.eqb_spec (length keys) (Nat.min (length keys) 6)) as [He|He].
  - split; [split; [done|lia]|]. intros d [= <-]. split_and!; [|done|done| |].
    + cbn. rewrite length_app, length_replicate. lia.
    + intros i k Hk. change ((keys ++ replicate (6 - length keys) 0%Z) !! i = Some k).
      rewrite lookup_app_l; [done|]. by eapply lookup_lt_Some.
    + intros i Hi. change ((keys ++ replicate (6 - length keys) 0%Z) !! i = Some 0%Z).
      rewrite lookup_app_r by lia. apply lookup_replicate_2. lia.
  - split; [split; [lia|done]|done].
Qed.

(** What reaches the device is a prefix of the report, and it is all of it
    exactly when the loop returns success: a timeout, a zero-length write or
    an error never hides a complete report, and success never a partial one. *)
Theorem write_all_prefix script buf :
  let '(sent, r) := write_all_with_timeout script buf in
  (∃ rest, buf = sent ++ rest) /\ (sent = buf <-> r = Some (Ok tt)).
Proof.
  revert buf. induction script as [|c script IH]; intros [|b buf]; try (cbn; split; [by eexists|done]).
  assert (Hfail : ∀ e : IoErrorKind, (∃ rest, b :: buf = [] ++ rest) /\
            ([] = b :: buf <-> Some (Err e : Result IoErrorKind unit) = Some (Ok tt))).
  { intros e. by split; [eexists|]. }
  destruct c as [[|n]|[|] [| |e]|e]; cbn [write_all_with_timeout]; try apply Hfail; [|apply IH].
  specialize (IH (drop (S n) (b :: buf))).
  destruct (write_all_with_timeout script (drop (S n) (b :: buf))) as [sent r].
  destruct IH as [[rest Hrest] Hr]. split.
  - exists rest. rewrite <- app_assoc, <- Hrest. by rewrite take_drop.
  - rewrite <- Hr. split; [|intros ->; by rewrite take_drop].
    intros Heq. rewrite <- (take_drop (S n) (b :: buf)) in Heq at 2. by apply app_inv_head in Heq.
Qed.

(** ** The gate *)

Section gate.
Context {R : Type} (can_open : string -> bool).

(** What can happen to a handle while a change is under way. *)
Inductive HidOp : Type :=
| DoSubmit (d : R)
| DoSetEnabled (b : bool)
| DoIo.

Definition hid_op (o : HidOp) (h : HidHandle R) : HidHandle R :=
  match o with
  | DoSubmit d => submit d h
  | DoSetEnabled b => set_enabled b h
  | DoIo => io_step can_open h
  end.

Definition hid_run (ops : list HidOp) (h : HidHandle R) : HidHandle R :=
  fold_left (fun h o => hid_op o h) ops h.

(** The file once the thread has emptied the channel. *)
Definition after_cmd (f : option string) (c : HidCmd R) : option string :=
  match c with
  | Stop => None
  | OpenDev p => if can_open p then Some p else None
  | Report _ => f
  end.

Definition final_file (h : HidHandle R) : option string := fold_left after_cmd (queue h) (file h).

Definition reports_of (q : list (HidCmd R)) : list R :=
  omap (fun c => match c with Report d => Some d | _ => None end) q.

Lemma final_file_send c h : final_file (send c h) = after_cmd (final_file h) c.
Proof. unfold final_file. cbn. by rewrite fold_left_app. Qed.

Lemma io_step_final h : final_file (io_step can_open h) = final_file h.
Proof. unfold final_file, io_step. destruct (queue h) as [|[|p|d] q] eqn:E; cbn; rewrite ?E; done. Qed.

Lemma io_step_flags (h : HidHandle R) :
  enabled (io_step can_open h) = enabled h /\ udc_updating (io_step can_open h) = udc_updating h.
Proof. unfold io_step. by destruct (queue h) as [|[|p|d] q]. Qed.

(** What was written since, and what is still queued. *)
Definition accounted (h h' : HidHandle R) : Prop :=
  ∃ l, written h' = written h ++ l /\ (snd <$> l) ++ reports_of (queue h') `sublist_of` reports_of (queue h).

Lemma accounted_refl h : accounted h h.
Proof. exists []. by rewrite app_nil_r. Qed.

Lemma accounted_flags en up wd wu h : accounted h (set_flags en up wd wu h).
Proof. exists []. cbn. by rewrite app_nil_r. Qed.

Lemma accounted_trans h1 h2 h3 : accounted h1 h2 -> accounted h2 h3 -> accounted h1 h3.
Proof.
  intros (l & Hw & Hs) (l' & Hw' & Hs'). exists (l ++ l'). rewrite Hw', Hw, app_assoc.
  split; [done|]. rewrite fmap_app, <- app_assoc. etrans; [|exact Hs].
  by apply sublist_app.
Qed.

Lemma accounted_io h : accounted h (io_step can_open h).
Proof.
  unfold accounted, io_step. destruct (queue h) as [|[|p|d] q] eqn:E; cbn.
  - exists []. rewrite app_nil_r, E. done.
  - exists []. by rewrite app_nil_r.
  - exists []. by rewrite app_nil_r.
  - destruct (file h) as [dev|].
    + by exists [(dev, d)].
    + exists []. rewrite app_nil_r. cbn. split; [done|]. by apply sublist_cons.
Qed.

Lemma reports_app q1 q2 : reports_of (q1 ++ q2) = reports_of q1 ++ reports_of q2.
Proof. apply omap_app. Qed.

Lemma accounted_send_stop h : accounted h (send Stop h).
Proof. exists []. cbn. rewrite !app_nil_r, reports_app. cbn. by rewrite app_nil_r. Qed.

(** While the gadget is updating and the channel ends with the file closed,
    both stay so, and no new report gets in. *)
Lemma hid_op_quiet o h :
  udc_updating h = true -> final_file h = None ->
  udc_updating (hid_op o h) = true /\ final_file (hid_op o h) = None /\ accounted h (hid_op o h).
Proof.
  intros Hu Hf. destruct o as [d|[|]|]; cbn [hid_op].
  - unfold submit. rewrite Hu. destruct (negb (enabled h)); (split_and!; [done|done|apply accounted_flags]).
  - split_and!; [done|done|apply accounted_flags].
  - unfold set_enabled. split_and!; [done|by rewrite final_file_send|].
    eapply accounted_trans; [apply accounted_flags|apply accounted_send_stop].
  - destruct (io_step_flags h) as [_ ->]. rewrite io_step_final.
    split_and!; [done|done|apply accounted_io].
Qed.

Lemma hid_run_quiet ops h :
  udc_updating h = true -> final_file h = None ->
  udc_updating (hid_run ops h) = true /\ final_file (hid_run ops h) = None
  /\ accounted h (hid_run ops h).
Proof.
  revert h. induction ops as [|o ops IH]; intros h Hu Hf; cbn.
  { split_and!; [done|done|apply accounted_refl]. }
  destruct (hid_op_quiet o h Hu Hf) as (H1 & H2 & H3).
  destruct (IH _ H1 H2) as (G1 & G2 & G3). split_and!; [done|done|].
  by eapply accounted_trans.
Qed.

Lemma drain_spec h :
  queue (drain can_open h) = [] /\ file (drain can_open h) = final_file h
  /\ accounted h (drain can_open h).
Proof.
  unfold drain. remember (length (queue h)) as n eqn:Hn. revert h Hn.
  induction n as [|n IH]; intros h Hn; cbn.
  - unfold final_file. destruct (queue h); [|done]. split_and!; [done|done|apply accounted_refl].
  - destruct (IH (io_step can_open h)) as (H1 & H2 & H3).
    { unfold io_step. destruct (queue h) as [|[|p|d] q]; cbn in *; lia. }
    rewrite <- io_step_final. split_and!; [done|done|].
    eapply accounted_trans; [apply accounted_io|exact H3].
Qed.

(** No report reaches the hardware while the gadget is being changed: from
    the moment a handle approved and prepared a change, whatever is submitted
    and however it is enabled or disabled before the change ends, its thread
    closes the device, only reports queued before are still written, in
    order and without duplicates, and none submitted since ever is. *)
Theorem quiet_during_change resolved (h : HidHandle R) ops :
  let h1 := (on_change_request resolved PrepareChange
               (on_change_request resolved RequestChange h).1).1 in
  let h2 := drain can_open (hid_run ops h1) in
  file h2 = None /\ queue h2 = [] /\ device_path h1 = None
  /\ ∃ l, written h2 = written h ++ l /\ (snd <$> l) `sublist_of` reports_of (queue h).
Proof.
  cbv zeta. set (h1 := (on_change_request _ PrepareChange _).1).
  assert (Hu : udc_updating h1 = true) by done.
  assert (Hf : final_file h1 = None).
  { change (final_file (send Stop (on_change_request resolved RequestChange h).1) = None).
    by rewrite final_file_send. }
  destruct (hid_run_quiet ops h1 Hu Hf) as (_ & Hf2 & Ha).
  destruct (drain_spec (hid_run ops h1)) as (Hq & Hfile & Ha2).
  split_and!; [by rewrite Hfile|done|done|].
  destruct (accounted_trans _ _ _ Ha Ha2) as (l & Hw & Hs). exists l.
  rewrite Hq in Hs. cbn in Hs. rewrite app_nil_r in Hs. split; [done|].
  etrans; [exact Hs|]. cbn. rewrite reports_app. cbn. by rewrite app_nil_r.
Qed.

Lemma submit_all_queue (ds : list R) (h : HidHandle R) :
  enabled h = true -> udc_updating h = false ->
  let h' := fold_left (fun h d => submit d h) ds h in
  queue h' = queue h ++ (Report <$> ds) /\ file h' = file h /\ written h' = written h.
Proof.
  revert h. induction ds as [|d ds IH]; intros h He Hu; cbn; [by rewrite app_nil_r|].
  assert (Hsub : submit d h = send (Report d) h) by (unfold submit; by rewrite He, Hu).
  rewrite Hsub. destruct (IH (send (Report d) h)) as (H1 & H2 & H3); [done..|].
  rewrite H1, H2, H3. cbn. by rewrite <- app_assoc.
Qed.

Lemma drain_reports path (ds : list R) (h : HidHandle R) :
  file h = Some path -> queue h = Report <$> ds ->
  written (drain can_open h) = written h ++ ((fun d => (path, d)) <$> ds).
Proof.
  unfold drain. intros Hf Hq. rewrite Hq, length_fmap. revert h Hf Hq.
  induction ds as [|d ds IH]; intros h Hf Hq; cbn; [by rewrite app_nil_r|].
  rewrite IH; unfold io_step; rewrite Hq; cbn; [by rewrite Hf, <- app_assoc|done|done].
Qed.

(** After a change the device works again: when the change is over (or was
    called off) and the device path resolves and opens, every report
    submitted from then on is written to the new device, in order. *)
Theorem reports_flow_after_change req path (h : HidHandle R) (ds : list R) :
  (req = ChangeCompleted \/ req = ChangeCanceled) ->
  enabled h = true -> queue h = [] -> can_open path = true ->
  let h1 := (on_change_request (Some path) req h).1 in
  let h2 := drain can_open (fold_left (fun h d => submit d h) ds h1) in
  written h2 = written h ++ ((fun d => (path, d)) <$> ds).
Proof.
  intros Hreq He Hq Hopen. cbv zeta.
  set (h1 := (on_change_request (Some path) req h).1).
  assert (H1 : enabled h1 = true /\ udc_updating h1 = false /\ queue h1 = [OpenDev path]
               /\ written h1 = written h).
  { subst h1. destruct Hreq as [-> | ->]; cbn; unfold open_device_if_ready, sync_device_path;
      rewrite He; cbn; rewrite He; cbn; rewrite Hq; done. }
  destruct H1 as (He1 & Hu1 & Hq1 & Hw1). clearbody h1.
  destruct (submit_all_queue ds h1 He1 Hu1) as (Hq2 & _ & Hw2).
  set (h2 := fold_left _ ds h1) in *. clearbody h2. rewrite Hq1 in Hq2. cbn in Hq2.
  rewrite <- Hw1, <- Hw2. unfold drain. rewrite Hq2. cbn [length io_steps app].
  set (h3 := io_step can_open h2).
  assert (H3 : queue h3 = Report <$> ds /\ file h3 = Some path /\ written h3 = written h2).
  { subst h3. unfold io_step. rewrite Hq2. cbn. by rewrite Hopen. }
  destruct H3 as (Hq3 & Hf3 & Hw3). rewrite <- Hw3.
  pose proof (drain_reports path ds h3 Hf3 Hq3) as Hd. unfold drain in Hd. rewrite Hq3 in Hd.
  exact Hd.
Qed.
End gate.

(** ** LEDs *)

(** Consecutive duplicates removed, given the last value before the list. *)
Fixpoint dedup (last : option KeyboardState) (l : list KeyboardState) : list KeyboardState :=
  match l with
  | [] => []
  | s :: l' => if bool_decide (last = Some s) then dedup last l' else s :: dedup (Some s) l'
  end.

(** The keyboard LED state is published when it changes and only then: over
    the bytes read in one turn, what is published is the sequence of states
    with repetitions removed, and the state remembered is the last one read;
    each flag is its bit of the byte. *)
Theorem led_publishes_changes bytes l :
  let l' := led_read_loop (LedByte <$> bytes) l in
  published l' = published l ++ dedup (last_led l) (parse_keyboard_state <$> bytes)
  /\ last_led l' = match last bytes with
                   | Some b => Some (parse_keyboard_state b)
                   | None => last_led l
                   end
  /\ ∀ b, parse_keyboard_state b
          = mkKbState (Z.testbit b 0) (Z.testbit b 1) (Z.testbit b 2) (Z.testbit b 3) (Z.testbit b 4).
Proof.
  cbv zeta. assert (Hbit : ∀ b i, (0 <= i)%Z -> negb (Z.land b (2 ^ i) =? 0)%Z = Z.testbit b i).
  { intros b i Hi. destruct (Z.testbit b i) eqn:E.
    - destruct (Z.eqb_spec (Z.land b (2 ^ i)) 0) as [H0|]; [|done].
      assert (Z.testbit (Z.land b (2 ^ i)) i = false) as Hf by (by rewrite H0, Z.bits_0).
      rewrite Z.land_spec, E, Z.pow2_bits_true in Hf by lia. done.
    - destruct (Z.eqb_spec (Z.land b (2 ^ i)) 0) as [|H0]; [done|]. exfalso. apply H0.
      apply Z.bits_inj_0. intros j. rewrite Z.land_spec.
      destruct (Z.eq_dec j i) as [->|Hne]; [by rewrite E|].
      rewrite Z.pow2_bits_false by lia. by rewrite andb_false_r. }
  split_and!.
  - revert l. induction bytes as [|b bytes IH]; intros l; cbn; [by rewrite app_nil_r|].
    rewrite IH. cbn. case_bool_decide as Hd; [by rewrite Hd|]. by rewrite <- app_assoc.
  - revert l. induction bytes as [|b bytes IH]; intros l; cbn -[last]; [done|].
    rewrite IH, last_cons. by destruct (last bytes).
  - intros b. unfold parse_keyboard_state.
    by rewrite <- (Hbit b 0%Z), <- (Hbit b 1%Z), <- (Hbit b 2%Z), <- (Hbit b 3%Z), <- (Hbit b 4%Z) by lia.
Qed.
