(* ===== verification/Gadget.v ===== *)
(** * The USB gadget (crates/usb_devices/src/devices/mod.rs, config.rs, error.rs)

    Which functions a set of switches builds, the endpoints they take against
    the budget of the controller, and how the nodes of a bound gadget are
    found again in configfs. *)

From S2P Require Import Prelude.

Inductive UsbError : Set :=
| InvalidArgument (m : string) | UDCError (m : string) | GadgetError (m : string)
| ChangeRejected (m : string) | DeviceNotEnabled (m : string) | DeviceNotFound (m : string)
| FileNotFound (m : string) | StrictModeViolation (m : string) | IoError (m : string)
| EndpointBudgetExceeded (m : string).

#[export] Instance UsbError_eq_dec : EqDecision UsbError.
Proof. solve_decision. Defined.

(** ** Static configuration (config.rs) *)

Definition MAX_FUNCTION_IN_EPS : Z := 6.
Definition MAX_FUNCTION_OUT_EPS : Z := 5.

Record HidSpec := mkHidSpec {
  hs_protocol : Z; hs_subclass : Z; hs_report_length : Z; hs_no_out_endpoint : bool }.

#[export] Instance HidSpec_eq_dec : EqDecision HidSpec.
Proof. solve_decision. Defined.

Definition HID_KB : HidSpec := mkHidSpec 1 1 8 false.
Definition HID_ABS : HidSpec := mkHidSpec 2 0 6 true.
Definition HID_REL : HidSpec := mkHidSpec 2 0 5 true.

Definition UMS_VM_INQUIRY_STRING : string := "ArkKVM Virtual Media".
Definition UMS_FT_INQUIRY_STRING : string := "ArkKVM Virtual USB Drive".

Definition UAC1_P_CHMASK : Z := 3.
Definition UAC1_C_CHMASK : Z := 0.

Record UsbBaseInfo := mkBase {
  vendor_id : Z; product_id : Z; bcd_device : Z; bcd_usb : Z;
  serial_number : string; manufacturer : string; product : string;
  strict_mode : bool; force_full_speed : bool }.

(** Proto [NetworkAdapterType] and [NetworkAdapterSwitch]. *)
Inductive NetworkAdapterType : Set := Ncm | Rndis.

Definition adapter_type_from_i32 (v : Z) : NetworkAdapterType :=
  if (v =? 1)%Z then Rndis else Ncm.

Record NetworkAdapterSwitch := mkNetSwitch { net_enable : bool; net_adapter_type : Z }.

Record DeviceSwitches := mkSwitches {
  hid_kb_enabled : bool; hid_abs_enabled : bool; hid_rel_enabled : bool;
  ums_vm_enabled : bool; ums_ft_enabled : bool; uac1_enabled : bool; uvc_enabled : bool;
  network_adapter : option NetworkAdapterSwitch }.

#[export] Instance NetworkAdapterSwitch_eq_dec : EqDecision NetworkAdapterSwitch.
Proof. solve_decision. Defined.
#[export] Instance DeviceSwitches_eq_dec : EqDecision DeviceSwitches.
Proof. solve_decision. Defined.

Definition network_adapter_enabled (s : DeviceSwitches) : bool :=
  match network_adapter s with Some n => net_enable n | None => false end.

Definition has_any_enabled (s : DeviceSwitches) : bool :=
  hid_kb_enabled s || hid_abs_enabled s || hid_rel_enabled s || ums_vm_enabled s
  || ums_ft_enabled s || uac1_enabled s || uvc_enabled s || network_adapter_enabled s.

(** ** The endpoint budget (devices/mod.rs) *)

(** Endpoint constants of each device module, as (IN, OUT). *)
Definition EP_HID_KB : Z * Z := (1, 1)%Z.
Definition EP_HID_ABS : Z * Z := (1, 0)%Z.
Definition EP_HID_REL : Z * Z := (1, 0)%Z.
Definition EP_UMS : Z * Z := (1, 1)%Z.
Definition EP_UMS1 : Z * Z := (1, 1)%Z.
Definition EP_UAC : Z * Z := (1, 0)%Z.
Definition EP_UVC : Z * Z := (2, 0)%Z.
Definition EP_NCM : Z * Z := (2, 1)%Z.
Definition EP_RNDIS : Z * Z := (2, 1)%Z.

(** One [if]: saturating additions of an endpoint pair. *)
Definition add_eps (on : bool) (e : Z * Z) (acc : Z * Z) : Z * Z :=
  if on then (u8_saturating_add acc.1 e.1, u8_saturating_add acc.2 e.2) else acc.

Definition endpoint_usage (s : DeviceSwitches) : Z * Z :=
  let a := (0, 0)%Z in
  let a := add_eps (hid_kb_enabled s) EP_HID_KB a in
  let a := add_eps (hid_abs_enabled s) EP_HID_ABS a in
  let a := add_eps (hid_rel_enabled s) EP_HID_REL a in
  let a := add_eps (ums_vm_enabled s) EP_UMS a in
  let a := add_eps (ums_ft_enabled s) EP_UMS1 a in
  let a := add_eps (uac1_enabled s) EP_UAC a in
  let a := add_eps (uvc_enabled s) EP_UVC a in
  match network_adapter s with
  | Some na =>
      add_eps (net_enable na)
        (match adapter_type_from_i32 (net_adapter_type na) with Rndis => EP_RNDIS | Ncm => EP_NCM end) a
  | None => a
  end.

Definition check_endpoint_budget (s : DeviceSwitches) : Result UsbError unit :=
  let '(inn, out) := endpoint_usage s in
  if (MAX_FUNCTION_IN_EPS <? inn)%Z || (MAX_FUNCTION_OUT_EPS <? out)%Z
  then Err (EndpointBudgetExceeded ("in=" +:+ show_nat inn +:+ "/6 out=" +:+ show_nat out +:+ "/5"))
  else Ok tt.

(** ** Building the gadget *)

Inductive UmsMode : Set := CdRom | Disk.

#[export] Instance UmsMode_eq_dec : EqDecision UmsMode.
Proof. solve_decision. Defined.

Record Lun := mkLun {
  lun_cdrom : bool; lun_read_only : bool; lun_removable : bool; lun_inquiry : string }.

Inductive Function : Type :=
| FNet (t : NetworkAdapterType)
| FHid (h : HidSpec)
| FMsd (l : Lun)
| FUac1 (p_chmask c_chmask : Z)
| FUvc.

Inductive Speed : Set := FullSpeed | HighSpeed.

Record Gadget := mkGadget {
  g_vendor : Z; g_product : Z; g_release : Z; g_speed : Speed;
  g_strings : string * string * string; g_functions : list Function }.

Definition USB_MAX_STRING_LEN : nat := 126.

Definition validate_strings (m p s : string) : Result UsbError unit :=
  if (USB_MAX_STRING_LEN <? String.length m)%nat || (USB_MAX_STRING_LEN <? String.length p)%nat
     || (USB_MAX_STRING_LEN <? String.length s)%nat
  then Err (InvalidArgument "length of manufacturer, product or serial_number must not exceed 126 characters")
  else Ok tt.

Definition fun_if (b : bool) (f : Function) : list Function := if b then [f] else [].

Definition vm_lun (m : UmsMode) : Lun :=
  match m with
  | CdRom => mkLun true true true UMS_VM_INQUIRY_STRING
  | Disk => mkLun false true true UMS_VM_INQUIRY_STRING
  end.

Definition ft_lun : Lun := mkLun false false true UMS_FT_INQUIRY_STRING.

(** The gadget and the network function kept for later. *)
Definition build_gadget (base : UsbBaseInfo) (s : DeviceSwitches) (vm_mode : UmsMode)
  : Result UsbError (Gadget * option NetworkAdapterType) :=
  match validate_strings (manufacturer base) (product base) (serial_number base) with
  | Err e => Err e
  | Ok _ =>
      let net := match network_adapter s with
                 | Some na => if net_enable na
                              then Some (adapter_type_from_i32 (net_adapter_type na)) else None
                 | None => None
                 end in
      let functions :=
        match net with Some t => [FNet t] | None => [] end
        ++ fun_if (hid_kb_enabled s) (FHid HID_KB)
        ++ fun_if (hid_abs_enabled s) (FHid HID_ABS)
        ++ fun_if (hid_rel_enabled s) (FHid HID_REL)
        ++ fun_if (ums_vm_enabled s) (FMsd (vm_lun vm_mode))
        ++ fun_if (ums_ft_enabled s) (FMsd ft_lun)
        ++ fun_if (uac1_enabled s) (FUac1 UAC1_P_CHMASK UAC1_C_CHMASK)
        ++ fun_if (uvc_enabled s) FUvc in
      Ok (mkGadget (vendor_id base) (product_id base) (bcd_device base)
            (if force_full_speed base then FullSpeed else HighSpeed)
            (manufacturer base, product base, serial_number base) functions, net)
  end.

(** ** configfs (devices/mod.rs)

    The entries of the gadget's [functions] directory, in directory order:
    a name and its attribute files ([None]: not there or not readable). *)

Record FunctionDir := mkFdir {
  fd_name : string;
  fd_protocol : option string; fd_subclass : option string; fd_report_length : option string;
  fd_dev : option string;
  fd_inquiry : option string }.

Definition functions_root : string := "/sys/kernel/config/usb_gadget/arkkvm/functions/".

(** [inquiry_string] of [lun.0]: a missing file skips the entry. *)
Fixpoint resolve_mass_storage (entries : list FunctionDir) (inquiry : string)
  : Result UsbError string :=
  match entries with
  | [] => Err (DeviceNotFound ("mass_storage lun with inquiry_string " +:+ inquiry +:+ " not found"))
  | d :: entries' =>
      if negb (starts_with "mass_storage." (fd_name d)) then resolve_mass_storage entries' inquiry
      else match fd_inquiry d with
           | None => resolve_mass_storage entries' inquiry
           | Some actual =>
               if String.eqb (trim actual) inquiry
               then Ok (functions_root +:+ fd_name d +:+ "/lun.0/file")
               else resolve_mass_storage entries' inquiry
           end
  end.

Definition resolve_mass_storage_file (dir : option (list FunctionDir)) (inquiry : string)
  : Result UsbError string :=
  match dir with
  | None => Err (DeviceNotFound "gadget functions dir not found")
  | Some entries => resolve_mass_storage entries inquiry
  end.

(** [read_sysfs_u8] and [read_sysfs_u16]. *)
Definition read_sysfs (parse : string -> option Z) (file : option string) : Result UsbError Z :=
  match file with
  | None => Err (IoError "failed to read")
  | Some raw => ok_or (parse (trim raw)) (InvalidArgument ("invalid number: " +:+ raw))
  end.

Definition hidg_path (dev_raw : option string) : Result UsbError string :=
  match dev_raw with
  | None => Err (IoError "failed to read hid dev")
  | Some dev_raw =>
      let dev := trim dev_raw in
      if is_empty dev then Err (DeviceNotFound "hid function has empty dev (not bound?)")
      else match split_on ":" dev !! 1%nat with
           | None => Err (InvalidArgument ("invalid hid dev format: " +:+ dev))
           | Some m => match parse_u32 m with
                       | None => Err (InvalidArgument ("invalid hid dev minor: " +:+ dev))
                       | Some minor => Ok ("/dev/hidg" +:+ show_nat minor)
                       end
           end
  end.

Fixpoint resolve_hid (entries : list FunctionDir) (h : HidSpec) : Result UsbError string :=
  match entries with
  | [] => Err (DeviceNotFound "hid function not found")
  | d :: entries' =>
      if negb (starts_with "hid." (fd_name d)) then resolve_hid entries' h
      else match read_sysfs parse_u8 (fd_protocol d) with
      | Err e => Err e
      | Ok p =>
          match read_sysfs parse_u8 (fd_subclass d) with
          | Err e => Err e
          | Ok s =>
              match read_sysfs parse_u16 (fd_report_length d) with
              | Err e => Err e
              | Ok l =>
                  if negb (p =? hs_protocol h)%Z || negb (s =? hs_subclass h)%Z
                     || negb (l =? hs_report_length h)%Z
                  then resolve_hid entries' h
                  else hidg_path (fd_dev d)
              end
          end
      end
  end.

Definition resolve_hid_device_path (dir : option (list FunctionDir)) (h : HidSpec)
  : Result UsbError string :=
  match dir with
  | None => Err (DeviceNotFound "gadget functions dir not found")
  | Some entries => resolve_hid entries h
  end.

(** ** Theorems *)

(** The endpoints the kernel allocates for a function (configuration comments
    of the device modules): an interrupt OUT for a HID function unless it is
    configured without, a pair for mass storage, an isochronous one per
    channel mask of the audio function, two IN for video, notification and
    data for the network functions. *)
Definition function_eps (f : Function) : Z * Z :=
  match f with
  | FNet _ => (2, 1)%Z
  | FHid h => (1, if hs_no_out_endpoint h then 0 else 1)%Z
  | FMsd _ => (1, 1)%Z
  | FUac1 p c => (if (p =? 0)%Z then 0 else 1, if (c =? 0)%Z then 0 else 1)%Z
  | FUvc => (2, 0)%Z
  end.

Definition gadget_eps (g : Gadget) : Z * Z :=
  foldr (fun f acc => ((function_eps f).1 + acc.1, (function_eps f).2 + acc.2)%Z) (0, 0)%Z
    (g_functions g).

Ltac all_switches s :=
  destruct s as [[] [] [] [] [] [] [] [[[] t]|]]; cbn;
  try destruct (adapter_type_from_i32 t).

Lemma endpoint_usage_spec base s mode g net :
  build_gadget base s mode = Ok (g, net) ->
  gadget_eps g = endpoint_usage s
  /\ (check_endpoint_budget s = Ok tt <->
      ((gadget_eps g).1 <= 6)%Z /\ ((gadget_eps g).2 <= 5)%Z).
Proof.
  intros Hb. assert (Heq : gadget_eps g = endpoint_usage s).
  { revert Hb. unfold build_gadget. destruct (validate_strings _ _ _); [|done].
    intros [= <- _]. unfold gadget_eps. cbn [g_functions].
    all_switches s; vm_compute; reflexivity. }
  split; [done|]. rewrite Heq. unfold check_endpoint_budget.
  destruct (endpoint_usage s) as [inn out]. cbn [fst snd].
  unfold MAX_FUNCTION_IN_EPS, MAX_FUNCTION_OUT_EPS.
  destruct (Z.ltb_spec 6 inn), (Z.ltb_spec 5 out); cbn; split; try done; lia.
Qed.

(** The endpoint count checked before a change is the one of the gadget that
    is then built, function by function; so a switch set that passes the check
    builds a gadget within six IN and five OUT endpoints. *)
Theorem endpoint_usage_matches_gadget base s mode g net :
  build_gadget base s mode = Ok (g, net) ->
  gadget_eps g = endpoint_usage s
  /\ (check_endpoint_budget s = Ok tt <->
      ((gadget_eps g).1 <= 6)%Z /\ ((gadget_eps g).2 <= 5)%Z).
Proof. apply endpoint_usage_spec. Qed.

(** An entry whose attributes are those of a HID function. *)
Definition matches_hid (h : HidSpec) (d : FunctionDir) : Prop :=
  read_sysfs parse_u8 (fd_protocol d) = Ok (hs_protocol h)
  /\ read_sysfs parse_u8 (fd_subclass d) = Ok (hs_subclass h)
  /\ read_sysfs parse_u16 (fd_report_length d) = Ok (hs_report_length h).

Lemma resolve_hid_sound entries h path :
  resolve_hid entries h = Ok path ->
  ∃ d, d ∈ entries /\ matches_hid h d /\ hidg_path (fd_dev d) = Ok path.
Proof.
  induction entries as [|d entries IH]; cbn [resolve_hid]; [done|].
  assert (Hrec : resolve_hid entries h = Ok path ->
                 ∃ d', d' ∈ d :: entries /\ matches_hid h d' /\ hidg_path (fd_dev d') = Ok path).
  { intros (d' & Hin & Hm & Hp)%IH. exists d'. split; [by right|done]. }
  destruct (negb _); [done|].
  destruct (read_sysfs parse_u8 (fd_protocol d)) as [p|] eqn:E1; [|done].
  destruct (read_sysfs parse_u8 (fd_subclass d)) as [q|] eqn:E2; [|done].
  destruct (read_sysfs parse_u16 (fd_report_length d)) as [l|] eqn:E3; [|done].
  destruct (Z.eqb_spec p (hs_protocol h)), (Z.eqb_spec q (hs_subclass h)),
    (Z.eqb_spec l (hs_report_length h)); cbn [negb orb]; try done.
  intros Hp. exists d. split; [by left|]. split; [|done]. split_and!; congruence.
Qed.

(** Keyboard, absolute and relative mouse are never confused: on a directory
    whose functions have distinct device nodes, the nodes resolved for two
    different HID devices differ, although the two mice agree in protocol and
    subclass. *)
Theorem hid_nodes_distinct dir h1 h2 p1 p2 :
  h1 ∈ [HID_KB; HID_ABS; HID_REL] -> h2 ∈ [HID_KB; HID_ABS; HID_REL] -> h1 ≠ h2 ->
  (∀ entries d1 d2 p, dir = Some entries -> d1 ∈ entries -> d2 ∈ entries ->
     hidg_path (fd_dev d1) = Ok p -> hidg_path (fd_dev d2) = Ok p -> d1 = d2) ->
  resolve_hid_device_path dir h1 = Ok p1 -> resolve_hid_device_path dir h2 = Ok p2 -> p1 ≠ p2.
Proof.
  intros H1 H2 Hne Huniq. destruct dir as [entries|]; [|done]. cbn.
  intros (d1 & Hin1 & Hm1 & Hp1)%resolve_hid_sound (d2 & Hin2 & Hm2 & Hp2)%resolve_hid_sound ->.
  assert (d1 = d2) as -> by eauto.
  destruct Hm1 as (A1 & A2 & A3), Hm2 as (B1 & B2 & B3).
  assert (hs_report_length h1 = hs_report_length h2) by congruence.
  set_unfold. destruct_or!; subst; cbn in *; try done.
Qed.
