(* ===== verification/Ums.v ===== *)
(** * Mass storage devices (crates/usb_devices/src/devices/ums.rs, ums1.rs)

    The virtual media drive and the file transfer drive: mounting an image
    writes its path into the backing file attribute of the LUN; a gadget
    change unmounts first and blocks mounts until it is over.

    [lun] is the content of the kernel's attribute ([None] when it is empty).
    The environment of an operation says whether the image and the attribute
    file exist, how resolving the attribute goes and whether writing works. *)

From S2P Require Import Prelude Hid Gadget.

Record UmsEnv := mkUmsEnv {
  image_exists : string -> bool;
  resolved : Result UsbError string;
  device_exists : bool;
  write_result : Result UsbError unit }.

(** Both handles; the file transfer drive does not use [mode]. *)
Record UmsHandle := mkUms {
  u_name : string;
  u_enabled : bool;
  u_mode : UmsMode;
  file_path : option string;
  lun_file_path : option string;
  u_updating : bool;
  lun : option string }.

Definition ums_new (name : string) (mode : UmsMode) (enabled : bool) : UmsHandle :=
  mkUms name enabled mode None None false None.

Definition u_set_enabled (b : bool) (h : UmsHandle) : UmsHandle :=
  mkUms (u_name h) b (u_mode h) (file_path h) (lun_file_path h) (u_updating h) (lun h).
Definition u_set_mode (m : UmsMode) (h : UmsHandle) : UmsHandle :=
  mkUms (u_name h) (u_enabled h) m (file_path h) (lun_file_path h) (u_updating h) (lun h).
Definition u_set_file (f : option string) (h : UmsHandle) : UmsHandle :=
  mkUms (u_name h) (u_enabled h) (u_mode h) f (lun_file_path h) (u_updating h) (lun h).
Definition u_set_lun_path (p : option string) (h : UmsHandle) : UmsHandle :=
  mkUms (u_name h) (u_enabled h) (u_mode h) (file_path h) p (u_updating h) (lun h).
Definition u_set_updating (b : bool) (h : UmsHandle) : UmsHandle :=
  mkUms (u_name h) (u_enabled h) (u_mode h) (file_path h) (lun_file_path h) b (lun h).
Definition u_set_lun (c : option string) (h : UmsHandle) : UmsHandle :=
  mkUms (u_name h) (u_enabled h) (u_mode h) (file_path h) (lun_file_path h) (u_updating h) c.

Definition UM (A : Type) : Type := SE UmsHandle UsbError A.

Section ops.
Context (env : UmsEnv).

Definition sync_lun_file_path (h : UmsHandle) : UmsHandle :=
  if negb (u_enabled h) then u_set_lun_path None h
  else match resolved env with
       | Ok path => u_set_lun_path (Some path) h
       | Err _ => u_set_lun_path None h
       end.

Definition get_lun_file_path : UM string :=
  fun h => match lun_file_path h with
           | Some path => (h, Ok path)
           | None => match resolved env with
                     | Ok path => (u_set_lun_path (Some path) h, Ok path)
                     | Err e => (h, Err e)
                     end
           end.

(** [write_file]: an image path, or a newline to empty the LUN. *)
Definition write_lun (c : option string) : UM unit :=
  fun h => match write_result env with
           | Ok _ => (u_set_lun c h, Ok tt)
           | Err e => (h, Err e)
           end.

Definition updating_error : UsbError := ChangeRejected "USBGadget is updating".

(** *** Virtual media (ums.rs) *)

Definition switch_mode (m : UmsMode) : UM bool :=
  let! h := se_get id in
  se_guard (negb (u_enabled h)) (DeviceNotEnabled (u_name h)) ;;;
  se_guard (bool_decide (is_Some (file_path h))) (ChangeRejected (u_name h +:+ " is busy")) ;;;
  se_guard (u_updating h) updating_error ;;;
  if bool_decide (u_mode h = m) then se_ret false
  else se_modify (u_set_mode m) ;;; se_ret true.

Definition mount_ums (image : string) : UM unit :=
  let! h := se_get id in
  se_guard (negb (u_enabled h)) (DeviceNotEnabled (u_name h)) ;;;
  se_guard (u_updating h) updating_error ;;;
  se_guard (negb (image_exists env image)) (FileNotFound image) ;;;
  let! device_path := get_lun_file_path in
  se_guard (negb (device_exists env)) (DeviceNotFound device_path) ;;;
  let! f := se_get file_path in
  match f with
  | Some existing =>
      if String.eqb existing image then se_ret tt
      else se_throw (ChangeRejected (u_name h +:+ " is already mounted"))
  | None => write_lun (Some image) ;;; se_modify (u_set_file (Some image))
  end.

Definition unmount_ums : UM unit :=
  let! h := se_get id in
  if negb (u_enabled h) then se_ret tt else
  se_guard (u_updating h) updating_error ;;;
  let! r := se_catch get_lun_file_path in
  match r with
  | Err _ => se_modify (u_set_file None)
  | Ok _ =>
      if negb (device_exists env) then se_modify (u_set_file None)
      else write_lun None ;;; se_modify (u_set_file None)
  end.

Definition ums_on_change_request (req : ChangeRequest) (h : UmsHandle)
  : UmsHandle * ChangeResponse :=
  match req with
  | RequestChange => (h, Proceed)
  | PrepareChange =>
      match unmount_ums h with
      | (h, Ok _) => (u_set_updating true h, Proceed)
      | (h, Err _) => (h, Reject "failed to unmount")
      end
  | ChangeCompleted | ChangeCanceled =>
      (u_set_updating false (sync_lun_file_path h), Proceed)
  end.

(** *** File transfer (ums1.rs) *)

Definition mount_ums1 (image : string) : UM unit :=
  let! h := se_get id in
  se_guard (negb (u_enabled h)) (DeviceNotEnabled (u_name h)) ;;;
  se_guard (u_updating h) updating_error ;;;
  se_guard (negb (image_exists env image)) (FileNotFound image) ;;;
  let! device_path := get_lun_file_path in
  se_guard (negb (device_exists env)) (DeviceNotFound device_path) ;;;
  let! f := se_get file_path in
  se_guard (bool_decide (is_Some f)) (ChangeRejected (u_name h +:+ " is busy")) ;;;
  write_lun (Some image) ;;; se_modify (u_set_file (Some image)).

Definition unmount_ums1 : UM unit :=
  let! h := se_get id in
  se_guard (negb (u_enabled h)) (DeviceNotEnabled (u_name h)) ;;;
  se_guard (u_updating h) updating_error ;;;
  let! device_path := get_lun_file_path in
  se_guard (negb (device_exists env)) (DeviceNotFound device_path) ;;;
  write_lun None ;;; se_modify (u_set_file None).

Definition ums1_on_change_request (req : ChangeRequest) (h : UmsHandle)
  : UmsHandle * ChangeResponse :=
  match req with
  | RequestChange => (h, Proceed)
  | PrepareChange =>
      match unmount_ums1 h with
      | (h, Ok _) => (u_set_updating true h, Proceed)
      | (h, Err (DeviceNotEnabled _)) | (h, Err (DeviceNotFound _)) =>
          (u_set_updating true h, Proceed)
      | (h, Err _) => (h, Reject "failed to unmount")
      end
  | ChangeCompleted | ChangeCanceled =>
      (u_set_updating false (sync_lun_file_path h), Proceed)
  end.
End ops.

(** ** The handle mirrors the LUN *)

Inductive UmsOp : Type :=
| UMount (image : string) | UUnmount | USwitch (m : UmsMode) | UChange (r : ChangeRequest)
| UMount1 (image : string) | UUnmount1 | UChange1 (r : ChangeRequest).

Definition ums_op (env : UmsEnv) (o : UmsOp) (h : UmsHandle) : UmsHandle :=
  match o with
  | UMount i => (mount_ums env i h).1
  | UUnmount => (unmount_ums env h).1
  | USwitch m => (switch_mode m h).1
  | UChange r => (ums_on_change_request env r h).1
  | UMount1 i => (mount_ums1 env i h).1
  | UUnmount1 => (unmount_ums1 env h).1
  | UChange1 r => (ums1_on_change_request env r h).1
  end.

Definition ums_run (ops : list (UmsEnv * UmsOp)) (h : UmsHandle) : UmsHandle :=
  fold_left (fun h '(env, o) => ums_op env o h) ops h.

(** A mounted handle is right about what the kernel serves. *)
Definition mirrors (h : UmsHandle) : Prop := ∀ p, file_path h = Some p -> lun h = Some p.

(** Case analysis over the handle and every answer of the environment. *)
Ltac ums_cases env h :=
  let ie := fresh "ie" in let de := fresh "de" in
  destruct env as [ie [?|?] de [[]|?]], h as [? [] ? [?|] [?|] [] ?]; try destruct de;
  cbn in *;
  repeat match goal with
         | |- context [ie ?i] => destruct (ie i); cbn in *
         | |- context [String.eqb ?a ?b] => destruct (String.eqb_spec a b); cbn in *
         | |- context [bool_decide ?P] => destruct (bool_decide_reflect P); cbn in *
         | H : context [ie ?i] |- _ => destruct (ie i); cbn in *
         | H : context [String.eqb ?a ?b] |- _ => destruct (String.eqb_spec a b); cbn in *
         | H : context [bool_decide ?P] |- _ => destruct (bool_decide_reflect P); cbn in *
         end.

Lemma sync_mirrors env h : mirrors h -> mirrors (sync_lun_file_path env h).
Proof. unfold mirrors, sync_lun_file_path. repeat case_match; done. Qed.

Lemma mount_ums_mirrors env i h : mirrors h -> mirrors (mount_ums env i h).1.
Proof. unfold mirrors. ums_cases env h; naive_solver. Qed.

Lemma mount_ums1_mirrors env i h : mirrors h -> mirrors (mount_ums1 env i h).1.
Proof. unfold mirrors. ums_cases env h; naive_solver. Qed.

Lemma unmount_ums_mirrors env h : mirrors h -> mirrors (unmount_ums env h).1.
Proof. unfold mirrors. ums_cases env h; naive_solver. Qed.

Lemma unmount_ums1_mirrors env h : mirrors h -> mirrors (unmount_ums1 env h).1.
Proof. unfold mirrors. ums_cases env h; naive_solver. Qed.

(** What a drive reports as mounted is what the kernel serves: after any
    sequence of mounts, unmounts, mode switches and change requests, in any
    environment (images or attributes missing, writes failing), a handle that
    has a mounted path has it in the LUN. *)
Theorem mounted_path_is_served name mode en ops :
  mirrors (ums_run ops (ums_new name mode en)).
Proof.
  assert (Hop : ∀ env o h, mirrors h -> mirrors (ums_op env o h)).
  { intros env o h Hm. destruct o as [i| |m|r|i| |r]; cbn [ums_op];
      auto using sync_mirrors, mount_ums_mirrors, mount_ums1_mirrors, unmount_ums_mirrors, unmount_ums1_mirrors.
    - revert Hm. unfold mirrors. ums_cases env h; naive_solver.
    - destruct r; cbn [ums_on_change_request]; [done| |..].
      + pose proof (unmount_ums_mirrors env h Hm). by destruct (unmount_ums env h) as [h' [u|e]].
      + by apply sync_mirrors.
      + by apply sync_mirrors.
    - destruct r; cbn [ums1_on_change_request]; [done| |..].
      + pose proof (unmount_ums1_mirrors env h Hm). by destruct (unmount_ums1 env h) as [h' [u|[]]].
      + by apply sync_mirrors.
      + by apply sync_mirrors. }
  apply (fold_left_inv mirrors); [intros h [env o]; apply Hop|by intros p].
Qed.

(** An operation that does not end the change under way. *)
Definition during_change (o : UmsOp) : bool :=
  match o with
  | UMount _ | UUnmount | USwitch _ | UChange RequestChange | UChange PrepareChange => true
  | _ => false
  end.

(** Nothing is mounted while the gadget changes: once an enabled virtual
    media drive approved the change its image is out, and until the change
    ends every mount, unmount and mode switch is refused and the drive stays
    empty. *)
Theorem drive_empty_during_change env h h' ops :
  u_enabled h = true -> ums_on_change_request env PrepareChange h = (h', Proceed) ->
  Forall (fun '(_, o) => during_change o = true) ops ->
  let h2 := ums_run ops h' in
  file_path h2 = None /\ u_updating h2 = true /\ u_mode h2 = u_mode h'
  /\ ∀ env' i m, is_ok (mount_ums env' i h2).2 = false
                 /\ is_ok (switch_mode m h2).2 = false
                 /\ is_ok (unmount_ums env' h2).2 = false.
Proof.
  intros He Hp Hops.
  assert (H0 : u_enabled h' = true /\ u_updating h' = true /\ file_path h' = None).
  { revert He Hp. cbn. ums_cases env h; naive_solver. }
  assert (Hstep : ∀ env o g, during_change o = true ->
            u_enabled g = true /\ u_updating g = true /\ file_path g = None ->
            let g' := ums_op env o g in
            (u_enabled g' = true /\ u_updating g' = true /\ file_path g' = None) /\ u_mode g' = u_mode g).
  { clear. intros env o g Ho (He & Hu & Hf). destruct g as [n [] m [f|] lp [] c]; try done.
    destruct o as [i| |mo|[]|i| |[]]; try done; cbn. }
  assert (Hrun : (u_enabled (ums_run ops h') = true /\ u_updating (ums_run ops h') = true
                  /\ file_path (ums_run ops h') = None) /\ u_mode (ums_run ops h') = u_mode h').
  { clear Hp. revert h' H0. induction Hops as [|[env' o] ops Ho Hops IH]; intros h' H0; cbn; [done|].
    destruct (Hstep env' o h' Ho H0) as [H1 H2]. destruct (IH _ H1) as [H3 H4].
    split; [exact H3|]. etrans; [exact H4|exact H2]. }
  cbv zeta. destruct Hrun as [(E & U & F) M]. split_and!; [done..|].
  intros env' i m. destruct (ums_run ops h') as [n [] mo [f|] lp [] c]; try done.
Qed.

(** A drive goes through its life as it should: from an enabled, idle, empty
    drive in a working environment a mount serves the image, mounting the same
    image again is harmless while another image and a mode switch are refused,
    and after unmounting the LUN is empty and the other image can be mounted. *)
Theorem drive_lifecycle env h p q m dev :
  u_enabled h = true -> u_updating h = false -> file_path h = None ->
  image_exists env p = true -> image_exists env q = true -> p ≠ q ->
  resolved env = Ok dev -> device_exists env = true -> write_result env = Ok tt ->
  let h1 := (mount_ums env p h).1 in
  let h2 := (unmount_ums env h1).1 in
  (mount_ums env p h).2 = Ok tt /\ lun h1 = Some p /\ file_path h1 = Some p
  /\ mount_ums env p h1 = (h1, Ok tt)
  /\ mount_ums env q h1 = (h1, Err (ChangeRejected (u_name h +:+ " is already mounted")))
  /\ switch_mode m h1 = (h1, Err (ChangeRejected (u_name h +:+ " is busy")))
  /\ (unmount_ums env h1).2 = Ok tt /\ lun h2 = None /\ file_path h2 = None
  /\ (mount_ums env q h2).2 = Ok tt /\ lun (mount_ums env q h2).1 = Some q.
Proof.
  intros He Hu Hf Hip Hiq Hne Hr Hd Hw. cbv zeta.
  destruct env as [ie r de w], h as [n en mo f lp up c]; cbn in *; subst.
  unfold mount_ums, unmount_ums, switch_mode, get_lun_file_path, write_lun; se_unfold.
  destruct lp as [lp|]; cbn; rewrite ?Hip, ?Hiq; cbn; rewrite ?String.eqb_refl; cbn;
    rewrite ?(proj2 (String.eqb_neq p q) Hne); rewrite ?bool_decide_true by done; cbn;
    rewrite ?Hip, ?Hiq; cbn; done.
Qed.

(** The file transfer drive is weaker: when its attribute file is gone it
    still approves the change but keeps the mounted path, so that after the
    change, with everything working again, mounting any image is refused as
    busy. *)
Theorem file_transfer_keeps_stale_mount env env' h p i dev dev' :
  u_enabled h = true -> u_updating h = false -> file_path h = Some p ->
  lun_file_path h = Some dev -> device_exists env = false ->
  resolved env' = Ok dev' -> device_exists env' = true -> image_exists env' i = true ->
  let '(h1, r) := ums1_on_change_request env PrepareChange h in
  r = Proceed /\
  let h2 := (ums1_on_change_request env' ChangeCompleted h1).1 in
  file_path h2 = Some p /\ u_updating h2 = false
  /\ (mount_ums1 env' i h2).2 = Err (ChangeRejected (u_name h +:+ " is busy")).
Proof.
  destruct env as [ie r de w], env' as [ie' r' de' w'], h as [n en mo f lp up c].
  cbn. intros -> -> -> -> -> -> -> Hi. cbn. split; [done|]. rewrite Hi. cbn. done.
Qed.
