(* ===== verification/Uac.v ===== *)
(** * Microphone function (crates/usb_devices/src/devices/uac.rs)

    The handle of the UAC function and the thread that supervises the
    [arkkvm_mic] process: it starts and stops the process on command and
    restarts it when it dies.

    [child] is the process the daemon holds, [alive] the identifiers of the
    processes the daemon spawned that have neither been reaped nor died, and
    [notified] what was sent on the state channel. *)

From S2P Require Import Prelude Hid.

Record MicDaemon := mkMic {
  child : option nat;
  is_running : bool;
  shutdown_requested : bool;
  notified : list bool;
  alive : gset nat;
  next_pid : nat }.

Definition mic_new : MicDaemon := mkMic None false true [] ∅ 0.

Definition notify_running (b : bool) (d : MicDaemon) : MicDaemon :=
  mkMic (child d) (is_running d) (shutdown_requested d) (notified d ++ [b]) (alive d) (next_pid d).

Definition set_shutdown (b : bool) (d : MicDaemon) : MicDaemon :=
  mkMic (child d) (is_running d) b (notified d) (alive d) (next_pid d).

(** [spawn_ok]: whether the program can be started. *)
Definition mic_start (spawn_ok : bool) (d : MicDaemon) : MicDaemon :=
  let d := set_shutdown false d in
  if is_running d then d
  else if spawn_ok then
    notify_running true
      (mkMic (Some (next_pid d)) true (shutdown_requested d) (notified d)
         ({[next_pid d]} ∪ alive d) (S (next_pid d)))
  else notify_running false d.

(** [kill] followed by [wait]: [wait] returns only once the process is gone. *)
Definition mic_stop (d : MicDaemon) : MicDaemon :=
  let d := set_shutdown true d in
  let alive' := match child d with Some p => alive d ∖ {[p]} | None => alive d end in
  notify_running false
    (mkMic None false (shutdown_requested d) (notified d) alive' (next_pid d)).

(** [try_wait]: the exit status, still running, or an error. *)
Inductive TryWait : Set := Exited | StillRunning | WaitError.

(** One poll.  [shutdown_requested] is read three times; only this thread
    writes it, so the reads agree. *)
Definition mic_tick (w : TryWait) (spawn_ok : bool) (d : MicDaemon) : MicDaemon :=
  if shutdown_requested d then d else
  let '(child', exited, running) :=
    match child d, w with
    | Some _, Exited => (None, true, false)
    | Some p, StillRunning => (Some p, false, true)
    | Some _, WaitError => (None, true, false)
    | None, _ => (None, false, false)
    end in
  let d := mkMic child' running (shutdown_requested d) (notified d) (alive d) (next_pid d) in
  let d := if exited then notify_running false d else d in
  if running || shutdown_requested d then d else mic_start spawn_ok d.

(** ** The worker *)

Inductive UacCmd : Set :=
| UacStop
| UacSyncState (device_enabled process_enabled : bool).

(** One turn of [uac_worker_loop]: a command, or a poll timeout. *)
Inductive UacTurn : Set :=
| TCmd (c : UacCmd) (spawn_ok : bool)
| TTimeout (w : TryWait) (spawn_ok : bool)
| TDied (p : nat).   (** a process of the system exits on its own *)

Definition uac_worker_turn (t : UacTurn) (d : MicDaemon) : MicDaemon :=
  match t with
  | TCmd UacStop _ => mic_stop d
  | TCmd (UacSyncState dev proc) ok => if dev && proc then mic_start ok d else mic_stop d
  | TTimeout w ok => mic_tick w ok d
  | TDied p => mkMic (child d) (is_running d) (shutdown_requested d) (notified d)
                 (alive d ∖ {[p]}) (next_pid d)
  end.

Definition uac_run (ts : list UacTurn) (d : MicDaemon) : MicDaemon :=
  fold_left (fun d t => uac_worker_turn t d) ts d.

(** ** The handle *)

Record UacHandle := mkUac {
  uac_enabled : bool; process_enabled : bool; uac_updating : bool;
  daemon : MicDaemon }.

Definition uac_new (device_enabled process_enabled : bool) : UacHandle :=
  mkUac device_enabled process_enabled false mic_new.

Definition uac_set_enabled (b : bool) (h : UacHandle) : UacHandle :=
  mkUac b (process_enabled h) (uac_updating h) (daemon h).
Definition uac_set_process_enabled (b : bool) (h : UacHandle) : UacHandle :=
  mkUac (uac_enabled h) b (uac_updating h) (daemon h).

(** Commands wait for the worker's acknowledgement, so the handle's view of a
    command is its effect on the daemon. *)
Definition sync_process_state (spawn_ok : bool) (h : UacHandle) : UacHandle :=
  mkUac (uac_enabled h) (process_enabled h) (uac_updating h)
    (uac_worker_turn (TCmd (UacSyncState (uac_enabled h) (process_enabled h)) spawn_ok) (daemon h)).

Definition stop_process (h : UacHandle) : UacHandle :=
  mkUac (uac_enabled h) (process_enabled h) (uac_updating h)
    (uac_worker_turn (TCmd UacStop true) (daemon h)).

Definition uac_set_updating (b : bool) (h : UacHandle) : UacHandle :=
  mkUac (uac_enabled h) (process_enabled h) b (daemon h).

Definition uac_on_change_request (spawn_ok : bool) (req : ChangeRequest) (h : UacHandle)
  : UacHandle * ChangeResponse :=
  match req with
  | RequestChange => (uac_set_updating true h, Proceed)
  | PrepareChange => (stop_process h, Proceed)
  | ChangeCompleted | ChangeCanceled =>
      (uac_set_updating false (sync_process_state spawn_ok h), Proceed)
  end.

(** ** Theorems *)

(** What the system can answer to [try_wait]: a live process has not exited,
    and asking about a child does not fail. *)
Definition plausible (d : MicDaemon) (t : UacTurn) : Prop :=
  match t with
  | TTimeout w _ => ∀ p, child d = Some p ->
      (p ∈ alive d -> w = StillRunning) /\ (p ∉ alive d -> w = Exited)
  | _ => True
  end.

Fixpoint plausible_run (ts : list UacTurn) (d : MicDaemon) : Prop :=
  match ts with
  | [] => True
  | t :: ts' => plausible d t /\ plausible_run ts' (uac_worker_turn t d)
  end.

(** The flag says whether a child is held; the child is the only process that
    can be alive; nothing runs once a shutdown is requested. *)
Record MicInv (d : MicDaemon) : Prop := {
  mi_running : is_running d = bool_decide (is_Some (child d));
  mi_alive : ∀ p, p ∈ alive d -> child d = Some p;
  mi_shutdown : shutdown_requested d = true -> child d = None;
  mi_fresh : ∀ p, child d = Some p -> (p < next_pid d)%nat }.

Lemma mic_start_inv ok d : MicInv d -> MicInv (mic_start ok d).
Proof.
  intros [Hr Ha Hs Hf]. unfold mic_start. cbn [is_running set_shutdown].
  destruct (is_running d) eqn:Er; [split; cbn; try done; congruence|].
  assert (Hc : child d = None).
  { symmetry in Hr. apply bool_decide_eq_false in Hr. by apply eq_None_not_Some. }
  destruct ok; split; cbn; try done; try congruence.
  - intros p [->%elem_of_singleton|Hp]%elem_of_union; [done|]. apply Ha in Hp. congruence.
  - intros p [= <-]. lia.
Qed.

Lemma mic_stop_inv d : MicInv d -> MicInv (mic_stop d).
Proof.
  intros [Hr Ha Hs Hf]. unfold mic_stop. split; cbn; try done.
  intros p Hp. destruct (child d) as [q|] eqn:Ec.
  - apply elem_of_difference in Hp as [Hp Hq]. apply Ha in Hp. set_solver.
  - by apply Ha in Hp.
Qed.

Lemma mic_tick_inv w ok d : MicInv d -> plausible d (TTimeout w ok) -> MicInv (mic_tick w ok d).
Proof.
  intros Hi Hp. pose proof Hi as [Hr Ha Hs Hf]. unfold mic_tick.
  destruct (shutdown_requested d) eqn:Es; [done|]. cbn in Hp.
  destruct (child d) as [p|] eqn:Ec; cbn [notify_running shutdown_requested].
  - specialize (Hp p eq_refl) as [Hlive Hdead].
    assert (Hnone : p ∉ alive d -> ∀ q, q ∉ alive d).
    { intros Hn q Hq. assert (Some p = Some q) by by apply Ha. by simplify_eq. }
    destruct (decide (p ∈ alive d)) as [Hin|Hn].
    + rewrite (Hlive Hin). cbn. split; cbn; try done.
    + rewrite (Hdead Hn). cbn [orb]. apply mic_start_inv. split; cbn; try done.
      intros q Hq. by destruct (Hnone Hn q).
  - cbn [orb]. apply mic_start_inv. split; cbn; try done.
Qed.

Lemma uac_turn_inv t d : MicInv d -> plausible d t -> MicInv (uac_worker_turn t d).
Proof.
  destruct t as [[|dev proc] ok|w ok|p]; cbn [uac_worker_turn]; intros Hi Hp.
  - by apply mic_stop_inv.
  - destruct (dev && proc); [by apply mic_start_inv|by apply mic_stop_inv].
  - by apply mic_tick_inv.
  - destruct Hi as [Hr Ha Hs Hf]. split; cbn; try done. intros q Hq. apply Ha. set_solver.
Qed.

Lemma uac_run_inv ts d : MicInv d -> plausible_run ts d -> MicInv (uac_run ts d).
Proof.
  revert d. induction ts as [|t ts IH]; intros d Hi; cbn; [done|].
  intros [Hp Hps]. apply IH; [by apply uac_turn_inv|done].
Qed.

(** Over any run of the supervisor, processes that die on their own
    included, at most one microphone process is alive and the daemon holds
    it; a stop leaves none; and a poll after a death restarts the process
    unless a stop was requested. *)
Theorem mic_single_process ts :
  plausible_run ts mic_new ->
  let d := uac_run ts mic_new in
  (∀ p q, p ∈ alive d -> q ∈ alive d -> p = q)
  /\ alive (uac_worker_turn (TCmd UacStop true) d) = ∅
  /\ (∀ w, shutdown_requested d = false -> plausible d (TTimeout w true) ->
       ∃ p, child (uac_worker_turn (TTimeout w true) d) = Some p
            /\ p ∈ alive (uac_worker_turn (TTimeout w true) d))
  /\ (∀ w ok, shutdown_requested d = true -> uac_worker_turn (TTimeout w ok) d = d).
Proof.
  intros Hp d. assert (Hi : MicInv d) by (apply uac_run_inv; [by split|done]).
  clearbody d. clear Hp ts. pose proof Hi as [Hr Ha Hs Hf]. split_and!.
  - intros p q Hpp Hq. apply Ha in Hpp, Hq. congruence.
  - cbn. apply leibniz_equiv, elem_of_equiv_empty. intros q Hq.
    destruct (child d) as [p|] eqn:Ec; [|by apply Ha in Hq].
    apply elem_of_difference in Hq as [Hq Hne]. apply Ha in Hq. set_solver.
  - intros w Hsd Hpl. cbn [uac_worker_turn plausible] in *. unfold mic_tick. rewrite Hsd.
    destruct (child d) as [p|] eqn:Ec; cbn [orb].
    + specialize (Hpl p eq_refl) as [Hl Hd]. destruct (decide (p ∈ alive d)) as [Hin|Hn].
      * rewrite (Hl Hin). cbn. eauto.
      * rewrite (Hd Hn). cbn. eexists. split; [done|set_solver].
    + cbn. eexists. split; [done|set_solver].
  - intros w ok Hsd. cbn. unfold mic_tick. by rewrite Hsd.
Qed.
