(* ===== verification/NetAdapter.v ===== *)
(** * USB network adapter (crates/usb_devices/src/devices/network)

    Board addressing of the gadget's network interface ([adapter_l3.rs]), the
    DHCP pool offered to the controlled host and the BusyBox lease file
    ([dhcp.rs]), and the handle that reacts to gadget changes ([mod.rs]). *)

From S2P Require Import Prelude Hid Gadget IpForward.

(** ** IPv4 addresses (std)

    An [Ipv4Addr] is its 32-bit value.  [FromStr] takes four decimal octets
    of at most three digits without leading zeros. *)

Definition parse_octet (s : string) : option Z :=
  match s with
  | EmptyString => None
  | String "0" (String _ _) => None
  | _ => if (String.length s <=? 3)%nat then parse_digits 10 u8_max digit_of 0 s else None
  end.

Definition parse_ipv4 (s : string) : option Z :=
  match parse_octet <$> split_on "." s with
  | [Some a; Some b; Some c; Some d] => Some (from_be_bytes [a; b; c; d])
  | _ => None
  end.

Definition show_ipv4 (ip : Z) : string :=
  match to_be_bytes 4 ip with
  | [a; b; c; d] => show_nat a +:+ "." +:+ show_nat b +:+ "." +:+ show_nat c +:+ "." +:+ show_nat d
  | _ => ""
  end.

(** [!x] on a [u32] and [u32::count_ones]. *)
Definition u32_not (x : Z) : Z := (u32_max - x)%Z.

Fixpoint count_bits (n : nat) (x : Z) : Z :=
  match n with
  | O => 0
  | S n' => (count_bits n' x + Z.b2z (Z.testbit x (Z.of_nat n')))%Z
  end.

Definition count_ones (x : Z) : Z := count_bits 32 x.

(** ** Board addressing (adapter_l3.rs) *)

Record AdapterL3Settings := mkL3 {
  l3_ip_address : string; l3_subnet_mask : string;
  l3_gateway : option string; l3_dns_servers : list string }.

Definition ipv4_mask_to_prefix (mask : string) : Result string Z :=
  match split_on "." (trim mask) with
  | [p0; p1; p2; p3] =>
      match parse_u8 p0, parse_u8 p1, parse_u8 p2, parse_u8 p3 with
      | Some a, Some b, Some c, Some d =>
          let n := from_be_bytes [a; b; c; d] in
          let ones := count_ones n in
          if (0 <? ones)%Z && negb (n =? wrap32 (Z.shiftl u32_max (32 - ones)))%Z
          then Err "non-contiguous mask"
          else Ok (as_u8 ones)
      | _, _, _, _ => Err "octet"
      end
  | _ => Err "expected a.b.c.d"
  end.

(** ** DHCP (dhcp.rs) *)

Record DhcpPool := mkPool { pool_start : string; pool_end : string }.

(** The arithmetic of [derive_dhcp_pool], from the network and the broadcast
    address on. *)
Definition pool_between (ip_u network broadcast : Z) : Result string (Z * Z) :=
  let start := u32_wrapping_add network 100 in
  let end_ := u32_wrapping_add network 200 in
  let start := if (start <=? network)%Z then u32_wrapping_add network 1 else start in
  let end_ := if (broadcast <=? end_)%Z then u32_saturating_sub broadcast 1 else end_ in
  if (end_ <? start)%Z then Err "subnet too small for DHCP pool"
  else if (start <=? ip_u)%Z && (ip_u <=? end_)%Z then
    let '(start, end_) :=
      if (ip_u =? start)%Z then (u32_wrapping_add ip_u 1, end_)
      else if (ip_u =? end_)%Z then (start, u32_wrapping_sub ip_u 1)
      else (start, end_) in
    if (end_ <? start)%Z then Err "DHCP pool empty after excluding board IP"
    else Ok (start, end_)
  else Ok (start, end_).

Definition dhcp_range (ip_u mask_u : Z) : Result string (Z * Z) :=
  let network := Z.land ip_u mask_u in
  let broadcast := Z.lor network (u32_not mask_u) in
  pool_between ip_u network broadcast.

Definition derive_dhcp_pool (ip_address subnet_mask : string) : Result string DhcpPool :=
  match parse_ipv4 ip_address with
  | None => Err ("invalid ip_address " +:+ ip_address)
  | Some ip =>
      match parse_ipv4 subnet_mask with
      | None => Err ("invalid subnet_mask " +:+ subnet_mask)
      | Some mask => result_map (fun '(s, e) => mkPool (show_ipv4 s) (show_ipv4 e)) (dhcp_range ip mask)
      end
  end.

(** ** The lease file *)

Definition DYN_LEASE_SIZE : nat := 36.
Definition LEASE_FILE_HEADER_LEN : nat := 8.

Record DhcpLeaseEntry := mkEntry {
  de_ip : Z; de_mac : list Z; de_hostname : string; de_expires_in_secs : Z }.

Fixpoint string_of_bytes (bs : list Z) : string :=
  match bs with
  | [] => EmptyString
  | b :: bs' => String (ascii_of_N (Z.to_N b)) (string_of_bytes bs')
  end.

(** [String::from_utf8_lossy]: valid sequences are kept, a maximal invalid
    prefix becomes U+FFFD. *)
Definition cont (b : Z) : bool := ((128 <=? b) && (b <=? 191))%Z.
Definition replacement : list Z := [239; 191; 189]%Z.

Definition second_ok3 (a b : Z) : bool :=
  (((a =? 224) && (160 <=? b) && (b <=? 191))
   || ((225 <=? a) && (a <=? 236) && cont b)
   || ((a =? 237) && (128 <=? b) && (b <=? 159))
   || ((238 <=? a) && (a <=? 239) && cont b))%Z.

Definition second_ok4 (a b : Z) : bool :=
  (((a =? 240) && (144 <=? b) && (b <=? 191))
   || ((241 <=? a) && (a <=? 243) && cont b)
   || ((a =? 244) && (128 <=? b) && (b <=? 143)))%Z.

Fixpoint from_utf8_lossy (bs : list Z) : list Z :=
  match bs with
  | [] => []
  | a :: r1 =>
      if (a <? 128)%Z then a :: from_utf8_lossy r1
      else if ((194 <=? a) && (a <=? 223))%Z then
        match r1 with
        | b :: r2 => if cont b then a :: b :: from_utf8_lossy r2
                     else replacement ++ from_utf8_lossy r1
        | [] => replacement
        end
      else if ((224 <=? a) && (a <=? 239))%Z then
        match r1 with
        | b :: r2 =>
            if negb (second_ok3 a b) then replacement ++ from_utf8_lossy r1
            else match r2 with
                 | c :: r3 => if cont c then a :: b :: c :: from_utf8_lossy r3
                              else replacement ++ from_utf8_lossy r2
                 | [] => replacement
                 end
        | [] => replacement
        end
      else if ((240 <=? a) && (a <=? 244))%Z then
        match r1 with
        | b :: r2 =>
            if negb (second_ok4 a b) then replacement ++ from_utf8_lossy r1
            else match r2 with
                 | c :: r3 =>
                     if negb (cont c) then replacement ++ from_utf8_lossy r2
                     else match r3 with
                          | d :: r4 => if cont d then a :: b :: c :: d :: from_utf8_lossy r4
                                       else replacement ++ from_utf8_lossy r3
                          | [] => replacement
                          end
                 | [] => replacement
                 end
        | [] => replacement
        end
      else replacement ++ from_utf8_lossy r1
  end.

(** The bytes up to the first NUL. *)
Fixpoint until_nul (bs : list Z) : list Z :=
  match bs with
  | [] => []
  | b :: bs' => if (b =? 0)%Z then [] else b :: until_nul bs'
  end.

Definition slice (a b : nat) (bs : list Z) : list Z := take (b - a) (drop a bs).

(** The body of the loop of [parse_lease_file]: [None] is [continue]. *)
Definition parse_lease_record (rec : list Z) : option DhcpLeaseEntry :=
  let expires_raw := from_be_bytes (slice 0 4 rec) in
  let nip := from_be_bytes (slice 4 8 rec) in
  let mac := slice 8 14 rec in
  if (nip =? 0)%Z then None
  else if forallb (fun b => (b =? 0)%Z) mac then None
  else if (expires_raw =? 0)%Z then None
  else Some (mkEntry nip mac
               (trim (string_of_bytes (from_utf8_lossy (until_nul (slice 14 34 rec)))))
               expires_raw).

(** [n] turns of the loop. *)
Fixpoint lease_loop (n : nat) (body : list Z) : list DhcpLeaseEntry :=
  match n with
  | O => []
  | S n' => option_list (parse_lease_record (take DYN_LEASE_SIZE body))
            ++ lease_loop n' (drop DYN_LEASE_SIZE body)
  end.

Definition lease_records_slice (data : list Z) : list Z :=
  let len := length data in
  if (LEASE_FILE_HEADER_LEN <=? len)%nat then
    let with_header := ((len - LEASE_FILE_HEADER_LEN) mod DYN_LEASE_SIZE =? 0)%nat in
    let without_header := (len mod DYN_LEASE_SIZE =? 0)%nat in
    if with_header && negb without_header then drop LEASE_FILE_HEADER_LEN data
    else if with_header then
      let ts := from_be_bytes (take 8 data) in
      if ((1000000000 <=? ts) && (ts <? 4102444800))%Z then drop LEASE_FILE_HEADER_LEN data else data
    else data
  else data.

(** The loop runs while a whole record is left. *)
Definition parse_lease_file (data : list Z) : list DhcpLeaseEntry :=
  let body := lease_records_slice data in
  lease_loop (length body / DYN_LEASE_SIZE) body.

Definition select_controlled_host_lease (leases : list DhcpLeaseEntry) : option DhcpLeaseEntry :=
  match leases with
  | [] => None
  | [l] => Some l
  | l :: rest =>
      let max_rem := fold_left Z.max (de_expires_in_secs <$> rest) (de_expires_in_secs l) in
      iter_find (fun l => (de_expires_in_secs l =? max_rem)%Z) leases
  end.

(** [mac_string], and the lease as the service reports it
    (control/zenoh.rs). *)
Definition mac_string (mac : list Z) : string :=
  match mac with
  | [] => ""
  | b :: rest => foldl (fun s x => s +:+ ":" +:+ show_hex2 x) (show_hex2 b) rest
  end.

Definition report_lease (l : DhcpLeaseEntry) : NetworkAdapterLease :=
  mkLease (show_ipv4 (de_ip l)) (mac_string (de_mac l)) (de_hostname l) (de_expires_in_secs l).

(** [None] when the file is not there; otherwise what reading it gives. *)
Definition resolve_controlled_host_ip (file : option (Result string (list Z)))
  : Result string (option Z) :=
  match file with
  | None => Ok (de_ip <$> select_controlled_host_lease [])
  | Some (Err e) => Err e
  | Some (Ok data) => Ok (de_ip <$> select_controlled_host_lease (parse_lease_file data))
  end.

(** ** The handle (mod.rs)

    The commands the handle runs on the system, in order. *)

Inductive SysCmd : Set :=
| CFlushAddrs (ifname : string)
| CLinkDown (ifname : string)
| CAddrAdd (addr : string) (ifname : string)
| CLinkUp (ifname : string)
| CRouteReplace (gw ifname : string)
| CDhcpStop
| CDhcpStart (ifname server netmask start end_ : string).

(** The system: the interface name the gadget library reads at each attempt,
    which [ip] commands and whether the DHCP script succeed. *)
Record NetEnv := mkNetEnv {
  net_ifname : nat -> option string;
  ip_ok : SysCmd -> bool;
  script_is_file : bool;
  script_ok : SysCmd -> bool }.

Record NetworkAdapterHandle := mkNetHandle {
  na_enabled : bool;
  na_updating : bool;
  na_net : option NetworkAdapterType;
  na_ifname : option string;
  na_l3 : AdapterL3Settings;
  na_cmds : list SysCmd }.

Definition DEFAULT_L3 : AdapterL3Settings := mkL3 "172.16.0.1" "255.255.255.0" None [].

Definition na_new (enabled : bool) : NetworkAdapterHandle :=
  mkNetHandle enabled false None None DEFAULT_L3 [].

Definition na_set_enabled (b : bool) (h : NetworkAdapterHandle) : NetworkAdapterHandle :=
  mkNetHandle b (na_updating h) (na_net h) (na_ifname h) (na_l3 h) (na_cmds h).
Definition na_set_updating (b : bool) (h : NetworkAdapterHandle) : NetworkAdapterHandle :=
  mkNetHandle (na_enabled h) b (na_net h) (na_ifname h) (na_l3 h) (na_cmds h).
Definition na_set_ifname (i : option string) (h : NetworkAdapterHandle) : NetworkAdapterHandle :=
  mkNetHandle (na_enabled h) (na_updating h) (na_net h) i (na_l3 h) (na_cmds h).
Definition na_run (c : SysCmd) (h : NetworkAdapterHandle) : NetworkAdapterHandle :=
  mkNetHandle (na_enabled h) (na_updating h) (na_net h) (na_ifname h) (na_l3 h) (na_cmds h ++ [c]).

Definition set_net (net : option NetworkAdapterType) (h : NetworkAdapterHandle)
  : NetworkAdapterHandle :=
  mkNetHandle (na_enabled h) (na_updating h) net
    (match net with None => None | Some _ => na_ifname h end) (na_l3 h) (na_cmds h).

(** The settings of a request; empty ones are ignored. *)
Definition set_l3_from_proto (cfg : option AdapterL3Settings) (h : NetworkAdapterHandle)
  : NetworkAdapterHandle :=
  match cfg with
  | None => h
  | Some c =>
      if is_empty (l3_ip_address c) && is_empty (l3_subnet_mask c) then h
      else mkNetHandle (na_enabled h) (na_updating h) (na_net h) (na_ifname h)
             (mkL3 (l3_ip_address c) (l3_subnet_mask c)
                (match l3_gateway c with
                 | Some g => if is_empty g then None else Some g
                 | None => None
                 end) (l3_dns_servers c)) (na_cmds h)
  end.

Section net_ops.
Context (env : NetEnv).

Definition NM (A : Type) : Type := SE NetworkAdapterHandle UsbError A.

Definition refresh_ifname_from_net (attempt : nat) (h : NetworkAdapterHandle)
  : NetworkAdapterHandle :=
  if negb (na_enabled h) then na_set_ifname None h
  else match na_net h with
       | None => na_set_ifname None h
       | Some _ => match net_ifname env attempt with
                   | Some name => na_set_ifname (if is_empty name then None else Some name) h
                   | None => na_set_ifname None h
                   end
       end.

(** Twenty attempts; [attempt] counts the reads so far. *)
Fixpoint wait_for_ifname (n attempt : nat) (h : NetworkAdapterHandle)
  : NetworkAdapterHandle * option string :=
  match n with
  | O => (h, None)
  | S n' =>
      let h := refresh_ifname_from_net attempt h in
      match na_ifname h with
      | Some name => (h, Some name)
      | None => wait_for_ifname n' (S attempt) h
      end
  end.

Definition IFACE_WAIT_ATTEMPTS : nat := 20.

Definition dhcp_stop (h : NetworkAdapterHandle) : NetworkAdapterHandle :=
  if script_is_file env then na_run CDhcpStop h else h.

Definition flush_and_down (ifname : string) (h : NetworkAdapterHandle) : NetworkAdapterHandle :=
  na_run (CLinkDown ifname) (na_run (CFlushAddrs ifname) h).

(** [run_ip] with its error mapped. *)
Definition run_ip (c : SysCmd) (e : UsbError) : NM unit :=
  se_modify (na_run c) ;;; se_guard (negb (ip_ok env c)) e.

Definition apply_board_l3 (ifname : string) (cfg : AdapterL3Settings) : NM unit :=
  se_guard (starts_with "eth" ifname)
    (InvalidArgument ("refusing network adapter L3 on eth interface: " +:+ ifname)) ;;;
  let! prefix := se_of_result (result_map_err
    (fun e => InvalidArgument ("invalid subnet_mask: " +:+ e))
    (ipv4_mask_to_prefix (l3_subnet_mask cfg))) in
  se_guard (bool_decide (parse_ipv4 (l3_ip_address cfg) = None)) (InvalidArgument "invalid ip_address") ;;;
  se_modify (na_run (CFlushAddrs ifname)) ;;;
  run_ip (CAddrAdd (l3_ip_address cfg +:+ "/" +:+ show_nat prefix) ifname)
    (IoError ("ip addr add on " +:+ ifname)) ;;;
  run_ip (CLinkUp ifname) (IoError ("ip link set " +:+ ifname +:+ " up")) ;;;
  match l3_gateway cfg with
  | Some gw =>
      if is_empty gw then se_ret tt
      else se_guard (bool_decide (parse_ipv4 gw = None)) (InvalidArgument "invalid gateway") ;;;
           se_modify (na_run (CRouteReplace gw ifname))
  | None => se_ret tt
  end.

Definition dhcp_start (ifname : string) (cfg : AdapterL3Settings) (pool : DhcpPool)
  (h : NetworkAdapterHandle) : NetworkAdapterHandle * Result string unit :=
  if starts_with "eth" ifname then (h, Err ("refusing DHCP on eth interface: " +:+ ifname))
  else if negb (script_is_file env) then (h, Err "script not found")
  else let c := CDhcpStart ifname (l3_ip_address cfg) (l3_subnet_mask cfg)
                  (pool_start pool) (pool_end pool) in
       (na_run c h, if script_ok env c then Ok tt else Err "status").

(** A DHCP failure is logged, the addressing stays. *)
Definition apply_l3 : NM unit :=
  let! on := se_get na_enabled in
  if negb on then
    se_modify dhcp_stop ;;;
    let! i := se_get na_ifname in
    match i with Some ifname => se_modify (flush_and_down ifname) | None => se_ret tt end
  else
    se_modify dhcp_stop ;;;
    se_modify (refresh_ifname_from_net 0) ;;;
    let! i := se_lift (wait_for_ifname IFACE_WAIT_ATTEMPTS 1) in
    let! ifname := se_of_result
      (ok_or i (DeviceNotFound "network adapter enabled but netdev ifname not found")) in
    let! cfg := se_get na_l3 in
    apply_board_l3 ifname cfg ;;;
    match derive_dhcp_pool (l3_ip_address cfg) (l3_subnet_mask cfg) with
    | Ok pool => let! _ := se_lift (dhcp_start ifname cfg pool) in se_ret tt
    | Err _ => se_ret tt
    end.

Definition na_on_change_request (req : ChangeRequest) (h : NetworkAdapterHandle)
  : NetworkAdapterHandle * ChangeResponse :=
  match req with
  | RequestChange => (h, Proceed)
  | PrepareChange =>
      let h := dhcp_stop (na_set_updating true h) in
      let h := match na_ifname h with Some i => flush_and_down i h | None => h end in
      (na_set_ifname None (set_net None h), Proceed)
  | ChangeCompleted | ChangeCanceled => ((apply_l3 (na_set_updating false h)).1, Proceed)
  end.
End net_ops.

(** ** Theorems: masks *)

Lemma count_bits_bounds n x : (0 <= count_bits n x <= Z.of_nat n)%Z.
Proof.
  induction n as [|n IH]; cbn [count_bits]; [lia|].
  destruct (Z.testbit x (Z.of_nat n)); cbn [Z.b2z]; lia.
Qed.

Lemma count_bits_zero n x i :
  count_bits n x = 0%Z -> (0 <= i < Z.of_nat n)%Z -> Z.testbit x i = false.
Proof.
  induction n as [|n IH]; cbn [count_bits]; intros Hc Hi; [lia|].
  pose proof (count_bits_bounds n x).
  destruct (Z.testbit x (Z.of_nat n)) eqn:E; cbn [Z.b2z] in Hc; [lia|].
  destruct (decide (i = Z.of_nat n)) as [->|]; [done|]. apply IH; lia.
Qed.

Lemma count_bits_none n x :
  (0 <= x < 2 ^ Z.of_nat n)%Z -> count_bits n x = 0%Z -> x = 0%Z.
Proof.
  intros Hx Hc. apply Z.bits_inj_0. intros i.
  destruct (Z.ltb_spec i 0); [by apply Z.testbit_neg_r|].
  destruct (Z.ltb_spec i (Z.of_nat n)).
  - by apply (count_bits_zero n).
  - destruct (decide (x = 0%Z)) as [->|]; [apply Z.bits_0|].
    apply Z.bits_above_log2; [lia|].
    assert (Z.log2 x < Z.of_nat n)%Z by (apply Z.log2_lt_pow2; lia). lia.
Qed.

Lemma count_ones_spec x :
  (0 <= count_ones x <= 32)%Z /\ ((0 <= x < 2 ^ 32)%Z -> count_ones x = 0%Z -> x = 0%Z).
Proof.
  unfold count_ones. generalize (eq_refl : Z.of_nat 32 = 32%Z). generalize 32%nat.
  intros n Hn. rewrite <- Hn. split; [apply count_bits_bounds|apply count_bits_none].
Qed.

Lemma digit_of_range c d : digit_of c = Some d -> (0 <= d <= 9)%Z.
Proof. unfold digit_of. repeat case_match; intros; simplify_eq; lia. Qed.

Lemma parse_digits_range max acc s v :
  (0 <= acc <= max)%Z -> parse_digits 10 max digit_of acc s = Some v -> (0 <= v <= max)%Z.
Proof.
  revert acc. induction s as [|c s IH]; intros acc Ha; cbn [parse_digits]; [by intros [= <-]|].
  destruct (digit_of c) as [d|] eqn:Ed; [|done]. apply digit_of_range in Ed.
  destruct (Z.leb_spec (acc * 10 + d) max); [|done]. apply IH. lia.
Qed.

Lemma parse_u8_range s v : parse_u8 s = Some v -> (0 <= v <= 255)%Z.
Proof.
  unfold parse_u8, parse_unsigned. assert (0 <= 0 <= u8_max)%Z by (unfold u8_max; lia).
  intros Hp. change 255%Z with u8_max.
  repeat case_match; try done; by eapply parse_digits_range.
Qed.

(** The 32-bit value written in a dotted mask. *)
Definition mask_value (mask : string) : option Z :=
  match parse_u8 <$> split_on "." (trim mask) with
  | [Some a; Some b; Some c; Some d] => Some (from_be_bytes [a; b; c; d])
  | _ => None
  end.

Definition prefix_mask (p : Z) : Z := (2 ^ 32 - 2 ^ (32 - p))%Z.

Lemma shifted_ones k :
  (1 <= k <= 32)%Z -> wrap32 (Z.shiftl u32_max (32 - k)) = prefix_mask k.
Proof.
  intros Hk. unfold wrap32, prefix_mask. rewrite Z.shiftl_mul_pow2 by lia.
  change u32_max with (2 ^ 32 - 1)%Z. change 4294967296%Z with (2 ^ 32)%Z.
  replace ((2 ^ 32 - 1) * 2 ^ (32 - k))%Z
    with (2 ^ 32 - 2 ^ (32 - k) + (2 ^ (32 - k) - 1) * 2 ^ 32)%Z by lia.
  rewrite Z.mod_add by lia. apply Z.mod_small.
  assert (0 < 2 ^ (32 - k))%Z by (apply Z.pow_pos_nonneg; lia).
  assert (2 ^ (32 - k) <= 2 ^ 32)%Z by (apply Z.pow_le_mono_r; lia). lia.
Qed.

(** The check of [ipv4_mask_to_prefix] on the value of the octets. *)
Lemma contiguous_mask n :
  (0 <= n < 2 ^ 32)%Z ->
  (0 <? count_ones n)%Z && negb (n =? wrap32 (Z.shiftl u32_max (32 - count_ones n)))%Z = false ->
  (0 <= count_ones n <= 32)%Z /\ n = prefix_mask (count_ones n).
Proof.
  intros Hn. destruct (count_ones_spec n) as [Hbound Hz]. specialize (Hz Hn).
  set (ones := count_ones n) in *. clearbody ones. destruct (Z.ltb_spec 0 ones); cbn [andb].
  - destruct (Z.eqb_spec n (wrap32 (Z.shiftl u32_max (32 - ones)))) as [Heq|]; [|done].
    intros _. split; [lia|]. rewrite Heq. apply shifted_ones. lia.
  - intros _. assert (ones = 0%Z) as -> by lia. split; [lia|]. by rewrite Hz.
Qed.

Lemma prefix_masks_accepted :
  forallb (fun p => bool_decide (ipv4_mask_to_prefix (show_ipv4 (prefix_mask p)) = Ok p))
    (seqZ 0 33) = true.
Proof. vm_compute. reflexivity. Qed.

Lemma as_u8_small x : (0 <= x < 256)%Z -> as_u8 x = x.
Proof. intros. unfold as_u8, wrap8. rewrite Z.mod_small; lia. Qed.

(** A subnet mask is accepted exactly when it is one of the 33 prefix masks:
    a prefix that comes back is between 0 and 32 and its mask is the value
    that was written, and the mask of each prefix reads back as it. *)
Theorem mask_prefix_exact :
  (∀ mask p, ipv4_mask_to_prefix mask = Ok p ->
     (0 <= p <= 32)%Z /\ mask_value mask = Some (prefix_mask p))
  /\ (∀ p, (0 <= p <= 32)%Z -> ipv4_mask_to_prefix (show_ipv4 (prefix_mask p)) = Ok p).
Proof.
  split.
  - intros mask p. unfold ipv4_mask_to_prefix, mask_value.
    destruct (split_on "." (trim mask)) as [|p0 [|p1 [|p2 [|p3 [|]]]]]; try done.
    cbn [fmap list_fmap].
    destruct (parse_u8 p0) as [a|] eqn:Ha; [|done]. destruct (parse_u8 p1) as [b|] eqn:Hb; [|done].
    destruct (parse_u8 p2) as [c|] eqn:Hc; [|done]. destruct (parse_u8 p3) as [d|] eqn:Hd; [|done].
    apply parse_u8_range in Ha, Hb, Hc, Hd.
    set (n := from_be_bytes [a; b; c; d]).
    assert (Hn : (0 <= n < 2 ^ 32)%Z) by (subst n; unfold from_be_bytes; cbn [be_combine]; lia).
    clearbody n. cbv zeta. destruct (_ && _) eqn:Ec; [done|].
    apply contiguous_mask in Ec as [Hb' Heq]; [|done].
    rewrite as_u8_small by lia. intros [= <-]. by rewrite <- Heq.
  - intros p Hp. pose proof prefix_masks_accepted as Hall. rewrite forallb_forall in Hall.
    eapply bool_decide_eq_true. apply Hall, list_elem_of_In, elem_of_seqZ. lia.
Qed.

(** ** Theorems: the DHCP pool *)









(** ** Theorems: the lease file *)

(** A record as BusyBox writes it ([struct dyn_lease]). *)
Record RawLease := mkRaw {
  raw_expires : Z; raw_nip : Z; raw_mac : list Z; raw_hostname : list Z; raw_pad : list Z }.

Definition encode_lease (r : RawLease) : list Z :=
  to_be_bytes 4 (raw_expires r) ++ to_be_bytes 4 (raw_nip r) ++ raw_mac r ++ raw_hostname r
  ++ raw_pad r.

Definition raw_ok (r : RawLease) : Prop :=
  (0 <= raw_expires r < 2 ^ 32)%Z /\ (0 <= raw_nip r < 2 ^ 32)%Z
  /\ length (raw_mac r) = 6%nat /\ length (raw_hostname r) = 20%nat /\ length (raw_pad r) = 2%nat.

(** A slot in use: an address, a hardware address and time left. *)
Definition active_lease (r : RawLease) : option DhcpLeaseEntry :=
  if (raw_nip r =? 0)%Z || forallb (fun b => (b =? 0)%Z) (raw_mac r) || (raw_expires r =? 0)%Z
  then None
  else Some (mkEntry (raw_nip r) (raw_mac r)
               (trim (string_of_bytes (from_utf8_lossy (until_nul (raw_hostname r)))))
               (raw_expires r)).

Lemma encode_lease_length r : raw_ok r -> length (encode_lease r) = DYN_LEASE_SIZE.
Proof.
  intros (_ & _ & H1 & H2 & H3). unfold encode_lease.
  rewrite !length_app, !to_be_bytes_length, H1, H2, H3. done.
Qed.

Lemma parse_encoded_lease r : raw_ok r -> parse_lease_record (encode_lease r) = active_lease r.
Proof.
  intros (He & Hn & H1 & H2 & H3). unfold parse_lease_record.
  assert (Hs1 : slice 0 4 (encode_lease r) = to_be_bytes 4 (raw_expires r)).
  { unfold slice, encode_lease. rewrite drop_0. by rewrite take_app_length' by done. }
  assert (Hs2 : slice 4 8 (encode_lease r) = to_be_bytes 4 (raw_nip r)).
  { unfold slice, encode_lease. rewrite drop_app_length' by by rewrite to_be_bytes_length.
    by rewrite take_app_length' by by rewrite to_be_bytes_length. }
  assert (Hs3 : slice 8 14 (encode_lease r) = raw_mac r).
  { unfold slice, encode_lease. rewrite (assoc_L (++)).
    rewrite drop_app_length' by by rewrite length_app, !to_be_bytes_length.
    by rewrite take_app_length'. }
  assert (Hs4 : slice 14 34 (encode_lease r) = raw_hostname r).
  { unfold slice, encode_lease. rewrite !(assoc_L (++)), <- (assoc_L (++)).
    rewrite drop_app_length' by by rewrite !length_app, !to_be_bytes_length, H1.
    by rewrite take_app_length'. }
  rewrite Hs1, Hs2, Hs3, Hs4, !be_bytes_roundtrip by done. unfold active_lease.
  destruct (raw_nip r =? 0)%Z, (forallb _ _), (raw_expires r =? 0)%Z; done.
Qed.

Lemma encoded_length rs : Forall raw_ok rs -> length (concat (encode_lease <$> rs)) = (length rs * 36)%nat.
Proof.
  induction 1 as [|r rs Hr _ IH]; [done|]. cbn [fmap list_fmap concat length].
  rewrite length_app, IH, encode_lease_length by done. unfold DYN_LEASE_SIZE. lia.
Qed.

Lemma lease_loop_encoded rs :
  Forall raw_ok rs -> lease_loop (length rs) (concat (encode_lease <$> rs)) = omap active_lease rs.
Proof.
  induction 1 as [|r rs Hr _ IH]; [done|]. cbn [length lease_loop fmap list_fmap concat].
  rewrite take_app_length', drop_app_length' by by rewrite encode_lease_length.
  rewrite parse_encoded_lease, IH by done. cbn. by destruct (active_lease r).
Qed.

(** The header is recognised from the length: 36 does not divide 8. *)
Lemma slice_with_header header body n :
  length header = LEASE_FILE_HEADER_LEN -> length body = (n * 36)%nat ->
  lease_records_slice (header ++ body) = body.
Proof.
  unfold lease_records_slice, LEASE_FILE_HEADER_LEN, DYN_LEASE_SIZE. intros Hh Hb. cbv zeta.
  rewrite drop_app_length', length_app, Hh, Hb by done.
  replace (8 + n * 36 - 8)%nat with (n * 36)%nat by lia.
  rewrite Nat.Div0.mod_mul, Nat.Div0.mod_add.
  change (8 mod 36 =? 0)%nat with false. change (8 <=? 8 + n * 36)%nat with true. done.
Qed.

Lemma slice_without_header body n :
  length body = (n * 36)%nat -> lease_records_slice body = body.
Proof.
  unfold lease_records_slice, LEASE_FILE_HEADER_LEN, DYN_LEASE_SIZE. intros Hb. cbv zeta.
  rewrite Hb, Nat.Div0.mod_mul, Nat.eqb_refl, andb_false_r.
  destruct (Nat.leb_spec 8 (n * 36)); [|done].
  destruct (Nat.eqb_spec ((n * 36 - 8) mod 36) 0) as [Em|]; [|done].
  exfalso. apply Nat.Div0.mod_divides in Em as [k Hk]. lia.
Qed.

(** Whatever BusyBox writes, with the eight byte timestamp or without, reads
    back as the active leases in file order: slots without an address, without
    a hardware address or without time left are skipped, and the header is
    recognised from the length alone, whatever its value. *)
Theorem lease_file_roundtrip header rs :
  length header = LEASE_FILE_HEADER_LEN -> Forall raw_ok rs ->
  parse_lease_file (header ++ concat (encode_lease <$> rs)) = omap active_lease rs
  /\ parse_lease_file (concat (encode_lease <$> rs)) = omap active_lease rs.
Proof.
  intros Hh Hrs. pose proof (encoded_length rs Hrs) as Hl.
  assert (Hdiv : (length rs * 36 / DYN_LEASE_SIZE = length rs)%nat) by (apply Nat.div_mul; done).
  unfold parse_lease_file. rewrite (slice_with_header _ _ (length rs)) by done.
  rewrite (slice_without_header _ (length rs)) by done. cbv zeta.
  rewrite Hl, Hdiv. by rewrite lease_loop_encoded.
Qed.

(** ** Theorems: the controlled host *)

Lemma fold_max_spec l z :
  (z <= fold_left Z.max l z)%Z /\ (∀ x, x ∈ l -> (x <= fold_left Z.max l z)%Z)
  /\ (fold_left Z.max l z = z \/ fold_left Z.max l z ∈ l).
Proof.
  revert z. induction l as [|y l IH]; intros z; cbn [fold_left].
  - split_and!; [lia|set_solver|by left].
  - destruct (IH (Z.max z y)) as (H1 & H2 & H3). split_and!; [lia| |].
    + intros x [->|Hx]%elem_of_cons; [lia|by apply H2].
    + destruct H3 as [H3|H3]; [|by right; right].
      destruct (Z.max_spec z y) as [[_ Hm]|[_ Hm]]; rewrite Hm in *; [|by left].
      right. rewrite H3. by left.
Qed.

Lemma select_controlled_spec leases :
  match select_controlled_host_lease leases with
  | Some l => ∃ before after,
      leases = before ++ l :: after
      /\ (∀ x, x ∈ leases -> (de_expires_in_secs x <= de_expires_in_secs l)%Z)
      /\ (∀ x, x ∈ before -> (de_expires_in_secs x < de_expires_in_secs l)%Z)
  | None => leases = []
  end.
Proof.
  unfold select_controlled_host_lease. destruct leases as [|l [|l2 rest]]; [done| |].
  { exists [], []. set_solver. }
  set (m := fold_left _ _ _).
  destruct (fold_max_spec (de_expires_in_secs <$> l2 :: rest) (de_expires_in_secs l)) as (H1 & H2 & H3).
  fold m in H1, H2, H3.
  assert (Hmax : ∀ x, x ∈ l :: l2 :: rest -> (de_expires_in_secs x <= m)%Z).
  { intros x [->|Hx]%elem_of_cons; [done|]. apply H2, list_elem_of_fmap. eauto. }
  assert (Hex : ∃ x, x ∈ l :: l2 :: rest /\ de_expires_in_secs x = m).
  { destruct H3 as [H3|(x & -> & Hx)%list_elem_of_fmap]; [exists l|exists x]; split; auto; by constructor. }
  clearbody m. clear H1 H2 H3.
  pose proof (iter_find_spec (fun l => (de_expires_in_secs l =? m)%Z) (l :: l2 :: rest)) as Hf.
  destruct (iter_find _ _) as [r|].
  - destruct Hf as (l1 & l3 & Hl & He & Hlt). exists l1, l3. apply Z.eqb_eq in He. rewrite He.
    split; [done|]. split; [done|]. intros x Hx. specialize (Hlt x Hx). apply Z.eqb_neq in Hlt.
    assert (de_expires_in_secs x <= m)%Z by (apply Hmax; rewrite Hl; set_solver). lia.
  - destruct Hex as (x & Hx & He). specialize (Hf x Hx). apply Z.eqb_neq in Hf. lia.
Qed.

Lemma first_maximal_unique {A} (key : A -> Z) (l1 l2 r1 r2 : list A) x y :
  l1 ++ x :: r1 = l2 ++ y :: r2 ->
  (∀ z, z ∈ l1 ++ x :: r1 -> (key z <= key x)%Z) -> (∀ z, z ∈ l1 -> (key z < key x)%Z) ->
  (∀ z, z ∈ l2 ++ y :: r2 -> (key z <= key y)%Z) -> (∀ z, z ∈ l2 -> (key z < key y)%Z) -> x = y.
Proof.
  intros Heq Hx Hlx Hy Hly.
  assert (key x <= key y)%Z by (apply Hy; rewrite <- Heq; set_solver).
  assert (key y <= key x)%Z by (apply Hx; rewrite Heq; set_solver).
  apply app_eq_inv in Heq as [([|z k] & -> & Hk)|([|z k] & -> & Hk)]; cbn in Hk; simplify_eq; auto.
  - assert (key z < key x)%Z by (apply Hlx; set_solver). lia.
  - assert (key z < key y)%Z by (apply Hly; set_solver). lia.
Qed.

(** The two selections of the controlled host agree: the one the USB service
    makes on the lease file and the one the forwarding code makes on the
    leases the service reports pick the same lease. *)
Theorem lease_selections_agree leases :
  select_lease (report_lease <$> leases) = report_lease <$> select_controlled_host_lease leases.
Proof.
  pose proof (select_lease_spec (report_lease <$> leases)) as H1.
  pose proof (select_controlled_spec leases) as H2.
  destruct (select_controlled_host_lease leases) as [l|]; cbn; [|by subst].
  destruct H2 as (b & a & Hl & Hmax & Hlt).
  destruct (select_lease _) as [l'|]; [|apply fmap_nil_inv in H1; subst; by destruct b].
  destruct H1 as (b' & a' & Hl' & Hmax' & Hlt'). f_equal. symmetry.
  apply (first_maximal_unique lease_expires (report_lease <$> b) b' (report_lease <$> a) a').
  - by rewrite <- Hl', Hl, fmap_app.
  - intros z Hz. rewrite <- fmap_cons, <- fmap_app, <- Hl in Hz.
    apply list_elem_of_fmap in Hz as (x & -> & Hx). by apply Hmax.
  - intros z (x & -> & Hx)%list_elem_of_fmap. by apply Hlt.
  - by rewrite <- Hl'.
  - done.
Qed.

(** ** Theorems: the handle *)

Inductive NetOp : Type :=
| NSetEnabled (b : bool) | NSetNet (n : option NetworkAdapterType)
| NSetL3 (c : option AdapterL3Settings) | NApplyL3 | NChange (r : ChangeRequest).

Definition net_op (env : NetEnv) (o : NetOp) (h : NetworkAdapterHandle) : NetworkAdapterHandle :=
  match o with
  | NSetEnabled b => na_set_enabled b h
  | NSetNet n => set_net n h
  | NSetL3 c => set_l3_from_proto c h
  | NApplyL3 => (apply_l3 env h).1
  | NChange r => (na_on_change_request env r h).1
  end.

Definition net_run (ops : list (NetEnv * NetOp)) (h : NetworkAdapterHandle)
  : NetworkAdapterHandle :=
  fold_left (fun h '(env, o) => net_op env o h) ops h.

(** A DHCP server started after [pre] is backed by an address on its
    interface, which is not one of the board's Ethernet interfaces. *)
Definition backed (pre : list SysCmd) (c : SysCmd) : Prop :=
  match c with
  | CDhcpStart i ip m s e =>
      starts_with "eth" i = false
      /\ derive_dhcp_pool ip m = Ok (mkPool s e)
      /\ ∃ p, ipv4_mask_to_prefix m = Ok p /\ CAddrAdd (ip +:+ "/" +:+ show_nat p) i ∈ pre
  | CAddrAdd _ i | CLinkUp i | CRouteReplace _ i => starts_with "eth" i = false
  | _ => True
  end.

Definition all_backed (cmds : list SysCmd) : Prop :=
  ∀ pre c post, cmds = pre ++ c :: post -> backed pre c.

Lemma all_backed_snoc cmds c : all_backed cmds -> backed cmds c -> all_backed (cmds ++ [c]).
Proof.
  intros Hall Hc pre c' post Heq.
  destruct post as [|x post _] using rev_ind.
  - apply app_inj_tail in Heq as [-> ->]. done.
  - rewrite app_comm_cons, (assoc_L (++)) in Heq. apply app_inj_tail in Heq as [-> _].
    by eapply Hall.
Qed.

Definition na_ok (h : NetworkAdapterHandle) : Prop := all_backed (na_cmds h).

Lemma na_run_ok c h : backed (na_cmds h) c -> na_ok h -> na_ok (na_run c h).
Proof. intros. by apply all_backed_snoc. Qed.

Lemma dhcp_stop_ok env h : na_ok h -> na_ok (dhcp_stop env h).
Proof. unfold dhcp_stop. destruct (script_is_file env); [by apply na_run_ok|done]. Qed.

Lemma flush_and_down_ok i h : na_ok h -> na_ok (flush_and_down i h).
Proof. intros. by do 2 (apply na_run_ok; [done|]). Qed.

Lemma wait_for_ifname_spec env n a h :
  na_cmds (wait_for_ifname env n a h).1 = na_cmds h /\ na_l3 (wait_for_ifname env n a h).1 = na_l3 h.
Proof.
  revert a h. induction n as [|n IH]; intros a h; cbn; [done|].
  assert (Hr : na_cmds (refresh_ifname_from_net env a h) = na_cmds h
               /\ na_l3 (refresh_ifname_from_net env a h) = na_l3 h).
  { unfold refresh_ifname_from_net. repeat case_match; done. }
  destruct Hr as [Hr1 Hr2]. destruct (na_ifname _); [done|].
  destruct (IH (S a) (refresh_ifname_from_net env a h)) as [-> ->]. done.
Qed.

(** Addressing keeps the trace backed, and when it succeeds the address is on
    the interface. *)
Lemma apply_board_l3_ok env ifname cfg h h' r :
  apply_board_l3 env ifname cfg h = (h', r) -> na_ok h ->
  na_ok h' /\ na_l3 h' = na_l3 h
  /\ (r = Ok tt -> starts_with "eth" ifname = false
      /\ ∃ p, ipv4_mask_to_prefix (l3_subnet_mask cfg) = Ok p
              /\ CAddrAdd (l3_ip_address cfg +:+ "/" +:+ show_nat p) ifname ∈ na_cmds h').
Proof.
  unfold apply_board_l3, run_ip; se_unfold.
  destruct (starts_with "eth" ifname) eqn:Ee; [by intros [= <- <-]|].
  destruct (ipv4_mask_to_prefix _) as [p|e]; cbn [result_map_err]; [|by intros [= <- <-]].
  destruct (bool_decide _); [by intros [= <- <-]|]. intros Heq Hok.
  set (add := CAddrAdd _ _) in *.
  assert (H1 : na_ok (na_run add (na_run (CFlushAddrs ifname) h))) by by do 2 (apply na_run_ok; [done|]).
  assert (H2 : na_ok (na_run (CLinkUp ifname) (na_run add (na_run (CFlushAddrs ifname) h))))
    by by apply na_run_ok.
  destruct (negb (ip_ok env add)); [by simplify_eq|].
  destruct (negb (ip_ok env _)); [by simplify_eq|].
  assert (Hfin : add ∈ na_cmds (na_run (CLinkUp ifname) (na_run add (na_run (CFlushAddrs ifname) h)))).
  { cbn. set_solver. }
  destruct (l3_gateway cfg) as [gw|]; [|simplify_eq; eauto 6].
  destruct (is_empty gw); [simplify_eq; eauto 6|].
  destruct (bool_decide _); [by simplify_eq|]. simplify_eq. split; [by apply na_run_ok|].
  split; [done|]. intros _. split; [done|]. exists p. split; [done|]. cbn in *. set_solver.
Qed.

Lemma apply_l3_ok env h : na_ok h -> na_ok (apply_l3 env h).1.
Proof.
  intros Hok. unfold apply_l3; se_unfold.
  destruct (na_enabled h); cbn [negb].
  - set (h1 := refresh_ifname_from_net env 0 (dhcp_stop env h)).
    assert (H1 : na_ok h1).
    { subst h1. apply (dhcp_stop_ok env) in Hok. unfold refresh_ifname_from_net.
      repeat case_match; done. }
    pose proof (wait_for_ifname_spec env IFACE_WAIT_ATTEMPTS 1 h1) as [Hc Hl].
    destruct (wait_for_ifname _ _ _ h1) as [h2 [ifname|]]; cbn [ok_or fst] in *; [|by unfold na_ok; rewrite Hc].
    assert (H2 : na_ok h2) by by unfold na_ok; rewrite Hc.
    destruct (apply_board_l3 env ifname (na_l3 h2) h2) as [h3 r] eqn:Ea.
    apply apply_board_l3_ok in Ea as (H3 & Hl3 & Hin); [|done]. destruct r as [[]|]; [|done].
    destruct (derive_dhcp_pool _ _) as [[ps pe]|] eqn:Ep; [|done].
    unfold dhcp_start. destruct (Hin eq_refl) as (He & p & Hp & Hadd). rewrite He.
    destruct (negb _); [done|]. cbn. apply na_run_ok; [|done]. split_and!; eauto.
  - destruct (na_ifname _); cbn; [apply flush_and_down_ok|]; by apply dhcp_stop_ok.
Qed.

Lemma net_op_ok env o h : na_ok h -> na_ok (net_op env o h).
Proof.
  intros Hok. destruct o as [b|n|c| |[]]; cbn [net_op na_on_change_request fst]; try done.
  - destruct c as [c|]; cbn; [|done]. by destruct (is_empty _ && _).
  - by apply apply_l3_ok.
  - assert (H1 : na_ok (dhcp_stop env (na_set_updating true h))) by by apply dhcp_stop_ok.
    destruct (na_ifname _); [|done]. by apply flush_and_down_ok.
  - by apply apply_l3_ok.
  - by apply apply_l3_ok.
Qed.

(** Which interface the DHCP server serves after the commands. *)
Definition serving (cmds : list SysCmd) : option string :=
  fold_left (fun acc c => match c with
                          | CDhcpStop => None
                          | CDhcpStart i _ _ _ _ => Some i
                          | _ => acc
                          end) cmds None.

(** Over any run of the network adapter, no address, route or DHCP server is
    put on an [eth] interface, and every DHCP server offers the pool derived
    from its address and mask on an interface that was given that address
    first; when the gadget is about to go away, no DHCP server is left running
    (where its control script is installed) and the interface is forgotten. *)
Theorem dhcp_backed_by_address ops enabled env :
  let h := net_run ops (na_new enabled) in
  all_backed (na_cmds h)
  /\ (script_is_file env = true ->
      let h' := net_op env (NChange PrepareChange) h in
      serving (na_cmds h') = None /\ na_ifname h' = None /\ na_net h' = None).
Proof.
  intros h. split.
  - apply (fold_left_inv na_ok); [intros h' [env' o]; apply net_op_ok|intros [] c post; done].
  - intros Hs. cbn. unfold dhcp_stop. rewrite Hs. unfold serving.
    cbn [na_ifname na_run na_set_updating]. destruct (na_ifname h); cbn;
      rewrite ?fold_left_app; done.
Qed.
