(* ===== verification/Manager.v ===== *)
(** * USB device manager (crates/usb_devices/src/manager.rs)

    The manager owns the gadget and the device handles.  A change asks every
    handle (request, prepare), tears the gadget down, rebuilds it from the
    switches and tells the handles that it is over.

    The manager only uses its devices through [UsbDevices]; what it relies on
    is stated by [UsbDeviceLaws]. *)

From S2P Require Import Prelude Hid Gadget.

Inductive Service : Set :=
| VIRTUAL_MEDIA_SERVICE | FILE_TRANSFER_SERVICE | UAC_SERVICE | HID_KB_SERVICE
| HID_REL_SERVICE | HID_ABS_SERVICE | NETWORK_ADAPTER_SERVICE.

#[export] Instance Service_eq_dec : EqDecision Service.
Proof. solve_decision. Defined.

Definition service_index (s : Service) : nat :=
  match s with
  | VIRTUAL_MEDIA_SERVICE => 0 | FILE_TRANSFER_SERVICE => 1 | UAC_SERVICE => 2
  | HID_KB_SERVICE => 3 | HID_REL_SERVICE => 4 | HID_ABS_SERVICE => 5
  | NETWORK_ADAPTER_SERVICE => 6
  end.

Definition all_services : list Service :=
  [VIRTUAL_MEDIA_SERVICE; FILE_TRANSFER_SERVICE; UAC_SERVICE; HID_KB_SERVICE; HID_REL_SERVICE;
   HID_ABS_SERVICE; NETWORK_ADAPTER_SERVICE].

#[export] Instance Service_countable : Countable Service.
Proof. apply (inj_countable service_index (fun n => all_services !! n)). by intros []. Defined.

(** What the manager needs of a device handle: how it answers a change request
    (in an environment), whether it believes that a change is under way,
    whether it has let go of the gadget, how it is made and configured from the
    switches and the microphone flag, the virtual media mode, and the network
    function it is given. *)
Class UsbDevices (H DevEnv : Type) := {
  on_change : DevEnv -> ChangeRequest -> H -> H * ChangeResponse;
  dev_updating : H -> bool;
  dev_quiet : H -> Prop;
  dev_create : Service -> DeviceSwitches -> bool -> H;
  dev_configure : DeviceSwitches -> bool -> H -> H;
  dev_vm_mode : H -> UmsMode;
  dev_set_net : option NetworkAdapterType -> H -> H }.

(** What a device promises: an approved preparation lets go of the gadget, and
    both ends of a change leave the updating state. *)
Class UsbDeviceLaws (H DevEnv : Type) `{UsbDevices H DevEnv} := {
  prepared_quiet env h h' : on_change env PrepareChange h = (h', Proceed) -> dev_quiet h';
  completed_ends env h : dev_updating (on_change env ChangeCompleted h).1 = false;
  canceled_ends env h : dev_updating (on_change env ChangeCanceled h).1 = false }.

(** What the world answers at one interaction. *)
Record World (DevEnv : Type) := mkWorld {
  w_dev : DevEnv;
  w_root_exists : bool;                     (** the gadget's configfs directory *)
  w_register : Result UsbError unit;
  w_hook : Result UsbError unit;
  w_bind : Result UsbError unit;
  w_remove_tree : Result UsbError unit }.
Arguments mkWorld {DevEnv}.
Arguments w_dev {DevEnv}.
Arguments w_register {DevEnv}.
Arguments w_hook {DevEnv}.
Arguments w_bind {DevEnv}.
Arguments w_remove_tree {DevEnv}.
Arguments w_root_exists {DevEnv}.

(** [change_handlers] and [device_services] share the handles: the handlers
    are the keys under which the handles are stored, in the iteration order of
    the [HashMap].  The names of the seven handles are distinct, so registering
    one never fails.  [clock] counts interactions with the world. *)
Record Manager (H : Type) := mkManager {
  base_info : UsbBaseInfo;
  m_switches : DeviceSwitches;
  change_handlers : list Service;
  device_services : gmap Service H;
  active_gadget : option Gadget;
  emulation_enabled : bool;
  mic_process_enabled : bool;
  clock : nat }.
Arguments mkManager {H}.
Arguments base_info {H}.
Arguments m_switches {H}.
Arguments change_handlers {H}.
Arguments device_services {H}.
Arguments active_gadget {H}.
Arguments emulation_enabled {H}.
Arguments mic_process_enabled {H}.
Arguments clock {H}.

Section manager.
Context {H DevEnv : Type} `{!UsbDevices H DevEnv}.
Context (world : nat -> World DevEnv) (rehash : list Service -> list Service).

Definition MM (A : Type) : Type := SE (Manager H) UsbError A.

Definition no_switches : DeviceSwitches :=
  mkSwitches false false false false false false false None.

Definition manager_new (base : UsbBaseInfo) : Manager H :=
  mkManager base no_switches [] ∅ None true false 0.

Definition with_services (hs : list Service) (ds : gmap Service H) (m : Manager H) : Manager H :=
  mkManager (base_info m) (m_switches m) hs ds (active_gadget m) (emulation_enabled m)
    (mic_process_enabled m) (clock m).
Definition with_gadget (g : option Gadget) (m : Manager H) : Manager H :=
  mkManager (base_info m) (m_switches m) (change_handlers m) (device_services m) g
    (emulation_enabled m) (mic_process_enabled m) (clock m).
Definition with_emulation (b : bool) (m : Manager H) : Manager H :=
  mkManager (base_info m) (m_switches m) (change_handlers m) (device_services m)
    (active_gadget m) b (mic_process_enabled m) (clock m).
Definition with_mic (b : bool) (m : Manager H) : Manager H :=
  mkManager (base_info m) (m_switches m) (change_handlers m) (device_services m)
    (active_gadget m) (emulation_enabled m) b (clock m).
Definition with_config (b : UsbBaseInfo) (s : DeviceSwitches) (m : Manager H) : Manager H :=
  mkManager b s (change_handlers m) (device_services m)
    (active_gadget m) (emulation_enabled m) (mic_process_enabled m) (clock m).
Definition tick (m : Manager H) : Manager H :=
  mkManager (base_info m) (m_switches m) (change_handlers m) (device_services m)
    (active_gadget m) (emulation_enabled m) (mic_process_enabled m) (S (clock m)).

(** One interaction with the world. *)
Definition ask {A} (f : World DevEnv -> A) (m : Manager H) : Manager H * A :=
  (tick m, f (world (clock m))).

(** A request to one handler. *)
Definition send_request (req : ChangeRequest) (s : Service) (m : Manager H)
  : Manager H * ChangeResponse :=
  match device_services m !! s with
  | None => (m, Proceed)
  | Some h =>
      let '(h', r) := on_change (w_dev (world (clock m))) req h in
      (tick (with_services (change_handlers m) (<[s := h']> (device_services m)) m), r)
  end.

(** [for handler in snapshot { let _ = handler.on_change_request(req) }]. *)
Definition notify_all (req : ChangeRequest) (m : Manager H) : Manager H :=
  fold_left (fun m s => (send_request req s m).1) (change_handlers m) m.

(** The loop that stops at the first rejection. *)
Fixpoint ask_handlers (req : ChangeRequest) (hs : list Service) (m : Manager H)
  : Manager H * option UsbError :=
  match hs with
  | [] => (m, None)
  | s :: hs' =>
      match send_request req s m with
      | (m, Reject reason) => (m, Some (ChangeRejected reason))
      | (m, Proceed) => ask_handlers req hs' m
      end
  end.

Definition ask_all (req : ChangeRequest) : MM unit :=
  let! hs := se_get change_handlers in
  let! e := se_lift (ask_handlers req hs) in
  match e with
  | Some e => se_modify (notify_all ChangeCanceled) ;;; se_throw e
  | None => se_ret tt
  end.

Definition request_change_only : MM unit := ask_all RequestChange.

Definition preflight_gadget_change : MM unit := request_change_only.

Definition request_change_approval : MM unit :=
  request_change_only ;;; ask_all PrepareChange.

Definition add_change_handler (s : Service) (h : H) (m : Manager H) : Manager H :=
  with_services (if bool_decide (s ∈ change_handlers m) then change_handlers m
                 else rehash (change_handlers m ++ [s]))
    (<[s := h]> (device_services m)) m.

(** One paragraph of [apply_device_services]. *)
Definition apply_service (m : Manager H) (s : Service) : Manager H :=
  match device_services m !! s with
  | Some h => with_services (change_handlers m)
                (<[s := dev_configure (m_switches m) (mic_process_enabled m) h]> (device_services m)) m
  | None => add_change_handler s (dev_create s (m_switches m) (mic_process_enabled m)) m
  end.

Definition apply_device_services (m : Manager H) : Manager H * UmsMode :=
  (fold_left apply_service all_services m,
   match device_services m !! VIRTUAL_MEDIA_SERVICE with
   | Some h => dev_vm_mode (dev_configure (m_switches m) (mic_process_enabled m) h)
   | None => CdRom
   end).

(** Unbinding a leftover tree and waiting for the controller are logged on
    failure; what counts is the removal. *)
Definition release_gadget_configfs : MM unit :=
  let! exists_ := se_lift (ask w_root_exists) in
  if negb exists_ then se_ret tt
  else let! r := se_lift (ask w_remove_tree) in se_of_result r.

Definition give_net (net : option NetworkAdapterType) (m : Manager H) : Manager H :=
  match device_services m !! NETWORK_ADAPTER_SERVICE with
  | Some h => with_services (change_handlers m)
                (<[NETWORK_ADAPTER_SERVICE := dev_set_net net h]> (device_services m)) m
  | None => m
  end.

(** [on_gadget_registered] does nothing without a network function. *)
Definition on_gadget_registered (net : option NetworkAdapterType) (s : DeviceSwitches) : MM unit :=
  match net with
  | None => se_ret tt
  | Some _ =>
      match adapter_type_from_i32
              (match network_adapter s with Some n => net_adapter_type n | None => 0%Z end) with
      | Rndis => let! r := se_lift (ask w_hook) in se_of_result r
      | Ncm => se_ret tt
      end
  end.

Definition bind_gadget_from_current_switches : MM unit :=
  let! ums_mode := se_lift apply_device_services in
  let! s := se_get m_switches in
  let! b := se_get base_info in
  let! _ := se_catch release_gadget_configfs in
  if negb (has_any_enabled s) then se_ret tt
  else
    let! p := se_of_result (build_gadget b s ums_mode) in
    let '(new_gadget, net_dev) := p in
    let! r := se_lift (ask w_register) in
    se_of_result r ;;;
    on_gadget_registered net_dev s ;;;
    let! r := se_lift (ask w_bind) in
    se_of_result r ;;;
    se_modify (with_gadget (Some new_gadget)) ;;;
    se_modify (give_net net_dev).

Definition unbind_active_gadget : MM unit :=
  se_modify (with_gadget None) ;;;
  release_gadget_configfs.

Definition set_emulation_enabled (enabled : bool) : MM unit :=
  let! g := se_get active_gadget in
  if enabled then
    if bool_decide (is_Some g) then se_modify (with_emulation true)
    else
      request_change_approval ;;;
      bind_gadget_from_current_switches ;;;
      se_modify (with_emulation true) ;;;
      se_modify (notify_all ChangeCompleted)
  else if bool_decide (g = None) then
    let! _ := se_catch release_gadget_configfs in
    se_modify (with_emulation false)
  else
    request_change_approval ;;;
    unbind_active_gadget ;;;
    se_modify (with_emulation false) ;;;
    se_modify (notify_all ChangeCompleted).

Definition apply_switches (base : option UsbBaseInfo) (switches : option DeviceSwitches) : MM unit :=
  let! m := se_get id in
  se_guard (negb (emulation_enabled m)) (GadgetError "USB emulation disabled") ;;;
  se_of_result (check_endpoint_budget (default (m_switches m) switches)) ;;;
  request_change_approval ;;;
  unbind_active_gadget ;;;
  let! old_base := se_get base_info in
  let! old_switches := se_get m_switches in
  se_modify (with_config (default old_base base) (default old_switches switches)) ;;;
  let! r := se_catch bind_gadget_from_current_switches in
  match r with
  | Err e =>
      se_modify (with_config old_base old_switches) ;;;
      let! _ := se_catch bind_gadget_from_current_switches in
      se_modify (notify_all ChangeCanceled) ;;;
      se_throw e
  | Ok _ => se_modify (notify_all ChangeCompleted)
  end.

Definition update_base_info (info : UsbBaseInfo) : MM unit := apply_switches (Some info) None.

Definition get_emulation_enabled (m : Manager H) : bool :=
  emulation_enabled m && bool_decide (is_Some (active_gadget m)).

Definition needs_initial_bind (m : Manager H) : bool :=
  emulation_enabled m && bool_decide (active_gadget m = None).

(** The first half of [set_network_adapter_l3_config]: the service is created
    when it is missing. *)
Definition ensure_network_adapter (m : Manager H) : Manager H :=
  match device_services m !! NETWORK_ADAPTER_SERVICE with
  | Some _ => m
  | None => add_change_handler NETWORK_ADAPTER_SERVICE
              (dev_create NETWORK_ADAPTER_SERVICE (m_switches m) (mic_process_enabled m)) m
  end.

Definition set_mic_process_enabled (b : bool) (m : Manager H) : Manager H := with_mic b m.
End manager.

(** ** The UDC watch *)

Inductive UdcState : Set :=
| NotAttached | Attached | Powered | DefaultState | Address | Configured | Suspended.

#[export] Instance UdcState_eq_dec : EqDecision UdcState.
Proof. solve_decision. Defined.

(** [usb_gadget::UdcState]. *)
Inductive RawUdcState : Set :=
| RNotAttached | RAttached | RPowered | RReconnecting | RUnauthenticated | RDefault | RAddressed
| RConfigured | RSuspended | RUnknown.

Definition map_udc_state (r : RawUdcState) : option UdcState :=
  match r with
  | RNotAttached => Some NotAttached
  | RAttached => Some Attached
  | RPowered => Some Powered
  | RDefault => Some DefaultState
  | RAddressed => Some Address
  | RConfigured => Some Configured
  | RSuspended => Some Suspended
  | _ => None
  end.

Definition udc_state_to_sysfs (s : UdcState) : string :=
  match s with
  | NotAttached => "not attached" | Attached => "attached" | Powered => "powered"
  | DefaultState => "default" | Address => "addressed" | Configured => "configured"
  | Suspended => "suspended"
  end.

Inductive LifecycleEvent : Set := UdcStateChanged (s : UdcState) | Warning.

Record UdcWatch := mkUdcWatch {
  last_state : option UdcState; udc_state_cache : option UdcState; reported : list LifecycleEvent }.

Definition udc_watch_new : UdcWatch := mkUdcWatch None None [].

Definition report_udc_state_if_changed (raw : RawUdcState) (w : UdcWatch) : UdcWatch :=
  match map_udc_state raw with
  | Some state =>
      if bool_decide (last_state w = Some state) then w
      else mkUdcWatch (Some state) (Some state) (reported w ++ [UdcStateChanged state])
  | None => mkUdcWatch (last_state w) (udc_state_cache w) (reported w ++ [Warning])
  end.

Definition is_recovered_state (s : UdcState) : bool := bool_decide (s = NotAttached).

(** The polls that fit before the deadline: the raw state read, if readable.
    The result is the cache and whether the controller recovered. *)
Fixpoint wait_for_udc_recovered (polls : list (option RawUdcState)) (cache : option UdcState)
  : option UdcState * bool :=
  match cache with
  | Some NotAttached => (cache, true)
  | _ =>
      match polls with
      | [] => (cache, false)
      | p :: polls' =>
          let cache := match p with
                       | Some raw => match map_udc_state raw with Some s => Some s | None => cache end
                       | None => cache
                       end in
          if match cache with Some s => is_recovered_state s | None => false end
          then (cache, true)
          else wait_for_udc_recovered polls' cache
      end
  end.

(** The watch loop's events: a state from the watch or the poll, or an error. *)
Definition udc_watch_step (w : UdcWatch) (e : option RawUdcState) : UdcWatch :=
  match e with
  | Some raw => report_udc_state_if_changed raw w
  | None => mkUdcWatch (last_state w) (udc_state_cache w) (reported w ++ [Warning])
  end.

Definition get_udc_status_sysfs (w : UdcWatch) : string :=
  match udc_state_cache w with
  | Some s => udc_state_to_sysfs s
  | None => "unknown"
  end.
