(* ===== verification/ManagerProofs.v ===== *)
(** * Theorems on the USB device manager

    Proved for any devices that satisfy [UsbDeviceLaws], any answers of the
    world and any iteration order of the handler map. *)

From S2P Require Import Prelude Hid Gadget Manager.

Section proofs.
Context {H DevEnv : Type} `{!UsbDevices H DevEnv, !UsbDeviceLaws H DevEnv}.
Context (world : nat -> World DevEnv) (rehash : list Service -> list Service).
Context (rehash_perm : ∀ l, rehash l ≡ₚ l).
Implicit Types (m : Manager H) (s : Service) (h : H) (req : ChangeRequest).

Local Abbreviation approval := (request_change_approval world).
Local Abbreviation bind := (bind_gadget_from_current_switches world rehash).
Local Abbreviation apply := (apply_switches world rehash).
Local Abbreviation emulate := (set_emulation_enabled world rehash).

(** Every handle is registered as a change handler. *)
Definition wired m : Prop := ∀ s, s ∈ change_handlers m <-> is_Some (device_services m !! s).

Definition idle m : Prop :=
  ∀ s h, device_services m !! s = Some h -> dev_updating h = false.

Definition quiet m : Prop := ∀ s h, device_services m !! s = Some h -> dev_quiet h.

(** The parts that talking to the handlers leaves alone. *)
Record same_core m m' : Prop := {
  sc_base : base_info m' = base_info m;
  sc_switches : m_switches m' = m_switches m;
  sc_gadget : active_gadget m' = active_gadget m;
  sc_emulation : emulation_enabled m' = emulation_enabled m;
  sc_wired : wired m -> wired m' }.

#[local] Instance same_core_preorder : PreOrder same_core.
Proof.
  split; [by split|]. intros m1 m2 m3 [] []. split; try congruence. auto.
Qed.

Lemma wired_insert m s h s' :
  is_Some (device_services m !! s) -> wired m ->
  s' ∈ change_handlers m <-> is_Some (<[s := h]> (device_services m) !! s').
Proof.
  intros Hs Hw. rewrite (Hw s'). destruct (decide (s = s')) as [<-|].
  - rewrite lookup_insert_eq. split; eauto.
  - by rewrite lookup_insert_ne.
Qed.

Lemma send_request_core req s m : same_core m (send_request world req s m).1.
Proof.
  unfold send_request. destruct (device_services m !! s) as [h|] eqn:Es; [|done].
  destruct (on_change _ req h). cbn. split; try done. intros Hw s'.
  apply (wired_insert m); [by rewrite Es|done].
Qed.

Lemma send_request_handlers req s m :
  change_handlers (send_request world req s m).1 = change_handlers m.
Proof.
  unfold send_request. destruct (device_services m !! s); [|done]. by destruct (on_change _ _ _).
Qed.

Lemma send_request_other req s s' m :
  s ≠ s' -> device_services (send_request world req s m).1 !! s' = device_services m !! s'.
Proof.
  intros Hne. unfold send_request. destruct (device_services m !! s); [|done].
  destruct (on_change _ _ _). cbn. by rewrite lookup_insert_ne.
Qed.

Lemma notify_core req m : same_core m (notify_all world req m).
Proof.
  unfold notify_all. generalize (change_handlers m) at 1. intros hs. revert m.
  induction hs as [|s hs IH]; intros m; [done|]. cbn [fold_left].
  etransitivity; [apply (send_request_core req s)|apply IH].
Qed.

(** After both ends of a change no handle is updating. *)
Lemma notify_idle req m :
  req = ChangeCompleted \/ req = ChangeCanceled -> wired m -> idle (notify_all world req m).
Proof.
  intros Hreq Hw.
  assert (Hgen : ∀ hs m s h,
    device_services (fold_left (fun m s => (send_request world req s m).1) hs m) !! s = Some h ->
    dev_updating h = false \/ (~ (s ∈ hs) /\ device_services m !! s = Some h)).
  { clear m Hw. induction hs as [|s0 hs IH]; intros m s h; cbn [fold_left].
    { intros Hs. right. split; [set_solver|done]. }
    intros [?|[Hn Hs]]%IH; [by left|].
    destruct (decide (s0 = s)) as [<-|Hne];
      [|right; rewrite send_request_other in Hs by done; split; [set_solver|done]].
    left. unfold send_request in Hs. destruct (device_services m !! s0) as [h0|] eqn:E0; [|cbn in Hs; congruence].
    destruct (on_change _ req h0) as [h1 r] eqn:Eo. cbn in Hs.
    rewrite lookup_insert_eq in Hs. simplify_eq.
    pose proof (completed_ends (w_dev (world (clock m))) h0) as Hc.
    pose proof (canceled_ends (w_dev (world (clock m))) h0) as Hd.
    destruct Hreq as [->| ->]; by rewrite Eo in *. }
  intros s h Hs. pose proof Hs as Hs'. apply Hgen in Hs as [?|[Hn Hs]]; [done|].
  exfalso. apply Hn, Hw. eauto.
Qed.

(** ** Asking the handlers *)

Lemma ask_handlers_core req hs m : same_core m (ask_handlers world req hs m).1.
Proof.
  revert m. induction hs as [|s hs IH]; intros m; [done|]. cbn [ask_handlers].
  pose proof (send_request_core req s m) as Hc.
  destruct (send_request world req s m) as [m' [|r]]; [|done]. etransitivity; [done|apply IH].
Qed.

Lemma ask_all_spec req m :
  let '(m', r) := ask_all world req m in
  same_core m m' /\ (is_ok r = false -> wired m -> idle m').
Proof.
  unfold ask_all; se_unfold.
  pose proof (ask_handlers_core req (change_handlers m) m) as Hc.
  destruct (ask_handlers world req _ m) as [m' [e|]]; cbn in *; [|done].
  split; [etransitivity; [done|apply notify_core]|].
  intros _ Hw. apply notify_idle; [by right|by apply Hc].
Qed.

Lemma approval_spec m m' r :
  approval m = (m', r) -> same_core m m' /\ (is_ok r = false -> wired m -> idle m').
Proof.
  unfold request_change_approval, request_change_only, se_bind.
  pose proof (ask_all_spec RequestChange m) as H1.
  destruct (ask_all world RequestChange m) as [m1 [[]|e]]; destruct H1 as [Hc1 Hi1].
  - pose proof (ask_all_spec PrepareChange m1) as H2.
    destruct (ask_all world PrepareChange m1) as [m2 r2]. destruct H2 as [Hc2 Hi2].
    intros [= <- <-]. split; [by etransitivity|]. intros Hr Hw. by apply Hi2, Hc1.
  - intros [= <- <-]. split; [done|]. intros _. by apply Hi1.
Qed.

Lemma prepare_quiet hs m m' :
  ask_handlers world PrepareChange hs m = (m', None) ->
  ∀ s h, device_services m' !! s = Some h ->
    dev_quiet h \/ ~ (s ∈ hs) /\ device_services m !! s = Some h.
Proof.
  revert m. induction hs as [|s0 hs IH]; intros m; cbn [ask_handlers].
  { intros [= <-] s h Hs. right. split; [set_solver|done]. }
  destruct (send_request world PrepareChange s0 m) as [m1 [|]] eqn:Es; [|done].
  intros Ha s h Hs. destruct (IH _ Ha s h Hs) as [?|[Hn Hs1]]; [by left|].
  destruct (decide (s0 = s)) as [<-|Hne].
  - left. unfold send_request in Es. destruct (device_services m !! s0) as [h0|] eqn:E0; [|by simplify_eq].
    destruct (on_change _ PrepareChange h0) as [h1 r] eqn:Eo. simplify_eq. cbn in Hs1.
    rewrite lookup_insert_eq in Hs1. simplify_eq. by eapply prepared_quiet.
  - right. split; [set_solver|]. rewrite <- Hs1, <- (send_request_other PrepareChange s0) by done.
    by rewrite Es.
Qed.

Lemma approval_quiet m m' : approval m = (m', Ok tt) -> wired m -> quiet m'.
Proof.
  unfold request_change_approval, request_change_only, se_bind.
  pose proof (ask_all_spec RequestChange m) as H1.
  destruct (ask_all world RequestChange m) as [m1 [[]|e]]; destruct H1 as [Hc1 _]; [|done].
  intros Ha Hw. apply Hc1 in Hw. revert Ha.
  unfold ask_all; se_unfold.
  destruct (ask_handlers world PrepareChange (change_handlers m1) m1) as [m2 [e|]] eqn:Ea; [done|].
  intros [= <-] s h Hs. destruct (prepare_quiet _ _ _ Ea s h Hs) as [?|[Hn Hs1]]; [done|].
  exfalso. apply Hn, Hw. eauto.
Qed.

(** ** Building and tearing down *)

Lemma apply_service_core m s : same_core m (apply_service rehash m s).
Proof.
  unfold apply_service. destruct (device_services m !! s) as [h|] eqn:Es.
  - split; try done. intros Hw s'. apply (wired_insert m); [by rewrite Es|done].
  - split; try done. intros Hw s'. cbn.
    assert (Hn : s ∉ change_handlers m) by (rewrite (Hw s), Es; by intros [? ?]).
    rewrite bool_decide_eq_false_2 by done. rewrite rehash_perm, elem_of_app, (Hw s'), list_elem_of_singleton.
    destruct (decide (s = s')) as [<-|Hne].
    + rewrite lookup_insert_eq. split; eauto.
    + rewrite lookup_insert_ne by done. split; [intros [?|?]; [done|congruence]|by left].
Qed.

Lemma apply_services_core m : same_core m (apply_device_services rehash m).1.
Proof.
  unfold apply_device_services. cbn [fst]. generalize all_services. intros l. revert m.
  induction l as [|s l IH]; intros m; [done|]. cbn [fold_left].
  etransitivity; [apply apply_service_core|apply IH].
Qed.

Lemma tick_core m : same_core m (tick m).
Proof. by split. Qed.

Lemma hook_core net sw m : same_core m (on_gadget_registered world net sw m).1.
Proof.
  unfold on_gadget_registered. destruct net; [|done]. destruct (adapter_type_from_i32 _); done.
Qed.

Lemma give_net_core net m : same_core m (give_net net m).
Proof.
  unfold give_net. destruct (device_services m !! _) as [h|] eqn:Es; [|done].
  split; try done. intros Hw s'. apply (wired_insert m); [by rewrite Es|done].
Qed.

(** The gadget a configuration stands for. *)
Definition built_from (b : UsbBaseInfo) (sw : DeviceSwitches) (g : Gadget) : Prop :=
  ∃ mode net, build_gadget b sw mode = Ok (g, net).

Lemma release_core m :
  same_core m (release_gadget_configfs world m).1
  /\ device_services (release_gadget_configfs world m).1 = device_services m
  /\ ((∀ n, w_remove_tree (world n) = Ok tt) -> (release_gadget_configfs world m).2 = Ok tt).
Proof.
  unfold release_gadget_configfs, ask; se_unfold.
  destruct (negb _); cbn; (split_and!; [by split|done|auto]).
Qed.

Lemma bind_spec m m' r :
  bind m = (m', r) ->
  base_info m' = base_info m /\ m_switches m' = m_switches m
  /\ emulation_enabled m' = emulation_enabled m /\ (wired m -> wired m')
  /\ match r with
     | Ok _ => if has_any_enabled (m_switches m)
               then ∃ g, built_from (base_info m) (m_switches m) g /\ active_gadget m' = Some g
               else active_gadget m' = active_gadget m
     | Err _ => active_gadget m' = active_gadget m
     end.
Proof.
  unfold bind_gadget_from_current_switches.
  unfold ask; se_unfold.
  pose proof (apply_services_core m) as Hc.
  destruct (apply_device_services rehash m) as [m1 mode]. cbn [fst] in Hc.
  destruct (release_core m1) as [Hrel _].
  destruct (release_gadget_configfs world m1) as [m1' rel]. cbn [fst] in Hrel.
  assert (H1 : same_core m m1') by by etransitivity.
  rewrite (sc_switches _ _ Hc), (sc_base _ _ Hc).
  assert (HT : ∀ m2, same_core m m2 -> same_core m (tick m2)) by (intros; by etransitivity).
  assert (Hkeep : ∀ m2, same_core m m2 ->
    base_info m2 = base_info m /\ m_switches m2 = m_switches m
    /\ emulation_enabled m2 = emulation_enabled m /\ (wired m -> wired m2)
    /\ active_gadget m2 = active_gadget m) by by intros m2 [].
  cbn [fst snd]; (destruct (has_any_enabled (m_switches m)); cbn [negb]; [|intros [= <- <-]; by apply Hkeep; auto]);
  (destruct (build_gadget _ _ mode) as [[g net]|e] eqn:Eb; [|intros [= <- <-]; by apply Hkeep; auto]);
  (destruct (w_register (world _)) as [[]|]; [|intros [= <- <-]; by apply Hkeep; auto]);
  pose proof (hook_core net (m_switches m) (tick m1')) as Hh;
  (destruct (on_gadget_registered _ _ _ _) as [m2 [[]|]]; cbn [fst] in Hh;
    assert (H2 : same_core m m2) by (etransitivity; [|exact Hh]; auto);
    [|intros [= <- <-]; by apply Hkeep; auto]);
  (destruct (w_bind (world _)) as [[]|]; [|intros [= <- <-]; by apply Hkeep; auto]);
  intros [= <- <-];
  destruct (give_net_core net (with_gadget (Some g) (tick m2))) as [? ? Hg ? ?];
  destruct H2 as [? ? ? ? Hw2]; cbn in *;
  (split_and!; [congruence|congruence|congruence|auto|]);
  exists g; (split; [by exists mode, net|done]).
Qed.

Lemma unbind_spec m m' r :
  unbind_active_gadget world m = (m', r) ->
  same_core (with_gadget None m) m' /\ device_services m' = device_services m
  /\ ((∀ n, w_remove_tree (world n) = Ok tt) -> r = Ok tt).
Proof.
  unfold unbind_active_gadget, se_bind, se_modify. intros Hu.
  destruct (release_core (with_gadget None m)) as (H1 & H2 & H3). by rewrite Hu in *.
Qed.

(** ** Changes *)

(** Where the gadget can end up when a change fails. *)
Definition gadget_after_failure m m' : Prop :=
  active_gadget m' = active_gadget m \/ active_gadget m' = None
  \/ ∃ g, built_from (base_info m) (m_switches m) g /\ has_any_enabled (m_switches m) = true
          /\ active_gadget m' = Some g.

Lemma rebind_outcome m m' r :
  bind m = (m', r) -> active_gadget m = None ->
  active_gadget m' = None
  \/ ∃ g, built_from (base_info m) (m_switches m) g /\ has_any_enabled (m_switches m) = true
          /\ active_gadget m' = Some g.
Proof.
  intros (_ & _ & _ & _ & Hr)%bind_spec Hn. rewrite Hn in Hr.
  destruct r as [[]|]; [|by left]. destruct (has_any_enabled _); [|by left].
  destruct Hr as (g & Hg & Ha). right. eauto.
Qed.

Lemma apply_spec base sw m m' r :
  apply base sw m = (m', r) -> wired m ->
  let b := default (base_info m) base in
  let s := default (m_switches m) sw in
  wired m' /\ emulation_enabled m' = emulation_enabled m
  /\ match r with
     | Ok _ =>
         base_info m' = b /\ m_switches m' = s /\ check_endpoint_budget s = Ok tt
         /\ (if has_any_enabled s then ∃ g, built_from b s g /\ active_gadget m' = Some g
             else active_gadget m' = None)
         /\ idle m'
     | Err _ =>
         base_info m' = base_info m /\ m_switches m' = m_switches m
         /\ gadget_after_failure m m'
         /\ (idle m -> (∀ n, w_remove_tree (world n) = Ok tt) -> idle m')
     end.
Proof.
  unfold apply_switches, gadget_after_failure.
  se_unfold.
  intros Heq Hw. revert Heq. cbn [id].
  destruct (emulation_enabled m) eqn:Eem; cbn [negb]; [|intros [= <- <-]; split_and!; auto].
  destruct (check_endpoint_budget _) as [[]|] eqn:Eb; [|intros [= <- <-]; split_and!; auto].
  destruct (approval m) as [m1 [[]|e]] eqn:Ea;
    apply approval_spec in Ea as [[Hb1 Hs1 Hg1 He1 Hw1] Hi1];
    [|intros [= <- <-]; rewrite Hb1, Hs1, Hg1, He1; split_and!; auto].
  destruct (unbind_active_gadget world m1) as [m2 [[]|e]] eqn:Eu;
    apply unbind_spec in Eu as ([Hbu Hsu Hgu Heu Hwu] & _ & Hrel); cbn in Hbu, Hsu, Hgu, Heu; cbv beta iota;
    [|intros [= <- <-]; rewrite Hbu, Hsu, Hgu, Heu, Hb1, Hs1, He1; split_and!; auto;
      intros _ Hok; by specialize (Hrel Hok)].
  assert (Hwm2 : wired m2) by by apply Hwu, Hw1.
  rewrite Hbu, Hsu, Hb1, Hs1. rename m2 into m2'. set (m2 := with_config _ _ m2').
  destruct (bind m2) as [m3 [[]|e]] eqn:E3; cbn [fst snd].
  - intros [= <- <-]. pose proof (bind_spec _ _ _ E3) as (Hb & Hs & He & Hw3 & Hg). cbn in Hb, Hs, He, Hg. rewrite Hgu in Hg.
    assert (Hwn : wired (notify_all world ChangeCompleted m3)) by (apply notify_core; auto).
    destruct (notify_core ChangeCompleted m3) as [-> -> -> -> _].
    split_and!; [done|congruence|done|done|done|done|apply notify_idle; auto].
  - apply bind_spec in E3 as (Hb & Hs & He & Hw3 & Hg). cbn in Hg, He, Hw3. rewrite Hgu in Hg.
    set (m4 := with_config _ _ m3).
    destruct (bind m4) as [m5 r5] eqn:E5. cbn [fst snd]. intros [= <- <-].
    pose proof (rebind_outcome _ _ _ E5 Hg) as Hout.
    apply bind_spec in E5 as (Hb5 & Hs5 & He5 & Hw5 & _). cbn in Hb5, Hs5, He5, Hw5, Hout.
    assert (Hwn : wired (notify_all world ChangeCanceled m5)) by (apply notify_core; auto).
    destruct (notify_core ChangeCanceled m5) as [Hb6 Hs6 Hg6 He6 _]. rewrite Hb6, Hs6, Hg6, He6.
    split_and!; [done|congruence|congruence|congruence|by right|].
    intros _ _. apply notify_idle; auto.
Qed.

Lemma emulate_spec b m m' r :
  emulate b m = (m', r) -> wired m ->
  wired m' /\ base_info m' = base_info m /\ m_switches m' = m_switches m
  /\ gadget_after_failure m m'
  /\ match r with
     | Ok _ => emulation_enabled m' = b /\ (b = false -> active_gadget m' = None)
               /\ (b = true -> has_any_enabled (m_switches m) = true -> is_Some (active_gadget m'))
               /\ (idle m -> idle m')
     | Err _ => emulation_enabled m' = emulation_enabled m
     end.
Proof.
  unfold set_emulation_enabled, gadget_after_failure.
  se_unfold.
  intros Heq Hw. revert Heq. destruct b.
  - destruct (bool_decide_reflect (is_Some (active_gadget m))) as [Hs|Hs].
    { intros [= <- <-]. cbn. split_and!; auto; try done. }
    assert (Hn : active_gadget m = None) by by apply eq_None_not_Some.
    destruct (approval m) as [m1 [[]|e]] eqn:Ea;
      apply approval_spec in Ea as [[Hb1 Hs1 Hg1 He1 Hw1] Hi1];
      [|intros [= <- <-]; split_and!; auto; try done].
    destruct (bind m1) as [m2 [[]|e]] eqn:E2.
    + pose proof (bind_spec _ _ _ E2) as (Hb2 & Hs2 & He2 & Hw2 & Hg2).
      pose proof (rebind_outcome _ _ _ E2) as Hout. rewrite Hg1, Hb1, Hs1 in Hout.
      rewrite Hs1 in Hg2. specialize (Hout Hn).
      intros [= <- <-]. set (m3 := with_emulation true m2).
      assert (Hw3 : wired m3) by (cbn; auto).
      assert (Hwn : wired (notify_all world ChangeCompleted m3)) by (apply notify_core; auto).
      assert (Hid : idle (notify_all world ChangeCompleted m3)) by (apply notify_idle; auto).
      destruct (notify_core ChangeCompleted m3) as [-> -> -> -> _]. cbn.
      split_and!; try congruence; auto; try done.
      intros _ Hany. rewrite Hany in Hg2. destruct Hg2 as (g & _ & ->). eauto.
    + intros [= <- <-]. pose proof (rebind_outcome _ _ _ E2) as Hout.
      rewrite Hg1, Hb1, Hs1 in Hout. specialize (Hout Hn).
      apply bind_spec in E2 as (? & ? & ? & ? & _). split_and!; try congruence; auto.
  - destruct (bool_decide_reflect (active_gadget m = None)) as [Hn|Hn].
    { destruct (release_core m) as ([Hb1 Hs1 Hg1 He1 Hw1] & Hd1 & _).
      destruct (release_gadget_configfs world m) as [m1 r1]. cbn [fst] in *.
      intros [= <- <-]. split_and!; auto; try done; try (cbn; congruence).
      intros Hid. unfold idle. cbn. by rewrite Hd1. }
    destruct (approval m) as [m1 [[]|e]] eqn:Ea;
      apply approval_spec in Ea as [[Hb1 Hs1 Hg1 He1 Hw1] Hi1];
      [|intros [= <- <-]; split_and!; auto; try done].
    destruct (unbind_active_gadget world m1) as [m2 [[]|e]] eqn:Eu;
      apply unbind_spec in Eu as ([Hbu Hsu Hgu Heu Hwu] & _ & Hrel); cbn in Hbu, Hsu, Hgu, Heu; cbv beta iota;
      [|intros [= <- <-]; split_and!; auto; congruence].
    assert (Hwm2 : wired m2) by by apply Hwu, Hw1.
    intros [= <- <-]. set (m3 := with_emulation false _).
    assert (Hw3 : wired m3) by (cbn; auto).
    assert (Hwn : wired (notify_all world ChangeCompleted m3)) by (apply notify_core; auto).
    assert (Hid : idle (notify_all world ChangeCompleted m3)) by (apply notify_idle; auto).
    destruct (notify_core ChangeCompleted m3) as [-> -> -> -> _]. cbn.
    split_and!; try congruence; auto.
Qed.

(** ** Invariants of the handles

    A property of the handles that requests and configuration keep is kept by
    every change, if it holds of a fresh handle; of services that are known to
    be there ([present]) a fresh handle is never made. *)
Section handle_invariant.
Context (P : Service -> H -> Prop) (present : list Service).
Hypothesis P_change : ∀ s env req h, P s h -> P s (on_change env req h).1.
Hypothesis P_create : ∀ s sw mic, s ∉ present -> P s (dev_create s sw mic).
Hypothesis P_configure : ∀ s sw mic h, P s h -> P s (dev_configure sw mic h).
Hypothesis P_set_net : ∀ s n h, P s h -> P s (dev_set_net n h).

Definition all_handles m : Prop :=
  (∀ s h, device_services m !! s = Some h -> P s h)
  /\ (∀ s, s ∈ present -> is_Some (device_services m !! s)).

Lemma all_handles_insert m m' s h :
  device_services m' = <[s := h]> (device_services m) -> P s h -> all_handles m -> all_handles m'.
Proof.
  unfold all_handles. intros -> Hh [Hm Hpres]. split.
  - intros s' h' [[<- <-]|[_ Hs]]%lookup_insert_Some; [done|by apply Hm].
  - intros s' Hs'. destruct (decide (s = s')) as [<-|]; [rewrite lookup_insert_eq; eauto|].
    rewrite lookup_insert_ne by done. auto.
Qed.

Lemma all_handles_same m m' :
  device_services m' = device_services m -> all_handles m -> all_handles m'.
Proof. unfold all_handles. by intros ->. Qed.

Lemma send_request_all req s m : all_handles m -> all_handles (send_request world req s m).1.
Proof.
  unfold send_request. destruct (device_services m !! s) as [h|] eqn:Es; [|done]. intros Hm.
  pose proof (P_change s (w_dev (world (clock m))) req h (proj1 Hm s h Es)) as Hp.
  destruct (on_change _ req h). by eapply all_handles_insert.
Qed.

Lemma notify_all_handles req m : all_handles m -> all_handles (notify_all world req m).
Proof.
  apply fold_left_inv. intros m' s. apply send_request_all.
Qed.

Lemma ask_all_handles req m : all_handles m -> all_handles (ask_all world req m).1.
Proof.
  unfold ask_all; se_unfold. intros Hm.
  assert (Hh : ∀ hs m, all_handles m -> all_handles (ask_handlers world req hs m).1).
  { clear m Hm. induction hs as [|s hs IH]; intros m Hm; [done|]. cbn [ask_handlers].
    pose proof (send_request_all req s m Hm) as Hs.
    destruct (send_request world req s m) as [m' [|r]]; [by apply IH|done]. }
  specialize (Hh (change_handlers m) m Hm).
  destruct (ask_handlers world req _ m) as [m' [e|]]; cbn in *; [by apply notify_all_handles|done].
Qed.

Lemma approval_handles m : all_handles m -> all_handles (approval m).1.
Proof.
  unfold request_change_approval, request_change_only, se_bind. intros Hm.
  pose proof (ask_all_handles RequestChange m Hm) as H1.
  destruct (ask_all world RequestChange m) as [m1 [[]|]]; [by apply ask_all_handles|done].
Qed.

Lemma apply_services_handles m : all_handles m -> all_handles (apply_device_services rehash m).1.
Proof.
  unfold apply_device_services. cbn [fst]. apply fold_left_inv. clear m. intros m s Hm.
  unfold apply_service. destruct (device_services m !! s) as [h|] eqn:Es.
  - eapply all_handles_insert; [done| |done]. apply P_configure. by apply Hm.
  - eapply all_handles_insert; [done| |done]. apply P_create. intros Hp.
    destruct Hm as [_ Hm]. apply Hm in Hp as [? ?]. congruence.
Qed.

Lemma bind_handles m : all_handles m -> all_handles (bind m).1.
Proof.
  unfold bind_gadget_from_current_switches, on_gadget_registered.
  unfold ask; se_unfold.
  intros Hm. pose proof (apply_services_handles m Hm) as H0.
  destruct (apply_device_services rehash m) as [m0 mode]. cbn [fst snd] in *.
  destruct (release_core m0) as (_ & Hd & _).
  destruct (release_gadget_configfs world m0) as [m1 r1]. cbn [fst] in Hd.
  pose proof (all_handles_same _ _ Hd H0) as H1.
  assert (Hgive : ∀ net m', device_services m' = device_services m1 -> all_handles (give_net net m')).
  { intros net m' Heq. pose proof (all_handles_same _ _ Heq H1) as Hm'.
    unfold give_net. destruct (device_services m' !! _) as [h|] eqn:Es; [|done].
    eapply all_handles_insert; [done| |done]. apply P_set_net. by apply Hm'. }
  repeat case_match; simplify_eq; try done; by apply Hgive.
Qed.

Lemma apply_handles base sw m : all_handles m -> all_handles (apply base sw m).1.
Proof.
  unfold apply_switches.
  se_unfold.
  intros Hm. destruct (negb _); [done|]. destruct (check_endpoint_budget _); [|done].
  pose proof (approval_handles m Hm) as H1. destruct (approval m) as [m1 [[]|]]; [|done].
  cbn [fst] in H1. destruct (unbind_active_gadget world m1) as [m1' r1] eqn:Eu.
  apply unbind_spec in Eu as (_ & Hd & _). pose proof (all_handles_same _ _ Hd H1) as H1'.
  destruct r1; [|done]. set (m2 := with_config _ _ m1').
  assert (H2 : all_handles m2) by done. pose proof (bind_handles m2 H2) as H3.
  destruct (bind m2) as [m3 [[]|]]; cbn [fst] in *; [by apply notify_all_handles|].
  set (m4 := with_config _ _ m3). assert (H4 : all_handles m4) by done.
  pose proof (bind_handles m4 H4) as H5. destruct (bind m4) as [m5 r5]. by apply notify_all_handles.
Qed.
End handle_invariant.

(** ** Runs of the manager *)

Inductive MOp : Type :=
| MApply (base : option UsbBaseInfo) (sw : option DeviceSwitches)
| MEmulate (b : bool)
| MPreflight
| MMic (b : bool)
| MEnsureNet
| MTick                                 (** the world moves on *)
| MDevice (s : Service) (f : H -> H).   (** a controller acts on its handle *)

Definition mop (o : MOp) m : Manager H :=
  match o with
  | MApply base sw => (apply base sw m).1
  | MEmulate b => (emulate b m).1
  | MPreflight => (preflight_gadget_change world m).1
  | MMic b => set_mic_process_enabled b m
  | MEnsureNet => ensure_network_adapter rehash m
  | MTick => tick m
  | MDevice s f => with_services (change_handlers m) (alter f s (device_services m)) m
  end.

Definition mrun (ops : list MOp) m : Manager H := fold_left (fun m o => mop o m) ops m.

Record MInv m : Prop := {
  mv_wired : wired m;
  mv_budget : check_endpoint_budget (m_switches m) = Ok tt;
  mv_gadget : ∀ g, active_gadget m = Some g ->
                built_from (base_info m) (m_switches m) g
                /\ has_any_enabled (m_switches m) = true }.

Lemma after_failure_inv m m' :
  MInv m -> wired m' -> base_info m' = base_info m -> m_switches m' = m_switches m ->
  gadget_after_failure m m' -> MInv m'.
Proof.
  intros [Hw Hb Hg] Hw' Eb Es Hf. split; [done|by rewrite Es|]. rewrite Eb, Es. intros g Ha.
  unfold gadget_after_failure in Hf. rewrite Ha in Hf.
  destruct Hf as [Hf|[Hf|(g' & Hb' & Hany & Hf)]]; [by apply Hg|done|by simplify_eq].
Qed.

Lemma mop_inv o m : MInv m -> MInv (mop o m).
Proof.
  intros Hi. pose proof Hi as [Hw Hb Hg]. destruct o as [base sw|b| |b| | |s f]; cbn [mop].
  - destruct (apply base sw m) as [m' r] eqn:Ea.
    apply apply_spec in Ea as (Hw' & _ & Hr); [|done]. destruct r as [[]|e]; cbn [fst].
    + destruct Hr as (Eb & Es & Hbud & Hgad & _). split; [done|by rewrite Es|].
      rewrite Eb, Es. intros g Ha. rewrite Ha in Hgad.
      destruct (has_any_enabled (default _ sw)); [|done]. destruct Hgad as (g' & ? & ?).
      by simplify_eq.
    + destruct Hr as (Eb & Es & Hf & _). by eapply after_failure_inv.
  - destruct (emulate b m) as [m' r] eqn:Ee.
    apply emulate_spec in Ee as (Hw' & Eb & Es & Hf & _); [|done]. by eapply after_failure_inv.
  - unfold preflight_gadget_change, request_change_only.
    pose proof (ask_all_spec RequestChange m) as Hs.
    destruct (ask_all world RequestChange m) as [m' r]. destruct Hs as [[Eb Es Eg _ Hw'] _].
    eapply after_failure_inv; eauto. by left.
  - done.
  - unfold ensure_network_adapter. pose proof (apply_service_core m NETWORK_ADAPTER_SERVICE) as Hc.
    unfold apply_service in Hc. destruct (device_services m !! _); [done|].
    destruct Hc as [Eb Es Eg _ Hw']. eapply after_failure_inv; eauto. by left.
  - done.
  - split; [|done..]. intros s'. cbn. rewrite (Hw s').
    destruct (decide (s = s')) as [<-|];
      [by rewrite lookup_alter_eq, fmap_is_Some|by rewrite lookup_alter_ne].
Qed.

Lemma mrun_inv ops b : MInv (mrun ops (manager_new b)).
Proof.
  assert (Hi : MInv (manager_new (H := H) b)).
  { split; [|done..]. intros s. cbn. rewrite lookup_empty.
    split; [by intros ?%not_elem_of_nil|by intros [? ?]]. }
  revert Hi. apply fold_left_inv. intros m o. apply mop_inv.
Qed.

(** C15: Whatever sequence of switch changes, emulation toggles and device
    operations is run, and however the kernel answers, a bound gadget is the
    one built from the manager's current switches and identity, has at least
    one function, and stays within the controller's endpoints. *)
Theorem bound_gadget_matches_switches ops base g :
  let m := mrun ops (manager_new base) in
  active_gadget m = Some g ->
  built_from (base_info m) (m_switches m) g /\ has_any_enabled (m_switches m) = true
  /\ ((gadget_eps g).1 <= 6)%Z /\ ((gadget_eps g).2 <= 5)%Z.
Proof.
  intros m Ha. destruct (mrun_inv ops base) as [_ Hb Hg]. fold m in Hb, Hg.
  destruct (Hg g Ha) as [(mode & net & Hbuild) Hany].
  split; [by exists mode, net|]. split; [done|].
  destruct (endpoint_usage_spec _ _ _ _ _ Hbuild) as [_ Hiff]. by apply Hiff.
Qed.

(** C16: A switch change is all or nothing: on success the switches and the
    identity are the requested ones, fit the endpoint budget, and the gadget
    built from them is bound (or none when no function is on); on an error
    both are what they were, and the gadget is the old one, none, or the one
    of the old switches built again. *)
Theorem switch_change_atomic ops base0 base sw :
  let m := mrun ops (manager_new base0) in
  let b := default (base_info m) base in
  let s := default (m_switches m) sw in
  match apply base sw m with
  | (m', Ok _) =>
      base_info m' = b /\ m_switches m' = s /\ check_endpoint_budget s = Ok tt
      /\ (if has_any_enabled s then ∃ g, built_from b s g /\ active_gadget m' = Some g
          else active_gadget m' = None)
  | (m', Err _) =>
      base_info m' = base_info m /\ m_switches m' = m_switches m /\ gadget_after_failure m m'
  end.
Proof.
  intros m b s. destruct (mrun_inv ops base0) as [Hw _ _]. fold m in Hw.
  destruct (apply base sw m) as [m' r] eqn:Ea. apply apply_spec in Ea as (_ & _ & Hr); [|done].
  destruct r as [[]|]; naive_solver.
Qed.

(** The gadget is torn down only after every device has let go of it: an
    approved change leaves the gadget bound and every handle quiet, and a
    refused one changes nothing of the manager and ends the change for every
    handle, so that [apply_switches] then fails without touching the gadget. *)
Theorem teardown_only_when_quiet ops base0 :
  let m := mrun ops (manager_new base0) in
  let '(m', r) := approval m in
  same_core m m'
  /\ match r with
     | Ok _ => ∀ s h, device_services m' !! s = Some h -> dev_quiet h
     | Err e =>
         (∀ s h, device_services m' !! s = Some h -> dev_updating h = false)
         /\ (∀ base sw, emulation_enabled m = true ->
               check_endpoint_budget (default (m_switches m) sw) = Ok tt ->
               apply base sw m = (m', Err e))
     end.
Proof.
  intros m. destruct (mrun_inv ops base0) as [Hw _ _]. fold m in Hw.
  destruct (approval m) as [m' r] eqn:Ea. pose proof (approval_spec _ _ _ Ea) as [Hc Hi].
  split; [done|]. destruct r as [[]|e]; [by apply approval_quiet in Ea|].
  split; [by apply Hi|]. intros base sw Hem Hb.
  unfold apply_switches; se_unfold. cbn [id].
  rewrite Hem. cbn [negb]. rewrite Hb. by rewrite Ea.
Qed.

(** C17: However a change of the switches ends -- carried out, refused by a device,
    or failed and rolled back -- no device is left believing that it is under
    way, provided that none believed so before and that the tree of the old
    gadget can be removed.  (A tree that cannot be removed, and an emulation that
    cannot be switched on or off, do leave devices so:
    [failed_enable_strands_devices].) *)
Theorem devices_resume_after_change ops base0 base sw :
  let m := mrun ops (manager_new base0) in
  (∀ s h, device_services m !! s = Some h -> dev_updating h = false) ->
  (∀ n, w_remove_tree (world n) = Ok tt) ->
  ∀ s h, device_services (apply base sw m).1 !! s = Some h -> dev_updating h = false.
Proof.
  intros m Hidle Hrel. destruct (mrun_inv ops base0) as [Hw _ _]. fold m in Hw.
  destruct (apply base sw m) as [m' r] eqn:Ea. apply apply_spec in Ea as (_ & _ & Hr); [|done].
  cbn [fst]. destruct r as [[]|]; [apply Hr|]. by apply Hr.
Qed.
End proofs.

(** ** The UDC watch *)

Definition reported_states (w : UdcWatch) : list UdcState :=
  omap (fun e => match e with UdcStateChanged s => Some s | Warning => None end) (reported w).

Record UdcInv (w : UdcWatch) : Prop := {
  ui_last : last_state w = last (reported_states w);
  ui_cache : udc_state_cache w = last (reported_states w);
  ui_differ : ∀ i s1 s2, reported_states w !! i = Some s1 -> reported_states w !! S i = Some s2 -> s1 ≠ s2 }.

Lemma warning_inv w :
  UdcInv w -> UdcInv (mkUdcWatch (last_state w) (udc_state_cache w) (reported w ++ [Warning])).
Proof.
  assert (Heq : reported_states (mkUdcWatch (last_state w) (udc_state_cache w) (reported w ++ [Warning]))
                = reported_states w).
  { unfold reported_states. cbn. rewrite omap_app. cbn. by rewrite app_nil_r. }
  intros []. by split; rewrite Heq.
Qed.

Lemma udc_step_inv w e : UdcInv w -> UdcInv (udc_watch_step w e).
Proof.
  intros Hi. destruct e as [raw|]; cbn [udc_watch_step]; [|by apply warning_inv].
  unfold report_udc_state_if_changed. destruct (map_udc_state raw) as [st|]; [|by apply warning_inv].
  destruct (bool_decide_reflect (last_state w = Some st)) as [|Hne]; [done|].
  destruct Hi as [Hl Hc Hd].
  assert (Heq : reported_states (mkUdcWatch (Some st) (Some st) (reported w ++ [UdcStateChanged st]))
                = reported_states w ++ [st]).
  { unfold reported_states. cbn. by rewrite omap_app. }
  split; rewrite Heq, ?last_snoc; try done. intros i s1 s2 H1 H2.
  apply lookup_app_Some in H2 as [H2|[Hlen H2]].
  - rewrite lookup_app_l in H1 by (apply lookup_lt_Some in H2; lia). by apply (Hd i).
  - apply list_lookup_singleton_Some in H2 as [H2 <-]. intros ->. apply Hne. rewrite Hl.
    rewrite last_lookup, <- H1, lookup_app_l by lia. f_equal. lia.
Qed.

(** The reported controller states are the real changes: two consecutive
    reports differ, the cache holds the last one, and every recognised state
    that is observed is the cached one right after. *)
Theorem udc_reports_changes events :
  let w := fold_left udc_watch_step events udc_watch_new in
  udc_state_cache w = last (reported_states w)
  /\ (∀ i s1 s2, reported_states w !! i = Some s1 -> reported_states w !! S i = Some s2 -> s1 ≠ s2)
  /\ (∀ raw s, map_udc_state raw = Some s ->
       udc_state_cache (udc_watch_step w (Some raw)) = Some s).
Proof.
  intros w. assert (Hi : UdcInv w).
  { apply fold_left_inv; [intros w' e; apply udc_step_inv|by split]. }
  clearbody w. pose proof Hi as [Hl Hc Hd]. split_and!; [done|done|].
  intros raw st Hm. cbn. unfold report_udc_state_if_changed. rewrite Hm.
  destruct (bool_decide_reflect (last_state w = Some st)) as [He|]; [|done]. congruence.
Qed.
