(* ===== verification/UsbControl.v ===== *)
(** * USB control service (crates/usb_devices/src/control/service.rs, manager.rs)

    The manager with the real devices: the seven handles behind the interface
    of Manager.v, the media operations of the manager ([handle_ums_control]
    and below), and the commands of the control service. *)

From S2P Require Import Prelude Text Hid Gadget Ums Uac NetAdapter Manager ManagerProofs.

(** ** The devices *)

Inductive DeviceService : Type :=
| DUms (h : UmsHandle)
| DUms1 (h : UmsHandle)
| DUac (h : UacHandle)
| DHidKb (h : HidKbHandle)
| DHidRel (h : HidRelHandle)
| DHidAbs (h : HidAbsHandle)
| DNetworkAdapter (h : NetworkAdapterHandle).

(** What the devices find when they look at the system. *)
Record DevEnv := mkDevEnv {
  e_ums : UmsEnv; e_ums1 : UmsEnv; e_spawn : bool;
  e_kb : option string; e_rel : option string; e_abs : option string;
  e_net : NetEnv }.

Definition device_on_change (env : DevEnv) (req : ChangeRequest) (d : DeviceService)
  : DeviceService * ChangeResponse :=
  match d with
  | DUms h => let '(h, r) := ums_on_change_request (e_ums env) req h in (DUms h, r)
  | DUms1 h => let '(h, r) := ums1_on_change_request (e_ums1 env) req h in (DUms1 h, r)
  | DUac h => let '(h, r) := uac_on_change_request (e_spawn env) req h in (DUac h, r)
  | DHidKb h => let '(h, r) := kb_on_change_request (e_kb env) req h in (DHidKb h, r)
  | DHidRel h => let '(h, r) := rel_on_change_request (e_rel env) req h in (DHidRel h, r)
  | DHidAbs h => let '(h, r) := abs_on_change_request (e_abs env) req h in (DHidAbs h, r)
  | DNetworkAdapter h =>
      let '(h, r) := na_on_change_request (e_net env) req h in (DNetworkAdapter h, r)
  end.

Definition device_updating (d : DeviceService) : bool :=
  match d with
  | DUms h | DUms1 h => u_updating h
  | DUac h => uac_updating h
  | DHidKb h | DHidRel h => udc_updating h
  | DHidAbs h => udc_updating h
  | DNetworkAdapter h => na_updating h
  end.

(** Letting go of the gadget: mounts are blocked, the microphone process is
    stopped, the thread was told to close its device, the network function and
    its interface are forgotten. *)
Definition hid_closed {R} (h : HidHandle R) : Prop :=
  device_path h = None /\ last (queue h) = Some Stop.

Definition device_quiet (d : DeviceService) : Prop :=
  match d with
  | DUms h | DUms1 h => u_updating h = true
  | DUac h => child (daemon h) = None /\ is_running (daemon h) = false
  | DHidKb h | DHidRel h => hid_closed h
  | DHidAbs h => hid_closed h
  | DNetworkAdapter h => na_net h = None /\ na_ifname h = None
  end.

Definition DEFAULT_UMS_MODE : UmsMode := CdRom.

Definition device_create (s : Service) (sw : DeviceSwitches) (mic : bool) : DeviceService :=
  match s with
  | VIRTUAL_MEDIA_SERVICE => DUms (ums_new UMS_VM_INQUIRY_STRING DEFAULT_UMS_MODE (ums_vm_enabled sw))
  | FILE_TRANSFER_SERVICE => DUms1 (ums_new UMS_FT_INQUIRY_STRING DEFAULT_UMS_MODE (ums_ft_enabled sw))
  | UAC_SERVICE => DUac (uac_new (uac1_enabled sw) mic)
  | HID_KB_SERVICE => DHidKb (hid_new (hid_kb_enabled sw))
  | HID_REL_SERVICE => DHidRel (hid_new (hid_rel_enabled sw))
  | HID_ABS_SERVICE => DHidAbs (hid_new (hid_abs_enabled sw))
  | NETWORK_ADAPTER_SERVICE => DNetworkAdapter (na_new (network_adapter_enabled sw))
  end.

Definition device_configure (sw : DeviceSwitches) (mic : bool) (d : DeviceService) : DeviceService :=
  match d with
  | DUms h => DUms (u_set_enabled (ums_vm_enabled sw) h)
  | DUms1 h => DUms1 (u_set_enabled (ums_ft_enabled sw) h)
  | DUac h => DUac (uac_set_process_enabled mic (uac_set_enabled (uac1_enabled sw) h))
  | DHidKb h => DHidKb (set_enabled (hid_kb_enabled sw) h)
  | DHidRel h => DHidRel (set_enabled (hid_rel_enabled sw) h)
  | DHidAbs h => DHidAbs (set_enabled (hid_abs_enabled sw) h)
  | DNetworkAdapter h => DNetworkAdapter (na_set_enabled (network_adapter_enabled sw) h)
  end.

#[export] Instance arkkvm_devices : UsbDevices DeviceService DevEnv := {
  on_change := device_on_change;
  dev_updating := device_updating;
  dev_quiet := device_quiet;
  dev_create := device_create;
  dev_configure := device_configure;
  dev_vm_mode d := match d with DUms h => u_mode h | _ => CdRom end;
  dev_set_net n d := match d with DNetworkAdapter h => DNetworkAdapter (set_net n h) | d => d end }.

Lemma unmount_ums_updating env h h' r : unmount_ums env h = (h', r) -> u_updating h' = u_updating h.
Proof. intros Hu. change h' with (h', r).1. rewrite <- Hu. clear Hu. ums_cases env h; done. Qed.

Lemma hid_end_idle {R} p req (h : HidHandle R) :
  req = ChangeCompleted \/ req = ChangeCanceled -> udc_updating (on_change_request p req h).1 = false.
Proof. by intros [->| ->]. Qed.

Lemma wait_for_ifname_updating env n a h :
  na_updating (wait_for_ifname env n a h).1 = na_updating h.
Proof.
  revert a h. induction n as [|n IH]; intros a h; cbn; [done|].
  assert (Hr : na_updating (refresh_ifname_from_net env a h) = na_updating h)
    by (unfold refresh_ifname_from_net; repeat case_match; done).
  destruct (na_ifname _); [done|]. by rewrite IH.
Qed.

Lemma board_l3_updating env i cfg h : na_updating (apply_board_l3 env i cfg h).1 = na_updating h.
Proof.
  unfold apply_board_l3, run_ip; se_unfold.
  repeat case_match; simplify_eq; done.
Qed.

Lemma apply_l3_updating env h : na_updating (apply_l3 env h).1 = na_updating h.
Proof.
  unfold apply_l3; se_unfold.
  assert (Hstop : ∀ h, na_updating (dhcp_stop env h) = na_updating h)
    by (intros h'; unfold dhcp_stop; by destruct (script_is_file env)).
  destruct (na_enabled h); cbn [negb]; [|destruct (na_ifname _); apply (Hstop h)].
  set (h1 := refresh_ifname_from_net env 0 (dhcp_stop env h)).
  assert (H1 : na_updating h1 = na_updating h).
  { transitivity (na_updating (dhcp_stop env h)); [|apply Hstop]. subst h1. unfold refresh_ifname_from_net. repeat case_match; done. }
  pose proof (wait_for_ifname_updating env IFACE_WAIT_ATTEMPTS 1 h1) as H2.
  destruct (wait_for_ifname _ _ _ h1) as [h2 [i|]]; cbn [fst ok_or] in *; [|congruence].
  pose proof (board_l3_updating env i (na_l3 h2) h2) as H3.
  destruct (apply_board_l3 env i _ h2) as [h3 [[]|]]; cbn [fst] in *; [|congruence].
  destruct (derive_dhcp_pool _ _); [|cbn; congruence].
  unfold dhcp_start. repeat case_match; simplify_eq; cbn; congruence.
Qed.

#[export] Instance arkkvm_device_laws : UsbDeviceLaws DeviceService DevEnv.
Proof.
  split.
  - intros env [h|h|h|h|h|h|h] d'; cbn [on_change arkkvm_devices device_on_change dev_quiet].
    + unfold ums_on_change_request. destruct (unmount_ums (e_ums env) h) as [h1 [[]|]]; intros; by simplify_eq.
    + unfold ums1_on_change_request. destruct (unmount_ums1 (e_ums1 env) h) as [h1 [[]|[]]]; intros; by simplify_eq.
    + cbn. intros; by simplify_eq.
    + intros [= <-]. split; [done|]. apply last_snoc.
    + intros [= <-]. split; [done|]. apply last_snoc.
    + intros [= <-]. split; [done|]. apply last_snoc.
    + cbn. intros [= <-]. destruct (na_ifname _); done.
  - intros env [h|h|h|h|h|h|h]; try done. apply apply_l3_updating.
  - intros env [h|h|h|h|h|h|h]; try done. apply apply_l3_updating.
Qed.

(** ** Media operations of the manager *)

Definition UsbManager : Type := Manager DeviceService.

Definition usb_error_to_string (e : UsbError) : string :=
  match e with
  | InvalidArgument m => "Invalid argument: " +:+ m
  | UDCError m => "UDC operation failed: " +:+ m
  | GadgetError m => "Gadget operation failed: " +:+ m
  | ChangeRejected m => "Change rejected by upper layer: " +:+ m
  | DeviceNotEnabled m => "Device not enabled: " +:+ m
  | DeviceNotFound m => "File not found: " +:+ m
  | FileNotFound m => "File not found: " +:+ m
  | StrictModeViolation m => "Strict mode violation: " +:+ m
  | IoError m => "IO Error: " +:+ m
  | EndpointBudgetExceeded m => "USB endpoint budget exceeded: " +:+ m
  end.

Record UmsControlResponse := mkUmsResp {
  ur_ok : bool; ur_error : option string; ur_mounted : bool; ur_mounted_path : string; ur_vm_type : Z }.

Definition VM_UNKNOWN : Z := 0.
Definition VM_CD_ROM : Z := 1.
Definition VM_DISK : Z := 2.

Definition proto_vm_type_to_ums_mode (t : Z) : UmsMode := if (t =? VM_DISK)%Z then Disk else CdRom.
Definition ums_mode_to_proto (m : UmsMode) : Z := match m with Disk => VM_DISK | CdRom => VM_CD_ROM end.

Definition ums_resp_ok : UmsControlResponse := mkUmsResp true None false "" VM_UNKNOWN.
Definition ums_resp_vm_state (mode : UmsMode) (path : option string) : UmsControlResponse :=
  mkUmsResp true None (bool_decide (is_Some path)) (default "" path) (ums_mode_to_proto mode).
Definition ums_resp_mount_state (mounted : bool) (path : string) : UmsControlResponse :=
  mkUmsResp true None mounted path VM_UNKNOWN.
Definition ums_resp_err (m : string) : UmsControlResponse := mkUmsResp false (Some m) false "" VM_UNKNOWN.

Definition resp_of {A} (r : Result UsbError A) : UmsControlResponse :=
  match r with Ok _ => ums_resp_ok | Err e => ums_resp_err (usb_error_to_string e) end.

(** A handler that always answers. *)
Definition Handler : Type := UsbManager -> UsbManager * UmsControlResponse.

Section control.
Context (world : nat -> World DevEnv) (rehash : list Service -> list Service).

Definition get_virtual_media (m : UsbManager) : option UmsHandle :=
  match device_services m !! VIRTUAL_MEDIA_SERVICE with Some (DUms h) => Some h | _ => None end.

Definition get_file_transfer (m : UsbManager) : option UmsHandle :=
  match device_services m !! FILE_TRANSFER_SERVICE with Some (DUms1 h) => Some h | _ => None end.

(** A controller sends the operation to its handle and waits for the answer. *)
Definition on_vm {A} (op : UmsEnv -> UM A) (h : UmsHandle) : MM (H := DeviceService) A :=
  fun m => let '(h', r) := op (e_ums (w_dev (world (clock m)))) h in
           (tick (with_services (change_handlers m)
                    (<[VIRTUAL_MEDIA_SERVICE := DUms h']> (device_services m)) m), r).

Definition on_ft {A} (op : UmsEnv -> UM A) (h : UmsHandle) : MM (H := DeviceService) A :=
  fun m => let '(h', r) := op (e_ums1 (w_dev (world (clock m)))) h in
           (tick (with_services (change_handlers m)
                    (<[FILE_TRANSFER_SERVICE := DUms1 h']> (device_services m)) m), r).

Definition answer {A} (k : MM (H := DeviceService) A) : Handler :=
  fun m => let '(m', r) := k m in (m', resp_of r).

Definition ums_vm_mount_state (m : UsbManager) : UmsControlResponse :=
  match get_virtual_media m with
  | Some h => ums_resp_vm_state (u_mode h) (file_path h)
  | None => ums_resp_vm_state DEFAULT_UMS_MODE None
  end.

Definition ums_ft_mount_state (m : UsbManager) : UmsControlResponse :=
  match get_file_transfer m with
  | Some h => let path := default "" (file_path h) in
              ums_resp_mount_state (negb (is_empty path)) path
  | None => ums_resp_mount_state false ""
  end.

Definition ums_vm_unmount : Handler :=
  fun m => match get_virtual_media m with
           | Some h => answer (on_vm unmount_ums h) m
           | None => (m, ums_resp_ok)
           end.

Definition ums_ft_unmount : Handler :=
  fun m => match get_file_transfer m with
           | Some h => answer (on_ft unmount_ums1 h) m
           | None => (m, ums_resp_ok)
           end.

(** [ctrl] is the controller found at the start; its handle is looked up
    again when it is used. *)
Definition vm_mount (image : string) : MM (H := DeviceService) unit :=
  fun m => match get_virtual_media m with
           | Some h => on_vm (fun env => mount_ums env image) h m
           | None => (m, Err (InvalidArgument "failed to send event"))
           end.

Definition rebuild_if (needed : bool) : MM (H := DeviceService) unit :=
  if needed then apply_switches world rehash None None else se_ret tt.

Definition ums_vm_mount (image_path : string) (vm_type : Z) : Handler :=
  fun m => match get_virtual_media m with
           | None => (m, ums_resp_err "virtual media controller not initialized")
           | Some h =>
               answer (let! needs_rebuild := on_vm (fun _ => switch_mode (proto_vm_type_to_ums_mode vm_type)) h in
                       rebuild_if needs_rebuild ;;;
                       vm_mount image_path) m
           end.

Definition ums_ft_mount (image_path : string) : Handler :=
  fun m => match get_file_transfer m with
           | None => (m, ums_resp_err "file transfer controller not initialized")
           | Some h => answer (on_ft (fun env => mount_ums1 env image_path) h) m
           end.

Definition ums_vm_switch_mode (mode : UmsMode) : Handler :=
  fun m => match get_virtual_media m with
           | None => (m, ums_resp_err "virtual media controller not initialized")
           | Some h =>
               answer (let! needs_rebuild := on_vm (fun _ => switch_mode mode) h in
                       rebuild_if needs_rebuild) m
           end.

Inductive UmsOperation : Set :=
| UmsOpUnspecified | UmsMount | UmsUnmount | UmsSwitchVmMode | UmsGetMountState.

Definition ums_operation_of (v : Z) : UmsOperation :=
  if (v =? 1)%Z then UmsMount else if (v =? 2)%Z then UmsUnmount
  else if (v =? 3)%Z then UmsSwitchVmMode else if (v =? 4)%Z then UmsGetMountState
  else UmsOpUnspecified.

Record UmsControlRequest := mkUmsReq {
  uq_operation : Z; uq_target : Z; uq_image_path : string; uq_vm_type : Z }.

(** [UmsTarget]: 1 is virtual media, 2 file transfer. *)
Definition by_target {A} (t : Z) (vm ft other : A) : A :=
  if (t =? 1)%Z then vm else if (t =? 2)%Z then ft else other.

Definition NEWLINE : string := String (ascii_of_N 10) EmptyString.

Definition handle_ums_control (req : UmsControlRequest) : Handler :=
  fun m =>
  match ums_operation_of (uq_operation req) with
  | UmsOpUnspecified => (m, ums_resp_err "unspecified ums operation")
  | UmsGetMountState =>
      (m, by_target (uq_target req) (ums_vm_mount_state m) (ums_ft_mount_state m)
            (ums_resp_err "get_mount_state requires ums_vm or ums_ft target"))
  | UmsUnmount =>
      by_target (uq_target req) ums_vm_unmount ums_ft_unmount
        (fun m => (m, ums_resp_err "unmount requires ums_vm or ums_ft target")) m
  | UmsMount =>
      if is_empty (uq_image_path req) || String.eqb (uq_image_path req) NEWLINE then
        by_target (uq_target req) ums_vm_unmount ums_ft_unmount
          (fun m => (m, ums_resp_err "mount with empty path requires ums_vm or ums_ft target")) m
      else
        by_target (uq_target req)
          (ums_vm_mount (uq_image_path req) (uq_vm_type req))
          (ums_ft_mount (uq_image_path req))
          (fun m => (m, ums_resp_err "mount requires ums_vm or ums_ft target")) m
  | UmsSwitchVmMode => ums_vm_switch_mode (proto_vm_type_to_ums_mode (uq_vm_type req)) m
  end.
End control.

(** ** The control service (service.rs) *)

Record UsbDeviceInfo := mkUsbInfo {
  ui_switches : option DeviceSwitches; ui_ums_vm_type : Z;
  ui_ums_vm_path : string; ui_ums_ft_path : string;
  ui_network_adapter_l3 : option AdapterL3Settings }.

#[export] Instance AdapterL3Settings_eq_dec : EqDecision AdapterL3Settings.
Proof. solve_decision. Defined.
#[export] Instance UsbBaseInfo_eq_dec : EqDecision UsbBaseInfo.
Proof. solve_decision. Defined.

Definition network_adapter_switch_changed (a b : option NetworkAdapterSwitch) : bool :=
  match a, b with
  | None, None => false
  | Some a, Some b => negb (Bool.eqb (net_enable a) (net_enable b))
                      || negb (net_adapter_type a =? net_adapter_type b)%Z
  | None, Some b => net_enable b
  | Some a, None => net_enable a
  end.

Definition is_switches_change (a b : DeviceSwitches) : bool :=
  negb (Bool.eqb (hid_kb_enabled a) (hid_kb_enabled b))
  || negb (Bool.eqb (hid_abs_enabled a) (hid_abs_enabled b))
  || negb (Bool.eqb (hid_rel_enabled a) (hid_rel_enabled b))
  || negb (Bool.eqb (ums_vm_enabled a) (ums_vm_enabled b))
  || negb (Bool.eqb (ums_ft_enabled a) (ums_ft_enabled b))
  || negb (Bool.eqb (uac1_enabled a) (uac1_enabled b))
  || negb (Bool.eqb (uvc_enabled a) (uvc_enabled b))
  || network_adapter_switch_changed (network_adapter a) (network_adapter b).

Definition is_paths_change (a b : UsbDeviceInfo) : bool :=
  negb (String.eqb (ui_ums_vm_path a) (ui_ums_vm_path b))
  || negb (String.eqb (ui_ums_ft_path a) (ui_ums_ft_path b))
  || negb (ui_ums_vm_type a =? ui_ums_vm_type b)%Z.

Definition is_network_adapter_l3_change (a b : UsbDeviceInfo) : bool :=
  negb (bool_decide (ui_network_adapter_l3 a = ui_network_adapter_l3 b)).

Definition parse_hex_u16 (name value : string) : Result UsbError Z :=
  let raw := trim value in
  let trimmed := match strip_prefix "0x" raw with
                 | Some s => s
                 | None => default raw (strip_prefix "0X" raw)
                 end in
  ok_or (parse_unsigned 16 u16_max hex_digit_of trimmed)
    (InvalidArgument ("invalid " +:+ name +:+ " (expected hex u16): " +:+ value)).

Record RuntimeUsbConfig := mkRuntimeUsb {
  rt_vendor_id : string; rt_product_id : string; rt_serial_number : string;
  rt_manufacturer : string; rt_product : string; rt_force_full_speed : bool }.

Definition runtime_usb_config_to_base_info (current : UsbBaseInfo) (rt : RuntimeUsbConfig)
  : Result UsbError UsbBaseInfo :=
  match parse_hex_u16 "vendor_id" (rt_vendor_id rt) with
  | Err e => Err e
  | Ok vid =>
      match parse_hex_u16 "product_id" (rt_product_id rt) with
      | Err e => Err e
      | Ok pid => Ok (mkBase vid pid (bcd_device current) (bcd_usb current) (rt_serial_number rt)
                        (rt_manufacturer rt) (rt_product rt) (strict_mode current)
                        (rt_force_full_speed rt))
      end
  end.

(** The service's task owns the manager and the last applied description. *)
Record ControlState := mkControl { manager : UsbManager; last_usb_info : option UsbDeviceInfo }.

Definition CM (A : Type) : Type := SE ControlState UsbError A.

Section service.
Context (world : nat -> World DevEnv) (rehash : list Service -> list Service).

Definition in_manager {A} (k : MM (H := DeviceService) A) : CM A :=
  fun c => let '(m, r) := k (manager c) in (mkControl m (last_usb_info c), r).

Definition set_last_usb_info (i : UsbDeviceInfo) (c : ControlState) : ControlState :=
  mkControl (manager c) (Some i).

Definition get_network_adapter_handle (m : UsbManager) : option NetworkAdapterHandle :=
  match device_services m !! NETWORK_ADAPTER_SERVICE with
  | Some (DNetworkAdapter h) => Some h
  | _ => None
  end.

Definition put_network_adapter (h : NetworkAdapterHandle) (m : UsbManager) : UsbManager :=
  with_services (change_handlers m)
    (<[NETWORK_ADAPTER_SERVICE := DNetworkAdapter h]> (device_services m)) m.

Definition set_network_adapter_l3_config (l3 : option AdapterL3Settings) (m : UsbManager) : UsbManager :=
  let m := ensure_network_adapter rehash m in
  match get_network_adapter_handle m with
  | Some h => put_network_adapter (set_l3_from_proto l3 h) m
  | None => m
  end.

Definition apply_network_adapter_l3_only : MM (H := DeviceService) unit :=
  fun m => match get_network_adapter_handle m with
           | None => (m, Err (DeviceNotFound "network adapter service not initialized"))
           | Some h => let '(h', r) := apply_l3 (e_net (w_dev (world (clock m)))) h in
                       (tick (put_network_adapter h' m), r)
           end.

Definition is_ums_vm_mounted (m : UsbManager) : bool :=
  match get_virtual_media m with Some h => bool_decide (is_Some (file_path h)) | None => false end.

Definition is_ums_ft_mounted (m : UsbManager) : bool :=
  match get_file_transfer m with Some h => bool_decide (is_Some (file_path h)) | None => false end.

Definition preflight_ums_path_changes (i : UsbDeviceInfo) (last : option UsbDeviceInfo)
  : MM (H := DeviceService) unit :=
  fun m =>
  match last, ui_switches i with
  | Some last, Some s =>
      if ums_vm_enabled s && negb (is_empty (ui_ums_vm_path i))
         && negb (String.eqb (ui_ums_vm_path i) (ui_ums_vm_path last)) && is_ums_vm_mounted m
      then (m, Err (ChangeRejected "virtual media is mounted, cannot change image path"))
      else if ums_ft_enabled s && negb (is_empty (ui_ums_ft_path i))
         && negb (String.eqb (ui_ums_ft_path i) (ui_ums_ft_path last)) && is_ums_ft_mounted m
      then (m, Err (ChangeRejected "file transfer storage is mounted, cannot change image path"))
      else (m, Ok tt)
  | _, _ => (m, Ok tt)
  end.

(** Operations through the controllers, [let _ =] or logged on error. *)
Definition vm_op {A} (op : UmsEnv -> UM A) : MM (H := DeviceService) (Result UsbError A) :=
  fun m => match get_virtual_media m with
           | Some h => se_catch (on_vm world op h) m
           | None => (m, Ok (Err (InvalidArgument "failed to send event")))
           end.

Definition ft_op {A} (op : UmsEnv -> UM A) : MM (H := DeviceService) (Result UsbError A) :=
  fun m => match get_file_transfer m with
           | Some h => se_catch (on_ft world op h) m
           | None => (m, Ok (Err (InvalidArgument "failed to send event")))
           end.

Definition apply_vm_mount (s : DeviceSwitches) (i : UsbDeviceInfo) : MM (H := DeviceService) unit :=
  let! vm := se_get get_virtual_media in
  match vm with
  | None => se_ret tt
  | Some _ =>
      if ums_vm_enabled s then
        if is_empty (ui_ums_vm_path i) then se_ret tt
        else
          let! r := vm_op (fun _ => switch_mode (proto_vm_type_to_ums_mode (ui_ums_vm_type i))) in
          (match r with
           | Ok true => apply_switches world rehash None None
           | Ok false | Err _ => se_ret tt
           end) ;;;
          vm_op (fun env => mount_ums env (ui_ums_vm_path i)) ;;; se_ret tt
      else vm_op unmount_ums ;;; se_ret tt
  end.

Definition apply_ft_mount (s : DeviceSwitches) (i : UsbDeviceInfo) : MM (H := DeviceService) unit :=
  let! ft := se_get get_file_transfer in
  match ft with
  | None => se_ret tt
  | Some _ =>
      if ums_ft_enabled s then
        if is_empty (ui_ums_ft_path i) then se_ret tt
        else ft_op (fun env => mount_ums1 env (ui_ums_ft_path i)) ;;; se_ret tt
      else ft_op unmount_ums1 ;;; se_ret tt
  end.

Definition apply_ums_mounts (i : UsbDeviceInfo) (last : option UsbDeviceInfo)
  : MM (H := DeviceService) unit :=
  preflight_ums_path_changes i last ;;;
  match ui_switches i with
  | Some s => apply_vm_mount s i ;;; apply_ft_mount s i
  | None => se_ret tt
  end.

Definition apply_full_config (i : UsbDeviceInfo) (base : UsbBaseInfo) : CM DeviceSwitches :=
  let! switches := se_of_result (ok_or (ui_switches i) (InvalidArgument "missing switches in usb_info")) in
  in_manager (se_modify (set_network_adapter_l3_config (ui_network_adapter_l3 i))) ;;;
  let! c := se_get id in
  let m := manager c in
  let switches_changed := is_switches_change (m_switches m) switches in
  let paths_changed := match last_usb_info c with Some prev => is_paths_change prev i | None => false end in
  let base_changed := negb (bool_decide (base_info m = base)) in
  let network_l3_changed :=
    match last_usb_info c with
    | Some prev => is_network_adapter_l3_change prev i
    | None => bool_decide (is_Some (ui_network_adapter_l3 i))
    end in
  if bool_decide (is_Some (last_usb_info c)) && negb switches_changed && negb paths_changed
     && negb base_changed && network_l3_changed
  then
    in_manager apply_network_adapter_l3_only ;;;
    se_modify (set_last_usb_info i) ;;;
    se_get (fun c => m_switches (manager c))
  else
    in_manager (apply_switches world rehash (Some base) (Some switches)) ;;;
    in_manager (apply_ums_mounts i (last_usb_info c)) ;;;
    se_modify (set_last_usb_info i) ;;;
    se_get (fun c => m_switches (manager c)).

(** [ApplyRuntimeConfigRequest]: the microphone flag, the identity and the
    devices. *)
Definition apply_runtime_usb_info (mic : bool) (rt : option RuntimeUsbConfig)
  (info : option UsbDeviceInfo) : CM DeviceSwitches :=
  in_manager (se_modify (set_mic_process_enabled mic)) ;;;
  let! rt := se_of_result (ok_or rt (InvalidArgument "missing usb_config in ApplyRuntimeConfigRequest")) in
  let! info := se_of_result (ok_or info (InvalidArgument "missing usb_info in ApplyRuntimeConfigRequest")) in
  let! cur := se_get (fun c => base_info (manager c)) in
  let! base := se_of_result (runtime_usb_config_to_base_info cur rt) in
  apply_full_config info base ;;;
  se_get (fun c => m_switches (manager c)).

(** *** The commands *)

Inductive ControlCmd : Type :=
| Apply (i : UsbDeviceInfo)
| ApplyRuntime (mic : bool) (rt : option RuntimeUsbConfig) (info : option UsbDeviceInfo)
| SetUsbEmulationState (enabled : bool)
| SetMicProcess (enabled : bool)
| UmsControl (req : UmsControlRequest)
| Putkeyboard (modifier : Z) (keys : list Z)
| Putabsmouse (x y buttons : Z)
| Putrelmouse (dx dy buttons : Z)
| Putwheel (wheel_y wheel_x : Z).

Inductive Reply : Type :=
| RSwitches (r : Result UsbError DeviceSwitches)
| RBool (r : Result UsbError bool)
| RUnit (r : Result UsbError unit)
| RUms (r : UmsControlResponse)
| RNone
| RPanic.   (** the task panics *)

Definition apply_mic_process_enabled (enabled : bool) (m : UsbManager) : UsbManager :=
  let m := set_mic_process_enabled enabled m in
  match device_services m !! UAC_SERVICE with
  | Some (DUac h) =>
      tick (with_services (change_handlers m)
        (<[UAC_SERVICE := DUac (sync_process_state (e_spawn (w_dev (world (clock m))))
                                  (uac_set_process_enabled enabled h))]> (device_services m)) m)
  | _ => m
  end.

Definition update_device (s : Service) (f : DeviceService -> DeviceService) (m : UsbManager) : UsbManager :=
  with_services (change_handlers m) (alter f s (device_services m)) m.

Definition control_step (cmd : ControlCmd) (c : ControlState) : ControlState * Reply :=
  let dev s f := (mkControl (update_device s f (manager c)) (last_usb_info c), RNone) in
  match cmd with
  | Apply i => let '(c, r) := apply_full_config i (base_info (manager c)) c in (c, RSwitches r)
  | ApplyRuntime mic rt info => let '(c, r) := apply_runtime_usb_info mic rt info c in (c, RSwitches r)
  | SetUsbEmulationState b =>
      let '(m, r) := set_emulation_enabled world rehash b (manager c) in
      (mkControl m (last_usb_info c), RBool (result_map (fun _ => get_emulation_enabled m) r))
  | SetMicProcess b =>
      (mkControl (apply_mic_process_enabled b (manager c)) (last_usb_info c), RUnit (Ok tt))
  | UmsControl req =>
      let '(m, r) := handle_ums_control world rehash req (manager c) in
      (mkControl m (last_usb_info c), RUms r)
  | Putkeyboard modifier keys =>
      match device_services (manager c) !! HID_KB_SERVICE with
      | Some (DHidKb h) =>
          match kb_keyboard_report (as_u8 modifier) keys h with
          | Some h' => dev HID_KB_SERVICE (fun _ => DHidKb h')
          | None => (c, RPanic)
          end
      | _ => (c, RNone)
      end
  | Putabsmouse x y btns =>
      dev HID_ABS_SERVICE (fun d => match d with
                                    | DHidAbs h => DHidAbs (abs_submit_report x y (as_u8 btns) h)
                                    | d => d end)
  | Putrelmouse dx dy btns =>
      dev HID_REL_SERVICE (fun d => match d with
                                    | DHidRel h => DHidRel (rel_submit_report (as_i8 dx) (as_i8 dy) (as_u8 btns) h)
                                    | d => d end)
  | Putwheel y x =>
      dev HID_ABS_SERVICE (fun d => match d with
                                    | DHidAbs h => DHidAbs (abs_submit_wheel (as_i8 y) (as_i8 x) h)
                                    | d => d end)
  end.
End service.
