(* ===== verification/UsbControlProofs.v ===== *)
(** * Theorems on the USB control service

    The commands of the service are runs of the manager, so the manager's
    theorems hold of the service; mounting an image through the manager is
    visible in the mount state; a change of addressing alone keeps the gadget. *)

From S2P Require Import Prelude Hid Gadget Ums Uac NetAdapter Manager ManagerProofs UsbControl.

(** ** Skipping the rebuild *)

Lemma functions_same a b : is_switches_change a b = false ->
  (∀ base mode, build_gadget base a mode = build_gadget base b mode)
  /\ endpoint_usage a = endpoint_usage b /\ has_any_enabled a = has_any_enabled b.
Proof.
  unfold is_switches_change, network_adapter_switch_changed.
  destruct a as [a1 a2 a3 a4 a5 a6 a7 [[e1 t1]|]], b as [b1 b2 b3 b4 b5 b6 b7 [[e2 t2]|]]; cbn;
    rewrite !orb_false_iff, ?negb_false_iff, ?Bool.eqb_true_iff, ?Z.eqb_eq; intros; destruct_and!;
    subst; done.
Qed.

(** When the switches do not count as changed, nothing of the gadget would
    change: the same gadget is built in every mode, with the same endpoint
    use, so that skipping the rebuild is sound; this covers the adapter
    switch that is missing on one side and off on the other. *)
Theorem unchanged_switches_same_gadget a b base mode :
  is_switches_change a b = false ->
  build_gadget base a mode = build_gadget base b mode /\ endpoint_usage a = endpoint_usage b.
Proof. intros Hc. destruct (functions_same a b Hc) as (H1 & H2 & _). auto. Qed.

Section proofs.
Context (world : nat -> World DevEnv) (rehash : list Service -> list Service).
Implicit Types (m : UsbManager) (c : ControlState).

Local Abbreviation run := (mrun (H := DeviceService) world rehash).

(** ** The service as runs of the manager *)

Definition reaches m m' : Prop := ∃ ops, m' = run ops m.

#[local] Instance reaches_preorder : PreOrder reaches.
Proof.
  split; [by exists []|]. intros m1 m2 m3 [o1 ->] [o2 ->]. exists (o1 ++ o2).
  unfold mrun. by rewrite fold_left_app.
Qed.

Lemma reaches_op o m : reaches m (mop world rehash o m).
Proof. by exists [o]. Qed.

Lemma reaches_apply b s m : reaches m (apply_switches world rehash b s m).1.
Proof. apply (reaches_op (MApply b s)). Qed.

Lemma reaches_insert m s d :
  is_Some (device_services m !! s) ->
  reaches m (tick (with_services (change_handlers m) (<[s := d]> (device_services m)) m)).
Proof.
  intros [d0 Hs]. exists [MDevice s (fun _ => d); MTick]. cbn.
  replace (alter (λ _, d) s (device_services m)) with (<[s := d]> (device_services m)); [done|].
  apply map_eq. intros s'. destruct (decide (s = s')) as [<-|];
    [by rewrite lookup_insert_eq, lookup_alter_eq, Hs|by rewrite lookup_insert_ne, lookup_alter_ne].
Qed.

Lemma get_vm_some m h : get_virtual_media m = Some h -> is_Some (device_services m !! VIRTUAL_MEDIA_SERVICE).
Proof. unfold get_virtual_media. destruct (_ !! _); [eauto|done]. Qed.
Lemma get_ft_some m h : get_file_transfer m = Some h -> is_Some (device_services m !! FILE_TRANSFER_SERVICE).
Proof. unfold get_file_transfer. destruct (_ !! _); [eauto|done]. Qed.
Lemma get_net_some m h :
  get_network_adapter_handle m = Some h -> is_Some (device_services m !! NETWORK_ADAPTER_SERVICE).
Proof. unfold get_network_adapter_handle. destruct (_ !! _); [eauto|done]. Qed.

Lemma on_vm_reaches {A} (op : UmsEnv -> UM A) m h :
  get_virtual_media m = Some h -> reaches m (on_vm world op h m).1.
Proof.
  intros Hg. unfold on_vm. destruct (op _ h) as [h' r]. apply reaches_insert. by eapply get_vm_some.
Qed.

Lemma on_ft_reaches {A} (op : UmsEnv -> UM A) m h :
  get_file_transfer m = Some h -> reaches m (on_ft world op h m).1.
Proof.
  intros Hg. unfold on_ft. destruct (op _ h) as [h' r]. apply reaches_insert. by eapply get_ft_some.
Qed.

(** Sequencing. *)
Lemma bind_reaches {A B} (k : MM (H := DeviceService) A) (f : A -> MM (H := DeviceService) B) m :
  reaches m (k m).1 -> (∀ a m', reaches m' (f a m').1) -> reaches m (se_bind k f m).1.
Proof.
  intros Hk Hf. unfold se_bind. destruct (k m) as [m' [a|]]; cbn in *; [|done].
  etransitivity; [done|apply Hf].
Qed.

Lemma answer_reaches {A} (k : MM (H := DeviceService) A) m :
  reaches m (k m).1 -> reaches m (answer k m).1.
Proof. unfold answer. by destruct (k m). Qed.

Lemma vm_mount_reaches image m : reaches m (vm_mount world image m).1.
Proof.
  unfold vm_mount. destruct (get_virtual_media m) eqn:Eg; [by apply on_vm_reaches|done].
Qed.

Lemma rebuild_reaches (b : bool) m :
  reaches m (rebuild_if world rehash b m).1.
Proof. unfold rebuild_if. destruct b; [apply reaches_apply|done]. Qed.

Lemma ums_control_reaches req m : reaches m (handle_ums_control world rehash req m).1.
Proof.
  assert (Hvu : reaches m (ums_vm_unmount world m).1).
  { unfold ums_vm_unmount. destruct (get_virtual_media m) eqn:Eg; [|done].
    by apply answer_reaches, on_vm_reaches. }
  assert (Hfu : reaches m (ums_ft_unmount world m).1).
  { unfold ums_ft_unmount. destruct (get_file_transfer m) eqn:Eg; [|done].
    by apply answer_reaches, on_ft_reaches. }
  unfold handle_ums_control, by_target. destruct (ums_operation_of _); try done.
  - destruct (_ || _); (destruct (_ =? 1)%Z; [|destruct (_ =? 2)%Z]); try done.
    + unfold ums_vm_mount. destruct (get_virtual_media m) eqn:Eg; [|done].
      apply answer_reaches, bind_reaches; [by apply on_vm_reaches|]. intros b m'.
      apply bind_reaches; [apply rebuild_reaches|]. intros _ m''. apply vm_mount_reaches.
    + unfold ums_ft_mount. destruct (get_file_transfer m) eqn:Eg; [|done].
      by apply answer_reaches, on_ft_reaches.
  - destruct (_ =? 1)%Z; [|destruct (_ =? 2)%Z]; done.
  - unfold ums_vm_switch_mode. destruct (get_virtual_media m) eqn:Eg; [|done].
    apply answer_reaches, bind_reaches; [by apply on_vm_reaches|]. intros b m'. apply rebuild_reaches.
Qed.

Lemma vm_op_reaches {A} (op : UmsEnv -> UM A) m : reaches m (vm_op world op m).1.
Proof.
  unfold vm_op. destruct (get_virtual_media m) eqn:Eg; [|done].
  pose proof (on_vm_reaches op m _ Eg) as Hr. unfold se_catch. by destruct (on_vm world op _ m).
Qed.

Lemma ft_op_reaches {A} (op : UmsEnv -> UM A) m : reaches m (ft_op world op m).1.
Proof.
  unfold ft_op. destruct (get_file_transfer m) eqn:Eg; [|done].
  pose proof (on_ft_reaches op m _ Eg) as Hr. unfold se_catch. by destruct (on_ft world op _ m).
Qed.

Lemma put_network_reaches h h' m :
  get_network_adapter_handle m = Some h -> reaches m (put_network_adapter h' m).
Proof.
  intros [d0 Hs]%get_net_some. exists [MDevice NETWORK_ADAPTER_SERVICE (fun _ => DNetworkAdapter h')].
  cbn. unfold put_network_adapter. f_equal. apply map_eq. intros s'.
  destruct (decide (NETWORK_ADAPTER_SERVICE = s')) as [<-|];
    [by rewrite lookup_insert_eq, lookup_alter_eq, Hs|by rewrite lookup_insert_ne, lookup_alter_ne].
Qed.

Lemma set_l3_reaches l3 m : reaches m (set_network_adapter_l3_config rehash l3 m).
Proof.
  unfold set_network_adapter_l3_config. etransitivity; [apply (reaches_op MEnsureNet)|]. cbn [mop].
  destruct (get_network_adapter_handle _) eqn:Eg; [by eapply put_network_reaches|done].
Qed.

Lemma l3_only_reaches m : reaches m (apply_network_adapter_l3_only world m).1.
Proof.
  unfold apply_network_adapter_l3_only. destruct (get_network_adapter_handle m) as [h|] eqn:Eg; [|done].
  destruct (apply_l3 _ h) as [h' r]. cbn [fst].
  etransitivity; [by eapply put_network_reaches|]. apply (reaches_op MTick).
Qed.

Lemma ums_mounts_reaches i last m : reaches m (apply_ums_mounts world rehash i last m).1.
Proof.
  unfold apply_ums_mounts. apply bind_reaches.
  { unfold preflight_ums_path_changes. repeat case_match; done. }
  intros _ m1. destruct (ui_switches i) as [s|]; [|done]. apply bind_reaches.
  - unfold apply_vm_mount. apply bind_reaches; [done|]. intros [h|] m2; [|done].
    destruct (ums_vm_enabled s); [destruct (is_empty _); [done|]|];
      (apply bind_reaches; [apply vm_op_reaches|]); [|done].
    intros r m3. apply bind_reaches.
    + destruct r as [[]|]; [apply reaches_apply|done..].
    + intros _ m4. apply bind_reaches; [apply vm_op_reaches|done].
  - intros _ m2. unfold apply_ft_mount. apply bind_reaches; [done|]. intros [h|] m3; [|done].
    destruct (ums_ft_enabled s); [destruct (is_empty _); [done|]|];
      (apply bind_reaches; [apply ft_op_reaches|done]).
Qed.

(** The same for the state of the service. *)
Definition creaches c c' : Prop := reaches (manager c) (manager c').

#[local] Instance creaches_preorder : PreOrder creaches.
Proof. split; [intros c; unfold creaches; reflexivity|]. unfold creaches. intros ???. by etransitivity. Qed.

Lemma cbind_reaches {A B} (k : CM A) (f : A -> CM B) c :
  creaches c (k c).1 -> (∀ a c', creaches c' (f a c').1) -> creaches c (se_bind k f c).1.
Proof.
  intros Hk Hf. unfold se_bind. destruct (k c) as [c' [a|]]; cbn in *; [|done].
  etransitivity; [done|apply Hf].
Qed.

Lemma in_manager_reaches {A} (k : MM (H := DeviceService) A) c :
  (∀ m, reaches m (k m).1) -> creaches c (in_manager k c).1.
Proof.
  intros Hk. unfold in_manager, creaches. specialize (Hk (manager c)). by destruct (k (manager c)).
Qed.

Lemma creaches_last i c : creaches c (set_last_usb_info i c).
Proof. unfold creaches. reflexivity. Qed.

Lemma full_config_reaches i base c : creaches c (apply_full_config world rehash i base c).1.
Proof.
  unfold apply_full_config. apply cbind_reaches; [done|]. intros sw c1.
  apply cbind_reaches; [apply in_manager_reaches; intros m; apply set_l3_reaches|]. intros _ c2.
  apply cbind_reaches; [done|]. intros c3 c4. destruct (_ && _).
  - apply cbind_reaches; [apply in_manager_reaches, l3_only_reaches|]. intros _ c5.
    apply cbind_reaches; [apply creaches_last|done].
  - apply cbind_reaches; [apply in_manager_reaches; intros m; apply reaches_apply|]. intros _ c5.
    apply cbind_reaches; [apply in_manager_reaches; intros m; apply ums_mounts_reaches|].
    intros _ c6. apply cbind_reaches; [apply creaches_last|done].
Qed.

Lemma runtime_reaches mic rt info c : creaches c (apply_runtime_usb_info world rehash mic rt info c).1.
Proof.
  unfold apply_runtime_usb_info. apply cbind_reaches.
  { apply in_manager_reaches. intros m. apply (reaches_op (MMic mic)). }
  intros _ c1. do 4 (apply cbind_reaches; [done|]; intros ? ?).
  apply cbind_reaches; [apply full_config_reaches|done].
Qed.

Lemma control_step_reaches cmd c : creaches c (control_step world rehash cmd c).1.
Proof.
  assert (Hdev : ∀ s f, creaches c (mkControl (update_device s f (manager c)) (last_usb_info c))).
  { intros s f. apply (reaches_op (MDevice s f)). }
  destruct cmd as [i|mic rt info|b|b|req|md keys|x y bt|dx dy bt|wy wx]; cbn [control_step]; try apply Hdev.
  - pose proof (full_config_reaches i (base_info (manager c)) c) as Hr.
    by destruct (apply_full_config _ _ _ _ c).
  - pose proof (runtime_reaches mic rt info c) as Hr. by destruct (apply_runtime_usb_info _ _ _ _ _ c).
  - pose proof (reaches_op (MEmulate b) (manager c)) as Hr. cbn [mop] in Hr. unfold creaches.
    by destruct (set_emulation_enabled world rehash b (manager c)).
  - unfold creaches. cbn. unfold apply_mic_process_enabled.
    etransitivity; [apply (reaches_op (MMic b))|]. cbn [mop].
    destruct (device_services (set_mic_process_enabled b (manager c)) !! UAC_SERVICE) as [[]|] eqn:Eu;
      try reflexivity. apply reaches_insert. by rewrite Eu.
  - pose proof (ums_control_reaches req (manager c)) as Hr. unfold creaches.
    by destruct (handle_ums_control world rehash req (manager c)).
  - destruct (device_services (manager c) !! HID_KB_SERVICE) as [[]|]; try reflexivity.
    destruct (kb_keyboard_report _ _ _); [apply Hdev|reflexivity].
Qed.

Definition control_run (cmds : list ControlCmd) c : ControlState :=
  fold_left (fun c cmd => (control_step world rehash cmd c).1) cmds c.

Lemma control_run_reaches cmds c : creaches c (control_run cmds c).
Proof.
  revert c. induction cmds as [|cmd cmds IH]; intros c; [cbn; reflexivity|].
  cbn. etransitivity; [apply control_step_reaches|apply IH].
Qed.

(** The service adds nothing the manager does not do: the state after any
    commands is one the manager reaches by its own operations, so in
    particular a bound gadget is the one of the manager's switches and fits
    the controller, whatever is mounted, applied or toggled in between. *)
Theorem control_service_refines_manager (rehash_perm : ∀ l, rehash l ≡ₚ l) cmds base :
  let c := control_run cmds (mkControl (manager_new base) None) in
  (∃ ops, manager c = run ops (manager_new base))
  /\ (∀ g, active_gadget (manager c) = Some g ->
       built_from (base_info (manager c)) (m_switches (manager c)) g
       /\ ((gadget_eps g).1 <= 6)%Z /\ ((gadget_eps g).2 <= 5)%Z).
Proof.
  intros c. destruct (control_run_reaches cmds (mkControl (manager_new base) None)) as [ops Hops].
  fold c in Hops. split; [by exists ops|]. intros g Ha. cbn [manager] in Hops. rewrite Hops in *.
  destruct (mrun_inv world rehash rehash_perm ops base) as [_ Hb Hg].
  destruct (Hg g Ha) as [(mode & net & Hbuild) Hany]. split; [by exists mode, net|].
  destruct (endpoint_usage_spec _ _ _ _ _ Hbuild) as [_ Hiff]. by apply Hiff.
Qed.

(** ** Mounting through the manager *)

(** The virtual media service is there and in mode [mode]. *)
Definition vm_in_mode (mode : UmsMode) (s : Service) (d : DeviceService) : Prop :=
  s = VIRTUAL_MEDIA_SERVICE -> ∃ h, d = DUms h /\ u_mode h = mode.

Lemma unmount_mode env h : u_mode (unmount_ums env h).1 = u_mode h.
Proof. ums_cases env h; done. Qed.

Lemma on_change_mode env req h : u_mode (ums_on_change_request env req h).1 = u_mode h.
Proof.
  destruct req; cbn [ums_on_change_request]; try done.
  - pose proof (unmount_mode env h) as Hm. by destruct (unmount_ums env h) as [h' [[]|]].
  - unfold sync_lun_file_path. repeat case_match; done.
  - unfold sync_lun_file_path. repeat case_match; done.
Qed.

Lemma rebuild_keeps_mode mode m :
  all_handles (vm_in_mode mode) [VIRTUAL_MEDIA_SERVICE] m ->
  all_handles (vm_in_mode mode) [VIRTUAL_MEDIA_SERVICE] (apply_switches world rehash None None m).1.
Proof.
  apply apply_handles; unfold vm_in_mode.
  - intros s env req d Hd ->. destruct (Hd eq_refl) as (h & -> & Hm). cbn [on_change arkkvm_devices device_on_change].
    pose proof (on_change_mode (e_ums env) req h) as Hk.
    destruct (ums_on_change_request (e_ums env) req h) as [h' r]. exists h'. split; [done|]. by rewrite <- Hm.
  - intros s sw mic Hs ->. set_solver.
  - intros s sw mic d Hd ->. destruct (Hd eq_refl) as (h & -> & Hm). by eexists.
  - intros s n d Hd ->. destruct (Hd eq_refl) as (h & -> & Hm). by eexists.
Qed.

Lemma switch_mode_ok mode h h' b : switch_mode mode h = (h', Ok b) -> u_mode h' = mode.
Proof.
  unfold switch_mode; se_unfold. cbn [id].
  destruct (negb (u_enabled h)); [done|]. destruct (bool_decide (is_Some _)); [done|].
  destruct (u_updating h); [done|].
  destruct (bool_decide_reflect (u_mode h = mode)); intros; by simplify_eq.
Qed.

Lemma mount_ums_ok env image h h' :
  mount_ums env image h = (h', Ok tt) -> file_path h' = Some image /\ u_mode h' = u_mode h.
Proof.
  unfold mount_ums; se_unfold.
  ums_cases env h; intros; by simplify_eq.
Qed.

Lemma vm_handle mode m :
  all_handles (vm_in_mode mode) [VIRTUAL_MEDIA_SERVICE] m ->
  ∃ h, get_virtual_media m = Some h /\ u_mode h = mode.
Proof.
  intros [Hp Hs]. destruct (Hs VIRTUAL_MEDIA_SERVICE) as [d Hd]; [by left|].
  destruct (Hp _ _ Hd eq_refl) as (h & -> & Hm). exists h. unfold get_virtual_media. by rewrite Hd.
Qed.

(** Switching the media type, with the rebuild it may need. *)
Lemma switched_in_mode mode h m m1 m2 b r :
  on_vm world (fun _ => switch_mode mode) h m = (m1, Ok b) -> rebuild_if world rehash b m1 = (m2, r) ->
  ∃ h2, get_virtual_media m2 = Some h2 /\ u_mode h2 = mode.
Proof.
  unfold on_vm. destruct (switch_mode mode h) as [h1 [b'|e]] eqn:Es; [|done]. intros [= <- ->].
  apply switch_mode_ok in Es. set (m1 := tick _).
  assert (Ha1 : all_handles (vm_in_mode mode) [VIRTUAL_MEDIA_SERVICE] m1).
  { split; [intros s d Hd ->; revert Hd; cbn; rewrite lookup_insert_eq; intros [= <-]; eauto|].
    intros s ->%list_elem_of_singleton. cbn. rewrite lookup_insert_eq. eauto. }
  clearbody m1. intros Hr. apply vm_handle. change m2 with (m2, r).1. rewrite <- Hr.
  unfold rebuild_if. destruct b; [by apply rebuild_keeps_mode|done].
Qed.

Lemma vm_mount_state_after image vm_type m m' r :
  ums_vm_mount world rehash image vm_type m = (m', r) -> ur_ok r = true ->
  ums_vm_mount_state m'
  = mkUmsResp true None true image (ums_mode_to_proto (proto_vm_type_to_ums_mode vm_type)).
Proof.
  unfold ums_vm_mount. destruct (get_virtual_media m) as [h|] eqn:Eg; [|by intros [= <- <-]].
  set (mode := proto_vm_type_to_ums_mode vm_type). unfold answer, se_bind.
  destruct (on_vm _ _ h m) as [m1 [b|e]] eqn:Es; [|by intros [= <- <-]].
  destruct (rebuild_if world rehash b m1) as [m2 [[]|e]] eqn:Er; [|by intros [= <- <-]].
  destruct (switched_in_mode _ _ _ _ _ _ _ Es Er) as (h2 & Hg2 & Hm2).
  unfold vm_mount. rewrite Hg2. unfold on_vm.
  destruct (mount_ums _ image h2) as [h3 [[]|]] eqn:Em; [|by intros [= <- <-]].
  apply mount_ums_ok in Em as [Hf Hm3]. intros [= <- <-] _.
  unfold ums_vm_mount_state, get_virtual_media. cbn [device_services tick with_services].
  rewrite lookup_insert_eq, Hf, Hm3, Hm2. done.
Qed.

Lemma vm_switch_state_after mode m m' r :
  ums_vm_switch_mode world rehash mode m = (m', r) -> ur_ok r = true ->
  ur_vm_type (ums_vm_mount_state m') = ums_mode_to_proto mode.
Proof.
  unfold ums_vm_switch_mode. destruct (get_virtual_media m) as [h|] eqn:Eg; [|by intros [= <- <-]].
  unfold answer, se_bind. destruct (on_vm _ _ h m) as [m1 [b|e]] eqn:Es; [|by intros [= <- <-]].
  destruct (rebuild_if world rehash b m1) as [m2 [[]|e]] eqn:Er; [|by intros [= <- <-]].
  destruct (switched_in_mode _ _ _ _ _ _ _ Es Er) as (h2 & Hg2 & Hm2). intros [= <- <-] _.
  unfold ums_vm_mount_state. by rewrite Hg2, <- Hm2.
Qed.

(** A mount request that is answered with success is visible: right after
    it the mount state reports the image and the requested media type, also
    when the request had to rebuild the gadget to change the type. *)
Theorem vm_mount_visible image vm_type m m' r :
  ums_vm_mount world rehash image vm_type m = (m', r) -> ur_ok r = true ->
  ums_vm_mount_state m'
  = mkUmsResp true None true image (ums_mode_to_proto (proto_vm_type_to_ums_mode vm_type)).
Proof. apply vm_mount_state_after. Qed.

(** ** Addressing alone *)

Lemma put_network_other h s m :
  s ≠ NETWORK_ADAPTER_SERVICE -> device_services (put_network_adapter h m) !! s = device_services m !! s.
Proof. intros. cbn. by rewrite lookup_insert_ne. Qed.

Lemma set_l3_other l3 m :
  active_gadget (set_network_adapter_l3_config rehash l3 m) = active_gadget m
  /\ m_switches (set_network_adapter_l3_config rehash l3 m) = m_switches m
  /\ base_info (set_network_adapter_l3_config rehash l3 m) = base_info m
  /\ ∀ s, s ≠ NETWORK_ADAPTER_SERVICE ->
       device_services (set_network_adapter_l3_config rehash l3 m) !! s = device_services m !! s.
Proof.
  unfold set_network_adapter_l3_config, ensure_network_adapter.
  destruct (device_services m !! NETWORK_ADAPTER_SERVICE) eqn:En;
    destruct (get_network_adapter_handle _); cbn; (split_and!; [done..|]);
    intros s Hs; by rewrite ?lookup_insert_ne.
Qed.

Lemma l3_only_other m :
  let m' := (apply_network_adapter_l3_only world m).1 in
  active_gadget m' = active_gadget m /\ m_switches m' = m_switches m
  /\ ∀ s, s ≠ NETWORK_ADAPTER_SERVICE -> device_services m' !! s = device_services m !! s.
Proof.
  unfold apply_network_adapter_l3_only. destruct (get_network_adapter_handle m) as [h|]; [|done].
  destruct (apply_l3 _ h) as [h' r]. cbn. split_and!; [done..|].
  intros s Hs. by rewrite lookup_insert_ne.
Qed.

(** When only the board's addressing changes, the gadget is not rebuilt: it
    stays bound with its switches, and no device but the network adapter is
    touched, so that keyboard, mouse and mounted media go on undisturbed. *)
Theorem l3_update_keeps_gadget c prev i sw base :
  last_usb_info c = Some prev -> ui_switches i = Some sw -> base_info (manager c) = base ->
  is_switches_change (m_switches (manager c)) sw = false ->
  is_paths_change prev i = false -> is_network_adapter_l3_change prev i = true ->
  let m := manager c in
  let m' := manager (apply_full_config world rehash i base c).1 in
  active_gadget m' = active_gadget m /\ m_switches m' = m_switches m
  /\ ∀ s, s ≠ NETWORK_ADAPTER_SERVICE -> device_services m' !! s = device_services m !! s.
Proof.
  intros Hl Hs Hb Hsw Hp H3. cbv zeta.
  unfold apply_full_config, in_manager; se_unfold.
  rewrite Hs. cbn [ok_or id manager last_usb_info].
  destruct (set_l3_other (ui_network_adapter_l3 i) (manager c)) as (Eg & Es & Eb & Ed).
  set (m1 := set_network_adapter_l3_config _ _ _) in *. clearbody m1.
  rewrite Hl, Es, Eb, Hsw, Hp, H3. rewrite (bool_decide_eq_true_2 (base_info (manager c) = base)) by done.
  rewrite bool_decide_eq_true_2 by eauto. cbn [negb andb].
  cbn [manager]. destruct (l3_only_other m1) as (Eg2 & Es2 & Ed2).
  destruct (apply_network_adapter_l3_only world m1) as [m2 [[]|]]; cbn in *;
    (split_and!; [congruence|congruence|]); intros s Hne; rewrite Ed2 by done; by apply Ed.
Qed.
End proofs.

(** ** A failed enable *)

Section stranded.
(** A controller that cannot be bound. *)
Definition broken_world (_ : nat) : World DevEnv :=
  mkWorld (mkDevEnv (mkUmsEnv (fun _ => true) (Err (DeviceNotFound "")) false (Ok tt))
             (mkUmsEnv (fun _ => true) (Err (DeviceNotFound "")) false (Ok tt)) true None None None
             (mkNetEnv (fun _ => None) (fun _ => true) false (fun _ => true)))
    false (Ok tt) (Ok tt) (Err (GadgetError "no UDC")) (Ok tt).

Definition keyboard_switches : DeviceSwitches :=
  mkSwitches true false false false false false false None.

Definition some_base : UsbBaseInfo := mkBase 7531 260 256 512 "" "ArkKVM" "Gadget" false false.

(** A failed enable is not called off: when binding the gadget fails after
    the devices were asked, [set_emulation_enabled] returns the error without
    telling them, the keyboard still believes that a change is under way, and
    every later key report is dropped. *)
Theorem failed_enable_strands_devices :
  let m0 := with_config some_base keyboard_switches (manager_new some_base) in
  let '(m1, _) := set_emulation_enabled broken_world id true m0 in
  let '(m2, r) := set_emulation_enabled broken_world id true m1 in
  r = Err (GadgetError "no UDC")
  /\ ∃ h, device_services m2 !! HID_KB_SERVICE = Some (DHidKb h)
          /\ udc_updating h = true
          /\ ∀ d, queue (submit d h) = queue h /\ written (submit d h) = written h.
Proof.
  vm_compute. split; [done|]. eexists. split; [done|]. split; [done|]. by intros d.
Qed.
End stranded.

(** ** Too many keys *)

(** A key report with more than six keys ends the service: copying the keys
    panics in the task that owns the manager. *)
Theorem seven_keys_panic_service world rehash modifier keys (h : HidKbHandle) c :
  device_services (manager c) !! HID_KB_SERVICE = Some (DHidKb h) -> (6 < length keys)%nat ->
  control_step world rehash (Putkeyboard modifier keys) c = (c, RPanic).
Proof.
  intros Hs Hl. cbn [control_step]. rewrite Hs. unfold kb_keyboard_report, keyboard_report.
  destruct (Nat.eqb_spec (length keys) (Nat.min (length keys) 6)); [lia|]. done.
Qed.
