(* ===== verification/Paths.v ===== *)
(** * File names from clients (hardware/usb/storage.rs, services/local_file.rs,
    services/ft_file.rs, hardware/fs_remote.rs)

    Four places turn a path a client sent into a path of the file system: the
    image store, the evidence files below the configuration directory, the
    file transfer drive, and the mount of its image.  The file system is an
    environment: what [metadata] says of a path and what it resolves to. *)

From S2P Require Import Prelude Text.

Definition IMAGES_FOLDER : string := "/userdata/arkkvm/images".
Definition CONFIG_DIR : string := "/userdata/arkkvm".
Definition FT_MOUNT_POINT : string := "/mnt/ft_disk".

(** ** Image store (storage.rs) *)

Definition sanitize_filename (filename : string) : Result string string :=
  if is_absolute filename then Err "invalid filename"
  else if existsb (fun c => bool_decide (c = ParentDir)) (components filename)
  then Err "invalid filename"
  else match path_file_name filename with
       | None => Err "invalid filename"
       | Some base =>
           if is_empty base || String.eqb base "." then Err "invalid filename" else Ok base
       end.

(** ** Evidence files (local_file.rs) *)

Fixpoint check_components (relative : string) (cs : list Component) : Result string unit :=
  match cs with
  | [] => Ok tt
  | Normal _ :: cs' => check_components relative cs'
  | RootDir :: _ => Err ("absolute path not allowed in '" +:+ relative +:+ "'")
  | _ :: _ => Err ("unsafe path component in '" +:+ relative +:+ "'")
  end.

Definition validate_relative_components (relative : string) : Result string unit :=
  if is_empty relative then Err "empty path" else check_components relative (components relative).

Definition result_bind {E A B} (r : Result E A) (k : A -> Result E B) : Result E B :=
  match r with Ok a => k a | Err e => Err e end.

Definition user_path_to_relative (user_path : string) : Result string string :=
  let trimmed := trim user_path in
  if is_empty trimmed then Err "empty path" else
  let relative :=
    match strip_prefix CONFIG_DIR trimmed with
    | Some rest => Ok (trim_start_matches "/" rest)
    | None => if starts_with "/" trimmed then Err "path outside allowed directory" else Ok trimmed
    end in
  result_bind relative (fun relative =>
    if is_empty relative then Err "empty path"
    else result_bind (validate_relative_components relative) (fun _ =>
      Ok (replace_char "\" "/" relative))).

(** What the file system answers. *)
Record PathEnv := mkPathEnv {
  pe_metadata : string -> option bool;      (* exists; is it a regular file *)
  pe_canonicalize : string -> option string;
  pe_base : option string                   (* canonical base directory *)
}.

Definition resolve_under (env : PathEnv) (relative : string) : Result string string :=
  match pe_base env with
  | None => Err "failed to canonicalize"
  | Some base =>
      let candidate := path_join base relative in
      match pe_metadata env candidate with
      | None => Err "file not found"
      | Some false => Err "not a regular file"
      | Some true =>
          match pe_canonicalize env candidate with
          | None => Err "failed to resolve file path"
          | Some resolved =>
              if negb (path_starts_with resolved base) then Err "path outside allowed directory"
              else Ok resolved
          end
      end
  end.

Definition resolve_local_file_path (env : PathEnv) (user_path : string) : Result string string :=
  result_bind (user_path_to_relative user_path) (resolve_under env).

Definition validate_evidence_basename (path : string) : Result string unit :=
  result_bind (user_path_to_relative path) (fun relative =>
    if negb (length (components relative) =? 1)%nat
    then Err "path must be a filename without directories"
    else if negb (ends_with ".zip" relative) && negb (ends_with ".tgz" relative)
    then Err "only .zip and .tgz evidence archives can be deleted"
    else Ok tt).

(** The file that is removed, if any. *)
Definition delete_collected_evidence_file (env : PathEnv) (user_path : string)
  : Result string (option string) :=
  result_bind (validate_evidence_basename user_path) (fun _ =>
  result_bind (user_path_to_relative user_path) (fun relative =>
    match pe_base env with
    | None => Err "failed to canonicalize"
    | Some base =>
        match pe_metadata env (path_join base relative) with
        | None => Ok None
        | Some _ => result_bind (resolve_local_file_path env user_path) (fun p => Ok (Some p))
        end
    end)).

(** ** File transfer drive (ft_file.rs) *)

Definition normalize_relative_path (path : string) : Result string string :=
  let trimmed := trim path in
  if is_empty trimmed then Err "empty path"
  else if String.eqb trimmed "/" then Ok ""
  else
    let relative := trim_start_matches "/" trimmed in
    if is_empty relative then Ok ""
    else result_bind (validate_relative_components relative) (fun _ =>
      Ok (replace_char "\" "/" relative)).

Definition normalize_filename (name : string) : Result string string :=
  let trimmed := trim name in
  if is_empty trimmed then Err "empty name"
  else result_bind (validate_relative_components trimmed) (fun _ =>
    if contains_char "/" trimmed || contains_char "\" trimmed
    then Err "name must not contain directory separators"
    else Ok trimmed).

Definition build_relative_file_path (path name : string) : Result string string :=
  result_bind (normalize_relative_path path) (fun rel_path =>
  result_bind (normalize_filename name) (fun rel_name =>
    let full := if is_empty rel_path then rel_name else path_join rel_path rel_name in
    let full := replace_char "\" "/" full in
    result_bind (validate_relative_components full) (fun _ => Ok full))).

Definition resolve_ft_file_path (env : PathEnv) (path name : string) : Result string string :=
  result_bind (build_relative_file_path path name) (resolve_under env).

(** ** Mounted image (fs_remote.rs) *)

Definition unsafe_piece (p : string) : bool := String.eqb p ".." || String.eqb p ".".

Fixpoint check_pieces (user_path : string) (ps : list string) : Result string unit :=
  match ps with
  | [] => Ok tt
  | p :: ps' =>
      if unsafe_piece p
      then Err ("Unsafe path component '" +:+ p +:+ "' is not allowed in path '" +:+ user_path +:+ "'")
      else check_pieces user_path ps'
  end.

Definition resolve_path (mount_point user_path : string) : Result string string :=
  if is_empty user_path || String.eqb user_path "/" then Ok mount_point
  else if starts_with "/" user_path then
    let relative_path := str_drop 1 user_path in
    if is_empty relative_path then Ok mount_point
    else
      let path_components := List.filter (fun s => negb (is_empty s)) (split_on "/" relative_path) in
      result_bind (check_pieces user_path path_components) (fun _ =>
        let normalized_path := str_join "/" path_components in
        if is_empty normalized_path then Ok mount_point
        else Ok (path_join mount_point normalized_path))
  else
    result_bind (check_pieces user_path (split_on "/" user_path)) (fun _ =>
      Ok (path_join mount_point user_path)).

(** ** Confinement *)

(** [p] lies below [base]: its components are those of [base] and then
    ordinary names, so no file system can take it out of [base] other than
    through a symbolic link. *)
Definition below (base p : string) : Prop :=
  ∃ ns, components p = components base ++ (Normal <$> ns) /\ Forall plain_name ns.

Lemma below_refl base : below base base.
Proof. exists []. by rewrite app_nil_r. Qed.

Lemma components_shape s p ps :
  split_on "/" s = p :: ps ->
  components s = (if starts_with "/" s then [RootDir]
                  else if String.eqb p "." then [CurDir] else piece_component p)
                 ++ List.concat (piece_component <$> ps).
Proof. unfold components. by intros ->. Qed.

(** The components of the pieces of a split are names or parent steps. *)
Lemma pieces_normal s :
  ParentDir ∉ List.concat (piece_component <$> split_on "/" s) ->
  ∃ ns, List.concat (piece_component <$> split_on "/" s) = Normal <$> ns /\ Forall plain_name ns.
Proof.
  pose proof (split_on_pieces "/" s) as Hp. induction Hp as [|p ps Hp _ IH]; [by exists []|].
  cbn. intros [H1 H2]%not_elem_of_app. destruct (IH H2) as (ns & -> & Hns).
  unfold piece_component in *. destruct (is_empty p) eqn:Ee; cbn [orb] in *; [by exists ns|].
  destruct (String.eqb_spec p "."); [by exists ns|].
  destruct (String.eqb_spec p ".."); [by destruct H1; constructor|].
  exists (p :: ns). split; [done|]. constructor; [|done]. split_and!; try done. by intros ->.
Qed.

Lemma below_join base p :
  is_absolute base = true -> ends_with "/" base = false -> is_absolute p = false ->
  ParentDir ∉ List.concat (piece_component <$> split_on "/" p) ->
  below base (path_join base p).
Proof.
  intros Hb He Hp Hd. destruct (pieces_normal p Hd) as (ns & Hns & Hpl).
  exists ns. by rewrite components_join, Hns.
Qed.

Lemma last_normal_plain s n : path_file_name s = Some n -> plain_name n.
Proof.
  unfold path_file_name. destruct (last (components s)) as [[]|] eqn:El; try done.
  intros [= ->]. apply last_Some_elem_of in El.
  destruct (split_on "/" s) as [|p ps] eqn:Es; [by destruct (split_on_not_nil "/" s)|].
  rewrite (components_shape _ _ _ Es) in El.
  pose proof (split_on_pieces "/" s) as Hp. rewrite Es in Hp. inversion Hp as [|?? Hp1 Hps]; subst.
  apply elem_of_app in El as [El|El].
  - destruct (starts_with "/" s); [set_solver|]. destruct (String.eqb p "."); [set_solver|].
    by eapply piece_component_normal.
  - apply list_elem_of_In, in_concat in El as (l & Hl & Hin).
    apply list_elem_of_In, list_elem_of_fmap in Hl as (q & -> & Hq).
    rewrite Forall_forall in Hps. eapply piece_component_normal; [by apply Hps|].
    by apply list_elem_of_In.
Qed.

Lemma check_components_ok r cs : check_components r cs = Ok tt -> ∃ ns, cs = Normal <$> ns.
Proof.
  induction cs as [|[| | |n] cs IH]; cbn; try done; [by exists []|].
  intros [ns ->]%IH. by exists (n :: ns).
Qed.

(** What passes the validation is a relative path of names. *)
Lemma validate_ok r :
  validate_relative_components r = Ok tt ->
  is_absolute r = false /\ ParentDir ∉ List.concat (piece_component <$> split_on "/" r).
Proof.
  unfold validate_relative_components. destruct (is_empty r); [done|].
  intros [ns Hns]%check_components_ok. unfold is_absolute.
  destruct (split_on "/" r) as [|p ps] eqn:Es; [by destruct (split_on_not_nil "/" r)|].
  rewrite (components_shape _ _ _ Es) in Hns.
  destruct (starts_with "/" r); [by destruct ns|]. split; [done|].
  destruct (String.eqb_spec p "."); [by destruct ns|]. cbn. rewrite Hns.
  intros (? & ? & ?)%list_elem_of_fmap. done.
Qed.

Lemma check_pieces_ok u ps : check_pieces u ps = Ok tt -> Forall (fun p => unsafe_piece p = false) ps.
Proof.
  induction ps as [|p ps IH]; cbn; [constructor|]. destruct (unsafe_piece p) eqn:E; [done|].
  constructor; [done|]. by apply IH.
Qed.

Lemma safe_pieces_no_parent ps :
  Forall (fun p => unsafe_piece p = false) ps -> ParentDir ∉ List.concat (piece_component <$> ps).
Proof.
  induction 1 as [|p ps Hp _ IH]; cbn; [set_solver|].
  apply orb_false_iff in Hp as [Hp _]. unfold piece_component.
  destruct (is_empty p || String.eqb p "."); [done|]. rewrite Hp. set_solver.
Qed.

(** Splitting what was joined from pieces without the separator gives the
    pieces back. *)
Lemma split_join c l :
  l ≠ [] -> Forall (fun p => contains_char c p = false) l ->
  split_on c (str_join (String c "") l) = l.
Proof.
  induction l as [|x l IH]; intros Hn Hl; [done|].
  apply Forall_cons in Hl as [Hx Hl]. destruct l as [|y l]; [by apply split_on_whole|].
  change (str_join (String c "") (x :: y :: l)) with (x +:+ String c (str_join (String c "") (y :: l))).
  rewrite split_on_app.
  rewrite IH by done. by rewrite split_on_whole.
Qed.

Lemma join_absolute c l :
  Forall (fun p => is_empty p = false /\ contains_char c p = false) l ->
  starts_with (String c "") (str_join (String c "") l) = false.
Proof.
  destruct l as [|x l]; [done|]. intros [[Hx Hc] _]%Forall_cons.
  destruct x as [|a x]; [done|]. cbn in Hc. apply orb_false_iff in Hc as [Hc _].
  assert (Hs : ∀ s, starts_with (String c "") (String a s) = false).
  { intros s. unfold starts_with. cbn. destruct (ascii_dec c a) as [<-|]; [|done].
    by rewrite Ascii.eqb_refl in Hc. }
  destruct l; cbn [str_join]; rewrite ?str_app_cons; apply Hs.
Qed.

Lemma plain_relative n : plain_name n -> is_absolute n = false.
Proof.
  intros (H1 & _ & _ & H4). destruct n as [|a n]; [done|]. cbn in H4.
  unfold is_absolute, starts_with. cbn. destruct (ascii_dec "/" a) as [<-|]; [done|by case_match].
Qed.

Lemma sanitize_below f b :
  sanitize_filename f = Ok b -> plain_name b /\ below IMAGES_FOLDER (path_join IMAGES_FOLDER b).
Proof.
  unfold sanitize_filename. destruct (is_absolute f); [done|].
  destruct (existsb _ _); [done|]. destruct (path_file_name f) as [n|] eqn:En; [|done].
  apply last_normal_plain in En as Hpl. destruct (_ || _); [done|]. intros [= <-]. split; [done|].
  apply below_join; [done..|by apply plain_relative|].
  rewrite split_on_whole by apply Hpl. cbn. rewrite (piece_component_plain n Hpl). set_solver.
Qed.

Lemma build_relative_below path name full :
  build_relative_file_path path name = Ok full ->
  below FT_MOUNT_POINT (path_join FT_MOUNT_POINT full).
Proof.
  unfold build_relative_file_path. destruct (normalize_relative_path path) as [rp|]; [|done].
  destruct (normalize_filename name) as [rn|]; [|done]. cbn [result_bind].
  set (fl := replace_char _ _ _). destruct (validate_relative_components fl) as [[]|] eqn:Ev; [|done].
  intros [= <-]. apply validate_ok in Ev as [Ha Hd]. by apply below_join.
Qed.

Lemma resolve_path_below mp p q :
  is_absolute mp = true -> ends_with "/" mp = false -> resolve_path mp p = Ok q -> below mp q.
Proof.
  intros Hm He. unfold resolve_path. destruct (_ || _); [intros [= <-]; apply below_refl|].
  destruct (starts_with "/" p) eqn:Ea.
  - destruct (is_empty _); [intros [= <-]; apply below_refl|].
    set (ps := List.filter _ _). destruct (check_pieces p ps) as [[]|] eqn:Ec; [|done]. cbn [result_bind].
    assert (Hps : Forall (fun s => is_empty s = false /\ contains_char "/" s = false) ps).
    { apply Forall_forall. intros s Hs. apply list_elem_of_In, filter_In in Hs as [Hs Hn].
      pose proof (split_on_pieces "/" (str_drop 1 p)) as Hf. rewrite Forall_forall in Hf.
      split; [by destruct (is_empty s)|]. apply Hf. by apply list_elem_of_In. }
    destruct (is_empty (str_join _ _)) eqn:Ej; [intros [= <-]; apply below_refl|]. intros [= <-].
    apply below_join; [done..|by apply join_absolute|].
    rewrite split_join; [by eapply safe_pieces_no_parent, check_pieces_ok|by intros Hn; rewrite Hn in Ej|].
    eapply Forall_impl; [exact Hps|]. by intros s [_ ?].
  - destruct (check_pieces p _) as [[]|] eqn:Ec; [|done]. intros [= <-].
    apply below_join; [done..|]. by eapply safe_pieces_no_parent, check_pieces_ok.
Qed.

Lemma resolve_under_below env base r q :
  pe_base env = Some base -> resolve_under env r = Ok q -> path_starts_with q base = true.
Proof.
  intros Hb. unfold resolve_under. rewrite Hb. destruct (pe_metadata env _) as [[]|]; try done.
  destruct (pe_canonicalize env _) as [p|]; [|done].
  destruct (path_starts_with p base) eqn:Es; [|done]. by intros [= <-].
Qed.

(** C21: A path a client names never leaves its directory: what the image
    store, the file transfer drive and the mounted image accept is, joined to
    their directory, that directory followed by ordinary names only; whatever
    the file system resolves an evidence or drive file to is refused unless it
    is below the base; and an evidence file that is deleted is named by a
    single component. *)
Theorem client_paths_confined :
  (∀ f b, sanitize_filename f = Ok b ->
     plain_name b /\ below IMAGES_FOLDER (path_join IMAGES_FOLDER b))
  /\ (∀ path name full, build_relative_file_path path name = Ok full ->
       below FT_MOUNT_POINT (path_join FT_MOUNT_POINT full))
  /\ (∀ mp p q, is_absolute mp = true -> ends_with "/" mp = false ->
       resolve_path mp p = Ok q -> below mp q)
  /\ (∀ env u base q, pe_base env = Some base ->
       (resolve_local_file_path env u = Ok q \/ ∃ n, resolve_ft_file_path env u n = Ok q) ->
       path_starts_with q base = true)
  /\ (∀ env u q, delete_collected_evidence_file env u = Ok (Some q) ->
       ∃ n, user_path_to_relative u = Ok n /\ length (components n) = 1%nat).
Proof.
  split_and!; [apply sanitize_below|apply build_relative_below|apply resolve_path_below|..].
  - intros env u base q Hb [Hr|[n Hr]]; revert Hr.
    + unfold resolve_local_file_path.
      destruct (user_path_to_relative u); [by apply resolve_under_below|done].
    + unfold resolve_ft_file_path.
      destruct (build_relative_file_path u n); [by apply resolve_under_below|done].
  - intros env u q. unfold delete_collected_evidence_file, validate_evidence_basename.
    destruct (user_path_to_relative u) as [r|]; [|done]. cbn [result_bind].
    destruct (length (components r) =? 1)%nat eqn:El; [|done]. intros _.
    exists r. split; [done|]. by apply Nat.eqb_eq.
Qed.

(** The check of the components runs before backslashes become slashes: a path
    with parent steps passes it.  Only the comparison of the resolved path
    stops it later. *)
Lemma backslash_passes_validation :
  user_path_to_relative "a\..\..\etc\shadow" = Ok "a/../../etc/shadow".
Proof. vm_compute. reflexivity. Qed.
