(* ===== verification/RangeReader.v ===== *)
(** * Remote images over HTTP (hardware/usb/storage.rs)

    [HttpRangeReader]: range requests with retries, a read-ahead buffer that
    turns itself on after sequential reads, and a cache of 4 KiB blocks.

    The server answers request number [seq], attempt [k], for an inclusive byte
    range, with a response or a transport error; a body arrives in pieces and may
    break off.  A [usize] has [2 ^ usize_bits] values, 32 bits on the firmware
    target.  The counters that are only logged are left out. *)

From S2P Require Import Prelude Text.

(** [as usize]. *)
Definition as_usize (bits z : Z) : Z := (z mod 2 ^ bits)%Z.

(** ** Block cache *)

Record BlockCache := mkCache {
  c_map : gmap Z (list Z);
  c_lru : list Z;
  c_cap : nat
}.

Definition cache_new (cap : nat) : BlockCache := mkCache ∅ [] cap.

(** [VecDeque::remove] of the first occurrence of the key. *)
Fixpoint remove_first (key : Z) (l : list Z) : list Z :=
  match l with
  | [] => []
  | k :: l' => if (k =? key)%Z then l' else k :: remove_first key l'
  end.

Definition touch (key : Z) (c : BlockCache) : BlockCache :=
  mkCache (c_map c) (remove_first key (c_lru c) ++ [key]) (c_cap c).

(** The eviction loop.  With an empty queue and an oversized map it spins. *)
Fixpoint evict (fuel : nat) (c : BlockCache) : option BlockCache :=
  if (size (c_map c) <=? c_cap c)%nat then Some c else
  match fuel with
  | O => None
  | S fuel =>
      match c_lru c with
      | [] => evict fuel c
      | k :: l => evict fuel (mkCache (delete k (c_map c)) l (c_cap c))
      end
  end.

(** [put] before its loop. *)
Definition put_entry (key : Z) (value : list Z) (c : BlockCache) : BlockCache :=
  touch key (mkCache (<[key := value]> (c_map c)) (c_lru c) (c_cap c)).

(** One turn of the loop per queued key; [put_terminates] shows that the loop
    ends within that. *)
Definition put (key : Z) (value : list Z) (c : BlockCache) : BlockCache :=
  let c := put_entry key value c in default c (evict (length (c_lru c)) c).

(** ** Read-ahead state *)

Definition HTTP_RANGE_SEND_MAX_RETRIES : nat := 4.
Definition HTTP_RANGE_READ_REISSUE_MAX : nat := 4.
Definition HTTP_PREFETCH_CHUNK_SIZE : Z := 1048576.
Definition HTTP_PREFETCH_ENABLE_SEQ_READS : Z := 3.
Definition HTTP_BLOCK_SIZE : Z := 4096.
Definition HTTP_BLOCK_CACHE_CAPACITY : nat := 2048.

Record PrefetchState := mkPrefetch {
  enabled : bool;
  seq_reads : Z;
  last_off : option Z;
  last_len : Z;
  buf : list Z;
  buf_off : Z;
  buf_len : Z;
  cache : BlockCache
}.

Definition zeros (n : Z) : list Z := replicate (Z.to_nat n) 0%Z.

Definition prefetch_new : PrefetchState :=
  mkPrefetch false 0 None 0 (zeros HTTP_PREFETCH_CHUNK_SIZE) 0 0 (cache_new HTTP_BLOCK_CACHE_CAPACITY).

Definition clear_buffer (p : PrefetchState) : PrefetchState :=
  mkPrefetch (enabled p) (seq_reads p) (last_off p) (last_len p) (buf p) 0 0 (cache p).

Definition set_cache (c : BlockCache) (p : PrefetchState) : PrefetchState :=
  mkPrefetch (enabled p) (seq_reads p) (last_off p) (last_len p) (buf p) (buf_off p) (buf_len p) c.

Definition set_last (off len : Z) (p : PrefetchState) : PrefetchState :=
  mkPrefetch (enabled p) (seq_reads p) (Some off) len (buf p) (buf_off p) (buf_len p) (cache p).

Definition set_seq (n : Z) (p : PrefetchState) : PrefetchState :=
  mkPrefetch (enabled p) n (last_off p) (last_len p) (buf p) (buf_off p) (buf_len p) (cache p).

Definition set_enabled (b : bool) (p : PrefetchState) : PrefetchState :=
  mkPrefetch b (seq_reads p) (last_off p) (last_len p) (buf p) (buf_off p) (buf_len p) (cache p).

Definition set_buf (b : list Z) (off len : Z) (p : PrefetchState) : PrefetchState :=
  mkPrefetch (enabled p) (seq_reads p) (last_off p) (last_len p) b off len (cache p).

(** ** Requests *)

Inductive BodyEvent : Set :=
| Chunk (bytes : list Z)
| BodyError.

Record HttpResponse := mkResponse {
  status : Z;
  content_range : option string;
  body : list BodyEvent
}.

Inductive HttpError : Set :=
| SendFailed | NotPartial (status : Z) | RangeMismatch | ZeroLength | LargerThanBuffer
| BodyReadFailed | ShortBody | TooLong | ShortAfterReissues | InvalidRange | UnsupportedScheme.

Definition parse_content_range (s : string) : option (Z * Z * Z) :=
  rest ← strip_prefix "bytes " (trim s);
  '(range_part, total_part) ← split_once "/" rest;
  '(start_part, end_part) ← split_once "-" range_part;
  start ← parse_i64 (trim start_part);
  end_ ← parse_i64 (trim end_part);
  total ← parse_i64 (trim total_part);
  if ((start <? 0) || (end_ <? start) || (total <=? 0))%Z then None else Some (start, end_, total).

(** Up to five attempts; the first response wins. *)
Fixpoint send_attempts (answer : nat -> option HttpResponse) (attempt more : nat)
  : Result HttpError HttpResponse :=
  match answer attempt with
  | Some resp => Ok resp
  | None => match more with
            | O => Err SendFailed
            | S more => send_attempts answer (S attempt) more
            end
  end.

Definition send_with_retry (answer : nat -> option HttpResponse) : Result HttpError HttpResponse :=
  send_attempts answer 0 HTTP_RANGE_SEND_MAX_RETRIES.

(** The loop that reads [want] bytes of the body: what was read, what is left of
    the body, and whether a read failed.  An empty piece is the end. *)
Fixpoint read_body (want : nat) (evs : list BodyEvent) : list Z * list BodyEvent * bool :=
  match want with
  | O => ([], evs, true)
  | _ =>
      match evs with
      | [] => ([], [], true)
      | BodyError :: evs => ([], evs, false)
      | Chunk [] :: evs => ([], evs, true)
      | Chunk bs :: evs =>
          if (want <? length bs)%nat then (take want bs, Chunk (drop want bs) :: evs, true)
          else let '(got, rest, ok) := read_body (want - length bs) evs in (bs ++ got, rest, ok)
      end
  end.

(** One more byte after the expected ones. *)
Definition probe_body (evs : list BodyEvent) : Result HttpError unit :=
  match evs with
  | [] | Chunk [] :: _ => Ok tt
  | BodyError :: _ => Err BodyReadFailed
  | Chunk _ :: _ => Err TooLong
  end.

Section reader.
Context (usize_bits : Z).
Context (server : Z -> nat -> Z -> Z -> option HttpResponse).
Context (image_size : Z).

Record HttpRangeReader := mkReader {
  request_seq : Z;
  prefetch : PrefetchState
}.

Definition set_prefetch (p : PrefetchState) (r : HttpRangeReader) : HttpRangeReader :=
  mkReader (request_seq r) p.

(** The bytes written to the front of [out], and how many of them are valid. *)
Definition fetch_range_once (req_off req_end : Z) (out_len : nat) (r : HttpRangeReader)
  : HttpRangeReader * (list Z * Result HttpError nat) :=
  let req_id := (request_seq r + 1)%Z in
  let r := mkReader req_id (prefetch r) in
  (r,
   match send_with_retry (fun k => server req_id k req_off req_end) with
   | Err e => ([], Err e)
   | Ok resp =>
       let cr := content_range resp ≫= parse_content_range in
       let acceptable := (status resp =? 206)%Z || bool_decide (is_Some cr) in
       match cr with
       | None => ([], Err (NotPartial (status resp)))
       | Some (got_start, got_end, _) =>
           if negb acceptable then ([], Err (NotPartial (status resp)))
           else if negb (got_start =? req_off)%Z || (got_end <? got_start)%Z
           then ([], Err RangeMismatch)
           else
             let expected := as_usize usize_bits (got_end - got_start + 1) in
             if (expected =? 0)%Z then ([], Err ZeroLength)
             else if (Z.of_nat out_len <? expected)%Z then ([], Err LargerThanBuffer)
             else
               let expected := Z.to_nat expected in
               let '(got, rest, ok) := read_body expected (body resp) in
               (got,
                if negb ok then Err BodyReadFailed
                else if negb (length got =? expected)%nat then Err ShortBody
                else match probe_body rest with Err e => Err e | Ok _ => Ok expected end)
       end
   end).

(** ** Cache lookups *)

Fixpoint read_blocks (off : Z) (want : nat) (block_id : Z) (nblocks : nat) (copied : list Z)
    (c : BlockCache) : BlockCache * option (list Z) :=
  match nblocks with
  | O => (c, None)
  | S nblocks =>
      match c_map c !! block_id with
      | None => (c, None)
      | Some block_data =>
          let c := touch block_id c in
          let block_start := (block_id * HTTP_BLOCK_SIZE)%Z in
          let offset_in_block :=
            as_usize usize_bits (Z.max 0 (off + Z.of_nat (length copied) - block_start)) in
          let remaining := (want - length copied)%nat in
          let n := Nat.min remaining (length block_data - Z.to_nat offset_in_block) in
          if (n =? 0)%nat then (c, None)
          else
            let copied := copied ++ take n (drop (Z.to_nat offset_in_block) block_data) in
            if (length copied =? want)%nat then (c, Some copied)
            else read_blocks off want (block_id + 1) nblocks copied c
      end
  end.

Definition try_read_block_cache (off : Z) (want : nat) (r : HttpRangeReader)
  : HttpRangeReader * option (list Z) :=
  if (want =? 0)%nat then (r, Some [])
  else
    let start_block := (off / HTTP_BLOCK_SIZE)%Z in
    let end_block := ((off + Z.of_nat want - 1) / HTTP_BLOCK_SIZE)%Z in
    let '(c, res) := read_blocks off want start_block (Z.to_nat (end_block - start_block + 1)) []
                       (cache (prefetch r)) in
    (set_prefetch (set_cache c (prefetch r)) r, res).

(** [slice[at .. at + data.len()].copy_from_slice(data)]. *)
Definition overwrite (at_ : nat) (data block : list Z) : list Z :=
  take at_ block ++ data ++ drop (at_ + length data) block.

Fixpoint store_blocks (off : Z) (data : list Z) (fuel : nat) (c : BlockCache) : BlockCache :=
  match fuel with
  | O => c
  | S fuel =>
      match data with
      | [] => c
      | _ =>
          let block_id := (off / HTTP_BLOCK_SIZE)%Z in
          let offset_in_block := Z.to_nat (off - block_id * HTTP_BLOCK_SIZE) in
          let writable := Nat.min (Z.to_nat HTTP_BLOCK_SIZE - offset_in_block) (length data) in
          let block_data := default (zeros HTTP_BLOCK_SIZE) (c_map c !! block_id) in
          let c := mkCache (delete block_id (c_map c)) (c_lru c) (c_cap c) in
          let block_data := overwrite offset_in_block (take writable data) block_data in
          store_blocks (off + Z.of_nat writable) (drop writable data) fuel
            (put block_id block_data c)
      end
  end.

(** Every turn stores at least a byte. *)
Definition store_into_block_cache (off : Z) (data : list Z) (r : HttpRangeReader)
  : HttpRangeReader :=
  set_prefetch (set_cache (store_blocks off data (length data) (cache (prefetch r))) (prefetch r)) r.

(** ** Read-ahead *)

Definition begin_read_with_prefetch_state (off : Z) (want : nat) (r : HttpRangeReader)
  : HttpRangeReader :=
  let p := prefetch r in
  let end_ := (off + Z.of_nat want)%Z in
  let is_sequential := match last_off p with
                       | Some lo => (lo + last_len p =? off)%Z
                       | None => false
                       end in
  let in_cache := ((0 <? buf_len p) && (buf_off p <=? off) && (end_ <=? buf_off p + buf_len p))%Z in
  let p :=
    if is_sequential then set_seq (Z.min u32_max (seq_reads p + 1)) p
    else if enabled p && negb in_cache then set_seq 1 (clear_buffer (set_enabled false p))
    else if enabled p && in_cache then set_seq 0 p
    else set_seq 1 p in
  let p := if negb (enabled p) && (HTTP_PREFETCH_ENABLE_SEQ_READS <=? seq_reads p)%Z
           then clear_buffer (set_enabled true p) else p in
  set_prefetch p r.

(** [Vec::resize] when it is too short. *)
Definition grow (n : Z) (l : list Z) : list Z :=
  if (Z.of_nat (length l) <? n)%Z then l ++ zeros (n - Z.of_nat (length l)) else l.

Definition read_at_with_prefetch (off : Z) (want : nat) (r : HttpRangeReader)
  : HttpRangeReader * Result HttpError (option (list Z)) :=
  if (HTTP_PREFETCH_CHUNK_SIZE <? Z.of_nat want)%Z then (r, Ok None) else
  let p := prefetch r in
  if negb (enabled p) then (r, Ok None) else
  let in_cache := ((0 <? buf_len p) && (buf_off p <=? off)
                   && (off + Z.of_nat want <=? buf_off p + buf_len p))%Z in
  if in_cache then
    let start := Z.to_nat (as_usize usize_bits (off - buf_off p)) in
    let available := (Z.to_nat (buf_len p) - start)%nat in
    let n := Nat.min available want in
    (set_prefetch (set_last off (Z.of_nat n) p) r, Ok (Some (take n (drop start (buf p)))))
  else
    let remain := as_usize usize_bits (Z.max 0 (image_size - off)) in
    if (remain =? 0)%Z then (set_prefetch (set_last off 0 p) r, Ok (Some []))
    else
      let fetch_len := Z.min remain HTTP_PREFETCH_CHUNK_SIZE in
      let local := grow HTTP_PREFETCH_CHUNK_SIZE (buf p) in
      let r := set_prefetch (clear_buffer (set_buf [] (buf_off p) (buf_len p) p)) r in
      let '(r, (written, res)) :=
        fetch_range_once off (off + fetch_len - 1) (Z.to_nat fetch_len) r in
      let local := overwrite 0 written local in
      let p := prefetch r in
      match res with
      | Err e => (set_prefetch (clear_buffer (set_buf local (buf_off p) (buf_len p) p)) r, Err e)
      | Ok fetched =>
          let n := Nat.min fetched want in
          if negb (enabled p) then
            (set_prefetch (set_last off (Z.of_nat n)
               (clear_buffer (set_buf local (buf_off p) (buf_len p) p))) r,
             Ok (Some (take n local)))
          else
            (set_prefetch (set_last off (Z.of_nat n) (set_buf local off (Z.of_nat fetched) p)) r,
             Ok (Some (take n local)))
      end.

(** ** Direct reads *)

(** [more] is how many more short answers are tolerated. *)
Fixpoint read_direct_loop (off end_ : Z) (want : nat) (more : nat) (got : list Z)
    (r : HttpRangeReader) : HttpRangeReader * Result HttpError (list Z) :=
  if (want <=? length got)%nat then (r, Ok got) else
  let req_off := (off + Z.of_nat (length got))%Z in
  let '(r, (written, res)) := fetch_range_once req_off end_ (want - length got) r in
  match res with
  | Err e => (r, Err e)
  | Ok expected =>
      let got' := got ++ take expected written in
      if (expected <? want - length got)%nat then
        match more with
        | O => (r, Err ShortAfterReissues)
        | S more => read_direct_loop off end_ want more got' r
        end
      else (r, Ok got')
  end.

Definition read_at_direct (off end_ : Z) (want : nat) (r : HttpRangeReader)
  : HttpRangeReader * Result HttpError (list Z) :=
  read_direct_loop off end_ want HTTP_RANGE_READ_REISSUE_MAX [] r.

Definition record_last_read (off : Z) (total : nat) (r : HttpRangeReader) : HttpRangeReader :=
  set_prefetch (set_last off (Z.of_nat total) (prefetch r)) r.

(** ** The reader *)

Definition http_read_at (off : Z) (want : nat) (r : HttpRangeReader)
  : HttpRangeReader * Result HttpError (list Z) :=
  if (off <? 0)%Z then (r, Err InvalidRange)
  else if (want =? 0)%nat then (r, Ok [])
  else
    let end_ := (off + Z.of_nat want - 1)%Z in
    let '(r, hit) := try_read_block_cache off want r in
    match hit with
    | Some bytes => (r, Ok bytes)
    | None =>
        let r := begin_read_with_prefetch_state off want r in
        let '(r, pre) := read_at_with_prefetch off want r in
        match pre with
        | Err e => (r, Err e)
        | Ok (Some bytes) => (store_into_block_cache off bytes r, Ok bytes)
        | Ok None =>
            let '(r, res) := read_at_direct off end_ want r in
            match res with
            | Err e => (r, Err e)
            | Ok bytes =>
                (record_last_read off (length bytes) (store_into_block_cache off bytes r), Ok bytes)
            end
        end
    end.
End reader.

(** [HttpRangeReader::new] after the HEAD request, which only replaces the URL:
    the answer to the probe of the first byte gives the size. *)
Definition reader_new (url : string) (probe : nat -> option HttpResponse)
  : Result HttpError (Z * HttpRangeReader) :=
  if negb (starts_with "http://" url || starts_with "https://" url) then Err UnsupportedScheme else
  match send_with_retry probe with
  | Err e => Err e
  | Ok resp =>
      let success := ((200 <=? status resp) && (status resp <? 300))%Z in
      let acceptable := (status resp =? 206)%Z
                        || (success && bool_decide (is_Some (content_range resp))) in
      if negb acceptable then Err (NotPartial (status resp)) else
      match content_range resp ≫= parse_content_range with
      | Some (start, end_, total) =>
          if (start =? 0)%Z && (end_ =? 0)%Z then
            if existsb (fun e => match e with BodyError => true | _ => false end) (body resp)
            then Err BodyReadFailed
            else Ok (total, mkReader 0 prefetch_new)
          else Err (NotPartial (status resp))
      | None => Err (NotPartial (status resp))
      end
  end.

(** ** The cache *)

Lemma remove_first_elem k x l : x ∈ remove_first k l -> x ∈ l.
Proof.
  induction l as [|y l IH]; cbn; [done|]. destruct (y =? k)%Z; [set_solver|].
  intros [->|H]%elem_of_cons; set_solver.
Qed.

Lemma remove_first_keeps k x l : x ∈ l -> x ≠ k -> x ∈ remove_first k l.
Proof.
  induction l as [|y l IH]; cbn; [done|]. intros Hx Hk. destruct (Z.eqb_spec y k); set_solver.
Qed.

Lemma remove_first_nodup k l : NoDup l -> NoDup (remove_first k l) /\ k ∉ remove_first k l.
Proof.
  induction 1 as [|y l Hy Hl [IH1 IH2]]; cbn; [split; [constructor|set_solver]|].
  destruct (Z.eqb_spec y k) as [->|]; [done|].
  split; [constructor; [|done]|set_solver]. intros H%remove_first_elem. done.
Qed.

(** The queue lists every cached block once. *)
Record CacheInv (c : BlockCache) : Prop := {
  ci_nodup : NoDup (c_lru c);
  ci_keys : ∀ k, is_Some (c_map c !! k) -> k ∈ c_lru c
}.

Lemma cache_new_inv cap : CacheInv (cache_new cap).
Proof. split; cbn; [constructor|]. intros k [? H]. by rewrite lookup_empty in H. Qed.

Lemma touch_inv k c : CacheInv c -> CacheInv (touch k c).
Proof.
  intros [Hn Hk]. destruct (remove_first_nodup k (c_lru c) Hn) as [Hr Hkr]. split; cbn.
  - apply NoDup_app. split_and!; [done| |apply NoDup_singleton]. set_solver.
  - intros x Hx. destruct (decide (x = k)) as [->|]; [set_solver|].
    apply elem_of_app. left. by apply remove_first_keeps; [apply Hk|].
Qed.

Lemma put_entry_inv k v c : CacheInv c -> CacheInv (put_entry k v c).
Proof.
  intros [Hn Hk]. destruct (remove_first_nodup k (c_lru c) Hn) as [Hr Hkr]. split; cbn.
  - apply NoDup_app. split_and!; [done| |apply NoDup_singleton]. set_solver.
  - intros x Hx. destruct (decide (x = k)) as [->|Hne]; [set_solver|].
    rewrite lookup_insert_ne in Hx by done. apply elem_of_app. left.
    by apply remove_first_keeps; [apply Hk|].
Qed.

Lemma lru_nil c : CacheInv c -> c_lru c = [] -> size (c_map c) = 0%nat.
Proof.
  intros [_ Hk] El. rewrite El in Hk. assert (c_map c = ∅) as He; [|by rewrite He, map_size_empty].
  apply map_empty. intros k. apply eq_None_not_Some. intros ?%Hk. set_solver.
Qed.

(** The loop ends within one turn per queued key, with the map within its
    capacity; the key that was used last stays. *)
Lemma evict_terminates n c :
  CacheInv c -> (length (c_lru c) <= n)%nat ->
  ∃ c', evict n c = Some c' /\ CacheInv c' /\ (size (c_map c') <= c_cap c)%nat
        /\ c_cap c' = c_cap c /\ c_map c' ⊆ c_map c
        /\ (∀ k, last (c_lru c) = Some k -> (0 < c_cap c)%nat -> c_map c' !! k = c_map c !! k).
Proof.
  revert c. induction n as [|n IH]; intros c Hi Hn; cbn;
    destruct (Nat.leb_spec (size (c_map c)) (c_cap c)) as [Hs|Hs]; try (by exists c).
  - destruct (c_lru c) eqn:El; [pose proof (lru_nil c Hi El); lia|cbn in Hn; lia].
  - destruct (c_lru c) as [|k l] eqn:El; [by pose proof (lru_nil c Hi El); lia|].
    set (c1 := mkCache (delete k (c_map c)) l (c_cap c)).
    assert (Hi1 : CacheInv c1).
    { destruct Hi as [Hnd Hk]. rewrite El in Hnd, Hk. apply NoDup_cons in Hnd as [? ?].
      split; cbn; [done|]. intros x [? [??]%lookup_delete_Some].
      assert (x ∈ k :: l) by eauto. set_solver. }
    destruct (IH c1) as (c' & Ec & Hi' & Hs' & Hc & Hm & Hlast); [done|cbn in *; lia|].
    exists c'. split_and!; [done..| |].
    + etrans; [exact Hm|]. apply delete_subseteq.
    + intros k0 Hk0 Hcap. destruct l as [|y l].
      * injection Hk0 as ->. pose proof (lru_nil c1 Hi1 eq_refl) as Hz. cbn in Hz.
        exfalso. rewrite map_size_delete in Hz. destruct (c_map c !! k0); cbn in Hz; lia.
      * rewrite (Hlast k0 Hk0 Hcap). cbn. apply lookup_delete_ne. intros ->.
        destruct Hi as [Hnd _]. rewrite El in Hnd. apply NoDup_cons in Hnd as [Hnd _].
        apply Hnd. by apply last_Some_elem_of.
Qed.

Lemma put_spec k v c :
  CacheInv c ->
  CacheInv (put k v c) /\ (size (c_map (put k v c)) <= c_cap c)%nat
  /\ c_cap (put k v c) = c_cap c /\ c_map (put k v c) ⊆ <[k := v]> (c_map c)
  /\ ((0 < c_cap c)%nat -> c_map (put k v c) !! k = Some v).
Proof.
  intros Hi. apply (put_entry_inv k v) in Hi.
  destruct (evict_terminates (length (c_lru (put_entry k v c))) (put_entry k v c) Hi)
    as (c' & Ec & Hi' & Hs & Hc & Hm & Hl); [done|].
  unfold put. rewrite Ec. cbn [default from_option id]. split_and!; [done..|].
  intros Hcap. rewrite (Hl k); [cbn; by rewrite lookup_insert_eq|cbn; apply last_snoc|done].
Qed.

(** A block is stored or used. *)
Inductive CacheOp : Set := OpPut (k : Z) (v : list Z) | OpTouch (k : Z).

Definition cache_op (c : BlockCache) (o : CacheOp) : BlockCache :=
  match o with OpPut k v => put k v c | OpTouch k => touch k c end.

(** The eviction loop of the block cache terminates: in every state that
    insertions and lookups can reach it stops after at most one turn per queued
    key, leaves at most the capacity of the cache, and never drops the block
    that was just inserted. *)
Theorem put_terminates cap ops k v :
  let c := put_entry k v (fold_left cache_op ops (cache_new cap)) in
  ∃ c', evict (length (c_lru c)) c = Some c'
        /\ (size (c_map c') <= cap)%nat /\ NoDup (c_lru c')
        /\ ((0 < cap)%nat -> c_map c' !! k = Some v).
Proof.
  assert (Hi : CacheInv (fold_left cache_op ops (cache_new cap))
               /\ c_cap (fold_left cache_op ops (cache_new cap)) = cap).
  { apply (fold_left_inv (fun c => CacheInv c /\ c_cap c = cap)); [|by split; [apply cache_new_inv|]].
    intros c [k' v'|k'] [Hi Hc]; unfold cache_op.
    - destruct (put_spec k' v' c Hi) as (? & _ & Hp & _). split; [done|]. by rewrite Hp.
    - split; [by apply touch_inv|done]. }
  destruct Hi as [Hi Hc]. set (c := fold_left _ _ _) in *. clearbody c. intros c1.
  destruct (evict_terminates (length (c_lru c1)) c1) as (c' & Ec & [Hn _] & Hs & Hc' & _ & Hl);
    [by apply put_entry_inv|done|].
  exists c'. cbn in Hs, Hl. rewrite Hc in Hs, Hl. split_and!; [done..|].
  intros Hcap. rewrite (Hl k); [by rewrite lookup_insert_eq|apply last_snoc|done].
Qed.

(** ** What the server sends *)

(** The bytes of a body until it ends or breaks. *)
Fixpoint body_bytes (evs : list BodyEvent) : list Z :=
  match evs with
  | [] | BodyError :: _ | Chunk [] :: _ => []
  | Chunk bs :: evs => bs ++ body_bytes evs
  end.

(** Bytes [off .. off + n] of an image. *)
Definition slice (image : list Z) (off : Z) (n : nat) : list Z := take n (drop (Z.to_nat off) image).

Lemma slice_length image off n :
  (0 <= off)%Z -> (off + Z.of_nat n <= Z.of_nat (length image))%Z -> length (slice image off n) = n.
Proof. intros. unfold slice. rewrite length_take, length_drop. lia. Qed.

Lemma slice_app image off n m :
  (0 <= off)%Z -> slice image off n ++ slice image (off + Z.of_nat n) m = slice image off (n + m).
Proof.
  intros. unfold slice. rewrite Z2Nat.inj_add, Nat2Z.id by lia.
  by rewrite <- drop_drop, take_take_drop.
Qed.

Lemma slice_slice image off n o m :
  (0 <= off)%Z -> (o + m <= n)%nat ->
  take m (drop o (slice image off n)) = slice image (off + Z.of_nat o) m.
Proof.
  intros. unfold slice. rewrite skipn_firstn_comm, take_take, drop_drop.
  rewrite Z2Nat.inj_add, Nat2Z.id by lia. f_equal; lia.
Qed.

Lemma read_body_prefix want evs got rest ok :
  read_body want evs = (got, rest, ok) -> got = take (length got) (body_bytes evs).
Proof.
  revert want got rest ok. induction evs as [|[bs|] evs IH]; intros [|want] got rest ok;
    cbn [read_body body_bytes]; try (by intros [= <- <- <-]).
  destruct bs as [|b bs]; [by intros [= <- <- <-]|].
  destruct (Nat.ltb_spec (S want) (length (b :: bs))) as [E|E].
  - intros H. injection H as H _ _. rewrite <- H. change (b :: take want bs) with (take (S want) (b :: bs)).
    rewrite length_take_le by lia. by rewrite take_app_le by lia.
  - destruct (read_body _ evs) as [[g r'] o] eqn:Er. intros H. injection H as H _ _. rewrite <- H.
    apply IH in Er. change (b :: bs ++ g) with ((b :: bs) ++ g).
    rewrite length_app, take_app_add, <- Er. done.
Qed.

Section image.
Context (usize_bits : Z) (server : Z -> nat -> Z -> Z -> option HttpResponse) (image : list Z).
Local Abbreviation isize := (Z.of_nat (length image)).

(** Documented behaviour of a server that supports ranges: an answer that
    announces a range starting where it was asked carries bytes of the image
    from there (the transfer may break off), and announces all of the request
    that lies in the image. *)
Definition honest : Prop :=
  ∀ seq k off end_ resp s e t,
    server seq k off end_ = Some resp ->
    content_range resp ≫= parse_content_range = Some (s, e, t) -> s = off ->
    e = Z.min end_ (isize - 1)
    /\ (∃ n, body_bytes (body resp) = take n (slice image s (Z.to_nat (e - s + 1)))).

(** The address space holds the image and the read-ahead buffer. *)
Definition fits : Prop :=
  (isize < 2 ^ usize_bits)%Z /\ (HTTP_PREFETCH_CHUNK_SIZE <= 2 ^ usize_bits)%Z.

Context (Hhonest : honest) (Hfits : fits).

Lemma as_usize_id z : (0 <= z < 2 ^ usize_bits)%Z -> as_usize usize_bits z = z.
Proof. intros. unfold as_usize. by apply Z.mod_small. Qed.

Lemma send_attempts_ok answer k n resp :
  send_attempts answer k n = Ok resp -> ∃ j, answer j = Some resp.
Proof.
  revert k. induction n as [|n IH]; intros k; cbn; destruct (answer k) as [x|] eqn:E; try done.
  - intros [= <-]. eauto.
  - intros [= <-]. eauto.
  - apply IH.
Qed.

(** A successful fetch returns the bytes of the requested range that lie in
    the image. *)
Lemma fetch_ok off end_ n r r' written got :
  (0 <= off)%Z -> (off <= end_)%Z ->
  fetch_range_once usize_bits server off end_ n r = (r', (written, Ok got)) ->
  prefetch r' = prefetch r /\ written = slice image off got /\ length written = got
  /\ Z.of_nat got = (Z.min end_ (isize - 1) - off + 1)%Z /\ (0 < got <= n)%nat.
Proof.
  intros Hoff Hend. unfold fetch_range_once.
  destruct (send_with_retry _) as [resp|] eqn:Es; [|done].
  apply send_attempts_ok in Es as [k Ek].
  destruct (content_range resp ≫= parse_content_range) as [[[s e] t]|] eqn:Ec; [|done].
  destruct (negb (_ || _)); [done|].
  destruct (Z.eqb_spec s off) as [->|]; [|done]. cbn [negb orb].
  destruct (Hhonest _ _ _ _ _ _ _ _ Ek Ec eq_refl) as [-> [m Hb]].
  set (e := Z.min end_ (isize - 1)) in *. destruct (Z.ltb_spec e off) as [|He]; [done|].
  assert (Hx : as_usize usize_bits (e - off + 1) = (e - off + 1)%Z).
  { apply as_usize_id. destruct Hfits. lia. }
  rewrite Hx. destruct (Z.eqb_spec (e - off + 1) 0); [lia|].
  destruct (Z.ltb_spec (Z.of_nat n) (e - off + 1)) as [|Hn]; [done|].
  destruct (read_body _ _) as [[g rest] ok] eqn:Er. destruct ok; [|done]. cbn [negb].
  destruct (Nat.eqb_spec (length g) (Z.to_nat (e - off + 1))) as [Hg|]; [|done]. cbn [negb].
  destruct (probe_body rest); [|done]. intros H. injection H as <- <- <-.
  split_and!; [done| |done|lia..]. apply read_body_prefix in Er. rewrite Er, Hb, Hg, take_take.
  assert (Hl : length (slice image off (Z.to_nat (e - off + 1))) = Z.to_nat (e - off + 1))
    by (apply slice_length; lia).
  assert (Hm : (Z.to_nat (e - off + 1) <= m)%nat).
  { rewrite Er, Hb, !length_take, Hl in Hg. lia. }
  rewrite Nat.min_l by lia. unfold slice at 1. rewrite take_take, Nat.min_id. done.
Qed.

(** ** Blocks *)

(** Block [b] of the image, padded with zeros past its end. *)
Definition block_of (b : Z) : list Z :=
  slice (image ++ zeros HTTP_BLOCK_SIZE) (b * HTTP_BLOCK_SIZE) (Z.to_nat HTTP_BLOCK_SIZE).

Definition cached_ok (c : BlockCache) : Prop :=
  CacheInv c /\ ∀ b data, c_map c !! b = Some data ->
                          (0 <= b)%Z /\ (b * HTTP_BLOCK_SIZE < isize)%Z /\ data = block_of b.

(** What is in the read-ahead buffer is part of the image. *)
Definition buffered_ok (p : PrefetchState) : Prop :=
  (0 <= buf_len p)%Z
  /\ ((0 < buf_len p)%Z ->
      (0 <= buf_off p)%Z /\ (buf_off p + buf_len p <= isize)%Z
      /\ take (Z.to_nat (buf_len p)) (buf p) = slice image (buf_off p) (Z.to_nat (buf_len p))).

Definition reader_ok (r : HttpRangeReader) : Prop :=
  cached_ok (cache (prefetch r)) /\ buffered_ok (prefetch r).

Lemma block_of_length b : (0 <= b)%Z -> (b * HTTP_BLOCK_SIZE < isize)%Z -> length (block_of b) = 4096%nat.
Proof.
  intros. unfold block_of. rewrite slice_length; [done|unfold HTTP_BLOCK_SIZE in *; lia|].
  rewrite length_app. unfold zeros. rewrite length_replicate. unfold HTTP_BLOCK_SIZE in *. lia.
Qed.

Lemma block_of_slice b o n :
  (0 <= b)%Z -> (o + n <= 4096)%nat -> (b * HTTP_BLOCK_SIZE + Z.of_nat (o + n) <= isize)%Z ->
  take n (drop o (block_of b)) = slice image (b * HTTP_BLOCK_SIZE + Z.of_nat o) n.
Proof.
  intros Hb Ho Hs. unfold block_of. rewrite slice_slice by (unfold HTTP_BLOCK_SIZE in *; lia).
  unfold slice. rewrite drop_app_le by (unfold HTTP_BLOCK_SIZE in *; lia).
  rewrite take_app_le; [done|]. rewrite length_drop. unfold HTTP_BLOCK_SIZE in *; lia.
Qed.

Lemma touch_ok k c : cached_ok c -> cached_ok (touch k c).
Proof. intros [Hi Hd]. split; [by apply touch_inv|done]. Qed.

Lemma put_ok b c :
  cached_ok c -> (0 <= b)%Z -> (b * HTTP_BLOCK_SIZE < isize)%Z -> cached_ok (put b (block_of b) c).
Proof.
  intros [Hi Hd] Hb Hs. destruct (put_spec b (block_of b) c Hi) as (Hi' & _ & _ & Hm & _).
  split; [done|]. intros b' data Hl. eapply lookup_weaken in Hl; [|exact Hm].
  apply lookup_insert_Some in Hl as [[<- <-]|[_ Hl]]; [done|by apply Hd].
Qed.

(** Forgetting a block before it is stored again keeps the queue. *)
Lemma forget_ok b c : cached_ok c -> cached_ok (mkCache (delete b (c_map c)) (c_lru c) (c_cap c)).
Proof.
  intros [[Hn Hk] Hd]. split; [split; cbn; [done|]|].
  - intros k [x [_ Hx]%lookup_delete_Some]. eauto.
  - cbn. intros b' data [_ Hx]%lookup_delete_Some. by apply Hd.
Qed.

(** A hit is the image. *)
Lemma read_blocks_ok off want b n copied c c' bytes :
  (0 <= off)%Z -> (off + Z.of_nat want <= isize)%Z ->
  (length copied < want)%nat -> copied = slice image off (length copied) ->
  (b * HTTP_BLOCK_SIZE <= off + Z.of_nat (length copied) < (b + 1) * HTTP_BLOCK_SIZE)%Z ->
  cached_ok c ->
  read_blocks usize_bits off want b n copied c = (c', bytes) ->
  cached_ok c' /\ ∀ bs, bytes = Some bs -> bs = slice image off want.
Proof.
  intros Hoff Hw. revert b copied c. induction n as [|n IH]; intros b copied c Hl Hcp Hb Hc; cbn [read_blocks];
    [by intros [= <- <-]|].
  destruct (c_map c !! b) as [data|] eqn:Ed; [|by intros [= <- <-]].
  destruct (proj2 Hc b data Ed) as (Hb0 & Hb1 & ->). rewrite block_of_length by done.
  assert (Ho : as_usize usize_bits (Z.max 0 (off + Z.of_nat (length copied) - b * HTTP_BLOCK_SIZE))
               = (off + Z.of_nat (length copied) - b * HTTP_BLOCK_SIZE)%Z).
  { rewrite Z.max_r by lia. apply as_usize_id. destruct Hfits as [_ H2].
    unfold HTTP_PREFETCH_CHUNK_SIZE, HTTP_BLOCK_SIZE in *. lia. }
  rewrite Ho. set (o := Z.to_nat (off + Z.of_nat (length copied) - b * HTTP_BLOCK_SIZE)).
  assert (Hoo : (o < 4096)%nat) by (unfold HTTP_BLOCK_SIZE in *; lia).
  set (m := Nat.min (want - length copied) (4096 - o)). destruct (Nat.eqb_spec m 0); [lia|].
  assert (Hbs : take m (drop o (block_of b)) = slice image (off + Z.of_nat (length copied)) m).
  { rewrite block_of_slice by (unfold HTTP_BLOCK_SIZE in *; lia). f_equal.
    unfold HTTP_BLOCK_SIZE in *. lia. }
  assert (Hcp' : copied ++ take m (drop o (block_of b)) = slice image off (length copied + m)).
  { rewrite Hbs. rewrite Hcp at 1. by apply slice_app. }
  rewrite Hcp'. rewrite slice_length by lia.
  destruct (Nat.eqb_spec (length copied + m) want) as [Hd|Hd].
  - intros [= <- <-]. split; [by apply touch_ok|]. intros bs [= <-]. by rewrite Hd.
  - assert (Hmm : m = (4096 - o)%nat) by lia.
    apply IH; rewrite ?slice_length by lia; [lia|done| |by apply touch_ok].
    unfold HTTP_BLOCK_SIZE in *. lia.
Qed.

Lemma try_cache_ok off want r r' bytes :
  (0 <= off)%Z -> (0 < want)%nat -> (off + Z.of_nat want <= isize)%Z -> reader_ok r ->
  try_read_block_cache usize_bits off want r = (r', bytes) ->
  reader_ok r' /\ ∀ bs, bytes = Some bs -> bs = slice image off want.
Proof.
  intros Hoff Hw Hs [Hc Hb]. unfold try_read_block_cache. destruct (Nat.eqb_spec want 0); [lia|].
  destruct (read_blocks _ _ _ _ _ _ _) as [c res] eqn:Er. intros [= <- <-].
  eapply read_blocks_ok in Er as [Hc' Hbs]; try done.
  - pose proof (Z.div_mod off HTTP_BLOCK_SIZE). pose proof (Z.mod_pos_bound off HTTP_BLOCK_SIZE).
    cbn [length]. unfold HTTP_BLOCK_SIZE in *. lia.
Qed.

(** The reads the block device makes: they start on a block, and end on one
    or at the end of the image. *)
Definition block_read (off : Z) (want : nat) : Prop :=
  (0 <= off)%Z /\ (0 < want)%nat /\ (off + Z.of_nat want <= isize)%Z
  /\ (HTTP_BLOCK_SIZE | off)%Z
  /\ ((HTTP_BLOCK_SIZE | Z.of_nat want)%Z \/ (off + Z.of_nat want = isize)%Z).

Lemma overwrite_block b w data :
  (0 <= b)%Z -> (w <= 4096)%nat -> (0 < w)%nat -> (b * HTTP_BLOCK_SIZE + Z.of_nat w <= isize)%Z ->
  (w = 4096%nat \/ (b * HTTP_BLOCK_SIZE + Z.of_nat w = isize)%Z) ->
  data = zeros HTTP_BLOCK_SIZE \/ data = block_of b ->
  overwrite 0 (slice image (b * HTTP_BLOCK_SIZE) w) data = block_of b.
Proof.
  intros Hb Hw Hw0 Hs Hend Hdata. unfold overwrite. rewrite take_0, app_nil_l, Nat.add_0_l.
  rewrite slice_length by (unfold HTTP_BLOCK_SIZE in *; lia).
  assert (Hbl : block_of b = slice image (b * HTTP_BLOCK_SIZE) w ++ zeros (4096 - Z.of_nat w)).
  { unfold block_of, slice, zeros. rewrite drop_app_le by (unfold HTTP_BLOCK_SIZE in *; lia).
    destruct Hend as [->|He].
    - cbn [Z.to_nat Z.sub]. replace (Z.to_nat (4096 - Z.of_nat 4096)) with 0%nat by lia.
      rewrite app_nil_r, take_app_le; [done|]. rewrite length_drop. unfold HTTP_BLOCK_SIZE in *. lia.
    - rewrite (take_ge _ w) by (rewrite length_drop; unfold HTTP_BLOCK_SIZE in *; lia).
      rewrite take_app_ge by (rewrite length_drop; unfold HTTP_BLOCK_SIZE in *; lia).
      f_equal. rewrite take_replicate, length_drop. f_equal. unfold HTTP_BLOCK_SIZE in *. lia. }
  rewrite Hbl at 1. destruct Hdata as [-> | ->].
  - f_equal. unfold zeros. rewrite drop_replicate. f_equal. unfold HTTP_BLOCK_SIZE. lia.
  - f_equal. rewrite Hbl, drop_app_length'; [done|].
    rewrite slice_length; unfold HTTP_BLOCK_SIZE in *; lia.
Qed.

(** Storing an aligned piece of the image keeps the cache right. *)
Lemma store_blocks_ok fuel off n c :
  (0 <= off)%Z -> (off + Z.of_nat n <= isize)%Z -> (HTTP_BLOCK_SIZE | off)%Z ->
  ((HTTP_BLOCK_SIZE | Z.of_nat n)%Z \/ (off + Z.of_nat n = isize)%Z) ->
  cached_ok c -> cached_ok (store_blocks off (slice image off n) fuel c).
Proof.
  revert off n c. induction fuel as [|fuel IH]; intros off n c Hoff Hs [b Hbo] Hal Hc; [done|].
  subst off. destruct (slice image (b * HTTP_BLOCK_SIZE) n) as [|x l] eqn:El; [done|]. cbn [store_blocks].
  assert (Hn : (0 < n)%nat) by (destruct n; [done|lia]).
  rewrite <- El. clear x l El. assert (Hb : (0 <= b)%Z) by (unfold HTTP_BLOCK_SIZE in *; lia).
  rewrite (Z.div_mul b HTTP_BLOCK_SIZE) by done. rewrite Z.sub_diag. change (Z.to_nat 0) with 0%nat.
  rewrite slice_length by lia. set (w := Nat.min (Z.to_nat HTTP_BLOCK_SIZE - 0) n).
  assert (Hw : take w (slice image (b * HTTP_BLOCK_SIZE) n) = slice image (b * HTTP_BLOCK_SIZE) w)
    by (unfold slice; rewrite take_take; f_equal; lia).
  assert (Hd : drop w (slice image (b * HTTP_BLOCK_SIZE) n)
               = slice image (b * HTTP_BLOCK_SIZE + Z.of_nat w) (n - w)).
  { unfold slice. rewrite skipn_firstn_comm, drop_drop. f_equal. f_equal. lia. }
  rewrite Hw, Hd. unfold HTTP_BLOCK_SIZE in *. rewrite overwrite_block; unfold HTTP_BLOCK_SIZE in *; try lia.
  - destruct (decide (w = n)) as [Hwn|Hwn].
    + rewrite Hwn, Nat.sub_diag. unfold slice. cbn [take]. destruct fuel; (apply put_ok; [by apply forget_ok|unfold HTTP_BLOCK_SIZE; lia..]).
    + assert (Hwb : w = 4096%nat) by lia. apply IH; [lia..| | |].
      * exists (b + 1)%Z. lia.
      * destruct Hal as [[m Hm]|Hal]; [left; exists (m - 1)%Z; lia|right; lia].
      * apply put_ok; [by apply forget_ok|unfold HTTP_BLOCK_SIZE; lia..].
  - destruct Hal as [[m Hm]|Hal]; [left|]; lia.
  - destruct (c_map c !! b) as [data|] eqn:Ed; cbn; [right; by apply Hc|by left].
Qed.

Lemma store_ok off n r :
  (0 <= off)%Z -> (off + Z.of_nat n <= isize)%Z -> (HTTP_BLOCK_SIZE | off)%Z ->
  ((HTTP_BLOCK_SIZE | Z.of_nat n)%Z \/ (off + Z.of_nat n = isize)%Z) ->
  reader_ok r -> reader_ok (store_into_block_cache off (slice image off n) r).
Proof. intros ???? [Hc Hb]. split; [by apply store_blocks_ok|done]. Qed.

Lemma begin_ok off want r : reader_ok r -> reader_ok (begin_read_with_prefetch_state off want r).
Proof.
  intros [Hc [Hb1 Hb2]]. unfold begin_read_with_prefetch_state.
  split; [repeat case_match; done|]. cbn [prefetch set_prefetch].
  assert (Hclear : ∀ p, buffered_ok (clear_buffer p)) by (intros p; split; cbn; lia).
  repeat case_match; try apply Hclear; by split.
Qed.

Lemma prefetch_ok off want r r' res :
  (0 <= off)%Z -> (0 < want)%nat -> (off + Z.of_nat want <= isize)%Z -> reader_ok r ->
  read_at_with_prefetch usize_bits server isize off want r = (r', res) ->
  reader_ok r' /\ ∀ bs, res = Ok (Some bs) -> bs = slice image off want.
Proof.
  intros Hoff Hw Hs [Hc Hb]. unfold read_at_with_prefetch.
  destruct (Z.ltb_spec HTTP_PREFETCH_CHUNK_SIZE (Z.of_nat want)) as [|Hch]; [by intros [= <- <-]|].
  destruct (negb _); [by intros [= <- <-]|]. destruct (_ && _) eqn:Ein.
  - apply andb_true_iff in Ein as [[E1 E2]%andb_true_iff E3].
    apply Z.ltb_lt in E1. apply Z.leb_le in E2, E3.
    intros H. injection H as <- <-. split; [by split|]. intros bs [= <-].
    destruct Hb as [_ Hb]. destruct (Hb E1) as (Hb1 & Hb2 & Hb3).
    rewrite as_usize_id by (destruct Hfits; lia). set (o := Z.to_nat (off - buf_off (prefetch r))).
    rewrite Nat.min_r by lia.
    transitivity (take want (drop o (slice image (buf_off (prefetch r)) (Z.to_nat (buf_len (prefetch r)))))).
    { rewrite <- Hb3. rewrite skipn_firstn_comm, take_take. f_equal; lia. }
    rewrite slice_slice by lia. f_equal. lia.
  - rewrite as_usize_id by (destruct Hfits; lia). rewrite Z.max_r by lia.
    destruct (Z.eqb_spec (isize - off) 0); [lia|].
    set (len := Z.min (isize - off) HTTP_PREFETCH_CHUNK_SIZE).
    destruct (fetch_range_once _ _ _ _ _ _) as [r1 [written fr]] eqn:Ef.
    assert (Hp1 : prefetch r1 = clear_buffer (set_buf [] (buf_off (prefetch r)) (buf_len (prefetch r)) (prefetch r))).
    { unfold fetch_range_once in Ef. by injection Ef as <- _. }
    destruct fr as [fetched|e]; [|intros [= <- <-]; split; [|done]; split; rewrite ?Hp1; [exact Hc|split; cbn; lia]].
    apply fetch_ok in Ef as (_ & Hwr & Hlw & Hft & _); [|lia..].
    assert (Hfw : (want <= fetched)%nat) by lia. rewrite Nat.min_r by done.
    assert (Hov : ∀ l, take want (overwrite 0 written l) = slice image off want).
    { intros l. unfold overwrite. rewrite take_0, app_nil_l, take_app_le by lia.
      rewrite Hwr. unfold slice. rewrite take_take. f_equal. lia. }
    destruct (negb _).
    + intros H. injection H as <- <-. rewrite Hov. split; [|by intros bs [= <-]].
      split; cbn; rewrite ?Hp1; [exact Hc|split; cbn; lia].
    + intros H. injection H as <- <-. rewrite Hov. split; [|by intros bs [= <-]].
      split; cbn [prefetch set_prefetch set_last set_buf cache]; rewrite ?Hp1; [exact Hc|].
      split; cbn [buf_len buf_off buf set_last set_buf]; [lia|]. intros _. split_and!; [lia..|].
      rewrite Nat2Z.id. unfold overwrite. rewrite take_0, app_nil_l.
      rewrite take_app_le by lia. rewrite take_ge by lia. done.
Qed.

Lemma direct_ok more off want got r r' res :
  (0 <= off)%Z -> (off + Z.of_nat want <= isize)%Z -> (length got <= want)%nat ->
  got = slice image off (length got) -> reader_ok r ->
  read_direct_loop usize_bits server off (off + Z.of_nat want - 1) want more got r = (r', res) ->
  reader_ok r' /\ ∀ bs, res = Ok bs -> bs = slice image off want.
Proof.
  revert got r. induction more as [|more IH]; intros got r Hoff Hs Hg Hgot Hr; cbn [read_direct_loop];
    (destruct (Nat.leb_spec want (length got)) as [Hd|Hd];
      [intros H; injection H as <- <-; split; [done|]; intros bs [= <-];
       rewrite Hgot; f_equal; lia|]);
    destruct (fetch_range_once _ _ _ _ _ _) as [r1 [written fr]] eqn:Ef;
    assert (Hp1 : prefetch r1 = prefetch r) by (unfold fetch_range_once in Ef; by injection Ef as <- _);
    assert (Hr1 : reader_ok r1) by (unfold reader_ok; by rewrite Hp1);
    (destruct fr as [n|e]; [|by intros [= <- <-]]);
    apply fetch_ok in Ef as (_ & Hwr & Hlw & Hn & _); try lia;
    (destruct (Nat.ltb_spec n (want - length got)); [lia|]);
    intros H'; injection H' as <- <-; (split; [done|]); intros bs [= <-];
    rewrite take_ge by lia; rewrite Hgot at 1; rewrite Hwr, slice_app by lia; f_equal; lia.
Qed.

(** A block read returns the image and keeps the reader right. *)
Lemma http_read_at_ok off want r r' res :
  block_read off want -> reader_ok r ->
  http_read_at usize_bits server isize off want r = (r', res) ->
  reader_ok r' /\ ∀ bs, res = Ok bs -> bs = slice image off want.
Proof.
  intros (Hoff & Hw & Hs & Hal & Hend) Hr. unfold http_read_at.
  destruct (Z.ltb_spec off 0); [lia|]. destruct (Nat.eqb_spec want 0); [lia|].
  destruct (try_read_block_cache _ _ _ _) as [r1 [bs|]] eqn:Et;
    apply try_cache_ok in Et as [Hr1 Hbs]; try done;
    [intros [= <- <-]; split; [done|]; intros bs' [= <-]; by apply Hbs|].
  apply (begin_ok off want) in Hr1. set (r2 := begin_read_with_prefetch_state off want r1) in *.
  destruct (read_at_with_prefetch _ _ _ _ _ _) as [r3 pre] eqn:Ep.
  apply prefetch_ok in Ep as [Hr3 Hpre]; try done.
  destruct pre as [[bs|]|e]; [| |by intros [= <- <-]].
  - rewrite (Hpre bs eq_refl). intros [= <- <-]. split; [by apply store_ok|by intros bs' [= <-]].
  - destruct (read_at_direct _ _ _ _ _ _) as [r4 res4] eqn:Ed.
    apply direct_ok in Ed as [Hr4 Hres4]; [|try done; cbn; lia..].
    destruct res4 as [bs|e]; [|by intros [= <- <-]]. rewrite (Hres4 bs eq_refl).
    intros [= <- <-]. split; [|by intros bs' [= <-]].
    pose proof (store_ok off want r4 Hoff Hs Hal Hend Hr4) as [? ?]. by split.
Qed.

Lemma reader_new_ok url probe n r : reader_new url probe = Ok (n, r) -> reader_ok r.
Proof.
  unfold reader_new. repeat case_match; try done. intros [= <- <-].
  split; [split; [apply cache_new_inv|]|split; cbn; lia].
  cbn. intros b data H'. by rewrite lookup_empty in H'.
Qed.

(** Successive reads. *)
Fixpoint http_reads (reads : list (Z * nat)) (r : HttpRangeReader)
  : list (Result HttpError (list Z)) :=
  match reads with
  | [] => []
  | (off, want) :: reads =>
      let '(r, res) := http_read_at usize_bits server isize off want r in res :: http_reads reads r
  end.

(** C22: The cached, read-ahead reader never gives out bytes that are not the
    image's: for any sequence of block reads, each answer is an error or exactly
    the bytes of the image at that place, whichever of cache, buffer and network
    produced it - for a server that answers a range with the bytes of that range
    ([honest]), and an image and a read-ahead buffer that a [usize] of the target
    can hold ([fits]: on the 32-bit device an image below 4 GiB; above,
    [Nbd.nbd_zeroes_on_32_bit]). *)
Theorem http_reads_equal_image url probe r0 reads i res :
  reader_new url probe = Ok (isize, r0) ->
  Forall (fun '(off, want) => block_read off want) reads ->
  http_reads reads r0 !! i = Some (Ok res) ->
  ∃ off want, reads !! i = Some (off, want) /\ res = slice image off want /\ length res = want.
Proof.
  intros Hnew%reader_new_ok Hreads. revert r0 i Hnew.
  induction Hreads as [|[off want] reads Hbr Hreads IH]; intros r i Hr; [done|].
  cbn [http_reads]. destruct (http_read_at _ _ _ _ _ r) as [r' res'] eqn:Er.
  apply http_read_at_ok in Er as [Hr' Hres]; [|done..]. destruct i as [|i]; cbn.
  - intros [= ->]. exists off, want. split; [done|]. rewrite (Hres res eq_refl).
    split; [done|]. destruct Hbr as (? & ? & ? & _). by apply slice_length.
  - intros Hi. by apply (IH r').
Qed.
End image.

(** ** Unaligned reads *)

Lemma fetch_length bits server off end_ n r r' written got :
  fetch_range_once bits server off end_ n r = (r', (written, Ok got)) ->
  length written = got /\ (got <= n)%nat /\ prefetch r' = prefetch r.
Proof.
  unfold fetch_range_once. destruct (send_with_retry _) as [resp|]; [|done].
  destruct (content_range resp ≫= parse_content_range) as [[[s e] t]|]; [|done].
  destruct (negb (_ || _)); [done|]. destruct (negb _ || _); [done|].
  set (x := as_usize bits (e - s + 1)). destruct (x =? 0)%Z; [done|].
  destruct (Z.ltb_spec (Z.of_nat n) x); [done|].
  destruct (read_body _ _) as [[g rest] ok]. destruct ok; [|done]. cbn [negb].
  destruct (Nat.eqb_spec (length g) (Z.to_nat x)); [|done]. cbn [negb].
  destruct (probe_body rest); [|done]. intros H'. injection H' as <- <- <-. split_and!; [done|lia|done].
Qed.

Lemma direct_length bits server off end_ want more got r r' bs :
  (length got <= want)%nat ->
  read_direct_loop bits server off end_ want more got r = (r', Ok bs) ->
  length bs = want /\ prefetch r' = prefetch r.
Proof.
  revert got r. induction more as [|more IH]; intros got r Hg; cbn [read_direct_loop];
    (destruct (Nat.leb_spec want (length got)) as [Hd|Hd];
      [intros H; injection H as <- <-; split; [lia|done]|]);
    destruct (fetch_range_once _ _ _ _ _ _) as [r1 [written [n|e]]] eqn:Ef; try done;
    apply fetch_length in Ef as (Hw & Hn & Hp);
    destruct (Nat.ltb_spec n (want - length got)); try done.
  - intros H'. injection H' as <- <-. rewrite length_app, length_take. split; [lia|done].
  - intros (? & Hp')%IH; [split; [done|congruence]|]. rewrite length_app, length_take. lia.
  - intros H'. injection H' as <- <-. rewrite length_app, length_take. split; [lia|done].
Qed.

(** The first read of a reader is a direct one. *)
Lemma begin_first off want r :
  enabled (prefetch r) = false -> last_off (prefetch r) = None ->
  cache (prefetch (begin_read_with_prefetch_state off want r)) = cache (prefetch r)
  /\ enabled (prefetch (begin_read_with_prefetch_state off want r)) = false.
Proof.
  intros He Hl. unfold begin_read_with_prefetch_state. rewrite He, Hl. cbn. by rewrite He.
Qed.

Lemma overwrite_take o n d l :
  (n <= o)%nat -> (o <= length l)%nat -> take n (overwrite o d l) = take n l.
Proof.
  intros Hn Hl. unfold overwrite. rewrite take_app_le by (rewrite length_take; lia).
  rewrite take_take. f_equal. lia.
Qed.

(** Storing inside one block that is not cached leaves zeros around the data. *)
Lemma store_part o d c :
  CacheInv c -> c_map c !! 0%Z = None -> (0 < c_cap c)%nat ->
  d ≠ [] -> (o + length d <= 4096)%nat ->
  c_map (store_blocks (Z.of_nat o) d (length d) c) !! 0%Z = Some (overwrite o d (zeros HTTP_BLOCK_SIZE)).
Proof.
  intros [Hn Hk] Hc Hcap Hd Ho. destruct d as [|x l]; [done|]. cbn [length store_blocks].
  set (d := x :: l) in *. assert (Hl : (0 < length d)%nat) by (cbn; lia).
  assert (Hz : (Z.of_nat o / HTTP_BLOCK_SIZE = 0)%Z)
    by (apply Z.div_small; unfold HTTP_BLOCK_SIZE; lia).
  rewrite Hz, Z.mul_0_l, Z.sub_0_r, Nat2Z.id, Hc.
  replace (Nat.min _ (length d)) with (length d) by (unfold HTTP_BLOCK_SIZE; lia).
  rewrite take_ge, drop_ge by lia. cbn [default from_option id].
  set (c1 := mkCache _ _ _). assert (Hi : CacheInv c1).
  { split; cbn; [done|]. intros k [y [_ Hy]%lookup_delete_Some]. eauto. }
  destruct (put_spec 0 (overwrite o d (zeros HTTP_BLOCK_SIZE)) c1 Hi) as (_ & _ & _ & _ & Hp).
  assert (Hnil : ∀ off c, store_blocks off [] (length l) c = c) by (intros; by destruct l).
  rewrite Hnil. by apply Hp.
Qed.

(** The reader is only right for block reads: a block that is stored in part
    is filled up with zeros and then counts as cached, so after a read of 512
    bytes at offset 512 the bytes before them read as zeros, whatever the image
    holds. *)
Theorem unaligned_read_poisons_cache bits server size bs r1 :
  http_read_at bits server size 512 512 (mkReader 0 prefetch_new) = (r1, Ok bs) ->
  (http_read_at bits server size 0 512 r1).2 = Ok (zeros 512).
Proof.
  assert (Hp : cache prefetch_new = cache_new HTTP_BLOCK_CACHE_CAPACITY
               /\ enabled prefetch_new = false /\ last_off prefetch_new = None) by (split_and!; reflexivity).
  revert Hp. generalize prefetch_new. intros p (Hc & He & Hl).
  unfold http_read_at at 1. cbn [Z.ltb Z.compare Nat.eqb].
  unfold try_read_block_cache at 1. cbn [Nat.eqb prefetch]. rewrite Hc.
  replace (Z.to_nat _) with 1%nat by reflexivity. cbn [read_blocks].
  replace (c_map _ !! _) with (@None (list Z)) by reflexivity.
  set (r0 := set_prefetch _ _). destruct (begin_first 512 512 r0) as [Hc0 He0]; [done..|].
  unfold read_at_with_prefetch at 1. rewrite He0. cbn [negb].
  replace (_ <? _)%Z with false by reflexivity.
  destruct (read_at_direct _ _ _ _ _ _) as [r2 [d|e]] eqn:Ed; [|done].
  apply direct_length in Ed as [Hd Hp2]; [|cbn; lia]. intros [= <- <-].
  set (r1' := record_last_read _ _ _).
  assert (Hb : c_map (cache (prefetch r1')) !! 0%Z = Some (overwrite 512 d (zeros HTTP_BLOCK_SIZE))).
  { subst r1'. cbn [record_last_read set_prefetch set_last prefetch cache store_into_block_cache set_cache].
    rewrite Hp2, Hc0. apply (store_part 512); [apply cache_new_inv|done|cbn; unfold HTTP_BLOCK_CACHE_CAPACITY; lia| |lia].
    by intros ->. }
  clearbody r1'. unfold http_read_at, try_read_block_cache. cbn [Z.ltb Z.compare Nat.eqb].
  replace (Z.to_nat (_ - _ + 1)) with 1%nat by reflexivity. cbn [read_blocks].
  replace (0 / HTTP_BLOCK_SIZE)%Z with 0%Z by reflexivity. rewrite Hb.
  replace (as_usize _ _) with 0%Z by (symmetry; apply Zmod_0_l). change (Z.to_nat 0) with 0%nat.
  assert (Hlen : length (overwrite 512 d (zeros HTTP_BLOCK_SIZE)) = 4096%nat).
  { unfold overwrite. rewrite !length_app, length_take, length_drop, Hd. unfold zeros.
    rewrite length_replicate. unfold HTTP_BLOCK_SIZE. lia. }
  rewrite Hlen, drop_0. cbn [length app]. replace (Nat.min (512 - 0) (4096 - 0)) with 512%nat by lia.
  rewrite overwrite_take by (unfold zeros; rewrite ?length_replicate; unfold HTTP_BLOCK_SIZE; lia).
  assert (Hz : take 512 (zeros HTTP_BLOCK_SIZE) = zeros 512)
    by (unfold zeros; rewrite take_replicate; f_equal; unfold HTTP_BLOCK_SIZE; lia).
  rewrite Hz. unfold zeros at 1. rewrite length_replicate. reflexivity.
Qed.
