(* ===== verification/Nbd.v ===== *)
(** * Remote images as a block device (hardware/block_device.rs, remote_mount.rs)

    The trait [RemoteImageReader] as an interface with its laws, the device the
    NBD server reads from, and the reader that fetches blocks from a browser
    over a data channel. *)

From S2P Require Import Prelude Text RangeReader.

(** ** The interface *)

(** [read_at off len] yields the bytes written to the front of the buffer. *)
Class RemoteImageReader (R E : Type) := {
  read_at : Z -> nat -> R -> R * Result E (list Z)
}.

(** What the device relies on: a read inside the image that the reader admits
    returns the image or fails, and the reader stays usable. *)
Class ImageReaderLaws (R E : Type) `{RemoteImageReader R E} (image : list Z)
    (ok : R -> Prop) (admits : Z -> nat -> Prop) : Prop := {
  read_at_image : ∀ off want r r' res,
    ok r -> admits off want -> read_at off want r = (r', res) ->
    ok r' /\ ∀ bs, res = Ok bs -> bs = slice image off want
}.

(** ** The device *)

Inductive DeviceError (E : Type) : Type :=
| ReaderFailed (e : E) | WrotePastBuffer | ShortRead | SeekBeforeStart | SeekPastEnd.
Arguments ReaderFailed {E} e.
Arguments WrotePastBuffer {E}.
Arguments ShortRead {E}.
Arguments SeekBeforeStart {E}.
Arguments SeekPastEnd {E}.

(** [(data_size + BLK - 1) & !(BLK - 1)] on 64 bits. *)
Definition align_export_size (data_size : Z) : Z :=
  Z.land (wrap64 (data_size + 4096 - 1)) (Z.lxor u64_max 4095).

Inductive SeekFrom : Set := SeekStart (x : Z) | SeekCurrent (x : Z) | SeekEnd (x : Z).

Section device.
Context (usize_bits : Z) {R E : Type} `{RemoteImageReader R E}.

Record RemoteImageDevice := mkDevice {
  dev_reader : R;
  data_size : Z;
  export_size : Z;
  dev_pos : Z
}.

Definition device_new (r : R) (size : Z) : RemoteImageDevice :=
  mkDevice r size (align_export_size size) 0.

(** The loop that collects [want] bytes; every turn adds at least one, so
    [want + 1] turns are enough. *)
Fixpoint fill (fuel : nat) (pos : Z) (want : nat) (filled : list Z) (r : R)
  : R * Result (DeviceError E) (list Z) :=
  match fuel with
  | O => (r, Ok filled)
  | S fuel =>
      if (want <=? length filled)%nat then (r, Ok filled) else
      let '(r, res) := read_at (pos + Z.of_nat (length filled)) (want - length filled) r in
      match res with
      | Err e => (r, Err (ReaderFailed e))
      | Ok bs =>
          if (want - length filled <? length bs)%nat then (r, Err WrotePastBuffer)
          else if (length bs =? 0)%nat then (r, Ok filled)
          else fill fuel pos want (filled ++ bs) r
      end
  end.

Definition device_read (buf_len : nat) (d : RemoteImageDevice)
  : RemoteImageDevice * Result (DeviceError E) (list Z) :=
  let pos := dev_pos d in
  if (export_size d <=? pos)%Z then (d, Ok []) else
  let max := as_usize usize_bits (export_size d - pos) in
  let to_read := Nat.min buf_len (Z.to_nat max) in
  if (to_read =? 0)%nat then (d, Ok []) else
  let advance r := mkDevice r (data_size d) (export_size d) (pos + Z.of_nat to_read) in
  if (data_size d <=? pos)%Z then (advance (dev_reader d), Ok (zeros (Z.of_nat to_read))) else
  let n_from_image := Nat.min to_read (Z.to_nat (as_usize usize_bits (data_size d - pos))) in
  let '(r, res) := fill (S n_from_image) pos n_from_image [] (dev_reader d) in
  let stay := mkDevice r (data_size d) (export_size d) pos in
  match res with
  | Err e => (stay, Err e)
  | Ok filled =>
      if (length filled <? n_from_image)%nat then (stay, Err ShortRead)
      else (advance r, Ok (filled ++ zeros (Z.of_nat (to_read - n_from_image))))
  end.

Definition device_seek (s : SeekFrom) (d : RemoteImageDevice)
  : RemoteImageDevice * Result (DeviceError E) Z :=
  let new_pos := match s with
                 | SeekStart x => x
                 | SeekCurrent x => dev_pos d + x
                 | SeekEnd x => export_size d + x
                 end%Z in
  if (new_pos <? 0)%Z then (d, Err SeekBeforeStart) else
  let new_pos := wrap64 new_pos in
  if (export_size d <? new_pos)%Z then (d, Err SeekPastEnd)
  else (mkDevice (dev_reader d) (data_size d) (export_size d) new_pos, Ok new_pos).

(** A request of the kernel: seek, then read. *)
Definition device_request (off : Z) (len : nat) (d : RemoteImageDevice)
  : RemoteImageDevice * Result (DeviceError E) (list Z) :=
  match device_seek (SeekStart off) d with
  | (d, Err e) => (d, Err e)
  | (d, Ok _) => device_read len d
  end.

Fixpoint device_requests (reqs : list (Z * nat)) (d : RemoteImageDevice)
  : list (Result (DeviceError E) (list Z)) :=
  match reqs with
  | [] => []
  | (off, len) :: reqs =>
      let '(d, res) := device_request off len d in res :: device_requests reqs d
  end.
End device.
Arguments RemoteImageDevice R : clear implicits.

(** ** The reader of a browser's disk (storage.rs, remote_mount.rs) *)

Definition INBOUND_HEADER_LEN : nat := 16.

(** The bridge: whether a sender is installed, whether a read is under way, and
    the bytes that came in. *)
Record Transport := mkTransport {
  sender : option bool;          (* installed; does sending succeed *)
  in_flight : bool;
  inbound : list Z
}.

Definition webrtc_disk_set_sender (ok : bool) (t : Transport) : Transport :=
  mkTransport (Some ok) (in_flight t) (inbound t).

Definition webrtc_disk_clear_sender (t : Transport) : Transport :=
  mkTransport None (in_flight t) (inbound t).

Definition webrtc_disk_on_message (payload : list Z) (t : Transport) : Transport :=
  let data := if (INBOUND_HEADER_LEN <=? length payload)%nat
              then drop INBOUND_HEADER_LEN payload else payload in
  mkTransport (sender t) (in_flight t) (inbound t ++ data).

Inductive DiskError : Set :=
| NoSession | DiskInvalidRange | ChannelNotReady | ConcurrentRead | SendRequestFailed | DiskTimeout.

(** The wait: messages in the order they arrive before the deadline. *)
Fixpoint wait_data (need : nat) (msgs : list (list Z)) (t : Transport) : Transport * bool :=
  if (need <=? length (inbound t))%nat then (t, true) else
  match msgs with
  | [] => (t, false)
  | m :: msgs => wait_data need msgs (webrtc_disk_on_message m t)
  end.

Definition bridge_read (offset size : Z) (msgs : list (list Z)) (t : Transport)
  : Transport * Result DiskError (list Z) :=
  if ((offset <? 0) || (size <=? 0))%Z then (t, Err DiskInvalidRange) else
  let need := Z.to_nat size in
  match sender t with
  | None => (t, Err ChannelNotReady)
  | Some ok =>
      if in_flight t then (t, Err ConcurrentRead) else
      let t := mkTransport (sender t) true [] in
      if negb ok then (t, Err SendRequestFailed) else
      let '(t, arrived) := wait_data need msgs t in
      if arrived
      then (mkTransport (sender t) false (drop need (inbound t)), Ok (take need (inbound t)))
      else (mkTransport (sender t) false (inbound t), Err DiskTimeout)
  end.

Section disk.
(** The messages that arrive while read number [n], of [len] bytes at [off],
    waits. *)
Context (browser : nat -> Z -> Z -> list (list Z)).

Record WebRtcDiskReader := mkDisk {
  handler_installed : bool;
  disk_size : Z;
  transport : Transport;
  disk_reads : nat
}.

Definition disk_read_at (off : Z) (want : nat) (d : WebRtcDiskReader)
  : WebRtcDiskReader * Result DiskError (list Z) :=
  if negb (handler_installed d) then (d, Err NoSession)
  else if (off <? 0)%Z then (d, Err DiskInvalidRange)
  else if (want =? 0)%nat then (d, Ok [])
  else
    let end_ := Z.min (off + Z.of_nat want) (disk_size d) in
    let req_len := Z.max 0 (end_ - off) in
    if (req_len =? 0)%Z then (d, Ok [])
    else
      let '(t, res) := bridge_read off req_len (browser (disk_reads d) off req_len) (transport d) in
      let d := mkDisk (handler_installed d) (disk_size d) t (S (disk_reads d)) in
      match res with
      | Err e => (d, Err e)
      | Ok data => (d, Ok (take (Nat.min (length data) want) data))
      end.
End disk.

#[export] Instance webrtc_disk_reader (browser : nat -> Z -> Z -> list (list Z))
  : RemoteImageReader WebRtcDiskReader DiskError :=
  {| read_at := disk_read_at browser |}.

#[export] Instance http_range_reader (bits : Z) (server : Z -> nat -> Z -> Z -> option HttpResponse)
    (size : Z) : RemoteImageReader HttpRangeReader HttpError :=
  {| read_at := http_read_at bits server size |}.

(** ** Both readers keep the laws *)

#[export] Instance http_reader_laws bits server image :
  honest server image -> fits bits image ->
  ImageReaderLaws (H := http_range_reader bits server (Z.of_nat (length image)))
    HttpRangeReader HttpError image (reader_ok image) (block_read image).
Proof.
  intros Hh Hf. split. intros off want r r' res Hr Ha Hrd. by eapply http_read_at_ok.
Qed.

(** The data of messages, without their headers. *)
Definition message_data (m : list Z) : list Z :=
  if (INBOUND_HEADER_LEN <=? length m)%nat then drop INBOUND_HEADER_LEN m else m.

(** A browser that sends the bytes it is asked for, all or the first of them,
    and nothing else while a read waits. *)
Definition honest_browser (browser : nat -> Z -> Z -> list (list Z)) (image : list Z) : Prop :=
  ∀ n off len, (0 <= off)%Z -> (off + len <= Z.of_nat (length image))%Z ->
    ∃ k, List.concat (message_data <$> browser n off len) = take k (slice image off (Z.to_nat len)).

Lemma wait_data_inbound need msgs t t' arrived :
  wait_data need msgs t = (t', arrived) ->
  (∃ n, inbound t' = inbound t ++ List.concat (message_data <$> take n msgs))
  /\ (arrived = true -> (need <= length (inbound t'))%nat).
Proof.
  revert t. induction msgs as [|m msgs IH]; intros t; cbn [wait_data];
    destruct (Nat.leb_spec need (length (inbound t))).
  - intros [= <- <-]. split; [exists 0%nat; by rewrite app_nil_r|done].
  - intros [= <- <-]. split; [exists 0%nat; by rewrite app_nil_r|done].
  - intros [= <- <-]. split; [exists 0%nat; by rewrite app_nil_r|done].
  - intros [[n Hn] Hl]%IH. split; [|done]. exists (S n). rewrite Hn. cbn.
    by rewrite <- (assoc_L (++)).
Qed.

Lemma concat_take_prefix {A} n (l : list (list A)) :
  ∃ k, List.concat (take n l) = take k (List.concat l).
Proof.
  exists (length (List.concat (take n l))).
  rewrite <- (take_drop n l) at 3. by rewrite concat_app, take_app_length.
Qed.

#[export] Instance webrtc_reader_laws browser image :
  honest_browser browser image ->
  ImageReaderLaws (H := webrtc_disk_reader browser) WebRtcDiskReader DiskError image
    (fun d => disk_size d = Z.of_nat (length image))
    (fun off want => (0 <= off)%Z /\ (0 < want)%nat /\ (off + Z.of_nat want <= Z.of_nat (length image))%Z).
Proof.
  intros Hh. split. intros off want d d' res Hd (Hoff & Hw & Hs). cbn. unfold disk_read_at.
  destruct (negb _); [by intros [= <- <-]|]. destruct (Z.ltb_spec off 0); [lia|].
  destruct (Nat.eqb_spec want 0) as [|_]; [lia|]. rewrite Hd, Z.min_l by lia.
  replace (Z.max 0 _) with (Z.of_nat want) by lia. destruct (Z.eqb_spec (Z.of_nat want) 0) as [|_]; [lia|].
  destruct (bridge_read _ _ _ _) as [t [data|e]] eqn:Eb; intros [= <- <-]; [|done]. split; [done|].
  intros bs [= <-]. revert Eb. unfold bridge_read. destruct (_ || _); [done|].
  destruct (sender (transport d)) as [ok|]; [|done]. destruct (in_flight _); [done|].
  destruct (negb ok); [done|]. destruct (wait_data _ _ _) as [t' arrived] eqn:Ew.
  apply wait_data_inbound in Ew as [[m Hn] Hl]. destruct arrived; [|done]. cbn in Hn.
  specialize (Hl eq_refl). rewrite Nat2Z.id in *. intros Hx. injection Hx as _ <-.
  rewrite fmap_take in Hn.
  destruct (concat_take_prefix m (message_data <$> browser (disk_reads d) off (Z.of_nat want))) as [k Hk].
  destruct (Hh (disk_reads d) off (Z.of_nat want)) as [k' Hk']; [lia..|].
  rewrite Hn, Hk, Hk', Nat2Z.id in *. rewrite take_take in *.
  rewrite !length_take, slice_length in Hl by lia.
  rewrite take_take, !length_take, slice_length, take_take by lia.
  rewrite take_ge; [done|]. rewrite slice_length by lia. lia.
Qed.

(** ** The device serves the padded image *)

Lemma align_export_spec d :
  (0 <= d < 2 ^ 63)%Z ->
  align_export_size d = (4096 * ((d + 4095) / 4096))%Z
  /\ (d <= align_export_size d < d + 4096)%Z /\ (HTTP_BLOCK_SIZE | align_export_size d)%Z.
Proof.
  intros Hd. assert (He : align_export_size d = (4096 * ((d + 4095) / 4096))%Z).
  { unfold align_export_size, wrap64. rewrite Z.mod_small by lia.
    replace (d + 4096 - 1)%Z with (d + 4095)%Z by lia. set (x := (d + 4095)%Z) in *.
    assert (Hm : Z.lxor u64_max 4095 = Z.shiftl (Z.ones 52) 12) by reflexivity.
    rewrite Hm. transitivity (Z.shiftl (Z.shiftr x 12) 12).
    - apply Z.bits_inj'. intros i Hi. rewrite Z.land_spec, !Z.shiftl_spec by lia.
      destruct (Z.ltb_spec i 12).
      + rewrite !(Z.testbit_neg_r _ (i - 12)) by lia. apply andb_false_r.
      + rewrite Z.shiftr_spec, Z.testbit_ones_nonneg by lia. replace (i - 12 + 12)%Z with i by lia.
        destruct (Z.ltb_spec (i - 12) 52); [apply andb_true_r|].
        rewrite andb_false_r. symmetry. apply Z.bits_above_log2; [lia|].
        apply Z.log2_lt_pow2; [lia|]. apply (Z.lt_le_trans _ (2 ^ 64)); [lia|]. apply Z.pow_le_mono_r; lia.
    - rewrite Z.shiftl_mul_pow2, Z.shiftr_div_pow2 by lia. change (2 ^ 12)%Z with 4096%Z. lia. }
  split; [done|]. rewrite He. split.
  - pose proof (Z.div_mod (d + 4095) 4096). pose proof (Z.mod_pos_bound (d + 4095) 4096). lia.
  - unfold HTTP_BLOCK_SIZE. exists ((d + 4095) / 4096)%Z. lia.
Qed.

Section serving.
Context (usize_bits : Z) {R E : Type} `{ImageReaderLaws R E image ok admits}.
Local Abbreviation isize := (Z.of_nat (length image)).
Local Abbreviation padded := (image ++ zeros (align_export_size isize - isize)).

(** A device on the image; the address space holds its export. *)
Definition device_ok (d : RemoteImageDevice R) : Prop :=
  ok (dev_reader d) /\ data_size d = isize /\ export_size d = align_export_size isize
  /\ (0 <= dev_pos d)%Z.

Context (Hfit : (align_export_size isize < 2 ^ usize_bits)%Z) (Hmax : (isize < 2 ^ 63)%Z).

Lemma fill_ok fuel pos want r r' res :
  ok r -> (0 < want)%nat -> (want < fuel)%nat -> (0 <= pos)%Z -> admits pos want ->
  (pos + Z.of_nat want <= isize)%Z ->
  fill fuel pos want [] r = (r', res) ->
  ok r' /\ ∀ bs, res = Ok bs -> bs = slice image pos want.
Proof.
  intros Hr Hw Hf Hp Ha Hs. destruct fuel as [|fuel]; [lia|]. cbn [fill length].
  destruct (Nat.leb_spec want 0); [lia|]. rewrite Z.add_0_r, Nat.sub_0_r.
  destruct (read_at pos want r) as [r1 [bs|e]] eqn:Er;
    apply (read_at_image _ _ _ _ _ Hr Ha) in Er as [Hr1 Hbs]; [|by intros [= <- <-]].
  specialize (Hbs bs eq_refl). assert (Hl : length bs = want) by (rewrite Hbs; by apply slice_length).
  destruct (Nat.ltb_spec want (length bs)); [lia|]. destruct (Nat.eqb_spec (length bs) 0); [lia|].
  rewrite app_nil_l. destruct fuel as [|fuel]; cbn [fill].
  - intros [= <- <-]. split; [done|]. by intros bs' [= <-].
  - destruct (Nat.leb_spec want (length bs)); [|lia]. intros [= <- <-]. split; [done|]. by intros bs' [= <-].
Qed.

(** A read returns the padded image up to its end and moves past it. *)
Lemma device_read_ok len d d' res :
  device_ok d ->
  (∀ n, (0 < n <= len)%nat -> (dev_pos d + Z.of_nat n <= isize)%Z ->
        n = len \/ (dev_pos d + Z.of_nat n = isize)%Z -> admits (dev_pos d) n) ->
  device_read usize_bits len d = (d', res) ->
  device_ok d' /\ ∀ bs, res = Ok bs ->
    bs = slice padded (dev_pos d) (Nat.min len (Z.to_nat (align_export_size isize - dev_pos d))).
Proof.
  intros (Hr & Hds & Hes & Hpos) Ha. destruct (align_export_spec isize) as (_ & Hal & _); [lia|].
  unfold device_read. rewrite Hds, Hes. set (ex := align_export_size isize) in *.
  destruct (Z.leb_spec ex (dev_pos d)) as [|Hlt].
  { intros [= <- <-]. split; [done|]. intros bs [= <-]. by replace (Nat.min len _) with 0%nat by lia. }
  rewrite !as_usize_id by lia. set (n := Nat.min len (Z.to_nat (ex - dev_pos d))).
  destruct (Nat.eqb_spec n 0) as [Hn0|Hn0].
  { intros [= <- <-]. split; [done|]. intros bs [= <-]. by rewrite Hn0. }
  destruct (Z.leb_spec isize (dev_pos d)) as [Hge|Hin].
  { intros [= <- <-]. split; [by split_and!; cbn; try lia|]. intros bs [= <-].
    unfold slice, zeros. rewrite drop_app_ge by lia. rewrite drop_replicate, take_replicate. f_equal. lia. }
  rewrite as_usize_id by lia. set (m := Nat.min n (Z.to_nat (isize - dev_pos d))).
  destruct (fill _ _ _ _ _) as [r' fr] eqn:Ef.
  apply fill_ok in Ef as [Hr' Hbs]; [|done|lia|lia|lia|apply Ha; lia|lia].
  destruct fr as [filled|e]; [|intros [= <- <-]; by split].
  specialize (Hbs filled eq_refl). assert (Hl : length filled = m) by (rewrite Hbs; apply slice_length; lia).
  destruct (Nat.ltb_spec (length filled) m); [lia|]. intros [= <- <-].
  split; [by split_and!; cbn; try lia|]. intros bs [= <-]. rewrite Hbs.
  unfold slice. rewrite drop_app_le by lia. destruct (decide (m = n)) as [Hmn|Hmn].
  - rewrite Hmn, Nat.sub_diag. unfold zeros at 1. rewrite app_nil_r, take_app_le; [done|]. rewrite length_drop. lia.
  - rewrite (take_ge _ m) by (rewrite length_drop; lia).
    rewrite take_app_ge by (rewrite length_drop; lia). f_equal.
    unfold zeros. rewrite take_replicate, length_drop. f_equal. lia.
Qed.
End serving.

(** Whole blocks of the export, as the kernel asks for after [NBD_SET_BLKSIZE]. *)
Definition block_request (export : Z) (req : Z * nat) : Prop :=
  (0 <= req.1)%Z /\ (HTTP_BLOCK_SIZE | req.1)%Z /\ (HTTP_BLOCK_SIZE | Z.of_nat req.2)%Z
  /\ (req.1 + Z.of_nat req.2 <= export)%Z.

(** C23: A mounted HTTP image below 4 GiB on the 32-bit device (in general, below
    what a [usize] of the target holds once padded to whole blocks) that an honest
    server serves reads, block by block, as the file on the server padded with
    zeros to whole blocks: every block request of the kernel, in any order, is
    answered with those bytes or with an error.  Larger exports are served on the
    32-bit device, too, but then read zeros where there is data:
    [nbd_zeroes_on_32_bit]. *)
Theorem nbd_serves_http_image bits server image url probe r0 reqs i res :
  honest server image -> fits bits image ->
  (align_export_size (Z.of_nat (length image)) < 2 ^ bits)%Z -> (Z.of_nat (length image) < 2 ^ 63)%Z ->
  reader_new url probe = Ok (Z.of_nat (length image), r0) ->
  let export := align_export_size (Z.of_nat (length image)) in
  Forall (block_request export) reqs ->
  device_requests (H := http_range_reader bits server (Z.of_nat (length image))) bits reqs
    (device_new r0 (Z.of_nat (length image))) !! i = Some (Ok res) ->
  ∃ off len, reqs !! i = Some (off, len)
    /\ res = slice (image ++ zeros (export - Z.of_nat (length image))) off len.
Proof.
  intros Hh Hf Hfit Hmax Hnew%(reader_new_ok image) export Hreqs.
  pose proof (http_reader_laws bits server image Hh Hf) as Hlaws.
  destruct (align_export_spec (Z.of_nat (length image))) as (_ & Hal & Hdiv); [lia|].
  assert (Hd : device_ok (image := image) (ok := reader_ok image) (device_new r0 (Z.of_nat (length image))))
    by (by split_and!).
  revert i Hd. generalize (device_new r0 (Z.of_nat (length image))).
  induction Hreqs as [|[off len] reqs Hbr Hreqs IH]; intros d i Hd; [done|].
  destruct Hbr as (Hoff & Hao & Hlen & Hend); cbn in Hoff, Hao, Hlen, Hend.
  cbn [device_requests]. destruct (device_request _ _ _ _) as [d' res'] eqn:Er.
  assert (Hstep : device_ok (image := image) (ok := reader_ok image) d' /\ ∀ bs, res' = Ok bs ->
            bs = slice (image ++ zeros (export - Z.of_nat (length image))) off len).
  { revert Er. unfold device_request, device_seek.
    destruct (Z.ltb_spec off 0); [lia|]. unfold wrap64. rewrite Z.mod_small by (fold export in Hal; lia).
    destruct (Z.ltb_spec (export_size d) off); [intros [= <- <-]; by split|].
    intros Er. destruct Hd as (Hr & Hds & Hes & _).
    eapply (device_read_ok bits (ok := reader_ok image) (admits := block_read image)) in Er
      as [Hd' Hbs]; [|done|done|by split_and!|].
    - split; [done|]. intros bs Hb. rewrite (Hbs bs Hb). cbn. fold export. f_equal. lia.
    - cbn. intros n Hn Hs Hc. split_and!; [lia|lia|lia|done|].
      destruct Hc as [->|]; [by left|by right]. }
  destruct Hstep as [Hd' Hbs]. destruct i as [|i]; cbn.
  - intros [= ->]. exists off, len. split; [done|]. by apply Hbs.
  - intros Hi. by apply (IH d').
Qed.

(** One read that fills the buffer ends the loop. *)
Lemma fill_once {R E} `{RemoteImageReader R E} pos n (r r' : R) bs :
  (0 < n)%nat -> read_at pos n r = (r', Ok bs) -> length bs = n ->
  fill (S n) pos n [] r = (r', Ok bs).
Proof.
  intros Hn Hr Hl. cbn [fill length]. destruct (Nat.leb_spec n 0); [lia|].
  rewrite Z.add_0_r, Nat.sub_0_r, Hr, Hl, Nat.ltb_irrefl. destruct (Nat.eqb_spec n 0); [lia|].
  rewrite app_nil_l. destruct n as [|n]; [done|]. cbn [fill]. by rewrite Hl, Nat.leb_refl.
Qed.

(** On a 32-bit target an image of more than 4 GiB is not served right: the
    remaining length is cut to 32 bits, so 4 GiB and 2048 bytes before the end
    of such an image a block comes back with its second half zeroed, without an
    error, whatever the image holds there. *)
Theorem nbd_zeroes_on_32_bit {R E} `{RemoteImageReader R E} (r r' : R) bs pos size :
  (0 <= pos)%Z -> (HTTP_BLOCK_SIZE | pos)%Z -> size = (pos + 2 ^ 32 + 2048)%Z -> (size < 2 ^ 63)%Z ->
  read_at pos (Z.to_nat 2048) r = (r', Ok bs) -> length bs = Z.to_nat 2048 ->
  (device_read 32 (Z.to_nat 4096) (mkDevice r size (align_export_size size) pos)).2 = Ok (bs ++ zeros 2048).
Proof.
  intros Hpos [k Hk] Hsz Hmax Hrd Hl. unfold HTTP_BLOCK_SIZE in Hk.
  assert (Ha : align_export_size size = (pos + 2 ^ 32 + 4096)%Z).
  { destruct (align_export_spec size) as (_ & Hr & [q Hq]); [lia|]. unfold HTTP_BLOCK_SIZE in Hq. lia. }
  unfold device_read. cbn [dev_pos export_size data_size dev_reader]. rewrite Ha.
  destruct (Z.leb_spec (pos + 2 ^ 32 + 4096) pos); [lia|].
  replace (as_usize 32 (pos + 2 ^ 32 + 4096 - pos)) with 4096%Z
    by (unfold as_usize; replace (pos + 2 ^ 32 + 4096 - pos)%Z with (4096 + 1 * 2 ^ 32)%Z by lia;
        by rewrite Z.mod_add).
  rewrite Nat.min_id. destruct (Nat.eqb_spec (Z.to_nat 4096) 0); [lia|]. destruct (Z.leb_spec size pos); [lia|].
  replace (as_usize 32 (size - pos)) with 2048%Z
    by (unfold as_usize; replace (size - pos)%Z with (2048 + 1 * 2 ^ 32)%Z by lia; by rewrite Z.mod_add).
  rewrite (Nat.min_r _ (Z.to_nat 2048)) by lia.
  rewrite (fill_once pos (Z.to_nat 2048) r r' bs) by (done || lia).
  rewrite Hl, Nat.ltb_irrefl. cbn [snd]. by replace (Z.of_nat _) with 2048%Z by lia.
Qed.

(** ** The bridge to the browser *)

(** A failed send leaves the bridge busy: every later read is refused. *)
Lemma failed_send_wedges_bridge off len msgs t t' :
  sender t = Some false -> in_flight t = false -> (0 <= off)%Z -> (0 < len)%Z ->
  bridge_read off len msgs t = (t', Err SendRequestFailed) ->
  ∀ ok off' len' msgs', (0 <= off')%Z -> (0 < len')%Z ->
    (bridge_read off' len' msgs' (webrtc_disk_set_sender ok t')).2 = Err ConcurrentRead.
Proof.
  intros Hs Hf Hoff Hlen. unfold bridge_read. rewrite Hs, Hf.
  destruct (Z.ltb_spec off 0); [lia|]. destruct (Z.leb_spec len 0); [lia|]. cbn.
  intros [= <-] ok off' len' msgs' Ho Hl.
  destruct (Z.ltb_spec off' 0); [lia|]. destruct (Z.leb_spec len' 0); [lia|]. done.
Qed.

(** Data of a read that timed out is taken for the answer to the next one: the
    header that says where it belongs is cut off unread. *)
Lemma late_data_answers_next_read late t :
  sender t = Some true -> in_flight t = false -> length late = 20%nat ->
  let '(t1, r1) := bridge_read 0 4 [] t in
  r1 = Err DiskTimeout
  /\ (bridge_read 4096 4 [late] t1).2 = Ok (drop 16 late).
Proof.
  intros Hs Hf Hl. destruct t as [s f b]. cbn in Hs, Hf. subst s f.
  do 20 (destruct late as [|? late]; [done|]). destruct late; [|done]. by split.
Qed.
