(* ===== verification/Uploads.v ===== *)
(** * Uploads of images (hardware/usb/storage.rs, web.rs, data_channel.rs)

    A session appends to [<name>.incomplete] and becomes [<name>] when all
    bytes are there.  Sessions are active or closed; a closed one is resumed by
    the next start for its file.

    The file system has directory entries and files behind them, since an open
    handle follows the file and not its name.  The environment of an operation
    says which calls succeed; a write that fails may have written a part, and
    since [tokio] writes in the background, the call after it may be the one
    that reports the failure. *)

From S2P Require Import Prelude Text Paths.

(** ** File system *)

Record Fs := mkFs {
  dir : gmap string nat;
  inodes : gmap nat (list Z);
  next_inode : nat
}.

Definition fs_exists (p : string) (f : Fs) : bool := bool_decide (is_Some (dir f !! p)).

Definition inode_data (i : nat) (f : Fs) : list Z := default [] (inodes f !! i).

Definition fs_read (p : string) (f : Fs) : option (list Z) := (fun i => inode_data i f) <$> dir f !! p.

Definition fs_len (p : string) (f : Fs) : Z := Z.of_nat (length (default [] (fs_read p f))).

Definition fs_append (i : nat) (bytes : list Z) (f : Fs) : Fs :=
  mkFs (dir f) (<[i := inode_data i f ++ bytes]> (inodes f)) (next_inode f).

(** [OpenOptions::append(true).create(true)]. *)
Definition fs_create (p : string) (f : Fs) : Fs * nat :=
  match dir f !! p with
  | Some i => (f, i)
  | None => (mkFs (<[p := next_inode f]> (dir f)) (<[next_inode f := []]> (inodes f)) (S (next_inode f)),
             next_inode f)
  end.

Definition fs_remove (p : string) (f : Fs) : Fs :=
  mkFs (delete p (dir f)) (inodes f) (next_inode f).

Definition fs_rename (a b : string) (f : Fs) : Fs :=
  match dir f !! a with
  | Some i => mkFs (<[b := i]> (delete a (dir f))) (inodes f) (next_inode f)
  | None => f
  end.

(** ** Sessions *)

(** [tokio::fs::File]: [h_late], the last write has failed in the background and
    the next call on the handle will say so. *)
Record Handle := mkHandle { h_inode : nat; h_late : bool }.

Definition open_handle (i : nat) : Handle := mkHandle i false.

Record PendingUpload := mkUpload {
  u_file : option Handle;
  u_size : Z;
  u_already : Z;
  u_upload_path : string;
  u_final_path : string;
  u_channel_open : bool
}.

Record UploadState := mkUploads {
  ufs : Fs;
  pending : gmap string PendingUpload;
  closed : gmap string PendingUpload;
  uploads_drawn : nat
}.

Definition set_ufs (f : Fs) (s : UploadState) : UploadState :=
  mkUploads f (pending s) (closed s) (uploads_drawn s).
Definition set_pending (m : gmap string PendingUpload) (s : UploadState) : UploadState :=
  mkUploads (ufs s) m (closed s) (uploads_drawn s).
Definition set_closed (m : gmap string PendingUpload) (s : UploadState) : UploadState :=
  mkUploads (ufs s) (pending s) m (uploads_drawn s).

Definition with_already (n : Z) (u : PendingUpload) : PendingUpload :=
  mkUpload (u_file u) (u_size u) n (u_upload_path u) (u_final_path u) (u_channel_open u).
Definition with_file (f : option Handle) (u : PendingUpload) : PendingUpload :=
  mkUpload f (u_size u) (u_already u) (u_upload_path u) (u_final_path u) (u_channel_open u).
Definition with_channel (b : bool) (u : PendingUpload) : PendingUpload :=
  mkUpload (u_file u) (u_size u) (u_already u) (u_upload_path u) (u_final_path u) b.

Definition final_path_of (filename : string) : string := path_join IMAGES_FOLDER filename.
Definition upload_path_of (filename : string) : string := final_path_of filename +:+ ".incomplete".

Definition UM (A : Type) : Type := SE UploadState string A.

(** Which calls of [start_storage_file_upload] succeed. *)
Record StartEnv := mkStartEnv {
  mkdir_ok : bool; stat_ok : bool; discard_ok : bool; open_ok : bool }.

Definition bytes_within_size (already size : Z) (data : list Z) : list Z :=
  if (size <=? already)%Z then []
  else
    let room := (size - already)%Z in
    if (Z.of_nat (length data) <=? room)%Z then data else take (Z.to_nat room) data.

Section uploads.
(** Fresh identifiers, and the iteration order of a hash map. *)
Context (new_v4 : nat -> string).
Context (order : gmap string PendingUpload -> list (string * PendingUpload)).

Definition fresh_upload_id : UM string :=
  fun s => (mkUploads (ufs s) (pending s) (closed s) (S (uploads_drawn s)),
            Ok ("upload_" +:+ new_v4 (uploads_drawn s))).

Definition find_session (p : PendingUpload -> bool) (m : gmap string PendingUpload)
  : option (string * PendingUpload) :=
  List.find (fun '(_, u) => p u) (order m).

Definition same_path (path : string) (u : PendingUpload) : bool := String.eqb (u_upload_path u) path.

(** Drop the sessions that satisfy [p]. *)
Definition drop_sessions (p : PendingUpload -> bool) (m : gmap string PendingUpload)
  : gmap string PendingUpload :=
  filter (fun '(_, u) => p u = false) m.

(** The resumable branch: the incomplete file is there and not too long. *)
Definition resume_upload (env : StartEnv) (upload_path final_path : string) (size disk_size : Z)
  : UM (Z * string) :=
  let! s := se_get id in
  let matched := find_session (fun u => String.eqb (u_final_path u) final_path
                                        && same_path upload_path u && (u_size u =? size)%Z) (closed s) in
  let! upload_id := match matched with Some (id, _) => se_ret id | None => fresh_upload_id end in
  let! entry :=
    match closed s !! upload_id with
    | Some u =>
        se_modify (set_closed (delete upload_id (closed s))) ;;;
        se_ret (mkUpload (u_file u) size (u_already u) (u_upload_path u) (u_final_path u) false)
    | None =>
        se_modify (set_closed (drop_sessions (same_path upload_path) (closed s))) ;;;
        se_ret (mkUpload None size disk_size upload_path final_path false)
    end in
  let entry := with_already disk_size entry in
  let! s := se_get id in
  if negb (open_ok env) then
    (if bool_decide (is_Some matched)
     then se_modify (set_closed (<[upload_id := entry]> (closed s))) else se_ret tt) ;;;
    se_throw "failed to reopen partial upload"
  else
    let entry := with_file (open_handle <$> dir (ufs s) !! upload_path) entry in
    se_modify (set_pending (<[upload_id := entry]> (pending s))) ;;;
    se_ret (disk_size, upload_id).

(** An incomplete file that is too long is discarded with its sessions. *)
Definition discard_overshot (env : StartEnv) (upload_path : string) : UM unit :=
  let! s := se_get id in
  se_guard (existsb (fun '(_, u) => same_path upload_path u && u_channel_open u) (map_to_list (pending s)))
    "upload already in progress" ;;;
  se_modify (fun s => set_closed (drop_sessions (same_path upload_path) (closed s))
    (set_pending (drop_sessions (fun u => same_path upload_path u && negb (u_channel_open u)) (pending s)) s)) ;;;
  se_guard (negb (discard_ok env)) "failed to remove overshot upload" ;;;
  se_modify (fun s => set_ufs (fs_remove upload_path (ufs s)) s).

Definition create_upload (env : StartEnv) (upload_path final_path : string) (size : Z) : UM (Z * string) :=
  se_guard (negb (open_ok env)) "failed to open file for upload" ;;;
  let! file := (fun s => let '(f, i) := fs_create upload_path (ufs s) in (set_ufs f s, Ok i)) in
  let! upload_id := fresh_upload_id in
  se_modify (fun s => set_pending
    (<[upload_id := mkUpload (Some (open_handle file)) size 0 upload_path final_path false]> (pending s)) s) ;;;
  se_ret (0%Z, upload_id).

Definition start_storage_file_upload (env : StartEnv) (name : string) (size : Z) : UM (Z * string) :=
  let! filename := se_of_result (sanitize_filename name) in
  se_guard (negb (mkdir_ok env)) "failed to create images folder" ;;;
  let final_path := final_path_of filename in
  let upload_path := upload_path_of filename in
  let! s := se_get id in
  se_guard (fs_exists final_path (ufs s)) ("file already exists: " +:+ filename) ;;;
  se_guard (fs_exists upload_path (ufs s) && negb (stat_ok env)) "stat failed" ;;;
  let disk_size := if fs_exists upload_path (ufs s) then fs_len upload_path (ufs s) else 0%Z in
  match find_session (fun u => same_path upload_path u && (u_size u =? size)%Z) (pending s) with
  | Some (upload_id, entry) =>
      se_guard (u_channel_open entry) "upload already in progress" ;;;
      se_guard (size <? disk_size)%Z "incomplete upload larger than expected size" ;;;
      se_modify (set_pending (<[upload_id := with_already disk_size entry]> (pending s))) ;;;
      se_ret (disk_size, upload_id)
  | None =>
      if fs_exists upload_path (ufs s) then
        if (size <? disk_size)%Z
        then discard_overshot env upload_path ;;; create_upload env upload_path final_path size
        else resume_upload env upload_path final_path size disk_size
      else create_upload env upload_path final_path size
  end.

Definition get_session (upload_id : string) : UM PendingUpload :=
  fun s => (s, ok_or (pending s !! upload_id) "upload not found").

Definition put_session (upload_id : string) (u : PendingUpload) : UM unit :=
  se_modify (fun s => set_pending (<[upload_id := u]> (pending s)) s).

Definition claim_upload_channel (upload_id : string) : UM unit :=
  let! entry := get_session upload_id in
  se_guard (u_channel_open entry) "upload already in progress" ;;;
  put_session upload_id (with_channel true entry).

(** A write: all bytes, or an error after some of them, which the call reports
    itself or ([WriteLost]) leaves to the next call on the handle. *)
Inductive WriteOutcome : Set := WroteAll | WriteFailed (n : nat) | WriteLost (n : nat).

Definition is_lost (w : WriteOutcome) : bool := match w with WriteLost _ => true | _ => false end.

(** What gets to the file. *)
Definition stored (w : WriteOutcome) (data : list Z) : list Z :=
  match w with WroteAll => data | WriteFailed n | WriteLost n => take n data end.

Definition append_upload_data (w : WriteOutcome) (upload_id : string) (data : list Z) : UM (Z * Z) :=
  let! entry := get_session upload_id in
  let data := bytes_within_size (u_already entry) (u_size entry) data in
  match data with
  | [] => se_ret (u_size entry, u_already entry)
  | _ =>
      match u_file entry with
      | None => se_throw "upload file handle not open"
      | Some h =>
          if h_late h then
            put_session upload_id (with_file (Some (open_handle (h_inode h))) entry) ;;;
            se_throw "failed to write upload"
          else
            se_modify (fun s => set_ufs (fs_append (h_inode h) (stored w data) (ufs s)) s) ;;;
            match w with
            | WriteFailed _ => se_throw "failed to write upload"
            | _ =>
                let already := (u_already entry + Z.of_nat (length data))%Z in
                put_session upload_id (with_already already (with_file (Some (mkHandle (h_inode h) (is_lost w))) entry)) ;;;
                se_ret (u_size entry, already)
            end
      end
  end.

Record CompleteEnv := mkCompleteEnv {
  stat1_ok : bool; flush_ok : bool; sync_ok : bool; stat2_ok : bool;
  rename_ok : bool; reopen_ok : bool; unlink_ok : bool }.

(** The flush reports a failure that is left, once. *)
Definition flush_upload (env : CompleteEnv) (upload_id : string) (entry : PendingUpload) : UM unit :=
  match u_file entry with
  | Some h =>
      if h_late h || negb (flush_ok env)
      then put_session upload_id (with_file (Some (open_handle (h_inode h))) entry) ;;; se_throw "failed to flush upload"
      else se_guard (negb (sync_ok env)) "failed to sync upload"
  | None => se_ret tt
  end.

Definition complete_upload (env : CompleteEnv) (upload_id : string) : UM Z :=
  let! entry := get_session upload_id in
  let upload_path := u_upload_path entry in
  let final_path := u_final_path entry in
  let size := u_size entry in
  let! s := se_get id in
  let exists_ := fs_exists upload_path (ufs s) in
  se_guard (exists_ && negb (stat1_ok env)) "stat failed" ;;;
  flush_upload env upload_id entry ;;;
  se_guard (exists_ && negb (stat2_ok env)) "stat failed" ;;;
  let already := if exists_ then fs_len upload_path (ufs s) else 0%Z in
  let entry := with_already already entry in
  put_session upload_id entry ;;;
  if (already =? size)%Z then
    put_session upload_id (with_file None entry) ;;;
    if negb (rename_ok env && exists_) then
      (if reopen_ok env && exists_
       then put_session upload_id (with_channel false (with_file (open_handle <$> dir (ufs s) !! upload_path) entry))
       else se_ret tt) ;;;
      se_throw "failed to rename uploaded file"
    else
      se_modify (fun s => set_pending (delete upload_id (pending s))
                            (set_ufs (fs_rename upload_path final_path (ufs s)) s)) ;;;
      se_ret already
  else if (size <? already)%Z then
    se_modify (fun s => set_pending (delete upload_id (pending s))
      (set_ufs (if unlink_ok env then fs_remove upload_path (ufs s) else ufs s) s)) ;;;
    se_ret 0%Z
  else
    se_modify (fun s => set_closed (<[upload_id := with_channel false (with_file None entry)]> (closed s))
                          (set_pending (delete upload_id (pending s)) s)) ;;;
    se_ret already.

Definition get_upload_progress (upload_id : string) : UM (Z * Z) :=
  let! entry := get_session upload_id in se_ret (u_size entry, u_already entry).

Definition cancel_vm_upload (unlink : bool) (name : string) : UM unit :=
  let! filename := se_of_result (sanitize_filename name) in
  let upload_path := upload_path_of filename in
  se_modify (fun s => set_closed (drop_sessions (same_path upload_path) (closed s))
                        (set_pending (drop_sessions (same_path upload_path) (pending s)) s)) ;;;
  let! s := se_get id in
  if fs_exists upload_path (ufs s) then
    se_guard (negb unlink) "failed to remove file" ;;;
    se_modify (fun s => set_ufs (fs_remove upload_path (ufs s)) s)
  else se_ret tt.

Definition delete_storage_file (unlink unlink2 : bool) (name : string) : UM unit :=
  let! filename := se_of_result (sanitize_filename name) in
  cancel_vm_upload unlink name ;;;
  let! s := se_get id in
  if fs_exists (final_path_of filename) (ufs s) then
    se_guard (negb unlink2) "failed to delete file" ;;;
    se_modify (fun s => set_ufs (fs_remove (final_path_of filename) (ufs s)) s)
  else se_ret tt.

(** ** Upload over HTTP (web.rs) *)

Inductive BodyFrame : Set :=
| FrameError
| DataFrame (w : WriteOutcome) (bytes : list Z)
| OtherFrame.

Inductive UploadReply : Set :=
| UploadNotFound | UploadReadFailed | UploadWriteFailed | UploadFinalizeFailed
| UploadCompleted | UploadPartial (already size : Z).

(** [let _ = complete_upload(..)]. *)
Definition try_complete (env : CompleteEnv) (upload_id : string) (s : UploadState) : UploadState :=
  (complete_upload env upload_id s).1.

Fixpoint upload_body (env : CompleteEnv) (upload_id : string) (frames : list BodyFrame) (s : UploadState)
  : UploadState * option UploadReply :=
  match frames with
  | [] => (s, None)
  | FrameError :: _ => (try_complete env upload_id s, Some UploadReadFailed)
  | OtherFrame :: frames | DataFrame _ [] :: frames => upload_body env upload_id frames s
  | DataFrame w bytes :: frames =>
      match append_upload_data w upload_id bytes s with
      | (s, Ok _) => upload_body env upload_id frames s
      | (s, Err _) => (try_complete env upload_id s, Some UploadWriteFailed)
      end
  end.

Definition handle_storage_upload (env : CompleteEnv) (upload_id : string) (frames : list BodyFrame)
    (s : UploadState) : UploadState * UploadReply :=
  if is_empty upload_id then (s, UploadNotFound) else
  match get_upload_progress upload_id s with
  | (s, Err _) => (s, UploadNotFound)
  | (s, Ok (size, _)) =>
      match upload_body env upload_id frames s with
      | (s, Some r) => (s, r)
      | (s, None) =>
          match complete_upload env upload_id s with
          | (s, Ok durable) =>
              (s, if (durable =? size)%Z then UploadCompleted else UploadPartial durable size)
          | (s, Err _) => (s, UploadFinalizeFailed)
          end
      end
  end.

(** ** Upload over a data channel (data_channel.rs) *)

Inductive ChannelEvent : Set :=
| OnMessage (w : WriteOutcome) (data : list Z)
| OnChannelError
| OnClose
| OnOtherEvent.

(** Whether the upload is complete; a failed chunk is logged and skipped. *)
Definition write_storage_chunk (w : WriteOutcome) (upload_id : string) (data : list Z) (s : UploadState)
  : UploadState * bool :=
  match append_upload_data w upload_id data s with
  | (s, Err _) => (s, false)
  | (s, Ok (size, already)) => (s, (size <=? already)%Z)
  end.

Fixpoint channel_loop (env : CompleteEnv) (upload_id : string) (finished : bool)
    (events : list ChannelEvent) (s : UploadState) : UploadState :=
  match events with
  | [] | OnChannelError :: _ | OnClose :: _ => try_complete env upload_id s
  | OnMessage w data :: events =>
      if finished then channel_loop env upload_id finished events s
      else
        let '(s, done) := write_storage_chunk w upload_id data s in
        channel_loop env upload_id done events s
  | OnOtherEvent :: events => channel_loop env upload_id finished events s
  end.

Definition handle_upload_channel (env : CompleteEnv) (label : string) (events : list ChannelEvent)
    (s : UploadState) : UploadState :=
  if negb (starts_with "upload_" label) then s else
  match claim_upload_channel label s with
  | (s, Err _) => s
  | (s, Ok _) => channel_loop env label false events s
  end.
End uploads.

Lemma fs_len_read p f data : fs_read p f = Some data -> fs_len p f = Z.of_nat (length data).
Proof. unfold fs_len. by intros ->. Qed.

Lemma inode_append_eq i bs f : inode_data i (fs_append i bs f) = inode_data i f ++ bs.
Proof. unfold inode_data, fs_append. cbn. by rewrite lookup_insert_eq. Qed.

Lemma inode_append_ne i j bs f : i ≠ j -> inode_data j (fs_append i bs f) = inode_data j f.
Proof. intros. unfold inode_data, fs_append. cbn. by rewrite lookup_insert_ne. Qed.

Lemma suffixed_ne (s t : string) : t ≠ "" -> s +:+ t ≠ s.
Proof.
  intros Ht H. apply (f_equal String.length) in H. rewrite str_length_app in H.
  destruct t; [done|]. cbn in H. lia.
Qed.

Lemma upload_path_ne f : upload_path_of f ≠ final_path_of f.
Proof. by apply suffixed_ne. Qed.

(** What [bytes_within_size] keeps fits in the room. *)
Lemma within_size_all already size data :
  (already + Z.of_nat (length data) <= size)%Z -> bytes_within_size already size data = data.
Proof.
  intros. unfold bytes_within_size. destruct (Z.leb_spec size already).
  - destruct data; [done|]. cbn in *. lia.
  - destruct (Z.leb_spec (Z.of_nat (length data)) (size - already)); [done|lia].
Qed.

Section one_file.
Context (new_v4 : nat -> string) (order : gmap string PendingUpload -> list (string * PendingUpload)).
Context (Hinj : Inj eq eq new_v4) (Horder : ∀ m, order m ≡ₚ map_to_list m).
Context (name filename : string) (Hname : sanitize_filename name = Ok filename).
Context (src : list Z).
Local Abbreviation up := (upload_path_of filename).
Local Abbreviation fp := (final_path_of filename).
Local Abbreviation size := (Z.of_nat (length src)).

Lemma find_session_some p m id u :
  find_session order p m = Some (id, u) -> m !! id = Some u /\ p u = true.
Proof.
  unfold find_session. intros [Hin Hp]%find_some. split; [|done].
  apply elem_of_map_to_list. rewrite <- (Horder m). by apply list_elem_of_In.
Qed.

Lemma find_session_none p m :
  find_session order p m = None -> ∀ id u, m !! id = Some u -> p u = false.
Proof.
  unfold find_session. intros Hf id u Hu.
  apply (find_none _ _ Hf (id, u)). apply list_elem_of_In. rewrite (Horder m).
  by apply elem_of_map_to_list.
Qed.

(** A session of the file: its handle follows the incomplete file, or it has
    none left because all bytes are there. *)
Definition session_ok (u : PendingUpload) (f : Fs) : Prop :=
  u_size u = size /\ u_final_path u = fp /\ u_channel_open u = false
  /\ ∃ i, dir f !! up = Some i
          /\ (h_inode <$> u_file u = Some i \/ (u_file u = None /\ fs_len up f = size)).

Record FsInv (f : Fs) : Prop := {
  fi_up : ∀ i, dir f !! up = Some i -> ∃ k, inode_data i f = take k src;
  fi_fp : ∀ j, dir f !! fp = Some j -> inode_data j f = src;
  fi_ne : ∀ i j, dir f !! up = Some i -> dir f !! fp = Some j -> i ≠ j;
  fi_next : ∀ p i, dir f !! p = Some i -> (i < next_inode f)%nat
}.

(** [id] was handed out before. *)
Definition drawn (id : string) (s : UploadState) : Prop :=
  ∃ n, (n < uploads_drawn s)%nat /\ id = "upload_" +:+ new_v4 n.

Record UploadInv (s : UploadState) : Prop := {
  ui_fs : FsInv (ufs s);
  ui_pending : ∀ id u, pending s !! id = Some u -> u_upload_path u = up -> session_ok u (ufs s);
  ui_unique : ∀ id1 id2 u1 u2, pending s !! id1 = Some u1 -> pending s !! id2 = Some u2 ->
                u_upload_path u1 = up -> u_upload_path u2 = up -> id1 = id2;
  ui_closed : ∀ id u, closed s !! id = Some u -> u_upload_path u = up ->
                u_size u = size /\ u_final_path u = fp;
  ui_drawn : ∀ id, is_Some (pending s !! id) \/ is_Some (closed s !! id) -> drawn id s
}.

(** [id] is the session of the file and knows how much of it is there. *)
Definition active (id : string) (s : UploadState) : Prop :=
  ∃ u, pending s !! id = Some u /\ u_upload_path u = up /\ u_already u = fs_len up (ufs s).

(** [id] has a failure of the drive still to report. *)
Definition owed (id : string) (s : UploadState) : Prop :=
  ∃ u h, pending s !! id = Some u /\ u_upload_path u = up /\ u_file u = Some h /\ h_late h = true.

Definition clean (id : string) (s : UploadState) : Prop :=
  ∀ u h, pending s !! id = Some u -> u_file u = Some h -> h_late h = false.

Lemma fs_len_up f : FsInv f -> (0 <= fs_len up f <= size)%Z.
Proof.
  intros Hf. unfold fs_len, fs_read. destruct (dir f !! up) as [i|] eqn:Ei; cbn; [|lia].
  destruct (fi_up _ Hf i Ei) as [k ->]. rewrite length_take. lia.
Qed.

(** The incomplete file when it is there. *)
Lemma up_prefix f i :
  FsInv f -> dir f !! up = Some i -> inode_data i f = take (Z.to_nat (fs_len up f)) src.
Proof.
  intros Hf Hi. destruct (fi_up _ Hf i Hi) as [k Hk].
  assert (Hl : fs_len up f = Z.of_nat (length (take k src))).
  { unfold fs_len, fs_read. rewrite Hi. cbn. by rewrite Hk. }
  rewrite Hl, Nat2Z.id, Hk, length_take. destruct (decide (k <= length src)%nat).
  - by rewrite Nat.min_l.
  - rewrite Nat.min_r, !take_ge by lia. done.
Qed.

(** Replacing the session of the file keeps the invariant. *)
Lemma put_inv id u s :
  UploadInv s -> drawn id s -> u_upload_path u = up -> session_ok u (ufs s) ->
  (∀ id' u', pending s !! id' = Some u' -> u_upload_path u' = up -> id' = id) ->
  UploadInv (set_pending (<[id := u]> (pending s)) s).
Proof.
  intros [Hf Hp Hu Hc Hdr] Hd Hpath Hok Honly. split; cbn [ufs pending closed set_pending]; [done| | |done|].
  - intros id' u' [[<- <-]|[Hne Hl]]%lookup_insert_Some Hu'; [done|by apply (Hp id')].
  - intros id1 id2 u1 u2 [[<- <-]|[Hne1 H1]]%lookup_insert_Some [[<- <-]|[Hne2 H2]]%lookup_insert_Some P1 P2;
      [done|by rewrite (Honly _ _ H2 P2)|by rewrite (Honly _ _ H1 P1)|by eapply Hu].
  - intros id' [[x [[<- _]|[_ Hx]]%lookup_insert_Some]|Hx]; [done|apply Hdr; eauto..].
Qed.

Lemma drop_pending_inv id s : UploadInv s -> UploadInv (set_pending (delete id (pending s)) s).
Proof.
  intros [Hf Hp Hu Hc Hdr]. split; cbn [ufs pending closed set_pending]; [done| | |done|].
  - intros id' u' [_ Hl]%lookup_delete_Some. by apply (Hp id').
  - intros id1 id2 u1 u2 [_ H1]%lookup_delete_Some [_ H2]%lookup_delete_Some. by eapply Hu.
  - intros id' [[x [_ Hx]%lookup_delete_Some]|Hx]; apply Hdr; eauto.
Qed.

(** ** Appending *)

Lemma append_fs_inv f i bs m :
  FsInv f -> dir f !! up = Some i -> bs = take m (drop (Z.to_nat (fs_len up f)) src) ->
  FsInv (fs_append i bs f)
  /\ fs_len up (fs_append i bs f) = (fs_len up f + Z.of_nat (length bs))%Z.
Proof.
  intros Hf Hi Hbs. pose proof (up_prefix f i Hf Hi) as Hk. pose proof (fs_len_up f Hf) as Hl.
  set (k := Z.to_nat (fs_len up f)) in *.
  assert (Hd : inode_data i (fs_append i bs f) = take (k + m) src).
  { rewrite inode_append_eq, Hk, Hbs. by rewrite take_take_drop. }
  split; [split|].
  - cbn. intros i' Hi'. rewrite Hi in Hi'. injection Hi' as <-. eauto.
  - cbn. intros j Hj. rewrite inode_append_ne by (eapply fi_ne; eauto). by apply (fi_fp _ Hf).
  - cbn. by apply (fi_ne _ Hf).
  - cbn. by apply (fi_next _ Hf).
  - unfold fs_len, fs_read at 1. cbn [dir fs_append]. rewrite Hi. cbn [fmap option_fmap option_map default from_option id].
    rewrite inode_append_eq, length_app. unfold fs_len, fs_read. rewrite Hi. cbn. lia.
Qed.

(** The sessions of the file in a state whose file grew. *)
Lemma grown_inv id u i f s :
  UploadInv s -> pending s !! id = Some u -> u_upload_path u = up -> h_inode <$> u_file u = Some i ->
  dir f = dir (ufs s) -> FsInv f -> UploadInv (set_ufs f s).
Proof.
  intros [Hf Hp Hu Hc Hdr] Hid Hpath Hfile Hdir Hf'. split; cbn [ufs pending closed set_ufs]; [done| |done..].
  intros id' u' Hid' Hpath'. assert (id' = id) as -> by (by eapply Hu).
  rewrite Hid in Hid'. injection Hid' as <-.
  destruct (Hp id u Hid Hpath) as (H1 & H2 & H3 & i' & Hi' & Hfi).
  split_and!; [done..|]. exists i'. rewrite Hdir. split; [done|]. left.
  destruct Hfi as [|[Hn _]]; [done|]. by rewrite Hn in Hfile.
Qed.

(** The session with another handle on the same file. *)
Lemma put_handle_inv id u h h' n s :
  UploadInv s -> pending s !! id = Some u -> u_upload_path u = up -> u_file u = Some h -> h_inode h' = h_inode h ->
  UploadInv (set_pending (<[id := with_already n (with_file (Some h') u)]> (pending s)) s).
Proof.
  intros HI Hu Hpath Hfile Hh. pose proof HI as [_ Hp Hun _ Hdr].
  destruct (Hp id u Hu Hpath) as (H1 & H2 & H3 & i & Hi & Hfi). rewrite Hfile in Hfi.
  apply put_inv; [done|by apply Hdr; eauto|done| |].
  - split_and!; [done..|]. exists i. split; [done|]. left. cbn. rewrite Hh. by destruct Hfi as [|[? _]].
  - intros id' u' H4 H5. by eapply Hun.
Qed.

Lemma append_ok w id data s s' r :
  UploadInv s -> active id s -> data ≠ [] ->
  (∃ m, data = take m (drop (Z.to_nat (fs_len up (ufs s))) src)) ->
  append_upload_data w id data s = (s', r) ->
  UploadInv s' /\ (∃ u, pending s' !! id = Some u /\ u_upload_path u = up)
  /\ (is_ok r = true ->
      if is_lost w then owed id s'
      else active id s' /\ clean id s' /\ fs_len up (ufs s') = (fs_len up (ufs s) + Z.of_nat (length data))%Z)
  /\ (w = WroteAll -> clean id s -> is_ok r = true).
Proof.
  intros HI (u & Hu & Hpath & Hal) Hne [m Hdata]. pose proof HI as [Hf Hp _ _ Hdr].
  pose proof (fs_len_up _ Hf) as Hlen.
  destruct (Hp id u Hu Hpath) as (Hsz & Hfp & Hco & i & Hi & Hfile).
  assert (Hd : (fs_len up (ufs s) + Z.of_nat (length data) <= size)%Z)
    by (rewrite Hdata, length_take, length_drop; lia).
  unfold append_upload_data, put_session. se_unfold. unfold get_session. rewrite Hu. cbn [ok_or].
  rewrite Hal, Hsz, within_size_all by done. destruct data as [|b data]; [done|].
  destruct Hfile as [Hfile|[_ Hfull]]; [|cbn in Hd; lia].
  destruct (u_file u) as [h|] eqn:Eh; [|done]. injection Hfile as Hih.
  set (d := b :: data) in *. destruct (h_late h) eqn:El.
  { intros H. injection H as <- <-. split_and!; [|eexists; cbn; by rewrite lookup_insert_eq|done|].
    - pose proof (put_handle_inv id u h (open_handle (h_inode h)) (u_already u) s HI Hu Hpath Eh eq_refl) as HI'.
      by replace (with_file _ u) with (with_already (u_already u) (with_file (Some (open_handle (h_inode h))) u)) by (by destruct u).
    - intros _ Hcl. specialize (Hcl u h Hu Eh). congruence. }
  assert (Hst : ∃ m', stored w d = take m' (drop (Z.to_nat (fs_len up (ufs s))) src)).
  { destruct w as [|n|n]; [by exists m|exists (Nat.min n m)..]; cbn [stored]; by rewrite Hdata, take_take. }
  destruct Hst as [m' Hm']. rewrite Hih.
  destruct (append_fs_inv (ufs s) i (stored w d) m' Hf Hi Hm') as [Hf' Hl'].
  set (s1 := set_ufs (fs_append i (stored w d) (ufs s)) s).
  assert (HI1 : UploadInv s1) by (eapply (grown_inv id u i); try done; by rewrite Eh; cbn; f_equal).
  destruct (match w with WriteFailed _ => true | _ => false end) eqn:Ew.
  - destruct w as [|n|n]; try done. intros H. injection H as <- <-. split_and!; [done|by exists u|done|done].
  - assert (Hx : ∀ x : UploadState * Result string (Z * Z), x = (set_pending (<[id := with_already (fs_len up (ufs s) + Z.of_nat (length d)) (with_file (Some (mkHandle i (is_lost w))) u)]> (pending s1)) s1,
       Ok (size, (fs_len up (ufs s) + Z.of_nat (length d))%Z)) -> x = (s', r) ->
       UploadInv s' /\ (∃ u, pending s' !! id = Some u /\ u_upload_path u = up)
       /\ (is_ok r = true -> if is_lost w then owed id s'
           else active id s' /\ clean id s' /\ fs_len up (ufs s') = (fs_len up (ufs s) + Z.of_nat (length d))%Z)
       /\ (w = WroteAll -> clean id s -> is_ok r = true)); [|destruct w as [|n|n]; try done; eapply Hx; reflexivity].
    intros x -> H. injection H as <- <-. split_and!.
    + by apply (put_handle_inv id u h (mkHandle i (is_lost w)) _ s1).
    + eexists. cbn. rewrite lookup_insert_eq. split; [done|done].
    + intros _. destruct w as [|n|n]; [|done|].
      * split_and!; [| |exact Hl'].
        -- eexists. cbn. rewrite lookup_insert_eq. split_and!; [done|done|]. cbn. symmetry. exact Hl'.
        -- intros u' h'. cbn. rewrite lookup_insert_eq. by intros [= <-] [= <-].
      * exists (with_already (fs_len up (ufs s) + Z.of_nat (length d)) (with_file (Some (mkHandle i true)) u)), (mkHandle i true).
        cbn. rewrite lookup_insert_eq. by split_and!.
    + done.
Qed.

(** After a lost write nothing more is stored before the failure is told. *)
Lemma append_owed w id data s s' r :
  UploadInv s -> owed id s -> append_upload_data w id data s = (s', r) ->
  UploadInv s' /\ (∃ u, pending s' !! id = Some u /\ u_upload_path u = up) /\ (is_ok r = true -> owed id s').
Proof.
  intros HI (u & h & Hu & Hpath & Hh & Hl). unfold append_upload_data, put_session, get_session. se_unfold.
  rewrite Hu. cbn [ok_or]. destruct (bytes_within_size _ _ _).
  { intros H. injection H as <- <-. split_and!; [done|eauto|]. intros _. by exists u, h. }
  rewrite Hh, Hl. intros H. injection H as <- <-. split_and!; [|eexists; cbn; by rewrite lookup_insert_eq|done].
  pose proof (put_handle_inv id u h (open_handle (h_inode h)) (u_already u) s HI Hu Hpath Hh eq_refl) as HI'.
  by replace (with_file _ u) with (with_already (u_already u) (with_file (Some (open_handle (h_inode h))) u)) by (by destruct u).
Qed.

(** ** Completing *)

Lemma rename_inv s id u i :
  UploadInv s -> pending s !! id = Some u -> u_upload_path u = up ->
  dir (ufs s) !! up = Some i -> fs_len up (ufs s) = size ->
  UploadInv (set_pending (delete id (pending s)) (set_ufs (fs_rename up fp (ufs s)) s))
  /\ fs_read fp (fs_rename up fp (ufs s)) = Some src.
Proof.
  intros [Hf Hp Hun Hc Hdr] Hu Hpath Hi Hl. pose proof (upload_path_ne filename) as Hne.
  pose proof (up_prefix _ i Hf Hi) as Hd. rewrite Hl, Nat2Z.id, take_ge in Hd by lia.
  assert (Hr : fs_rename up fp (ufs s)
               = mkFs (<[fp := i]> (delete up (dir (ufs s)))) (inodes (ufs s)) (next_inode (ufs s)))
    by (unfold fs_rename; by rewrite Hi).
  rewrite Hr. split.
  - split; cbn [ufs pending closed set_pending set_ufs]; [split; cbn [dir next_inode]| | |done|].
    + intros i'. rewrite lookup_insert_ne, lookup_delete_eq by done. done.
    + intros j. rewrite lookup_insert_eq. intros [= <-]. exact Hd.
    + intros i' j. rewrite lookup_insert_ne, lookup_delete_eq by done. done.
    + intros p j [[<- <-]|[_ [_ Hj]%lookup_delete_Some]]%lookup_insert_Some; by eapply fi_next.
    + intros id' u' [Hn Hu']%lookup_delete_Some Hp'. destruct Hn. by eapply Hun.
    + intros id1 id2 u1 u2 [_ H1]%lookup_delete_Some [_ H2]%lookup_delete_Some. by eapply Hun.
    + intros id' [[x [_ Hx]%lookup_delete_Some]|Hx]; apply Hdr; eauto.
  - unfold fs_read. cbn [dir]. rewrite lookup_insert_eq. cbn. f_equal. exact Hd.
Qed.

Lemma closed_inv s id u :
  UploadInv s -> drawn id s -> u_size u = size -> u_final_path u = fp ->
  UploadInv (set_closed (<[id := u]> (closed s)) s).
Proof.
  intros [Hf Hp Hun Hc Hdr] Hd H1 H2. split; cbn [ufs pending closed set_closed]; [done..| |].
  - intros id' u' [[<- <-]|[_ Hu']]%lookup_insert_Some Hpath; [done|by eapply Hc].
  - intros id' [Hx|[x [[<- _]|[_ Hx]]%lookup_insert_Some]]; [apply Hdr; eauto|done|apply Hdr; eauto].
Qed.

Definition all_ok (env : CompleteEnv) : Prop :=
  stat1_ok env = true /\ flush_ok env = true /\ sync_ok env = true /\ stat2_ok env = true
  /\ rename_ok env = true.

(** No session of the file has a failure of the drive still to report. *)
Definition nothing_due (s : UploadState) : Prop :=
  ∀ id u h, pending s !! id = Some u -> u_upload_path u = up -> u_file u = Some h -> h_late h = false.

Lemma nothing_due_without id (m : gmap string PendingUpload) s :
  (∀ id' u', pending s !! id' = Some u' -> u_upload_path u' = up -> id' = id) ->
  (∀ u h, m !! id = Some u -> u_file u = Some h -> h_late h = false) ->
  (∀ id', id' ≠ id -> m !! id' = pending s !! id') -> ∀ f c n, nothing_due (mkUploads f m c n).
Proof.
  intros Honly Hid Hrest f c n id' u' h Hu Hpath Hh. cbn in Hu. destruct (decide (id' = id)) as [->|Hne]; [by eapply Hid|].
  rewrite Hrest in Hu by done. by destruct Hne; eapply Honly.
Qed.

Lemma flush_ok_or env id u s :
  UploadInv s -> pending s !! id = Some u -> u_upload_path u = up ->
  flush_upload env id u s = (s, Ok tt)
  \/ ∃ s1 e, flush_upload env id u s = (s1, Err e) /\ UploadInv s1
       /\ (all_ok env -> ¬ clean id s) /\ (all_ok env -> nothing_due s1).
Proof.
  intros HI Hu Hpath. unfold flush_upload, put_session. se_unfold. destruct (u_file u) as [h|] eqn:Eh; [|by left].
  destruct (h_late h || negb (flush_ok env)) eqn:E.
  - right. eexists _, _. split; [done|]. split_and!.
    + pose proof (put_handle_inv id u h (open_handle (h_inode h)) (u_already u) s HI Hu Hpath Eh eq_refl) as HI'.
      by replace (with_file _ u) with (with_already (u_already u) (with_file (Some (open_handle (h_inode h))) u)) by (by destruct u).
    + intros (_ & Hb & _) Hcl. by rewrite Hb, (Hcl u h Hu Eh) in E.
    + intros _. eapply (nothing_due_without id); [intros; by eapply (ui_unique _ HI)| |].
      * intros u' h'. rewrite lookup_insert_eq. by intros [= <-] [= <-].
      * intros id' Hne. by rewrite lookup_insert_ne.
  - destruct (sync_ok env) eqn:Es; cbn [negb]; [by left|]. right. eexists _, _. split; [done|].
    split_and!; [done|intros (_ & _ & ? & _); congruence..].
Qed.

Lemma complete_ok env id s s' r :
  UploadInv s -> (∃ u, pending s !! id = Some u /\ u_upload_path u = up) ->
  complete_upload env id s = (s', r) ->
  UploadInv s'
  /\ (all_ok env -> clean id s -> fs_len up (ufs s) = size -> r = Ok size /\ fs_read fp (ufs s') = Some src)
  /\ (all_ok env -> nothing_due s').
Proof.
  intros HI (u & Hu & Hpath). pose proof HI as [Hf Hp Hun _ Hdr]. assert (Hid : drawn id s) by (apply Hdr; eauto).
  destruct (Hp id u Hu Hpath) as (Hsz & Hfp & Hco & i & Hi & Hfile).
  assert (Honly : ∀ id' u', pending s !! id' = Some u' -> u_upload_path u' = up -> id' = id)
    by (intros; by eapply Hun).
  assert (Hex : fs_exists up (ufs s) = true) by (unfold fs_exists; rewrite Hi; by apply bool_decide_eq_true).
  unfold complete_upload. se_unfold. unfold get_session, put_session. se_unfold. rewrite Hu. cbn [ok_or Datatypes.id].
  rewrite Hpath, Hex, Hsz, Hfp. cbn [andb].
  destruct (stat1_ok env) eqn:E1; cbn [negb]; [|intros [= <- <-]; split_and!; [done|by intros [? _]; congruence..]].
  destruct (flush_ok_or env id u s HI Hu Hpath) as [->|(s1 & e & -> & HI1 & Hno & Hdue)];
    [|intros [= <- <-]; split_and!; [done|by intros Hok ?%(Hno Hok)|done]].
  destruct (stat2_ok env) eqn:E4; cbn [negb];
    [|intros [= <- <-]; split_and!; [done|intros (_ & _ & _ & Hb & _); congruence..]].
  set (u1 := with_already _ u).
  assert (Hgone : ∀ f c n, nothing_due (mkUploads f (delete id (pending s)) c n)).
  { intros f c n. apply (nothing_due_without id _ s); [exact Honly|by intros u' h; rewrite lookup_delete_eq|].
    intros id' Hne. by rewrite lookup_delete_ne. }
  assert (HI1 : ∀ fl ch, session_ok (with_channel ch (with_file fl u1)) (ufs s) ->
            UploadInv (set_pending (<[id := with_channel ch (with_file fl u1)]> (pending s)) s)).
  { intros fl ch Hok. by apply put_inv. }
  destruct (Z.eqb_spec (fs_len up (ufs s)) size) as [Hl|Hl].
  - destruct (rename_ok env) eqn:E5; cbn [negb andb].
    + intros H. injection H as <- <-. rewrite Hl.
      destruct (rename_inv s id u i HI Hu Hpath Hi Hl) as [HI2 Hr].
      cbn [ufs pending set_pending set_ufs]. rewrite !delete_insert_eq.
      split_and!; [exact HI2|done|]. intros _. apply Hgone.
    + destruct (reopen_ok env); cbn [andb].
      * intros H. injection H as <- <-. cbn [pending set_pending]. rewrite !insert_insert_eq.
        split_and!; [|intros (_ & _ & _ & _ & ?); congruence..].
        apply (HI1 (open_handle <$> dir (ufs s) !! up) false). split_and!; [done..|]. exists i. cbn. rewrite Hi. by split; [|left].
      * intros H. injection H as <- <-. cbn [pending set_pending]. rewrite !insert_insert_eq.
        split_and!; [|intros (_ & _ & _ & _ & ?); congruence..].
        apply (HI1 None (u_channel_open u)). split_and!; [done..|]. exists i. by split; [|right].
  - pose proof (fs_len_up _ Hf). destruct (Z.ltb_spec size (fs_len up (ufs s))); [lia|].
    intros H'. injection H' as <- <-. cbn [pending set_pending]. rewrite !delete_insert_eq.
    split_and!; [|by intros ? ? ?%Hl|intros _; apply Hgone].
    apply (closed_inv (set_pending (delete id (pending s)) s)); [|done..]. by apply drop_pending_inv.
Qed.

(** ** Starting *)

Lemma fresh_not_drawn s : ¬ drawn ("upload_" +:+ new_v4 (uploads_drawn s)) s.
Proof.
  intros (n & Hn & He). assert (Hv : new_v4 (uploads_drawn s) = new_v4 n) by by injection He.
  apply Hinj in Hv. lia.
Qed.

(** Drawing an identifier. *)
Definition draw (s : UploadState) : UploadState :=
  mkUploads (ufs s) (pending s) (closed s) (S (uploads_drawn s)).

Lemma drawn_draw id s : drawn id s -> drawn id (draw s).
Proof. intros (n & Hn & ->). exists n. cbn. split; [lia|done]. Qed.

Lemma drawn_fresh s : drawn ("upload_" +:+ new_v4 (uploads_drawn s)) (draw s).
Proof. exists (uploads_drawn s). cbn. split; [lia|done]. Qed.

Lemma draw_inv s : UploadInv s -> UploadInv (draw s).
Proof. intros [? ? ? ? Hd]. split; try done. intros id Hid. by apply drawn_draw, Hd. Qed.

Lemma shrink_closed_inv m s : UploadInv s -> m ⊆ closed s -> UploadInv (set_closed m s).
Proof.
  intros [Hf Hp Hun Hc Hdr] Hm. split; cbn [ufs pending closed set_closed]; [done..| |].
  - intros id u Hu. apply (Hc id). by eapply lookup_weaken.
  - intros id [Hx|[x Hx]]; apply Hdr; [by left|right; exists x; by eapply lookup_weaken].
Qed.

Definition start_all_ok (env : StartEnv) : Prop :=
  mkdir_ok env = true /\ stat_ok env = true /\ open_ok env = true.

(** What a start must leave behind. *)
Definition started (env : StartEnv) (s : UploadState) (x : UploadState * Result string (Z * string)) : Prop :=
  UploadInv x.1 /\ fs_read fp (ufs x.1) = fs_read fp (ufs s)
  /\ (∀ k id, x.2 = Ok (k, id) -> active id x.1 /\ k = fs_len up (ufs x.1) /\ (nothing_due s -> clean id x.1))
  /\ (start_all_ok env -> is_ok x.2 = true).

(** A file just opened. *)
Lemma clean_fresh id u f m c n i : u_file u = Some (open_handle i) -> clean id (mkUploads f (<[id := u]> m) c n).
Proof. intros Hu u' h. cbn. rewrite lookup_insert_eq. intros [= <-]. rewrite Hu. by intros [= <-]. Qed.

Lemma create_started env s :
  UploadInv s -> dir (ufs s) !! up = None ->
  (∀ id u, pending s !! id = Some u -> u_upload_path u ≠ up) ->
  started env s (create_upload new_v4 env up fp size s).
Proof.
  intros HI Hup Hno. pose proof HI as [Hf Hp Hun Hc Hdr]. pose proof (upload_path_ne filename) as Hne.
  unfold create_upload, fresh_upload_id, fs_create. se_unfold.
  destruct (open_ok env) eqn:Eo; cbn [negb];
    [|split_and!; [done|done|done|intros (_ & _ & ?); congruence]].
  rewrite Hup. cbn [ufs set_ufs]. set (i := next_inode (ufs s)).
  set (f := mkFs (<[up := i]> (dir (ufs s))) (<[i := []]> (inodes (ufs s))) (S i)).
  assert (Hold : ∀ j, (j < i)%nat -> inode_data j f = inode_data j (ufs s)).
  { intros j Hj. unfold inode_data. cbn. by rewrite lookup_insert_ne by lia. }
  assert (Hf' : FsInv f).
  { split; cbn [dir next_inode f].
    - intros j. rewrite lookup_insert_eq. intros [= <-]. exists 0%nat.
      unfold inode_data. cbn. by rewrite lookup_insert_eq.
    - intros j. rewrite lookup_insert_ne by done. intros Hj.
      rewrite Hold by (by eapply fi_next). by apply (fi_fp _ Hf).
    - intros a j. rewrite lookup_insert_eq, lookup_insert_ne by done. intros [= <-] Hj Hij.
      apply (fi_next _ Hf) in Hj. rewrite <- Hij in Hj. by apply Nat.lt_irrefl in Hj.
    - intros p j [[_ <-]|[_ Hj]]%lookup_insert_Some; [lia|]. apply (fi_next _ Hf) in Hj. subst i. lia. }
  assert (Hlen : fs_len up f = 0%Z).
  { unfold fs_len, fs_read. cbn. rewrite lookup_insert_eq. cbn. unfold inode_data. cbn.
    by rewrite lookup_insert_eq. }
  assert (HI' : UploadInv (draw (set_ufs f s))).
  { apply draw_inv. split; cbn [ufs pending closed set_ufs]; [done| | |done|done].
    - intros id u Hu Hpath. by destruct (Hno id u).
    - intros id1 id2 u1 u2 H1 _ P1. by destruct (Hno id1 u1). }
  split_and!.
  - apply (put_inv _ _ (draw (set_ufs f s))); [done|apply (drawn_fresh (set_ufs f s))|done| |].
    + split_and!; [done..|]. exists i. cbn. rewrite lookup_insert_eq. by split; [|left].
    + intros id u Hu Hpath. by destruct (Hno id u).
  - cbn. unfold fs_read. cbn. rewrite lookup_insert_ne by done.
    destruct (dir (ufs s) !! fp) as [j|] eqn:Ej; [|done]. cbn. f_equal. apply Hold. by eapply fi_next.
  - intros k id H. injection H as <- <-. cbn [fst ufs set_pending]. rewrite Hlen. split_and!; [|done|intros _; by eapply clean_fresh].
    eexists. cbn. rewrite lookup_insert_eq. split_and!; [done|done|]. by rewrite Hlen.
  - done.
Qed.

Lemma resume_started env s i :
  UploadInv s -> dir (ufs s) !! up = Some i ->
  (∀ id u, pending s !! id = Some u -> u_upload_path u ≠ up) ->
  started env s (resume_upload new_v4 order env up fp size (fs_len up (ufs s)) s).
Proof.
  intros HI Hi Hno. pose proof HI as [Hf Hp Hun Hc Hdr]. unfold resume_upload, fresh_upload_id.
  se_unfold. cbn [Datatypes.id].
  (* the entry goes to pending, or back to closed when the file cannot be opened *)
  assert (Hgo : ∀ s1 id u, UploadInv s1 -> drawn id s1 -> ufs s1 = ufs s -> pending s1 = pending s ->
            u_size u = size -> u_final_path u = fp -> u_upload_path u = up -> u_channel_open u = false ->
            UploadInv (set_pending (<[id := with_file (open_handle <$> dir (ufs s1) !! up) (with_already (fs_len up (ufs s)) u)]>
                                      (pending s1)) s1)
            /\ active id (set_pending (<[id := with_file (open_handle <$> dir (ufs s1) !! up) (with_already (fs_len up (ufs s)) u)]>
                                      (pending s1)) s1)).
  { intros s1 id u HI1 Hd Hfs Hpe Hsz Hfp Hpath Hch. split.
    - apply put_inv; [done|done|done| |].
      + split_and!; [done..|]. exists i. rewrite Hfs. split; [done|]. left. cbn. by rewrite Hi.
      + rewrite Hpe. intros id' u' Hu' Hp'. by destruct (Hno id' u').
    - eexists. cbn. rewrite lookup_insert_eq, Hfs. by split_and!. }
  destruct (find_session order _ (closed s)) as [[id0 u0]|] eqn:Em.
  - apply find_session_some in Em as [Hu0 Hm]. rewrite Hu0.
    apply andb_true_iff in Hm as [[Hm1 Hm2]%andb_true_iff Hm3].
    apply String.eqb_eq in Hm1, Hm2. apply Z.eqb_eq in Hm3.
    assert (HI1 : UploadInv (set_closed (delete id0 (closed s)) s))
      by (apply shrink_closed_inv; [done|apply delete_subseteq]).
    assert (Hd0 : drawn id0 s) by (apply Hdr; right; eauto).
    destruct (open_ok env) eqn:Eo; cbn [negb].
    + destruct (Hgo _ id0 (mkUpload (u_file u0) size (u_already u0) (u_upload_path u0) (u_final_path u0) false) HI1 Hd0)
        as [HI2 Hact]; [done..|]. split_and!; [exact HI2|done| |done].
      intros k id H. injection H as <- <-. split_and!; [exact Hact|done|intros _]. apply clean_fresh with i. cbn. by rewrite Hi.
    + destruct (bool_decide _); (split_and!; [|done|done|intros (_ & _ & ?); congruence]); [|exact HI1].
      by apply (closed_inv (set_closed (delete id0 (closed s)) s)).
  - set (id1 := "upload_" +:+ new_v4 (uploads_drawn s)).
    assert (Hnone : closed s !! id1 = None).
    { apply eq_None_not_Some. intros Hs. apply (fresh_not_drawn s), Hdr. by right. }
    rewrite Hnone. fold (draw s). pose proof (draw_inv s HI) as HI0.
    assert (HI1 : UploadInv (set_closed (drop_sessions (same_path up) (closed s)) (draw s)))
      by (apply shrink_closed_inv; [done|apply map_filter_subseteq]).
    destruct (open_ok env) eqn:Eo; cbn [negb].
    + destruct (Hgo _ id1 (mkUpload None size (fs_len up (ufs s)) up fp false) HI1) as [HI2 Hact];
        [apply drawn_fresh|done..|]. split_and!; [exact HI2|done| |done].
      intros k id H. injection H as <- <-. split_and!; [exact Hact|done|intros _]. apply clean_fresh with i. cbn. by rewrite Hi.
    + cbn [bool_decide]. destruct (bool_decide _); [|split_and!; [exact HI1|done|done|intros (_ & _ & ?); congruence]].
      split_and!; [|done|done|intros (_ & _ & ?); congruence].
      apply (closed_inv (set_closed (drop_sessions (same_path up) (closed s)) (draw s))); [done|apply drawn_fresh|done..].
Qed.

Lemma start_ok env s :
  UploadInv s -> fs_read fp (ufs s) = None ->
  started env s (start_storage_file_upload new_v4 order env name size s).
Proof.
  intros HI Hnof. pose proof HI as [Hf Hp Hun Hc Hdr]. unfold start_storage_file_upload. se_unfold.
  rewrite Hname. cbn [Datatypes.id].
  destruct (mkdir_ok env) eqn:Em; cbn [negb]; [|split_and!; [done..|intros [? _]; congruence]].
  assert (Hfx : fs_exists fp (ufs s) = false).
  { unfold fs_exists, fs_read in *. destruct (dir (ufs s) !! fp); [done|]. by apply bool_decide_eq_false. }
  rewrite Hfx. destruct (fs_exists up (ufs s) && negb (stat_ok env)) eqn:Es.
  { split_and!; [done..|]. intros (_ & Hb & _). rewrite Hb, andb_false_r in Es. done. }
  clear Es. destruct (find_session order _ (pending s)) as [[id u]|] eqn:Ef.
  - apply find_session_some in Ef as [Hu Hm]. apply andb_true_iff in Hm as [Hm _].
    apply String.eqb_eq in Hm. destruct (Hp id u Hu Hm) as (Hsz & Hfp & Hco & i & Hi & Hfile).
    assert (Hex : fs_exists up (ufs s) = true) by (unfold fs_exists; rewrite Hi; by apply bool_decide_eq_true).
    rewrite Hco, Hex. pose proof (fs_len_up _ Hf). destruct (Z.ltb_spec size (fs_len up (ufs s))); [lia|].
    split_and!; [|done| |done].
    + apply put_inv; [done|by apply Hdr; eauto|done| |].
      * split_and!; [done..|]. by exists i.
      * intros id' u' Hu' Hp'. by eapply Hun.
    + intros k id' H'. injection H' as <- <-. split_and!; [|done|].
      * eexists. cbn. rewrite lookup_insert_eq. by split_and!.
      * intros Hdue u' h. cbn. rewrite lookup_insert_eq. intros [= <-]. cbn. by eapply Hdue.
  - assert (Hno : ∀ id u, pending s !! id = Some u -> u_upload_path u ≠ up).
    { intros id u Hu Hpath. pose proof (find_session_none _ _ Ef id u Hu) as Hx. cbn in Hx.
      destruct (Hp id u Hu Hpath) as (Hsz & _). unfold same_path in Hx.
      by rewrite Hpath, String.eqb_refl, Hsz, Z.eqb_refl in Hx. }
    unfold fs_exists. destruct (dir (ufs s) !! up) as [i|] eqn:Ei.
    + rewrite (bool_decide_eq_true_2 _) by done. pose proof (fs_len_up _ Hf).
      destruct (Z.ltb_spec size (fs_len up (ufs s))); [lia|]. by eapply resume_started.
    + rewrite (bool_decide_eq_false_2 _) by (by intros [? ?]). by apply create_started.
Qed.

(** ** Attempts *)

(** The bytes a request body carries. *)
Definition frame_data (fr : BodyFrame) : list Z :=
  match fr with DataFrame _ bs => bs | _ => [] end.
Definition body_data (frames : list BodyFrame) : list Z := List.concat (frame_data <$> frames).

(** No read error and no write error. *)
Definition frame_fine (fr : BodyFrame) : bool :=
  match fr with FrameError => false | DataFrame (WriteFailed _ | WriteLost _) _ => false | _ => true end.

Lemma try_complete_ok env id s :
  UploadInv s -> (∃ u, pending s !! id = Some u /\ u_upload_path u = up) ->
  UploadInv (try_complete env id s) /\ (all_ok env -> nothing_due (try_complete env id s)).
Proof.
  intros HI Hu. unfold try_complete. destruct (complete_upload env id s) as [s1 r1] eqn:Ec.
  by apply complete_ok in Ec as (H1 & _ & H3).
Qed.

(** The first bytes of a body, and what is left of it. *)
Lemma body_split d rest m k :
  d ++ rest = take m (drop k src) ->
  d = take (length d) (drop k src) /\ rest = take (m - length d) (drop (k + length d) src).
Proof.
  intros Hm. assert (Hl : (length d <= m)%nat).
  { apply (f_equal length) in Hm as Hl. rewrite length_app, length_take in Hl. lia. }
  split.
  - apply (f_equal (take (length d))) in Hm. rewrite take_app_length, take_take in Hm. by rewrite Nat.min_l in Hm.
  - rewrite <- drop_drop. apply (f_equal (drop (length d))) in Hm. by rewrite drop_app_length, skipn_firstn_comm in Hm.
Qed.

(** What a body leaves behind: the session, or a reply after an attempt to
    complete. *)
Definition body_done (env : CompleteEnv) (id : string) (x : UploadState * option UploadReply) : Prop :=
  UploadInv x.1
  /\ match x.2 with
     | None => (active id x.1 /\ clean id x.1) \/ owed id x.1
     | Some _ => all_ok env -> nothing_due x.1
     end.

Lemma body_stopped env id s r :
  UploadInv s -> (∃ u, pending s !! id = Some u /\ u_upload_path u = up) -> body_done env id (try_complete env id s, Some r).
Proof. intros HI Hu. by apply try_complete_ok. Qed.

Lemma body_owed env id frames s :
  UploadInv s -> owed id s -> body_done env id (upload_body env id frames s).
Proof.
  revert s. induction frames as [|fr frames IH]; intros s HI Ho; [split; [done|by right]|].
  assert (Hu : ∃ u, pending s !! id = Some u /\ u_upload_path u = up) by (destruct Ho as (u & ? & ? & ? & _); by exists u).
  destruct fr as [|w [|b bs]|]; cbn [upload_body]; [by apply body_stopped|by apply IH| |by apply IH].
  destruct (append_upload_data w id (b :: bs) s) as [s1 [x|e]] eqn:Ea;
    (eapply append_owed in Ea as (HI1 & Hu1 & Hok); [|done|done]); [by apply IH; [|apply Hok]|by apply body_stopped].
Qed.

Lemma body_ok env id frames s :
  UploadInv s -> active id s -> clean id s ->
  (∃ m, body_data frames = take m (drop (Z.to_nat (fs_len up (ufs s))) src)) ->
  body_done env id (upload_body env id frames s)
  /\ (forallb frame_fine frames = true ->
      let '(s', r) := upload_body env id frames s in
      r = None /\ active id s' /\ clean id s'
      /\ fs_len up (ufs s') = (fs_len up (ufs s) + Z.of_nat (length (body_data frames)))%Z).
Proof.
  revert s. induction frames as [|fr frames IH]; intros s HI Ha Hcl Hm.
  { split; [split; [done|by left]|]. intros _. cbn. split_and!; try done. lia. }
  assert (Hu : ∃ u, pending s !! id = Some u /\ u_upload_path u = up) by (destruct Ha as (u & ? & ? & _); by exists u).
  destruct fr as [|w [|b bs]|]; cbn [upload_body forallb frame_fine];
    [split; [by apply body_stopped|done]|destruct (IH s HI Ha Hcl Hm) as [H1 H2]; split; [done|]; intros [_ ?]%andb_true_iff; by apply H2
    | |by apply IH].
  set (d := b :: bs) in *. destruct Hm as [m Hm]. unfold body_data in *. cbn [fmap list_fmap List.concat frame_data] in *.
  destruct (body_split _ _ _ _ Hm) as [Hd Hrest]. pose proof (fs_len_up _ (ui_fs _ HI)) as Hlen.
  destruct (append_upload_data w id d s) as [s1 [x|e]] eqn:Ea;
    (eapply append_ok in Ea as (HI1 & Hu1 & Hok & Hall); [|done|done|done|by exists (length d)]).
  - specialize (Hok eq_refl). destruct (is_lost w) eqn:El.
    { split; [by apply body_owed|]. by destruct w. }
    destruct Hok as (Ha1 & Hcl1 & Hl1). destruct (IH s1 HI1 Ha1 Hcl1) as [H1 H2].
    { exists (m - length d)%nat. rewrite Hl1. by replace (Z.to_nat (fs_len up (ufs s) + Z.of_nat (length d)))
        with (Z.to_nat (fs_len up (ufs s)) + length d)%nat by lia. }
    split; [done|]. intros [_ Hf]%andb_true_iff. specialize (H2 Hf). destruct (upload_body env id frames s1) as [s' r].
    destruct H2 as (? & ? & ? & ->). split_and!; [done..|]. rewrite Hl1, length_app. lia.
  - split; [by apply body_stopped|]. intros [Hf _]%andb_true_iff. destruct w; [by discriminate (Hall eq_refl Hcl)|done..].
Qed.

(** One attempt of the client: start, then send from the offset it was told. *)
Record Attempt := mkAttempt {
  at_start : StartEnv;
  at_complete : CompleteEnv;
  at_body : Z -> list BodyFrame
}.

Definition attempt (a : Attempt) (s : UploadState) : UploadState :=
  match start_storage_file_upload new_v4 order (at_start a) name size s with
  | (s, Err _) => s
  | (s, Ok (offset, id)) => (handle_storage_upload (at_complete a) id (at_body a offset) s).1
  end.

(** The body carries the file from the offset on, cut off anywhere. *)
Definition follows_protocol (a : Attempt) : Prop :=
  ∀ offset, ∃ m, body_data (at_body a offset) = take m (drop (Z.to_nat offset) src).

(** Nothing fails and the body is complete. *)
Definition faultless (a : Attempt) : Prop :=
  start_all_ok (at_start a) /\ all_ok (at_complete a)
  /\ ∀ offset, forallb frame_fine (at_body a offset) = true
                /\ body_data (at_body a offset) = drop (Z.to_nat offset) src.

Lemma handle_ok env id frames s :
  UploadInv s -> active id s ->
  (∃ m, body_data frames = take m (drop (Z.to_nat (fs_len up (ufs s))) src)) ->
  let s' := (handle_storage_upload env id frames s).1 in
  UploadInv s' /\ (all_ok env -> nothing_due s')
  /\ (all_ok env -> clean id s -> forallb frame_fine frames = true ->
      body_data frames = drop (Z.to_nat (fs_len up (ufs s))) src -> fs_read fp (ufs s') = Some src).
Proof.
  intros HI Ha Hm. pose proof Ha as (u & Hu & Hpath & _).
  assert (Hid : is_empty id = false).
  { destruct (ui_drawn _ HI id) as (n & _ & ->); [by left; eauto|done]. }
  unfold handle_storage_upload. rewrite Hid. unfold get_upload_progress, get_session. se_unfold.
  rewrite Hu. cbn [ok_or].
  assert (Hb : body_done env id (upload_body env id frames s)
    /\ (clean id s -> forallb frame_fine frames = true ->
      let '(s', r) := upload_body env id frames s in
      r = None /\ active id s' /\ clean id s'
      /\ fs_len up (ufs s') = (fs_len up (ufs s) + Z.of_nat (length (body_data frames)))%Z)).
  { destruct (u_file u) as [h|] eqn:Eh; [destruct (h_late h) eqn:El|].
    - split; [apply body_owed; [done|by exists u, h]|]. intros Hcl. specialize (Hcl u h Hu Eh). congruence.
    - assert (Hcl : clean id s) by (intros u' h' Hu' Hh'; congruence). destruct (body_ok env id frames s HI Ha Hcl Hm). by split.
    - assert (Hcl : clean id s) by (intros u' h' Hu' Hh'; congruence). destruct (body_ok env id frames s HI Ha Hcl Hm). by split. }
  destruct (upload_body env id frames s) as [s1 [r1|]]; destruct Hb as [[HI1 Hgo] Hfine]; cbn [fst snd] in *.
  { split_and!; [done|done|]. intros _ Hcl Hf. by destruct (Hfine Hcl Hf). }
  destruct (complete_upload env id s1) as [s2 r2] eqn:Ec.
  apply complete_ok in Ec as (HI2 & Hdone & Hdue); [|done|destruct Hgo as [[(u1 & ? & ? & _) _]|(u1 & ? & ? & ? & _)]; by exists u1].
  assert (forall y : UploadState * UploadReply, y.1 = s2 -> UploadInv y.1 /\ (all_ok env -> nothing_due y.1)
    /\ (all_ok env -> clean id s -> forallb frame_fine frames = true ->
      body_data frames = drop (Z.to_nat (fs_len up (ufs s))) src -> fs_read fp (ufs y.1) = Some src)) as Hy; [|by destruct r2; apply Hy].
  intros y ->. split_and!; [done|done|]. intros Hok Hcl Hf Hb. destruct (Hfine Hcl Hf) as (_ & _ & Hcl1 & Hl1).
  pose proof (fs_len_up _ (ui_fs _ HI)) as Hlen. destruct Hdone as [_ Hr]; [done|done| |done]. rewrite Hl1, Hb, length_drop. lia.
Qed.

(** A file that is there is not uploaded again. *)
Lemma attempt_refused a s x : fs_read fp (ufs s) = Some x -> attempt a s = s.
Proof.
  intros Efp. unfold attempt, start_storage_file_upload. se_unfold. rewrite Hname. cbn [Datatypes.id].
  destruct (negb _); [done|].
  assert (Hx : fs_exists fp (ufs s) = true); [|by rewrite Hx].
  unfold fs_exists, fs_read in *. destruct (dir (ufs s) !! fp); [by apply bool_decide_eq_true|done].
Qed.

Lemma attempt_ok a s :
  UploadInv s -> follows_protocol a ->
  UploadInv (attempt a s)
  /\ (faultless a -> fs_read fp (ufs s) = None ->
      nothing_due (attempt a s) /\ (nothing_due s -> fs_read fp (ufs (attempt a s)) = Some src)).
Proof.
  intros HI Hfol. destruct (fs_read fp (ufs s)) as [x|] eqn:Efp; [by erewrite attempt_refused by exact Efp|]. unfold attempt.
  pose proof (start_ok (at_start a) s HI Efp) as (HI1 & Hfp1 & Hact & Hgo).
  destruct (start_storage_file_upload _ _ _ _ _ s) as [s1 [[k id]|e]]; cbn [fst snd] in *.
  - destruct (Hact k id eq_refl) as (Ha & -> & Hcl). pose proof (Hfol (fs_len up (ufs s1))) as Hm.
    destruct (handle_ok (at_complete a) id _ s1 HI1 Ha Hm) as (HI2 & Hdue & Hdone).
    split; [done|]. intros (_ & Hc & Hb) _. destruct (Hb (fs_len up (ufs s1))) as [? ?]. split; [by apply Hdue|]. intros Hn. auto.
  - split; [done|]. intros (Hs & _) _. by discriminate (Hgo Hs).
Qed.

Lemma faultless_follows a : faultless a -> follows_protocol a.
Proof.
  intros (_ & _ & Hb) offset. destruct (Hb offset) as [_ ->]. exists (length src). rewrite take_ge; [done|]. rewrite length_drop. lia.
Qed.
End one_file.

(** C24: Resumable uploads over HTTP are exact: whatever fails in however many
    attempts of a client that sends a file over HTTP (starts where the device
    tells it to and sends from there, with [POST]; no data channel, no
    cancelling and no second client) - starts, reads, writes that stop half way
    and are reported at once or with a later call, syncs, renames -, the image
    store never shows the file with any content but the uploaded one, and the
    incomplete file is always a prefix of it.  One attempt without faults
    finishes the upload, unless a failed write of an earlier attempt has still
    to be reported; two always do. *)
Theorem resumed_upload_is_exact new_v4 order name filename src f0 attempts last :
  Inj eq eq new_v4 -> (∀ m, order m ≡ₚ map_to_list m) ->
  sanitize_filename name = Ok filename ->
  (∀ p i, dir f0 !! p = Some i -> (i < next_inode f0)%nat) ->
  fs_read (final_path_of filename) f0 = None -> fs_read (upload_path_of filename) f0 = None ->
  Forall (follows_protocol src) attempts -> faultless src last ->
  let try_ := attempt new_v4 order name src in
  let run := fold_left (fun s a => try_ a s) attempts (mkUploads f0 ∅ ∅ 0) in
  (fs_read (final_path_of filename) (ufs run) = None
   \/ fs_read (final_path_of filename) (ufs run) = Some src)
  /\ (∀ part, fs_read (upload_path_of filename) (ufs run) = Some part -> ∃ k, part = take k src)
  /\ (fs_read (final_path_of filename) (ufs run) = None -> nothing_due filename run ->
      fs_read (final_path_of filename) (ufs (try_ last run)) = Some src)
  /\ (fs_read (final_path_of filename) (ufs run) = None ->
      fs_read (final_path_of filename) (ufs (try_ last (try_ last run))) = Some src).
Proof.
  intros Hinj Hord Hname Hnext Hfp Hup Hfol Hlast try_ run. pose proof (faultless_follows _ _ Hlast) as Hlf.
  assert (HI : UploadInv new_v4 filename src run).
  { assert (HI0 : UploadInv new_v4 filename src (mkUploads f0 ∅ ∅ 0)).
    { unfold fs_read in *. split; cbn [ufs pending closed]; [split| | | |]; try done.
      - intros i Hi. by rewrite Hi in Hup.
      - intros i Hi. by rewrite Hi in Hfp.
      - intros i j Hi. by rewrite Hi in Hup.
      - intros id [[? H]|[? H]]; by rewrite lookup_empty in H. }
    subst run. revert HI0. generalize (mkUploads f0 ∅ ∅ 0).
    induction Hfol as [|a attempts Ha _ IH]; intros s HI0; [done|]. cbn [fold_left].
    apply IH. by eapply attempt_ok. }
  clearbody run. pose proof (ui_fs _ _ _ _ HI) as Hf.
  assert (Hread : ∀ s, UploadInv new_v4 filename src s -> ∀ x, fs_read (final_path_of filename) (ufs s) = Some x -> x = src).
  { intros s [Hfs _ _ _ _] x. unfold fs_read. destruct (dir (ufs s) !! final_path_of filename) as [j|] eqn:Ej; [|done].
    cbn. intros [= <-]. by eapply fi_fp. }
  split_and!.
  - destruct (fs_read (final_path_of filename) (ufs run)) as [x|] eqn:Ex; [right|by left]. by rewrite (Hread run HI x Ex).
  - intros part. unfold fs_read. destruct (dir (ufs run) !! upload_path_of filename) as [i|] eqn:Ei; [|done].
    cbn. intros [= <-]. by eapply fi_up.
  - intros Hn Hdue. by eapply attempt_ok.
  - intros Hn. destruct (attempt_ok _ _ Hinj Hord _ _ Hname _ last run HI Hlf) as [HI1 Hgo].
    destruct (Hgo Hlast Hn) as [Hdue _]. fold (try_ last run) in *.
    destruct (fs_read (final_path_of filename) (ufs (try_ last run))) as [x|] eqn:Ex; [|by eapply attempt_ok].
    unfold try_ at 1. erewrite attempt_refused by done. by rewrite Ex, (Hread _ HI1 x Ex).
Qed.

(** ** What goes wrong *)

Definition no_files : UploadState := mkUploads (mkFs ∅ ∅ 0) ∅ ∅ 0.
Definition start_fine : StartEnv := mkStartEnv true true true true.
Definition complete_fine : CompleteEnv := mkCompleteEnv true true true true true true true.
Definition uuid_num (n : nat) : string := pretty n.
Definition any_order (m : gmap string PendingUpload) : list (string * PendingUpload) := map_to_list m.

(** Over a data channel a chunk that could not be written is skipped and the
    next ones are stored in its place; the resumed upload then completes a file
    that is not the one that was sent. *)
Lemma channel_skips_failed_chunk :
  let src := [1; 2; 3; 4]%Z in
  let '(s1, _) := start_storage_file_upload uuid_num any_order start_fine "a.iso" 4 no_files in
  let s2 := handle_upload_channel complete_fine "upload_0"
              [OnMessage (WriteFailed 0) [1; 2]%Z; OnMessage WroteAll [3; 4]%Z; OnClose] s1 in
  let '(s3, r3) := start_storage_file_upload uuid_num any_order start_fine "a.iso" 4 s2 in
  r3 = Ok (2%Z, "upload_0")
  /\ let s4 := (handle_storage_upload complete_fine "upload_0" [DataFrame WroteAll (drop 2 src)] s3).1 in
     fs_read (final_path_of "a.iso") (ufs s4) = Some [3; 4; 3; 4]%Z.
Proof. vm_compute. done. Qed.

(** A start with another size for a file that is being uploaded is not refused:
    it opens a second session on the incomplete file, and what that session
    writes goes into the finished file. *)
Lemma second_size_shares_file :
  let '(s1, _) := start_storage_file_upload uuid_num any_order start_fine "a.iso" 4 no_files in
  let '(s2, _) := claim_upload_channel "upload_0" s1 in
  let '(s3, _) := append_upload_data WroteAll "upload_0" [1; 2]%Z s2 in
  let '(s4, r4) := start_storage_file_upload uuid_num any_order start_fine "a.iso" 6 s3 in
  r4 = Ok (2%Z, "upload_1")
  /\ let '(s5, _) := append_upload_data WroteAll "upload_0" [3; 4]%Z s4 in
     let '(s6, r6) := complete_upload complete_fine "upload_0" s5 in
     let '(s7, _) := append_upload_data WroteAll "upload_1" [9]%Z s6 in
     r6 = Ok 4%Z
     /\ fs_read (final_path_of "a.iso") (ufs s6) = Some [1; 2; 3; 4]%Z
     /\ fs_read (final_path_of "a.iso") (ufs s7) = Some [1; 2; 3; 4; 9]%Z.
Proof. vm_compute. done. Qed.
