(* ===== verification/UsbClient.v ===== *)
(** * The application's client of the USB sidecar (services/usb.rs, control/zenoh.rs)

    Requests travel over a bus that may lose them on the way out or on the way
    back.  The sidecar is an interface here, [UsbSidecar], with the promises the
    application relies on in [UsbSidecarLaws]; the last section makes the
    control service an instance. *)

From S2P Require Import Prelude Text Hid Gadget Ums Uac NetAdapter Manager ManagerProofs UsbControl UsbControlProofs UsbPrefs.

(** ** Messages *)

Record ApplyRuntimeConfigResponse := mkRuntimeResp {
  ar_ok : bool; ar_applied : option DeviceSwitches; ar_error : option string;
  ar_error_code : Z; ar_retryable : bool; ar_applied_usb_info : option UsbDeviceInfo }.

Definition UMS_MOUNT : Z := 1.
Definition UMS_UNMOUNT : Z := 2.
Definition UMS_SWITCH_VM_MODE : Z := 3.
Definition UMS_GET_MOUNT_STATE : Z := 4.
Definition UMS_VM : Z := 1.
Definition UMS_FT : Z := 2.

Inductive VirtualMediaMode : Set := CDROM | DISK.

#[export] Instance mode_eq_dec : EqDecision VirtualMediaMode.
Proof. solve_decision. Defined.

Definition vm_type_of (mode : VirtualMediaMode) : Z := match mode with CDROM => VM_CD_ROM | DISK => VM_DISK end.

(** ** The sidecar as the application sees it *)

Class UsbSidecar (S : Type) := {
  handle_ums : UmsControlRequest -> S -> S * UmsControlResponse;
  handle_runtime : bool -> RuntimeUsbConfig -> UsbDeviceInfo -> S -> S * ApplyRuntimeConfigResponse;
  handle_mic : bool -> S -> S * Result string unit
}.

Definition mount_state_request (target : Z) : UmsControlRequest :=
  mkUmsReq UMS_GET_MOUNT_STATE target "" VM_CD_ROM.

(** What is mounted on a drive, as the sidecar would say. *)
Definition mount_state {S} `{UsbSidecar S} (target : Z) (s : S) : UmsControlResponse :=
  (handle_ums (mount_state_request target) s).2.

Definition ft_mounted_at {S} `{UsbSidecar S} (path : string) (s : S) : bool :=
  ur_mounted (mount_state UMS_FT s) && String.eqb (ur_mounted_path (mount_state UMS_FT s)) path.

Class UsbSidecarLaws (S : Type) `{UsbSidecar S} : Prop := {
  (** asking changes nothing *)
  query_pure target s : (handle_ums (mount_state_request target) s).1 = s;
  (** an accepted mount is visible, with its media type *)
  vm_mount_seen path mode s s' r :
    is_empty path || String.eqb path NEWLINE = false ->
    handle_ums (mkUmsReq UMS_MOUNT UMS_VM path (vm_type_of mode)) s = (s', r) -> ur_ok r = true ->
    mount_state UMS_VM s' = mkUmsResp true None true path (vm_type_of mode);
  (** an accepted change of the media type is visible *)
  vm_switch_seen path mode s s' r :
    handle_ums (mkUmsReq UMS_SWITCH_VM_MODE UMS_VM path (vm_type_of mode)) s = (s', r) -> ur_ok r = true ->
    ur_vm_type (mount_state UMS_VM s') = vm_type_of mode;
  (** an accepted unmount of the file transfer drive leaves nothing mounted *)
  ft_unmount_seen path vm_type s s' r :
    handle_ums (mkUmsReq UMS_UNMOUNT UMS_FT path vm_type) s = (s', r) -> ur_ok r = true ->
    ur_mounted (mount_state UMS_FT s') = false;
  (** requests for other drives and refused unmounts mount nothing *)
  ft_not_mounted_by path req s :
    uq_operation req ≠ UMS_MOUNT \/ uq_target req ≠ UMS_FT ->
    ft_mounted_at path s = false -> ft_mounted_at path (handle_ums req s).1 = false;
  (** a configuration without paths mounts nothing *)
  runtime_mounts_nothing path mic rt i s :
    ui_ums_ft_path i = "" -> ft_mounted_at path s = false ->
    ft_mounted_at path (handle_runtime mic rt i s).1 = false;
  mic_mounts_nothing path b s :
    ft_mounted_at path s = false -> ft_mounted_at path (handle_mic b s).1 = false
}.

(** ** The client *)

(** What the bus does with a query: deliver it and the reply, fail to send it,
    or lose the reply after the sidecar has acted. *)
Inductive BusOutcome : Set := Answered | NotSent | NoReply.

Inductive Query : Type :=
| QUms (req : UmsControlRequest)
| QRuntime (mic : bool) (rt : RuntimeUsbConfig) (i : UsbDeviceInfo)
| QMic (enabled : bool).

Record UsbClient (S : Type) := mkClient {
  sidecar : S;
  usb_info : UsbDeviceInfo;
  queries : nat
}.
Arguments mkClient {S}.
Arguments sidecar {S}.
Arguments usb_info {S}.
Arguments queries {S}.

Definition no_usb_info : UsbDeviceInfo := mkUsbInfo None 0 "" "" None.

Definition adapter_type_proto (t : Pref.NetworkAdapterType) : Z :=
  match t with Pref.Rndis => 1 | Pref.Ncm => 0 end.

Definition usb_info_from_devices_with_paths (d : Pref.UsbDevices) (ums_vm_path ums_ft_path : string)
    (ums_vm_type : Z) : UsbDeviceInfo :=
  let na := Pref.network_adapter d in
  let l3 := Pref.l3_config na in
  mkUsbInfo
    (Some (mkSwitches (Pref.keyboard d) (Pref.absolute_mouse d) (Pref.relative_mouse d)
             (Pref.mass_storage_vm d) (Pref.mass_storage_ft d) (Pref.microphone d) (Pref.camera d)
             (Some (mkNetSwitch (Pref.enable na) (adapter_type_proto (Pref.adapter_type na))))))
    ums_vm_type ums_vm_path ums_ft_path
    (Some (NetAdapter.mkL3 (Pref.ip_address l3) (Pref.subnet_mask l3) (Pref.gateway l3)
             (default [] (Pref.dns_servers l3)))).

Definition runtime_usb_config_from_config (c : Pref.UsbConfig) : RuntimeUsbConfig :=
  mkRuntimeUsb (Pref.vendor_id c) (Pref.product_id c) (Pref.serial_number c) (Pref.manufacturer c)
    (Pref.product c) (Pref.force_full_speed c).

(** [UmsVmType::try_from(..).unwrap_or(VmCdRom)]. *)
Definition vm_type_or_cdrom (t : Z) : Z := if ((0 <=? t) && (t <=? 2))%Z then t else VM_CD_ROM.

Section client.
Context {S : Type} `{UsbSidecar S}.
Context (bus : nat -> Query -> BusOutcome).

Definition ClientM (A : Type) : Type := SE (UsbClient S) string A.

Definition send {A} (q : Query) (handle : S -> S * A) : ClientM A :=
  fun c =>
  let c' s := mkClient s (usb_info c) (Datatypes.S (queries c)) in
  match bus (queries c) q with
  | NotSent => (c' (sidecar c), Err "zenoh get failed")
  | NoReply => (c' (handle (sidecar c)).1, Err "no reply received from usb_devices")
  | Answered => let '(s, a) := handle (sidecar c) in (c' s, Ok a)
  end.

Definition send_ums_control (req : UmsControlRequest) : ClientM UmsControlResponse :=
  send (QUms req) (handle_ums req).

Definition ums_control (req : UmsControlRequest) : ClientM unit :=
  let! resp := send_ums_control req in
  se_guard (negb (ur_ok resp)) ("ums_control failed: " +:+ default "" (ur_error resp)).

Definition ums_mount_vm (path : string) (mode : VirtualMediaMode) : ClientM unit :=
  ums_control (mkUmsReq UMS_MOUNT UMS_VM path (vm_type_of mode)).
Definition ums_unmount_vm : ClientM unit := ums_control (mkUmsReq UMS_UNMOUNT UMS_VM "" VM_CD_ROM).
Definition ums_mount_ft (path : string) : ClientM unit :=
  ums_control (mkUmsReq UMS_MOUNT UMS_FT path VM_CD_ROM).
Definition ums_unmount_ft : ClientM unit := ums_control (mkUmsReq UMS_UNMOUNT UMS_FT "" VM_CD_ROM).
Definition ums_switch_vm_mode (mode : VirtualMediaMode) : ClientM unit :=
  ums_control (mkUmsReq UMS_SWITCH_VM_MODE UMS_VM "" (vm_type_of mode)).
Definition ums_get_mount_state (target : Z) : ClientM UmsControlResponse :=
  send_ums_control (mount_state_request target).

Definition set_mic_process (enabled : bool) : ClientM unit :=
  let! r := send (QMic enabled) (handle_mic enabled) in
  match r with
  | Ok _ => se_ret tt
  | Err e => se_throw ("set_mic_process rejected: " +:+ e)
  end.

(** The loop of [apply_runtime_config]: [more] further attempts after a
    transport error. *)
Fixpoint apply_runtime_attempts (more : nat) (rt : RuntimeUsbConfig) (i : UsbDeviceInfo) (mic : bool)
  : ClientM ApplyRuntimeConfigResponse :=
  let! r := se_catch (send (QRuntime mic rt i) (handle_runtime mic rt i)) in
  match r with
  | Ok resp =>
      (if ar_ok resp then se_modify (fun c => mkClient (sidecar c) i (queries c)) else se_ret tt) ;;;
      se_ret resp
  | Err e => match more with
             | O => se_throw e
             | Datatypes.S more => apply_runtime_attempts more rt i mic
             end
  end.

Definition apply_runtime_config (rt : RuntimeUsbConfig) (i : UsbDeviceInfo) (mic : bool)
  : ClientM ApplyRuntimeConfigResponse :=
  apply_runtime_attempts 4 rt i mic.

(** The mounted paths come from the cache of the last applied description. *)
Definition usb_info_for_reconcile (d : Pref.UsbDevices) (c : UsbClient S) : UsbDeviceInfo :=
  usb_info_from_devices_with_paths d (ui_ums_vm_path (usb_info c)) (ui_ums_ft_path (usb_info c))
    (vm_type_or_cdrom (ui_ums_vm_type (usb_info c))).
End client.
Arguments ClientM S A : clear implicits.
