(* ===== verification/Sidecar.v ===== *)
(** * The control service behind the bus (control/zenoh.rs)

    The query handlers around the control service, as an instance of the
    interface [UsbSidecar], and the proof that it keeps the promises of
    [UsbSidecarLaws]. *)

From S2P Require Import Prelude Text Hid Gadget Ums Uac NetAdapter Manager ManagerProofs UsbControl UsbControlProofs UsbPrefs UsbClient.

(** [str::to_ascii_lowercase]. *)
Fixpoint to_ascii_lowercase (s : string) : string :=
  match s with EmptyString => EmptyString | String c s' => String (ascii_lower c) (to_ascii_lowercase s') end.

Definition USB_GADGET_BUSY : Z := 1.
Definition INVALID_ARGUMENT : Z := 2.
Definition INTERNAL : Z := 3.

(** The error code and whether a retry may help. *)
Definition classify_runtime_error (err : string) : Z * bool :=
  let lower := to_ascii_lowercase err in
  if contains_str "busy" lower || contains_str "timed out" lower || contains_str "timeout" lower
     || contains_str "recover" lower
  then (USB_GADGET_BUSY, true)
  else if contains_str "invalid" lower || contains_str "missing" lower
          || contains_str "endpoint budget" lower
  then (INVALID_ARGUMENT, false)
  else (INTERNAL, false).

Definition runtime_apply_ok (applied : DeviceSwitches) (i : UsbDeviceInfo) : ApplyRuntimeConfigResponse :=
  mkRuntimeResp true (Some applied) None 0 false (Some i).

Section handlers.
Context (world : nat -> World DevEnv) (rehash : list Service -> list Service).
Implicit Types (c : ControlState) (m : UsbManager).

Definition handle_apply_runtime_query (mic : bool) (rt : RuntimeUsbConfig) (i : UsbDeviceInfo) c
  : ControlState * ApplyRuntimeConfigResponse :=
  match apply_runtime_usb_info world rehash mic (Some rt) (Some i) c with
  | (c, Ok applied) => (c, runtime_apply_ok applied i)
  | (c, Err e) =>
      let err := usb_error_to_string e in
      let '(error_code, retryable) := classify_runtime_error err in
      (c, mkRuntimeResp false (Some (m_switches (manager c))) (Some err) error_code retryable None)
  end.

Definition handle_ums_control_query (req : UmsControlRequest) c : ControlState * UmsControlResponse :=
  let '(m, r) := handle_ums_control world rehash req (manager c) in (mkControl m (last_usb_info c), r).

Definition handle_set_mic_process_query (enabled : bool) c : ControlState * Result string unit :=
  (mkControl (apply_mic_process_enabled world enabled (manager c)) (last_usb_info c), Ok tt).

#[export] Instance control_service : UsbSidecar ControlState := {
  handle_ums := handle_ums_control_query;
  handle_runtime := handle_apply_runtime_query;
  handle_mic := handle_set_mic_process_query
}.

(** ** The file transfer drive only mounts when asked to *)

Definition ft_not_at (path : string) (s : Service) (d : DeviceService) : Prop :=
  s = FILE_TRANSFER_SERVICE -> ∀ h, d = DUms1 h -> file_path h ≠ Some path.

Local Abbreviation ft_free path m := (all_handles (ft_not_at path) [] m).

Lemma ft_mounted_at_spec path c :
  path ≠ "" -> ft_mounted_at path c = false <-> ft_free path (manager c).
Proof.
  intros Hp. unfold ft_mounted_at, mount_state, handle_ums, control_service, handle_ums_control_query, all_handles, ft_not_at.
  cbn -[String.eqb]. unfold ums_ft_mount_state, get_file_transfer.
  destruct (device_services (manager c) !! FILE_TRANSFER_SERVICE) as [d|] eqn:Ed;
    [destruct d as [h|h|h|h|h|h|h]|]; cbn -[String.eqb]; try (split; [|done]; intros _; split; [|set_solver];
      intros s d Hs -> h' ->; congruence).
  split.
  - intros Hb. split; [|set_solver]. intros s d Hs -> h' ->. assert (h' = h) as -> by congruence.
    intros Hf. rewrite Hf in Hb. cbn in Hb. rewrite String.eqb_refl, andb_true_r in Hb. by destruct path.
  - intros [Hf _]. specialize (Hf _ _ Ed eq_refl h eq_refl).
    destruct (file_path h) as [q|]; cbn; [|done]. apply andb_false_iff. right. apply String.eqb_neq. congruence.
Qed.

Lemma never_mounted_empty c : ft_mounted_at "" c = false.
Proof.
  unfold ft_mounted_at, mount_state. cbn -[String.eqb]. unfold ums_ft_mount_state.
  destruct (get_file_transfer _) as [h|]; [|done]. cbn -[String.eqb]. by destruct (default "" (file_path h)).
Qed.

Lemma unmount_ums1_path env h : file_path (unmount_ums1 env h).1 = file_path h \/ file_path (unmount_ums1 env h).1 = None.
Proof. ums_cases env h; auto. Qed.

Lemma ft_change_keeps path s env req d :
  ft_not_at path s d -> ft_not_at path s (on_change env req d).1.
Proof.
  intros Hd Hs. specialize (Hd Hs). destruct d as [h|h|h|h|h|h|h];
    cbn [on_change arkkvm_devices device_on_change];
    try (repeat match goal with |- context [let '(_, _) := ?x in _] => destruct x end; cbn; done).
  specialize (Hd h eq_refl). pose proof (unmount_ums1_path (e_ums1 env) h) as Hu.
  destruct req; cbn [ums1_on_change_request].
  - cbn. by intros h' [= <-].
  - destruct (unmount_ums1 (e_ums1 env) h) as [h1 [[]|e]]; cbn [fst] in Hu; [|destruct e];
      cbn; intros h' [= <-]; cbn; destruct Hu as [Hu|Hu]; rewrite Hu; done.
  - cbn. intros h' [= <-]. unfold sync_lun_file_path. repeat case_match; done.
  - cbn. intros h' [= <-]. unfold sync_lun_file_path. repeat case_match; done.
Qed.

Lemma ft_apply path base sw m : ft_free path m -> ft_free path (apply_switches world rehash base sw m).1.
Proof.
  apply apply_handles.
  - intros s env req d. apply ft_change_keeps.
  - intros s sw0 mic _ -> h [= <-]. done.
  - intros s sw0 mic d Hd Hs h. specialize (Hd Hs). destruct d; cbn; try done. intros [= <-]. exact (Hd _ eq_refl).
  - intros s n d Hd Hs h. specialize (Hd Hs). destruct d; cbn; try done. intros [= <-]. exact (Hd _ eq_refl).
Qed.

Lemma ft_insert path s d m m' :
  device_services m' = <[s := d]> (device_services m) ->
  (s = FILE_TRANSFER_SERVICE -> ft_not_at path s d) -> ft_free path m -> ft_free path m'.
Proof.
  intros He Hd. apply (all_handles_insert (ft_not_at path) [] m m' s d He).
  intros Hs. by apply Hd.
Qed.

Lemma ft_on_vm path {A} (op : UmsEnv -> UM A) h m : ft_free path m -> ft_free path (on_vm world op h m).1.
Proof.
  intros Hm. unfold on_vm. destruct (op _ h) as [h' r].
  by eapply ft_insert; [cbn; reflexivity| |exact Hm].
Qed.

Lemma ft_unmount path h m :
  get_file_transfer m = Some h -> ft_free path m -> ft_free path (on_ft world unmount_ums1 h m).1.
Proof.
  intros Hg Hm. unfold on_ft. pose proof (unmount_ums1_path (e_ums1 (w_dev (world (clock m)))) h) as Hu.
  destruct (unmount_ums1 _ h) as [h' r]. cbn [fst] in Hu.
  eapply ft_insert; [cbn; reflexivity| |exact Hm]. intros _ _ h1 [= <-].
  destruct Hu as [->|]; [|congruence]. destruct Hm as [Hm _].
  unfold get_file_transfer in Hg. destruct (device_services m !! _) as [d|] eqn:Ed; [|done].
  apply (Hm _ _ Ed eq_refl). destruct d; congruence.
Qed.

Lemma ft_rebuild path b m : ft_free path m -> ft_free path (rebuild_if world rehash b m).1.
Proof. intros Hm. destruct b; [by apply ft_apply|done]. Qed.

Lemma ft_bind path {A B} (k : MM (H := DeviceService) A) (f : A -> MM (H := DeviceService) B) m :
  (ft_free path m -> ft_free path (k m).1) -> (∀ a m, ft_free path m -> ft_free path (f a m).1) ->
  ft_free path m -> ft_free path (se_bind k f m).1.
Proof. intros Hk Hf Hm. specialize (Hk Hm). unfold se_bind. destruct (k m) as [m' [a|e]]; [by apply Hf|done]. Qed.

Lemma ft_answer path {A} (k : MM (H := DeviceService) A) m : ft_free path (k m).1 -> ft_free path (answer k m).1.
Proof. unfold answer. by destruct (k m). Qed.

Lemma ft_vm_unmount path m : ft_free path m -> ft_free path (ums_vm_unmount world m).1.
Proof.
  intros Hm. unfold ums_vm_unmount. destruct (get_virtual_media m) as [h|]; [|done].
  by apply ft_answer, ft_on_vm.
Qed.

Lemma ft_ft_unmount path m : ft_free path m -> ft_free path (ums_ft_unmount world m).1.
Proof.
  intros Hm. unfold ums_ft_unmount. destruct (get_file_transfer m) as [h|] eqn:Hg; [|done].
  by apply ft_answer, ft_unmount.
Qed.

Lemma ft_vm_mount path image m : ft_free path m -> ft_free path (vm_mount world image m).1.
Proof. intros Hm. unfold vm_mount. destruct (get_virtual_media m); [by apply ft_on_vm|done]. Qed.

Lemma ft_other_request path req m :
  uq_operation req ≠ UMS_MOUNT \/ uq_target req ≠ UMS_FT -> ft_free path m ->
  ft_free path (handle_ums_control world rehash req m).1.
Proof.
  intros Hreq Hm. unfold handle_ums_control, ums_operation_of.
  assert (Hby : ∀ vm ft other : Handler,
            ft_free path (vm m).1 -> (uq_target req = UMS_FT -> ft_free path (ft m).1) ->
            ft_free path (other m).1 -> ft_free path (by_target (uq_target req) vm ft other m).1).
  { intros vm ft other Hv Hf Ho. unfold by_target. destruct (_ =? 1)%Z; [done|].
    destruct (Z.eqb_spec (uq_target req) 2) as [Ht|]; [by apply Hf|done]. }
  assert (Hun : ∀ e, ft_free path (by_target (uq_target req) (ums_vm_unmount world) (ums_ft_unmount world)
                  (fun m => (m, ums_resp_err e)) m).1).
  { intros e. apply Hby; [by apply ft_vm_unmount|intros _; by apply ft_ft_unmount|done]. }
  destruct (Z.eqb_spec (uq_operation req) 1) as [Hop|_].
  - destruct Hreq as [|Ht]; [done|]. destruct (is_empty _ || _); [apply Hun|].
    apply Hby; [|done|done]. unfold ums_vm_mount. destruct (get_virtual_media m) as [h|]; [|done].
    apply ft_answer. apply ft_bind; [by apply ft_on_vm| |done]. intros b m1 H1.
    apply ft_bind; [by apply ft_rebuild| |done]. intros _ m2. apply ft_vm_mount.
  - destruct (_ =? 2)%Z; [apply Hun|]. destruct (_ =? 3)%Z; [|by destruct (_ =? 4)%Z].
    unfold ums_vm_switch_mode. destruct (get_virtual_media m) as [h|]; [|done].
    apply ft_answer. apply ft_bind; [by apply ft_on_vm| |done]. intros b m1. apply ft_rebuild.
Qed.

Lemma ft_vm_op path {A} (op : UmsEnv -> UM A) m : ft_free path m -> ft_free path (vm_op world op m).1.
Proof.
  intros Hm. unfold vm_op. destruct (get_virtual_media m) as [h|]; [|done].
  pose proof (ft_on_vm path op h m Hm) as H1. unfold se_catch. by destruct (on_vm world op h m) as [m' [a|e]].
Qed.

Lemma ft_mounts path i last m :
  ui_ums_ft_path i = "" -> ft_free path m -> ft_free path (apply_ums_mounts world rehash i last m).1.
Proof.
  intros Hp Hm. unfold apply_ums_mounts. apply ft_bind; [| |done].
  { intros _. unfold preflight_ums_path_changes. repeat case_match; done. }
  intros _ m1 H1. destruct (ui_switches i) as [sw|]; [|done]. apply ft_bind; [| |done].
  - intros _. unfold apply_vm_mount. apply ft_bind; [done| |done]. intros [h|] m2 H2; [|done].
    destruct (ums_vm_enabled sw); [|by apply ft_bind; [apply ft_vm_op| |]].
    destruct (is_empty _); [done|]. apply ft_bind; [by apply ft_vm_op| |done]. intros r m3 H3.
    apply ft_bind; [destruct r as [[]|]; [intros _; by apply ft_apply|done|done]| |done].
    intros _ m4 H4. by apply ft_bind; [apply ft_vm_op| |].
  - intros _ m2 H2. unfold apply_ft_mount. apply ft_bind; [done| |done]. intros [h|] m3 H3; [|done].
    rewrite Hp. destruct (ums_ft_enabled sw); [done|]. apply ft_bind; [|done|done].
    intros _. unfold ft_op. destruct (get_file_transfer m3) as [h3|] eqn:Hg; [|done].
    pose proof (ft_unmount path h3 m3 Hg H3) as H4. unfold se_catch.
    by destruct (on_ft world _ h3 m3) as [m' [a|e]].
Qed.

Lemma ft_set_l3 path l3 m : ft_free path m -> ft_free path (set_network_adapter_l3_config rehash l3 m).
Proof.
  intros [Hm _]. split; [|set_solver]. destruct (set_l3_other rehash l3 m) as (_ & _ & _ & Ho).
  intros s d Hd Hs. subst s. rewrite Ho in Hd by done. by apply (Hm _ _ Hd).
Qed.

Lemma ft_l3_only path m : ft_free path m -> ft_free path (apply_network_adapter_l3_only world m).1.
Proof.
  intros Hm. unfold apply_network_adapter_l3_only. destruct (get_network_adapter_handle m) as [h|]; [|done].
  destruct (apply_l3 _ h) as [h' r]. by eapply ft_insert; [cbn; reflexivity| |exact Hm].
Qed.

(** Steps of the service that only go through the manager. *)
Lemma ft_cbind path {A B} (k : CM A) (f : A -> CM B) c :
  (ft_free path (manager c) -> ft_free path (manager (k c).1)) ->
  (∀ a c, ft_free path (manager c) -> ft_free path (manager (f a c).1)) ->
  ft_free path (manager c) -> ft_free path (manager (se_bind k f c).1).
Proof. intros Hk Hf Hm. specialize (Hk Hm). unfold se_bind. destruct (k c) as [c' [a|e]]; [by apply Hf|done]. Qed.

Lemma ft_in_manager path {A} (k : MM (H := DeviceService) A) c :
  ft_free path (k (manager c)).1 -> ft_free path (manager (in_manager k c).1).
Proof. unfold in_manager. by destruct (k (manager c)). Qed.

Lemma ft_full_config path i base c :
  ui_ums_ft_path i = "" -> ft_free path (manager c) ->
  ft_free path (manager (apply_full_config world rehash i base c).1).
Proof.
  intros Hp Hm. unfold apply_full_config. apply ft_cbind; [done| |done]. intros sw c1 H1.
  apply ft_cbind; [intros _; apply ft_in_manager; cbn; by apply ft_set_l3| |done]. intros _ c2 H2.
  apply ft_cbind; [done| |done]. intros c3 c4 H4. destruct (_ && _).
  - apply ft_cbind; [intros _; by apply ft_in_manager, ft_l3_only|done|done].
  - apply ft_cbind; [intros _; by apply ft_in_manager, ft_apply| |done]. intros _ c5 H5.
    apply ft_cbind; [intros _; by apply ft_in_manager, ft_mounts|done|done].
Qed.

Lemma ft_runtime path mic rt i c :
  ui_ums_ft_path i = "" -> ft_free path (manager c) ->
  ft_free path (manager (handle_apply_runtime_query mic rt i c).1).
Proof.
  intros Hp Hm. unfold handle_apply_runtime_query, apply_runtime_usb_info. se_unfold. cbn [ok_or].
  unfold in_manager. set (c1 := mkControl _ _).
  assert (H1 : ft_free path (manager c1)) by done.
  destruct (runtime_usb_config_to_base_info _ rt) as [base|e].
  - pose proof (ft_full_config path i base _ Hp H1) as H2.
    destruct (apply_full_config _ _ i base _) as [c2 [x|e]]; [done|]. by destruct (classify_runtime_error _).
  - by destruct (classify_runtime_error _).
Qed.

Lemma vm_type_roundtrip mode : ums_mode_to_proto (proto_vm_type_to_ums_mode (vm_type_of mode)) = vm_type_of mode.
Proof. by destruct mode. Qed.

#[export] Instance control_service_laws : UsbSidecarLaws ControlState.
Proof.
  split.
  - by intros target [m l].
  - intros path mode [m l] s' r Hp. cbn -[handle_ums_control]. unfold handle_ums_control_query. cbn [manager].
    change (handle_ums_control _ _ _ m)
      with (if is_empty path || String.eqb path NEWLINE then ums_vm_unmount world m
            else ums_vm_mount world rehash path (vm_type_of mode) m).
    rewrite Hp. destruct (ums_vm_mount world rehash path (vm_type_of mode) m) as [m' r'] eqn:Em.
    intros [= <- <-] Hok. pose proof (vm_mount_state_after _ _ _ _ _ _ _ Em Hok) as Hv.
    rewrite vm_type_roundtrip in Hv. unfold mount_state. cbn. exact Hv.
  - intros path mode [m l] s' r. cbn -[handle_ums_control]. unfold handle_ums_control_query. cbn [manager].
    change (handle_ums_control _ _ _ m)
      with (ums_vm_switch_mode world rehash (proto_vm_type_to_ums_mode (vm_type_of mode)) m).
    destruct (ums_vm_switch_mode _ _ _ m) as [m' r'] eqn:Em. intros [= <- <-] Hok.
    pose proof (vm_switch_state_after _ _ _ _ _ _ Em Hok) as Hv. rewrite vm_type_roundtrip in Hv. exact Hv.
  - intros path t [m l] s' r. cbn -[handle_ums_control]. unfold handle_ums_control_query. cbn [manager].
    change (handle_ums_control _ _ _ m) with (ums_ft_unmount world m).
    unfold ums_ft_unmount, answer, on_ft. destruct (get_file_transfer m) as [h|] eqn:Hg.
    + destruct (unmount_ums1 _ h) as [h' [[]|e]] eqn:Eu; [|by intros [= <- <-]].
      intros [= <- <-] _. unfold mount_state. cbn. unfold ums_ft_mount_state, get_file_transfer. cbn.
      rewrite lookup_insert_eq. assert (Hf : file_path h' = None); [|by rewrite Hf].
      revert Eu. unfold unmount_ums1; se_unfold. ums_cases (e_ums1 (w_dev (world (clock m)))) h; intros; by simplify_eq.
    + intros [= <- <-] _. unfold mount_state. cbn. unfold ums_ft_mount_state. by rewrite Hg.
  - intros path req c Hreq Hf. destruct (decide (path = "")) as [->|Hne].
    { apply never_mounted_empty. }
    apply ft_mounted_at_spec; [done|]. apply ft_mounted_at_spec in Hf; [|done].
    cbn. unfold handle_ums_control_query. pose proof (ft_other_request path req (manager c) Hreq Hf) as H1.
    by destruct (handle_ums_control _ _ _ _).
  - intros path mic rt i c Hp Hf. destruct (decide (path = "")) as [->|Hne]; [apply never_mounted_empty|].
    apply ft_mounted_at_spec; [done|]. apply ft_mounted_at_spec in Hf; [|done]. by apply ft_runtime.
  - intros path b c Hf. destruct (decide (path = "")) as [->|Hne]; [apply never_mounted_empty|].
    apply ft_mounted_at_spec; [done|]. apply ft_mounted_at_spec in Hf; [|done].
    cbn. unfold apply_mic_process_enabled. destruct (device_services _ !! UAC_SERVICE) as [d|]; [|done].
    destruct d; try done. by eapply ft_insert; [cbn; reflexivity| |exact Hf].
Qed.
End handlers.
