(* ===== verification/VirtualMedia.v ===== *)
(** * Virtual media and the file transfer drive (hardware/usb/storage.rs, hardware/fs_remote.rs)

    The application's view of the two drives: which image is mounted and from
    where, the block device that serves remote images, and who has the image of
    the file transfer drive, the device itself (mounted over a loop device) or
    the host (through the sidecar).

    Commands of the system (losetup, mount, umount) change the kernel's part of
    the state; the environment of an operation says which of them work. *)

From S2P Require Import Prelude StateLaws Text UsbPrefs Config Gadget Ums UsbControl UsbClient Paths RangeReader.

(** ** The image mounted by the device itself (fs_remote.rs) *)

Definition IMG_FILE_PATH : string := "/userdata/arkkvm/imgs".
Definition IMG_FILE_NAME : string := "ft_disk.img".
Definition FT_IMAGE : string := IMG_FILE_PATH +:+ "/" +:+ IMG_FILE_NAME.

(** [kernel_mounted] and [kernel_loops] are the kernel's: whether the mount
    point is in use, and which loop devices are attached to the image. *)
Record RemoteFs := mkRemoteFs {
  loop_device : option string;
  is_mounted : bool;
  kernel_mounted : bool;
  kernel_loops : list string
}.

Definition remote_fs_new : RemoteFs := mkRemoteFs None false false [].

(** Which commands work; [losetup_f] is the free loop device it names. *)
Record FsEnv := mkFsEnv {
  image_there : bool; mkdir_point_ok : bool; mountpoint_runs : bool; losetup_f : option string;
  losetup_ok : bool; mount_ok : bool; umount_ok : bool; losetup_d_ok : bool }.

Definition FsM (A : Type) : Type := SE RemoteFs string A.

Definition is_mount_point_in_use (env : FsEnv) : FsM bool :=
  se_guard (negb (mountpoint_runs env)) "Failed to execute mountpoint command" ;;;
  se_get kernel_mounted.

Definition setup_loop_device (env : FsEnv) : FsM string :=
  match losetup_f env with
  | None => se_throw "Failed to find available loop device"
  | Some dev =>
      se_guard (negb (losetup_ok env)) "Failed to associate image with loop device" ;;;
      se_modify (fun f => mkRemoteFs (loop_device f) (is_mounted f) (kernel_mounted f) (dev :: kernel_loops f)) ;;;
      se_ret dev
  end.

Definition mount_loop_device (env : FsEnv) : FsM unit :=
  se_guard (negb (mount_ok env)) "Failed to mount loop device" ;;;
  se_modify (fun f => mkRemoteFs (loop_device f) (is_mounted f) true (kernel_loops f)).

(** [umount] fails when nothing is mounted. *)
Definition unmount_filesystem (env : FsEnv) : FsM unit :=
  let! mounted := se_get kernel_mounted in
  se_guard (negb (mounted && umount_ok env)) "Failed to unmount" ;;;
  se_modify (fun f => mkRemoteFs (loop_device f) (is_mounted f) false (kernel_loops f)).

Definition cleanup_loop_device (env : FsEnv) (dev : string) : FsM unit :=
  se_guard (negb (losetup_d_ok env)) "Failed to detach loop device" ;;;
  se_modify (fun f => mkRemoteFs (loop_device f) (is_mounted f) (kernel_mounted f)
                        (List.filter (fun d => negb (String.eqb d dev)) (kernel_loops f))).

Definition fs_mount (env : FsEnv) : FsM unit :=
  let! mounted := se_get is_mounted in
  if mounted then se_ret tt else
  se_guard (negb (image_there env)) "Image file does not exist" ;;;
  se_guard (negb (mkdir_point_ok env)) "Failed to create mount point" ;;;
  let! in_use := is_mount_point_in_use env in
  se_guard in_use "Mount point is already in use" ;;;
  let! dev := setup_loop_device env in
  se_modify (fun f => mkRemoteFs (Some dev) (is_mounted f) (kernel_mounted f) (kernel_loops f)) ;;;
  mount_loop_device env ;;;
  se_modify (fun f => mkRemoteFs (loop_device f) true (kernel_mounted f) (kernel_loops f)).

Definition fs_unmount (env : FsEnv) : FsM unit :=
  let! f := se_get id in
  if negb (is_mounted f) then se_ret tt else
  unmount_filesystem env ;;;
  (match loop_device f with
   | Some dev => cleanup_loop_device env dev
   | None => se_ret tt
   end) ;;;
  se_modify (fun f => mkRemoteFs None false (kernel_mounted f) (kernel_loops f)).

(** ** The state of the application *)

Inductive VirtualMediaSource : Set := WebRTC | HTTP | Storage.

Record VirtualMediaState := mkVmState {
  vs_source : VirtualMediaSource; vs_mode : VirtualMediaMode;
  vs_filename : option string; vs_url : option string; vs_size : Z }.

Inductive ImageReader : Type :=
| HttpReader (size : Z) (r : HttpRangeReader)
| WebRtcReader (size : Z).

(** [nbd_device] is [None], a device that is not running, or one that serves
    the reader that was current when it was started.  [ft_pending] are the
    uploads to the file transfer drive that are under way. *)
Record App (S : Type) := mkApp {
  usb : option (UsbClient S);
  virtual_media : option VirtualMediaState;
  nbd_device : option (option ImageReader);
  current_reader : option ImageReader;
  remote_fs : RemoteFs;
  ft_pending : gset string;
  config : ConfigManager
}.
Arguments mkApp {S}.
Arguments usb {S}.
Arguments virtual_media {S}.
Arguments nbd_device {S}.
Arguments current_reader {S}.
Arguments remote_fs {S}.
Arguments ft_pending {S}.
Arguments config {S}.

Record MediaEnv := mkMediaEnv {
  images_folder_ok : bool;
  image_stat : option Z;                      (** the size of the image file *)
  probe : nat -> option HttpResponse;         (** answers to the range probe *)
  nbd_starts : bool; nbd_ready : bool;
  ft_image_stat : bool;
  save_target : bool;                         (** whether the configuration is saved *)
  builtin_image : option Z;                   (** the size of the embedded image *)
  builtin_written : bool;
  fs_env : FsEnv }.

Definition with_stat (z : option Z) (env : MediaEnv) : MediaEnv :=
  mkMediaEnv (images_folder_ok env) z (probe env) (nbd_starts env) (nbd_ready env) (ft_image_stat env)
    (save_target env) (builtin_image env) (builtin_written env) (fs_env env).

Section media.
Context {S : Type} `{UsbSidecar S} (bus : nat -> Query -> BusOutcome).

Definition MediaM (A : Type) : Type := SE (App S) string A.

Definition set_usb (c : UsbClient S) (a : App S) : App S :=
  mkApp (Some c) (virtual_media a) (nbd_device a) (current_reader a) (remote_fs a) (ft_pending a) (config a).
Definition set_vm (v : option VirtualMediaState) (a : App S) : App S :=
  mkApp (usb a) v (nbd_device a) (current_reader a) (remote_fs a) (ft_pending a) (config a).
Definition set_nbd (n : option (option ImageReader)) (a : App S) : App S :=
  mkApp (usb a) (virtual_media a) n (current_reader a) (remote_fs a) (ft_pending a) (config a).
Definition set_current_remote_image_reader (r : option ImageReader) (a : App S) : App S :=
  mkApp (usb a) (virtual_media a) (nbd_device a) r (remote_fs a) (ft_pending a) (config a).
Definition set_fs (f : RemoteFs) (a : App S) : App S :=
  mkApp (usb a) (virtual_media a) (nbd_device a) (current_reader a) f (ft_pending a) (config a).
Definition set_ft_pending (p : gset string) (a : App S) : App S :=
  mkApp (usb a) (virtual_media a) (nbd_device a) (current_reader a) (remote_fs a) p (config a).
Definition set_config (c : ConfigManager) (a : App S) : App S :=
  mkApp (usb a) (virtual_media a) (nbd_device a) (current_reader a) (remote_fs a) (ft_pending a) c.

(** [require_usb()?] and a request. *)
Definition with_usb {A} (k : ClientM S A) : MediaM A :=
  fun a => match usb a with
           | None => (a, Err "USB sidecar not available")
           | Some c => let '(c, r) := k c in (set_usb c a, r)
           end.

Definition in_fs {A} (k : FsM A) : MediaM A :=
  fun a => let '(f, r) := k (remote_fs a) in (set_fs f a, r).

Definition in_config {A} (k : Config.CM A) : MediaM A :=
  fun a => let '(c, r) := k (config a) in (set_config c a, result_map_err (fun _ => "config error") r).

(** ** Virtual media (storage.rs) *)

Definition get_vm_mode_from_sidecar : MediaM VirtualMediaMode :=
  let! state := with_usb (ums_get_mount_state bus UMS_VM) in
  se_ret (if (ur_vm_type state =? VM_DISK)%Z then DISK else CDROM).

Definition is_ums_unmount_path (image_path : string) : bool :=
  is_empty image_path || String.eqb image_path NEWLINE.

Inductive UsbTarget : Set := Usb0Lun0 | Usb1Lun0.

Definition set_mass_storage_image (image_path : string) (t : UsbTarget) : MediaM unit :=
  with_usb (se_ret tt) ;;;
  match t with
  | Usb0Lun0 =>
      if is_ums_unmount_path image_path then with_usb (ums_unmount_vm bus)
      else
        let! st := se_get virtual_media in
        let! mode := match st with Some s => se_ret (vs_mode s) | None => get_vm_mode_from_sidecar end in
        with_usb (ums_mount_vm bus image_path mode)
  | Usb1Lun0 =>
      if is_ums_unmount_path image_path then with_usb (ums_unmount_ft bus)
      else with_usb (ums_mount_ft bus image_path)
  end.

Definition set_mass_storage_mode (cdrom : bool) (t : UsbTarget) : MediaM unit :=
  match t with
  | Usb0Lun0 => with_usb (ums_switch_vm_mode bus (if cdrom then CDROM else DISK))
  | Usb1Lun0 => se_ret tt
  end.

Definition get_mass_storage_image (t : UsbTarget) : MediaM (option string) :=
  let! state := with_usb (ums_get_mount_state bus (match t with Usb0Lun0 => UMS_VM | Usb1Lun0 => UMS_FT end)) in
  se_ret (if ur_mounted state && negb (is_empty (ur_mounted_path state))
          then Some (ur_mounted_path state) else None).

Definition start_nbd (env : MediaEnv) : MediaM unit :=
  let! a := se_get id in
  match nbd_device a with
  | Some (Some _) => se_ret tt
  | _ =>
      se_modify (set_nbd (Some None)) ;;;
      se_guard (negb (nbd_starts env)) "failed to start nbd device" ;;;
      se_modify (fun a => set_nbd (Some (current_reader a)) a)
  end.

Definition wait_nbd_ready (env : MediaEnv) : MediaM unit :=
  se_guard (negb (nbd_ready env)) "nbd ready timeout".

(** Record the media unless one is recorded already. *)
Definition claim_media (st : VirtualMediaState) : MediaM unit :=
  let! cur := se_get virtual_media in
  se_guard (bool_decide (is_Some cur)) "another virtual media is already mounted" ;;;
  se_modify (set_vm (Some st)).

Definition serve_reader (env : MediaEnv) (r : ImageReader) : MediaM unit :=
  se_modify (set_current_remote_image_reader (Some r)) ;;;
  start_nbd env ;;;
  wait_nbd_ready env ;;;
  set_mass_storage_image "/dev/nbd0" Usb0Lun0.

Definition is_cdrom (m : VirtualMediaMode) : bool := match m with CDROM => true | DISK => false end.

Definition mount_with_http (env : MediaEnv) (url : string) (mode : VirtualMediaMode) : MediaM unit :=
  se_guard (negb (images_folder_ok env)) "failed to create images folder" ;;;
  set_mass_storage_mode (is_cdrom mode) Usb0Lun0 ;;;
  match reader_new url (probe env) with
  | Err _ => se_throw "range probe failed"
  | Ok (size, r) =>
      claim_media (mkVmState HTTP mode None (Some url) size) ;;;
      serve_reader env (HttpReader size r)
  end.

Definition mount_with_webrtc (env : MediaEnv) (filename : string) (size : Z) (mode : VirtualMediaMode)
  : MediaM unit :=
  set_mass_storage_mode (is_cdrom mode) Usb0Lun0 ;;;
  claim_media (mkVmState WebRTC mode (Some filename) None size) ;;;
  serve_reader env (WebRtcReader size).

Definition mount_with_storage (env : MediaEnv) (name : string) (mode : VirtualMediaMode) : MediaM unit :=
  let! filename := se_of_result (sanitize_filename name) in
  se_guard (negb (images_folder_ok env)) "failed to create images folder" ;;;
  let! size := se_of_result (ok_or (image_stat env) "failed to stat file") in
  set_mass_storage_mode (is_cdrom mode) Usb0Lun0 ;;;
  set_mass_storage_image (path_join IMAGES_FOLDER filename) Usb0Lun0 ;;;
  se_modify (set_vm (Some (mkVmState Storage mode (Some filename) None size))).

(** The image is there, or is written from the embedded ones. *)
Definition mount_built_in_image (env : MediaEnv) (filename : string) : MediaM unit :=
  let! name := se_of_result (sanitize_filename filename) in
  se_guard (negb (images_folder_ok env)) "failed to create images folder" ;;;
  if bool_decide (is_Some (image_stat env)) then mount_with_storage env name DISK
  else
    let! size := se_of_result (ok_or (builtin_image env) "image not found in built-in resources") in
    se_guard (negb (builtin_written env)) "failed to write embedded image" ;;;
    mount_with_storage (with_stat (Some size) env) name DISK.

Definition unmount_image (a : App S) : App S :=
  let a := match usb a with
           | Some c => set_usb (ums_unmount_vm bus c).1 a
           | None => a
           end in
  set_current_remote_image_reader None (set_vm None (set_nbd None a)).

(** ** The file transfer drive (storage.rs) *)

Definition get_file_transfer_state (a : App S) : App S * Pref.FileTransferTarget :=
  if is_mounted (remote_fs a) then (a, Pref.Kvm) else
  match usb a with
  | None => (a, Pref.TargetNone)
  | Some c =>
      let '(c, r) := ums_get_mount_state bus UMS_FT c in
      let ft := match r with Ok ft => ft | Err e => mkUmsResp false (Some e) false "" 0 end in
      (set_usb c a,
       if ur_mounted ft && String.eqb (ur_mounted_path ft) FT_IMAGE then Pref.RemoteUsb else Pref.TargetNone)
  end.

Definition file_transfer_state : MediaM Pref.FileTransferTarget := se_lift get_file_transfer_state.

Definition unload_with_file_img (env : MediaEnv) : MediaM unit :=
  se_modify (set_ft_pending ∅) ;;; in_fs (fs_unmount (fs_env env)).

Definition mount_with_file_img (env : MediaEnv) : MediaM unit :=
  let! target := file_transfer_state in
  match target with
  | Pref.RemoteUsb => se_ret tt
  | _ =>
      (match target with Pref.Kvm => unload_with_file_img env | _ => se_ret tt end) ;;;
      se_guard (negb (image_there (fs_env env))) "image file not found" ;;;
      se_guard (negb (ft_image_stat env)) "failed to stat file" ;;;
      set_mass_storage_mode false Usb1Lun0 ;;;
      set_mass_storage_image FT_IMAGE Usb1Lun0 ;;;
      in_config (set_ft_mount_target (save_target env) Pref.RemoteUsb)
  end.

Definition unmount_file_img (env : MediaEnv) : MediaM unit :=
  let! target := file_transfer_state in
  match target with
  | Pref.TargetNone => se_ret tt
  | _ =>
      (match target with
       | Pref.Kvm => unload_with_file_img env
       | _ => with_usb (ums_unmount_ft bus)
       end) ;;;
      in_config (set_ft_mount_target (save_target env) Pref.TargetNone)
  end.

Definition load_with_file_img (env : MediaEnv) : MediaM unit :=
  let! target := file_transfer_state in
  match target with
  | Pref.Kvm => se_ret tt
  | _ =>
      (match target with Pref.RemoteUsb => unmount_file_img env | _ => se_ret tt end) ;;;
      in_fs (fs_mount (fs_env env)) ;;;
      in_config (set_ft_mount_target (save_target env) Pref.Kvm)
  end.

(** *** Between the awaits

    No lock spans a hand-over of the drive: these are the operations above cut
    at their awaits ([alone_mount_with_file_img] and so on: run without
    interruption they are the same), where the parts of another request come in
    between. *)

Definition MediaTask (A : Type) : Type := Async (App S) string A.

Definition unload_with_file_img_steps (env : MediaEnv) : MediaTask unit :=
  at_once (se_modify (set_ft_pending ∅)) ;;> at_once (in_fs (fs_unmount (fs_env env))).

Definition mount_with_file_img_steps (env : MediaEnv) : MediaTask unit :=
  wait! target := at_once file_transfer_state in
  match target with
  | Pref.RemoteUsb => Done (Ok tt)
  | _ =>
      (match target with Pref.Kvm => unload_with_file_img_steps env | _ => Done (Ok tt) end) ;;>
      at_once (se_guard (negb (image_there (fs_env env))) "image file not found" ;;;
               se_guard (negb (ft_image_stat env)) "failed to stat file") ;;>
      at_once (set_mass_storage_mode false Usb1Lun0) ;;>
      at_once (set_mass_storage_image FT_IMAGE Usb1Lun0) ;;>
      at_once (in_config (set_ft_mount_target (save_target env) Pref.RemoteUsb))
  end.

Definition unmount_file_img_steps (env : MediaEnv) : MediaTask unit :=
  wait! target := at_once file_transfer_state in
  match target with
  | Pref.TargetNone => Done (Ok tt)
  | _ =>
      (match target with
       | Pref.Kvm => unload_with_file_img_steps env
       | _ => at_once (with_usb (ums_unmount_ft bus))
       end) ;;>
      at_once (in_config (set_ft_mount_target (save_target env) Pref.TargetNone))
  end.

Definition load_with_file_img_steps (env : MediaEnv) : MediaTask unit :=
  wait! target := at_once file_transfer_state in
  match target with
  | Pref.Kvm => Done (Ok tt)
  | _ =>
      (match target with Pref.RemoteUsb => unmount_file_img_steps env | _ => Done (Ok tt) end) ;;>
      at_once (in_fs (fs_mount (fs_env env))) ;;>
      at_once (in_config (set_ft_mount_target (save_target env) Pref.Kvm))
  end.

Lemma alone_unload env a : alone (unload_with_file_img_steps env) a = unload_with_file_img env a.
Proof.
  unfold unload_with_file_img_steps. rewrite alone_then.
  apply se_bind_ext; [apply alone_at_once|intros [] s; apply alone_at_once].
Qed.

Lemma alone_mount_with_file_img env a : alone (mount_with_file_img_steps env) a = mount_with_file_img env a.
Proof.
  unfold mount_with_file_img_steps, mount_with_file_img. rewrite alone_then. apply se_bind_ext; [apply alone_at_once|].
  intros [] s; [| |done].
  all: rewrite alone_then; apply se_bind_ext; [try apply alone_unload; done|intros [] s'].
  all: rewrite alone_then, se_bind_assoc; apply se_bind_ext; [apply alone_at_once|intros [] s2].
  all: rewrite alone_then; apply se_bind_ext; [apply alone_at_once|intros [] s3].
  all: rewrite alone_then; apply se_bind_ext; [apply alone_at_once|intros [] s4; apply alone_at_once].
Qed.

Lemma alone_unmount_file_img env a : alone (unmount_file_img_steps env) a = unmount_file_img env a.
Proof.
  unfold unmount_file_img_steps, unmount_file_img. rewrite alone_then. apply se_bind_ext; [apply alone_at_once|].
  intros [] s; [done| |].
  all: rewrite alone_then; apply se_bind_ext; [cbv iota; first [apply alone_unload|apply alone_at_once]|intros [] s'; apply alone_at_once].
Qed.

Lemma alone_load_with_file_img env a : alone (load_with_file_img_steps env) a = load_with_file_img env a.
Proof.
  unfold load_with_file_img_steps, load_with_file_img. rewrite alone_then. apply se_bind_ext; [apply alone_at_once|].
  intros [] s; [|done|].
  all: rewrite alone_then; apply se_bind_ext; [try apply alone_unmount_file_img; done|intros [] s'].
  all: rewrite alone_then; apply se_bind_ext; [apply alone_at_once|intros [] s2; apply alone_at_once].
Qed.
End media.
Arguments MediaM S A : clear implicits.
Arguments MediaTask S A : clear implicits.
