(* ===== verification/MediaProofs.v ===== *)
(** * Theorems on virtual media

    A mount that succeeds is served by the sidecar as it was asked for, from a
    state without leftovers; what a failed remote mount leaves behind; the
    drive that the device has mounted itself. *)

From S2P Require Import Prelude Text UsbPrefs Config Gadget Ums UsbControl UsbClient Paths RangeReader VirtualMedia.

Section proofs.
Context {S : Type} `{UsbSidecarLaws S} (bus : nat -> Query -> BusOutcome).
Implicit Types (a : App S) (c : UsbClient S).

(** ** Requests *)

Lemma send_ok {A} q (h : S -> S * A) c c' x :
  send bus q h c = (c', Ok x) -> h (sidecar c) = (sidecar c', x) /\ usb_info c' = usb_info c.
Proof.
  unfold send. destruct (bus _ _); [|done..]. destruct (h (sidecar c)) as [s y]. by intros [= <- <-].
Qed.

Lemma ums_control_ok req c c' :
  ums_control bus req c = (c', Ok tt) ->
  ∃ r, handle_ums req (sidecar c) = (sidecar c', r) /\ ur_ok r = true.
Proof.
  unfold ums_control, send_ums_control; se_unfold.
  destruct (send bus (QUms req) _ c) as [c1 [r|e]] eqn:Es; [|done]. apply send_ok in Es as [Es _].
  destruct (ur_ok r) eqn:Er; cbn; [|done]. intros [= <-]. eauto.
Qed.

Lemma get_state_ok target c c' r :
  ums_get_mount_state bus target c = (c', Ok r) -> sidecar c' = sidecar c /\ r = mount_state target (sidecar c).
Proof.
  unfold ums_get_mount_state, send_ums_control. intros [Hs _]%send_ok.
  pose proof (query_pure target (sidecar c)) as Hp. unfold mount_state. by rewrite Hs in *.
Qed.

Lemma with_usb_ok {A} (k : ClientM S A) a a' x :
  with_usb k a = (a', Ok x) -> ∃ c c', usb a = Some c /\ k c = (c', Ok x) /\ a' = set_usb c' a.
Proof.
  unfold with_usb. destruct (usb a) as [c|]; [|done]. destruct (k c) as [c' r] eqn:Ek. intros [= <- ->]. eauto.
Qed.

(** ** What is served *)

Definition serves a (path : string) (mode : VirtualMediaMode) : Prop :=
  ∃ c, usb a = Some c /\ mount_state UMS_VM (sidecar c) = mkUmsResp true None true path (vm_type_of mode).

(** The media type the sidecar has. *)
Definition sidecar_mode a : option Z := (fun c => ur_vm_type (mount_state UMS_VM (sidecar c))) <$> usb a.

Lemma switch_seen mode a a' :
  set_mass_storage_mode bus (is_cdrom mode) Usb0Lun0 a = (a', Ok tt) ->
  ∃ c, a' = set_usb c a /\ sidecar_mode a' = Some (vm_type_of mode).
Proof.
  cbn [set_mass_storage_mode]. intros (c & c' & Hu & Hk & ->)%with_usb_ok. exists c'. split; [done|].
  apply ums_control_ok in Hk as (r & Hk & Hr).
  assert (Hm : (if is_cdrom mode then CDROM else DISK) = mode) by (by destruct mode). rewrite Hm in Hk.
  unfold sidecar_mode. cbn. f_equal. by eapply vm_switch_seen.
Qed.

Lemma image_served path a a' :
  is_ums_unmount_path path = false ->
  set_mass_storage_image bus path Usb0Lun0 a = (a', Ok tt) ->
  ∃ c mode, a' = set_usb c a /\ serves a' path mode
    /\ match virtual_media a with
       | Some s => mode = vs_mode s
       | None => ∀ m, sidecar_mode a = Some (vm_type_of m) -> mode = m
       end.
Proof.
  intros Hp. unfold set_mass_storage_image. se_unfold. rewrite Hp.
  destruct (with_usb _ a) as [a0 [[]|]] eqn:E0; [|done].
  apply with_usb_ok in E0 as (c & c0 & Hu & [= <-] & ->).
  assert (Ha : set_usb c a = a) by (destruct a; cbn in Hu; by subst). rewrite Ha.
  assert (Hmount : ∀ mode a1 a2, with_usb (ums_mount_vm bus path mode) a1 = (a2, Ok tt) ->
            ∃ c2, a2 = set_usb c2 a1 /\ serves a2 path mode).
  { intros mode a1 a2 (c1 & c2 & _ & Hk & ->)%with_usb_ok. exists c2. split; [done|]. exists c2. split; [done|].
    apply ums_control_ok in Hk as (r & Hk & Hr). by eapply vm_mount_seen. }
  destruct (virtual_media a) as [st|] eqn:Ev.
  - intros (c2 & -> & Hs)%Hmount. eauto.
  - unfold get_vm_mode_from_sidecar. se_unfold.
    destruct (with_usb (ums_get_mount_state bus UMS_VM) a) as [a1 [r|]] eqn:E1; [|done].
    apply with_usb_ok in E1 as (c1 & c1' & Hu1 & [Hs Hr]%get_state_ok & ->).
    intros (c2 & -> & Hs2)%Hmount. exists c2. eexists. split_and!; [done|exact Hs2|].
    intros m Hm. unfold sidecar_mode in Hm. rewrite Hu1 in Hm. cbn in Hm. injection Hm as Hm.
    rewrite Hr, Hm. by destruct m.
Qed.

Lemma serves_set_vm a v path mode : serves a path mode -> serves (set_vm v a) path mode.
Proof. by intros (c & ? & ?); exists c. Qed.

Lemma images_path_mountable filename :
  is_ums_unmount_path (path_join IMAGES_FOLDER filename) = false.
Proof.
  unfold path_join. destruct (is_absolute filename) eqn:Ea; [|done].
  unfold is_ums_unmount_path. destruct (String.eqb_spec filename NEWLINE) as [->|]; [done|].
  by destruct filename.
Qed.

(** A mount from the image store is served, with the media type of whatever
    was recorded before it, if anything was. *)
Lemma storage_served env name mode a a' :
  mount_with_storage bus env name mode a = (a', Ok tt) ->
  ∃ filename size, sanitize_filename name = Ok filename
    /\ virtual_media a' = Some (mkVmState Storage mode (Some filename) None size)
    /\ serves a' (path_join IMAGES_FOLDER filename) (from_option vs_mode mode (virtual_media a)).
Proof.
  unfold mount_with_storage. se_unfold. destruct (sanitize_filename name) as [filename|]; [|done].
  destruct (images_folder_ok env); [|done]. destruct (image_stat env) as [size|]; [|done]. cbn [negb ok_or].
  destruct (set_mass_storage_mode _ _ _ a) as [a1 [[]|]] eqn:E1; [|done].
  apply switch_seen in E1 as (c1 & -> & Hmode).
  destruct (set_mass_storage_image _ _ _ _) as [a2 [[]|]] eqn:E2; [|done].
  apply image_served in E2 as (c2 & m & -> & Hs & Hm); [|apply images_path_mountable].
  intros [= <-]. exists filename, size. split_and!; [done..|]. apply serves_set_vm.
  replace (from_option vs_mode mode (virtual_media a)) with m; [done|].
  cbn in Hm. destruct (virtual_media a); cbn; [done|]. by apply Hm.
Qed.

(** ** Remote images *)

(** The block device only runs while media is recorded. *)
Definition nbd_idle a : Prop :=
  virtual_media a = None -> nbd_device a = None \/ nbd_device a = Some None.

Lemma claim_media_ok st a a' :
  claim_media st a = (a', Ok tt) -> virtual_media a = None /\ a' = set_vm (Some st) a.
Proof.
  unfold claim_media. se_unfold. case_bool_decide as Hv; [done|]. intros [= <-]. split; [|done].
  by apply eq_None_not_Some.
Qed.

Lemma serve_reader_ok env r st a a' :
  virtual_media a = Some st -> nbd_device a = None \/ nbd_device a = Some None ->
  serve_reader bus env r a = (a', Ok tt) ->
  virtual_media a' = Some st /\ nbd_device a' = Some (Some r) /\ current_reader a' = Some r
  /\ serves a' "/dev/nbd0" (vs_mode st).
Proof.
  intros Hv Hn. unfold serve_reader, start_nbd, wait_nbd_ready. se_unfold. cbn [id nbd_device set_current_remote_image_reader].
  assert (Hrun : ∀ x, (set_mass_storage_image bus "/dev/nbd0" Usb0Lun0 x = (a', Ok tt)) ->
            virtual_media x = Some st -> nbd_device x = Some (Some r) -> current_reader x = Some r ->
            virtual_media a' = Some st /\ nbd_device a' = Some (Some r) /\ current_reader a' = Some r
            /\ serves a' "/dev/nbd0" (vs_mode st)).
  { intros x Hx H1 H2 H3. apply image_served in Hx as (c & m & -> & Hs & Hm); [|done].
    rewrite H1 in Hm. by subst m. }
  destruct Hn as [-> | ->]; (destruct (nbd_starts env); cbn; [|done]);
    (destruct (nbd_ready env); cbn; [|done]); intros Hx; by apply (Hrun _ Hx).
Qed.

Lemma http_served env url mode a a' :
  nbd_idle a -> mount_with_http bus env url mode a = (a', Ok tt) ->
  ∃ size r, reader_new url (probe env) = Ok (size, r)
    /\ virtual_media a' = Some (mkVmState HTTP mode None (Some url) size)
    /\ nbd_device a' = Some (Some (HttpReader size r)) /\ current_reader a' = Some (HttpReader size r)
    /\ serves a' "/dev/nbd0" mode.
Proof.
  intros Hi. unfold mount_with_http. se_unfold. destruct (images_folder_ok env); [|done]. cbn [negb].
  destruct (set_mass_storage_mode _ _ _ a) as [a1 [[]|]] eqn:E1; [|done].
  apply switch_seen in E1 as (c1 & -> & _).
  destruct (reader_new url (probe env)) as [[size r]|]; [|done].
  destruct (claim_media _ _) as [a2 [[]|]] eqn:E2; [|done]. apply claim_media_ok in E2 as [Hv ->].
  intros Hs. exists size, r. split; [done|]. by eapply serve_reader_ok in Hs; [|done|apply Hi].
Qed.

Lemma http_needs_no_media env url mode a a' :
  mount_with_http bus env url mode a = (a', Ok tt) -> virtual_media a = None.
Proof.
  unfold mount_with_http. se_unfold. destruct (images_folder_ok env); [|done]. cbn [negb].
  destruct (set_mass_storage_mode _ _ _ a) as [a1 [[]|]] eqn:E1; [|done].
  apply switch_seen in E1 as (c1 & -> & _).
  destruct (reader_new url (probe env)) as [[size r]|]; [|done].
  destruct (claim_media _ _) as [a2 [[]|]] eqn:E2; [|done]. by apply claim_media_ok in E2 as [Hv _].
Qed.

Lemma webrtc_served env filename size mode a a' :
  nbd_idle a -> mount_with_webrtc bus env filename size mode a = (a', Ok tt) ->
  virtual_media a' = Some (mkVmState WebRTC mode (Some filename) None size)
  /\ nbd_device a' = Some (Some (WebRtcReader size)) /\ current_reader a' = Some (WebRtcReader size)
  /\ serves a' "/dev/nbd0" mode.
Proof.
  intros Hi. unfold mount_with_webrtc. se_unfold.
  destruct (set_mass_storage_mode _ _ _ a) as [a1 [[]|]] eqn:E1; [|done].
  apply switch_seen in E1 as (c1 & -> & _).
  destruct (claim_media _ _) as [a2 [[]|]] eqn:E2; [|done]. apply claim_media_ok in E2 as [Hv ->].
  intros Hs. by eapply serve_reader_ok in Hs; [|done|apply Hi].
Qed.

(** ** A failed remote mount *)

(** The block device does not start: the media stays recorded. *)
Lemma failed_nbd_keeps_media env url mode a a1 e :
  virtual_media a = None -> nbd_device a = None -> nbd_starts env = false ->
  mount_with_http bus env url mode a = (a1, Err e) ->
  virtual_media a1 = None
  \/ (∃ size, virtual_media a1 = Some (mkVmState HTTP mode None (Some url) size)).
Proof.
  intros Hv Hn Hs. unfold mount_with_http. se_unfold. destruct (images_folder_ok env); cbn [negb]; [|intros [= <- _]; by left].
  unfold set_mass_storage_mode, with_usb. destruct (usb a) as [c|]; [|intros [= <- _]; by left].
  destruct (ums_switch_vm_mode _ _ c) as [c' [[]|]]; [|intros [= <- _]; by left].
  destruct (reader_new url (probe env)) as [[size r]|]; [|intros [= <- _]; by left].
  unfold claim_media, serve_reader, start_nbd. se_unfold. cbn. rewrite Hv. cbn. rewrite Hn, Hs. cbn.
  intros [= <- _]. right. by exists size.
Qed.
End proofs.
