(* ===== verification/UsbSettings.v ===== *)
(** * USB settings of the application (hardware/usb/mod.rs, mcp_ssh.rs, network_adapter.rs)

    How preferences become a configuration of the sidecar: the overlay that SSH
    forwarding puts on the devices, retries, what is stored and when, and the
    MCP switch that also ends the agent's session.

    [USB_RECONCILE_LOCK] makes one step of each reconciliation.  What the
    switches of SSH and MCP store comes after it, outside of the lock: they are
    given twice, as operations that run without another in between, and cut at
    their awaits. *)

From S2P Require Import Prelude StateLaws Text Session AppState IpForward ControlLease SessionPlane UsbPrefs Config Gadget Ums NetAdapter UsbControl UsbClient VirtualMedia.

Import Pref.

(** ** Devices *)

(** The application and the sessions. *)
Record Device (S : Type) := mkDevice { d_app : App S; d_plane : Plane }.
Arguments mkDevice {S}.
Arguments d_app {S}.
Arguments d_plane {S}.

(** Which saves of the configuration succeed, and the rest of the system. *)
Record SettingsEnv := mkSettingsEnv {
  se_media : MediaEnv;
  save_mic : bool; save_devices : bool; save_mcp : bool; save_ssh : bool; save_usb_config : bool }.

Definition devices_for_apply (preference : UsbDevices) (ssh_forwarding : bool) : UsbDevices :=
  let d := with_adapter_enable ssh_forwarding preference in
  if ssh_forwarding
  then mkDevices (absolute_mouse d) false (keyboard d) (mass_storage_vm d) (mass_storage_ft d) false
         (camera d) (network_adapter d)
  else d.

Definition devices_for_persist (preference : UsbDevices) (ssh_forwarding : bool) : UsbDevices :=
  with_adapter_enable ssh_forwarding preference.

Definition gadget_switches_equal (a b : UsbDevices) : bool :=
  Bool.eqb (absolute_mouse a) (absolute_mouse b) && Bool.eqb (relative_mouse a) (relative_mouse b)
  && Bool.eqb (keyboard a) (keyboard b) && Bool.eqb (mass_storage_vm a) (mass_storage_vm b)
  && Bool.eqb (mass_storage_ft a) (mass_storage_ft b) && Bool.eqb (microphone a) (microphone b)
  && Bool.eqb (camera a) (camera b)
  && Bool.eqb (enable (network_adapter a)) (enable (network_adapter b))
  && bool_decide (adapter_type (network_adapter a) = adapter_type (network_adapter b)).

Definition l3_config_equal (a b : NetworkAdapterL3) : bool :=
  String.eqb (ip_address a) (ip_address b) && String.eqb (subnet_mask a) (subnet_mask b)
  && bool_decide (gateway a = gateway b) && bool_decide (dns_servers a = dns_servers b).

Definition network_adapter_l3_equal (a b : NetworkAdapter) : bool :=
  l3_config_equal (l3_config a) (l3_config b).

Inductive UsbDeviceType : Set :=
| AbsoluteMouse | RelativeMouse | Keyboard | MassStorageVm | MassStorageFt | Microphone | Camera.

Definition set_device (t : UsbDeviceType) (b : bool) (d : UsbDevices) : UsbDevices :=
  let '(mkDevices am rm kb vm ft mi ca na) := d in
  match t with
  | AbsoluteMouse => mkDevices b rm kb vm ft mi ca na
  | RelativeMouse => mkDevices am b kb vm ft mi ca na
  | Keyboard => mkDevices am rm b vm ft mi ca na
  | MassStorageVm => mkDevices am rm kb b ft mi ca na
  | MassStorageFt => mkDevices am rm kb vm b mi ca na
  | Microphone => mkDevices am rm kb vm ft b ca na
  | Camera => mkDevices am rm kb vm ft mi b na
  end.

Section settings.
Context {S : Type} `{UsbSidecar S} (bus : nat -> Query -> BusOutcome).

(** The configuration in memory. *)
Definition prefs (a : App S) : UsbPrefs := cfg_usb (mem (config a)).
Definition mcp (a : App S) : bool := cfg_mcp_enabled (mem (config a)).
Definition ssh (a : App S) : bool := cfg_ssh_forwarding_enabled (mem (config a)).
Definition mic_emulation (a : App S) : bool := effective_microphone_emulation (mem (config a)).

(** ** Reconciliation (mod.rs) *)

(** [more] further attempts after a rejection that may be retried. *)
Fixpoint reconcile_attempts (more : nat) (rt : RuntimeUsbConfig) (i : UsbDeviceInfo) (mic : bool)
  : ClientM S unit :=
  let! resp := apply_runtime_config bus rt i mic in
  if ar_ok resp then se_ret tt
  else if negb (ar_retryable resp) then se_throw "usb_devices runtime apply rejected"
  else match more with
       | O => se_throw "usb_devices runtime apply rejected"
       | Datatypes.S more => reconcile_attempts more rt i mic
       end.

Definition reconcile_usb_runtime (usb_config : UsbConfig) (devices : UsbDevices) : MediaM S unit :=
  fun a => match usb a with
           | None => (a, Err "UsbClient not initialized")
           | Some c =>
               let i := usb_info_for_reconcile devices c in
               let '(c, r) := reconcile_attempts 4 (runtime_usb_config_from_config usb_config) i
                                (mic_emulation a) c in
               (set_usb c a, r)
           end.

Definition store_devices (env : SettingsEnv) (d : UsbDevices) : MediaM S unit :=
  in_config (set_usb_devices (save_devices env) d).

Definition reboot_usb_manager_with_reason (env : SettingsEnv) (new_config : option UsbConfig)
    (new_devices : option UsbDevices) : MediaM S unit :=
  let! a := se_get id in
  let usb_config' := default (usb_config (prefs a)) new_config in
  let preference := default (usb_devices (prefs a)) new_devices in
  let apply_devices := devices_for_apply preference (ssh a) in
  let persist_devices := devices_for_persist preference (ssh a) in
  let prev_devices := usb_devices (prefs a) in
  let prev_apply := devices_for_apply prev_devices (ssh a) in
  se_guard (negb (bool_decide (is_Some (usb a)))) "UsbClient not initialized" ;;;
  let gadget_same := gadget_switches_equal prev_apply apply_devices in
  let usb_config_same := bool_decide (usb_config (prefs a) = usb_config') in
  let l3_same := network_adapter_l3_equal (network_adapter prev_apply) (network_adapter apply_devices) in
  if gadget_same && usb_config_same && negb l3_same then
    reconcile_usb_runtime usb_config' apply_devices ;;;
    store_devices env persist_devices
  else if gadget_same && usb_config_same && l3_same then
    if bool_decide (prev_devices = persist_devices) then se_ret tt
    else store_devices env persist_devices
  else
    reconcile_usb_runtime usb_config' apply_devices ;;;
    in_config (set_usb_config (save_usb_config env) usb_config') ;;;
    store_devices env persist_devices.

Definition reboot_usb_manager_by_device (env : SettingsEnv) (t : UsbDeviceType) (b : bool) : MediaM S unit :=
  let! d := se_get (fun a => usb_devices (prefs a)) in
  reboot_usb_manager_with_reason env None (Some (set_device t b d)).

(** ** MCP and SSH forwarding (mcp_ssh.rs) *)

(** Every failure is only logged. *)
Definition stop_mic_process_if_running (env : SettingsEnv) : MediaM S unit :=
  let! a := se_get id in
  if negb (mic_emulation a) then se_ret tt else
  match usb a with
  | None => se_ret tt
  | Some _ =>
      se_catch (with_usb (set_mic_process bus false)) ;;;
      se_catch (in_config (set_microphone_emulation (save_mic env) false)) ;;;
      se_ret tt
  end.

(** Up to five reconciliations; the settings are stored after the first that
    succeeds, one after the other. *)
Fixpoint ssh_attempts (more : nat) (env : SettingsEnv) (c : UsbConfig) (apply_devices persist_devices : UsbDevices)
    (mcp_enabled ssh_forwarding : bool) : MediaM S unit :=
  let! r := se_catch (reconcile_usb_runtime c apply_devices) in
  match r with
  | Ok _ =>
      store_devices env persist_devices ;;;
      in_config (Config.set_mcp_enabled (save_mcp env) mcp_enabled) ;;;
      in_config (set_ssh_forwarding_enabled (save_ssh env) ssh_forwarding)
  | Err e => match more with
             | O => se_throw e
             | Datatypes.S more =>
                 ssh_attempts more env c apply_devices persist_devices mcp_enabled ssh_forwarding
             end
  end.

Definition apply_ssh_forwarding_state (env : SettingsEnv) (mcp_enabled ssh_forwarding : bool) : MediaM S unit :=
  let! a := se_get id in
  let preference := usb_devices (prefs a) in
  let apply_devices := devices_for_apply preference ssh_forwarding in
  let persist_devices := devices_for_persist preference ssh_forwarding in
  let c := usb_config (prefs a) in
  (if ssh_forwarding then
     stop_mic_process_if_running env ;;;
     se_catch (unmount_file_img bus (se_media env)) ;;; se_ret tt
   else se_ret tt) ;;;
  ssh_attempts 4 env c apply_devices persist_devices mcp_enabled ssh_forwarding.

Definition reconcile_with_ssh_overlay (env : SettingsEnv) : MediaM S unit :=
  let! a := se_get id in
  let preference := usb_devices (prefs a) in
  let persist_devices := devices_for_persist preference (ssh a) in
  reconcile_usb_runtime (usb_config (prefs a)) (devices_for_apply preference (ssh a)) ;;;
  if Bool.eqb (enable (network_adapter preference)) (enable (network_adapter persist_devices))
  then se_ret tt else store_devices env persist_devices.

Definition set_ssh_forwarding (env : SettingsEnv) (enabled : bool) : MediaM S unit :=
  let! a := se_get id in
  se_guard (enabled && negb (mcp a)) "mcp_disabled: enable MCP before SSH Forwarding" ;;;
  if Bool.eqb enabled (ssh a) then se_ret tt
  else apply_ssh_forwarding_state env (mcp a) enabled.

(** What the session plane reads of the application: the MCP switch of the
    configuration, and whether media of a browser is mounted. *)
Definition webrtc_mounted (a : App S) : bool :=
  match virtual_media a with Some (mkVmState WebRTC _ _ _ _) => true | _ => false end.
Definition sees (a : App S) (p : Plane) : Plane :=
  let w := world p in
  set_webrtc_media (webrtc_mounted a)
    (set_world (mkWorld (app w) (lease w) (generation w) (uuids w) (clock w) (mcp a) (tickets w)
                  (timers w) (outbox w) (hid_deny_log_counter w)) p).

(** The last session takes the media of its browser with it. *)
Definition disconnect_agent_for_mcp_off (d : Device S) : Device S :=
  let a := d_app d in
  let p := d_plane d in
  match get_session_for_role (papp p) Agent with
  | None => d
  | Some s =>
      let p' := (remove_and_close_session true (session_id s) p).1 in
      mkDevice (if webrtc_media p && negb (webrtc_media p') then unmount_image bus a else a) p'
  end.

Definition set_mcp_enabled (env : SettingsEnv) (enabled : bool) (d : Device S) : Device S * Result string unit :=
  let a := d_app d in
  if Bool.eqb enabled (mcp a) then (d, Ok tt)
  else if enabled then
    let '(a, r) := in_config (Config.set_mcp_enabled (save_mcp env) true) a in
    (mkDevice a (sees a (d_plane d)), r)
  else
    let '(a, r) := (if ssh a then apply_ssh_forwarding_state env false false
                    else in_config (Config.set_mcp_enabled (save_mcp env) false)) a in
    let d := mkDevice a (sees a (d_plane d)) in
    match r with
    | Err e => (d, Err e)
    | Ok _ => (disconnect_agent_for_mcp_off d, Ok tt)
    end.

(** *** Between the awaits

    The two switches as other requests see them: each access to the
    configuration and each request to the bus is a step of its own. *)

Definition stop_mic_steps (env : SettingsEnv) : MediaTask S unit :=
  wait! running := at_once (se_get mic_emulation) in
  if negb running then Done (Ok tt) else
  wait! client := at_once (se_get usb) in
  match client with
  | None => Done (Ok tt)
  | Some _ =>
      catch_async (at_once (with_usb (set_mic_process bus false))) ;;>
      catch_async (at_once (in_config (set_microphone_emulation (save_mic env) false))) ;;>
      Done (Ok tt)
  end.

Fixpoint ssh_attempts_steps (more : nat) (env : SettingsEnv) (c : UsbConfig) (apply_devices persist_devices : UsbDevices)
    (mcp_enabled ssh_forwarding : bool) : MediaTask S unit :=
  wait! r := catch_async (at_once (reconcile_usb_runtime c apply_devices)) in
  match r with
  | Ok _ =>
      at_once (store_devices env persist_devices) ;;>
      at_once (in_config (Config.set_mcp_enabled (save_mcp env) mcp_enabled)) ;;>
      at_once (in_config (set_ssh_forwarding_enabled (save_ssh env) ssh_forwarding))
  | Err e => match more with
             | O => Done (Err e)
             | Datatypes.S more =>
                 ssh_attempts_steps more env c apply_devices persist_devices mcp_enabled ssh_forwarding
             end
  end.

Definition apply_ssh_forwarding_steps (env : SettingsEnv) (mcp_enabled ssh_forwarding : bool) : MediaTask S unit :=
  wait! preference := at_once (se_get (fun a => usb_devices (prefs a))) in
  wait! c := at_once (se_get (fun a => usb_config (prefs a))) in
  (if ssh_forwarding then
     stop_mic_steps env ;;>
     catch_async (unmount_file_img_steps bus (se_media env)) ;;> Done (Ok tt)
   else Done (Ok tt)) ;;>
  ssh_attempts_steps 4 env c (devices_for_apply preference ssh_forwarding)
    (devices_for_persist preference ssh_forwarding) mcp_enabled ssh_forwarding.

Definition set_ssh_forwarding_steps (env : SettingsEnv) (enabled : bool) : MediaTask S unit :=
  wait! mcp_on := at_once (se_get mcp) in
  wait! prev := at_once (se_get ssh) in
  at_once (se_guard (enabled && negb mcp_on) "mcp_disabled: enable MCP before SSH Forwarding") ;;>
  if Bool.eqb enabled prev then Done (Ok tt)
  else apply_ssh_forwarding_steps env mcp_on enabled.

(** A task of the application, with the sessions beside it. *)
Fixpoint in_app {A} (m : MediaTask S A) : Async (Device S) string A :=
  match m with
  | Done r => Done r
  | Step f => Step (fun d => let '(a, m) := f (d_app d) in
                             (mkDevice a (sees a (d_plane d)), in_app m))
  end.

Definition set_mcp_enabled_steps (env : SettingsEnv) (enabled : bool) : Async (Device S) string unit :=
  wait! prev_mcp := at_once (se_get (fun d => mcp (d_app d))) in
  wait! prev_ssh := at_once (se_get (fun d => ssh (d_app d))) in
  if Bool.eqb enabled prev_mcp then Done (Ok tt)
  else if enabled then in_app (at_once (in_config (Config.set_mcp_enabled (save_mcp env) true)))
  else
    (if prev_ssh : bool then in_app (apply_ssh_forwarding_steps env false false)
     else in_app (at_once (in_config (Config.set_mcp_enabled (save_mcp env) false)))) ;;>
    at_once (se_modify disconnect_agent_for_mcp_off).

Lemma alone_stop_mic env a : alone (stop_mic_steps env) a = stop_mic_process_if_running env a.
Proof.
  unfold stop_mic_steps, stop_mic_process_if_running, se_get, id. rewrite alone_then.
  unfold se_bind at 1 2. rewrite alone_at_once. cbv beta iota.
  destruct (negb (mic_emulation a)); [done|]. rewrite alone_then. unfold se_bind at 1. rewrite alone_at_once.
  cbv beta iota. destruct (usb a); [|done].
  rewrite alone_then. apply se_bind_ext; [apply alone_catch_once|intros r s].
  rewrite alone_then. apply se_bind_ext; [apply alone_catch_once|done].
Qed.

Lemma alone_ssh_attempts more env c da dp m b a :
  alone (ssh_attempts_steps more env c da dp m b) a = ssh_attempts more env c da dp m b a.
Proof.
  revert a. induction more as [|more IH]; intros a; cbn [ssh_attempts_steps ssh_attempts]; rewrite alone_then;
    (apply se_bind_ext; [apply alone_catch_once|intros [[]|e] s; [|done || apply IH]]);
    (rewrite alone_then; apply se_bind_ext; [apply alone_at_once|intros [] s2]);
    (rewrite alone_then; apply se_bind_ext; [apply alone_at_once|intros [] s3; apply alone_at_once]).
Qed.

Lemma alone_apply_ssh env m b a : alone (apply_ssh_forwarding_steps env m b) a = apply_ssh_forwarding_state env m b a.
Proof.
  unfold apply_ssh_forwarding_steps, apply_ssh_forwarding_state, se_get, id. rewrite alone_then. unfold se_bind at 1 2.
  rewrite alone_at_once. cbv beta iota. rewrite alone_then. unfold se_bind at 1.
  rewrite alone_at_once. cbv beta iota zeta. rewrite alone_then.
  apply se_bind_ext; [|intros [] s; apply alone_ssh_attempts]. destruct b; [|done].
  rewrite alone_then. apply se_bind_ext; [apply alone_stop_mic|intros [] s].
  rewrite alone_then. apply se_bind_ext; [|done]. rewrite alone_catch. unfold se_catch. by rewrite alone_unmount_file_img.
Qed.

Lemma alone_set_ssh env b a : alone (set_ssh_forwarding_steps env b) a = set_ssh_forwarding env b a.
Proof.
  unfold set_ssh_forwarding_steps, set_ssh_forwarding, se_get, id. rewrite alone_then. unfold se_bind at 1 2.
  rewrite alone_at_once. cbv beta iota. rewrite alone_then. unfold se_bind at 1.
  rewrite alone_at_once. cbv beta iota. rewrite alone_then.
  apply se_bind_ext; [apply alone_at_once|intros [] s]. destruct (Bool.eqb b (ssh a)); [done|apply alone_apply_ssh].
Qed.

Lemma sees_again a a' p : sees a (sees a' p) = sees a p.
Proof. by destruct p as [[]]. Qed.

Lemma alone_in_app {A} (m : MediaTask S A) a p :
  alone (in_app m) (mkDevice a (sees a p)) = let '(a', r) := alone m a in (mkDevice a' (sees a' p), r).
Proof.
  revert a. induction m as [r|f IH] using async_ind; intros a; [done|]. cbn. specialize (IH a).
  destruct (f a) as [a1 m1]. cbn in *. by rewrite sees_again, IH.
Qed.

Lemma alone_in_app_step {A} f (m : MediaTask S A) d :
  m = Step f -> alone (in_app m) d = let '(a', r) := alone m (d_app d) in (mkDevice a' (sees a' (d_plane d)), r).
Proof. intros ->. cbn. destruct (f (d_app d)) as [a1 m1]. apply alone_in_app. Qed.

Lemma alone_set_mcp env b d : alone (set_mcp_enabled_steps env b) d = set_mcp_enabled env b d.
Proof.
  unfold set_mcp_enabled_steps, set_mcp_enabled, se_get. rewrite alone_then. unfold se_bind at 1. rewrite alone_at_once.
  cbv beta iota. rewrite alone_then. unfold se_bind at 1. rewrite alone_at_once.
  cbv beta iota zeta. destruct (Bool.eqb b (mcp (d_app d))); [done|]. destruct b.
  - erewrite alone_in_app_step by reflexivity. by rewrite alone_at_once.
  - rewrite alone_then. unfold se_bind. destruct (ssh (d_app d)).
    + erewrite alone_in_app_step by reflexivity. rewrite alone_apply_ssh.
      destruct (apply_ssh_forwarding_state _ _ _ _) as [a' [[]|e]]; [|done]. by rewrite alone_at_once.
    + erewrite alone_in_app_step by reflexivity. rewrite alone_at_once.
      destruct (in_config _ _) as [a' [[]|e]]; [|done]. by rewrite alone_at_once.
Qed.

(** ** The RPC handlers (jsonrpc.rs) *)

Record UsbDevicesState := mkDevState {
  st_absolute_mouse : bool; st_relative_mouse : bool; st_keyboard : bool; st_mass_storage : bool;
  st_microphone : bool; st_network_adapter : NetworkAdapter }.

Definition rpc_set_usb_devices (env : SettingsEnv) (state : UsbDevicesState) : MediaM S unit :=
  let! a := se_get id in
  se_guard (negb (Bool.eqb (enable (st_network_adapter state)) (ssh a))) "network_adapter_locked" ;;;
  let d := usb_devices (prefs a) in
  let d := mkDevices (st_absolute_mouse state) (st_relative_mouse state) (st_keyboard state)
             (st_mass_storage state) (st_mass_storage state) (st_microphone state) (camera d)
             (st_network_adapter state) in
  store_devices env d ;;;
  reconcile_with_ssh_overlay env.

Definition rpc_set_file_transfer (env : SettingsEnv) (enabled : bool) : MediaM S unit :=
  (if enabled then se_ret tt
   else let! t := file_transfer_state bus in
        match t with
        | RemoteUsb => unmount_file_img bus (se_media env)
        | _ => se_ret tt
        end) ;;;
  reboot_usb_manager_by_device env MassStorageFt enabled.

Definition rpc_set_usb_full_speed (env : SettingsEnv) (enabled : bool) : MediaM S unit :=
  let! a := se_get id in
  let c := usb_config (prefs a) in
  reboot_usb_manager_with_reason env
    (Some (mkUsbConfig (vendor_id c) (product_id c) (serial_number c) (manufacturer c) (product c) enabled))
    None.
End settings.
