(* ===== verification/SettingsProofs.v ===== *)
(** * Theorems on virtual media, the file transfer drive and USB settings

    All operations of the application on its drives and USB settings as one
    system, for every sidecar that keeps its promises and every behaviour of
    the bus: who has the image of the file transfer drive, what a mount that
    succeeded serves, what the settings that are stored say. *)

From S2P Require Import Prelude StateLaws Text Session AppState IpForward ControlLease SessionPlane PlaneProofs UsbPrefs Config ConfigProofs Gadget Ums NetAdapter UsbControl UsbClient Paths RangeReader VirtualMedia MediaProofs UsbSettings.

Import Pref.

Inductive DeviceOp : Type :=
| OpHttp (env : MediaEnv) (url : string) (mode : VirtualMediaMode)
| OpWebRtc (env : MediaEnv) (filename : string) (size : Z) (mode : VirtualMediaMode)
| OpStorage (env : MediaEnv) (name : string) (mode : VirtualMediaMode)
| OpBuiltIn (env : MediaEnv) (name : string)
| OpUnmountImage
| OpFtMount (env : MediaEnv)
| OpFtUnmount (env : MediaEnv)
| OpFtLoad (env : MediaEnv)
| OpReboot (env : SettingsEnv) (c : option UsbConfig) (d : option UsbDevices)
| OpOverlay (env : SettingsEnv)
| OpSsh (env : SettingsEnv) (b : bool)
| OpMcp (env : SettingsEnv) (b : bool)
| OpDevices (env : SettingsEnv) (st : UsbDevicesState)
| OpFileTransfer (env : SettingsEnv) (b : bool)
| OpFullSpeed (env : SettingsEnv) (b : bool).

Section proofs.
Context {S : Type} `{UsbSidecarLaws S} (bus : nat -> Query -> BusOutcome).
Implicit Types (a : App S) (c : UsbClient S).

Definition device_op (o : DeviceOp) (d : Device S) : Device S :=
  let on_app {A} (k : MediaM S A) := mkDevice (k (d_app d)).1 (d_plane d) in
  match o with
  | OpHttp env url mode => on_app (mount_with_http bus env url mode)
  | OpWebRtc env f size mode => on_app (mount_with_webrtc bus env f size mode)
  | OpStorage env name mode => on_app (mount_with_storage bus env name mode)
  | OpBuiltIn env name => on_app (mount_built_in_image bus env name)
  | OpUnmountImage => mkDevice (unmount_image bus (d_app d)) (d_plane d)
  | OpFtMount env => on_app (mount_with_file_img bus env)
  | OpFtUnmount env => on_app (unmount_file_img bus env)
  | OpFtLoad env => on_app (load_with_file_img bus env)
  | OpReboot env c devs => on_app (reboot_usb_manager_with_reason bus env c devs)
  | OpOverlay env => on_app (reconcile_with_ssh_overlay bus env)
  | OpSsh env b => on_app (set_ssh_forwarding bus env b)
  | OpMcp env b => (UsbSettings.set_mcp_enabled bus env b d).1
  | OpDevices env st => on_app (rpc_set_usb_devices bus env st)
  | OpFileTransfer env b => on_app (rpc_set_file_transfer bus env b)
  | OpFullSpeed env b => on_app (rpc_set_usb_full_speed bus env b)
  end.

Definition device_run (ops : list DeviceOp) (d : Device S) : Device S := fold_left (fun d o => device_op o d) ops d.

(** *** The settings only use a few operations *)
Section settings_ops.
Context (I : App S -> Prop).
Hypothesis I_mic : ∀ b, keeps I (with_usb (set_mic_process bus b)).
Hypothesis I_config : ∀ (k : Config.CM unit), keeps I (in_config k).
Hypothesis I_ft_state : keeps I (file_transfer_state bus).
Hypothesis I_reconcile : ∀ uc d, keeps I (reconcile_usb_runtime bus uc d).
Hypothesis I_ft_unmount : ∀ env, keeps I (unmount_file_img bus env).
Hypothesis I_unmount : ∀ a, I a -> I (unmount_image bus a).

#[local] Hint Resolve I_mic I_config I_ft_state I_reconcile I_ft_unmount : keeps.

Lemma keeps_reboot env uc d : keeps I (reboot_usb_manager_with_reason bus env uc d).
Proof. unfold reboot_usb_manager_with_reason, store_devices. keeps_solve. Qed.
Lemma keeps_overlay env : keeps I (reconcile_with_ssh_overlay bus env).
Proof. unfold reconcile_with_ssh_overlay, store_devices. keeps_solve. Qed.
Lemma keeps_ssh_attempts more env uc x y m s : keeps I (ssh_attempts bus more env uc x y m s).
Proof. induction more as [|more IH]; cbn [ssh_attempts]; unfold store_devices; keeps_solve. Qed.
#[local] Hint Resolve keeps_reboot keeps_overlay keeps_ssh_attempts : keeps.
Lemma keeps_apply_ssh env m s : keeps I (apply_ssh_forwarding_state bus env m s).
Proof. unfold apply_ssh_forwarding_state, stop_mic_process_if_running. keeps_solve. Qed.
#[local] Hint Resolve keeps_apply_ssh : keeps.

Lemma keeps_disconnect d : I (d_app d) -> I (d_app (disconnect_agent_for_mcp_off bus d)).
Proof.
  intros Hi. unfold disconnect_agent_for_mcp_off. destruct (get_session_for_role _ _); [|done].
  cbn [d_app]. destruct (_ && _); auto.
Qed.

Lemma keeps_set_mcp env b d : I (d_app d) -> I (d_app (UsbSettings.set_mcp_enabled bus env b d).1).
Proof.
  intros Hi. unfold UsbSettings.set_mcp_enabled. destruct (Bool.eqb _ _); [done|]. destruct b.
  - pose proof (I_config (Config.set_mcp_enabled (save_mcp env) true) _ Hi) as Hk.
    by destruct (in_config _ (d_app d)).
  - destruct (ssh (d_app d)).
    + pose proof (keeps_apply_ssh env false false _ Hi) as Hk.
      destruct (apply_ssh_forwarding_state _ _ _ _ (d_app d)) as [a' []]; [by apply keeps_disconnect|done].
    + pose proof (I_config (Config.set_mcp_enabled (save_mcp env) false) _ Hi) as Hk.
      destruct (in_config _ (d_app d)) as [a' []]; [by apply keeps_disconnect|done].
Qed.

(** Every operation on settings. *)
Lemma settings_keep o d :
  match o with
  | OpReboot _ _ _ | OpOverlay _ | OpSsh _ _ | OpMcp _ _ | OpDevices _ _ | OpFileTransfer _ _
  | OpFullSpeed _ _ => True
  | _ => False
  end -> I (d_app d) -> I (d_app (device_op o d)).
Proof.
  destruct o; try done; intros _ Hi; cbn [device_op d_app].
  - by apply keeps_reboot.
  - by apply keeps_overlay.
  - assert (Hk : keeps I (set_ssh_forwarding bus env b)) by (unfold set_ssh_forwarding; keeps_solve). by apply Hk.
  - by apply keeps_set_mcp.
  - assert (Hk : keeps I (rpc_set_usb_devices bus env st))
      by (unfold rpc_set_usb_devices, store_devices; keeps_solve). by apply Hk.
  - assert (Hk : keeps I (rpc_set_file_transfer bus env b))
      by (unfold rpc_set_file_transfer, reboot_usb_manager_by_device; keeps_solve). by apply Hk.
  - assert (Hk : keeps I (rpc_set_usb_full_speed bus env b)) by (unfold rpc_set_usb_full_speed; keeps_solve).
    by apply Hk.
Qed.
End settings_ops.

(** ** The block device runs only for recorded media *)

(** What leaves media, block device and reader alone. *)
Definition media_frame (I : App S -> Prop) : Prop :=
  ∀ a a', virtual_media a' = virtual_media a -> nbd_device a' = nbd_device a -> I a -> I a'.

Lemma nbd_idle_frame : media_frame nbd_idle.
Proof. intros a a' Hv Hn Hi. unfold nbd_idle in *. rewrite Hv, Hn. exact Hi. Qed.
Lemma recorded_frame : media_frame (fun a => virtual_media a ≠ None).
Proof. intros a a' Hv _. by rewrite Hv. Qed.

Section frame.
Context (I : App S -> Prop) (HI : media_frame I).

Lemma frame_with_usb {A} (k : ClientM S A) : keeps I (with_usb k).
Proof. intros a Ha. unfold with_usb. destruct (usb a) as [c|]; [|done]. destruct (k c). by apply (HI a). Qed.
Lemma frame_in_fs {A} (k : FsM A) : keeps I (in_fs k).
Proof. intros a Ha. unfold in_fs. destruct (k _). by apply (HI a). Qed.
Lemma frame_in_config {A} (k : Config.CM A) : keeps I (in_config k).
Proof. intros a Ha. unfold in_config. destruct (k _). by apply (HI a). Qed.
Lemma frame_modify f :
  (∀ a, virtual_media (f a) = virtual_media a) -> (∀ a, nbd_device (f a) = nbd_device a) ->
  keeps I (se_modify (E := string) f).
Proof. intros Hv Hn a Ha. eapply HI; [apply Hv|apply Hn|done]. Qed.
Lemma frame_ft_state : keeps I (file_transfer_state bus).
Proof.
  intros a Ha. unfold file_transfer_state, se_lift, get_file_transfer_state.
  destruct (is_mounted _); [done|]. destruct (usb a) as [c|]; [|done].
  destruct (ums_get_mount_state _ _ c). by apply (HI a).
Qed.
Lemma frame_reconcile (uc : UsbConfig) d : keeps I (reconcile_usb_runtime bus uc d).
Proof.
  intros a Ha. unfold reconcile_usb_runtime. destruct (usb a) as [cl|]; [|done].
  destruct (reconcile_attempts _ _ _ _ _ cl). by apply (HI a).
Qed.

#[local] Hint Resolve frame_with_usb frame_in_fs frame_in_config frame_ft_state frame_reconcile : keeps.

Lemma frame_set_image path t : keeps I (set_mass_storage_image bus path t).
Proof. unfold set_mass_storage_image, get_vm_mode_from_sidecar. keeps_solve. Qed.
Lemma frame_set_mode b t : keeps I (set_mass_storage_mode bus b t).
Proof. unfold set_mass_storage_mode. keeps_solve. Qed.
Lemma frame_unload env : keeps I (unload_with_file_img env).
Proof. unfold unload_with_file_img. apply keeps_bind; [by apply frame_modify|eauto with keeps]. Qed.
#[local] Hint Resolve frame_set_image frame_set_mode frame_unload : keeps.
Lemma frame_ft_unmount env : keeps I (unmount_file_img bus env).
Proof. unfold unmount_file_img. keeps_solve. Qed.
Lemma frame_ft_mount env : keeps I (mount_with_file_img bus env).
Proof. unfold mount_with_file_img. keeps_solve. Qed.
#[local] Hint Resolve frame_ft_unmount frame_ft_mount : keeps.
Lemma frame_ft_load env : keeps I (load_with_file_img bus env).
Proof. unfold load_with_file_img. keeps_solve. Qed.
End frame.

Lemma nbd_idle_kept o d : nbd_idle (d_app d) -> nbd_idle (d_app (device_op o d)).
Proof.
  pose proof nbd_idle_frame as Hf. intros Hi.
  assert (Hrec : ∀ a, virtual_media a ≠ None -> nbd_idle a) by (by intros a Hv Hn).
  assert (Hserve : ∀ env r a, virtual_media a ≠ None -> nbd_idle (serve_reader bus env r a).1).
  { intros env r a Hv. apply Hrec. revert a Hv. change (keeps (fun a => virtual_media a ≠ None) (serve_reader bus env r)).
    pose proof (frame_set_image _ recorded_frame) as Hs. unfold serve_reader, start_nbd, wait_nbd_ready.
    keeps_solve; by apply keeps_modify. }
  assert (Hclaim : ∀ st env r, keeps nbd_idle (claim_media st ;;; serve_reader bus env r)).
  { intros st env r a Ha. unfold se_bind. destruct (claim_media st a) as [a' [[]|e]] eqn:Ec.
    - apply claim_media_ok in Ec as [_ ->]. by apply Hserve.
    - revert Ec. unfold claim_media; se_unfold. case_bool_decide; by intros [= <- _]. }
  assert (Hmode : ∀ b t, keeps nbd_idle (set_mass_storage_mode bus b t)) by apply (frame_set_mode _ Hf).
  assert (Himg : ∀ p t, keeps nbd_idle (set_mass_storage_image bus p t)) by apply (frame_set_image _ Hf).
  assert (Hst : ∀ env n m, keeps nbd_idle (mount_with_storage bus env n m)).
  { intros env n m. unfold mount_with_storage. keeps_solve. by apply keeps_modify. }
  assert (Hun : ∀ a, nbd_idle (unmount_image bus a)) by (intros a _; left; by destruct (usb a)).
  pose proof (settings_keep nbd_idle (fun b => frame_with_usb _ Hf _) (fun k => frame_in_config _ Hf k)
    (frame_ft_state _ Hf) (frame_reconcile _ Hf) (frame_ft_unmount _ Hf) (fun a _ => Hun a)) as Hset.
  destruct o; try (by apply Hset);
    cbn [device_op d_app].
  - assert (Hk : keeps nbd_idle (mount_with_http bus env url mode)); [|by apply Hk].
    unfold mount_with_http. keeps_solve.
  - assert (Hk : keeps nbd_idle (mount_with_webrtc bus env filename size mode)); [|by apply Hk].
    unfold mount_with_webrtc. keeps_solve.
  - by apply Hst.
  - assert (Hk : keeps nbd_idle (mount_built_in_image bus env name)); [|by apply Hk].
    unfold mount_built_in_image. keeps_solve.
  - apply Hun.
  - by apply (frame_ft_mount _ Hf).
  - by apply (frame_ft_unmount _ Hf).
  - by apply (frame_ft_load _ Hf).
Qed.

(** C19: A mount that succeeds is real.  Operations run one after the other.
    Whatever was done before, with whatever failures of the bus, the system and
    the sidecar, after a mount of a remote image the host sees the block device,
    with the media type that was asked for, and the block device serves the
    reader of that image.  A mount from the image store is seen by the host as
    the file with the media type that was asked for only if no media is recorded
    when it starts; after a remote mount that failed half way one is, and then
    the host sees another media type ([failed_mount_haunts]).  In each case this
    is what is recorded. *)
Theorem mounted_media_is_served ops d0 :
  nbd_device (d_app d0) = None ->
  let a := d_app (device_run ops d0) in
  (∀ env url mode a', mount_with_http bus env url mode a = (a', Ok tt) ->
     ∃ size r, reader_new url (probe env) = Ok (size, r)
       /\ virtual_media a' = Some (mkVmState HTTP mode None (Some url) size)
       /\ nbd_device a' = Some (Some (HttpReader size r)) /\ serves a' "/dev/nbd0" mode)
  /\ (∀ env f size mode a', mount_with_webrtc bus env f size mode a = (a', Ok tt) ->
       virtual_media a' = Some (mkVmState WebRTC mode (Some f) None size)
       /\ nbd_device a' = Some (Some (WebRtcReader size)) /\ serves a' "/dev/nbd0" mode)
  /\ (∀ env name mode a', virtual_media a = None -> mount_with_storage bus env name mode a = (a', Ok tt) ->
       ∃ filename size, sanitize_filename name = Ok filename
         /\ virtual_media a' = Some (mkVmState Storage mode (Some filename) None size)
         /\ serves a' (path_join IMAGES_FOLDER filename) mode).
Proof.
  intros Hn a. assert (Hi : nbd_idle a).
  { apply (fold_left_inv (fun d => nbd_idle (d_app d))); [intros d o; apply nbd_idle_kept|]. intros _. by left. }
  split_and!.
  - intros env url mode a' (size & r & H1 & H2 & H3 & _ & H4)%http_served; [by exists size, r|done].
  - intros env f size mode a' (H1 & H2 & _ & H3)%webrtc_served; [done|done].
  - intros env name mode a' Hv (filename & size & H1 & H2 & H3)%storage_served. rewrite Hv in H3. eauto.
Qed.

(** A remote mount that fails is not undone: when the block device does not
    start, the media stays recorded; from then on every remote mount is refused,
    and an image mounted from the store is presented to the host with the media
    type of the failed mount while another one is recorded. *)
Theorem failed_mount_haunts env url mode a a1 e :
  virtual_media a = None -> nbd_device a = None -> nbd_starts env = false ->
  mount_with_http bus env url mode a = (a1, Err e) -> virtual_media a1 ≠ None ->
  (∀ env' url' mode' a', mount_with_http bus env' url' mode' a1 ≠ (a', Ok tt))
  /\ (∀ env' name mode' a2, mount_with_storage bus env' name mode' a1 = (a2, Ok tt) ->
       ∃ filename size, virtual_media a2 = Some (mkVmState Storage mode' (Some filename) None size)
         /\ serves a2 (path_join IMAGES_FOLDER filename) mode).
Proof.
  intros Hv Hn Hs Hm Hv1.
  destruct (failed_nbd_keeps_media bus env url mode a a1 e Hv Hn Hs Hm) as [|[size Hv2]]; [done|]. split.
  - intros env' url' mode' a' H1%http_needs_no_media. congruence.
  - intros env' name mode' a2 (filename & size' & H1 & H2 & H3)%storage_served.
    rewrite Hv2 in H3. exists filename, size'. by split.
Qed.
End proofs.
