(* ===== verification/DriveProofs.v ===== *)
(** * Theorems on the file transfer drive

    The image of the drive is a FAT file system that either the device or the
    host may write, never both: an invariant over all operations on drives and
    settings, for every sidecar that keeps its promises, as long as the answers
    about the drive arrive; what happens when one is lost, and when a loop
    device cannot be released. *)

From S2P Require Import Prelude StateLaws Text Session AppState IpForward ControlLease SessionPlane UsbPrefs Config Gadget Ums NetAdapter UsbControl UsbClient Paths RangeReader VirtualMedia MediaProofs UsbSettings SettingsProofs.

Section proofs.
Context {S : Type} `{UsbSidecarLaws S} (bus : nat -> Query -> BusOutcome).
Implicit Types (a : App S) (c : UsbClient S).

(** ** Requests that mount nothing on the file transfer drive *)

(** The description the client applied last has no path for the drive. *)
Definition pathless c : Prop := ui_ums_ft_path (usb_info c) = "".
Definition host_has c : bool := ft_mounted_at FT_IMAGE (sidecar c).

(** [c'] is [c] after requests that do not give the image to the host. *)
Definition no_grab c c' : Prop := pathless c -> pathless c' /\ (host_has c = false -> host_has c' = false).

#[local] Instance no_grab_preorder : PreOrder no_grab.
Proof. split; [by intros c|]. intros c1 c2 c3 H1 H2 [Hp Hh]%H1. apply H2 in Hp as [? ?]. split; auto. Qed.

Lemma send_no_grab {A} q (h : S -> S * A) c :
  (ft_mounted_at FT_IMAGE (sidecar c) = false -> ft_mounted_at FT_IMAGE (h (sidecar c)).1 = false) ->
  no_grab c (send bus q h c).1.
Proof.
  intros Hh Hp. unfold send, host_has, pathless in *.
  destruct (bus _ _); [destruct (h (sidecar c))|..]; cbn in *; by auto.
Qed.

Lemma ums_no_grab req c :
  uq_operation req ≠ UMS_MOUNT \/ uq_target req ≠ UMS_FT -> no_grab c (ums_control bus req c).1.
Proof.
  intros Hr. assert (Hs : no_grab c (send_ums_control bus req c).1).
  { apply send_no_grab. by apply ft_not_mounted_by. }
  unfold ums_control, se_bind, se_guard. destruct (send_ums_control bus req c) as [c' [r|]]; [|done].
  by destruct (negb _).
Qed.

Lemma query_no_grab t c : no_grab c (ums_get_mount_state bus t c).1.
Proof. apply send_no_grab. apply ft_not_mounted_by. by left. Qed.

Lemma mic_no_grab b c : no_grab c (set_mic_process bus b c).1.
Proof.
  assert (Hs : no_grab c (send bus (QMic b) (handle_mic b) c).1) by (apply send_no_grab, mic_mounts_nothing).
  unfold set_mic_process, se_bind. destruct (send _ _ _ c) as [c' [[]|]]; done.
Qed.

Lemma attempts_no_grab more rt i mic c :
  ui_ums_ft_path i = "" -> no_grab c (apply_runtime_attempts bus more rt i mic c).1.
Proof.
  intros Hi. revert c. induction more as [|more IH]; intros c; cbn [apply_runtime_attempts]; se_unfold;
    (assert (Hs : no_grab c (send bus (QRuntime mic rt i) (handle_runtime mic rt i) c).1)
       by (by apply send_no_grab, runtime_mounts_nothing));
    destruct (send _ _ _ c) as [c' [r|e]]; cbn [fst] in Hs.
  1,3: destruct (ar_ok r); [|done]; etrans; [exact Hs|]; done.
  - done.
  - etrans; [exact Hs|apply IH].
Qed.

Lemma reconcile_no_grab more rt i mic c :
  ui_ums_ft_path i = "" -> no_grab c (reconcile_attempts bus more rt i mic c).1.
Proof.
  intros Hi. revert c. induction more as [|more IH]; intros c; cbn [reconcile_attempts]; se_unfold;
    pose proof (attempts_no_grab 4 rt i mic c Hi) as Hs; unfold apply_runtime_config;
    destruct (apply_runtime_attempts _ _ _ _ _ c) as [c' [r|e]]; cbn [fst] in Hs; try done;
    destruct (ar_ok r); try done; destruct (negb _); try done.
  etrans; [exact Hs|apply IH].
Qed.

(** ** The invariant *)

Definition has_image (f : RemoteFs) : bool := kernel_mounted f.

(** The device knows when it has the image, and then the host has not. *)
Definition drive_safe a : Prop :=
  (has_image (remote_fs a) = true -> is_mounted (remote_fs a) = true)
  /\ ∀ c, usb a = Some c -> pathless c /\ (has_image (remote_fs a) = true -> host_has c = false).

Lemma safe_client c c' a : usb a = Some c -> no_grab c c' -> drive_safe a -> drive_safe (set_usb c' a).
Proof.
  intros Hu Hg [H1 H2]. split; [done|]. intros c1 [= <-]. destruct (H2 c Hu) as [Hp Hh].
  destruct (Hg Hp) as [Hp' Hh']. split; [done|]. cbn. auto.
Qed.

Lemma keeps_with_usb {A} (k : ClientM S A) : (∀ c, no_grab c (k c).1) -> keeps drive_safe (with_usb k).
Proof.
  intros Hk a Ha. unfold with_usb. destruct (usb a) as [c|] eqn:Hu; [|done]. specialize (Hk c).
  destruct (k c) as [c' r]. by eapply safe_client.
Qed.

Lemma keeps_same (a a' : App S) :
  usb a' = usb a -> remote_fs a' = remote_fs a -> drive_safe a -> drive_safe a'.
Proof. unfold drive_safe. by intros -> ->. Qed.

Lemma keeps_in_config {A} (k : Config.CM A) : keeps drive_safe (in_config k).
Proof. intros a Ha. unfold in_config. destruct (k _). by apply (keeps_same a). Qed.

Lemma keeps_ft_state : keeps drive_safe (file_transfer_state bus).
Proof.
  intros a Ha. unfold file_transfer_state, se_lift, get_file_transfer_state.
  destruct (is_mounted _); [done|]. destruct (usb a) as [c|] eqn:Hu; [|done].
  pose proof (query_no_grab UMS_FT c) as Hg. destruct (ums_get_mount_state _ _ c) as [c' r].
  by eapply safe_client.
Qed.

Lemma keeps_reconcile uc d : keeps drive_safe (reconcile_usb_runtime bus uc d).
Proof.
  intros a Ha. unfold reconcile_usb_runtime. destruct (usb a) as [c|] eqn:Hu; [|done].
  assert (Hp : ui_ums_ft_path (usb_info_for_reconcile d c) = "") by (by apply Ha in Hu as [Hp _]).
  pose proof (reconcile_no_grab 4 (runtime_usb_config_from_config uc) _ (mic_emulation a) c Hp) as Hg.
  destruct (reconcile_attempts _ _ _ _ _ c). by eapply safe_client.
Qed.

(** *** The commands of the device's own mount *)

(** Nothing but a mount gives the image to the device. *)
Definition fs_knows (f : RemoteFs) : Prop := has_image f = true -> is_mounted f = true.

Lemma fs_unmount_knows env f :
  fs_knows f ->
  let '(f', r) := fs_unmount env f in
  fs_knows f' /\ (has_image f' = true -> has_image f = true) /\ (r = Ok tt -> has_image f' = false).
Proof.
  unfold fs_knows, has_image, fs_unmount, unmount_filesystem, cleanup_loop_device. se_unfold. intros Hk. cbn.
  destruct f as [[dev|] [] [] loops]; cbn in *; destruct (umount_ok env), (losetup_d_ok env); cbn;
    split_and!; intros; try done; by specialize (Hk eq_refl).
Qed.

Lemma fs_mount_knows env f : fs_knows f -> fs_knows (fs_mount env f).1.
Proof.
  unfold fs_knows, has_image, fs_mount, is_mount_point_in_use, setup_loop_device, mount_loop_device. se_unfold.
  intros Hk. destruct (is_mounted f) eqn:Em; [by cbn; rewrite Em|].
  destruct (kernel_mounted f) eqn:Ek; [by specialize (Hk eq_refl)|].
  destruct (image_there env), (mkdir_point_ok env), (mountpoint_runs env); cbn; try congruence. rewrite Ek.
  destruct (losetup_f env) as [dev|]; cbn; [|congruence].
  destruct (losetup_ok env); cbn; [|congruence]. destruct (mount_ok env); cbn; congruence.
Qed.

Lemma keeps_unload env : keeps drive_safe (unload_with_file_img env).
Proof.
  intros a [H1 H2]. unfold unload_with_file_img, in_fs. se_unfold. cbn -[fs_unmount].
  pose proof (fs_unmount_knows (fs_env env) (remote_fs a) H1) as Hf.
  destruct (fs_unmount _ _) as [f' r]. destruct Hf as (Hk & Hi & _). split; [exact Hk|].
  intros c Hu. apply H2 in Hu as [Hp Hh]. split; [done|]. intros Hx. by apply Hh, Hi.
Qed.

Lemma unload_frees env a a' :
  drive_safe a -> unload_with_file_img env a = (a', Ok tt) -> has_image (remote_fs a') = false.
Proof.
  intros [H1 _]. unfold unload_with_file_img, in_fs. se_unfold. cbn -[fs_unmount].
  pose proof (fs_unmount_knows (fs_env env) (remote_fs a) H1) as Hf.
  destruct (fs_unmount _ _) as [f' r]. destruct Hf as (_ & _ & Hf). intros [= <- ->]. by apply Hf.
Qed.

#[local] Hint Resolve keeps_in_config keeps_ft_state keeps_reconcile keeps_unload : keeps.

Lemma keeps_ums req :
  uq_operation req ≠ UMS_MOUNT \/ uq_target req ≠ UMS_FT -> keeps drive_safe (with_usb (ums_control bus req)).
Proof. intros Hr. apply keeps_with_usb. intros c. by apply ums_no_grab. Qed.

Lemma keeps_ft_unmount env : keeps drive_safe (unmount_file_img bus env).
Proof.
  unfold unmount_file_img. keeps_solve. apply keeps_ums. by left.
Qed.

Lemma keeps_mode b t : keeps drive_safe (set_mass_storage_mode bus b t).
Proof. unfold set_mass_storage_mode. keeps_solve. apply keeps_ums. by left. Qed.

Lemma keeps_vm_image path : keeps drive_safe (set_mass_storage_image bus path Usb0Lun0).
Proof.
  unfold set_mass_storage_image, get_vm_mode_from_sidecar. keeps_solve;
    first [apply keeps_ums; by (left + right) | apply keeps_with_usb; intros c; first [apply query_no_grab | done]].
Qed.
#[local] Hint Resolve keeps_ft_unmount keeps_mode keeps_vm_image : keeps.

Lemma keeps_unmount_image a : drive_safe a -> drive_safe (unmount_image bus a).
Proof.
  intros Ha. apply keeps_same with (a := match usb a with
      | Some c => set_usb (ums_unmount_vm bus c).1 a | None => a end);
    [by unfold unmount_image; destruct (usb a)..|].
  destruct (usb a) as [c|] eqn:Hu; [|done]. eapply safe_client; [done|apply ums_no_grab; by left|done].
Qed.

(** *** Handing the image over *)

(** The state of the drive is what the sidecar says, when it answers. *)
Context (Hanswers : ∀ n, bus n (QUms (mount_state_request UMS_FT)) = Answered).

Lemma ft_state_spec a a' t :
  file_transfer_state bus a = (a', Ok t) ->
  remote_fs a' = remote_fs a
  /\ match t with
     | Pref.Kvm => is_mounted (remote_fs a) = true
     | Pref.RemoteUsb => is_mounted (remote_fs a) = false
     | Pref.TargetNone => is_mounted (remote_fs a) = false /\ ∀ c, usb a' = Some c -> host_has c = false
     end.
Proof.
  unfold file_transfer_state, se_lift, get_file_transfer_state.
  destruct (is_mounted _) eqn:Em; [by intros [= <- <-]|]. destruct (usb a) as [c|] eqn:Hu; [|intros [= <- <-]; by rewrite Hu].
  destruct (ums_get_mount_state bus UMS_FT c) as [c' [r|e]] eqn:Eq.
  - apply get_state_ok in Eq as [Hs Hr]. destruct (_ && _) eqn:Eb; intros [= <- <-]; [done|].
    split_and!; [done..|]. intros c1 [= <-]. unfold host_has, ft_mounted_at. by rewrite Hs, <- Hr.
  - revert Eq. unfold ums_get_mount_state, send_ums_control, send. rewrite Hanswers. by destruct (handle_ums _ _).
Qed.

Lemma host_gets_image a : has_image (remote_fs a) = false -> drive_safe a ->
  drive_safe (set_mass_storage_image bus FT_IMAGE Usb1Lun0 a).1.
Proof.
  intros Hf Hs. unfold set_mass_storage_image, with_usb. se_unfold. destruct (usb a) as [c|] eqn:Hu; [|exact Hs].
  pose proof (proj2 Hs c Hu) as [Hp _].
  assert (Hp' : pathless (ums_mount_ft bus FT_IMAGE c).1).
  { revert Hp. unfold pathless, ums_mount_ft, ums_control, send_ums_control, send. se_unfold.
    destruct (bus _ _); [destruct (handle_ums _ _) as [s r]; cbn; destruct (ur_ok r)|..]; done. }
  change (is_ums_unmount_path FT_IMAGE) with false. cbn [set_usb usb].
  destruct (ums_mount_ft _ _ c) as [c' r]. split; [intros Hx|intros c1 [= <-]; split; [done|intros Hx]];
    cbn in Hx; congruence.
Qed.

Lemma ft_mount_safe env : keeps drive_safe (mount_with_file_img bus env).
Proof.
  intros a Ha. unfold mount_with_file_img. unfold se_bind at 1.
  pose proof (keeps_ft_state a Ha) as H1. destruct (file_transfer_state bus a) as [a1 [t|]] eqn:Et; [|done].
  pose proof Et as Et'. apply ft_state_spec in Et as [Hfs Ht]. cbn [fst] in H1.
  assert (Hrest : ∀ a2, drive_safe a2 -> has_image (remote_fs a2) = false ->
    drive_safe ((se_guard (negb (image_there (fs_env env))) "image file not found" ;;;
      se_guard (negb (ft_image_stat env)) "failed to stat file" ;;;
      set_mass_storage_mode bus false Usb1Lun0 ;;;
      set_mass_storage_image bus FT_IMAGE Usb1Lun0 ;;;
      in_config (set_ft_mount_target (save_target env) Pref.RemoteUsb)) a2).1).
  { intros a2 Hs Hf. unfold se_bind at 1, se_guard. destruct (negb _); [done|].
    unfold se_bind at 1, se_guard. destruct (negb _); [done|]. unfold se_bind at 1. cbn [set_mass_storage_mode se_ret].
    pose proof (host_gets_image a2 Hf Hs) as Hi. unfold se_bind.
    destruct (set_mass_storage_image _ _ _ a2) as [a3 [[]|]]; [by apply keeps_in_config|done]. }
  destruct t; [| |done].
  - unfold se_bind at 1, se_ret. apply Hrest; [done|]. rewrite Hfs.
    destruct (has_image (remote_fs a)) eqn:Eh; [|done]. destruct Ha as [Hk _]. apply Hk in Eh. destruct Ht; congruence.
  - unfold se_bind at 1. pose proof (keeps_unload env a1 H1) as H2.
    destruct (unload_with_file_img env a1) as [a2 [[]|]] eqn:Eu; [|done].
    apply Hrest; [done|]. exact (unload_frees env a1 a2 H1 Eu).
Qed.

(** After an unmount that succeeded from the host's side nobody has it. *)
Lemma ft_unmount_frees env a a' :
  is_mounted (remote_fs a) = false -> unmount_file_img bus env a = (a', Ok tt) ->
  remote_fs a' = remote_fs a /\ ∀ c, usb a' = Some c -> host_has c = false.
Proof.
  intros Hm. unfold unmount_file_img, se_bind.
  destruct (file_transfer_state bus a) as [a1 [t|]] eqn:Et; [|done]. apply ft_state_spec in Et as [Hfs Ht].
  destruct t; [destruct Ht; by intros [= <-]|congruence|].
  destruct (with_usb _ a1) as [a2 [[]|]] eqn:Eu; [|done].
  apply with_usb_ok in Eu as (c & c' & Hu & (r & Hc & Hr)%ums_control_ok & ->).
  unfold in_config. destruct (set_ft_mount_target _ _ _) as [cfg [[]|]]; [|done]. intros [= <-]. split; [done|].
  intros c1 [= <-]. unfold host_has, ft_mounted_at. by erewrite ft_unmount_seen.
Qed.

Lemma ft_load_safe env : keeps drive_safe (load_with_file_img bus env).
Proof.
  intros a Ha. unfold load_with_file_img. unfold se_bind at 1.
  pose proof (keeps_ft_state a Ha) as H1. destruct (file_transfer_state bus a) as [a1 [t|]] eqn:Et; [|done].
  apply ft_state_spec in Et as [Hfs Ht]. cbn [fst] in H1.
  assert (Hrest : ∀ a2, drive_safe a2 -> (∀ c, usb a2 = Some c -> host_has c = false) ->
    drive_safe ((in_fs (fs_mount (fs_env env)) ;;;
                 in_config (set_ft_mount_target (save_target env) Pref.Kvm)) a2).1).
  { intros a2 [Hk Hc] Hh. unfold se_bind, in_fs. pose proof (fs_mount_knows (fs_env env) (remote_fs a2) Hk) as Hk'.
    assert (Hs : ∀ f, fs_knows f -> drive_safe (set_fs f a2)).
    { intros f Hf. split; [done|]. intros c Hu. destruct (Hc c Hu). split; [done|]. intros _. by apply Hh. }
    destruct (fs_mount _ _) as [f [[]|]]; [apply keeps_in_config|]; by apply Hs. }
  destruct t; [|done|].
  - unfold se_bind at 1, se_ret. destruct Ht. by apply Hrest.
  - unfold se_bind at 1. pose proof (keeps_ft_unmount env a1 H1) as H2.
    destruct (unmount_file_img bus env a1) as [a2 [[]|]] eqn:Eu; [|done].
    apply ft_unmount_frees in Eu as [_ Hh]; [|congruence]. by apply Hrest.
Qed.

Lemma drive_safe_kept o d : drive_safe (d_app d) -> drive_safe (d_app (device_op bus o d)).
Proof.
  intros Hi.
  pose proof (settings_keep bus drive_safe (fun b => keeps_with_usb _ (mic_no_grab b)) keeps_in_config
    keeps_ft_state keeps_reconcile keeps_ft_unmount keeps_unmount_image) as Hset.
  assert (Hserve : ∀ env r, keeps drive_safe (serve_reader bus env r)).
  { intros env r. unfold serve_reader, start_nbd, wait_nbd_ready. keeps_solve; apply keeps_modify; intros a; by apply keeps_same. }
  assert (Hclaim : ∀ st, keeps drive_safe (claim_media st)).
  { intros st. unfold claim_media. keeps_solve. apply keeps_modify; intros a; by apply keeps_same. }
  assert (Hst : ∀ env n m, keeps drive_safe (mount_with_storage bus env n m)).
  { intros env n m. unfold mount_with_storage. keeps_solve. apply keeps_modify; intros a; by apply keeps_same. }
  destruct o; try (by apply Hset); cbn [device_op d_app].
  - assert (Hk : keeps drive_safe (mount_with_http bus env url mode)) by (unfold mount_with_http; keeps_solve). by apply Hk.
  - assert (Hk : keeps drive_safe (mount_with_webrtc bus env filename size mode))
      by (unfold mount_with_webrtc; keeps_solve). by apply Hk.
  - by apply Hst.
  - assert (Hk : keeps drive_safe (mount_built_in_image bus env name))
      by (unfold mount_built_in_image; keeps_solve). by apply Hk.
  - by apply keeps_unmount_image.
  - by apply ft_mount_safe.
  - by apply keeps_ft_unmount.
  - by apply ft_load_safe.
Qed.

(** C18: The device and the host never have the image of the file transfer drive
    at the same time: over any sequence of mounts, unmounts, uploads of remote
    images, changes of USB settings and of the SSH and MCP switches, one request
    after the other, with every failure of system commands, saves and requests,
    as long as the sidecar answers the question whether the drive is mounted.
    Two requests for the drive that overlap can share the image
    ([overlapping_requests_share_image]), and so can one whose question is lost
    ([lost_query_shares_image]). *)
Theorem ft_image_never_shared ops d0 :
  drive_safe (d_app d0) ->
  let a := d_app (device_run bus ops d0) in
  ∀ c, usb a = Some c ->
  ~ (kernel_mounted (remote_fs a) = true /\ ft_mounted_at FT_IMAGE (sidecar c) = true).
Proof.
  intros Hd a c Hu [Hk Hh].
  assert (Hs : drive_safe a).
  { apply (fold_left_inv (fun d => drive_safe (d_app d))); [intros d o; apply drive_safe_kept|done]. }
  destruct Hs as [_ Hs]. destruct (Hs c Hu) as [_ Hn]. specialize (Hn Hk). unfold host_has in Hn. congruence.
Qed.
End proofs.

Section failures.
Context {S : Type} `{UsbSidecar S} (bus : nat -> Query -> BusOutcome).

(** Every command of a mount works. *)
Definition commands_work (env : FsEnv) : bool :=
  image_there env && mkdir_point_ok env && mountpoint_runs env && bool_decide (is_Some (losetup_f env))
  && losetup_ok env && mount_ok env.

Lemma fs_mount_works env f :
  commands_work env = true -> is_mounted f = false -> kernel_mounted f = false ->
  ∃ f', fs_mount env f = (f', Ok tt) /\ kernel_mounted f' = true /\ is_mounted f' = true.
Proof.
  unfold commands_work, fs_mount, is_mount_point_in_use, setup_loop_device, mount_loop_device. se_unfold.
  rewrite !andb_true_iff, bool_decide_eq_true. intros (((((-> & ->) & ->) & [dev ->]) & ->) & ->) -> Hk. cbn.
  rewrite Hk. cbn. by eexists.
Qed.

(** A lost question is taken for the answer that nothing is mounted: while
    the host has the image, loading it on the device after a query that was not
    sent mounts it there too, and both have it. *)
Theorem lost_query_shares_image env (a : App S) c :
  usb a = Some c -> ft_mounted_at FT_IMAGE (sidecar c) = true ->
  is_mounted (remote_fs a) = false -> kernel_mounted (remote_fs a) = false ->
  bus (queries c) (QUms (mount_state_request UMS_FT)) = NotSent ->
  commands_work (fs_env env) = true ->
  let a' := (load_with_file_img bus env a).1 in
  ∃ c', usb a' = Some c' /\ ft_mounted_at FT_IMAGE (sidecar c') = true
    /\ kernel_mounted (remote_fs a') = true.
Proof.
  intros Hu Hh Hm Hk Hb Hw. unfold load_with_file_img, file_transfer_state, in_fs. se_unfold.
  unfold get_file_transfer_state. rewrite Hm, Hu. unfold ums_get_mount_state, send_ums_control, send. rewrite Hb.
  cbn -[fs_mount String.eqb]. destruct (fs_mount_works _ _ Hw Hm Hk) as (f' & -> & Hk' & _).
  unfold in_config. destruct (set_ft_mount_target _ _ _) as [cfg r]. by eexists.
Qed.

(** A loop device that cannot be released once wedges the drive: the unmount
    fails after the file system is gone but still counts as mounted, and from
    then on every unmount and every mount to the host fails whatever the system
    does, while a load answers success with nothing mounted. *)
Theorem failed_detach_wedges_drive env (a : App S) dev :
  is_mounted (remote_fs a) = true -> kernel_mounted (remote_fs a) = true -> loop_device (remote_fs a) = Some dev ->
  umount_ok (fs_env env) = true -> losetup_d_ok (fs_env env) = false ->
  ∃ a1 e, unmount_file_img bus env a = (a1, Err e) /\ kernel_mounted (remote_fs a1) = false
  /\ ∀ env', (∃ a2 e', unmount_file_img bus env' a1 = (a2, Err e') /\ remote_fs a2 = remote_fs a1)
      /\ (∃ a2 e', mount_with_file_img bus env' a1 = (a2, Err e') /\ remote_fs a2 = remote_fs a1)
      /\ load_with_file_img bus env' a1 = (a1, Ok tt).
Proof.
  intros Hm Hk Hl Hu Hd.
  assert (Hstate : ∀ x : App S, is_mounted (remote_fs x) = true -> file_transfer_state bus x = (x, Ok Pref.Kvm)).
  { intros x Hx. unfold file_transfer_state, se_lift, get_file_transfer_state. by rewrite Hx. }
  assert (Hwedged : ∀ env' (x : App S), is_mounted (remote_fs x) = true -> kernel_mounted (remote_fs x) = false ->
    ∃ e, unload_with_file_img env' x = (set_ft_pending ∅ x, Err e)).
  { intros env' x Hx Hkx. unfold unload_with_file_img, in_fs, fs_unmount, unmount_filesystem. se_unfold. cbn.
    rewrite Hx. cbn. rewrite Hkx. cbn. eexists. f_equal. }
  eexists _, _. split.
  { unfold unmount_file_img, se_bind. rewrite Hstate by done.
    unfold unload_with_file_img, in_fs, fs_unmount, unmount_filesystem, cleanup_loop_device. se_unfold. cbn.
    rewrite Hm. cbn. rewrite Hk, Hu. cbn. rewrite Hl. cbn. rewrite Hd. cbn. reflexivity. }
  split; [done|]. intros env'. set (a1 := set_fs _ _).
  assert (H1 : is_mounted (remote_fs a1) = true) by done. assert (H2 : kernel_mounted (remote_fs a1) = false) by done.
  unfold unmount_file_img, mount_with_file_img, load_with_file_img, se_bind. rewrite !Hstate by done.
  destruct (Hwedged env' a1 H1 H2) as [e' ->]. split_and!; [by eexists _, _..|done].
Qed.
End failures.
