(* ===== verification/PrefsProofs.v ===== *)
(** * Theorems on the stored USB settings

    What the settings that are stored say about the network adapter and the two
    switches, that SSH forwarding hides the owner's preferences without losing
    them, and that switching MCP off ends the session of the agent. *)

From S2P Require Import Prelude StateLaws Text Session AppState IpForward ControlLease LeaseProofs SessionPlane PlaneProofs UsbPrefs Config ConfigProofs Gadget Ums NetAdapter UsbControl UsbClient Paths RangeReader VirtualMedia MediaProofs UsbSettings SettingsProofs.

Import Pref.

Section proofs.
Context {S : Type} `{UsbSidecar S} (bus : nat -> Query -> BusOutcome).
Implicit Types (a : App S).

Definition cfg a : Config := mem (config a).
Definition nic a : bool := enable (network_adapter (usb_devices (prefs a))).

(** ** Storing a setting *)

(** The effect of one stored setting, saved or not. *)
Lemma stored ok f a :
  config_valid (f (cfg a)) ->
  in_config (update ok f) a
  = (set_config (mkManager (f (cfg a)) (if ok then f (cfg a) else disk (config a))) a,
     if ok then Ok tt else Err "config error").
Proof.
  intros Hv. unfold in_config, update, update_locked, se_bind, save. fold (cfg a). rewrite validate_of_valid by done.
  by destruct ok.
Qed.

(** ** What leaves the configuration alone *)

Definition same_config {A} (k : MediaM S A) : Prop := ∀ a, config (k a).1 = config a.

Lemma same_with_usb {A} (k : ClientM S A) : same_config (with_usb k).
Proof. intros a. unfold with_usb. destruct (usb a) as [c|]; [|done]. by destruct (k c). Qed.
Lemma same_in_fs {A} (k : FsM A) : same_config (in_fs k).
Proof. intros a. unfold in_fs. by destruct (k _). Qed.
Lemma same_ft_state : same_config (file_transfer_state bus).
Proof.
  intros a. unfold file_transfer_state, se_lift, get_file_transfer_state.
  destruct (is_mounted _); [done|]. destruct (usb a) as [c|]; [|done]. by destruct (ums_get_mount_state _ _ c).
Qed.
Lemma same_reconcile uc d : same_config (reconcile_usb_runtime bus uc d).
Proof.
  intros a. unfold reconcile_usb_runtime. destruct (usb a) as [cl|]; [|done].
  by destruct (reconcile_attempts _ _ _ _ _ cl).
Qed.

(** ** The invariant *)

(** The adapter is on exactly with SSH forwarding, and that only with MCP. *)
Definition settled a : Prop :=
  config_valid (cfg a) /\ nic a = ssh a /\ (ssh a = true -> mcp a = true).

Definition settled_at (s m : bool) a : Prop := settled a /\ ssh a = s /\ mcp a = m.

Section at_switches.
Context (s m : bool).

Lemma keeps_same_config {A} (k : MediaM S A) : same_config k -> keeps (settled_at s m) k.
Proof.
  intros Hk a Ha. specialize (Hk a). unfold settled_at, settled, nic, ssh, mcp, prefs, cfg in *. by rewrite Hk.
Qed.

Lemma keeps_stored ok f :
  (∀ c, config_valid c -> config_valid (f c)) ->
  (∀ c, cfg_ssh_forwarding_enabled (f c) = cfg_ssh_forwarding_enabled c) ->
  (∀ c, cfg_mcp_enabled (f c) = cfg_mcp_enabled c) ->
  (∀ c, enable (network_adapter (usb_devices (cfg_usb c))) = s ->
        enable (network_adapter (usb_devices (cfg_usb (f c)))) = s) ->
  keeps (settled_at s m) (in_config (update ok f)).
Proof.
  intros H1 H2 H3 H4 a ((Hv & Hn & Hm) & Hs & Hmm). rewrite stored by (by apply H1).
  unfold settled_at, settled, nic, ssh, mcp, prefs, cfg in *. cbn. rewrite H2, H3, H4 by congruence.
  split_and!; auto; congruence.
Qed.

Lemma keeps_store_devices env d :
  enable (network_adapter d) = s -> keeps (settled_at s m) (store_devices env d).
Proof. intros Hd. apply keeps_stored; [by intros c []|done..]. Qed.

Lemma keeps_usb {A} (k : ClientM S A) : keeps (settled_at s m) (with_usb k).
Proof. apply keeps_same_config, same_with_usb. Qed.
Lemma keeps_fs {A} (k : FsM A) : keeps (settled_at s m) (in_fs k).
Proof. apply keeps_same_config, same_in_fs. Qed.
Lemma keeps_state : keeps (settled_at s m) (file_transfer_state bus).
Proof. apply keeps_same_config, same_ft_state. Qed.
Lemma keeps_reconcile' uc d : keeps (settled_at s m) (reconcile_usb_runtime bus uc d).
Proof. apply keeps_same_config, same_reconcile. Qed.
Lemma keeps_target ok t : keeps (settled_at s m) (in_config (set_ft_mount_target ok t)).
Proof. apply keeps_stored; [by intros c []|done..]. Qed.
Lemma keeps_usb_config ok u : keeps (settled_at s m) (in_config (set_usb_config ok u)).
Proof. apply keeps_stored; [by intros c []|done..]. Qed.
Lemma keeps_mic ok b : keeps (settled_at s m) (in_config (set_microphone_emulation ok b)).
Proof. apply keeps_stored; [by intros c []|done..]. Qed.
Lemma keeps_elsewhere f : (∀ a, config (f a) = config a) -> keeps (settled_at s m) (se_modify (E := string) f).
Proof. intros Hf. by apply keeps_same_config. Qed.

#[local] Hint Resolve keeps_usb keeps_fs keeps_state keeps_reconcile' keeps_target keeps_usb_config keeps_mic : keeps.
#[local] Hint Extern 1 (keeps _ (se_modify _)) => (by apply keeps_elsewhere) : keeps.

Lemma keeps_unload' env : keeps (settled_at s m) (unload_with_file_img env).
Proof. unfold unload_with_file_img. keeps_solve. Qed.
Lemma keeps_image path t : keeps (settled_at s m) (set_mass_storage_image bus path t).
Proof. unfold set_mass_storage_image, get_vm_mode_from_sidecar. keeps_solve. Qed.
Lemma keeps_mode' b t : keeps (settled_at s m) (set_mass_storage_mode bus b t).
Proof. unfold set_mass_storage_mode. keeps_solve. Qed.
#[local] Hint Resolve keeps_unload' keeps_image keeps_mode' : keeps.
Lemma keeps_ft_unmount' env : keeps (settled_at s m) (unmount_file_img bus env).
Proof. unfold unmount_file_img. keeps_solve. Qed.
#[local] Hint Resolve keeps_ft_unmount' : keeps.
Lemma keeps_serve env r : keeps (settled_at s m) (serve_reader bus env r).
Proof. unfold serve_reader, start_nbd, wait_nbd_ready. keeps_solve. Qed.
Lemma keeps_claim st : keeps (settled_at s m) (claim_media st).
Proof. unfold claim_media. keeps_solve. Qed.
Lemma keeps_storage env name mode : keeps (settled_at s m) (mount_with_storage bus env name mode).
Proof. unfold mount_with_storage. keeps_solve. Qed.
#[local] Hint Resolve keeps_serve keeps_claim keeps_storage : keeps.

(** The operations on drives. *)
Lemma drives_settled o d :
  match o with
  | OpHttp _ _ _ | OpWebRtc _ _ _ _ | OpStorage _ _ _ | OpBuiltIn _ _ | OpUnmountImage
  | OpFtMount _ | OpFtUnmount _ | OpFtLoad _ => True
  | _ => False
  end -> settled_at s m (d_app d) -> settled_at s m (d_app (device_op bus o d)).
Proof.
  destruct o; try done; intros _; cbn [device_op d_app].
  - revert d. enough (Hk : keeps (settled_at s m) (mount_with_http bus env url mode)) by (intros d; apply Hk).
    unfold mount_with_http. keeps_solve.
  - revert d. enough (Hk : keeps (settled_at s m) (mount_with_webrtc bus env filename size mode)) by (intros d; apply Hk).
    unfold mount_with_webrtc. keeps_solve.
  - apply keeps_storage.
  - revert d. enough (Hk : keeps (settled_at s m) (mount_built_in_image bus env name)) by (intros d; apply Hk).
    unfold mount_built_in_image. keeps_solve.
  - change (unmount_image bus (d_app d)) with (se_modify (E := string) (unmount_image bus) (d_app d)).1.
    apply keeps_elsewhere. intros a. unfold unmount_image. by destruct (usb a).
  - revert d. enough (Hk : keeps (settled_at s m) (mount_with_file_img bus env)) by (intros d; apply Hk).
    unfold mount_with_file_img. keeps_solve.
  - apply keeps_ft_unmount'.
  - revert d. enough (Hk : keeps (settled_at s m) (load_with_file_img bus env)) by (intros d; apply Hk).
    unfold load_with_file_img. keeps_solve.
Qed.

Lemma keeps_stop_mic env : keeps (settled_at s m) (stop_mic_process_if_running bus env).
Proof. unfold stop_mic_process_if_running. keeps_solve. Qed.

#[local] Hint Resolve keeps_store_devices keeps_stop_mic : keeps.

Lemma keeps_reboot' env uc d : keeps (settled_at s m) (reboot_usb_manager_with_reason bus env uc d).
Proof.
  unfold reboot_usb_manager_with_reason. apply keeps_read. intros x (_ & Hs & _). cbn [id]. rewrite Hs.
  keeps_solve; by apply keeps_store_devices.
Qed.

Lemma keeps_overlay' env : keeps (settled_at s m) (reconcile_with_ssh_overlay bus env).
Proof.
  unfold reconcile_with_ssh_overlay. apply keeps_read. intros x (_ & Hs & _). cbn [id]. rewrite Hs.
  keeps_solve; by apply keeps_store_devices.
Qed.
#[local] Hint Resolve keeps_reboot' keeps_overlay' : keeps.

Lemma keeps_set_devices env st : keeps (settled_at s m) (rpc_set_usb_devices bus env st).
Proof.
  unfold rpc_set_usb_devices. apply keeps_read. intros x (_ & Hs & _). cbn [id]. rewrite Hs.
  destruct (Bool.eqb (enable (st_network_adapter st)) s) eqn:Ee; cbn [negb].
  - apply Bool.eqb_prop in Ee. keeps_solve.
  - unfold se_guard. intros a Ha. done.
Qed.

Lemma keeps_set_ft env b : keeps (settled_at s m) (rpc_set_file_transfer bus env b).
Proof. unfold rpc_set_file_transfer, reboot_usb_manager_by_device. keeps_solve. Qed.

Lemma keeps_full_speed env b : keeps (settled_at s m) (rpc_set_usb_full_speed bus env b).
Proof. unfold rpc_set_usb_full_speed. keeps_solve. Qed.
End at_switches.

(** ** What the sidecar was told *)

Definition switches_of (d : UsbDevices) : option DeviceSwitches :=
  ui_switches (usb_info_from_devices_with_paths d "" "" 0).

(** The switches of the last description the sidecar accepted. *)
Definition told a : option DeviceSwitches := usb a ≫= fun c => ui_switches (usb_info c).

Lemma apply_runtime_ok more rt i mic c c' r :
  apply_runtime_attempts bus more rt i mic c = (c', Ok r) -> ar_ok r = true -> usb_info c' = i.
Proof.
  revert c. induction more as [|more IH]; intros c; cbn [apply_runtime_attempts]; se_unfold;
    destruct (send _ _ _ c) as [c1 [r1|e]]; try done; try (by apply IH);
    destruct (ar_ok r1) eqn:Er; intros [= <- <-]; congruence || done.
Qed.

Lemma reconcile_attempts_ok more rt i mic c c' :
  reconcile_attempts bus more rt i mic c = (c', Ok tt) -> usb_info c' = i.
Proof.
  revert c. induction more as [|more IH]; intros c; cbn [reconcile_attempts]; unfold apply_runtime_config; se_unfold;
    destruct (apply_runtime_attempts _ _ _ _ _ c) as [c1 [r1|e]] eqn:Ea; try done;
    (destruct (ar_ok r1) eqn:Er; [intros [= <-]; by eapply apply_runtime_ok|]);
    destruct (negb _); try done. by apply IH.
Qed.

Lemma reconcile_told uc d a a' :
  reconcile_usb_runtime bus uc d a = (a', Ok tt) -> told a' = switches_of d /\ config a' = config a.
Proof.
  intros Hr. split; [|pose proof (same_reconcile uc d a) as Hc; by rewrite Hr in Hc].
  revert Hr. unfold reconcile_usb_runtime, told. destruct (usb a) as [c|]; [|done].
  destruct (reconcile_attempts _ _ _ _ _ c) as [c' r] eqn:Er. intros [= <- ->]. cbn.
  apply reconcile_attempts_ok in Er as ->. done.
Qed.

(** ** Changing the switches *)

Definition ssh_saves (env : SettingsEnv) : bool := save_devices env && save_mcp env && save_ssh env.

(** The settings after a change of the switches. *)
Definition switched (d : UsbDevices) (m s : bool) (c : Config) : Config :=
  with_switches m s (Config.with_usb (with_devices d (cfg_usb c)) c).

Lemma store_switches env d m s a :
  config_valid (cfg a) ->
  let '(a', r) := (store_devices env d ;;; in_config (Config.set_mcp_enabled (save_mcp env) m) ;;;
                   in_config (set_ssh_forwarding_enabled (save_ssh env) s)) a in
  usb a' = usb a
  /\ match r with Ok _ => cfg a' = switched d m s (cfg a) /\ ssh_saves env = true | Err _ => ssh_saves env = false end.
Proof.
  intros [H1 H2 H3 H4]. unfold se_bind at 1, store_devices, set_usb_devices, ssh_saves. rewrite stored by done.
  destruct (save_devices env); [|done]. unfold se_bind, Config.set_mcp_enabled. rewrite stored by done.
  destruct (save_mcp env); [|done]. unfold set_ssh_forwarding_enabled. rewrite stored by done.
  by destruct (save_ssh env).
Qed.

Lemma ssh_attempts_spec more env uc x y m s a :
  config_valid (cfg a) ->
  let '(a', r) := ssh_attempts bus more env uc x y m s a in
  match r with
  | Ok _ => cfg a' = switched y m s (cfg a) /\ told a' = switches_of x
  | Err _ => ssh_saves env = true -> config a' = config a
  end.
Proof.
  revert a. induction more as [|more IH]; intros a Hv; cbn [ssh_attempts]; unfold se_bind at 1, se_catch;
    pose proof (same_reconcile uc x a) as Hc; pose proof (reconcile_told uc x a) as Ht;
    destruct (reconcile_usb_runtime bus uc x a) as [a1 [[]|e]]; cbn [fst] in Hc;
    assert (Hv1 : config_valid (cfg a1)) by (unfold cfg in *; by rewrite Hc).
  1,3: pose proof (store_switches env y m s a1 Hv1) as Hs; destruct (se_bind _ _ a1) as [a2 [[]|e]];
    destruct Hs as [Hu Hs]; [|congruence]; destruct (Ht a1 eq_refl) as [Ht1 _]; split;
      [destruct Hs as [-> _]; unfold cfg; by rewrite Hc|unfold told in *; by rewrite Hu].
  - cbn. intros _. exact Hc.
  - specialize (IH a1 Hv1). destruct (ssh_attempts _ _ _ _ _ _ _ _ a1) as [a2 [[]|e']]; unfold cfg in *; by rewrite Hc in IH.
Qed.

Lemma settled_here a : settled a -> settled_at (ssh a) (mcp a) a.
Proof. by split. Qed.

(** Before the devices are changed. *)
Definition prepare env (b : bool) : MediaM S unit :=
  if b then stop_mic_process_if_running bus env ;;;
            se_catch (unmount_file_img bus (se_media env)) ;;; se_ret tt
  else se_ret tt.

Lemma prepare_settled env b s m : keeps (settled_at s m) (prepare env b).
Proof.
  unfold prepare. pose proof (keeps_stop_mic s m env) as H1. pose proof (keeps_ft_unmount' s m (se_media env)) as H2. keeps_solve.
Qed.

(** Failures of the preparation are only logged. *)
Definition never_fails {A} (k : MediaM S A) : Prop := ∀ a, ∃ a' x, k a = (a', Ok x).

Lemma never_fails_bind {A B} (k : MediaM S A) (f : A -> MediaM S B) :
  never_fails k -> (∀ x, never_fails (f x)) -> never_fails (se_bind k f).
Proof. intros Hk Hf a. destruct (Hk a) as (a1 & x & E). unfold se_bind. rewrite E. apply Hf. Qed.

Lemma never_fails_catch {A} (k : MediaM S A) : never_fails (se_catch (F := string) k).
Proof. intros a. unfold se_catch. destruct (k a) as [a' r]. by exists a', r. Qed.

Lemma never_fails_ret {A} (x : A) : never_fails (se_ret x).
Proof. intros a. by exists a, x. Qed.

Lemma prepare_ok env b a : ∃ a1, prepare env b a = (a1, Ok tt).
Proof.
  assert (Hk : never_fails (prepare env b)).
  { unfold prepare. destruct b; [|apply never_fails_ret]. unfold stop_mic_process_if_running.
    repeat first [apply never_fails_bind; [|intros ?] | apply never_fails_catch | apply never_fails_ret
                 | case_match | by intros x; eexists _, _]. }
  destruct (Hk a) as (a1 & [] & E). by exists a1.
Qed.

(** One change of the switches. *)
Lemma apply_ssh_spec env m s a :
  settled a ->
  let '(a', r) := apply_ssh_forwarding_state bus env m s a in
  match r with
  | Ok _ => config_valid (cfg a') /\ ssh a' = s /\ mcp a' = m
      /\ usb_devices (prefs a') = devices_for_persist (usb_devices (prefs a)) s
      /\ told a' = switches_of (devices_for_apply (usb_devices (prefs a)) s)
  | Err _ => ssh_saves env = true -> settled_at (ssh a) (mcp a) a'
  end.
Proof.
  intros Ha. unfold apply_ssh_forwarding_state. unfold se_bind at 1, se_get, id.
  match goal with |- context [se_bind ?k _ a] => change k with (prepare env s) end.
  unfold se_bind at 1. destruct (prepare_ok env s a) as [a1 E1].
  pose proof (prepare_settled env s (ssh a) (mcp a) a (settled_here a Ha)) as H1.
  rewrite E1 in H1. rewrite E1. cbn [fst] in H1.
  pose proof H1 as ((Hv & _) & _).
  pose proof (ssh_attempts_spec 4 env (usb_config (prefs a)) (devices_for_apply (usb_devices (prefs a)) s)
    (devices_for_persist (usb_devices (prefs a)) s) m s a1 Hv) as H2.
  destruct (ssh_attempts _ _ _ _ _ _ _ _ a1) as [a2 [[]|e]].
  - destruct H2 as [Hc Ht]. unfold ssh, mcp, prefs. fold (cfg a2). rewrite Hc. split_and!; try done. by destruct Hv.
  - intros Hs. specialize (H2 Hs). unfold settled_at, settled, nic, ssh, mcp, prefs, cfg in *. by rewrite H2.
Qed.

Lemma apply_ssh_settled env m s a :
  settled a -> ssh_saves env = true -> (s = true -> m = true) ->
  settled (apply_ssh_forwarding_state bus env m s a).1.
Proof.
  intros Ha Hs Hm. pose proof (apply_ssh_spec env m s a Ha) as H1.
  destruct (apply_ssh_forwarding_state _ _ _ _ a) as [a' [[]|e]]; [|by apply H1].
  destruct H1 as (Hv & Hss & Hmm & Hd & _). unfold settled, nic. cbn [fst]. rewrite Hd, Hss, Hmm. done.
Qed.

Lemma set_ssh_ok env b a a' :
  b ≠ ssh a -> set_ssh_forwarding bus env b a = (a', Ok tt) ->
  (b = true -> mcp a = true) /\ apply_ssh_forwarding_state bus env (mcp a) b a = (a', Ok tt).
Proof.
  intros Hb. unfold set_ssh_forwarding, se_bind, se_get, se_guard, id.
  destruct (b && negb (mcp a)) eqn:Eb; [done|]. destruct (Bool.eqb b (ssh a)) eqn:Ee; [by apply Bool.eqb_prop in Ee|].
  intros Hk. split; [|done]. intros ->. by destruct (mcp a).
Qed.

(** Saves of the switches succeed. *)
Definition op_saves (o : DeviceOp) : bool :=
  match o with OpSsh env _ | OpMcp env _ => ssh_saves env | _ => true end.

Lemma unmount_settled a : settled a -> settled (unmount_image bus a).
Proof.
  intros Ha. assert (Hc : config (unmount_image bus a) = config a) by (unfold unmount_image; by destruct (usb a)).
  unfold settled, nic, ssh, mcp, prefs, cfg in *. by rewrite Hc.
Qed.

Lemma disconnect_settled d : settled (d_app d) -> settled (d_app (disconnect_agent_for_mcp_off bus d)).
Proof.
  intros Ha. unfold disconnect_agent_for_mcp_off. destruct (get_session_for_role _ _); [|done]. cbn.
  destruct (_ && _); [by apply unmount_settled|done].
Qed.

Lemma mcp_flag ok b a :
  settled a -> (ssh a = true -> b = true) -> settled (in_config (Config.set_mcp_enabled ok b) a).1.
Proof.
  intros (Hv & Hn & Hm) Hb. unfold Config.set_mcp_enabled. rewrite stored by (by destruct Hv).
  unfold settled, nic, ssh, mcp, prefs, cfg in *. cbn. split_and!; [by destruct Hv|done|done].
Qed.

Lemma settled_kept o d : op_saves o = true -> settled (d_app d) -> settled (d_app (device_op bus o d)).
Proof.
  intros Ho Ha. pose proof (settled_here _ Ha) as Hat. destruct o;
    try (by eapply proj1, drives_settled, Hat); cbn [device_op d_app].
  - eapply proj1, keeps_reboot', Hat.
  - eapply proj1, keeps_overlay', Hat.
  - unfold set_ssh_forwarding. unfold se_bind at 1, se_get, id. unfold se_bind, se_guard.
    destruct (b && negb (mcp (d_app d))) eqn:Eb; [done|]. destruct (Bool.eqb _ _); [done|].
    apply apply_ssh_settled; [done..|]. intros ->. by destruct (mcp (d_app d)).
  - unfold UsbSettings.set_mcp_enabled. destruct (Bool.eqb _ _); [done|]. destruct b.
    + pose proof (mcp_flag (save_mcp env) true _ Ha) as H1. destruct (in_config _ _). by apply H1.
    + destruct (ssh (d_app d)) eqn:Es.
      * pose proof (apply_ssh_settled env false false _ Ha Ho) as H1.
        destruct (apply_ssh_forwarding_state _ _ _ _ _) as [a' []]; [apply disconnect_settled|]; by apply H1.
      * pose proof (mcp_flag (save_mcp env) false _ Ha) as H1. rewrite Es in H1.
        destruct (in_config _ _) as [a' []]; [apply disconnect_settled|]; by apply H1.
  - eapply proj1, keeps_set_devices, Hat.
  - eapply proj1, keeps_set_ft, Hat.
  - eapply proj1, keeps_full_speed, Hat.
Qed.

(** C20: The stored settings stay consistent: over any sequence of operations on
    drives and settings, one after the other, whatever the sidecar, the bus and
    the system do, the network adapter is on exactly when SSH forwarding is, and
    that only while MCP is, as long as the saves of the two switches succeed; the
    configuration stays valid.  Operations that overlap can store the switches
    crosswise ([overlapping_switches_disagree]). *)
Theorem switches_consistent ops d0 :
  settled (d_app d0) -> forallb op_saves ops = true ->
  let a := d_app (device_run bus ops d0) in
  config_valid (cfg a) /\ nic a = ssh a /\ (ssh a = true -> mcp a = true).
Proof.
  intros Hd Ho. change (settled (d_app (device_run bus ops d0))). revert d0 Hd.
  induction ops as [|o ops IH]; intros d0 Hd; [done|]. cbn in Ho. apply andb_true_iff in Ho as [Ho Hops].
  by apply IH, settled_kept.
Qed.

(** SSH forwarding hides preferences without losing them: switched on, the
    sidecar is told to have the network adapter and neither relative mouse nor
    microphone, and the owner's choice of all devices stays stored; switched
    off again, whatever failed on the way and whatever was mounted, exactly the
    choice from before is stored and told. *)
Theorem ssh_toggle_restores env1 env2 a a1 a2 :
  settled a -> ssh a = false ->
  set_ssh_forwarding bus env1 true a = (a1, Ok tt) -> set_ssh_forwarding bus env2 false a1 = (a2, Ok tt) ->
  let d := usb_devices (prefs a) in
  (told a1 = switches_of (mkDevices (absolute_mouse d) false (keyboard d) (mass_storage_vm d) (mass_storage_ft d)
                            false (camera d) (mkAdapter true (adapter_type (network_adapter d)) (l3_config (network_adapter d))))
   /\ usb_devices (prefs a1) = with_adapter_enable true d)
  /\ usb_devices (prefs a2) = d /\ told a2 = switches_of d /\ ssh a2 = false /\ mcp a2 = true.
Proof.
  intros Ha Hs H1 H2 d. apply set_ssh_ok in H1 as [Hm H1]; [|by rewrite Hs].
  rewrite (Hm eq_refl) in H1.
  pose proof (apply_ssh_spec env1 true true a Ha) as A1. rewrite H1 in A1. destruct A1 as (Hv1 & Hs1 & Hm1 & Hd1 & Ht1).
  apply set_ssh_ok in H2 as [_ H2]; [|by rewrite Hs1]. rewrite Hm1 in H2.
  assert (Ha1 : settled a1) by (unfold settled, nic; rewrite Hd1, Hs1, Hm1; done).
  pose proof (apply_ssh_spec env2 true false a1 Ha1) as A2. rewrite H2 in A2.
  destruct A2 as (_ & Hs2 & Hm2 & Hd2 & Ht2). rewrite Hd1 in Hd2, Ht2.
  assert (Hd : devices_for_persist (devices_for_persist d true) false = d).
  { destruct Ha as (_ & Hn & _). unfold nic in Hn. rewrite Hs in Hn. fold d in Hn.
    destruct d as [? ? ? ? ? ? ? [e t l]]. cbn in Hn. by subst e. }
  split_and!; [done|done| |..|done|done].
  - rewrite Hd2. exact Hd.
  - rewrite Ht2. f_equal. exact Hd.
Qed.

(** ** Switching MCP off *)

Lemma slot_session bound_role w s :
  PlaneInv bound_role w -> get_session_for_role (app w) Agent = Some s ->
  sessions (app w) !! session_id s = Some s /\ session_role s = Agent.
Proof.
  intros [Hs Hr]. unfold get_session_for_role, get_session_by_id.
  destruct (role_sessions (app w) !! Agent) as [id|] eqn:Er; [|done]. intros Hid.
  destruct (Hs _ _ Hid) as [-> Hb]. split; [done|]. unfold bound in Hb. rewrite Hb.
  destruct (Hs _ _ Hid) as [-> _]. by apply Hr.
Qed.

(** After the agent's session is closed. *)
Lemma agent_closed bound_role id s p :
  PlaneInv bound_role (world p) -> get_session_for_role (papp p) Agent = Some s -> session_id s = id ->
  let p' := (remove_and_close_session true id p).1 in
  get_session_for_role (papp p') Agent = None /\ sessions (papp p') !! id = None
  /\ owner (lease (world p')) ≠ Some Agent /\ mcp_enabled (world p') = mcp_enabled (world p).
Proof.
  intros Hi Hg <-. destruct (slot_session bound_role _ _ Hi Hg) as [Hs Hr].
  unfold remove_and_close_session, remove_session.
  pose proof (remove_session_inner_spec (session_id s) None p) as H1.
  destruct (remove_session_inner _ None p) as [p1 [s1|]]; cbn [fst].
  - destruct H1 as (Hs1 & _ & Hd & Hro & _ & Hm & w1 & Hw1 & Hw2 & _ & Hl).
    assert (s1 = s) as -> by (unfold papp in *; congruence).
    unfold papp. rewrite cleanup_same_world. cbn [close_removed_session world set_closed].
    fold (papp p1). assert (Hslot : role_sessions (papp p1) !! Agent = None).
    { rewrite Hro. apply map_lookup_filter_None. right. intros id Hid Hne. apply Hne.
      unfold get_session_for_role, get_session_by_id in Hg. rewrite Hid in Hg.
      destruct Hi as [Hi _]. by destruct (Hi _ _ Hg) as [-> _]. }
    assert (Hoff : get_session_for_role (papp p1) Agent = None) by (unfold get_session_for_role; by rewrite Hslot).
    split_and!; [done| |  |done].
    + rewrite Hd. apply lookup_delete_eq.
    + rewrite Hl, on_session_removed_lease, removed_owner, Hr. unfold role_still_online.
      unfold get_session_for_role. rewrite Hw1, Hslot.
      rewrite (bool_decide_false (is_Some None)) by (by intros [? ?]). repeat case_bool_decide; cbn; congruence.
  - destruct H1 as [_ H1]. destruct (H1 s Hs) as (? & ? & _). done.
Qed.

(** Switching MCP off ends the agent: when the switch is stored, SSH
    forwarding is off too, the slot of the agent is empty, its session is no
    longer registered, it does not own control, and no session of an agent
    passes the HID gate. *)
Theorem mcp_off_ends_agent bound_role env d d' :
  settled (d_app d) -> PlaneInv bound_role (world (d_plane d)) -> mcp (d_app d) = true ->
  UsbSettings.set_mcp_enabled bus env false d = (d', Ok tt) ->
  let p := d_plane d' in
  mcp_enabled (world p) = false /\ get_session_for_role (papp p) Agent = None
  /\ (∀ s, get_session_for_role (papp (d_plane d)) Agent = Some s ->
        sessions (papp p) !! session_id s = None /\ owner (lease (world p)) ≠ Some Agent)
  /\ (∀ id s, sessions (papp p) !! id = Some s -> session_role s = Agent -> allows_hid (world p) id = false)
  /\ mcp (d_app d') = false /\ ssh (d_app d') = false.
Proof.
  intros Ha Hi Hm. unfold UsbSettings.set_mcp_enabled. rewrite Hm. cbn [Bool.eqb].
  assert (Hoff : ∀ a', (if ssh (d_app d) then apply_ssh_forwarding_state bus env false false
              else in_config (Config.set_mcp_enabled (save_mcp env) false)) (d_app d) = (a', Ok tt) ->
            mcp a' = false /\ ssh a' = false).
  { intros a'. destruct (ssh (d_app d)) eqn:Es.
    - intros Hap. pose proof (apply_ssh_spec env false false _ Ha) as Hsp. rewrite Hap in Hsp.
      by destruct Hsp as (_ & ? & ? & _).
    - destruct Ha as (Hv & _). unfold Config.set_mcp_enabled. rewrite stored by (by destruct Hv).
      destruct (save_mcp env); [|done]. intros [= <-]. by unfold mcp, ssh. }
  match goal with |- (let '(_, _) := ?k in _) = _ -> _ => destruct k as [a' [[]|]] eqn:Ek; [|done] end.
  destruct (Hoff a' eq_refl) as [Hm' Hs']. intros [= <-].
  assert (Hagents : ∀ w id s, mcp_enabled w = false -> sessions (app w) !! id = Some s -> session_role s = Agent ->
            allows_hid w id = false).
  { intros w id s Hw Hid Hr. unfold allows_hid, get_session_by_id. rewrite Hid, Hw, Hr. by destruct (negb _). }
  unfold disconnect_agent_for_mcp_off. cbn [d_app d_plane].
  change (papp (sees a' (d_plane d))) with (papp (d_plane d)).
  destruct (get_session_for_role (papp (d_plane d)) Agent) as [s|] eqn:Eg.
  - destruct (agent_closed bound_role (session_id s) s (sees a' (d_plane d)) ) as (H1 & H2 & H3 & H4); [by destruct Hi|done..|].
    cbn [d_app d_plane]. assert (Hw : mcp_enabled (world (remove_and_close_session true (session_id s) (sees a' (d_plane d))).1) = false)
      by (rewrite H4; exact Hm').
    split_and!; [done|done|by intros ? [= <-]| | |].
    + intros id s' Hid Hr. by eapply Hagents.
    + destruct (_ && _); [|done]. unfold unmount_image. by destruct (usb a').
    + destruct (_ && _); [|done]. unfold unmount_image. by destruct (usb a').
  - cbn [d_app d_plane]. split_and!; [done|done|done| |done|done].
    intros id s' Hid Hr. by eapply Hagents.
Qed.

(** A save that fails half way is not finished by a retry: when the cascade
    of switching MCP off stores the devices but not the switch, the request
    fails with MCP off and SSH forwarding on in memory, and the session of the
    agent is still registered; asking again answers success and changes
    nothing. *)
Theorem failed_mcp_save_keeps_agent env d a1 :
  settled (d_app d) -> mcp (d_app d) = true -> ssh (d_app d) = true ->
  reconcile_usb_runtime bus (usb_config (prefs (d_app d)))
    (devices_for_apply (usb_devices (prefs (d_app d))) false) (d_app d) = (a1, Ok tt) ->
  save_devices env = true -> save_mcp env = false ->
  ∃ d' e, UsbSettings.set_mcp_enabled bus env false d = (d', Err e)
  /\ mcp (d_app d') = false /\ ssh (d_app d') = true /\ nic (d_app d') = false
  /\ papp (d_plane d') = papp (d_plane d)
  /\ ∀ env', UsbSettings.set_mcp_enabled bus env' false d' = (d', Ok tt).
Proof.
  intros (Hv & _) Hm Hs Hr Hd Hmcp. unfold UsbSettings.set_mcp_enabled at 1. rewrite Hm, Hs. cbn [Bool.eqb].
  pose proof (same_reconcile (usb_config (prefs (d_app d)))
    (devices_for_apply (usb_devices (prefs (d_app d))) false) (d_app d)) as Hc. rewrite Hr in Hc. cbn [fst] in Hc.
  assert (Hv1 : config_valid (cfg a1)) by (unfold cfg; by rewrite Hc).
  unfold apply_ssh_forwarding_state, se_bind at 1, se_get, id. unfold se_bind at 1, se_ret.
  cbn [ssh_attempts]. unfold se_bind at 1, se_catch. rewrite Hr.
  unfold se_bind at 1, store_devices, set_usb_devices. rewrite stored, Hd by (by destruct Hv1).
  unfold se_bind, Config.set_mcp_enabled. rewrite stored, Hmcp by (by destruct Hv1).
  eexists _, _. split; [reflexivity|]. split; [done|]. split; [cbn; unfold cfg in *; by rewrite Hc|].
  split; [done|]. split; [done|]. intros env'. unfold UsbSettings.set_mcp_enabled. done.
Qed.
End proofs.
