(* ===== verification/Words.v ===== *)
(** * Lines and words (str::lines, split_whitespace)

    The text functions that the configuration files need, on byte strings, and
    what is left of a text after white space is trimmed or split at. *)

From S2P Require Import Prelude Text.

Definition LF : ascii := "010"%char.
Definition CR : ascii := "013"%char.

(** [str::lines]: a line feed ends a line and takes a carriage return before it
    along; an empty rest is no line. *)
Definition strip_cr (s : string) : string := default s (strip_suffix (String CR "") s).

Fixpoint lines_of (ps : list string) : list string :=
  match ps with
  | [] => []
  | [p] => if is_empty p then [] else [p]
  | p :: ps => strip_cr p :: lines_of ps
  end.

Definition lines (s : string) : list string := lines_of (split_on LF s).

(** Lines of text, each ended by a line feed. *)
Fixpoint unlines (ls : list string) : string :=
  match ls with
  | [] => EmptyString
  | l :: ls => l +:+ String LF (unlines ls)
  end.

(** The pieces between white space, empty ones included. *)
Definition push (a : ascii) (l : list string) : list string :=
  match l with [] => [String a EmptyString] | p :: ps => String a p :: ps end.

Fixpoint ws_pieces (s : string) : list string :=
  match s with
  | EmptyString => [EmptyString]
  | String a s1 =>
      if ws1 a then EmptyString :: ws_pieces s1 else
      match s1 with
      | String b s2 =>
          if ws2 a b then EmptyString :: ws_pieces s2 else
          match s2 with
          | String c s3 => if ws3 a b c then EmptyString :: ws_pieces s3 else push a (ws_pieces s1)
          | EmptyString => push a (ws_pieces s1)
          end
      | EmptyString => push a (ws_pieces s1)
      end
  end.

Definition split_whitespace (s : string) : list string :=
  List.filter (fun p => negb (is_empty p)) (ws_pieces s).

(** ** Words *)

(** A word: not empty, no white space inside. *)
Definition word (w : string) : Prop := w ≠ "" /\ ws_pieces w = [w].

Lemma push_app a l l' : l ≠ [] -> push a (l ++ l') = push a l ++ l'.
Proof. by destruct l. Qed.

Lemma ws_pieces_not_nil s : ws_pieces s ≠ [].
Proof.
  destruct s as [|a s]; cbn; [done|]. destruct (ws1 a); [done|].
  assert (Hp : ∀ l, push a l ≠ []) by (by intros []).
  repeat case_match; try done; apply Hp.
Qed.

(** Induction on strings in steps of up to three bytes. *)
Lemma string_ind3 (P : string -> Prop) :
  P EmptyString ->
  (∀ a s, (∀ s', (String.length s' <= String.length s)%nat -> P s') -> P (String a s)) ->
  ∀ s, P s.
Proof.
  intros H0 H1 s. remember (String.length s) as n eqn:Hn. assert (Hle : (String.length s <= n)%nat) by lia. clear Hn.
  revert s Hle. induction n as [|n IH]; intros [|a s] Hle; [done|cbn in Hle; lia|done|].
  apply H1. intros s' Hs'. apply IH. cbn in Hle. lia.
Qed.

(** The rest after one leading white space character. *)
Definition lead (s : string) : option string :=
  match s with
  | String a s1 =>
      if ws1 a then Some s1 else
      match s1 with
      | String b s2 =>
          if ws2 a b then Some s2 else
          match s2 with
          | String c s3 => if ws3 a b c then Some s3 else None
          | EmptyString => None
          end
      | EmptyString => None
      end
  | EmptyString => None
  end.

Lemma ws_pieces_step a s :
  ws_pieces (String a s)
  = match lead (String a s) with Some r => "" :: ws_pieces r | None => push a (ws_pieces s) end.
Proof.
  unfold lead. cbn [ws_pieces]. destruct (ws1 a); [done|]. destruct s as [|b s2]; [done|].
  destruct (ws2 a b); [done|]. destruct s2 as [|c s3]; [done|]. by destruct (ws3 a b c).
Qed.

Lemma trim_start_step s : trim_start s = match lead s with Some r => trim_start r | None => s end.
Proof.
  unfold lead. destruct s as [|a s]; [done|]. cbn [trim_start]. destruct (ws1 a); [done|].
  destruct s as [|b s]; [done|]. destruct (ws2 a b); [done|]. destruct s as [|c s]; [done|]. by destruct (ws3 a b c).
Qed.

Lemma lead_shorter s r : lead s = Some r -> (String.length r < String.length s)%nat.
Proof. unfold lead. repeat (case_match; try done); intros [= <-]; cbn; lia. Qed.

Lemma lead_prefix p t : lead (p +:+ t) = None -> lead p = None.
Proof.
  destruct p as [|a [|b [|c p]]]; [done|..]; rewrite ?str_app_cons; unfold lead; repeat case_match; done.
Qed.

(** No white space character holds an ASCII byte other than its own. *)
Lemma ws_ascii x : (0 <= byte_of x < 128)%Z -> ∀ a b, ws2 a x = false /\ ws2 x a = false /\ ws3 a b x = false
  /\ ws3 a x b = false /\ ws3 x a b = false.
Proof.
  intros Hx a b. unfold ws2, ws3. split_and!; lia.
Qed.

(** Whether the bytes at the end of [x] start a white space character does not
    depend on an ASCII byte after them. *)
Lemma lead_app x d y :
  x ≠ "" -> (0 <= byte_of d < 128)%Z -> lead (x +:+ String d y) = (fun r => r +:+ String d y) <$> lead x.
Proof.
  intros Hx Hd. destruct x as [|a x]; [done|]. destruct (ws_ascii d Hd a a) as (H1 & _ & _ & _ & _).
  destruct x as [|b [|c x]]; rewrite !str_app_cons;
    try (change ("" +:+ String d y) with (String d y)); cbn -[ws1 ws2 ws3 String.append];
    (destruct (ws1 a); [done|]).
  - rewrite H1. destruct y as [|c y]; [done|]. destruct (ws_ascii d Hd a c) as (_ & _ & _ & -> & _). done.
  - destruct (ws2 a b); [done|]. destruct (ws_ascii d Hd a b) as (_ & _ & -> & _ & _). done.
  - destruct (ws2 a b); [done|]. by destruct (ws3 a b c).
Qed.

Lemma ws_pieces_space x y : ws_pieces (x +:+ String " " y) = ws_pieces x ++ ws_pieces y.
Proof.
  induction x as [|a s IH] using string_ind3; [done|].
  rewrite str_app_cons, !ws_pieces_step. rewrite <- str_app_cons, lead_app by done.
  destruct (lead (String a s)) as [r|] eqn:E; cbn.
  - apply lead_shorter in E. cbn in E. by rewrite IH by lia.
  - rewrite IH by done. apply push_app, ws_pieces_not_nil.
Qed.

Lemma words_join l : Forall word l -> split_whitespace (str_join " " l) = l.
Proof.
  induction l as [|x l IH]; [done|]. intros [[Hx Hw] Hl]%Forall_cons. unfold split_whitespace in *.
  destruct l as [|y l]; [cbn; rewrite Hw; cbn; by destruct x|].
  change (str_join " " (x :: y :: l)) with (x +:+ String " " (str_join " " (y :: l))).
  rewrite ws_pieces_space, Hw. cbn [app List.filter]. destruct (is_empty x) eqn:E; [by destruct x|]. cbn.
  f_equal. by apply IH.
Qed.

(** The first piece is a prefix. *)
Lemma ws_pieces_head s : ∃ p ps t, ws_pieces s = p :: ps /\ s = p +:+ t.
Proof.
  induction s as [|a s IH] using string_ind3; [by exists "", [], ""|]. rewrite ws_pieces_step.
  destruct (lead (String a s)) as [r|]; [by exists "", (ws_pieces r), (String a s)|].
  destruct (IH s) as (p & ps & t & E & Es); [done|]. exists (String a p), ps, t. rewrite E. cbn.
  by rewrite str_app_cons, <- Es.
Qed.

(** No piece holds white space. *)
Lemma ws_pieces_pure s : Forall (fun p => ws_pieces p = [p]) (ws_pieces s).
Proof.
  induction s as [|a s IH] using string_ind3; [by repeat constructor|]. rewrite ws_pieces_step.
  destruct (lead (String a s)) as [r|] eqn:E.
  - apply lead_shorter in E. cbn in E. constructor; [done|apply IH; lia].
  - destruct (ws_pieces_head s) as (p & ps & t & Ep & Es). specialize (IH s ltac:(done)).
    rewrite Ep in *. apply Forall_cons in IH as [Hp Hps]. constructor; [|done].
    rewrite Es, <- str_app_cons in E. apply lead_prefix in E. by rewrite ws_pieces_step, E, Hp.
Qed.

Lemma split_whitespace_words s : Forall word (split_whitespace s).
Proof.
  unfold split_whitespace. pose proof (ws_pieces_pure s) as Hp. induction Hp as [|p ps H _ IH]; cbn; [by constructor|].
  destruct (is_empty p) eqn:E; cbn; [done|]. constructor; [|done]. split; [by intros ->|done].
Qed.

(** ** Trimming *)

Lemma string_rev_app_spec s acc : string_rev_app s acc = string_rev_app s "" +:+ acc.
Proof.
  revert acc. induction s as [|a s IH]; intros acc; [done|]. cbn.
  rewrite IH, (IH (String a "")), str_app_assoc. done.
Qed.

Definition srev (s : string) : string := string_rev_app s "".

Lemma srev_cons a s : srev (String a s) = srev s +:+ String a "".
Proof. unfold srev. cbn. apply string_rev_app_spec. Qed.

Lemma srev_app x y : srev (x +:+ y) = srev y +:+ srev x.
Proof.
  induction x as [|a x IH].
  - change ("" +:+ y) with y. by rewrite str_app_nil.
  - rewrite str_app_cons, !srev_cons, IH. apply str_app_assoc.
Qed.

Lemma srev_srev s : srev (srev s) = s.
Proof. induction s as [|a s IH]; [done|]. rewrite srev_cons, srev_app, IH. done. Qed.

Lemma srev_length s : String.length (srev s) = String.length s.
Proof. induction s as [|a s IH]; [done|]. rewrite srev_cons, str_length_app, IH. cbn. lia. Qed.

Definition lead_rev (s : string) : option string :=
  match s with
  | String a s1 =>
      if ws1 a then Some s1 else
      match s1 with
      | String b s2 =>
          if ws2 b a then Some s2 else
          match s2 with
          | String c s3 => if ws3 c b a then Some s3 else None
          | EmptyString => None
          end
      | EmptyString => None
      end
  | EmptyString => None
  end.

Lemma trim_end_rev_step s : trim_end_rev s = match lead_rev s with Some r => trim_end_rev r | None => s end.
Proof.
  unfold lead_rev. destruct s as [|a s]; [done|]. cbn [trim_end_rev]. destruct (ws1 a); [done|].
  destruct s as [|b s]; [done|]. destruct (ws2 b a); [done|]. destruct s as [|c s]; [done|]. by destruct (ws3 c b a).
Qed.

Lemma lead_rev_suffix s r : lead_rev s = Some r -> ∃ w, s = w +:+ r /\ (String.length r < String.length s)%nat.
Proof.
  unfold lead_rev. repeat (case_match; try done); intros [= <-];
    [eexists (String _ "")|eexists (String _ (String _ ""))|eexists (String _ (String _ (String _ "")))];
    (split; [reflexivity|cbn; lia]).
Qed.

Lemma lead_suffix s r : lead s = Some r -> ∃ w, s = w +:+ r.
Proof.
  unfold lead. repeat (case_match; try done); intros [= <-];
    [eexists (String _ "")|eexists (String _ (String _ ""))|eexists (String _ (String _ (String _ "")))]; reflexivity.
Qed.

Lemma trim_start_suffix s : lead (trim_start s) = None /\ ∃ w, s = w +:+ trim_start s.
Proof.
  induction s as [|a s IH] using string_ind3; [split; [done|by exists ""]|]. rewrite trim_start_step.
  destruct (lead (String a s)) as [r|] eqn:E; [|split; [done|by exists ""]].
  pose proof (lead_shorter _ _ E) as Hl. cbn in Hl. destruct (IH r) as [H1 [w Hw]]; [lia|]. split; [done|].
  apply lead_suffix in E as [w' ->]. exists (w' +:+ w). by rewrite str_app_assoc, <- Hw.
Qed.

Lemma trim_end_rev_suffix s : lead_rev (trim_end_rev s) = None /\ ∃ w, s = w +:+ trim_end_rev s.
Proof.
  induction s as [|a s IH] using string_ind3; [split; [done|by exists ""]|]. rewrite trim_end_rev_step.
  destruct (lead_rev (String a s)) as [r|] eqn:E; [|split; [done|by exists ""]].
  apply lead_rev_suffix in E as [w' [Ew Hl]]. cbn in Hl. destruct (IH r) as [H1 [w Hw]]; [lia|]. split; [done|].
  exists (w' +:+ w). by rewrite str_app_assoc, <- Hw.
Qed.

Lemma trim_end_prefix s : lead_rev (srev (trim_end s)) = None /\ ∃ w, s = trim_end s +:+ w.
Proof.
  unfold trim_end. fold (srev s). set (t := trim_end_rev (srev s)). fold (srev t).
  destruct (trim_end_rev_suffix (srev s)) as [H1 [w Hw]]. rewrite srev_srev. split; [done|].
  exists (srev w). fold t in Hw. rewrite <- srev_app, <- Hw. by rewrite srev_srev.
Qed.

Lemma lead_none_trim s : lead s = None -> trim_start s = s.
Proof. intros H. by rewrite trim_start_step, H. Qed.

Lemma lead_rev_none_trim s : lead_rev (srev s) = None -> trim_end s = s.
Proof.
  intros H. unfold trim_end. fold (srev s). rewrite trim_end_rev_step, H. fold (srev (srev s)). apply srev_srev.
Qed.

(** Nothing to trim at either end. *)
Lemma trimmed_iff s : trim s = s <-> lead s = None /\ lead_rev (srev s) = None.
Proof.
  split.
  - unfold trim. intros H. destruct (trim_start_suffix s) as [H1 [w Hw]].
    destruct (trim_end_prefix (trim_start s)) as [H2 [w' Hw']]. rewrite H in H2, Hw'.
    assert (Hs : trim_start s = s).
    { destruct w as [|a w]; [symmetry; exact Hw|]. exfalso.
      assert (Hl : String.length s = String.length (String a w +:+ trim_start s)) by (by rewrite <- Hw).
      rewrite Hw' in Hl. rewrite !str_length_app in Hl. cbn in Hl. lia. }
    rewrite Hs in H1. by split.
  - intros [H1 H2]. unfold trim. rewrite (lead_none_trim s H1). by apply lead_rev_none_trim.
Qed.

Lemma trim_trimmed s : trim (trim s) = trim s.
Proof.
  apply trimmed_iff. unfold trim. destruct (trim_start_suffix s) as [H1 _].
  destruct (trim_end_prefix (trim_start s)) as [H2 [w Hw]]. split; [|done].
  rewrite Hw in H1. by apply lead_prefix in H1.
Qed.

Lemma trim_within s : ∃ a b, s = a +:+ trim s +:+ b.
Proof.
  unfold trim. destruct (trim_start_suffix s) as [_ [a Ha]].
  destruct (trim_end_prefix (trim_start s)) as [_ [b Hb]]. exists a, b. by rewrite <- Hb.
Qed.

(** An ASCII byte that is not white space. *)
Definition solid (d : ascii) : Prop := (0 <= byte_of d < 128)%Z /\ ws1 d = false.

Lemma lead_solid d s : solid d -> lead (String d s) = None.
Proof.
  intros [Hd H1]. unfold lead. rewrite H1. destruct s as [|b s]; [done|].
  destruct (ws_ascii d Hd b b) as (_ & -> & _). destruct s as [|c s]; [done|].
  by destruct (ws_ascii d Hd b c) as (_ & _ & _ & _ & ->).
Qed.

Lemma lead_rev_solid d s : solid d -> lead_rev (String d s) = None.
Proof.
  intros [Hd H1]. unfold lead_rev. rewrite H1. destruct s as [|b s]; [done|].
  destruct (ws_ascii d Hd b b) as (-> & _). destruct s as [|c s]; [done|].
  by destruct (ws_ascii d Hd c b) as (_ & _ & -> & _).
Qed.

Lemma lead_rev_app x d y :
  x ≠ "" -> (0 <= byte_of d < 128)%Z -> lead_rev (x +:+ String d y) = (fun r => r +:+ String d y) <$> lead_rev x.
Proof.
  intros Hx Hd. destruct x as [|a x]; [done|].
  destruct x as [|b [|c x]]; rewrite !str_app_cons;
    try (change ("" +:+ String d y) with (String d y)); cbn -[ws1 ws2 ws3 String.append];
    (destruct (ws1 a); [done|]).
  - destruct (ws_ascii d Hd a a) as (_ & -> & _). destruct y as [|c y]; [done|].
    destruct (ws_ascii d Hd c a) as (_ & _ & _ & -> & _). done.
  - destruct (ws2 b a); [done|]. destruct (ws_ascii d Hd b a) as (_ & _ & _ & _ & ->). done.
  - destruct (ws2 b a); [done|]. by destruct (ws3 c b a).
Qed.

(** A line of a key and a trimmed value has nothing to trim. *)
Lemma trimmed_pair a k d v : solid a -> solid d -> trim v = v -> trim (String a k +:+ String d v) = String a k +:+ String d v.
Proof.
  intros Ha Hd [_ Hv]%trimmed_iff. apply trimmed_iff. split; [rewrite str_app_cons; by apply lead_solid|].
  rewrite srev_app, srev_cons, str_app_assoc. change (String d "" +:+ srev (String a k)) with (String d (srev (String a k))).
  destruct (srev v) as [|x r] eqn:E; [by apply lead_rev_solid|].
  rewrite <- E in *. rewrite lead_rev_app, Hv; [done|by rewrite E|apply Hd].
Qed.

(** ** Characters of a text *)

Lemma contains_char_app c x y : contains_char c (x +:+ y) = contains_char c x || contains_char c y.
Proof. induction x as [|a x IH]; [done|]. rewrite str_app_cons. cbn. by rewrite IH, orb_assoc. Qed.

Lemma trim_no_char c s : contains_char c s = false -> contains_char c (trim s) = false.
Proof.
  destruct (trim_within s) as (a & b & Hs). rewrite Hs at 1. rewrite !contains_char_app, !orb_false_iff. tauto.
Qed.

Lemma split_once_app c x y : contains_char c x = false -> split_once c (x +:+ String c y) = Some (x, y).
Proof.
  induction x as [|a x IH]; [|rewrite str_app_cons]; cbn.
  - change ("" +:+ String c y) with (String c y). cbn. by rewrite Ascii.eqb_refl.
  - intros [Ha Hx]%orb_false_iff. by rewrite Ha, IH.
Qed.

Lemma split_once_some c s x y : split_once c s = Some (x, y) -> s = x +:+ String c y.
Proof.
  revert x. induction s as [|a s IH]; intros x; cbn; [done|]. destruct (Ascii.eqb_spec a c) as [->|].
  - by intros [= <- <-].
  - destruct (split_once c s) as [[x' y']|]; [|done]. intros [= <- <-]. rewrite str_app_cons. f_equal. by apply IH.
Qed.

(** ** Lines *)

(** Text that stays one line and is its own trimmed form. *)
Definition clean (v : string) : Prop := trim v = v /\ contains_char LF v = false.

Lemma split_unlines ls :
  Forall (fun l => contains_char LF l = false) ls -> split_on LF (unlines ls) = ls ++ [""].
Proof.
  induction 1 as [|l ls Hl _ IH]; [done|]. cbn [unlines]. by rewrite split_on_app, split_on_whole, IH.
Qed.

Lemma lines_of_snoc ls : lines_of (ls ++ [""]) = strip_cr <$> ls.
Proof. induction ls as [|l [|l' ls] IH]; [done..|]. cbn in *. by rewrite IH. Qed.

Lemma lines_unlines ls :
  Forall (fun l => contains_char LF l = false) ls -> lines (unlines ls) = strip_cr <$> ls.
Proof. intros H. unfold lines. by rewrite split_unlines, lines_of_snoc. Qed.

(** No line of a text holds a line feed. *)
Lemma lines_no_lf s : Forall (fun l => contains_char LF l = false) (lines s).
Proof.
  unfold lines. pose proof (split_on_pieces LF s) as Hp.
  assert (Hcr : ∀ l, contains_char LF l = false -> contains_char LF (strip_cr l) = false).
  { intros l Hl. unfold strip_cr, strip_suffix. destruct (ends_with _ l); [|done]. cbn [default].
    revert Hl. generalize (String.length l - String.length (String CR ""))%nat. intros n. revert n.
    induction l as [|a l IH]; intros [|n]; cbn; try done. intros [Ha Hl]%orb_false_iff. rewrite Ha. by apply IH. }
  induction Hp as [|p ps Hp Hps IH]; cbn; [by constructor|]. destruct ps as [|q ps].
  - destruct (is_empty p); by repeat constructor.
  - constructor; [by apply Hcr|exact IH].
Qed.

(** ** Texts of some characters *)

Fixpoint all_chars (p : ascii -> bool) (s : string) : bool :=
  match s with EmptyString => true | String a s' => p a && all_chars p s' end.

Lemma all_chars_no p c s : p c = false -> all_chars p s = true -> contains_char c s = false.
Proof.
  intros Hc. induction s as [|a s IH]; cbn; [done|]. intros [Ha Hs]%andb_true_iff.
  destruct (Ascii.eqb_spec a c) as [->|]; [congruence|]. by apply IH.
Qed.

Lemma all_chars_app p x y : all_chars p (x +:+ y) = all_chars p x && all_chars p y.
Proof. induction x as [|a x IH]; [done|]. rewrite str_app_cons. cbn. by rewrite IH, andb_assoc. Qed.

Lemma all_chars_rev p s : all_chars p (srev s) = all_chars p s.
Proof.
  induction s as [|a s IH]; [done|]. rewrite srev_cons, all_chars_app, IH. cbn.
  rewrite andb_true_r. apply andb_comm.
Qed.

Lemma all_chars_trimmed p s : (∀ a, p a = true -> solid a) -> all_chars p s = true -> trim s = s.
Proof.
  intros Hp Hs. pose proof Hs as Hr. rewrite <- all_chars_rev in Hr. apply trimmed_iff. split.
  - destruct s as [|a s]; [done|]. apply lead_solid, Hp. cbn in Hs. by destruct (p a).
  - destruct (srev s) as [|a r]; [done|]. apply lead_rev_solid, Hp. cbn in Hr. by destruct (p a).
Qed.

(** ** Words are clean *)

(** No white space anywhere in a word. *)
Lemma pure_suffix p t : ws_pieces (p +:+ t) = [p +:+ t] -> lead t = None /\ ws_pieces t = [t].
Proof.
  induction p as [|a p IH].
  - change ("" +:+ t) with t. intros Ht. split; [|done]. destruct t as [|a t]; [done|].
    rewrite ws_pieces_step in Ht. destruct (lead (String a t)); [by injection Ht|done].
  - rewrite str_app_cons, ws_pieces_step. destruct (lead (String a (p +:+ t))); [by intros [=]|]. intros Hp. apply IH.
    destruct (ws_pieces (p +:+ t)) as [|q ps] eqn:E; [by destruct (ws_pieces_not_nil (p +:+ t))|].
    cbn in Hp. by injection Hp as -> ->.
Qed.

Lemma lead_rev_some s r : lead_rev s = Some r -> ∃ w, s = srev w +:+ r /\ lead w = Some "".
Proof.
  unfold lead_rev, lead. repeat (case_match; try done); intros [= <-]; simplify_eq.
  - exists (String a ""). split; [done|]. by rewrite H0.
  - exists (String a0 (String a "")). split; [done|]. cbn. destruct (ws1 a0) eqn:E1.
    { exfalso. unfold ws1, ws2 in *. lia. } by rewrite H2.
  - exists (String a1 (String a0 (String a ""))). split; [done|]. cbn.
    destruct (ws1 a1) eqn:E1; [exfalso; unfold ws1, ws3 in *; lia|].
    destruct (ws2 a1 a0) eqn:E2; [exfalso; unfold ws2, ws3 in *; lia|]. by rewrite H4.
Qed.

Lemma pure_no_char c w : ws1 c = true -> ws_pieces w = [w] -> contains_char c w = false.
Proof.
  intros Hc. induction w as [|a w IH]; [done|]. intros Hw. destruct (pure_suffix (String a "") w Hw) as [_ Hw'].
  cbn. rewrite IH by done. destruct (Ascii.eqb_spec a c) as [->|]; [|done].
  rewrite ws_pieces_step in Hw. unfold lead in Hw. by rewrite Hc in Hw.
Qed.

Lemma word_clean w : word w -> clean w.
Proof.
  intros [Hne Hw]. split; [|by apply pure_no_char]. apply trimmed_iff.
  split; [by apply (pure_suffix "" w)|]. destruct (lead_rev (srev w)) as [r|] eqn:E; [|done]. exfalso.
  apply lead_rev_some in E as (x & Ex & Hx). apply (f_equal srev) in Ex. rewrite srev_srev, srev_app, srev_srev in Ex.
  rewrite Ex in Hw. apply pure_suffix in Hw as [Hw _]. congruence.
Qed.

(** Words, and words joined by spaces, are clean. *)
Lemma clean_space x y : word x -> y ≠ "" -> clean y -> clean (x +:+ " " +:+ y).
Proof.
  intros Hx Hy [[_ Ht]%trimmed_iff Hl]. pose proof (word_clean x Hx) as [[Hlx _]%trimmed_iff Hxl].
  change (x +:+ " " +:+ y) with (x +:+ String " " y). split.
  - apply trimmed_iff. split; [by rewrite lead_app, Hlx by (done || apply Hx)|].
    change (String " " y) with (String " " "" +:+ y). rewrite <- str_app_assoc, srev_app, srev_app.
    change (srev " " +:+ srev x) with (String " " (srev x)).
    rewrite lead_rev_app, Ht; [done| |done]. intros E. apply Hy. by rewrite <- (srev_srev y), E.
  - rewrite contains_char_app, Hxl. cbn. exact Hl.
Qed.

Lemma join_clean l : Forall word l -> clean (str_join " " l) /\ (l ≠ [] -> str_join " " l ≠ "").
Proof.
  induction 1 as [|x l Hx Hl [IH IHn]]; [by split|]. destruct l as [|y l]; [split; [by apply word_clean|]|].
  - intros _. apply Hx.
  - change (str_join " " (x :: y :: l)) with (x +:+ " " +:+ str_join " " (y :: l)). split.
    + apply clean_space; [done|by apply IHn|done].
    + intros _. destruct Hx as [Hne _]. by destruct x.
Qed.

(** ** Decimal numbers *)

Definition is_digit (a : ascii) : bool := match digit_of a with Some _ => true | None => false end.

Lemma digit_of_pretty n : (n < 10)%N -> digit_of (pretty_N_char n) = Some (Z.of_N n).
Proof. intros Hn. destruct n as [|p]; [done|]. by do 4 (destruct p as [p|p|]; try done). Qed.

Lemma parse_digits_pretty max x s :
  (Z.of_N x <= max)%Z ->
  parse_digits 10 max digit_of 0 (pretty_N_go x s) = parse_digits 10 max digit_of (Z.of_N x) s.
Proof.
  revert s. induction (N.lt_wf_0 x) as [x _ IH]; intros s Hx. destruct (N.eq_dec x 0) as [->|Hne]; [done|].
  rewrite pretty_N_go_step by lia.
  assert (Hm : (x mod 10 < 10)%N) by (apply N.mod_lt; lia).
  assert (Hd : (Z.of_N (x / 10) * 10 + Z.of_N (x mod 10) = Z.of_N x)%Z).
  { rewrite N2Z.inj_div, N2Z.inj_mod. change (Z.of_N 10) with 10%Z. pose proof (Z.div_mod (Z.of_N x) 10). lia. }
  assert (Hdl : (x / 10 < x)%N) by (apply N.div_lt; lia).
  rewrite IH by (done || lia). cbn [parse_digits].
  rewrite digit_of_pretty, Hd by done. destruct (Z.leb_spec (Z.of_N x) max); [done|lia].
Qed.

Lemma pretty_digits x s :
  all_chars is_digit s = true ->
  all_chars is_digit (pretty_N_go x s) = true /\ (x ≠ 0%N -> pretty_N_go x s ≠ "").
Proof.
  revert s. induction (N.lt_wf_0 x) as [x _ IH]; intros s Hs. destruct (N.eq_dec x 0) as [->|Hne]; [done|].
  rewrite pretty_N_go_step by lia.
  assert (Hm : (x mod 10 < 10)%N) by (apply N.mod_lt; lia).
  destruct (IH (x / 10)%N (N.div_lt x 10 ltac:(lia) ltac:(lia)) (String (pretty_N_char (x mod 10)) s)) as [H1 H2].
  { cbn. unfold is_digit. by rewrite digit_of_pretty. }
  split; [done|]. intros _. destruct (N.eq_dec (x / 10) 0) as [E|E]; [by rewrite E|by apply H2].
Qed.

(** Decimal numbers are read back. *)
Lemma show_nat_digits z : all_chars is_digit (show_nat z) = true /\ show_nat z ≠ "".
Proof.
  unfold show_nat, pretty, pretty_N. destruct (decide (Z.to_N z = 0)%N) as [|Hne]; [done|].
  destruct (pretty_digits (Z.to_N z) "" eq_refl) as [H1 H2]. split; [done|by apply H2].
Qed.

Lemma parse_show max z : (0 <= z <= max)%Z -> parse_unsigned 10 max digit_of (show_nat z) = Some z.
Proof.
  intros Hz. assert (Hp : parse_digits 10 max digit_of 0 (show_nat z) = Some z).
  { unfold show_nat, pretty, pretty_N. destruct (decide (Z.to_N z = 0)%N) as [E|Hne].
    - assert (z = 0)%Z as -> by lia. change (_ = _) with ((if (0 <=? max)%Z then Some 0%Z else None) = Some 0%Z).
      destruct (Z.leb_spec 0 max); [done|lia].
    - rewrite parse_digits_pretty by lia. cbn. by rewrite Z2N.id by lia. }
  destruct (show_nat_digits z) as [Hd Hne]. unfold parse_unsigned.
  destruct (show_nat z) as [|a s]; [done|]. cbn in Hd. apply andb_true_iff in Hd as [Ha _].
  destruct a as [[] [] [] [] [] [] [] []]; try done.
Qed.
