(* ===== verification/IpAddr.v ===== *)
(** * Addresses (network/mod.rs)

    IPv6 parsing of the standard library, the checks on addresses of clients,
    the classes of IPv6 addresses and the masks of prefixes.  An [Ipv4Addr] is
    its 32-bit value, as in NetAdapter, an [Ipv6Addr] its eight groups. *)

From S2P Require Import Prelude Text Words NetAdapter.

(** ** Parsing *)

(** [Parser::read_number(16, Some(4), true)]. *)
Fixpoint span_hex (s : string) : list Z * string :=
  match s with
  | EmptyString => ([], s)
  | String c s' => match hex_digit_of c with
                   | Some d => let '(ds, r) := span_hex s' in (d :: ds, r)
                   | None => ([], s)
                   end
  end.

Definition read_group (s : string) : option (Z * string) :=
  let '(ds, r) := span_hex s in
  if ((length ds =? 0) || (4 <? length ds))%nat then None
  else Some (fold_left (fun acc d => acc * 16 + d)%Z ds 0%Z, r).

(** [read_groups]: up to [k] groups, the [i]-th after a colon unless it is the
    first; an IPv4 address takes the place of the last two. *)
Fixpoint read_groups (i k : nat) (s : string) : list Z * bool * string :=
  match k with
  | O => ([], false, s)
  | S k' =>
      match (if (i =? 0)%nat then Some s else strip_prefix ":" s) with
      | None => ([], false, s)
      | Some s1 =>
          match (if (k' =? 0)%nat then None else parse_ipv4 s1) with
          | Some a => ([(a / 65536)%Z; (a mod 65536)%Z], true, "")
          | None =>
              match read_group s1 with
              | None => ([], false, s)
              | Some (g, r) => let '(gs, v4, r) := read_groups (S i) k' r in (g :: gs, v4, r)
              end
          end
      end
  end.

(** [Ipv6Addr::from_str]. *)
Definition parse_ipv6 (s : string) : option (list Z) :=
  let '(head, v4, r) := read_groups 0 8 s in
  if (length head =? 8)%nat then (if is_empty r then Some head else None)
  else if v4 then None
  else match strip_prefix "::" r with
       | None => None
       | Some r =>
           let '(tail, _, r) := read_groups 0 (8 - (length head + 1)) r in
           if is_empty r then Some (head ++ replicate (8 - length head - length tail) 0%Z ++ tail) else None
       end.

Definition check_valid_ipv4 (address : string) : bool :=
  match parse_ipv4 address with Some a => negb (a =? 0)%Z | None => false end.

Definition check_valid_ipv6 (address : string) : bool :=
  match parse_ipv6 address with Some gs => negb (forallb (fun g => (g =? 0)%Z) gs) | None => false end.

(** ** Classes of IPv6 addresses *)

Inductive IPv6AddressType : Set :=
| Global | UniqueLocal | LinkLocal | Loopback | Unspecified | Multicast | Unknown.

#[export] Instance ipv6_type_eq_dec : EqDecision IPv6AddressType.
Proof. solve_decision. Defined.

(** The groups as one number, and the first two octets. *)
Definition ipv6_value (gs : list Z) : Z := fold_left (fun acc g => acc * 65536 + g)%Z gs 0%Z.

Definition classify_groups (gs : list Z) : IPv6AddressType :=
  let first_byte := (nth 0 gs 0 / 256)%Z in
  let second_byte := (nth 0 gs 0 mod 256)%Z in
  if forallb (fun g => (g =? 0)%Z) gs then Unspecified
  else if forallb (fun g => (g =? 0)%Z) (take 7 gs) && (nth 7 gs 0 =? 1)%Z then Loopback
  else if (first_byte =? 255)%Z then Multicast
  else if ((first_byte =? 254) && (Z.land second_byte 192 =? 128))%Z then LinkLocal
  else if (Z.land first_byte 254 =? 252)%Z then UniqueLocal
  else if (Z.land first_byte 224 =? 32)%Z then Global
  else Unknown.

Definition classify_ipv6_address (ip_str : string) : IPv6AddressType :=
  match parse_ipv6 ip_str with Some gs => classify_groups gs | None => Unknown end.

(** [valid_for] is what is left of the valid lifetime, in seconds. *)
Definition is_stable_ula_address (ip_str : string) (flags : option Z) (valid_for : option Z) : bool :=
  let by_flags :=
    match flags with
    | Some f =>
        if negb (Z.land f 1 =? 0)%Z then Some false
        else if negb (Z.land f 128 =? 0)%Z || (f =? 0)%Z then Some true else None
    | None => None
    end in
  match by_flags with
  | Some b => b
  | None =>
      match valid_for with Some v => (604800 <? v)%Z | None => false end
      || match parse_ipv6 ip_str with
         | Some gs =>
             (ipv6_value (drop 4 gs) <? 65536)%Z
             || ((nth 5 gs 0 mod 256 =? 255) && (nth 6 gs 0 / 256 =? 254))%Z
         | None => false
         end
      || bool_decide (flags = None)
  end.

(** ** Masks *)

Definition prefix_bits (prefix : Z) : Z :=
  let prefix := Z.min prefix 32 in
  if (prefix =? 0)%Z then 0 else wrap32 (Z.shiftl u32_max (32 - prefix)).

Definition cidr_to_netmask (prefix : Z) : string := show_ipv4 (prefix_bits prefix).

Definition ipv4_broadcast (ip : string) (prefix : Z) : option string :=
  (fun a => show_ipv4 (Z.lor a (u32_not (prefix_bits prefix)))) <$> parse_ipv4 ip.

(** ** Properties *)

Lemma span_hex_bound s ds r : span_hex s = (ds, r) -> Forall (fun d => 0 <= d < 16)%Z ds.
Proof.
  revert ds. induction s as [|c s IH]; intros ds; cbn; [intros [= <- _]; constructor|].
  destruct (hex_digit_of c) as [d|] eqn:Ed; [|intros [= <- _]; constructor].
  destruct (span_hex s) as [ds' r'] eqn:Es. intros [= <- ->]. constructor; [|by eapply IH].
  revert Ed. unfold hex_digit_of. repeat case_match; intros; simplify_eq; lia.
Qed.

Lemma read_group_bound s g r : read_group s = Some (g, r) -> (0 <= g < 65536)%Z.
Proof.
  unfold read_group. destruct (span_hex s) as [ds r'] eqn:Es. apply span_hex_bound in Es.
  destruct (_ || _) eqn:El; [done|]. intros [= <- _].
  destruct ds as [|d0 [|d1 [|d2 [|d3 [|d4 ds]]]]]; cbn in El; try done; cbn;
    repeat match goal with H : Forall _ (_ :: _) |- _ => apply Forall_cons in H as [? ?] end; lia.
Qed.

Lemma parse_ipv4_bound s a : parse_ipv4 s = Some a -> (0 <= a < 2 ^ 32)%Z.
Proof.
  assert (Ho : ∀ p x, parse_octet p = Some x -> (0 <= x <= 255)%Z).
  { intros p x. assert (Hp : ∀ t, parse_digits 10 u8_max digit_of 0 t = Some x -> (0 <= x <= 255)%Z).
    { intros t Ht. apply parse_digits_range in Ht; unfold u8_max in *; lia. }
    unfold parse_octet. repeat case_match; try done; apply Hp. }
  unfold parse_ipv4. destruct (split_on "." s) as [|a0 [|a1 [|a2 [|a3 [|a4 l]]]]]; cbn; try done.
  all: repeat case_match; try done; simplify_eq. intros [= <-].
  repeat match goal with H : parse_octet _ = Some _ |- _ => apply Ho in H end. cbn. lia.
Qed.

Lemma read_groups_bound i k s gs b r :
  read_groups i k s = (gs, b, r) -> Forall (fun g => 0 <= g < 65536)%Z gs /\ (length gs <= k)%nat.
Proof.
  revert i s gs b r. induction k as [|k IH]; intros i s gs b r; cbn [read_groups].
  { intros [= <- _ _]. split; [constructor|done]. }
  assert (Hnil : ∀ r', ([], false, s) = (gs, b, r') -> Forall (fun g => 0 <= g < 65536)%Z gs /\ (length gs <= S k)%nat).
  { intros r' [= <- _ _]. split; [constructor|cbn; lia]. }
  destruct (if (i =? 0)%nat then _ else _) as [s1|]; [|apply Hnil].
  destruct (if (k =? 0)%nat then None else parse_ipv4 s1) as [a|] eqn:E4.
  - destruct (k =? 0)%nat eqn:Ek; [done|]. apply Nat.eqb_neq in Ek. apply parse_ipv4_bound in E4. intros [= <- _ _].
    split; [|cbn; lia]. repeat constructor; [apply Z.div_pos; lia|apply Z.div_lt_upper_bound; lia|..];
      apply Z.mod_pos_bound; lia.
  - destruct (read_group s1) as [[g r1]|] eqn:Eg; [|apply Hnil]. apply read_group_bound in Eg.
    destruct (read_groups (S i) k r1) as [[gs' b'] r'] eqn:Er. apply IH in Er as [H1 H2].
    intros [= <- _ _]. split; [by constructor|cbn; lia].
Qed.

(** An accepted address has eight groups. *)
Lemma parse_ipv6_groups s gs :
  parse_ipv6 s = Some gs -> length gs = 8%nat /\ Forall (fun g => 0 <= g < 65536)%Z gs.
Proof.
  unfold parse_ipv6. destruct (read_groups 0 8 s) as [[head v4] r] eqn:Eh. apply read_groups_bound in Eh as [Hh Hl].
  destruct (Nat.eqb_spec (length head) 8); [destruct (is_empty r); [|done]; by intros [= <-]|].
  destruct v4; [done|]. destruct (strip_prefix "::" r) as [r1|]; [|done].
  destruct (read_groups 0 (8 - (length head + 1)) r1) as [[tail v4] r2] eqn:Et.
  apply read_groups_bound in Et as [Ht Htl]. destruct (is_empty r2); [|done]. intros [= <-].
  rewrite !length_app, length_replicate. split; [lia|].
  apply Forall_app; split; [done|]. apply Forall_app; split; [|done]. apply Forall_replicate. lia.
Qed.

(** *** Classes are prefixes *)

(** The class of an address by the prefix of its 128-bit value. *)
Definition prefix_class (v : Z) : IPv6AddressType :=
  if (v =? 0)%Z then Unspecified
  else if (v =? 1)%Z then Loopback
  else if (Z.shiftr v 120 =? 255)%Z then Multicast              (* ff00::/8 *)
  else if (Z.shiftr v 118 =? 1018)%Z then LinkLocal             (* fe80::/10 *)
  else if (Z.shiftr v 121 =? 126)%Z then UniqueLocal            (* fc00::/7 *)
  else if (Z.shiftr v 125 =? 1)%Z then Global                   (* 2000::/3 *)
  else Unknown.

(** The tests on the first two octets, for every first group. *)
Definition octet_tests (g : Z) : bool * bool * bool * bool :=
  let first_byte := (g / 256)%Z in
  let second_byte := (g mod 256)%Z in
  ((first_byte =? 255)%Z, ((first_byte =? 254) && (Z.land second_byte 192 =? 128))%Z,
   (Z.land first_byte 254 =? 252)%Z, (Z.land first_byte 224 =? 32)%Z).
Definition prefix_tests (g : Z) : bool * bool * bool * bool :=
  ((Z.shiftr g 8 =? 255)%Z, (Z.shiftr g 6 =? 1018)%Z, (Z.shiftr g 9 =? 126)%Z, (Z.shiftr g 13 =? 1)%Z).

Lemma byte_tests b :
  (0 <= b < 256)%Z ->
  (Z.land b 192 =? 128)%Z = (b / 64 =? 2)%Z /\ (Z.land b 254 =? 252)%Z = (b / 2 =? 126)%Z
  /\ (Z.land b 224 =? 32)%Z = (b / 32 =? 1)%Z.
Proof.
  intros Hb.
  assert (Hall : forallb (fun n => let b := Z.of_nat n in
      Bool.eqb (Z.land b 192 =? 128)%Z (b / 64 =? 2)%Z && Bool.eqb (Z.land b 254 =? 252)%Z (b / 2 =? 126)%Z
      && Bool.eqb (Z.land b 224 =? 32)%Z (b / 32 =? 1)%Z) (seq 0 256) = true) by (vm_compute; reflexivity).
  rewrite forallb_forall in Hall. specialize (Hall (Z.to_nat b)). cbv zeta in Hall. rewrite Z2Nat.id in Hall by lia.
  rewrite !andb_true_iff, !eqb_true_iff in Hall. apply and_assoc, Hall, in_seq. lia.
Qed.

Lemma tests_agree g : (0 <= g < 65536)%Z -> octet_tests g = prefix_tests g.
Proof.
  intros Hg. unfold octet_tests, prefix_tests. rewrite !Z.shiftr_div_pow2 by lia.
  assert (Hf : (0 <= g / 256 < 256)%Z) by (split; [apply Z.div_pos|apply Z.div_lt_upper_bound]; lia).
  destruct (byte_tests _ Hf) as (_ & -> & ->).
  destruct (byte_tests (g mod 256)%Z (Z.mod_pos_bound g 256 ltac:(lia))) as (-> & _ & _).
  change (2 ^ 8)%Z with 256%Z. change (2 ^ 6)%Z with 64%Z. change (2 ^ 9)%Z with 512%Z. change (2 ^ 13)%Z with 8192%Z.
  f_equal; [f_equal; [f_equal|]|]; apply eq_true_iff_eq; rewrite ?andb_true_iff, !Z.eqb_eq;
    Z.div_mod_to_equations; lia.
Qed.

Lemma ipv6_value_bounds gs acc :
  Forall (fun g => 0 <= g < 65536)%Z gs ->
  ∃ r, fold_left (fun acc g => acc * 65536 + g)%Z gs acc = (acc * 65536 ^ Z.of_nat (length gs) + r)%Z
       /\ (0 <= r < 65536 ^ Z.of_nat (length gs))%Z.
Proof.
  intros Hgs. revert acc. induction Hgs as [|g gs Hg _ IH]; intros acc; [exists 0%Z; cbn; lia|].
  cbn [fold_left length]. destruct (IH (acc * 65536 + g)%Z) as (r & -> & Hr).
  rewrite Nat2Z.inj_succ, Z.pow_succ_r by lia. exists (g * 65536 ^ Z.of_nat (length gs) + r)%Z. split; [ring|nia].
Qed.

Lemma all_zero_value gs acc :
  Forall (fun g => 0 <= g < 65536)%Z gs -> (0 <= acc)%Z ->
  forallb (fun g => (g =? 0)%Z) gs && (acc =? 0)%Z = (fold_left (fun acc g => acc * 65536 + g)%Z gs acc =? 0)%Z.
Proof.
  intros Hgs. revert acc. induction Hgs as [|g gs Hg _ IH]; intros acc Ha; [done|]. cbn [fold_left forallb].
  rewrite <- IH by lia. destruct (forallb _ gs); cbn; [|by rewrite andb_false_r]. lia.
Qed.

Lemma shiftr_first g rest n :
  (0 <= g)%Z -> (0 <= rest < 2 ^ 112)%Z -> (0 <= n)%Z ->
  Z.shiftr (g * 2 ^ 112 + rest) (112 + n) = Z.shiftr g n.
Proof.
  intros Hg Hr Hn. rewrite !Z.shiftr_div_pow2, Z.pow_add_r by lia.
  rewrite <- Z.div_div by lia. rewrite Z.div_add_l, (Z.div_small rest) by lia. by rewrite Z.add_0_r.
Qed.

(** The class of an IPv6 address is the one its prefix has in the registry:
    for every text that is an address, the tests on single octets, groups and
    special values agree with the comparison of the leading bits of the
    128-bit value with ff00::/8, fe80::/10, fc00::/7 and 2000::/3; and a text
    that is not an address has no class. *)
Theorem ipv6_classes_are_prefixes s :
  classify_ipv6_address s
  = match parse_ipv6 s with Some gs => prefix_class (ipv6_value gs) | None => Unknown end.
Proof.
  unfold classify_ipv6_address. destruct (parse_ipv6 s) as [gs|] eqn:Ep; [|done].
  apply parse_ipv6_groups in Ep as [Hlen Hgs]. destruct gs as [|g gs]; [done|].
  pose proof (all_zero_value (g :: gs) 0 Hgs ltac:(lia)) as Hz. rewrite andb_true_r in Hz.
  fold (ipv6_value (g :: gs)) in Hz. apply Forall_cons in Hgs as [Hg Hgs].
  unfold classify_groups, prefix_class. rewrite Hz. destruct (ipv6_value (g :: gs) =? 0)%Z eqn:E0; [done|].
  assert (Hlo : forallb (fun g => (g =? 0)%Z) (take 7 (g :: gs)) && (nth 7 (g :: gs) 0 =? 1)%Z
                = (ipv6_value (g :: gs) =? 1)%Z).
  { destruct gs as [|g1 [|g2 [|g3 [|g4 [|g5 [|g6 [|g7 [|? ?]]]]]]]]; try done.
    repeat match goal with H : Forall _ (_ :: _) |- _ => apply Forall_cons in H as [? ?] end.
    unfold ipv6_value. cbn. lia. }
  rewrite Hlo. destruct (ipv6_value (g :: gs) =? 1)%Z; [done|].
  assert (Hv : ∃ rest, ipv6_value (g :: gs) = (g * 2 ^ 112 + rest)%Z /\ (0 <= rest < 2 ^ 112)%Z).
  { destruct (ipv6_value_bounds gs (0 * 65536 + g)%Z Hgs) as (r & Hr & Hb). exists r.
    injection Hlen as Hlen. rewrite Hlen in *. unfold ipv6_value. cbn [fold_left]. by rewrite Hr. }
  destruct Hv as (rest & -> & Hrest). pose proof (tests_agree g Hg) as Ht. injection Ht as H1 H2 H3 H4. cbn [nth].
  change 120%Z with (112 + 8)%Z. change 118%Z with (112 + 6)%Z. change 121%Z with (112 + 9)%Z.
  change 125%Z with (112 + 13)%Z. rewrite !shiftr_first by lia. by rewrite H1, H2, H3, H4.
Qed.

(** *** Masks *)

(** The masks of the 33 prefixes. *)
Lemma netmasks_read_back :
  forallb (fun p => bool_decide (ipv4_mask_to_prefix (cidr_to_netmask p) = Ok p)
                    && bool_decide (parse_ipv4 (cidr_to_netmask p) = Some (prefix_mask p))) (seqZ 0 33) = true.
Proof. vm_compute. reflexivity. Qed.
