(* ===== verification/NetConf.v ===== *)
(** * The network configuration file (network/network_conf.rs)

    [network.conf] holds the L3 settings in sections of keys and values, for the
    application and for the shell tools that apply them.  The writer, the
    parser, and what of a configuration the file keeps. *)

From S2P Require Import Prelude Text Words IpAddr.
From S2P Require Import NetAdapter.

(** ** Configurations (config/types.rs) *)

Inductive IpV4Mod : Set := Dhcp | StaticV4.
Inductive IpV6Mod : Set := Slaac | StaticV6.

Record StaticIpConfig := mkStatic {
  ip_address : string; subnet_mask : string; gateway : string; dns_servers : list string }.

Record VlanEndpointConfig := mkEndpoint {
  vlan_id : Z; ep_ipv4_mode : IpV4Mod; ep_ipv6_mode : option IpV6Mod;
  ep_static_ipv4 : option StaticIpConfig; ep_static_ipv6 : option StaticIpConfig }.

Record VlanSettings := mkVlan {
  vlan_enabled : bool; primary_vlan : option VlanEndpointConfig; secondary_vlan : option VlanEndpointConfig }.

Record NetworkConfig := mkNet {
  hostname : option string; http_proxy : option string; domain : option string;
  ipv4_mode : IpV4Mod; static_ipv4 : option StaticIpConfig;
  ipv6_mode : IpV6Mod; static_ipv6 : option StaticIpConfig;
  lldp_mode : string; lldp_tx_tlvs : list string; mdns_mode : string;
  time_sync_mode : string; time_sync_ordering : list string; time_sync_disable_fallback : bool;
  time_sync_parallel : Z;
  vlan_settings : VlanSettings }.

#[export] Instance ipv4_mod_eq_dec : EqDecision IpV4Mod.
Proof. solve_decision. Defined.
#[export] Instance ipv6_mod_eq_dec : EqDecision IpV6Mod.
Proof. solve_decision. Defined.
#[export] Instance static_eq_dec : EqDecision StaticIpConfig.
Proof. solve_decision. Defined.
#[export] Instance endpoint_eq_dec : EqDecision VlanEndpointConfig.
Proof. solve_decision. Defined.
#[export] Instance vlan_eq_dec : EqDecision VlanSettings.
Proof. solve_decision. Defined.
#[export] Instance net_eq_dec : EqDecision NetworkConfig.
Proof. solve_decision. Defined.

Definition vlan_default : VlanSettings := mkVlan false None None.
Definition network_default : NetworkConfig :=
  mkNet (Some "arkkvm") None (Some "dhcp") Dhcp None Slaac None "basic" ["chassis"; "port"; "system"; "vlan"]
    "auto" "ntp_and_http" ["ntp"; "http"] false 4 vlan_default.

Definition with_vlan (v : VlanSettings) (c : NetworkConfig) : NetworkConfig :=
  mkNet (hostname c) (http_proxy c) (domain c) (ipv4_mode c) (static_ipv4 c) (ipv6_mode c) (static_ipv6 c)
    (lldp_mode c) (lldp_tx_tlvs c) (mdns_mode c) (time_sync_mode c) (time_sync_ordering c)
    (time_sync_disable_fallback c) (time_sync_parallel c) v.
Definition with_names (h d : option string) (c : NetworkConfig) : NetworkConfig :=
  mkNet h (http_proxy c) d (ipv4_mode c) (static_ipv4 c) (ipv6_mode c) (static_ipv6 c)
    (lldp_mode c) (lldp_tx_tlvs c) (mdns_mode c) (time_sync_mode c) (time_sync_ordering c)
    (time_sync_disable_fallback c) (time_sync_parallel c) (vlan_settings c).
Definition with_proxy (p : option string) (c : NetworkConfig) : NetworkConfig :=
  mkNet (hostname c) p (domain c) (ipv4_mode c) (static_ipv4 c) (ipv6_mode c) (static_ipv6 c)
    (lldp_mode c) (lldp_tx_tlvs c) (mdns_mode c) (time_sync_mode c) (time_sync_ordering c)
    (time_sync_disable_fallback c) (time_sync_parallel c) (vlan_settings c).
Definition with_ipv4 (m : IpV4Mod) (s : option StaticIpConfig) (c : NetworkConfig) : NetworkConfig :=
  mkNet (hostname c) (http_proxy c) (domain c) m s (ipv6_mode c) (static_ipv6 c)
    (lldp_mode c) (lldp_tx_tlvs c) (mdns_mode c) (time_sync_mode c) (time_sync_ordering c)
    (time_sync_disable_fallback c) (time_sync_parallel c) (vlan_settings c).

(** ** Reading *)

Abbreviation Section_ := (gmap string string).

Definition starts_ends (a b : ascii) (s : string) : bool :=
  starts_with (String a "") s && ends_with (String b "") s.

(** A line at a time: the sections so far and the current one. *)
Definition ini_step (st : gmap string Section_ * string) (line : string) : gmap string Section_ * string :=
  let '(sections, current) := st in
  let line := trim line in
  if is_empty line || starts_with "#" line then st
  else if starts_ends "[" "]" line then
    let current := trim (substring 1 (String.length line - 2) line) in
    (<[current := default ∅ (sections !! current)]> sections, current)
  else match split_once "=" line with
       | Some (key, value) =>
           (<[current := <[trim key := trim value]> (default ∅ (sections !! current))]> sections, current)
       | None => st
       end.

Definition parse_ini (content : string) : gmap string Section_ :=
  (fold_left ini_step (lines content) (∅, "default")).1.

Definition section (sections : gmap string Section_) (name : string) : Section_ := default ∅ (sections !! name).

Definition get_str (sec : Section_) (key : string) : option string :=
  match sec !! key with Some v => if is_empty v then None else Some v | None => None end.

Definition get_bool (sec : Section_) (key : string) (dflt : bool) : bool :=
  match sec !! key with
  | Some v => String.eqb v "true" || String.eqb v "1" || String.eqb v "yes"
  | None => dflt
  end.

Definition parse_ipv4_mode (s : string) : IpV4Mod := if String.eqb s "static" then StaticV4 else Dhcp.
Definition parse_ipv6_mode (s : string) : IpV6Mod := if String.eqb s "static" then StaticV6 else Slaac.
Definition ipv4_mode_str (m : IpV4Mod) : string := match m with Dhcp => "dhcp" | StaticV4 => "static" end.
Definition ipv6_mode_str (m : IpV6Mod) : string := match m with Slaac => "slaac" | StaticV6 => "static" end.

Definition words_of (o : option string) : list string := from_option split_whitespace [] o.

Definition parse_static_ipv4 (sec : Section_) : option StaticIpConfig :=
  ip ← get_str sec "address";
  Some (mkStatic ip (default "255.255.255.0" (get_str sec "netmask")) (default "" (get_str sec "gateway"))
          (words_of (get_str sec "dns"))).

Definition parse_vlan_endpoint (sec : Section_) : option VlanEndpointConfig :=
  id ← sec !! "id" ≫= parse_u16;
  if (id =? 0)%Z then None else
  let m4 := parse_ipv4_mode (default "dhcp" (sec !! "ipv4_mode")) in
  let m6 := match sec !! "ipv6_mode" with
            | Some s => let m := parse_ipv6_mode s in
                        if bool_decide (m ≠ Slaac) || negb (String.eqb s "disabled") then Some m else None
            | None => None
            end in
  let static4 := match m4 with
                 | StaticV4 =>
                     Some (mkStatic (default "" (get_str sec "ipv4_address"))
                             (default "255.255.255.0" (get_str sec "ipv4_netmask"))
                             (default "" (get_str sec "ipv4_gateway")) (words_of (get_str sec "ipv4_dns")))
                 | Dhcp => None
                 end in
  Some (mkEndpoint id m4 (Some (default Slaac m6)) static4 None).

Definition ini_to_network_config (content : string) : NetworkConfig :=
  let sections := parse_ini content in
  let sys := section sections "system" in
  let ipv4 := section sections "ipv4" in
  let ipv6 := section sections "ipv6" in
  let vlan := section sections "vlan" in
  let m4 := parse_ipv4_mode (default "dhcp" (ipv4 !! "mode")) in
  let m6 := parse_ipv6_mode (default "slaac" (ipv6 !! "mode")) in
  mkNet (get_str sys "hostname") None (get_str sys "domain")
    m4 (match m4 with StaticV4 => parse_static_ipv4 ipv4 | Dhcp => None end)
    m6 (match m6 with
        | StaticV6 => (fun prefix => mkStatic prefix "" (default "" (get_str ipv6 "gateway"))
                                       (words_of (get_str ipv6 "dns"))) <$> get_str ipv6 "prefix"
        | Slaac => None
        end)
    "disabled" [] "disabled" "ntp" [] false 1
    (mkVlan (get_bool vlan "enabled" false) (parse_vlan_endpoint (section sections "vlan.primary"))
       (parse_vlan_endpoint (section sections "vlan.secondary"))).

(** Only the L3 settings of the file are taken over. *)
Definition merge_l3_from_file (base from_file : NetworkConfig) : NetworkConfig :=
  mkNet (match hostname from_file with Some h => Some h | None => hostname base end) (http_proxy base)
    (match domain from_file with Some d => Some d | None => domain base end)
    (ipv4_mode from_file) (static_ipv4 from_file) (ipv6_mode from_file) (static_ipv6 from_file)
    (lldp_mode base) (lldp_tx_tlvs base) (mdns_mode base) (time_sync_mode base) (time_sync_ordering base)
    (time_sync_disable_fallback base) (time_sync_parallel base) (vlan_settings from_file).

(** ** Writing *)

(** [key=value] and a section, which an empty line ends. *)
Definition kv (key value : string) : string := key +:+ String "=" value.
Definition ini_section (name : string) (entries : list (string * string)) : list string :=
  (String "[" (name +:+ "]")) :: ((fun '(k, v) => kv k v) <$> entries) ++ [""].

Definition dns_entry (key : string) (servers : list string) : list (string * string) :=
  match servers with [] => [] | _ => [(key, str_join " " servers)] end.

Definition system_entries (c : NetworkConfig) : list (string * string) :=
  [("hostname", default "arkkvm" (hostname c)); ("domain", default "dhcp" (domain c))].

Definition ipv4_entries (c : NetworkConfig) : list (string * string) :=
  ("mode", ipv4_mode_str (ipv4_mode c))
  :: match static_ipv4 c with
     | Some s => [("address", ip_address s); ("netmask", subnet_mask s); ("gateway", gateway s)]
                 ++ dns_entry "dns" (dns_servers s)
     | None => [("address", ""); ("netmask", ""); ("gateway", ""); ("dns", "")]
     end.

Definition ipv6_entries (c : NetworkConfig) : list (string * string) :=
  ("mode", ipv6_mode_str (ipv6_mode c))
  :: match static_ipv6 c with
     | Some s => [("prefix", ip_address s); ("gateway", gateway s)] ++ dns_entry "dns" (dns_servers s)
     | None => [("prefix", ""); ("gateway", ""); ("dns", "")]
     end.

Definition vlan_entries (c : NetworkConfig) (vlan_apply_mode : string) : list (string * string) :=
  [("enabled", if vlan_enabled (vlan_settings c) then "true" else "false"); ("parent", "eth0");
   ("apply_mode", vlan_apply_mode)].

Definition endpoint_entries (endpoint : option VlanEndpointConfig) (default_metric : string)
  : list (string * string) :=
  match endpoint with
  | None =>
      [("id", "0"); ("ipv4_mode", "disabled"); ("ipv4_address", ""); ("ipv4_netmask", ""); ("ipv4_gateway", "");
       ("ipv4_dns", ""); ("ipv6_mode", "disabled"); ("ipv6_prefix", ""); ("ipv6_gateway", ""); ("ipv6_dns", "");
       ("route_metric", default_metric)]
  | Some ep =>
      [("id", show_nat (vlan_id ep)); ("ipv4_mode", ipv4_mode_str (ep_ipv4_mode ep))]
      ++ match ep_static_ipv4 ep with
         | Some s => [("ipv4_address", ip_address s); ("ipv4_netmask", subnet_mask s); ("ipv4_gateway", gateway s);
                      ("ipv4_dns", str_join " " (dns_servers s))]
         | None => [("ipv4_address", ""); ("ipv4_netmask", ""); ("ipv4_gateway", ""); ("ipv4_dns", "")]
         end
      ++ [("ipv6_mode", ipv6_mode_str (default Slaac (ep_ipv6_mode ep))); ("ipv6_prefix", ""); ("ipv6_gateway", "");
          ("ipv6_dns", ""); ("route_metric", default_metric)]
  end.

Definition ini_header : list string :=
  ["# network.conf — managed by arkkvm_app"; "# Apply: refresh-network.sh"; ""].

Definition ini_sections (c : NetworkConfig) (vlan_apply_mode : string) : list (string * list (string * string)) :=
  [("interface", [("name", "eth0")]); ("system", system_entries c); ("dhcp", [("client", "udhcpc")]);
   ("ipv4", ipv4_entries c); ("ipv6", ipv6_entries c); ("dns", [("servers", "")]);
   ("vlan", vlan_entries c vlan_apply_mode);
   ("vlan.primary", endpoint_entries (primary_vlan (vlan_settings c)) "0");
   ("vlan.secondary", endpoint_entries (secondary_vlan (vlan_settings c)) "200")].

Definition network_config_to_ini (c : NetworkConfig) (vlan_apply_mode : string) : string :=
  unlines (ini_header ++ List.concat ((fun '(n, es) => ini_section n es) <$> ini_sections c vlan_apply_mode)).

(** ** Lines of a section *)

Lemma starts_with_first c a s : starts_with (String c "") (String a s) = Ascii.eqb c a.
Proof.
  unfold starts_with, prefix. destruct (Ascii.eqb_spec c a) as [->|Hne], (Ascii.ascii_dec _ a); try done. by destruct s.
Qed.

Lemma ends_with_last a s c : ends_with (String c "") (s +:+ String a "") = Ascii.eqb c a.
Proof.
  unfold ends_with. change (string_rev_app ?x "") with (srev x). rewrite srev_app. apply starts_with_first.
Qed.

Lemma string_snoc s : s = "" \/ ∃ t a, s = t +:+ String a "".
Proof.
  destruct (srev s) as [|a t] eqn:E; [left|right].
  - rewrite <- (srev_srev s), E. done.
  - exists (srev t), a. rewrite <- (srev_srev s), E. apply srev_cons.
Qed.

(** A line that is its own trimmed form ends in no carriage return. *)
Lemma strip_cr_trimmed l : trim l = l -> strip_cr l = l.
Proof.
  intros [_ Hl]%trimmed_iff. unfold strip_cr, strip_suffix.
  destruct (string_snoc l) as [->|(t & a & ->)]; [done|]. rewrite ends_with_last.
  destruct (Ascii.eqb_spec CR a) as [<-|]; [|done]. by rewrite srev_app in Hl.
Qed.

Definition slot (sections : gmap string Section_) (n : string) : Section_ := default ∅ (sections !! n).

Lemma ini_skip st l : trim l = "" \/ starts_with "#" (trim l) = true -> ini_step st l = st.
Proof. destruct st as [m c]. unfold ini_step. intros [-> | H]; [done|]. by rewrite H, orb_true_r. Qed.

(** A key as the writer has them: letters, digits and underscores. *)
Definition key_char (a : ascii) : bool :=
  let n := byte_of a in ((97 <=? n) && (n <=? 122) || (48 <=? n) && (n <=? 57) || (n =? 95))%Z.

Definition ini_key (k : string) : bool := negb (is_empty k) && all_chars key_char k.

Lemma key_char_solid a : key_char a = true -> solid a.
Proof. unfold key_char, solid, ws1, byte_of. cbv zeta. intros H. split; lia. Qed.

(** The line of an entry goes to the current section. *)
Lemma ini_step_entry m cur k v :
  ini_key k = true -> clean v -> ini_step (m, cur) (kv k v) = (<[cur := <[k := v]> (slot m cur)]> m, cur).
Proof.
  unfold ini_key. intros [Hk Hc]%andb_true_iff [Hv _]. destruct k as [|a k]; [done|].
  pose proof Hc as Ha. cbn in Ha. apply andb_true_iff in Ha as [Ha _].
  assert (Htrim : trim (kv (String a k) v) = kv (String a k) v).
  { unfold kv. change (?x +:+ "=" +:+ v) with (x +:+ String "=" v).
    apply trimmed_pair; [by apply key_char_solid|by split|done]. }
  unfold ini_step. rewrite Htrim. unfold kv. change (?x +:+ "=" +:+ v) with (x +:+ String "=" v).
  rewrite (split_once_app "=" (String a k) v) by (by apply (all_chars_no key_char)).
  rewrite (all_chars_trimmed key_char (String a k) key_char_solid Hc), Hv.
  assert (Hne : Ascii.eqb "#" a = false /\ Ascii.eqb "[" a = false)
    by (split; apply Ascii.eqb_neq; intros <-; done).
  destruct Hne as [Hh Hb]. unfold starts_ends. by rewrite str_app_cons, !starts_with_first, Hh, Hb.
Qed.

Lemma ini_step_entries m cur es :
  forallb ini_key es.*1 = true -> Forall clean es.*2 ->
  fold_left ini_step ((fun '(k, v) => kv k v) <$> es) (m, cur)
  = (match es with
     | [] => m
     | _ => <[cur := fold_left (fun s '(k, v) => <[k := v]> s) es (slot m cur)]> m
     end, cur).
Proof.
  revert m. induction es as [|[k v] es IH]; intros m; [done|]. cbn [fmap list_fmap fst snd forallb].
  intros [Hk Hks]%andb_true_iff [Hv Hvs]%Forall_cons. cbn [fold_left].
  change (list_fmap _ _ (λ '(k0, v0), kv k0 v0) es) with ((fun '(k, v) => kv k v) <$> es).
  rewrite ini_step_entry, IH by done.
  assert (Hs : slot (<[cur:=<[k:=v]> (slot m cur)]> m) cur = <[k:=v]> (slot m cur))
    by (unfold slot; by rewrite lookup_insert_eq).
  destruct es as [|e es]; [done|]. by rewrite Hs, insert_insert_eq.
Qed.

(** A section name the parser takes as it is. *)
Definition section_name (n : string) : bool := all_chars (fun a => key_char a || Ascii.eqb a ".") n.

Lemma section_solid a : key_char a || Ascii.eqb a "." = true -> solid a.
Proof. intros [H|H]%orb_true_iff; [by apply key_char_solid|]. apply Ascii.eqb_eq in H as ->. by split. Qed.

Lemma ini_step_name m cur n :
  section_name n = true -> ini_step (m, cur) (String "[" (n +:+ "]")) = (<[n := slot m n]> m, n).
Proof.
  intros Hn. assert (Htrim : trim (String "[" (n +:+ "]")) = String "[" (n +:+ "]")).
  { change (String "[" (n +:+ "]")) with (String "[" n +:+ String "]" "").
    apply trimmed_pair; [by split|by split|done]. }
  unfold ini_step. rewrite Htrim. unfold starts_ends.
  assert (He : ends_with "]" (String "[" (n +:+ "]")) = true).
  { rewrite <- str_app_cons. change ("]" : string) with (String "]" ""). apply ends_with_last. }
  assert (Hs : substring 1 (String.length (String "[" (n +:+ "]")) - 2) (String "[" (n +:+ "]")) = n).
  { cbn [String.length]. rewrite str_length_app. cbn [String.length substring].
    apply substring_prefix. lia. }
  by rewrite He, Hs, !starts_with_first, (all_chars_trimmed _ n section_solid Hn).
Qed.

(** ** What a written file holds *)

(** The value of a key: its last entry.  The entries of a section: those of
    all the sections of the name. *)
Definition assoc (k : string) (es : list (string * string)) : option string :=
  fold_left (fun o '(k', v) => if String.eqb k k' then Some v else o) es None.

Definition gather (n : string) (secs : list (string * list (string * string))) : list (string * string) :=
  List.concat (List.map snd (List.filter (fun '(n', _) => String.eqb n n') secs)).

Definition entries_map (es : list (string * string)) (m : Section_) : Section_ :=
  fold_left (fun s '(k, v) => <[k := v]> s) es m.

Lemma entries_map_lookup es m k :
  entries_map es m !! k = fold_left (fun o '(k', v) => if String.eqb k k' then Some v else o) es (m !! k).
Proof.
  revert m. induction es as [|[k' v] es IH]; intros m; [done|]. cbn. rewrite IH. f_equal.
  destruct (String.eqb_spec k k') as [->|]; [by rewrite lookup_insert_eq|by rewrite lookup_insert_ne].
Qed.

(** Sections a writer may write. *)
Definition good_section (s : string * list (string * string)) : Prop :=
  section_name s.1 = true /\ forallb ini_key s.2.*1 = true /\ Forall clean s.2.*2.

Lemma ini_step_section m cur n es :
  good_section (n, es) ->
  fold_left ini_step (ini_section n es) (m, cur) = (<[n := entries_map es (slot m n)]> m, n).
Proof.
  intros (Hn & Hk & Hv). unfold ini_section. cbn [fold_left]. rewrite ini_step_name by done.
  rewrite fold_left_app. cbn [fold_left]. rewrite ini_step_entries by done.
  assert (Hs : slot (<[n:=slot m n]> m) n = slot m n) by (unfold slot; by rewrite lookup_insert_eq).
  destruct es as [|e es]; rewrite ini_skip by (by left); [done|]. by rewrite Hs, insert_insert_eq.
Qed.

Lemma ini_step_sections secs m cur n k :
  Forall good_section secs ->
  slot (fold_left ini_step (List.concat ((fun '(n, es) => ini_section n es) <$> secs)) (m, cur)).1 n !! k
  = fold_left (fun o '(k', v) => if String.eqb k k' then Some v else o) (gather n secs) (slot m n !! k).
Proof.
  intros Hg. revert m cur. induction Hg as [|[n' es] secs Hs _ IH]; intros m cur; [done|].
  cbn [fmap list_fmap List.concat]. rewrite fold_left_app, ini_step_section by done.
  change (list_fmap _ _ ?f secs) with (f <$> secs). rewrite IH. unfold gather. cbn [List.filter].
  unfold slot. destruct (String.eqb_spec n n') as [->|Hne].
  - cbn -[entries_map]. rewrite lookup_insert_eq, fold_left_app, <- (entries_map_lookup es). done.
  - by rewrite lookup_insert_ne by done.
Qed.

(** The lines of a section are lines. *)
Lemma key_clean k v : ini_key k = true -> clean v -> clean (kv k v).
Proof.
  unfold ini_key. intros [Hk Hc]%andb_true_iff [Hv Hl]. destruct k as [|a k]; [done|].
  unfold kv. change (?x +:+ "=" +:+ v) with (x +:+ String "=" v). split.
  - apply trimmed_pair; [|by split|done]. apply key_char_solid. cbn in Hc. by destruct (key_char a).
  - rewrite contains_char_app. by rewrite (all_chars_no key_char) by done.
Qed.

Lemma name_clean n : section_name n = true -> clean (String "[" (n +:+ "]")).
Proof.
  intros Hn. change (String "[" (n +:+ "]")) with (String "[" n +:+ String "]" ""). split.
  - apply trimmed_pair; [by split|by split|done].
  - rewrite str_app_cons. cbn -[String.append]. rewrite contains_char_app. by rewrite (all_chars_no _ LF n eq_refl Hn).
Qed.

Lemma section_clean s : good_section s -> Forall clean (ini_section s.1 s.2).
Proof.
  destruct s as [n es]. intros (Hn & Hk & Hv). cbn in *. constructor; [by apply name_clean|].
  apply Forall_app; split; [|by repeat constructor]. induction es as [|[k v] es IH]; [constructor|].
  cbn in Hk, Hv |- *. apply andb_true_iff in Hk as [Hk Hks]. apply Forall_cons in Hv as [Hv Hvs].
  constructor; [by apply key_clean|by apply IH].
Qed.

Lemma sections_clean secs :
  Forall good_section secs -> Forall clean (List.concat ((fun '(n, es) => ini_section n es) <$> secs)).
Proof.
  induction 1 as [|[n es] secs Hs _ IH]; [constructor|]. cbn [fmap list_fmap List.concat].
  apply Forall_app; split; [|exact IH].
  exact (section_clean (n, es) Hs).
Qed.

Lemma strip_cr_clean ls : Forall clean ls -> strip_cr <$> ls = ls.
Proof. induction 1 as [|l ls [Hl _] _ IH]; [done|]. cbn. rewrite strip_cr_trimmed by done. f_equal. exact IH. Qed.

(** Whatever sections are written, the parser finds their entries. *)
Lemma parse_written secs n k :
  Forall good_section secs ->
  section (parse_ini (unlines (ini_header ++ List.concat ((fun '(n, es) => ini_section n es) <$> secs)))) n !! k
  = assoc k (gather n secs).
Proof.
  intros Hg. unfold parse_ini.
  assert (Hc : Forall clean (ini_header ++ List.concat ((fun '(n, es) => ini_section n es) <$> secs))).
  { apply Forall_app; split; [|by apply sections_clean]. repeat constructor. }
  rewrite lines_unlines, strip_cr_clean by (done || by eapply Forall_impl; [exact Hc|intros ? []]).
  rewrite fold_left_app. cbn [ini_header fold_left]. rewrite !ini_skip by (by vm_compute; auto).
  exact (ini_step_sections secs ∅ "default" n k Hg).
Qed.

(** ** What the file keeps *)

Definition nonempty (v : string) : option string := if is_empty v then None else Some v.

Definition stored_static_ipv4 (s : StaticIpConfig) : option StaticIpConfig :=
  ip ← nonempty (ip_address s);
  Some (mkStatic ip (default "255.255.255.0" (nonempty (subnet_mask s))) (gateway s) (dns_servers s)).

Definition stored_static_ipv6 (s : StaticIpConfig) : option StaticIpConfig :=
  (fun ip => mkStatic ip "" (gateway s) (dns_servers s)) <$> nonempty (ip_address s).

Definition stored_endpoint (ep : VlanEndpointConfig) : option VlanEndpointConfig :=
  if (vlan_id ep =? 0)%Z then None else
  Some (mkEndpoint (vlan_id ep) (ep_ipv4_mode ep) (Some (default Slaac (ep_ipv6_mode ep)))
          (match ep_ipv4_mode ep with
           | StaticV4 =>
               let s := default (mkStatic "" "" "" []) (ep_static_ipv4 ep) in
               Some (mkStatic (ip_address s) (default "255.255.255.0" (nonempty (subnet_mask s))) (gateway s)
                       (dns_servers s))
           | Dhcp => None
           end) None).

Definition stored_vlan (v : VlanSettings) : VlanSettings :=
  mkVlan (vlan_enabled v) (primary_vlan v ≫= stored_endpoint) (secondary_vlan v ≫= stored_endpoint).

Definition stored (c : NetworkConfig) : NetworkConfig :=
  mkNet (nonempty (default "arkkvm" (hostname c))) None (nonempty (default "dhcp" (domain c)))
    (ipv4_mode c) (match ipv4_mode c with StaticV4 => static_ipv4 c ≫= stored_static_ipv4 | Dhcp => None end)
    (ipv6_mode c) (match ipv6_mode c with StaticV6 => static_ipv6 c ≫= stored_static_ipv6 | Slaac => None end)
    "disabled" [] "disabled" "ntp" [] false 1 (stored_vlan (vlan_settings c)).

(** Settings whose texts are lines and whose name servers are words. *)
Definition clean_static (s : StaticIpConfig) : Prop :=
  clean (ip_address s) /\ clean (subnet_mask s) /\ clean (gateway s) /\ Forall word (dns_servers s).
Definition clean_endpoint (ep : VlanEndpointConfig) : Prop :=
  (0 <= vlan_id ep <= u16_max)%Z /\ from_option clean_static True (ep_static_ipv4 ep).
Definition clean_config (c : NetworkConfig) : Prop :=
  from_option clean True (hostname c) /\ from_option clean True (domain c)
  /\ from_option clean_static True (static_ipv4 c) /\ from_option clean_static True (static_ipv6 c)
  /\ from_option clean_endpoint True (primary_vlan (vlan_settings c))
  /\ from_option clean_endpoint True (secondary_vlan (vlan_settings c)).

Lemma is_digit_solid a : is_digit a = true -> solid a.
Proof. unfold is_digit, digit_of, solid, ws1. intros H. destruct (_ && _) eqn:E in H; [|done]. split; [lia|lia]. Qed.

Lemma show_nat_clean z : clean (show_nat z).
Proof.
  destruct (show_nat_digits z) as [Hd _]. split; [by apply (all_chars_trimmed is_digit); [apply is_digit_solid|]|].
  by apply (all_chars_no is_digit).
Qed.

Lemma clean_empty : clean "".
Proof. by split. Qed.

Lemma dns_clean k l : Forall word l -> Forall clean (dns_entry k l).*2.
Proof. intros Hl. destruct l as [|x l]; [constructor|]. constructor; [by apply join_clean|constructor]. Qed.

Lemma dns_keys k l : ini_key k = true -> forallb ini_key (dns_entry k l).*1 = true.
Proof. intros Hk. destruct l; [done|]. cbn [dns_entry fmap list_fmap forallb fst]. by rewrite Hk. Qed.

Lemma join_clean1 l : Forall word l -> clean (str_join " " l).
Proof. apply join_clean. Qed.

Create HintDb clean.
#[local] Hint Resolve show_nat_clean clean_empty join_clean1 dns_clean : clean.
#[local] Hint Extern 1 (clean _) => by split : clean.

Ltac clean_entries :=
  repeat first [apply Forall_nil_2 | apply Forall_cons; split]; eauto with clean.

Lemma endpoint_good o metric :
  from_option clean_endpoint True o -> clean metric ->
  forallb ini_key (endpoint_entries o metric).*1 = true /\ Forall clean (endpoint_entries o metric).*2.
Proof.
  destruct o as [[i m4 m6 [[ip mask gw dns]|] s6]|]; cbn; intros Ho Hm; (split; [done|]).
  - destruct Ho as (_ & Hip & Hmask & Hgw & Hdns). cbn in *. clean_entries; [by destruct m4|by destruct m6 as [[]|]].
  - clean_entries; [by destruct m4|by destruct m6 as [[]|]].
  - clean_entries.
Qed.

Lemma good_sections c m : clean_config c -> clean m -> Forall good_section (ini_sections c m).
Proof.
  intros (Hh & Hd & H4 & H6 & Hp & Hs) Hm.
  destruct (endpoint_good _ "0" Hp) as [Hp1 Hp2]; [by split|].
  destruct (endpoint_good _ "200" Hs) as [Hs1 Hs2]; [by split|].
  unfold ini_sections. repeat (apply Forall_cons; split); try (split; [done|]); cbn [fst snd] in *.
  all: try (split; [done|]); try done; try (cbn; clean_entries; fail).
  - unfold system_entries. destruct (hostname c), (domain c); cbn in *; clean_entries.
  - unfold ipv4_entries. destruct (static_ipv4 c) as [[ip mask gw dns]|]; cbn -[dns_entry] in H4 |- *.
    + destruct H4 as (Hip & Hmask & Hgw & Hdns). cbn in Hip, Hmask, Hgw, Hdns.
      split; [by apply dns_keys|]. clean_entries. by destruct (ipv4_mode c).
    + split; [done|]. clean_entries. by destruct (ipv4_mode c).
  - unfold ipv6_entries. destruct (static_ipv6 c) as [[ip mask gw dns]|]; cbn -[dns_entry] in H6 |- *.
    + destruct H6 as (Hip & Hmask & Hgw & Hdns). cbn in Hip, Hmask, Hgw, Hdns.
      split; [by apply dns_keys|]. clean_entries. by destruct (ipv6_mode c).
    + split; [done|]. clean_entries. by destruct (ipv6_mode c).
  - unfold vlan_entries. cbn. clean_entries. by destruct (vlan_enabled _).
Qed.

(** ** Round trip *)

Lemma get_str_some (sec : Section_) k v : sec !! k = Some v -> get_str sec k = nonempty v.
Proof. unfold get_str. by intros ->. Qed.

Lemma default_nonempty v : default "" (nonempty v) = v.
Proof. by destruct v. Qed.

Lemma words_of_join l : Forall word l -> words_of (nonempty (str_join " " l)) = l.
Proof.
  intros Hl.
  destruct l as [|x l]; [done|]. pose proof (proj2 (join_clean _ Hl) ltac:(done)) as Hne. unfold nonempty.
  destruct (is_empty _) eqn:E; [by destruct (str_join " " (x :: l))|]. cbn [words_of from_option]. by apply words_join.
Qed.

(** Reading sections that hold the entries of the writer. *)
Definition holds (sec : Section_) (es : list (string * string)) : Prop := ∀ k, sec !! k = assoc k es.

Lemma get_str_holds sec es k : holds sec es -> get_str sec k = assoc k es ≫= nonempty.
Proof. unfold get_str. intros ->. by destruct (assoc k es). Qed.

Lemma endpoint_stored sec o metric :
  holds sec (endpoint_entries o metric) -> from_option clean_endpoint True o ->
  parse_vlan_endpoint sec = o ≫= stored_endpoint.
Proof.
  intros Hs Ho. unfold parse_vlan_endpoint. rewrite !(get_str_holds _ _ _ Hs), !(Hs _).
  destruct o as [[i m4 m6 s4 s6]|]; [|done].
  assert (Hid : assoc "id" (endpoint_entries (Some (mkEndpoint i m4 m6 s4 s6)) metric) = Some (show_nat i))
    by (by destruct s4).
  assert (Hm4 : assoc "ipv4_mode" (endpoint_entries (Some (mkEndpoint i m4 m6 s4 s6)) metric)
                = Some (ipv4_mode_str m4)) by (by destruct s4).
  assert (Hm6 : assoc "ipv6_mode" (endpoint_entries (Some (mkEndpoint i m4 m6 s4 s6)) metric)
                = Some (ipv6_mode_str (default Slaac m6))) by (by destruct s4).
  rewrite Hid, Hm4, Hm6. cbn [mbind option_bind from_option]. unfold parse_u16.
  destruct Ho as [Hi Hc]. cbn in Hi, Hc. rewrite parse_show by done. cbn [mbind option_bind].
  unfold stored_endpoint. cbn [vlan_id ep_ipv4_mode ep_ipv6_mode ep_static_ipv4].
  destruct (i =? 0)%Z; [done|]. f_equal. f_equal.
  - by destruct m4.
  - by destruct m6 as [[]|].
  - destruct m4; [done|]. cbn [parse_ipv4_mode ipv4_mode_str default].
    destruct s4 as [[ip mask gw dns]|]; [|done]. destruct Hc as (_ & _ & _ & Hdns). cbn in Hdns.
    change (assoc "ipv4_address" _) with (Some ip). change (assoc "ipv4_netmask" _) with (Some mask).
    change (assoc "ipv4_gateway" _) with (Some gw). change (assoc "ipv4_dns" _) with (Some (str_join " " dns)).
    cbn -[words_of str_join nonempty]. by rewrite !default_nonempty, words_of_join.
Qed.

(** The name servers of a section, which are left out when there are none. *)
Lemma words_of_entry l :
  Forall word l -> words_of ((match l with [] => None | _ => Some (str_join " " l) end) ≫= nonempty) = l.
Proof. intros Hl. destruct l as [|x l]; [done|]. cbn [mbind option_bind]. by apply words_of_join. Qed.

Lemma static_ipv4_stored sec c :
  holds sec (ipv4_entries c) -> from_option clean_static True (static_ipv4 c) ->
  parse_static_ipv4 sec = static_ipv4 c ≫= stored_static_ipv4.
Proof.
  intros Hs Hc. unfold parse_static_ipv4. rewrite !(get_str_holds _ _ _ Hs).
  unfold ipv4_entries. destruct (static_ipv4 c) as [[ip mask gw dns]|]; [|done].
  destruct Hc as (_ & _ & _ & Hdns). cbn in Hdns.
  set (es := _ :: _). assert (Hd : assoc "dns" es = match dns with [] => None | _ => Some (str_join " " dns) end)
    by (by destruct dns).
  assert (Ha : assoc "address" es = Some ip) by (by destruct dns).
  assert (Hm : assoc "netmask" es = Some mask) by (by destruct dns).
  assert (Hg : assoc "gateway" es = Some gw) by (by destruct dns).
  rewrite Hd, Ha, Hm, Hg, words_of_entry by done. unfold stored_static_ipv4. cbn -[nonempty].
  by rewrite default_nonempty.
Qed.

Lemma static_ipv6_stored sec c :
  holds sec (ipv6_entries c) -> from_option clean_static True (static_ipv6 c) ->
  (fun prefix => mkStatic prefix "" (default "" (get_str sec "gateway")) (words_of (get_str sec "dns")))
    <$> get_str sec "prefix"
  = static_ipv6 c ≫= stored_static_ipv6.
Proof.
  intros Hs Hc. rewrite !(get_str_holds _ _ _ Hs).
  unfold ipv6_entries. destruct (static_ipv6 c) as [[ip mask gw dns]|]; [|done].
  destruct Hc as (_ & _ & _ & Hdns). cbn in Hdns.
  set (es := _ :: _). assert (Hd : assoc "dns" es = match dns with [] => None | _ => Some (str_join " " dns) end)
    by (by destruct dns).
  assert (Ha : assoc "prefix" es = Some ip) by (by destruct dns).
  assert (Hg : assoc "gateway" es = Some gw) by (by destruct dns).
  rewrite Hd, Ha, Hg, words_of_entry by done. unfold stored_static_ipv6. cbn -[nonempty].
  by rewrite default_nonempty.
Qed.

(** C38: Reading a written network.conf gives back the L3 settings: for settings
    whose texts are single trimmed lines, name servers words and VLAN ids 16
    bits wide, [ini_to_network_config] of [network_config_to_ini] is [stored],
    which says field by field what the file keeps - the modes, the addresses of
    the static mode, the two VLAN endpoints with a non-zero id - and what it
    loses: the static settings of a DHCP or SLAAC mode, the IPv6 subnet and the
    static IPv6 settings of an endpoint, and everything above layer 3. *)
Theorem conf_roundtrip c apply_mode :
  clean_config c -> clean apply_mode ->
  ini_to_network_config (network_config_to_ini c apply_mode) = stored c.
Proof.
  intros Hc Hm. pose proof (good_sections c apply_mode Hc Hm) as Hgood.
  unfold ini_to_network_config, network_config_to_ini.
  set (S := parse_ini _). assert (Hl : ∀ n k, section S n !! k = assoc k (gather n (ini_sections c apply_mode)))
    by (intros n k; by apply parse_written).
  clearbody S. destruct Hc as (_ & _ & H4 & H6 & Hp & Hs).
  assert (Hsys : holds (section S "system") (system_entries c)) by (intros k; apply Hl).
  assert (Hv4 : holds (section S "ipv4") (ipv4_entries c)) by (intros k; rewrite Hl; cbn -[assoc ipv4_entries]; by rewrite app_nil_r).
  assert (Hv6 : holds (section S "ipv6") (ipv6_entries c)) by (intros k; rewrite Hl; cbn -[assoc ipv6_entries]; by rewrite app_nil_r).
  assert (Hvl : holds (section S "vlan") (vlan_entries c apply_mode)) by (intros k; apply Hl).
  assert (Hvp : holds (section S "vlan.primary") (endpoint_entries (primary_vlan (vlan_settings c)) "0"))
    by (intros k; rewrite Hl; cbn -[assoc endpoint_entries]; by rewrite app_nil_r).
  assert (Hvs : holds (section S "vlan.secondary") (endpoint_entries (secondary_vlan (vlan_settings c)) "200"))
    by (intros k; rewrite Hl; cbn -[assoc endpoint_entries]; by rewrite app_nil_r).
  rewrite (static_ipv4_stored _ _ Hv4 H4), (static_ipv6_stored _ _ Hv6 H6).
  rewrite (endpoint_stored _ _ _ Hvp Hp), (endpoint_stored _ _ _ Hvs Hs).
  rewrite !(get_str_holds _ _ _ Hsys), (Hv4 "mode"), (Hv6 "mode"). unfold get_bool. rewrite (Hvl "enabled").
  assert (Hm4 : assoc "mode" (ipv4_entries c) = Some (ipv4_mode_str (ipv4_mode c)))
    by (unfold ipv4_entries; by destruct (static_ipv4 c) as [[? ? ? []]|]).
  assert (Hm6 : assoc "mode" (ipv6_entries c) = Some (ipv6_mode_str (ipv6_mode c)))
    by (unfold ipv6_entries; by destruct (static_ipv6 c) as [[? ? ? []]|]).
  rewrite Hm4, Hm6. unfold stored, stored_vlan.
  f_equal; [by destruct (ipv4_mode c)..|by destruct (ipv6_mode c)|by destruct (ipv6_mode c)|].
  f_equal. cbn. by destruct (vlan_enabled (vlan_settings c)).
Qed.

(** ** Normal forms *)

(** Settings the file keeps as they are. *)
Definition normal_static_ipv4 (m : IpV4Mod) (o : option StaticIpConfig) : Prop :=
  match m, o with
  | Dhcp, o => o = None
  | StaticV4, Some s => ip_address s ≠ "" /\ subnet_mask s ≠ ""
  | StaticV4, None => True
  end.

Definition normal_static_ipv6 (m : IpV6Mod) (o : option StaticIpConfig) : Prop :=
  match m, o with
  | Slaac, o => o = None
  | StaticV6, Some s => ip_address s ≠ "" /\ subnet_mask s = ""
  | StaticV6, None => True
  end.

Definition normal_endpoint (ep : VlanEndpointConfig) : Prop :=
  vlan_id ep ≠ 0%Z /\ ep_ipv6_mode ep ≠ None /\ ep_static_ipv6 ep = None
  /\ match ep_ipv4_mode ep, ep_static_ipv4 ep with
     | Dhcp, o => o = None
     | StaticV4, Some s => subnet_mask s ≠ ""
     | StaticV4, None => False
     end.

Definition normal_vlan (v : VlanSettings) : Prop :=
  from_option normal_endpoint True (primary_vlan v) /\ from_option normal_endpoint True (secondary_vlan v).

Definition normal (c : NetworkConfig) : Prop :=
  hostname c ≠ Some "" /\ domain c ≠ Some "" /\ normal_static_ipv4 (ipv4_mode c) (static_ipv4 c)
  /\ normal_static_ipv6 (ipv6_mode c) (static_ipv6 c) /\ normal_vlan (vlan_settings c).

Lemma nonempty_some v : v ≠ "" -> nonempty v = Some v.
Proof. by destruct v. Qed.

Lemma stored_normal_vlan v : normal_vlan v -> stored_vlan v = v.
Proof.
  assert (He : ∀ o, from_option normal_endpoint True o -> o ≫= stored_endpoint = o).
  { intros [[i m4 m6 s4 s6]|]; [|done]. cbn. unfold normal_endpoint, stored_endpoint. cbn. intros (Hi & Hm & -> & H4).
    apply Z.eqb_neq in Hi. rewrite Hi. destruct m6 as [m6|]; [|done]. cbn.
    destruct m4; [by rewrite H4|]. destruct s4 as [[ip mask gw dns]|]; [|done]. cbn in *. by rewrite nonempty_some. }
  intros [Hp Hs]. unfold stored_vlan. rewrite !He by done. by destruct v.
Qed.

(** The layer 3 settings. *)
Definition l3 (c : NetworkConfig) :=
  (ipv4_mode c, static_ipv4 c, ipv6_mode c, static_ipv6 c, vlan_settings c).

Lemma stored_l3 c : normal c -> l3 (stored c) = l3 c.
Proof.
  intros (_ & _ & H4 & H6 & Hv). unfold l3, stored. cbn -[nonempty].
  rewrite (stored_normal_vlan _ Hv). destruct c as [h p d m4 s4 m6 s6 l1 l2 md t1 t2 t3 t4 v]. cbn in *.
  f_equal. f_equal; [f_equal; f_equal|].
  - destruct m4; [by rewrite H4|]. destruct s4 as [[ip mask gw dns]|]; [|done]. cbn in *. destruct H4 as [Hip Hm].
    unfold stored_static_ipv4. cbn. by rewrite !nonempty_some.
  - destruct m6; [by rewrite H6|]. destruct s6 as [[ip mask gw dns]|]; [|done]. cbn in *. destruct H6 as [Hip ->].
    unfold stored_static_ipv6. cbn. by rewrite !nonempty_some.
Qed.

(** Normal settings with both names survive the file. *)
Lemma stored_normal c :
  normal c -> hostname c ≠ None -> domain c ≠ None -> merge_l3_from_file c (stored c) = c.
Proof.
  intros Hn Hh' Hd'. pose proof (stored_l3 c Hn) as Hl. destruct Hn as (Hh & Hd & _).
  pose proof (f_equal (fun t => t.1.1.1.2) Hl) as E2. pose proof (f_equal (fun t => t.1.2) Hl) as E4.
  pose proof (f_equal snd Hl) as E5. unfold merge_l3_from_file.
  change (static_ipv4 (stored c) = static_ipv4 c) in E2. change (static_ipv6 (stored c) = static_ipv6 c) in E4.
  change (vlan_settings (stored c) = vlan_settings c) in E5. rewrite E2, E4, E5.
  destruct c as [h p d m4 s4 m6 s6 l1 l2 md t1 t2 t3 t4 v]. cbn -[nonempty] in *.
  destruct h as [h|]; [|done]. destruct d as [d|]; [|done]. cbn.
  by rewrite (nonempty_some h), (nonempty_some d) by congruence.
Qed.

(** *** What is read is clean and normal *)

Definition clean_section (sec : Section_) : Prop := ∀ k v, sec !! k = Some v -> clean v.

Lemma parse_ini_clean content n : clean_section (section (parse_ini content) n).
Proof.
  unfold parse_ini.
  assert (Hinv : ∀ ls st, Forall (fun l => contains_char LF l = false) ls ->
            (∀ n, clean_section (section st.1 n)) -> ∀ n, clean_section (section (fold_left ini_step ls st).1 n)).
  { induction ls as [|l ls IH]; intros st Hl Hst; [done|]. apply Forall_cons in Hl as [Hl Hls]. cbn. apply IH; [done|].
    clear -Hl Hst. destruct st as [m cur]. intros n. unfold ini_step.
    destruct (_ || _); [done|]. destruct (starts_ends _ _ _); cbn -[split_once].
    - unfold section. destruct (String.eqb_spec (trim (substring 1 (String.length (trim l) - 2) (trim l))) n) as [<-|Hne].
      + rewrite lookup_insert_eq. apply (Hst _).
      + rewrite lookup_insert_ne by done. apply (Hst n).
    - destruct (split_once "=" (trim l)) as [[k v]|] eqn:Es; [|apply Hst]. cbn. unfold section.
      destruct (String.eqb_spec cur n) as [<-|Hne]; [|rewrite lookup_insert_ne by done; apply (Hst n)].
      rewrite lookup_insert_eq. cbn. intros k' v'. destruct (String.eqb_spec (trim k) k') as [<-|Hk].
      + rewrite lookup_insert_eq. intros [= <-]. split; [apply trim_trimmed|]. apply trim_no_char.
        apply split_once_some in Es. apply trim_no_char in Hl. rewrite Es, contains_char_app in Hl.
        apply orb_false_iff in Hl as [_ Hl]. cbn in Hl. exact Hl.
      + rewrite lookup_insert_ne by done. apply (Hst cur). }
  apply Hinv; [apply lines_no_lf|]. intros n' k v Hv. done.
Qed.

Lemma get_str_clean sec k v : clean_section sec -> get_str sec k = Some v -> clean v /\ v ≠ "".
Proof.
  intros Hs. unfold get_str. destruct (sec !! k) as [w|] eqn:E; [|done]. destruct (is_empty w) eqn:Ew; [done|].
  intros [= <-]. split; [by eapply Hs|by intros ->].
Qed.

Lemma words_of_words o : Forall word (words_of o).
Proof. destruct o; [apply split_whitespace_words|constructor]. Qed.

Lemma get_default_clean sec k d : clean_section sec -> clean d -> clean (default d (get_str sec k)).
Proof. intros Hs Hd. destruct (get_str sec k) eqn:E; [by eapply get_str_clean|done]. Qed.

Lemma get_default_nonempty sec k d : d ≠ "" -> default d (get_str sec k) ≠ "".
Proof.
  intros Hd. unfold get_str. destruct (sec !! k) as [w|]; [|done]. by destruct w.
Qed.

Lemma parse_u16_range s z : parse_u16 s = Some z -> (0 <= z <= u16_max)%Z.
Proof.
  assert (Hp : ∀ t, parse_digits 10 u16_max digit_of 0 t = Some z -> (0 <= z <= u16_max)%Z).
  { intros t Ht. apply parse_digits_range in Ht; unfold u16_max in *; lia. }
  unfold parse_u16, parse_unsigned. repeat case_match; try done; apply Hp.
Qed.

Lemma clean_static_intro ip mask gw dns :
  clean ip -> clean mask -> clean gw -> Forall word dns -> clean_static (mkStatic ip mask gw dns).
Proof. by intros. Qed.

Lemma parsed_endpoint sec :
  clean_section sec ->
  from_option (fun ep => clean_endpoint ep /\ normal_endpoint ep) True (parse_vlan_endpoint sec).
Proof.
  intros Hs. unfold parse_vlan_endpoint. destruct (sec !! "id" ≫= parse_u16) as [i|] eqn:Ei; [|done]. cbn -[get_str words_of].
  assert (Hi : (0 <= i <= u16_max)%Z).
  { destruct (sec !! "id") as [v|]; [|done]. cbn in Ei. by eapply parse_u16_range. }
  destruct (Z.eqb_spec i 0); [done|]. cbn -[get_str words_of]. unfold clean_endpoint, normal_endpoint. cbn -[get_str words_of].
  destruct (parse_ipv4_mode _); cbn -[get_str words_of]; [done|].
  pose proof (get_default_nonempty sec "ipv4_netmask" "255.255.255.0" ltac:(done)).
  split_and!; try done; try lia.
  apply clean_static_intro; try (apply get_default_clean; [done|by split]). apply words_of_words.
Qed.

Lemma parsed_clean_normal content :
  let c := ini_to_network_config content in clean_config c /\ normal c.
Proof.
  intros c. pose proof (parse_ini_clean content) as Hc. subst c. unfold ini_to_network_config.
  set (S := parse_ini content) in *. clearbody S. cbv zeta.
  pose proof (parsed_endpoint _ (Hc "vlan.primary")) as Hp. pose proof (parsed_endpoint _ (Hc "vlan.secondary")) as Hs.
  assert (Hn : ∀ n k, from_option clean True (get_str (section S n) k) /\ get_str (section S n) k ≠ Some "").
  { intros n k. destruct (get_str (section S n) k) as [v|] eqn:E; [|done].
    apply get_str_clean in E as [? ?]; [|apply Hc]. split; [done|congruence]. }
  assert (H4 : ∀ m, let o := match m with StaticV4 => parse_static_ipv4 (section S "ipv4") | Dhcp => None end in
             from_option clean_static True o /\ normal_static_ipv4 m o).
  { intros []; [done|]. cbn. unfold parse_static_ipv4.
    destruct (get_str (section S "ipv4") "address") as [ip|] eqn:E; [|done]. cbn -[get_str words_of].
    apply get_str_clean in E as [? ?]; [|apply Hc]. split.
    - apply clean_static_intro; try done; try (apply get_default_clean; [apply Hc|by split]). apply words_of_words.
    - split; [done|by apply get_default_nonempty]. }
  assert (H6 : ∀ m, let o := match m with
                             | StaticV6 => (fun prefix => mkStatic prefix "" (default "" (get_str (section S "ipv6") "gateway"))
                                              (words_of (get_str (section S "ipv6") "dns"))) <$> get_str (section S "ipv6") "prefix"
                             | Slaac => None end in
             from_option clean_static True o /\ normal_static_ipv6 m o).
  { intros []; [done|]. cbn -[get_str words_of]. destruct (get_str (section S "ipv6") "prefix") as [ip|] eqn:E; [|done].
    cbn -[get_str words_of]. apply get_str_clean in E as [? ?]; [|apply Hc]. split; [|done].
    apply clean_static_intro; try done; [by apply get_default_clean|apply words_of_words]. }
  specialize (H4 (parse_ipv4_mode (default "dhcp" (section S "ipv4" !! "mode")))).
  specialize (H6 (parse_ipv6_mode (default "slaac" (section S "ipv6" !! "mode")))). cbv zeta in H4, H6.
  destruct H4 as [H4 H4'], H6 as [H6 H6'].
  assert (Hep : ∀ o, from_option (fun ep => clean_endpoint ep /\ normal_endpoint ep) True o ->
            from_option clean_endpoint True o /\ from_option normal_endpoint True o) by (by intros [?|]).
  apply Hep in Hp as [Hp Hp'], Hs as [Hs Hs'].
  split; split_and!; try done; apply Hn.
Qed.

(** Rewriting the file changes nothing: whatever text network.conf holds, the
    settings read from it are written and read back the same, for any mode of
    application; only a missing host name or domain becomes the default that
    the writer fills in. *)
Theorem conf_normal_form content apply_mode :
  clean apply_mode ->
  let c := ini_to_network_config content in
  ini_to_network_config (network_config_to_ini c apply_mode)
  = with_names (Some (default "arkkvm" (hostname c))) (Some (default "dhcp" (domain c))) c.
Proof.
  intros Hm c. destruct (parsed_clean_normal content) as [Hc Hn]. fold c in Hc, Hn.
  rewrite conf_roundtrip by done.
  assert (Hup : http_proxy c = None /\ lldp_mode c = "disabled" /\ lldp_tx_tlvs c = [] /\ mdns_mode c = "disabled"
    /\ time_sync_mode c = "ntp" /\ time_sync_ordering c = [] /\ time_sync_disable_fallback c = false
    /\ time_sync_parallel c = 1%Z) by done.
  clearbody c. destruct Hup as (U1 & U2 & U3 & U4 & U5 & U6 & U7 & U8).
  set (c' := with_names (Some (default "arkkvm" (hostname c))) (Some (default "dhcp" (domain c))) c).
  assert (Hs : merge_l3_from_file c' (stored c') = c').
  { apply stored_normal; try done. destruct Hn as (Hh & Hd & H4 & H6 & Hv). split_and!; try done; cbn.
    - by destruct (hostname c).
    - by destruct (domain c). }
  assert (E : stored c' = stored c) by (subst c'; unfold stored; cbn; done).
  rewrite E in Hs. rewrite <- Hs. destruct Hn as (Hh & Hd & _).
  unfold merge_l3_from_file, stored, with_names. cbn -[nonempty].
  assert (Hne : ∀ d o, d ≠ "" -> o ≠ Some "" -> nonempty (default d o) = Some (default d o)).
  { intros d [v|] Hdne Ho; apply nonempty_some; [intros E'; apply Ho; by rewrite <- E'|done]. }
  by rewrite !Hne, U1, U2, U3, U4, U5, U6, U7, U8 by done.
Qed.
