(* ===== verification/Cloud.v ===== *)
(** * The cloud connection (cloud/manager.rs, cloud/websocket.rs)

    The gate that holds reconnects back while the network changes, the state of
    the connection, the loop that connects, and the registration of the device.
    The loop and the operations of other tasks interleave at the awaits of the
    network: an event runs one of them to its next wait.  The outcome of each
    HTTP exchange, handshake, socket and save is an argument. *)

From S2P Require Import Prelude.
From S2P Require Import StateLaws.

(** ** The gate *)

Record ReconnectGate := mkGate { generation : Z; paused : bool }.
Definition gate_default : ReconnectGate := mkGate 0 false.

Definition begin (g : ReconnectGate) : ReconnectGate * Z :=
  let gen := wrap64 (generation g + 1) in (mkGate gen true, gen).

Definition end_ (gen : Z) (g : ReconnectGate) : ReconnectGate * bool :=
  if paused g && (gen =? generation g)%Z then (mkGate (generation g) false, true) else (g, false).

Definition release (g : ReconnectGate) : ReconnectGate := mkGate (wrap64 (generation g + 1)) false.

(** ** The manager *)

Inductive CloudConnectionState : Set := NotConfigured | Disconnected | Connecting | Connected.

#[export] Instance cloud_state_eq_dec : EqDecision CloudConnectionState.
Proof. solve_decision. Defined.

Definition cloud_state_of_u8 (v : Z) : CloudConnectionState :=
  if (v =? 0)%Z then NotConfigured else if (v =? 1)%Z then Disconnected
  else if (v =? 2)%Z then Connecting else if (v =? 3)%Z then Connected else NotConfigured.

Definition cloud_state_str (s : CloudConnectionState) : string :=
  match s with
  | NotConfigured => "notConfigured" | Disconnected => "disconnected"
  | Connecting => "connecting" | Connected => "connected"
  end.

Definition cloud_state_from_str (s : string) : option CloudConnectionState :=
  if String.eqb s "notConfigured" then Some NotConfigured
  else if String.eqb s "disconnected" then Some Disconnected
  else if String.eqb s "connecting" then Some Connecting
  else if String.eqb s "connected" then Some Connected else None.

(** Where the connection loop is: at its head, past the check of the gate,
    waiting for the handshake, reading the socket. *)
Inductive LoopPc : Set := Top | Passed | Handshake | Online.

#[export] Instance loop_pc_eq_dec : EqDecision LoopPc.
Proof. solve_decision. Defined.

(** The part of the configuration the cloud connection uses. *)
Record CloudConfig := mkCloudConfig {
  cloud_url : string; cloud_app_url : string; cloud_token : option string; owner_user_id : option Z }.

(** [ws_tx]: the write channel of the socket is there; [close_sent]: a close
    frame was put into it. *)
Record Cloud := mkCloud {
  gate : ReconnectGate; cstate : CloudConnectionState; pc : LoopPc;
  ws_tx : bool; close_sent : bool; cconfig : CloudConfig }.

Definition set_gate (g : ReconnectGate) (s : Cloud) : Cloud :=
  mkCloud g (cstate s) (pc s) (ws_tx s) (close_sent s) (cconfig s).
Definition set_state (c : CloudConnectionState) (s : Cloud) : Cloud :=
  mkCloud (gate s) c (pc s) (ws_tx s) (close_sent s) (cconfig s).
Definition set_pc (p : LoopPc) (s : Cloud) : Cloud :=
  mkCloud (gate s) (cstate s) p (ws_tx s) (close_sent s) (cconfig s).
Definition set_tx (tx : bool) (s : Cloud) : Cloud :=
  mkCloud (gate s) (cstate s) (pc s) tx false (cconfig s).
Definition set_cconfig (c : CloudConfig) (s : Cloud) : Cloud :=
  mkCloud (gate s) (cstate s) (pc s) (ws_tx s) (close_sent s) c.

(** [disconnect_from_cloud]: a close frame, when there is a channel. *)
Definition disconnect_from_cloud (s : Cloud) : Cloud :=
  mkCloud (gate s) (cstate s) (pc s) (ws_tx s) (close_sent s || ws_tx s) (cconfig s).

Definition reconnect_after_network_change (s : Cloud) : Cloud :=
  match cstate s with
  | Connected | Connecting => set_state Disconnected (disconnect_from_cloud s)
  | _ => s
  end.

Definition begin_network_transition (s : Cloud) : Cloud * Z :=
  let '(g, gen) := begin (gate s) in (reconnect_after_network_change (set_gate g s), gen).

Definition end_network_transition (gen : Z) (s : Cloud) : Cloud :=
  let '(g, released) := end_ gen (gate s) in
  let s := set_gate g s in
  if released then (if bool_decide (cstate s ≠ NotConfigured) then set_state Disconnected s else s) else s.

Definition force_reconnect (s : Cloud) : Cloud :=
  let s := set_gate (release (gate s)) s in
  match cstate s with NotConfigured => s | _ => set_state Disconnected (disconnect_from_cloud s) end.

(** ** The connection loop *)

Inductive ConnectError : Set := UnexpectedEof | OtherError.

(** [connect_to_cloud] takes an end without a close for a regular one. *)
Definition connect_result (r : Result ConnectError unit) : Result ConnectError unit :=
  match r with Err UnexpectedEof => Ok tt | _ => r end.

(** Seconds the loop sleeps after an attempt. *)
Definition retry_delay (r : Result ConnectError unit) : Z :=
  match r with Ok _ => 0 | Err UnexpectedEof => 1 | Err OtherError => 5 end.

(** One turn of the head of the loop. *)
Definition loop_top (s : Cloud) : Cloud :=
  match cstate s with
  | NotConfigured =>
      match cloud_token (cconfig s) with
      | Some _ => if is_empty (cloud_url (cconfig s)) then s else set_state Disconnected s
      | None => s
      end
  | Disconnected => if paused (gate s) then s else set_pc Passed s
  | Connecting | Connected => s
  end.

(** What the loop does once an attempt has come back. *)
Definition attempt_over (r : Result ConnectError unit) (s : Cloud) : Cloud :=
  let s := set_pc Top s in
  match r with Ok _ => s | Err _ => set_state Disconnected s end.

(** From past the check to the wait for the handshake. *)
Definition loop_connect (s : Cloud) : Cloud :=
  let s := set_state Connecting s in
  match cloud_token (cconfig s) with
  | None => attempt_over (Err OtherError) (set_state NotConfigured s)
  | Some _ => set_pc Handshake (set_state Connecting s)
  end.

(** The end of [client.connect()] in [connect_to_cloud]. *)
Definition connect_ended (r : Result ConnectError unit) (s : Cloud) : Cloud :=
  attempt_over (connect_result r) (set_state Disconnected s).

(** The handshake: the channel is there, then the state says so. *)
Definition handshake_done (r : Result ConnectError unit) (s : Cloud) : Cloud :=
  match r with
  | Ok _ => set_pc Online (set_state Connected (set_tx true s))
  | Err e => connect_ended (Err e) s
  end.

(** What the read loop of the socket can meet: the write task gave up, the
    liveness deadline passed without a frame, the stream ended, a close frame
    or another frame came, or an error. *)
Inductive SocketEvent : Set :=
| WriteFailed | LivenessTimeout | StreamEnd | CloseFrame | OtherFrame | IoEof | ConnectionClosed | OtherWsError.

(** How it ends, unless it reads on. *)
Definition socket_outcome (ev : SocketEvent) : option (Result ConnectError unit) :=
  match ev with
  | OtherFrame => None
  | WriteFailed | StreamEnd | CloseFrame | ConnectionClosed => Some (Ok tt)
  | LivenessTimeout | OtherWsError => Some (Err OtherError)
  | IoEof => Some (Err UnexpectedEof)
  end.

Definition socket_ended (r : Result ConnectError unit) (s : Cloud) : Cloud :=
  connect_ended r (set_tx false s).

Definition socket_event (ev : SocketEvent) (s : Cloud) : Cloud :=
  match socket_outcome ev with Some r => socket_ended r s | None => s end.

(** ** Registration *)

Definition CloudM (A : Type) : Type := SE Cloud string A.

(** [ConfigManager::update]: memory changes, the save can fail. *)
Definition update_cloud (save_ok : bool) (f : CloudConfig -> CloudConfig) : CloudM unit :=
  se_modify (fun s => set_cconfig (f (cconfig s)) s) ;;; se_guard (negb save_ok) "Failed to save configuration".

Definition set_cloud_config (save_ok : bool) (url token : option string) : CloudM unit :=
  update_cloud save_ok (fun c =>
    mkCloudConfig (default (cloud_url c) url) (cloud_app_url c) token (owner_user_id c)).

Definition set_owner (save_ok : bool) (o : option Z) : CloudM unit :=
  update_cloud save_ok (fun c => mkCloudConfig (cloud_url c) (cloud_app_url c) (cloud_token c) o).

(** [exchanged]: the answer to the token exchange, with the secret and the
    owner. *)
Definition register_device (exchanged : string -> option (string * option Z)) (save1 save2 : bool)
    (cloud_api : string) : CloudM unit :=
  let! cfg := se_get cconfig in
  let! api := se_of_result
    (if negb (is_empty (cloud_url cfg)) then Ok (cloud_url cfg)
     else if negb (is_empty cloud_api) then Ok cloud_api else Err "Cloud URL is not configured") in
  let! resp := se_of_result (ok_or (exchanged api) "Token exchange failed") in
  set_cloud_config save1 (Some (if is_empty (cloud_url cfg) then api else cloud_url cfg)) (Some resp.1) ;;;
  set_owner save2 resp.2 ;;;
  se_modify (set_state Disconnected).

(** [status]: the HTTP status of the request, if an answer came. *)
Definition deregister_device (status : option Z) (save1 save2 : bool) : CloudM unit :=
  let! cfg := se_get cconfig in
  se_guard (bool_decide (cloud_token cfg = None) || is_empty (cloud_url cfg))
    "Cloud token or URL is not set" ;;;
  let! st := se_of_result (ok_or status "request failed") in
  se_guard (negb (((200 <=? st) && (st <? 300)) || (st =? 404)))%Z "Deregister request failed" ;;;
  set_cloud_config save1 None None ;;;
  set_owner save2 None ;;;
  se_modify (set_state NotConfigured) ;;;
  se_modify disconnect_from_cloud.

Definition set_cloud_url (save_ok : bool) (api_url app_url : string) : CloudM unit :=
  se_modify (fun s => if String.eqb (cloud_url (cconfig s)) api_url then s else set_state Disconnected s) ;;;
  update_cloud save_ok (fun c => mkCloudConfig api_url app_url (cloud_token c) (owner_user_id c)).

(** [get_cloud_state]: whether the device is paired. *)
Definition get_cloud_state (s : Cloud) : bool :=
  bool_decide (cloud_token (cconfig s) ≠ None) && negb (is_empty (cloud_url (cconfig s))).

(** ** Interleaving *)

Inductive CloudEvent : Type :=
| LoopTop | LoopConnect | HandshakeDone (r : Result ConnectError unit) | Socket (ev : SocketEvent)
| BeginTransition | EndTransition (gen : Z) | ForceReconnect
| Register (exchanged : string -> option (string * option Z)) (save1 save2 : bool) (cloud_api : string)
| Deregister (status : option Z) (save1 save2 : bool)
| SetCloudUrl (save_ok : bool) (api_url app_url : string).

(** An event of the loop happens only where the loop is. *)
Definition cloud_event (e : CloudEvent) (s : Cloud) : option Cloud :=
  match e, pc s with
  | LoopTop, Top => Some (loop_top s)
  | LoopConnect, Passed => Some (loop_connect s)
  | HandshakeDone r, Handshake => Some (handshake_done r s)
  | Socket ev, Online => Some (socket_event ev s)
  | (LoopTop | LoopConnect | HandshakeDone _ | Socket _), _ => None
  | BeginTransition, _ => Some (begin_network_transition s).1
  | EndTransition gen, _ => Some (end_network_transition gen s)
  | ForceReconnect, _ => Some (force_reconnect s)
  | Register x s1 s2 api, _ => Some (register_device x s1 s2 api s).1
  | Deregister st s1 s2, _ => Some (deregister_device st s1 s2 s).1
  | SetCloudUrl ok api app, _ => Some (set_cloud_url ok api app s).1
  end.

Fixpoint cloud_events (es : list CloudEvent) (s : Cloud) : option Cloud :=
  match es with
  | [] => Some s
  | e :: es => cloud_event e s ≫= cloud_events es
  end.

(** ** The gate *)

(** Network transitions: one begins, the [k]-th one ends with its token, or
    the gate is forced. *)
Inductive GateOp : Set := GBegin | GEnd (k : nat) | GForce.

Definition gate_op (op : GateOp) (st : ReconnectGate * list Z) : ReconnectGate * list Z :=
  let '(g, toks) := st in
  match op with
  | GBegin => let '(g, t) := begin g in (g, toks ++ [t])
  | GEnd k => match toks !! k with Some t => ((end_ t g).1, toks) | None => st end
  | GForce => (release g, toks)
  end.

Definition gate_ops (ops : list GateOp) : ReconnectGate * list Z :=
  fold_left (fun st op => gate_op op st) ops (gate_default, []).

(** The specification: the transition in flight, if any. *)
Definition flight_op (op : GateOp) (st : nat * option nat) : nat * option nat :=
  let '(n, o) := st in
  match op with
  | GBegin => (S n, Some n)
  | GEnd k => (n, if bool_decide (o = Some k) then None else o)
  | GForce => (n, None)
  end.

Definition in_flight (ops : list GateOp) : nat * option nat :=
  fold_left (fun st op => flight_op op st) ops (0%nat, None).

(** Tokens are distinct and none is above the generation. *)
Definition gate_inv (done : Z) (st : ReconnectGate * list Z) (sp : nat * option nat) : Prop :=
  (0 <= generation st.1 <= done)%Z /\ length st.2 = sp.1 /\ NoDup st.2
  /\ Forall (fun t => 0 < t <= generation st.1)%Z st.2
  /\ match sp.2 with
     | Some k => paused st.1 = true /\ st.2 !! k = Some (generation st.1)
     | None => paused st.1 = false
     end.

Lemma gate_inv_default : gate_inv 0 (gate_default, []) (0%nat, None).
Proof. repeat split; cbn; try lia; constructor. Qed.

Lemma gate_inv_end_result done st sp k t :
  gate_inv done st sp -> st.2 !! k = Some t -> (end_ t st.1).2 = bool_decide (sp.2 = Some k).
Proof.
  destruct st as [g toks], sp as [n o]. intros (Hg & Hlen & Hnd & Ht & Ho) Hk. cbn in *. unfold end_.
  destruct o as [j|].
  - destruct Ho as [-> Hj]. cbn [andb]. destruct (Z.eqb_spec t (generation g)) as [->|Hne]; cbn; symmetry.
    + apply bool_decide_eq_true. f_equal. by eapply NoDup_lookup.
    + apply bool_decide_eq_false. congruence.
  - rewrite Ho. by rewrite bool_decide_eq_false_2.
Qed.


Lemma gate_op_inv op done st sp :
  (done + 1 < 2 ^ 64)%Z -> gate_inv done st sp -> gate_inv (done + 1) (gate_op op st) (flight_op op sp).
Proof.
  destruct st as [g toks], sp as [n o]. intros Hd Hinv. pose proof Hinv as (Hg & Hlen & Hnd & Ht & Ho).
  cbn in Hg, Hlen, Hnd, Ht, Ho. destruct op as [|k|]; cbn [gate_op flight_op].
  - unfold begin. cbn. rewrite wrap64_small by lia. split_and!; cbn; try lia; try done; try (rewrite length_app; cbn; lia).
    + apply NoDup_app. split_and!; [done| |apply NoDup_singleton]. intros x Hx ->%list_elem_of_singleton.
      rewrite Forall_forall in Ht. specialize (Ht _ Hx). lia.
    + apply Forall_app. split; [|repeat constructor; lia]. eapply Forall_impl; [exact Ht|]. cbn. lia.
    + rewrite lookup_app_r, <- Hlen, Nat.sub_diag by lia. done.
  - destruct (toks !! k) as [t|] eqn:Ek.
    + pose proof (gate_inv_end_result done (g, toks) (n, o) k t Hinv Ek) as Hr. cbn [fst snd] in Hr.
      unfold end_ in *. destruct (paused g && (t =? generation g)%Z) eqn:Ee; cbn [fst snd] in *.
      * rewrite <- Hr. repeat split; cbn; try done; lia.
      * rewrite <- Hr. repeat split; cbn; try done; lia.
    + rewrite bool_decide_eq_false_2; [repeat split; cbn; try done; lia|]. intros ->. destruct Ho as [_ Hk]. congruence.
  - unfold release. rewrite wrap64_small by lia. repeat split; cbn; try done; try lia.
    eapply Forall_impl; [exact Ht|]. cbn. lia.
Qed.

Lemma gate_ops_inv ops :
  (Z.of_nat (length ops) < 2 ^ 64)%Z -> gate_inv (Z.of_nat (length ops)) (gate_ops ops) (in_flight ops).
Proof.
  unfold gate_ops, in_flight. induction ops as [|op ops IH] using rev_ind; [intros _; apply gate_inv_default|].
  rewrite length_app, !fold_left_app. cbn [fold_left length]. intros Hl.
  replace (Z.of_nat (length ops + 1)) with (Z.of_nat (length ops) + 1)%Z by lia.
  apply gate_op_inv; [lia|]. apply IH. lia.
Qed.

(** C37: The reconnect gate is closed exactly while the latest network
    transition is in flight: after any sequence of begins, ends and forced
    releases (fewer than 2^64) it is closed if and only if a transition has
    begun that neither its own end, nor a later transition's, nor a force has
    closed since; and an end reopens it exactly when its token is that of the
    transition in flight - a stale end never does. *)
Theorem gate_refines_flight ops :
  (Z.of_nat (length ops) < 2 ^ 64)%Z ->
  paused (gate_ops ops).1 = bool_decide ((in_flight ops).2 ≠ None)
  /\ ∀ k t, (gate_ops ops).2 !! k = Some t -> (end_ t (gate_ops ops).1).2 = bool_decide ((in_flight ops).2 = Some k).
Proof.
  intros Hl. pose proof (gate_ops_inv ops Hl) as Hinv. split.
  - destruct Hinv as (_ & _ & _ & _ & Ho). destruct ((in_flight ops).2) as [k|]; [by destruct Ho as [-> _]|done].
  - intros k t. by eapply gate_inv_end_result.
Qed.

(** ** What the state claims *)

(** The channel is there exactly while the socket is read; "connected" and
    "connecting" are said of an attempt that is there. *)
Definition claims_hold (s : Cloud) : Prop :=
  ws_tx s = bool_decide (pc s = Online)
  /\ (cstate s = Connected -> pc s = Online)
  /\ (cstate s = Connecting -> pc s = Handshake).

Definition cloud_default (c : CloudConfig) : Cloud := mkCloud gate_default NotConfigured Top false false c.

(** What pairing, unpairing and a new address change: the configuration, the
    state, and a close frame. *)
Section pairing.
Context (P : Cloud -> Prop).
Hypothesis P_config : ∀ c s, P s -> P (set_cconfig c s).
Hypothesis P_state : ∀ c s, c ≠ Connected -> c ≠ Connecting -> P s -> P (set_state c s).
Hypothesis P_close : ∀ s, P s -> P (disconnect_from_cloud s).

Lemma keeps_update_cloud ok f : keeps P (update_cloud ok f).
Proof. apply keeps_bind; [apply keeps_modify; auto|]. intros _. apply keeps_guard. Qed.

#[local] Hint Resolve keeps_update_cloud : keeps.

Lemma register_keeps x s1 s2 api : keeps P (register_device x s1 s2 api).
Proof.
  unfold register_device, set_cloud_config, set_owner. keeps_solve. apply keeps_modify. intros s. by apply P_state.
Qed.

Lemma deregister_keeps st s1 s2 : keeps P (deregister_device st s1 s2).
Proof.
  unfold deregister_device, set_cloud_config, set_owner. keeps_solve.
  all: apply keeps_modify; first [exact P_close|intros s; by apply P_state].
Qed.

Lemma set_cloud_url_keeps ok api app : keeps P (set_cloud_url ok api app).
Proof.
  unfold set_cloud_url. apply keeps_bind; [|intros _; apply keeps_update_cloud].
  apply keeps_modify. intros s Hs. destruct (String.eqb _ _); [done|by apply P_state].
Qed.
End pairing.

Lemma claims_state c s : c ≠ Connected -> c ≠ Connecting -> claims_hold s -> claims_hold (set_state c s).
Proof. intros H1 H2 (Ht & _). by split_and!. Qed.

Lemma cloud_event_claims e s s' : cloud_event e s = Some s' -> claims_hold s -> claims_hold s'.
Proof.
  intros He Hs. pose proof Hs as (Ht & Hc & Hn).
  destruct e; cbn in He.
  - destruct (pc s) eqn:Ep; try done. injection He as <-. unfold loop_top.
    repeat case_match; try done; try by apply claims_state.
    split_and!; cbn; first [by rewrite Ht|congruence].
  - destruct (pc s) eqn:Ep; try done. injection He as <-. unfold loop_connect. cbn.
    destruct (cloud_token _); split_and!; cbn; first [by rewrite Ht|congruence].
  - destruct (pc s) eqn:Ep; try done. injection He as <-.
    destruct r as [[]|[]]; cbn; split_and!; cbn; first [done|by rewrite Ht|congruence].
  - destruct (pc s) eqn:Ep; try done. injection He as <-. destruct ev; first [done|by split_and!].
  - injection He as <-. unfold begin_network_transition. cbn. unfold reconnect_after_network_change. cbn.
    by destruct (cstate s).
  - injection He as <-. unfold end_network_transition. destruct (end_ gen (gate s)) as [g []]; [|done].
    destruct (bool_decide (cstate (set_gate g s) ≠ NotConfigured)); [by apply claims_state|done].
  - injection He as <-. unfold force_reconnect. cbn. by destruct (cstate s).
  - injection He as <-. apply (register_keeps claims_hold); auto using claims_state.
  - injection He as <-. apply (deregister_keeps claims_hold); auto using claims_state.
  - injection He as <-. apply (set_cloud_url_keeps claims_hold); auto using claims_state.
Qed.

(** The internal state never claims a live cloud connection before one
    exists: after any interleaving of the connection loop, network transitions,
    forced reconnects, pairing and unpairing from the start, the state is
    "connected" only while the loop reads an open socket, "connecting" only
    while it waits for a handshake, and the write channel is there exactly
    while the socket is. *)
Theorem state_never_overclaims es c s :
  cloud_events es (cloud_default c) = Some s -> claims_hold s.
Proof.
  assert (H0 : claims_hold (cloud_default c)) by done. revert H0. generalize (cloud_default c) as s0.
  induction es as [|e es IH]; intros s0 H0; cbn; [by intros [= <-]|].
  destruct (cloud_event e s0) as [s1|] eqn:Ee; [|done]. cbn. intros Hs. eapply IH; [|exact Hs].
  by eapply cloud_event_claims.
Qed.

(** ** A closed gate *)

Definition opens_gate (e : CloudEvent) : bool :=
  match e with EndTransition _ | ForceReconnect => true | _ => false end.

Definition held (s : Cloud) : Prop := pc s = Top /\ paused (gate s) = true.

(** While the gate is closed no connection is attempted: with the loop at its
    head and the gate closed, whatever else happens - further transitions,
    pairing, unpairing, a new address - the loop stays at its head and no
    socket is opened until a transition ends or the gate is forced. *)
Theorem closed_gate_holds_loop es s s' :
  pc s = Top -> paused (gate s) = true -> forallb (fun e => negb (opens_gate e)) es = true ->
  cloud_events es s = Some s' -> pc s' = Top /\ paused (gate s') = true.
Proof.
  intros Hp Hg. assert (Hh : held s) by done. clear Hp Hg. revert s Hh.
  induction es as [|e es IH]; intros s Hh; cbn; [by intros _ [= <-]|]. intros [He Hes]%andb_true_iff.
  destruct (cloud_event e s) as [s1|] eqn:Ee; [|done]. cbn. apply IH; [|done]. pose proof Hh as [Hp Hg].
  destruct e; cbn in Ee, He; try done; rewrite ?Hp in Ee; try done; injection Ee as <-.
  - unfold loop_top. rewrite Hg. by repeat case_match.
  - unfold begin_network_transition. cbn. unfold reconnect_after_network_change. cbn. by destruct (cstate s).
  - by apply (register_keeps held).
  - by apply (deregister_keeps held).
  - by apply (set_cloud_url_keeps held).
Qed.

(** An attempt that is past the check when a transition begins connects all
    the same: the close frame has no channel to go to, the socket is opened
    under a closed gate, and the end of the transition says "disconnected" of
    it while it is read. *)
Lemma handshake_crosses_gate c :
  cloud_token c ≠ None -> cloud_url c ≠ "" ->
  ∃ s1 s2, cloud_events [LoopTop; LoopTop; LoopConnect; BeginTransition; HandshakeDone (Ok tt)] (cloud_default c) = Some s1
    /\ paused (gate s1) = true /\ cstate s1 = Connected /\ pc s1 = Online /\ close_sent s1 = false
    /\ cloud_event (EndTransition 1) s1 = Some s2
    /\ cstate s2 = Disconnected /\ pc s2 = Online /\ close_sent s2 = false.
Proof.
  destruct c as [u a [t|] o]; [|done]. intros _ Hu. cbn in Hu. destruct u as [|x u]; [done|].
  do 2 eexists. split; [reflexivity|]. split_and!; reflexivity.
Qed.

(** ** Unpairing *)

Definition of_loop (e : CloudEvent) : bool :=
  match e with LoopTop | LoopConnect | HandshakeDone _ | Socket _ => true | _ => false end.

(** A device that is unpaired while connected never comes to rest: once the
    socket has ended, the loop - which overwrites "not configured" when an
    attempt is over - holds the state "disconnected" at its head for good and
    goes on trying to connect without a token. *)
Theorem unpaired_never_rests es st s s' ev :
  cloud_token (cconfig s) ≠ None -> cloud_url (cconfig s) ≠ "" -> pc s = Online -> (200 <= st < 300)%Z ->
  socket_outcome ev ≠ None -> forallb of_loop es = true ->
  cloud_events (Deregister (Some st) true true :: Socket ev :: es) s = Some s' ->
  cloud_token (cconfig s') = None /\ (pc s' = Top \/ pc s' = Passed) /\ cstate s' = Disconnected.
Proof.
  intros Ht Hu Hp Hst Hev Hes. cbn [cloud_events].
  set (P := fun s : Cloud => cloud_token (cconfig s) = None /\ (pc s = Top \/ pc s = Passed) /\ cstate s = Disconnected).
  assert (Hloop : ∀ s0, P s0 -> cloud_events es s0 = Some s' -> P s').
  { clear -Hes. induction es as [|e es IH]; intros s0 Hs0; cbn; [by intros [= <-]|].
    cbn in Hes. apply andb_true_iff in Hes as [He Hes].
    destruct (cloud_event e s0) as [s1|] eqn:Ee; [|done]. cbn. apply IH; [done|].
    destruct Hs0 as (Ht & Hp & Hc). unfold P.
    destruct e; try done; destruct Hp as [Hp|Hp]; cbn in Ee; rewrite Hp in Ee; try done; injection Ee as <-.
    - unfold loop_top. rewrite Hc. destruct (paused (gate s0)); cbn; auto.
    - unfold loop_connect. cbn. rewrite Ht. cbn. auto. }
  cbn [cloud_event]. destruct s as [g c p tx cl [u a [t|] o]]; cbn in Hp, Ht, Hu; [|done]. subst p.
  unfold deregister_device. destruct u as [|x u]; [done|].
  assert (Hok : (((200 <=? st) && (st <? 300)) || (st =? 404))%Z = true) by lia.
  cbn -[Z.leb Z.ltb Z.eqb]. rewrite Hok. cbn. intros Hs'. eapply Hloop; [|exact Hs'].
  destruct ev; cbn; first [done|split_and!; auto].
Qed.

(** An end of the stream without a close is retried without the pause the loop
    has for it. *)
Lemma eof_not_delayed : retry_delay (connect_result (Err UnexpectedEof)) = 0%Z.
Proof. reflexivity. Qed.

(** ** Pairing *)

(** Pairing leads to a connection: a device whose token exchange and saves
    succeed is paired, holds the secret and the owner the cloud assigned, and
    the loop, from its head and with the gate open, connects with the next
    successful handshake. *)
Theorem register_then_connects exchanged api s secret owner :
  let target := if is_empty (cloud_url (cconfig s)) then api else cloud_url (cconfig s) in
  target ≠ "" -> exchanged target = Some (secret, owner) -> pc s = Top -> paused (gate s) = false ->
  ∃ s', cloud_events [Register exchanged true true api; LoopTop; LoopConnect; HandshakeDone (Ok tt)] s = Some s'
    /\ get_cloud_state s' = true /\ cloud_url (cconfig s') = target /\ cloud_token (cconfig s') = Some secret
    /\ owner_user_id (cconfig s') = owner /\ cstate s' = Connected /\ ws_tx s' = true.
Proof.
  destruct s as [[gen pa] c p tx cl [u a t o]]. cbn. intros Ht He -> ->. unfold register_device. cbn.
  destruct u as [|x u]; cbn in *.
  - destruct api as [|y api]; [done|]. cbn. rewrite He. cbn. eexists. split; [reflexivity|]. by split_and!.
  - rewrite He. cbn. eexists. split; [reflexivity|]. by split_and!.
Qed.
