(* ===== verification/NetSettings.v ===== *)
(** * Network settings (network/settings.rs, vlan.rs, legacy_migrate.rs, nwu_bridge.rs)

    The operations that read and change the network: over the copy in the
    encrypted configuration, the file network.conf, leftovers of older
    firmware, and the cloud connection that has to wait while the shell tools
    apply the file.  One operation at a time; what the file system, the tools
    and the save of the configuration do is its environment. *)

From S2P Require Import Prelude Text Words IpAddr NetConf Cloud.

(** What the operations did outside, in order. *)
Inductive NetFx : Type :=
| Refreshed (conf : option string)      (* refresh-network.sh ran on the file *)
| CleanupPending                        (* ctl vlan cleanup-pending *)
| DhcpRenew (iface : string)
| MdnsOptions (host domain mode : string)
| MdnsRefresh | TlsReload
| HostnameSet (name : string)
| CloudReconnectDue (gen : Z).          (* the delayed task of schedule_cloud_reconnect_after_apply *)

(** [enc]: the copy in the configuration; [conf], [pending], [static_conf]:
    the texts of network.conf, network.conf.pending and static_ip.conf;
    [hosts]: /etc/hosts. *)
Record NetState := mkNetState {
  enc : NetworkConfig; conf : option string; pending : option string; static_conf : option string;
  proxy_env : option string; hosts : string; cloud : Cloud; wan_generation : Z; fx : list NetFx }.

(** Outcomes of one operation. *)
Record NetEnv := mkNetEnv {
  url_ok : string -> bool;            (* Url::from_str(..).is_ok() *)
  readable : bool;                    (* the file at network.conf can be read as text *)
  write_ok : bool; refresh_ok : bool; hostname_ok : bool; hosts_ok : bool; save_ok : bool;
  remove_ok : bool; ctl_exists : bool; renew_ok : bool; static_readable : bool; archive_ok : bool;
  iface_ipv4 : string -> option string }.

Definition NetM (A : Type) : Type := SE NetState string A.

Definition with_enc (c : NetworkConfig) (s : NetState) : NetState :=
  mkNetState c (conf s) (pending s) (static_conf s) (proxy_env s) (hosts s) (cloud s) (wan_generation s) (fx s).
Definition with_conf (t : option string) (s : NetState) : NetState :=
  mkNetState (enc s) t (pending s) (static_conf s) (proxy_env s) (hosts s) (cloud s) (wan_generation s) (fx s).
Definition with_pending (t : option string) (s : NetState) : NetState :=
  mkNetState (enc s) (conf s) t (static_conf s) (proxy_env s) (hosts s) (cloud s) (wan_generation s) (fx s).
Definition with_static (t : option string) (s : NetState) : NetState :=
  mkNetState (enc s) (conf s) (pending s) t (proxy_env s) (hosts s) (cloud s) (wan_generation s) (fx s).
Definition with_proxy_env (p : option string) (s : NetState) : NetState :=
  mkNetState (enc s) (conf s) (pending s) (static_conf s) p (hosts s) (cloud s) (wan_generation s) (fx s).
Definition with_hosts (h : string) (s : NetState) : NetState :=
  mkNetState (enc s) (conf s) (pending s) (static_conf s) (proxy_env s) h (cloud s) (wan_generation s) (fx s).
Definition with_cloud (c : Cloud) (s : NetState) : NetState :=
  mkNetState (enc s) (conf s) (pending s) (static_conf s) (proxy_env s) (hosts s) c (wan_generation s) (fx s).
Definition with_wan (g : Z) (s : NetState) : NetState :=
  mkNetState (enc s) (conf s) (pending s) (static_conf s) (proxy_env s) (hosts s) (cloud s) g (fx s).
Definition did (e : NetFx) (s : NetState) : NetState :=
  mkNetState (enc s) (conf s) (pending s) (static_conf s) (proxy_env s) (hosts s) (cloud s) (wan_generation s)
    (fx s ++ [e]).

Section ops.
Context (e : NetEnv).

(** ** Files and tools *)

Definition read_network_conf : NetM (option NetworkConfig) :=
  se_get (fun s => if readable e then ini_to_network_config <$> conf s else None).

Definition write_network_conf (c : NetworkConfig) (apply_mode : string) : NetM unit :=
  se_guard (negb (write_ok e)) "Failed to write network.conf" ;;;
  se_modify (with_conf (Some (network_config_to_ini c apply_mode))).

Definition remove_pending : NetM unit := se_modify (fun s => if remove_ok e then with_pending None s else s).

Definition refresh_committed : NetM unit :=
  se_modify (fun s => did (Refreshed (conf s)) s) ;;; se_guard (negb (refresh_ok e)) "refresh-network.sh failed".

(** A failure of the tool is only logged. *)
Definition vlan_cleanup_pending : NetM unit :=
  se_modify (fun s => if ctl_exists e then did CleanupPending s else s).

Definition dhcp_renew (iface : string) : NetM unit :=
  se_modify (did (DhcpRenew iface)) ;;; se_guard (negb (renew_ok e)) "dhcp renew failed".

(** [promote_pending_to_committed]. *)
Definition promote_pending_to_committed : NetM unit :=
  let! p := se_get pending in
  match p with
  | None => se_throw "No pending network.conf to promote"
  | Some t =>
      se_guard (negb (readable e)) "Failed to read network.conf.pending" ;;;
      write_network_conf (ini_to_network_config t) "committed" ;;;
      remove_pending
  end.

(** The line of 127.0.1.1 is replaced. *)
Definition hosts_with (name domain existing : string) : string :=
  unlines (List.filter (fun l => negb (bool_decide (head (split_whitespace l) = Some "127.0.1.1"))) (lines existing))
  +:+ "127.0.1.1" +:+ String "009" (name +:+ "." +:+ domain +:+ String "009" (name +:+ String LF "")).

Definition apply_hostname (name domain : string) : NetM unit :=
  let name := if is_empty (trim name) then "arkkvm" else trim name in
  let domain := if is_empty (trim domain) then "lan" else trim domain in
  se_guard (negb (hostname_ok e)) "write /etc/hostname" ;;;
  se_modify (did (HostnameSet name)) ;;;
  se_guard (negb (hosts_ok e)) "Failed to update /etc/hosts" ;;;
  se_modify (fun s => with_hosts (hosts_with name domain (hosts s)) s).

(** [ConfigManager::update] of the network configuration: memory changes, the
    save can fail. *)
Definition update_network (f : NetworkConfig -> NetworkConfig) : NetM unit :=
  se_modify (fun s => with_enc (f (enc s)) s) ;;; se_guard (negb (save_ok e)) "Failed to save configuration".

(** ** Settings (settings.rs) *)

Definition get_network_settings : NetM NetworkConfig :=
  let! config := se_get enc in
  let! from_file := read_network_conf in
  se_ret (match from_file with Some f => merge_l3_from_file config f | None => config end).

(** [has_changed!]. *)
Definition has_changed {A} (old : option A) (dflt : bool) (test : A -> bool) : bool :=
  match old with Some o => test o | None => dflt end.

Definition names_differ (old new : NetworkConfig) : bool :=
  negb (bool_decide (hostname old = hostname new)) || negb (bool_decide (domain old = domain new)).

Definition update_proxy (proxy : option string) : NetM unit :=
  match proxy with
  | Some p =>
      if url_ok e p then se_modify (with_proxy_env (Some p))
      else se_modify (with_proxy_env None) ;;; se_throw ("Invalid proxy URL: " +:+ p)
  | None => se_modify (with_proxy_env None)
  end.

Definition apply_non_l3_settings (old : option NetworkConfig) (new : NetworkConfig) : NetM unit :=
  (if has_changed old true (fun o => negb (bool_decide (http_proxy o = http_proxy new)))
   then update_proxy (http_proxy new) else se_ret tt) ;;;
  (if has_changed old true (fun o => names_differ o new || negb (String.eqb (mdns_mode o) (mdns_mode new)))
   then se_modify (did (MdnsOptions (default "" (hostname new)) (default "" (domain new)) (mdns_mode new))) ;;;
        (if has_changed old false (fun o => names_differ o new) then se_modify (did TlsReload) else se_ret tt)
   else se_ret tt).

Definition valid_ipv4s (s : StaticIpConfig) : Result string unit :=
  if negb (check_valid_ipv4 (ip_address s)) then Err ("Invalid IPv4 address: " +:+ ip_address s)
  else if negb (check_valid_ipv4 (subnet_mask s)) then Err ("Invalid subnet mask: " +:+ subnet_mask s)
  else if negb (check_valid_ipv4 (gateway s)) then Err ("Invalid gateway: " +:+ gateway s)
  else match List.find (fun d => negb (check_valid_ipv4 d)) (dns_servers s) with
       | Some d => Err ("Invalid DNS server: " +:+ d)
       | None => Ok tt
       end.

Definition validate_flat_ipv4 (c : NetworkConfig) : Result string unit :=
  match ipv4_mode c with
  | Dhcp => Ok tt
  | StaticV4 => match static_ipv4 c with
                | None => Err "Static IPv4 mode missing static IP configuration"
                | Some s => valid_ipv4s s
                end
  end.

Definition validate_flat_ipv6 (c : NetworkConfig) : Result string unit :=
  match ipv6_mode c with
  | Slaac => Ok tt
  | StaticV6 =>
      match static_ipv6 c with
      | None => Err "Static IPv6 mode missing static IP configuration"
      | Some s =>
          if negb (check_valid_ipv6 (ip_address s)) then Err ("Invalid IPv6 address: " +:+ ip_address s)
          else match List.find (fun d => negb (check_valid_ipv6 d)) (dns_servers s) with
               | Some d => Err ("Invalid DNS server: " +:+ d)
               | None => Ok tt
               end
      end
  end.

(** A transition of the cloud connection around the application of a file:
    its outcome is kept until the gate is open again. *)
Definition in_transition (m : NetM unit) : NetM unit :=
  let! gen := se_lift (fun s => let '(c, gen) := begin_network_transition (cloud s) in (with_cloud c s, gen)) in
  let! result := se_catch m in
  se_modify (fun s => with_cloud (end_network_transition gen (cloud s)) s) ;;;
  se_of_result result.

Definition apply_flat_network (c : NetworkConfig) : NetM unit :=
  se_of_result (validate_flat_ipv4 c) ;;;
  se_of_result (validate_flat_ipv6 c) ;;;
  in_transition (write_network_conf c "committed" ;;; refresh_committed) ;;;
  se_modify (did MdnsRefresh).

Definition apply_hostname_domain_only (c : NetworkConfig) : NetM unit :=
  let! from_file := read_network_conf in
  write_network_conf (with_names (hostname c) (domain c) (default c from_file)) "committed" ;;;
  apply_hostname (default "arkkvm" (hostname c)) (default "dhcp" (domain c)).

Definition l3_differ (old new : NetworkConfig) : bool :=
  names_differ old new || negb (bool_decide (ipv4_mode old = ipv4_mode new))
  || negb (bool_decide (static_ipv4 old = static_ipv4 new)) || negb (bool_decide (ipv6_mode old = ipv6_mode new))
  || negb (bool_decide (static_ipv6 old = static_ipv6 new)).

Definition on_config_changed (old : option NetworkConfig) (new : NetworkConfig) : NetM unit :=
  apply_non_l3_settings old new ;;;
  if vlan_enabled (vlan_settings new)
  then (if has_changed old true (fun o => names_differ o new) then apply_hostname_domain_only new else se_ret tt)
  else (if has_changed old true (fun o => l3_differ o new) then apply_flat_network new else se_ret tt).

(** The settings as they are taken over: an empty proxy is none, and without
    VLAN settings the present ones stay. *)
Definition adopted (settings old : NetworkConfig) : NetworkConfig :=
  let settings := match http_proxy settings with
                  | Some p => if is_empty p then with_proxy None settings else settings
                  | None => settings
                  end in
  if bool_decide (vlan_settings settings = vlan_default) && negb (bool_decide (vlan_settings old = vlan_default))
  then with_vlan (vlan_settings old) settings else settings.

Definition set_network_settings (settings : NetworkConfig) : NetM unit :=
  let! old := se_get enc in
  let settings := adopted settings old in
  if bool_decide (old = settings) then se_ret tt
  else on_config_changed (Some old) settings ;;; update_network (fun _ => settings).

Definition reset_network_to_factory : NetM unit :=
  let! old := se_get enc in
  in_transition
    (apply_non_l3_settings (Some old) network_default ;;;
     write_network_conf network_default "committed" ;;;
     remove_pending ;;;
     vlan_cleanup_pending ;;;
     refresh_committed) ;;;
  update_network (fun _ => network_default) ;;;
  se_modify (did MdnsRefresh).

(** ** VLAN settings (vlan.rs) *)

Definition vlan_iface_name (id : Z) : string := "eth0." +:+ show_nat id.

Definition read_vlan_settings_from_conf : NetM VlanSettings :=
  let! from_file := read_network_conf in
  match from_file with
  | Some f => se_ret (vlan_settings f)
  | None => se_get (fun s => vlan_settings (enc s))
  end.

(** [get_effective_vlan_config_report]: whether VLANs are on, and the ids. *)
Definition get_effective_vlan_config_report : NetM (bool * option Z * option Z) :=
  let! v := read_vlan_settings_from_conf in
  se_ret (vlan_enabled v, vlan_id <$> primary_vlan v, vlan_id <$> secondary_vlan v).

Definition open_l3_ifaces : NetM (list string) :=
  let! report := get_effective_vlan_config_report in
  let '(on, p, s) := report in
  let ifaces := option_list (vlan_iface_name <$> p) ++ option_list (vlan_iface_name <$> s) in
  se_ret (if negb on then ["eth0"] else match ifaces with [] => ["eth0"] | _ => ifaces end).

Definition validate_static_ipv4 (o : option StaticIpConfig) (label : string) : Result string unit :=
  match o with
  | None => Err ("Missing " +:+ label +:+ " static IP settings")
  | Some s =>
      if negb (check_valid_ipv4 (ip_address s)) then Err ("Invalid " +:+ label +:+ " IP address")
      else if negb (check_valid_ipv4 (subnet_mask s)) then Err ("Invalid " +:+ label +:+ " subnet mask")
      else if negb (check_valid_ipv4 (gateway s)) then Err ("Invalid " +:+ label +:+ " gateway")
      else if forallb check_valid_ipv4 (dns_servers s) then Ok tt
      else Err ("Invalid " +:+ label +:+ " DNS server")
  end.

Definition validate_vlan_endpoint (ep : VlanEndpointConfig) (label : string) : Result string unit :=
  if (vlan_id ep =? 0)%Z || (4094 <? vlan_id ep)%Z then Err ("Invalid " +:+ label +:+ " VLAN ID (1-4094)")
  else match ep_ipv4_mode ep with
       | StaticV4 => validate_static_ipv4 (ep_static_ipv4 ep) label
       | Dhcp => Ok tt
       end.

Definition validate_vlan_settings (v : VlanSettings) : Result string unit :=
  if negb (vlan_enabled v) then Ok tt else
  match primary_vlan v with
  | None => Err "Primary VLAN is required"
  | Some p =>
      match validate_vlan_endpoint p "primary" with
      | Err m => Err m
      | Ok _ =>
          match secondary_vlan v with
          | None => Ok tt
          | Some s =>
              match validate_vlan_endpoint s "secondary" with
              | Err m => Err m
              | Ok _ => if (vlan_id s =? vlan_id p)%Z then Err "Primary and secondary VLAN IDs must differ" else Ok tt
              end
          end
      end
  end.

Definition apply_vlan_committed (v : VlanSettings) : NetM unit :=
  let! config := se_get enc in
  write_network_conf (with_vlan v config) "committed" ;;;
  remove_pending ;;;
  vlan_cleanup_pending ;;;
  refresh_committed.

(** Where a client finds the device again: interface and address. *)
Definition build_vlan_redirect (v : VlanSettings)
  : option (Z * string * option string) * option (Z * string * option string) :=
  let endpoint ep := let iface := vlan_iface_name (vlan_id ep) in (vlan_id ep, iface, iface_ipv4 e iface) in
  if negb (vlan_enabled v) then (None, None) else (endpoint <$> primary_vlan v, endpoint <$> secondary_vlan v).

Definition schedule_cloud_reconnect_after_apply : NetM unit :=
  se_modify (fun s => let gen := wrap64 (wan_generation s + 1) in did (CloudReconnectDue gen) (with_wan gen s)).

(** The scheduled task, when its delay is over. *)
Definition cloud_reconnect_due (gen : Z) : NetM unit :=
  se_modify (fun s =>
    if negb (wan_generation s =? gen)%Z then s
    else match cstate (cloud s) with
         | NotConfigured => s
         | _ => with_cloud (force_reconnect (cloud s)) s
         end).

Definition set_vlan_settings (v : VlanSettings)
  : NetM (option (Z * string * option string) * option (Z * string * option string)) :=
  se_of_result (validate_vlan_settings v) ;;;
  (fun s => let '(s, r) := apply_vlan_committed v s in
            (s, match r with Ok _ => Ok tt | Err _ => Err "Failed to apply VLAN settings" end)) ;;;
  (fun s => let '(s, r) := update_network (with_vlan v) s in
            (s, match r with Ok _ => Ok tt | Err _ => Err "Failed to save VLAN settings" end)) ;;;
  schedule_cloud_reconnect_after_apply ;;;
  se_modify (did MdnsRefresh) ;;;
  se_ret (build_vlan_redirect v).

(** If the file differs from the configuration, the file is right. *)
Definition sync_encrypted_vlan_from_conf_if_needed : NetM unit :=
  let! from_file := read_network_conf in
  match from_file with
  | None => se_ret tt
  | Some f =>
      let! enc_vlan := se_get (fun s => vlan_settings (enc s)) in
      if bool_decide (vlan_settings f = enc_vlan) then se_ret tt
      else update_network (fun c => merge_l3_from_file (with_vlan (vlan_settings f) c) f)
  end.

(** [get_vlan_settings_response], without the live state of the interfaces. *)
Definition get_vlan_settings_response
  : NetM (VlanSettings * option (option (Z * string * option string) * option (Z * string * option string))) :=
  sync_encrypted_vlan_from_conf_if_needed ;;;
  let! v := se_get (fun s => vlan_settings (enc s)) in
  se_ret (v, if vlan_enabled v then Some (build_vlan_redirect v) else None).

Definition reapply_current_vlan_settings
  : NetM (option (Z * string * option string) * option (Z * string * option string)) :=
  let! v := read_vlan_settings_from_conf in
  se_guard (negb (vlan_enabled v)) "VLAN mode is not enabled" ;;;
  set_vlan_settings v.

Definition set_primary_vlan_id_and_apply (id : Z)
  : NetM (option (Z * string * option string) * option (Z * string * option string)) :=
  se_guard ((id =? 0) || (4094 <? id))%Z "VLAN ID must be between 1 and 4094" ;;;
  let! v := read_vlan_settings_from_conf in
  se_guard (negb (vlan_enabled v)) "VLAN mode is not enabled" ;;;
  let! p := se_of_result (ok_or (primary_vlan v) "Primary VLAN is not configured") in
  se_guard (match secondary_vlan v with Some s => (vlan_id s =? id)%Z | None => false end)
    "Primary and Secondary VLAN IDs must be different" ;;;
  set_vlan_settings (mkVlan true
    (Some (mkEndpoint id (ep_ipv4_mode p) (ep_ipv6_mode p) (ep_static_ipv4 p) (ep_static_ipv6 p))) (secondary_vlan v)).

Definition dhcp_ep (id : Z) : VlanEndpointConfig := mkEndpoint id Dhcp (Some Slaac) None None.

Definition apply_vlan_dhcp_lab (primary_id : Z) (secondary_id : option Z)
  : NetM (option (Z * string * option string) * option (Z * string * option string)) :=
  se_guard ((primary_id =? 0) || (4094 <? primary_id))%Z "Primary VLAN ID must be between 1 and 4094" ;;;
  (match secondary_id with
   | Some sid =>
       se_guard ((sid =? 0) || (4094 <? sid))%Z "Secondary VLAN ID must be between 1 and 4094" ;;;
       se_guard (sid =? primary_id)%Z "Primary and Secondary VLAN IDs must be different"
   | None => se_ret tt
   end) ;;;
  set_vlan_settings (mkVlan true (Some (dhcp_ep primary_id)) (dhcp_ep <$> secondary_id)).

Definition apply_vlan_off_lab
  : NetM (option (Z * string * option string) * option (Z * string * option string)) :=
  set_vlan_settings vlan_default.

Inductive VlanRole : Set := PrimaryVlan | SecondaryVlan.

Definition vlan_role_from_str (s : string) : option VlanRole :=
  if String.eqb s "primary" then Some PrimaryVlan else if String.eqb s "secondary" then Some SecondaryVlan else None.
Definition vlan_role_str (r : VlanRole) : string :=
  match r with PrimaryVlan => "primary" | SecondaryVlan => "secondary" end.

Definition renew_vlan_dhcp_lease (role_str : string) : NetM unit :=
  let! role := se_of_result (ok_or (vlan_role_from_str role_str) ("Invalid VLAN role: " +:+ role_str)) in
  let! v := read_vlan_settings_from_conf in
  se_guard (negb (vlan_enabled v)) "VLAN mode is not enabled" ;;;
  let! ep := se_of_result (match role with
                           | PrimaryVlan => ok_or (primary_vlan v) "Primary VLAN is not configured"
                           | SecondaryVlan => ok_or (secondary_vlan v) "Secondary VLAN is not configured"
                           end) in
  se_guard (negb (bool_decide (ep_ipv4_mode ep = Dhcp))) (vlan_role_str role +:+ " VLAN uses static IPv4") ;;;
  dhcp_renew (vlan_iface_name (vlan_id ep)).

Definition init_vlan_settings : NetM unit :=
  let! p := se_get pending in
  (match p with Some _ => remove_pending ;;; vlan_cleanup_pending | None => se_ret tt end) ;;;
  sync_encrypted_vlan_from_conf_if_needed.

(** ** Migration (legacy_migrate.rs) *)

(** [to_lowercase] of a key, as far as it matters for ASCII names: the Kelvin
    sign is the one other character whose lower case is an ASCII letter. *)
Fixpoint lower_key (s : string) : string :=
  match s with
  | String a (String b (String c s') as t) =>
      if (byte_of a =? 226) && (byte_of b =? 132) && (byte_of c =? 170) then String "k" (lower_key s')
      else String (ascii_lower a) (lower_key t)
  | String a s' => String (ascii_lower a) (lower_key s')
  | EmptyString => EmptyString
  end%Z.

Definition trim_matches (c : ascii) (s : string) : string := trim_end_matches c (trim_start_matches c s).

(** The values of ip, netmask, gateway and dns so far. *)
Definition static_ip_step (acc : option string * option string * option string * list string) (line : string)
  : option string * option string * option string * list string :=
  let '(ip, netmask, gw, dns) := acc in
  let line := trim line in
  if is_empty line || starts_with "#" line then acc else
  match split_once "=" line with
  | None => acc
  | Some (key, value) =>
      let key := lower_key (trim key) in
      let value := trim_matches "'" (trim_matches "034"%char (trim value)) in
      if String.eqb key "ip" then (Some value, netmask, gw, dns)
      else if String.eqb key "netmask" then (ip, Some value, gw, dns)
      else if String.eqb key "gateway" then (ip, netmask, Some value, dns)
      else if String.eqb key "dns" then (ip, netmask, gw, split_whitespace value)
      else acc
  end.

Definition parse_static_ip_conf (content : string) : option StaticIpConfig :=
  let '(ip, netmask, gw, dns) := fold_left static_ip_step (lines content) (None, None, None, []) in
  (fun ip => mkStatic ip (default "255.255.255.0" netmask) (default "" gw) dns) <$> ip.

Definition is_provisional_or_default_template (content : string) : bool :=
  if str_contains "provisional-template" content then true else
  let has_dhcp := existsb (fun l => let l := trim l in String.eqb l "mode=dhcp" || starts_with "mode=dhcp " l)
                    (lines content) in
  let migrated := str_contains "Migrated from" content || str_contains "managed by arkkvm_app" content in
  has_dhcp && negb migrated.

Definition archive_static : NetM unit :=
  se_guard (negb (archive_ok e)) "Failed to archive static_ip.conf" ;;; se_modify (with_static None).

Definition maybe_migrate_legacy_network_config : NetM unit :=
  let! enc_config := se_get enc in
  let! content := se_get conf in
  let! static := se_get static_conf in
  let! template := (match content with
                    | None => se_ret false
                    | Some t => if readable e then se_ret (is_provisional_or_default_template t)
                                else se_throw "Failed to read network.conf"
                    end) in
  let managed := bool_decide (content ≠ None) && negb template in
  if managed && bool_decide (static = None) then se_ret tt else
  let! config := (if managed
                  then let! f := read_network_conf in se_ret (default enc_config f)
                  else se_ret enc_config) in
  let static_cfg := match static with
                    | Some t => if static_readable e then parse_static_ip_conf t else None
                    | None => None
                    end in
  let config := match static_cfg with Some c => with_ipv4 StaticV4 (Some c) config | None => config end in
  let need_write := negb managed || bool_decide (static_cfg ≠ None) in
  if negb need_write then se_ret tt else
  write_network_conf config "committed" ;;;
  refresh_committed ;;;
  if bool_decide (static_cfg ≠ None) then archive_static else se_ret tt.

(** At start; failures are logged. *)
Definition init_network_settings (s : NetState) : NetState :=
  let s := (maybe_migrate_legacy_network_config s).1 in
  let '(s, r) := get_network_settings s in
  match r with
  | Ok config => (apply_non_l3_settings None config (init_vlan_settings s).1).1
  | Err _ => s
  end.
End ops.

(** ** All the operations *)

Inductive NetOp : Type :=
| GetSettings | SetSettings (c : NetworkConfig) | ResetFactory
| GetVlan | SetVlan (v : VlanSettings) | ReapplyVlan | SetPrimaryId (id : Z)
| VlanDhcpLab (primary : Z) (secondary : option Z) | VlanOffLab
| RenewLease (role : string) | ReconnectDue (gen : Z) | PromotePending | InitNetwork.

Definition net_op (e : NetEnv) (op : NetOp) (s : NetState) : NetState :=
  match op with
  | GetSettings => (get_network_settings e s).1
  | SetSettings c => (set_network_settings e c s).1
  | ResetFactory => (reset_network_to_factory e s).1
  | GetVlan => (get_vlan_settings_response e s).1
  | SetVlan v => (set_vlan_settings e v s).1
  | ReapplyVlan => (reapply_current_vlan_settings e s).1
  | SetPrimaryId id => (set_primary_vlan_id_and_apply e id s).1
  | VlanDhcpLab p sec => (apply_vlan_dhcp_lab e p sec s).1
  | VlanOffLab => (apply_vlan_off_lab e s).1
  | RenewLease role => (renew_vlan_dhcp_lease e role s).1
  | ReconnectDue gen => (cloud_reconnect_due gen s).1
  | PromotePending => (promote_pending_to_committed e s).1
  | InitNetwork => init_network_settings e s
  end.

Fixpoint net_ops (ops : list (NetEnv * NetOp)) (s : NetState) : NetState :=
  match ops with [] => s | (e, op) :: ops => net_ops ops (net_op e op s) end.
