(* ===== verification/NetSettingsProofs.v ===== *)
(** * Properties of the network settings

    The gate of the cloud connection, what a change leaves in the file and in
    the configuration, VLANs, and the migration of older files. *)

From S2P Require Import Prelude StateLaws Text Words IpAddr NetConf Cloud NetSettings.

(** ** The gate is open between operations *)

(** The cloud connection is left alone. *)
Definition same_cloud (s s' : NetState) : Prop := cloud s' = cloud s.
#[export] Instance same_cloud_preorder : PreOrder same_cloud.
Proof. split; [done|]. intros s1 s2 s3 H1 H2. unfold same_cloud in *. congruence. Qed.

(** Reading the file moves nowhere. *)
Ltac net_moves tac := moves_with ltac:(first
  [match goal with |- moves _ (read_network_conf _) => apply moves_pure; [exact _|done] end | tac]).

Create HintDb quiet.

Ltac quiet_modify := apply moves_modify; intros ?; unfold same_cloud; repeat case_match; reflexivity.
Ltac quiet := net_moves ltac:(first [solve [auto with quiet]|quiet_modify]).

Section quiet.
Context (e : NetEnv).

Lemma quiet_write c m : moves same_cloud (write_network_conf e c m).
Proof. unfold write_network_conf. quiet. Qed.
Lemma quiet_refresh : moves same_cloud (refresh_committed e).
Proof. unfold refresh_committed. quiet. Qed.
Lemma quiet_remove : moves same_cloud (remove_pending e).
Proof. unfold remove_pending. quiet. Qed.
Lemma quiet_cleanup : moves same_cloud (vlan_cleanup_pending e).
Proof. unfold vlan_cleanup_pending. quiet. Qed.
Lemma quiet_update f : moves same_cloud (update_network e f).
Proof. unfold update_network. quiet. Qed.
Hint Resolve quiet_write quiet_refresh quiet_remove quiet_cleanup quiet_update : quiet.

Lemma quiet_non_l3 old new : moves same_cloud (apply_non_l3_settings e old new).
Proof. unfold apply_non_l3_settings, update_proxy. quiet. Qed.
Lemma quiet_names c : moves same_cloud (apply_hostname_domain_only e c).
Proof. unfold apply_hostname_domain_only, apply_hostname. quiet. Qed.
Lemma quiet_apply_vlan v : moves same_cloud (apply_vlan_committed e v).
Proof. unfold apply_vlan_committed. quiet. Qed.
Lemma quiet_sync : moves same_cloud (sync_encrypted_vlan_from_conf_if_needed e).
Proof. unfold sync_encrypted_vlan_from_conf_if_needed. quiet. Qed.
Lemma quiet_migrate : moves same_cloud (maybe_migrate_legacy_network_config e).
Proof. unfold maybe_migrate_legacy_network_config, archive_static. quiet. Qed.
Lemma quiet_read_vlan : moves same_cloud (read_vlan_settings_from_conf e).
Proof. unfold read_vlan_settings_from_conf. quiet. Qed.
End quiet.

#[export] Hint Resolve quiet_write quiet_refresh quiet_remove quiet_cleanup quiet_update quiet_non_l3 quiet_names
  quiet_apply_vlan quiet_sync quiet_migrate quiet_read_vlan : quiet.

(** The gate does not end up closed. *)
Definition opens (s s' : NetState) : Prop :=
  paused (gate (cloud s)) = false -> paused (gate (cloud s')) = false.
#[export] Instance opens_preorder : PreOrder opens.
Proof. split; [by intros s Hs|]. intros s1 s2 s3 H1 H2. unfold opens in *. auto. Qed.

Lemma quiet_opens {A} (m : NetM A) : moves same_cloud m -> moves opens m.
Proof. intros Hm s. unfold opens. by rewrite (Hm s). Qed.

(** The token a transition was given opens the gate again. *)
Lemma end_begin_open c c' gen :
  begin_network_transition c = (c', gen) -> paused (gate (end_network_transition gen c')) = false.
Proof.
  unfold begin_network_transition, begin, reconnect_after_network_change. cbn. intros [= <- <-].
  unfold end_network_transition.
  destruct (cstate c); cbn; unfold end_; cbn; rewrite Z.eqb_refl; cbn; by repeat case_match.
Qed.

Lemma opens_transition m : moves same_cloud m -> moves opens (in_transition m).
Proof.
  intros Hm s _. unfold in_transition, se_bind, se_lift, se_catch, se_modify, se_of_result.
  destruct (begin_network_transition (cloud s)) as [c gen] eqn:Eb.
  specialize (Hm (with_cloud c s)). destruct (m (with_cloud c s)) as [s1 r]. cbn -[end_network_transition] in *.
  rewrite Hm. exact (end_begin_open _ _ _ Eb).
Qed.

Ltac opens :=
  net_moves ltac:(first
    [ apply opens_transition; quiet
    | apply quiet_opens; solve [quiet] ]).

Section opens.
Context (e : NetEnv).

Lemma opens_set c : moves opens (set_network_settings e c).
Proof. unfold set_network_settings, on_config_changed, apply_flat_network. opens. Qed.
Lemma opens_reset : moves opens (reset_network_to_factory e).
Proof. unfold reset_network_to_factory. opens. Qed.
Lemma opens_set_vlan v : moves opens (set_vlan_settings e v).
Proof. unfold set_vlan_settings, schedule_cloud_reconnect_after_apply. opens. Qed.

Lemma opens_due gen : moves opens (cloud_reconnect_due gen).
Proof.
  apply moves_modify. intros s. unfold opens. destruct (negb _); [done|].
  destruct (cstate (cloud s)) eqn:E; [done|..]; cbn; unfold force_reconnect; cbn; by rewrite E.
Qed.

Lemma opens_op op s : opens s (net_op e op s).
Proof.
  destruct op; cbn [net_op].
  - apply (quiet_opens (get_network_settings e)). unfold get_network_settings. quiet.
  - apply opens_set.
  - apply opens_reset.
  - apply (quiet_opens (get_vlan_settings_response e)). unfold get_vlan_settings_response. quiet.
  - apply opens_set_vlan.
  - revert s. change (moves opens (reapply_current_vlan_settings e)). unfold reapply_current_vlan_settings.
    net_moves ltac:(first [apply opens_set_vlan|apply quiet_opens; solve [quiet]]).
  - revert s. change (moves opens (set_primary_vlan_id_and_apply e id)). unfold set_primary_vlan_id_and_apply.
    net_moves ltac:(first [apply opens_set_vlan|apply quiet_opens; solve [quiet]]).
  - revert s. change (moves opens (apply_vlan_dhcp_lab e primary secondary)). unfold apply_vlan_dhcp_lab.
    net_moves ltac:(first [apply opens_set_vlan|apply quiet_opens; solve [quiet]]).
  - apply opens_set_vlan.
  - apply (quiet_opens (renew_vlan_dhcp_lease e role)). unfold renew_vlan_dhcp_lease, dhcp_renew. quiet.
  - apply opens_due.
  - apply (quiet_opens (promote_pending_to_committed e)). unfold promote_pending_to_committed. quiet.
  - unfold init_network_settings. intros Hs.
    assert (Hc : cloud (maybe_migrate_legacy_network_config e s).1 = cloud s) by apply quiet_migrate.
    set (s1 := (maybe_migrate_legacy_network_config e s).1) in *.
    assert (Hi : moves same_cloud (init_vlan_settings e)) by (unfold init_vlan_settings; quiet).
    cbn. unfold opens in *. rewrite (quiet_non_l3 e None _ (init_vlan_settings e s1).1), (Hi s1), Hc. exact Hs.
Qed.
End opens.

(** C28: No network operation leaves the cloud connection suspended: whatever
    requests are served one after the other, and whatever of them fails - a
    file, a tool, a proxy, a save - the reconnect gate is open between them. *)
Theorem gate_open_between_operations ops s :
  paused (gate (cloud s)) = false -> paused (gate (cloud (net_ops ops s))) = false.
Proof.
  revert s. induction ops as [|[e op] ops IH]; intros s Hs; [done|]. cbn. by apply IH, (opens_op e op).
Qed.

(** ** Flat settings *)

(** Everything outside does what it should. *)
Definition env_ok (e : NetEnv) : Prop :=
  (∀ p, url_ok e p = true) /\ readable e = true /\ write_ok e = true /\ refresh_ok e = true
  /\ hostname_ok e = true /\ hosts_ok e = true /\ save_ok e = true.

Lemma non_l3_ok e old new s :
  (∀ p, url_ok e p = true) ->
  ∃ s', apply_non_l3_settings e old new s = (s', Ok tt) /\ enc s' = enc s /\ conf s' = conf s.
Proof.
  intros Hu. unfold apply_non_l3_settings, update_proxy, se_bind, se_modify, se_ret.
  destruct (has_changed old true _); [destruct (http_proxy new) as [p|]; [rewrite Hu|]|];
    (destruct (has_changed old true _); [destruct (has_changed old false _)|]); eexists; (split; [reflexivity|done]).
Qed.

Lemma transition_outcome (m : NetM unit) s s1 r :
  m (with_cloud (begin_network_transition (cloud s)).1 s) = (s1, r) ->
  ∃ s2, in_transition m s = (s2, r) /\ enc s2 = enc s1 /\ conf s2 = conf s1 /\ fx s2 = fx s1.
Proof.
  intros Hm. unfold in_transition, se_bind, se_lift, se_catch, se_modify, se_of_result.
  destruct (begin_network_transition (cloud s)) as [c gen]. cbn in Hm. rewrite Hm. by eexists.
Qed.

Lemma flat_ok e c s :
  env_ok e -> validate_flat_ipv4 c = Ok tt -> validate_flat_ipv6 c = Ok tt ->
  ∃ s', apply_flat_network e c s = (s', Ok tt) /\ enc s' = enc s
    /\ conf s' = Some (network_config_to_ini c "committed") /\ Refreshed (conf s') ∈ fx s'.
Proof.
  intros (_ & _ & Hw & Hr & _) H4 H6. unfold apply_flat_network. unfold se_bind at 1 2, se_of_result.
  rewrite H4, H6. unfold se_bind at 1.
  edestruct (transition_outcome (write_network_conf e c "committed" ;;; refresh_committed e) s) as (s2 & -> & He & Hc & Hf).
  { unfold write_network_conf, refresh_committed, se_bind, se_guard, se_modify. rewrite Hw, Hr. cbn. reflexivity. }
  eexists. split; [reflexivity|]. cbn. rewrite He, Hc, Hf. cbn. split_and!; try done. set_solver.
Qed.

(** C27: Flat settings that are set are the settings that are read.  For a
    request with VLANs off whose layer 3 differs from the stored copy, that passes
    the checks of addresses, that names a host and a domain, that is made of clean
    texts (lines without line breaks, name servers without blanks) in the form the
    file can keep ([normal]: static settings where, and only where, the mode is
    static, no empty texts), and when nothing outside fails: it succeeds, the
    shell tools were run on the file as written, and reading the settings - which
    merges the file into the configuration - gives back exactly what was set. *)
Theorem settings_read_back e c s :
  let target := adopted c (enc s) in
  env_ok e -> vlan_enabled (vlan_settings target) = false -> l3_differ (enc s) target = true ->
  validate_flat_ipv4 target = Ok tt -> validate_flat_ipv6 target = Ok tt ->
  clean_config target -> normal target -> hostname target ≠ None -> domain target ≠ None ->
  ∃ s', set_network_settings e c s = (s', Ok tt) /\ enc s' = target
    /\ conf s' = Some (network_config_to_ini target "committed") /\ Refreshed (conf s') ∈ fx s'
    /\ get_network_settings e s' = (s', Ok target).
Proof.
  intros target He Hv Hd H4 H6 Hc Hn Hh Hdo. pose proof He as (Hu & Hre & _ & _ & _ & _ & Hsv).
  assert (Hne : enc s ≠ target).
  { intros Heq. rewrite Heq in Hd. unfold l3_differ, names_differ in Hd.
    repeat (rewrite bool_decide_eq_true_2 in Hd by done). done. }
  destruct (non_l3_ok e (Some (enc s)) target s Hu) as (s1 & E1 & Henc1 & Hconf1).
  destruct (flat_ok e target s1 He H4 H6) as (s2 & E2 & Henc2 & Hconf2 & Hfx2).
  exists (with_enc target s2). split_and!.
  - unfold set_network_settings, se_bind at 1, se_get. fold target. rewrite bool_decide_eq_false_2 by done.
    unfold on_config_changed. unfold se_bind at 1 2. rewrite E1, Hv. cbn [has_changed]. rewrite Hd, E2.
    unfold update_network, se_bind, se_modify, se_guard. by rewrite Hsv.
  - done.
  - done.
  - done.
  - unfold get_network_settings, read_network_conf, se_bind, se_get, se_ret.
    cbn -[network_config_to_ini ini_to_network_config]. rewrite Hre, Hconf2.
    cbn -[network_config_to_ini ini_to_network_config].
    by rewrite conf_roundtrip, stored_normal by (done || by split).
Qed.

(** ** Names in VLAN mode *)

Lemma l3_with_names h d c : l3 (with_names h d c) = l3 c.
Proof. done. Qed.

(** Rewriting a file that was read, with other names, keeps its layer 3. *)
Lemma rewrite_names_l3 h d t m :
  from_option clean True h -> from_option clean True d -> clean m ->
  l3 (ini_to_network_config (network_config_to_ini (with_names h d (ini_to_network_config t)) m))
  = l3 (ini_to_network_config t).
Proof.
  intros Hh Hd Hm. destruct (parsed_clean_normal t) as [(_ & _ & Hc) Hn].
  rewrite conf_roundtrip; [|by split_and!; try done; apply Hc|done].
  set (c := ini_to_network_config t) in *. clearbody c.
  assert (Hsl : l3 (stored (with_names h d c)) = l3 (stored c)) by done.
  rewrite Hsl. by apply stored_l3.
Qed.

(** The file is left alone. *)
Definition same_conf (s s' : NetState) : Prop := conf s' = conf s.
#[export] Instance same_conf_preorder : PreOrder same_conf.
Proof. split; [done|]. intros s1 s2 s3 H1 H2. unfold same_conf in *. congruence. Qed.

Ltac keep_conf := net_moves ltac:(apply moves_modify; intros ?; unfold same_conf; repeat case_match; reflexivity).

Lemma conf_non_l3 e old new : moves same_conf (apply_non_l3_settings e old new).
Proof. unfold apply_non_l3_settings, update_proxy. keep_conf. Qed.
Lemma conf_hostname e n d : moves same_conf (apply_hostname e n d).
Proof. unfold apply_hostname. keep_conf. Qed.
Lemma conf_update e f : moves same_conf (update_network e f).
Proof. unfold update_network. keep_conf. Qed.

(** Only [m] can change the file. *)
Lemma conf_bind_l {A B} (m : NetM A) (k : A -> NetM B) s :
  (∀ a, moves same_conf (k a)) -> conf (se_bind m k s).1 = conf (m s).1.
Proof. intros Hk. unfold se_bind. destruct (m s) as [s1 [a|x]]; [|done]. apply Hk. Qed.

Lemma conf_bind_r {A B} (m : NetM A) (k : A -> NetM B) (Q : option string -> Prop) s :
  moves same_conf m -> Q (conf s) -> (∀ a s1, conf s1 = conf s -> Q (conf (k a s1).1)) -> Q (conf (se_bind m k s).1).
Proof.
  intros Hm Hs Hk. unfold se_bind. specialize (Hm s). destruct (m s) as [s1 [a|x]]; cbn in *; [by apply Hk|].
  by rewrite Hm.
Qed.

Lemma hostname_only_conf e c s t :
  readable e = true -> conf s = Some t ->
  conf (apply_hostname_domain_only e c s).1 = Some t
  \/ conf (apply_hostname_domain_only e c s).1
     = Some (network_config_to_ini (with_names (hostname c) (domain c) (ini_to_network_config t)) "committed").
Proof.
  intros Hr Ht. unfold apply_hostname_domain_only. unfold se_bind at 1 3, read_network_conf, se_get. rewrite Hr, Ht.
  rewrite !conf_bind_l by (intros ?; apply conf_hostname).
  unfold write_network_conf, se_bind, se_guard, se_modify. destruct (write_ok e); [by right|by left].
Qed.

(** In VLAN mode a change of settings keeps the network up: whatever the
    request says and whatever fails, the layer 3 settings and the VLANs that
    the file holds - for the tools and for the next start - are the same after
    as before; only the host name and the domain in it are rewritten. *)
Theorem vlan_mode_keeps_l3 e c s t :
  let target := adopted c (enc s) in
  vlan_enabled (vlan_settings target) = true -> readable e = true -> conf s = Some t ->
  from_option clean True (hostname target) -> from_option clean True (domain target) ->
  ∃ t', conf (set_network_settings e c s).1 = Some t'
    /\ l3 (ini_to_network_config t') = l3 (ini_to_network_config t).
Proof.
  intros target Hv Hr Ht Hh Hd.
  set (Q := fun o : option string => ∃ t', o = Some t' /\ l3 (ini_to_network_config t') = l3 (ini_to_network_config t)).
  change (Q (conf (set_network_settings e c s).1)).
  assert (H0 : Q (conf s)) by (by exists t).
  unfold set_network_settings. unfold se_bind at 1, se_get. fold target.
  case_bool_decide as Heq; [done|]. rewrite conf_bind_l by (intros ?; apply conf_update).
  unfold on_config_changed. apply conf_bind_r; [apply conf_non_l3|done|]. intros _ s1 Hs1. rewrite Hv.
  destruct (has_changed _ _ _); [|cbn; by rewrite Hs1]. rewrite Ht in Hs1.
  destruct (hostname_only_conf e target s1 t Hr Hs1) as [-> | ->]; [by exists t|].
  eexists. split; [done|]. by apply rewrite_names_l3.
Qed.

(** ** VLANs *)

Definition vlan_id_ok (ep : VlanEndpointConfig) : Prop := vlan_id ep ≠ 0%Z /\ (vlan_id ep <= 4094)%Z.

Definition static_ok (ep : VlanEndpointConfig) : Prop :=
  ep_ipv4_mode ep = StaticV4 ->
  ∃ s, ep_static_ipv4 ep = Some s /\ Forall (fun a => check_valid_ipv4 a = true)
         (ip_address s :: subnet_mask s :: gateway s :: dns_servers s).

Lemma validate_endpoint_spec ep label :
  validate_vlan_endpoint ep label = Ok tt <-> vlan_id_ok ep /\ static_ok ep.
Proof.
  unfold validate_vlan_endpoint, vlan_id_ok, static_ok.
  destruct (Z.eqb_spec (vlan_id ep) 0), (Z.ltb_spec 4094 (vlan_id ep)); cbn; try (split; [done|intros [[? ?] ?]; lia]).
  destruct (ep_ipv4_mode ep); [split; [split; [split|]; done || lia|done]|].
  unfold validate_static_ipv4. destruct (ep_static_ipv4 ep) as [[ip mask gw dns]|]; cbn.
  2: { split; [done|]. intros [_ Hs]. destruct (Hs eq_refl) as (s & [=] & _). }
  destruct (check_valid_ipv4 ip) eqn:E1, (check_valid_ipv4 mask) eqn:E2, (check_valid_ipv4 gw) eqn:E3; cbn;
    try (split; [done|]; intros [_ Hs]; destruct (Hs eq_refl) as (s & [= <-] & Hf); cbn in Hf;
         rewrite !Forall_cons in Hf; destruct Hf as (? & ? & ? & _); congruence).
  assert (Hd : forallb check_valid_ipv4 dns = true <-> Forall (fun a => check_valid_ipv4 a = true) dns).
  { rewrite forallb_forall, Forall_forall. split; intros Hx x Hi; apply Hx; by apply list_elem_of_In. }
  destruct (forallb check_valid_ipv4 dns); split; try done.
  - intros _. split; [split; [done|lia]|]. intros _. eexists. split; [done|]. cbn.
    rewrite !Forall_cons. split_and!; try done. by apply Hd.
  - intros [_ Hs]. destruct (Hs eq_refl) as (s & [= <-] & Hf). cbn in Hf. rewrite !Forall_cons in Hf.
    destruct Hf as (_ & _ & _ & Hf). by apply Hd in Hf.
Qed.

(** What VLAN settings may be set. *)
Definition vlan_valid (v : VlanSettings) : Prop :=
  vlan_enabled v = true ->
  ∃ p, primary_vlan v = Some p /\ vlan_id_ok p /\ static_ok p
    /\ ∀ sec, secondary_vlan v = Some sec -> vlan_id_ok sec /\ static_ok sec /\ vlan_id sec ≠ vlan_id p.

Lemma validate_vlan_spec v : validate_vlan_settings v = Ok tt <-> vlan_valid v.
Proof.
  unfold validate_vlan_settings, vlan_valid. destruct (vlan_enabled v); cbn; [|by split].
  destruct (primary_vlan v) as [p|]; cbn; [|split; [done|intros Hx; by destruct (Hx eq_refl) as (? & [=] & _)]].
  destruct (validate_vlan_endpoint p "primary") as [[]|m] eqn:Ep.
  - apply validate_endpoint_spec in Ep as [Hp1 Hp2]. destruct (secondary_vlan v) as [sec|]; [|split; [|done]].
    2: { intros _ _. by exists p. }
    destruct (validate_vlan_endpoint sec "secondary") as [[]|m] eqn:Es.
    + apply validate_endpoint_spec in Es as [Hs1 Hs2]. destruct (Z.eqb_spec (vlan_id sec) (vlan_id p)); split; try done.
      * intros Hx. destruct (Hx eq_refl) as (q & [= <-] & _ & _ & Hq). by destruct (Hq _ eq_refl) as (_ & _ & ?).
      * intros _ _. exists p. split_and!; try done. by intros ? [= <-].
    + split; [done|]. intros Hx. destruct (Hx eq_refl) as (q & [= <-] & _ & _ & Hq).
      destruct (Hq _ eq_refl) as (? & ? & _). assert (Hok : validate_vlan_endpoint sec "secondary" = Ok tt)
        by (by apply validate_endpoint_spec). congruence.
  - split; [done|]. intros Hx. destruct (Hx eq_refl) as (q & [= <-] & ? & ? & _).
    assert (Hok : validate_vlan_endpoint p "primary" = Ok tt) by (by apply validate_endpoint_spec). congruence.
Qed.

Lemma sync_agrees e s t :
  readable e = true -> conf s = Some t -> vlan_settings (ini_to_network_config t) = vlan_settings (enc s) ->
  sync_encrypted_vlan_from_conf_if_needed e s = (s, Ok tt).
Proof.
  intros Hr Ht Hv. unfold sync_encrypted_vlan_from_conf_if_needed, read_network_conf, se_bind, se_get.
  rewrite Hr, Ht. cbn -[ini_to_network_config]. by rewrite bool_decide_eq_true_2.
Qed.

(** VLAN settings that are accepted are in force: a request that returns
    without an error had valid settings - a primary with an id from 1 to 4094, a
    different secondary, valid addresses where they are static -, the tools
    were run on the file that holds them, the configuration holds them, the
    answer tells the interfaces, and reading them back, even through the
    comparison with the file, gives exactly what was set. *)
Theorem vlan_apply_commits e v s s' r :
  clean_config (with_vlan v (enc s)) -> normal_vlan v -> set_vlan_settings e v s = (s', Ok r) ->
  vlan_valid v /\ r = build_vlan_redirect e v /\ enc s' = with_vlan v (enc s)
  /\ conf s' = Some (network_config_to_ini (with_vlan v (enc s)) "committed") /\ Refreshed (conf s') ∈ fx s'
  /\ ∀ e', readable e' = true ->
       get_vlan_settings_response e' s'
       = (s', Ok (v, if vlan_enabled v then Some (build_vlan_redirect e' v) else None)).
Proof.
  intros Hc Hn. unfold set_vlan_settings. unfold se_bind at 1, se_of_result.
  destruct (validate_vlan_settings v) as [[]|] eqn:Ev; [|by intros [=]]. apply validate_vlan_spec in Ev.
  unfold apply_vlan_committed, write_network_conf, remove_pending, vlan_cleanup_pending, refresh_committed, update_network,
    schedule_cloud_reconnect_after_apply, se_bind, se_modify, se_guard, se_get, se_ret.
  destruct (write_ok e); [|by intros [=]]. cbn -[network_config_to_ini].
  destruct (refresh_ok e); [|by intros [=]]. cbn -[network_config_to_ini].
  destruct (save_ok e); [|by intros [=]]. cbn -[network_config_to_ini]. intros [= <- <-].
  destruct (remove_ok e), (ctl_exists e); cbn -[network_config_to_ini get_vlan_settings_response];
    (split_and!; [done..|set_solver|]; intros e' He'; unfold get_vlan_settings_response, se_bind at 1;
     erewrite sync_agrees; [reflexivity|done|reflexivity|]; rewrite conf_roundtrip by (done || by split);
     cbn; by apply stored_normal_vlan).
Qed.

(** ** Migration *)

Lemma written_is_managed c m :
  str_contains "provisional-template" (network_config_to_ini c m) = false ->
  is_provisional_or_default_template (network_config_to_ini c m) = false.
Proof.
  intros Hp. unfold is_provisional_or_default_template. rewrite Hp.
  assert (Hm : str_contains "managed by arkkvm_app" (network_config_to_ini c m) = true) by reflexivity.
  by rewrite Hm, orb_true_r, andb_false_r.
Qed.

(** The migration has nothing to do. *)
Lemma migrate_idle e s t :
  conf s = Some t -> is_provisional_or_default_template t = false ->
  (∀ u, static_conf s = Some u -> static_readable e = true -> parse_static_ip_conf u = None) ->
  (maybe_migrate_legacy_network_config e s).1 = s.
Proof.
  intros Ht Hp Hs. unfold maybe_migrate_legacy_network_config, read_network_conf, se_bind, se_get, se_ret, se_throw.
  rewrite Ht. destruct (readable e); [|done]. rewrite Hp. cbn -[ini_to_network_config parse_static_ip_conf].
  destruct (static_conf s) as [u|]; [|done]. cbn -[ini_to_network_config parse_static_ip_conf].
  destruct (static_readable e); [|done]. by rewrite Hs.
Qed.

(** The end of a migration that writes. *)
Lemma migrate_write e cfg (archived : bool) s s' :
  (write_network_conf e cfg "committed" ;;; refresh_committed e ;;;
   if archived then archive_static e else se_ret tt) s = (s', Ok tt) ->
  conf s' = Some (network_config_to_ini cfg "committed")
  /\ static_conf s' = (if archived then None else static_conf s) /\ Refreshed (conf s') ∈ fx s'.
Proof.
  unfold write_network_conf, refresh_committed, archive_static, se_bind, se_guard, se_modify, se_ret.
  destruct (write_ok e); [|by intros [=]]. cbn -[network_config_to_ini].
  destruct (refresh_ok e); [|by intros [=]]. cbn -[network_config_to_ini].
  destruct archived; [destruct (archive_ok e); [|by intros [=]]|]; intros [= <-];
    (split_and!; [done..|]; cbn -[network_config_to_ini]; set_solver).
Qed.

(** What the migration takes from static_ip.conf. *)
Definition static_found (e : NetEnv) (s : NetState) : option StaticIpConfig :=
  match static_conf s with
  | Some t => if static_readable e then parse_static_ip_conf t else None
  | None => None
  end.

(** Its outcomes: nothing to do, or a new file. *)
Lemma migrate_cases e s s' :
  maybe_migrate_legacy_network_config e s = (s', Ok tt) ->
  let managed t := is_provisional_or_default_template t = false in
  (s' = s /\ static_found e s = None /\ ∃ t, conf s = Some t /\ managed t)
  \/ ∃ base, (base = enc s \/ ∃ t, conf s = Some t /\ managed t /\ base = ini_to_network_config t)
     /\ conf s' = Some (network_config_to_ini (match static_found e s with
                                               | Some c => with_ipv4 StaticV4 (Some c) base | None => base end) "committed")
     /\ static_conf s' = (match static_found e s with Some _ => None | None => static_conf s end)
     /\ Refreshed (conf s') ∈ fx s'.
Proof.
  intros Hm managed. unfold maybe_migrate_legacy_network_config in Hm. unfold se_bind at 1 2 3 4, se_get in Hm.
  change (match static_conf s with Some t => if static_readable e then parse_static_ip_conf t else None | None => None end)
    with (static_found e s) in Hm.
  assert (Hnone : static_conf s = None -> static_found e s = None) by (unfold static_found; by intros ->).
  destruct (conf s) as [t|] eqn:Ht; [destruct (readable e) eqn:Er; [|by injection Hm]|].
  - cbn -[is_provisional_or_default_template] in Hm. destruct (is_provisional_or_default_template t) eqn:Et.
    + cbn in Hm. right. exists (enc s). split; [by left|]. unfold se_bind at 1 in Hm. cbn in Hm.
      destruct (static_found e s);
        [exact (migrate_write e _ true _ _ Hm)|exact (migrate_write e _ false _ _ Hm)].
    + cbn in Hm. destruct (static_conf s) as [u|] eqn:Es; cbn in Hm.
      2: { left. injection Hm as <-. split_and!; [done|by apply Hnone|by exists t]. }
      unfold read_network_conf in Hm. unfold se_bind at 1 2, se_get, se_ret in Hm. rewrite Er, Ht in Hm. cbn in Hm.
      destruct (static_found e s) as [c|] eqn:Ef; cbn in Hm.
      * right. exists (ini_to_network_config t). split; [right; by exists t|]. exact (migrate_write e _ true _ _ Hm).
      * left. injection Hm as <-. split_and!; [done|done|by exists t].
  - cbn in Hm. right. exists (enc s). split; [by left|]. unfold se_bind at 1 in Hm. cbn in Hm.
    destruct (static_found e s);
        [exact (migrate_write e _ true _ _ Hm)|exact (migrate_write e _ false _ _ Hm)].
Qed.

(** The migration settles: once it has run without an error - having written
    network.conf from the configuration, merged and archived a static_ip.conf,
    or found nothing to do - running it again at the next start changes
    nothing, unless the settings themselves spell the marker of a template. *)
Theorem migration_settles e e' s s' :
  maybe_migrate_legacy_network_config e s = (s', Ok tt) ->
  (∀ t, conf s' = Some t -> str_contains "provisional-template" t = false) ->
  static_readable e' = static_readable e ->
  (maybe_migrate_legacy_network_config e' s').1 = s'.
Proof.
  intros Hm Hmark Hst. destruct (migrate_cases e s s' Hm) as [(-> & Hf & t & Ht & Hp)|(base & _ & Hc & Hs & _)].
  - apply (migrate_idle e' s t Ht Hp). intros u Hu Hr. unfold static_found in Hf.
    rewrite Hst in Hr. by rewrite Hu, Hr in Hf.
  - eapply migrate_idle; [exact Hc|by apply written_is_managed, Hmark|]. intros u Hu Hr. rewrite Hs in Hu.
    destruct (static_found e s) as [c|] eqn:Ef; [done|]. unfold static_found in Ef.
    rewrite Hst in Hr. by rewrite Hu, Hr in Ef.
Qed.

(** The migration adopts what older firmware left: when static_ip.conf names
    an address, a migration without an error leaves a network.conf that says
    static mode with the address, mask, gateway and name servers of the old
    file, has had the tools apply it, and has put the old file away. *)
Theorem migration_adopts_static e s s' c :
  maybe_migrate_legacy_network_config e s = (s', Ok tt) ->
  static_found e s = Some c -> clean_static c -> ip_address c ≠ "" -> subnet_mask c ≠ "" -> clean_config (enc s) ->
  ∃ t, conf s' = Some t /\ ipv4_mode (ini_to_network_config t) = StaticV4
    /\ static_ipv4 (ini_to_network_config t) = Some c /\ Refreshed (Some t) ∈ fx s' /\ static_conf s' = None.
Proof.
  intros Hm Hf Hc Hip Hmask Henc.
  destruct (migrate_cases e s s' Hm) as [(_ & Hf' & _)|(base & Hb & Hconf & Hs & Hfx)]; [congruence|].
  rewrite Hf in Hconf, Hs. rewrite Hconf in Hfx. eexists. split; [exact Hconf|].
  assert (Hbase : clean_config base).
  { destruct Hb as [->|(t & _ & _ & ->)]; [done|]. apply parsed_clean_normal. }
  assert (Hcl : clean_config (with_ipv4 StaticV4 (Some c) base)).
  { destruct Hbase as (H1 & H2 & _ & H4). by split_and!; [..|apply H4|apply H4|apply H4]. }
  rewrite conf_roundtrip by (done || by split). split_and!; try done.
  cbn. unfold stored_static_ipv4. rewrite !nonempty_some by done. by destruct c.
Qed.
