(* ===== verification/Download.v ===== *)
(** * Download of an update package (cloud/manager.rs, download_file)

    A download with retries that resumes with range requests.  What the server
    answers to each request is a parameter; so is whether a write to the disk
    succeeds, and the hash. *)

From S2P Require Import Prelude.

Definition MAX_RETRIES : Z := 12.

(** One request: it fails, or an answer comes with a status and a body, whose
    stream ends regularly or breaks off after its last chunk. *)
Inductive Attempt : Type :=
| SendFailed
| Answer (status : Z) (chunks : list (list Z)) (ends : bool).

(** The loop's variables, with what has been written. *)
Record DownloadState := mkDownload { downloaded : Z; retry_count : Z; written : list Z }.

Definition http_success (status : Z) : bool := ((200 <=? status) && (status <? 300))%Z.

Section download.
(** The answer to the [n]-th request, which asks for the bytes from an offset
    on; the outcome of the [k]-th write of a request. *)
Context (server : nat -> Z -> Attempt) (disk : nat -> nat -> bool).

(** Another failed attempt. *)
Definition count_retry (failure : string) (st : DownloadState) : Result string DownloadState :=
  let retry := (retry_count st + 1)%Z in
  if (MAX_RETRIES <? retry)%Z then Err (failure +:+ " after 12 retries")
  else Ok (mkDownload (downloaded st) retry (written st)).

(** The chunks of an answer: each clears the count of retries. *)
Fixpoint take_chunks (n k : nat) (chunks : list (list Z)) (st : DownloadState) : DownloadState * bool :=
  match chunks with
  | [] => (st, true)
  | c :: chunks =>
      if disk n k
      then take_chunks n (S k) chunks (mkDownload (downloaded st + Z.of_nat (length c)) 0 (written st ++ c))
      else (mkDownload (downloaded st) 0 (written st), false)
  end.

(** One turn of the loop: it goes on, or the download has ended. *)
Definition download_turn (total_size : Z) (n : nat) (st : DownloadState)
  : (DownloadState * Result string unit) + DownloadState :=
  let again failure st := match count_retry failure st with Ok st' => inr st' | Err m => inl (st, Err m) end in
  match server n (downloaded st) with
  | SendFailed => again "Failed to send download request" st
  | Answer status chunks ends =>
      if negb (http_success status) && negb (status =? 206)%Z
      then inl (st, Err ("Download file failed: HTTP " +:+ show_nat status)) else
      let '(st, ok) := take_chunks n 0 chunks st in
      if negb ok then inl (st, Err "write failed")
      else if negb ends then again "Download failed" st
      else if (total_size <=? downloaded st)%Z then inl (st, Ok tt) else again "Download incomplete" st
  end.

Fixpoint download_loop (fuel : nat) (total_size : Z) (n : nat) (st : DownloadState)
  : option (DownloadState * Result string unit) :=
  match fuel with
  | O => None
  | S fuel =>
      match download_turn total_size n st with
      | inl r => Some r
      | inr st => download_loop fuel total_size (S n) st
      end
  end.

(** [head]: the length that the HEAD request told, an absent header counting
    as zero. *)
Definition download_file (fuel : nat) (head : Result string Z) (sha256_hex : list Z -> string)
  : option (option (list Z) * Result string string) :=
  match head with
  | Err m => Some (None, Err m)
  | Ok total_size =>
      (fun '(st, r) => (Some (written st), result_map (fun _ => sha256_hex (written st)) r))
        <$> download_loop fuel total_size 0 (mkDownload 0 0 [])
  end.
End download.

(** ** A server of one file *)

(** It honours ranges: the body of a successful answer is a run of the file
    from the offset asked for; past the end there is none. *)
Definition serves (file : list Z) (server : nat -> Z -> Attempt) : Prop :=
  ∀ n off status chunks ends,
    server n off = Answer status chunks ends -> http_success status || (status =? 206)%Z = true ->
    (off < Z.of_nat (length file))%Z /\ Forall (fun c => c ≠ []) chunks
    /\ List.concat chunks `prefix_of` drop (Z.to_nat off) file.

(** What has been written is the file so far. *)
Definition on_track (file : list Z) (st : DownloadState) : Prop :=
  written st `prefix_of` file /\ downloaded st = Z.of_nat (length (written st))
  /\ (0 <= retry_count st <= MAX_RETRIES)%Z.

Lemma prefix_drop_extend {A} (w c f : list A) : w `prefix_of` f -> c `prefix_of` drop (length w) f -> w ++ c `prefix_of` f.
Proof. intros [k ->] [k' E]. rewrite drop_app_length in E. exists k'. by rewrite E, app_assoc. Qed.

Section server.
Context (file : list Z) (server : nat -> Z -> Attempt) (disk : nat -> nat -> bool).
Hypothesis Hserver : serves file server.
Let total_size : Z := Z.of_nat (length file).

Lemma take_chunks_on_track n k chunks st st' ok :
  on_track file st -> List.concat chunks `prefix_of` drop (length (written st)) file ->
  take_chunks disk n k chunks st = (st', ok) ->
  on_track file st' /\ (downloaded st <= downloaded st')%Z
  /\ (Forall (fun c => c ≠ []) chunks -> ok = true -> downloaded st' = downloaded st -> chunks = [] /\ retry_count st' = retry_count st)
  /\ (retry_count st' = 0 \/ retry_count st' = retry_count st)%Z.
Proof.
  revert k st. induction chunks as [|c chunks IH]; intros k st Hst Hp; cbn.
  { intros [= <- <-]. split_and!; try done; lia. }
  destruct (disk n k).
  - intros Ht. destruct Hst as (Hw & Hd & Hr).
    assert (Hc : c `prefix_of` drop (length (written st)) file)
      by (etransitivity; [|exact Hp]; cbn; by exists (List.concat chunks)).
    assert (Hst' : on_track file (mkDownload (downloaded st + Z.of_nat (length c)) 0 (written st ++ c))).
    { split_and!; cbn; [by apply prefix_drop_extend|rewrite length_app; lia|done..]. }
    apply IH in Ht as (H1 & H2 & H3 & H4); [|done|].
    + cbn in *. split_and!; [done|lia| |lia]. intros Hne _ Hq. apply Forall_cons in Hne as [Hne _].
      destruct c; [done|]. cbn in *. lia.
    + cbn. rewrite length_app, <- drop_drop. destruct Hp as [r ->]. cbn. rewrite <- app_assoc, drop_app_length. by eexists.
  - intros [= <- <-]. destruct Hst as (? & ? & ?). split_and!; cbn; try done; lia.
Qed.

Lemma count_retry_track failure st st' : on_track file st -> count_retry failure st = Ok st' ->
  on_track file st' /\ downloaded st' = downloaded st /\ retry_count st' = (retry_count st + 1)%Z.
Proof.
  intros (Hw & Hd & Hr). unfold count_retry. case_match eqn:E; [done|]. apply Z.ltb_ge in E.
  intros [= <-]. unfold on_track. cbn. split_and!; (done || lia).
Qed.

(** What is left to do: bytes, then retries. *)
Definition measure (st : DownloadState) : Z := (14 * (total_size - downloaded st) + (13 - retry_count st))%Z.

Lemma on_track_bound st : on_track file st -> (0 <= downloaded st <= total_size)%Z.
Proof. intros (Hw & Hd & _). apply prefix_length in Hw. unfold total_size. lia. Qed.

Lemma turn_on_track n st :
  on_track file st ->
  match download_turn server disk total_size n st with
  | inl (st', r) => on_track file st' /\ (r = Ok tt -> written st' = file)
  | inr st' => on_track file st' /\ (measure st' < measure st)%Z
  end.
Proof.
  intros Hst. pose proof Hst as (Hw & Hd & Hr). pose proof (on_track_bound st Hst) as Hb.
  assert (Hagain : ∀ failure st1, on_track file st1 -> (measure st1 <= measure st)%Z ->
    match (match count_retry failure st1 with Ok st' => inr st' | Err m => inl (st1, Err m) end) with
    | inl (st', r) => on_track file st' /\ (r = Ok tt -> written st' = file)
    | inr st' => on_track file st' /\ (measure st' < measure st)%Z
    end).
  { intros failure st1 H1 Hm. destruct (count_retry failure st1) as [st'|m] eqn:E; [|by split].
    apply count_retry_track in E as (H2 & H3 & H4); [|done]. split; [done|]. unfold measure in *. lia. }
  unfold download_turn. destruct (server n (downloaded st)) as [|status chunks ends] eqn:Es; [by apply Hagain|].
  destruct (negb (http_success status) && negb (status =? 206)%Z) eqn:Est; [by split|].
  assert (Hok : http_success status || (status =? 206)%Z = true)
    by (destruct (http_success status), (status =? 206)%Z; done).
  destruct (Hserver _ _ _ _ _ Es Hok) as (Hoff & Hne & Hp). rewrite Hd, Nat2Z.id in Hp.
  destruct (take_chunks disk n 0 chunks st) as [st1 ok] eqn:Et.
  destruct (take_chunks_on_track _ _ _ _ _ _ Hst Hp Et) as (H1 & H2 & H3 & H4). destruct ok; cbn [negb]; [|by split].
  assert (Hm : (measure st1 <= measure st)%Z).
  { pose proof (on_track_bound st1 H1). destruct H1 as (_ & _ & Hr1). unfold measure, MAX_RETRIES in *.
    destruct (Z.eq_dec (downloaded st1) (downloaded st)) as [Heq|]; [|lia]. destruct (H3 Hne eq_refl Heq) as [_ ->]. lia. }
  destruct ends; cbn [negb]; [|by apply Hagain].
  destruct (Z.leb_spec total_size (downloaded st1)); [|by apply Hagain]. split; [done|]. intros _.
  destruct H1 as (Hw1 & Hd1 & _). destruct Hw1 as [k Hk]. rewrite Hk.
  assert (Hlen : length file = (length (written st1) + length k)%nat) by (rewrite Hk at 1; apply length_app).
  destruct k; [by rewrite app_nil_r|]. unfold total_size in *. cbn in Hlen. lia.
Qed.

(** The loop ends, and ends well only with the whole file. *)
Lemma loop_ends fuel n st :
  on_track file st -> (measure st < Z.of_nat fuel)%Z ->
  ∃ st' r, download_loop server disk fuel total_size n st = Some (st', r)
    /\ on_track file st' /\ (r = Ok tt -> written st' = file).
Proof.
  revert n st. induction fuel as [|fuel IH]; intros n st Hst Hf.
  { pose proof (on_track_bound st Hst). destruct Hst as (_ & _ & ?). unfold measure, MAX_RETRIES in *. lia. }
  cbn [download_loop]. pose proof (turn_on_track n st Hst) as Ht.
  destruct (download_turn server disk total_size n st) as [[st' r]|st'].
  - by exists st', r.
  - destruct Ht as [H1 H2]. apply IH; [done|lia].
Qed.
End server.

(** Turns enough for a file. *)
Definition download_fuel (file : list Z) : nat := 14 * (length file + 1).

Lemma download_file_exact file server disk (sha256_hex : list Z -> string) :
  serves file server ->
  ∃ content r, download_file server disk (download_fuel file) (Ok (Z.of_nat (length file))) sha256_hex
               = Some (Some content, r)
    /\ content `prefix_of` file /\ ∀ h, r = Ok h -> content = file /\ h = sha256_hex file.
Proof.
  intros Hs. unfold download_file.
  destruct (loop_ends file server disk Hs (download_fuel file) 0 (mkDownload 0 0 [])) as (st & r & -> & Ht & Hr).
  - split_and!; cbn; [apply prefix_nil|done|done|unfold MAX_RETRIES; lia].
  - unfold measure, download_fuel. cbn. lia.
  - exists (written st), (result_map (fun _ => sha256_hex (written st)) r). split_and!; [done|by apply Ht|].
    intros h. destruct r as [[]|]; [|done]. cbn. intros [= <-]. by rewrite (Hr eq_refl).
Qed.

(** C12: A download from a server that honours ranges always ends - every request
    brings bytes or uses up one of twelve retries, whatever breaks off and in
    whatever pieces the bytes come -, leaves a prefix of the file on the disk,
    and returns a hash only when the file is there whole: then it is the hash of
    the file. *)
Theorem download_ends_exact file server disk (sha256_hex : list Z -> string) :
  serves file server ->
  ∃ content r, download_file server disk (download_fuel file) (Ok (Z.of_nat (length file))) sha256_hex
               = Some (Some content, r)
    /\ content `prefix_of` file /\ ∀ h, r = Ok h -> content = file /\ h = sha256_hex file.
Proof. apply download_file_exact. Qed.

(** ** Servers that do otherwise *)

(** A server that ignores ranges sends the file from its start to a request
    that resumes: it is appended, and the length check lets it pass. *)
Lemma ignored_range_corrupts :
  let server n (_ : Z) := Answer 200 [[1%Z; 2%Z]] (negb (n =? 0)%nat) in
  download_file server (fun _ _ => true) 10 (Ok 2%Z) (fun l => if bool_decide (l = [1%Z; 2%Z]) then "good" else "bad")
  = Some (Some [1%Z; 2%Z; 1%Z; 2%Z], Ok "bad").
Proof. reflexivity. Qed.

(** A stream that breaks off after the last byte has the complete file asked
    for again, past its end: the download fails. *)
Lemma late_break_fails_download :
  let server n (_ : Z) := if (n =? 0)%nat then Answer 200 [[1%Z; 2%Z]] false else Answer 416 [] true in
  download_file server (fun _ _ => true) 10 (Ok 2%Z) (fun _ => "")
  = Some (Some [1%Z; 2%Z], Err "Download file failed: HTTP 416").
Proof. reflexivity. Qed.
