(* ===== verification/Ota.v ===== *)
(** * System updates (ota.rs)

    The static flags and the tasks that share them.  A task is where it stands
    between two awaits; what it does up to the next one is a step.  The answers
    of the world to a step - the cloud, the disk, the clock, the command - are a
    record.  A flag is tested and set by two accesses: a step that another thread
    gets ahead of between them has a stale view of the flags, which says down
    though they are up by now. *)

From S2P Require Import Prelude Download.

(** [OTA_WAIT_TIME], in seconds. *)
Definition OTA_WAIT_TIME : Z := 1200.

Record OtaInfo := mkOtaInfo {
  ota_app_version : option string; app_url : option string; app_hash : option string;
  ota_system_version : option string; system_summary : option string;
  system_url : option string; system_hash_signature : option string }.

Definition OtaInfo_default : OtaInfo := mkOtaInfo None None None None None None None.

Record VersionInfo := mkVersionInfo { app_version : string; system_version : string; web_version : string }.

(** What [check_update] tells the page. *)
Record UpdateInfo := mkUpdateInfo {
  ui_local : VersionInfo; ui_system_version : string; app_update_available : bool; system_update_available : bool }.

(** What is done for good: an installation is launched, with whether it was
    asked for, the switch and the use of the device it saw; the command starts on
    what the package file holds; a reboot. *)
Inductive OtaEvent : Type :=
| Launch (signature : string) (content : option (list Z)) (asked : bool) (enabled : bool) (session : bool) (elapsed : Z)
| Command (content : option (list Z))
| Reboot.

(** The statics, with the configuration value, the two paths on the disk
    ([OTA_PACKAGE_PATH], [OTA_PACKAGE_ROOT_PATH]) and what happened so far. *)
Record OTA := mkOTA {
  OTA_INFO : option OtaInfo;
  AUTO_UPDATE_SWITCH : bool; AUTO_UPDATE_RUNNING : bool; AUTO_UPDATE_WAITTING : bool;
  OTA_UPDATEING : bool; UPDATE_BY_USER : bool; DOWNLOAD_FAILED_TIMES : nat;
  auto_update_enabled : bool;
  package : option (list Z); package_root : bool;
  ota_log : list OtaEvent }.

Definition with_info i o := mkOTA i (AUTO_UPDATE_SWITCH o) (AUTO_UPDATE_RUNNING o) (AUTO_UPDATE_WAITTING o) (OTA_UPDATEING o)
  (UPDATE_BY_USER o) (DOWNLOAD_FAILED_TIMES o) (auto_update_enabled o) (package o) (package_root o) (ota_log o).
Definition with_switch b o := mkOTA (OTA_INFO o) b (AUTO_UPDATE_RUNNING o) (AUTO_UPDATE_WAITTING o) (OTA_UPDATEING o)
  (UPDATE_BY_USER o) (DOWNLOAD_FAILED_TIMES o) (auto_update_enabled o) (package o) (package_root o) (ota_log o).
Definition with_running b o := mkOTA (OTA_INFO o) (AUTO_UPDATE_SWITCH o) b (AUTO_UPDATE_WAITTING o) (OTA_UPDATEING o)
  (UPDATE_BY_USER o) (DOWNLOAD_FAILED_TIMES o) (auto_update_enabled o) (package o) (package_root o) (ota_log o).
Definition with_waitting b o := mkOTA (OTA_INFO o) (AUTO_UPDATE_SWITCH o) (AUTO_UPDATE_RUNNING o) b (OTA_UPDATEING o)
  (UPDATE_BY_USER o) (DOWNLOAD_FAILED_TIMES o) (auto_update_enabled o) (package o) (package_root o) (ota_log o).
Definition with_updateing b o := mkOTA (OTA_INFO o) (AUTO_UPDATE_SWITCH o) (AUTO_UPDATE_RUNNING o) (AUTO_UPDATE_WAITTING o) b
  (UPDATE_BY_USER o) (DOWNLOAD_FAILED_TIMES o) (auto_update_enabled o) (package o) (package_root o) (ota_log o).
Definition with_by_user b o := mkOTA (OTA_INFO o) (AUTO_UPDATE_SWITCH o) (AUTO_UPDATE_RUNNING o) (AUTO_UPDATE_WAITTING o) (OTA_UPDATEING o)
  b (DOWNLOAD_FAILED_TIMES o) (auto_update_enabled o) (package o) (package_root o) (ota_log o).
Definition with_failed n o := mkOTA (OTA_INFO o) (AUTO_UPDATE_SWITCH o) (AUTO_UPDATE_RUNNING o) (AUTO_UPDATE_WAITTING o) (OTA_UPDATEING o)
  (UPDATE_BY_USER o) n (auto_update_enabled o) (package o) (package_root o) (ota_log o).
Definition with_enabled b o := mkOTA (OTA_INFO o) (AUTO_UPDATE_SWITCH o) (AUTO_UPDATE_RUNNING o) (AUTO_UPDATE_WAITTING o) (OTA_UPDATEING o)
  (UPDATE_BY_USER o) (DOWNLOAD_FAILED_TIMES o) b (package o) (package_root o) (ota_log o).
Definition with_package p o := mkOTA (OTA_INFO o) (AUTO_UPDATE_SWITCH o) (AUTO_UPDATE_RUNNING o) (AUTO_UPDATE_WAITTING o) (OTA_UPDATEING o)
  (UPDATE_BY_USER o) (DOWNLOAD_FAILED_TIMES o) (auto_update_enabled o) p (package_root o) (ota_log o).
Definition with_root b o := mkOTA (OTA_INFO o) (AUTO_UPDATE_SWITCH o) (AUTO_UPDATE_RUNNING o) (AUTO_UPDATE_WAITTING o) (OTA_UPDATEING o)
  (UPDATE_BY_USER o) (DOWNLOAD_FAILED_TIMES o) (auto_update_enabled o) (package o) b (ota_log o).
Definition happened e o := mkOTA (OTA_INFO o) (AUTO_UPDATE_SWITCH o) (AUTO_UPDATE_RUNNING o) (AUTO_UPDATE_WAITTING o) (OTA_UPDATEING o)
  (UPDATE_BY_USER o) (DOWNLOAD_FAILED_TIMES o) (auto_update_enabled o) (package o) (package_root o) (ota_log o ++ [e]).

(** Where the task of [ready_update] stands: about to read [OTA_INFO]; to look at
    the package on the disk; downloading; in the wait loop. *)
Inductive ReadyPc : Type :=
| RRead
| RProbe (os_url os_hash_signature : string)
| RFetch (os_url os_hash_signature : string)
| RWait (os_hash_signature : string).

(** The body that [try_install] spawns: the directory; the command; its exit. *)
Inductive InstallPc : Type := IRoot | IRun | IExit.

(** Waiting for the next check; in [check_update]. *)
Inductive LoopPc : Type := LWait | LCheck (auto_update : bool).

(** [check_ota_update_finished]: the lock command; the two removals. *)
Inductive FinishPc : Type := FLock | FPackage | FRoot.

Inductive Task : Type :=
| TReady (by_user : bool) (pc : ReadyPc)
| TRetry (** the retry after a failed download *)
| TAuto (** the fall-back to the scheduler *)
| TTryInstall
| TInstall (pc : InstallPc)
| TLoop (pc : LoopPc)
| TCheck (by_user auto_update : bool) (** a handler in [check_update] *)
| TSet (enabled : bool) (** [set_auto_update] after the configuration *)
| TFinish (pc : FinishPc).

(** How the download goes on: the file has been written up to some content; it
    is complete; it failed. *)
Inductive Fetch : Type := FetchWrite (content : list Z) | FetchDone | FetchFail (failure : string).

Record Answers := mkAnswers {
  a_reads : bool; a_removes : bool; a_fetch : Fetch;
  a_session : bool; a_elapsed : Z;
  a_mkdir : bool; a_spawns : bool; a_exit : bool;
  a_due : bool; a_stale : bool;
  a_version : Result string VersionInfo; a_cloud : Result string OtaInfo }.

(** SHA-256, base64 and RSA. *)
Class Crypto := {
  sha256_hex : list Z -> string;
  public_key_parses : bool;
  base64_decode : string -> option (list Z);
  signature_parses : list Z -> bool;
  rsa_verifies : list Z -> string -> bool }.

Section ota.
Context `{Crypto}.

Definition verify_package (system_hash_signature original : string) : Result string unit :=
  if negb public_key_parses then Err "PUBLIC_KEY parse" else
  match base64_decode (trim system_hash_signature) with
  | None => Err "signature base64 decode"
  | Some sig_bytes =>
      if negb (signature_parses sig_bytes) then Err "signature decode" else
      if rsa_verifies sig_bytes original then Ok tt else Err "failed to verify"
  end.

Definition calculate_file_sha256 (reads : bool) (content : list Z) : Result string string :=
  if reads then Ok (sha256_hex content) else Err "read".

(** The file removed, if the removal succeeds. *)
Definition remove_package (a : Answers) (o : OTA) : OTA := if a_removes a then with_package None o else o.

Definition need_download (a : Answers) (os_hash_signature : string) (o : OTA) : OTA * bool :=
  match package o with
  | None => (o, true)
  | Some content =>
      match calculate_file_sha256 (a_reads a) content with
      | Ok existing_hash =>
          if is_ok (verify_package os_hash_signature existing_hash) then (o, false) else (remove_package a o, true)
      | Err _ => (remove_package a o, true)
      end
  end.

(** ** What starts a task

    [stale]: the load of the flag came before another thread set it. *)

Definition ready_update (stale by_user : bool) (o : OTA) : OTA * list Task :=
  if negb stale && AUTO_UPDATE_WAITTING o then (o, []) else (with_waitting true o, [TReady by_user RRead]).

Definition run_loop (o : OTA) : OTA * list Task := (with_running true o, [TLoop LWait]).

Definition run_auto_update (stale : bool) (o : OTA) : OTA * list Task :=
  if negb stale && AUTO_UPDATE_RUNNING o then (o, []) else run_loop o.

(** ** The update task *)

(** It ends, with the flag cleared. *)
Definition ready_done (o : OTA) (spawned : list Task) : OTA * list Task := (with_waitting false o, spawned).

(** The arm for a failed download. *)
Definition download_failed (by_user : bool) (o : OTA) : OTA * list Task :=
  if negb by_user && negb (UPDATE_BY_USER o) then
    let times := DOWNLOAD_FAILED_TIMES o in
    if (times <? 3)%nat then ready_done (with_failed (S times) o) [TRetry]
    else ready_done (with_failed 0 o) [TAuto]
  else ready_done o [].

(** One turn of the wait loop. *)
Definition wait_turn (a : Answers) (by_user : bool) (sig : string) (o : OTA) : OTA * list Task :=
  let launch asked := ready_done (happened (Launch sig (package o) asked (AUTO_UPDATE_SWITCH o) (a_session a) (a_elapsed a)) o) [TTryInstall] in
  if by_user || UPDATE_BY_USER o then launch true
  else if negb (AUTO_UPDATE_SWITCH o) then ready_done o []
  else if a_session a && (a_elapsed a <? OTA_WAIT_TIME)%Z then (o, [TReady by_user (RWait sig)])
  else launch false.

Definition ready_step (a : Answers) (by_user : bool) (pc : ReadyPc) (o : OTA) : OTA * list Task :=
  match pc with
  | RRead =>
      match OTA_INFO o with
      | None => ready_done o []
      | Some info =>
          match system_url info with
          | None => ready_done o []
          | Some os_url =>
              match system_hash_signature info with
              | None => ready_done o []
              | Some sig => (o, [TReady by_user (RProbe os_url sig)])
              end
          end
      end
  | RProbe os_url sig =>
      let '(o, need) := need_download a sig o in
      (o, [TReady by_user (if need then RFetch os_url sig else RWait sig)])
  | RFetch os_url sig =>
      match a_fetch a with
      | FetchWrite content => (with_package (Some content) o, [TReady by_user (RFetch os_url sig)])
      | FetchFail _ => download_failed by_user o
      | FetchDone =>
          match package o with
          | None => download_failed by_user o
          | Some content =>
              match calculate_file_sha256 (a_reads a) content with
              | Err _ => download_failed by_user o
              | Ok hex =>
                  if is_ok (verify_package sig hex) then (o, [TReady by_user (RWait sig)])
                  else ready_done (remove_package a o) []
              end
          end
      end
  | RWait sig => wait_turn a by_user sig o
  end.

(** ** Installing *)

Definition try_install (stale : bool) (o : OTA) : OTA * list Task :=
  if negb stale && OTA_UPDATEING o then (o, []) else (with_updateing true o, [TInstall IRoot]).

Definition install_failed (stale : bool) (o : OTA) : OTA * list Task :=
  let '(o, spawned) := if AUTO_UPDATE_SWITCH o then run_auto_update stale o else (o, []) in
  (with_updateing false o, spawned).

Definition install_step (a : Answers) (pc : InstallPc) (o : OTA) : OTA * list Task :=
  match pc with
  | IRoot =>
      if package_root o then (o, [TInstall IRun])
      else if a_mkdir a then (with_root true o, [TInstall IRun])
      else (with_updateing false o, [])
  | IRun => if a_spawns a then (happened (Command (package o)) o, [TInstall IExit]) else install_failed (a_stale a) o
  | IExit => if a_exit a then (with_updateing false (happened Reboot o), []) else install_failed (a_stale a) o
  end.

(** ** Checking for updates *)

(** Up to the first await: the configuration. *)
Definition check_begin (by_user : bool) (o : OTA) : Result string bool :=
  let auto_update := auto_update_enabled o in
  if negb by_user && negb auto_update then Err "Auto update is disabled" else Ok auto_update.

(** The versions and the answer of the cloud, then everything else. *)
Definition check_finish (a : Answers) (by_user auto_update : bool) (o : OTA) : OTA * list Task * Result string UpdateInfo :=
  match a_version a with
  | Err m => (o, [], Err m)
  | Ok current_version =>
      let ota_info := match a_cloud a with Ok info => info | Err _ => OtaInfo_default end in
      let o := with_info (Some ota_info) o in
      let has_update := bool_decide (is_Some (system_url ota_info)) in
      let '(o, spawned) :=
        if negb by_user && auto_update then
          let '(o, s1) := if has_update then ready_update (a_stale a) false o else (o, []) in
          let '(o, s2) := run_auto_update (a_stale a) o in
          (o, s1 ++ s2)
        else (o, []) in
      (o, spawned, Ok (mkUpdateInfo current_version (default "" (ota_system_version ota_info))
                         (bool_decide (is_Some (app_url ota_info))) has_update))
  end.

(** A handler in [check_update]: its first part. *)
Definition check_task (by_user : bool) (o : OTA) : list Task :=
  match check_begin by_user o with Ok auto_update => [TCheck by_user auto_update] | Err _ => [] end.

(** ** The scheduler *)

Definition loop_step (a : Answers) (pc : LoopPc) (o : OTA) : OTA * list Task :=
  match pc with
  | LWait =>
      if negb (AUTO_UPDATE_SWITCH o) then (with_running false o, [])
      else if negb (a_due a) then (o, [TLoop LWait])
      else match check_begin false o with
           | Err _ => (o, [TLoop LWait])
           | Ok auto_update => (o, [TLoop (LCheck auto_update)])
           end
  | LCheck auto_update => let '(o, spawned, _) := check_finish a false auto_update o in (o, TLoop LWait :: spawned)
  end.

(** ** After an update *)

Definition finish_step (a : Answers) (pc : FinishPc) (o : OTA) : OTA * list Task :=
  match pc with
  | FLock => if package_root o then (o, [TFinish FPackage]) else (o, [])
  | FPackage => (remove_package a o, [TFinish FRoot])
  | FRoot => (if a_removes a then with_root false o else o, [])
  end.

Definition task_step (t : Task) (a : Answers) (o : OTA) : OTA * list Task :=
  match t with
  | TReady by_user pc => ready_step a by_user pc o
  | TRetry => ready_update (a_stale a) false o
  | TAuto => run_auto_update (a_stale a) o
  | TTryInstall => try_install (a_stale a) o
  | TInstall pc => install_step a pc o
  | TLoop pc => loop_step a pc o
  | TCheck by_user auto_update => (check_finish a by_user auto_update o).1
  | TSet true => let o := with_switch true o in (o, check_task false o)
  | TSet false => (with_switch false o, [])
  | TFinish pc => finish_step a pc o
  end.

(** ** The handlers *)

(** What a page or the start of the device sets off.  [SetAuto]: whether the
    configuration was saved. *)
Inductive OtaOp : Type := CheckUpdate | TryUpdateByUser | SetAuto (enabled saved : bool) | PowerOn.

Definition try_update_by_user (stale : bool) (o : OTA) : OTA * list Task :=
  if negb stale && AUTO_UPDATE_WAITTING o then (with_by_user true o, []) else ready_update stale true (with_by_user true o).

Definition power_on_ota_update (o : OTA) : OTA * list Task :=
  if auto_update_enabled o then let o := with_switch true o in (o, check_task false o) else (o, []).

Definition set_auto_update (enabled saved : bool) (o : OTA) : OTA * list Task :=
  (with_enabled enabled o, if saved then [TSet enabled] else []).

Definition op_step (stale : bool) (op : OtaOp) (o : OTA) : OTA * list Task :=
  match op with
  | CheckUpdate => (o, check_task true o)
  | TryUpdateByUser => try_update_by_user stale o
  | SetAuto enabled saved => set_auto_update enabled saved o
  | PowerOn => power_on_ota_update o
  end.

(** ** The whole *)

Definition System : Type := OTA * list Task.

(** A handler is called, or the [i]-th task goes on. *)
Inductive Action : Type := Do (stale : bool) (op : OtaOp) | Go (i : nat) (a : Answers).

(** Whether a run has the user ask for an update. *)
Definition asks (x : Action) : bool := match x with Do _ TryUpdateByUser => true | _ => false end.

Definition act (s : System) (x : Action) : System :=
  let '(o, tasks) := s in
  match x with
  | Do stale op => let '(o', new) := op_step stale op o in (o', tasks ++ new)
  | Go i a =>
      match tasks !! i with
      | Some t => let '(o', new) := task_step t a o in (o', delete i tasks ++ new)
      | None => s
      end
  end.

(** No other thread gets in between a test of a flag and its setting. *)
Definition orderly (x : Action) : Prop :=
  match x with Do stale _ => stale = false | Go _ a => a_stale a = false end.

Definition ota_run (s : System) (xs : list Action) : System := fold_left act xs s.
End ota.

(** The device starts, with what the disk keeps. *)
Definition booted (enabled : bool) (package : option (list Z)) (root : bool) : System :=
  (mkOTA None false false false false false 0 enabled package root [], [TFinish FLock]).

(** ** Counting tasks *)

Fixpoint tally (p : Task -> bool) (ts : list Task) : nat :=
  match ts with [] => 0 | t :: ts => Nat.b2n (p t) + tally p ts end.

Lemma tally_app p ts us : tally p (ts ++ us) = tally p ts + tally p us.
Proof. induction ts; cbn; lia. Qed.

Lemma tally_delete p i t ts : ts !! i = Some t -> tally p ts = Nat.b2n (p t) + tally p (delete i ts).
Proof. revert i. induction ts as [|u ts IH]; intros [|i]; simpl; intros E; [done..|by simplify_eq|]. rewrite (IH i) by done. lia. Qed.

Lemma tally_zero p ts : tally p ts = 0 -> Forall (fun t => p t = false) ts.
Proof. induction ts as [|t ts IH]; cbn; [done|]. destruct (p t) eqn:E; cbn; [done|]. auto. Qed.

Lemma tally_Forall p ts : Forall (fun t => p t = false) ts -> tally p ts = 0.
Proof. induction 1 as [|t ts E]; cbn; [done|]. by rewrite E. Qed.

Lemma tally_mem p ts i t : ts !! i = Some t -> p t = true -> 0 < tally p ts.
Proof. intros Hi Ht. rewrite (tally_delete p i t ts Hi), Ht. cbn. lia. Qed.

Definition is_ready (t : Task) : bool := match t with TReady _ _ => true | _ => false end.
Definition is_install (t : Task) : bool := match t with TInstall _ => true | _ => false end.
Definition is_loop (t : Task) : bool := match t with TLoop _ => true | _ => false end.
Definition is_finish (t : Task) : bool := match t with TFinish _ => true | _ => false end.
(** An installation that is on its way. *)
Definition is_pending (t : Task) : bool := match t with TTryInstall | TInstall _ => true | _ => false end.

(** Take a step apart. *)
Ltac ota_cases :=
  cbn -[verify_package check_begin Nat.ltb Z.ltb] in *;
  unfold finish_step, wait_turn, need_download, download_failed, check_finish, install_failed,
    try_update_by_user, power_on_ota_update, set_auto_update, check_task, try_install, ready_update, run_auto_update,
    ready_done, run_loop, remove_package in *;
  repeat match goal with E : a_stale _ = false |- _ => rewrite E in *; clear E end; cbn -[verify_package check_begin Nat.ltb Z.ltb] in *;
  repeat (case_match; simplify_eq; cbn -[verify_package check_begin Nat.ltb Z.ltb] in * ).
Ltac task_cases t :=
  destruct t as [by_user [|u g|u g|g]| | | |[]|[|auto_update]|by_user auto_update|[]|[]]; ota_cases.
Ltac op_cases op := destruct op as [| |[] []|]; ota_cases.
Ltac flags := repeat match goal with E : _ _ = true |- _ => rewrite E in * | E : _ _ = false |- _ => rewrite E in * end; cbn in *.

Section proofs.
Context `{Crypto}.
Implicit Types (o : OTA) (ts : list Task) (a : Answers) (t : Task).

(** A step keeps a flag and the tasks it counts in balance. *)
Definition balanced (flag : OTA -> bool) (p : Task -> bool) : Prop :=
  (∀ t a o, a_stale a = false -> (p t = true -> flag o = true) ->
     Nat.b2n (flag (task_step t a o).1) + Nat.b2n (p t) = Nat.b2n (flag o) + tally p (task_step t a o).2)
  /\ ∀ op o, Nat.b2n (flag (op_step false op o).1) = Nat.b2n (flag o) + tally p (op_step false op o).2.

Ltac balance :=
  split; [intros t a o Hs Hf; task_cases t | intros op o; op_cases op];
  try match goal with E : true = true -> _ |- _ => specialize (E eq_refl) end; flags; first [done|lia].

Lemma ready_balanced : balanced AUTO_UPDATE_WAITTING is_ready.
Proof. balance. Qed.
Lemma install_balanced : balanced OTA_UPDATEING is_install.
Proof. balance. Qed.
Lemma loop_balanced : balanced AUTO_UPDATE_RUNNING is_loop.
Proof. balance. Qed.

(** ** The flags *)

(** A flag is up exactly while a task of its kind exists, and there is at most
    one. *)
Definition tells (flag : OTA -> bool) (p : Task -> bool) (s : System) : Prop := tally p s.2 = Nat.b2n (flag s.1).

Lemma act_tells flag p s x : orderly x -> balanced flag p -> tells flag p s -> tells flag p (act s x).
Proof.
  intros Hx [Ht Ho]. destruct s as [o ts]. unfold tells, act. cbn. intros Hs. destruct x as [stale op|i a]; cbn in Hx.
  - subst stale. specialize (Ho op o). destruct (op_step false op o) as [o' new]. cbn in *. rewrite tally_app. lia.
  - destruct (ts !! i) as [t|] eqn:Hi; [|done]. pose proof (tally_delete p i t ts Hi) as Hd. specialize (Ht t a o).
    destruct (task_step t a o) as [o' new]. cbn in *. rewrite tally_app.
    assert (Hf : p t = true -> flag o = true) by (intros E; rewrite E in *; destruct (flag o); cbn in *; [done|lia]).
    specialize (Ht Hx Hf). lia.
Qed.

(** Properties that every action keeps hold after every run. *)
Lemma run_ind (P : System -> Prop) s xs : P s -> (∀ s x, x ∈ xs -> P s -> P (act s x)) -> P (ota_run s xs).
Proof.
  unfold ota_run. revert s. induction xs as [|x xs IH]; intros s Hs Hk; [done|]. cbn. apply IH.
  - apply Hk; [left|done].
  - intros s' y Hy. apply Hk. by right.
Qed.

Lemma run_app s xs ys : ota_run s (xs ++ ys) = ota_run (ota_run s xs) ys.
Proof. apply fold_left_app. Qed.

Definition coherent (s : System) : Prop :=
  tells AUTO_UPDATE_WAITTING is_ready s /\ tells OTA_UPDATEING is_install s /\ tells AUTO_UPDATE_RUNNING is_loop s
  /\ DOWNLOAD_FAILED_TIMES s.1 <= 3.

Lemma act_failed s x : DOWNLOAD_FAILED_TIMES s.1 <= 3 -> DOWNLOAD_FAILED_TIMES (act s x).1 <= 3.
Proof.
  destruct s as [o ts]. unfold act. cbn. intros Hs. destruct x as [stale op|i a].
  - enough (DOWNLOAD_FAILED_TIMES (op_step stale op o).1 = DOWNLOAD_FAILED_TIMES o) as E.
    { destruct (op_step stale op o). cbn in *. lia. }
    op_cases op; done.
  - destruct (ts !! i) as [t|]; [|done].
    enough (DOWNLOAD_FAILED_TIMES (task_step t a o).1 <= 3) as E by (by destruct (task_step t a o)).
    task_cases t; repeat match goal with E : (_ <? _)%nat = true |- _ => apply Nat.ltb_lt in E end; lia.
Qed.

Lemma act_coherent s x : orderly x -> coherent s -> coherent (act s x).
Proof.
  intros Hx (H1 & H2 & H3 & H4).
  split_and!; [apply act_tells, H1; [done|apply ready_balanced]|apply act_tells, H2; [done|apply install_balanced]|
               apply act_tells, H3; [done|apply loop_balanced]|by apply act_failed].
Qed.

Lemma run_coherent enabled p root xs : Forall orderly xs -> coherent (ota_run (booted enabled p root) xs).
Proof.
  intros Ho. apply run_ind; [by split_and!; cbn; try lia|]. intros s x Hx. apply act_coherent.
  rewrite Forall_forall in Ho. auto.
Qed.

(** However handlers and tasks interleave, and whatever the cloud, the disk
    and the command answer, as long as no two threads test the same flag at once
    the static flags tell what there is: there is an update
    task exactly while [AUTO_UPDATE_WAITTING] is up, an installation exactly while
    [OTA_UPDATEING] is, a scheduler exactly while [AUTO_UPDATE_RUNNING] is; there
    is never a second one of any kind, and at most three failed downloads are
    counted. *)
Theorem flags_tell_tasks enabled p root xs :
  Forall orderly xs ->
  let '(o, tasks) := ota_run (booted enabled p root) xs in
  tally is_ready tasks = Nat.b2n (AUTO_UPDATE_WAITTING o) /\ tally is_install tasks = Nat.b2n (OTA_UPDATEING o)
  /\ tally is_loop tasks = Nat.b2n (AUTO_UPDATE_RUNNING o) /\ DOWNLOAD_FAILED_TIMES o <= 3.
Proof. intros Ho. pose proof (run_coherent enabled p root xs Ho) as Hc. by destruct (ota_run _ xs). Qed.

(** ** What is installed has been verified *)

(** A package file whose hash is signed. *)
Definition verified (sig : string) (p : option (list Z)) : Prop :=
  ∃ content, p = Some content /\ verify_package sig (sha256_hex content) = Ok tt.

Lemma is_ok_unit (r : Result string unit) : is_ok r = true -> r = Ok tt.
Proof. by destruct r as [[]|]. Qed.

Lemma hash_read reads content hex : calculate_file_sha256 reads content = Ok hex -> hex = sha256_hex content.
Proof. unfold calculate_file_sha256. destruct reads; [by intros [= <-]|done]. Qed.

Lemma verified_read sig reads content hex p :
  p = Some content -> calculate_file_sha256 reads content = Ok hex -> is_ok (verify_package sig hex) = true -> verified sig p.
Proof. intros Hp Hh Hv. apply hash_read in Hh as ->. exists content. split; [done|]. by apply is_ok_unit. Qed.

Definition launch_verified (e : OtaEvent) : Prop :=
  match e with Launch sig p _ _ _ _ => verified sig p | _ => True end.

(** The task in the wait loop has a verified package in front of it. *)
Definition backed (o : OTA) (t : Task) : Prop :=
  match t with TReady _ (RWait sig) => verified sig (package o) | TFinish _ => False | _ => True end.

Lemma package_kept t a o : is_ready t = false -> is_finish t = false -> package (task_step t a o).1 = package o.
Proof. intros Hr Hf. task_cases t; done. Qed.

Lemma op_keeps stale op o : package (op_step stale op o).1 = package o /\ ota_log (op_step stale op o).1 = ota_log o.
Proof. op_cases op; done. Qed.

Lemma op_new stale op o : Forall (fun t => (∃ b, t = TReady b RRead) \/ (∃ b c, t = TCheck b c) \/ ∃ b, t = TSet b) (op_step stale op o).2.
Proof. op_cases op; repeat apply Forall_cons_2; try apply Forall_nil_2; eauto 6. Qed.

Lemma log_grows e o P : Forall P (ota_log o) -> P e -> Forall P (ota_log o ++ [e]).
Proof. intros. apply Forall_app. split; [done|]. by constructor. Qed.

Lemma step_backed t a o :
  backed o t -> Forall (backed (task_step t a o).1) (task_step t a o).2
  /\ (Forall launch_verified (ota_log o) -> Forall launch_verified (ota_log (task_step t a o).1)).
Proof.
  intros Hb. task_cases t; split; try done; try (by repeat constructor); try (intros Hl; by apply log_grows);
    repeat constructor; cbn; eauto using verified_read.
Qed.

Definition safe (s : System) : Prop :=
  tells AUTO_UPDATE_WAITTING is_ready s /\ Forall (backed s.1) s.2 /\ Forall launch_verified (ota_log s.1).

Lemma act_Forall (Q : OTA -> Task -> Prop) o o' ts i t new :
  ts !! i = Some t -> Forall (Q o) ts -> Forall (Q o') new -> Forall (fun u => Q o u -> Q o' u) (delete i ts) ->
  Forall (Q o') (delete i ts ++ new).
Proof.
  intros Hi Hts Hnew Hk. apply Forall_app. split; [|done]. apply (Forall_delete _ _ i) in Hts.
  rewrite Forall_forall in Hts, Hk |- *. auto.
Qed.

(** The update task is the only one. *)
Lemma ready_alone o ts i t :
  tells AUTO_UPDATE_WAITTING is_ready (o, ts) -> ts !! i = Some t -> is_ready t = true ->
  Forall (fun u => is_ready u = false) (delete i ts).
Proof.
  unfold tells. cbn. intros Hs Hi Ht. apply tally_zero. rewrite (tally_delete _ _ _ _ Hi), Ht in Hs. cbn in Hs.
  destruct (AUTO_UPDATE_WAITTING o); cbn in Hs; lia.
Qed.

Lemma backed_idle o o' u : is_ready u = false -> backed o u -> backed o' u.
Proof. by destruct u. Qed.

Lemma backed_finish o ts : Forall (backed o) ts -> Forall (fun u => is_finish u = false) ts.
Proof. intros Hb. eapply Forall_impl; [exact Hb|]. by intros []. Qed.

Lemma act_safe s x : orderly x -> safe s -> safe (act s x).
Proof.
  intros Hx. destruct s as [o ts]. intros (Hw & Hb & Hl).
  split; [apply act_tells; [done|apply ready_balanced|done]|]. cbn in Hb, Hl.
  destruct x as [stale op|i a]; cbn.
  - pose proof (op_keeps stale op o) as [Hp Hlog]. pose proof (op_new stale op o) as Hn. destruct (op_step stale op o) as [o' new]. cbn in *.
    rewrite Hlog. split; [|done]. apply Forall_app. split.
    + eapply Forall_impl; [exact Hb|]. intros u. destruct u as [? []| | | | | | | |]; cbn; rewrite ?Hp; auto.
    + eapply Forall_impl; [exact Hn|]. by intros t [[? ->]|[(? & ? & ->)|[? ->]]].
  - destruct (ts !! i) as [t|] eqn:Hi; [|done]. pose proof (Forall_lookup_1 _ _ _ _ Hb Hi) as Ht.
    pose proof (step_backed t a o Ht) as [Hn Hl']. pose proof (package_kept t a o) as Hp.
    pose proof (Forall_lookup_1 _ _ _ _ (backed_finish _ _ Hb) Hi) as Hf. cbn in Hf.
    destruct (task_step t a o) as [o' new]. cbn in *. split; [|auto]. apply (act_Forall backed o o' ts i t); try done.
    destruct (is_ready t) eqn:Hr.
    + eapply Forall_impl; [by eapply ready_alone|]. intros u Hu. by apply backed_idle.
    + apply Forall_true. intros u. destruct u as [? []| | | | | | | |]; cbn; rewrite ?Hp by done; auto.
Qed.

(** An installation is only ever launched on a package that is complete and
    signed: from a start without an update to finish, in every run in which no
    two threads test a flag at once, whatever
    the server delivers and however often a download is broken off or repeated,
    each time an installation is launched the package file holds content whose
    hash verifies under the signature of the release that is being installed. *)
Theorem launches_are_verified enabled p a xs :
  Forall orderly xs ->
  Forall launch_verified (ota_log (ota_run (booted enabled p false) (Go 0 a :: xs)).1).
Proof.
  intros Ho. change (Forall launch_verified (ota_log (ota_run (act (booted enabled p false) (Go 0 a)) xs).1)).
  rewrite Forall_forall in Ho. apply (run_ind safe); [|intros s x Hx; by apply act_safe, Ho]. cbn. split_and!; [done|constructor..].
Qed.

(** ** One release *)

(** The cloud knows one release, and the disk can be read. *)
Definition one_release (sig : string) (x : Action) : Prop :=
  match x with
  | Do _ _ => True
  | Go _ a => a_reads a = true /\ ∀ info, a_cloud a = Ok info -> system_hash_signature info = None \/ system_hash_signature info = Some sig
  end.

Definition command_verified (sig : string) (e : OtaEvent) : Prop :=
  match e with Command p => verified sig p | _ => True end.

Definition is_fetch (t : Task) : bool := match t with TReady _ (RFetch _ _) => true | _ => false end.

Definition fits (sig : string) (o : OTA) (t : Task) : Prop :=
  match t with
  | TReady _ (RProbe _ g) | TReady _ (RFetch _ g) => g = sig
  | TReady _ (RWait g) => g = sig /\ verified sig (package o)
  | TTryInstall | TInstall _ => verified sig (package o)
  | TFinish _ => False
  | _ => True
  end.

Definition info_fits (sig : string) (o : OTA) : Prop :=
  ∀ info, OTA_INFO o = Some info -> system_hash_signature info = None \/ system_hash_signature info = Some sig.

Definition steady (sig : string) (s : System) : Prop :=
  tells AUTO_UPDATE_WAITTING is_ready s /\ info_fits sig s.1 /\ Forall (fits sig s.1) s.2
  /\ (0 < tally is_fetch s.2 -> tally is_pending s.2 = 0) /\ Forall (command_verified sig) (ota_log s.1).

Lemma unverified sig p content reads hex :
  p = Some content -> calculate_file_sha256 reads content = Ok hex -> is_ok (verify_package sig hex) = false -> ~ verified sig p.
Proof. intros -> Hh Hv (c & [= <-] & Hc). apply hash_read in Hh as ->. by rewrite Hc in Hv. Qed.

Lemma reads_hash a content e : a_reads a = true -> calculate_file_sha256 (a_reads a) content <> Err e.
Proof. by intros ->. Qed.

Lemma no_package sig p : p = None -> ~ verified sig p.
Proof. by intros -> (c & [=] & _). Qed.

(** A probe that asks for a download found no verified package, one that does
    not changes nothing. *)
Lemma need_download_spec sig a o :
  a_reads a = true ->
  if (need_download a sig o).2 then ~ verified sig (package o)
  else (need_download a sig o).1 = o /\ verified sig (package o).
Proof.
  intros Hr. unfold need_download. destruct (package o) as [c|] eqn:Hp; [|by apply no_package].
  destruct (calculate_file_sha256 (a_reads a) c) as [hex|] eqn:Hh; [|by apply reads_hash in Hh].
  destruct (is_ok (verify_package sig hex)) eqn:Hv; cbn; [split; [done|]; by eapply verified_read|by eapply unverified].
Qed.

Lemma step_info sig t a o : one_release sig (Go 0 a) -> info_fits sig o -> info_fits sig (task_step t a o).1.
Proof.
  intros [Hr Hc] Hi. task_cases t; try done; intros info; cbn; intros [= <-]; first [by left|by apply Hc].
Qed.

Lemma step_commands sig t a o :
  fits sig o t -> Forall (command_verified sig) (ota_log o) -> Forall (command_verified sig) (ota_log (task_step t a o).1).
Proof. intros Hf Hl. task_cases t; try done; by apply log_grows. Qed.

Lemma step_fits sig t a o :
  one_release sig (Go 0 a) -> info_fits sig o -> fits sig o t ->
  Forall (fits sig (task_step t a o).1) (task_step t a o).2.
Proof.
  intros [Hr _] Hi Hf. task_cases t; repeat apply Forall_cons_2; try apply Forall_nil_2; cbn; try done;
    try (split; [done|]; by eapply verified_read); try apply Hf.
  match goal with E : OTA_INFO o = Some _ |- _ => destruct (Hi _ E) end; congruence.
Qed.

(** A step starts a download only without a verified package, and then pends
    no installation; it pends one only from a pending one or from the wait loop. *)
Lemma step_kinds sig t a o :
  a_reads a = true -> fits sig o t ->
  (0 < tally is_fetch (task_step t a o).2 ->
     is_ready t = true /\ tally is_pending (task_step t a o).2 = 0 /\ (is_fetch t = true \/ ~ verified sig (package o)))
  /\ (0 < tally is_pending (task_step t a o).2 -> is_pending t = true \/ is_ready t = true).
Proof.
  intros Hr Hf. task_cases t; split; try lia; intros _; split_and?; auto; right;
    try (by eapply unverified); try (by apply no_package); exfalso; by eapply reads_hash.
Qed.

(** Only the update task changes the package, and only while there is no
    verified one, or downloading. *)
Lemma step_package sig t a o :
  a_reads a = true -> fits sig o t ->
  package (task_step t a o).1 = package o
  \/ is_ready t = true /\ (is_fetch t = true \/ ~ verified sig (package o)).
Proof.
  intros Hr Hf. task_cases t; auto; right; split; auto; right;
    try (by eapply unverified); exfalso; by eapply reads_hash.
Qed.

Lemma op_steady sig op o ts : steady sig (o, ts) -> steady sig (act (o, ts) (Do false op)).
Proof.
  intros (Hw & Hi & Hf & Hx & Hl). split; [apply act_tells; [done|apply ready_balanced|done]|]. cbn in *.
  pose proof (op_keeps false op o) as [Hp Hlog]. pose proof (op_new false op o) as Hn.
  assert (HI : OTA_INFO (op_step false op o).1 = OTA_INFO o) by (op_cases op; done).
  destruct (op_step false op o) as [o' new]. cbn in *. rewrite Hlog, !tally_app. unfold info_fits. rewrite HI.
  assert (Hnone : ∀ p, (∀ b, p (TReady b RRead) = false) -> (∀ b c, p (TCheck b c) = false) -> (∀ b, p (TSet b) = false) ->
    tally p new = 0).
  { intros p ???. apply tally_Forall. eapply Forall_impl; [exact Hn|]. by intros t [[? ->]|[(? & ? & ->)|[? ->]]]. }
  rewrite (Hnone is_fetch), (Hnone is_pending), !Nat.add_0_r by done. split_and!; try done.
  apply Forall_app. split.
  - eapply Forall_impl; [exact Hf|]. intros u. destruct u as [? []| | | | | | | |]; cbn; rewrite ?Hp; auto.
  - eapply Forall_impl; [exact Hn|]. by intros t [[? ->]|[(? & ? & ->)|[? ->]]].
Qed.

(** Without a verified package nothing is pending. *)
Lemma nothing_pending sig o ts : Forall (fits sig o) ts -> ~ verified sig (package o) -> tally is_pending ts = 0.
Proof.
  intros Hf Hv. apply tally_Forall. eapply Forall_impl; [exact Hf|]. intros u Hu.
  destruct u as [? []| | | | | | | |]; done.
Qed.

Lemma fits_idle sig o o' u : is_ready u = false -> is_pending u = false -> fits sig o u -> fits sig o' u.
Proof. destruct u as [? []| | | | | | | |]; done. Qed.

Lemma fits_same sig o o' u : package o' = package o -> fits sig o u -> fits sig o' u.
Proof. intros E. destruct u as [? []| | | | | | | |]; cbn; rewrite ?E; auto. Qed.

Lemma go_steady sig o ts i a : orderly (Go i a) -> one_release sig (Go i a) -> steady sig (o, ts) -> steady sig (act (o, ts) (Go i a)).
Proof.
  intros Ho Ha Hs. pose proof Hs as (Hw & Hi & Hf & Hx & Hl). split; [apply act_tells; [done|apply ready_balanced|done]|].
  cbn in *. destruct (ts !! i) as [t|] eqn:Ht; [|apply Hs].
  pose proof (Forall_lookup_1 _ _ _ _ Hf Ht) as Hft. pose proof Ha as [Hr _].
  pose proof (step_info sig t a o Ha Hi) as Hi'. pose proof (step_fits sig t a o Ha Hi Hft) as Hn.
  pose proof (step_commands sig t a o Hft Hl) as Hl'. pose proof (step_kinds sig t a o Hr Hft) as [Hk1 Hk2].
  pose proof (step_package sig t a o Hr Hft) as Hp. destruct (task_step t a o) as [o' new]. cbn in *.
  pose proof (tally_delete is_fetch _ _ _ Ht) as Df. pose proof (tally_delete is_pending _ _ _ Ht) as Dp.
  assert (Hno : is_fetch t = true \/ ~ verified sig (package o) -> tally is_pending ts = 0).
  { intros [E|E]; [apply Hx; rewrite Df, E; cbn; lia|by eapply nothing_pending]. }
  split_and!; [done| | |done].
  - apply (act_Forall (fits sig) o o' ts i t); try done. destruct Hp as [Hp|[Hrt Hv]].
    + apply Forall_true. intros u. by apply fits_same.
    + pose proof (ready_alone _ _ _ _ Hw Ht Hrt) as Hal.
      assert (Hpn : Forall (fun u => is_pending u = false) (delete i ts)) by (apply tally_zero; specialize (Hno Hv); lia).
      rewrite Forall_forall in Hal, Hpn |- *. intros u Hu. apply fits_idle; auto.
  - rewrite !tally_app. intros Hpos. destruct (decide (0 < tally is_fetch new)) as [Hfn|Hfn].
    + destruct (Hk1 Hfn) as (Hrt & Hpn & Hv). specialize (Hno Hv). lia.
    + assert (Hfd : 0 < tally is_fetch ts) by lia. specialize (Hx Hfd).
      destruct (decide (0 < tally is_pending new)) as [Hpn|]; [|lia]. exfalso. destruct (Hk2 Hpn) as [E|E].
      * rewrite E in Dp. cbn in Dp. lia.
      * pose proof (ready_alone _ _ _ _ Hw Ht E) as Hal.
        assert (tally is_fetch (delete i ts) = 0); [|lia].
        apply tally_Forall. eapply Forall_impl; [exact Hal|]. by intros [? []| | | | | | | |].
Qed.

(** C10: While the cloud offers one release, the installer never reads anything
    else: from a start without an update to finish, in every run in which each
    answer of the cloud carries that release's signature or none, the disk can be
    read, and no two threads test the same flag at once ([orderly]), whatever is
    downloaded, broken off, repeated or asked for again in the meantime, each
    update command starts on a package file whose hash verifies under the
    release's signature.  With a second release it may not
    ([new_release_under_install]), nor with two threads at the same flag
    ([stale_flag_installs_unverified]). *)
Theorem commands_run_verified sig enabled p a xs :
  Forall orderly xs -> Forall (one_release sig) xs ->
  Forall (command_verified sig) (ota_log (ota_run (booted enabled p false) (Go 0 a :: xs)).1).
Proof.
  intros Ho Hxs. change (Forall (command_verified sig) (ota_log (ota_run (act (booted enabled p false) (Go 0 a)) xs).1)).
  apply (run_ind (steady sig)).
  - split_and!; cbn; try done; try constructor.
  - intros [o ts] x Hx. rewrite Forall_forall in Hxs, Ho. specialize (Hxs x Hx). specialize (Ho x Hx).
    destruct x as [stale op|]; [cbn in Ho; subst stale; apply op_steady|by apply go_steady].
Qed.

(** ** Who sets off an installation *)

(** A launch that nobody asked for had the switch on, and found the device
    without a session or without input for twenty minutes. *)
Definition launch_polite (asked : bool) (e : OtaEvent) : Prop :=
  match e with
  | Launch _ _ by_user enabled session elapsed =>
      if by_user then asked = true else enabled = true /\ (session = false \/ (OTA_WAIT_TIME <= elapsed)%Z)
  | _ => True
  end.

(** A request of the user can only come from the handler. *)
Definition unasked (asked : bool) (s : System) : Prop :=
  (UPDATE_BY_USER s.1 = true -> asked = true) /\ Forall (fun t => ∀ pc, t = TReady true pc -> asked = true) s.2
  /\ Forall (launch_polite asked) (ota_log s.1).

Lemma step_unasked asked t a o :
  (UPDATE_BY_USER o = true -> asked = true) -> (∀ pc, t = TReady true pc -> asked = true) ->
  UPDATE_BY_USER (task_step t a o).1 = UPDATE_BY_USER o
  /\ Forall (fun t => ∀ pc, t = TReady true pc -> asked = true) (task_step t a o).2
  /\ (Forall (launch_polite asked) (ota_log o) -> Forall (launch_polite asked) (ota_log (task_step t a o).1)).
Proof.
  intros Hu Ht.
  assert (Hb : ∀ b pc, t = TReady b pc -> b || UPDATE_BY_USER o = true -> asked = true).
  { intros [] pc E; [intros _; by eapply Ht|apply Hu]. }
  task_cases t; split_and!; try done; repeat apply Forall_cons_2; try apply Forall_nil_2; try done;
    try (intros pc [= -> ?]; by eapply Ht); try (intros Hl; apply log_grows; [done|]); try done; cbn.
  - by eapply Hb.
  - rewrite negb_false_iff in *. split; [done|].
    match goal with E : _ && _ = false |- _ => apply andb_false_iff in E as [?|E]; [by left|right; by apply Z.ltb_ge] end.
Qed.

(** Nothing is installed behind the user's back: in every run, an
    installation that is launched although nobody has asked for an update in
    that run has the automatic updates switched on at that moment, and finds no
    session or twenty minutes without input; and one counts as asked for only if
    the handler for it was called. *)
Theorem launches_are_polite enabled p root xs :
  Forall (launch_polite (existsb asks xs)) (ota_log (ota_run (booted enabled p root) xs).1).
Proof.
  apply (run_ind (unasked (existsb asks xs))).
  - split_and!; cbn; [done|by repeat constructor|constructor].
  - intros [o ts] x Hx (Hu & Hr & Hl). destruct x as [stale op|i a]; cbn in *.
    + pose proof (op_keeps stale op o) as [_ Hlog]. assert (Ho : op = TryUpdateByUser -> existsb asks xs = true)
        by (intros ->; apply existsb_exists; exists (Do stale TryUpdateByUser); split; [by apply list_elem_of_In|done]).
      assert (Hn : (UPDATE_BY_USER (op_step stale op o).1 = true -> existsb asks xs = true)
        /\ Forall (fun t => ∀ pc, t = TReady true pc -> existsb asks xs = true) (op_step stale op o).2).
      { destruct (asks (Do stale op)) eqn:Eop.
        - destruct op; try done. rewrite Ho by done. split; [done|]. by apply Forall_true.
        - split; [by op_cases op|]. op_cases op; repeat constructor; done. }
      destruct (op_step stale op o) as [o' new]. cbn in *. split_and!; [apply Hn| |cbn; by rewrite Hlog].
      apply Forall_app. split; [done|apply Hn].
    + destruct (ts !! i) as [t|] eqn:Ht; [|done]. pose proof (Forall_lookup_1 _ _ _ _ Hr Ht) as Hft.
      pose proof (step_unasked _ t a o Hu Hft) as (E1 & E2 & E3). destruct (task_step t a o) as [o' new]. cbn in *.
      split_and!; cbn; [by rewrite E1| |auto]. apply Forall_app. split; [by apply Forall_delete|done].
Qed.

(** ** An update from request to reboot *)

Lemma act_last o ts t a :
  act (o, ts ++ [t]) (Go (length ts) a) = let '(o', new) := task_step t a o in (o', ts ++ new).
Proof.
  cbn. rewrite (list_lookup_middle ts [] t) by done. destruct (task_step t a o).
  by rewrite (delete_middle ts [] t), app_nil_r.
Qed.

Definition with_fetch (f : Fetch) (a : Answers) : Answers :=
  mkAnswers (a_reads a) (a_removes a) f (a_session a) (a_elapsed a) (a_mkdir a) (a_spawns a) (a_exit a)
    (a_due a) (a_stale a) (a_version a) (a_cloud a).

(** The steps of one update, the download first writing [content]. *)
Definition update_steps (n : nat) (a : Answers) (content : list Z) : list Action :=
  Go n <$> [a; a; with_fetch (FetchWrite content) a; with_fetch FetchDone a; a; a; a; a; a].

Lemma run_go o ts t a o' new xs :
  task_step t a o = (o', new) -> ota_run (o, ts ++ [t]) (Go (length ts) a :: xs) = ota_run (o', ts ++ new) xs.
Proof. intros E. unfold ota_run. cbn [fold_left]. by rewrite act_last, E. Qed.

Lemma run_do o ts op o' new xs :
  op_step false op o = (o', new) -> ota_run (o, ts) (Do false op :: xs) = ota_run (o', ts ++ new) xs.
Proof. intros E. unfold ota_run. cbn [fold_left act]. by rewrite E. Qed.

(** A probe looks at the package alone. *)
Lemma need_download_only sig a o : ∃ p, ∀ o', package o' = package o -> need_download a sig o' = (with_package p o', (need_download a sig o).2).
Proof.
  assert (Hsame : ∀ (o' : OTA) q, package o' = q -> o' = with_package q o') by (by intros [] ? <-).
  unfold need_download, remove_package. destruct (package o) as [c|]; [|exists None; intros o' E; rewrite E; f_equal; auto].
  exists (if match calculate_file_sha256 (a_reads a) c with Ok hex => is_ok (verify_package sig hex) | Err _ => false end
          then Some c else if a_removes a then None else Some c).
  intros o' E. rewrite E. destruct (calculate_file_sha256 (a_reads a) c); [destruct (is_ok _)|]; destruct (a_removes a); f_equal; auto.
Qed.


(** What a user asks for is installed: when no update is on its way and the
    cloud has told of a release, the request starts a task which, left to run
    alone with a disk that can be read and commands that succeed, replaces a
    package that does not verify by the one the server has, and - however often
    the download broke off - if the download reports success and the release is
    signed, hands exactly that file to the update command, reboots, and leaves
    no task behind; the flags of a waiting and of a running update are down
    again.  (That the user asked stays noted for good, see
    [request_is_never_forgotten].) *)
Theorem asked_update_installs o ts info os_url sig file server disk content h a :
  OTA_INFO o = Some info -> system_url info = Some os_url -> system_hash_signature info = Some sig ->
  AUTO_UPDATE_WAITTING o = false -> OTA_UPDATEING o = false ->
  (need_download a sig o).2 = true ->
  serves file server ->
  download_file server disk (download_fuel file) (Ok (Z.of_nat (length file))) sha256_hex = Some (Some content, Ok h) ->
  verify_package sig (sha256_hex file) = Ok tt ->
  a_reads a = true -> a_mkdir a = true -> a_spawns a = true -> a_exit a = true ->
  ∃ o', ota_run (o, ts) (Do false TryUpdateByUser :: update_steps (length ts) a content) = (o', ts)
    /\ ota_log o' = ota_log o ++ [Launch sig (Some file) true (AUTO_UPDATE_SWITCH o) (a_session a) (a_elapsed a); Command (Some file); Reboot]
    /\ AUTO_UPDATE_WAITTING o' = false /\ OTA_UPDATEING o' = false /\ package o' = Some file.
Proof.
  intros HI Hurl Hsig Hw Hu Hneed Hserves Hdl Hver Hr Hmk Hsp Hex.
  destruct (download_file_exact file server disk sha256_hex Hserves) as (c & r & E & _ & Hok).
  rewrite Hdl in E. simplify_eq. destruct (Hok h eq_refl) as [-> ->].
  destruct (need_download_only sig a o) as [p Hp]. rewrite Hneed in Hp.
  unfold update_steps. cbn [fmap list_fmap].
  erewrite run_do by (cbn; unfold try_update_by_user, ready_update; cbn; by rewrite Hw).
  erewrite run_go by (cbn; by rewrite HI, Hurl, Hsig).
  erewrite run_go by (cbn; by rewrite Hp).
  erewrite run_go by reflexivity.
  erewrite run_go by (cbn; unfold calculate_file_sha256; rewrite Hr; cbn; by rewrite Hver).
  erewrite run_go by (cbn; by unfold wait_turn).
  erewrite run_go by (cbn; unfold try_install; cbn; by rewrite Hu, andb_false_r).
  destruct (package_root o) eqn:Hroot;
    (erewrite run_go by (cbn; by rewrite ?Hroot, ?Hmk));
    (erewrite run_go by (cbn; by rewrite Hsp)); (erewrite run_go by (cbn; by rewrite Hex));
    rewrite app_nil_r; eexists; (split; [reflexivity|]); cbn; by rewrite <- !app_assoc.
Qed.
End proofs.
