(* ===== verification/FileTree.v ===== *)
(** * A directory tree behind std::fs

    The calls of [std::fs] and [tokio::fs] that the file transfer drive makes,
    on a tree of directories and files.  A path is the list of its names below
    the mount point, with whether it ends in a slash.  Each call that can fail for
    reasons outside the tree - the medium, the kernel, lack of space - takes its
    outcome from a script; a script that has run out lets every call succeed. *)

From S2P Require Import Prelude StateLaws.

Inductive Node : Type := Dir | File (content : list Z).

#[export] Instance Node_eq_dec : EqDecision Node.
Proof. solve_decision. Defined.

(** A call succeeds; a write takes at most [n] bytes; a call fails; a write takes
    at most [n] bytes, but the thread that writes them in the background fails
    after [j]. *)
Inductive Outcome : Type := Fine | Short (n : nat) | Fault | Lost (n j : nat).

Abbreviation Tree := (gmap (list string) Node).

Record Disk := mkDisk { tree : Tree; script : list Outcome }.

Definition Fs (A : Type) : Type := SE Disk string A.

(** A path below the mount point; a slash at its end. *)
Definition OsPath : Type := list string * bool.

(** The mount point itself is a directory. *)
Definition node_at (t : Tree) (p : list string) : option Node :=
  match p with [] => Some Dir | _ => t !! p end.

Definition is_dir (o : option Node) : bool := match o with Some Dir => true | _ => false end.

Definition parent (p : list string) : list string := removelast p.

Definition with_tree (f : Tree -> Tree) : Fs unit := se_modify (fun d => mkDisk (f (tree d)) (script d)).

Definition next : Fs Outcome :=
  fun d => (mkDisk (tree d) (tail (script d)), Ok (default Fine (head (script d)))).

(** A call that is not a write. *)
Definition call (failure : string) : Fs unit :=
  let! o := next in match o with Fault => se_throw failure | _ => se_ret tt end.

Definition look (p : list string) : Fs (option Node) := se_get (fun d => node_at (tree d) p).

(** [fs::metadata]. *)
Definition metadata (failure : string) (p : OsPath) : Fs Node :=
  call failure ;;;
  let! o := look p.1 in
  match o with
  | None => se_throw failure
  | Some (File c) => if p.2 then se_throw failure else se_ret (File c)
  | Some Dir => se_ret Dir
  end.

(** [fs::create_dir_all]: the directories that are missing, from the top. *)
Fixpoint make_dirs (failure : string) (above names : list string) : Fs unit :=
  match names with
  | [] => se_ret tt
  | n :: names =>
      let p := above ++ [n] in
      let! o := look p in
      match o with
      | Some (File _) => se_throw failure
      | Some Dir => make_dirs failure p names
      | None => call failure ;;; with_tree (insert p Dir) ;;; make_dirs failure p names
      end
  end.

Definition create_dir_all (failure : string) (p : list string) : Fs unit := make_dirs failure [] p.

(** [File::open]: a directory can be opened, too. *)
Definition open_read : string -> OsPath -> Fs Node := metadata.

(** [File::create] and [OpenOptions::create(true)]. *)
Definition open_write (failure : string) (truncate : bool) (p : OsPath) : Fs unit :=
  call failure ;;;
  let! o := look p.1 in
  let! above := look (parent p.1) in
  if p.2 then se_throw failure else
  match o, above with
  | Some Dir, _ => se_throw failure
  | Some (File c), _ => if truncate then with_tree (insert p.1 (File [])) else se_ret tt
  | None, Some Dir => with_tree (insert p.1 (File []))
  | None, _ => se_throw failure
  end.

(** What a file holds; [File::read] on a directory fails. *)
Definition content_of (n : Node) : option (list Z) := match n with Dir => None | File c => Some c end.

Definition read_node (failure : string) (n : Node) : Fs (list Z) :=
  call failure ;;; se_of_result (ok_or (content_of n) failure).

(** The file with [data] at an offset; a gap is filled with zeros, as the
    kernel does. *)
Definition splice (off : nat) (data c : list Z) : list Z :=
  take off (c ++ replicate (off - length c) 0%Z) ++ data ++ drop (off + length data) c.

(** [loop { file.write(remaining) }] on a [tokio] file: the offset moves with what
    was taken.  The bytes are written in the background, before the next call on
    the file goes on; a failure there is reported by the next write ([late]: of
    the call before).  The result tells whether the last one failed: neither a
    seek nor [sync_all] reports that, only a flush or a shutdown would. *)
Fixpoint write_loop (fuel : nat) (failure none : string) (p : list string) (off : nat) (data : list Z) (late : bool) : Fs bool :=
  match data, fuel with
  | [], _ => se_ret late
  | _, O => se_throw none
  | _, S fuel =>
      if late then se_throw failure else
      let! o := next in
      let! c := look p in
      match o, c with
      | Fault, _ | _, None | _, Some Dir => se_throw failure
      | Fine, Some (File c) => with_tree (insert p (File (splice off data c))) ;;; se_ret false
      | Short O, _ | Lost O _, _ => se_throw none
      | Short n, Some (File c) =>
          with_tree (insert p (File (splice off (take n data) c))) ;;;
          write_loop fuel failure none p (off + n) (drop n data) false
      | Lost n j, Some (File c) =>
          with_tree (insert p (File (splice off (take (Nat.min j n) data) c))) ;;;
          write_loop fuel failure none p (off + n) (drop n data) true
      end
  end.

(** Every turn takes at least a byte. *)
Definition write_bytes (late : bool) (failure none : string) (p : list string) (off : nat) (data : list Z) : Fs bool :=
  write_loop (length data) failure none p off data late.

(** [fs::remove_file], [remove_dir]. *)
Definition remove_file (failure : string) (p : OsPath) : Fs unit :=
  call failure ;;;
  let! o := look p.1 in
  match o with
  | Some (File _) => if p.2 then se_throw failure else with_tree (delete p.1)
  | _ => se_throw failure
  end.

Definition children (t : Tree) (p : list string) : list (string * Node) :=
  omap (fun '(k, n) => match last k with
                       | Some name => if bool_decide (k = p ++ [name]) then Some (name, n) else None
                       | None => None
                       end) (map_to_list t).

(** [fs::read_dir], with its entries. *)
Definition read_dir (failure : string) (p : OsPath) : Fs (list (string * Node)) :=
  let! n := metadata failure p in
  match n with
  | Dir => se_get (fun d => children (tree d) p.1)
  | File _ => se_throw failure
  end.

Fixpoint each {A} (f : A -> Fs unit) (l : list A) : Fs unit :=
  match l with [] => se_ret tt | x :: l => f x ;;; each f l end.

(** [fs::remove_dir_all]: what is below, then the directory. *)
Fixpoint remove_tree (fuel : nat) (failure : string) (p : list string) : Fs unit :=
  match fuel with
  | O => se_throw failure
  | S fuel =>
      let! entries := se_get (fun d => children (tree d) p) in
      each (fun '(name, n) =>
              match n with
              | Dir => remove_tree fuel failure (p ++ [name])
              | File _ => call failure ;;; with_tree (delete (p ++ [name]))
              end) entries ;;;
      call failure ;;;
      match p with
      | [] => se_throw failure (* the mount point is busy *)
      | _ => with_tree (delete p)
      end
  end.

(** The longest path. *)
Definition depth (t : Tree) : nat := list_max (length <$> (map_to_list t).*1).

Definition remove_dir_all (failure : string) (p : OsPath) : Fs unit :=
  let! n := metadata failure p in
  match n with
  | File _ => se_throw failure
  | Dir => let! fuel := se_get (fun d => S (depth (tree d))) in remove_tree fuel failure p.1
  end.

(** [old] and what is below it, under the name [new]. *)
Fixpoint strip (old k : list string) : option (list string) :=
  match old, k with
  | [], _ => Some k
  | _, [] => None
  | a :: old, b :: k => if String.eqb a b then strip old k else None
  end.

Definition moved (old new k : list string) : list string :=
  match strip old k with Some rest => new ++ rest | None => k end.

Definition move_tree (old new : list string) (t : Tree) : Tree :=
  list_to_map ((fun '(k, n) => (moved old new k, n)) <$> map_to_list (delete new t)).

Definition is_under (p k : list string) : bool := bool_decide (is_Some (strip p k)).

(** rename(2). *)
Definition rename_node (failure : string) (old new : OsPath) : Fs unit :=
  call failure ;;;
  let! t := se_get tree in
  match old.1, new.1 with
  | [], _ | _, [] => se_throw failure
  | _, _ =>
      match node_at t old.1, node_at t new.1, node_at t (parent new.1) with
      | None, _, _ => se_throw failure
      | Some (File _), Some Dir, _ | Some Dir, Some (File _), _ => se_throw failure
      | Some n, target, above =>
          if (old.2 || new.2) && negb (is_dir (Some n)) then se_throw failure
          else if bool_decide (old.1 = new.1) then se_ret tt
          else if is_under old.1 new.1 then se_throw failure
          else if negb (is_dir above) then se_throw failure
          else if is_dir target && negb (bool_decide (children t new.1 = [])) then se_throw failure
          else with_tree (move_tree old.1 new.1)
      end
  end.

(** [fs::copy]: the source is opened, then the target is truncated. *)
Definition copy_node (failure : string) (source dest : OsPath) : Fs unit :=
  let! n := open_read failure source in
  match n with
  | Dir => se_throw failure
  | File _ =>
      open_write failure true dest ;;;
      let! now := look source.1 in
      let data := default [] (now ≫= content_of) in
      let! late := write_bytes false failure failure dest.1 0 data in
      se_guard late failure
  end.

Implicit Types (t : Tree) (d : Disk) (p q k : list string).

(** ** Paths *)

Lemma parent_app p n : parent (p ++ [n]) = p.
Proof. unfold parent. by rewrite removelast_last. Qed.

Lemma split_last p : p = [] \/ ∃ q n, p = q ++ [n].
Proof. destruct p as [|x p] using rev_ind; [by left|right; eauto]. Qed.

Lemma strip_Some p k r : strip p k = Some r <-> k = p ++ r.
Proof.
  revert k. induction p as [|a p IH]; intros k; cbn; [by split; [intros [= ->]|intros ->]|].
  destruct k as [|b k]; [done|]. destruct (String.eqb_spec a b) as [->|]; [|by split; [|intros [= ->]]].
  rewrite IH. split; [by intros ->|by intros [= ->]].
Qed.

Lemma strip_refl p : strip p p = Some [].
Proof. apply strip_Some. by rewrite app_nil_r. Qed.

Lemma under_spec p k : is_under p k = true <-> ∃ r, k = p ++ r.
Proof.
  unfold is_under. rewrite bool_decide_eq_true. split.
  - intros [r Hr]. exists r. by apply strip_Some.
  - intros [r ->]. exists r. by apply strip_Some.
Qed.

Lemma under_refl p : is_under p p = true.
Proof. apply under_spec. exists []. by rewrite app_nil_r. Qed.

Lemma under_child p n r : is_under p (p ++ n :: r) = true.
Proof. apply under_spec. eauto. Qed.

Lemma not_under p k : is_under p k = false <-> strip p k = None.
Proof. unfold is_under. rewrite bool_decide_eq_false, eq_None_not_Some. done. Qed.

(** ** Well-formed trees *)

(** The mount point is no entry, and every entry lies in a directory. *)
Definition closed t : Prop := t !! [] = None /\ ∀ p n, t !! p = Some n -> node_at t (parent p) = Some Dir.

Lemma node_at_cons t p : p <> [] -> node_at t p = t !! p.
Proof. by destruct p. Qed.

Lemma node_at_insert t p q n : p <> [] -> node_at (<[p := n]> t) q = if decide (p = q) then Some n else node_at t q.
Proof.
  intros Hp. destruct q as [|a q]; unfold node_at; [by destruct (decide (p = []))|].
  destruct (decide (p = a :: q)) as [->|]; [by rewrite lookup_insert_eq|by rewrite lookup_insert_ne].
Qed.

Lemma node_at_delete t p q : q <> p -> node_at (delete p t) q = node_at t q.
Proof. intros Hq. destruct q; unfold node_at; [done|]. by rewrite lookup_delete_ne. Qed.

Lemma parent_ne p : p <> [] -> parent p <> p.
Proof.
  intros Hp E. destruct (split_last p) as [|(q & n & ->)]; [done|]. rewrite parent_app in E.
  apply (f_equal length) in E. rewrite length_app in E. cbn in E. lia.
Qed.

(** An entry whose parent is [p] makes [p] a directory. *)
Lemma closed_insert t p n :
  closed t -> p <> [] -> node_at t (parent p) = Some Dir -> (node_at t p = Some Dir -> n = Dir) -> closed (<[p := n]> t).
Proof.
  intros [H0 Hc] Hp Hpar Hn. split; [by rewrite lookup_insert_ne|]. intros q m. rewrite lookup_insert_Some, node_at_insert by done.
  intros [[<- <-]|[Hne Hq]].
  - rewrite decide_False; [done|]. intros E. by apply (parent_ne p Hp).
  - specialize (Hc q m Hq). destruct (decide (p = parent q)) as [E|]; [|done]. rewrite <- E in Hc. f_equal. by apply Hn.
Qed.

Lemma closed_delete t p :
  closed t -> (∀ q n, t !! q = Some n -> parent q <> p) -> closed (delete p t).
Proof.
  intros [H0 Hc] Hp. split; [by rewrite lookup_delete_None; right|]. intros q n [Hne Hq]%lookup_delete_Some.
  rewrite node_at_delete by eauto. by apply (Hc q n).
Qed.

(** A file has nothing below it. *)
Lemma closed_file t p c q n : closed t -> t !! p = Some (File c) -> t !! q = Some n -> parent q <> p.
Proof.
  intros [H0 Hc] Hp Hq E. specialize (Hc q n Hq). rewrite E in Hc. destruct p; cbn in Hc; [congruence|]. congruence.
Qed.

(** Everything above an entry is a directory. *)
Lemma closed_above t p r n : closed t -> r <> [] -> t !! (p ++ r) = Some n -> node_at t p = Some Dir.
Proof.
  intros Hc. revert n. induction r as [|x r IH] using rev_ind; intros n Hr Hp; [done|]. rewrite app_assoc in Hp.
  apply (proj2 Hc) in Hp. rewrite parent_app in Hp. destruct r as [|y r']; [by rewrite app_nil_r in Hp|].
  apply (IH Dir); [done|]. rewrite node_at_cons in Hp; [done|]. by destruct p.
Qed.

(** ** Calls *)

Definition safe_tree d : Prop := closed (tree d).

Ltac fs_unfold := se_unfold; unfold look, with_tree, next, se_modify, se_get; cbn.

Lemma call_tree f d : tree (call f d).1 = tree d.
Proof. unfold call. fs_unfold. by destruct (script d) as [|[]]. Qed.

Lemma call_keeps (P : Disk -> Prop) f : (∀ d s, P d -> P (mkDisk (tree d) s)) -> keeps P (call f).
Proof. intros HP d Hd. unfold call. fs_unfold. destruct (script d) as [|[]]; by apply HP. Qed.

(** A successful call has changed only the script. *)
Lemma call_ok f d d' : call f d = (d', Ok tt) -> tree d' = tree d.
Proof. intros E. pose proof (call_tree f d) as H. by rewrite E in H. Qed.

Lemma metadata_spec f (p : OsPath) d :
  tree (metadata f p d).1 = tree d /\ ∀ n, (metadata f p d).2 = Ok n -> node_at (tree d) p.1 = Some n.
Proof.
  unfold metadata, se_bind. pose proof (call_tree f d) as Hc. destruct (call f d) as [d1 [u|e]]; cbn in *; [|by split].
  unfold look, se_get. rewrite Hc. destruct (node_at (tree d) p.1) as [[|c]|]; cbn; [|destruct p.2; cbn|]; split; try done;
    by intros n [= <-].
Qed.

(** ** Making directories *)

Lemma make_dirs_spec f above rest d :
  closed (tree d) -> node_at (tree d) above = Some Dir ->
  let '(d', r) := make_dirs f above rest d in
  closed (tree d') /\ (∀ q n, node_at (tree d) q = Some n -> node_at (tree d') q = Some n)
  /\ (∀ q, node_at (tree d') q <> node_at (tree d) q -> node_at (tree d') q = Some Dir /\ is_under q (above ++ rest) = true)
  /\ (r = Ok tt -> node_at (tree d') (above ++ rest) = Some Dir).
Proof.
  revert above d. induction rest as [|n rest IH]; intros above d Hc Ha; cbn [make_dirs].
  { cbn. rewrite app_nil_r. by split_and!. }
  unfold se_bind at 1, look, se_get. destruct (node_at (tree d) (above ++ [n])) as [[|c]|] eqn:En.
  - specialize (IH _ d Hc En). rewrite <- app_assoc in IH. exact IH.
  - cbn. by split_and!.
  - unfold se_bind at 1. pose proof (call_tree f d) as Hcall. destruct (call f d) as [d1 [u|e]]; cbn in Hcall.
    2: { rewrite Hcall. by split_and!. }
    unfold se_bind, with_tree, se_modify. rewrite Hcall.
    assert (Hne : above ++ [n] <> []) by by destruct above.
    assert (Hc1 : closed (<[above ++ [n] := Dir]> (tree d))) by (apply closed_insert; [done|done|by rewrite parent_app|done]).
    specialize (IH (above ++ [n]) (mkDisk (<[above ++ [n] := Dir]> (tree d)) (script d1)) Hc1).
    cbn [tree] in IH. rewrite node_at_insert, decide_True in IH by done. specialize (IH eq_refl). rewrite <- app_assoc in IH.
    destruct (make_dirs _ _ _ _) as [d' r]. cbn [fst snd]. destruct IH as (H1 & H2 & H3 & H4). split_and!; [done| | |done].
    + intros q m Hq. apply H2. rewrite node_at_insert by done. case_decide as E; [|done]. subst. congruence.
    + intros q Hq. destruct (decide (q = above ++ [n])) as [->|E].
      * split; [|apply under_spec; exists rest; by rewrite <- app_assoc]. apply H2. rewrite node_at_insert by done. by rewrite decide_True.
      * apply H3. by rewrite node_at_insert, decide_False.
Qed.

(** ** Opening for writing *)

(** On success there is a file - empty if it was new or was truncated -, and
    nothing else has changed. *)
Lemma open_write_spec f b (p : OsPath) d :
  closed (tree d) ->
  let '(d', r) := open_write f b p d in
  closed (tree d') /\ (∀ q, q <> p.1 -> node_at (tree d') q = node_at (tree d) q)
  /\ (r <> Ok tt -> tree d' = tree d)
  /\ (r = Ok tt -> p.1 <> [] /\ node_at (tree d) p.1 <> Some Dir
      /\ node_at (tree d') p.1 = Some (File (if b then [] else default [] (node_at (tree d) p.1 ≫= content_of)))).
Proof.
  intros Hc. unfold open_write, se_bind. pose proof (call_tree f d) as Hcall. destruct (call f d) as [d1 [u|e]]; cbn in Hcall.
  2: { rewrite Hcall. by split_and!. }
  unfold look, se_get. rewrite Hcall. destruct p as [p slash]. cbn [fst snd].
  destruct slash; [unfold se_throw; rewrite Hcall; by split_and!|].
  destruct (node_at (tree d) p) as [[|c]|] eqn:En.
  - unfold se_throw. rewrite Hcall. by split_and!.
  - assert (Hp : p <> []) by (by intros ->). destruct b.
    + cbn. rewrite Hcall. pose proof En as Hl. rewrite node_at_cons in Hl by done. split_and!; try done.
      * apply closed_insert; try done; [by apply (proj2 Hc) in Hl|congruence].
      * intros q Hq. by rewrite node_at_insert, decide_False.
      * intros _. split_and!; try done. by rewrite node_at_insert, decide_True.
    + cbn. rewrite Hcall. split_and!; try done.
  - assert (Hp : p <> []) by (by intros ->).
    destruct (node_at (tree d) (parent p)) as [[|]|] eqn:Epar; [|unfold se_throw; rewrite Hcall; by split_and!..].
    cbn. rewrite Hcall. split_and!; try done.
    + apply closed_insert; try done. congruence.
    + intros q Hq. by rewrite node_at_insert, decide_False.
    + intros _. split_and!; try done. rewrite node_at_insert, decide_True by done. by destruct b.
Qed.

(** ** Writing *)

Lemma splice_nil off c : off <= length c -> splice off [] c = c.
Proof. intros H. unfold splice. replace (off - length c) with 0 by lia. cbn. by rewrite Nat.add_0_r, app_nil_r, take_drop. Qed.

Lemma splice_append (c data : list Z) : splice (length c) data c = c ++ data.
Proof.
  unfold splice. rewrite Nat.sub_diag. cbn. rewrite app_nil_r, take_ge, drop_ge, app_nil_r by lia. done.
Qed.

Lemma splice_length off data c : length (splice off data c) = Nat.max (length c) (off + length data).
Proof. unfold splice. rewrite !length_app, length_take, length_drop, length_app, length_replicate. lia. Qed.

(** Written in two pieces. *)
Lemma splice_pieces off a b c : splice (off + length a) b (splice off a c) = splice off (a ++ b) c.
Proof.
  unfold splice at 1. rewrite splice_length.
  replace (off + length a - Nat.max (length c) (off + length a)) with 0 by lia. cbn [replicate]. rewrite app_nil_r.
  unfold splice. set (c' := c ++ _). assert (Hc' : off <= length c') by (unfold c'; rewrite length_app, length_replicate; lia).
  assert (Hlen : length (take off c' ++ a) = off + length a) by (rewrite length_app, length_take; lia).
  rewrite (app_assoc (take off c') a), length_app, take_app_length' by done.
  rewrite drop_app_ge by lia. rewrite Hlen, drop_drop, <- !app_assoc.
  by replace (off + length a + (off + length a + length b - (off + length a))) with (off + (length a + length b)) by lia.
Qed.

(** Reading back what was written. *)
Lemma splice_read off data c : take (length data) (drop off (splice off data c)) = data.
Proof.
  unfold splice. set (c' := c ++ _). assert (Hc' : off <= length c') by (unfold c'; rewrite length_app, length_replicate; lia).
  rewrite drop_app_length' by (rewrite length_take; lia). by rewrite take_app_length.
Qed.

Lemma splice_gap off data (c : list Z) :
  length c <= off -> splice off data (c ++ replicate (off - length c) 0%Z) = splice off data c.
Proof.
  intros H. unfold splice. rewrite length_app, length_replicate. replace (off - (length c + (off - length c))) with 0 by lia.
  cbn. rewrite app_nil_r. f_equal. f_equal. rewrite !drop_ge; [done|lia|rewrite length_app, length_replicate; lia].
Qed.

(** A loop of writes leaves the file with some of the bytes, with all of them
    on a success that nothing is late of, and touches nothing else. *)
Lemma write_loop_late fuel f z p off data d :
  let '(d', r) := write_loop fuel f z p off data true d in tree d' = tree d /\ r <> Ok false.
Proof. destruct data as [|b data], fuel; by cbn. Qed.

Lemma write_loop_spec fuel f z p off data late c d :
  closed (tree d) -> node_at (tree d) p = Some (File c) -> length data <= fuel ->
  let '(d', r) := write_loop fuel f z p off data late d in
  (∃ k : nat, k <= length data /\ (tree d' = tree d /\ k = 0 \/ tree d' = <[p := File (splice off (take k data) c)]> (tree d))
        /\ (r = Ok false -> k = length data)).
Proof.
  revert off data late c d. induction fuel as [|fuel IH]; intros off data late c d Hc Hp Hf.
  { destruct data; [|cbn in Hf; lia]. cbn. exists 0. auto. }
  destruct data as [|b data]; [cbn; exists 0; auto|]. cbn [write_loop]. set (l := b :: data) in *.
  destruct late; [cbn; exists 0; split; [lia|]; by split; [left|]|].
  unfold se_bind at 1, next. unfold se_bind at 1, look, se_get. cbn [tree]. rewrite Hp.
  assert (Hpn : p <> []) by (by intros ->).
  destruct (default Fine (head (script d))) as [|[|n]| |[|n] j]; cbn [fst snd].
  - cbn. exists (length l). split; [done|]. rewrite firstn_all. split; [by right|done].
  - cbn. exists 0. split; [lia|]. split; [by left|done].
  - unfold se_bind, with_tree, se_modify. cbn [tree script].
    set (d1 := mkDisk _ _). set (a := take (S n) l).
    assert (Ha : take (S n) l ++ drop (S n) l = l) by apply take_drop.
    assert (Hc1 : closed (tree d1)).
    { cbn. apply closed_insert; [done|done| |congruence]. rewrite node_at_cons in Hp by done. by apply (proj2 Hc) in Hp. }
    assert (Hp1 : node_at (tree d1) p = Some (File (splice off a c))) by (cbn; by rewrite node_at_insert, decide_True).
    destruct (decide (S n <= length l)) as [Hn|Hn].
    + specialize (IH (off + S n) (drop (S n) l) false _ d1 Hc1 Hp1). rewrite length_drop in IH.
      specialize (IH ltac:(cbn in Hf |- *; lia)). destruct (write_loop _ _ _ _ _ _ _ d1) as [d' r].
      destruct IH as (k & Hk & Ht & Hr). assert (Hla : length a = S n) by (unfold a; rewrite length_take; lia).
      exists (S n + k). split; [lia|]. split; [|intros E; specialize (Hr E); lia]. right. destruct Ht as [[-> ->]| ->].
      * by rewrite Nat.add_0_r.
      * cbn [tree d1]. rewrite insert_insert_eq, <- take_take_drop. fold a. by rewrite <- splice_pieces, Hla.
    + rewrite (drop_ge l) by lia. assert (Hal : a = l) by (unfold a; apply take_ge; lia).
      replace (write_loop fuel f z p (off + S n) [] false d1) with (d1, Ok (E := string) false) by (by destruct fuel).
      exists (length l). split; [done|]. rewrite firstn_all. split; [right; unfold d1; fold a; by rewrite Hal|done].
  - cbn. exists 0. split; [lia|]. split; [by left|done].
  - cbn. exists 0. split; [lia|]. split; [by left|done].
  - unfold se_bind, with_tree, se_modify. cbn [tree script]. set (d1 := mkDisk _ _).
    pose proof (write_loop_late fuel f z p (off + S n) (drop (S n) l) d1) as Hl.
    destruct (write_loop _ _ _ _ _ _ true d1) as [d' r]. destruct Hl as [-> Hr].
    set (a := Nat.min j (S n)). assert (Ha : take (Nat.min a (length l)) l = take a l).
    { destruct (decide (a <= length l)); [f_equal; lia|]. by rewrite !take_ge by lia. }
    exists (Nat.min a (length l)). rewrite Ha. split; [lia|]. by split; [right|].
Qed.

Lemma write_bytes_spec late f z p off data c d :
  closed (tree d) -> node_at (tree d) p = Some (File c) ->
  let '(d', r) := write_bytes late f z p off data d in
  closed (tree d') /\ (∀ q, q <> p -> node_at (tree d') q = node_at (tree d) q)
  /\ (∃ c', node_at (tree d') p = Some (File c'))
  /\ (off <= length c -> ∃ k : nat, node_at (tree d') p = Some (File (splice off (take k data) c))
        /\ (r = Ok false -> k = length data)).
Proof.
  intros Hc Hp. pose proof (write_loop_spec (length data) f z p off data late c d Hc Hp ltac:(done)) as Hw.
  unfold write_bytes. destruct (write_loop _ _ _ _ _ _ _ _) as [d' r]. destruct Hw as (k & Hk & Ht & Hr).
  assert (Hpn : p <> []) by (by intros ->).
  destruct Ht as [[E ->]|E]; rewrite E.
  - split_and!; [done|done|by exists c|]. intros Hoff. exists 0. rewrite take_0, splice_nil by done. auto.
  - split_and!.
    + apply closed_insert; [done|done| |congruence]. rewrite node_at_cons in Hp by done. by apply (proj2 Hc) in Hp.
    + intros q Hq. by rewrite node_at_insert, decide_False.
    + eexists. by rewrite node_at_insert, decide_True.
    + intros Hoff. exists k. rewrite node_at_insert, decide_True by done. auto.
Qed.

(** ** Removing *)

Lemma children_spec t p n m : (n, m) ∈ children t p <-> t !! (p ++ [n]) = Some m.
Proof.
  unfold children. rewrite list_elem_of_omap. split.
  - intros ([k m'] & Hk & E). apply elem_of_map_to_list in Hk. destruct (last k) as [x|]; [|done].
    case_bool_decide as Hkx; [|done]. by simplify_eq.
  - intros Hp. exists (p ++ [n], m). rewrite elem_of_map_to_list, last_snoc. split; [done|]. by rewrite bool_decide_true.
Qed.

(** What a removal of [p] leaves: a well-formed tree, everything outside [p],
    nothing new; nothing of [p] if it succeeds. *)
Definition removed (p : list string) d d' (r : Result string unit) : Prop :=
  closed (tree d') /\ (∀ q, is_under p q = false -> tree d' !! q = tree d !! q)
  /\ (∀ q n, tree d' !! q = Some n -> tree d !! q = Some n)
  /\ (r = Ok tt -> ∀ q, is_under p q = true -> tree d' !! q = None).

Lemma remove_file_spec f (p : OsPath) d :
  closed (tree d) -> let '(d', r) := remove_file f p d in
  removed p.1 d d' r /\ (r <> Ok tt -> tree d' = tree d).
Proof.
  intros Hc. assert (Hsame : ∀ d' e, tree d' = tree d -> removed p.1 d d' (Err e)).
  { intros d' e E. unfold removed. rewrite E. by split_and!. }
  unfold remove_file, se_bind. pose proof (call_tree f d) as Hcall. destruct (call f d) as [d1 [u|e]]; cbn in Hcall; [|split; [by apply Hsame|done]].
  unfold look, se_get. rewrite Hcall.
  destruct (node_at (tree d) p.1) as [[|c]|] eqn:En; [split; [by apply Hsame|done]| |split; [by apply Hsame|done]].
  destruct p.2; [split; [by apply Hsame|done]|]. assert (Hp : p.1 <> []) by (intros E; by rewrite E in En). rewrite node_at_cons in En by done.
  cbn. rewrite Hcall. split; [|done]. split_and!.
  - apply closed_delete; [done|]. intros q n Hq. by eapply closed_file.
  - intros q Hq. cbn. apply lookup_delete_ne. intros <-. by rewrite under_refl in Hq.
  - intros q n. cbn. by intros [_ ?]%lookup_delete_Some.
  - intros _ q [r ->]%under_spec. cbn. destruct r as [|x r]; [rewrite app_nil_r; apply lookup_delete_eq|].
    apply lookup_delete_None. right. destruct (tree d !! (p.1 ++ x :: r)) eqn:E; [|done].
    apply (closed_above (tree d) p.1) in E; [|done|done]. rewrite node_at_cons in E by done. congruence.
Qed.

Lemma removed_trans p q d d1 d2 r1 r2 :
  is_under p q = true -> removed q d d1 r1 -> removed p d1 d2 r2 -> removed p d d2 r2.
Proof.
  intros [r ->]%under_spec (H1 & H2 & H3 & _) (G1 & G2 & G3 & G4). split_and!; [done| |by eauto|done].
  intros k Hk. rewrite G2 by done. apply H2. destruct (is_under (p ++ r) k) eqn:E; [|done].
  apply under_spec in E as [r' ->]. rewrite <- app_assoc in Hk. assert (is_under p (p ++ r ++ r') = true) by (apply under_spec; eauto). congruence.
Qed.

(** Some of what is below [p] has gone, [p] itself has not. *)
Definition thinned (p : list string) d d' : Prop :=
  closed (tree d') /\ (∀ q, is_under p q = false -> tree d' !! q = tree d !! q)
  /\ (∀ q n, tree d' !! q = Some n -> tree d !! q = Some n) /\ tree d' !! p = tree d !! p.

Lemma thinned_refl p d d' : closed (tree d) -> tree d' = tree d -> thinned p d d'.
Proof. intros Hc E. unfold thinned. rewrite E. by split_and!. Qed.

Lemma thinned_trans p d d1 d2 : thinned p d d1 -> thinned p d1 d2 -> thinned p d d2.
Proof.
  intros (H1 & H2 & H3 & H4) (G1 & G2 & G3 & G4). split_and!; [done| |by eauto|congruence].
  intros q Hq. rewrite G2, H2; done.
Qed.

Lemma removed_thinned p n d d' r : removed (p ++ [n]) d d' r -> thinned p d d'.
Proof.
  intros (H1 & H2 & H3 & _). split_and!; [done| |done|].
  - intros q Hq. apply H2. destruct (is_under (p ++ [n]) q) eqn:E; [|done].
    apply under_spec in E as [r' ->]. rewrite <- app_assoc in Hq. cbn in Hq. by rewrite under_child in Hq.
  - apply H2. apply not_under. destruct (strip (p ++ [n]) p) as [r'|] eqn:E; [|done]. apply strip_Some in E.
    apply (f_equal length) in E. rewrite !length_app in E. cbn in E. lia.
Qed.

Lemma removed_later p q d d1 d2 r : removed q d d1 r -> r = Ok tt -> thinned p d1 d2 ->
  ∀ k, is_under q k = true -> tree d2 !! k = None.
Proof.
  intros (_ & _ & _ & H) Hr (_ & _ & G & _) k Hk. destruct (tree d2 !! k) eqn:E; [|done]. apply G in E.
  by rewrite (H Hr k Hk) in E.
Qed.

(** Deleting an entry without children. *)
Lemma delete_removed f (p : list string) d :
  closed (tree d) -> p <> [] -> (∀ x m, tree d !! (p ++ [x]) = Some m -> False) ->
  let '(d', r) := (call f ;;; with_tree (delete p)) d in removed p d d' r.
Proof.
  intros Hc Hp Hno. unfold se_bind. pose proof (call_tree f d) as Hcall. destruct (call f d) as [d1 [u|e]]; cbn in Hcall.
  2: { unfold removed. rewrite Hcall. by split_and!. }
  cbn. unfold removed. cbn. rewrite Hcall. split_and!.
  - apply closed_delete; [done|]. intros q n Hq E. destruct (split_last q) as [->|(q' & x & ->)]; [by rewrite (proj1 Hc) in Hq|].
    rewrite parent_app in E. subst. eauto.
  - intros q Hq. apply lookup_delete_ne. intros <-. by rewrite under_refl in Hq.
  - by intros q n [_ ?]%lookup_delete_Some.
  - intros _ q [r ->]%under_spec. destruct r as [|x r]; [rewrite app_nil_r; apply lookup_delete_eq|].
    apply lookup_delete_None. right. destruct (tree d !! (p ++ x :: r)) as [m|] eqn:E; [|done]. exfalso.
    destruct r as [|y r]; [by eapply Hno|]. replace (p ++ x :: y :: r) with ((p ++ [x]) ++ y :: r) in E by (by rewrite <- app_assoc).
    apply closed_above in E; [|done|done]. rewrite node_at_cons in E by (by destruct p). by eapply Hno.
Qed.

Lemma remove_tree_spec fuel f (p : list string) d :
  closed (tree d) ->
  (∀ k n, tree d !! k = Some n -> is_under p k = true -> length k < length p + fuel) ->
  let '(d', r) := remove_tree fuel f p d in removed p d d' r.
Proof.
  revert p d. induction fuel as [|fuel IH]; intros p d Hc Hlen; [by split_and!|]. cbn [remove_tree].
  unfold se_bind at 1, se_get. set (body := fun '(name, n) => match n with Dir => _ | File _ => _ end).
  assert (Heach : ∀ l d0, thinned p d d0 -> (∀ x m, (x, m) ∈ l -> tree d !! (p ++ [x]) = Some m) ->
    let '(d1, r) := each body l d0 in
    thinned p d0 d1 /\ (r = Ok tt -> ∀ x m q, (x, m) ∈ l -> is_under (p ++ [x]) q = true -> tree d1 !! q = None)).
  { induction l as [|[x m] l IHl]; intros d0 Hd0 Hl; cbn [each].
    { cbn. split; [by apply thinned_refl; [apply Hd0|]|]. intros _ x m q Hx. by apply elem_of_nil in Hx. }
    assert (Hb : let '(d1, r) := body (x, m) d0 in removed (p ++ [x]) d0 d1 r).
    { cbn [body]. pose proof Hd0 as (Hc0 & _ & Hsub & _). destruct m as [|c].
      - apply IH; [done|]. intros k n Hk Hu. rewrite length_app. cbn.
        assert (is_under p k = true) by (apply under_spec in Hu as [r ->]; rewrite <- app_assoc; apply under_child).
        specialize (Hlen k n (Hsub _ _ Hk) ltac:(done)). lia.
      - apply delete_removed; [done|by destruct p|]. intros y n Hy. pose proof (Hl x (File c) ltac:(left)) as Hx.
        apply Hsub in Hy. apply (proj2 (conj I (proj2 Hc))) in Hy. rewrite parent_app, node_at_cons in Hy by (by destruct p). congruence. }
    unfold se_bind. destruct (body (x, m) d0) as [d1 [u|e]]; [|split; [by eapply removed_thinned|done]].
    pose proof (removed_thinned _ _ _ _ _ Hb) as Hth. assert (Hl' : ∀ y n, (y, n) ∈ l -> tree d !! (p ++ [y]) = Some n) by (intros; apply Hl; by right).
    specialize (IHl d1 (thinned_trans _ _ _ _ Hd0 Hth) Hl'). destruct (each body l d1) as [d2 r]. destruct IHl as [H1 H2].
    split; [by eapply thinned_trans|]. intros Hr y n q [[= -> ->]|Hy]%elem_of_cons Hq; [|by eapply H2].
    destruct u. by eapply removed_later. }
  specialize (Heach (children (tree d) p) d (thinned_refl _ _ _ Hc eq_refl) (fun x m => proj1 (children_spec _ _ _ _))).
  unfold se_bind at 1. destruct (each body _ d) as [d1 [u|e]]; destruct Heach as [(H1 & H2 & H3 & H4) H5]; [|by split_and!].
  destruct (decide (p = [])) as [->|Hp].
  { unfold se_bind. pose proof (call_tree f d1) as Hcall. destruct (call f d1) as [d2 [v|e]]; cbn in Hcall |- *;
      unfold removed; rewrite Hcall; by split_and!. }
  assert (Hend : match p with [] => se_throw f | _ => with_tree (delete p) end = with_tree (delete p)) by (by destruct p).
  rewrite Hend. clear Hend.
  pose proof (delete_removed f p d1 H1 Hp) as Hdel. unfold se_bind in Hdel |- *.
  assert (Hno : ∀ x m, tree d1 !! (p ++ [x]) = Some m -> False).
  { intros x m Hx. rewrite (H5 ltac:(by destruct u) x m (p ++ [x])) in Hx; [done| |apply under_refl]. by apply children_spec, H3. }
  specialize (Hdel Hno). destruct (call f d1) as [d2 [v|e]]; cbn in Hdel |- *;
    destruct Hdel as (G1 & G2 & G3 & G4); (split_and!; [done| |by eauto|done]); intros q Hq; by rewrite G2, H2.
Qed.

Lemma depth_bound t k n : t !! k = Some n -> length k <= depth t.
Proof.
  intros Hk. unfold depth. set (L := length <$> (map_to_list t).*1).
  assert (Hin : In (length k) L).
  { apply list_elem_of_In, list_elem_of_fmap. exists k. split; [done|]. apply list_elem_of_fmap. exists (k, n).
    split; [done|]. by apply elem_of_map_to_list. }
  pose proof (proj1 (list_max_le L (list_max L)) (le_n _)) as H. rewrite List.Forall_forall in H. auto.
Qed.

Lemma remove_dir_all_spec f (p : OsPath) d :
  closed (tree d) -> let '(d', r) := remove_dir_all f p d in removed p.1 d d' r.
Proof.
  intros Hc. unfold remove_dir_all, se_bind at 1. pose proof (metadata_spec f p d) as [Ht _].
  destruct (metadata f p d) as [d1 [n|e]]; cbn in Ht.
  2: { unfold removed. rewrite Ht. by split_and!. }
  destruct n as [|c]; [|cbn; unfold removed; rewrite Ht; by split_and!].
  unfold se_bind at 1, se_get.
  assert (H : let '(d', r) := remove_tree (S (depth (tree d1))) f p.1 d1 in removed p.1 d1 d' r).
  { apply remove_tree_spec; [by rewrite Ht|]. intros k n Hk _. apply depth_bound in Hk. lia. }
  destruct (remove_tree _ _ _ d1) as [d' r]. unfold removed in *. rewrite Ht in H. exact H.
Qed.

(** ** Moving *)

Section move.
Context (t : Tree) (old new : list string).
Hypothesis Hc : closed t.
Hypothesis Hold : old <> [] /\ is_Some (t !! old).
Hypothesis Hnew : new <> [] /\ node_at t (parent new) = Some Dir.
Hypothesis Hout : is_under old new = false.
(** Nothing lies below the target. *)
Hypothesis Hempty : ∀ r, r <> [] -> t !! (new ++ r) = None.

Lemma moved_inj k1 k2 : is_Some (delete new t !! k1) -> is_Some (delete new t !! k2) -> moved old new k1 = moved old new k2 -> k1 = k2.
Proof.
  assert (Hcross : ∀ k r, is_Some (delete new t !! k) -> strip old k = None -> new ++ r = k -> False).
  { intros k r [n [Hk1 Hk2]%lookup_delete_Some] _ <-. destruct r; [by rewrite app_nil_r in Hk1|]. by rewrite Hempty in Hk2. }
  intros H1 H2. unfold moved. destruct (strip old k1) as [r1|] eqn:E1, (strip old k2) as [r2|] eqn:E2; try done.
  - apply strip_Some in E1 as ->, E2 as ->. by intros ->%app_inv_head.
  - intros E. by destruct (Hcross k2 r1).
  - intros E. by destruct (Hcross k1 r2).
Qed.

Lemma old_not_below : is_under new old = false.
Proof.
  destruct (is_under new old) eqn:E; [|done]. apply under_spec in E as [r Hr]. destruct Hold as [_ [n Hn]].
  destruct r as [|x r]; [|by rewrite Hr, Hempty in Hn]. rewrite app_nil_r in Hr. subst. by rewrite under_refl in Hout.
Qed.

Lemma move_lookup q :
  move_tree old new t !! q = match strip new q with
                             | Some r => t !! (old ++ r)
                             | None => match strip old q with Some _ => None | None => t !! q end
                             end.
Proof.
  unfold move_tree. set (L := _ <$> _).
  assert (Hnd : NoDup L.*1).
  { unfold L. rewrite <- list_fmap_compose. apply NoDup_fmap_2_strong; [|apply NoDup_map_to_list].
    intros [k1 n1] [k2 n2] H1%elem_of_map_to_list H2%elem_of_map_to_list E. cbn in E.
    assert (k1 = k2) as -> by (apply moved_inj; eauto). congruence. }
  assert (Hspec : ∀ n, list_to_map (M := Tree) L !! q = Some n <-> ∃ k, moved old new k = q /\ delete new t !! k = Some n).
  { intros n. rewrite <- elem_of_list_to_map by done. unfold L. rewrite list_elem_of_fmap. split.
    - intros ([k m] & [= -> ->] & Hk). exists k. split; [done|]. by apply elem_of_map_to_list.
    - intros (k & <- & Hk). exists (k, n). split; [done|]. by apply elem_of_map_to_list. }
  apply option_eq. intros n. rewrite Hspec. split.
  - intros (k & <- & [Hk1 Hk2]%lookup_delete_Some). unfold moved. destruct (strip old k) as [r|] eqn:Ek.
    + apply strip_Some in Ek as ->. by rewrite (proj2 (strip_Some new (new ++ r) r) eq_refl).
    + destruct (strip new k) as [r|] eqn:En; [|by rewrite Ek]. apply strip_Some in En as ->.
      destruct r; [by rewrite app_nil_r in Hk1|]. by rewrite Hempty in Hk2.
  - destruct (strip new q) as [r|] eqn:En.
    + apply strip_Some in En as ->. intros Hq. exists (old ++ r). unfold moved.
      rewrite (proj2 (strip_Some old (old ++ r) r) eq_refl). split; [done|]. apply lookup_delete_Some. split; [|done].
      intros E. pose proof Hout as Ho. rewrite E in Ho. assert (is_under old (old ++ r) = true) by (apply under_spec; eauto). congruence.
    + destruct (strip old q) as [r|] eqn:Eo; [done|]. intros Hq. exists q. unfold moved. rewrite Eo. split; [done|].
      apply lookup_delete_Some. split; [|done]. intros <-. by rewrite strip_refl in En.
Qed.

Lemma parent_split q r x : q = r ++ [x] -> parent q = r.
Proof. intros ->. apply parent_app. Qed.

Lemma move_closed : closed (move_tree old new t).
Proof.
  split.
  - rewrite move_lookup. destruct new as [|a new']; [by destruct Hnew|]. cbn. destruct old as [|b old']; [by destruct Hold|]. apply Hc.
  - intros q n. rewrite move_lookup. destruct (strip new q) as [r|] eqn:En.
    + apply strip_Some in En as ->. intros Hq. destruct (split_last r) as [->|(r' & x & ->)].
      * rewrite app_nil_r. destruct (split_last new) as [->|(m & x & Hm)]; [by destruct Hnew|].
        rewrite (parent_split _ _ _ Hm). destruct Hnew as [_ Hp]. rewrite (parent_split _ _ _ Hm) in Hp.
        destruct m as [|y m']; [done|]. cbn [node_at]. rewrite move_lookup. cbn [node_at] in Hp.
        destruct (strip new (y :: m')) as [r|] eqn:E1.
        { apply strip_Some, (f_equal length) in E1. rewrite Hm, !length_app in E1. cbn in E1. lia. }
        destruct (strip old (y :: m')) as [r|] eqn:E2; [|done]. apply strip_Some in E2.
        assert (is_under old new = true); [|congruence]. apply under_spec. exists (r ++ [x]). by rewrite Hm, E2, <- app_assoc.
      * rewrite app_assoc, parent_app. rewrite app_assoc in Hq. apply (proj2 Hc) in Hq. rewrite parent_app in Hq.
        rewrite node_at_cons in Hq |- * by (destruct Hold, Hnew; by destruct old, new).
        by rewrite move_lookup, (proj2 (strip_Some new (new ++ r') r') eq_refl).
    + destruct (strip old q) as [r|] eqn:Eo; [done|]. intros Hq. pose proof (proj2 Hc q n Hq) as Hp.
      destruct (split_last q) as [->|(q' & x & ->)]; [by rewrite (proj1 Hc) in Hq|]. rewrite parent_app in Hp |- *.
      destruct q' as [|y q']; [done|]. cbn [node_at] in Hp |- *. rewrite move_lookup.
      assert (Hs : ∀ p r, strip p (y :: q') = Some r -> strip p ((y :: q') ++ [x]) = Some (r ++ [x])).
      { intros p r E%strip_Some. apply strip_Some. by rewrite E, <- app_assoc. }
      destruct (strip new (y :: q')) as [r|] eqn:E1; [by rewrite (Hs _ _ E1) in En|].
      destruct (strip old (y :: q')) as [r|] eqn:E2; [by rewrite (Hs _ _ E2) in Eo|done].
Qed.
End move.

Lemma is_dir_spec o : is_dir o = true -> o = Some Dir.
Proof. by destruct o as [[|]|]. Qed.

(** The tree with [old] under the name [new]. *)
Definition moved_to (old new : list string) t q : option Node :=
  match strip new q with
  | Some r => t !! (old ++ r)
  | None => match strip old q with Some _ => None | None => t !! q end
  end.

Lemma nothing_below t (p : list string) r :
  closed t -> node_at t p <> Some Dir \/ children t p = [] -> r <> [] -> t !! (p ++ r) = None.
Proof.
  intros Hc Hp Hr. destruct (t !! (p ++ r)) as [n|] eqn:E; [|done]. exfalso. destruct Hp as [Hp|Hp].
  - by apply (closed_above t p) in E.
  - destruct r as [|x r]; [done|]. assert (Hx : is_Some (t !! (p ++ [x]))).
    { destruct r as [|y r]; [by eexists|]. replace (p ++ x :: y :: r) with ((p ++ [x]) ++ y :: r) in E by (by rewrite <- app_assoc).
      apply closed_above in E; [|done|done]. rewrite node_at_cons in E by (by destruct p). by eexists. }
    destruct Hx as [m Hm]. apply children_spec in Hm. rewrite Hp in Hm. by apply elem_of_nil in Hm.
Qed.

Lemma rename_node_spec f (old new : OsPath) d :
  closed (tree d) ->
  let '(d', r) := rename_node f old new d in
  closed (tree d') /\ (r <> Ok tt -> tree d' = tree d)
  /\ (r = Ok tt -> is_Some (tree d !! old.1) /\ (old.1 = new.1 \/ is_under old.1 new.1 = false)
      /\ ∀ q, tree d' !! q = moved_to old.1 new.1 (tree d) q).
Proof.
  intros Hc.
  assert (Hsame : ∀ d' (e : string), tree d' = tree d -> closed (tree d') /\ (Err (A := unit) e <> Ok tt -> tree d' = tree d)
    /\ (Err (A := unit) e = Ok tt -> is_Some (tree d !! old.1) /\ (old.1 = new.1 \/ is_under old.1 new.1 = false)
        /\ ∀ q, tree d' !! q = moved_to old.1 new.1 (tree d) q)).
  { intros d' e E. by rewrite E. }
  unfold rename_node, se_bind at 1. pose proof (call_tree f d) as Hcall. destruct (call f d) as [d1 [u|e]]; cbn in Hcall; [|auto].
  unfold se_bind, se_get. rewrite Hcall. destruct old as [old bo], new as [new bn]. cbn [fst snd] in *.
  destruct old as [|a old']; [by apply Hsame|]. destruct new as [|b new']; [by apply Hsame|].
  set (old := a :: old') in *. set (new := b :: new') in *.
  destruct (node_at (tree d) old) as [n|] eqn:En; [|by apply Hsame].
  assert (Hold : old <> [] /\ is_Some (tree d !! old)) by (split; [done|by exists n]).
  assert (Hgo : ∀ target, node_at (tree d) new = target -> (target = Some Dir -> n = Dir) -> 
    let '(d', r) := (if (bo || bn) && negb (is_dir (Some n)) then se_throw f
      else if bool_decide (old = new) then se_ret tt else if is_under old new then se_throw f
      else if negb (is_dir (node_at (tree d) (parent new))) then se_throw f
      else if is_dir target && negb (bool_decide (children (tree d) new = [])) then se_throw f
      else with_tree (move_tree old new)) d1 in
    closed (tree d') /\ (r <> Ok tt -> tree d' = tree d)
    /\ (r = Ok tt -> is_Some (tree d !! old) /\ (old = new \/ is_under old new = false)
        /\ ∀ q, tree d' !! q = moved_to old new (tree d) q)).
  { intros target Ht Hk. destruct (_ && negb (is_dir (Some n))); [by apply Hsame|].
    case_bool_decide as Heq.
    { cbn. rewrite Hcall. split_and!; [done|done|]. intros _. split; [apply Hold|]. split; [by left|]. intros q. unfold moved_to.
      rewrite <- Heq. destruct (strip old q) as [r|] eqn:E; [by apply strip_Some in E as ->|done]. }
    destruct (is_under old new) eqn:Hu; [by apply Hsame|].
    destruct (is_dir (node_at (tree d) (parent new))) eqn:Hpar; cbn [negb]; [apply is_dir_spec in Hpar|by apply Hsame].
    destruct (is_dir target && _) eqn:Hch; [by apply Hsame|].
    assert (Hemp : ∀ r, r <> [] -> tree d !! (new ++ r) = None).
    { intros r. apply nothing_below; [done|]. rewrite Ht. apply andb_false_iff in Hch as [Hch|Hch].
      - left. intros E. by rewrite E in Hch.
      - right. apply negb_false_iff in Hch. by apply bool_decide_eq_true in Hch. }
    cbn. rewrite Hcall. split_and!; [by apply move_closed|done|]. intros _. split; [apply Hold|]. split; [by right|].
    intros q. by apply move_lookup. }
  destruct n as [|c], (node_at (tree d) new) as [[|c']|] eqn:Et; try (by apply Hsame); by apply Hgo.
Qed.

(** ** Copying *)

Lemma copy_node_spec f (source dest : OsPath) d :
  closed (tree d) ->
  let '(d', r) := copy_node f source dest d in
  closed (tree d') /\ (∀ q, q <> dest.1 -> node_at (tree d') q = node_at (tree d) q)
  /\ (r = Ok tt -> ∃ c, node_at (tree d) source.1 = Some (File c)
        /\ node_at (tree d') dest.1 = Some (File (if bool_decide (source.1 = dest.1) then [] else c))).
Proof.
  intros Hc. unfold copy_node, open_read, se_bind at 1. pose proof (metadata_spec f source d) as [Ht Hn].
  destruct (metadata f source d) as [d1 [[|c]|e]]; cbn in Ht, Hn; try (cbn; rewrite Ht; by split_and!).
  specialize (Hn _ eq_refl). unfold se_bind at 1. pose proof (open_write_spec f true dest d1 ltac:(by rewrite Ht)) as Hw.
  destruct (open_write f true dest d1) as [d2 r]. destruct Hw as (H1 & H2 & H3 & H4). rewrite Ht in *.
  destruct r as [[]|e]; [|rewrite H3 by done; by split_and!]. destruct (H4 eq_refl) as (Hp & Hd & Hf).
  unfold se_bind, look, se_get. pose proof (write_bytes_spec false f f dest.1 0 (default [] (node_at (tree d2) source.1 ≫= content_of)) [] d2 H1 Hf) as Hb.
  destruct (write_bytes _ _ _ _ _ _ d2) as [d3 [late|e]]; destruct Hb as (G1 & G2 & _ & G4);
    [|split_and!; [done|intros q Hq; by rewrite G2, H2|done]].
  unfold se_guard. destruct late; (split_and!; [done|intros q Hq; by rewrite G2, H2|]); [done|].
  - intros _. destruct (G4 ltac:(done)) as (k & Hk & Hr). specialize (Hr eq_refl). subst k. rewrite firstn_all in Hk.
    exists c. split; [done|]. rewrite Hk. do 2 f_equal. case_bool_decide as E.
    + by rewrite E, Hf.
    + rewrite H2, Hn by done. cbn. unfold splice. cbn. by rewrite drop_nil, app_nil_r.
Qed.
