(* ===== verification/RemoteFs.v ===== *)
(** * File operations of the file transfer drive (hardware/fs_remote.rs)

    What [RemoteFs] does below its mount point once the image is mounted;
    mounting itself is in [VirtualMedia].  The reader and the writer of a stream
    work on what the file holds when they are called. *)

From S2P Require Import Prelude StateLaws Text Paths Words FileTree.

Definition MOUNT_POINT : string := FT_MOUNT_POINT.

Record FileInfo := mkFileInfo {
  fi_name : string; fi_size : Z; fi_is_file : bool; fi_is_dir : bool; fi_modified : option Z }.

Record FileSystemInfo := mkFsInfo { total_space : Z; free_space : Z; used_space : Z }.

(** The names of a path. *)
Definition names (s : string) : list string :=
  omap (fun c => match c with Normal n => Some n | _ => None end) (components s).

Definition bytes_len (l : list Z) : Z := Z.of_nat (length l).

Section remote_fs.
(** [is_mounted]; how the file system tells names apart (VFAT folds their
    case); the size it gives to a directory and the time of a change. *)
Context (is_mounted : bool) (fold_name : string -> string) (dir_len : Z) (modified : list string -> option Z).

Definition ensure_mounted : Fs unit :=
  se_guard (negb is_mounted) "Filesystem is not mounted. Call mount() first.".

(** The path of the kernel for one of the user. *)
Definition os_path (full : string) : OsPath :=
  (fold_name <$> drop (length (names MOUNT_POINT)) (names full), ends_with "/" full).

Definition resolve (user_path : string) : Fs OsPath :=
  se_of_result (result_map os_path (resolve_path MOUNT_POINT user_path)).

(** [full_path.parent()] and [create_dir_all]. *)
Definition create_parent (p : OsPath) : Fs unit := create_dir_all "Failed to create parent directory" (parent p.1).

Definition info_of (name : string) (p : list string) (n : Node) : FileInfo :=
  match n with
  | Dir => mkFileInfo name dir_len false true (modified p)
  | File c => mkFileInfo name (bytes_len c) true false (modified p)
  end.

(** ** Reading *)

Definition read_file (file_path : string) : Fs (list Z) :=
  ensure_mounted ;;;
  let! full_path := resolve file_path in
  let! file := open_read "Failed to open file for reading" full_path in
  read_node "Failed to read file contents" file.

(** [read] until the buffer is full or the file ends; every call brings at
    least a byte. *)
Fixpoint read_loop (fuel : nat) (failure : string) (off size : nat) (c : list Z) : Fs (list Z) :=
  match fuel with
  | O => se_ret []
  | S fuel =>
      if (size =? 0)%nat then se_ret [] else
      let! o := next in
      let there := take size (drop off c) in
      match o with
      | Fault => se_throw failure
      | Fine | Lost _ _ => se_ret there
      | Short n =>
          let got := take (Nat.max 1 n) there in
          if bool_decide (got = []) then se_ret [] else
          let! rest := read_loop fuel failure (off + length got) (size - length got) c in
          se_ret (got ++ rest)
      end
  end.

Definition read_file_range (file_path : string) (offset size : nat) : Fs (list Z) :=
  ensure_mounted ;;;
  let! full_path := resolve file_path in
  let! file := open_read "Failed to open file for reading" full_path in
  call "Failed to seek to offset" ;;;
  match file with
  | Dir => if (size =? 0)%nat then se_ret [] else se_throw "Failed to read file range"
  | File c => read_loop size "Failed to read file range" offset size c
  end.

(** ** Writing

    A failure of the last write is not noticed: [sync_all] waits for it and keeps
    its error for a write that does not come. *)

Definition write_file (file_path : string) (data : list Z) : Fs unit :=
  ensure_mounted ;;;
  let! full_path := resolve file_path in
  create_parent full_path ;;;
  open_write "Failed to create file for writing" true full_path ;;;
  let! _ := write_bytes false "Failed to write data to file" "Failed to write data to file" full_path.1 0 data in
  call "Failed to sync file".

(** What the open file holds. *)
Definition held (p : list string) : Fs (list Z) :=
  se_get (fun d => default [] (node_at (tree d) p ≫= content_of)).

Definition append_file (file_path : string) (data : list Z) : Fs unit :=
  ensure_mounted ;;;
  let! full_path := resolve file_path in
  create_parent full_path ;;;
  open_write "Failed to open file for appending" false full_path ;;;
  let! c := held full_path.1 in
  let! _ := write_bytes false "Failed to append data to file" "Failed to append data to file" full_path.1 (length c) data in
  call "Failed to sync file".

Definition write_file_range (file_path : string) (offset : nat) (data : list Z) : Fs nat :=
  ensure_mounted ;;;
  let! full_path := resolve file_path in
  create_parent full_path ;;;
  open_write "Failed to open file for writing" false full_path ;;;
  let! c := held full_path.1 in
  let file_size := length c in
  call "Failed to get file size" ;;;
  let! late :=
    (if (file_size <? offset)%nat
     then call "Failed to seek to end" ;;;
          write_bytes false "Failed to fill gap" "Failed to fill gap" full_path.1 file_size (replicate (offset - file_size) 0%Z)
     else se_ret false) in
  call "Failed to seek to offset" ;;;
  let! _ := write_bytes late "Failed to write data" "Failed to write any data to file" full_path.1 offset data in
  call "Failed to sync file" ;;;
  se_ret (length data).

Definition create_empty_file (file_path : string) : Fs unit :=
  ensure_mounted ;;;
  let! full_path := resolve file_path in
  create_parent full_path ;;;
  open_write "Failed to create file" true full_path.

(** ** Asking *)

(** A failed call counts as absent. *)
Definition metadata_ok (p : OsPath) : Fs (option Node) :=
  let! r := se_catch (F := string) (metadata "" p) in se_ret (result_ok r).

Definition exists_ (path : string) : Fs bool :=
  ensure_mounted ;;;
  let! full_path := resolve path in
  let! m := metadata_ok full_path in
  se_ret (bool_decide (is_Some m)).

Definition is_file (path : string) : Fs bool :=
  ensure_mounted ;;;
  let! full_path := resolve path in
  let! m := metadata_ok full_path in
  se_ret (match m with Some (File _) => true | _ => false end).

Definition is_directory (path : string) : Fs bool :=
  ensure_mounted ;;;
  let! full_path := resolve path in
  let! m := metadata_ok full_path in
  se_ret (match m with Some Dir => true | _ => false end).

Definition file_size (file_path : string) : Fs Z :=
  ensure_mounted ;;;
  let! full_path := resolve file_path in
  let! n := metadata "Failed to get file metadata" full_path in
  se_ret (fi_size (info_of "" full_path.1 n)).

Definition get_file_size (file_path : string) : Fs Z := file_size file_path.

Definition get_file_info (file_path : string) : Fs FileInfo :=
  ensure_mounted ;;;
  let! full_path := resolve file_path in
  let! n := metadata "Failed to get file metadata" full_path in
  se_ret (info_of (default "" (last full_path.1)) full_path.1 n).

Definition hidden (dir_path : string) (name : string) (n : Node) : bool :=
  match n with
  | File _ => false
  | Dir => if String.eqb dir_path "/" then String.eqb name "System Volume Information"
           else String.eqb name "." || String.eqb name ".."
  end.

(** Every entry is fetched and asked for its metadata. *)
Fixpoint list_entries (dir_path : string) (full_path : list string) (entries : list (string * Node)) : Fs (list FileInfo) :=
  call "next_entry" ;;;
  match entries with
  | [] => se_ret []
  | (name, n) :: entries =>
      call "metadata" ;;;
      let! infos := list_entries dir_path full_path entries in
      se_ret (if hidden dir_path name n then infos else info_of name (full_path ++ [name]) n :: infos)
  end.

Definition list_directory (dir_path : string) : Fs (list FileInfo) :=
  ensure_mounted ;;;
  se_guard (is_empty dir_path) "dir_path is empty" ;;;
  let! full_path := resolve dir_path in
  let! entries := read_dir "Failed to read directory" full_path in
  list_entries dir_path full_path.1 entries.

(** ** Directories, names and copies *)

Definition create_directory (dir_path : string) : Fs unit :=
  ensure_mounted ;;;
  se_guard (is_empty dir_path) "dir_path is empty" ;;;
  let! full_path := resolve dir_path in
  create_dir_all "Failed to create directory" full_path.1.

Definition delete_file (file_path : string) : Fs unit :=
  ensure_mounted ;;;
  let! full_path := resolve file_path in
  let! m := metadata_ok full_path in
  if bool_decide (is_Some m) then remove_file "Failed to delete file" full_path else se_ret tt.

Definition delete_directory (dir_path : string) : Fs unit :=
  ensure_mounted ;;;
  se_guard (is_empty dir_path) "dir_path is empty" ;;;
  let! full_path := resolve dir_path in
  remove_dir_all "Failed to delete directory" full_path.

Definition rename (old_path new_path : string) : Fs unit :=
  ensure_mounted ;;;
  let! old_full_path := resolve old_path in
  let! new_full_path := resolve new_path in
  create_parent new_full_path ;;;
  rename_node "Failed to rename" old_full_path new_full_path.

Definition copy_file (source_path dest_path : string) : Fs unit :=
  ensure_mounted ;;;
  let! source_full_path := resolve source_path in
  let! dest_full_path := resolve dest_path in
  create_parent dest_full_path ;;;
  copy_node "Failed to copy file" source_full_path dest_full_path.

(** ** Space *)

(** The second line of [df -k], in bytes. *)
Definition parse_df (output : string) : Result string (Z * Z * Z) :=
  match split_on LF (trim output) with
  | _ :: line :: _ =>
      match split_whitespace line with
      | _ :: total :: used :: available :: _ =>
          match parse_u64 total, parse_u64 used, parse_u64 available with
          | None, _, _ => Err ("Failed to parse total size: " +:+ total)
          | _, None, _ => Err ("Failed to parse used size: " +:+ used)
          | _, _, None => Err ("Failed to parse available size: " +:+ available)
          | Some t, Some u, Some a => Ok (wrap64 (t * 1024), wrap64 (u * 1024), wrap64 (a * 1024))
          end
      | _ => Err "Invalid df output format: insufficient fields"
      end
  | _ => Err "Invalid df output format"
  end.

Definition df_sizes_bytes (df : Result string string) : Result string (Z * Z * Z) :=
  result_bind df parse_df.

Definition get_filesystem_usage (df : Result string string) : Fs FileSystemInfo :=
  ensure_mounted ;;;
  let! (total_size, used_size, available_size) := se_of_result (df_sizes_bytes df) in
  se_ret (mkFsInfo total_size available_size used_size).

Definition get_total_size (df : Result string string) : Fs Z :=
  ensure_mounted ;;; let! (t, _, _) := se_of_result (df_sizes_bytes df) in se_ret t.
Definition get_used_size (df : Result string string) : Fs Z :=
  ensure_mounted ;;; let! (_, u, _) := se_of_result (df_sizes_bytes df) in se_ret u.
Definition get_available_size (df : Result string string) : Fs Z :=
  ensure_mounted ;;; let! (_, _, a) := se_of_result (df_sizes_bytes df) in se_ret a.

(** ** Streams *)

Record AsyncFileReader := mkReader { rd_chunk_size : nat; rd_position : nat; rd_file_size : nat }.

Definition create_async_reader (file_path : string) (chunk_size : nat) : Fs AsyncFileReader :=
  ensure_mounted ;;;
  let! full_path := resolve file_path in
  let! file := open_read "Failed to open file for reading" full_path in
  call "Failed to get file size" ;;;
  call "Failed to seek to beginning" ;;;
  se_ret (mkReader chunk_size 0 (Z.to_nat (fi_size (info_of "" full_path.1 file)))).

(** [file]: what the open file holds. *)
Definition read_next_chunk (r : AsyncFileReader) (file : list Z) : Fs (AsyncFileReader * option (list Z)) :=
  if (rd_file_size r <=? rd_position r)%nat then se_ret (r, None) else
  let remaining_bytes := rd_file_size r - rd_position r in
  let read_size := Nat.min (rd_chunk_size r) remaining_bytes in
  let! buffer := read_loop read_size "Failed to read chunk" (rd_position r) read_size file in
  let r := mkReader (rd_chunk_size r) (rd_position r + length buffer) (rd_file_size r) in
  se_ret (r, if bool_decide (buffer = []) then None else Some buffer).

(** The position moves before the seek, whatever becomes of it. *)
Definition skip_bytes (r : AsyncFileReader) (bytes : nat) : Fs (AsyncFileReader * Result string nat) :=
  let old_position := rd_position r in
  let r := mkReader (rd_chunk_size r) (Nat.min (rd_file_size r) (rd_position r + bytes)) (rd_file_size r) in
  let! sought := se_catch (call "Failed to seek to position") in
  se_ret (r, result_map (fun _ => rd_position r - old_position) sought).

Definition is_eof (r : AsyncFileReader) : bool := (rd_file_size r <=? rd_position r)%nat.
Definition remaining_bytes (r : AsyncFileReader) : nat := rd_file_size r - rd_position r.

(** [wr_late]: the last write has failed in the background. *)
Record AsyncFileWriter := mkWriter {
  wr_path : list string; wr_chunk_size : nat; wr_position : nat; wr_written : nat; wr_appending : bool; wr_late : bool }.

Definition create_async_writer (file_path : string) (chunk_size bytes_written : nat) : Fs AsyncFileWriter :=
  ensure_mounted ;;;
  let! full_path := resolve file_path in
  create_parent full_path ;;;
  open_write "Failed to open file" (bytes_written =? 0)%nat full_path ;;;
  se_ret (mkWriter full_path.1 chunk_size bytes_written bytes_written (negb (bytes_written =? 0)%nat) false).

(** A file opened for appending is written at its end wherever the writer
    stands. *)
Definition write_chunk (w : AsyncFileWriter) (data : list Z) : Fs (AsyncFileWriter * nat) :=
  call "Failed to seek to position" ;;;
  let! c := held (wr_path w) in
  let! late := write_bytes (wr_late w) "Failed to write chunk" "Failed to write any data" (wr_path w)
                 (if wr_appending w then length c else wr_position w) data in
  let n := length data in
  se_ret (mkWriter (wr_path w) (wr_chunk_size w) (wr_position w + n) (wr_written w + n) (wr_appending w) late, n).

(** Reading a stream to its end. *)
Fixpoint read_all (fuel : nat) (r : AsyncFileReader) (file : list Z) : Fs (list (list Z)) :=
  match fuel with
  | O => se_ret []
  | S fuel =>
      let! (r, chunk) := read_next_chunk r file in
      match chunk with
      | None => se_ret []
      | Some b => let! rest := read_all fuel r file in se_ret (b :: rest)
      end
  end.

(** The pieces of a stream, one after the other. *)
Fixpoint write_all (w : AsyncFileWriter) (pieces : list (list Z)) : Fs AsyncFileWriter :=
  match pieces with
  | [] => se_ret w
  | b :: pieces => let! (w, _) := write_chunk w b in write_all w pieces
  end.

(** ** Everything that changes the tree *)

Inductive DriveOp : Type :=
| WriteFile (path : string) (data : list Z)
| AppendFile (path : string) (data : list Z)
| WriteFileRange (path : string) (offset : nat) (data : list Z)
| CreateEmptyFile (path : string)
| CreateDirectory (path : string)
| DeleteFile (path : string)
| DeleteDirectory (path : string)
| Rename (old new : string)
| CopyFile (source dest : string)
| WriteStream (path : string) (chunk_size bytes_written : nat) (pieces : list (list Z)).

Definition drive_op (op : DriveOp) : Fs unit :=
  match op with
  | WriteFile path data => write_file path data
  | AppendFile path data => append_file path data
  | WriteFileRange path offset data => write_file_range path offset data ;;; se_ret tt
  | CreateEmptyFile path => create_empty_file path
  | CreateDirectory path => create_directory path
  | DeleteFile path => delete_file path
  | DeleteDirectory path => delete_directory path
  | Rename old new => rename old new
  | CopyFile source dest => copy_file source dest
  | WriteStream path chunk_size bytes_written pieces =>
      let! w := create_async_writer path chunk_size bytes_written in write_all w pieces ;;; se_ret tt
  end.

(** Operations one after the other; a failed one does not stop the next. *)
Definition drive_run (ops : list DriveOp) (d : Disk) : Disk := fold_left (fun d op => (drive_op op d).1) ops d.
End remote_fs.
