(* ===== verification/RemoteFsProofs.v ===== *)
(** * The file transfer drive: what its operations keep and do *)

From S2P Require Import Prelude StateLaws Text Paths FileTree RemoteFs.

Implicit Types (t : Tree) (d : Disk) (p q : list string).

(** ** The tree stays a tree *)

Lemma tree_call f : keeps safe_tree (call f).
Proof. apply call_keeps. auto. Qed.
Lemma tree_next : keeps safe_tree next.
Proof. by intros d. Qed.
Lemma tree_look p : keeps safe_tree (look p).
Proof. by intros d. Qed.
Lemma tree_metadata f (p : OsPath) : keeps safe_tree (metadata f p).
Proof. intros d Hd. unfold safe_tree. by rewrite (proj1 (metadata_spec f p d)). Qed.
Lemma tree_create_dir_all f p : keeps safe_tree (create_dir_all f p).
Proof. intros d Hd. pose proof (make_dirs_spec f [] p d Hd eq_refl) as H. unfold create_dir_all. destruct (make_dirs _ _ _ d). apply H. Qed.
Lemma tree_open_write f b (p : OsPath) : keeps safe_tree (open_write f b p).
Proof. intros d Hd. pose proof (open_write_spec f b p d Hd) as H. destruct (open_write f b p d). apply H. Qed.
Lemma tree_remove_file f (p : OsPath) : keeps safe_tree (remove_file f p).
Proof. intros d Hd. pose proof (remove_file_spec f p d Hd) as H. destruct (remove_file f p d). apply H. Qed.
Lemma tree_remove_dir_all f (p : OsPath) : keeps safe_tree (remove_dir_all f p).
Proof. intros d Hd. pose proof (remove_dir_all_spec f p d Hd) as H. destruct (remove_dir_all f p d). apply H. Qed.
Lemma tree_rename f (a b : OsPath) : keeps safe_tree (rename_node f a b).
Proof. intros d Hd. pose proof (rename_node_spec f a b d Hd) as H. destruct (rename_node f a b d). apply H. Qed.
Lemma tree_copy f (a b : OsPath) : keeps safe_tree (copy_node f a b).
Proof. intros d Hd. pose proof (copy_node_spec f a b d Hd) as H. destruct (copy_node f a b d). apply H. Qed.

(** Writing what is a file keeps it one. *)
Lemma tree_write_loop fuel f z p off data late : keeps safe_tree (write_loop fuel f z p off data late).
Proof.
  revert off data late. induction fuel as [|fuel IH]; intros off [|b data] late d Hd; [done..|]. cbn [write_loop].
  destruct late; [done|]. unfold se_bind at 1, next. unfold se_bind at 1, look, se_get. cbn [tree].
  assert (Hw : ∀ c c', node_at (tree d) p = Some (File c) -> closed (<[p := File c']> (tree d))).
  { intros c c' Hc. assert (p <> []) by (by intros ->). apply closed_insert; [done|done| |congruence].
    rewrite node_at_cons in Hc by done. by apply (proj2 Hd) in Hc. }
  destruct (default Fine (head (script d))) as [|[|n]| |[|n] j], (node_at (tree d) p) as [[|c]|] eqn:E; try done.
  - unfold safe_tree. cbn. by eapply Hw.
  - unfold se_bind. cbn [with_tree se_modify fst snd]. apply IH. unfold safe_tree. cbn. by eapply Hw.
  - unfold se_bind. cbn [with_tree se_modify fst snd]. apply IH. unfold safe_tree. cbn. by eapply Hw.
Qed.
Lemma tree_write_bytes late f z p off data : keeps safe_tree (write_bytes late f z p off data).
Proof. apply tree_write_loop. Qed.

#[export] Hint Resolve tree_call tree_next tree_look tree_metadata tree_create_dir_all tree_open_write tree_remove_file
  tree_remove_dir_all tree_rename tree_copy tree_write_bytes : keeps.

(** Nothing but [p] has changed, apart from new directories above it. *)
Definition only p t t' : Prop :=
  ∀ q, q <> p -> node_at t' q = node_at t q \/ node_at t q = None /\ node_at t' q = Some Dir /\ is_under q p = true.

Lemma only_then p t t1 t2 : only p t t1 -> (∀ q, q <> p -> node_at t2 q = node_at t1 q) -> only p t t2.
Proof. intros H1 H2 q Hq. rewrite H2 by done. by apply H1. Qed.

Lemma not_under_parent p : p <> [] -> is_under p (parent p) = false.
Proof.
  intros Hp. apply not_under. destruct (strip p (parent p)) as [r|] eqn:E; [|done]. apply strip_Some in E.
  destruct (split_last p) as [|(q & n & ->)]; [done|]. rewrite parent_app in E. apply (f_equal length) in E.
  rewrite !length_app in E. cbn in E. lia.
Qed.

Lemma under_parent p q : is_under q (parent p) = true -> is_under q p = true.
Proof.
  intros [r Hr]%under_spec. destruct (split_last p) as [->|(p' & n & ->)]; [by apply under_spec; exists r|].
  rewrite parent_app in Hr. subst. apply under_spec. exists (r ++ [n]). by rewrite app_assoc.
Qed.

(** The parents are made and the file is opened. *)
Lemma open_parent_ok f b (p : OsPath) d d1 d2 :
  closed (tree d) -> create_parent p d = (d1, Ok tt) -> open_write f b p d1 = (d2, Ok tt) ->
  closed (tree d2) /\ p.1 <> [] /\ only p.1 (tree d) (tree d2) /\ node_at (tree d) p.1 <> Some Dir
  /\ node_at (tree d2) p.1 = Some (File (if b then [] else default [] (node_at (tree d) p.1 ≫= content_of))).
Proof.
  intros Hc E1 E2. unfold create_parent, create_dir_all in E1.
  pose proof (make_dirs_spec "Failed to create parent directory" [] (parent p.1) d Hc eq_refl) as H1. rewrite E1 in H1.
  destruct H1 as (C1 & Keep & New & _). cbn [app] in New.
  pose proof (open_write_spec f b p d1 C1) as H2. rewrite E2 in H2. destruct H2 as (C2 & Same & _ & Hok).
  destruct (Hok eq_refl) as (Hp & Hd & Hf).
  assert (Hpp : node_at (tree d1) p.1 = node_at (tree d) p.1).
  { destruct (decide (node_at (tree d1) p.1 = node_at (tree d) p.1)) as [|Hne]; [done|]. apply New in Hne as [_ Hu].
    by rewrite not_under_parent in Hu. }
  rewrite Hpp in *. split_and!; try done. intros q Hq. rewrite Same by done.
  destruct (decide (node_at (tree d1) q = node_at (tree d) q)) as [|Hne]; [by left|]. right.
  destruct (New q Hne) as [Hdir Hu]. split_and!; [|done|by apply under_parent].
  destruct (node_at (tree d) q) as [n|] eqn:E; [|done]. apply Keep in E. congruence.
Qed.

(** ** Writes in the background *)

(** Every write that the kernel takes reaches the file. *)
Definition nothing_lost d : Prop := Forall (fun o => ∀ n j, o <> Lost n j) (script d).

Lemma lost_next : keeps nothing_lost next.
Proof. unfold next. intros d Hd. unfold nothing_lost in *. cbn. destruct (script d); [done|]. by apply Forall_cons in Hd as [_ ?]. Qed.
Lemma lost_look p : keeps nothing_lost (look p).
Proof. by intros d. Qed.
Lemma lost_with_tree g : keeps nothing_lost (with_tree g).
Proof. by intros d. Qed.
#[local] Hint Resolve lost_next lost_look lost_with_tree : keeps.

Lemma lost_call f : keeps nothing_lost (call f).
Proof. unfold call. keeps_solve. Qed.
#[local] Hint Resolve lost_call : keeps.

Lemma lost_create_parent (p : OsPath) : keeps nothing_lost (create_parent p).
Proof.
  unfold create_parent, create_dir_all. generalize (parent p.1) ([] : list string). intros l.
  induction l as [|n l IH]; intros above; cbn [make_dirs]; keeps_solve; apply IH.
Qed.

Lemma lost_open_write f b (p : OsPath) : keeps nothing_lost (open_write f b p).
Proof. unfold open_write. keeps_solve. Qed.

Lemma lost_write_loop fuel f z p off data late : keeps nothing_lost (write_loop fuel f z p off data late).
Proof.
  revert off data late. induction fuel as [|fuel IH]; intros off [|b data] late; cbn [write_loop]; keeps_solve; apply IH.
Qed.

Lemma lost_write_bytes late f z p off data : keeps nothing_lost (write_bytes late f z p off data).
Proof. apply lost_write_loop. Qed.

(** Then no write is late. *)
Lemma write_loop_prompt fuel f z p off data d d' late :
  nothing_lost d -> write_loop fuel f z p off data false d = (d', Ok late) -> late = false.
Proof.
  revert off data d. induction fuel as [|fuel IH]; intros off [|b data] d Hd; cbn [write_loop]; [by intros [= _ <-]|done|by intros [= _ <-]|].
  unfold se_bind at 1, next. unfold se_bind at 1, look, se_get. cbn [tree].
  pose proof (lost_next d Hd) as Hd1. unfold next in Hd1. cbn in Hd1.
  assert (Ho : ∀ n j, default Fine (head (script d)) <> Lost n j).
  { unfold nothing_lost in Hd. destruct (script d); [done|]. apply Forall_cons in Hd as [? _]. done. }
  destruct (default Fine (head (script d))) as [|[|n]| |n j], (node_at (tree d) p) as [[|c]|]; try done.
  - by intros [= _ <-].
  - unfold se_bind, with_tree, se_modify. apply IH. exact Hd1.
  - by destruct (Ho n j).
  - by destruct (Ho n j).
  - by destruct (Ho n j).
Qed.

Lemma write_bytes_ok f z p off data c d d' late :
  closed (tree d) -> node_at (tree d) p = Some (File c) -> off <= length c -> nothing_lost d ->
  write_bytes false f z p off data d = (d', Ok late) ->
  closed (tree d') /\ (∀ q, q <> p -> node_at (tree d') q = node_at (tree d) q) /\ node_at (tree d') p = Some (File (splice off data c))
  /\ late = false /\ nothing_lost d'.
Proof.
  intros Hc Hp Hoff Hl E. pose proof (write_bytes_spec false f z p off data c d Hc Hp) as H.
  pose proof (lost_write_bytes false f z p off data d Hl) as Hl'. rewrite E in H, Hl'.
  pose proof (write_loop_prompt _ _ _ _ _ _ _ _ _ Hl E) as ->.
  destruct H as (H1 & H2 & _ & H3). destruct (H3 Hoff) as (k & Hk & Hr). rewrite (Hr eq_refl), firstn_all in Hk. auto.
Qed.

(** ** Reading *)

(** No call fails. *)
Definition no_fault d : Prop := Forall (fun o => o <> Fault) (script d).

Lemma next_fine d : no_fault d -> ∃ o, o <> Fault /\ next d = (mkDisk (tree d) (tail (script d)), Ok o) /\ no_fault (mkDisk (tree d) (tail (script d))).
Proof.
  unfold no_fault, next. intros H. destruct (script d) as [|o l]; cbn; [by exists Fine|]. apply Forall_cons in H as [Ho Hl]. eauto.
Qed.

Lemma call_fine f d : no_fault d -> call f d = (mkDisk (tree d) (tail (script d)), Ok tt) /\ no_fault (mkDisk (tree d) (tail (script d))).
Proof.
  intros H. destruct (next_fine d H) as (o & Ho & E & H'). split; [|done]. unfold call, se_bind. rewrite E. by destruct o.
Qed.

(** However the kernel cuts the reads, they bring the bytes asked for. *)
Lemma read_loop_fine fuel f off size c d :
  no_fault d -> size <= fuel ->
  ∃ d', read_loop fuel f off size c d = (d', Ok (take size (drop off c))) /\ tree d' = tree d /\ no_fault d'.
Proof.
  revert off size d. induction fuel as [|fuel IH]; intros off size d Hd Hf.
  { exists d. cbn. assert (size = 0) as -> by lia. by rewrite take_0. }
  cbn [read_loop]. destruct (Nat.eqb_spec size 0) as [->|Hs]; [exists d; by rewrite take_0|].
  destruct (next_fine d Hd) as (o & Ho & E & Hd1). set (d1 := mkDisk _ _) in *. unfold se_bind at 1. rewrite E.
  destruct o as [|n| |n j]; [by exists d1| |done|by exists d1]. set (there := take size (drop off c)). set (got := take (Nat.max 1 n) there).
  case_bool_decide as Hg.
  { exists d1. split_and!; [|done|done]. unfold got in Hg. destruct there; [done|]. by destruct n as [|[]]. }
  assert (Hlen : length got = Nat.min (Nat.max 1 n) (length there)) by (unfold got; apply length_take).
  assert (Hpos : 0 < length got) by (destruct got; [done|cbn; lia]).
  assert (Hle : length there <= size) by (unfold there; rewrite length_take; lia).
  destruct (IH (off + length got) (size - length got) d1 Hd1 ltac:(lia)) as (d' & Er & Ht & Hn).
  exists d'. split_and!; [|done|done]. unfold se_bind, se_ret. rewrite Er. f_equal. f_equal.
  rewrite <- drop_drop. transitivity (take (length got) there ++ drop (length got) there); [|apply take_drop]. f_equal.
  - unfold got. rewrite length_take. destruct (decide (Nat.max 1 n <= length there)).
    + by rewrite Nat.min_l.
    + rewrite Nat.min_r, firstn_all, take_ge by lia. done.
  - unfold there. rewrite skipn_firstn_comm. done.
Qed.

Section drive.
Context (is_mounted : bool) (fold_name : string -> string).

Lemma tree_resolve path : keeps safe_tree (resolve fold_name path).
Proof. apply keeps_of_result. Qed.
Lemma tree_ensure : keeps safe_tree (ensure_mounted is_mounted).
Proof. apply keeps_guard. Qed.
Lemma tree_create_parent (p : OsPath) : keeps safe_tree (create_parent p).
Proof. apply tree_create_dir_all. Qed.
Lemma tree_held p : keeps safe_tree (held p).
Proof. by intros d. Qed.
Lemma tree_metadata_ok (p : OsPath) : keeps safe_tree (metadata_ok p).
Proof. apply keeps_bind; [apply keeps_catch, tree_metadata|intros; apply keeps_ret]. Qed.

Hint Resolve tree_resolve tree_ensure tree_create_parent tree_held tree_metadata_ok : keeps.

Lemma tree_write_chunk w data : keeps safe_tree (write_chunk w data).
Proof. unfold write_chunk. keeps_solve. Qed.
Hint Resolve tree_write_chunk : keeps.

Lemma tree_write_all w pieces : keeps safe_tree (write_all w pieces).
Proof. revert w. induction pieces as [|b pieces IH]; intros w; cbn; [apply keeps_ret|]. apply keeps_bind; [apply tree_write_chunk|]. by intros []. Qed.
Hint Resolve tree_write_all : keeps.

Lemma tree_drive_op op : keeps safe_tree (drive_op is_mounted fold_name op).
Proof.
  destruct op; cbn; unfold write_file, append_file, write_file_range, create_empty_file, create_directory, delete_file,
    delete_directory, rename, copy_file, create_async_writer; keeps_solve.
Qed.

(** The drive stays a file system: whatever operations are done on it, with
    whatever paths, in whatever order, and wherever in the middle one of their
    calls fails or takes only part of the data, every file and directory lies in
    a directory that exists, and the mount point itself stays one. *)
Theorem drive_stays_a_tree ops d :
  closed (tree d) -> closed (tree (drive_run is_mounted fold_name ops d)).
Proof.
  unfold drive_run. revert d. induction ops as [|op ops IH]; intros d Hd; [done|]. apply IH. by apply tree_drive_op.
Qed.

(** ** What is written is there *)

(** The path of the kernel for a path of the user. *)
Definition resolves (path : string) (p : OsPath) : Prop :=
  ∃ full, resolve_path MOUNT_POINT path = Ok full /\ p = os_path fold_name full.

Lemma resolve_ok path d d' (p : OsPath) : resolve fold_name path d = (d', Ok p) -> d' = d /\ resolves path p.
Proof.
  unfold resolve. intros [-> E]%of_result_ok. split; [done|]. unfold resolves.
  destruct (resolve_path MOUNT_POINT path) as [full|]; [|done]. injection E as <-. eauto.
Qed.

Lemma resolves_run path (p : OsPath) d : resolves path p -> resolve fold_name path d = (d, Ok p).
Proof. intros (full & E & ->). unfold resolve, se_of_result. by rewrite E. Qed.

Ltac ok_steps :=
  repeat first [ok_step | match goal with
    | E : resolve _ _ _ = (_, Ok _) |- _ => apply resolve_ok in E as [-> ?]
    | E : ensure_mounted _ _ = (_, Ok _) |- _ => apply guard_ok in E as [-> ?]
    | E : call _ _ = (_, Ok ?u) |- _ => destruct u; apply call_ok in E
    | E : held _ _ = (_, Ok _) |- _ => injection E as <- ?
    end].

Lemma held_at p c d : node_at (tree d) p = Some (File c) -> held p d = (d, Ok c).
Proof. intros E. unfold held, se_get. by rewrite E. Qed.

(** A file without a slash after its name is opened and read. *)
Lemma open_read_fine f (p : OsPath) c d :
  no_fault d -> node_at (tree d) p.1 = Some (File c) -> p.2 = false ->
  ∃ d', open_read f p d = (d', Ok (File c)) /\ tree d' = tree d /\ no_fault d'.
Proof.
  intros Hd Hc Hs. unfold open_read, metadata. destruct (call_fine f d Hd) as [E Hd1]. eexists. split; [|split; [|exact Hd1]]; [|done].
  unfold se_bind. rewrite E. unfold look, se_get. cbn [tree]. by rewrite Hc, Hs.
Qed.

Lemma open_write_slash f b (p : OsPath) d d' : open_write f b p d = (d', Ok tt) -> p.2 = false.
Proof.
  unfold open_write. intros E. ok_steps. unfold look, se_get in *. simplify_eq. destruct p as [p []]; [done|done].
Qed.

Lemma fill_gap_ok f1 f2 p c off d d' late :
  closed (tree d) -> node_at (tree d) p = Some (File c) -> nothing_lost d ->
  (if (length c <? off)%nat then call f1 ;;; write_bytes false f2 f2 p (length c) (replicate (off - length c) 0%Z) else se_ret false) d = (d', Ok late) ->
  closed (tree d') /\ (∀ q, q <> p -> node_at (tree d') q = node_at (tree d) q)
  /\ node_at (tree d') p = Some (File (c ++ replicate (off - length c) 0%Z)) /\ late = false /\ nothing_lost d'.
Proof.
  intros Hc Hp Hl. destruct (Nat.ltb_spec (length c) off) as [Hlt|Hge].
  - intros E. apply bind_ok in E as (d1 & [] & E1 & E). pose proof (lost_call f1 d Hl) as Hl1. rewrite E1 in Hl1. apply call_ok in E1.
    rewrite <- E1 in Hc, Hp |- *.
    destruct (write_bytes_ok _ _ _ _ _ _ _ _ _ Hc Hp ltac:(done) Hl1 E) as (H1 & H2 & H3 & H4 & H5). rewrite splice_append in H3. auto.
  - intros [= <- <-]. replace (off - length c) with 0 by lia. cbn. by rewrite app_nil_r.
Qed.

(** C26: What is written at an offset is read back: a successful ranged write, at
    whatever offset and however the kernel cuts it up, leaves the file with the
    data at its place, its other bytes as they were and zeros in a gap, changes
    nothing else but to make the directories above it, and a ranged read of the
    same place that no call fails returns the data -- provided that every write
    the kernel takes over also reaches the file ([nothing_lost]).  The bytes are
    written in the background and never flushed, so a write that fails there at
    the end is reported by nobody: [lost_write_succeeds]. *)
Theorem written_range_is_read path offset data d d' n :
  closed (tree d) -> nothing_lost d ->
  write_file_range is_mounted fold_name path offset data d = (d', Ok n) ->
  ∃ p : OsPath, resolves path p /\ n = length data /\ only p.1 (tree d) (tree d')
    /\ node_at (tree d') p.1 = Some (File (splice offset data (default [] (node_at (tree d) p.1 ≫= content_of))))
    /\ ∀ d1, tree d1 = tree d' -> no_fault d1 -> (read_file_range is_mounted fold_name path offset (length data) d1).2 = Ok data.
Proof.
  intros Hc Hl E. unfold write_file_range in E.
  apply bind_ok in E as (e0 & u0 & E0 & E). apply guard_ok in E0 as [-> Hm].
  apply bind_ok in E as (e1 & p & E1 & E). apply resolve_ok in E1 as [-> Hp].
  apply bind_ok in E as (e2 & [] & E2 & E). pose proof (lost_create_parent p d Hl) as L2. rewrite E2 in L2.
  apply bind_ok in E as (e3 & [] & E3 & E). pose proof (lost_open_write "Failed to open file for writing" false p e2 L2) as L3. rewrite E3 in L3.
  destruct (open_parent_ok _ _ _ _ _ _ Hc E2 E3) as (C2 & Hne & Honly & _ & Hf). apply open_write_slash in E3 as Hslash.
  set (old := default [] (node_at (tree d) p.1 ≫= content_of)) in *.
  apply bind_ok in E as (e4 & c & E4 & E). injection E4 as <- Hheld. rewrite Hf in Hheld. cbn in Hheld. subst c.
  apply bind_ok in E as (e5 & [] & E5 & E). pose proof (lost_call "Failed to get file size" e3 L3) as L5. rewrite E5 in L5.
  apply call_ok in E5. rewrite <- E5 in C2, Hf, Honly. cbn zeta in E.
  apply bind_ok in E as (e6 & late & E6 & E). destruct (fill_gap_ok _ _ _ _ _ _ _ _ C2 Hf L5 E6) as (C3 & O3 & F3 & -> & L6).
  apply bind_ok in E as (e7 & [] & E7 & E). pose proof (lost_call "Failed to seek to offset" e6 L6) as L7. rewrite E7 in L7.
  apply call_ok in E7. rewrite <- E7 in C3, F3, O3.
  apply bind_ok in E as (e8 & late & E8 & E).
  assert (Hle : offset <= length (old ++ replicate (offset - length old) 0%Z)) by (rewrite length_app, length_replicate; lia).
  destruct (write_bytes_ok _ _ _ _ _ _ _ _ _ C3 F3 Hle L7 E8) as (C4 & O4 & F4 & _).
  apply bind_ok in E as (e9 & [] & E9 & E). apply call_ok in E9. injection E as <- <-. rewrite E9. exists p.
  assert (F : node_at (tree e8) p.1 = Some (File (splice offset data old))).
  { rewrite F4. do 2 f_equal. destruct (decide (length old <= offset)); [by apply splice_gap|].
    replace (offset - length old) with 0 by lia. cbn. by rewrite app_nil_r. }
  split_and!; [done|done| |done|].
  - apply (only_then _ _ (tree e5)); [done|]. intros q Hq. by rewrite O4, O3.
  - intros d1 Hd1 Hn. rewrite <- Hd1 in F. unfold read_file_range, ensure_mounted, se_bind, se_guard. rewrite Hm.
    erewrite resolves_run by done. destruct (open_read_fine "Failed to open file for reading" p _ d1 Hn F Hslash) as (d2' & -> & G2 & Hn2).
    destruct (call_fine "Failed to seek to offset" d2' Hn2) as [-> Hn3].
    destruct (read_loop_fine (length data) "Failed to read file range" offset (length data) (splice offset data old) _ Hn3 ltac:(done)) as (d4' & -> & _).
    cbn. by rewrite splice_read.
Qed.

(** ** Streams *)

(** The writer stands at the end of the file, and nothing it wrote is late. *)
Definition at_end (w : AsyncFileWriter) (c : list Z) : Prop :=
  (wr_appending w = true \/ wr_position w = length c) /\ wr_late w = false.

Lemma write_chunk_ok w data d d' w' n c :
  closed (tree d) -> nothing_lost d -> node_at (tree d) (wr_path w) = Some (File c) -> at_end w c -> write_chunk w data d = (d', Ok (w', n)) ->
  closed (tree d') /\ (∀ q, q <> wr_path w -> node_at (tree d') q = node_at (tree d) q)
  /\ node_at (tree d') (wr_path w) = Some (File (c ++ data)) /\ wr_path w' = wr_path w /\ at_end w' (c ++ data) /\ nothing_lost d'.
Proof.
  intros Hc Hl Hp [Hw Hlate] E. unfold write_chunk in E. rewrite Hlate in E.
  apply bind_ok in E as (e1 & [] & E1 & E). pose proof (lost_call "Failed to seek to position" d Hl) as L1. rewrite E1 in L1.
  apply call_ok in E1. rewrite <- E1 in Hc, Hp |- *.
  apply bind_ok in E as (e2 & c' & E2 & E). rewrite (held_at _ _ _ Hp) in E2. injection E2 as <- <-.
  apply bind_ok in E as (e3 & late & E3 & E). injection E as <- <- <-.
  replace (if wr_appending w then length c else wr_position w) with (length c) in E3
    by (destruct Hw as [->|Hw]; [done|destruct (wr_appending w); congruence]).
  destruct (write_bytes_ok _ _ _ _ _ _ _ _ _ Hc Hp ltac:(done) L1 E3) as (C & O & F & -> & L3).
  rewrite splice_append in F. split_and!; [done|done|done|done| |done]. split; [|done].
  destruct Hw as [Hw|Hw]; [by left|]. right. cbn. rewrite length_app. lia.
Qed.

Lemma write_all_ok pieces w d d' w' c :
  closed (tree d) -> nothing_lost d -> node_at (tree d) (wr_path w) = Some (File c) -> at_end w c -> write_all w pieces d = (d', Ok w') ->
  closed (tree d') /\ (∀ q, q <> wr_path w -> node_at (tree d') q = node_at (tree d) q)
  /\ node_at (tree d') (wr_path w) = Some (File (c ++ List.concat pieces)).
Proof.
  revert w d c. induction pieces as [|b pieces IH]; intros w d c Hc Hl Hp Hw E; cbn in E.
  { ok_steps. rewrite app_nil_r. auto. }
  apply bind_ok in E as (d1 & [w1 n] & E1 & E). destruct (write_chunk_ok _ _ _ _ _ _ _ Hc Hl Hp Hw E1) as (C & O & F & Ew & He & L).
  rewrite <- Ew in F. destruct (IH _ _ _ C L F He E) as (C' & O' & F'). rewrite Ew in *. split_and!; [done| |].
  - intros q Hq. by rewrite O', O.
  - rewrite F'. cbn. by rewrite <- app_assoc.
Qed.

Lemma read_all_fine fuel r file d :
  no_fault d -> rd_file_size r = length file -> 0 < rd_chunk_size r -> length file < rd_position r + fuel -> rd_position r <= length file ->
  ∃ d' chunks, read_all fuel r file d = (d', Ok chunks) /\ List.concat chunks = drop (rd_position r) file
    /\ Forall (fun b => 0 < length b <= rd_chunk_size r) chunks.
Proof.
  revert r d. induction fuel as [|fuel IH]; intros r d Hd Hs Hch Hf Hpos; [lia|]. cbn [read_all]. unfold se_bind, read_next_chunk.
  rewrite Hs. destruct (Nat.leb_spec (length file) (rd_position r)) as [Hge|Hlt].
  { exists d, []. cbn. split_and!; [done| |constructor]. by rewrite drop_ge. }
  set (k := Nat.min _ _). assert (Hk : 0 < k <= rd_chunk_size r /\ k <= length file - rd_position r) by lia.
  destruct (read_loop_fine k "Failed to read chunk" (rd_position r) k file d Hd ltac:(done)) as (d1 & E & _ & Hd1).
  unfold se_bind. rewrite E. set (buf := take k _). assert (Hbuf : length buf = k) by (unfold buf; rewrite length_take, length_drop; lia).
  cbn [se_ret fst snd]. rewrite bool_decide_false by (intros Hb; rewrite Hb in Hbuf; cbn in Hbuf; lia).
  destruct (IH (mkReader (rd_chunk_size r) (rd_position r + length buf) (length file)) d1 Hd1) as (d2 & chunks & E2 & Hcat & Hall);
    [done|cbn; lia..|].
  cbn [rd_position rd_chunk_size] in *. exists d2, (buf :: chunks). rewrite E2. split_and!; [done| |by constructor; [lia|]].
  cbn. rewrite Hcat, Hbuf, <- drop_drop. unfold buf. apply take_drop.
Qed.

(** A file that is streamed to the drive is streamed back: pieces of any
    sizes, written to a new file or appended to a part that is there, leave the
    file with exactly these bytes after the old ones and change nothing else but
    the directories above it; a reader with chunks of any positive size, however
    the kernel cuts its reads, ends and returns the file in order, in chunks no
    longer than asked for; provided that every write the kernel takes reaches the
    file. *)
Theorem stream_is_read_back dir_len modified path chunk_size bytes_written pieces d d1 w d2 w' :
  closed (tree d) -> nothing_lost d ->
  create_async_writer is_mounted fold_name path chunk_size bytes_written d = (d1, Ok w) -> write_all w pieces d1 = (d2, Ok w') ->
  ∃ p : OsPath, resolves path p /\ only p.1 (tree d) (tree d2)
    /\ let file := (if (bytes_written =? 0)%nat then [] else default [] (node_at (tree d) p.1 ≫= content_of)) ++ List.concat pieces in
       node_at (tree d2) p.1 = Some (File file)
       /\ ∀ chunk d3, 0 < chunk -> tree d3 = tree d2 -> no_fault d3 ->
          ∃ r d4 chunks, create_async_reader is_mounted fold_name dir_len modified path chunk d3 = (d4, Ok r)
            /\ (read_all (S (length file)) r file d4).2 = Ok chunks /\ List.concat chunks = file
            /\ Forall (fun b => 0 < length b <= chunk) chunks.
Proof.
  intros Hc Hl E1 E2. unfold create_async_writer in E1.
  apply bind_ok in E1 as (e0 & u0 & E0 & E1). apply guard_ok in E0 as [-> Hm].
  apply bind_ok in E1 as (e1 & p & R1 & E1). apply resolve_ok in R1 as [-> Hres].
  apply bind_ok in E1 as (e2 & [] & P1 & E1). pose proof (lost_create_parent p d Hl) as L2. rewrite P1 in L2.
  apply bind_ok in E1 as (e3 & [] & W1 & E1). pose proof (lost_open_write "Failed to open file" (bytes_written =? 0)%nat p e2 L2) as L3. rewrite W1 in L3.
  destruct (open_parent_ok _ _ _ _ _ _ Hc P1 W1) as (C & Hp & Honly & _ & Hf). apply open_write_slash in W1 as Hslash.
  injection E1 as -> <-. exists p. split; [exact Hres|].
  assert (Hend : at_end (mkWriter p.1 chunk_size bytes_written bytes_written (negb (bytes_written =? 0)%nat) false)
            (if (bytes_written =? 0)%nat then [] else default [] (node_at (tree d) p.1 ≫= content_of))).
  { split; [|done]. cbn. destruct (Nat.eqb_spec bytes_written 0); [by right|by left]. }
  destruct (write_all_ok _ (mkWriter p.1 _ _ _ _ _) _ _ _ _ C L3 Hf Hend E2) as (C2 & O2 & F2). cbn [wr_path] in *.
  split; [by eapply only_then|]. split; [exact F2|]. set (file := _ ++ _) in *. intros chunk d3 Hch Ht Hn.
  rewrite <- Ht in F2. unfold create_async_reader, ensure_mounted, se_bind at 1, se_guard.
  rewrite Hm. unfold se_bind.
  erewrite resolves_run by done. destruct (open_read_fine "Failed to open file for reading" p file d3 Hn F2 Hslash) as (e1 & -> & _ & N1).
  destruct (call_fine "Failed to get file size" e1 N1) as [-> N2]. destruct (call_fine "Failed to seek to beginning" _ N2) as [-> N3].
  cbn [info_of fi_size]. unfold bytes_len. rewrite Nat2Z.id.
  destruct (read_all_fine (S (length file)) (mkReader chunk 0 (length file)) file _ N3) as (e4 & chunks & Er & Hcat & Hall); cbn; [done|done|lia..|].
  eexists _, _, chunks. split; [reflexivity|]. cbn in Er. rewrite Er. auto.
Qed.

(** ** Names *)

(** Making the directories above [p] touches nothing at or below [p]. *)
Lemma create_parent_ok (p : OsPath) d d' :
  closed (tree d) -> create_parent p d = (d', Ok tt) ->
  closed (tree d') /\ ∀ q, node_at (tree d') q = node_at (tree d) q
                        \/ node_at (tree d) q = None /\ node_at (tree d') q = Some Dir /\ is_under q (parent p.1) = true.
Proof.
  intros Hc E. unfold create_parent, create_dir_all in E.
  pose proof (make_dirs_spec "Failed to create parent directory" [] (parent p.1) d Hc eq_refl) as H. rewrite E in H.
  destruct H as (C & Keep & New & _). split; [done|]. intros q.
  destruct (decide (node_at (tree d') q = node_at (tree d) q)) as [|Hne]; [by left|]. right.
  destruct (New q Hne) as [Hd Hu]. split_and!; [|done|done].
  destruct (node_at (tree d) q) as [n|] eqn:En; [|done]. apply Keep in En. congruence.
Qed.

(** Renaming moves: when it succeeds, the old path was there, everything at
    and below it is now at and below the new path and nowhere else, and no other
    file or directory has changed, apart from new directories above the new
    path. *)
Theorem rename_moves a b d d' :
  closed (tree d) -> rename is_mounted fold_name a b d = (d', Ok tt) ->
  ∃ p q : OsPath, resolves a p /\ resolves b q /\ is_Some (tree d !! p.1)
    /\ (∀ r, tree d' !! (q.1 ++ r) = tree d !! (p.1 ++ r))
    /\ (∀ k, is_under p.1 k = true -> is_under q.1 k = false -> tree d' !! k = None)
    /\ ∀ k, is_under p.1 k = false -> is_under q.1 k = false ->
         tree d' !! k = tree d !! k \/ tree d !! k = None /\ tree d' !! k = Some Dir /\ is_under k q.1 = true.
Proof.
  intros Hc E. unfold rename in E. ok_steps.
  match goal with H1 : resolves a ?p, H2 : resolves b ?q, H3 : create_parent ?q d = (?d1, Ok ?u) |- _ =>
    destruct u; exists p, q; destruct (create_parent_ok _ _ _ Hc H3) as [C Hsame]; split; [exact H1|split; [exact H2|]];
    rename p into pp, q into qq, d1 into e1 end.
  pose proof (rename_node_spec "Failed to rename" pp qq e1 C) as Hr. rewrite E in Hr.
  destruct Hr as (_ & _ & Hr). destruct (Hr eq_refl) as ([n Hn] & Hout & Hm).
  (* what is at or below the old path was there before *)
  assert (Hold : ∀ r, tree e1 !! (pp.1 ++ r) = tree d !! (pp.1 ++ r)).
  { assert (Hpp : pp.1 <> []) by (intros Ep; rewrite Ep in Hn; by rewrite (proj1 C) in Hn).
    intros r. destruct (Hsame (pp.1 ++ r)) as [He|(_ & _ & Hu)]; [by rewrite !node_at_cons in He by (by destruct pp.1)|].
    exfalso. apply under_spec in Hu as [r' Hu].
    assert (Hup : is_under pp.1 (parent qq.1) = true) by (apply under_spec; exists (r ++ r'); by rewrite Hu, <- app_assoc).
    destruct Hout as [Heq|Hout]; [rewrite <- Heq in Hup; by rewrite not_under_parent in Hup|]. apply under_parent in Hup. congruence. }
  pose proof (Hold []) as Hold0. rewrite app_nil_r in Hold0. rewrite <- Hold0. split_and!; [by eexists| | |].
  - intros r. rewrite Hm. unfold moved_to. by rewrite (proj2 (strip_Some qq.1 _ r) eq_refl).
  - intros k [r ->]%under_spec Hk%not_under. rewrite Hm. unfold moved_to. rewrite Hk. by rewrite (proj2 (strip_Some pp.1 _ r) eq_refl).
  - intros k Hk1%not_under Hk2%not_under. rewrite Hm. unfold moved_to. rewrite Hk1, Hk2.
    destruct k as [|x k]; [left; by rewrite (proj1 C), (proj1 Hc)|].
    destruct (Hsame (x :: k)) as [He|(G1 & G2 & G3)]; [by left|right]. split_and!; [done|done|by apply under_parent].
Qed.

(** Deleting a directory deletes it: when it succeeds nothing at or below the
    path is left; and however it ends, also half way through, nothing outside the
    path has changed, nothing new is there, and what is left is still a tree. *)
Theorem delete_directory_is_exact path d :
  closed (tree d) ->
  let '(d', r) := delete_directory is_mounted fold_name path d in
  closed (tree d')
  /\ (tree d' = tree d
      \/ ∃ p : OsPath, resolves path p
         /\ (∀ k, is_under p.1 k = false -> tree d' !! k = tree d !! k)
         /\ (∀ k n, tree d' !! k = Some n -> tree d !! k = Some n)
         /\ (r = Ok tt -> ∀ k, is_under p.1 k = true -> tree d' !! k = None))
  /\ (r = Ok tt -> ∃ p : OsPath, resolves path p /\ ∀ k, is_under p.1 k = true -> tree d' !! k = None).
Proof.
  intros Hc. unfold delete_directory, ensure_mounted, se_bind at 1, se_guard at 1.
  destruct (negb is_mounted); [by split_and!; [|left|]|]. unfold se_bind at 1, se_guard.
  destruct (is_empty path); [by split_and!; [|left|]|]. unfold se_bind.
  destruct (resolve fold_name path d) as [d1 [p|e]] eqn:E.
  - apply resolve_ok in E as [-> Hp]. pose proof (remove_dir_all_spec "Failed to delete directory" p d Hc) as H.
    destruct (remove_dir_all _ p d) as [d' r]. destruct H as (H1 & H2 & H3 & H4).
    split_and!; [done|right; eauto|]. intros Hr. exists p. split; [done|auto].
  - injection E as <- _. by split_and!; [|left|].
Qed.
End drive.
