(* ===== verification/FtUploads.v ===== *)
(** * Uploads to the file transfer drive (hardware/usb/storage.rs, web.rs, data_channel.rs)

    A session writes to [<file>.ftcache] on the mounted drive and becomes the
    file when all bytes have come.  Unlike the image store it trusts its own
    count of bytes, and continues a closed session only when the length on the
    drive agrees with it.  Directory entries and the files behind them are those
    of [Uploads]; the names are paths below the mount point.

    A write that fails in the background is told by the next write.  When there
    is none, [complete_ft_upload] does not learn of it: [flush] is [sync_all],
    which leaves it, and the error of [shutdown] is only logged. *)

From S2P Require Import Prelude StateLaws Text Paths FileTree Uploads.

(** ** State *)

(** [AsyncFileWriter] on an open file; [fw_late]: its last write has failed in
    the background. *)
Record FtWriter := mkFtWriter { fw_inode : nat; fw_position : nat; fw_append : bool; fw_late : bool }.

Record FtPendingUpload := mkFtUpload {
  ft_writer : option FtWriter;
  ft_size : Z;
  ft_already : Z;
  ft_upload_path : string;
  ft_final_path : string;
  ft_channel_open : bool }.

(** [root_files]: files of the device outside the drive. *)
Record FtState := mkFt {
  ft_fs : Fs;
  ft_mounted : bool;
  root_files : gset string;
  ft_pending_uploads : gmap string FtPendingUpload;
  ft_pending_uploads_closed : gmap string FtPendingUpload;
  ft_drawn : nat }.

Definition set_ft_fs f s := mkFt f (ft_mounted s) (root_files s) (ft_pending_uploads s) (ft_pending_uploads_closed s) (ft_drawn s).
Definition set_root r s := mkFt (ft_fs s) (ft_mounted s) r (ft_pending_uploads s) (ft_pending_uploads_closed s) (ft_drawn s).
Definition set_ft_pending p s := mkFt (ft_fs s) (ft_mounted s) (root_files s) p (ft_pending_uploads_closed s) (ft_drawn s).
Definition set_ft_closed c s := mkFt (ft_fs s) (ft_mounted s) (root_files s) (ft_pending_uploads s) c (ft_drawn s).

Definition with_ft_already n (u : FtPendingUpload) := mkFtUpload (ft_writer u) (ft_size u) n (ft_upload_path u) (ft_final_path u) (ft_channel_open u).
Definition with_ft_writer w (u : FtPendingUpload) := mkFtUpload w (ft_size u) (ft_already u) (ft_upload_path u) (ft_final_path u) (ft_channel_open u).
Definition with_ft_channel b (u : FtPendingUpload) := mkFtUpload (ft_writer u) (ft_size u) (ft_already u) (ft_upload_path u) (ft_final_path u) b.

Definition FM (A : Type) : Type := SE FtState string A.

Definition ft_fs_op (f : Fs -> Fs) : FM unit := se_modify (fun s => set_ft_fs (f (ft_fs s)) s).

(** ** The drive *)

Definition ft_ensure_mounted : FM unit :=
  let! m := se_get ft_mounted in se_guard (negb m) "Filesystem is not mounted. Call mount() first.".

Definition ft_resolve (path : string) : FM string :=
  ft_ensure_mounted ;;; se_of_result (resolve_path FT_MOUNT_POINT path).

(** [RemoteFs::exists]: a failed call counts as absent. *)
Definition ft_exists (stat : bool) (path : string) : FM bool :=
  let! p := ft_resolve path in se_get (fun s => stat && fs_exists p (ft_fs s)).

Definition ft_file_size (stat : bool) (path : string) : FM Z :=
  let! p := ft_resolve path in
  let! s := se_get id in
  se_guard (negb (stat && fs_exists p (ft_fs s))) "Failed to get file metadata" ;;;
  se_ret (fs_len p (ft_fs s)).

(** The file emptied. *)
Definition fs_truncate (i : nat) (f : Fs) : Fs := mkFs (dir f) (<[i := []]> (inodes f)) (next_inode f).

Definition ft_create_writer (opens : bool) (path : string) (bytes_written : nat) : FM FtWriter :=
  let! p := ft_resolve path in
  se_guard (negb opens) "open" ;;;
  let! i := (fun s => let '(f, i) := fs_create p (ft_fs s) in
                      (set_ft_fs (if (0 <? bytes_written)%nat then f else fs_truncate i f) s, Ok i)) in
  se_ret (mkFtWriter i bytes_written (0 <? bytes_written)%nat false).

Definition ft_create_empty_file (opens : bool) (path : string) : FM unit :=
  let! p := ft_resolve path in
  se_guard (negb opens) "Failed to create file" ;;;
  se_modify (fun s => let '(f, i) := fs_create p (ft_fs s) in set_ft_fs (fs_truncate i f) s).

Definition ft_delete_file (stat unlink : bool) (path : string) : FM unit :=
  let! p := ft_resolve path in
  let! s := se_get id in
  if stat && fs_exists p (ft_fs s)
  then se_guard (negb unlink) "Failed to delete file" ;;; ft_fs_op (fs_remove p)
  else se_ret tt.

Definition ft_rename (renames : bool) (old new : string) : FM unit :=
  let! p := ft_resolve old in
  let! q := se_of_result (resolve_path FT_MOUNT_POINT new) in
  let! s := se_get id in
  se_guard (negb (renames && fs_exists p (ft_fs s))) "Failed to rename" ;;;
  ft_fs_op (fs_rename p q).

(** The file with bytes at an offset, or at its end. *)
Definition fs_write (w : FtWriter) (data : list Z) (f : Fs) : Fs :=
  let old := inode_data (fw_inode w) f in
  mkFs (dir f) (<[fw_inode w := splice (if fw_append w then length old else fw_position w) data old]> (inodes f)) (next_inode f).

(** [write_chunk], on a writer that it changes: a failed write may have stored a
    part, and is reported now or by the next one. *)
Definition ft_write_chunk (o : WriteOutcome) (w : FtWriter) (data : list Z) : FM (FtWriter * Result string nat) :=
  if fw_late w
  then se_ret (mkFtWriter (fw_inode w) (fw_position w) (fw_append w) false, Err "Failed to write chunk")
  else
    ft_fs_op (fs_write w (stored o data)) ;;;
    match o with
    | WriteFailed _ => se_ret (w, Err "Failed to write chunk")
    | _ => se_ret (mkFtWriter (fw_inode w) (fw_position w + length data) (fw_append w) (is_lost o), Ok (length data))
    end.

(** ** Sessions *)

Definition ft_file_path (path name : string) : string := replace_double "/" (path +:+ "/" +:+ name).
Definition ft_cache_path (path name : string) : string := replace_double "/" (path +:+ "/" +:+ name +:+ ".ftcache").

(** Which calls of a start succeed. *)
Record FtStartEnv := mkFtStart {
  fs_stat1 : bool; fs_stat2 : bool; fs_stat3 : bool; (** the file, the part, its length *)
  fs_stat4 : bool; fs_unlink : bool; (** discarding the part *)
  fs_reopen : bool; fs_make : bool; fs_open : bool }.

Section ft_uploads.
(** Fresh identifiers, and the iteration order of a hash map. *)
Context (new_v4 : nat -> string).
Context (order : gmap string FtPendingUpload -> list (string * FtPendingUpload)).

Definition find_ft (p : FtPendingUpload -> bool) (m : gmap string FtPendingUpload) : option (string * FtPendingUpload) :=
  List.find (fun '(_, u) => p u) (order m).

Definition same_upload (file_path : string) (size : Z) (u : FtPendingUpload) : bool :=
  String.eqb (ft_final_path u) file_path && (ft_size u =? size)%Z.

(** A closed session whose count agrees with the length on the drive. *)
Definition ft_item_matches (file_path file_cache_path : string) (cache_size : Z) (u : FtPendingUpload) : bool :=
  String.eqb (ft_final_path u) file_path && String.eqb (ft_upload_path u) file_cache_path && (ft_already u =? cache_size)%Z.

Definition ft_closed_matches (file_path file_cache_path : string) (cache_size : Z) (s : FtState) : bool :=
  existsb (fun '(_, u) => ft_item_matches file_path file_cache_path cache_size u) (map_to_list (ft_pending_uploads_closed s)).

Definition touches (file_path file_cache_path : string) (u : FtPendingUpload) : bool :=
  String.eqb (ft_final_path u) file_path || String.eqb (ft_upload_path u) file_cache_path.

Definition ft_drop (p : FtPendingUpload -> bool) (m : gmap string FtPendingUpload) : gmap string FtPendingUpload :=
  filter (fun '(_, u) => p u = false) m.

Definition discard_ft_cache (env : FtStartEnv) (file_path file_cache_path : string) : FM unit :=
  let! s := se_get id in
  se_guard (existsb (fun '(_, u) => ft_channel_open u && touches file_path file_cache_path u) (map_to_list (ft_pending_uploads s)))
    "upload already in progress" ;;;
  let removed_pending := filter (fun '(_, u) => touches file_path file_cache_path u = true) (ft_pending_uploads s) in
  let removed_closed := filter (fun '(_, u) => touches file_path file_cache_path u = true) (ft_pending_uploads_closed s) in
  se_modify (fun s => set_ft_closed (ft_drop (touches file_path file_cache_path) (ft_pending_uploads_closed s))
                        (set_ft_pending (ft_drop (touches file_path file_cache_path) (ft_pending_uploads s)) s)) ;;;
  let! delete_result := se_catch (
    let! there := ft_exists (fs_stat4 env) file_cache_path in
    if there then ft_delete_file true (fs_unlink env) file_cache_path else se_ret tt) in
  match delete_result with
  | Ok _ => se_ret tt
  | Err e =>
      (* without their writers *)
      se_modify (fun s => set_ft_closed ((with_ft_writer None <$> removed_closed) ∪ ft_pending_uploads_closed s)
                            (set_ft_pending ((with_ft_writer None <$> removed_pending) ∪ ft_pending_uploads s) s)) ;;;
      se_throw e
  end.

(** A session of the same file and size is taken over, unless a channel holds
    it.  [within]: only while it is not too long. *)
Definition ft_take_over (within : bool) (file_path : string) (size : Z) (fresh : FM (Z * string)) : FM (Z * string) :=
  let! s := se_get id in
  match find_ft (same_upload file_path size) (ft_pending_uploads s) with
  | Some (upload_id, entry) =>
      se_guard (ft_channel_open entry) "upload already in progress" ;;;
      if negb within || (ft_already entry <=? size)%Z then se_ret (ft_already entry, upload_id) else fresh
  | None => fresh
  end.

Definition ft_fresh_id : FM string :=
  fun s => (mkFt (ft_fs s) (ft_mounted s) (root_files s) (ft_pending_uploads s) (ft_pending_uploads_closed s) (S (ft_drawn s)),
            Ok ("ft_upload_" +:+ new_v4 (ft_drawn s))).

Definition ft_create (env : FtStartEnv) (file_path file_cache_path : string) (size : Z) : FM (Z * string) :=
  ft_create_empty_file (fs_make env) file_cache_path ;;;
  let! writer := ft_create_writer (fs_open env) file_cache_path 0 in
  ft_take_over true file_path size (
    let! upload_id := ft_fresh_id in
    se_modify (fun s => set_ft_pending
      (<[upload_id := mkFtUpload (Some writer) size 0 file_cache_path file_path false]> (ft_pending_uploads s)) s) ;;;
    se_ret (0%Z, upload_id)).

Definition ft_resume (env : FtStartEnv) (file_path file_cache_path : string) (size cache_size : Z) : FM (Z * string) :=
  let! writer := ft_create_writer (fs_reopen env) file_cache_path (Z.to_nat cache_size) in
  ft_take_over false file_path size (
    let! s := se_get id in
    match find_ft (ft_item_matches file_path file_cache_path cache_size) (ft_pending_uploads_closed s) with
    | Some (upload_id, item) =>
        se_modify (fun s => set_ft_closed (delete upload_id (ft_pending_uploads_closed s)) s) ;;;
        let entry := with_ft_writer (Some writer) (with_ft_already cache_size (with_ft_channel false item)) in
        se_modify (fun s => set_ft_pending (<[upload_id := entry]> (ft_pending_uploads s)) s) ;;;
        se_ret (ft_already entry, upload_id)
    | None => ft_create env file_path file_cache_path size
    end).

Definition start_ft_file_upload (env : FtStartEnv) (path name : string) (size : Z) : FM (Z * string) :=
  let file_path := ft_file_path path name in
  let file_cache_path := ft_cache_path path name in
  let! there := ft_exists (fs_stat1 env) file_path in
  se_guard there "File already exists" ;;;
  let! part := ft_exists (fs_stat2 env) file_cache_path in
  let! cache_size := (if part then ft_file_size (fs_stat3 env) file_cache_path else se_ret (-1)%Z) in
  ft_take_over true file_path size (
    let! s := se_get id in
    if (0 <=? cache_size)%Z && ((size <? cache_size)%Z || negb (ft_closed_matches file_path file_cache_path cache_size s))
    then discard_ft_cache env file_path file_cache_path ;;; ft_create env file_path file_cache_path size
    else if (0 <=? cache_size)%Z then ft_resume env file_path file_cache_path size cache_size
    else ft_create env file_path file_cache_path size).

Definition get_ft_session (upload_id : string) : FM FtPendingUpload :=
  fun s => (s, ok_or (ft_pending_uploads s !! upload_id) "upload not found").

Definition put_ft_session (upload_id : string) (u : FtPendingUpload) : FM unit :=
  se_modify (fun s => set_ft_pending (<[upload_id := u]> (ft_pending_uploads s)) s).

Definition claim_ft_upload_channel (upload_id : string) : FM unit :=
  let! entry := get_ft_session upload_id in
  se_guard (ft_channel_open entry) "upload already in progress" ;;;
  put_ft_session upload_id (with_ft_channel true entry).

Definition append_ft_upload_data (o : WriteOutcome) (upload_id : string) (data : list Z) : FM (Z * Z) :=
  let! entry := get_ft_session upload_id in
  let data := bytes_within_size (ft_already entry) (ft_size entry) data in
  match data with
  | [] => se_ret (ft_size entry, ft_already entry)
  | _ =>
      match ft_writer entry with
      | None => se_throw "writer not found"
      | Some writer =>
          let! (writer, written) := ft_write_chunk o writer data in
          let entry := with_ft_writer (Some writer) entry in
          match written with
          | Err e => put_ft_session upload_id entry ;;; se_throw e
          | Ok _ =>
              let entry := with_ft_already (ft_already entry + Z.of_nat (length data)) entry in
              put_ft_session upload_id entry ;;;
              se_ret (ft_size entry, ft_already entry)
          end
      end
  end.

Record FtCompleteEnv := mkFtComplete { fc_flush : bool; fc_rename : bool; fc_stat : bool; fc_unlink : bool }.

(** Move a session to the closed ones. *)
Definition close_ft_session (upload_id : string) (u : FtPendingUpload) : FM unit :=
  se_modify (fun s => set_ft_closed (<[upload_id := with_ft_channel false u]> (ft_pending_uploads_closed s))
                        (set_ft_pending (delete upload_id (ft_pending_uploads s)) s)).

Definition complete_ft_upload (env : FtCompleteEnv) (upload_id : string) : FM unit :=
  let! entry := get_ft_session upload_id in
  if bool_decide (is_Some (ft_writer entry)) && negb (fc_flush env)
  then put_ft_session upload_id (with_ft_channel false entry) ;;; se_throw "Failed to flush file"
  else
    (* whatever [shutdown] says *)
    let entry := with_ft_writer None entry in
    put_ft_session upload_id entry ;;;
    if (ft_already entry =? ft_size entry)%Z then
      let! renamed := se_catch (ft_rename (fc_rename env) (ft_upload_path entry) (ft_final_path entry)) in
      match renamed with
      | Ok _ => se_modify (fun s => set_ft_pending (delete upload_id (ft_pending_uploads s)) s)
      | Err e => close_ft_session upload_id entry ;;; se_throw "failed to rename uploaded file"
      end
    else if (ft_size entry <? ft_already entry)%Z then
      let! there := se_catch (ft_exists (fc_stat env) (ft_upload_path entry)) in
      (if default false (result_ok there)
       then let! _ := se_catch (F := string) (ft_delete_file true (fc_unlink env) (ft_upload_path entry)) in se_ret tt
       else se_ret tt) ;;;
      se_modify (fun s => set_ft_pending (delete upload_id (ft_pending_uploads s)) s)
    else close_ft_session upload_id entry.

Definition get_ft_upload_progress (upload_id : string) : FM (Z * Z) :=
  let! entry := get_ft_session upload_id in se_ret (ft_size entry, ft_already entry).

(** The file that is removed is looked for on the device, not on the drive. *)
Definition remove_on_device (unlink : bool) (p : string) : FM unit :=
  let! s := se_get id in
  if bool_decide (p ∈ root_files s)
  then se_guard (negb unlink) "remove_file" ;;; se_modify (fun s => set_root (root_files s ∖ {[p]}) s)
  else se_ret tt.

Definition cancel_ft_upload (unlink : bool) (path : string) : FM unit :=
  let! s := se_get id in
  match find_ft (fun u => String.eqb (ft_final_path u) path) (ft_pending_uploads s) with
  | Some (upload_id, pd) =>
      se_modify (fun s => set_ft_pending (delete upload_id (ft_pending_uploads s)) s) ;;;
      remove_on_device unlink (ft_upload_path pd)
  | None => se_ret tt
  end.

Definition remove_ft_closed_upload (unlink : bool) (path : string) : FM unit :=
  let! s := se_get id in
  match find_ft (fun u => String.eqb (ft_final_path u) path) (ft_pending_uploads_closed s) with
  | Some (upload_id, pd) =>
      se_modify (fun s => set_ft_closed (delete upload_id (ft_pending_uploads_closed s)) s) ;;;
      remove_on_device unlink (ft_upload_path pd)
  | None => se_ret tt
  end.

Definition fs_del_file_with_file_img (unlink stat unlink2 : bool) (path : string) : FM unit :=
  cancel_ft_upload unlink path ;;; remove_ft_closed_upload unlink path ;;; ft_delete_file stat unlink2 path.

(** ** Over HTTP (web.rs) *)

Inductive FtReply : Set := FtNotFound | FtReadFailed | FtWriteFailed | FtFinalizeFailed | FtCompleted | FtPartial (written size : Z).

(** [let _ = complete_ft_upload(..)]. *)
Definition ft_try_complete (env : FtCompleteEnv) (upload_id : string) (s : FtState) : FtState := (complete_ft_upload env upload_id s).1.

Fixpoint ft_upload_body (env : FtCompleteEnv) (upload_id : string) (frames : list BodyFrame) (total : Z) (s : FtState)
  : FtState * (FtReply + Z) :=
  match frames with
  | [] => (s, inr total)
  | FrameError :: _ => (ft_try_complete env upload_id s, inl FtReadFailed)
  | OtherFrame :: frames | DataFrame _ [] :: frames => ft_upload_body env upload_id frames total s
  | DataFrame o bytes :: frames =>
      match append_ft_upload_data o upload_id bytes s with
      | (s, Ok _) => ft_upload_body env upload_id frames (total + Z.of_nat (length bytes)) s
      | (s, Err _) => (ft_try_complete env upload_id s, inl FtWriteFailed)
      end
  end.

Definition handle_ft_upload (env : FtCompleteEnv) (upload_id : string) (frames : list BodyFrame) (s : FtState) : FtState * FtReply :=
  if is_empty upload_id || negb (starts_with "ft_upload_" upload_id) then (s, FtNotFound) else
  match get_ft_upload_progress upload_id s with
  | (s, Err _) => (s, FtNotFound)
  | (s, Ok (size, already)) =>
      match ft_upload_body env upload_id frames already s with
      | (s, inl r) => (s, r)
      | (s, inr total) =>
          match complete_ft_upload env upload_id s with
          | (s, Err _) => (s, FtFinalizeFailed)
          | (s, Ok _) => (s, if (total <? size)%Z then FtPartial total size else FtCompleted)
          end
      end
  end.

(** ** Over a data channel (data_channel.rs) *)

Definition write_ft_chunk (o : WriteOutcome) (upload_id : string) (data : list Z) (s : FtState) : FtState * bool :=
  match append_ft_upload_data o upload_id data s with
  | (s, Err _) => (s, false)
  | (s, Ok (size, already)) => (s, (size <=? already)%Z)
  end.

Definition finalize_ft_upload (env : FtCompleteEnv) (upload_id : string) (s : FtState) : FtState := ft_try_complete env upload_id s.

Fixpoint ft_channel_loop (env : FtCompleteEnv) (upload_id : string) (finished : bool) (events : list ChannelEvent) (s : FtState) : FtState :=
  match events with
  | [] | OnChannelError :: _ | OnClose :: _ => finalize_ft_upload env upload_id s
  | OnMessage o data :: events =>
      if finished then ft_channel_loop env upload_id finished events s
      else let '(s, done) := write_ft_chunk o upload_id data s in ft_channel_loop env upload_id done events s
  | OnOtherEvent :: events => ft_channel_loop env upload_id finished events s
  end.

Definition handle_ft_upload_channel (env : FtCompleteEnv) (label : string) (events : list ChannelEvent) (s : FtState) : FtState :=
  if negb (starts_with "ft_upload_" label) then s else
  match claim_ft_upload_channel label s with
  | (s, Err _) => s
  | (s, Ok _) => ft_channel_loop env label false events s
  end.
End ft_uploads.

Section one_file.
Context (new_v4 : nat -> string) (order : gmap string FtPendingUpload -> list (string * FtPendingUpload)).
Context (Horder : ∀ m, order m ≡ₚ map_to_list m).
Context (path name kf ku : string).
Context (Hkf : resolve_path FT_MOUNT_POINT (ft_file_path path name) = Ok kf).
Context (Hku : resolve_path FT_MOUNT_POINT (ft_cache_path path name) = Ok ku).
Context (Hne : ku ≠ kf) (src : list Z).
Local Abbreviation fp := (ft_file_path path name).
Local Abbreviation up := (ft_cache_path path name).
Local Abbreviation size := (Z.of_nat (length src)).

(** The part is a prefix of the file, the file is the file, and they are not
    the same. *)
Record DriveInv (f : Fs) : Prop := {
  di_up : ∀ i, dir f !! ku = Some i -> ∃ k, inode_data i f = take k src;
  di_fp : ∀ j, dir f !! kf = Some j -> inode_data j f = src;
  di_ne : ∀ i j, dir f !! ku = Some i -> dir f !! kf = Some j -> i ≠ j;
  di_next : ∀ p i, dir f !! p = Some i -> i < next_inode f }.

Definition closed_fine (m : gmap string FtPendingUpload) : Prop :=
  ∀ id u, m !! id = Some u -> ft_size u = size /\ ft_final_path u = fp /\ ft_upload_path u = up /\ starts_with "ft_upload_" id = true.

(** Between attempts. *)
Record FtInv (s : FtState) : Prop := {
  ti_mounted : ft_mounted s = true;
  ti_pending : ft_pending_uploads s = ∅;
  ti_closed : closed_fine (ft_pending_uploads_closed s);
  ti_drive : DriveInv (ft_fs s) }.

(** Within one: [id] is the session, it counts [k] bytes, and [m] are there;
    [late]: its writer has a failure to report. *)
Record Held (id : string) (k m : nat) (late : bool) (s : FtState) : Prop := {
  he_mounted : ft_mounted s = true;
  he_name : starts_with "ft_upload_" id = true;
  he_session : ∃ w, ft_pending_uploads s = {[ id := mkFtUpload (Some w) size (Z.of_nat k) up fp false ]}
                    /\ dir (ft_fs s) !! ku = Some (fw_inode w) /\ inode_data (fw_inode w) (ft_fs s) = take m src
                    /\ fw_position w = k /\ fw_late w = late;
  he_range : k <= length src /\ m <= length src;
  he_closed : closed_fine (ft_pending_uploads_closed s);
  he_drive : DriveInv (ft_fs s) }.

Lemma resolve_run p k s : ft_mounted s = true -> resolve_path FT_MOUNT_POINT p = Ok k -> ft_resolve p s = (s, Ok k).
Proof. intros Hm Hp. unfold ft_resolve, ft_ensure_mounted. se_unfold. by rewrite Hm, Hp. Qed.

(** A file other than the part and the file's own keeps its data. *)
Lemma set_inode_drive i c f k :
  DriveInv f -> dir f !! ku = Some i -> c = take k src ->
  DriveInv (mkFs (dir f) (<[i := c]> (inodes f)) (next_inode f)).
Proof.
  intros [H1 H2 H3 H4] Hi Hc. split; cbn [dir next_inode]; [| |done|done].
  - intros i' Hi'. assert (i' = i) as -> by congruence. exists k. unfold inode_data. cbn. by rewrite lookup_insert_eq.
  - intros j Hj. unfold inode_data. cbn. rewrite lookup_insert_ne by (by eapply H3). by apply H2.
Qed.

Lemma take_own_length a (L : list Z) : take a L = take (length (take a L)) L.
Proof.
  rewrite length_take. destruct (decide (a <= length L)); [by rewrite Nat.min_l|].
  rewrite Nat.min_r, !take_ge by lia. done.
Qed.

(** ** Appending *)

(** What an append leaves: more of the file, more of it counted than is there, or
    as much counted as before. *)
Definition appended (o : WriteOutcome) (id : string) (k n : nat) (x : FtState * Result string (Z * Z)) : Prop :=
  match x.2 with
  | Ok _ => if is_lost o then ∃ m, Held id (k + n) m true x.1 else Held id (k + n) (k + n) false x.1
  | Err _ => ∃ m, k <= m /\ Held id k m false x.1
  end.

Lemma append_held o id k data s :
  Held id k k false s -> data ≠ [] -> (∃ n, data = take n (drop k src)) ->
  appended o id k (length data) (append_ft_upload_data o id data s)
  /\ (o = WroteAll -> is_ok (append_ft_upload_data o id data s).2 = true).
Proof.
  intros HH Hnil [n Hd]. pose proof HH as [Hm Hnm (w & Hs & Hi & Hdat & Hpos & Hlt) [_ Hr] Hc HD].
  assert (Hlen : k + length data <= length src) by (rewrite Hd, length_take, length_drop; lia).
  unfold append_ft_upload_data, get_ft_session, put_ft_session. se_unfold. rewrite Hs, lookup_singleton_eq. cbn [ok_or ft_already ft_size].
  rewrite within_size_all by lia. destruct data as [|b data]; [done|].
  set (l := b :: data) in *. cbn [ft_writer]. unfold ft_write_chunk, ft_fs_op. rewrite Hlt. se_unfold.
  assert (Hst : ∃ j, stored o l = take j l) by (destruct o; [exists (length l); by rewrite firstn_all|by eexists..]).
  destruct Hst as [j Hj].
  assert (Hw : fs_write w (stored o l) (ft_fs s)
    = mkFs (dir (ft_fs s)) (<[fw_inode w := take (k + length (take j l)) src]> (inodes (ft_fs s))) (next_inode (ft_fs s))).
  { unfold fs_write. rewrite Hj. do 2 f_equal.
    assert (Hkl : length (inode_data (fw_inode w) (ft_fs s)) = k) by (rewrite Hdat, length_take; lia).
    replace (if fw_append w then _ else _) with (length (inode_data (fw_inode w) (ft_fs s))) by (destruct (fw_append w); [done|congruence]).
    rewrite splice_append, Hdat. rewrite <- take_take_drop. f_equal. rewrite Hd, take_take. apply take_own_length. }
  rewrite Hw. set (m := k + length (take j l)).
  assert (Hml : m <= length src /\ k <= m) by (subst m; rewrite length_take; lia).
  assert (Hnew : ∀ k' lt, k' <= length src ->
    Held id k' m lt (set_ft_pending (<[id := mkFtUpload (Some (mkFtWriter (fw_inode w) k' (fw_append w) lt)) size (Z.of_nat k') up fp false]>
         (ft_pending_uploads s))
        (set_ft_fs (mkFs (dir (ft_fs s)) (<[fw_inode w := take m src]> (inodes (ft_fs s))) (next_inode (ft_fs s))) s))).
  { intros k' lt Hk'. split; cbn; [done|done| |lia|done|by eapply set_inode_drive].
    eexists. rewrite Hs, insert_singleton_eq. split; [done|]. cbn. split_and!; [done| |done|done].
    unfold inode_data. cbn. by rewrite lookup_insert_eq. }
  destruct o as [|i|i]; cbn [fst snd ft_pending_uploads set_ft_fs appended is_lost] in *; unfold appended; cbn [fst snd is_lost]; (split; [|done]);
    unfold with_ft_already, with_ft_writer; cbn; rewrite <- ?Nat2Z.inj_add.
  - assert (Hm' : m = k + length l) by (subst m; by rewrite <- Hj). rewrite Hpos. cbn in Hm'. rewrite <- Hm'. apply Hnew, Hml.
  - exists m. split; [lia|]. destruct w as [wi wp wa wl]. cbn in Hpos, Hlt. subst wp wl.
    apply (Hnew k false). lia.
  - exists m. rewrite Hpos. apply Hnew. exact Hlen.
Qed.

(** A failure that was left is reported, and nothing is written. *)
Lemma append_late o id k m data s :
  Held id k m true s -> data ≠ [] -> k + length data <= length src ->
  ∃ s' e, append_ft_upload_data o id data s = (s', Err e) /\ Held id k m false s'.
Proof.
  intros [Hm Hnm (w & Hs & Hi & Hdat & Hpos & Hlt) [_ Hr] Hc HD] Hnil Hlen.
  unfold append_ft_upload_data, get_ft_session, put_ft_session. se_unfold. rewrite Hs, lookup_singleton_eq. cbn [ok_or ft_already ft_size].
  rewrite within_size_all by lia. destruct data as [|b data]; [done|]. cbn [ft_writer]. unfold ft_write_chunk. rewrite Hlt. se_unfold.
  eexists _, _. split; [done|]. split; cbn; [done|done| |lia|done|done].
  eexists. rewrite Hs, insert_singleton_eq. split; [done|]. by cbn.
Qed.

(** ** Completing *)

Lemma closed_fine_insert id u m : closed_fine m -> ft_size u = size -> ft_final_path u = fp -> ft_upload_path u = up -> starts_with "ft_upload_" id = true ->
  closed_fine (<[id := u]> m).
Proof. intros Hm H1 H2 H3 H4 id' u' [[<- <-]|[_ Hu]]%lookup_insert_Some; [done|by eapply Hm]. Qed.

Lemma rename_drive f i : DriveInv f -> dir f !! ku = Some i -> inode_data i f = src ->
  DriveInv (fs_rename ku kf f) /\ fs_read kf (fs_rename ku kf f) = Some src.
Proof.
  intros [H1 H2 H3 H4] Hi Hd. unfold fs_rename. rewrite Hi. split; [split; cbn [dir next_inode]|].
  - intros i'. by rewrite lookup_insert_ne, lookup_delete_eq.
  - intros j. rewrite lookup_insert_eq. by intros [= <-].
  - intros i' j. by rewrite lookup_insert_ne, lookup_delete_eq.
  - intros p j [[<- <-]|[_ [_ Hj]%lookup_delete_Some]]%lookup_insert_Some; by eapply H4.
  - unfold fs_read. cbn. rewrite lookup_insert_eq. cbn. by f_equal.
Qed.

Lemma complete_held env id k m late s :
  Held id k m late s -> (k = length src -> m = length src) -> fc_flush env = true ->
  let '(s', r) := complete_ft_upload env id s in
  FtInv s' /\ (k = length src -> fc_rename env = true -> r = Ok tt /\ fs_read kf (ft_fs s') = Some src).
Proof.
  intros [Hm Hnm (w & Hs & Hi & Hdat & Hpos & _) Hr Hc HD] Hkm Hfl. unfold complete_ft_upload, get_ft_session, put_ft_session. se_unfold.
  rewrite Hs, lookup_singleton_eq, Hfl. cbn [ok_or negb]. rewrite andb_false_r. cbn [ft_already ft_size with_ft_writer ft_upload_path ft_final_path].
  set (u := mkFtUpload None size (Z.of_nat k) up fp false).
  assert (Hclose : FtInv (set_ft_closed (<[id := with_ft_channel false u]> (ft_pending_uploads_closed s))
            (set_ft_pending (delete id {[id := u]}) s))).
  { split; cbn; [done|by rewrite delete_singleton_eq| |done]. by apply closed_fine_insert. }
  rewrite Hs, insert_singleton_eq. destruct (Z.eqb_spec (Z.of_nat k) size) as [Hk|Hk].
  - assert (m = length src) as -> by lia. rewrite take_ge in Hdat by lia. unfold ft_rename. se_unfold.
    rewrite (resolve_run _ ku) by done. cbn [fst snd]. rewrite Hkf. cbn [Datatypes.id ft_fs set_ft_pending].
    assert (Hex : fs_exists ku (ft_fs s) = true) by (unfold fs_exists; rewrite Hi; by apply bool_decide_eq_true).
    rewrite Hex, andb_true_r. destruct (rename_drive _ _ HD Hi Hdat) as [HD' Hrd].
    destruct (fc_rename env); cbn [negb].
    + unfold ft_fs_op. se_unfold. cbn. split; [|done]. split; cbn; [done|by rewrite delete_singleton_eq|done|done].
    + unfold close_ft_session. se_unfold. split; [exact Hclose|done].
  - destruct (Z.ltb_spec size (Z.of_nat k)); [lia|]. unfold close_ft_session. se_unfold. split; [exact Hclose|]. intros ->. done.
Qed.

(** ** Starting *)

Lemma find_none_empty p : find_ft order p ∅ = None.
Proof.
  unfold find_ft. assert (order ∅ = []) as ->; [|done]. apply Permutation_nil_r. rewrite Horder. by rewrite map_to_list_empty.
Qed.

Lemma find_ft_some p m id u : find_ft order p m = Some (id, u) -> m !! id = Some u /\ p u = true.
Proof.
  unfold find_ft. intros [Hin Hp]%find_some. split; [|done]. apply elem_of_map_to_list. rewrite <- (Horder m). by apply list_elem_of_In.
Qed.

(** Opening the part, emptied or as it is. *)
Lemma open_part f b :
  DriveInv f -> let '(f', i) := fs_create ku f in
  let f2 := if (b : bool) then f' else fs_truncate i f' in
  DriveInv f2 /\ dir f2 !! ku = Some i /\ fs_read kf f2 = fs_read kf f
  /\ (b = false -> inode_data i f2 = [])
  /\ (b = true -> dir f !! ku = Some i -> inode_data i f2 = inode_data i f) /\ (∀ i', dir f !! ku = Some i' -> i = i').
Proof.
  intros HD0. pose proof HD0 as [H1 H2 H3 H4]. unfold fs_create. destruct (dir f !! ku) as [i|] eqn:Hi.
  - destruct b; cbn [fs_truncate dir]; split_and!; try done; try (by intros i' [= ->]).
    + split; cbn [fs_truncate dir next_inode]; [| |rewrite Hi; exact H3|exact H4].
      * intros i' Hi'. assert (i' = i) as -> by congruence. exists 0. unfold inode_data. cbn. by rewrite lookup_insert_eq.
      * intros j Hj. unfold inode_data. cbn. rewrite lookup_insert_ne by (by eapply H3). by apply H2.
    + unfold fs_read. cbn. destruct (dir f !! kf) as [j|] eqn:Hj; [|done]. cbn. f_equal.
      unfold inode_data. cbn. by rewrite lookup_insert_ne by (by eapply H3).
    + intros _. unfold inode_data. cbn. by rewrite lookup_insert_eq.
  - set (n := next_inode f).
    assert (Hj : ∀ j, dir f !! kf = Some j -> j ≠ n) by (intros j Hj ->; apply H4 in Hj; unfold n in Hj; lia).
    assert (HD : ∀ c, c = [] -> DriveInv (mkFs (<[ku := n]> (dir f)) (<[n := c]> (inodes f)) (S n))).
    { intros c ->. split; cbn [dir next_inode].
      - intros i'. rewrite lookup_insert_eq. intros [= <-]. exists 0. unfold inode_data. cbn. by rewrite lookup_insert_eq.
      - intros j. rewrite lookup_insert_ne by done. intros E. unfold inode_data. cbn. rewrite lookup_insert_ne by (by apply not_eq_sym, Hj). by apply H2.
      - intros i' j. rewrite lookup_insert_eq, lookup_insert_ne by done. intros [= <-] E. by apply not_eq_sym, Hj.
      - intros p j [[_ <-]|[_ E]]%lookup_insert_Some; [lia|]. apply H4 in E. unfold n. lia. }
    assert (Hrd : ∀ c, fs_read kf (mkFs (<[ku := n]> (dir f)) (<[n := c]> (inodes f)) (S n)) = fs_read kf f).
    { intros c. unfold fs_read. cbn. rewrite lookup_insert_ne by done. destruct (dir f !! kf) as [j|] eqn:E; [|done]. cbn. f_equal.
      unfold inode_data. cbn. by rewrite lookup_insert_ne by (by apply not_eq_sym, Hj). }
    destruct b; unfold fs_truncate; cbn [dir inodes next_inode]; rewrite ?insert_insert_eq; split_and!; try done; try apply HD; try done;
      try apply Hrd; try (by rewrite lookup_insert_eq). intros _. unfold inode_data. cbn. by rewrite lookup_insert_eq.
Qed.

(** What a start must leave behind. *)
Definition ft_started (s : FtState) (x : FtState * Result string (Z * string)) : Prop :=
  match x.2 with
  | Ok (k, id) => ∃ n, k = Z.of_nat n /\ Held id n n false x.1
  | Err _ => FtInv x.1
  end /\ fs_read kf (ft_fs x.1) = fs_read kf (ft_fs s).

Lemma id_prefix x : starts_with "ft_upload_" ("ft_upload_" +:+ x) = true.
Proof. by destruct x. Qed.

Lemma take_over_empty w sz fresh s :
  ft_pending_uploads s = ∅ -> ft_take_over order w fp sz fresh s = fresh s.
Proof. intros Hp. unfold ft_take_over. se_unfold. cbn. by rewrite Hp, find_none_empty. Qed.

(** A state between attempts with another drive. *)
Lemma inv_drive f s : FtInv s -> DriveInv f -> FtInv (set_ft_fs f s).
Proof. intros [? ? ? ?] Hf. by split. Qed.

Lemma create_writer_run opens n s :
  FtInv s ->
  let '(s', r) := ft_create_writer opens up n s in
  ∃ f, s' = set_ft_fs f s /\ DriveInv f /\ fs_read kf f = fs_read kf (ft_fs s)
  /\ ∀ w, r = Ok w -> dir f !! ku = Some (fw_inode w) /\ (fw_position w = n /\ fw_late w = false)
        /\ (n = 0 -> inode_data (fw_inode w) f = [])
        /\ (∀ i, dir (ft_fs s) !! ku = Some i -> fw_inode w = i)
        /\ (0 < n -> dir (ft_fs s) !! ku = Some (fw_inode w) -> inode_data (fw_inode w) f = inode_data (fw_inode w) (ft_fs s)).
Proof.
  intros [Hm Hp Hc HD]. unfold ft_create_writer. se_unfold. rewrite (resolve_run _ ku) by done.
  destruct opens; cbn [negb]; [|by exists (ft_fs s); destruct s].
  pose proof (open_part (ft_fs s) (0 <? n)%nat HD) as Ho. destruct (fs_create ku (ft_fs s)) as [f' i].
  destruct Ho as (H1 & H2 & H3 & H4 & H5 & H6). eexists. split; [reflexivity|]. split_and!; [done|done|].
  intros w [= <-]. cbn. split_and!; [done|done|done| |exact H6|].
  - intros ->. by apply H4.
  - intros Hn. apply H5. by apply Nat.ltb_lt.
Qed.

Lemma create_run env s :
  FtInv s -> ∀ x, ft_create new_v4 order env fp up size s = x ->
  ft_started s x /\ (fs_make env = true -> fs_open env = true -> is_ok x.2 = true).
Proof.
  intros HI x Hx. pose proof HI as [Hm Hp Hc HD]. unfold ft_create, se_bind at 1 in Hx.
  assert (Hempty : let '(s', r) := ft_create_empty_file (fs_make env) up s in
    ∃ f, s' = set_ft_fs f s /\ DriveInv f /\ fs_read kf f = fs_read kf (ft_fs s) /\ (fs_make env = true -> r = Ok tt)).
  { unfold ft_create_empty_file. se_unfold. rewrite (resolve_run _ ku) by done.
    destruct (fs_make env); cbn [negb]; [|exists (ft_fs s); by destruct s].
    pose proof (open_part (ft_fs s) false HD) as Ho. destruct (fs_create ku (ft_fs s)) as [f' i].
    destruct Ho as (H1 & _ & H3 & _). eexists. split; [reflexivity|done]. }
  destruct (ft_create_empty_file _ _ s) as [s1 r1]. destruct Hempty as (f1 & -> & HD1 & Hrd1 & Hmk).
  pose proof (inv_drive f1 s HI HD1) as HI1.
  destruct r1 as [[]|e]; [|subst x; by split; [split|intros E; specialize (Hmk E)]].
  unfold se_bind at 1 in Hx. pose proof (create_writer_run (fs_open env) 0 _ HI1) as Hw.
  assert (Hopen : fs_open env = true -> is_ok (ft_create_writer (fs_open env) up 0 (set_ft_fs f1 s)).2 = true).
  { intros ->. unfold ft_create_writer. se_unfold. rewrite (resolve_run _ ku) by done. cbn. by destruct (fs_create ku f1). }
  destruct (ft_create_writer _ _ 0 _) as [s2 r2]. destruct Hw as (f2 & -> & HD2 & Hrd2 & Hw).
  pose proof (inv_drive f2 _ HI1 HD2) as HI2. cbn [ft_fs set_ft_fs] in Hrd2.
  destruct r2 as [w|e]; [|subst x; split; [split; [done|by cbn; rewrite Hrd2]|intros _ E; by specialize (Hopen E)]].
  destruct (Hw w eq_refl) as (Hi & [Hpos Hlt] & Hdat & _ & _). specialize (Hdat eq_refl).
  rewrite take_over_empty in Hx by done. subst x. unfold ft_fresh_id. se_unfold. split; [|done]. split; [|cbn; by rewrite Hrd2].
  exists 0. split; [done|]. split; cbn; [done|by apply id_prefix| |lia|done|done].
  exists w. rewrite Hp. split_and!; [done|done| |done|done]. rewrite Hdat. by rewrite take_0.
Qed.

Lemma part_length f : DriveInv f -> fs_exists ku f = true ->
  ∃ i n, dir f !! ku = Some i /\ inode_data i f = take n src /\ n <= length src /\ fs_len ku f = Z.of_nat n.
Proof.
  intros HD. unfold fs_exists. rewrite bool_decide_eq_true. intros [i Hi]. destruct (di_up _ HD i Hi) as [k Hk].
  exists i, (length (take k src)). rewrite <- take_own_length. split_and!; [done|done|rewrite length_take; lia|].
  unfold fs_len, fs_read. rewrite Hi. cbn. by rewrite Hk.
Qed.

Lemma resume_run env s i n :
  FtInv s -> dir (ft_fs s) !! ku = Some i -> inode_data i (ft_fs s) = take n src -> n <= length src ->
  ∀ x, ft_resume new_v4 order env fp up size (Z.of_nat n) s = x ->
  ft_started s x /\ (fs_reopen env = true -> fs_make env = true -> fs_open env = true -> is_ok x.2 = true).
Proof.
  intros HI Hi Hd Hn x Hx. pose proof HI as [Hm Hp Hc HD]. unfold ft_resume, se_bind at 1 in Hx. rewrite Nat2Z.id in Hx.
  assert (Hopen : fs_reopen env = true -> is_ok (ft_create_writer (fs_reopen env) up n s).2 = true).
  { intros ->. unfold ft_create_writer. se_unfold. rewrite (resolve_run _ ku) by done. cbn. by destruct (fs_create ku (ft_fs s)). }
  pose proof (create_writer_run (fs_reopen env) n s HI) as Hw. destruct (ft_create_writer _ _ n s) as [s1 r1].
  destruct Hw as (f & -> & HDf & Hrd & Hw). pose proof (inv_drive f s HI HDf) as HI1.
  destruct r1 as [w|e]; [|subst x; split; [by split|intros E; by specialize (Hopen E)]].
  destruct (Hw w eq_refl) as (Hi' & [Hpos Hlt] & H0 & Hsame & Hpos').
  rewrite take_over_empty in Hx by done. unfold se_bind at 1, se_get in Hx. cbn [Datatypes.id ft_pending_uploads_closed set_ft_fs] in Hx.
  destruct (find_ft order _ (ft_pending_uploads_closed s)) as [[id u]|] eqn:Ef.
  - apply find_ft_some in Ef as [Hu Hmt]. destruct (Hc id u Hu) as (Hsz & Hufp & Huup & Hnm).
    subst x. se_unfold. split; [|done]. split; [|done]. exists n. split; [done|]. split; cbn; [done|done| |lia| |done].
    + exists w. rewrite Hp. split_and!; [|done| |done|done].
      * unfold with_ft_writer, with_ft_already, with_ft_channel. cbn. by rewrite Hsz, Hufp, Huup.
      * destruct n as [|n]; [by rewrite H0, take_0|]. pose proof (Hsame i Hi) as Hwi.
        rewrite Hpos', Hwi; [done|lia|congruence].
    + intros id' u' [_ Hu']%lookup_delete_Some. by eapply Hc.
  - destruct (create_run env (set_ft_fs f s) HI1 x Hx) as [[G1 G2] G3]. split; [split; [exact G1|by rewrite G2]|]. auto.
Qed.

Lemma discard_run env s :
  FtInv s ->
  let '(s', r) := discard_ft_cache env fp up s in
  FtInv s' /\ fs_read kf (ft_fs s') = fs_read kf (ft_fs s) /\ (fs_unlink env = true -> r = Ok tt).
Proof.
  intros HI. pose proof HI as [Hm Hp Hc HD]. unfold discard_ft_cache, ft_exists, ft_delete_file, ft_fs_op. se_unfold.
  cbn [Datatypes.id]. rewrite Hp, map_to_list_empty. cbn [existsb].
  set (s1 := set_ft_closed _ (set_ft_pending _ s)).
  assert (HI1 : FtInv s1).
  { split; cbn; [done|by rewrite Hp| |done]. intros id u [Hu _]%map_lookup_filter_Some. by eapply Hc. }
  assert (Hrem : FtInv (set_ft_fs (fs_remove ku (ft_fs s1)) s1) /\ fs_read kf (fs_remove ku (ft_fs s)) = fs_read kf (ft_fs s)).
  { split.
    - apply inv_drive; [done|]. destruct HD as [H1 H2 H3 H4]. split; cbn [fs_remove dir next_inode].
      + intros i. by rewrite lookup_delete_eq.
      + intros j. rewrite lookup_delete_ne by done. apply H2.
      + intros i j. by rewrite lookup_delete_eq.
      + intros q i [_ Hi]%lookup_delete_Some. by eapply H4.
    - unfold fs_read. cbn. by rewrite lookup_delete_ne. }
  assert (Hr1 : ft_resolve up s1 = (s1, Ok ku)) by (apply resolve_run; [apply HI1|done]).
  rewrite !Hr1. change (ft_fs s1) with (ft_fs s).
  destruct (fs_stat4 env && fs_exists ku (ft_fs s)) eqn:Ex; [|by split_and!].
  apply andb_true_iff in Ex as [_ Ex]. rewrite !Hr1. cbn [andb]. change (ft_fs s1) with (ft_fs s). rewrite Ex.
  destruct (fs_unlink env); cbn [negb].
  - change (ft_fs s1) with (ft_fs s) in Hrem. split_and!; [apply Hrem| |done]. apply Hrem.
  - split_and!; [|done|done]. split; cbn; [done| | |done].
    + rewrite Hp, !map_filter_empty. by rewrite fmap_empty, map_empty_union.
    + intros id u [Hu|[_ Hu]]%lookup_union_Some_raw.
      * rewrite lookup_fmap in Hu. destruct (_ !! id) as [u'|] eqn:E; [|done]. cbn in Hu. injection Hu as <-.
        apply map_lookup_filter_Some in E as [E _]. destruct (Hc id u' E) as (? & ? & ? & ?). by split_and!.
      * apply map_lookup_filter_Some in Hu as [Hu _]. by eapply Hc.
Qed.

Definition ft_start_fine (env : FtStartEnv) : Prop :=
  fs_stat1 env = true /\ fs_stat2 env = true /\ fs_stat3 env = true /\ fs_unlink env = true
  /\ fs_reopen env = true /\ fs_make env = true /\ fs_open env = true.

Lemma start_run env s :
  FtInv s -> ∀ x, start_ft_file_upload new_v4 order env path name size s = x ->
  ft_started s x /\ (ft_start_fine env -> fs_read kf (ft_fs s) = None -> is_ok x.2 = true).
Proof.
  intros HI x Hx. pose proof HI as [Hm Hp Hc HD]. unfold start_ft_file_upload, ft_exists, ft_file_size in Hx.
  assert (Hstop : ∀ e, (s, Err e) = x -> ft_started s x) by (intros e <-; by split).
  assert (Hnone : fs_read kf (ft_fs s) = None -> fs_exists kf (ft_fs s) = false).
  { unfold fs_read, fs_exists. destruct (dir (ft_fs s) !! kf); [done|]. by rewrite bool_decide_eq_false_2 by (by intros []). }
  revert Hx. unfold se_bind, se_get, se_guard, se_of_result, se_ret, se_throw. cbn [Datatypes.id].
  assert (Hr1 : ft_resolve fp s = (s, Ok kf)) by (by apply resolve_run).
  assert (Hr2 : ft_resolve up s = (s, Ok ku)) by (by apply resolve_run).
  rewrite Hr1.
  destruct (fs_stat1 env && fs_exists kf (ft_fs s)) eqn:E1.
  { intros Hx. split; [by eapply Hstop|]. intros _ Hn. by rewrite Hnone, andb_false_r in E1. }
  rewrite Hr2. destruct (fs_stat2 env && fs_exists ku (ft_fs s)) eqn:E2.
  - apply andb_true_iff in E2 as [_ Ex]. rewrite Hr2, Ex, andb_true_r.
    destruct (fs_stat3 env) eqn:E3; cbn [negb]; [|intros Hx; split; [by eapply Hstop|]; intros (_ & _ & ? & _); congruence].
    destruct (part_length _ HD Ex) as (i & n & Hi & Hd & Hn & ->). rewrite take_over_empty by done.
    destruct (Z.leb_spec 0 (Z.of_nat n)); [|lia]. destruct (Z.ltb_spec size (Z.of_nat n)); [lia|]. cbn [andb orb].
    destruct (negb (ft_closed_matches _ _ _ s)).
    + pose proof (discard_run env s HI) as Hdis. destruct (discard_ft_cache env fp up s) as [s1 r]. destruct Hdis as (HI1 & Hrd & Hr).
      destruct r as [[]|e].
      * intros Hx. destruct (create_run env s1 HI1 x Hx) as [[G1 G2] G3]. split; [split; [done|by rewrite G2]|].
        intros (_ & _ & _ & _ & _ & ? & ?) _. by apply G3.
      * intros <-. split; [by split|]. intros (_ & _ & _ & Hu & _). by specialize (Hr Hu).
    + intros Hx. destruct (resume_run env s i n HI Hi Hd Hn x Hx) as [G1 G2]. split; [done|].
      intros (_ & _ & _ & _ & ? & ? & ?) _. by apply G2.
  - rewrite take_over_empty by done. cbn. intros Hx. destruct (create_run env s HI x Hx) as [G1 G2]. split; [done|].
    intros (_ & _ & _ & _ & _ & ? & ?) _. by apply G2.
Qed.

(** ** Attempts *)

Record FtAttempt := mkFtAttempt {
  fa_start : FtStartEnv; fa_complete : FtCompleteEnv; fa_body : Z -> list BodyFrame }.

(** Start, then send from the offset that was told. *)
Definition ft_attempt (a : FtAttempt) (s : FtState) : FtState :=
  match start_ft_file_upload new_v4 order (fa_start a) path name size s with
  | (s, Err _) => s
  | (s, Ok (offset, id)) => (handle_ft_upload (fa_complete a) id (fa_body a offset) s).1
  end.

(** A write that failed in the background is followed by another one, which
    reports it: none is lost at the end of a body. *)
Fixpoint reported (late : bool) (frames : list BodyFrame) : bool :=
  match frames with
  | [] | FrameError :: _ => negb late
  | OtherFrame :: frames | DataFrame _ [] :: frames => reported late frames
  | DataFrame o _ :: frames => late || reported (is_lost o) frames
  end.

(** The body carries the file from the offset on, cut off anywhere; what is
    written can be flushed: [sync_all] succeeds, and no failure is left for
    [shutdown], which would only log it. *)
Definition ft_follows (a : FtAttempt) : Prop :=
  fc_flush (fa_complete a) = true
  /\ ∀ offset, (∃ n, body_data (fa_body a offset) = take n (drop (Z.to_nat offset) src))
               /\ reported false (fa_body a offset) = true.

Definition ft_faultless (a : FtAttempt) : Prop :=
  ft_start_fine (fa_start a) /\ fc_rename (fa_complete a) = true
  /\ ∀ offset, forallb frame_fine (fa_body a offset) = true /\ body_data (fa_body a offset) = drop (Z.to_nat offset) src.

Lemma try_complete_run env id k m late s :
  Held id k m late s -> (k = length src -> m = length src) -> fc_flush env = true -> FtInv (ft_try_complete env id s).
Proof.
  intros HH Hkm Hf. pose proof (complete_held env id k m late s HH Hkm Hf) as H. unfold ft_try_complete.
  destruct (complete_ft_upload env id s). apply H.
Qed.

(** After a write that was lost. *)
Lemma ft_body_late env id frames k m total s :
  Held id k m true s -> fc_flush env = true -> (∃ n, body_data frames = take n (drop k src)) -> reported true frames = true ->
  ∃ s' r, ft_upload_body env id frames total s = (s', inl r) /\ FtInv s'.
Proof.
  intros HH Hf Hn Hrep. induction frames as [|fr frames IH]; [done|].
  destruct fr as [|o [|b bs]|]; cbn [ft_upload_body]; [done|by apply IH| |by apply IH].
  destruct Hn as [n Hn]. unfold body_data in Hn. cbn [fmap list_fmap List.concat frame_data] in Hn.
  assert (Hk : k + length (b :: bs) <= length src).
  { pose proof (f_equal length Hn) as Hl. rewrite length_app, length_take, length_drop in Hl. cbn in *. lia. }
  destruct (append_late o id k m (b :: bs) s HH ltac:(done) Hk) as (s1 & e & -> & H1).
  eexists _, _. split; [done|]. eapply try_complete_run; [done| |done]. cbn in Hk. lia.
Qed.

Lemma ft_body_run env id frames k total s :
  Held id k k false s -> fc_flush env = true -> (∃ n, body_data frames = take n (drop k src)) -> reported false frames = true ->
  let '(s', r) := ft_upload_body env id frames total s in
  match r with
  | inl _ => FtInv s'
  | inr _ => Held id (k + length (body_data frames)) (k + length (body_data frames)) false s'
  end /\ (forallb frame_fine frames = true -> ∃ t, r = inr t).
Proof.
  revert k total s. induction frames as [|fr frames IH]; intros k total s HH Hf [n Hn] Hrep.
  { cbn. rewrite Nat.add_0_r. eauto. }
  unfold body_data in *. cbn [fmap list_fmap List.concat] in *.
  destruct fr as [|o [|b bs]|]; cbn [ft_upload_body forallb frame_fine frame_data app] in *.
  - split; [by eapply try_complete_run|done].
  - specialize (IH k total s HH Hf (ex_intro _ n Hn) Hrep). destruct (ft_upload_body _ _ _ _ _) as [s' r].
    destruct IH as [H1 H2]. split; [done|]. intros [_ ?]%andb_true_iff. auto.
  - change (b :: bs ++ ?x) with ((b :: bs) ++ x) in *. set (l := b :: bs) in *. cbn [reported orb] in Hrep.
    destruct (body_split src _ _ _ _ Hn) as [Hl Hrest].
    destruct (append_held o id k l s HH ltac:(done) (ex_intro _ (length l) Hl)) as [Ha Hw].
    destruct (append_ft_upload_data o id l s) as [s1 [x|e]]; unfold appended in Ha; cbn [fst snd] in Ha.
    + destruct (is_lost o) eqn:El.
      { destruct Ha as [m Ha]. destruct (ft_body_late env id frames _ m (total + Z.of_nat (length l))%Z s1 Ha Hf (ex_intro _ _ Hrest) Hrep)
          as (s' & r & -> & HI). split; [done|]. by destruct o. }
      specialize (IH (k + length l) (total + Z.of_nat (length l))%Z s1 Ha Hf (ex_intro _ _ Hrest) Hrep).
      destruct (ft_upload_body _ _ _ _ s1) as [s' r]. destruct IH as [H1 H2]. split.
      * destruct r; [done|]. by rewrite length_app, Nat.add_assoc.
      * intros [_ ?]%andb_true_iff. auto.
    + destruct Ha as (m & Hkm & Ha). split; [eapply try_complete_run; [done| |done]|].
      * pose proof (he_range _ _ _ _ _ Ha). lia.
      * intros [Hff _]%andb_true_iff. destruct o; [by discriminate (Hw eq_refl)|done..].
  - specialize (IH k total s HH Hf (ex_intro _ n Hn) Hrep). destruct (ft_upload_body _ _ _ _ _) as [s' r]. destruct IH as [H1 H2]. auto.
Qed.

Lemma ft_handle_run env id frames k s :
  Held id k k false s -> fc_flush env = true -> (∃ n, body_data frames = take n (drop k src)) -> reported false frames = true ->
  FtInv (handle_ft_upload env id frames s).1
  /\ (forallb frame_fine frames = true -> body_data frames = drop k src -> fc_rename env = true ->
      fs_read kf (ft_fs (handle_ft_upload env id frames s).1) = Some src).
Proof.
  intros HH Hf Hn Hrep. pose proof HH as [Hm Hnm (w & Hs & _) Hr _ _]. unfold handle_ft_upload.
  assert (is_empty id = false) as -> by (by destruct id). rewrite Hnm. cbn [orb negb].
  unfold get_ft_upload_progress, get_ft_session. se_unfold. rewrite Hs, lookup_singleton_eq. cbn [ok_or ft_size ft_already].
  pose proof (ft_body_run env id frames k (Z.of_nat k) s HH Hf Hn Hrep) as Hb.
  destruct (ft_upload_body _ _ _ _ s) as [s1 [r1|t]]; destruct Hb as [H1 H2].
  - split; [done|]. intros Hff. by destruct (H2 Hff).
  - pose proof (complete_held env id _ _ _ s1 H1 ltac:(done) Hf) as Hc. destruct (complete_ft_upload env id s1) as [s2 r2]. destruct Hc as [H3 H4].
    destruct r2; (split; [done|]); intros _ Hb Hrn; (apply H4; [rewrite Hb, length_drop; lia|done]).
Qed.

Lemma ft_attempt_run a s :
  FtInv s -> ft_follows a ->
  FtInv (ft_attempt a s)
  /\ (ft_faultless a -> fs_read kf (ft_fs s) = None -> fs_read kf (ft_fs (ft_attempt a s)) = Some src).
Proof.
  intros HI [Hf Hb]. unfold ft_attempt. destruct (start_run (fa_start a) s HI _ eq_refl) as [[Hst Hrd] Hgo].
  destruct (start_ft_file_upload _ _ _ _ _ _ s) as [s1 [[k id]|e]]; cbn [fst snd] in *.
  - destruct Hst as (n & -> & HH). destruct (Hb (Z.of_nat n)) as [[j Hj] Hrep]. rewrite Nat2Z.id in Hj.
    destruct (ft_handle_run (fa_complete a) id _ n s1 HH Hf (ex_intro _ j Hj) Hrep) as [H1 H2]. split; [done|].
    intros (_ & Hrn & Hfull) _. destruct (Hfull (Z.of_nat n)) as [Hff Hd]. rewrite Nat2Z.id in Hd. auto.
  - split; [done|]. intros (Hs & _) Hn. by specialize (Hgo Hs Hn).
Qed.
End one_file.

(** C25: Uploads to the file transfer drive are exact: whatever fails in however
    many attempts of a client that sends a file over HTTP and goes on from the
    offset it is told - questions about the drive that fail and count as absent,
    writes that stop half way, at once or in the background, renames, discards
    -, as long as what was written can be flushed ([sync_all] succeeds, and no
    body ends on a write that failed in the background), the drive shows the file only as it was sent, its part is
    always a prefix of it, and one attempt without faults finishes. *)
Theorem ft_upload_is_exact new_v4 order path name kf ku src f0 root attempts last :
  (∀ m, order m ≡ₚ map_to_list m) ->
  resolve_path FT_MOUNT_POINT (ft_file_path path name) = Ok kf ->
  resolve_path FT_MOUNT_POINT (ft_cache_path path name) = Ok ku -> ku ≠ kf ->
  (∀ p i, dir f0 !! p = Some i -> i < next_inode f0) -> dir f0 !! kf = None -> dir f0 !! ku = None ->
  Forall (ft_follows src) attempts -> ft_follows src last -> ft_faultless src last ->
  let run := fold_left (fun s a => ft_attempt new_v4 order path name src a s) attempts (mkFt f0 true root ∅ ∅ 0) in
  (fs_read kf (ft_fs run) = None \/ fs_read kf (ft_fs run) = Some src)
  /\ (∀ part, fs_read ku (ft_fs run) = Some part -> ∃ k, part = take k src)
  /\ (fs_read kf (ft_fs run) = None -> fs_read kf (ft_fs (ft_attempt new_v4 order path name src last run)) = Some src).
Proof.
  intros Hord Hkf Hku Hne Hnext Hfp Hup Hfol Hlf Hlast run.
  assert (HI : FtInv path name kf ku src run).
  { assert (HI0 : FtInv path name kf ku src (mkFt f0 true root ∅ ∅ 0)).
    { split; cbn; try done. split; cbn; [| | |done]; intros i; try congruence. }
    subst run. revert HI0. generalize (mkFt f0 true root ∅ ∅ 0).
    induction Hfol as [|a attempts Ha _ IH]; intros s HI0; [done|]. cbn [fold_left]. apply IH. by eapply ft_attempt_run. }
  clearbody run. pose proof (ti_drive _ _ _ _ _ _ HI) as Hd. split_and!.
  - unfold fs_read. destruct (dir (ft_fs run) !! kf) as [j|] eqn:Ej; [right|by left]. cbn. f_equal. by eapply di_fp.
  - intros part. unfold fs_read. destruct (dir (ft_fs run) !! ku) as [i|] eqn:Ei; [|done]. cbn. intros [= <-]. by eapply di_up.
  - intros Hn. by eapply ft_attempt_run.
Qed.
