(* ===== verification/TimeSync.v ===== *)
(** * Time synchronisation (time_sync.rs)

    The clock is set from the Date headers of web servers and from NTP.  A time is
    the number of nanoseconds since 1970; what the servers answer, how long an
    exchange takes and whether the device has only a link-local address are
    arguments, by server and by attempt. *)

From Stdlib Require Import Sorted.
From S2P Require Import Prelude Text.

Definition DEFAULT_NTP_SERVERS : list string :=
  ["time.google.com:123"; "time.cloudflare.com:123"; "time.windows.com:123"; "pool.ntp.org:123"; "time.nist.gov:123";
   "ntp.ntsc.ac.cn:123"; "ntp.aliyun.com:123"; "time.tencentcloud.com:123"; "time.hicloud.com:123"].

Definition DEFAULT_HTTP_TIME_URLS : list string :=
  ["http://www.gstatic.com/generate_204"; "http://www.google.com/"; "http://cp.cloudflare.com/"; "http://www.cloudflare.com/";
   "http://edge-http.microsoft.com/captiveportal/generate_204"; "http://www.microsoft.com/"; "http://www.apple.com/";
   "http://www.github.com/"; "http://www.baidu.com/"; "http://www.aliyun.com/"; "http://cloud.tencent.com/";
   "http://www.huaweicloud.com/"].

Definition NANOS : Z := 1000000000.

(** [dt.timestamp()]. *)
Definition timestamp (dt : Z) : Z := dt / NANOS.

(** ** The clock *)

Record Clock := mkClock { realtime : Z; settings : nat }.

Definition TM (A : Type) : Type := SE Clock string A.

(** A number of [w] bits with its sign. *)
Definition wrap_signed (w n : Z) : Z := (n + 2 ^ (w - 1)) mod 2 ^ w - 2 ^ (w - 1).

(** [tv_sec] is a [time_t] of [time_bits] bits. *)
Definition system_time_to_timespec (time_bits dt : Z) : Result string (Z * Z) :=
  if (dt <? 0)%Z then Err "system time before UNIX_EPOCH"
  else Ok (wrap_signed time_bits (dt / NANOS), dt mod NANOS)%Z.

Definition set_system_time (time_bits : Z) (settable : bool) (dt : Z) : TM unit :=
  let! (sec, nsec) := se_of_result (system_time_to_timespec time_bits dt) in
  se_guard (negb settable || (sec <? 0)%Z) "clock_settime failed" ;;;
  se_modify (fun c => mkClock (sec * NANOS + nsec) (S (settings c))).

(** ** Web servers *)

(** An exchange: the clock before and after it, and the date of the answer. *)
Record HttpDate := mkHttpDate { hd_t0 : Z; hd_t1 : Z; hd_date : option (option Z) }.

(** [None]: no answer; [Some None]: no header that is a date. *)
Definition http_date_with_rtt (answer : option HttpDate) : Result string Z :=
  match answer with
  | None => Err "send"
  | Some h =>
      match hd_date h with
      | None => Err "missing Date header"
      | Some None => Err "parse_http_date failed"
      | Some (Some srv_time) =>
          let rtt := Z.max 0 (hd_t1 h - hd_t0 h) in
          Ok (srv_time * NANOS + rtt / 2)%Z
      end
  end.

Inductive HttpMethod : Set := HEAD | GET.

Record HttpWorld := mkHttpWorld {
  http_answer : string -> HttpMethod -> option HttpDate;
  http_link_local : string -> bool }.

(** The samples of the servers up to the third; [None]: the device has only a
    link-local address. *)
Fixpoint gather (w : HttpWorld) (urls : list string) (samples : list (Z * string)) : option (list (Z * string)) :=
  match urls with
  | [] => Some samples
  | url :: urls =>
      let next samples := if (3 <=? length samples)%nat then Some samples else gather w urls samples in
      match http_date_with_rtt (http_answer w url HEAD) with
      | Ok dt => next (samples ++ [(dt, url)])
      | Err _ =>
          if http_link_local w url then None
          else match http_date_with_rtt (http_answer w url GET) with
               | Ok dt => next (samples ++ [(dt, url)])
               | Err _ => next samples
               end
      end
  end.

(** [sort_by_key], which keeps the order of equal keys. *)
Fixpoint insert_by_key (x : Z * string) (l : list (Z * string)) : list (Z * string) :=
  match l with
  | [] => [x]
  | y :: l => if (timestamp x.1 <? timestamp y.1)%Z then x :: y :: l else y :: insert_by_key x l
  end.
Definition sort_by_key (l : list (Z * string)) : list (Z * string) := fold_left (fun acc x => insert_by_key x acc) l [].

Definition MAX_HTTP_SOURCE_SPREAD_SECS : Z := 120.

Definition choose_sample (samples : list (Z * string)) : Result string (Z * string) :=
  match samples with
  | [] => Err "all HTTP time sources failed"
  | _ =>
      let samples := sort_by_key samples in
      let min_ts := default 0%Z ((fun s => timestamp s.1) <$> head samples) in
      let max_ts := default 0%Z ((fun s => timestamp s.1) <$> last samples) in
      if (MAX_HTTP_SOURCE_SPREAD_SECS <? max_ts - min_ts)%Z then Err "HTTP time sources disagree too much"
      else Ok (default (0%Z, "") (samples !! (length samples / 2)))
  end.

Section clock.
(** The bits of a [time_t] and whether the process may set the clock. *)
Context (time_bits : Z) (settable : bool).

Definition sync_time_once (w : HttpWorld) : TM unit :=
  match gather w DEFAULT_HTTP_TIME_URLS [] with
  | None => se_ret tt
  | Some samples =>
      let! (dt, _) := se_of_result (choose_sample samples) in
      set_system_time time_bits settable dt
  end.

(** ** NTP *)

(** The product of a [f64]: rounded to 53 bits, ties to even. *)
Definition round_f64 (n : Z) : Z :=
  let e := Z.max 0 (Z.log2 n - 52) in
  let q := Z.shiftr n e in
  let r := (n - Z.shiftl q e)%Z in
  let half := Z.shiftl 1 e in
  let up := (half <? 2 * r)%Z || ((2 * r =? half)%Z && Z.odd q && (0 <? e)%Z) in
  Z.shiftl (if up then q + 1 else q) e.

Definition NTP_TO_UNIX_OFFSET : Z := 2208988800.

(** [sec] and [frac] of the transmit time are 32-bit numbers. *)
Definition ntp_request (answer : option (Z * Z)) : Result string Z :=
  match answer with
  | None => Err "failed to request NTP time"
  | Some (ntp_seconds, ntp_fraction) =>
      let sec := (ntp_seconds - NTP_TO_UNIX_OFFSET)%Z in
      let nsec := (round_f64 (ntp_fraction * 1000000000) / 2 ^ 32)%Z in
      if (sec <? 0)%Z then Err "invalid NTP time: negative timestamp" else Ok (sec * NANOS + nsec)%Z
  end.

Record NtpWorld := mkNtpWorld { ntp_answer : string -> option (Z * Z); ntp_link_local : string -> bool }.

Fixpoint ask_ntp (w : NtpWorld) (servers : list string) : TM unit :=
  match servers with
  | [] => se_throw "all NTP servers failed"
  | server :: servers =>
      match ntp_request (ntp_answer w server) with
      | Ok dt => set_system_time time_bits settable dt
      | Err _ => if ntp_link_local w server then se_ret tt else ask_ntp w servers
      end
  end.

Definition sync_time_by_ntp (w : NtpWorld) : TM unit := ask_ntp w DEFAULT_NTP_SERVERS.

(** ** Both *)

Definition sync_plan (time_sync_mode : string) : bool * bool :=
  if String.eqb time_sync_mode "http_only" then (true, false)
  else if String.eqb time_sync_mode "ntp_only" then (false, true)
  else if String.eqb time_sync_mode "ntp_and_http" then (true, true)
  else (false, false).

(** The clock when the function returns, and whether NTP is asked after that in a
    task of its own. *)
Definition sync_time (time_sync_mode : string) (h : HttpWorld) (n : NtpWorld) (c : Clock) : Clock * bool :=
  let '(http_sync, ntp_sync) := sync_plan time_sync_mode in
  let '(c, succeed) := if http_sync then let '(c, r) := sync_time_once h c in (c, is_ok r) else (c, false) in
  if ntp_sync then
    if succeed then (c, true) else ((sync_time_by_ntp n c).1, false)
  else (c, false).

(** With the task at its end. *)
Definition sync_settled (time_sync_mode : string) (h : HttpWorld) (n : NtpWorld) (c : Clock) : Clock :=
  let '(c, spawned) := sync_time time_sync_mode h n c in
  if spawned then (sync_time_by_ntp n c).1 else c.
End clock.

(** ** The choice *)

Lemma insert_by_key_perm x l : insert_by_key x l ≡ₚ x :: l.
Proof.
  induction l as [|y l IH]; [done|]. cbn. case_match; [done|]. rewrite IH. apply Permutation_swap.
Qed.

Lemma sort_by_key_perm l : sort_by_key l ≡ₚ l.
Proof.
  unfold sort_by_key. change l with ([] ++ l) at 2. generalize (@nil (Z * string)). induction l as [|x l IH]; intros acc; cbn.
  - by rewrite app_nil_r.
  - rewrite IH, insert_by_key_perm. apply Permutation_middle.
Qed.

Definition key_le (a b : Z * string) : Prop := (timestamp a.1 <= timestamp b.1)%Z.

Lemma insert_by_key_sorted x l : StronglySorted key_le l -> StronglySorted key_le (insert_by_key x l).
Proof.
  induction 1 as [|y l Hl IH Hy]; [by repeat constructor|]. cbn. destruct (Z.ltb_spec (timestamp x.1) (timestamp y.1)).
  - constructor; [by constructor|]. constructor; [unfold key_le; lia|]. eapply Forall_impl; [exact Hy|]. unfold key_le. lia.
  - constructor; [done|]. rewrite insert_by_key_perm. constructor; [unfold key_le; lia|done].
Qed.

Lemma sort_by_key_sorted l : StronglySorted key_le (sort_by_key l).
Proof.
  unfold sort_by_key. assert (H : StronglySorted key_le []) by constructor. revert H. generalize (@nil (Z * string)).
  induction l as [|x l IH]; intros acc Hacc; cbn; [done|]. by apply IH, insert_by_key_sorted.
Qed.

Lemma sorted_lookup l i j x y : StronglySorted key_le l -> l !! i = Some x -> l !! j = Some y -> i <= j -> key_le x y.
Proof.
  intros Hs. revert i j. induction Hs as [|z l Hl IH Hz]; intros [|i] [|j] Hi Hj Hij; try done; try lia; cbn in *.
  - injection Hi as ->. injection Hj as ->. unfold key_le. lia.
  - injection Hi as ->. rewrite Forall_forall in Hz. apply Hz. by eapply list_elem_of_lookup_2.
  - apply (IH i j); [done|done|lia].
Qed.

(** How many samples lie between two times. *)
Definition within (a b : Z) (s : Z * string) : Prop := (a <= timestamp s.1 <= b)%Z.

#[export] Instance within_dec a b s : Decision (within a b s).
Proof. unfold within. apply _. Defined.

Lemma length_filter_none {A} (P : A -> Prop) `{!∀ x, Decision (P x)} l : Forall (fun x => ¬ P x) l -> length (filter P l) = 0.
Proof. induction 1 as [|x l Hx _ IH]; [done|]. by rewrite filter_cons_False. Qed.

(** The middle of a sorted list lies where most of the list does. *)
Lemma median_in_majority l a b m :
  StronglySorted key_le l -> l !! (length l / 2) = Some m -> length l < 2 * length (filter (within a b) l) -> within a b m.
Proof.
  intros Hs Hm Hmaj. destruct (decide (within a b m)) as [|Hn]; [done|]. exfalso.
  pose proof (lookup_lt_Some _ _ _ Hm) as Hlt. set (k := length l / 2) in *.
  assert (Hk : 2 * k <= length l < 2 * k + 2) by (unfold k; pose proof (Nat.div_mod_eq (length l) 2); pose proof (Nat.mod_upper_bound (length l) 2); lia).
  assert (Hsplit : length (filter (within a b) l) = length (filter (within a b) (take k l)) + length (filter (within a b) (drop (S k) l))).
  { rewrite <- (take_drop_middle l k m Hm) at 1. by rewrite filter_app, length_app, filter_cons_False. }
  assert (Hmid : ∀ i x, l !! i = Some x -> (i <= k -> key_le x m) /\ (k <= i -> key_le m x)).
  { intros i x Hx. split; intros Hi; by eapply sorted_lookup. }
  unfold within in Hn. destruct (decide (timestamp m.1 < a)%Z) as [Ha|Ha].
  - assert (length (filter (within a b) (take k l)) = 0) as H0.
    { apply length_filter_none, Forall_forall. intros x [i [Hi Hik]%lookup_take_Some]%list_elem_of_lookup.
      apply Hmid in Hi as [Hi _]. unfold key_le, within in *. lia. }
    pose proof (length_filter (within a b) (drop (S k) l)) as Hf. rewrite length_drop in Hf. lia.
  - assert (length (filter (within a b) (drop (S k) l)) = 0) as H0.
    { apply length_filter_none, Forall_forall. intros x [i Hi]%list_elem_of_lookup. rewrite lookup_drop in Hi.
      apply Hmid in Hi as [_ Hi]. unfold key_le, within in *. lia. }
    pose proof (length_filter (within a b) (take k l)) as Hf. rewrite length_take in Hf. lia.
Qed.

(** ** The samples *)

(** A sample is the date a server gave in one of its answers, half a round trip
    later. *)
Definition told (w : HttpWorld) (s : Z * string) : Prop :=
  ∃ m h date, http_answer w s.2 m = Some h /\ hd_date h = Some (Some date)
    /\ s.1 = (date * NANOS + Z.max 0 (hd_t1 h - hd_t0 h) / 2)%Z.

Lemma date_told w url m dt : http_date_with_rtt (http_answer w url m) = Ok dt -> told w (dt, url).
Proof.
  unfold http_date_with_rtt. destruct (http_answer w url m) as [h|] eqn:E; [|done].
  destruct (hd_date h) as [[date|]|] eqn:Ed; [|done..]. intros [= <-]. by exists m, h, date.
Qed.

(** The answer of a server: to [HEAD], or to [GET]. *)
Definition answer_of (w : HttpWorld) (url : string) : option (Z * string) :=
  (fun dt => (dt, url)) <$>
  match http_date_with_rtt (http_answer w url HEAD) with
  | Ok dt => Some dt
  | Err _ => result_ok (http_date_with_rtt (http_answer w url GET))
  end.

(** The servers that answer, the first three in their order. *)
Definition first_answers (w : HttpWorld) : list (Z * string) := take 3 (omap (answer_of w) DEFAULT_HTTP_TIME_URLS).

Lemma gather_spec w urls samples :
  length samples < 3 ->
  match gather w urls samples with
  | Some l => l = take 3 (samples ++ omap (answer_of w) urls)
  | None => ∃ url, url ∈ urls /\ http_link_local w url = true
  end.
Proof.
  revert samples. induction urls as [|url urls IH]; intros samples Hlen; cbn [gather omap list_omap].
  { by rewrite app_nil_r, take_ge by lia. }
  set (next samples := if (3 <=? length samples)%nat then Some samples else gather w urls samples).
  assert (Hnext : ∀ s', length s' <= 3 ->
    match next s' with
    | Some l => l = take 3 (s' ++ omap (answer_of w) urls)
    | None => ∃ u, u ∈ url :: urls /\ http_link_local w u = true
    end).
  { intros s' Hl. unfold next. destruct (Nat.leb_spec 3 (length s')).
    - assert (length s' = 3) by lia. by rewrite take_app_le, take_ge by lia.
    - pose proof (IH s' ltac:(lia)) as Hs. destruct (gather w urls s'); [done|].
      destruct Hs as (u & Hu & ?). exists u. split; [by right|done]. }
  assert (Hadd : ∀ dt, match next (samples ++ [(dt, url)]) with
    | Some l => l = take 3 (samples ++ (dt, url) :: omap (answer_of w) urls)
    | None => ∃ u, u ∈ url :: urls /\ http_link_local w u = true
    end).
  { intros dt. pose proof (Hnext (samples ++ [(dt, url)])) as H. rewrite <- app_assoc in H. apply H. rewrite length_app. cbn. lia. }
  unfold answer_of at 1. destruct (http_date_with_rtt (http_answer w url HEAD)) as [dt|] eqn:E1; cbn.
  { apply Hadd. }
  destruct (http_link_local w url) eqn:El; [exists url; split; [by left|done]|].
  destruct (http_date_with_rtt (http_answer w url GET)) as [dt|] eqn:E2; cbn.
  - apply Hadd.
  - apply Hnext. lia.
Qed.

Lemma first_answers_told w : Forall (told w) (first_answers w).
Proof.
  apply Forall_take, Forall_forall. intros x (url & _ & Hx)%list_elem_of_omap. unfold answer_of in Hx.
  destruct (http_date_with_rtt (http_answer w url HEAD)) as [dt|] eqn:E1; [injection Hx as <-; by eapply date_told|].
  destruct (http_date_with_rtt (http_answer w url GET)) as [dt|] eqn:E2; [injection Hx as <-; by eapply date_told|done].
Qed.

Lemma choose_spec samples m :
  choose_sample samples = Ok m ->
  m ∈ samples
  /\ (∀ s, s ∈ samples -> (Z.abs (timestamp s.1 - timestamp m.1) <= MAX_HTTP_SOURCE_SPREAD_SECS)%Z)
  /\ ∀ a b, length samples < 2 * length (filter (within a b) samples) -> within a b m.
Proof.
  unfold choose_sample. destruct samples as [|s0 rest]; [done|]. set (l := sort_by_key _). intros H.
  assert (Hp : l ≡ₚ s0 :: rest) by apply sort_by_key_perm. pose proof (sort_by_key_sorted (s0 :: rest)) as Hs. fold l in Hs.
  assert (Hlen : length l = S (length rest)) by (by rewrite Hp).
  destruct (lookup_lt_is_Some_2 l (length l / 2)) as [x Hx]; [rewrite Hlen; apply Nat.div_lt; lia|]. rewrite Hx in H.
  destruct (lookup_lt_is_Some_2 l 0) as [x0 H0]; [lia|]. destruct (lookup_lt_is_Some_2 l (length rest)) as [x1 H1]; [lia|].
  assert (head l = Some x0) as Hh by (destruct l; [done|by injection H0 as ->]). rewrite Hh in H.
  assert (last l = Some x1) as Hl by (by rewrite last_lookup, Hlen). rewrite Hl in H. cbn in H.
  destruct (Z.ltb_spec MAX_HTTP_SOURCE_SPREAD_SECS (timestamp x1.1 - timestamp x0.1)) as [|Hspread]; [done|]. injection H as <-.
  assert (Hin : ∀ i s, l !! i = Some s -> key_le x0 s /\ key_le s x1).
  { intros i s Hi. pose proof (lookup_lt_Some _ _ _ Hi). split; (eapply sorted_lookup; [exact Hs|eassumption..|lia]). }
  split_and!.
  - rewrite <- Hp. by eapply list_elem_of_lookup_2.
  - intros s. rewrite <- Hp. intros [i Hi]%list_elem_of_lookup. apply Hin in Hi as [G1 G2]. apply Hin in Hx as [G3 G4].
    unfold key_le in *. lia.
  - intros a b Hmaj. eapply median_in_majority; [exact Hs|exact Hx|]. rewrite <- Hp in Hmaj. exact Hmaj.
Qed.

(** Answers close to each other are enough for a choice. *)
Lemma choose_succeeds samples :
  samples <> [] -> (∀ s t, s ∈ samples -> t ∈ samples -> (timestamp s.1 - timestamp t.1 <= MAX_HTTP_SOURCE_SPREAD_SECS)%Z) ->
  ∃ m, choose_sample samples = Ok m.
Proof.
  unfold choose_sample. destruct samples as [|s0 rest]; [done|]. intros _ Hclose. set (l := sort_by_key _).
  assert (Hp : l ≡ₚ s0 :: rest) by apply sort_by_key_perm. rewrite last_lookup.
  assert (Hin : ∀ i s, l !! i = Some s -> s ∈ s0 :: rest) by (intros i s Hi; rewrite <- Hp; by eapply list_elem_of_lookup_2).
  assert (Hlen : length l = S (length rest)) by (by rewrite Hp). rewrite Hlen. cbn [Nat.pred].
  destruct (lookup_lt_is_Some_2 l 0) as [x0 H0]; [lia|]. destruct (lookup_lt_is_Some_2 l (length rest)) as [x1 H1]; [lia|].
  assert (head l = Some x0) as -> by (destruct l; [done|by injection H0 as ->]). rewrite H1. cbn.
  pose proof (Hclose x1 x0 (Hin _ _ H1) (Hin _ _ H0)). destruct (Z.ltb_spec MAX_HTTP_SOURCE_SPREAD_SECS (timestamp x1.1 - timestamp x0.1)); [lia|by eexists].
Qed.

(** ** The clock *)

Lemma set_system_time_spec tb settable dt c :
  (1 < tb)%Z ->
  let '(c', r) := set_system_time tb settable dt c in
  match r with
  | Ok _ => settable = true /\ (0 <= dt)%Z /\ settings c' = S (settings c) /\ (timestamp dt < 2 ^ (tb - 1) -> realtime c' = dt)%Z
  | Err _ => c' = c
  end.
Proof.
  intros Htb. unfold set_system_time, system_time_to_timespec. se_unfold. destruct (Z.ltb_spec dt 0); [done|].
  destruct settable; cbn [negb orb]; [|done]. destruct (Z.ltb_spec (wrap_signed tb (dt / NANOS)) 0); [done|].
  cbn. split_and!; [done|done|done|]. unfold timestamp, wrap_signed. intros Hr.
  assert (0 <= dt / NANOS)%Z by (apply Z.div_pos; unfold NANOS; lia).
  assert (2 ^ tb = 2 * 2 ^ (tb - 1))%Z as Hpow by (rewrite <- Z.pow_succ_r by lia; f_equal; lia).
  rewrite (Z.mod_small _ (2 ^ tb)) by lia. pose proof (Z.div_mod dt NANOS ltac:(unfold NANOS; lia)). lia.
Qed.

(** A time that can be set is set. *)
Lemma set_system_time_succeeds tb dt c :
  (1 < tb)%Z -> (0 <= dt)%Z -> (timestamp dt < 2 ^ (tb - 1))%Z -> (set_system_time tb true dt c).2 = Ok tt.
Proof.
  intros Htb Hdt Hr. unfold set_system_time, system_time_to_timespec. se_unfold. destruct (Z.ltb_spec dt 0); [lia|]. cbn [negb orb].
  unfold timestamp, wrap_signed in *. assert (0 <= dt / NANOS)%Z by (apply Z.div_pos; unfold NANOS; lia).
  assert (2 ^ tb = 2 * 2 ^ (tb - 1))%Z as Hpow by (rewrite <- Z.pow_succ_r by lia; f_equal; lia).
  rewrite (Z.mod_small _ (2 ^ tb)) by lia. destruct (Z.ltb_spec (dt / NANOS + 2 ^ (tb - 1) - 2 ^ (tb - 1)) 0); [lia|done].
Qed.

(** C32: The clock follows the majority of the web servers that answer: taking the
    first three servers of the list that answer (to [HEAD], or else to [GET]), each
    with its date plus half the round trip, the clock is left alone or set once to
    one of these answers (when the [time_t] of the device holds it), which is
    within two minutes of every one of them; and when most of them lie within some
    span of seconds, so does the new time.  It is set when some server answers,
    they agree to two minutes, none is a link-local address, and the device may
    set its clock and can hold the times. *)
Theorem clock_follows_majority tb settable w c :
  (1 < tb)%Z ->
  let samples := first_answers w in
  let '(c', r) := sync_time_once tb settable w c in
  Forall (told w) samples
  /\ (c' = c
      \/ r = Ok tt /\ settings c' = S (settings c)
         /\ ∃ m, m ∈ samples /\ (timestamp m.1 < 2 ^ (tb - 1) -> realtime c' = m.1)%Z
            /\ (∀ s, s ∈ samples -> (Z.abs (timestamp s.1 - timestamp m.1) <= 120)%Z)
            /\ ∀ a b, length samples < 2 * length (filter (within a b) samples) -> within a b m)
  /\ (samples <> [] -> settable = true -> (∀ url, url ∈ DEFAULT_HTTP_TIME_URLS -> http_link_local w url = false) ->
      (∀ s t, s ∈ samples -> t ∈ samples -> (timestamp s.1 - timestamp t.1 <= 120)%Z) ->
      (∀ s, s ∈ samples -> (0 <= s.1)%Z /\ (timestamp s.1 < 2 ^ (tb - 1))%Z) ->
      r = Ok tt /\ settings c' = S (settings c)).
Proof.
  intros Htb samples. unfold sync_time_once. pose proof (gather_spec w DEFAULT_HTTP_TIME_URLS [] ltac:(cbn; lia)) as Hg.
  destruct (gather w DEFAULT_HTTP_TIME_URLS []) as [l|].
  2:{ split_and!; [apply first_answers_told|by left|]. intros _ _ Hno. destruct Hg as (url & Hu & Hl). by rewrite Hno in Hl. }
  cbn [app] in Hg. fold (first_answers w) in Hg. fold samples in Hg. subst l.
  pose proof (choose_succeeds samples) as Hgo. unfold se_bind, se_of_result.
  destruct (choose_sample samples) as [[dt url]|] eqn:Em.
  2:{ split_and!; [apply first_answers_told|by left|]. intros Hne _ _ Hc _. by destruct (Hgo Hne Hc). }
  destruct (choose_spec _ _ Em) as (Hin & Hspread & Hmaj).
  pose proof (set_system_time_spec tb settable dt c Htb) as Hset. pose proof (set_system_time_succeeds tb dt c Htb) as Hyes.
  destruct (set_system_time tb settable dt c) as [c' [[]|e]] eqn:E.
  - destruct Hset as (_ & _ & Hn & Hrt). split_and!; [apply first_answers_told|right; split_and!; [done|done|]; by exists (dt, url)|done].
  - split_and!; [apply first_answers_told|by left|]. intros _ -> _ _ Hr. destruct (Hr _ Hin) as [H1 H2].
    specialize (Hyes H1 H2). by rewrite E in Hyes.
Qed.

(** ** NTP *)

Lemma round_f64_close n : (0 <= n < 2 ^ 62)%Z -> (Z.abs (round_f64 n - n) <= 256)%Z.
Proof.
  intros Hn. unfold round_f64. set (e := Z.max 0 (Z.log2 n - 52)).
  assert (He : (0 <= e <= 9)%Z).
  { unfold e. pose proof (Z.log2_le_mono n (2 ^ 62 - 1) ltac:(lia)) as Hl. change (Z.log2 (2 ^ 62 - 1)) with 61%Z in Hl. lia. }
  rewrite !Z.shiftl_mul_pow2, !Z.shiftr_div_pow2 by lia.
  assert (Hpow : (1 <= 2 ^ e <= 512)%Z).
  { split; [apply Z.pow_le_mono_r with (b := 0%Z); lia|]. change 512%Z with (2 ^ 9)%Z. apply Z.pow_le_mono_r; lia. }
  set (p := (2 ^ e)%Z) in *. pose proof (Z.div_mod n p ltac:(lia)) as Hd. pose proof (Z.mod_pos_bound n p ltac:(lia)) as Hm.
  set (q := (n / p)%Z) in *. destruct (_ || _) eqn:Eu.
  - apply orb_true_iff in Eu. assert (1 * p <= 2 * (n - q * p))%Z.
    { destruct Eu as [Eu|Eu]; [apply Z.ltb_lt in Eu|apply andb_true_iff in Eu as [Eu _]; apply andb_true_iff in Eu as [Eu _]; apply Z.eqb_eq in Eu]; lia. }
    nia.
  - apply orb_false_iff in Eu as [Eu _]. apply Z.ltb_ge in Eu. nia.
Qed.

(** The fraction of a second of an NTP answer is within a nanosecond of what the
    server said, and never a whole second. *)
Lemma ntp_nanoseconds sec frac dt :
  (0 <= frac < 2 ^ 32)%Z -> ntp_request (Some (sec, frac)) = Ok dt ->
  timestamp dt = (sec - NTP_TO_UNIX_OFFSET)%Z
  /\ (Z.abs (dt mod NANOS - frac * NANOS / 2 ^ 32) <= 1)%Z.
Proof.
  intros Hf. unfold ntp_request. destruct (Z.ltb_spec (sec - NTP_TO_UNIX_OFFSET) 0) as [|Hs]; [done|]. intros [= <-].
  change 1000000000%Z with NANOS. set (n := (frac * NANOS)%Z).
  assert (Hn : (0 <= n <= (2 ^ 32 - 1) * NANOS)%Z) by (unfold n, NANOS; lia).
  pose proof (round_f64_close n ltac:(unfold NANOS in Hn; lia)) as Hc.
  assert (Hlow : (0 <= round_f64 n)%Z).
  { unfold round_f64. apply Z.shiftl_nonneg. assert (0 <= Z.shiftr n (Z.max 0 (Z.log2 n - 52)))%Z by (apply Z.shiftr_nonneg; lia). case_match; lia. }
  set (r := round_f64 n) in *.
  assert (H1 : (0 <= r / 2 ^ 32 < NANOS)%Z).
  { split; [apply Z.div_pos; lia|]. apply Z.div_lt_upper_bound; [lia|]. unfold NANOS in *. lia. }
  unfold timestamp. rewrite Z.div_add_l by (unfold NANOS; lia). rewrite (Z.div_small (r / 2 ^ 32)) by lia. split; [lia|].
  rewrite Z.add_comm, Z_mod_plus_full, Z.mod_small by lia.
  pose proof (Z.div_mod r (2 ^ 32) ltac:(lia)). pose proof (Z.mod_pos_bound r (2 ^ 32) ltac:(lia)).
  pose proof (Z.div_mod n (2 ^ 32) ltac:(lia)). pose proof (Z.mod_pos_bound n (2 ^ 32) ltac:(lia)). lia.
Qed.

(** ** Runs *)

(** Nine o'clock in UTC on the first of January 2025, in seconds. *)
Definition nine : Z := 1735722000.

Definition web_answers (times : string -> option Z) : HttpWorld :=
  mkHttpWorld (fun url _ => (fun t => mkHttpDate 0 20000000 (Some (Some t))) <$> times url) (fun _ => false).

(** Two servers agree, the third is a minute off. *)
Definition three_servers : HttpWorld :=
  web_answers (fun url => if String.eqb url "http://www.google.com/" then Some (nine + 60)%Z
                          else if starts_with "http://www.gstatic" url || starts_with "http://cp." url then Some nine else None).

Lemma clock_follows_majority_witness :
  first_answers three_servers
  = [(nine * NANOS + 10000000, "http://www.gstatic.com/generate_204"); ((nine + 60) * NANOS + 10000000, "http://www.google.com/");
     (nine * NANOS + 10000000, "http://cp.cloudflare.com/")]%Z
  /\ sync_time_once 64 true three_servers (mkClock 0 0) = (mkClock (nine * NANOS + 10000000) 1, Ok tt)
  /\ let '(c', r) := sync_time_once 64 true three_servers (mkClock 0 0) in r = Ok tt /\ settings c' = 1.
Proof.
  split; [vm_compute; reflexivity|]. split; [vm_compute; reflexivity|].
  pose proof (clock_follows_majority 64 true three_servers (mkClock 0 0) ltac:(lia)) as H.
  assert (Hs : first_answers three_servers = [(1735722000010000000, "http://www.gstatic.com/generate_204");
    (1735722060010000000, "http://www.google.com/"); (1735722000010000000, "http://cp.cloudflare.com/")]%Z) by (vm_compute; reflexivity).
  cbv zeta in H. rewrite Hs in H. destruct (sync_time_once 64 true three_servers (mkClock 0 0)) as [c' r].
  apply H; [done|done|done| |].
  - intros s t Hi Ht. rewrite !elem_of_cons in Hi, Ht. destruct Hi as [->|[->|[->|[]%elem_of_nil]]], Ht as [->|[->|[->|[]%elem_of_nil]]]; vm_compute; done.
  - intros s Hi. rewrite !elem_of_cons in Hi. destruct Hi as [->|[->|[->|[]%elem_of_nil]]]; vm_compute; done.
Defined.

(** One server that answers alone sets the clock, however wrong it is. *)
Lemma lone_server_sets_clock :
  sync_time_once 64 true (web_answers (fun url => if String.eqb url "http://www.baidu.com/" then Some 4102444800%Z else None)) (mkClock (nine * NANOS) 0)
  = (mkClock (4102444800 * NANOS + 10000000) 1, Ok tt).
Proof. vm_compute. reflexivity. Qed.

(** With a clock of 32 bits no time after January 2038 is accepted. *)
Lemma short_time_ends_2038 : set_system_time 32 true ((2 ^ 31) * NANOS)%Z (mkClock 0 0) = (mkClock 0 0, Err "clock_settime failed").
Proof. vm_compute. reflexivity. Qed.
