(* ===== verification/IpBridge.v ===== *)
(** * The forwarding bridge (ip_forward/bridge.rs, webrtc/dc.rs)

    A data channel on one side, a TCP connection or a UDP socket on the other.
    The poll loop of the channel, the task that each message spawns, and the two
    directions of the bridge run side by side; an event is one of them up to its
    next await.  Histories are kept of the messages of the channel, of what the
    target sent, and of the chunks that were taken from the queue. *)

From S2P Require Import Prelude Text IpForward.

Definition UDP_MAX_DATAGRAM : nat := 1200.
Definition TCP_BUF : nat := 16 * 1024.
Definition QUEUE_SIZE : nat := 64.

(** Waiting for the channel to open, for the connection, forwarding, over. *)
Inductive Phase : Set := WaitOpen | Connecting | Forwarding | Over.

#[export] Instance Phase_eq_dec : EqDecision Phase.
Proof. solve_decision. Defined.

Abbreviation Bytes := (list Z).

Record Bridge := mkBridge {
  phase : Phase;
  polling : bool; (** the poll loop of the channel runs *)
  tasks : list Bytes; (** spawned tasks that wait for room in the queue *)
  queue : list Bytes; (** [dc_tx], [dc_rx] *)
  close_pending : bool; (** [close_tx], [close_rx] *)
  target_open : bool;
  writing : option Bytes; (** what is left of the chunk that is being written *)
  written : list Bytes; (** the writes on the target *)
  holding : option Bytes; (** what was read and waits for room in the channel *)
  sent : list Bytes; (** to the channel *)
  channel_closed : bool;
  outcome : option (Result string unit);
  accepted : list Bytes; (** messages the handler spawned a task for *)
  taken : list Bytes; (** chunks taken from the queue *)
  received : list Bytes (** what the target sent *) }.

Definition bridge_new : Bridge :=
  mkBridge WaitOpen true [] [] false false None [] None [] false None [] [] [].

Definition set_phase x b := mkBridge x (polling b) (tasks b) (queue b) (close_pending b) (target_open b) (writing b) (written b) (holding b) (sent b) (channel_closed b) (outcome b) (accepted b) (taken b) (received b).
Definition set_polling x b := mkBridge (phase b) x (tasks b) (queue b) (close_pending b) (target_open b) (writing b) (written b) (holding b) (sent b) (channel_closed b) (outcome b) (accepted b) (taken b) (received b).
Definition set_tasks x b := mkBridge (phase b) (polling b) x (queue b) (close_pending b) (target_open b) (writing b) (written b) (holding b) (sent b) (channel_closed b) (outcome b) (accepted b) (taken b) (received b).
Definition set_queue x b := mkBridge (phase b) (polling b) (tasks b) x (close_pending b) (target_open b) (writing b) (written b) (holding b) (sent b) (channel_closed b) (outcome b) (accepted b) (taken b) (received b).
Definition set_close x b := mkBridge (phase b) (polling b) (tasks b) (queue b) x (target_open b) (writing b) (written b) (holding b) (sent b) (channel_closed b) (outcome b) (accepted b) (taken b) (received b).
Definition set_target x b := mkBridge (phase b) (polling b) (tasks b) (queue b) (close_pending b) x (writing b) (written b) (holding b) (sent b) (channel_closed b) (outcome b) (accepted b) (taken b) (received b).
Definition set_writing x y b := mkBridge (phase b) (polling b) (tasks b) (queue b) (close_pending b) (target_open b) x y (holding b) (sent b) (channel_closed b) (outcome b) (accepted b) (taken b) (received b).
Definition set_holding x y b := mkBridge (phase b) (polling b) (tasks b) (queue b) (close_pending b) (target_open b) (writing b) (written b) x y (channel_closed b) (outcome b) (accepted b) (taken b) (received b).
Definition set_accepted x b := mkBridge (phase b) (polling b) (tasks b) (queue b) (close_pending b) (target_open b) (writing b) (written b) (holding b) (sent b) (channel_closed b) (outcome b) x (taken b) (received b).
Definition set_taken x b := mkBridge (phase b) (polling b) (tasks b) (queue b) (close_pending b) (target_open b) (writing b) (written b) (holding b) (sent b) (channel_closed b) (outcome b) (accepted b) x (received b).
Definition set_received x b := mkBridge (phase b) (polling b) (tasks b) (queue b) (close_pending b) (target_open b) (writing b) (written b) (holding b) (sent b) (channel_closed b) (outcome b) (accepted b) (taken b) x.

(** The function returns: its halves of the queue and the socket are gone.  The
    channel is closed unless the wait for it to open failed. *)
Definition finish (close_channel : bool) (r : Result string unit) (b : Bridge) : Bridge :=
  mkBridge Over (polling b) (tasks b) (queue b) (close_pending b) false None (written b) None (sent b)
    (channel_closed b || close_channel) (Some r) (accepted b) (taken b) (received b).

(** The events of the channel ([DcCallbacks]). *)
Inductive DataChannelEvent : Type :=
| OnOpen
| OnMessage (data : Bytes)
| OnBufferedAmountLow
| OnBufferedAmountHigh
| OnClosed (** [OnClose], [OnClosing], [OnError] and the end of [poll] *).

Section bridge.
Context (params : IpForwardParams).

Definition udp_max : option nat :=
  match fw_protocol params with Udp => Some UDP_MAX_DATAGRAM | Tcp => None end.

(** The task of a message up to its wait for the queue: nothing is forwarded of
    an empty message, or of one that does not fit a datagram. *)
Definition on_message (data : Bytes) (b : Bridge) : Bridge :=
  if bool_decide (data = []) then b
  else if match udp_max with Some max => (max <? length data)%nat | None => false end then b
  else set_tasks (tasks b ++ [data]) (set_accepted (accepted b ++ [data]) b).

Definition on_close (b : Bridge) : Bridge := set_close true b.

(** One turn of the poll loop. *)
Definition dc_event (e : DataChannelEvent) (b : Bridge) : Bridge :=
  match e with
  | OnOpen | OnBufferedAmountLow | OnBufferedAmountHigh => b
  | OnMessage data => on_message data b
  | OnClosed => set_polling false (on_close b)
  end.

(** [dc_tx.send]: waits for room; fails when the bridge is over. *)
Definition task_send (i : nat) (b : Bridge) : option Bridge :=
  match tasks b !! i with
  | None => None
  | Some data =>
      let b' := set_tasks (take i (tasks b) ++ drop (S i) (tasks b)) b in
      if bool_decide (phase b = Over) then Some (set_close true b')
      else if (length (queue b) <? QUEUE_SIZE)%nat then Some (set_queue (queue b ++ [data]) b')
      else None
  end.

(** The result of [connect]. *)
Inductive ConnectResult : Set := Connected | ConnectError (e : string) | ConnectTimeout | BindError.

Definition addr : string := fw_host params +:+ ":" +:+ pretty (fw_port params).

(** [biased]: a pending close wins. *)
Definition connect_event (r : ConnectResult) (b : Bridge) : option Bridge :=
  let name := match fw_protocol params with Tcp => "TCP" | Udp => "UDP" end in
  match r, fw_protocol params with
  | BindError, Tcp => None
  | BindError, Udp => Some (finish true (Err "udp bind") b)
  | _, _ =>
      if close_pending b then
        Some (finish true (Err (err_msg ForwardBridgeFailed ("DataChannel closed before " +:+ name +:+ " connect completed"))) b)
      else match r with
           | ConnectError e => Some (finish true (Err (err_msg ConnectFailed (name +:+ " connect to " +:+ addr +:+ " failed: " +:+ e))) b)
           | ConnectTimeout => Some (finish true (Err (err_msg ConnectFailed (name +:+ " connect to " +:+ addr +:+ " timed out"))) b)
           | _ => Some (set_phase Forwarding (set_target true b))
           end
  end.

(** A read: at most the buffer.  The rest of a datagram is gone, that of a
    stream comes with a later read. *)
Definition read_target (data : Bytes) (b : Bridge) : option Bridge :=
  match holding b, fw_protocol params with
  | Some _, _ => None
  | None, Tcp =>
      if bool_decide (data = []) then Some (finish true (Ok tt) b)
      else if (TCP_BUF <? length data)%nat then None
      else Some (set_received (received b ++ [data]) (set_holding (Some data) (sent b) b))
  | None, Udp =>
      if bool_decide (data = []) then Some b
      else Some (set_received (received b ++ [data]) (set_holding (Some (take UDP_MAX_DATAGRAM data)) (sent b) b))
  end.

Definition send_channel (ok : bool) (b : Bridge) : option Bridge :=
  match holding b with
  | None => None
  | Some data => Some (if ok then set_holding None (sent b ++ [data]) b else finish true (Ok tt) b)
  end.

(** [dc_rx.recv]: [None] once every sender is gone. *)
Definition recv_queue (b : Bridge) : option Bridge :=
  match writing b, queue b with
  | Some _, _ => None
  | None, data :: queue => Some (set_writing (Some data) (written b) (set_taken (taken b ++ [data]) (set_queue queue b)))
  | None, [] => if polling b || negb (bool_decide (tasks b = [])) then None else Some (finish true (Ok tt) b)
  end.

(** A write of [write_all] takes some bytes, [send] a whole datagram. *)
Definition write_target (n : nat) (b : Bridge) : option Bridge :=
  match writing b, fw_protocol params with
  | None, _ => None
  | Some data, Tcp =>
      if (n =? 0)%nat then None
      else Some (set_writing (if (length data <=? n)%nat then None else Some (drop n data)) (written b ++ [take n data]) b)
  | Some data, Udp => Some (set_writing None (written b ++ [data]) b)
  end.

Inductive BridgeEvent : Type :=
| DcEvent (e : DataChannelEvent)
| TaskSend (i : nat)
| OpenResult (r : Result string unit)
| ConnectEvent (r : ConnectResult)
| ReadTarget (data : Bytes)
| ReadError
| SendChannel (ok : bool)
| RecvQueue
| WriteTarget (n : nat)
| WriteError
| CloseSeen.

Definition bridge_step (e : BridgeEvent) (b : Bridge) : option Bridge :=
  match e, phase b with
  | DcEvent e, _ => if polling b then Some (dc_event e b) else None
  | TaskSend i, _ => task_send i b
  | OpenResult (Ok _), WaitOpen => Some (set_phase Connecting b)
  | OpenResult (Err x), WaitOpen => Some (finish false (Err x) b)
  | ConnectEvent r, Connecting => connect_event r b
  | ReadTarget data, Forwarding => read_target data b
  | ReadError, Forwarding => match holding b with None => Some (finish true (Ok tt) b) | Some _ => None end
  | SendChannel ok, Forwarding => send_channel ok b
  | RecvQueue, Forwarding => recv_queue b
  | WriteTarget n, Forwarding => write_target n b
  | WriteError, Forwarding => match writing b with Some _ => Some (finish true (Ok tt) b) | None => None end
  | CloseSeen, Forwarding => if close_pending b then Some (finish true (Ok tt) b) else None
  | _, _ => None
  end.

Fixpoint bridge_run (es : list BridgeEvent) (b : Bridge) : option Bridge :=
  match es with
  | [] => Some b
  | e :: es => match bridge_step e b with Some b => bridge_run es b | None => None end
  end.
End bridge.

(** * The forwarding bridge: what goes through it *)

Section bridge.
Context (params : IpForwardParams).
Local Abbreviation step := (bridge_step params).

(** What reaches the channel of a read. *)
Definition clip : Bytes -> Bytes :=
  match fw_protocol params with Tcp => fun d => d | Udp => take UDP_MAX_DATAGRAM end.

Definition idle (b : Bridge) : Prop :=
  target_open b = false /\ taken b = [] /\ writing b = None /\ written b = [] /\ received b = [] /\ holding b = None /\ sent b = [].

(** Stream bytes for TCP, datagrams for UDP. *)
Definition units (l : list Bytes) : list Bytes :=
  match fw_protocol params with Tcp => [List.concat l] | Udp => l end.

Definition written_so_far (b : Bridge) : Prop :=
  match fw_protocol params with
  | Tcp => List.concat (written b) ++ default [] (writing b) = List.concat (taken b)
  | Udp => written b ++ option_list (writing b) = taken b
  end.

Definition written_prefix (b : Bridge) : Prop :=
  match fw_protocol params with
  | Tcp => List.concat (written b) `prefix_of` List.concat (taken b)
  | Udp => written b `prefix_of` taken b
  end.

Record BridgeInv (b : Bridge) : Prop := {
  bi_idle : phase b = WaitOpen \/ phase b = Connecting -> idle b;
  bi_back : phase b <> Over -> sent b ++ option_list (holding b) = clip <$> received b;
  bi_back_prefix : sent b `prefix_of` clip <$> received b;
  bi_forth : phase b <> Over -> written_so_far b;
  bi_forth_prefix : written_prefix b;
  bi_messages : taken b ++ queue b ++ tasks b ⊆+ accepted b;
  bi_small : fw_protocol params = Udp -> Forall (fun d => length d <= UDP_MAX_DATAGRAM) (accepted b);
  bi_over : phase b = Over -> target_open b = false /\ is_Some (outcome b) /\ (channel_closed b = true \/ idle b);
  bi_outcome : phase b <> Over -> outcome b = None }.

Lemma so_far_prefix b : written_so_far b -> written_prefix b.
Proof. unfold written_so_far, written_prefix. destruct (fw_protocol params); intros <-; by eexists. Qed.

Lemma bridge_new_inv : BridgeInv bridge_new.
Proof.
  split; try done; cbn; try (by apply Forall_nil_2); unfold written_so_far, written_prefix; destruct (fw_protocol params); cbn; try done.
Qed.

Lemma finish_inv close r b : BridgeInv b -> phase b <> Over -> (close = true \/ phase b = WaitOpen) -> BridgeInv (finish close r b).
Proof.
  intros [H1 H2 H3 H4 H5 H6 H7 H8] Hp Hc. split; cbn; try done.
  - intros [E|E]; discriminate E.
  - intros _. split_and!; [done|by eexists|]. destruct Hc as [->|Hc]; [left; by rewrite orb_true_r|].
    right. destruct (H1 (or_introl Hc)) as (? & ? & ? & ? & ? & ? & ?). by split_and!.
Qed.

(** A state that agrees on everything but the tasks, the queue and the signal. *)
Lemma message_side_inv b b' :
  BridgeInv b -> phase b' = phase b -> target_open b' = target_open b -> writing b' = writing b -> written b' = written b ->
  holding b' = holding b -> sent b' = sent b -> channel_closed b' = channel_closed b -> outcome b' = outcome b ->
  taken b' = taken b -> received b' = received b ->
  taken b' ++ queue b' ++ tasks b' ⊆+ accepted b' ->
  (fw_protocol params = Udp -> Forall (fun d => length d <= UDP_MAX_DATAGRAM) (accepted b')) -> BridgeInv b'.
Proof.
  intros [H1 H2 H3 H4 H5 H6 H7 H8 H9] E1 E2 E3 E4 E5 E6 E7 E8 E9 E10 Hm Hs.
  unfold idle, written_so_far, written_prefix in *. split; unfold idle, written_so_far, written_prefix;
    rewrite ?E1, ?E2, ?E3, ?E4, ?E5, ?E6, ?E7, ?E8, ?E9, ?E10; rewrite ?E9 in Hm; done.
Qed.

Lemma dc_event_inv e b : BridgeInv b -> BridgeInv (dc_event params e b).
Proof.
  intros HI. pose proof (bi_messages _ HI) as Hm. pose proof (bi_small _ HI) as Hs.
  destruct e as [|data| | |]; try done; cbn; [|by eapply message_side_inv].
  unfold on_message. destruct (bool_decide (data = [])); [done|]. destruct (match udp_max params with Some _ => _ | None => _ end) eqn:Emax; [done|].
  eapply message_side_inv; try done; cbn.
  - rewrite !app_assoc. by apply submseteq_skips_r with (k := [data]) in Hm; rewrite !app_assoc in Hm.
  - intros Hu. apply Forall_app. split; [by apply Hs|]. constructor; [|done]. unfold udp_max in Emax. rewrite Hu in Emax.
    by apply Nat.ltb_ge in Emax.
Qed.

Lemma take_drop_perm {A} (l : list A) i x : l !! i = Some x -> l ≡ₚ x :: take i l ++ drop (S i) l.
Proof. intros H. rewrite <- (take_drop_middle l i x H) at 1. by rewrite Permutation_middle. Qed.

Lemma task_send_inv i b b' : BridgeInv b -> task_send i b = Some b' -> BridgeInv b'.
Proof.
  intros HI E. unfold task_send in E. destruct (tasks b !! i) as [data|] eqn:Hi; [|done].
  pose proof (bi_messages _ HI) as Hm. pose proof (bi_small _ HI) as Hs. apply take_drop_perm in Hi.
  set (rest := take i (tasks b) ++ drop (S i) (tasks b)) in *. rewrite Hi in Hm.
  destruct (bool_decide (phase b = Over)); [|destruct (length (queue b) <? QUEUE_SIZE)%nat; [|done]]; injection E as <-;
    (eapply message_side_inv; [exact HI|try done..]); cbn; etrans; try exact Hm.
  - apply submseteq_app; [done|]. apply submseteq_app; [done|]. by apply submseteq_cons.
  - rewrite <- app_assoc. cbn. done.
Qed.

(** ** The two directions *)

Lemma connect_inv r b b' : BridgeInv b -> phase b = Connecting -> connect_event params r b = Some b' -> BridgeInv b'.
Proof.
  intros HI Hp E. assert (Hne : phase b <> Over) by congruence.
  assert (Hfin : ∀ x, BridgeInv (finish true x b)) by (intros x; apply finish_inv; auto).
  assert (Hgo : BridgeInv (set_phase Forwarding (set_target true b))).
  { destruct HI as [H1 H2 H3 H4 H5 H6 H7 H8 H9]. split; cbn; try done; try (intros [H|H]; discriminate H); intros _; auto. }
  unfold connect_event in E. destruct r, (fw_protocol params), (close_pending b); try done; by injection E as <-.
Qed.

Lemma read_inv data b b' : BridgeInv b -> phase b = Forwarding -> read_target params data b = Some b' -> BridgeInv b'.
Proof.
  intros HI Hp E. assert (Hne : phase b <> Over) by congruence.
  assert (Hfin : ∀ x, BridgeInv (finish true x b)) by (intros x; apply finish_inv; auto).
  assert (Hread : holding b = None -> BridgeInv (set_received (received b ++ [data]) (set_holding (Some (clip data)) (sent b) b))).
  { intros Hh. destruct HI as [H1 H2 H3 H4 H5 H6 H7 H8 H9]. specialize (H2 Hne). rewrite Hh in H2. cbn in H2. rewrite app_nil_r in H2.
    split; cbn; try done; try (rewrite Hp; by intros [H|H]).
    - intros _. by rewrite fmap_app, <- H2.
    - rewrite fmap_app, <- H2. by eexists. }
  unfold read_target in E. destruct (holding b) eqn:Hh; [done|]. unfold clip in Hread. destruct (fw_protocol params) eqn:Epr.
  - destruct (bool_decide (data = [])); [by injection E as <-|]. destruct (TCP_BUF <? length data)%nat; [done|]. injection E as <-. auto.
  - destruct (bool_decide (data = [])); injection E as <-; auto.
Qed.

Lemma send_inv ok b b' : BridgeInv b -> phase b = Forwarding -> send_channel ok b = Some b' -> BridgeInv b'.
Proof.
  intros HI Hp E. assert (Hne : phase b <> Over) by congruence. unfold send_channel in E.
  destruct (holding b) as [data|] eqn:Hh; [|done]. destruct ok; injection E as <-; [|apply finish_inv; auto].
  destruct HI as [H1 H2 H3 H4 H5 H6 H7 H8 H9]. specialize (H2 Hne). rewrite Hh in H2. cbn in H2.
  split; cbn; try done; try (rewrite Hp; by intros [H|H]).
  - intros _. by rewrite <- H2, app_nil_r.
  - by rewrite <- H2.
Qed.

Lemma recv_inv b b' : BridgeInv b -> phase b = Forwarding -> recv_queue b = Some b' -> BridgeInv b'.
Proof.
  intros HI Hp E. assert (Hne : phase b <> Over) by congruence. unfold recv_queue in E.
  destruct (writing b) eqn:Hw; [done|]. destruct (queue b) as [|data queue'] eqn:Hq.
  { destruct (polling b || _); [done|]. injection E as <-. apply finish_inv; auto. }
  injection E as <-. destruct HI as [H1 H2 H3 H4 H5 H6 H7 H8 H9]. specialize (H4 Hne).
  assert (Hgo : written_so_far (set_writing (Some data) (written b) (set_taken (taken b ++ [data]) (IpBridge.set_queue queue' b)))).
  { unfold written_so_far in *. cbn. rewrite Hw in H4. destruct (fw_protocol params); cbn in *; rewrite app_nil_r in H4.
    - rewrite concat_app, H4. cbn. by rewrite app_nil_r.
    - by rewrite H4. }
  split; cbn; try done; try (rewrite Hp; by intros [H|H]); try (by rewrite Hp); [by apply so_far_prefix|].
  rewrite Hq in H6. by rewrite <- app_assoc.
Qed.

Lemma write_inv n b b' : BridgeInv b -> phase b = Forwarding -> write_target params n b = Some b' -> BridgeInv b'.
Proof.
  intros HI Hp E. assert (Hne : phase b <> Over) by congruence. unfold write_target in E.
  destruct (writing b) as [data|] eqn:Hw; [|done]. destruct HI as [H1 H2 H3 H4 H5 H6 H7 H8 H9]. specialize (H4 Hne).
  assert (Hgo : written_so_far b').
  { unfold written_so_far in *. rewrite Hw in H4. destruct (fw_protocol params).
    - destruct (n =? 0)%nat; [done|]. injection E as <-. cbn in *. rewrite concat_app, <- H4, <- app_assoc. f_equal. cbn. rewrite app_nil_r.
      destruct (Nat.leb_spec (length data) n); cbn; [by rewrite app_nil_r, take_ge by done|by rewrite take_drop].
    - injection E as <-. cbn in *. by rewrite app_nil_r. }
  pose proof (so_far_prefix _ Hgo).
  destruct (fw_protocol params) eqn:Epr; [destruct (n =? 0)%nat; [done|]|]; injection E as <-;
    (split; cbn; rewrite ?Epr; try done; try (rewrite Hp; by intros [H'|H'])).
Qed.

Lemma step_inv e b b' : BridgeInv b -> step e b = Some b' -> BridgeInv b'.
Proof.
  intros HI E. unfold bridge_step in E.
  assert (Hfin : ∀ x, phase b = Forwarding -> BridgeInv (finish true x b)) by (intros x Hp; apply finish_inv; [done|congruence|by left]).
  destruct e as [e|i|r|r|data| |ok| |n| |]; try (by eapply task_send_inv).
  - destruct (polling b); [|done]. injection E as <-. by apply dc_event_inv.
  - destruct r as [[]|x], (phase b) eqn:Hp; try done; injection E as <-.
    + destruct HI as [H1 H2 H3 H4 H5 H6 H7 H8 H9]. assert (Hid : idle b) by (apply H1; by left).
      assert (Hn : phase b <> Over) by congruence. split; cbn; try done; intros _; auto.
    + apply finish_inv; [done|congruence|by right].
  - destruct (phase b) eqn:Hp; try done. by eapply connect_inv.
  - destruct (phase b) eqn:Hp; try done. by eapply read_inv.
  - destruct (phase b) eqn:Hp, (holding b); try done. injection E as <-. by apply Hfin.
  - destruct (phase b) eqn:Hp; try done. by eapply send_inv.
  - destruct (phase b) eqn:Hp; try done. by eapply recv_inv.
  - destruct (phase b) eqn:Hp; try done. by eapply write_inv.
  - destruct (phase b) eqn:Hp, (writing b); try done. injection E as <-. by apply Hfin.
  - destruct (phase b) eqn:Hp, (close_pending b); try done. injection E as <-. by apply Hfin.
Qed.

Lemma run_inv es b b' : BridgeInv b -> bridge_run params es b = Some b' -> BridgeInv b'.
Proof.
  revert b. induction es as [|e es IH]; intros b HI; cbn; [by intros [= <-]|].
  destruct (bridge_step params e b) eqn:E; [|done]. apply IH. by eapply step_inv.
Qed.

(** ** The order of messages *)

(** Tasks that run in the order in which they were spawned. *)
Definition in_order (e : BridgeEvent) : Prop := match e with TaskSend i => i = 0 | _ => True end.

Record OrderInv (b : Bridge) : Prop := {
  oi_all : phase b <> Over -> taken b ++ queue b ++ tasks b = accepted b;
  oi_taken : taken b `prefix_of` accepted b }.

Lemma order_all b : taken b ++ queue b ++ tasks b = accepted b -> OrderInv b.
Proof. intros H. split; [done|]. rewrite <- H. by eexists. Qed.

Lemma order_finish c r b : OrderInv b -> OrderInv (finish c r b).
Proof. intros [_ H]. by split. Qed.

Lemma order_same b b' :
  OrderInv b -> (phase b' <> Over -> phase b <> Over) -> taken b' = taken b -> queue b' = queue b -> tasks b' = tasks b -> accepted b' = accepted b ->
  OrderInv b'.
Proof. intros [H1 H2] Hp E1 E2 E3 E4. split; rewrite E1, ?E2, ?E3, E4; auto. Qed.

Lemma step_order e b b' : in_order e -> OrderInv b -> step e b = Some b' -> OrderInv b'.
Proof.
  intros He HI E. pose proof HI as [H1 H2]. unfold bridge_step in E. destruct e as [e|i|r|r|data| |ok| |n| |].
  - destruct (polling b); [|done]. injection E as <-. destruct e as [|data| | |]; cbn; try done. unfold on_message.
    destruct (bool_decide _); [done|]. destruct (match udp_max params with Some _ => _ | None => _ end); [done|]. split; cbn.
    + intros Hp. by rewrite <- (H1 Hp), <- !app_assoc.
    + by apply prefix_app_r.
  - cbn in He. subst i. unfold task_send in E. destruct (tasks b) as [|data l] eqn:Ht; [done|]. cbn in E.
    destruct (bool_decide (phase b = Over)) eqn:Ep; [|destruct (length (queue b) <=? 63)%nat; [|done]]; injection E as <-.
    + apply bool_decide_eq_true in Ep. by split; cbn.
    + apply bool_decide_eq_false in Ep. apply order_all. cbn. rewrite <- (H1 Ep), drop_0, <- app_assoc. done.
  - destruct r as [[]|x], (phase b) eqn:Hp; try done; injection E as <-; [|by apply order_finish].
    eapply order_same; [exact HI|cbn; congruence|done..].
  - destruct (phase b) eqn:Hp; try done. unfold connect_event in E.
    destruct r, (fw_protocol params), (close_pending b); try done; injection E as <-; try (by apply order_finish);
      (eapply order_same; [exact HI|cbn; congruence|done..]).
  - destruct (phase b) eqn:Hp; try done. unfold read_target in E. destruct (holding b), (fw_protocol params); try done;
      repeat case_match; try done; injection E as <-; try (by apply order_finish); try done; (eapply order_same; [exact HI|cbn; congruence|done..]).
  - destruct (phase b), (holding b); try done. injection E as <-. by apply order_finish.
  - destruct (phase b) eqn:Hp; try done. unfold send_channel in E. destruct (holding b), ok; try done; injection E as <-; try (by apply order_finish);
      (eapply order_same; [exact HI|cbn; congruence|done..]).
  - destruct (phase b) eqn:Hp; try done. unfold recv_queue in E. destruct (writing b); [done|]. destruct (queue b) as [|data q] eqn:Hq.
    + destruct (polling b || _); [done|]. injection E as <-. by apply order_finish.
    + injection E as <-. apply order_all. cbn. rewrite <- H1 by done. by rewrite <- app_assoc.
  - destruct (phase b) eqn:Hp; try done. unfold write_target in E. destruct (writing b), (fw_protocol params); try done;
      [destruct (n =? 0)%nat; [done|]|]; injection E as <-; (eapply order_same; [exact HI|cbn; congruence|done..]).
  - destruct (phase b), (writing b); try done. injection E as <-. by apply order_finish.
  - destruct (phase b), (close_pending b); try done. injection E as <-. by apply order_finish.
Qed.

Lemma run_order es b b' : Forall in_order es -> OrderInv b -> bridge_run params es b = Some b' -> OrderInv b'.
Proof.
  intros Hes. revert b. induction Hes as [|e es He _ IH]; intros b HI; cbn; [by intros [= <-]|].
  destruct (bridge_step params e b) eqn:E; [|done]. apply IH. by eapply step_order.
Qed.

(** ** Everything that came *)

(** The messages that are forwarded, and what was read, by the events alone. *)
Definition message_of (e : BridgeEvent) : list Bytes :=
  match e with
  | DcEvent (OnMessage data) =>
      if bool_decide (data = []) || match udp_max params with Some max => (max <? length data)%nat | None => false end then [] else [data]
  | _ => []
  end.
Definition read_of (e : BridgeEvent) : list Bytes :=
  match e with ReadTarget data => if bool_decide (data = []) then [] else [data] | _ => [] end.
Definition messages (es : list BridgeEvent) : list Bytes := List.concat (message_of <$> es).
Definition reads (es : list BridgeEvent) : list Bytes := List.concat (read_of <$> es).

(** Until the bridge is over, no message is lost. *)
Definition all_there (b : Bridge) : Prop := phase b <> Over -> taken b ++ queue b ++ tasks b ≡ₚ accepted b.

Definition stepped (e : BridgeEvent) (b b' : Bridge) : Prop :=
  accepted b' = accepted b ++ message_of e /\ received b' = received b ++ read_of e /\ (all_there b -> all_there b').

Lemma stepped_finish c r e b : message_of e = [] -> read_of e = [] -> stepped e b (finish c r b).
Proof. intros H1 H2. unfold stepped. rewrite H1, H2, !app_nil_r. split_and!; [done|done|]. intros _ Hn. by destruct Hn. Qed.

Lemma stepped_same e b b' :
  message_of e = [] -> read_of e = [] -> accepted b' = accepted b -> received b' = received b -> (phase b' <> Over -> phase b <> Over) ->
  (taken b' ++ queue b' ++ tasks b' ≡ₚ taken b ++ queue b ++ tasks b) -> stepped e b b'.
Proof.
  intros H1 H2 H3 H4 Hp Ht. unfold stepped. rewrite H1, H2, !app_nil_r. split_and!; [done|done|].
  intros Ha Hn. rewrite Ht, H3. by apply Ha, Hp.
Qed.

Lemma on_message_stepped data b : stepped (DcEvent (OnMessage data)) b (on_message params data b).
Proof.
  unfold on_message, stepped, message_of, read_of, all_there. destruct (bool_decide _); cbn [orb]; [by rewrite !app_nil_r|].
  destruct (match udp_max params with Some _ => _ | None => _ end); [by rewrite !app_nil_r|]. cbn. rewrite app_nil_r. split_and!; [done|done|].
  intros Ha Hp. by rewrite <- (Ha Hp), <- !app_assoc.
Qed.

Lemma task_send_stepped i b b' : task_send i b = Some b' -> stepped (TaskSend i) b b'.
Proof.
  unfold task_send. destruct (tasks b !! i) as [data|] eqn:Hi; [|done]. apply take_drop_perm in Hi.
  destruct (bool_decide (phase b = Over)) eqn:Ep.
  - apply bool_decide_eq_true in Ep. intros [= <-]. unfold stepped, all_there. cbn. by rewrite !app_nil_r.
  - destruct (_ <? _)%nat; [|done]. intros [= <-]. apply stepped_same; try done. cbn. rewrite Hi at 3. by rewrite <- app_assoc.
Qed.

Lemma step_stepped e b b' : step e b = Some b' -> stepped e b b'.
Proof.
  intros E. unfold bridge_step in E. destruct e as [e|i|r|r|data| |ok| |n| |].
  - destruct (polling b); [|done]. injection E as <-. destruct e as [|data| | |]; [by apply stepped_same| |by apply stepped_same..].
    apply on_message_stepped.
  - by apply task_send_stepped.
  - destruct r as [[]|x], (phase b) eqn:Hp; try done; injection E as <-; [|by apply stepped_finish].
    apply stepped_same; try done; cbn; congruence.
  - destruct (phase b) eqn:Hp; try done. unfold connect_event in E.
    destruct r, (fw_protocol params), (close_pending b); try done; injection E as <-; try (by apply stepped_finish);
      (apply stepped_same; try done; congruence).
  - destruct (phase b) eqn:Hp; try done. unfold read_target in E. destruct (holding b); [by destruct (fw_protocol params)|].
    unfold stepped, read_of, message_of, all_there. destruct (bool_decide (data = [])) eqn:Ed.
    + destruct (fw_protocol params); injection E as <-; cbn; by rewrite !app_nil_r.
    + destruct (fw_protocol params); [destruct (_ <? _)%nat; [done|]|]; injection E as <-; cbn; rewrite app_nil_r; by split_and!.
  - destruct (phase b), (holding b); try done. injection E as <-. by apply stepped_finish.
  - destruct (phase b) eqn:Hp; try done. unfold send_channel in E. destruct (holding b), ok; try done; injection E as <-; try (by apply stepped_finish);
      (apply stepped_same; try done; congruence).
  - destruct (phase b) eqn:Hp; try done. unfold recv_queue in E. destruct (writing b); [done|]. destruct (queue b) as [|data q] eqn:Hq.
    + destruct (polling b || _); [done|]. injection E as <-. by apply stepped_finish.
    + injection E as <-. apply stepped_same; try done. cbn. by rewrite Hq, <- app_assoc.
  - destruct (phase b) eqn:Hp; try done. unfold write_target in E. destruct (writing b), (fw_protocol params); try done;
      [destruct (n =? 0)%nat; [done|]|]; injection E as <-; (apply stepped_same; try done; congruence).
  - destruct (phase b), (writing b); try done. injection E as <-. by apply stepped_finish.
  - destruct (phase b), (close_pending b); try done. injection E as <-. by apply stepped_finish.
Qed.

Lemma run_stepped es b b' :
  bridge_run params es b = Some b' ->
  accepted b' = accepted b ++ messages es /\ received b' = received b ++ reads es /\ (all_there b -> all_there b').
Proof.
  revert b. induction es as [|e es IH]; intros b; cbn [bridge_run].
  { intros [= <-]. unfold messages, reads. cbn. by rewrite !app_nil_r. }
  destruct (bridge_step params e b) as [b1|] eqn:E; [|done]. intros (H1 & H2 & H3)%IH. apply step_stepped in E as (G1 & G2 & G3).
  unfold messages, reads in *. cbn [fmap list_fmap List.concat]. rewrite H1, H2, G1, G2, !app_assoc. split_and!; auto.
Qed.
End bridge.

(** C30: The bridge invents, reorders and repeats nothing, and loses nothing while
    it forwards: in every interleaving of the channel, the tasks of its messages
    and the two directions, nothing is exchanged with the target before the channel
    is open and connected; the channel has been given a beginning of what was read
    from the target, read by read (of a datagram its first 1200 bytes); a TCP
    target has been given a beginning of the bytes, a UDP target a beginning of the
    datagrams, of messages that came (neither empty nor too long for a datagram),
    none twice - in the order of the messages when their tasks run in the order
    they were spawned -; until the bridge is over the rest is in its tasks, its
    queue or its hands; and when it is over the target is closed, and the channel,
    too, unless nothing was exchanged.  It does not promise that all is delivered:
    when it ends, what is on its way is lost, a message may have reached a TCP
    target in part and what was read may not have been sent. *)
Theorem forwarding_is_exact params es b :
  bridge_run params es bridge_new = Some b ->
  let msgs := messages params es in
  let got := clip params <$> reads es in
  (phase b = WaitOpen \/ phase b = Connecting -> idle b)
  /\ sent b `prefix_of` got
  /\ written_prefix params b
  /\ taken b ++ queue b ++ tasks b ⊆+ msgs
  /\ (Forall in_order es -> taken b `prefix_of` msgs)
  /\ (fw_protocol params = Udp -> Forall (fun d => length d <= UDP_MAX_DATAGRAM) msgs)
  /\ (phase b <> Over -> sent b ++ option_list (holding b) = got /\ written_so_far params b /\ taken b ++ queue b ++ tasks b ≡ₚ msgs)
  /\ (phase b = Over -> target_open b = false /\ is_Some (outcome b) /\ (channel_closed b = true \/ idle b)).
Proof.
  intros E msgs got. destruct (run_stepped params es _ _ E) as (Ha & Hr & Hall). cbn in Ha, Hr.
  destruct (run_inv params es _ _ (bridge_new_inv params) E) as [H1 H2 H3 H4 H5 H6 H7 H8 H9].
  assert (Ho : OrderInv bridge_new) by (by apply order_all). unfold msgs, got. rewrite <- Ha, <- Hr. split_and!; try done.
  - intros Hord. by apply (run_order params es _ b Hord Ho E).
  - intros Hp. split_and!; [by apply H2|by apply H4|]. apply Hall; [intros _; reflexivity|done].
Qed.

(** ** Runs *)

Definition ssh : IpForwardParams := mkForwardParams "10.0.0.2" 22 Tcp.
Definition dns : IpForwardParams := mkForwardParams "10.0.0.2" 53 Udp.

Definition opening : list BridgeEvent := [OpenResult (Ok tt); ConnectEvent Connected].

Lemma forwarding_is_exact_witness :
  ∃ b, bridge_run ssh (opening ++ [DcEvent (OnMessage [1; 2]%Z); TaskSend 0; RecvQueue; WriteTarget 1; ReadTarget [9]%Z;
                                  WriteTarget 5; SendChannel true; DcEvent OnClosed; CloseSeen]) bridge_new = Some b
  /\ written b = [[1]; [2]]%Z /\ sent b = [[9]]%Z
  /\ (phase b = Over -> target_open b = false /\ is_Some (outcome b) /\ (channel_closed b = true \/ idle b)).
Proof.
  eexists. split; [vm_compute; reflexivity|]. split; [reflexivity|]. split; [reflexivity|].
  eapply (forwarding_is_exact ssh (opening ++ [DcEvent (OnMessage [1; 2]%Z); TaskSend 0; RecvQueue; WriteTarget 1; ReadTarget [9]%Z;
                                  WriteTarget 5; SendChannel true; DcEvent OnClosed; CloseSeen])). vm_compute. reflexivity.
Defined.

(** Every message has a task of its own: the later one can be written first. *)
Lemma messages_overtake :
  written <$> bridge_run ssh (opening ++ [DcEvent (OnMessage [1]%Z); DcEvent (OnMessage [2]%Z); TaskSend 1; RecvQueue; WriteTarget 1;
                                          TaskSend 0; RecvQueue; WriteTarget 1]) bridge_new
  = Some [[2]; [1]]%Z.
Proof. reflexivity. Qed.

(** A close overtakes the messages before it: a client that sends and closes
    loses what it sent. *)
Lemma close_drops_messages :
  (fun b => (written b, phase b)) <$>
    bridge_run ssh (opening ++ [DcEvent (OnMessage [1]%Z); TaskSend 0; DcEvent OnClosed; CloseSeen]) bridge_new
  = Some ([], Over).
Proof. reflexivity. Qed.

(** A datagram of the target that is too long is cut. *)
Lemma long_datagram_cut :
  sent <$> bridge_run dns (opening ++ [ReadTarget (replicate 1201 7%Z); SendChannel true]) bridge_new = Some [replicate 1200 7%Z].
Proof. reflexivity. Qed.

(** A channel that does not open is left as it is. *)
Lemma failed_open_leaves_channel :
  (fun b => (phase b, channel_closed b)) <$> bridge_run ssh [OpenResult (Err "timed out waiting for data channel open")] bridge_new = Some (Over, false).
Proof. reflexivity. Qed.
