(* ===== verification/Jiggler.v ===== *)
(** * The mouse jiggler (jiggler.rs)

    The settings, the task that moves the mouse of an idle device, and when it is
    awake.  Time is in milliseconds.  Several tasks can be there: [run] asks
    whether one is running, but only the task itself says so.  A turn of a task is
    cut at its awaits: the four reports of a move take time. *)

From S2P Require Import Prelude.

Definition INACTIVITY_LIMIT_MIN : Z := 30.

Record JigglerConfig := mkJigglerConfig {
  inactivity_limit_seconds : Z; jitter_percentage : Z; schedule_cron_tab : string; timezone : option string }.

Definition jiggler_config_default : JigglerConfig := mkJigglerConfig 60 25 "0 * * * * *" (Some "UTC").

(** ** The last input of the user (hardware/usb/mod.rs) *)

Record InputClock := mkInput { input_base : option Z; last_user_input_secs : Z }.

Definition secs (ms : Z) : Z := ms / 1000.

(** The base is the moment it is first asked for. *)
Definition note_user_input (now : Z) (i : InputClock) : InputClock :=
  let base := default now (input_base i) in
  mkInput (Some base) (Z.max 1 (Z.min (secs (now - base)) (2 ^ 32 - 1))).

Definition seconds_since_last_user_input (now : Z) (i : InputClock) : Z :=
  if (last_user_input_secs i =? 0)%Z then u64_max
  else Z.max 0 (secs (now - default now (input_base i)) - last_user_input_secs i).

(** ** Tasks *)

(** Spawned; asleep or moving the mouse, with its settings and the time of its
    last move. *)
Inductive JiggleTask : Type :=
| Spawned
| Asleep (cfg : JigglerConfig) (last_action wake : Z)
| Moving (cfg : JigglerConfig) (input_offset : Z).

Record Jiggler := mkJiggler {
  jg_config : JigglerConfig;
  jg_enabled : bool;
  jg_running : bool;
  jg_config_update : bool;
  jg_tasks : list JiggleTask;
  jg_now : Z;
  jg_input : InputClock;
  jg_session : bool;
  jg_moves : list Z (** when moves began, the latest first *) }.

Definition set_jg_config x j := mkJiggler x (jg_enabled j) (jg_running j) (jg_config_update j) (jg_tasks j) (jg_now j) (jg_input j) (jg_session j) (jg_moves j).
Definition set_jg_enabled x j := mkJiggler (jg_config j) x (jg_running j) (jg_config_update j) (jg_tasks j) (jg_now j) (jg_input j) (jg_session j) (jg_moves j).
Definition set_jg_running x j := mkJiggler (jg_config j) (jg_enabled j) x (jg_config_update j) (jg_tasks j) (jg_now j) (jg_input j) (jg_session j) (jg_moves j).
Definition set_jg_update x j := mkJiggler (jg_config j) (jg_enabled j) (jg_running j) x (jg_tasks j) (jg_now j) (jg_input j) (jg_session j) (jg_moves j).
Definition set_jg_tasks x j := mkJiggler (jg_config j) (jg_enabled j) (jg_running j) (jg_config_update j) x (jg_now j) (jg_input j) (jg_session j) (jg_moves j).
Definition set_jg_now x j := mkJiggler (jg_config j) (jg_enabled j) (jg_running j) (jg_config_update j) (jg_tasks j) x (jg_input j) (jg_session j) (jg_moves j).
Definition set_jg_input x j := mkJiggler (jg_config j) (jg_enabled j) (jg_running j) (jg_config_update j) (jg_tasks j) (jg_now j) x (jg_session j) (jg_moves j).
Definition set_jg_session x j := mkJiggler (jg_config j) (jg_enabled j) (jg_running j) (jg_config_update j) (jg_tasks j) (jg_now j) (jg_input j) x (jg_moves j).
Definition set_jg_moves x j := mkJiggler (jg_config j) (jg_enabled j) (jg_running j) (jg_config_update j) (jg_tasks j) (jg_now j) (jg_input j) (jg_session j) x.

Definition jiggler_run (j : Jiggler) : Jiggler := if jg_running j then j else set_jg_tasks (jg_tasks j ++ [Spawned]) j.

(** [Jiggler::new]. *)
Definition jiggler_new (cfg : JigglerConfig) (enabled : bool) (now : Z) : Jiggler :=
  let j := mkJiggler cfg enabled false false [] now (mkInput None 0) false [] in
  if enabled then jiggler_run j else j.

Definition get_enable (j : Jiggler) : bool := jg_enabled j.
Definition get_config (j : Jiggler) : JigglerConfig := jg_config j.

(** The configuration is saved last: what fails then has taken effect. *)
Definition set_enable (saved : Result string unit) (enable : bool) (j : Jiggler) : Jiggler * Result string unit :=
  let j := set_jg_enabled enable j in
  (if enable then jiggler_run j else j, saved).

Definition set_config (saved : Result string unit) (cfg : JigglerConfig) (j : Jiggler) : Jiggler * Result string unit :=
  (set_jg_update true (set_jg_config cfg j), saved).

(** *** The functions of the module: [None] before [init]. *)

Definition NOT_INITIALIZED : string := "Jiggler not initialized".

Definition get_jiggler_enabled (j : option Jiggler) : Result string bool := result_map get_enable (ok_or j NOT_INITIALIZED).
Definition get_jiggler_config (j : option Jiggler) : Result string JigglerConfig := result_map get_config (ok_or j NOT_INITIALIZED).

Definition set_jigglers (saved : Result string unit) (enable : bool) (j : option Jiggler) : option Jiggler * Result string unit :=
  match j with
  | None => (None, Err NOT_INITIALIZED)
  | Some j => let '(j, r) := set_enable saved enable j in (Some j, r)
  end.

Definition set_jiggler_config (saved : Result string unit) (cfg : JigglerConfig) (j : option Jiggler) : option Jiggler * Result string unit :=
  if (inactivity_limit_seconds cfg <? INACTIVITY_LIMIT_MIN)%Z then (j, Err "Inactivity limit must be at least 30 seconds")
  else match j with
       | None => (None, Err NOT_INITIALIZED)
       | Some j => let '(j, r) := set_config saved cfg j in (Some j, r)
       end.

(** ** The task *)

Definition limit_time (cfg : JigglerConfig) : Z := Z.max (inactivity_limit_seconds cfg) INACTIVITY_LIMIT_MIN.

Definition input_offset (j : Jiggler) : Z :=
  if jg_session j then seconds_since_last_user_input (jg_now j) (jg_input j) else u64_max.

(** Asleep until the limit can be reached. *)
Definition go_to_sleep (cfg : JigglerConfig) (last_action offset now : Z) : JiggleTask :=
  let progress := Z.min (Z.min offset (limit_time cfg)) (secs (now - last_action)) in
  Asleep cfg last_action (now + 1000 * (limit_time cfg - progress)).

Definition put_task (i : nat) (t : JiggleTask) (j : Jiggler) : Jiggler := set_jg_tasks (<[i := t]> (jg_tasks j)) j.

(** A turn of the loop up to its first await. *)
Definition turn (i : nat) (cfg : JigglerConfig) (last_action : Z) (j : Jiggler) : Jiggler :=
  if negb (jg_enabled j) then set_jg_running false (set_jg_tasks (take i (jg_tasks j) ++ drop (S i) (jg_tasks j)) j)
  else
    let cfg := if jg_config_update j then jg_config j else cfg in
    let j := set_jg_update false j in
    let offset := input_offset j in
    if (limit_time cfg <=? offset)%Z && (limit_time cfg <=? secs (jg_now j - last_action))%Z
    then put_task i (Moving cfg offset) (set_jg_moves (jg_now j :: jg_moves j) j)
    else put_task i (go_to_sleep cfg last_action offset (jg_now j)) j.

Inductive JigglerEvent : Type :=
| Pass (ms : Z) (** time *)
| UserInput
| Sessions (any : bool)
| SetEnable (saved : Result string unit) (enable : bool)
| SetConfig (saved : Result string unit) (cfg : JigglerConfig)
| Start (i : nat)
| Wake (i : nat)
| Moved (i : nat).

Definition jiggler_step (e : JigglerEvent) (j : Jiggler) : option Jiggler :=
  match e with
  | Pass ms => if (ms <? 0)%Z then None else Some (set_jg_now (jg_now j + ms) j)
  | UserInput => Some (set_jg_input (note_user_input (jg_now j) (jg_input j)) j)
  | Sessions any => Some (set_jg_session any j)
  | SetEnable saved enable => (set_jigglers saved enable (Some j)).1
  | SetConfig saved cfg => (set_jiggler_config saved cfg (Some j)).1
  | Start i =>
      match jg_tasks j !! i with
      | Some Spawned => Some (turn i (jg_config j) (jg_now j) (set_jg_running true j))
      | _ => None
      end
  | Wake i =>
      match jg_tasks j !! i with
      | Some (Asleep cfg last_action wake) => if (wake <=? jg_now j)%Z then Some (turn i cfg last_action j) else None
      | _ => None
      end
  | Moved i =>
      match jg_tasks j !! i with
      | Some (Moving cfg offset) => Some (put_task i (go_to_sleep cfg (jg_now j) offset (jg_now j)) j)
      | _ => None
      end
  end.

Fixpoint jiggler_events (es : list JigglerEvent) (j : Jiggler) : option Jiggler :=
  match es with
  | [] => Some j
  | e :: es => match jiggler_step e j with Some j => jiggler_events es j | None => None end
  end.

(** ** Laws *)

Lemma secs_le a b : (a <= b)%Z -> (secs a <= secs b)%Z.
Proof. intros. unfold secs. apply Z.div_le_mono; lia. Qed.

Lemma secs_shift a n : secs (a + 1000 * n) = (secs a + n)%Z.
Proof. unfold secs. rewrite Z.mul_comm. by rewrite Z.div_add. Qed.

(** The input clock has counted the last input: false only in the second of the
    very first one. *)
Definition clocked (j : Jiggler) : Prop :=
  last_user_input_secs (jg_input j) = 0%Z
  \/ ∃ b, input_base (jg_input j) = Some b /\ (last_user_input_secs (jg_input j) <= secs (jg_now j - b))%Z.

(** How long the device has been idle grows with the time. *)
Lemma offset_after j j' n :
  clocked j -> jg_input j' = jg_input j -> jg_session j' = jg_session j -> (jg_now j + 1000 * n <= jg_now j')%Z ->
  input_offset j = u64_max /\ input_offset j' = u64_max \/ (input_offset j + n <= input_offset j')%Z.
Proof.
  intros Hb Ei Es Hn. unfold input_offset, seconds_since_last_user_input. rewrite Ei, Es.
  destruct (jg_session j); [|by left]. destruct (Z.eqb_spec (last_user_input_secs (jg_input j)) 0); [by left|]. right.
  destruct Hb as [|(b & Hb & Hle)]; [done|]. rewrite Hb. cbn.
  assert (secs (jg_now j - b) + n <= secs (jg_now j' - b))%Z by (rewrite <- secs_shift; apply secs_le; lia). lia.
Qed.

Lemma limit_min cfg : (INACTIVITY_LIMIT_MIN <= limit_time cfg)%Z.
Proof. unfold limit_time. lia. Qed.

(** A move: only of a device that is switched on and idle for the limit. *)
Lemma turn_spec i cfg la j :
  i < length (jg_tasks j) ->
  let j' := turn i cfg la j in
  let cfg' := if jg_config_update j then jg_config j else cfg in
  jg_enabled j = true ->
  (limit_time cfg' <= input_offset j)%Z /\ (limit_time cfg' <= secs (jg_now j - la))%Z
     /\ jg_moves j' = jg_now j :: jg_moves j /\ jg_tasks j' !! i = Some (Moving cfg' (input_offset j))
  \/ (limit_time cfg' > input_offset j \/ limit_time cfg' > secs (jg_now j - la))%Z
     /\ jg_moves j' = jg_moves j /\ jg_tasks j' !! i = Some (go_to_sleep cfg' la (input_offset j) (jg_now j)).
Proof.
  intros Hi j' cfg' He. unfold j', turn. rewrite He. cbn [negb]. fold cfg'.
  change (input_offset (set_jg_update false j)) with (input_offset j). change (jg_now (set_jg_update false j)) with (jg_now j).
  destruct (Z.leb_spec (limit_time cfg') (input_offset j)), (Z.leb_spec (limit_time cfg') (secs (jg_now j - la))); cbn [andb];
    [left|right|right|right]; (split_and!; cbn; [lia|try done..]); by apply list_lookup_insert_eq.
Qed.

Lemma turn_off_moves i cfg la j : jg_enabled j = false -> jg_moves (turn i cfg la j) = jg_moves j.
Proof. intros He. unfold turn. by rewrite He. Qed.

(** Moves are only made by a device that is switched on, has been without input
    of a user for at least thirty seconds or has no session, and by a task whose
    last move was as long ago. *)
Theorem moves_are_idle e j j' :
  jiggler_step e j = Some j' -> jg_moves j' <> jg_moves j ->
  jg_enabled j = true /\ jg_moves j' = jg_now j :: jg_moves j /\ (INACTIVITY_LIMIT_MIN <= input_offset j)%Z
  /\ ∃ i cfg la w, e = Wake i /\ jg_tasks j !! i = Some (Asleep cfg la w) /\ (INACTIVITY_LIMIT_MIN <= secs (jg_now j - la))%Z.
Proof.
  intros E Hm. destruct e as [ms| |any|saved en|saved cfg|i|i|i]; cbn in E.
  - destruct (ms <? 0)%Z; [done|]. by injection E as <-.
  - by injection E as <-.
  - by injection E as <-.
  - injection E as <-. exfalso. apply Hm. unfold jiggler_run. destruct en; [|done]. by case_match.
  - unfold set_jiggler_config in E. destruct (_ <? _)%Z; by injection E as <-.
  - destruct (jg_tasks j !! i) as [[| |]|] eqn:Ht; try done. injection E as <-. exfalso.
    destruct (jg_enabled j) eqn:He; [|by rewrite turn_off_moves in Hm].
    destruct (turn_spec i (jg_config j) (jg_now j) (set_jg_running true j) (lookup_lt_Some _ _ _ Ht) He) as [(_ & H2 & _)|(_ & H2 & _)].
    + cbn [jg_now set_jg_running] in H2. rewrite Z.sub_diag in H2. change (secs 0) with 0%Z in H2.
      match type of H2 with (limit_time ?c <= _)%Z => pose proof (limit_min c) as Hl end. unfold INACTIVITY_LIMIT_MIN in Hl. lia.
    + by rewrite H2 in Hm.
  - destruct (jg_tasks j !! i) as [[|cfg la w|]|] eqn:Ht; try done. destruct (w <=? jg_now j)%Z; [|done]. injection E as <-.
    destruct (jg_enabled j) eqn:He; [|by rewrite turn_off_moves in Hm].
    destruct (turn_spec i cfg la j (lookup_lt_Some _ _ _ Ht) He) as [(H1 & H2 & H3 & _)|(_ & H2 & _)]; [|by rewrite H2 in Hm].
    pose proof (limit_min (if jg_config_update j then jg_config j else cfg)). split_and!; [done|done|lia|].
    exists i, cfg, la, w. split_and!; [done|done|lia].
  - destruct (jg_tasks j !! i) as [[| |cfg off]|]; try done. by injection E as <-.
Qed.

(** A task that sleeps because the device was not idle long enough sleeps at most
    the limit, and if there is no input until it wakes it moves the mouse then. *)
Theorem idle_is_moved i cfg la w j j1 :
  jg_tasks j !! i = Some (Asleep cfg la w) -> jg_enabled j = true -> jg_config_update j = false -> clocked j ->
  (la <= jg_now j)%Z -> (limit_time cfg <= u64_max)%Z -> jiggler_step (Wake i) j = Some j1 ->
  jg_moves j1 = jg_now j :: jg_moves j
  \/ ∃ w', jg_tasks j1 !! i = Some (Asleep cfg la w') /\ (w' <= jg_now j + 1000 * limit_time cfg)%Z
     /\ ∀ j2, jg_tasks j2 !! i = Some (Asleep cfg la w') -> (w' <= jg_now j2)%Z -> jg_input j2 = jg_input j -> jg_session j2 = jg_session j ->
        jg_enabled j2 = true -> jg_config_update j2 = false ->
        ∃ j3, jiggler_step (Wake i) j2 = Some j3 /\ jg_moves j3 = jg_now j2 :: jg_moves j2.
Proof.
  intros Ht He Hu Hck Hla Hmax E. cbn in E. rewrite Ht in E. destruct (w <=? jg_now j)%Z; [|done]. injection E as <-.
  destruct (turn_spec i cfg la j (lookup_lt_Some _ _ _ Ht) He) as [(_ & _ & H3 & _)|(H1 & _ & H3)]; [by left|right].
  rewrite Hu in H1, H3. eexists. split; [exact H3|]. set (pr := Z.min (Z.min (input_offset j) (limit_time cfg)) (secs (jg_now j - la))).
  assert (Hoff : (0 <= input_offset j)%Z).
  { unfold input_offset, seconds_since_last_user_input. destruct (jg_session j); [destruct (_ =? _)%Z|]; unfold u64_max; lia. }
  assert (Hsec : (0 <= secs (jg_now j - la))%Z) by (unfold secs; apply Z.div_pos; lia). pose proof (limit_min cfg) as Hlim. unfold INACTIVITY_LIMIT_MIN in Hlim.
  split; [unfold pr; lia|]. intros j2 Ht2 Hw Hi2 Hs2 He2 Hu2. cbn [jiggler_step]. rewrite Ht2.
  apply Z.leb_le in Hw as Hw'. rewrite Hw'. eexists. split; [done|]. fold pr in Hw.
  destruct (turn_spec i cfg la j2 (lookup_lt_Some _ _ _ Ht2) He2) as [(_ & _ & H4 & _)|(H4 & _)]; [done|]. exfalso. rewrite Hu2 in H4.
  assert (Hs' : (secs (jg_now j - la) + (limit_time cfg - pr) <= secs (jg_now j2 - la))%Z) by (rewrite <- secs_shift; apply secs_le; lia).
  destruct (offset_after j j2 (limit_time cfg - pr) Hck Hi2 Hs2 Hw) as [[_ Ho]|Ho]; unfold pr in *; lia.
Qed.

(** ** Runs *)

Definition slow_jiggling : JigglerConfig := mkJigglerConfig 3600 25 "0 * * * * *" None.

(** Two requests to switch on before the task has run leave two tasks, and only
    one of them learns of new settings: the other goes on with the old ones. *)
Lemma two_jigglers :
  (fun j => (length (jg_tasks j), jg_config j, jg_moves j)) <$>
    jiggler_events [SetEnable (Ok tt) true; SetEnable (Ok tt) true; Start 0; Start 1; SetConfig (Ok tt) slow_jiggling;
                    Pass 60000; Wake 0; Wake 1; Moved 1; Pass 60000; Wake 1] (jiggler_new jiggler_config_default false 0)
  = Some (2, slow_jiggling, [120000; 60000]%Z).
Proof. vm_compute. reflexivity. Qed.

(** A setting that could not be saved has taken effect. *)
Lemma unsaved_switch_jiggles :
  let '(j, r) := set_jigglers (Err "save") true (Some (jiggler_new jiggler_config_default false 0)) in
  r = Err "save" /\ jg_enabled <$> j = Some true.
Proof. by split. Qed.
