(* ===== verification/Tailscale.v ===== *)
(** * The Tailscale plugin (plugin/mod.rs, plugin/tailscale.rs)

    Calls of the init script and what is read out of its output.  The script is a
    function on a world of its own; the JSON of [tailscale status] is read by a
    parameter into the fields the program looks at. *)

From S2P Require Import Prelude Text Words.

Definition EXIT_BINARY_NOT_FOUND : Z := 1.
Definition EXIT_DISABLED : Z := 2.

(** ** Output of the script *)

Record CommandOutput := mkOutput { co_stdout : string; co_stderr : string; co_code : Z }.

Definition success (o : CommandOutput) : bool := (co_code o =? 0)%Z.

Definition join_log (stdout stderr : string) : string :=
  match is_empty stdout, is_empty stderr with
  | true, true => ""
  | false, true => stdout
  | true, false => stderr
  | false, false => stdout +:+ String LF stderr
  end.

Definition combined_log (o : CommandOutput) : string := join_log (trim (co_stdout o)) (trim (co_stderr o)).

Definition stdout_lines (stdout : string) : list string :=
  List.filter (fun l => negb (is_empty l)) (trim <$> lines stdout).

Definition into_result (context : string) (o : CommandOutput) : Result string CommandOutput :=
  if success o then Ok o
  else Err (if (co_code o =? EXIT_BINARY_NOT_FOUND)%Z then context +:+ ": tailscale binary not found"
            else if (co_code o =? EXIT_DISABLED)%Z then context +:+ ": tailscale is disabled"
            else context +:+ " failed (exit " +:+ pretty (co_code o) +:+ "): " +:+ combined_log o).

Inductive EnableState : Set := Enabled | Disabled.

Definition enable_parse_stdout (stdout : string) : Result string EnableState :=
  let s := trim stdout in
  if String.eqb s "enable" then Ok Enabled
  else if String.eqb s "disable" then Ok Disabled
  else Err ("unexpected getEnable output: " +:+ s).

Definition login_server_parse_stdout (stdout : string) : option string :=
  let url := trim stdout in if is_empty url then None else Some url.

Inductive SetLoginServerResult : Type :=
| Cleared (restarted : bool)
| SetUrl (url : string) (restarted : bool).

Fixpoint find_login_line (restarted : bool) (ls : list string) : option SetLoginServerResult :=
  match ls with
  | [] => None
  | line :: ls =>
      if String.eqb line "Login server reset" then Some (Cleared restarted)
      else match strip_prefix "Login server set to " line with
           | Some url => Some (SetUrl url restarted)
           | None => find_login_line restarted ls
           end
  end.

Definition set_login_server_parse_stdout (stdout : string) : Result string SetLoginServerResult :=
  let ls := stdout_lines stdout in
  let restarted := existsb (String.eqb "Tailscale is enabled, restarting Tailscale") ls in
  ok_or (find_login_line restarted ls) ("unexpected setLoginServer output: " +:+ stdout).

(** ** The login address *)

(** The text from the first place where [p] is. *)
Fixpoint find_from (p s : string) : option string :=
  if starts_with p s then Some s
  else match s with EmptyString => None | String _ s' => find_from p s' end.

Definition url_stop (s : string) : bool :=
  match s with
  | EmptyString => true
  | String c _ => bool_decide (is_Some (lead s)) || Ascii.eqb c ")" || Ascii.eqb c "034" || Ascii.eqb c "'"
  end.

Fixpoint until_stop (s : string) : string :=
  if url_stop s then "" else match s with String c s' => String c (until_stop s') | EmptyString => "" end.

(** [trim_end_matches] with a full stop and a comma. *)
Fixpoint drop_stops (s : string) : string :=
  match s with
  | String c s' => if Ascii.eqb c "." || Ascii.eqb c "," then drop_stops s' else s
  | EmptyString => ""
  end.
Definition trim_stops (s : string) : string := srev (drop_stops (srev s)).

Definition extract_auth_url (text : string) : option string :=
  match match find_from "https://" text with Some r => Some r | None => find_from "http://" text end with
  | Some rest => Some (trim_stops (until_stop rest))
  | None => None
  end.

Definition merged_auth_url (stdout stderr : string) : option string :=
  match extract_auth_url stdout with Some u => Some u | None => extract_auth_url stderr end.

(** ** Registration *)

Inductive RegisterStatus : Set := Completed | NeedsAuth | RegDisabled | Failed.

#[export] Instance RegisterStatus_eq_dec : EqDecision RegisterStatus.
Proof. solve_decision. Defined.

Record RegisterResult := mkRegister {
  rg_status : RegisterStatus; rg_code : Z; rg_stdout : string; rg_stderr : string; rg_auth_url : option string }.

Definition from_output (out : CommandOutput) : Result string RegisterResult :=
  if (co_code out =? EXIT_BINARY_NOT_FOUND)%Z then Err "register: tailscale binary not found"
  else
    let auth_url := merged_auth_url (co_stdout out) (co_stderr out) in
    let status :=
      if (co_code out =? EXIT_DISABLED)%Z then RegDisabled
      else if bool_decide (is_Some auth_url) then NeedsAuth
      else if success out then Completed else Failed in
    Ok (mkRegister status (co_code out) (trim (co_stdout out)) (trim (co_stderr out)) auth_url).

(** What the loop waits for; [TimeIsUp] is the sleep until the deadline. *)
Inductive RegisterEvent : Type :=
| OutLine (line : string) | OutEnd | OutError (e : string)
| ErrLine (line : string) | ErrEnd | ErrError (e : string)
| Exited (code : Z) | WaitFailed (e : string)
| TimeIsUp.

Record RegisterLoop := mkLoop { rl_out : string; rl_err : string; rl_exit : option Z }.

Inductive LoopEnd : Type :=
| LoopError (e : string)
| LoopDone (url : option string) (timed_out : bool) (st : RegisterLoop).

(** One [select!] and the checks after it. *)
Definition register_event (e : RegisterEvent) (st : RegisterLoop) : option RegisterLoop + string :=
  match e with
  | OutLine l => inl (Some (mkLoop (rl_out st +:+ l +:+ String LF "") (rl_err st) (rl_exit st)))
  | ErrLine l => inl (Some (mkLoop (rl_out st) (rl_err st +:+ l +:+ String LF "") (rl_exit st)))
  | OutEnd | ErrEnd => inl (Some st)
  | OutError x => inl (Some (mkLoop (rl_out st) (rl_err st +:+ "stdout read error: " +:+ x +:+ String LF "") (rl_exit st)))
  | ErrError x => inl (Some (mkLoop (rl_out st) (rl_err st +:+ "stderr read error: " +:+ x +:+ String LF "") (rl_exit st)))
  | Exited c => inl (match rl_exit st with None => Some (mkLoop (rl_out st) (rl_err st) (Some c)) | Some _ => None end)
  | WaitFailed x => match rl_exit st with None => inr x | Some _ => inl None end
  | TimeIsUp => inl (Some st)
  end.

(** [None]: the event cannot be, or the script has not brought the loop to its
    end. *)
Fixpoint register_loop (es : list RegisterEvent) (st : RegisterLoop) : option LoopEnd :=
  match es with
  | [] => None
  | e :: es =>
      match register_event e st with
      | inr x => Some (LoopError x)
      | inl None => None
      | inl (Some st) =>
          match merged_auth_url (rl_out st) (rl_err st) with
          | Some url => Some (LoopDone (Some url) (match e with TimeIsUp => true | _ => false end) st)
          | None =>
              if bool_decide (rl_exit st = Some EXIT_BINARY_NOT_FOUND) then Some (LoopError "register: tailscale binary not found")
              else if bool_decide (rl_exit st = Some EXIT_DISABLED) || bool_decide (rl_exit st = Some 0%Z) then Some (LoopDone None false st)
              else match e with TimeIsUp => Some (LoopDone None true st) | _ => register_loop es st end
          end
      end
  end.

Definition timeout_msg : string := "register: timed out after 30s waiting for login URL".

(** [killed]: the exit code of a child that had to be stopped. *)
Definition register_outcome (killed : Z) (r : LoopEnd) : Result string RegisterResult :=
  match r with
  | LoopError e => Err e
  | LoopDone (Some url) _ st =>
      Ok (mkRegister NeedsAuth (default (-1)%Z (rl_exit st)) (trim (rl_out st)) (trim (rl_err st)) (Some url))
  | LoopDone None timed_out st =>
      let code := default killed (rl_exit st) in
      let err :=
        if timed_out && negb (code =? 0)%Z && negb (code =? EXIT_DISABLED)%Z then
          if is_empty (trim (rl_err st)) then timeout_msg
          else if contains_str "timed out after" (rl_err st) then rl_err st
          else rl_err st +:+ String LF timeout_msg
        else rl_err st in
      from_output (mkOutput (rl_out st) err code)
  end.

(** [script_there]: the file of the script; [spawned]: the process and its pipes. *)
Definition run_register (script_there spawned : bool) (killed : Z) (es : list RegisterEvent) : option (Result string RegisterResult) :=
  if negb script_there then Some (Err "Tailscale init script not found")
  else if negb spawned then Some (Err "failed to spawn")
  else register_outcome killed <$> register_loop es (mkLoop "" "" None).

(** ** Status *)

Record StatusPeer := mkPeer {
  sp_tailscale_ips : option (list string); sp_in_network_map : bool; sp_in_engine : bool; sp_in_magic_sock : bool; sp_dns_name : string }.

Record StatusResult := mkStatus {
  st_backend_state : string; st_tailscale_ips : option (list string); st_self_node : option StatusPeer;
  st_health : list string; st_current_tailnet : bool }.

Inductive ConnectionState : Set := TsConnected | LoggedOut | Offline | Unknown.

#[export] Instance ConnectionState_eq_dec : EqDecision ConnectionState.
Proof. solve_decision. Defined.

Definition some_ips (o : option (list string)) : bool := match o with Some (_ :: _) => true | _ => false end.

Definition has_tailscale_ips (s : StatusResult) : bool :=
  some_ips (st_tailscale_ips s) || some_ips (st_self_node s ≫= sp_tailscale_ips).

Definition self_on_tailnet (node : StatusPeer) : bool :=
  if some_ips (sp_tailscale_ips node) then true
  else if negb (sp_in_network_map node) then false
  else sp_in_engine node || sp_in_magic_sock node || negb (is_empty (sp_dns_name node)).

Definition is_on_tailnet (s : StatusResult) : bool :=
  has_tailscale_ips s || st_current_tailnet s || from_option self_on_tailnet false (st_self_node s).

Definition health_lower (s : StatusResult) : string := to_ascii_lowercase (str_join (String LF "") (st_health s)).

Definition NEEDLES : list string :=
  ["not logged in"; "logged out"; "tailscale is stopped"; "state=needslogin"; "needslogin"; "needs login"; "needs machine auth";
   "not yet approved"; "node not found"; "node key not found"; "invalid key"; "api key does not exist"; "api key not valid"].

Definition health_needs_reauth (s : StatusResult) : bool := existsb (fun n => contains_str n (health_lower s)) NEEDLES.

Definition compute_connection_state (s : StatusResult) : ConnectionState :=
  if health_needs_reauth s then LoggedOut
  else
    let b := st_backend_state s in
    if String.eqb b "NeedsLogin" || String.eqb b "NeedsMachineAuth" || String.eqb b "Stopped" then LoggedOut
    else if String.eqb b "Running" then if is_on_tailnet s then TsConnected else Offline
    else if String.eqb b "Starting" || String.eqb b "NoState" then Unknown
    else if contains_str "logged out" (health_lower s) || contains_str "stopped" (health_lower s) then LoggedOut else Unknown.

Definition is_connected (s : StatusResult) : bool := bool_decide (compute_connection_state s = TsConnected).
Definition is_logged_out (s : StatusResult) : bool := bool_decide (compute_connection_state s = LoggedOut).

(** ** The plugin *)

Class Script (W : Type) := {
  script : string -> list string -> W -> W * Result string CommandOutput;
  parse_status : string -> Result string StatusResult }.

Record TailscaleParams := mkTsParams { tp_enabled : bool; tp_login_server : option string }.

Record TailscaleStateResponse := mkTsState {
  tr_enabled : bool; tr_login_server : option string; tr_raw : option string;
  tr_connection_state : option ConnectionState; tr_status : option StatusResult }.

Section plugin.
Context {W : Type} `{!Script W}.
Local Abbreviation TS := (SE W string).

Definition run (subcommand : string) (args : list string) : TS CommandOutput := script subcommand args.
Definition run_ok (subcommand : string) (args : list string) (context : string) : TS CommandOutput :=
  let! out := run subcommand args in se_of_result (into_result context out).

Definition start : TS unit := run_ok "start" [] "start" ;;; se_ret tt.
Definition stop : TS unit := run_ok "stop" [] "stop" ;;; se_ret tt.
Definition restart : TS unit := run_ok "restart" [] "restart" ;;; se_ret tt.
Definition enable : TS unit := run_ok "enable" [] "enable" ;;; se_ret tt.
Definition disable : TS unit := run_ok "disable" [] "disable" ;;; se_ret tt.
Definition reset_config : TS unit := run_ok "resetConfig" [] "resetConfig" ;;; se_ret tt.
Definition reset : TS unit := run_ok "reset" [] "reset" ;;; se_ret tt.

Definition ts_get_enable : TS EnableState :=
  let! out := run_ok "getEnable" [] "getEnable" in se_of_result (enable_parse_stdout (co_stdout out)).
Definition get_login_server : TS (option string) :=
  let! out := run_ok "getLoginServer" [] "getLoginServer" in se_ret (login_server_parse_stdout (co_stdout out)).
Definition set_login_server (url : option string) : TS SetLoginServerResult :=
  let! out := run_ok "setLoginServer" (option_list url) "setLoginServer" in
  se_of_result (set_login_server_parse_stdout (co_stdout out)).
Definition get_status : TS (string * StatusResult) :=
  let! out := run_ok "getStatus" [] "getStatus" in
  let! status := se_of_result (parse_status (trim (co_stdout out))) in
  se_ret (co_stdout out, status).

Definition get_tailscale_state : TS TailscaleStateResponse :=
  let! enable := ts_get_enable in
  let! login_server := get_login_server in
  match enable with
  | Enabled =>
      let! (raw, status) := get_status in
      se_ret (mkTsState true login_server (Some raw) (Some (compute_connection_state status)) (Some status))
  | Disabled => se_ret (mkTsState false login_server None None None)
  end.

Definition server_changed (old new : option string) : bool :=
  match old, new with Some a, Some b => negb (String.eqb a b) | None, None => false | _, _ => true end.

Definition switch_tailscale (params : TailscaleParams) : TS unit :=
  if tp_enabled params then
    let! old_login_server := get_login_server in
    (if server_changed old_login_server (tp_login_server params)
     then set_login_server (tp_login_server params) ;;; se_ret tt else se_ret tt) ;;;
    enable
  else disable.
End plugin.

(** ** The address is an address *)

Lemma starts_with_split p s : starts_with p s = true -> ∃ t, s = p +:+ t.
Proof.
  unfold starts_with. revert s. induction p as [|c p IH]; intros s; [by exists s|]. destruct s as [|d s]; [done|]. cbn.
  destruct (ascii_dec c d) as [<-|]; [|done]. intros [t ->]%IH. by exists t.
Qed.

Lemma find_from_spec p s r : find_from p s = Some r -> ∃ a t, s = a +:+ p +:+ t /\ r = p +:+ t.
Proof.
  revert r. induction s as [|c s IH]; intros r; cbn [find_from].
  - destruct (starts_with p "") eqn:E; [|done]. intros [= <-]. apply starts_with_split in E as [t E]. by exists "", t.
  - destruct (starts_with p (String c s)) eqn:E.
    + intros [= <-]. apply starts_with_split in E as [t E]. by exists "", t.
    + intros (a & t & -> & ->)%IH. by exists (String c a), t.
Qed.

Lemma until_stop_prefix s : ∃ b, s = until_stop s +:+ b.
Proof.
  induction s as [|c s [b IH]]; [by exists ""|]. cbn [until_stop]. destruct (url_stop (String c s)); [by exists (String c s)|].
  exists b. rewrite str_app_cons. by rewrite <- IH.
Qed.

(** A character no address ends at. *)
Definition url_char (c : ascii) : Prop := solid c /\ c ≠ ")"%char /\ c ≠ "034"%char /\ c ≠ "'"%char.

Lemma until_stop_char c s : url_char c -> until_stop (String c s) = String c (until_stop s).
Proof.
  intros (Hs & H1 & H2 & H3). cbn [until_stop]. assert (url_stop (String c s) = false) as ->; [|done]. unfold url_stop.
  rewrite lead_solid by done. rewrite bool_decide_eq_false_2 by (by intros []).
  by rewrite !(proj2 (Ascii.eqb_neq _ _)).
Qed.

Lemma drop_stops_suffix s : ∃ a, s = a +:+ drop_stops s.
Proof.
  induction s as [|c s [a IH]]; [by exists ""|]. cbn [drop_stops]. destruct (_ || _); [|by exists ""].
  exists (String c a). rewrite str_app_cons. by rewrite <- IH.
Qed.

Lemma drop_stops_app s c x : (Ascii.eqb c "." || Ascii.eqb c ",") = false -> ∃ y, drop_stops (s +:+ String c x) = y +:+ String c x.
Proof.
  intros Hc. induction s as [|d s [y IH]].
  - exists "". change ("" +:+ String c x) with (String c x). cbn [drop_stops]. by rewrite Hc.
  - rewrite str_app_cons. cbn [drop_stops]. destruct (Ascii.eqb d "." || Ascii.eqb d ","); [by exists y|]. by exists (String d s).
Qed.

Lemma trim_stops_prefix s : ∃ b, s = trim_stops s +:+ b.
Proof.
  unfold trim_stops. destruct (drop_stops_suffix (srev s)) as [a Ha]. exists (srev a).
  rewrite <- srev_app, <- Ha. by rewrite srev_srev.
Qed.

Lemma trim_stops_keeps p c t : (Ascii.eqb c "." || Ascii.eqb c ",") = false -> ∃ u, trim_stops (p +:+ String c t) = p +:+ String c u.
Proof.
  intros Hc. unfold trim_stops. rewrite srev_app, srev_cons, str_app_assoc.
  change (String c "" +:+ srev p) with (String c (srev p)). destruct (drop_stops_app (srev t) c (srev p) Hc) as [y ->].
  exists (srev y). rewrite srev_app, srev_cons, srev_srev, str_app_assoc. reflexivity.
Qed.

(** No character of it ends an address. *)
Fixpoint no_stop (s : string) : Prop := match s with EmptyString => True | String c s' => url_stop s = false /\ no_stop s' end.

(** What is taken for the login address was printed by the command and starts as
    an address does. *)
Lemma auth_url_spec text url :
  extract_auth_url text = Some url ->
  (∃ a b, text = a +:+ url +:+ b) /\ (starts_with "https://" url = true \/ starts_with "http://" url = true).
Proof.
  unfold extract_auth_url. set (found := match find_from "https://" text with Some r => Some r | None => _ end).
  assert (Hf : ∀ rest, found = Some rest -> ∃ a p t, text = a +:+ p +:+ t /\ rest = p +:+ t /\ (p = "https://" \/ p = "http://")).
  { intros rest. unfold found. destruct (find_from "https://" text) as [r|] eqn:E1.
    - intros [= <-]. destruct (find_from_spec _ _ _ E1) as (a & t & H1 & H2). exists a, "https://", t. auto.
    - intros E2. destruct (find_from_spec _ _ _ E2) as (a & t & H1 & H2). exists a, "http://", t. auto. }
  destruct found as [rest|]; [|done]. intros [= <-]. destruct (Hf rest eq_refl) as (a & p & t & -> & -> & Hp). split.
  - destruct (until_stop_prefix (p +:+ t)) as [b1 H1]. destruct (trim_stops_prefix (until_stop (p +:+ t))) as [b2 H2].
    exists a, (b2 +:+ b1). by rewrite H1 at 1; rewrite H2 at 1; rewrite str_app_assoc.
  - assert (Hu : until_stop (p +:+ t) = p +:+ until_stop t).
    { destruct Hp as [-> | ->]; cbn -[until_stop]; rewrite !str_app_cons, !until_stop_char; try done;
        (split; [split; [vm_compute; by split|done]|by split_and!]). }
    rewrite Hu. destruct Hp as [-> | ->]; [left|right].
    + destruct (trim_stops_keeps "https:/" "/" (until_stop t) eq_refl) as [u E]. change ("https://" +:+ until_stop t) with ("https:/" +:+ String "/" (until_stop t)).
      rewrite E. by destruct u.
    + destruct (trim_stops_keeps "http:/" "/" (until_stop t) eq_refl) as [u E]. change ("http://" +:+ until_stop t) with ("http:/" +:+ String "/" (until_stop t)).
      rewrite E. by destruct u.
Qed.

(** ** Registration *)

(** What is known of a result: the status agrees with the exit code and with the
    address, which the command printed. *)
Definition truthful (r : RegisterResult) : Prop :=
  match rg_status r with
  | Completed => rg_code r = 0%Z /\ rg_auth_url r = None
  | NeedsAuth => ∃ url, rg_auth_url r = Some url /\ (starts_with "https://" url = true \/ starts_with "http://" url = true)
  | RegDisabled => rg_code r = EXIT_DISABLED
  | Failed => rg_code r <> 0%Z /\ rg_code r <> EXIT_DISABLED /\ rg_auth_url r = None
  end.

Lemma merged_url_spec a b url : merged_auth_url a b = Some url -> starts_with "https://" url = true \/ starts_with "http://" url = true.
Proof.
  unfold merged_auth_url. destruct (extract_auth_url a) as [u|] eqn:E; [intros [= <-]; by apply auth_url_spec in E as [_ E]|].
  intros Eb. by apply auth_url_spec in Eb as [_ Eb].
Qed.

Lemma from_output_truthful o r : from_output o = Ok r -> truthful r.
Proof.
  unfold from_output. destruct (Z.eqb_spec (co_code o) EXIT_BINARY_NOT_FOUND); [done|]. intros [= <-]. unfold truthful, success. cbn.
  destruct (Z.eqb_spec (co_code o) EXIT_DISABLED); [done|].
  destruct (merged_auth_url _ _) as [url|] eqn:E; [exists url; split; [done|by eapply merged_url_spec]|].
  rewrite bool_decide_eq_false_2 by (by intros []). by destruct (Z.eqb_spec (co_code o) 0).
Qed.

Lemma register_loop_url es st url t st' : register_loop es st = Some (LoopDone (Some url) t st') -> merged_auth_url (rl_out st') (rl_err st') = Some url.
Proof.
  revert st. induction es as [|e es IH]; intros st; cbn [register_loop]; [done|].
  destruct (register_event e st) as [[st1|]|]; try done. destruct (merged_auth_url (rl_out st1) (rl_err st1)) as [u|] eqn:E; [by intros [= <- _ <-]|].
  destruct (bool_decide _); [done|]. destruct (_ || _); [done|]. destruct e; try done; apply IH.
Qed.

(** Whatever the command prints, however it ends and in whatever order that is
    seen, the answer of a registration says the truth. *)
Theorem register_is_truthful script_there spawned killed es r :
  run_register script_there spawned killed es = Some (Ok r) -> truthful r.
Proof.
  unfold run_register. destruct script_there, spawned; try done. cbn.
  destruct (register_loop es _) as [[e|url t st]|] eqn:E; cbn; try done. destruct url as [url|].
  - intros [= <-]. cbn. exists url. split; [done|]. apply register_loop_url in E. by eapply merged_url_spec.
  - intros [= H]. by eapply from_output_truthful.
Qed.

(** A registration ends: once the time is up the loop has a result, whatever came
    before. *)
Lemma register_ends es st : (∀ e, e ∈ es -> match e with Exited _ | WaitFailed _ => False | _ => True end) -> is_Some (register_loop (es ++ [TimeIsUp]) st).
Proof.
  revert st. induction es as [|e es IH]; intros st Hes; cbn [register_loop app].
  - cbn. destruct (merged_auth_url _ _); [by eexists|]. destruct (bool_decide _); [by eexists|]. destruct (_ || _); by eexists.
  - assert (He := Hes e ltac:(by left)). assert (Hrest : ∀ st1, is_Some (register_loop (es ++ [TimeIsUp]) st1)) by (intros st1; apply IH; intros x Hx; apply Hes; by right).
    destruct e; try done; cbn; (destruct (merged_auth_url _ _); [by eexists|]); (destruct (bool_decide _); [by eexists|]);
      (destruct (_ || _); [by eexists|]); try apply Hrest; by eexists.
Qed.

(** A command that fails with another code is waited for until the time is up:
    the loop goes round on the ends of its output, and the answer says that it
    timed out. *)
Lemma failed_command_spins n code :
  code <> 0%Z -> code <> EXIT_BINARY_NOT_FOUND -> code <> EXIT_DISABLED ->
  run_register true true (-1) (Exited code :: replicate n OutEnd) = None
  /\ run_register true true (-1) (Exited code :: replicate n OutEnd ++ [TimeIsUp])
     = Some (Ok (mkRegister Failed code "" timeout_msg None)).
Proof.
  intros H0 H1 H2. unfold run_register. cbn [negb register_loop register_event rl_exit rl_out rl_err].
  assert (Hn : ∀ x, x <> code -> bool_decide (Some code = Some x) = false) by (intros x Hx; apply bool_decide_eq_false; congruence).
  change (merged_auth_url "" "") with (@None string). cbn. rewrite !Hn by congruence. cbn.
  assert (Hl : ∀ rest, register_loop (replicate n OutEnd ++ rest) (mkLoop "" "" (Some code)) = register_loop rest (mkLoop "" "" (Some code))).
  { intros rest. induction n as [|n IH]; [done|]. cbn. change (merged_auth_url "" "") with (@None string). cbn. by rewrite !Hn by congruence. }
  split.
  - rewrite <- (app_nil_r (replicate n OutEnd)), Hl. done.
  - rewrite Hl. cbn [register_loop register_event rl_exit rl_out rl_err]. change (merged_auth_url "" "") with (@None string). cbn [negb].
    rewrite !Hn by congruence. unfold register_outcome, from_output, success. cbn [fmap option_fmap option_map orb rl_exit default from_option id rl_err rl_out co_code co_stdout co_stderr].
    rewrite !(proj2 (Z.eqb_neq code _)) by done. cbn [negb andb co_stdout co_stderr co_code]. change (is_empty (trim "")) with true. cbv iota. change (merged_auth_url "" timeout_msg) with (@None string).
    change (trim timeout_msg) with timeout_msg. reflexivity.
Qed.

(** ** Switching *)

(** What the script says of itself: whether the daemon is to run, and the stored
    address of the control plane. *)
Record HonestScript {W} `{!Script W} (on : W -> bool) (server : W -> option string) : Prop := {
  hs_get_enable : ∀ w, ∃ o, script "getEnable" [] w = (w, Ok o) /\ co_code o = 0%Z
                       /\ trim (co_stdout o) = if on w then "enable" else "disable";
  hs_get_server : ∀ w, ∃ o, script "getLoginServer" [] w = (w, Ok o) /\ co_code o = 0%Z /\ trim (co_stdout o) = default "" (server w);
  hs_server : ∀ w, server w <> Some "";
  hs_set_server : ∀ args w w' o, script "setLoginServer" args w = (w', Ok o) -> co_code o = 0%Z -> server w' = head args;
  hs_enable : ∀ w w' o, script "enable" [] w = (w', Ok o) -> co_code o = 0%Z -> on w' = true /\ server w' = server w;
  hs_disable : ∀ w w' o, script "disable" [] w = (w', Ok o) -> co_code o = 0%Z -> on w' = false /\ server w' = server w }.

Section switch.
Context {W : Type} `{!Script W} (on : W -> bool) (server : W -> option string) (HS : HonestScript on server).

Lemma run_ok_code sub args ctx w w' (o : CommandOutput) : run_ok sub args ctx w = (w', Ok o) -> script sub args w = (w', Ok o) /\ co_code o = 0%Z.
Proof.
  unfold run_ok, run, se_bind, se_of_result, into_result, success. destruct (script sub args w) as [w1 [o1|e]]; [|done].
  destruct (Z.eqb_spec (co_code o1) 0); [|done]. by intros [= <- <-].
Qed.

Lemma get_server_run w : get_login_server w = (w, Ok (server w)).
Proof.
  destruct (hs_get_server _ _ HS w) as (o & E & Hc & Ht). unfold get_login_server, run_ok, run. se_unfold. rewrite E.
  unfold into_result, success. rewrite Hc. cbn. unfold login_server_parse_stdout. rewrite Ht.
  pose proof (hs_server _ _ HS w) as Hs. destruct (server w) as [u|]; [|done]. cbn. by destruct u.
Qed.

Lemma get_enable_run w : ts_get_enable w = (w, Ok (if on w then Enabled else Disabled)).
Proof.
  destruct (hs_get_enable _ _ HS w) as (o & E & Hc & Ht). unfold ts_get_enable, run_ok, run. se_unfold. rewrite E.
  unfold into_result, success. rewrite Hc. cbn. unfold enable_parse_stdout. rewrite Ht. by destruct (on w).
Qed.

(** A switch that reported success is what the state shows: on or off as asked,
    and when on with the address asked for. *)
Theorem switch_is_shown p w w' :
  switch_tailscale p w = (w', Ok tt) ->
  ts_get_enable w' = (w', Ok (if tp_enabled p then Enabled else Disabled))
  /\ (tp_enabled p = true -> get_login_server w' = (w', Ok (tp_login_server p))).
Proof.
  unfold switch_tailscale. intros E. rewrite get_enable_run, get_server_run. destruct (tp_enabled p).
  - unfold se_bind at 1 in E. rewrite get_server_run in E. unfold se_bind at 1 in E.
    assert (Hset : ∀ s1, (if server_changed (server w) (tp_login_server p)
                          then set_login_server (tp_login_server p) ;;; se_ret tt else se_ret tt) w = (s1, Ok tt) -> server s1 = tp_login_server p).
    { intros s1. destruct (server_changed _ _) eqn:Ec.
      - unfold set_login_server, se_bind at 1, se_bind at 1, se_of_result, se_ret.
        destruct (run_ok _ _ _ w) as [w1 [o|e]] eqn:Er; [|done]. apply run_ok_code in Er as [Er Hc]. apply (hs_set_server _ _ HS) in Er; [|done].
        destruct (set_login_server_parse_stdout _); [|done]. intros [= <-]. rewrite Er. by destruct (tp_login_server p).
      - intros [= <-]. unfold server_changed in Ec. destruct (server w), (tp_login_server p); try done.
        apply negb_false_iff, String.eqb_eq in Ec. by rewrite Ec. }
    destruct ((if server_changed (server w) (tp_login_server p) then set_login_server (tp_login_server p) ;;; se_ret tt else se_ret tt) w) as [s1 [[]|e]]; [|done]. specialize (Hset s1 eq_refl).
    unfold enable, se_bind, se_ret in E. destruct (run_ok _ _ _ s1) as [w1 [o|e]] eqn:Er; [|done]. injection E as <-.
    apply run_ok_code in Er as [Er Hc]. destruct (hs_enable _ _ HS _ _ _ Er Hc) as [-> ->]. by rewrite Hset.
  - unfold disable, se_bind, se_ret in E. destruct (run_ok _ _ _ w) as [w1 [o|e]] eqn:Er; [|done]. injection E as <-.
    apply run_ok_code in Er as [Er Hc]. by destruct (hs_disable _ _ HS _ _ _ Er Hc) as [-> _].
Qed.
End switch.
