(* ===== verification/Wol.v ===== *)
(** * Wake-on-LAN (wol.rs, jsonrpc.rs)

    The magic packet, where it is sent, and the three requests.  The parser of
    MAC addresses is that of the crate [macaddr]: an argument, of which a known
    result has six bytes. *)

From S2P Require Import Prelude Text Session Config Paths.

Definition DEFAULT_WOL_BROADCAST_ADDRESS : string := "255.255.255.255".
Definition DEFAULT_WOL_PORT : Z := 9.

(** What the socket does: bound, set to broadcast, and how many bytes a send
    takes. *)
Record WolSocket := mkWolSocket { ws_bind : bool; ws_broadcast : bool; ws_send : list Z -> string -> Z -> option nat }.

(** A datagram that was sent. *)
Record Datagram := mkDatagram { dg_data : list Z; dg_address : string; dg_port : Z }.

Record SendWOLMagicPacketParams := mkWolParams {
  wp_mac_address : string; wp_broadcast_address : option string; wp_port : option Z }.

Definition filled (o : option string) : option string := match o with Some s => if is_empty s then None else Some s | None => None end.

Definition resolve_wol_send_target (explicit_broadcast : option string) (explicit_port : option Z)
    (stored_broadcast : option string) (stored_port : option Z) : string * Z :=
  let addr := default DEFAULT_WOL_BROADCAST_ADDRESS
    (match filled explicit_broadcast with Some s => Some s | None => filled stored_broadcast end) in
  let port := default DEFAULT_WOL_PORT (match explicit_port with Some p => Some p | None => stored_port end) in
  (addr, port).

Section wol.
Context (parse_mac : string -> option (list Z)).

Definition build_magic_packet (mac_address : string) : Result string (list Z) :=
  result_map (fun mac => replicate 6 255%Z ++ List.concat (replicate 16 mac)) (ok_or (parse_mac mac_address) "invalid MAC address").

Definition send_magic_packet (sock : WolSocket) (mac_address broadcast_address : string) (port : Z) : Result string Datagram :=
  result_bind (build_magic_packet mac_address) (fun packet =>
    if negb (ws_bind sock) then Err "bind"
    else if negb (ws_broadcast sock) then Err "enable broadcast failed"
    else match ws_send sock packet broadcast_address port with
         | None => Err "send_to"
         | Some _ => Ok (mkDatagram packet broadcast_address port)
         end).

Definition get_wake_on_lan_devices : CM (list WakeOnLanDevice) := se_get (fun m => wake_on_lan_devices (mem m)).

Definition set_wake_on_lan_devices (saved : bool) (devices : list WakeOnLanDevice) : CM unit :=
  update saved (fun cfg => with_wol devices cfg).

Definition stored_device (mac : string) (cfg : Config) : option WakeOnLanDevice :=
  List.find (fun d => eq_ignore_ascii_case (mac_address d) mac) (wake_on_lan_devices cfg).

Definition send_wol_magic_packet (sock : WolSocket) (cfg : Config) (params : SendWOLMagicPacketParams) : Result string Datagram :=
  let stored := stored_device (wp_mac_address params) cfg in
  let '(address, port) := resolve_wol_send_target (wp_broadcast_address params) (wp_port params)
                            (broadcast_address <$> stored) (wol_port <$> stored) in
  send_magic_packet sock (wp_mac_address params) address port.

(** ** Laws *)

(** The packet: a header and the address sixteen times, position by position. *)
Lemma packet_spec mac_string mac :
  parse_mac mac_string = Some mac -> length mac = 6 ->
  ∃ packet, build_magic_packet mac_string = Ok packet /\ length packet = 102
    /\ (∀ i, i < 6 -> packet !! i = Some 255%Z)
    /\ (∀ i k, i < 16 -> k < 6 -> packet !! (6 + 6 * i + k) = mac !! k).
Proof.
  intros Hp Hm. unfold build_magic_packet. rewrite Hp. eexists. split; [reflexivity|].
  destruct mac as [|a [|b [|c [|d [|e [|f [|? ?]]]]]]]; try done. split_and!; [done| |].
  - intros i Hi. do 6 (destruct i as [|i]; [done|]). lia.
  - intros i k Hi Hk. do 16 (destruct i as [|i]; [do 6 (destruct k as [|k]; [done|]); lia|]). lia.
Qed.

(** The first device of a list that has an address wakes it. *)
Lemma stored_device_spec mac cfg d :
  stored_device mac cfg = Some d -> d ∈ wake_on_lan_devices cfg /\ eq_ignore_ascii_case (mac_address d) mac = true.
Proof. unfold stored_device. intros H. apply List.find_some in H as [Hd He]. split; [by apply list_elem_of_In|done]. Qed.

(** Once a list of devices is stored, an address is woken where the list says: with
    nothing but the address in the request, six bytes of header and the address
    sixteen times go to the address and port of the first device of the list that
    has it, in any case of letters. *)
Theorem stored_device_is_woken saved devices sock params d mac m m' n :
  set_wake_on_lan_devices saved devices m = (m', Ok tt) ->
  wp_broadcast_address params = None -> wp_port params = None ->
  List.find (fun d => eq_ignore_ascii_case (mac_address d) (wp_mac_address params)) devices = Some d ->
  parse_mac (wp_mac_address params) = Some mac ->
  ws_bind sock = true -> ws_broadcast sock = true -> (∀ p a q, ws_send sock p a q = Some n) ->
  send_wol_magic_packet sock (mem m') params
  = Ok (mkDatagram (replicate 6 255%Z ++ List.concat (replicate 16 mac))
          (if is_empty (broadcast_address d) then DEFAULT_WOL_BROADCAST_ADDRESS else broadcast_address d) (wol_port d)).
Proof.
  intros Hset Hb Hq Hd Hp Hs1 Hs2 Hs3.
  assert (wake_on_lan_devices (mem m') = devices) as Hw.
  { unfold set_wake_on_lan_devices, update, update_locked, se_bind, save in Hset. destruct (validate _) as [c errors] eqn:E.
    destruct errors; [|done]. destruct saved; [|done]. injection Hset as <-. cbn.
    unfold validate in E. destruct (macros_validate _ _) as [ms errs]. by injection E as <- _. }
  unfold send_wol_magic_packet, stored_device. rewrite Hw, Hd, Hb, Hq. cbn -[send_magic_packet String.eqb].
  unfold send_magic_packet, build_magic_packet. rewrite Hp. cbn -[replicate]. rewrite Hs1, Hs2, Hs3. cbn -[replicate].
  by destruct (is_empty (broadcast_address d)).
Qed.
End wol.
