(* ===== verification/FileServing.v ===== *)
(** * Serving files (services/local_file.rs, services/ft_file.rs, web.rs, jsonrpc.rs)

    Byte ranges, the HTTP handlers for evidence files and files of the transfer
    drive, the chunked reader of local files, and the two downloads over a data
    channel.  Between the calls of a handler the file may have changed: what it
    holds when it is opened is an argument of its own. *)

From S2P Require Import Prelude StateLaws Text Paths Words FileTree RemoteFs TimeSync.
From S2P Require Import RemoteFsProofs NetAdapter NetConf.

(** ** Ranges *)

(** Inclusive. *)
Record ByteRange := mkRange { br_start : Z; br_end : Z }.

Definition range_len (r : ByteRange) : Z := if (br_end r <? br_start r)%Z then 0 else br_end r - br_start r + 1.
Definition content_len (r : ByteRange) (file_size : Z) : Z := if (file_size =? 0)%Z then 0 else range_len r.
Definition full_file (file_size : Z) : ByteRange := if (file_size =? 0)%Z then mkRange 0 0 else mkRange 0 (file_size - 1).

Definition parse_range_header (header : string) (file_size : Z) : Result string (option ByteRange) :=
  let header := trim header in
  if is_empty header then Ok None else
  match strip_prefix "bytes=" header with
  | None => Err "invalid range unit"
  | Some spec =>
      if contains_char "," spec then Err "multipart ranges are not supported"
      else match strip_prefix "-" spec with
      | Some suffix =>
          match parse_u64 suffix with
          | None => Err "invalid suffix range"
          | Some suffix_len =>
              if (suffix_len =? 0)%Z then Err "invalid suffix range"
              else if (file_size =? 0)%Z then Err "range not satisfiable"
              else Ok (Some (mkRange (Z.max 0 (file_size - suffix_len)) (file_size - 1)))
          end
      | None =>
          match split_once "-" spec with
          | None => Err "invalid range spec"
          | Some (start_s, end_s) =>
              match parse_u64 start_s with
              | None => Err "invalid range start"
              | Some start =>
                  if is_empty end_s then
                    if (file_size =? 0)%Z then
                      if (0 <? start)%Z then Err "range not satisfiable" else Ok (Some (mkRange 0 0))
                    else if (file_size <=? start)%Z then Err "range not satisfiable"
                    else Ok (Some (mkRange start (file_size - 1)))
                  else match parse_u64 end_s with
                       | None => Err "invalid range end"
                       | Some end_ =>
                           if (file_size =? 0)%Z || (end_ <? start)%Z || (file_size <=? end_)%Z then Err "range not satisfiable"
                           else Ok (Some (mkRange start end_))
                       end
              end
          end
      end
  end.

(** ** Over HTTP *)

Record HttpFile := mkHttpFile {
  rs_status : Z; rs_disposition : option string; rs_content_length : option Z; rs_content_range : option string;
  rs_body : list Z }.

(** A bare status: [StatusError], or an answer without more than a range. *)
Definition bare (status : Z) : HttpFile := mkHttpFile status None None None [].

(** [HeaderValue::to_str]: visible ASCII and tabs. *)
Definition visible (c : ascii) : bool := let b := byte_of c in ((32 <=? b) && (b <? 127) || (b =? 9))%Z.
Definition header_to_str (h : string) : option string := if all_chars visible h then Some h else None.

(** [HeaderValue::from_str]: no control characters but tabs. *)
Definition header_from_str (h : string) : option string :=
  if all_chars (fun c => let b := byte_of c in (32 <=? b) && negb (b =? 127) || (b =? 9))%Z h then Some h else None.

Record FileInfoAnswer := mkInfo { in_name : string; in_size : Z }.

(** The range that is served; [None]: it cannot be. *)
Definition requested_range (range : option string) (size : Z) : option ByteRange :=
  match range ≫= header_to_str with
  | Some range_hdr =>
      match parse_range_header range_hdr size with
      | Ok (Some r) => Some r
      | Ok None => Some (full_file size)
      | Err _ => None
      end
  | None => Some (full_file size)
  end.

(** Status, headers and body for a range.  [opened]: the content when the file is
    opened. *)
Definition serve_range (has_range head_only : bool) (info : FileInfoAnswer) (byte_range : ByteRange)
    (opened : option (list Z)) (seeks : bool) : HttpFile :=
  let len := content_len byte_range (in_size info) in
  let is_partial := has_range && (0 <? in_size info)%Z in
  let disposition := header_from_str ("attachment; filename=" +:+ String "034" (replace_char "034" "_" (in_name info)) +:+ String "034" "") in
  let content_range :=
    if is_partial
    then Some ("bytes " +:+ show_nat (br_start byte_range) +:+ "-" +:+ show_nat (br_end byte_range) +:+ "/" +:+ show_nat (in_size info))
    else None in
  let response := mkHttpFile (if is_partial then 206 else 200) disposition (Some len) content_range in
  if head_only then response []
  else match opened with
       | None => bare 500
       | Some file =>
           if (0 <? br_start byte_range)%Z && negb seeks then bare 500
           else response (take (Z.to_nat len) (drop (Z.to_nat (br_start byte_range)) file))
       end.

(** What both handlers do once they know the file.  [resolved]: the second time
    the path is resolved. *)
Definition serve_file (range : option string) (head_only : bool) (info : FileInfoAnswer)
    (resolved : HttpFile + string) (opened : string -> option (list Z)) (seeks : bool) : HttpFile :=
  match requested_range range (in_size info) with
  | None => mkHttpFile 416 None None (Some ("bytes */" +:+ show_nat (in_size info))) []
  | Some byte_range =>
      match resolved with
      | inl err => err
      | inr path => serve_range (bool_decide (is_Some range)) head_only info byte_range (opened path) seeks
      end
  end.

(** The answers of the file system to one request. *)
Record ServeEnv := mkServeEnv {
  sv_first : PathEnv; sv_mounted1 : bool; sv_size : string -> option Z;
  sv_second : PathEnv; sv_mounted2 : bool; sv_opened : string -> option (list Z); sv_seeks : bool }.

Definition file_name_of (resolved : string) : string := default "" (path_file_name resolved).

Definition get_local_file_info (env : ServeEnv) (user_path : string) : Result string FileInfoAnswer :=
  result_bind (user_path_to_relative user_path) (fun _ =>
  result_bind (resolve_local_file_path (sv_first env) user_path) (fun resolved =>
  result_bind (ok_or (sv_size env resolved) "metadata") (fun size => Ok (mkInfo (file_name_of resolved) size)))).

(** With the question whether the drive is mounted. *)
Definition resolve_ft (env : PathEnv) (mounted : bool) (path name : string) : Result string string :=
  result_bind (build_relative_file_path path name) (fun relative =>
    if mounted then resolve_under env relative else Err "file transfer filesystem is not mounted").

Definition get_ft_file_info (env : ServeEnv) (path name : string) : Result string FileInfoAnswer :=
  result_bind (build_relative_file_path path name) (fun _ =>
  result_bind (resolve_ft (sv_first env) (sv_mounted1 env) path name) (fun resolved =>
  result_bind (ok_or (sv_size env resolved) "metadata") (fun size => Ok (mkInfo (file_name_of resolved) size)))).

Definition ft_error (msg : string) : HttpFile := if contains_str "not mounted" msg then bare 503 else bare 404.

Definition serve_ft_file (env : ServeEnv) (query : option (string * string)) (range : option string) (head_only : bool) : HttpFile :=
  match query with
  | None => bare 400
  | Some (path, name) =>
      match get_ft_file_info env path name with
      | Err e => ft_error e
      | Ok info =>
          serve_file range head_only info
            (match resolve_ft (sv_second env) (sv_mounted2 env) path name with Ok p => inr p | Err e => inl (ft_error e) end)
            (sv_opened env) (sv_seeks env)
      end
  end.

Definition serve_local_file (env : ServeEnv) (path : string) (range : option string) (head_only : bool) : HttpFile :=
  if is_empty (trim path) then bare 400
  else match get_local_file_info env path with
       | Err _ => bare 404
       | Ok info =>
           serve_file range head_only info
             (match resolve_local_file_path (sv_second env) path with Ok p => inr p | Err _ => inl (bare 404) end)
             (sv_opened env) (sv_seeks env)
       end.

(** ** Readers *)

(** A reader of an open file that hands out its chunks. *)
Class ChunkReader (R : Type) := { next_chunk : R -> list Z -> Fs (R * option (list Z)) }.

#[export] Instance drive_reader : ChunkReader AsyncFileReader := {| next_chunk := read_next_chunk |}.

Record LocalFileReader := mkLocalReader {
  lr_chunk_size : Z; lr_range_start : Z; lr_position : Z; lr_end : Z; lr_file_size : Z }.

Definition LOCAL_FILE_CHUNK_SIZE : Z := 4096.

Definition lr_range_len (r : LocalFileReader) : Z :=
  if (lr_file_size r =? 0)%Z then 0 else Z.max 0 (lr_end r - lr_range_start r) + 1.

(** The path is resolved, the file opened and asked for its size. *)
Definition open_local_file_reader (resolved : Result string string) (range : option ByteRange) (file : list Z) : Fs LocalFileReader :=
  let! _ := se_of_result resolved in
  call "failed to open" ;;;
  call "failed to stat file" ;;;
  let file_size := bytes_len file in
  let range := default (full_file file_size) range in
  se_guard ((0 <? file_size)%Z && (file_size <=? br_start range)%Z) "range start beyond file size" ;;;
  let end_position := if (file_size =? 0)%Z then 0%Z else Z.min (br_end range) (file_size - 1) in
  se_guard ((end_position <? br_start range)%Z && (0 <? file_size)%Z) "invalid byte range" ;;;
  (if (0 <? br_start range)%Z || (0 <? file_size)%Z && (end_position <? file_size - 1)%Z
   then call "failed to seek file" else se_ret tt) ;;;
  se_ret (mkLocalReader LOCAL_FILE_CHUNK_SIZE (br_start range) (br_start range) end_position file_size).

Section downloads.
(** The bits of a [usize]. *)
Context (usize_bits : Z).

Definition local_next_chunk (r : LocalFileReader) (file : list Z) : Fs (LocalFileReader * option (list Z)) :=
  if (lr_end r <? lr_position r)%Z then se_ret (r, None) else
  let remaining := (lr_end r - lr_position r + 1)%Z in
  let read_size := Z.to_nat (Z.min (lr_chunk_size r) (remaining mod 2 ^ usize_bits)) in
  let! buffer := read_loop read_size "read failed" (Z.to_nat (lr_position r)) read_size file in
  if bool_decide (buffer = []) then se_ret (r, None)
  else se_ret (mkLocalReader (lr_chunk_size r) (lr_range_start r) (lr_position r + bytes_len buffer) (lr_end r) (lr_file_size r), Some buffer).

#[export] Instance local_reader : ChunkReader LocalFileReader := {| next_chunk := local_next_chunk |}.

(** ** Over a data channel *)

Inductive Outgoing : Type :=
| Header (size offset length package_count chunk_size : Z)
| Chunk (data : list Z)
| Finished (offset bytes_sent : Z).

(** [(length as f64 / chunk as f64).ceil()]; the quotient by a power of two is
    exact. *)
Definition package_count (length chunk_size : Z) : Z :=
  if (length =? 0)%Z then 0 else - ((- round_f64 length) / chunk_size).

(** [sends]: whether each send succeeds; afterwards all do. *)
Fixpoint send_chunks {R} `{!ChunkReader R} (fuel : nat) (r : R) (file : list Z) (sends : list bool) (sent : list (list Z)) (d : Disk)
  : Disk * list bool * list (list Z) :=
  match fuel with
  | O => (d, sends, sent)
  | S fuel =>
      match next_chunk r file d with
      | (d, Ok (r, Some data)) =>
          if default true (head sends) then send_chunks fuel r file (tail sends) (sent ++ [data]) d
          else (d, tail sends, sent)
      | (d, _) => (d, sends, sent)
      end
  end.

Definition total (chunks : list (list Z)) : Z := bytes_len (List.concat chunks).

(** After the header: the chunks and the note at the end. *)
Definition stream_file {R} `{!ChunkReader R} (r : R) (file : list Z) (offset : Z) (sends : list bool) (d : Disk) : list Outgoing :=
  let '(_, sends, sent) := send_chunks (S (length file)) r file sends [] d in
  (Chunk <$> sent) ++ (if default true (head sends) then [Finished offset (total sent)] else []).

(** [download_local_file], the task: [file_size] is from the request. *)
Definition local_send_file (file_size offset : Z) (resolved : Result string string) (file : list Z) (sends : list bool) (d : Disk) : list Outgoing :=
  let len := Z.max 0 (file_size - offset) in
  let byte_range := if (file_size =? 0)%Z then mkRange 0 0 else mkRange offset (file_size - 1) in
  if negb (default true (head sends)) then [] else
  let header := Header file_size offset len (package_count len LOCAL_FILE_CHUNK_SIZE) LOCAL_FILE_CHUNK_SIZE in
  let sends := tail sends in
  if (len =? 0)%Z then header :: (if default true (head sends) then [Finished offset 0] else [])
  else match open_local_file_reader resolved (Some byte_range) file d with
       | (_, Err _) => [header]
       | (d, Ok reader) => header :: stream_file reader file offset sends d
       end.

(** [download_ft_file], the task: the reader is opened and moved before the
    header is sent. *)
Definition ft_send_from (reader : AsyncFileReader) (file_size offset : Z) (file : list Z) (sends : list bool) (d : Disk) : list Outgoing :=
  let len := Z.max 0 (file_size - offset) in
  let chunk_size := Z.of_nat (rd_chunk_size reader) in
  let header := Header file_size offset len (package_count len chunk_size) chunk_size in
  if negb (default true (head sends)) then [] else
  let sends := tail sends in
  if (len =? 0)%Z then header :: (if default true (head sends) then [Finished offset 0] else [])
  else header :: stream_file reader file offset sends d.

Definition ft_send_file (is_mounted : bool) (fold_name : string -> string) (dir_len : Z) (modified : list string -> option Z)
    (file_path : string) (file_size offset : Z) (file : list Z) (sends : list bool) (d : Disk) : list Outgoing :=
  match create_async_reader is_mounted fold_name dir_len modified file_path 4096 d with
  | (_, Err _) => []
  | (d, Ok reader) =>
      if (0 <? offset)%Z then
        match skip_bytes reader (Z.to_nat offset) d with
        | (d, Ok (reader, Ok _)) => ft_send_from reader file_size offset file sends d
        | _ => []
        end
      else ft_send_from reader file_size offset file sends d
  end.

(** *** The requests *)

Record DownloadEnv := mkDownloadEnv { dl_session : bool; dl_channel : bool; dl_opens : bool }.

(** The file size the task starts with. *)
Definition download_local_file (denv : DownloadEnv) (env : ServeEnv) (path : string) (offset : Z) : Result string Z :=
  if negb (dl_session denv) then Err "Can not found session"
  else result_bind (get_local_file_info env path) (fun info =>
    if (in_size info <? offset)%Z then Err "offset beyond file size"
    else if negb (dl_channel denv) then Err "create_data_channel"
    else Ok (in_size info)).

Definition download_ft_file (is_mounted : bool) (fold_name : string -> string) (dir_len : Z) (modified : list string -> option Z)
    (denv : DownloadEnv) (path name : string) (offset : Z) : Fs Z :=
  se_guard (negb (dl_session denv)) "Can not found session" ;;;
  let file_path := replace_double "/" (path +:+ "/" +:+ name) in
  let! there := exists_ is_mounted fold_name file_path in
  se_guard (negb there) "file not found" ;;;
  let! info := get_file_info is_mounted fold_name dir_len modified file_path in
  se_guard (fi_size info <? offset)%Z "offset beyond file size" ;;;
  se_guard (negb (dl_channel denv)) "create_data_channel" ;;;
  se_ret (fi_size info).
End downloads.

(** ** Range headers *)

Definition range_char (a : ascii) : bool := is_digit a || existsb (Ascii.eqb a) ["b"; "y"; "t"; "e"; "s"; "="; "-"]%char.

Lemma range_char_solid a : range_char a = true -> solid a.
Proof.
  unfold range_char. intros [Ha|Ha]%orb_true_iff; [by apply is_digit_solid|].
  apply existsb_exists in Ha as (c & Hc & ->%Ascii.eqb_eq). repeat destruct Hc as [<-|Hc]; done.
Qed.

Lemma digits_range s : all_chars is_digit s = true -> all_chars range_char s = true.
Proof.
  induction s as [|c s IH]; [done|]. cbn. intros [Hc Hs]%andb_true_iff. unfold range_char at 1. by rewrite Hc, IH.
Qed.

Lemma show_range a : all_chars range_char (show_nat a) = true.
Proof. apply digits_range, show_nat_digits. Qed.

(** The three forms of a range are read as what they mean. *)
Lemma parse_closed_range a b size :
  (0 <= a <= b)%Z -> (b < size)%Z -> (size <= u64_max)%Z ->
  parse_range_header ("bytes=" +:+ show_nat a +:+ "-" +:+ show_nat b) size = Ok (Some (mkRange a b)).
Proof.
  intros Hab Hb Hs. unfold parse_range_header.
  rewrite (all_chars_trimmed range_char) by (apply range_char_solid || by rewrite !all_chars_app, !show_range). rewrite strip_prefix_app.
  change (is_empty ("bytes=" +:+ _)) with false.
  assert (Hdig : ∀ z, all_chars is_digit (show_nat z) = true) by (intros z; apply show_nat_digits).
  assert (Hno : ∀ c z, is_digit c = false -> contains_char c (show_nat z) = false) by (intros c z Hc; by apply (all_chars_no is_digit)).
  rewrite !contains_char_app, !Hno by done. cbn [contains_char orb Ascii.eqb Bool.eqb].
  assert (strip_prefix "-" (show_nat a +:+ "-" +:+ show_nat b) = None) as ->.
  { specialize (Hdig a). destruct (show_nat_digits a) as [_ Hne]. destruct (show_nat a) as [|c s]; [done|]. unfold strip_prefix. rewrite str_app_cons.
    rewrite starts_with_first. cbn in Hdig. destruct (Ascii.eqb_spec "-" c) as [<-|]; [discriminate Hdig|done]. }
  change ("-" +:+ show_nat b) with (String "-" (show_nat b)). rewrite split_once_app by by apply Hno.
  unfold parse_u64. rewrite !parse_show by lia. destruct (show_nat_digits b) as [_ Hne].
  assert (is_empty (show_nat b) = false) as -> by by destruct (show_nat b).
  destruct (Z.eqb_spec size 0); [lia|]. destruct (Z.ltb_spec b a); [lia|]. by destruct (Z.leb_spec size b); [lia|].
Qed.

Lemma parse_u64_nonneg s z : parse_u64 s = Some z -> (0 <= z)%Z.
Proof.
  unfold parse_u64, parse_unsigned. intros H.
  assert (Hp : ∀ t, parse_digits 10 u64_max digit_of 0 t = Some z -> (0 <= z)%Z) by (intros t Ht; apply parse_digits_range in Ht; unfold u64_max in *; lia).
  repeat case_match; try done; by eapply Hp.
Qed.

(** What is accepted lies in the file. *)
Lemma parse_range_inside h size r :
  (0 <= size)%Z -> parse_range_header h size = Ok (Some r) ->
  if (size =? 0)%Z then r = mkRange 0 0 else (0 <= br_start r <= br_end r)%Z /\ (br_end r < size)%Z.
Proof.
  intros Hs. unfold parse_range_header. destruct (is_empty _); [done|]. destruct (strip_prefix "bytes=" _) as [spec|]; [|done].
  destruct (contains_char _ _); [done|].
  assert (Hpos : ∀ s z, parse_u64 s = Some z -> (0 <= z)%Z) by (intros s z; apply parse_u64_nonneg).
  destruct (strip_prefix "-" spec) as [suffix|].
  - destruct (parse_u64 suffix) as [n|] eqn:En; [|done]. apply Hpos in En. destruct (Z.eqb_spec n 0); [done|].
    destruct (Z.eqb_spec size 0); [done|]. intros [= <-]. cbn. lia.
  - destruct (split_once "-" spec) as [[s e]|]; [|done]. destruct (parse_u64 s) as [a|] eqn:Ea; [|done]. apply Hpos in Ea. destruct (is_empty e).
    + destruct (Z.eqb_spec size 0); [destruct (_ <? _)%Z; [done|by intros [= <-]]|]. destruct (Z.leb_spec size a); [done|]. intros [= <-]. cbn. lia.
    + destruct (parse_u64 e) as [b|]; [|done]. destruct (Z.eqb_spec size 0); [done|]. cbn [orb].
      destruct (Z.ltb_spec b a); [done|]. destruct (Z.leb_spec size b); [done|]. intros [= <-]. cbn. lia.
Qed.

(** ** Answers over HTTP *)

(** What a request gets when the file has not changed since it was asked for. *)
Definition answered (range : option string) (info : FileInfoAnswer) (file : list Z) : HttpFile :=
  serve_file range false info (inr "") (fun _ => Some file) true.

Lemma piece_length (file : list Z) a n : (0 <= a)%Z -> (0 <= n)%Z -> (a + n <= Z.of_nat (length file))%Z ->
  Z.of_nat (length (take (Z.to_nat n) (drop (Z.to_nat a) file))) = n.
Proof. intros. rewrite length_take, length_drop. lia. Qed.

Definition range_inside (br : ByteRange) (size : Z) : Prop :=
  if (size =? 0)%Z then br = mkRange 0 0 else (0 <= br_start br <= br_end br)%Z /\ (br_end br < size)%Z.

Lemma full_inside size : (0 <= size)%Z -> range_inside (full_file size) size.
Proof. intros. unfold range_inside, full_file. destruct (Z.eqb_spec size 0); [done|]. cbn. lia. Qed.

Lemma requested_inside range size br : (0 <= size)%Z -> requested_range range size = Some br ->
  range_inside br size /\ (range = None -> br = full_file size).
Proof.
  intros Hs. unfold requested_range. destruct (range ≫= header_to_str) as [h|] eqn:Eh.
  - destruct (parse_range_header h size) as [[r|]|] eqn:E; [|intros [= <-]; split; [by apply full_inside|done]|done].
    intros [= <-]. split; [by apply parse_range_inside in E|]. by intros ->.
  - intros [= <-]. split; [by apply full_inside|done].
Qed.

Lemma body_length br (file : list Z) : range_inside br (bytes_len file) ->
  bytes_len (take (Z.to_nat (content_len br (bytes_len file))) (drop (Z.to_nat (br_start br)) file)) = content_len br (bytes_len file).
Proof.
  unfold range_inside, content_len, range_len, bytes_len. destruct (Z.eqb_spec (Z.of_nat (length file)) 0); [done|].
  intros [? ?]. destruct (Z.ltb_spec (br_end br) (br_start br)); [lia|]. rewrite piece_length; lia.
Qed.

(** C31: A file is served as it is: for a file that does not change during the
    request, the answer is the whole file with status 200, or status 206 with a
    slice of it that its Content-Range names, or 416 without a byte; and the length
    it announces is the one it has. *)
Theorem file_served_exactly range info file :
  in_size info = bytes_len file ->
  let r := answered range info file in
  (rs_status r = 416%Z /\ rs_body r = [] /\ is_Some range)
  \/ rs_content_length r = Some (bytes_len (rs_body r))
     /\ (rs_status r = 200%Z /\ rs_body r = file /\ rs_content_range r = None
         \/ rs_status r = 206%Z /\ ∃ a b, (0 <= a <= b)%Z /\ (b < bytes_len file)%Z
            /\ rs_body r = take (Z.to_nat (b - a + 1)) (drop (Z.to_nat a) file)
            /\ rs_content_range r = Some ("bytes " +:+ show_nat a +:+ "-" +:+ show_nat b +:+ "/" +:+ show_nat (bytes_len file))).
Proof.
  intros Hsize. cbn zeta. unfold answered, serve_file. rewrite Hsize. assert (Hnn : (0 <= bytes_len file)%Z) by (unfold bytes_len; lia).
  destruct (requested_range range (bytes_len file)) as [br|] eqn:Er.
  2:{ left. split_and!; [done|done|]. destruct range; [by eexists|done]. }
  right. destruct (requested_inside _ _ _ Hnn Er) as [Hin Hnone]. unfold serve_range. rewrite Hsize, andb_false_r. cbn [rs_content_length rs_body].
  split; [by rewrite body_length|]. pose proof Hin as Hin'. unfold range_inside in Hin'. cbn [rs_status rs_content_range].
  destruct (Z.eqb_spec (bytes_len file) 0) as [Hz|Hz].
  - left. unfold bytes_len in Hz. assert (file = []) as -> by (destruct file; [done|cbn in Hz; lia]). change (0 <? bytes_len [])%Z with false.
    rewrite andb_false_r, drop_nil, take_nil. done.
  - destruct (Z.ltb_spec 0 (bytes_len file)); [|lia]. rewrite andb_true_r. unfold content_len, range_len.
    destruct (Z.eqb_spec (bytes_len file) 0); [done|]. destruct (Z.ltb_spec (br_end br) (br_start br)); [lia|].
    case_bool_decide as Hr.
    + right. split; [done|]. exists (br_start br), (br_end br). split_and!; [lia..|done|done].
    + left. assert (range = None) as E by (destruct range; [by destruct Hr|done]). rewrite (Hnone E). unfold full_file.
      destruct (Z.eqb_spec (bytes_len file) 0); [done|]. cbn [br_start br_end]. change (Z.to_nat 0) with 0. rewrite drop_0. split_and!; [done| |done]. apply take_ge. unfold bytes_len. lia.
Qed.

(** *** Downloading in pieces *)

(** The ranges of a client that asks for [n] bytes at a time. *)
Fixpoint piece_ranges (fuel : nat) (n a size : Z) : list ByteRange :=
  match fuel with
  | O => []
  | S fuel => if (size <=? a)%Z then [] else mkRange a (Z.min size (a + n) - 1) :: piece_ranges fuel n (Z.min size (a + n)) size
  end.

Definition range_header (r : ByteRange) : string := "bytes=" +:+ show_nat (br_start r) +:+ "-" +:+ show_nat (br_end r).

Lemma header_visible r : header_to_str (range_header r) = Some (range_header r).
Proof.
  unfold header_to_str, range_header. assert (Hd : ∀ z, all_chars visible (show_nat z) = true).
  { intros z. destruct (show_nat_digits z) as [Hz _]. revert Hz. induction (show_nat z) as [|c s IH]; [done|]. cbn. intros [Hc Hs]%andb_true_iff.
    rewrite IH by done. rewrite andb_true_r. apply is_digit_solid in Hc as Hc'. unfold is_digit, digit_of, visible in *.
    destruct (_ && _) eqn:E in Hc; [|done]. lia. }
  by rewrite !all_chars_app, !Hd.
Qed.

Lemma piece_answer info file r :
  in_size info = bytes_len file -> (bytes_len file <= u64_max)%Z -> (0 <= br_start r <= br_end r)%Z -> (br_end r < bytes_len file)%Z ->
  rs_body (answered (Some (range_header r)) info file) = take (Z.to_nat (br_end r - br_start r + 1)) (drop (Z.to_nat (br_start r)) file).
Proof.
  intros Hsize Hmax Hr Hb. unfold answered, serve_file, requested_range. cbn [mbind option_bind]. rewrite header_visible, Hsize. unfold range_header at 1.
  rewrite parse_closed_range by lia. unfold serve_range. rewrite andb_false_r, Hsize. cbn [rs_body br_start br_end].
  unfold content_len, range_len. cbn. destruct (Z.eqb_spec (bytes_len file) 0); [lia|]. by destruct (Z.ltb_spec (br_end r) (br_start r)); [lia|].
Qed.

(** A file downloaded in pieces is the file: with pieces of any positive size,
    asked for by their Range headers, the bodies of the answers put together are
    the file, and each request is answered with 206. *)
Theorem pieces_make_file n info file :
  (0 < n)%Z -> in_size info = bytes_len file -> (bytes_len file <= u64_max)%Z ->
  List.concat ((fun r => rs_body (answered (Some (range_header r)) info file)) <$> piece_ranges (S (length file)) n 0 (bytes_len file)) = file.
Proof.
  intros Hn Hsize Hmax.
  assert (H : ∀ fuel a, (0 <= a)%Z -> (bytes_len file <= a + Z.of_nat fuel)%Z ->
    List.concat ((fun r => rs_body (answered (Some (range_header r)) info file)) <$> piece_ranges fuel n a (bytes_len file)) = drop (Z.to_nat a) file).
  { induction fuel as [|fuel IH]; intros a Ha Hf; cbn [piece_ranges].
    - cbn. symmetry. apply drop_ge. unfold bytes_len in Hf. lia.
    - destruct (Z.leb_spec (bytes_len file) a) as [Hle|Hlt]; [cbn; symmetry; apply drop_ge; unfold bytes_len in Hle; lia|].
      cbn [fmap list_fmap List.concat]. rewrite piece_answer by (cbn; lia). cbn [br_start br_end].
      rewrite IH by lia. replace (Z.to_nat (Z.min (bytes_len file) (a + n))) with (Z.to_nat a + Z.to_nat (Z.min (bytes_len file) (a + n) - 1 - a + 1)) by lia.
      rewrite <- drop_drop. apply take_drop. }
  rewrite H by (unfold bytes_len; lia). done.
Qed.

(** ** Chunks *)

(** A read that succeeds brings the bytes asked for. *)
Lemma read_loop_ok fuel f off size c d d' b :
  size <= fuel -> read_loop fuel f off size c d = (d', Ok b) -> b = take size (drop off c).
Proof.
  revert off size d d' b. induction fuel as [|fuel IH]; intros off size d d' b Hf; cbn [read_loop].
  { intros [= _ <-]. assert (size = 0) as -> by lia. by rewrite take_0. }
  destruct (Nat.eqb_spec size 0) as [->|Hs]; [intros [= _ <-]; by rewrite take_0|].
  unfold se_bind at 1, next. destruct (default Fine (head (script d))) as [|n| |n j]; [by intros [= _ <-]| |done|by intros [= _ <-]].
  set (there := take size (drop off c)). set (got := take (Nat.max 1 n) there). case_bool_decide as Hg.
  { intros [= _ <-]. unfold got in Hg. destruct there; [done|]. by destruct n as [|[]]. }
  assert (Hlen : length got = Nat.min (Nat.max 1 n) (length there)) by apply length_take.
  assert (Hpos : 0 < length got) by (destruct got; [done|cbn; lia]). assert (Hle : length there <= size) by (unfold there; rewrite length_take; lia).
  unfold se_bind, se_ret. destruct (read_loop fuel f _ _ c _) as [d1 [rest|e]] eqn:E; [|done]. apply IH in E as ->; [|lia]. intros [= _ <-].
  rewrite <- drop_drop. transitivity (take (length got) there ++ drop (length got) there); [|apply take_drop]. f_equal.
  - unfold got. rewrite length_take. destruct (decide (Nat.max 1 n <= length there)).
    + by rewrite Nat.min_l.
    + rewrite Nat.min_r, firstn_all, take_ge by lia. done.
  - unfold there. by rewrite skipn_firstn_comm.
Qed.

(** What the senders need of a reader: where it stands, where it stops, and that
    each chunk is the next piece of the file. *)
Class SteadyReader (R : Type) `{!ChunkReader R} := {
  rd_at : R -> nat; rd_stop : R -> nat; rd_chunk : R -> nat; rd_good : R -> list Z -> Prop;
  rd_inside : ∀ r file, rd_good r file -> rd_at r <= rd_stop r <= length file /\ 0 < rd_chunk r;
  rd_next : ∀ r file d, rd_good r file ->
    let '(d', x) := next_chunk r file d in
    match x with
    | Err _ => True
    | Ok (_, None) => rd_at r = rd_stop r
    | Ok (r', Some b) =>
        b = take (Nat.min (rd_chunk r) (rd_stop r - rd_at r)) (drop (rd_at r) file) /\ rd_at r < rd_stop r
        /\ rd_good r' file /\ rd_at r' = rd_at r + length b /\ rd_stop r' = rd_stop r /\ rd_chunk r' = rd_chunk r
    end
    /\ (no_fault d -> is_ok x = true /\ no_fault d') }.

#[export] Program Instance drive_reader_steady : SteadyReader AsyncFileReader := {|
  rd_at := rd_position; rd_stop := rd_file_size; rd_chunk := rd_chunk_size;
  rd_good r file := rd_position r <= rd_file_size r /\ rd_file_size r = length file /\ 0 < rd_chunk_size r |}.
Next Obligation. cbn. intros r file (? & ? & ?). lia. Qed.
Next Obligation.
  cbn. intros r file d (Hp & Hs & Hc). unfold read_next_chunk. destruct (Nat.leb_spec (rd_file_size r) (rd_position r)); [split; [lia|done]|].
  set (k := Nat.min _ _). unfold se_bind. destruct (read_loop k _ _ k file d) as [d' [b|e]] eqn:E; unfold se_ret.
  - pose proof (read_loop_ok _ _ _ _ _ _ _ _ (le_n k) E) as Hb. assert (Hlen : length b = k) by (rewrite Hb, length_take, length_drop; lia).
    rewrite bool_decide_false by (intros ->; cbn in Hlen; lia). split; [split_and!; cbn; try done; lia|].
    intros Hn. split; [done|]. destruct (read_loop_fine k "Failed to read chunk" (rd_position r) k file d Hn (le_n k)) as (d1 & E1 & _ & Hd1).
    rewrite E in E1. by injection E1 as -> _.
  - split; [done|]. intros Hn. destruct (read_loop_fine k "Failed to read chunk" (rd_position r) k file d Hn (le_n k)) as (d1 & E1 & _). congruence.
Qed.

Section local.
Context (usize_bits : Z).

(** The rest of the range has to fit a [usize]. *)
#[export] Program Instance local_reader_steady : SteadyReader (ChunkReader0 := local_reader usize_bits) LocalFileReader := {|
  rd_at r := Z.to_nat (lr_position r); rd_stop r := Z.to_nat (lr_end r + 1); rd_chunk r := Z.to_nat (lr_chunk_size r);
  rd_good r file := (0 <= lr_position r <= lr_end r + 1)%Z /\ (lr_end r + 1 <= bytes_len file)%Z /\ (0 < lr_chunk_size r)%Z
                    /\ (lr_end r - lr_position r + 1 < 2 ^ usize_bits)%Z |}.
Next Obligation. cbn. unfold bytes_len. intros r file (? & ? & ? & ?). lia. Qed.
Next Obligation.
  cbn. intros r file d (Hp & Hs & Hc & Hu). unfold local_next_chunk. destruct (Z.ltb_spec (lr_end r) (lr_position r)); [split; [lia|done]|].
  rewrite Z.mod_small by lia. set (k := Z.to_nat (Z.min _ _)). unfold bytes_len in *.
  assert (Hk : k = Nat.min (Z.to_nat (lr_chunk_size r)) (Z.to_nat (lr_end r + 1) - Z.to_nat (lr_position r))) by lia.
  unfold se_bind. destruct (read_loop k _ _ k file d) as [d' [b|e]] eqn:E; unfold se_ret.
  - pose proof (read_loop_ok _ _ _ _ _ _ _ _ (le_n k) E) as Hb. assert (Hlen : length b = k) by (rewrite Hb, length_take, length_drop; lia).
    rewrite bool_decide_false by (intros ->; cbn in Hlen; lia). split.
    { rewrite Hk in Hb. cbn [lr_position lr_end lr_chunk_size]. split_and!; try done; lia. }
    intros Hn. split; [done|]. destruct (read_loop_fine k "read failed" (Z.to_nat (lr_position r)) k file d Hn (le_n k)) as (d1 & E1 & _ & Hd1).
    rewrite E in E1. by injection E1 as -> _.
  - split; [done|]. intros Hn. destruct (read_loop_fine k "read failed" (Z.to_nat (lr_position r)) k file d Hn (le_n k)) as (d1 & E1 & _). congruence.
Qed.
End local.

(** ** Downloads over a data channel *)

Section streams.
Context {R : Type} `{SteadyReader R}.

(** What is left to be read. *)
Definition rest_of (r : R) (file : list Z) : list Z := take (rd_stop r - rd_at r) (drop (rd_at r) file).

Lemma rest_length r file : rd_good r file -> length (rest_of r file) = rd_stop r - rd_at r.
Proof. intros Hg%rd_inside. unfold rest_of. rewrite length_take, length_drop. lia. Qed.

(** The number of chunks of a length. *)
Definition chunks_of (n chunk : nat) : nat := (n + chunk - 1) / chunk.

Lemma chunks_of_step n chunk : 0 < chunk -> 0 < n -> chunks_of n chunk = S (chunks_of (n - Nat.min chunk n) chunk).
Proof.
  intros Hc Hn. unfold chunks_of. destruct (Nat.min_spec chunk n) as [[H1 ->]|[H1 ->]].
  - replace (n + chunk - 1) with ((n - chunk + chunk - 1) + 1 * chunk) by lia. rewrite Nat.div_add by lia. lia.
  - rewrite Nat.sub_diag. rewrite (Nat.div_small (0 + chunk - 1)) by lia.
    replace (n + chunk - 1) with ((n - 1) + 1 * chunk) by lia. rewrite Nat.div_add by lia. rewrite Nat.div_small by lia. done.
Qed.

Lemma send_chunks_spec fuel r file sends acc d :
  rd_good r file ->
  let '(_, sends', sent) := send_chunks fuel r file sends acc d in
  ∃ k, sent = acc ++ k /\ List.concat k `prefix_of` rest_of r file /\ Forall (fun b => 0 < length b <= rd_chunk r) k
  /\ (no_fault d -> Forall (eq true) sends -> rd_stop r - rd_at r < fuel ->
      List.concat k = rest_of r file /\ length k = chunks_of (rd_stop r - rd_at r) (rd_chunk r) /\ Forall (eq true) sends').
Proof.
  revert r sends acc d. induction fuel as [|fuel IH]; intros r sends acc d Hg; cbn [send_chunks].
  { exists []. rewrite app_nil_r. split_and!; [done|apply prefix_nil|constructor|lia]. }
  pose proof (rd_inside r file Hg) as [Hin Hc]. pose proof (rd_next r file d Hg) as Hx.
  destruct (next_chunk r file d) as [d1 [[r1 [b|]]|e]]; destruct Hx as [Hx Hfine].
  - destruct Hx as (Hb & Hlt & Hg1 & Hat & Hstop & Hch). assert (Hlen : length b = Nat.min (rd_chunk r) (rd_stop r - rd_at r)) by (rewrite Hb, length_take, length_drop; lia).
    assert (Hsplit : rest_of r file = b ++ rest_of r1 file).
    { unfold rest_of. rewrite Hat, Hstop, <- drop_drop. rewrite <- (take_drop (length b) (take (rd_stop r - rd_at r) (drop (rd_at r) file))). f_equal.
      - rewrite take_take, Nat.min_l by lia. rewrite Hlen. by rewrite <- Hb.
      - rewrite skipn_firstn_comm. f_equal. lia. }
    destruct (default true (head sends)) eqn:Es.
    + specialize (IH r1 (tail sends) (acc ++ [b]) d1 Hg1). destruct (send_chunks fuel r1 file _ _ d1) as [[d2 sends2] sent2].
      destruct IH as (k & -> & Hpre & Hall & Hfull). exists (b :: k). split_and!.
      * by rewrite <- app_assoc.
      * cbn. rewrite Hsplit. by apply prefix_app.
      * rewrite Hch in Hall. constructor; [lia|done].
      * intros Hn Hs Hf. destruct (Hfine Hn) as [_ Hn1]. destruct (Hfull Hn1) as (H1 & H2 & H3); [by destruct Hs|lia|]. split_and!; [|..|done].
        -- cbn. by rewrite H1, Hsplit.
        -- cbn. rewrite H2, Hat, Hstop, Hch, (chunks_of_step (rd_stop r - rd_at r)) by lia. do 2 f_equal. lia.
    + exists []. rewrite app_nil_r. split_and!; [done|apply prefix_nil|constructor|].
      intros _ Hs _. destruct sends as [|s sends]; [done|]. inversion Hs. cbn in Es. congruence.
  - exists []. rewrite app_nil_r. split_and!; [done|apply prefix_nil|constructor|]. intros _ Hs _.
    unfold rest_of. rewrite Hx, Nat.sub_diag, take_0. split_and!; [done| |done]. unfold chunks_of. cbn. rewrite Nat.div_small by lia. done.
  - exists []. rewrite app_nil_r. split_and!; [done|apply prefix_nil|constructor|]. intros Hn. by destruct (Hfine Hn).
Qed.

(** The messages of a download after its header. *)
Lemma stream_file_spec r file offset sends d :
  rd_good r file ->
  ∃ k tail, stream_file r file offset sends d = (Chunk <$> k) ++ tail /\ (tail = [] \/ tail = [Finished offset (bytes_len (List.concat k))])
  /\ List.concat k `prefix_of` rest_of r file /\ Forall (fun b => 0 < length b <= rd_chunk r) k
  /\ (no_fault d -> Forall (eq true) sends ->
      List.concat k = rest_of r file /\ length k = chunks_of (rd_stop r - rd_at r) (rd_chunk r)
      /\ tail = [Finished offset (bytes_len (rest_of r file))]).
Proof.
  intros Hg. unfold stream_file. pose proof (send_chunks_spec (S (length file)) r file sends [] d Hg) as Hs.
  destruct (send_chunks _ r file sends [] d) as [[d1 sends1] sent]. destruct Hs as (k & -> & Hpre & Hall & Hfull). cbn [app].
  exists k, (if default true (head sends1) then [Finished offset (total k)] else []). split_and!; [done| |done|done|].
  - destruct (default true (head sends1)); [by right|by left].
  - intros Hn Hs. pose proof (rd_inside r file Hg). destruct (Hfull Hn Hs) as (H1 & H2 & H3); [lia|]. split_and!; [done|done|].
    unfold total. rewrite H1. destruct H3 as [|x l H3 _]; [done|]. by rewrite <- H3.
Qed.
End streams.

Lemma round_f64_exact n : (0 <= n < 2 ^ 53)%Z -> round_f64 n = n.
Proof.
  intros Hn. unfold round_f64. assert (Z.max 0 (Z.log2 n - 52) = 0)%Z as ->.
  { pose proof (Z.log2_le_mono n (2 ^ 53 - 1) ltac:(lia)) as H. change (Z.log2 (2 ^ 53 - 1)) with 52%Z in H. lia. }
  rewrite !Z.shiftr_0_r, !Z.shiftl_0_r, Z.sub_diag. cbn. rewrite andb_false_r. done.
Qed.

Lemma package_count_chunks n chunk : 0 < chunk -> (Z.of_nat n < 2 ^ 53)%Z -> package_count (Z.of_nat n) (Z.of_nat chunk) = Z.of_nat (chunks_of n chunk).
Proof.
  intros Hc Hn. unfold package_count, chunks_of. destruct (Z.eqb_spec (Z.of_nat n) 0) as [Hz|Hz].
  { assert (n = 0) as -> by lia. rewrite Nat.div_small by lia. done. }
  rewrite round_f64_exact by lia. rewrite Nat2Z.inj_div. replace (Z.of_nat (n + chunk - 1)) with (Z.of_nat n + (Z.of_nat chunk - 1))%Z by lia.
  set (a := Z.of_nat n) in *. set (c := Z.of_nat chunk) in *. assert (0 < c)%Z by lia.
  pose proof (Z.div_mod (- a) c ltac:(lia)). pose proof (Z.mod_pos_bound (- a) c ltac:(lia)).
  apply Z.div_unique_pos with (r := (c - 1 - (- a) mod c)%Z); lia.
Qed.

(** A download without faults: the header announces what follows, the chunks put
    together are the file from the offset on, and the last message counts them. *)
Definition exact_download (file : list Z) (offset : nat) (out : list Outgoing) : Prop :=
  ∃ k, out = Header (bytes_len file) (Z.of_nat offset) (bytes_len (drop offset file)) (Z.of_nat (length k)) 4096
             :: (Chunk <$> k) ++ [Finished (Z.of_nat offset) (bytes_len (drop offset file))]
    /\ List.concat k = drop offset file /\ Forall (fun b => 0 < length b <= 4096) k.

(** With faults: nothing, or the header, a beginning of the rest, and perhaps the
    count of what was sent. *)
Definition honest_download (file : list Z) (offset : nat) (out : list Outgoing) : Prop :=
  out = [] \/ ∃ n k tail, out = Header (bytes_len file) (Z.of_nat offset) (bytes_len (drop offset file)) n 4096 :: (Chunk <$> k) ++ tail
    /\ (tail = [] \/ tail = [Finished (Z.of_nat offset) (bytes_len (List.concat k))])
    /\ List.concat k `prefix_of` drop offset file /\ Forall (fun b => 0 < length b <= 4096) k.

Lemma drop_all_prefix (file : list Z) offset : offset <= length file -> take (length file - offset) (drop offset file) = drop offset file.
Proof. intros. apply take_ge. rewrite length_drop. lia. Qed.

Lemma stream_download {R} `{SteadyReader R} (r : R) file offset n sends d :
  rd_good r file -> rd_at r = offset -> rd_stop r = length file -> rd_chunk r = 4096 -> offset <= length file ->
  let out := Header (bytes_len file) (Z.of_nat offset) (bytes_len (drop offset file)) n 4096 :: stream_file r file (Z.of_nat offset) sends d in
  honest_download file offset out
  /\ (no_fault d -> Forall (eq true) sends -> (n = Z.of_nat (chunks_of (length file - offset) 4096)) -> exact_download file offset out).
Proof.
  intros Hg Hat Hstop Hch Hle. destruct (stream_file_spec r file (Z.of_nat offset) sends d Hg) as (k & tl & E & Htl & Hpre & Hall & Hfull).
  unfold rest_of in *. rewrite Hat, Hstop in *. rewrite drop_all_prefix in * by done. rewrite Hch in *. split.
  - right. exists n, k, tl. rewrite E. by split_and!.
  - intros Hn Hs ->. destruct (Hfull Hn Hs) as (H1 & H2 & ->). exists k. rewrite E, H2. by split_and!.
Qed.

Lemma empty_download file offset sends : offset = length file ->
  let out := Header (bytes_len file) (Z.of_nat offset) 0 0 4096 :: (if default true (head sends) then [Finished (Z.of_nat offset) 0] else []) in
  honest_download file offset out /\ (Forall (eq true) sends -> exact_download file offset out).
Proof.
  intros ->. unfold honest_download, exact_download. rewrite drop_ge by done. split.
  - right. exists 0%Z, []. eexists. split; [reflexivity|]. split_and!; [destruct (default true (head sends)); [by right|by left]|apply prefix_nil|constructor].
  - intros Hs. exists []. split_and!; [|done|constructor]. by destruct Hs as [|x l <- _].
Qed.

(** A call gives its state on, and succeeds without faults. *)
Lemma call_run f d d' x : call f d = (d', x) -> no_fault d -> x = Ok tt /\ no_fault d'.
Proof. intros E Hd. destruct (call_fine f d Hd) as [F N]. rewrite F in E. by injection E as <- <-. Qed.

Lemma open_local_run resolved (file : list Z) offset d d' x :
  offset < length file ->
  open_local_file_reader resolved (Some (mkRange (Z.of_nat offset) (bytes_len file - 1))) file d = (d', x) ->
  match x with
  | Ok r => r = mkLocalReader 4096 (Z.of_nat offset) (Z.of_nat offset) (bytes_len file - 1) (bytes_len file)
  | Err _ => True
  end
  /\ (is_ok resolved = true -> no_fault d -> is_ok x = true /\ no_fault d').
Proof.
  intros Hlt. unfold open_local_file_reader, LOCAL_FILE_CHUNK_SIZE. cbn [default from_option Datatypes.id br_start br_end].
  destruct (Z.eqb_spec (bytes_len file) 0); [unfold bytes_len in *; lia|]. rewrite Z.min_id, Z.ltb_irrefl, andb_false_r, orb_false_r.
  destruct (Z.ltb_spec 0 (bytes_len file)); [|unfold bytes_len in *; lia].
  destruct (Z.leb_spec (bytes_len file) (Z.of_nat offset)); [unfold bytes_len in *; lia|].
  destruct (Z.ltb_spec (bytes_len file - 1) (Z.of_nat offset)); [unfold bytes_len in *; lia|].
  unfold se_bind, se_of_result, se_guard, se_ret. cbn [andb].
  destruct resolved as [p|e]; [|intros [= <- <-]; done].
  destruct (call "failed to open" d) as [e1 [[]|]] eqn:E1; [|intros [= <- <-]; split; [done|]; intros _ Hd; by destruct (call_run _ _ _ _ E1 Hd)].
  destruct (call "failed to stat file" e1) as [e2 [[]|]] eqn:E2.
  2:{ intros [= <- <-]. split; [done|]. intros _ Hd. destruct (call_run _ _ _ _ E1 Hd) as [_ N1]. by destruct (call_run _ _ _ _ E2 N1). }
  assert (Hfine : no_fault d -> no_fault e2) by (intros Hd; destruct (call_run _ _ _ _ E1 Hd) as [_ N1]; by destruct (call_run _ _ _ _ E2 N1)).
  destruct (0 <? Z.of_nat offset)%Z; [|intros [= <- <-]; split; [done|]; auto].
  destruct (call "failed to seek file" e2) as [e3 [[]|]] eqn:E3; intros [= <- <-]; (split; [done|]); intros _ Hd%Hfine; by destruct (call_run _ _ _ _ E3 Hd).
Qed.

(** A download of a local file over a data channel is exact: whatever reads
    and sends fail, the client gets a header and then a beginning of the file from
    its offset on, in chunks of at most 4096 bytes, and when the last message comes
    it counts what was sent; without faults it gets everything, in as many chunks
    as the header announced. *)
Theorem local_download_is_exact usize_bits resolved file offset sends d :
  offset <= length file -> (bytes_len file < 2 ^ usize_bits)%Z -> (bytes_len file < 2 ^ 53)%Z ->
  let out := local_send_file usize_bits (bytes_len file) (Z.of_nat offset) resolved file sends d in
  honest_download file offset out
  /\ (is_ok resolved = true -> no_fault d -> Forall (eq true) sends -> exact_download file offset out).
Proof.
  intros Hle Hbits H53. unfold local_send_file. assert (Hlen : Z.max 0 (bytes_len file - Z.of_nat offset) = bytes_len (drop offset file)) by (unfold bytes_len; rewrite length_drop; lia).
  rewrite Hlen. destruct (default true (head sends)) eqn:Es; cbn [negb].
  2:{ split; [by left|]. intros _ _ Hs. destruct Hs as [|x l <- _]; done. }
  assert (Htl : Forall (eq true) sends -> Forall (eq true) (tail sends)) by (by intros [|x l _ ?]).
  destruct (Z.eqb_spec (bytes_len (drop offset file)) 0) as [Hz|Hz].
  { assert (offset = length file) as Ho by (unfold bytes_len in Hz; rewrite length_drop in Hz; lia). rewrite Hz.
    destruct (empty_download file offset (tail sends) Ho) as [H1 H2]. split; [exact H1|]. intros _ _ Hs. by apply H2, Htl. }
  assert (Hlt : offset < length file) by (unfold bytes_len in Hz; rewrite length_drop in Hz; lia).
  set (n := package_count _ _). assert (Hn : n = Z.of_nat (chunks_of (length file - offset) 4096)).
  { unfold n, bytes_len. rewrite length_drop. unfold LOCAL_FILE_CHUNK_SIZE. change 4096%Z with (Z.of_nat 4096). apply package_count_chunks; [lia|].
    unfold bytes_len in H53. lia. }
  destruct (Z.eqb_spec (bytes_len file) 0); [unfold bytes_len in *; lia|].
  assert (Hfail : honest_download file offset [Header (bytes_len file) (Z.of_nat offset) (bytes_len (drop offset file)) n LOCAL_FILE_CHUNK_SIZE]).
  { right. exists n, [], []. cbn. split_and!; [done|by left|apply prefix_nil|constructor]. }
  destruct (open_local_file_reader resolved _ file d) as [d1 x] eqn:Eo. destruct (open_local_run _ _ _ _ _ _ Hlt Eo) as [Hr Hfine].
  destruct x as [r|e].
  - subst r. change LOCAL_FILE_CHUNK_SIZE with 4096%Z.
    destruct (stream_download (H := local_reader_steady usize_bits)
      (mkLocalReader 4096 (Z.of_nat offset) (Z.of_nat offset) (bytes_len file - 1) (bytes_len file)) file offset n (tail sends) d1) as [H1 H2];
      try (cbn; unfold bytes_len in *; lia).
    split; [exact H1|]. intros Hp Hd Hs. destruct (Hfine Hp Hd) as [_ Hd1]. apply H2; auto.
  - split; [exact Hfail|]. intros Hp Hd _. by destruct (Hfine Hp Hd).
Qed.

Lemma ft_send_from_exact (file : list Z) offset sends d :
  no_fault d -> Forall (eq true) sends -> offset <= length file -> (bytes_len file < 2 ^ 53)%Z ->
  exact_download file offset (ft_send_from (mkReader 4096 offset (length file)) (bytes_len file) (Z.of_nat offset) file sends d).
Proof.
  intros Hd Hs Hle H53. unfold ft_send_from. cbn [rd_chunk_size]. change (Z.of_nat 4096) with 4096%Z.
  assert (Z.max 0 (bytes_len file - Z.of_nat offset) = bytes_len (drop offset file))%Z as -> by (unfold bytes_len; rewrite length_drop; lia).
  assert (default true (head sends) = true) as -> by (by destruct Hs as [|x l <- _]). cbn [negb].
  assert (Htl : Forall (eq true) (tail sends)) by (by destruct Hs).
  destruct (Z.eqb_spec (bytes_len (drop offset file)) 0) as [Hz|Hz].
  - assert (offset = length file) as Ho by (unfold bytes_len in Hz; rewrite length_drop in Hz; lia). rewrite Hz.
    by apply (empty_download file offset (tail sends) Ho).
  - refine (proj2 (stream_download (H := drive_reader_steady) (mkReader 4096 offset (length file)) file offset _ (tail sends) d _ _ _ _ _) Hd Htl _); try done.
    + cbn. lia.
    + unfold bytes_len. rewrite length_drop. change 4096%Z with (Z.of_nat 4096). apply package_count_chunks; [lia|]. unfold bytes_len in H53. lia.
Qed.

(** The same for a file of the transfer drive that does not change while it is
    sent. *)
Theorem drive_download_is_exact is_mounted fold_name dir_len modified path (p : OsPath) file offset sends d :
  is_mounted = true -> resolves fold_name path p -> p.2 = false -> node_at (tree d) p.1 = Some (File file) ->
  no_fault d -> Forall (eq true) sends -> offset <= length file -> (bytes_len file < 2 ^ 53)%Z ->
  exact_download file offset (ft_send_file is_mounted fold_name dir_len modified path (bytes_len file) (Z.of_nat offset) file sends d).
Proof.
  intros Hm Hp Hslash Hf Hd Hs Hle H53. unfold ft_send_file, create_async_reader, ensure_mounted, se_bind at 1, se_guard. rewrite Hm. cbn [negb].
  unfold se_bind at 1. rewrite (resolves_run _ path p d Hp). unfold se_bind.
  destruct (open_read_fine "Failed to open file for reading" p file d Hd Hf Hslash) as (e1 & -> & _ & N1).
  destruct (call_fine "Failed to get file size" e1 N1) as [-> N2]. destruct (call_fine "Failed to seek to beginning" _ N2) as [-> N3].
  unfold se_ret. cbn [info_of fi_size]. replace (Z.to_nat (bytes_len file)) with (length file) by (unfold bytes_len; lia). destruct (Z.ltb_spec 0 (Z.of_nat offset)) as [Hpos|Hzero].
  - unfold skip_bytes, se_bind, se_catch. destruct (call_fine "Failed to seek to position" _ N3) as [-> N4].
    cbn [se_ret result_map rd_file_size rd_position rd_chunk_size]. rewrite Nat2Z.id, Nat.min_r by lia. by apply ft_send_from_exact.
  - assert (offset = 0) as -> by lia. by apply ft_send_from_exact.
Qed.
