(* ===== verification/StorageAdmin.v ===== *)
(** * Listing, measuring and clearing the image store (hardware/usb/storage.rs)

    What the storage dialog asks for.  The store is the directory of [Uploads];
    the order of its entries, their times and the calls that fail are arguments. *)

From S2P Require Import Prelude StateLaws Text Paths Uploads UsbClient Sidecar VirtualMedia.

(** ** Space *)

Record Statfs := mkStatfs { f_blocks : Z; f_bfree : Z; f_bsize : Z }.

Record StorageSpace := mkSpace { bytes_used : Z; bytes_free : Z }.

(** [saturating_sub] on 64-bit numbers with a sign. *)
Definition i64_min : Z := - i64_max - 1.
Definition sat_i64 (n : Z) : Z := Z.max i64_min (Z.min i64_max n).
Definition as_i64 (n : Z) : Z := if (n <=? i64_max)%Z then n else n - (u64_max + 1).

(** [img]: the blocks of the drive's image, if they can be asked for. *)
Definition get_storage_space (img : option (Z * Z)) (statfs : option Statfs) : Result string StorageSpace :=
  let '(_, img_actual) := default (0, 0)%Z img in
  match statfs with
  | None => Err "failed to statfs images folder"
  | Some st =>
      let total := wrap64 (f_blocks st * f_bsize st) in
      let used := wrap64 (wrap64 (f_blocks st - f_bfree st) * f_bsize st) in
      let adjusted_total := Z.max 0 (sat_i64 (as_i64 total - as_i64 img_actual)) in
      let adjusted_used := Z.max 0 (sat_i64 (as_i64 used - as_i64 img_actual)) in
      Ok (mkSpace adjusted_used (sat_i64 (adjusted_total - adjusted_used)))
  end.

Record StorageCategory := mkCategory { sc_id : string; sc_label : string; sc_bytes_used : Z; sc_clearable : bool }.
Record StorageDetails := mkDetails { sd_total : Z; sd_used : Z; sd_free : Z; sd_categories : list StorageCategory }.

(** What the log directories and the image directory take, in blocks. *)
Definition get_storage_details (img : option (Z * Z)) (statfs : option Statfs) (logs log images : Z) : Result string StorageDetails :=
  result_bind (get_storage_space img statfs) (fun space =>
    let bytes_total := sat_i64 (bytes_used space + bytes_free space) in
    let logs_bytes := wrap64 (logs + log) in
    let accounted := sat_i64 (as_i64 logs_bytes + as_i64 images) in
    let system_bytes := Z.max 0 (sat_i64 (bytes_used space - accounted)) in
    Ok (mkDetails bytes_total (bytes_used space) (bytes_free space)
          [mkCategory "system" "System Data" system_bytes false;
           mkCategory "logs" "Logs" (as_i64 logs_bytes) true;
           mkCategory "images" "Images" (as_i64 images) true])).

(** ** Files *)

Record StorageFileEntry := mkEntry { se_filename : string; se_size : Z; se_created_at : string; se_total_bytes : Z }.

Section store.
(** The order of a directory and of a hash map, and the time of a file. *)
Context (dir_order : list string -> list string).
Context (order : gmap string PendingUpload -> list (string * PendingUpload)).
Context (modified : string -> option string).

(** The names in the image directory. *)
Definition image_names (f : Fs) : list string :=
  dir_order (omap (fun '(p, _) => match strip_prefix (IMAGES_FOLDER +:+ "/") p with
                                  | Some name => if contains_char "/" name then None else Some name
                                  | None => None
                                  end) (map_to_list (dir f))).

(** The announced sizes of unfinished uploads, by the name of the part. *)
Definition pending_totals (s : UploadState) : gmap string Z :=
  fold_left (fun m '(_, u) => match path_file_name (u_upload_path u) with Some name => <[name := u_size u]> m | None => m end)
    (order (pending s) ++ order (closed s)) ∅.

(** [calls]: of each entry, whether it can be read. *)
Definition list_storage_files (mkdir reads : bool) (entry_ok : string -> bool) : UM (list StorageFileEntry) :=
  se_guard (negb mkdir) "ensure_images_folder" ;;;
  let! s := se_get id in
  se_guard (negb reads) "failed to read images folder" ;;;
  se_guard (negb (forallb entry_ok (image_names (ufs s)))) "entry" ;;;
  se_ret ((fun filename =>
             let size := fs_len (final_path_of filename) (ufs s) in
             mkEntry filename size (default "1970-01-01T00:00:00Z" (modified filename))
               (if ends_with ".incomplete" filename then default size (pending_totals s !! filename) else size))
          <$> image_names (ufs s)).

(** Every file of the directory; an error stops. *)
Fixpoint remove_each (unlink : string -> bool) (names : list string) : UM unit :=
  match names with
  | [] => se_ret tt
  | name :: names =>
      se_guard (negb (unlink name)) "failed to remove file" ;;;
      se_modify (fun s => set_ufs (fs_remove (final_path_of name) (ufs s)) s) ;;;
      remove_each unlink names
  end.

Definition clear_dir_contents (reads : bool) (unlink : string -> bool) : UM unit :=
  let! s := se_get id in
  se_guard (negb reads) "failed to read dir" ;;;
  remove_each unlink (image_names (ufs s)).

(** [let _ = cancel_vm_upload(..)]. *)
Fixpoint cancel_each (unlink : bool) (names : list string) : UM unit :=
  match names with
  | [] => se_ret tt
  | name :: names =>
      let! _ := se_catch (F := string) (cancel_vm_upload unlink name) in
      cancel_each unlink names
  end.

(** The part of a clear that concerns the store. *)
Definition clear_store (mkdir reads cancels : bool) (unlink : string -> bool) : UM unit :=
  let! files := list_storage_files mkdir reads (fun _ => true) in
  cancel_each cancels (se_filename <$> files) ;;;
  clear_dir_contents reads unlink ;;;
  se_guard (negb mkdir) "ensure_images_folder".

(** *** With the virtual media *)

Context {S : Type} `{UsbSidecar S} (bus : nat -> Query -> BusOutcome).

Definition from_storage (a : App S) : bool :=
  match virtual_media a with Some st => match vs_source st with Storage => true | _ => false end | None => false end.

Definition in_uploads {A} (m : UM A) : SE (App S * UploadState) string A :=
  fun '(a, u) => let '(u, r) := m u in ((a, u), r).

Definition clear_storage_images (mkdir reads cancels : bool) (unlink : string -> bool) : SE (App S * UploadState) string unit :=
  se_modify (fun '(a, u) => (if from_storage a then unmount_image bus a else a, u)) ;;;
  in_uploads (clear_store mkdir reads cancels unlink).
End store.

(** ** What a clear leaves *)

Lemma image_path name : contains_char "/" name = false -> final_path_of name = (IMAGES_FOLDER +:+ "/") +:+ name.
Proof.
  intros Hn. rewrite str_app_assoc. unfold final_path_of, path_join.
  assert (is_absolute name = false) as ->; [|done].
  unfold is_absolute, starts_with. destruct name as [|c name]; [done|].
  cbn -[ascii_dec] in *. destruct (ascii_dec "/" c) as [<-|]; [done|]. done.
Qed.

Section clear.
Context (dir_order : list string -> list string).
Context (order : gmap string PendingUpload -> list (string * PendingUpload)).
Context (modified : string -> option string).
Hypothesis dir_order_perm : ∀ l, dir_order l ≡ₚ l.

Lemma image_names_spec f name :
  name ∈ image_names dir_order f <-> contains_char "/" name = false /\ fs_exists (final_path_of name) f = true.
Proof.
  unfold image_names, fs_exists. rewrite dir_order_perm, list_elem_of_omap, bool_decide_eq_true. split.
  - intros ([p i] & Hp & Hs). apply elem_of_map_to_list in Hp.
    destruct (strip_prefix _ p) as [t|] eqn:E; [|done]. apply strip_prefix_spec in E as ->.
    destruct (contains_char "/" t) eqn:Et; [done|]. injection Hs as <-. split; [done|].
    rewrite image_path by done. by exists i.
  - intros [Hn [i Hi]]. exists (final_path_of name, i). split; [by apply elem_of_map_to_list|].
    rewrite (proj2 (strip_prefix_spec _ _ _) (image_path name Hn)). by rewrite Hn.
Qed.

(** Names are only taken away. *)
Definition shrinks (s t : UploadState) : Prop := dir (ufs t) ⊆ dir (ufs s).

#[local] Instance shrinks_pre : PreOrder shrinks.
Proof.
  split; [intros s; unfold shrinks; reflexivity|].
  intros s t u H1 H2. unfold shrinks in *. by etransitivity.
Qed.

Lemma remove_shrinks p s : shrinks s (set_ufs (fs_remove p (ufs s)) s).
Proof. apply delete_subseteq. Qed.

#[local] Ltac shrinks_solve tac :=
  moves_with ltac:(first [apply moves_modify; intros ?; first [apply remove_shrinks|unfold shrinks; reflexivity] | tac]).

Lemma cancel_shrinks unlink name : moves shrinks (cancel_vm_upload unlink name).
Proof. unfold cancel_vm_upload. shrinks_solve fail. Qed.

Lemma cancel_each_shrinks unlink names : moves shrinks (cancel_each unlink names).
Proof.
  induction names as [|name names IH]; cbn [cancel_each]; shrinks_solve ltac:(exact IH).
  intros s. unfold se_catch. pose proof (cancel_shrinks unlink name s) as H. by destruct (cancel_vm_upload unlink name s).
Qed.

Lemma remove_each_spec unlink names s s' :
  remove_each unlink names s = (s', Ok tt) ->
  shrinks s s' /\ ∀ name, name ∈ names -> fs_exists (final_path_of name) (ufs s') = false.
Proof.
  revert s. induction names as [|name names IH]; intros s; cbn.
  { intros [= <-]. split; [reflexivity|]. set_solver. }
  unfold se_bind, se_guard, se_modify. destruct (unlink name); cbn; [|done]. intros Hr.
  apply IH in Hr as [Hs Hn]. split; [etransitivity; [apply remove_shrinks|exact Hs]|].
  intros n [->|Hin]%elem_of_cons; [|by apply Hn]. unfold fs_exists. apply bool_decide_eq_false.
  intros [i Hi]. eapply lookup_weaken in Hi; [|exact Hs]. cbn in Hi. by rewrite lookup_delete_eq in Hi.
Qed.

Lemma remove_each_shrinks unlink names : moves shrinks (remove_each unlink names).
Proof. induction names as [|name names IH]; cbn [remove_each]; shrinks_solve ltac:(exact IH). Qed.

Context {S : Type} `{UsbSidecar S} (bus : nat -> Query -> BusOutcome).

Lemma list_quiet mkdir reads ok s : (list_storage_files dir_order order modified mkdir reads ok s).1 = s.
Proof. unfold list_storage_files. se_unfold. by repeat (case_match; simplify_eq/=). Qed.

Lemma clear_store_spec mkdir reads cancels unlink s s' r :
  clear_store dir_order order modified mkdir reads cancels unlink s = (s', r) ->
  shrinks s s'
  /\ (r = Ok tt ->
      (∀ name, contains_char "/" name = false -> fs_read (final_path_of name) (ufs s') = None)
      /\ ∀ ok, list_storage_files dir_order order modified true true ok s' = (s', Ok [])).
Proof.
  intros Hc. split.
  { change s' with ((s', r).1). rewrite <- Hc. clear. revert s. fold (moves shrinks (clear_store dir_order order modified mkdir reads cancels unlink)).
    unfold clear_store, clear_dir_contents.
    shrinks_solve ltac:(first [apply cancel_each_shrinks|apply remove_each_shrinks|apply moves_pure; [exact _|apply list_quiet]]). }
  intros ->. unfold clear_store, clear_dir_contents in Hc. repeat ok_step.
  match goal with E : remove_each _ _ _ = _ |- _ => rename E into Hr end.
  match goal with E : se_get id _ = _ |- _ => injection E as <- <- end.
  destruct a1. apply remove_each_spec in Hr as [Hs Hgone].
  assert (Hnone : ∀ name, contains_char "/" name = false -> fs_exists (final_path_of name) (ufs d1) = false).
  { intros name Hn. destruct (fs_exists (final_path_of name) (ufs d1)) eqn:E; [|done].
    rewrite <- E. apply Hgone, image_names_spec. split; [done|].
    apply bool_decide_eq_true in E as [k Hk]. apply bool_decide_eq_true. exists k. by eapply lookup_weaken. }
  split.
  - intros name Hn. apply Hnone in Hn. unfold fs_exists in Hn. apply bool_decide_eq_false in Hn.
    unfold fs_read. destruct (dir (ufs d1) !! _); [by destruct Hn|done].
  - assert (image_names dir_order (ufs d1) = []) as Hnil.
    { apply elem_of_nil_inv. intros name [Hn He]%image_names_spec. by rewrite Hnone in He. }
    intros ok. unfold list_storage_files. se_unfold. cbn. by rewrite Hnil.
Qed.

(** A clear of the image store that succeeds leaves no file in it and no image of
    it mounted, whichever uploads could not be cancelled before, and nothing is
    listed afterwards; a clear that fails half way has only taken files away. *)
Theorem clear_empties_store mkdir reads cancels unlink a s a' s' r :
  clear_storage_images dir_order order modified bus mkdir reads cancels unlink (a, s) = ((a', s'), r) ->
  shrinks s s' /\ from_storage a' = false
  /\ (r = Ok tt ->
      (∀ name, contains_char "/" name = false -> fs_read (final_path_of name) (ufs s') = None)
      /\ ∀ ok, list_storage_files dir_order order modified true true ok s' = (s', Ok [])).
Proof.
  unfold clear_storage_images, in_uploads, se_bind, se_modify.
  destruct (clear_store dir_order order modified mkdir reads cancels unlink s) as [s1 r1] eqn:E.
  intros [= <- <- <-]. apply clear_store_spec in E as [Hs Hr]. split_and!; [done| |done].
  destruct (from_storage a) eqn:Ea; [|done].
  unfold from_storage, unmount_image. by destruct (usb a).
Qed.
End clear.

(** The numbers of a disk whose free blocks are not more than its blocks add up. *)
Lemma space_within_disk img st sp :
  (0 <= f_bfree st <= f_blocks st)%Z -> (1 <= f_bsize st)%Z -> (f_blocks st * f_bsize st <= i64_max)%Z ->
  (0 <= default 0 (snd <$> img) <= i64_max)%Z ->
  get_storage_space img (Some st) = Ok sp ->
  (0 <= bytes_used sp)%Z /\ (0 <= bytes_free sp)%Z /\ (bytes_used sp + bytes_free sp <= f_blocks st * f_bsize st)%Z.
Proof.
  destruct st as [bl fr sz]. cbn [f_bfree f_blocks f_bsize]. intros Hb Hs Hm Ha.
  assert (Hn : (0 <= bl - fr <= bl * sz)%Z) by nia.
  assert (Hused : (0 <= (bl - fr) * sz <= bl * sz)%Z) by nia.
  assert (Hget : get_storage_space img (Some (mkStatfs bl fr sz)) = let a := default 0%Z (snd <$> img) in
    Ok (mkSpace (Z.max 0 ((bl - fr) * sz - a)) (Z.max 0 (bl * sz - a) - Z.max 0 ((bl - fr) * sz - a)))).
  { unfold get_storage_space. cbn [f_bfree f_blocks f_bsize].
    unfold i64_max in Hm, Ha. rewrite (wrap64_small (bl - fr)), !wrap64_small by lia.
    assert (Has : ∀ z, (0 <= z <= i64_max)%Z -> as_i64 z = z).
    { intros z Hz. unfold as_i64. by rewrite (proj2 (Z.leb_le z i64_max)) by lia. }
    assert (Hsat : ∀ z, (- i64_max <= z <= i64_max)%Z -> sat_i64 z = z).
    { intros z Hz. unfold sat_i64, i64_min. lia. }
    destruct img as [[l a]|]; cbn -[Z.max Z.sub Z.mul sat_i64 as_i64 wrap64 i64_max] in Ha |- *;
      rewrite !Has by (unfold i64_max; lia).
    - rewrite (Hsat (bl * sz - a))%Z, (Hsat ((bl - fr) * sz - a))%Z, Hsat by (unfold i64_max; lia). reflexivity.
    - rewrite (Hsat (bl * sz - 0))%Z, (Hsat ((bl - fr) * sz - 0))%Z, Hsat by (unfold i64_max; lia). reflexivity. }
  rewrite Hget. intros [= <-]. cbn [bytes_used bytes_free]. lia.
Qed.

(** ** What goes wrong *)

(** The names of the listing are those of the parts, so the cancellation looks
    for the part of a part and the upload goes on, into a file without a name;
    what is sent after the clear is lost. *)
Lemma clear_keeps_uploads :
  let '(s1, _) := start_storage_file_upload uuid_num any_order start_fine "a.iso" 4 no_files in
  let '(s2, _) := append_upload_data WroteAll "upload_0" [1; 2]%Z s1 in
  let '(s3, r3) := clear_store id any_order (fun _ => None) true true true (fun _ => true) s2 in
  r3 = Ok tt /\ is_Some (pending s3 !! "upload_0")
  /\ let '(s4, r4) := append_upload_data WroteAll "upload_0" [3; 4]%Z s3 in
     r4 = Ok (4, 4)%Z /\ (complete_upload complete_fine "upload_0" s4).2 = Ok 0%Z.
Proof. vm_compute. split_and!; try done. by eexists. Qed.

(** A clear in which a name is asked for that was cancelled by name alone would end it. *)
Lemma cancel_ends_upload :
  let '(s1, _) := start_storage_file_upload uuid_num any_order start_fine "a.iso" 4 no_files in
  pending (cancel_vm_upload true "a.iso" s1).1 = ∅
  /\ is_Some (pending (cancel_vm_upload true "a.iso.incomplete" s1).1 !! "upload_0").
Proof. vm_compute. split; [done|by eexists]. Qed.
