(* ===== verification/Terminal.v ===== *)
(** * The terminal (terminal/core.rs)

    A shell behind a pseudo-terminal and a data channel.  The poll loop of the
    channel, the handle of the session and the actor run side by side; an event is
    one of them up to its next await.  The actor sees a cancellation before
    anything else; between its other branches the order is left open.  Histories
    are kept of the data that was taken into the queue and of what the shell
    printed. *)

From S2P Require Import Prelude Text NetAdapter.

Definition CMD_QUEUE_CAP : nat := 256.
Definition OUTBOX_CAP : nat := 64.
Definition READ_BUF : nat := 1024.

Record TerminalSize := mkSize { ts_rows : Z; ts_cols : Z }.

Inductive TerminalCmd : Type :=
| Data (data : string)
| Resize (size : TerminalSize).

(** A message of the channel. *)
Record DcMessage := mkDcMessage { is_string : bool; msg_data : string }.

(** [String::from_utf8]: valid is what the lossy conversion leaves alone. *)
Definition from_utf8 (s : string) : option string :=
  let bytes := byte_of <$> String.list_ascii_of_string s in if bool_decide (from_utf8_lossy bytes = bytes) then Some s else None.

(** ** State *)

(** Before the channel is open; the actor; over. *)
Inductive TermPhase : Set := Boot | Actor | Over.

#[export] Instance TermPhase_eq_dec : EqDecision TermPhase.
Proof. solve_decision. Defined.

(** The process of the shell: not started, running, ended but not waited for,
    waited for. *)
Inductive Child : Set := NoChild | Running | Ended | Reaped.

#[export] Instance Child_eq_dec : EqDecision Child.
Proof. solve_decision. Defined.

Record Terminal := mkTerminal {
  tm_phase : TermPhase;
  tm_polling : bool;
  tm_cancelled : bool;
  tm_started : bool;
  tm_cmds : list TerminalCmd;
  tm_write_pending : list string;
  tm_outbox : list string;
  tm_inflight : option string;
  tm_child : Child;
  tm_size : option TerminalSize;
  tm_typed : string; (** what the pseudo-terminal took *)
  tm_sent : list string;
  tm_closed : bool; (** the channel *)
  tm_files : list string; (** [cleanup_paths] that are still there *)
  tm_accepted : list string;
  tm_printed : list string }.

Definition terminal_new (cleanup_paths : list string) : Terminal :=
  mkTerminal Boot true false false [] [] [] None NoChild None "" [] false cleanup_paths [] [].

Definition set_phase x t := mkTerminal x (tm_polling t) (tm_cancelled t) (tm_started t) (tm_cmds t) (tm_write_pending t) (tm_outbox t) (tm_inflight t) (tm_child t) (tm_size t) (tm_typed t) (tm_sent t) (tm_closed t) (tm_files t) (tm_accepted t) (tm_printed t).
Definition set_polling x t := mkTerminal (tm_phase t) x (tm_cancelled t) (tm_started t) (tm_cmds t) (tm_write_pending t) (tm_outbox t) (tm_inflight t) (tm_child t) (tm_size t) (tm_typed t) (tm_sent t) (tm_closed t) (tm_files t) (tm_accepted t) (tm_printed t).
Definition set_cancelled x t := mkTerminal (tm_phase t) (tm_polling t) x (tm_started t) (tm_cmds t) (tm_write_pending t) (tm_outbox t) (tm_inflight t) (tm_child t) (tm_size t) (tm_typed t) (tm_sent t) (tm_closed t) (tm_files t) (tm_accepted t) (tm_printed t).
Definition set_started x t := mkTerminal (tm_phase t) (tm_polling t) (tm_cancelled t) x (tm_cmds t) (tm_write_pending t) (tm_outbox t) (tm_inflight t) (tm_child t) (tm_size t) (tm_typed t) (tm_sent t) (tm_closed t) (tm_files t) (tm_accepted t) (tm_printed t).
Definition set_cmds x t := mkTerminal (tm_phase t) (tm_polling t) (tm_cancelled t) (tm_started t) x (tm_write_pending t) (tm_outbox t) (tm_inflight t) (tm_child t) (tm_size t) (tm_typed t) (tm_sent t) (tm_closed t) (tm_files t) (tm_accepted t) (tm_printed t).
Definition set_pending x t := mkTerminal (tm_phase t) (tm_polling t) (tm_cancelled t) (tm_started t) (tm_cmds t) x (tm_outbox t) (tm_inflight t) (tm_child t) (tm_size t) (tm_typed t) (tm_sent t) (tm_closed t) (tm_files t) (tm_accepted t) (tm_printed t).
Definition set_outbox x t := mkTerminal (tm_phase t) (tm_polling t) (tm_cancelled t) (tm_started t) (tm_cmds t) (tm_write_pending t) x (tm_inflight t) (tm_child t) (tm_size t) (tm_typed t) (tm_sent t) (tm_closed t) (tm_files t) (tm_accepted t) (tm_printed t).
Definition set_inflight x t := mkTerminal (tm_phase t) (tm_polling t) (tm_cancelled t) (tm_started t) (tm_cmds t) (tm_write_pending t) (tm_outbox t) x (tm_child t) (tm_size t) (tm_typed t) (tm_sent t) (tm_closed t) (tm_files t) (tm_accepted t) (tm_printed t).
Definition set_child x t := mkTerminal (tm_phase t) (tm_polling t) (tm_cancelled t) (tm_started t) (tm_cmds t) (tm_write_pending t) (tm_outbox t) (tm_inflight t) x (tm_size t) (tm_typed t) (tm_sent t) (tm_closed t) (tm_files t) (tm_accepted t) (tm_printed t).
Definition set_size x t := mkTerminal (tm_phase t) (tm_polling t) (tm_cancelled t) (tm_started t) (tm_cmds t) (tm_write_pending t) (tm_outbox t) (tm_inflight t) (tm_child t) x (tm_typed t) (tm_sent t) (tm_closed t) (tm_files t) (tm_accepted t) (tm_printed t).
Definition set_typed x t := mkTerminal (tm_phase t) (tm_polling t) (tm_cancelled t) (tm_started t) (tm_cmds t) (tm_write_pending t) (tm_outbox t) (tm_inflight t) (tm_child t) (tm_size t) x (tm_sent t) (tm_closed t) (tm_files t) (tm_accepted t) (tm_printed t).
Definition set_sent x t := mkTerminal (tm_phase t) (tm_polling t) (tm_cancelled t) (tm_started t) (tm_cmds t) (tm_write_pending t) (tm_outbox t) (tm_inflight t) (tm_child t) (tm_size t) (tm_typed t) x (tm_closed t) (tm_files t) (tm_accepted t) (tm_printed t).
Definition set_closed x t := mkTerminal (tm_phase t) (tm_polling t) (tm_cancelled t) (tm_started t) (tm_cmds t) (tm_write_pending t) (tm_outbox t) (tm_inflight t) (tm_child t) (tm_size t) (tm_typed t) (tm_sent t) x (tm_files t) (tm_accepted t) (tm_printed t).
Definition set_files x t := mkTerminal (tm_phase t) (tm_polling t) (tm_cancelled t) (tm_started t) (tm_cmds t) (tm_write_pending t) (tm_outbox t) (tm_inflight t) (tm_child t) (tm_size t) (tm_typed t) (tm_sent t) (tm_closed t) x (tm_accepted t) (tm_printed t).
Definition set_accepted x t := mkTerminal (tm_phase t) (tm_polling t) (tm_cancelled t) (tm_started t) (tm_cmds t) (tm_write_pending t) (tm_outbox t) (tm_inflight t) (tm_child t) (tm_size t) (tm_typed t) (tm_sent t) (tm_closed t) (tm_files t) x (tm_printed t).
Definition set_printed x t := mkTerminal (tm_phase t) (tm_polling t) (tm_cancelled t) (tm_started t) (tm_cmds t) (tm_write_pending t) (tm_outbox t) (tm_inflight t) (tm_child t) (tm_size t) (tm_typed t) (tm_sent t) (tm_closed t) (tm_files t) (tm_accepted t) x.

(** ** Messages *)

(** What [serde_json] makes of the text of a size. *)
Section terminal.
Context (parse_size : string -> option TerminalSize).

Definition parse_terminal_message (m : DcMessage) : TerminalCmd :=
  if is_string m then
    match from_utf8 (msg_data m) with
    | Some text =>
        let maybe_json := trim text in
        if (1 <? String.length maybe_json)%nat && starts_with "{" maybe_json && ends_with "}" maybe_json
        then match parse_size maybe_json with Some size => Resize size | None => Data text end
        else Data text
    | None => Data (msg_data m)
    end
  else Data (msg_data m).

(** [try_send] fails when the queue is full and when the actor is gone. *)
Definition on_message (m : DcMessage) (t : Terminal) : Terminal :=
  if negb (tm_started t) then t
  else if bool_decide (tm_phase t = Over) || (CMD_QUEUE_CAP <=? length (tm_cmds t))%nat then t
  else
    let cmd := parse_terminal_message m in
    let t := set_cmds (tm_cmds t ++ [cmd]) t in
    match cmd with Data d => set_accepted (tm_accepted t ++ [d]) t | Resize _ => t end.

(** ** The end of the actor *)

(** Whether the child that was killed could be waited for in two seconds, and
    which files could be removed. *)
Record EndEnv := mkEndEnv { ee_waited : bool; ee_removed : string -> bool }.

(** Killed with its group, then waited for. *)
Definition reclaim_child (waited : bool) (t : Terminal) : Terminal := set_child (if waited then Reaped else Ended) t.

Definition cleanup_files (removed : string -> bool) (t : Terminal) : Terminal :=
  set_files (List.filter (fun p => negb (removed p)) (tm_files t)) t.

(** [child_alive]; a child that is dropped is killed ([kill_on_drop]). *)
Definition end_actor (e : EndEnv) (child_alive : bool) (t : Terminal) : Terminal :=
  let t := set_inflight None t in
  let t := if child_alive then reclaim_child (ee_waited e) t
           else set_child (match tm_child t with Running => Ended | c => c end) t in
  set_phase Over (set_closed true (cleanup_files (ee_removed e) t)).

(** ** The branches *)

(** The top of the loop: the next chunk starts on its way. *)
Definition loop_top (t : Terminal) : Terminal :=
  match tm_inflight t, tm_outbox t with
  | None, chunk :: rest => set_inflight (Some chunk) (set_outbox rest t)
  | _, _ => t
  end.

Definition recv_cmd (e : EndEnv) (resized : bool) (t : Terminal) : option Terminal :=
  match tm_cmds t with
  | [] => if tm_polling t then None else Some (end_actor e true t)
  | Resize size :: cmds => Some (loop_top (if resized then set_size (Some size) (set_cmds cmds t) else set_cmds cmds t))
  | Data d :: cmds => Some (loop_top (set_pending (tm_write_pending t ++ [d]) (set_cmds cmds t)))
  end.

Definition send_done (e : EndEnv) (ok : bool) (t : Terminal) : option Terminal :=
  match tm_inflight t with
  | None => None
  | Some chunk =>
      if ok then Some (loop_top (set_sent (tm_sent t ++ [chunk]) (set_inflight None t)))
      else Some (end_actor e true t)
  end.

(** The answers of [read], up to the one that ends the turn. *)
Inductive ReadAnswer : Type := GotBytes (chunk : string) | ReadEof | ReadError.

(** [None]: the answers cannot be; the flag says that the actor ends. *)
Fixpoint read_turn (outs : list ReadAnswer) (t : Terminal) : option (Terminal * bool) :=
  if (OUTBOX_CAP <=? length (tm_outbox t))%nat then match outs with [] => Some (t, false) | _ => None end
  else match outs with
       | [] => Some (t, false)
       | [ReadEof] | [ReadError] => Some (t, true)
       | GotBytes chunk :: outs =>
           if (0 <? String.length chunk)%nat && (String.length chunk <=? READ_BUF)%nat
           then read_turn outs (set_outbox (tm_outbox t ++ [chunk]) (set_printed (tm_printed t ++ [chunk]) t))
           else None
       | _ => None
       end.

Definition read_pty (e : EndEnv) (outs : list ReadAnswer) (t : Terminal) : option Terminal :=
  if (OUTBOX_CAP <=? length (tm_outbox t))%nat then None
  else match read_turn outs t with
       | None => None
       | Some (t, true) => Some (end_actor e true t)
       | Some (t, false) => Some (loop_top t)
       end.

Inductive WriteAnswer : Set := Wrote (n : nat) | Interrupted | WriteFailed.

(** The chunks in front, up to one that is taken in part. *)
Fixpoint write_turn (fuel : nat) (outs : list WriteAnswer) (t : Terminal) : option (Terminal * bool) :=
  match fuel with
  | O => None
  | S fuel =>
      match tm_write_pending t with
      | [] => match outs with [] => Some (t, false) | _ => None end
      | front :: rest =>
          if is_empty front then write_turn fuel outs (set_pending rest t)
          else match outs with
               | [] => Some (t, false)
               | Interrupted :: outs => write_turn fuel outs t
               | [WriteFailed] | [Wrote O] => Some (t, true)
               | Wrote n :: outs =>
                   if (String.length front <? n)%nat || (n =? 0)%nat then None
                   else
                     let t := set_typed (tm_typed t +:+ String.substring 0 n front) t in
                     if (String.length front <=? n)%nat then write_turn fuel outs (set_pending rest t)
                     else match outs with [] => Some (set_pending (str_drop n front :: rest) t, false) | _ => None end
               | _ => None
               end
      end
  end.

Definition write_pty (e : EndEnv) (outs : list WriteAnswer) (t : Terminal) : option Terminal :=
  match tm_write_pending t with
  | [] => None
  | _ => match write_turn (S (length outs + length (tm_write_pending t))) outs t with
         | None => None
         | Some (t, true) => Some (end_actor e true t)
         | Some (t, false) => Some (loop_top t)
         end
  end.

Inductive TryWait : Set := Exited | StillRunning | WaitError.

(** [try_wait], every 50 ms. *)
Definition reap (e : EndEnv) (w : TryWait) (t : Terminal) : option Terminal :=
  match w, tm_child t with
  | Exited, Ended => Some (end_actor e false (set_child Reaped t))
  | StillRunning, Running => Some (loop_top t)
  | WaitError, _ => Some (end_actor e false t)
  | _, _ => None
  end.

(** ** Steps *)

(** How the shell starts once the channel is open. *)
Inductive PtyStart : Set := PtyFails | AsyncFdFails | PtyStarts.

Definition opened (e : EndEnv) (p : PtyStart) (t : Terminal) : Terminal :=
  match p with
  | PtyFails => set_phase Over (set_closed true t)
  | AsyncFdFails => set_phase Over (set_closed true (cleanup_files (ee_removed e) (reclaim_child (ee_waited e) (set_started true t))))
  | PtyStarts => set_phase Actor (set_child Running (set_started true t))
  end.

Inductive TerminalEvent : Type :=
| PollMessage (m : DcMessage) | PollEnd
| Stop (** [stop], [stop_and_wait], or the handle is dropped *)
| OpenFails | Opened (p : PtyStart)
| ChildExits
| SeesCancel | RecvCmd (resized : bool) | SendDone (ok : bool)
| ReadPty (outs : list ReadAnswer) | WritePty (outs : list WriteAnswer) | Reap (w : TryWait).

Definition terminal_step (e : EndEnv) (ev : TerminalEvent) (t : Terminal) : option Terminal :=
  match ev with
  | PollMessage m => if tm_polling t then Some (on_message m t) else None
  | PollEnd => if tm_polling t then Some (set_polling false (set_cancelled true t)) else None
  | Stop => Some (set_cancelled true t)
  | ChildExits => match tm_child t with Running => Some (set_child Ended t) | _ => None end
  | _ =>
      match tm_phase t, tm_cancelled t, ev with
      | Boot, true, SeesCancel => Some (set_phase Over t)
      | Boot, false, OpenFails => Some (set_phase Over t)
      | Boot, false, Opened p => Some (opened e p t)
      | Actor, true, SeesCancel => Some (end_actor e true t)
      | Actor, false, RecvCmd resized => recv_cmd e resized t
      | Actor, false, SendDone ok => send_done e ok t
      | Actor, false, ReadPty outs => read_pty e outs t
      | Actor, false, WritePty outs => write_pty e outs t
      | Actor, false, Reap w => reap e w t
      | _, _, _ => None
      end
  end.

Fixpoint terminal_run (e : EndEnv) (evs : list TerminalEvent) (t : Terminal) : option Terminal :=
  match evs with
  | [] => Some t
  | ev :: evs => match terminal_step e ev t with Some t => terminal_run e evs t | None => None end
  end.
End terminal.

(** * The terminal: nothing is lost or swapped while it lives *)

Definition glue (l : list string) : string := foldr (fun a b => a +:+ b) "" l.
Arguments glue : simpl never.

Lemma glue_cons x l : glue (x :: l) = x +:+ glue l.
Proof. done. Qed.

Lemma glue_app a b : glue (a ++ b) = glue a +:+ glue b.
Proof. induction a as [|x a IH]; [done|]. cbn [app]. by rewrite !glue_cons, str_app_assoc, <- IH. Qed.

Lemma split_string n s : (n <= String.length s)%nat -> String.substring 0 n s +:+ str_drop n s = s.
Proof.
  unfold str_drop. revert n. induction s as [|c s IH]; intros [|n] Hn; cbn in *; try done; try lia.
  - change (String c (String.substring 0 (String.length s) s) = String c s). f_equal. apply substring_all. lia.
  - rewrite str_app_cons. f_equal. apply IH. lia.
Qed.

Definition typed_data (cmds : list TerminalCmd) : list string :=
  omap (fun c => match c with Data d => Some d | Resize _ => None end) cmds.

Record TermInv (t : Terminal) : Prop := {
  ti_typed : glue (tm_accepted t) = tm_typed t +:+ glue (tm_write_pending t) +:+ glue (typed_data (tm_cmds t));
  ti_printed : ∃ lost, tm_printed t = tm_sent t ++ lost
                       /\ (tm_phase t ≠ Over -> lost = option_list (tm_inflight t) ++ tm_outbox t);
  ti_outbox : (length (tm_outbox t) <= OUTBOX_CAP)%nat;
  ti_cmds : (length (tm_cmds t) <= CMD_QUEUE_CAP)%nat;
  ti_child : match tm_phase t with
             | Boot => tm_child t = NoChild /\ tm_started t = false
             | Actor => (tm_child t = Running \/ tm_child t = Ended) /\ tm_started t = true
             | Over => tm_child t ≠ Running
             end }.

Section proofs.
Context (parse_size : string -> option TerminalSize) (e : EndEnv).
Local Abbreviation step := (terminal_step parse_size e).
Local Abbreviation run := (terminal_run parse_size e).

Lemma new_inv files : TermInv (terminal_new files).
Proof. split; cbn; [done|by exists []|unfold OUTBOX_CAP; lia|unfold CMD_QUEUE_CAP; lia|done]. Qed.

(** ** The turns *)

Lemma read_turn_spec outs t t' b :
  (length (tm_outbox t) <= OUTBOX_CAP)%nat -> read_turn outs t = Some (t', b) ->
  ∃ new, t' = set_outbox (tm_outbox t ++ new) (set_printed (tm_printed t ++ new) t)
         /\ (length (tm_outbox t ++ new) <= OUTBOX_CAP)%nat.
Proof.
  revert t. induction outs as [|o outs IH]; intros t Hc; cbn [read_turn]; destruct (Nat.leb_spec OUTBOX_CAP (length (tm_outbox t))); try done.
  1,2: intros [= <- <-]; exists []; rewrite !app_nil_r; by destruct t.
  assert (Hend : Some (t, true) = Some (t', b) ->
    ∃ new, t' = set_outbox (tm_outbox t ++ new) (set_printed (tm_printed t ++ new) t) /\ (length (tm_outbox t ++ new) <= OUTBOX_CAP)%nat).
  { intros [= <- <-]. exists []. rewrite !app_nil_r. by destruct t. }
  destruct o as [chunk| |]; [|by destruct outs..].
  destruct (_ && _); [|done]. intros Hr. apply IH in Hr as (new & -> & Hl).
  - exists (chunk :: new). cbn in *. rewrite <- !app_assoc in *. split; [by destruct t|done].
  - cbn. rewrite length_app. cbn. lia.
Qed.

Lemma write_turn_spec fuel outs t t' b :
  write_turn fuel outs t = Some (t', b) ->
  ∃ typed pending, t' = set_typed typed (set_pending pending t)
                   /\ typed +:+ glue pending = tm_typed t +:+ glue (tm_write_pending t).
Proof.
  revert outs t. induction fuel as [|fuel IH]; intros outs t; [done|]. cbn [write_turn].
  assert (Hstay : ∃ typed pending, t = set_typed typed (set_pending pending t)
                   /\ typed +:+ glue pending = tm_typed t +:+ glue (tm_write_pending t)).
  { exists (tm_typed t), (tm_write_pending t). by destruct t. }
  destruct (tm_write_pending t) as [|front rest] eqn:Ep.
  { destruct outs; [|done]. by intros [= <- <-]. }
  destruct (is_empty front) eqn:Ef.
  { intros Hw. apply IH in Hw as (ty & pe & -> & Hg). exists ty, pe. split; [by destruct t|].
    rewrite Hg. by destruct front. }
  destruct outs as [|[n| |] outs]; [by intros [= <- <-]| |intros Hw; apply IH in Hw; by rewrite Ep in Hw|by destruct outs; [intros [= <- <-]|]].
  destruct n as [|n]; [by destruct outs; [intros [= <- <-]|]|].
  destruct (Nat.ltb_spec (String.length front) (S n)); [done|]. cbn [orb Nat.eqb].
  destruct (Nat.leb_spec (String.length front) (S n)).
  - intros Hw. apply IH in Hw as (ty & pe & -> & Hg). exists ty, pe. split; [by destruct t|].
    rewrite Hg, glue_cons, <- str_app_assoc. cbn [tm_typed set_typed set_pending tm_write_pending]. by rewrite substring_all.
  - destruct outs; [|done]. intros [= <- <-]. eexists _, _. split; [by destruct t|].
    cbn [tm_typed set_typed set_pending tm_write_pending]. by rewrite !glue_cons, str_app_assoc, <- (str_app_assoc (String.substring _ _ _)), split_string by lia.
Qed.

(** ** The invariant *)

Lemma loop_top_inv t : tm_phase t ≠ Over -> TermInv t -> TermInv (loop_top t).
Proof.
  intros Hp Hi. pose proof Hi as [Ht (lost & Hl & Hlost) Ho Hc Hch]. unfold loop_top. destruct (tm_inflight t) eqn:Ei; [done|].
  destruct (tm_outbox t) as [|chunk rest] eqn:Eo; [done|].
  split; cbn; [done| |cbn in Ho; lia|done|done]. exists lost. split; [done|]. intros H. by rewrite (Hlost H).
Qed.

(** Whatever ends the actor. *)
Lemma end_actor_inv alive t : TermInv t -> TermInv (end_actor e alive t) /\ tm_phase (end_actor e alive t) = Over.
Proof.
  intros [Ht (lost & Hl & _) Ho Hc Hch]. unfold end_actor. split; [|by destruct alive].
  split; [by destruct alive|exists lost; by destruct alive|by destruct alive|by destruct alive|].
  destruct alive; cbn; [by destruct (ee_waited e)|by destruct (tm_child t)].
Qed.

Lemma on_message_inv m t : TermInv t -> TermInv (on_message parse_size m t).
Proof.
  intros Hi. unfold on_message. destruct (tm_started t) eqn:Es; [|done]. cbn [negb].
  case_bool_decide as Hp; [done|]. destruct (Nat.leb_spec CMD_QUEUE_CAP (length (tm_cmds t))); [done|]. cbn [orb].
  destruct Hi as [Ht Hpr Ho Hc Hch].
  destruct (parse_terminal_message parse_size m) as [d|size]; split; cbn; try done; try (rewrite length_app; cbn; lia).
  - rewrite glue_app, Ht. unfold typed_data. by rewrite omap_app, glue_app, !str_app_assoc.
  - unfold typed_data. by rewrite omap_app, app_nil_r.
Qed.

(** The actor's branches end it or lead back to the top of its loop. *)
Definition branch (t t' : Terminal) : Prop :=
  TermInv t' /\ (tm_phase t' = Over \/ tm_phase t' = tm_phase t).

Lemma loop_top_branch t t' : tm_phase t ≠ Over -> tm_phase t' = tm_phase t -> TermInv t' -> branch t (loop_top t').
Proof.
  intros Hp He Hi. split; [apply loop_top_inv; congruence|]. right. rewrite <- He.
  unfold loop_top. by destruct (tm_inflight t'), (tm_outbox t').
Qed.

Lemma end_branch alive t t' : TermInv t' -> branch t (end_actor e alive t').
Proof. intros Hi. destruct (end_actor_inv alive t' Hi). split; auto. Qed.

Lemma recv_branch resized t t' : TermInv t -> tm_phase t ≠ Over -> recv_cmd e resized t = Some t' -> branch t t'.
Proof.
  intros Hi Hp. pose proof Hi as [Ht Hpr Ho Hc Hch]. unfold recv_cmd. destruct (tm_cmds t) as [|[d|size] cmds] eqn:Ec; cbn in Hc.
  - destruct (tm_polling t); [done|]. intros [= <-]. by apply end_branch.
  - intros [= <-]. apply loop_top_branch; [done|done|]. split; cbn; try done; [|lia].
    rewrite Ht. change (typed_data (Data d :: cmds)) with (d :: typed_data cmds).
    by rewrite glue_app, !glue_cons, !str_app_assoc.
  - intros [= <-]. apply loop_top_branch; [done|by destruct resized|]. destruct resized; split; cbn; try done; lia.
Qed.

Lemma send_branch ok t t' : TermInv t -> tm_phase t ≠ Over -> send_done e ok t = Some t' -> branch t t'.
Proof.
  intros Hi Hp. pose proof Hi as [Ht (lost & Hl & Hlost) Ho Hc Hch]. unfold send_done. destruct (tm_inflight t) as [chunk|] eqn:Ei; [|done].
  destruct ok; intros [= <-]; [|by apply end_branch]. apply loop_top_branch; [done|done|]. split; cbn; try done.
  exists (tm_outbox t). split; [|done]. rewrite Hl, (Hlost Hp). cbn. by rewrite <- app_assoc.
Qed.

Lemma read_branch outs t t' : TermInv t -> tm_phase t ≠ Over -> read_pty e outs t = Some t' -> branch t t'.
Proof.
  intros Hi Hp. pose proof Hi as [Ht (lost & Hl & Hlost) Ho Hc Hch]. unfold read_pty. destruct (_ <=? _)%nat; [done|].
  destruct (read_turn outs t) as [[t1 b]|] eqn:Er; [|done]. apply read_turn_spec in Er as (new & -> & Hlen); [|done].
  assert (TermInv (set_outbox (tm_outbox t ++ new) (set_printed (tm_printed t ++ new) t))) as Hi1.
  { split; cbn; try done. exists (lost ++ new). rewrite Hl, <- app_assoc. split; [done|]. intros H.
    by rewrite (Hlost H), <- app_assoc. }
  destruct b; intros [= <-]; [by apply end_branch|by apply loop_top_branch].
Qed.

Lemma write_branch outs t t' : TermInv t -> tm_phase t ≠ Over -> write_pty e outs t = Some t' -> branch t t'.
Proof.
  intros Hi Hp. pose proof Hi as [Ht (lost & Hl & Hlost) Ho Hc Hch]. unfold write_pty.
  destruct (tm_write_pending t) as [|p ps] eqn:Ep; [done|]. rewrite <- Ep in *.
  destruct (write_turn _ _ _) as [[t1 b]|] eqn:Ew; [|done]. apply write_turn_spec in Ew as (typed & pending & -> & Hg).
  assert (TermInv (set_typed typed (set_pending pending t))) as Hi1.
  { split; cbn; try done; [|by exists lost]. by rewrite <- str_app_assoc, Hg, str_app_assoc. }
  destruct b; intros [= <-]; [by apply end_branch|by apply loop_top_branch].
Qed.

Lemma reap_branch w t t' : TermInv t -> tm_phase t ≠ Over -> reap e w t = Some t' -> branch t t'.
Proof.
  intros Hi Hp. pose proof Hi as [Ht Hpr Ho Hc Hch]. unfold reap.
  destruct w; destruct (tm_child t) eqn:Ech; try done; intros [= <-].
  2: by apply loop_top_branch.
  2-5: by apply end_branch.
  unfold end_actor. split; [|by left]. split; cbn; try done.
  destruct Hpr as (lost & Hl & _). by exists lost.
Qed.

Lemma term_step_inv ev t t' : TermInv t -> step ev t = Some t' -> TermInv t'.
Proof.
  intros Hi Hs. pose proof Hi as [Ht (lost & Hl & Hlost) Ho Hc Hch].
  destruct ev; cbn [terminal_step] in Hs.
  - destruct (tm_polling t); [|done]. injection Hs as <-. by apply on_message_inv.
  - destruct (tm_polling t); [|done]. injection Hs as <-. split; cbn; try done. by exists lost.
  - injection Hs as <-. split; cbn; try done. by exists lost.
  - destruct (tm_phase t) eqn:Ep, (tm_cancelled t); try done. injection Hs as <-. destruct Hch as [Hch _].
    split; cbn; try done; [|by rewrite Hch]. exists lost. split; [done|]. by intros [].
  - destruct (tm_phase t) eqn:Ep, (tm_cancelled t); try done. injection Hs as <-. destruct Hch as [Hch _].
    destruct p; split; cbn; try done; try (exists lost; split; [done|]; try (by intros []); by auto); [by rewrite Hch|by destruct (ee_waited e)|by auto].
  - destruct (tm_child t) eqn:Ech; try done. injection Hs as <-. split; cbn; try done; [by exists lost|].
    destruct (tm_phase t); [by destruct Hch|by destruct Hch; auto|done].
  - destruct (tm_phase t) eqn:Ep, (tm_cancelled t); try done; injection Hs as <-; [|by apply end_actor_inv].
    destruct Hch as [Hch _]. split; cbn; try done; [|by rewrite Hch]. exists lost. split; [done|]. by intros [].
  - destruct (tm_phase t) eqn:Ep, (tm_cancelled t); try done. apply recv_branch in Hs; [by destruct Hs|done|congruence].
  - destruct (tm_phase t) eqn:Ep, (tm_cancelled t); try done. apply send_branch in Hs; [by destruct Hs|done|congruence].
  - destruct (tm_phase t) eqn:Ep, (tm_cancelled t); try done. apply read_branch in Hs; [by destruct Hs|done|congruence].
  - destruct (tm_phase t) eqn:Ep, (tm_cancelled t); try done. apply write_branch in Hs; [by destruct Hs|done|congruence].
  - destruct (tm_phase t) eqn:Ep, (tm_cancelled t); try done. apply reap_branch in Hs; [by destruct Hs|done|congruence].
Qed.

Lemma term_run_inv evs t t' : TermInv t -> run evs t = Some t' -> TermInv t'.
Proof.
  revert t. induction evs as [|ev evs IH]; intros t Hi; cbn; [by intros [= <-]|].
  destruct (step ev t) as [t1|] eqn:E; [|done]. intros Hr. eapply IH; [by eapply term_step_inv|done].
Qed.

(** ** What was typed and printed *)

(** What the reads of the shell brought. *)
Definition chunks (outs : list ReadAnswer) : list string :=
  omap (fun a => match a with GotBytes c => Some c | _ => None end) outs.
Definition printed_in (ev : TerminalEvent) : list string := match ev with ReadPty outs => chunks outs | _ => [] end.
Definition printed_by (evs : list TerminalEvent) : list string := List.concat (printed_in <$> evs).

(** The queue takes a message while the actor runs and fewer than 256 commands
    wait in it. *)
Definition queue_free (t : Terminal) : bool := bool_decide (tm_phase t = Actor) && (length (tm_cmds t) <? CMD_QUEUE_CAP)%nat.

Definition heard (ev : TerminalEvent) (t : Terminal) : list string :=
  match ev with
  | PollMessage m => if queue_free t then typed_data [parse_terminal_message parse_size m] else []
  | _ => []
  end.

(** The data of the messages that found room in the queue; the others are lost. *)
Fixpoint taken (evs : list TerminalEvent) (t : Terminal) : list string :=
  match evs with
  | [] => []
  | ev :: evs => heard ev t ++ match step ev t with Some t => taken evs t | None => [] end
  end.

Definition history (t t' : Terminal) (typed printed : list string) : Prop :=
  tm_accepted t' = tm_accepted t ++ typed /\ tm_printed t' = tm_printed t ++ printed.

Lemma history_same t t' : tm_accepted t' = tm_accepted t -> tm_printed t' = tm_printed t -> history t t' [] [].
Proof. unfold history. by rewrite !app_nil_r. Qed.

Lemma history_loop t t' : history t t' [] [] -> history t (loop_top t') [] [].
Proof. unfold history, loop_top. by destruct (tm_inflight t'), (tm_outbox t'). Qed.

Lemma history_end alive t t' typed printed : history t t' typed printed -> history t (end_actor e alive t') typed printed.
Proof. unfold history. by destruct alive. Qed.

Lemma read_turn_history outs t t' b : read_turn outs t = Some (t', b) -> history t t' [] (chunks outs).
Proof.
  revert t. induction outs as [|[c| |] outs IH]; intros t; cbn [read_turn]; destruct (_ <=? _)%nat; try done;
    try (by intros [= <- <-]; apply history_same); try (by destruct outs; [intros [= <- <-]; apply history_same|]).
  destruct (_ && _); [|done]. intros [H1 H2]%IH. cbn in H1, H2. split; [done|]. by rewrite H2, <- app_assoc.
Qed.

Lemma write_turn_history fuel outs t t' b : write_turn fuel outs t = Some (t', b) -> history t t' [] [].
Proof. intros (typed & pending & -> & _)%write_turn_spec. by apply history_same. Qed.

Lemma step_history ev t t' : TermInv t -> step ev t = Some t' -> history t t' (heard ev t) (printed_in ev).
Proof.
  intros Hi Hs. pose proof (ti_child _ Hi) as Hch.
  assert (Hdone : ∀ f, Some f = Some t' -> history t f [] [] -> history t t' [] []) by (by intros f [= ->]).
  destruct ev; cbn [terminal_step heard printed_in] in *.
  - destruct (tm_polling t); [|done]. injection Hs as <-. unfold on_message, queue_free.
    rewrite Nat.ltb_antisym. destruct (tm_phase t) eqn:Ep; cbn -[Nat.leb].
    + destruct Hch as [_ ->]. by apply history_same.
    + destruct Hch as [_ ->]. cbn -[Nat.leb]. destruct (_ <=? _)%nat; cbn; [by apply history_same|].
      destruct (parse_terminal_message parse_size m); cbn; [split; [done|by rewrite app_nil_r]|by apply history_same].
    + destruct (tm_started t); by apply history_same.
  - destruct (tm_polling t); [|done]. injection Hs as <-. by apply history_same.
  - injection Hs as <-. by apply history_same.
  - destruct (tm_phase t), (tm_cancelled t); try done. injection Hs as <-. by apply history_same.
  - destruct (tm_phase t), (tm_cancelled t); try done. injection Hs as <-. by destruct p; apply history_same.
  - destruct (tm_child t); try done. injection Hs as <-. by apply history_same.
  - destruct (tm_phase t), (tm_cancelled t); try done; injection Hs as <-; by apply history_same.
  - destruct (tm_phase t), (tm_cancelled t); try done. unfold recv_cmd in Hs. destruct (tm_cmds t) as [|[d|size] cmds].
    + destruct (tm_polling t); [done|]. injection Hs as <-. by apply history_end, history_same.
    + injection Hs as <-. by apply history_loop, history_same.
    + injection Hs as <-. apply history_loop. by destruct resized; apply history_same.
  - destruct (tm_phase t), (tm_cancelled t); try done. unfold send_done in Hs. destruct (tm_inflight t); [|done].
    destruct ok; injection Hs as <-; [by apply history_loop, history_same|by apply history_end, history_same].
  - destruct (tm_phase t), (tm_cancelled t); try done. unfold read_pty in Hs. destruct (_ <=? _)%nat; [done|].
    destruct (read_turn outs t) as [[t1 b]|] eqn:Er; [|done]. apply read_turn_history in Er.
    destruct b; injection Hs as <-; [by apply history_end|]. unfold history, loop_top in *. by destruct (tm_inflight t1), (tm_outbox t1).
  - destruct (tm_phase t), (tm_cancelled t); try done. unfold write_pty in Hs. destruct (tm_write_pending t) eqn:Ep; [done|].
    rewrite <- Ep in Hs. destruct (write_turn _ _ _) as [[t1 b]|] eqn:Ew; [|done]. apply write_turn_history in Ew.
    destruct b; injection Hs as <-; [by apply history_end|by apply history_loop].
  - destruct (tm_phase t), (tm_cancelled t); try done. unfold reap in Hs.
    destruct w, (tm_child t); try done; injection Hs as <-; (by apply history_end, history_same) || (by apply history_loop, history_same).
Qed.

Lemma run_history evs t t' : TermInv t -> run evs t = Some t' -> history t t' (taken evs t) (printed_by evs).
Proof.
  revert t. induction evs as [|ev evs IH]; intros t Hi; cbn [terminal_run taken].
  { intros [= <-]. by apply history_same. }
  destruct (step ev t) as [t1|] eqn:E; [|done]. intros Hr. destruct (step_history ev t t1 Hi E) as [H1 H2].
  destruct (IH t1 (term_step_inv _ _ _ Hi E) Hr) as [H3 H4]. unfold history, printed_by in *. cbn [fmap list_fmap List.concat].
  by rewrite H3, H4, H1, H2, !app_assoc.
Qed.

(** C33: Whatever the client, the shell, the channel and the session do and in
    whichever order: counting the messages that came while the shell ran and fewer
    than 256 commands waited - the others are dropped, and nobody is told -, the
    shell has been given a beginning of what was typed, byte for byte and in order,
    and the client a beginning of what was read from the shell; while the terminal
    lives the rest of these is still on its way, within the bounds of the queues;
    when it is over the rest is lost and the shell does not run. *)
Theorem terminal_is_faithful files evs t :
  run evs (terminal_new files) = Some t ->
  let typed := glue (taken evs (terminal_new files)) in
  let printed := printed_by evs in
  typed = tm_typed t +:+ glue (tm_write_pending t) +:+ glue (typed_data (tm_cmds t))
  /\ tm_sent t `prefix_of` printed
  /\ (tm_phase t = Actor -> printed = tm_sent t ++ option_list (tm_inflight t) ++ tm_outbox t)
  /\ (length (tm_outbox t) <= OUTBOX_CAP)%nat /\ (length (tm_cmds t) <= CMD_QUEUE_CAP)%nat
  /\ (tm_phase t = Over -> tm_child t ≠ Running).
Proof.
  intros Hr typed printed. destruct (run_history _ _ _ (new_inv files) Hr) as [Ha Hp]. cbn in Ha, Hp.
  apply term_run_inv in Hr as [Ht (lost & Hl & Hlost) Ho Hc Hch]; [|apply new_inv].
  unfold typed, printed. rewrite <- Ha, <- Hp.
  split_and!; [done|by exists lost| |done|done|by intros Hov; rewrite Hov in Hch].
  intros Hac. rewrite Hl. f_equal. apply Hlost. congruence.
Qed.

(** ** It ends when it is told to *)

(** Once the channel is closed or the session lets go, the next thing the
    terminal does is to end: the shell is stopped, the channel closed, and no
    other branch is taken before. *)
Theorem cancelled_terminal_ends files evs t :
  run evs (terminal_new files) = Some t -> tm_cancelled t = true -> tm_phase t ≠ Over ->
  (∃ t', step SeesCancel t = Some t' /\ tm_phase t' = Over /\ tm_child t' ≠ Running
         /\ (tm_phase t = Actor -> tm_closed t' = true))
  /\ (∀ ev t', step ev t = Some t' -> tm_cancelled t' = true
        /\ (ev = SeesCancel \/ tm_phase t' = tm_phase t /\ tm_typed t' = tm_typed t /\ tm_sent t' = tm_sent t)).
Proof.
  intros Hr Hcan Hp. apply term_run_inv in Hr; [|apply new_inv]. split.
  - assert (∃ t', step SeesCancel t = Some t' /\ tm_phase t' = Over /\ (tm_phase t = Actor -> tm_closed t' = true)) as (t' & Hs & Ho & Hcl).
    { cbn. rewrite Hcan. destruct (tm_phase t) eqn:Ep; [|by eexists|done]. eexists. split; [done|]. split; [done|]. done. }
    exists t'. split_and!; [done|done| |done]. apply term_step_inv in Hs as [_ _ _ _ Hch]; [|done]. by rewrite Ho in Hch.
  - intros ev t' Hs. destruct ev; cbn [terminal_step] in Hs;
      try (rewrite Hcan in Hs; destruct (tm_phase t); done).
    + destruct (tm_polling t); [|done]. injection Hs as <-. unfold on_message.
      repeat case_match; cbn; auto.
    + destruct (tm_polling t); [|done]. injection Hs as <-. cbn. auto.
    + injection Hs as <-. cbn. auto.
    + destruct (tm_child t); try done. injection Hs as <-. cbn. auto.
    + split; [|by left]. rewrite Hcan in Hs. destruct (tm_phase t); try done; injection Hs as <-; [done|]. unfold end_actor. by cbn.
Qed.

(** ** It gets through *)

Definition lives (t : Terminal) : Prop := tm_phase t = Actor /\ tm_cancelled t = false.

(** Nothing has been lost or added. *)
Definition same_talk (t t' : Terminal) : Prop :=
  lives t' /\ tm_accepted t' = tm_accepted t /\ tm_printed t' = tm_printed t.

Lemma term_run_app evs1 evs2 t t1 : run evs1 t = Some t1 -> run (evs1 ++ evs2) t = run evs2 t1.
Proof. revert t. induction evs1 as [|ev evs1 IH]; intros t; cbn; [by intros [= ->]|]. destruct (step ev t); [apply IH|done]. Qed.

Lemma loop_top_same t : tm_phase (loop_top t) = tm_phase t /\ tm_cancelled (loop_top t) = tm_cancelled t
  /\ tm_accepted (loop_top t) = tm_accepted t /\ tm_printed (loop_top t) = tm_printed t
  /\ tm_cmds (loop_top t) = tm_cmds t /\ tm_write_pending (loop_top t) = tm_write_pending t
  /\ option_list (tm_inflight (loop_top t)) ++ tm_outbox (loop_top t) = option_list (tm_inflight t) ++ tm_outbox t.
Proof. unfold loop_top. destruct (tm_inflight t) eqn:Ei; [by rewrite Ei|]. destruct (tm_outbox t) eqn:Eo; [by rewrite Ei, Eo|]. done. Qed.

Lemma drain_cmds t : lives t -> ∃ evs t', run evs t = Some t' /\ same_talk t t' /\ tm_cmds t' = [].
Proof.
  remember (tm_cmds t) as cmds eqn:Ec. revert t Ec. induction cmds as [|c cmds IH]; intros t Ec [Hp Hcan].
  { by exists [], t. }
  assert (∃ t1, step (RecvCmd true) t = Some t1 /\ same_talk t t1 /\ tm_cmds t1 = cmds) as (t1 & Hs & Hsame & Hc1).
  { cbn [terminal_step]. rewrite Hp, Hcan. unfold recv_cmd. rewrite <- Ec.
    destruct c as [d|size]; eexists; (split; [reflexivity|]).
    - pose proof (loop_top_same (set_pending (tm_write_pending t ++ [d]) (set_cmds cmds t))) as (?&?&?&?&?&?&?).
      unfold same_talk, lives. cbn in *. split_and!; congruence.
    - pose proof (loop_top_same (set_size (Some size) (set_cmds cmds t))) as (?&?&?&?&?&?&?).
      unfold same_talk, lives. cbn in *. split_and!; congruence. }
  destruct Hsame as (Hl & Ha & Hpr). destruct (IH t1) as (evs & t' & Hrun & (Hl' & Ha' & Hp') & Hc'); [done|done|].
  exists (RecvCmd true :: evs), t'. cbn [terminal_run]. rewrite Hs. split_and!; [done| |done]. split_and!; [done|congruence..].
Qed.

Fixpoint whole (pending : list string) : list WriteAnswer :=
  match pending with
  | [] => []
  | s :: pending => if is_empty s then whole pending else Wrote (String.length s) :: whole pending
  end.

Lemma write_whole pending fuel t :
  tm_write_pending t = pending -> (length (whole pending) + length pending < fuel)%nat ->
  write_turn fuel (whole pending) t = Some (set_typed (tm_typed t +:+ glue pending) (set_pending [] t), false).
Proof.
  revert fuel t. induction pending as [|s pending IH]; intros [|fuel] t Hp Hf; cbn [whole length] in Hf; try lia; cbn [write_turn whole]; rewrite Hp.
  { change (glue []) with "". rewrite str_app_nil. destruct t; cbn in *; by subst. }
  rewrite glue_cons. destruct (is_empty s) eqn:Es.
  { rewrite IH by (done || lia). by destruct s. }
  cbn [length] in Hf. destruct (String.length s) as [|n] eqn:En; [by destruct s|].
  rewrite Nat.ltb_irrefl, Nat.leb_refl. cbn [orb Nat.eqb].
  rewrite IH by (done || lia). cbn [tm_typed set_typed set_pending]. by rewrite substring_all, str_app_assoc by lia.
Qed.

Lemma drain_pending t : lives t -> tm_cmds t = [] ->
  ∃ evs t', run evs t = Some t' /\ same_talk t t' /\ tm_cmds t' = [] /\ tm_write_pending t' = [].
Proof.
  intros [Hp Hcan] Hc. destruct (tm_write_pending t) as [|p ps] eqn:Ep; [by exists [], t|].
  exists [WritePty (whole (p :: ps))], (loop_top (set_typed (tm_typed t +:+ glue (p :: ps)) (set_pending [] t))).
  split.
  - cbn [terminal_run terminal_step]. rewrite Hp, Hcan. unfold write_pty. rewrite Ep.
    rewrite (write_whole (p :: ps)) by (done || lia). done.
  - pose proof (loop_top_same (set_typed (tm_typed t +:+ glue (p :: ps)) (set_pending [] t))) as (?&?&?&?&?&?&?).
    unfold same_talk, lives. cbn in *. split_and!; congruence.
Qed.

(** What waits in the outbox has a chunk on its way before it. *)
Definition flows (t : Terminal) : Prop := tm_phase t ≠ Over -> tm_inflight t = None -> tm_outbox t = [].

Lemma loop_top_flows t : flows (loop_top t).
Proof. intros _. unfold loop_top. destruct (tm_inflight t) eqn:Ei; [congruence|]. destruct (tm_outbox t) eqn:Eo; [done|by cbn]. Qed.

Lemma step_flows ev t t' : flows t -> step ev t = Some t' -> flows t'.
Proof.
  intros Hf Hs. unfold terminal_step, recv_cmd, send_done, read_pty, write_pty, reap in Hs.
  repeat case_match; simplify_eq/=; try apply loop_top_flows; try (by intros []); try exact Hf.
  - unfold on_message. by repeat case_match.
  - destruct p; [by intros []..|]. intros _. apply Hf. congruence.
Qed.

Lemma run_flows evs t t' : flows t -> run evs t = Some t' -> flows t'.
Proof.
  revert t. induction evs as [|ev evs IH]; intros t Hf; cbn; [by intros [= <-]|].
  destruct (step ev t) as [t1|] eqn:E; [|done]. intros Hr. eapply IH; [by eapply step_flows|done].
Qed.

Lemma drain_output t : flows t -> lives t -> tm_cmds t = [] -> tm_write_pending t = [] ->
  ∃ evs t', run evs t = Some t' /\ same_talk t t' /\ tm_cmds t' = [] /\ tm_write_pending t' = []
            /\ tm_inflight t' = None /\ tm_outbox t' = [].
Proof.
  remember (option_list (tm_inflight t) ++ tm_outbox t) as l eqn:El. revert t El.
  induction l as [|chunk l IH]; intros t El Hf [Hp Hcan] Hc Hw.
  { exists [], t. destruct (tm_inflight t), (tm_outbox t); done. }
  destruct (tm_inflight t) as [c|] eqn:Ei; [|rewrite Hf in El; [done|congruence|done]]. injection El as <- ->.
  set (t1 := loop_top (set_sent (tm_sent t ++ [chunk]) (set_inflight None t))).
  pose proof (loop_top_same (set_sent (tm_sent t ++ [chunk]) (set_inflight None t))) as (H1&H2&H3&H4&H5&H6&H7). fold t1 in H1, H2, H3, H4, H5, H6, H7.
  assert (flows t1) as Hf1 by apply loop_top_flows.
  assert (step (SendDone true) t = Some t1) as Hs by (cbn [terminal_step]; rewrite Hp, Hcan; unfold send_done; by rewrite Ei).
  clearbody t1. cbn in H1, H2, H3, H4, H5, H6, H7.
  destruct (IH t1) as (evs & t' & Hrun & (Hl' & Ha' & Hp') & Hrest); [by rewrite H7|done|split; congruence|congruence..|].
  exists (SendDone true :: evs), t'. cbn [terminal_run]. rewrite Hs. split_and!; [done| |apply Hrest..]. split_and!; [done|congruence..].
Qed.

(** C34: Nothing gets stuck: as long as the terminal lives, a shell that reads and a
    channel that sends bring everything to the shell that the queue took of what
    was typed (the messages of [taken]; what came before the shell ran or found 256
    commands waiting is gone), and everything that was read from the shell to the
    client. *)
Theorem living_terminal_gets_through files evs t :
  run evs (terminal_new files) = Some t -> tm_phase t = Actor -> tm_cancelled t = false ->
  ∃ evs' t', run (evs ++ evs') (terminal_new files) = Some t' /\ tm_phase t' = Actor
    /\ tm_typed t' = glue (taken evs (terminal_new files)) /\ tm_sent t' = printed_by evs.
Proof.
  intros Hr Hp Hcan. destruct (run_history _ _ _ (new_inv files) Hr) as [Ha Hp0]. assert (flows t) as Hf by (eapply run_flows; [|exact Hr]; done).
  destruct (drain_cmds t) as (evs1 & t1 & Hr1 & (Hl1 & Ha1 & Hp1) & Hc1); [done|].
  destruct (drain_pending t1) as (evs2 & t2 & Hr2 & (Hl2 & Ha2 & Hp2) & Hc2 & Hw2); [done..|].
  assert (flows t2) as Hf2 by (eapply run_flows; [|exact Hr2]; eapply run_flows; [exact Hf|exact Hr1]).
  destruct (drain_output t2) as (evs3 & t3 & Hr3 & (Hl3 & Ha3 & Hp3) & Hc3 & Hw3 & Hi3 & Ho3); [done..|].
  exists (evs1 ++ evs2 ++ evs3), t3.
  assert (run (evs ++ evs1 ++ evs2 ++ evs3) (terminal_new files) = Some t3) as Hrun
    by (by rewrite (term_run_app _ _ _ _ Hr), (term_run_app _ _ _ _ Hr1), (term_run_app _ _ _ _ Hr2)).
  apply term_run_inv in Hrun as Hi; [|apply new_inv]. destruct Hi as [Ht (lost & Hl & Hlost) _ _ _].
  split_and!; [done|apply Hl3| |].
  - rewrite Hc3, Hw3 in Ht. cbn in Ht. rewrite !str_app_nil in Ht. cbn in Ha. congruence.
  - rewrite Hlost, Hi3, Ho3 in Hl by (destruct Hl3; congruence). rewrite app_nil_r in Hl. cbn in Hp0. congruence.
Qed.
End proofs.

(** ** Instances *)

Definition no_size (_ : string) : option TerminalSize := None.
Definition fine : EndEnv := mkEndEnv true (fun _ => true).
Definition typed (s : string) : TerminalEvent := PollMessage (mkDcMessage true s).

Definition short_session : list TerminalEvent :=
  [Opened PtyStarts; typed "ls"; RecvCmd true; WritePty [Wrote 1]; ReadPty [GotBytes "l"]; typed "x"].

Definition state_after (evs : list TerminalEvent) (files : list string) : Terminal :=
  default (terminal_new files) (terminal_run no_size fine evs (terminal_new files)).

Definition short_state : Terminal := Eval vm_compute in state_after short_session [].
Definition closed_state : Terminal := Eval vm_compute in state_after (short_session ++ [PollEnd]) [].

Lemma short_run : terminal_run no_size fine short_session (terminal_new []) = Some short_state.
Proof. vm_compute. reflexivity. Qed.
Lemma closed_run_ends : terminal_run no_size fine (short_session ++ [PollEnd]) (terminal_new []) = Some closed_state.
Proof. vm_compute. reflexivity. Qed.

Lemma terminal_is_faithful_witness :
  tm_typed short_state = "l" /\ glue (taken no_size fine short_session (terminal_new [])) = "l" +:+ "s" +:+ "x".
Proof. split; [reflexivity|]. exact (proj1 (terminal_is_faithful no_size fine [] short_session short_state short_run)). Defined.

Lemma cancelled_terminal_ends_witness :
  ∃ t', terminal_step no_size fine SeesCancel closed_state = Some t' /\ tm_phase t' = Over /\ tm_child t' ≠ Running
        /\ (tm_phase closed_state = Actor -> tm_closed t' = true).
Proof.
  apply (cancelled_terminal_ends no_size fine [] (short_session ++ [PollEnd]) closed_state closed_run_ends);
    [reflexivity|discriminate].
Defined.

Lemma living_terminal_gets_through_witness :
  ∃ evs t', terminal_run no_size fine (short_session ++ evs) (terminal_new []) = Some t' /\ tm_phase t' = Actor
            /\ tm_typed t' = "lsx" /\ tm_sent t' = ["l"].
Proof. exact (living_terminal_gets_through no_size fine [] short_session short_state short_run eq_refl eq_refl). Defined.

(** ** What goes wrong *)

(** The actor ends when it finds that the shell has exited: what the shell printed
    and was not sent yet is dropped. *)
Lemma exit_drops_output :
  let t := state_after [Opened PtyStarts; ReadPty [GotBytes "all done"; GotBytes "bye"]; ChildExits; Reap Exited] [] in
  tm_phase t = Over /\ tm_printed t = ["all done"; "bye"] /\ tm_sent t = [].
Proof. vm_compute. done. Qed.

(** What comes before the shell runs is dropped, the first size among it. *)
Lemma early_messages_dropped :
  ∃ t, terminal_run (fun _ => Some (mkSize 24 80)) fine [typed "{ }"; Opened PtyStarts] (terminal_new []) = Some t
       /\ tm_cmds t = [] /\ tm_size t = None.
Proof. eexists. split; [vm_compute; reflexivity|]. split; reflexivity. Qed.

(** A message that finds 256 commands in the queue is dropped while everything
    lives. *)
Lemma full_queue_drops :
  let t := state_after (Opened PtyStarts :: replicate 256 (typed "x") ++ [typed "y"]) [] in
  tm_phase t = Actor /\ length (tm_cmds t) = 256 /\ taken no_size fine [typed "y"] t = [].
Proof. vm_compute. by repeat split. Qed.

(** The queue is bounded but is emptied into one that is not: a shell that reads
    nothing lets any amount pile up. *)
Definition after_lines (n : nat) : Terminal :=
  set_accepted (replicate n "x") (set_pending (replicate n "x") (opened fine PtyStarts (terminal_new []))).

Lemma one_more_line n :
  terminal_run no_size fine [typed "x"; RecvCmd true] (after_lines n) = Some (after_lines (S n)).
Proof.
  assert (parse_terminal_message no_size (mkDcMessage true "x") = Data "x") as Hp by (vm_compute; reflexivity).
  cbn [terminal_run terminal_step typed]. change (tm_polling (after_lines n)) with true. cbv match. unfold on_message. rewrite Hp.
  unfold after_lines. cbn -[replicate]. unfold loop_top. cbn -[replicate]. by rewrite !replicate_S_end.
Qed.

Lemma pending_is_unbounded n :
  ∃ evs, terminal_run no_size fine evs (terminal_new []) = Some (after_lines n)
         /\ tm_write_pending (after_lines n) = replicate n "x".
Proof.
  induction n as [|n (evs & Hr & _)]; [by exists [Opened PtyStarts]|].
  exists (evs ++ [typed "x"; RecvCmd true]). rewrite (term_run_app _ _ _ _ _ _ Hr), one_more_line. done.
Qed.

(** The files of a shell that does not start are not removed. *)
Lemma failed_start_leaves_files :
  let t := state_after [Opened PtyFails] ["/tmp/key"] in tm_phase t = Over /\ tm_files t = ["/tmp/key"].
Proof. vm_compute. done. Qed.
