(* ===== verification/Edid.v ===== *)
(** * The EDID of the capture device (hardware/hdmi/edid.rs)

    The EDID chosen by the user is in a file and is given to the device by a
    tool, which reads it from there.  The hexadecimal coding is that of the crate
    [hex]; which calls succeed is an argument. *)

From S2P Require Import Prelude StateLaws Text.

Definition EDID_DEFAULT : string :=
  "00ffffffffffff0049738d6200888888081e0103800000780a0dc9a05747982712484c00000001010101010101010101010101010101023a801871382d40582c4500c48e2100001e000000110000000000000000000000000000000000fc0041726b4b564d446973706c6179000000fd00147801ff1d000a202020202020016a02031871429022230904018301000065030c001000e200cb023a801871382d40582c450020c23100001e023a80d072382d40102c458020c23100001e011d801871382d40582c4500c06c00000018011d8018711c1620582c2500c06c0000001800000000000000000000000000000000000000000000000000000000000000a0".

(** The file, what the device shows, and how often the receiver was restarted. *)
Record EdidState := mkEdid { edid_file : option (list Z); device_edid : list Z; restarts : nat }.

Definition EM (A : Type) : Type := SE EdidState string A.

(** [fs::write] truncates the file when it opens it. *)
Inductive EdidWrite : Set := Written | NotOpened | CutOff (n : nat).

(** Which calls succeed; the last two are the tool that reads and the one that
    sets, which may refuse an EDID. *)
Record EdidEnv := mkEdidEnv {
  ee_mkdir : bool; ee_read : bool; ee_write : EdidWrite; ee_remove : bool; ee_restart : bool;
  ee_get_tool : bool; ee_set_tool : list Z -> bool }.

Definition validate_edid_size (edid_data : list Z) : Result string unit :=
  if (negb (length edid_data =? 128) && negb (length edid_data =? 256))%nat
  then Err "Invalid EDID size" else Ok tt.

Section edid.
Context (hex_encode : list Z -> string) (hex_decode : string -> option (list Z)).

Definition edid_to_string (edid_data : list Z) : string := hex_encode edid_data.

Definition str_to_edid (edid_str : string) : Result string (list Z) :=
  match hex_decode edid_str with
  | None => Err "Failed to decode hex string"
  | Some edid_data => match validate_edid_size edid_data with Ok _ => Ok edid_data | Err x => Err x end
  end.

Context (env : EdidEnv).

Definition get_edid : EM (list Z) :=
  se_guard (negb (ee_get_tool env)) "Failed to get EDID" ;;; se_get device_edid.

Definition get_edid_str : EM string := let! edid_data := get_edid in se_ret (edid_to_string edid_data).

(** The device shows what the tool read from the file. *)
Definition flush_edid_to_device : EM unit :=
  let! f := se_get edid_file in
  match f with
  | None => se_throw "EDID file does not exist"
  | Some edid =>
      se_guard (negb (ee_set_tool env edid)) "Failed to set EDID from file" ;;;
      se_modify (fun s => mkEdid (edid_file s) edid (restarts s)) ;;;
      se_guard (negb (ee_restart env)) "restart" ;;;
      se_modify (fun s => mkEdid (edid_file s) (device_edid s) (S (restarts s)))
  end.

Definition save_edid_to_file (edid_data : list Z) : EM unit :=
  se_of_result (validate_edid_size edid_data) ;;;
  se_guard (negb (ee_mkdir env)) "Failed to create EDID directory" ;;;
  match ee_write env with
  | Written => se_modify (fun s => mkEdid (Some edid_data) (device_edid s) (restarts s))
  | NotOpened => se_throw "Failed to write EDID to file"
  | CutOff n =>
      se_modify (fun s => mkEdid (Some (take n edid_data)) (device_edid s) (restarts s)) ;;;
      se_throw "Failed to write EDID to file"
  end.

Definition init_edid : EM unit :=
  let! f := se_get edid_file in
  match f with
  | None => se_ret tt
  | Some saved_edid =>
      se_guard (negb (ee_read env)) "Failed to read EDID file" ;;;
      let! current_edid := get_edid in
      if bool_decide (saved_edid = current_edid) then se_ret tt else flush_edid_to_device
  end.

Definition update_edid (edid_str : option string) : EM unit :=
  match edid_str with
  | Some edid_str =>
      let! edid_data := se_of_result (str_to_edid edid_str) in
      save_edid_to_file edid_data ;;;
      flush_edid_to_device
  | None =>
      let! f := se_get edid_file in
      match f with
      | Some _ =>
          let! edid_data := se_of_result (str_to_edid EDID_DEFAULT) in
          save_edid_to_file edid_data ;;;
          flush_edid_to_device ;;;
          se_guard (negb (ee_remove env)) "remove_file" ;;;
          se_modify (fun s => mkEdid None (device_edid s) (restarts s))
      | None => se_ret tt
      end
  end.

End edid.

(** ** Laws *)

(** The size that is checked. *)
Definition sized (l : list Z) : Prop := (length l = 128 \/ length l = 256)%nat.

Lemma validate_sized l : validate_edid_size l = Ok tt <-> sized l.
Proof.
  unfold validate_edid_size, sized. destruct (Nat.eqb_spec (length l) 128), (Nat.eqb_spec (length l) 256); cbn; naive_solver.
Qed.

(** Neither the file nor the device has an EDID of another size. *)
Definition edid_fine (s : EdidState) : Prop := sized (device_edid s) /\ ∀ f, edid_file s = Some f -> sized f.

Section laws.
Context (hex_encode : list Z -> string) (hex_decode : string -> option (list Z)).
Implicit Types (s : EdidState) (env : EdidEnv).

Lemma str_to_edid_ok t l : str_to_edid hex_decode t = Ok l -> hex_decode t = Some l /\ sized l.
Proof.
  unfold str_to_edid. destruct (hex_decode t) as [d|]; [|done]. destruct (validate_edid_size d) as [[]|] eqn:E; [|done].
  intros [= ->]. split; [done|by apply validate_sized].
Qed.

Lemma flush_fine env : keeps edid_fine (flush_edid_to_device env).
Proof.
  intros s Hs. pose proof Hs as [Hd Hf]. unfold flush_edid_to_device. se_unfold. destruct (edid_file s) as [f|] eqn:E; [|done].
  destruct (negb (ee_set_tool env f)); [done|].
  destruct (negb (ee_restart env)); (split; cbn; rewrite ?E; [by apply Hf|intros g [= <-]; by apply Hf]).
Qed.

Lemma save_fine env l : (∀ n, ee_write env ≠ CutOff n) -> keeps edid_fine (save_edid_to_file env l).
Proof.
  intros Hw s [Hd Hf]. unfold save_edid_to_file. se_unfold.
  destruct (validate_edid_size l) as [[]|] eqn:E; [|done]. apply validate_sized in E.
  destruct (negb (ee_mkdir env)); [done|]. destruct (ee_write env) as [| |n] eqn:Ew; [|done|by destruct (Hw n)]. split; cbn; [done|]. by intros ? [= <-].
Qed.

(** What the two operations do to the device. *)
Lemma flush_ok env s s' : flush_edid_to_device env s = (s', Ok tt) -> ∃ l, edid_file s = Some l /\ edid_file s' = Some l /\ device_edid s' = l.
Proof.
  unfold flush_edid_to_device. se_unfold. destruct (edid_file s) as [l|] eqn:E; [|done].
  destruct (negb (ee_set_tool env l)); [done|]. destruct (negb (ee_restart env)); [done|]. intros [= <-]. by exists l.
Qed.

Lemma save_ok env l s s' : save_edid_to_file env l s = (s', Ok tt) -> sized l /\ edid_file s' = Some l.
Proof.
  unfold save_edid_to_file. se_unfold. destruct (validate_edid_size l) as [[]|] eqn:E; [|done]. apply validate_sized in E.
  destruct (negb (ee_mkdir env)); [done|]. destruct (ee_write env); [|done|done]. by intros [= <-].
Qed.

Lemma init_ok env s s' : init_edid env s = (s', Ok tt) -> edid_file s' = edid_file s /\ ∀ l, edid_file s = Some l -> device_edid s' = l.
Proof.
  unfold init_edid, get_edid. intros H. apply bind_ok in H as (s1 & f & [= <- <-] & H).
  destruct (edid_file s) as [l|] eqn:E; [|by injection H as <-]. repeat ok_step.
  match goal with G : se_get _ _ = _ |- _ => injection G as <- <- end.
  case_bool_decide as Hl; [injection H as <-; split; [done|]; by intros ? [= <-]|].
  apply flush_ok in H as (l2 & ? & ? & ?). split; congruence.
Qed.

Lemma update_ok env t s s' : update_edid hex_decode env (Some t) s = (s', Ok tt) ->
  ∃ l, hex_decode t = Some l /\ sized l /\ edid_file s' = Some l /\ device_edid s' = l.
Proof.
  intros H. cbn [update_edid] in H. repeat ok_step.
  match goal with G : str_to_edid _ _ = Ok ?l |- _ => apply str_to_edid_ok in G as [Hd Hs]; exists l end.
  destruct a0. match goal with G : save_edid_to_file _ _ _ = _ |- _ => apply save_ok in G as [_ Hf] end.
  apply flush_ok in H as (l2 & ? & ? & ?). split_and!; congruence.
Qed.

(** An EDID that was accepted is what the device shows, also after a restart,
    whatever the device forgot. *)
Theorem edid_survives_restart env t s s' :
  update_edid hex_decode env (Some t) s = (s', Ok tt) ->
  ∃ l, hex_decode t = Some l /\ sized l /\ device_edid s' = l
       /\ ∀ forgotten env2 s2, init_edid env2 (mkEdid (edid_file s') forgotten 0) = (s2, Ok tt) -> device_edid s2 = l.
Proof.
  intros (l & Hd & Hs & Hf & Hdev)%update_ok. exists l. split_and!; [done..|].
  intros forgotten env2 s2 [_ H]%init_ok. by apply H.
Qed.

(** Giving it up shows the default one and leaves no file. *)
Theorem default_is_restored env s s' l :
  update_edid hex_decode env None s = (s', Ok tt) -> edid_file s = Some l ->
  edid_file s' = None /\ hex_decode EDID_DEFAULT = Some (device_edid s').
Proof.
  intros H Hl. cbn [update_edid] in H. apply bind_ok in H as (s1 & f & [= <- <-] & H). rewrite Hl in H. repeat ok_step.
  match goal with G : str_to_edid _ _ = Ok ?l |- _ => apply str_to_edid_ok in G as [Hd _] end.
  match goal with G : save_edid_to_file _ _ _ = (_, Ok ?u) |- _ => destruct u; apply save_ok in G as [_ Hf] end.
  match goal with G : flush_edid_to_device _ _ = (_, Ok ?u) |- _ => destruct u; apply flush_ok in G as (l2 & ? & ? & ?) end.
  injection H as <-. cbn. split; congruence.
Qed.

(** However an update ends, as long as no write is cut off, sizes are right. *)
Lemma update_fine env t : (∀ n, ee_write env ≠ CutOff n) -> keeps edid_fine (update_edid hex_decode env t).
Proof.
  intros Hw. pose proof (flush_fine env) as Hfl. pose proof (fun l => save_fine env l Hw) as Hsv.
  destruct t as [t|]; cbn [update_edid]; keeps_solve. intros s [Hd _]. split; [done|]. by intros.
Qed.
End laws.

(** ** What goes wrong *)

Definition quiet_env : EdidEnv := mkEdidEnv true true Written true true true (fun l => is_ok (validate_edid_size l)).
Definition cut_env (n : nat) : EdidEnv := mkEdidEnv true true (CutOff n) true true true (fun l => is_ok (validate_edid_size l)).

(** A write that is cut off leaves a file of another size; the tool refuses it at
    every start, and the start of the application ends with that error before the
    web server runs. *)
Lemma torn_edid_blocks_start hex_decode l s n :
  hex_decode "edid" = Some l -> sized l -> (n < 128)%nat -> sized (device_edid s) ->
  let s1 := (update_edid hex_decode (cut_env n) (Some "edid") s).1 in
  edid_file s1 = Some (take n l)
  /\ (init_edid quiet_env s1).2 = Err "Failed to set EDID from file".
Proof.
  intros Hd Hl Hn Hs. cbn [update_edid]. unfold str_to_edid. rewrite Hd.
  rewrite (proj2 (validate_sized l)) by done. unfold save_edid_to_file. se_unfold.
  rewrite (proj2 (validate_sized l)) by done. split; [done|].
  assert (length (take n l) < 128)%nat as Hlen by (rewrite length_take; lia).
  unfold init_edid, get_edid, flush_edid_to_device. se_unfold. cbn.
  case_bool_decide as He; [rewrite He in Hlen; destruct Hs; lia|]. cbn.
  destruct (validate_edid_size (take n l)) as [[]|] eqn:E; [|done].
  apply validate_sized in E as [E|E]; lia.
Qed.
