(* ===== verification/Netlink.v ===== *)
(** * IPv6 addresses over netlink (network/mod.rs)

    The request for the addresses, the reader of the answers and the socket they
    come over.  The reader works on a buffer with unchecked pointers: a read that
    leaves the buffer is [None].  Lengths are far below the width of [usize]. *)

From S2P Require Import Prelude Text NetAdapter IpAddr.

(** ** Structures of the kernel *)

(** Values in the byte order of the board. *)
Fixpoint from_le (bs : list Z) : Z :=
  match bs with [] => 0 | b :: bs => b + 256 * from_le bs end.

Fixpoint to_le (n : nat) (z : Z) : list Z :=
  match n with O => [] | S n => (z mod 256)%Z :: to_le n (z / 256) end.

Definition member (off n : nat) (bs : list Z) : Z := from_le (take n (drop off bs)).

Record nlmsghdr := mkHdr { nlmsg_len : Z; nlmsg_type : Z; nlmsg_flags : Z; nlmsg_seq : Z; nlmsg_pid : Z }.
Record IfAddrMsg := mkIfa { ifa_family : Z; ifa_prefixlen : Z; ifa_flags : Z; ifa_scope : Z; ifa_index : Z }.
Record ifa_cacheinfo := mkCache { ifa_prefered : Z; ifa_valid : Z; cstamp : Z; tstamp : Z }.

Definition as_nlmsghdr bs := mkHdr (member 0 4 bs) (member 4 2 bs) (member 6 2 bs) (member 8 4 bs) (member 12 4 bs).
Definition as_ifaddrmsg bs := mkIfa (member 0 1 bs) (member 1 1 bs) (member 2 1 bs) (member 3 1 bs) (member 4 4 bs).
Definition as_cacheinfo bs := mkCache (member 0 4 bs) (member 4 4 bs) (member 8 4 bs) (member 12 4 bs).

Definition nlmsghdr_bytes (h : nlmsghdr) : list Z :=
  to_le 4 (nlmsg_len h) ++ to_le 2 (nlmsg_type h) ++ to_le 2 (nlmsg_flags h) ++ to_le 4 (nlmsg_seq h) ++ to_le 4 (nlmsg_pid h).
Definition ifaddrmsg_bytes (m : IfAddrMsg) : list Z :=
  to_le 1 (ifa_family m) ++ to_le 1 (ifa_prefixlen m) ++ to_le 1 (ifa_flags m) ++ to_le 1 (ifa_scope m) ++ to_le 4 (ifa_index m).

Definition AF_INET6 : Z := 10.
Definition NLMSG_NOOP : Z := 1.
Definition NLMSG_ERROR : Z := 2.
Definition NLMSG_DONE : Z := 3.
Definition RTM_NEWADDR : Z := 20.
Definition RTM_GETADDR : Z := 22.
Definition NLM_F_REQUEST : Z := 1.
Definition NLM_F_DUMP : Z := 768.
Definition IFA_ADDRESS : Z := 1.
Definition IFA_CACHEINFO : Z := 6.

Definition rta_align (len : Z) : Z := Z.land (len + 3) (-4).
Definition nlmsg_align (len : Z) : Z := Z.land (len + 3) (-4).

(** What [send_getaddr_dump] sends. *)
Definition getaddr_request (ifindex : Z) : list Z :=
  nlmsghdr_bytes (mkHdr 24 RTM_GETADDR (Z.lor NLM_F_REQUEST NLM_F_DUMP) 1 0) ++ ifaddrmsg_bytes (mkIfa AF_INET6 0 0 0 ifindex).

(** ** [Ipv6Addr::to_string] *)

Definition hex_char (d : Z) : ascii := ascii_of_N (Z.to_N (if (d <? 10)%Z then 48 + d else 87 + d)).

Fixpoint show_hex_from (fuel : nat) (z : Z) (acc : string) : string :=
  match fuel with
  | O => acc
  | S fuel => let acc := String (hex_char (z mod 16)) acc in
              if (z <? 16)%Z then acc else show_hex_from fuel (z / 16) acc
  end.

Definition show_hex (z : Z) : string := show_hex_from 4 z "".

(** The first of the longest runs of zero groups: start and length. *)
Fixpoint zero_runs (i : nat) (current longest : nat * nat) (segments : list Z) : nat * nat :=
  match segments with
  | [] => longest
  | s :: segments =>
      if (s =? 0)%Z then
        let current := (if (current.2 =? 0)%nat then i else current.1, S current.2) in
        zero_runs (S i) current (if (longest.2 <? current.2)%nat then current else longest) segments
      else zero_runs (S i) (0, 0)%nat longest segments
  end.

Definition fmt_subslice (segments : list Z) : string := str_join ":" (show_hex <$> segments).

Definition show_ipv6 (segments : list Z) : string :=
  match segments with
  | [0; 0; 0; 0; 0; 65535; a; b]%Z => "::ffff:" +:+ show_ipv4 (a * 65536 + b)
  | _ =>
      let '(start, len) := zero_runs 0 (0, 0)%nat (0, 0)%nat segments in
      if (1 <? len)%nat
      then fmt_subslice (take start segments) +:+ "::" +:+ fmt_subslice (drop (start + len) segments)
      else fmt_subslice segments
  end.

(** [Ipv6Addr::from] on octets. *)
Fixpoint groups_of (octets : list Z) : list Z :=
  match octets with
  | hi :: lo :: octets => (hi * 256 + lo)%Z :: groups_of octets
  | _ => []
  end.

(** ** Reading the dump *)

Definition rd (off len : Z) (buf : list Z) : option (list Z) :=
  if ((0 <=? off) && (off + len <=? Z.of_nat (length buf)))%Z
  then Some (take (Z.to_nat len) (drop (Z.to_nat off) buf)) else None.

(** Scope, seconds of validity and preference, flags. *)
Definition Lifetimes : Type := (option Z * option Z * option Z * option Z)%type.
Definition DumpMap : Type := gmap string Lifetimes.

Record AttrInfo := mkAttrs { at_ip : option (list Z); at_valid : option Z; at_preferred : option Z }.

Definition read_attr (buf : list Z) (nla_type payload_len payload_ptr : Z) (i : AttrInfo) : option AttrInfo :=
  if (nla_type =? IFA_CACHEINFO)%Z then
    if (16 <=? payload_len)%Z then
      match rd payload_ptr 16 buf with
      | Some bs => let ci := as_cacheinfo bs in Some (mkAttrs (at_ip i) (Some (ifa_valid ci)) (Some (ifa_prefered ci)))
      | None => None
      end
    else Some i
  else if (nla_type =? IFA_ADDRESS)%Z then
    if (payload_len =? 16)%Z then
      match rd payload_ptr 16 buf with
      | Some octets => Some (mkAttrs (Some octets) (at_valid i) (at_preferred i))
      | None => None
      end
    else Some i
  else Some i.

(** Each turn moves on by four bytes or more, so the length of the buffer is
    enough fuel. *)
Fixpoint attr_loop (fuel : nat) (buf : list Z) (rta_off end_ : Z) (i : AttrInfo) : option AttrInfo :=
  match fuel with
  | O => None
  | S fuel =>
      if (end_ <? rta_off + 4)%Z then Some i
      else match rd rta_off 4 buf with
           | None => None
           | Some rta =>
               let nla_len := member 0 2 rta in
               let nla_type := member 2 2 rta in
               if (nla_len <? 4)%Z then Some i
               else match read_attr buf nla_type (nla_len - 4) (rta_off + 4) i with
                    | None => None
                    | Some i => attr_loop fuel buf (rta_off + rta_align nla_len) end_ i
                    end
           end
  end.

Definition note_addr (ifa : IfAddrMsg) (i : AttrInfo) (out : DumpMap) : DumpMap :=
  match at_ip i with
  | Some octets => <[show_ipv6 (groups_of octets) := (Some (ifa_scope ifa), at_valid i, at_preferred i, Some (ifa_flags ifa))]> out
  | None => out
  end.

Inductive DatagramEnd : Set := NextDatagram | DumpDone | DumpFailed.

Fixpoint msg_loop (fuel : nat) (ifindex : Z) (buf : list Z) (n offset : Z) (out : DumpMap) : option (DatagramEnd * DumpMap) :=
  match fuel with
  | O => None
  | S fuel =>
      if (n <? offset + 16)%Z then Some (NextDatagram, out)
      else match rd offset 16 buf with
           | None => None
           | Some bs =>
               let hdr := as_nlmsghdr bs in
               let next out := msg_loop fuel ifindex buf n (offset + nlmsg_align (nlmsg_len hdr)) out in
               if (nlmsg_len hdr =? 0)%Z then Some (NextDatagram, out)
               else if (nlmsg_type hdr =? NLMSG_DONE)%Z then Some (DumpDone, out)
               else if (nlmsg_type hdr =? NLMSG_NOOP)%Z then next out
               else if (nlmsg_type hdr =? NLMSG_ERROR)%Z then Some (DumpFailed, out)
               else if (nlmsg_type hdr =? RTM_NEWADDR)%Z then
                 let base := (offset + 16)%Z in
                 let end_ := (offset + nlmsg_len hdr)%Z in
                 if (end_ <? base + 8)%Z then Some (NextDatagram, out)
                 else match rd base 8 buf with
                      | None => None
                      | Some bs =>
                          let ifa := as_ifaddrmsg bs in
                          if negb (ifa_family ifa =? AF_INET6)%Z || negb (ifa_index ifa =? ifindex)%Z then next out
                          else match attr_loop (S (length buf)) buf (base + 8) end_ (mkAttrs None None None) with
                               | None => None
                               | Some i => next (note_addr ifa i out)
                               end
                      end
               else next out
           end
  end.

Definition BUF_SIZE : nat := 32 * 1024.

(** What [recv] answers; a datagram that does not fit is cut. *)
Inductive RecvAnswer : Type := Received (datagram : list Z) | RecvError.

Inductive DumpResult : Type :=
| DumpOk (out : DumpMap) | DumpErr
| OutOfBuffer (** the reader left its buffer *)
| Waiting (** for another datagram *).

Fixpoint recv_dump (ifindex : Z) (answers : list RecvAnswer) (buf : list Z) (out : DumpMap) : DumpResult :=
  match answers with
  | [] => Waiting
  | RecvError :: _ => DumpErr
  | Received d :: answers =>
      let d := take BUF_SIZE d in
      match d with
      | [] => DumpOk out
      | _ =>
          let buf := d ++ drop (length d) buf in
          match msg_loop (S (length buf)) ifindex buf (Z.of_nat (length d)) 0 out with
          | None => OutOfBuffer
          | Some (NextDatagram, out) => recv_dump ifindex answers buf out
          | Some (DumpDone, out) => DumpOk out
          | Some (DumpFailed, _) => DumpErr
          end
      end
  end.

(** ** The query *)

Record NlEnv := mkNlEnv {
  nl_ifindex : string -> Z; (** 0: no such interface *)
  nl_socket : bool; nl_bind : bool; nl_send : list Z -> bool; nl_recv : list RecvAnswer }.

Inductive QueryResult : Type :=
| QueryOk (out : DumpMap) | QueryErr
| QueryPanics (** a name that is no C string *)
| QueryStray | QueryWaits.

(** The lifetimes are points in time from here on. *)
Definition to_deadlines (now : Z) (l : Lifetimes) : Lifetimes :=
  let '(scope, valid_s, pref_s, flags) := l in (scope, Z.add now <$> valid_s, Z.add now <$> pref_s, flags).

(** The count of open sockets goes along. *)
Definition query_ipv6_rtnetlink (env : NlEnv) (now : Z) (interface : string) (fds : nat) : nat * QueryResult :=
  if contains_char "000"%char interface then (fds, QueryPanics)
  else
    let ifindex := nl_ifindex env interface in
    if (ifindex =? 0)%Z then (fds, QueryOk ∅)
    else if negb (nl_socket env) then (fds, QueryErr)
    else if negb (nl_bind env) then (fds, QueryErr)
    else if negb (nl_send env (getaddr_request ifindex)) then (fds, QueryErr)
    else match recv_dump ifindex (nl_recv env) (replicate BUF_SIZE 0%Z) ∅ with
         | DumpOk map => (fds, QueryOk (to_deadlines now <$> map))
         | DumpErr => (S fds, QueryErr)
         | OutOfBuffer => (S fds, QueryStray)
         | Waiting => (S fds, QueryWaits)
         end.

(** * The dump of addresses is read as it was written *)

(** ** Messages as the kernel writes them *)

Record Attr := mkAttr { attr_type : Z; attr_payload : list Z }.

Inductive NlMsg : Type :=
| NewAddr (ifa : IfAddrMsg) (attrs : list Attr)
| Other (type : Z) (body : list Z).

Definition zpad (n : nat) : list Z := replicate ((4 - n mod 4) mod 4) 0%Z.

Definition encode_attr (a : Attr) : list Z :=
  to_le 2 (4 + Z.of_nat (length (attr_payload a))) ++ to_le 2 (attr_type a) ++ attr_payload a ++ zpad (length (attr_payload a)).

Definition encode_attrs (l : list Attr) : list Z := concat (encode_attr <$> l).

Definition encode_msg (type : Z) (body : list Z) : list Z :=
  nlmsghdr_bytes (mkHdr (16 + Z.of_nat (length body)) type 2 1 0) ++ body ++ zpad (length body).

Definition encode (m : NlMsg) : list Z :=
  match m with
  | NewAddr ifa attrs => encode_msg RTM_NEWADDR (ifaddrmsg_bytes ifa ++ encode_attrs attrs)
  | Other type body => encode_msg type body
  end.

Definition encode_all (ms : list NlMsg) : list Z := concat (encode <$> ms).

Definition done_msg : list Z := encode_msg NLMSG_DONE [0; 0; 0; 0]%Z.

(** ** What they say *)

Definition note_attr (i : AttrInfo) (a : Attr) : AttrInfo :=
  if (attr_type a =? IFA_CACHEINFO)%Z then
    if (16 <=? length (attr_payload a))%nat
    then mkAttrs (at_ip i) (Some (member 4 4 (attr_payload a))) (Some (member 0 4 (attr_payload a))) else i
  else if (attr_type a =? IFA_ADDRESS)%Z && (length (attr_payload a) =? 16)%nat
       then mkAttrs (Some (attr_payload a)) (at_valid i) (at_preferred i) else i.

Definition note_msg (ifindex : Z) (out : DumpMap) (m : NlMsg) : DumpMap :=
  match m with
  | NewAddr ifa attrs =>
      if (ifa_family ifa =? AF_INET6)%Z && (ifa_index ifa =? ifindex)%Z
      then note_addr ifa (fold_left note_attr attrs (mkAttrs None None None)) out else out
  | Other _ _ => out
  end.

Definition attr_wf (a : Attr) : Prop := (0 <= attr_type a < 65536)%Z /\ (Z.of_nat (length (attr_payload a)) < 65532)%Z.

Definition ifa_wf (m : IfAddrMsg) : Prop :=
  (0 <= ifa_family m < 256)%Z /\ (0 <= ifa_prefixlen m < 256)%Z /\ (0 <= ifa_flags m < 256)%Z
  /\ (0 <= ifa_scope m < 256)%Z /\ (0 <= ifa_index m < 4294967296)%Z.

Definition msg_wf (m : NlMsg) : Prop :=
  match m with
  | NewAddr ifa attrs => ifa_wf ifa /\ Forall attr_wf attrs
  | Other type _ => (0 <= type < 65536)%Z /\ type ∉ [NLMSG_DONE; NLMSG_ERROR; RTM_NEWADDR]
  end.

(** ** Bytes *)

Lemma length_to_le n z : length (to_le n z) = n.
Proof. revert z. induction n as [|n IH]; intros z; [done|]. cbn. by rewrite IH. Qed.

Lemma from_to_le n z : (0 <= z < 256 ^ Z.of_nat n)%Z -> from_le (to_le n z) = z.
Proof.
  revert z. induction n as [|n IH]; intros z Hz; cbn [to_le from_le]; [cbn in Hz; lia|].
  rewrite Nat2Z.inj_succ, Z.pow_succ_r in Hz by lia. rewrite IH.
  - rewrite (Z_div_mod_eq_full z 256) at 3. lia.
  - split; [apply Z.div_pos; lia|apply Z.div_lt_upper_bound; lia].
Qed.

(** A member that follows what is dropped. *)
Lemma member_at off n z pre post :
  off = length pre -> (0 <= z < 256 ^ Z.of_nat n)%Z -> member off n (pre ++ to_le n z ++ post) = z.
Proof.
  intros -> Hz. unfold member. rewrite drop_app_length. rewrite take_app_length'; [by apply from_to_le|by rewrite length_to_le].
Qed.

Lemma rd_at off len pre mid post :
  off = Z.of_nat (length pre) -> len = Z.of_nat (length mid) -> rd off len (pre ++ mid ++ post) = Some mid.
Proof.
  intros -> ->. unfold rd. rewrite !length_app.
  replace ((0 <=? Z.of_nat (length pre)) && _)%Z with true by (symmetry; apply andb_true_iff; split; apply Z.leb_le; lia).
  rewrite !Nat2Z.id. by rewrite drop_app_length, take_app_length.
Qed.

Lemma as_nlmsghdr_bytes h rest :
  (0 <= nlmsg_len h < 2 ^ 32)%Z -> (0 <= nlmsg_type h < 2 ^ 16)%Z -> (0 <= nlmsg_flags h < 2 ^ 16)%Z ->
  (0 <= nlmsg_seq h < 2 ^ 32)%Z -> (0 <= nlmsg_pid h < 2 ^ 32)%Z ->
  as_nlmsghdr (nlmsghdr_bytes h ++ rest) = h.
Proof.
  intros H1 H2 H3 H4 H5. destruct h as [a b c d e]. unfold as_nlmsghdr, nlmsghdr_bytes in *. cbn [nlmsg_len nlmsg_type nlmsg_flags nlmsg_seq nlmsg_pid] in *.
  rewrite <- !app_assoc. f_equal.
  - apply (member_at 0 4 a []); [done|lia].
  - apply (member_at 4 2 b (to_le 4 a)); [done|lia].
  - rewrite (app_assoc (to_le 4 a)). apply (member_at 6 2 c); [done|lia].
  - rewrite (app_assoc (to_le 4 a)), (app_assoc _ (to_le 2 c)). apply (member_at 8 4 d); [done|lia].
  - rewrite (app_assoc (to_le 4 a)), (app_assoc _ (to_le 2 c)), (app_assoc _ (to_le 4 d)). apply (member_at 12 4 e); [done|lia].
Qed.

Lemma as_ifaddrmsg_bytes m rest : ifa_wf m -> as_ifaddrmsg (ifaddrmsg_bytes m ++ rest) = m.
Proof.
  intros (H1 & H2 & H3 & H4 & H5). destruct m as [a b c d e]. unfold as_ifaddrmsg, ifaddrmsg_bytes in *.
  cbn [ifa_family ifa_prefixlen ifa_flags ifa_scope ifa_index] in *. rewrite <- !app_assoc. f_equal.
  - apply (member_at 0 1 a []); [done|lia].
  - apply (member_at 1 1 b (to_le 1 a)); [done|lia].
  - rewrite (app_assoc (to_le 1 a)). apply (member_at 2 1 c); [done|lia].
  - rewrite (app_assoc (to_le 1 a)), (app_assoc _ (to_le 1 c)). apply (member_at 3 1 d); [done|lia].
  - rewrite (app_assoc (to_le 1 a)), (app_assoc _ (to_le 1 c)), (app_assoc _ (to_le 1 d)). apply (member_at 4 4 e); [done|lia].
Qed.

Lemma align_spec n : (rta_align (Z.of_nat n) = Z.of_nat (n + length (zpad n)))%Z.
Proof.
  unfold rta_align, zpad. rewrite length_replicate. change (-4)%Z with (Z.lnot (Z.ones 2)).
  rewrite <- Z.ldiff_land, Z.ldiff_ones_r by lia. rewrite Z.shiftl_mul_pow2, Z.shiftr_div_pow2 by lia. change (2 ^ 2)%Z with 4%Z.
  pose proof (Nat.div_mod_eq n 4) as Hd. pose proof (Nat.mod_upper_bound n 4) as Hm.
  set (q := (n / 4)%nat) in *. set (r := (n mod 4)%nat) in *. clearbody q r.
  assert (r = 0 \/ r = 1 \/ r = 2 \/ r = 3)%nat as Hr by lia. rewrite Hd.
  destruct Hr as [-> | [-> | [-> | ->]]]; cbn [Nat.sub Nat.modulo Nat.divmod fst snd].
  all: match goal with |- (?a `div` 4 * 4)%Z = _ => pose proof (Z.div_mod a 4 ltac:(lia)); pose proof (Z.mod_pos_bound a 4 ltac:(lia)) end; lia.
Qed.

(** ** The loops *)

Lemma attr_head a b rest : (0 <= a < 65536)%Z -> (0 <= b < 65536)%Z ->
  member 0 2 (to_le 2 a ++ to_le 2 b ++ rest) = a /\ member 2 2 (to_le 2 a ++ to_le 2 b ++ rest) = b.
Proof.
  intros Ha Hb. split; [apply (member_at 0 2 a []); [done|lia]|].
  apply (member_at 2 2 b (to_le 2 a)); [by rewrite length_to_le|lia].
Qed.

Lemma member_take off n k bs : (off + n <= k)%nat -> member off n (take k bs) = member off n bs.
Proof. intros H. unfold member. by rewrite !take_drop_commute, take_take, Nat.min_l by lia. Qed.

Lemma rd_part off len pre mid post :
  off = Z.of_nat (length pre) -> (0 <= len)%Z -> (len <= Z.of_nat (length mid))%Z ->
  rd off len (pre ++ mid ++ post) = Some (take (Z.to_nat len) mid).
Proof.
  intros -> Hn Hl. rewrite <- (take_drop (Z.to_nat len) mid) at 1. rewrite <- app_assoc. apply rd_at; [done|].
  rewrite length_take. lia.
Qed.

Lemma read_attr_reads buf a i pre post :
  attr_wf a -> buf = pre ++ attr_payload a ++ post ->
  read_attr buf (attr_type a) (Z.of_nat (length (attr_payload a))) (Z.of_nat (length pre)) i = Some (note_attr i a).
Proof.
  intros [_ Hl] ->. unfold read_attr, note_attr. set (p := attr_payload a) in *.
  destruct (attr_type a =? IFA_CACHEINFO)%Z.
  - destruct (Nat.leb_spec 16 (length p)) as [H|H]; [|by rewrite (proj2 (Z.leb_gt _ _)) by lia].
    rewrite (proj2 (Z.leb_le _ _)) by lia. rewrite rd_part by lia. unfold as_cacheinfo. cbn [ifa_valid ifa_prefered].
    by rewrite !member_take by (change (Z.to_nat 16) with 16%nat; lia).
  - destruct (attr_type a =? IFA_ADDRESS)%Z; [|done].
    destruct (Nat.eqb_spec (length p) 16) as [H|H]; cbn [andb].
    + rewrite (proj2 (Z.eqb_eq _ _)) by lia. rewrite rd_part by lia. by rewrite take_ge by (change (Z.to_nat 16) with 16%nat; lia).
    + by rewrite (proj2 (Z.eqb_neq _ _)) by lia.
Qed.

Lemma length_encode_attr a : Z.of_nat (length (encode_attr a)) = rta_align (4 + Z.of_nat (length (attr_payload a))).
Proof.
  unfold encode_attr. rewrite !length_app, !length_to_le. replace (4 + Z.of_nat (length (attr_payload a)))%Z with (Z.of_nat (4 + length (attr_payload a))) by lia.
  rewrite align_spec. unfold zpad. rewrite !length_replicate. replace ((4 + length (attr_payload a)) mod 4)%nat with (length (attr_payload a) mod 4)%nat; [lia|].
  replace (4 + length (attr_payload a))%nat with (length (attr_payload a) + 1 * 4)%nat by lia. by rewrite Nat.Div0.mod_add.
Qed.

Lemma attr_loop_reads attrs : ∀ fuel buf pre post off end_ i,
  Forall attr_wf attrs -> (length attrs < fuel)%nat -> buf = pre ++ encode_attrs attrs ++ post ->
  off = Z.of_nat (length pre) -> end_ = (off + Z.of_nat (length (encode_attrs attrs)))%Z ->
  attr_loop fuel buf off end_ i = Some (fold_left note_attr attrs i).
Proof.
  induction attrs as [|a attrs IH]; intros [|fuel] buf pre post off end_ i Hwf Hf Hb Ho He; cbn in Hf; try lia; cbn [attr_loop fold_left].
  - cbn in He. by rewrite (proj2 (Z.ltb_lt _ _)) by lia.
  - apply Forall_cons in Hwf as [Ha Hwf]. pose proof Ha as [Ht Hl].
    assert (encode_attrs (a :: attrs) = encode_attr a ++ encode_attrs attrs) as Hc by done. rewrite Hc in Hb, He.
    rewrite length_app in He. pose proof (length_encode_attr a) as Hle. set (L := Z.of_nat (length (attr_payload a))) in *.
    pose proof (align_spec (4 + length (attr_payload a))) as Hal.
    replace (Z.of_nat (4 + length (attr_payload a))) with (4 + L)%Z in Hal by lia.
    rewrite (proj2 (Z.ltb_ge _ _)) by lia.
    assert (buf = pre ++ (to_le 2 (4 + L) ++ to_le 2 (attr_type a)) ++ (attr_payload a ++ zpad (length (attr_payload a)) ++ encode_attrs attrs ++ post)) as Hb1.
    { rewrite Hb. unfold encode_attr. by rewrite <- !app_assoc. }
    rewrite Hb1 at 1. rewrite rd_at by (rewrite ?length_app, ?length_to_le; lia).
    destruct (attr_head (4 + L) (attr_type a) []) as [E1 E2]; [lia..|]. rewrite app_nil_r in E1, E2. rewrite E1, E2.
    rewrite (proj2 (Z.ltb_ge _ _)) by lia. replace (4 + L - 4)%Z with L by lia.
    replace (off + 4)%Z with (Z.of_nat (length (pre ++ to_le 2 (4 + L) ++ to_le 2 (attr_type a)))) by (rewrite !length_app, !length_to_le; lia).
    unfold L at 2. rewrite (read_attr_reads buf a i _ (zpad (length (attr_payload a)) ++ encode_attrs attrs ++ post) Ha) by (rewrite Hb1; by rewrite <- !app_assoc).
    apply (IH fuel buf (pre ++ encode_attr a) post); [done|lia|rewrite Hb; by rewrite <- !app_assoc|rewrite length_app; lia|lia].
Qed.

Lemma zpad_mult n : (4 | n)%Z -> ∀ k, Z.of_nat k = n -> zpad k = [].
Proof.
  intros [q Hq] k Hk. unfold zpad. replace (k mod 4)%nat with 0%nat; [done|]. apply Nat2Z.inj. rewrite Nat2Z.inj_mod, Hk, Hq.
  symmetry. apply Z.mod_mul. lia.
Qed.

Lemma length_encode_attrs l : (4 | Z.of_nat (length (encode_attrs l)))%Z.
Proof.
  induction l as [|a l IH]; [by exists 0%Z|]. change (encode_attrs (a :: l)) with (encode_attr a ++ encode_attrs l).
  rewrite length_app, Nat2Z.inj_add. apply Z.divide_add_r; [|done]. rewrite length_encode_attr. unfold rta_align.
  change (-4)%Z with (Z.lnot (Z.ones 2)). rewrite <- Z.ldiff_land, Z.ldiff_ones_r by lia. rewrite Z.shiftl_mul_pow2 by lia.
  eexists. reflexivity.
Qed.

Lemma length_nlmsghdr h : length (nlmsghdr_bytes h) = 16%nat.
Proof. unfold nlmsghdr_bytes. by rewrite !length_app, !length_to_le. Qed.

Lemma length_ifaddrmsg m : length (ifaddrmsg_bytes m) = 8%nat.
Proof. unfold ifaddrmsg_bytes. by rewrite !length_app, !length_to_le. Qed.

Lemma length_encode_msg type body : nlmsg_align (16 + Z.of_nat (length body)) = Z.of_nat (length (encode_msg type body)).
Proof.
  unfold encode_msg. rewrite !length_app, length_nlmsghdr. change nlmsg_align with rta_align.
  replace (16 + Z.of_nat (length body))%Z with (Z.of_nat (16 + length body)) by lia. rewrite align_spec.
  unfold zpad. rewrite !length_replicate. replace ((16 + length body) mod 4)%nat with (length body mod 4)%nat; [lia|].
  replace (16 + length body)%nat with (length body + 4 * 4)%nat by lia. by rewrite Nat.Div0.mod_add.
Qed.

(** The header of a message is read back. *)
Lemma rd_header type body pre post buf :
  buf = pre ++ encode_msg type body ++ post -> (0 <= type < 65536)%Z -> (16 + Z.of_nat (length body) < 2 ^ 32)%Z ->
  ∃ bs, rd (Z.of_nat (length pre)) 16 buf = Some bs /\ as_nlmsghdr bs = mkHdr (16 + Z.of_nat (length body)) type 2 1 0.
Proof.
  intros -> Ht Hl. set (h := mkHdr (16 + Z.of_nat (length body)) type 2 1 0). exists (nlmsghdr_bytes h). split.
  - unfold encode_msg. fold h. rewrite <- !app_assoc. apply rd_at; [done|by rewrite length_nlmsghdr].
  - rewrite <- (app_nil_r (nlmsghdr_bytes h)). apply as_nlmsghdr_bytes; cbn; lia.
Qed.

Lemma short_body type body pre post buf :
  buf = pre ++ encode_msg type body ++ post -> (Z.of_nat (length buf) < 2 ^ 32)%Z -> (16 + Z.of_nat (length body) < 2 ^ 32)%Z.
Proof. intros ->. unfold encode_msg. rewrite !length_app, length_nlmsghdr. lia. Qed.

Lemma msg_step m fuel ifindex buf n pre post out :
  msg_wf m -> buf = pre ++ encode m ++ post -> (Z.of_nat (length buf) < 2 ^ 32)%Z ->
  (Z.of_nat (length pre + length (encode m)) <= n)%Z ->
  msg_loop (S fuel) ifindex buf n (Z.of_nat (length pre)) out
  = msg_loop fuel ifindex buf n (Z.of_nat (length pre + length (encode m))) (note_msg ifindex out m).
Proof.
  intros Hwf Hb Hbuf Hn. destruct m as [ifa attrs|type body]; cbn [encode msg_wf] in *.
  - set (body := ifaddrmsg_bytes ifa ++ encode_attrs attrs) in *. destruct Hwf as [Hifa Hattrs].
    pose proof (length_encode_msg RTM_NEWADDR body) as Hal. pose proof (short_body _ _ _ _ _ Hb Hbuf) as Hs.
    destruct (rd_header _ _ _ _ _ Hb ltac:(unfold RTM_NEWADDR; lia) Hs) as (bs & Hrd & Hh).
    assert (length (encode_msg RTM_NEWADDR body) = 16 + length body + length (zpad (length body)))%nat as Hlen
      by (unfold encode_msg; rewrite !length_app, length_nlmsghdr; lia).
    cbn [msg_loop]. rewrite (proj2 (Z.ltb_ge _ _)) by lia. rewrite Hrd, Hh. cbn [nlmsg_len nlmsg_type].
    rewrite (proj2 (Z.eqb_neq _ 0)) by lia. cbn [Z.eqb RTM_NEWADDR NLMSG_DONE NLMSG_NOOP NLMSG_ERROR Pos.eqb].
    assert (length body = 8 + length (encode_attrs attrs))%nat as Hbl by (unfold body; rewrite length_app, length_ifaddrmsg; lia).
    rewrite (proj2 (Z.ltb_ge _ _)) by lia.
    assert (buf = (pre ++ nlmsghdr_bytes (mkHdr (16 + Z.of_nat (length body)) RTM_NEWADDR 2 1 0)) ++ ifaddrmsg_bytes ifa
                  ++ encode_attrs attrs ++ zpad (length body) ++ post) as Hb1
      by (rewrite Hb; unfold encode_msg, body; by rewrite <- !app_assoc).
    rewrite Hb1 at 1. rewrite rd_at by (rewrite ?length_app, ?length_nlmsghdr, ?length_ifaddrmsg; lia).
    pose proof (as_ifaddrmsg_bytes ifa [] Hifa) as Hi. rewrite app_nil_r in Hi. rewrite Hi. cbn [note_msg].
    rewrite Hal, <- Nat2Z.inj_add. destruct (ifa_family ifa =? AF_INET6)%Z; [|done]. destruct (ifa_index ifa =? ifindex)%Z; [|done]. cbn [negb orb andb].
    rewrite (attr_loop_reads attrs (S (length buf)) buf
      ((pre ++ nlmsghdr_bytes (mkHdr (16 + Z.of_nat (length body)) RTM_NEWADDR 2 1 0)) ++ ifaddrmsg_bytes ifa) (zpad (length body) ++ post)); [done|done| | | |].
    + assert (length attrs <= length (encode_attrs attrs))%nat; [|rewrite Hb1, !length_app; lia].
      clear. induction attrs as [|a l IH]; [done|]. change (encode_attrs (a :: l)) with (encode_attr a ++ encode_attrs l).
      unfold encode_attr. rewrite !length_app, !length_to_le. cbn. lia.
    + rewrite Hb1 at 1. by rewrite <- !app_assoc.
    + rewrite !length_app, length_nlmsghdr, length_ifaddrmsg. lia.
    + lia.
  - destruct Hwf as [Ht Hne]. pose proof (length_encode_msg type body) as Hal. pose proof (short_body _ _ _ _ _ Hb Hbuf) as Hs.
    destruct (rd_header _ _ _ _ _ Hb Ht Hs) as (bs & Hrd & Hh).
    assert (16 <= length (encode_msg type body))%nat as Hlen by (unfold encode_msg; rewrite !length_app, length_nlmsghdr; lia).
    cbn [msg_loop]. rewrite (proj2 (Z.ltb_ge _ _)) by lia. rewrite Hrd, Hh. cbn [nlmsg_len nlmsg_type note_msg].
    rewrite (proj2 (Z.eqb_neq _ 0)) by lia. rewrite Hal, <- Nat2Z.inj_add.
    apply not_elem_of_cons in Hne as [N1 Hne]. apply not_elem_of_cons in Hne as [N2 Hne]. apply not_elem_of_cons in Hne as [N3 _].
    rewrite (proj2 (Z.eqb_neq _ _) N1), (proj2 (Z.eqb_neq _ _) N2), (proj2 (Z.eqb_neq _ _) N3). by destruct (type =? NLMSG_NOOP)%Z.
Qed.

Lemma msg_loop_reads ms : ∀ fuel ifindex buf n pre post out,
  Forall msg_wf ms -> buf = pre ++ encode_all ms ++ post -> (Z.of_nat (length buf) < 2 ^ 32)%Z ->
  (Z.of_nat (length pre + length (encode_all ms)) <= n)%Z ->
  msg_loop (length ms + fuel) ifindex buf n (Z.of_nat (length pre)) out
  = msg_loop fuel ifindex buf n (Z.of_nat (length pre + length (encode_all ms))) (fold_left (note_msg ifindex) ms out).
Proof.
  induction ms as [|m ms IH]; intros fuel ifindex buf n pre post out Hwf Hb Hbuf Hn.
  - cbn. by rewrite Nat.add_0_r.
  - apply Forall_cons in Hwf as [Hm Hms]. change (encode_all (m :: ms)) with (encode m ++ encode_all ms) in *.
    rewrite length_app in *. cbn [length Nat.add fold_left]. rewrite <- app_assoc in Hb.
    rewrite (msg_step m (length ms + fuel) ifindex buf n pre (encode_all ms ++ post)) by (done || lia).
    replace (length pre + length (encode m))%nat with (length (pre ++ encode m)) by by rewrite length_app.
    rewrite (IH fuel ifindex buf n (pre ++ encode m) post); [|done|by rewrite Hb, <- app_assoc|done|rewrite length_app; lia].
    do 2 f_equal. rewrite length_app. lia.
Qed.

Lemma encode_long m : (16 <= length (encode m))%nat.
Proof. destruct m; cbn [encode]; unfold encode_msg; rewrite !length_app, length_nlmsghdr; lia. Qed.

Lemma encode_all_long ms : (16 * length ms <= length (encode_all ms))%nat.
Proof.
  induction ms as [|m ms IH]; [done|]. change (encode_all (m :: ms)) with (encode m ++ encode_all ms).
  rewrite length_app. pose proof (encode_long m). cbn [length]. lia.
Qed.

(** ** Whole dumps *)

Definition datagram_wf (ms : list NlMsg) : Prop :=
  ms ≠ [] /\ Forall msg_wf ms /\ (length (encode_all ms) <= BUF_SIZE)%nat.

Lemma buf_size : Z.of_nat BUF_SIZE = 32768%Z.
Proof. vm_compute. reflexivity. Qed.

#[local] Opaque BUF_SIZE.

(** What a datagram leaves in the buffer. *)
Lemma overwritten (d buf : list Z) : (length d <= length buf)%nat -> length (d ++ drop (length d) buf) = length buf.
Proof. intros H. rewrite length_app, length_drop. lia. Qed.

Lemma datagram_read ifindex ms answers buf out :
  datagram_wf ms -> length buf = BUF_SIZE ->
  ∃ buf', length buf' = BUF_SIZE /\
    recv_dump ifindex (Received (encode_all ms) :: answers) buf out
    = recv_dump ifindex answers buf' (fold_left (note_msg ifindex) ms out).
Proof.
  intros (Hne & Hwf & Hl) Hb. pose proof buf_size as HB. set (d := encode_all ms) in *.
  exists (d ++ drop (length d) buf). split; [rewrite overwritten; lia|].
  cbn [recv_dump]. rewrite take_ge by lia.
  assert (d ≠ []) as Hd.
  { intros E. pose proof (encode_all_long ms) as H. fold d in H. rewrite E in H. destruct ms; [done|cbn in H; lia]. }
  destruct d as [|b d'] eqn:Ed; [done|]. rewrite <- Ed in *. clear Ed Hd.
  set (buf' := d ++ drop (length d) buf). assert (length buf' = BUF_SIZE) as Hb' by (unfold buf'; rewrite overwritten; lia).
  pose proof (encode_all_long ms) as Hlong. fold d in Hlong.
  replace (S (length buf')) with (length ms + (S (length buf') - length ms))%nat by lia.
  rewrite (msg_loop_reads ms _ ifindex buf' _ [] (drop (length d) buf) out Hwf) by (done || (cbn [length]; fold d; lia)).
  destruct (S (length buf') - length ms)%nat as [|fuel] eqn:Ef; [destruct ms; [done|cbn [length] in *; lia]|].
  cbn [msg_loop length Nat.add]. fold d. by rewrite (proj2 (Z.ltb_lt _ _)) by lia.
Qed.

Lemma last_datagram_read ifindex ms junk answers buf out :
  Forall msg_wf ms -> (length (encode_all ms ++ done_msg) <= BUF_SIZE)%nat -> length buf = BUF_SIZE ->
  recv_dump ifindex (Received (encode_all ms ++ done_msg ++ junk) :: answers) buf out
  = DumpOk (fold_left (note_msg ifindex) ms out).
Proof.
  intros Hwf Hl Hb. pose proof buf_size as HB. pose proof (encode_all_long ms) as Hlong.
  assert (length done_msg = 20)%nat as Hdone by (vm_compute; reflexivity). rewrite length_app in Hl.
  cbn [recv_dump]. rewrite app_assoc, take_app_ge by (rewrite length_app; lia).
  set (junk' := take _ junk). set (d := (encode_all ms ++ done_msg) ++ junk').
  assert (length d = length (encode_all ms) + 20 + length junk')%nat as Hd by (unfold d; rewrite !length_app; lia).
  assert (length d <= BUF_SIZE)%nat as Hdl by (rewrite Hd; unfold junk'; rewrite length_take, length_app; lia).
  set (buf' := d ++ drop (length d) buf). assert (length buf' = BUF_SIZE) as Hb' by (unfold buf'; rewrite overwritten; lia).
  assert (buf' = [] ++ encode_all ms ++ (done_msg ++ junk' ++ drop (length d) buf)) as Hsplit
    by (unfold buf', d; by rewrite <- !app_assoc).
  destruct d as [|b d'] eqn:Ed; [cbn in Hd; lia|]. rewrite <- Ed in *. clear Ed.
  replace (S (length buf')) with (length ms + (S (length buf') - length ms))%nat by lia.
  rewrite (msg_loop_reads ms _ ifindex buf' (Z.of_nat (length d)) [] (done_msg ++ junk' ++ drop (length d) buf) out Hwf Hsplit)
    by (rewrite ?Hb'; cbn [length]; lia).
  destruct (S (length buf') - length ms)%nat as [|fuel] eqn:Ef; [lia|]. cbn [msg_loop length Nat.add].
  rewrite (proj2 (Z.ltb_ge _ _)) by lia.
  destruct (rd_header NLMSG_DONE [0; 0; 0; 0]%Z (encode_all ms) (junk' ++ drop (length d) buf) buf') as (bs & -> & ->);
    [by rewrite Hsplit|unfold NLMSG_DONE; lia|cbn; lia|]. done.
Qed.

Lemma dump_read ifindex dgrams : ∀ ms junk rest buf out,
  Forall datagram_wf dgrams -> Forall msg_wf ms -> (length (encode_all ms ++ done_msg) <= BUF_SIZE)%nat -> length buf = BUF_SIZE ->
  recv_dump ifindex ((Received ∘ encode_all <$> dgrams) ++ Received (encode_all ms ++ done_msg ++ junk) :: rest) buf out
  = DumpOk (fold_left (note_msg ifindex) (concat dgrams ++ ms) out).
Proof.
  induction dgrams as [|d dgrams IH]; intros ms junk rest buf out Hd Hm Hl Hb; cbn [fmap list_fmap app concat].
  - by apply last_datagram_read.
  - apply Forall_cons in Hd as [Hd Hds]. destruct (datagram_read ifindex d
      ((Received ∘ encode_all <$> dgrams) ++ Received (encode_all ms ++ done_msg ++ junk) :: rest) buf out Hd Hb) as (buf' & Hb' & E).
    unfold compose in *. rewrite E, IH by done. by rewrite <- app_assoc, (fold_left_app _ d).
Qed.

(** C35: The reader of the kernel's answer, which works on raw bytes, gives for
    every dump, however it is cut into datagrams, exactly the addresses of the
    interface it lists with scope, flags and lifetimes, never leaves its buffer,
    and leaves no socket open. *)
Theorem address_dump_is_exact env now interface fds dgrams ms junk rest :
  contains_char "000"%char interface = false ->
  nl_ifindex env interface ≠ 0%Z ->
  nl_socket env = true -> nl_bind env = true ->
  nl_send env (getaddr_request (nl_ifindex env interface)) = true ->
  nl_recv env = (Received ∘ encode_all <$> dgrams) ++ Received (encode_all ms ++ done_msg ++ junk) :: rest ->
  Forall datagram_wf dgrams -> Forall msg_wf ms -> (length (encode_all ms ++ done_msg) <= BUF_SIZE)%nat ->
  query_ipv6_rtnetlink env now interface fds
  = (fds, QueryOk (to_deadlines now <$> fold_left (note_msg (nl_ifindex env interface)) (concat dgrams ++ ms) ∅)).
Proof.
  intros Hn Hi Hs Hb Hsend Hr Hd Hm Hl. unfold query_ipv6_rtnetlink. rewrite Hn, (proj2 (Z.eqb_neq _ _) Hi), Hs, Hb, Hsend, Hr.
  cbn [negb]. by rewrite dump_read by (done || apply length_replicate).
Qed.

(** ** An example *)

Definition home_ula : list Z := [253; 18; 52; 86; 0; 0; 0; 0; 0; 0; 0; 0; 0; 0; 0; 5]%Z.
Definition home_ifa : IfAddrMsg := mkIfa 10 64 128 0 2.
Definition home_msgs : list NlMsg :=
  [ NewAddr (mkIfa 10 128 128 254 1) [mkAttr IFA_ADDRESS [0;0;0;0;0;0;0;0;0;0;0;0;0;0;0;1]%Z];
    Other NLMSG_NOOP [];
    NewAddr home_ifa [mkAttr IFA_CACHEINFO (to_le 4 3600 ++ to_le 4 7200 ++ to_le 4 0 ++ to_le 4 0); mkAttr 8 [128; 0; 0; 0]%Z;
                      mkAttr IFA_ADDRESS home_ula] ].
Definition home_nl : NlEnv :=
  mkNlEnv (fun _ => 2%Z) true true (fun _ => true) [Received (encode_all home_msgs); Received (encode_all [] ++ done_msg ++ [])].

Lemma home_msgs_wf : Forall msg_wf home_msgs.
Proof.
  assert (∀ t (p : list Z), (0 <= t < 65536)%Z -> (Z.of_nat (length p) < 65532)%Z -> attr_wf (mkAttr t p)) as Ha by done.
  repeat apply Forall_cons_2; [..|apply Forall_nil_2]; cbn [msg_wf].
  - split; [unfold ifa_wf; cbn; lia|]. apply Forall_singleton, Ha; unfold IFA_ADDRESS; cbn; lia.
  - split; [unfold NLMSG_NOOP; lia|]. unfold NLMSG_NOOP, NLMSG_DONE, NLMSG_ERROR, RTM_NEWADDR. set_solver.
  - split; [unfold ifa_wf; cbn; lia|]. repeat apply Forall_cons_2; [..|apply Forall_nil_2]; apply Ha; unfold IFA_ADDRESS, IFA_CACHEINFO; cbn; lia.
Qed.

#[local] Transparent BUF_SIZE.

Lemma home_datagram_wf : datagram_wf home_msgs.
Proof.
  split; [done|]. split; [apply home_msgs_wf|]. apply Nat2Z.inj_le. rewrite buf_size.
  apply Z.leb_le. vm_compute. reflexivity.
Qed.

Definition home_dump : DumpMap := {["fd12:3456::5" := (Some 0%Z, Some 8200%Z, Some 4600%Z, Some 128%Z)]}.

Lemma address_dump_is_exact_witness : query_ipv6_rtnetlink home_nl 1000 "eth0" 0 = (0%nat, QueryOk home_dump).
Proof.
  rewrite (address_dump_is_exact home_nl 1000 "eth0" 0 [home_msgs] [] [] []); try reflexivity || discriminate.
  - apply Forall_singleton, home_datagram_wf.
  - constructor.
  - apply Nat2Z.inj_le. rewrite buf_size. apply Z.leb_le. vm_compute. reflexivity.
Defined.

(** ** What goes wrong *)

(** An error while the answers are read leaves the socket open. *)
Lemma failed_dump_leaks_socket now interface fds :
  query_ipv6_rtnetlink (mkNlEnv (fun _ => 2%Z) true true (fun _ => true) [RecvError]) now interface fds
  = if contains_char "000"%char interface then (fds, QueryPanics) else (S fds, QueryErr).
Proof. unfold query_ipv6_rtnetlink. by destruct (contains_char _ _). Qed.

(** Lengths in the messages are not compared with what was received: an address
    message that claims more attributes than there are is followed into what an
    earlier datagram left, here to an address that is not in the answer. *)
Definition claims_too_much : list Z :=
  nlmsghdr_bytes (mkHdr 44 RTM_NEWADDR 2 1 0) ++ ifaddrmsg_bytes home_ifa.

Lemma stale_bytes_become_addresses :
  msg_loop 10 2 (claims_too_much ++ encode_attr (mkAttr IFA_ADDRESS home_ula)) 24 0 ∅
  = Some (NextDatagram, {["fd12:3456::5" := (Some 0%Z, None, None, Some 128%Z)]}).
Proof. vm_compute. reflexivity. Qed.

Lemma long_length_leaves_buffer :
  msg_loop 10 2 (nlmsghdr_bytes (mkHdr 1000 RTM_NEWADDR 2 1 0) ++ ifaddrmsg_bytes home_ifa ++ encode_attr (mkAttr 8 [1; 2; 3; 4]%Z)) 32 0 ∅ = None.
Proof. vm_compute. reflexivity. Qed.
