(* ===== verification/DhcpLeases.v ===== *)
(** * DHCP leases (network/mod.rs)

    The lease of an interface as clients see it: what udhcpc wrote, completed with
    what the system says at the moment.  The crate that fills the fields from
    pairs of strings is a parameter; the names of the fields and how their text
    is read are the source's.  Times are seconds. *)

From S2P Require Import Prelude Text Words NetAdapter IpAddr.

Record DhcpLease := mkLease {
  l_ip : option string;
  l_netmask : option string;
  l_broadcast : option string;
  l_ttl : option Z;
  l_mtu : option Z;
  l_hostname : option string;
  l_domain : option string;
  l_bootp_next_server : option string;
  l_bootp_server_name : option string;
  l_bootp_file : option string;
  l_timezone : option string;
  l_routers : option (list string);
  l_dns_servers : option (list string);
  l_ntp_servers : option (list string);
  l_lpr_servers : option (list string);
  l_time_servers : option (list string);
  l_name_servers : option (list string);
  l_log_servers : option (list string);
  l_cookie_servers : option (list string);
  l_wins_servers : option (list string);
  l_swap_server : option string;
  l_bootsize : option Z;
  l_root_path : option string;
  l_lease : option Z;
  l_dhcp_type : option string;
  l_server_id : option string;
  l_reason : option string;
  l_tftp : option string;
  l_bootfile : option string;
  l_uptime : option Z;
  l_lease_expiry : option Z;
  l_is_empty : option (gmap string bool);
  l_ipv4_addresses : option (list string) }.

Definition set_netmask x l := mkLease (l_ip l) x (l_broadcast l) (l_ttl l) (l_mtu l) (l_hostname l) (l_domain l) (l_bootp_next_server l) (l_bootp_server_name l) (l_bootp_file l) (l_timezone l) (l_routers l) (l_dns_servers l) (l_ntp_servers l) (l_lpr_servers l) (l_time_servers l) (l_name_servers l) (l_log_servers l) (l_cookie_servers l) (l_wins_servers l) (l_swap_server l) (l_bootsize l) (l_root_path l) (l_lease l) (l_dhcp_type l) (l_server_id l) (l_reason l) (l_tftp l) (l_bootfile l) (l_uptime l) (l_lease_expiry l) (l_is_empty l) (l_ipv4_addresses l).
Definition set_routers x l := mkLease (l_ip l) (l_netmask l) (l_broadcast l) (l_ttl l) (l_mtu l) (l_hostname l) (l_domain l) (l_bootp_next_server l) (l_bootp_server_name l) (l_bootp_file l) (l_timezone l) x (l_dns_servers l) (l_ntp_servers l) (l_lpr_servers l) (l_time_servers l) (l_name_servers l) (l_log_servers l) (l_cookie_servers l) (l_wins_servers l) (l_swap_server l) (l_bootsize l) (l_root_path l) (l_lease l) (l_dhcp_type l) (l_server_id l) (l_reason l) (l_tftp l) (l_bootfile l) (l_uptime l) (l_lease_expiry l) (l_is_empty l) (l_ipv4_addresses l).
Definition set_server_id x l := mkLease (l_ip l) (l_netmask l) (l_broadcast l) (l_ttl l) (l_mtu l) (l_hostname l) (l_domain l) (l_bootp_next_server l) (l_bootp_server_name l) (l_bootp_file l) (l_timezone l) (l_routers l) (l_dns_servers l) (l_ntp_servers l) (l_lpr_servers l) (l_time_servers l) (l_name_servers l) (l_log_servers l) (l_cookie_servers l) (l_wins_servers l) (l_swap_server l) (l_bootsize l) (l_root_path l) (l_lease l) (l_dhcp_type l) x (l_reason l) (l_tftp l) (l_bootfile l) (l_uptime l) (l_lease_expiry l) (l_is_empty l) (l_ipv4_addresses l).
Definition set_bootp_next_server x l := mkLease (l_ip l) (l_netmask l) (l_broadcast l) (l_ttl l) (l_mtu l) (l_hostname l) (l_domain l) x (l_bootp_server_name l) (l_bootp_file l) (l_timezone l) (l_routers l) (l_dns_servers l) (l_ntp_servers l) (l_lpr_servers l) (l_time_servers l) (l_name_servers l) (l_log_servers l) (l_cookie_servers l) (l_wins_servers l) (l_swap_server l) (l_bootsize l) (l_root_path l) (l_lease l) (l_dhcp_type l) (l_server_id l) (l_reason l) (l_tftp l) (l_bootfile l) (l_uptime l) (l_lease_expiry l) (l_is_empty l) (l_ipv4_addresses l).
Definition set_lease_expiry x l := mkLease (l_ip l) (l_netmask l) (l_broadcast l) (l_ttl l) (l_mtu l) (l_hostname l) (l_domain l) (l_bootp_next_server l) (l_bootp_server_name l) (l_bootp_file l) (l_timezone l) (l_routers l) (l_dns_servers l) (l_ntp_servers l) (l_lpr_servers l) (l_time_servers l) (l_name_servers l) (l_log_servers l) (l_cookie_servers l) (l_wins_servers l) (l_swap_server l) (l_bootsize l) (l_root_path l) (l_lease l) (l_dhcp_type l) (l_server_id l) (l_reason l) (l_tftp l) (l_bootfile l) (l_uptime l) x (l_is_empty l) (l_ipv4_addresses l).
Definition set_is_empty x l := mkLease (l_ip l) (l_netmask l) (l_broadcast l) (l_ttl l) (l_mtu l) (l_hostname l) (l_domain l) (l_bootp_next_server l) (l_bootp_server_name l) (l_bootp_file l) (l_timezone l) (l_routers l) (l_dns_servers l) (l_ntp_servers l) (l_lpr_servers l) (l_time_servers l) (l_name_servers l) (l_log_servers l) (l_cookie_servers l) (l_wins_servers l) (l_swap_server l) (l_bootsize l) (l_root_path l) (l_lease l) (l_dhcp_type l) (l_server_id l) (l_reason l) (l_tftp l) (l_bootfile l) (l_uptime l) (l_lease_expiry l) x (l_ipv4_addresses l).

(** ** Fields read from text *)

(** The fields that are read from text. *)
Inductive LeaseField : Set :=
| F_ip | F_netmask | F_broadcast | F_ttl | F_mtu | F_hostname | F_domain | F_bootp_next_server | F_bootp_server_name | F_bootp_file | F_timezone | F_routers | F_dns_servers | F_ntp_servers | F_lpr_servers | F_time_servers | F_name_servers | F_log_servers | F_cookie_servers | F_wins_servers | F_swap_server | F_bootsize | F_root_path | F_lease | F_dhcp_type | F_server_id | F_reason | F_tftp | F_bootfile | F_uptime.

#[export] Instance LeaseField_eq_dec : EqDecision LeaseField.
Proof. solve_decision. Defined.

(** Names and aliases. *)
Definition field_names : list (string * LeaseField) :=
  [("ip", F_ip); ("netmask", F_netmask); ("subnet", F_netmask); ("broadcast", F_broadcast); ("ttl", F_ttl); 
   ("ipttl", F_ttl); ("mtu", F_mtu); ("hostname", F_hostname); ("domain", F_domain); 
   ("bootp_next_server", F_bootp_next_server); ("siaddr", F_bootp_next_server); 
   ("bootp_server_name", F_bootp_server_name); ("sname", F_bootp_server_name); ("bootp_file", F_bootp_file); 
   ("boot_file", F_bootp_file); ("timezone", F_timezone); ("routers", F_routers); ("router", F_routers); 
   ("dns_servers", F_dns_servers); ("dns", F_dns_servers); ("ntp_servers", F_ntp_servers); 
   ("ntpsrv", F_ntp_servers); ("lpr_servers", F_lpr_servers); ("lprsvr", F_lpr_servers); 
   ("_time_servers", F_time_servers); ("timesvr", F_time_servers); ("_name_servers", F_name_servers); 
   ("namesvr", F_name_servers); ("_log_servers", F_log_servers); ("logsvr", F_log_servers); 
   ("_cookie_servers", F_cookie_servers); ("cookiesvr", F_cookie_servers); ("_wins_servers", F_wins_servers); 
   ("wins", F_wins_servers); ("_swap_server", F_swap_server); ("swapsvr", F_swap_server); 
   ("bootsize", F_bootsize); ("root_path", F_root_path); ("rootpath", F_root_path); ("lease", F_lease); 
   ("dhcp_type", F_dhcp_type); ("dhcptype", F_dhcp_type); ("server_id", F_server_id); ("serverid", F_server_id); 
   ("reason", F_reason); ("message", F_reason); ("tftp", F_tftp); ("bootfile", F_bootfile); ("uptime", F_uptime)].

Definition field_of_key (key : string) : option LeaseField :=
  snd <$> List.find (fun p => String.eqb p.1 key) field_names.

(** What the crate hands over. *)
Record RawLease := mkRaw {
  raw_text : LeaseField -> option string;
  raw_lease_expiry : option Z;
  raw_ipv4_addresses : option (list string) }.

(** [str::parse::<i32>]. *)
Definition parse_i32 (s : string) : option Z :=
  match parse_i64 s with
  | Some z => if ((-2147483648 <=? z) && (z <=? 2147483647))%Z then Some z else None
  | None => None
  end.

(** [None]: an error. *)
Definition de_opt {A} (read : string -> option A) (opt : option string) : option (option A) :=
  match opt with
  | None => Some None
  | Some s => if is_empty (trim s) then Some None else Some <$> read s
  end.

Definition split_space (s : string) : list string := split_whitespace s.

Definition de_opt_string_from_str : option string -> option (option string) := de_opt Some.
Definition de_opt_i32_from_str : option string -> option (option Z) := de_opt (fun s => parse_i32 (trim s)).
Definition de_opt_u64_from_str : option string -> option (option Z) := de_opt (fun s => parse_u64 (trim s)).

Definition de_space_vec_opt (opt : option string) : option (option (list string)) :=
  match opt with
  | None => Some None
  | Some s => if is_empty (trim s) then Some None
              else match split_space s with [] => Some None | vec => Some (Some vec) end
  end.

Definition lease_of_raw (r : RawLease) : option DhcpLease :=
  xip ← de_opt_string_from_str (raw_text r F_ip);
  xnetmask ← de_opt_string_from_str (raw_text r F_netmask);
  xbroadcast ← de_opt_string_from_str (raw_text r F_broadcast);
  xttl ← de_opt_i32_from_str (raw_text r F_ttl);
  xmtu ← de_opt_i32_from_str (raw_text r F_mtu);
  xhostname ← de_opt_string_from_str (raw_text r F_hostname);
  xdomain ← de_opt_string_from_str (raw_text r F_domain);
  xbootp_next_server ← de_opt_string_from_str (raw_text r F_bootp_next_server);
  xbootp_server_name ← de_opt_string_from_str (raw_text r F_bootp_server_name);
  xbootp_file ← de_opt_string_from_str (raw_text r F_bootp_file);
  xtimezone ← de_opt_string_from_str (raw_text r F_timezone);
  xrouters ← de_space_vec_opt (raw_text r F_routers);
  xdns_servers ← de_space_vec_opt (raw_text r F_dns_servers);
  xntp_servers ← de_space_vec_opt (raw_text r F_ntp_servers);
  xlpr_servers ← de_space_vec_opt (raw_text r F_lpr_servers);
  xtime_servers ← de_space_vec_opt (raw_text r F_time_servers);
  xname_servers ← de_space_vec_opt (raw_text r F_name_servers);
  xlog_servers ← de_space_vec_opt (raw_text r F_log_servers);
  xcookie_servers ← de_space_vec_opt (raw_text r F_cookie_servers);
  xwins_servers ← de_space_vec_opt (raw_text r F_wins_servers);
  xswap_server ← de_opt_string_from_str (raw_text r F_swap_server);
  xbootsize ← de_opt_i32_from_str (raw_text r F_bootsize);
  xroot_path ← de_opt_string_from_str (raw_text r F_root_path);
  xlease ← de_opt_u64_from_str (raw_text r F_lease);
  xdhcp_type ← de_opt_string_from_str (raw_text r F_dhcp_type);
  xserver_id ← de_opt_string_from_str (raw_text r F_server_id);
  xreason ← de_opt_string_from_str (raw_text r F_reason);
  xtftp ← de_opt_string_from_str (raw_text r F_tftp);
  xbootfile ← de_opt_string_from_str (raw_text r F_bootfile);
  xuptime ← de_opt_u64_from_str (raw_text r F_uptime);
  Some (mkLease xip xnetmask xbroadcast xttl xmtu xhostname xdomain xbootp_next_server xbootp_server_name xbootp_file xtimezone xrouters xdns_servers xntp_servers xlpr_servers xtime_servers xname_servers xlog_servers xcookie_servers xwins_servers xswap_server xbootsize xroot_path xlease xdhcp_type xserver_id xreason xtftp xbootfile xuptime (raw_lease_expiry r) None (raw_ipv4_addresses r)).

(** ** The file of udhcpc *)

Definition is_ident_start (a : ascii) : bool :=
  let n := byte_of a in ((65 <=? n) && (n <=? 90) || (97 <=? n) && (n <=? 122) || (n =? 95))%Z.
Definition is_ident (a : ascii) : bool := is_ident_start a || is_digit a.

Fixpoint span_ident (s : string) : string * string :=
  match s with
  | String a s' => if is_ident a then let '(k, r) := span_ident s' in (String a k, r) else ("", s)
  | EmptyString => ("", "")
  end.

Definition ident_and_value (s : string) : option (string * string) :=
  match s with
  | String a _ => if is_ident_start a then
                    match span_ident s with (k, String "=" v) => Some (k, v) | _ => None end
                  else None
  | EmptyString => None
  end.

(** [LINE_REGEX] on a line: an optional [export] and white space, a name, the
    rest after the sign. *)
Definition line_captures (line : string) : option (string * string) :=
  let exported := match strip_prefix "export" line with
                  | Some r => if String.eqb (trim_start r) r then None else ident_and_value (trim_start r)
                  | None => None
                  end in
  match exported with Some c => Some c | None => ident_and_value line end.

Definition DQ : ascii := "034"%char.
Definition SQ : ascii := "039"%char.

Definition quoted_by (q : ascii) (s : string) : bool := starts_with (String q "") s && ends_with (String q "") s.

Definition unquote (raw : string) : string :=
  if (2 <=? String.length raw)%nat && (quoted_by DQ raw || quoted_by SQ raw)
  then String.substring 1 (String.length raw - 2) raw else raw.

Definition parse_udhcpc_line (line : string) : option (string * string) :=
  let line := trim line in
  if is_empty line || starts_with "#" line then None
  else match line_captures line with
       | None => None
       | Some (key, v) => if is_empty key then None else Some (to_ascii_lowercase key, unquote (trim v))
       end.

Definition parse_udhcpc_info (content : string) : list (string * string) := omap parse_udhcpc_line (lines content).

(** ** Checks and completion *)

Definition sanitize_dhcp_lease_ipv4_fields (l : DhcpLease) : DhcpLease :=
  let l := match l_routers l with
           | Some routers => let routers := List.filter check_valid_ipv4 routers in
                             set_routers (match routers with [] => None | _ => Some routers end) l
           | None => l
           end in
  let l := match l_server_id l with
           | Some v => if check_valid_ipv4 v then l else set_server_id None l
           | None => l
           end in
  match l_bootp_next_server l with
  | Some v => if check_valid_ipv4 v then l else set_bootp_next_server None l
  | None => l
  end.

Definition first_router (l : DhcpLease) : option string := match l_routers l with Some (r :: _) => Some r | _ => None end.

Definition fill_dhcp_lease_gateway_fallbacks (l : DhcpLease) : DhcpLease :=
  let l := sanitize_dhcp_lease_ipv4_fields l in
  let l := match l_server_id l with None => set_server_id (first_router l) l | Some _ => l end in
  match l_bootp_next_server l with None => set_bootp_next_server (l_server_id l) l | Some _ => l end.

Definition is_none_str (o : option string) : bool := match o with Some s => is_empty s | None => true end.
Definition is_none_num (o : option Z) : bool := match o with Some _ => false | None => true end.
Definition is_none_vec (o : option (list string)) : bool := match o with Some (_ :: _) => false | _ => true end.

(** The keys the client knows the fields by. *)
Definition empty_entries (l : DhcpLease) : list (string * bool) :=
  [("ip", is_none_str (l_ip l));
   ("subnet", is_none_str (l_netmask l));
   ("broadcast", is_none_str (l_broadcast l));
   ("ttl", is_none_num (l_ttl l));
   ("mtu", is_none_num (l_mtu l));
   ("hostname", is_none_str (l_hostname l));
   ("domain", is_none_str (l_domain l));
   ("siaddr", is_none_str (l_bootp_next_server l));
   ("sname", is_none_str (l_bootp_server_name l));
   ("boot_file", is_none_str (l_bootp_file l));
   ("timezone", is_none_str (l_timezone l));
   ("router", is_none_vec (l_routers l));
   ("dns", is_none_vec (l_dns_servers l));
   ("ntpsrv", is_none_vec (l_ntp_servers l));
   ("lprsvr", is_none_vec (l_lpr_servers l));
   ("timesvr", is_none_vec (l_time_servers l));
   ("namesvr", is_none_vec (l_name_servers l));
   ("logsvr", is_none_vec (l_log_servers l));
   ("cookiesvr", is_none_vec (l_cookie_servers l));
   ("wins", is_none_vec (l_wins_servers l));
   ("swapsvr", is_none_str (l_swap_server l));
   ("bootsize", is_none_num (l_bootsize l));
   ("rootpath", is_none_str (l_root_path l));
   ("lease", is_none_num (l_lease l));
   ("dhcptype", is_none_str (l_dhcp_type l));
   ("serverid", is_none_str (l_server_id l));
   ("message", is_none_str (l_reason l));
   ("tftp", is_none_str (l_tftp l));
   ("bootfile", is_none_str (l_bootfile l));
   ("uptime", is_none_num (l_uptime l));
   ("lease_expiry", is_none_num (l_lease_expiry l))].

Definition build_is_empty_map (l : DhcpLease) : gmap string bool := list_to_map (empty_entries l).

Definition merge_option {A} (dst src : option A) : option A := match dst with None => src | Some _ => dst end.

Definition merge_option_vec (dst src : option (list string)) : option (list string) :=
  match dst with Some (_ :: _) => dst | _ => src end.

(** Field by field. *)
Definition merged_fields (p f : DhcpLease) : DhcpLease :=
  mkLease
    (merge_option (l_ip p) (l_ip f))
    (merge_option (l_netmask p) (l_netmask f))
    (merge_option (l_broadcast p) (l_broadcast f))
    (merge_option (l_ttl p) (l_ttl f))
    (merge_option (l_mtu p) (l_mtu f))
    (merge_option (l_hostname p) (l_hostname f))
    (merge_option (l_domain p) (l_domain f))
    (merge_option (l_bootp_next_server p) (l_bootp_next_server f))
    (merge_option (l_bootp_server_name p) (l_bootp_server_name f))
    (merge_option (l_bootp_file p) (l_bootp_file f))
    (merge_option (l_timezone p) (l_timezone f))
    (merge_option_vec (l_routers p) (l_routers f))
    (merge_option_vec (l_dns_servers p) (l_dns_servers f))
    (merge_option_vec (l_ntp_servers p) (l_ntp_servers f))
    (merge_option_vec (l_lpr_servers p) (l_lpr_servers f))
    (merge_option_vec (l_time_servers p) (l_time_servers f))
    (merge_option_vec (l_name_servers p) (l_name_servers f))
    (merge_option_vec (l_log_servers p) (l_log_servers f))
    (merge_option_vec (l_cookie_servers p) (l_cookie_servers f))
    (merge_option_vec (l_wins_servers p) (l_wins_servers f))
    (merge_option (l_swap_server p) (l_swap_server f))
    (merge_option (l_bootsize p) (l_bootsize f))
    (merge_option (l_root_path p) (l_root_path f))
    (merge_option (l_lease p) (l_lease f))
    (merge_option (l_dhcp_type p) (l_dhcp_type f))
    (merge_option (l_server_id p) (l_server_id f))
    (merge_option (l_reason p) (l_reason f))
    (merge_option (l_tftp p) (l_tftp f))
    (merge_option (l_bootfile p) (l_bootfile f))
    (merge_option (l_uptime p) (l_uptime f))
    (merge_option (l_lease_expiry p) (l_lease_expiry f))
    (l_is_empty p)
    (merge_option_vec (l_ipv4_addresses p) (l_ipv4_addresses f)).

Definition finish_lease (l : DhcpLease) : DhcpLease :=
  let l := fill_dhcp_lease_gateway_fallbacks l in set_is_empty (Some (build_is_empty_map l)) l.

Definition merge_dhcp_leases (primary fallback : option DhcpLease) : option DhcpLease :=
  match primary, fallback with
  | None, None => None
  | None, Some f => Some (finish_lease f)
  | Some p, None => Some (finish_lease p)
  | Some p, Some f =>
      let fallback_server_id := l_server_id f in
      let fallback_bootp := l_bootp_next_server f in
      let p := merged_fields p f in
      let p := match l_server_id p with
               | None => set_server_id (match first_router p with Some r => Some r | None => fallback_server_id end) p
               | Some _ => p
               end in
      let p := match l_bootp_next_server p with
               | None => set_bootp_next_server (match l_server_id p with Some s => Some s | None => fallback_bootp end) p
               | Some _ => p
               end in
      Some (finish_lease p)
  end.

(** ** The system

    [ip_cmd]: the output of the tool [ip] when it succeeds; [read_file]: a file as
    text; [parse_uptime]: a decimal number cut to an integer
    ([parse::<f64>] and [as i64]); [from_iter]: the crate [envy]. *)

Record Ipv4IfaceEntry := mkEntry { e_ip : string; e_prefix : Z }.

Definition parse_u8 : string -> option Z := parse_unsigned 10 u8_max digit_of.

(** [as i64] on an unsigned value. *)
Definition as_i64 (z : Z) : Z := if (z <=? i64_max)%Z then z else (z - 18446744073709551616)%Z.

Definition parse_addr_line (line : string) : option Ipv4IfaceEntry :=
  let parts := split_whitespace line in
  match list_find (eq "inet") parts with
  | None => None
  | Some (inet_idx, _) =>
      cidr ← parts !! S inet_idx;
      match split_once "/" cidr with
      | None => None
      | Some (ip, prefix) => mkEntry ip <$> parse_u8 prefix
      end
  end.

Definition parse_via_gateway (line : string) : option string :=
  let parts := split_whitespace line in
  match list_find (eq "via") parts with
  | None => None
  | Some (idx, _) => gw ← parts !! S idx; if check_valid_ipv4 gw then Some gw else None
  end.

(** The first line that has one. *)
Definition first_of {A} (f : string -> option A) (ls : list string) : option A := head (omap f ls).

(** [None] in the middle: the question mark leaves the whole function. *)
Fixpoint domain_in (ls : list string) : option string :=
  match ls with
  | [] => None
  | line :: ls =>
      let line := trim line in
      match strip_prefix "search " line with
      | Some rest => head (split_whitespace rest)
      | None =>
          match strip_prefix "domain " line with
          | Some rest => head (split_whitespace rest)
          | None => domain_in ls
          end
      end
  end.

Definition some_list {A} (l : list A) : option (list A) := match l with [] => None | _ => Some l end.

Section system.
Context (ip_cmd : list string -> option string) (read_file : string -> option string)
        (parse_uptime : string -> option Z)
        (from_iter : (string -> option LeaseField) -> list (string * string) -> option RawLease)
        (now : Z).

Definition get_ipv4_entries_via_ip (interface_name : string) : list Ipv4IfaceEntry :=
  match ip_cmd ["-4"; "-o"; "addr"; "show"; "dev"; interface_name] with
  | Some stdout => omap parse_addr_line (lines stdout)
  | None => []
  end.

Definition get_ipv4_addresses_via_ip (interface_name : string) : list string :=
  e_ip <$> get_ipv4_entries_via_ip interface_name.

Definition via_cmd (args : list string) : option string :=
  match ip_cmd args with Some stdout => first_of parse_via_gateway (lines stdout) | None => None end.

(** The second answer is read as one line. *)
Definition get_gateway_for_interface (interface_name src_ip : string) : option string :=
  match via_cmd ["route"; "show"; "default"; "dev"; interface_name] with
  | Some gw => Some gw
  | None =>
      match (match ip_cmd ["route"; "get"; "1.0.0.1"; "from"; src_ip; "iif"; interface_name] with
             | Some line => parse_via_gateway line | None => None end) with
      | Some gw => Some gw
      | None => via_cmd ["route"; "show"; "default"]
      end
  end.

Definition read_dns_servers_from_resolv_conf : option (list string) :=
  match read_file "/etc/resolv.conf" with
  | None => None
  | Some content =>
      some_list (List.filter (fun s => negb (is_empty s))
        (omap (fun line => trim <$> strip_prefix "nameserver " (trim line)) (lines content)))
  end.

Definition read_ipv4_dns_servers_from_resolv_conf : option (list string) :=
  match read_dns_servers_from_resolv_conf with
  | None => None
  | Some servers => some_list (List.filter (fun s => match parse_ipv4 s with Some _ => true | None => false end) servers)
  end.

Definition read_domain_from_resolv_conf : option string :=
  match read_file "/etc/resolv.conf" with Some content => domain_in (lines content) | None => None end.

Definition read_system_hostname : option string :=
  match read_file "/etc/hostname" with
  | Some content => if is_empty (trim content) then None else Some (trim content)
  | None => None
  end.

Definition get_system_uptime_seconds : option Z :=
  match read_file "/proc/uptime" with
  | Some content => match split_whitespace content with first :: _ => parse_uptime first | [] => None end
  | None => None
  end.

Definition read_udhcpc_info_file (interface_name : string) : option string :=
  first_of (fun path => match read_file path with
                        | Some content => if is_empty (trim content) then None else Some content
                        | None => None
                        end)
    ["/run/udhcpc." +:+ interface_name +:+ ".info"; "/var/run/udhcpc." +:+ interface_name +:+ ".info"].

(** When the lease runs out, from the time it was obtained at. *)
Definition lease_expiry (l : DhcpLease) : option Z :=
  match l_lease l with
  | None => l_lease_expiry l
  | Some lease_secs =>
      match l_uptime l with
      | Some obtain_uptime =>
          match get_system_uptime_seconds with
          | Some current_uptime =>
              let elapsed := (current_uptime - as_i64 obtain_uptime)%Z in
              Some (now - Z.max elapsed 0 + as_i64 lease_secs)%Z
          | None => Some (now + as_i64 lease_secs)%Z
          end
      | None => Some (now + as_i64 lease_secs)%Z
      end
  end.

(** Every field but the expiry and the list of addresses. *)
Definition has_any (l : DhcpLease) : bool :=
  let some_str (o : option string) := negb (bool_decide (o = None)) in
  let some_num (o : option Z) := negb (bool_decide (o = None)) in
  let some_vec (o : option (list string)) := negb (is_none_vec o) in
  existsb some_str [l_ip l; l_netmask l; l_broadcast l; l_hostname l; l_domain l; l_bootp_next_server l; l_bootp_server_name l;
                    l_bootp_file l; l_timezone l; l_swap_server l; l_root_path l; l_dhcp_type l; l_server_id l; l_reason l;
                    l_tftp l; l_bootfile l]
  || existsb some_num [l_ttl l; l_mtu l; l_bootsize l; l_lease l; l_uptime l]
  || existsb some_vec [l_routers l; l_dns_servers l; l_ntp_servers l; l_lpr_servers l; l_time_servers l; l_name_servers l;
                       l_log_servers l; l_cookie_servers l; l_wins_servers l].

Definition parse_dhcp_lease_from_info (content : string) : option DhcpLease :=
  match parse_udhcpc_info content with
  | [] => None
  | parsed_pairs =>
      raw ← from_iter field_of_key parsed_pairs;
      lease ← lease_of_raw raw;
      let lease := match l_netmask lease with
                   | Some m => match parse_u8 m with
                               | Some prefix => set_netmask (Some (cidr_to_netmask prefix)) lease
                               | None => lease
                               end
                   | None => lease
                   end in
      let lease := sanitize_dhcp_lease_ipv4_fields lease in
      if negb (has_any lease) then None
      else
        let lease := set_lease_expiry (lease_expiry lease) lease in
        Some (set_is_empty (Some (build_is_empty_map lease)) lease)
  end.

Definition build_dhcp_lease_from_runtime (interface_name : string) : option DhcpLease :=
  let entries := get_ipv4_entries_via_ip interface_name in
  match entries with
  | [] => None
  | primary :: _ =>
      let netmask := cidr_to_netmask (e_prefix primary) in
      let broadcast := ipv4_broadcast (e_ip primary) (e_prefix primary) in
      let gateway := get_gateway_for_interface interface_name (e_ip primary) in
      let lease :=
        mkLease (Some (e_ip primary)) (Some netmask) broadcast None None read_system_hostname read_domain_from_resolv_conf
          gateway None None None ((fun gw => [gw]) <$> gateway) read_ipv4_dns_servers_from_resolv_conf
          None None None None None None None None None None None None gateway None None None None None None
          (Some (e_ip <$> entries)) in
      Some (set_is_empty (Some (build_is_empty_map lease)) lease)
  end.

Definition read_dhcp_lease_from_udhcpc_info (interface_name : string) : option DhcpLease :=
  content ← read_udhcpc_info_file interface_name; parse_dhcp_lease_from_info content.

Definition get_dhcp_lease (interface_name : string) : option DhcpLease :=
  let from_file := match read_udhcpc_info_file interface_name with
                   | Some content => parse_dhcp_lease_from_info content
                   | None => None
                   end in
  merge_dhcp_leases from_file (build_dhcp_lease_from_runtime interface_name).

End system.

(** * What is shown of a lease *)

(** ** Gateways *)

Definition gateway_valid (o : option string) : Prop := ∀ s, o = Some s -> check_valid_ipv4 s = true.

(** Nothing but addresses where clients expect addresses. *)
Definition lease_clean (l : DhcpLease) : Prop :=
  (∀ rs, l_routers l = Some rs -> rs ≠ [] /\ Forall (fun r => check_valid_ipv4 r = true) rs)
  /\ gateway_valid (l_server_id l) /\ gateway_valid (l_bootp_next_server l).

(** The three fields change, the others do not. *)
Definition but_gateways (l : DhcpLease) : DhcpLease := set_bootp_next_server None (set_server_id None (set_routers None l)).

Lemma filter_valid rs : Forall (fun r => check_valid_ipv4 r = true) (List.filter check_valid_ipv4 rs).
Proof. apply List.Forall_forall. by intros r [_ Hr]%filter_In. Qed.

Lemma filter_all_valid rs : Forall (fun r => check_valid_ipv4 r = true) rs -> List.filter check_valid_ipv4 rs = rs.
Proof. induction 1 as [|r rs Hr _ IH]; [done|]. cbn. by rewrite Hr, IH. Qed.

(** What the check makes of the fields. *)
Definition kept_routers (o : option (list string)) : option (list string) := match o with Some rs => some_list (List.filter check_valid_ipv4 rs) | None => None end.
Definition kept_gateway (o : option string) : option string := match o with Some v => if check_valid_ipv4 v then Some v else None | None => None end.

Lemma sanitize_spec l :
  sanitize_dhcp_lease_ipv4_fields l
  = set_bootp_next_server (kept_gateway (l_bootp_next_server l))
      (set_server_id (kept_gateway (l_server_id l)) (set_routers (kept_routers (l_routers l)) l)).
Proof.
  destruct l. unfold sanitize_dhcp_lease_ipv4_fields, kept_routers, kept_gateway. cbn.
  repeat (match goal with |- context [match ?o with Some _ => _ | None => _ end] => is_var o; destruct o; cbn end);
    repeat (match goal with |- context [if ?b then _ else _] => destruct b; cbn end); done.
Qed.

Lemma kept_gateway_valid o : gateway_valid (kept_gateway o).
Proof. intros s. destruct o as [v|]; cbn; [|done]. destruct (check_valid_ipv4 v) eqn:E; [by intros [= <-]|done]. Qed.

Lemma kept_gateway_id o : gateway_valid o -> kept_gateway o = o.
Proof. destruct o as [v|]; [|done]. intros H. cbn. by rewrite (H v eq_refl). Qed.

Lemma sanitize_clean l : lease_clean (sanitize_dhcp_lease_ipv4_fields l).
Proof.
  rewrite sanitize_spec. split_and!; [|apply kept_gateway_valid..].
  intros rs. cbn. unfold kept_routers. destruct (l_routers l) as [r|]; [|done].
  pose proof (filter_valid r) as Hf. destruct (List.filter check_valid_ipv4 r) as [|x xs]; [done|]. by intros [= <-].
Qed.

Lemma sanitize_id l : lease_clean l -> sanitize_dhcp_lease_ipv4_fields l = l.
Proof.
  intros (Hr & Hs & Hb). rewrite sanitize_spec, !kept_gateway_id by done. assert (kept_routers (l_routers l) = l_routers l) as ->; [|by destruct l].
  unfold kept_routers. destruct (l_routers l) as [rs|]; [|done]. destruct (Hr rs eq_refl) as [Hne Hv].
  rewrite filter_all_valid by done. by destruct rs.
Qed.

Lemma first_router_valid l : lease_clean l -> gateway_valid (first_router l).
Proof.
  intros (H & _) g. unfold first_router. destruct (l_routers l) as [[|r rs]|] eqn:E; try done. intros [= <-].
  destruct (H _ eq_refl) as [_ Hv]. by apply Forall_inv in Hv.
Qed.

Lemma set_server_clean x l : gateway_valid x -> lease_clean l -> lease_clean (set_server_id x l).
Proof. intros Hx (H1 & _ & H3). by destruct l. Qed.

Lemma set_bootp_clean x l : gateway_valid x -> lease_clean l -> lease_clean (set_bootp_next_server x l).
Proof. intros Hx (H1 & H2 & _). by destruct l. Qed.

(** What a client can rely on. *)
Definition lease_shown (l : DhcpLease) : Prop :=
  lease_clean l
  /\ (is_Some (l_routers l) -> is_Some (l_server_id l))
  /\ (is_Some (l_server_id l) -> is_Some (l_bootp_next_server l))
  /\ ∃ m, l_is_empty l = Some m /\ ∀ key b, (key, b) ∈ empty_entries l -> m !! key = Some b.

Lemma empty_keys l : NoDup (empty_entries l).*1.
Proof. apply (bool_decide_unpack _). vm_compute. exact I. Qed.

Lemma finish_shown l : lease_shown (finish_lease l).
Proof.
  unfold finish_lease, fill_dhcp_lease_gateway_fallbacks.
  pose proof (sanitize_clean l) as Hc. set (s := sanitize_dhcp_lease_ipv4_fields l) in *. clearbody s. clear l.
  set (l1 := match l_server_id s with None => set_server_id (first_router s) s | Some _ => s end).
  set (l2 := match l_bootp_next_server l1 with None => set_bootp_next_server (l_server_id l1) l1 | Some _ => l1 end).
  assert (lease_clean l2 /\ (is_Some (l_routers l2) -> is_Some (l_server_id l2))
          /\ (is_Some (l_server_id l2) -> is_Some (l_bootp_next_server l2))) as (H1 & H2 & H3).
  { pose proof (first_router_valid s Hc) as Hf. destruct Hc as (Hr & Hs & Hb).
    assert (is_Some (l_routers s) -> is_Some (first_router s)) as Hfs.
    { unfold first_router. intros [rs E]. rewrite E. destruct (Hr _ E) as [Hne _]. by destruct rs. }
    unfold l2, l1. destruct (l_server_id s) eqn:E1, (l_bootp_next_server s) eqn:E2; cbn; rewrite ?E1, ?E2; cbn; unfold lease_clean; cbn; rewrite ?E1, ?E2; naive_solver. }
  assert (∀ m, lease_clean (set_is_empty m l2)) as H4 by (intros m; destruct l2; exact H1).
  split; [apply H4|]. split; [by destruct l2|]. split; [by destruct l2|].
  exists (build_is_empty_map l2). split; [done|]. intros key b Hk. unfold build_is_empty_map.
  apply elem_of_list_to_map; [apply empty_keys|by destruct l2].
Qed.

Lemma merge_shown p f l : merge_dhcp_leases p f = Some l -> lease_shown l.
Proof. destruct p as [p|], f as [f|]; cbn; [intros [= <-]..|done]; apply finish_shown. Qed.

(** ** Which source a field comes from *)

Inductive Value : Type := VText (s : string) | VNum (z : Z) | VList (l : list string).

Definition vlist (o : option (list string)) : option Value := match o with Some (_ :: _ as l) => Some (VList l) | _ => None end.

Definition lease_values (l : DhcpLease) : list (option Value) :=
  [VText <$> l_ip l; VText <$> l_netmask l; VText <$> l_broadcast l; VNum <$> l_ttl l; VNum <$> l_mtu l; VText <$> l_hostname l;
   VText <$> l_domain l; VText <$> l_bootp_next_server l; VText <$> l_bootp_server_name l; VText <$> l_bootp_file l;
   VText <$> l_timezone l; vlist (l_routers l); vlist (l_dns_servers l); vlist (l_ntp_servers l); vlist (l_lpr_servers l);
   vlist (l_time_servers l); vlist (l_name_servers l); vlist (l_log_servers l); vlist (l_cookie_servers l); vlist (l_wins_servers l);
   VText <$> l_swap_server l; VNum <$> l_bootsize l; VText <$> l_root_path l; VNum <$> l_lease l; VText <$> l_dhcp_type l;
   VText <$> l_server_id l; VText <$> l_reason l; VText <$> l_tftp l; VText <$> l_bootfile l; VNum <$> l_uptime l;
   VNum <$> l_lease_expiry l; vlist (l_ipv4_addresses l)].

(** What the first source says, else what the second says. *)
Definition completes (p f r : option Value) : Prop :=
  match p, f with Some _, _ => r = p | None, Some _ => r = f | None, None => True end.

Lemma completes_some {A} (g : A -> Value) p f : completes (g <$> p) (g <$> f) (g <$> merge_option p f).
Proof. by destruct p, f. Qed.

Lemma completes_list p f : completes (vlist p) (vlist f) (vlist (merge_option_vec p f)).
Proof. by destruct p as [[|]|], f as [[|]|]. Qed.

Lemma vlist_stable p f : vlist p ≠ None -> vlist (merge_option_vec p f) = vlist p.
Proof. by destruct p as [[|]|], f as [[|]|]. Qed.

(** Filling what is missing keeps what is there. *)
Definition fills (p r : option Value) : Prop := match p with Some _ => r = p | None => True end.

Lemma fills_refl p : fills p p.
Proof. by destruct p. Qed.

Lemma fill_fills l : lease_clean l -> Forall2 fills (lease_values l) (lease_values (fill_dhcp_lease_gateway_fallbacks l)).
Proof.
  intros Hc. unfold fill_dhcp_lease_gateway_fallbacks. rewrite sanitize_id by done. destruct (l_server_id l) eqn:E1, (l_bootp_next_server l) eqn:E2; cbn; rewrite ?E1, ?E2; cbn; unfold lease_values; cbn; rewrite ?E1, ?E2; repeat constructor; (apply fills_refl || by cbn).
Qed.

Lemma fills_completes p f r r' : completes p f r -> fills r r' -> completes p f r'.
Proof. destruct p, f; cbn; [intros -> H; exact H..|done]. Qed.

Lemma merged_completes p f :
  Forall2 (fun pf r => completes pf.1 pf.2 r) (zip (lease_values p) (lease_values f)) (lease_values (merged_fields p f)).
Proof. unfold lease_values. cbn [zip zip_with]. repeat constructor; cbn; (apply completes_some || apply completes_list). Qed.

Lemma merged_clean p f : lease_clean p -> lease_clean f -> lease_clean (merged_fields p f).
Proof.
  intros (Hp1 & Hp2 & Hp3) (Hf1 & Hf2 & Hf3). unfold lease_clean. cbn. split_and!.
  - intros rs. destruct (l_routers p) as [[|r rs']|] eqn:E; cbn; [apply Hf1| |apply Hf1]. intros [= <-]. by apply Hp1.
  - unfold gateway_valid in *. destruct (l_server_id p); cbn; naive_solver.
  - unfold gateway_valid in *. destruct (l_bootp_next_server p); cbn; naive_solver.
Qed.

Definition with_fallbacks (s b : option string) (m : DhcpLease) : DhcpLease :=
  let m := match l_server_id m with
           | None => set_server_id (match first_router m with Some r => Some r | None => s end) m
           | Some _ => m
           end in
  match l_bootp_next_server m with
  | None => set_bootp_next_server (match l_server_id m with Some s => Some s | None => b end) m
  | Some _ => m
  end.

Lemma with_fallbacks_fills s b m : Forall2 fills (lease_values m) (lease_values (with_fallbacks s b m)).
Proof.
  unfold with_fallbacks. destruct (l_server_id m) eqn:E1, (l_bootp_next_server m) eqn:E2; cbn; rewrite ?E1, ?E2; cbn; unfold lease_values; cbn; rewrite ?E1, ?E2; repeat constructor; (apply fills_refl || by cbn).
Qed.

Lemma with_fallbacks_clean s b m : gateway_valid s -> gateway_valid b -> lease_clean m -> lease_clean (with_fallbacks s b m).
Proof.
  intros Hs Hb Hm. unfold with_fallbacks.
  set (m1 := match l_server_id m with None => _ | Some _ => m end). assert (lease_clean m1) as Hm1.
  { unfold m1. destruct (l_server_id m); [done|]. apply set_server_clean; [|done].
    pose proof (first_router_valid m Hm). by destruct (first_router m). }
  clearbody m1. destruct (l_bootp_next_server m1); [done|]. apply set_bootp_clean; [|done].
  destruct Hm1 as (_ & Hs1 & _). by destruct (l_server_id m1).
Qed.

Lemma finish_fills l : lease_clean l -> Forall2 fills (lease_values l) (lease_values (finish_lease l)).
Proof. intros Hc. unfold finish_lease. pose proof (fill_fills l Hc) as H. by destruct (fill_dhcp_lease_gateway_fallbacks l). Qed.

Lemma completes_fills L R R' :
  Forall2 (fun pf r => completes pf.1 pf.2 r) L R -> Forall2 fills R R' -> Forall2 (fun pf r => completes pf.1 pf.2 r) L R'.
Proof. apply Forall2_trans. intros [p f] r r'. apply fills_completes. Qed.

Lemma merge_completes p f r : lease_clean p -> lease_clean f -> merge_dhcp_leases (Some p) (Some f) = Some r ->
  Forall2 (fun pf r => completes pf.1 pf.2 r) (zip (lease_values p) (lease_values f)) (lease_values r).
Proof.
  intros Hp Hf [= <-]. change (Forall2 (fun pf r => completes pf.1 pf.2 r) (zip (lease_values p) (lease_values f))
    (lease_values (finish_lease (with_fallbacks (l_server_id f) (l_bootp_next_server f) (merged_fields p f))))).
  pose proof (merged_clean p f Hp Hf) as Hm. destruct Hf as (_ & Hf2 & Hf3).
  pose proof (with_fallbacks_clean _ _ _ Hf2 Hf3 Hm) as Hc.
  eapply completes_fills; [|by apply finish_fills]. eapply completes_fills; [|apply with_fallbacks_fills]. apply merged_completes.
Qed.

Section sources.
Context (ip_cmd : list string -> option string) (read_file : string -> option string)
        (parse_uptime : string -> option Z)
        (from_iter : (string -> option LeaseField) -> list (string * string) -> option RawLease)
        (now : Z).

Abbreviation from_info := (parse_dhcp_lease_from_info read_file parse_uptime from_iter now).
Abbreviation from_file := (read_dhcp_lease_from_udhcpc_info read_file parse_uptime from_iter now).
Abbreviation from_runtime := (build_dhcp_lease_from_runtime ip_cmd read_file).

Lemma info_clean content p : from_info content = Some p -> lease_clean p.
Proof.
  unfold parse_dhcp_lease_from_info. destruct (parse_udhcpc_info content) as [|x xs]; [done|].
  intros (raw & _ & H)%bind_Some. apply bind_Some in H as (l & _ & H). cbv zeta in H.
  match type of H with context [sanitize_dhcp_lease_ipv4_fields ?l'] => pose proof (sanitize_clean l') as Hc; set (s := sanitize_dhcp_lease_ipv4_fields l') in * end.
  destruct (negb (has_any s)); [done|]. injection H as <-. by destruct s.
Qed.

Lemma via_valid line gw : parse_via_gateway line = Some gw -> check_valid_ipv4 gw = true.
Proof.
  unfold parse_via_gateway. destruct (list_find (eq "via") (split_whitespace line)) as [[i x]|]; [|done]. intros (g & _ & H)%bind_Some.
  destruct (check_valid_ipv4 g) eqn:E; [by injection H as <-|done].
Qed.

Lemma first_of_some {A} (f : string -> option A) ls a : first_of f ls = Some a -> ∃ l, l ∈ ls /\ f l = Some a.
Proof.
  unfold first_of. intros H. assert (a ∈ omap f ls) as Ha by (destruct (omap f ls); [done|injection H as <-; left]).
  by apply list_elem_of_omap in Ha.
Qed.

Lemma via_cmd_valid args gw : via_cmd ip_cmd args = Some gw -> check_valid_ipv4 gw = true.
Proof.
  unfold via_cmd. destruct (ip_cmd args); [|done]. intros (line & _ & H)%first_of_some. by eapply via_valid.
Qed.

Lemma gateway_for_valid iface src gw : get_gateway_for_interface ip_cmd iface src = Some gw -> check_valid_ipv4 gw = true.
Proof.
  unfold get_gateway_for_interface. destruct (via_cmd ip_cmd _) as [g|] eqn:E1; [intros [= <-]; by eapply via_cmd_valid|].
  destruct (ip_cmd _) as [line|]; [|by apply via_cmd_valid].
  destruct (parse_via_gateway line) as [g|] eqn:E2; [intros [= <-]; by eapply via_valid|by apply via_cmd_valid].
Qed.

Lemma runtime_clean iface f : from_runtime iface = Some f -> lease_clean f.
Proof.
  unfold build_dhcp_lease_from_runtime. destruct (get_ipv4_entries_via_ip ip_cmd iface) as [|e es]; [done|]. intros [= <-].
  pose proof (gateway_for_valid iface (e_ip e)) as Hg. unfold lease_clean, gateway_valid. cbn.
  destruct (get_gateway_for_interface ip_cmd iface (e_ip e)) as [gw|]; cbn; (split_and!; [|naive_solver..]); [|done].
  intros rs [= <-]. split; [done|]. apply Forall_singleton. by apply Hg.
Qed.

(** A lease shown to clients names only valid addresses as routers and
    servers, has a server as soon as it has a router, and its map of empty
    fields is true of it.  Every field that the file of udhcpc has is shown as it
    is there, every other one as the system says. *)
Theorem lease_is_completed iface l :
  get_dhcp_lease ip_cmd read_file parse_uptime from_iter now iface = Some l ->
  lease_shown l
  /\ (∀ p f, from_file iface = Some p -> from_runtime iface = Some f ->
      Forall2 (fun pf r => completes pf.1 pf.2 r) (zip (lease_values p) (lease_values f)) (lease_values l))
  /\ (∀ p, from_file iface = Some p -> from_runtime iface = None -> Forall2 fills (lease_values p) (lease_values l))
  /\ (∀ f, from_file iface = None -> from_runtime iface = Some f -> Forall2 fills (lease_values f) (lease_values l)).
Proof.
  unfold get_dhcp_lease. intros H. split; [by eapply merge_shown|].
  change (match read_udhcpc_info_file read_file iface with Some content => from_info content | None => None end) with (from_file iface) in H.
  assert (∀ p, from_file iface = Some p -> lease_clean p) as Hc
    by (unfold read_dhcp_lease_from_udhcpc_info; intros p (content & _ & Hp)%bind_Some; by eapply info_clean).
  split_and!.
  - intros p f Hp Hf. rewrite Hp, Hf in H. eapply merge_completes; [by apply Hc|by eapply runtime_clean|done].
  - intros p Hp Hf. rewrite Hp, Hf in H. injection H as <-. by apply finish_fills, Hc.
  - intros f Hp Hf. rewrite Hp, Hf in H. injection H as <-. by eapply finish_fills, runtime_clean.
Qed.

(** An interface with an address, or a file with a lease, has one to show. *)
Lemma lease_exists iface : is_Some (from_file iface) \/ is_Some (from_runtime iface) <->
  is_Some (get_dhcp_lease ip_cmd read_file parse_uptime from_iter now iface).
Proof.
  unfold get_dhcp_lease. change (match read_udhcpc_info_file read_file iface with Some content => from_info content | None => None end) with (from_file iface).
  destruct (from_file iface), (from_runtime iface); cbn; unfold is_Some; naive_solver.
Qed.
End sources.

(** ** The file is read as it was written *)

(** The usual form of the file: a name and a value in single quotes. *)
Definition info_line (kv : string * string) : string :=
  kv.1 +:+ String "=" (String SQ (kv.2 +:+ String SQ "")).

Definition is_name (k : string) : Prop :=
  ∃ a r, k = String a r /\ is_ident_start a = true /\ all_chars is_ident r = true.

Lemma ident_solid a : is_ident a = true -> solid a /\ a ≠ LF.
Proof. destruct a as [[][][][][][][][]]; vm_compute; intros H; (split; [|done]); split; try done; by split. Qed.

Lemma span_ident_name k v : all_chars is_ident k = true -> span_ident (k +:+ String "=" v) = (k, String "=" v).
Proof.
  induction k as [|a k IH]; [done|]. cbn [all_chars]. intros [Ha Hk]%andb_true_iff. rewrite str_app_cons.
  cbn [span_ident]. by rewrite Ha, (IH Hk).
Qed.

Lemma start_is_ident a : is_ident_start a = true -> is_ident a = true.
Proof. intros H. unfold is_ident. by rewrite H. Qed.

Lemma name_captured k v : is_name k -> ident_and_value (k +:+ String "=" v) = Some (k, v).
Proof.
  intros (a & r & -> & Ha & Hr). rewrite str_app_cons. cbn [ident_and_value span_ident]. rewrite Ha, (start_is_ident a Ha).
  by rewrite (span_ident_name r v Hr).
Qed.

(** After [export] in a name there is no white space. *)
Lemma exported_name k v : is_name k ->
  match strip_prefix "export" (k +:+ String "=" v) with Some r => trim_start r = r | None => True end.
Proof.
  intros (a & r0 & -> & Ha & Hr). destruct (strip_prefix "export" _) as [r|] eqn:E; [|done].
  apply strip_prefix_spec in E. apply lead_none_trim.
  assert (∀ p k, all_chars is_ident k = true -> all_chars is_ident p = true -> k +:+ String "=" v = p +:+ r ->
          ∃ x t, r = String x t /\ solid x) as Hgen.
  { clear. induction p as [|b p IH]; intros k Hk Hp E.
    - change ("" +:+ r) with r in E. destruct k as [|x k]; [exists "="%char, v; split; [by rewrite <- E|by split]|].
      cbn [all_chars] in Hk. apply andb_true_iff in Hk as [Hx _]. exists x, (k +:+ String "=" v). split; [by rewrite <- E|by apply ident_solid].
    - destruct k as [|x k]; injection E as <- E.
      + cbn in Hp. done.
      + cbn [all_chars] in Hk, Hp. apply andb_true_iff in Hk as [_ Hk], Hp as [_ Hp]. by apply (IH k). }
  destruct (Hgen "export" (String a r0)) as (x & t & -> & Hx); [|done|done|by apply lead_solid].
  cbn [all_chars]. by rewrite (start_is_ident a Ha), Hr.
Qed.

Lemma quoted_trimmed v : trim (String SQ (v +:+ String SQ "")) = String SQ (v +:+ String SQ "").
Proof.
  apply trimmed_iff. assert (solid SQ) as Hs by done. split; [by apply lead_solid|].
  rewrite srev_cons, srev_app. change (srev (String SQ "")) with (String SQ ""). by apply lead_rev_solid.
Qed.

Lemma ends_with_quote q v : ends_with (String q "") (v +:+ String q "") = true.
Proof.
  unfold ends_with. fold (srev (v +:+ String q "")). rewrite srev_app. change (srev (String q "")) with (String q "").
  change (string_rev_app (String q "") "") with (String q ""). apply (starts_with_app (String q "")).
Qed.

Lemma unquote_quoted v : unquote (String SQ (v +:+ String SQ "")) = v.
Proof.
  unfold unquote. assert (quoted_by SQ (String SQ (v +:+ String SQ "")) = true) as ->.
  { unfold quoted_by. apply andb_true_iff. split; [apply (starts_with_app (String SQ ""))|apply (ends_with_quote SQ (String SQ v))]. }
  rewrite orb_true_r. cbn [String.length]. rewrite str_length_app. cbn [String.length].
  rewrite (proj2 (Nat.leb_le _ _)) by lia. cbn [andb]. replace (S (String.length v + 1) - 2)%nat with (String.length v) by lia.
  cbn [String.substring]. by apply substring_prefix.
Qed.

Lemma strip_cr_quoted x : strip_cr (x +:+ String SQ "") = x +:+ String SQ "".
Proof.
  unfold strip_cr, strip_suffix, ends_with. fold (srev (x +:+ String SQ "")). rewrite srev_app.
  change (srev (String SQ "")) with (String SQ ""). by rewrite str_app_cons.
Qed.

Lemma name_no_lf k : is_name k -> contains_char LF k = false.
Proof.
  intros (a & r & -> & Ha & Hr). apply (all_chars_no is_ident); [done|]. cbn [all_chars]. by rewrite (start_is_ident a Ha), Hr.
Qed.

Lemma info_line_read k v : is_name k -> parse_udhcpc_line (info_line (k, v)) = Some (to_ascii_lowercase k, v).
Proof.
  intros Hk. pose proof Hk as (a & r & -> & Ha & Hr). unfold parse_udhcpc_line, info_line. cbn [fst snd].
  rewrite trimmed_pair by (done || apply quoted_trimmed || (by apply ident_solid, start_is_ident)).
  assert (starts_with "#" (String a r +:+ String "=" (String SQ (v +:+ String SQ ""))) = false) as ->.
  { rewrite str_app_cons. unfold starts_with. cbn [String.prefix]. destruct (ascii_dec "#" a) as [<-|]; [by vm_compute in Ha|done]. }
  rewrite str_app_cons at 1. cbn [is_empty orb].
  pose proof (exported_name _ (String SQ (v +:+ String SQ "")) Hk) as Hx. unfold line_captures.
  destruct (strip_prefix "export" _) as [rest|] eqn:E; [rewrite Hx, String.eqb_refl|]; rewrite name_captured by done;
    cbn [is_empty]; by rewrite quoted_trimmed, unquote_quoted.
Qed.

(** Whatever the values are, quotes and white space included, as long as none
    has a line break, the file that udhcpc leaves is read back pair by pair, with
    the names in lower case. *)
Theorem info_file_roundtrip pairs :
  Forall (fun kv => is_name kv.1 /\ contains_char LF kv.2 = false) pairs ->
  parse_udhcpc_info (unlines (info_line <$> pairs)) = (fun kv => (to_ascii_lowercase kv.1, kv.2)) <$> pairs.
Proof.
  intros H. unfold parse_udhcpc_info. rewrite lines_unlines.
  - induction H as [|[k v] pairs [Hk Hv] _ IH]; [done|]. cbn [fst snd] in Hk, Hv. cbn [fmap list_fmap omap list_omap].
    assert (strip_cr (info_line (k, v)) = info_line (k, v)) as ->.
    { assert (info_line (k, v) = (k +:+ String "=" (String SQ v)) +:+ String SQ "") as -> by (unfold info_line; by rewrite str_app_assoc).
      apply strip_cr_quoted. }
    rewrite (info_line_read k v Hk). by rewrite IH.
  - apply Forall_fmap. eapply Forall_impl; [exact H|]. intros [k v] [Hk Hv]. cbn [fst snd] in *. unfold compose, info_line. cbn [fst snd].
    rewrite contains_char_app, (name_no_lf k Hk). cbn [contains_char]. by rewrite contains_char_app, Hv.
Qed.

(** ** An example *)

(** The crate, for files without a field twice. *)
Definition simple_envy (names : string -> option LeaseField) (pairs : list (string * string)) : option RawLease :=
  Some (mkRaw (fun f => snd <$> List.find (fun kv => bool_decide (names kv.1 = Some f)) pairs) None None).

Definition home_info : list (string * string) :=
  [("ip", "192.168.1.40"); ("subnet", "24"); ("router", "eth0.6 192.168.1.1"); ("lease", "3600"); ("uptime", "100"); ("domain", " ")].

Definition home_ip_cmd (args : list string) : option string :=
  match args with
  | ["-4"; "-o"; "addr"; "show"; "dev"; "eth0"] => Some "2: eth0    inet 192.168.1.41/24 brd 192.168.1.255 scope global eth0"
  | _ => None
  end.

Definition home_files (path : string) : option string :=
  if String.eqb path "/run/udhcpc.eth0.info" then Some (unlines (info_line <$> home_info))
  else if String.eqb path "/proc/uptime" then Some "160.25 100.00"
  else if String.eqb path "/etc/resolv.conf" then Some "search lan"
  else None.

Definition home_uptime (s : string) : option Z := match split_once "." s with Some (w, _) => parse_u64 w | None => None end.

Abbreviation home_lease := (get_dhcp_lease home_ip_cmd home_files home_uptime simple_envy 1000 "eth0").

(** The name of an interface among the routers is dropped, the lease ends an
    hour after it was obtained, the domain comes from the system. *)
Lemma home_lease_read :
  (fun l => (l_ip l, l_netmask l, l_routers l, l_server_id l, l_lease_expiry l, l_domain l)) <$> home_lease
  = Some (Some "192.168.1.40", Some "255.255.255.0", Some ["192.168.1.1"], Some "192.168.1.1", Some 4540%Z, Some "lan").
Proof. vm_compute. reflexivity. Qed.

Lemma home_lease_exists : bool_decide (is_Some home_lease) = true.
Proof. vm_compute. reflexivity. Qed.

Lemma lease_is_completed_witness :
  ∃ l, home_lease = Some l /\ lease_shown l.
Proof.
  destruct (bool_decide_eq_true_1 _ home_lease_exists) as [l E]. exists l. split; [exact E|].
  exact (proj1 (lease_is_completed home_ip_cmd home_files home_uptime simple_envy 1000 "eth0" l E)).
Defined.

Lemma info_file_roundtrip_witness :
  parse_udhcpc_info (unlines (info_line <$> [("export_Me", "it's a "); ("B_2", "")])) = [("export_me", "it's a "); ("b_2", "")].
Proof.
  apply (info_file_roundtrip [("export_Me", "it's a "); ("B_2", "")]).
  repeat constructor; eexists _, _; split_and!; reflexivity.
Defined.
