(* ===== verification/NetIface.v ===== *)
(** * The state of an interface, and the name of the device (network/mod.rs, network/fqdn.rs)

    What clients see of a network interface: its addresses as the system lists
    them, completed with what the kernel's dump says about them, and its lease;
    and the name under which the device announces itself, which may come from
    that lease.  The crate that lists interfaces is an argument. *)

From S2P Require Import Prelude StateLaws Text Words NetAdapter IpAddr NetConf NetSettings Netlink DhcpLeases.

(** An address: 32 bits, or eight groups. *)
Inductive IfAddr : Type := IfV4 (ip : Z) | IfV6 (ip : list Z).
Record Interface := mkInterface { iface_name : string; iface_addr : IfAddr }.

Inductive IPv6AddressState : Set := Preferred | Deprecated | Invalid.

Definition ipv6_address_state (now : Z) (valid_lifetime preferred_lifetime : option Z) : option IPv6AddressState :=
  match valid_lifetime, preferred_lifetime with
  | Some valid, Some pref =>
      Some (if (valid <? now)%Z then Invalid else if (pref <? now)%Z then Deprecated else Preferred)
  | _, _ => None
  end.

Record RpcIPv6Address := mkRpcAddr {
  address : string; valid_lifetime : option Z; preferred_lifetime : option Z; scope : Z;
  address_type : option IPv6AddressType; flags : option Z; is_stable : option bool; state : option IPv6AddressState }.

Record RpcNetworkState := mkRpcState {
  r_interface_name : string; r_mac_address : string; r_ipv4 : option string; r_ipv6 : option string;
  r_ipv6_link_local : option string; r_ipv4_addresses : option (list string);
  r_ipv6_addresses : option (list RpcIPv6Address); r_dhcp_lease : option DhcpLease }.

Section interface.
(** [if_addrs]: [None] when the interfaces cannot be listed; [enrich]: the answer
    of the kernel, [None] when there is none. *)
Context (if_addrs : option (list Interface)) (enrich : option DumpMap)
        (ip_cmd : list string -> option string) (lease_of : string -> option DhcpLease)
        (mac_address_by_name : string -> option string) (now : Z).

Definition own (interface_name : string) : list Interface :=
  List.filter (fun i => String.eqb (iface_name i) interface_name) (default [] if_addrs).

Definition v4_text (i : Interface) : option string := match iface_addr i with IfV4 ip => Some (show_ipv4 ip) | IfV6 _ => None end.
Definition v6_text (i : Interface) : option string := match iface_addr i with IfV6 ip => Some (show_ipv6 ip) | IfV4 _ => None end.

Definition mac_address (interface_name : string) : string := default "" (mac_address_by_name interface_name).

Definition get_ipv4_addresses_if_addrs (interface_name : string) : list string := omap v4_text (own interface_name).

Definition get_ipv4_addresses (interface_name : string) : list string :=
  match get_ipv4_addresses_if_addrs interface_name with
  | [] => get_ipv4_addresses_via_ip ip_cmd interface_name
  | addrs => addrs
  end.

Definition get_ipv4_address (interface_name : string) : option string := head (get_ipv4_addresses interface_name).

Definition get_ipv6_address (interface_name : string) : option string :=
  head (List.filter (fun ip => negb (starts_with "fe80" ip)) (omap v6_text (own interface_name))).

Definition get_ipv6_link_local_address (interface_name : string) : option string :=
  head (List.filter (starts_with "fe80") (omap v6_text (own interface_name))).

Definition enrich_address (ip_str : string) : RpcIPv6Address :=
  let '(scope_opt, valid_opt, preferred_opt, flags_opt) :=
    default (None, None, None, None) (default ∅ enrich !! ip_str) in
  let scope := default (if starts_with "fe80" ip_str then 253 else 0)%Z scope_opt in
  let address_type := classify_ipv6_address ip_str in
  let is_stable := match address_type with
                   | UniqueLocal => Some (is_stable_ula_address ip_str flags_opt ((fun v => v - now)%Z <$> valid_opt))
                   | _ => None
                   end in
  mkRpcAddr ip_str valid_opt preferred_opt scope (Some address_type) flags_opt is_stable (ipv6_address_state now valid_opt preferred_opt).

Definition get_ipv6_addresses (interface_name : string) : list RpcIPv6Address :=
  enrich_address <$> omap v6_text (own interface_name).

Definition has_type (t : IPv6AddressType) (a : RpcIPv6Address) : bool := bool_decide (address_type a = Some t).
Definition stable_ula (a : RpcIPv6Address) : bool := has_type UniqueLocal a && bool_decide (is_stable a = Some true).

Definition get_global_ipv6_address (interface_name : string) : option string :=
  address <$> List.find (has_type Global) (get_ipv6_addresses interface_name).
Definition get_unique_local_ipv6_address (interface_name : string) : option string :=
  address <$> List.find (has_type UniqueLocal) (get_ipv6_addresses interface_name).
Definition get_stable_unique_local_ipv6_address (interface_name : string) : option string :=
  address <$> List.find stable_ula (get_ipv6_addresses interface_name).
Definition get_stable_unique_local_ipv6_addresses (interface_name : string) : list string :=
  address <$> List.filter stable_ula (get_ipv6_addresses interface_name).
Definition get_ipv6_addresses_by_type (interface_name : string) (t : IPv6AddressType) : list string :=
  address <$> List.filter (has_type t) (get_ipv6_addresses interface_name).

Definition rpc_get_network_state (interface_name : string) : RpcNetworkState :=
  mkRpcState interface_name (mac_address interface_name) (get_ipv4_address interface_name) (get_ipv6_address interface_name)
    (get_ipv6_link_local_address interface_name) (some_list (get_ipv4_addresses interface_name))
    (some_list (get_ipv6_addresses interface_name)) (lease_of interface_name).

(** ** The name of the device *)

(** [report]: whether VLANs are on, and the id of the primary one. *)
Definition lease_iface (report : bool * option Z) (interface_name : string) : string :=
  match report with
  | (true, Some id) => vlan_iface_name id
  | _ => interface_name
  end.

Definition dhcp_lease_for_domain_lookup (report : bool * option Z) : option DhcpLease := lease_of (lease_iface report "eth0").

Definition resolve_domain (report : bool * option Z) (domain : string) : string :=
  let domain := if String.eqb domain "dhcp" then "" else domain in
  let domain := trim domain in
  let domain := if is_empty domain
                then match dhcp_lease_for_domain_lookup report with
                     | Some dhcp_lease => default "" (l_domain dhcp_lease)
                     | None => domain
                     end
                else domain in
  if is_empty domain then "local" else domain.

Definition is_ascii (s : string) : bool := all_chars (fun a => (byte_of a <? 128)%Z) s.

(** [to_lowercase] on ASCII text. *)
Definition normalize_hostname_label (hostname : string) : Result string string :=
  let hostname := trim_end_matches "." (trim hostname) in
  let hostname := if is_empty hostname then "arkkvm" else hostname in
  if negb (is_ascii hostname) then Err "the hostname is not ascii" else Ok (to_ascii_lowercase hostname).

Definition format_fqdn (hostname domain : string) : Result string string :=
  let domain := trim_end_matches "." (trim domain) in
  let fqdn := if String.eqb domain "local" then hostname +:+ ".local." else hostname +:+ "." +:+ domain +:+ ".local." in
  if is_ascii fqdn then Ok fqdn else Err "the fqdn is not ascii".

Definition build_hostname_and_fqdn (report : bool * option Z) (hostname domain : string) : Result string (string * string) :=
  match normalize_hostname_label hostname with
  | Err m => Err m
  | Ok hostname =>
      match format_fqdn hostname (resolve_domain report domain) with
      | Err m => Err m
      | Ok fqdn => Ok (hostname, fqdn)
      end
  end.

Definition build_network_fqdn (report : bool * option Z) (hostname domain : string) : Result string string :=
  match normalize_hostname_label hostname with
  | Err m => Err m
  | Ok hostname => format_fqdn hostname (resolve_domain report domain)
  end.

Definition format_fqdn_from_parts (hostname domain : string) : Result string string :=
  match normalize_hostname_label hostname with Err m => Err m | Ok hostname => format_fqdn hostname domain end.
End interface.

(** The interface whose lease is renewed. *)
Definition renew_dhcp_lease (e : NetEnv) (interface_name : string) : NetM unit :=
  let! report := get_effective_vlan_config_report e in
  let '(on, p, _) := report in
  dhcp_renew e (lease_iface (on, p) interface_name).

(** The answer of the kernel, for the list of addresses; [None] when it does not
    come back. *)
Definition enrich_map (r : QueryResult) : option DumpMap :=
  match r with QueryOk map => Some map | QueryErr => Some ∅ | _ => None end.

(** ** Names *)

Lemma lower_idem s : to_ascii_lowercase (to_ascii_lowercase s) = to_ascii_lowercase s.
Proof.
  induction s as [|a s IH]; [done|]. cbn. rewrite IH. f_equal. by destruct a as [[][][][][][][][]].
Qed.

Lemma lower_empty s : to_ascii_lowercase s = "" -> s = "".
Proof. by destruct s. Qed.

Lemma normalize_spec h host : normalize_hostname_label h = Ok host -> host ≠ "" /\ to_ascii_lowercase host = host.
Proof.
  unfold normalize_hostname_label. set (t := trim_end_matches "." (trim h)).
  set (t' := if is_empty t then "arkkvm" else t). assert (t' ≠ "") as Hne by (unfold t'; by destruct t).
  destruct (negb (is_ascii t')); [done|]. intros [= <-]. split; [|apply lower_idem]. intros H. by apply Hne, lower_empty.
Qed.

Lemma format_spec host domain f : format_fqdn host domain = Ok f ->
  is_ascii f = true /\ (f = host +:+ ".local." \/ ∃ d, d ≠ "local" /\ f = host +:+ "." +:+ d +:+ ".local.").
Proof.
  unfold format_fqdn. set (d := trim_end_matches "." (trim domain)). destruct (String.eqb_spec d "local") as [Hd|Hd].
  - destruct (is_ascii _) eqn:E; [|done]. intros [= <-]. split; [done|by left].
  - destruct (is_ascii _) eqn:E; [|done]. intros [= <-]. split; [done|]. right. by exists d.
Qed.

(** A name the device announces is ASCII, starts with the host name in lower
    case, which is never empty, and ends in [.local.], with at most the domain
    in between; the bare name that goes with it is its first part. *)
Theorem announced_name_is_local lease_of report hostname domain host fqdn :
  build_hostname_and_fqdn lease_of report hostname domain = Ok (host, fqdn) ->
  host ≠ "" /\ to_ascii_lowercase host = host /\ is_ascii fqdn = true
  /\ (fqdn = host +:+ ".local." \/ ∃ d, d ≠ "local" /\ fqdn = host +:+ "." +:+ d +:+ ".local.")
  /\ build_network_fqdn lease_of report hostname domain = Ok fqdn.
Proof.
  unfold build_hostname_and_fqdn, build_network_fqdn. destruct (normalize_hostname_label hostname) as [h|] eqn:Eh; [|done].
  destruct (format_fqdn h (resolve_domain lease_of report domain)) as [f|] eqn:Ef; [|done]. intros [= <- <-].
  apply normalize_spec in Eh as [Hne Hl]. apply format_spec in Ef as [Ha Hf]. done.
Qed.

Lemma announced_name_is_local_witness :
  let f := "kvm.lan.local." in is_ascii f = true /\ build_network_fqdn (fun _ => home_lease) (false, None) "KVM." "dhcp" = Ok f.
Proof.
  destruct (announced_name_is_local (fun _ => home_lease) (false, None) "KVM." "dhcp" "kvm" "kvm.lan.local.") as (_ & _ & Ha & _ & Hf);
    [vm_compute; reflexivity|]. exact (conj Ha Hf).
Defined.

(** A domain of nothing but dots is not taken for an empty one. *)
Lemma dots_leave_empty_label : format_fqdn_from_parts "arkkvm" "." = Ok "arkkvm..local.".
Proof. vm_compute. reflexivity. Qed.

(** ** Addresses *)

Section addresses.
Context (if_addrs : option (list Interface)) (enrich : option DumpMap) (now : Z).

Abbreviation listed iface := (omap v6_text (own if_addrs iface)).

Lemma listed_address iface s : s ∈ listed iface -> ∃ l ip, if_addrs = Some l /\ mkInterface iface (IfV6 ip) ∈ l /\ s = show_ipv6 ip.
Proof.
  intros (i & Hi & Hs)%list_elem_of_omap. unfold own in Hi. apply list_elem_of_In, filter_In in Hi as [Hi Hn].
  apply String.eqb_eq in Hn. destruct if_addrs as [l|]; [|done]. destruct i as [n [ip|ip]]; cbn in *; [done|]. injection Hs as <-.
  exists l, ip. split_and!; [done|by subst; apply list_elem_of_In|done].
Qed.

(** Nothing is lost or made up on the way to the client. *)
Lemma addresses_are_listed iface : address <$> get_ipv6_addresses if_addrs enrich now iface = listed iface.
Proof.
  unfold get_ipv6_addresses. induction (listed iface) as [|s l IH]; [done|]. cbn [fmap list_fmap]. rewrite IH. f_equal.
  unfold enrich_address. by destruct (default _ _) as [[[? ?] ?] ?].
Qed.

Lemma enriched_address s : address (enrich_address enrich now s) = s /\ address_type (enrich_address enrich now s) = Some (classify_ipv6_address s).
Proof. unfold enrich_address. by destruct (default _ _) as [[[? ?] ?] ?]. Qed.

Lemma by_type_exact iface t :
  get_ipv6_addresses_by_type if_addrs enrich now iface t
  = List.filter (fun s => bool_decide (classify_ipv6_address s = t)) (listed iface).
Proof.
  unfold get_ipv6_addresses_by_type, get_ipv6_addresses. induction (listed iface) as [|s l IH]; [done|].
  cbn [fmap list_fmap List.filter]. destruct (enriched_address s) as [Ha Ht]. unfold has_type at 1. rewrite Ht.
  rewrite (bool_decide_ext _ (classify_ipv6_address s = t)) by (split; [by intros [= ->]|by intros ->]).
  case_bool_decide; cbn [fmap list_fmap]; rewrite <- IH; [by rewrite Ha|done].
Qed.

(** The address a device is told apart by is a unique local one that its
    interface has, and never one that the kernel marks as temporary. *)
Theorem stable_address_is_reliable iface a :
  get_stable_unique_local_ipv6_address if_addrs enrich now iface = Some a ->
  classify_ipv6_address a = UniqueLocal
  /\ (∃ l ip, if_addrs = Some l /\ mkInterface iface (IfV6 ip) ∈ l /\ a = show_ipv6 ip)
  /\ (∀ m sc v p f, enrich = Some m -> m !! a = Some (sc, v, p, Some f) -> Z.land f 1 = 0%Z).
Proof.
  unfold get_stable_unique_local_ipv6_address. intros (r & Hr & ->)%fmap_Some.
  apply List.find_some in Hr as [Hin Hst]. unfold get_ipv6_addresses in Hin. apply list_elem_of_In, list_elem_of_fmap in Hin as (s & -> & Hs).
  destruct (enriched_address s) as [Ha Ht]. rewrite Ha. unfold stable_ula, has_type in Hst. rewrite Ht in Hst.
  apply andb_true_iff in Hst as [Hc Hst]. apply bool_decide_eq_true_1 in Hc, Hst. injection Hc as Hc.
  split; [done|]. split; [by apply listed_address|]. intros m sc v p f -> Hm.
  unfold enrich_address in Hst. change (default ∅ (Some m)) with m in Hst. rewrite Hm in Hst. cbn in Hst. rewrite Hc in Hst. cbn in Hst.
  injection Hst as Hst. unfold is_stable_ula_address in Hst.
  destruct (Z.eqb_spec (Z.land f 1) 0) as [?|?]; [done|]. by cbn in Hst.
Qed.
End addresses.

Definition home_ifaces : list Interface :=
  [mkInterface "lo" (IfV6 [0; 0; 0; 0; 0; 0; 0; 1]%Z); mkInterface "eth0" (IfV4 3232235817);
   mkInterface "eth0" (IfV6 [65168; 0; 0; 0; 0; 0; 0; 1]%Z); mkInterface "eth0" (IfV6 [64786; 13398; 0; 0; 0; 0; 0; 5]%Z)].

Lemma stable_address_is_reliable_witness :
  get_stable_unique_local_ipv6_address (Some home_ifaces)
    (Some home_dump) 1000 "eth0" = Some "fd12:3456::5"
  /\ classify_ipv6_address "fd12:3456::5" = UniqueLocal.
Proof.
  split; [vm_compute; reflexivity|].
  refine (proj1 (stable_address_is_reliable (Some home_ifaces) (Some home_dump) 1000 "eth0" "fd12:3456::5" _)). vm_compute. reflexivity.
Defined.

(** Link local addresses are told by the text [fe80], which is not the whole
    prefix: others become the address of the device. *)
Lemma other_link_local_is_primary :
  get_ipv6_address (Some home_ifaces) "eth0" = Some "fe90::1" /\ classify_ipv6_address "fe90::1" = LinkLocal.
Proof. split; vm_compute; reflexivity. Qed.

(** ** Renewal *)

(** With VLANs the lease of the primary one is renewed, else that of the
    interface. *)
Lemma renewal_follows_vlan e s iface :
  fx (renew_dhcp_lease e iface s).1
  = fx s ++ [DhcpRenew (let v := match (if readable e then ini_to_network_config <$> conf s else None) with
                                 | Some f => vlan_settings f | None => vlan_settings (enc s) end in
                        match vlan_enabled v, vlan_id <$> primary_vlan v with
                        | true, Some id => vlan_iface_name id
                        | _, _ => iface
                        end)].
Proof.
  unfold renew_dhcp_lease, get_effective_vlan_config_report, read_vlan_settings_from_conf, read_network_conf, dhcp_renew. se_unfold.
  destruct (if readable e then _ else _) as [f|]; cbn -[vlan_iface_name].
  - destruct (vlan_enabled (vlan_settings f)), (primary_vlan (vlan_settings f)); cbn; by destruct (renew_ok e).
  - destruct (vlan_enabled (vlan_settings (enc s))), (primary_vlan (vlan_settings (enc s))); cbn; by destruct (renew_ok e).
Qed.
