(* ===== verification/Mdns.v ===== *)
(** * mDNS (network/mdns)

    The announcement of the device: the service with its options (server.rs),
    the task that gets it going once the network is there, changes of the
    options and the refresh after changes of the network (mod.rs).  What the
    crate that answers on the network does is an environment; daemons have
    numbers, and those that were started and not shut down are remembered.  The
    thread that reports changes of names is not modelled. *)

From S2P Require Import Prelude StateLaws Text.

Definition DEFAULT_SERVICE_NAME_V4 : string := "arkkvm_v4".
Definition DEFAULT_SERVICE_NAME_V6 : string := "arkkvm_v6".
Definition DEFAULT_SERVICE_TYPE_V4 : string := "_http._tcp.local.".
Definition DEFAULT_SERVICE_TYPE_V6 : string := "_https._tcp.local.".
Definition DEFAULT_PORT_V4 : Z := 80.
Definition DEFAULT_PORT_V6 : Z := 443.

Record MdnsListenOptions := mkListen { lo_ipv4 : bool; lo_ipv6 : bool }.
Record MdnsOptions := mkOptions { local_names : list string; domain : string; listen_options : MdnsListenOptions }.

#[export] Instance MdnsListenOptions_eq_dec : EqDecision MdnsListenOptions.
Proof. solve_decision. Defined.
#[export] Instance MdnsOptions_eq_dec : EqDecision MdnsOptions.
Proof. solve_decision. Defined.

(** What is registered with a daemon. *)
Record ServiceInfo := mkService { si_type : string; si_name : string; si_host : string; si_port : Z; si_ifaces : list string }.

Record Mdns := mkMdns {
  service : option (nat * list ServiceInfo);
  options : MdnsOptions;
  next_daemon : nat;
  unstopped : list nat }.

Definition mdns_new (o : MdnsOptions) : Mdns := mkMdns None o 0 [].

Definition with_service x s := mkMdns x (options s) (next_daemon s) (unstopped s).
Definition with_options x s := mkMdns (service s) x (next_daemon s) (unstopped s).
Definition without_daemon d s := mkMdns (service s) (options s) (next_daemon s) (List.filter (fun x => negb (x =? d)%nat) (unstopped s)).
Definition started_daemon s := mkMdns (service s) (options s) (S (next_daemon s)) (unstopped s ++ [next_daemon s]).

(** [me_fqdn]: [build_network_fqdn]; the others say which calls succeed. *)
Record MdnsEnv := mkMdnsEnv {
  me_ifaces : list string; me_fqdn : string -> string -> Result string string;
  me_daemon : bool; me_monitor : bool; me_info : ServiceInfo -> bool; me_register : ServiceInfo -> bool; me_shutdown : bool }.

Definition MM (A : Type) : Type := SE Mdns string A.

Section server.
Context (env : MdnsEnv).

(** The daemon is taken out before it is told to stop. *)
Definition stop_internal : MM unit :=
  let! s := se_get service in
  match s with
  | None => se_ret tt
  | Some (d, _) =>
      se_modify (with_service None) ;;;
      se_guard (negb (me_shutdown env)) "shutdown" ;;;
      se_modify (without_daemon d)
  end.

Definition service_info (v4 : bool) (hostname : string) : ServiceInfo :=
  if v4 then mkService DEFAULT_SERVICE_TYPE_V4 DEFAULT_SERVICE_NAME_V4 hostname DEFAULT_PORT_V4 (me_ifaces env)
  else mkService DEFAULT_SERVICE_TYPE_V6 DEFAULT_SERVICE_NAME_V6 hostname DEFAULT_PORT_V6 (me_ifaces env).

Definition infos_of (listen : MdnsListenOptions) (hostname : string) : list ServiceInfo :=
  (if lo_ipv4 listen then [service_info true hostname] else []) ++ (if lo_ipv6 listen then [service_info false hostname] else []).

(** For each local name in turn. *)
Fixpoint service_infos (listen : MdnsListenOptions) (dom : string) (names : list string) : Result string (list ServiceInfo) :=
  match names with
  | [] => Ok []
  | name :: names =>
      match me_fqdn env name dom with
      | Err m => Err m
      | Ok hostname =>
          let infos := infos_of listen hostname in
          if negb (forallb (me_info env) infos) then Err "service info"
          else match service_infos listen dom names with Ok l => Ok (infos ++ l) | Err m => Err m end
      end
  end.

(** From the choice of the interfaces to the registration: [None] when mDNS is
    off, else the daemon to keep. *)
Definition build_daemon : MM (option (nat * list ServiceInfo)) :=
  let! o := se_get options in
  let listen := listen_options o in
  if negb (lo_ipv4 listen) && negb (lo_ipv6 listen) then se_ret None
  else
    se_guard (negb (me_daemon env)) "daemon" ;;;
    let! d := se_get next_daemon in
    se_modify started_daemon ;;;
    se_guard (negb (me_monitor env)) "monitor" ;;;
    let! infos := se_of_result (service_infos listen (domain o) (local_names o)) in
    se_guard (match infos with [] => true | _ => false end) "No mDNS services configured for registration" ;;;
    se_guard (negb (forallb (me_register env) infos)) "register" ;;;
    se_ret (Some (d, infos)).

Definition store_daemon (d : option (nat * list ServiceInfo)) : MM unit :=
  match d with Some d => se_modify (with_service (Some d)) | None => se_ret tt end.

Definition start_internal (allow_restart : bool) : MM unit :=
  let! s := se_get service in
  (if bool_decide (is_Some s)
   then se_guard (negb allow_restart) "mDNS server already running, and can not restart" ;;; stop_internal
   else se_ret tt) ;;;
  let! d := build_daemon in
  store_daemon d.

Definition start : MM unit := start_internal false.
Definition restart : MM unit := start_internal true.
Definition stop : MM unit := stop_internal.

Definition update_option (o : MdnsOptions) : MM unit :=
  let! old := se_get options in
  se_modify (with_options o) ;;;
  if bool_decide (old = o) then se_ret tt else restart.

Definition set_local_names (names : list string) (always : bool) : MM unit :=
  let! old := se_get options in
  if negb always && bool_decide (local_names old = names) then se_ret tt
  else se_modify (with_options (mkOptions names (domain old) (listen_options old))) ;;; restart.

Definition set_listen_options (listen : MdnsListenOptions) : MM unit :=
  let! old := se_get options in
  if bool_decide (listen_options old = listen) then se_ret tt
  else se_modify (with_options (mkOptions (local_names old) (domain old) listen)) ;;; restart.
End server.

(** ** The service of the application *)

Definition format_mdns_mode (mdns_mode : string) : bool * bool :=
  if String.eqb mdns_mode "auto" then (true, true)
  else if String.eqb mdns_mode "ipv4_only" then (true, false)
  else if String.eqb mdns_mode "ipv6_only" then (false, true)
  else (false, false).

(** An interface with one of its addresses. *)
Record IfaceAddr := mkIfaceAddr { ia_name : string; ia_v4 : bool; ia_loopback : bool; ia_ip_loopback : bool }.

Definition open_ifaces_have_ip_family (all : option (list IfaceAddr)) (ifaces : list string) (want_v4 : bool) : bool :=
  match all with
  | None => false
  | Some all =>
      existsb (fun i => negb (ia_loopback i) && existsb (String.eqb (ia_name i)) ifaces
                        && Bool.eqb (ia_v4 i) want_v4 && negb (ia_ip_loopback i)) all
  end.

Definition requested_ip_family_ready (all : option (list IfaceAddr)) (ifaces : list string) (ipv4_enabled ipv6_enabled : bool) : bool :=
  let ipv4_ready := open_ifaces_have_ip_family all ifaces true in
  let ipv6_ready := open_ifaces_have_ip_family all ifaces false in
  match ipv4_enabled, ipv6_enabled with
  | true, _ => ipv4_ready
  | false, true => ipv6_ready
  | false, false => true
  end.

(** [MDNS], [MDNS_INIT_TASK_RUNNING] with what the task owns,
    [NETWORK_CHANNEL_REFRESH_GENERATION] and the refreshes that wait. *)
Record MdnsApp := mkApp { installed : option Mdns; init_task : option Mdns; refresh_generation : nat; waiting : list nat }.

(** [build]: [build_hostname_and_fqdn]. *)
Section application.
Context (build : string -> string -> Result string (string * string)).

Definition init_mdns (hostname dom mdns_mode : string) (a : MdnsApp) : MdnsApp * Result string unit :=
  match installed a with
  | Some _ => (a, Ok tt)
  | None =>
      match build hostname dom with
      | Err m => (a, Err m)
      | Ok (hostname, _) =>
          let '(v4, v6) := format_mdns_mode mdns_mode in
          let mdns := mdns_new (mkOptions [hostname] dom (mkListen v4 v6)) in
          match init_task a with
          | Some _ => (a, Ok tt)
          | None => (mkApp None (Some mdns) (refresh_generation a) (waiting a), Ok tt)
          end
      end
  end.

(** One turn of the task; [env2] and [all] are the network a moment later. *)
Definition init_turn (env env2 : MdnsEnv) (all : option (list IfaceAddr)) (a : MdnsApp) : MdnsApp :=
  match init_task a with
  | None => a
  | Some mdns =>
      match installed a with
      | Some _ => mkApp (installed a) None (refresh_generation a) (waiting a)
      | None =>
          match start env mdns with
          | (mdns, Ok _) =>
              let listen := listen_options (options mdns) in
              if requested_ip_family_ready all (me_ifaces env2) (lo_ipv4 listen) (lo_ipv6 listen)
              then mkApp (Some mdns) None (refresh_generation a) (waiting a)
              else mkApp None (Some (stop env2 mdns).1) (refresh_generation a) (waiting a)
          | (mdns, Err _) => mkApp None (Some mdns) (refresh_generation a) (waiting a)
          end
      end
  end.

Definition update_mdns_options (env : MdnsEnv) (hostname dom mdns_mode : string) (a : MdnsApp) : MdnsApp :=
  match installed a with
  | None => a
  | Some mdns =>
      match build hostname dom with
      | Err _ => a
      | Ok (hostname, _) =>
          let '(v4, v6) := format_mdns_mode mdns_mode in
          mkApp (Some (update_option env (mkOptions [hostname] dom (mkListen v4 v6)) mdns).1) (init_task a) (refresh_generation a) (waiting a)
      end
  end.

Definition refresh_for_network_channels (env : MdnsEnv) (a : MdnsApp) : MdnsApp :=
  match installed a with
  | None => a
  | Some mdns => mkApp (Some (restart env mdns).1) (init_task a) (refresh_generation a) (waiting a)
  end.

Definition schedule_refresh_for_network_channels (a : MdnsApp) : MdnsApp :=
  mkApp (installed a) (init_task a) (S (refresh_generation a)) (waiting a ++ [S (refresh_generation a)]).

(** The delay of a scheduled refresh is over. *)
Definition refresh_due (env : MdnsEnv) (a : MdnsApp) : MdnsApp :=
  match waiting a with
  | [] => a
  | poll_gen :: rest =>
      let a := mkApp (installed a) (init_task a) (refresh_generation a) rest in
      if (refresh_generation a =? poll_gen)%nat then refresh_for_network_channels env a else a
  end.
End application.

(** * What is announced *)

(** The daemon in the service is the only one running, and new ones get another
    number. *)
Definition mdns_fine (s : Mdns) : Prop :=
  unstopped s = match service s with Some (d, _) => [d] | None => [] end
  /\ match service s with Some (d, _) => d < next_daemon s | None => True end%nat.

(** The service says what its options ask for. *)
Definition announces (env : MdnsEnv) (s : Mdns) : Prop :=
  let o := options s in
  match service s with
  | None => lo_ipv4 (listen_options o) = false /\ lo_ipv6 (listen_options o) = false
  | Some (_, infos) =>
      service_infos env (listen_options o) (domain o) (local_names o) = Ok infos /\ infos ≠ []
      /\ Forall (fun i => si_ifaces i = me_ifaces env) infos
  end.

Section laws.
Context (env : MdnsEnv).

Lemma stop_ok s s' : mdns_fine s -> stop_internal env s = (s', Ok tt) ->
  mdns_fine s' /\ service s' = None /\ options s' = options s.
Proof.
  intros [Hu Hn]. unfold stop_internal. se_unfold. destruct (service s) as [[d infos]|] eqn:E.
  - destruct (negb (me_shutdown env)); [done|]. intros [= <-]. unfold mdns_fine. cbn. rewrite Hu. cbn. by rewrite Nat.eqb_refl.
  - intros [= <-]. unfold mdns_fine. by rewrite E.
Qed.

Lemma infos_ifaces listen dom names l :
  service_infos env listen dom names = Ok l -> Forall (fun i => si_ifaces i = me_ifaces env) l.
Proof.
  revert l. induction names as [|n names IH]; intros l; cbn; [intros [= <-]; constructor|].
  destruct (me_fqdn env n dom) as [h|]; [|done]. destruct (negb _); [done|].
  destruct (service_infos env listen dom names) as [l'|]; [|done]. intros [= <-].
  apply Forall_app. split; [|by apply IH]. unfold infos_of. destruct (lo_ipv4 listen), (lo_ipv6 listen); repeat constructor.
Qed.

Lemma build_ok s s' d : mdns_fine s -> service s = None -> build_daemon env s = (s', Ok d) ->
  let listen := listen_options (options s) in
  service s' = None /\ options s' = options s
  /\ match d with
     | None => mdns_fine s' /\ lo_ipv4 listen = false /\ lo_ipv6 listen = false
     | Some (n, infos) =>
         unstopped s' = [n] /\ next_daemon s' = S n
         /\ service_infos env listen (domain (options s)) (local_names (options s)) = Ok infos /\ infos ≠ []
     end.
Proof.
  intros Hf Hs. unfold build_daemon. se_unfold. destruct (negb (lo_ipv4 _) && negb (lo_ipv6 _)) eqn:El.
  { intros [= <- <-]. apply andb_true_iff in El as [H4%negb_true_iff H6%negb_true_iff]. done. }
  destruct (negb (me_daemon env)); [done|]. destruct (negb (me_monitor env)); [done|].
  destruct (service_infos env _ _ _) as [infos|] eqn:Ei; [|done]. destruct infos as [|i infos]; [done|].
  cbn. destruct (negb (forallb (me_register env) (i :: infos))) eqn:Er; cbn in Er; rewrite Er; [done|]. intros [= <- <-]. destruct Hf as [Hu _]. rewrite Hs in Hu. cbn. rewrite Hu. split_and!; done.
Qed.

(** A restart is its parts one after the other. *)
Lemma restart_in_steps s :
  restart env s = (stop_internal env ;;; let! d := build_daemon env in store_daemon d) s.
Proof.
  unfold restart, start_internal. se_unfold. destruct (service s) as [d|] eqn:E; [done|].
  unfold stop_internal. se_unfold. by rewrite E.
Qed.

Lemma restart_ok s s' : mdns_fine s -> restart env s = (s', Ok tt) ->
  mdns_fine s' /\ announces env s' /\ options s' = options s.
Proof.
  intros Hf. rewrite restart_in_steps. intros H. apply bind_ok in H as (s1 & [] & H1 & H). apply bind_ok in H as (s2 & d & H2 & H3).
  destruct (stop_ok _ _ Hf H1) as (Hf1 & Hs1 & Ho1). destruct (build_ok _ _ _ Hf1 Hs1 H2) as (Hs2 & Ho2 & Hd).
  destruct d as [[n infos]|]; injection H3 as <-; unfold announces, mdns_fine; cbn.
  - destruct Hd as (Hu & Hn & Hi & Hne). rewrite Hu, Hn, Ho2, Ho1. rewrite Ho1 in Hi. split_and!; try done; [lia|by eapply infos_ifaces].
  - destruct Hd as ([Hu Hn] & H4 & H6). rewrite Hs2, Ho2, Ho1 in *. done.
Qed.

(** A change of the options that succeeds leaves one daemon, which announces
    every name under the new options on the interfaces that are open, or none if
    mDNS is off; daemons of before are shut down. *)
Theorem changed_options_are_announced o s s' :
  mdns_fine s -> options s ≠ o -> update_option env o s = (s', Ok tt) ->
  mdns_fine s' /\ options s' = o /\ announces env s'.
Proof.
  intros Hf Hne. unfold update_option. se_unfold. cbn. rewrite bool_decide_false by done. intros H.
  assert (mdns_fine (with_options o s)) as Hf' by done. destruct (restart_ok _ _ Hf' H) as (H1 & H2 & H3). done.
Qed.

(** A restart that fails leaves mDNS off. *)
Lemma failed_restart_is_off s s' m : restart env s = (s', Err m) -> service s' = None.
Proof.
  rewrite restart_in_steps. unfold stop_internal, build_daemon, store_daemon. se_unfold. destruct (service s) as [[d i]|] eqn:E.
  - destruct (negb (me_shutdown env)); [by intros [= <- _]|]. cbn.
    repeat (match goal with |- context [if ?b then _ else _] => destruct b end; cbn; try by intros [= <- _]).
    all: destruct (service_infos _ _ _ _) as [[|x l]|]; cbn; try by intros [= <- _].
    all: repeat (match goal with |- context [if ?b then _ else _] => destruct b end; cbn; try by intros [= <- _]).
  - repeat (match goal with |- context [if ?b then _ else _] => destruct b end; cbn; try by intros [= <- _]).
    all: destruct (service_infos _ _ _ _) as [[|x l]|]; cbn; try by intros [= <- _].
    all: repeat (match goal with |- context [if ?b then _ else _] => destruct b end; cbn; try by intros [= <- _]).
Qed.
End laws.

(** What the task of the start installs was started while the network was there;
    until then nothing it started goes on. *)
Lemma installed_when_ready env env2 all a m :
  installed a = None -> installed (init_turn env env2 all a) = Some m ->
  ∃ m0, init_task a = Some m0 /\ start env m0 = (m, Ok tt)
        /\ requested_ip_family_ready all (me_ifaces env2) (lo_ipv4 (listen_options (options m))) (lo_ipv6 (listen_options (options m))) = true.
Proof.
  intros Hi. unfold init_turn. destruct (init_task a) as [m0|]; [|by rewrite Hi]. rewrite Hi.
  destruct (start env m0) as [m1 [[]|e]] eqn:E; [|done]. destruct (requested_ip_family_ready _ _ _ _) eqn:Er; [|done].
  intros [= <-]. by exists m0.
Qed.

(** Of the refreshes that wait only the one that was scheduled last is done. *)
Lemma stale_refresh_does_nothing env a g rest :
  waiting a = g :: rest -> g ≠ refresh_generation a -> installed (refresh_due env a) = installed a.
Proof. intros Hw Hg. unfold refresh_due. rewrite Hw. cbn. by rewrite (proj2 (Nat.eqb_neq _ _)). Qed.

(** ** What goes wrong *)

Definition lan_env (daemon register : bool) : MdnsEnv :=
  mkMdnsEnv ["eth0"] (fun name _ => Ok (name +:+ ".local.")) daemon true (fun _ => true) (fun _ => register) true.
Definition kvm_options (name : string) : MdnsOptions := mkOptions [name] "" (mkListen true false).

Definition announced (s : Mdns) : list string := match service s with Some (_, infos) => si_host <$> infos | None => [] end.

(** The new options are kept when the restart fails, so asking again changes
    nothing and mDNS stays off. *)
Lemma failed_update_stays_off :
  let s := (start (lan_env true true) (mdns_new (kvm_options "kvm"))).1 in
  let s1 := (update_option (lan_env false true) (kvm_options "new") s).1 in
  announced s = ["kvm.local."] /\ (update_option (lan_env true true) (kvm_options "new") s1).2 = Ok tt
  /\ announced (update_option (lan_env true true) (kvm_options "new") s1).1 = [].
Proof. vm_compute. done. Qed.

(** A daemon whose services cannot be registered is not shut down. *)
Lemma failed_start_leaves_daemon :
  let s := (start (lan_env true false) (mdns_new (kvm_options "kvm"))).1 in service s = None /\ unstopped s = [0%nat].
Proof. vm_compute. done. Qed.

(** Two restarts at once, as after a change of the name and of the network, both
    stop before either stores its daemon: two daemons go on, one of them beyond
    the reach of the service. *)
Definition two_restarts (env : MdnsEnv) : MM unit :=
  stop_internal env ;;; stop_internal env ;;;
  let! a := build_daemon env in
  let! b := build_daemon env in
  store_daemon a ;;; store_daemon b.

Lemma two_restarts_leave_two_daemons :
  let s := (two_restarts (lan_env true true) (start (lan_env true true) (mdns_new (kvm_options "kvm"))).1).1 in
  fst <$> service s = Some 2%nat /\ unstopped s = [1; 2]%nat.
Proof. vm_compute. done. Qed.

(** A change of the name before the network is there is dropped, and the device
    announces the old one. *)
Definition simple_build (h d : string) : Result string (string * string) := Ok (h, h +:+ ".local.").

Lemma early_change_is_lost :
  let a := (init_mdns simple_build "kvm" "" "ipv4_only" (mkApp None None 0 [])).1 in
  let a := init_turn (lan_env true true) (lan_env true true) (Some []) a in
  let a := update_mdns_options simple_build (lan_env true true) "new" "" "ipv4_only" a in
  let a := init_turn (lan_env true true) (lan_env true true) (Some [mkIfaceAddr "eth0" true false false]) a in
  announced <$> installed a = Some ["kvm.local."].
Proof. vm_compute. done. Qed.

Lemma changed_options_are_announced_witness :
  let s := (start (lan_env true true) (mdns_new (kvm_options "kvm"))).1 in
  let s' := (update_option (lan_env true true) (kvm_options "new") s).1 in
  mdns_fine s' /\ announced s' = ["new.local."].
Proof.
  split; [|vm_compute; reflexivity].
  apply (changed_options_are_announced (lan_env true true) (kvm_options "new")
    (start (lan_env true true) (mdns_new (kvm_options "kvm"))).1); [split; [reflexivity|apply Nat.leb_le; vm_compute; reflexivity]|discriminate|].
  vm_compute. reflexivity.
Defined.
