(* ===== verification/Hdmi.v ===== *)
(** * HDMI capture (hardware/hdmi/mod.rs, rk628_hpd.rs, video.rs)

    From the plug of the cable to the frames that reach the sinks: the status of
    the receiver, the threads that follow the signal and capture from it, the
    events that start and stop them, and the writer of frames.  The driver, the
    encoder and the flags another thread may change at any time answer through
    an environment.  Floating point numbers are exact rationals. *)

From Stdlib Require Import QArith Qabs Qround.
From S2P Require Import Prelude Text Words Session SessionPlane.
#[local] Open Scope Z_scope.

(** ** The receiver *)

Inductive HdmiConnectionStatus : Set := Connected | Disconnected | NoSignal | UnknownStatus.

#[export] Instance HdmiConnectionStatus_eq_dec : EqDecision HdmiConnectionStatus.
Proof. solve_decision. Defined.

Definition status_from_str (s : string) : HdmiConnectionStatus :=
  let s := trim s in
  if String.eqb s "plugin" then Connected else if String.eqb s "plugout" then Disconnected else UnknownStatus.

Definition parse_u32 : string -> option Z := parse_unsigned 10 u32_max digit_of.
Definition parse_u32_hex : string -> option Z := parse_unsigned 16 u32_max hex_digit_of.

Definition timing_number (s : string) : Z :=
  match strip_prefix "0x" s with
  | Some digits => default 0 (parse_u32_hex digits)
  | None => default 0 (parse_u32 s)
  end.

Definition parse_timing_resolution (timing_str : string) : Z * Z :=
  match split_once "x" timing_str with
  | None => (0, 0)
  | Some (before_x, after_x) =>
      match split_once "p" after_x with
      | None => (0, 0)
      | Some (h, _) => (timing_number (trim before_x), timing_number (trim h))
      end
  end.

(** A file: not there, not readable, or its text. *)
Inductive FileText : Type := Missing | Unreadable | Text (content : string).

Definition read_status_fallback (audio_rate : FileText) : Result string HdmiConnectionStatus :=
  match audio_rate with
  | Missing => Ok UnknownStatus
  | Unreadable => Err "Failed to read RK628 sysfs audio_rate file"
  | Text content => Ok (if default 0 (parse_u32 (trim content)) =? 0 then Disconnected else Connected)
  end.

(** The last line of each kind. *)
Definition status_line (acc : option HdmiConnectionStatus * option (Z * Z)) (line : string)
  : option HdmiConnectionStatus * option (Z * Z) :=
  let acc := match strip_prefix "status:" line with
             | Some s => (Some (status_from_str (trim s)), acc.2)
             | None => acc
             end in
  match strip_prefix "Timing:" line with
  | Some t => (acc.1, Some (parse_timing_resolution (trim t)))
  | None => acc
  end.

Definition read_status (debugfs audio_rate : FileText) : Result string HdmiConnectionStatus :=
  match debugfs with
  | Missing => Err "RK628 debugfs status file does not exist"
  | Unreadable => Err "Failed to read RK628 debugfs status file"
  | Text content =>
      match fold_left status_line (lines content) (None, None) with
      | (Some Connected, Some (0, 0)) => Ok NoSignal
      | (Some s, _) => Ok s
      | (None, _) => read_status_fallback audio_rate
      end
  end.

(** One turn of the polling task: the status it remembers, and what it sends. *)
Definition poll_turn (last_status : HdmiConnectionStatus) (r : Result string HdmiConnectionStatus)
  : HdmiConnectionStatus * option HdmiConnectionStatus :=
  match r with
  | Ok status => if bool_decide (status = last_status) then (last_status, None) else (status, Some status)
  | Err _ => (last_status, None)
  end.

Definition get_rk628_audio_rate (audio_rate : FileText) : option Z :=
  match audio_rate with
  | Text content => match parse_u32 (trim content) with Some rate => if 0 <? rate then Some rate else None | None => None end
  | _ => None
  end.

(** ** The thread that follows the signal *)

Record Shared := mkShared { sh_fps : Q; sh_width : Z; sh_height : Z; sh_changed : bool }.

(** The fields of [v4l2_bt_timings] that are read. *)
Record Timings := mkTimings {
  bt_pixelclock : Z; bt_width : Z; bt_height : Z; bt_hfrontporch : Z; bt_hsync : Z; bt_hbackporch : Z;
  bt_vfrontporch : Z; bt_vsync : Z; bt_vbackporch : Z }.

Definition calculate_fps (bt : Timings) : Q :=
  let total_width := wrap32 (bt_width bt + bt_hfrontporch bt + bt_hsync bt + bt_hbackporch bt) in
  let total_height := wrap32 (bt_height bt + bt_vfrontporch bt + bt_vsync bt + bt_vbackporch bt) in
  if (0 <? total_width) && (0 <? total_height)
  then Qdiv (inject_Z (bt_pixelclock bt)) (inject_Z (total_width * total_height)) else 0%Q.

Definition Qpos (q : Q) : bool := negb (Qle_bool q 0).

(** What the thread has seen last: frame rate, width, height. *)
Definition Seen : Type := (Q * Z * Z)%type.

Definition hw_turn (answer : option Timings) (last : Seen) (sh : Shared) : Seen * Shared :=
  let '(last_fps, last_hw_w, last_hw_h) := last in
  match answer with
  | Some bt =>
      let hw_w := bt_width bt in
      let hw_h := bt_height bt in
      let fps := calculate_fps bt in
      if (0 <? hw_w) && (0 <? hw_h) && Qpos fps
         && (negb (hw_w =? last_hw_w) || negb (hw_h =? last_hw_h) || negb (Qle_bool (Qabs (fps - last_fps)) 1))
      then ((fps, hw_w, hw_h), mkShared fps hw_w hw_h true)
      else (last, sh)
  | None => if Qpos last_fps then ((0%Q, 0, 0), mkShared 0 0 0 true) else (last, sh)
  end.

(** At the end of the thread. *)
Definition hw_end (sh : Shared) : Shared := mkShared 0 0 0 (sh_changed sh).

(** ** The thread that captures *)

Definition REF_WIDTH : Z := 1920.
Definition REF_HEIGHT : Z := 1080.
Definition MAX_RESOLUTION : Z := REF_WIDTH * REF_HEIGHT.
Definition RESOLUTION_1920_1200 : Z := 1920 * 1200.
Definition BASE_BITRATE : Z := 2000.
Definition MIN_BITRATE : Z := 200.
Definition INPUT_BUFFER_COUNT : Z := 2.

Definition calculate_bitrate (quality_factor : Q) (width height : Z) : Z :=
  let scale_factor := Qdiv (inject_Z (wrap32 (width * height))) (inject_Z (REF_WIDTH * REF_HEIGHT)) in
  let base_bitrate := Qmult (inject_Z BASE_BITRATE) quality_factor in
  Z.max (Z.min (Qfloor (Qmult base_bitrate scale_factor)) 2147483647) MIN_BITRATE.

Definition capture_size (hw_w hw_h : Z) : Z * Z :=
  let resolution := wrap32 (hw_w * hw_h) in
  if MAX_RESOLUTION <? resolution then
    if resolution =? RESOLUTION_1920_1200 then (hw_w, hw_h)
    else if hw_h <? hw_w then (REF_WIDTH, REF_HEIGHT) else (REF_HEIGHT, REF_WIDTH)
  else (hw_w, hw_h).

(** [f64::round] on what is not negative. *)
Definition Qround (q : Q) : Z := Qfloor (q + (1 # 2)).
Definition Qmin_ (a b : Q) : Q := if Qle_bool a b then a else b.

(** Twice the offset of the picture in the frame. *)
Definition center_offset (hw_w hw_h width height : Z) : Z * Z :=
  if wrap32 (hw_w * hw_h) =? wrap32 (width * height) then (0, 0)
  else
    let scale := Qmin_ (Qdiv (inject_Z width) (inject_Z hw_w)) (Qdiv (inject_Z height) (inject_Z hw_h)) in
    let scaled_w := Qround (Qmult (inject_Z hw_w) scale) in
    let scaled_h := Qround (Qmult (inject_Z hw_h) scale) in
    (u32_wrapping_sub width scaled_w, u32_wrapping_sub height scaled_h).

Record Report := mkReport { rp_ready : bool; rp_error : option string; rp_width : Z; rp_height : Z; rp_offset : Z * Z; rp_fps : Q }.

Inductive Fx : Type :=
| FOpen | FSetFormat (w h : Z) | FCreatePool (size : Z) | FRequestBuffers | FStartVenc (bitrate w h : Z) | FStreamOn
| FSend (index : nat) (frame_count : nat) | FRequeue (index : nat)
| FStopVenc | FStreamOff | FReleaseBuffers | FDestroyPool | FClose
| FReport (r : Report).

(** The variables of the thread, and what it did; [st_pool]: [mem_pool]. *)
Record Stream := mkStream { st_last : Z * Z * (Z * Z); st_retry : bool; st_pool : bool; st_fx : list Fx }.

Definition stream_new : Stream := mkStream (0, 0, (0, 0)) false false [].

Definition set_last x s := mkStream x (st_retry s) (st_pool s) (st_fx s).
Definition set_retry x s := mkStream (st_last s) x (st_pool s) (st_fx s).
Definition set_pool x s := mkStream (st_last s) (st_retry s) x (st_fx s).
Definition fx_did x s := mkStream (st_last s) (st_retry s) (st_pool s) (st_fx s ++ [x]).
Definition again (s : Stream) : Stream := set_retry true s.

Inductive SelectAnswer : Set := SelTimeout | SelInterrupted | SelFailed | SelOther | SelReady.

(** A turn of the inner loop: whether the signal changed, and the answers of the
    calls; [fr_dequeue] has the index of a buffer and whether it has a block. *)
Record FrameTurn := mkFrameTurn {
  fr_changed : bool; fr_select : SelectAnswer; fr_dequeue : option (nat * bool); fr_send : bool; fr_running : bool; fr_requeue : bool }.

(** One turn of the outer loop. *)
Record TurnEnv := mkTurn {
  te_changed : bool; te_shared : Shared; te_quality : Q;
  te_open : bool; te_set_format : option (Z * Z); te_set_again : option (Z * Z); te_get_format : option (Z * Z);
  te_pool : bool; te_buffers : bool; te_venc : bool; te_stream_on : bool; te_fps_now : Q; te_frames : list FrameTurn }.

(** Up to the end of the answers the flags let the loop go on. *)
Fixpoint capture_loop (frames : list FrameTurn) (frame_count : nat) (s : Stream) : Stream :=
  match frames with
  | [] => s
  | f :: frames =>
      if fr_changed f then s
      else match fr_select f with
           | SelTimeout | SelFailed => again s
           | SelInterrupted | SelOther => capture_loop frames frame_count s
           | SelReady =>
               match fr_dequeue f with
               | None => again s
               | Some (buf_index, has_block) =>
                   let requeue s := let s := fx_did (FRequeue buf_index) s in
                                    if fr_requeue f then capture_loop frames (S frame_count) s else again s in
                   if has_block then
                     let s := fx_did (FSend buf_index frame_count) s in
                     if negb (fr_send f) then again s else if negb (fr_running f) then again s else requeue s
                   else requeue s
               end
           end
  end.

Definition try_video_format (answer : option (Z * Z)) (width height : Z) : bool :=
  match answer with Some (w, h) => (w =? width) && (h =? height) | None => false end.

Definition report_new_format (fps_now : Q) (width height : Z) (offset : Z * Z) (s : Stream) : Stream :=
  if bool_decide (st_last s = (width, height, offset)) then s
  else
    let fps := if Qpos fps_now then fps_now else 60%Q in
    set_last (width, height, offset) (fx_did (FReport (mkReport true None (width mod 65536) (height mod 65536) offset fps)) s).

Definition release_pool (s : Stream) : Stream := if st_pool s then set_pool false (fx_did FDestroyPool s) else s.

Definition stream_turn (e : TurnEnv) (s : Stream) : Stream :=
  if negb (te_changed e) && negb (st_retry s) then s
  else
    let s := set_retry false s in
    let hw_w := sh_width (te_shared e) in
    let hw_h := sh_height (te_shared e) in
    if (hw_w =? 0) || (hw_h =? 0) || Qeq_bool (sh_fps (te_shared e)) 0 then s
    else
      let '(width, height) := capture_size hw_w hw_h in
      if negb (te_open e) then again s
      else
        let s := fx_did (FSetFormat width height) (fx_did FOpen s) in
        let formatted := try_video_format (te_set_format e) width height in
        let s := if formatted then s else fx_did (FSetFormat width height) s in
        if negb formatted && negb (try_video_format (te_set_again e) width height) then again (fx_did FClose s)
        else match te_get_format e with
        | None => again (fx_did FClose s)
        | Some (width, height) =>
            let offset := center_offset hw_w hw_h width height in
            if st_pool s || negb (te_pool e) then again (fx_did FClose s)
            else
              let s := set_pool true (fx_did (FCreatePool (wrap32 (width * height * 2))) s) in
              let bitrate := calculate_bitrate (te_quality e) width height in
              if negb (te_buffers e) then again (fx_did FClose (release_pool s))
              else
                let s := fx_did FRequestBuffers s in
                if negb (te_venc e) then again (fx_did FClose (release_pool (fx_did FReleaseBuffers s)))
                else
                  let s := fx_did (FStartVenc bitrate width height) s in
                  if negb (te_stream_on e)
                  then again (fx_did FClose (release_pool (fx_did FReleaseBuffers (fx_did FStopVenc s))))
                  else
                    let s := report_new_format (te_fps_now e) width height offset (fx_did FStreamOn s) in
                    let s := capture_loop (te_frames e) 0 s in
                    fx_did FClose (release_pool (fx_did FReleaseBuffers (fx_did FStreamOff (fx_did FStopVenc s))))
        end.

(** The turns of the thread until its flags stop it. *)
Definition run_video_stream (turns : list TurnEnv) : Stream := fold_left (fun s e => stream_turn e s) turns stream_new.

(** ** Starting and stopping the threads

    Threads have numbers.  [thread_done]: a thread of the kind ended in the three
    seconds it is given. *)

Record Capture := mkCapture {
  should_exit : bool; streaming_flag : bool; venc_running : bool;
  detector : option nat; streamer : option nat; (** the handles *)
  detectors : list nat; streamers : list nat; (** the threads that run *)
  next_thread : nat; sub_dev : bool; reports : list string }.

Definition capture_new : Capture := mkCapture false false false None None [] [] 0 false [].

Definition set_exit x c := mkCapture x (streaming_flag c) (venc_running c) (detector c) (streamer c) (detectors c) (streamers c) (next_thread c) (sub_dev c) (reports c).
Definition set_streaming x c := mkCapture (should_exit c) x (venc_running c) (detector c) (streamer c) (detectors c) (streamers c) (next_thread c) (sub_dev c) (reports c).
Definition set_venc x c := mkCapture (should_exit c) (streaming_flag c) x (detector c) (streamer c) (detectors c) (streamers c) (next_thread c) (sub_dev c) (reports c).
Definition set_detector h l n c := mkCapture (should_exit c) (streaming_flag c) (venc_running c) h (streamer c) l (streamers c) n (sub_dev c) (reports c).
Definition set_streamer h l n c := mkCapture (should_exit c) (streaming_flag c) (venc_running c) (detector c) h (detectors c) l n (sub_dev c) (reports c).
Definition report_error x c := mkCapture (should_exit c) (streaming_flag c) (venc_running c) (detector c) (streamer c) (detectors c) (streamers c) (next_thread c) (sub_dev c) (reports c ++ [x]).

Definition init_capture (sub_dev_opens : bool) (c : Capture) : Capture :=
  mkCapture (should_exit c) (streaming_flag c) (venc_running c) (detector c) (streamer c) (detectors c) (streamers c) (next_thread c) sub_dev_opens (reports c).

Definition without (t : nat) (l : list nat) : list nat := List.filter (fun x => negb (x =? t)%nat) l.

(** [clones]: the descriptor of the sub device can be duplicated. *)
Definition start_hw_detection (clones : bool) (c : Capture) : Capture :=
  match detector c with
  | Some _ => c
  | None => if sub_dev c && clones
            then set_detector (Some (next_thread c)) (detectors c ++ [next_thread c]) (S (next_thread c)) c else c
  end.

Definition start_streaming (c : Capture) : Capture :=
  match streamer c with
  | Some _ => c
  | None =>
      let c := set_streaming true (set_exit false c) in
      set_streamer (Some (next_thread c)) (streamers c ++ [next_thread c]) (S (next_thread c)) c
  end.

(** A thread only ends when its flag is up; until then waiting for it times out. *)
Definition wait_to_exit_hw_detection (thread_done : bool) (c : Capture) : Capture :=
  match detector c with
  | None => c
  | Some t => set_detector None (if thread_done && should_exit c then without t (detectors c) else detectors c) (next_thread c) c
  end.

Definition stop_streaming (thread_done : bool) (c : Capture) : Capture :=
  let c := set_streaming false c in
  let c := match streamer c with
           | None => c
           | Some t => set_streamer None (if thread_done then without t (streamers c) else streamers c) (next_thread c) c
           end in
  set_venc false c.

(** [restart_streaming]; the flag stays up while the thread that follows the signal
    is started. *)
Definition restart_streaming (detector_done streamer_done clones : bool) (c : Capture) : Result string unit * Capture :=
  let c := stop_streaming streamer_done (wait_to_exit_hw_detection detector_done (set_exit true c)) in
  match detector c with
  | Some _ => (Ok tt, start_streaming c)
  | None =>
      if negb (sub_dev c) then (Err "Sub device not initialized", c)
      else if negb clones then (Err "Failed to clone sub device file descriptor", c)
      else (Ok tt, start_streaming (start_hw_detection clones c))
  end.

(** [set_quality]: the quality kept, and whether the stream has to start anew. *)
Definition set_quality (quality : Q) (c : Capture) : Q * bool :=
  ((if Qle_bool quality 0 then 0%Q else if Qle_bool 1 quality then 1%Q else quality), venc_running c).

(** How an event goes: whether the descriptor can be duplicated, and whether the
    threads end in time. *)
Record EventEnv := mkEventEnv { ev_clones : bool; ev_detector_done : bool; ev_streamer_done : bool }.

Definition on_hpd (e : EventEnv) (status : HdmiConnectionStatus) (c : Capture) : Capture :=
  let stopped error c :=
    report_error error (stop_streaming (ev_streamer_done e) (wait_to_exit_hw_detection (ev_detector_done e) (set_exit true c))) in
  match status with
  | Connected => start_streaming (start_hw_detection (ev_clones e) (set_streaming true (set_exit false c)))
  | Disconnected => stopped "hdmi_disconnected" c
  | NoSignal => stopped "hdmi_no_signal" c
  | UnknownStatus => c
  end.

(** [shutdown]: the flag; then the task of the events goes on until its sender is
    gone; then the threads. *)
Definition shutdown (e : EventEnv) (late : list (EventEnv * HdmiConnectionStatus)) (c : Capture) : Capture :=
  let c := set_exit true c in
  let c := fold_left (fun c ev => on_hpd ev.1 ev.2 c) late c in
  stop_streaming (ev_streamer_done e) (wait_to_exit_hw_detection (ev_detector_done e) c).

(** ** The application's side (video.rs) *)

(** [HDMI_CAPTURE] with its quality, the flags of the monitoring task, and the
    quality of the configuration. *)
Record Video := mkVideo { v_capture : option (Capture * Q); v_running : bool; v_status : bool; v_quality : Q }.

Definition start_video_monitoring_task (v : Video) : Video := mkVideo (v_capture v) true true (v_quality v).

(** A tick of the monitoring task. *)
Definition monitoring_tick (v : Video) : Video :=
  if v_running v && negb (v_status v) then mkVideo (v_capture v) false (v_status v) (v_quality v) else v.

Definition start_native_video (mpi_starts sub_dev_opens : bool) (v : Video) : Result string unit * Video :=
  match v_capture v with
  | Some _ => (Ok tt, v)
  | None =>
      if negb mpi_starts then (Err "Failed to initialize Rockchip MPP system", v)
      else if negb sub_dev_opens then (Err "Failed to open /dev/v4l-subdev2", v)
      else (Ok tt, start_video_monitoring_task
                     (mkVideo (Some (init_capture true capture_new, (set_quality (v_quality v) capture_new).1))
                        (v_running v) (v_status v) (v_quality v)))
  end.

(** The capture that is shut down is let go. *)
Definition stop_native_video (v : Video) : Video := mkVideo None (v_running v) false (v_quality v).

(** [stored]: the configuration is written.  The last part of the result: the stream
    starts anew. *)
Definition update_video_quality (stored : bool) (quality : Q) (v : Video) : Result string unit * Video * bool :=
  if negb (Qle_bool 0 quality && Qle_bool quality 1) then (Err "Quality must be between 0.0 and 1.0", v, false)
  else if negb stored then (Err "config", v, false)
  else match v_capture v with
       | Some (c, _) => let '(q, anew) := set_quality quality c in
                        (Ok tt, mkVideo (Some (c, q)) (v_running v) (v_status v) quality, anew)
       | None => (Ok tt, mkVideo None (v_running v) (v_status v) quality, false)
       end.

Definition get_video_quality (v : Video) : Q :=
  match v_capture v with Some (_, q) => q | None => v_quality v end.

(** ** The writer of frames (video.rs) *)

(** [write_ok]: the track of a session takes the frame within a second.  Who gets
    it is decided before the first write. *)
Definition frame_receivers (sinks : gmap SessionRole string) (is_keyframe : bool) : list (SessionRole * string) :=
  List.filter (fun e => bool_decide (e.1 = User) || is_keyframe) (map_to_list sinks).

Definition write_frame (write_ok : SessionRole -> string -> bool) (is_keyframe : bool) (sinks : gmap SessionRole string)
  : gmap SessionRole string * list (SessionRole * string) :=
  let entries := frame_receivers sinks is_keyframe in
  (fold_left (fun sinks e => if write_ok e.1 e.2 then sinks else detach_if_session e.1 e.2 sinks) entries sinks,
   List.filter (fun e => write_ok e.1 e.2) entries).

(** * The driver is used as it wants to be *)

(** What is held: device, pool, buffers, encoder, stream. *)
Record Held := mkHeld { h_dev : bool; h_pool : bool; h_bufs : bool; h_enc : bool; h_on : bool }.

Definition nothing_held : Held := mkHeld false false false false false.

(** The order in which the driver and the encoder have to be set up, used and
    given back. *)
Definition allowed (f : Fx) (h : Held) : option Held :=
  match f, h with
  | FOpen, mkHeld false p b e o => Some (mkHeld true p b e o)
  | FSetFormat _ _, mkHeld true _ false _ false => Some h
  | FCreatePool _, mkHeld true false b e o => Some (mkHeld true true b e o)
  | FRequestBuffers, mkHeld true true false e o => Some (mkHeld true true true e o)
  | FStartVenc _ _ _, mkHeld d p true false o => Some (mkHeld d p true true o)
  | FStreamOn, mkHeld true p true true false => Some (mkHeld true p true true true)
  | FSend _ _, mkHeld true true true true true => Some h
  | FRequeue _, mkHeld true true true true true => Some h
  | FStopVenc, mkHeld d p b true o => Some (mkHeld d p b false o)
  | FStreamOff, mkHeld true p b false true => Some (mkHeld true p b false false)
  | FReleaseBuffers, mkHeld true p true false false => Some (mkHeld true p false false false)
  | FDestroyPool, mkHeld d true false e o => Some (mkHeld d false false e o)
  | FClose, mkHeld true false false false false => Some nothing_held
  | FReport _, mkHeld true true true true true => Some h
  | _, _ => None
  end.

Definition follow (fs : list Fx) (h : option Held) : option Held :=
  fold_left (fun h f => match h with Some h => allowed f h | None => None end) fs h.

Lemma follow_app a b h : follow (a ++ b) h = follow b (follow a h).
Proof. apply fold_left_app. Qed.

(** What the thread holds, from what it did. *)
Definition holds (s : Stream) : option Held := follow (st_fx s) (Some nothing_held).

Lemma holds_did f s h : holds s = Some h -> holds (fx_did f s) = allowed f h.
Proof. unfold holds. cbn. intros H. rewrite follow_app, H. done. Qed.

Lemma holds_retry x s : holds (set_retry x s) = holds s.
Proof. done. Qed.

(** The effects after those of [s] are written out. *)
Ltac holds_by Hs :=
  unfold holds; cbn [st_fx fx_did again set_retry set_pool set_last release_pool st_pool]; rewrite !follow_app;
  unfold holds in Hs; rewrite Hs; reflexivity.

Definition streaming : Held := mkHeld true true true true true.

Lemma capture_holds frames : ∀ n s, holds s = Some streaming ->
  holds (capture_loop frames n s) = Some streaming /\ st_pool (capture_loop frames n s) = st_pool s.
Proof.
  induction frames as [|f frames IH]; intros n s Hs; [done|]. cbn [capture_loop].
  destruct (fr_changed f); [done|]. destruct (fr_select f); try done; try by apply IH.
  destruct (fr_dequeue f) as [[i has_block]|]; [|done]. cbv zeta.
  assert (∀ s, holds s = Some streaming -> holds (fx_did (FRequeue i) s) = Some streaming) as Hq
    by (intros s' H; by rewrite (holds_did _ _ _ H)).
  destruct has_block.
  - assert (holds (fx_did (FSend i n) s) = Some streaming) as Hsend by by rewrite (holds_did _ _ _ Hs).
    destruct (negb (fr_send f)); [done|]. destruct (negb (fr_running f)); [done|].
    destruct (fr_requeue f); [|split; [by apply Hq|done]].
    destruct (IH (S n) _ (Hq _ Hsend)) as [H1 H2]. done.
  - destruct (fr_requeue f); [|split; [by apply Hq|done]]. destruct (IH (S n) _ (Hq _ Hs)) as [H1 H2]. done.
Qed.

Lemma report_holds fps w h o s : holds s = Some streaming ->
  holds (report_new_format fps w h o s) = Some streaming /\ st_pool (report_new_format fps w h o s) = st_pool s.
Proof. intros Hs. unfold report_new_format. case_bool_decide; [done|]. split; [holds_by Hs|done]. Qed.

(** Nothing held, and no pool left behind. *)
Definition at_rest (s : Stream) : Prop := holds s = Some nothing_held /\ st_pool s = false.

Lemma close_rests s : holds s = Some streaming -> st_pool s = true ->
  at_rest (fx_did FClose (release_pool (fx_did FReleaseBuffers (fx_did FStreamOff (fx_did FStopVenc s))))).
Proof. intros Hs Hp. unfold release_pool. cbn [st_pool fx_did]. rewrite Hp. split; [holds_by Hs|done]. Qed.

Lemma turn_rests e s : at_rest s -> at_rest (stream_turn e s).
Proof.
  intros [Hs Hp]. unfold stream_turn. destruct (negb (te_changed e) && negb (st_retry s)); [done|].
  rewrite <- (holds_retry false) in Hs. assert (st_pool (set_retry false s) = false) as Hp0 by done. revert Hs Hp0.
  generalize (set_retry false s). clear s Hp. intros s Hs Hp. cbv zeta.
  destruct (_ || _ || _); [done|]. destruct (capture_size _ _) as [width height]. destruct (negb (te_open e)); [done|].
  set (s1 := if try_video_format (te_set_format e) width height then _ else _).
  assert (holds s1 = Some (mkHeld true false false false false) /\ st_pool s1 = false) as [H1 P1].
  { unfold s1. destruct (try_video_format _ _ _); (split; [holds_by Hs|done]). }
  clearbody s1. clear s Hs Hp.
  destruct (negb (try_video_format (te_set_format e) _ _) && _); [split; [holds_by H1|done]|].
  destruct (te_get_format e) as [[w h]|]; [|split; [holds_by H1|done]].
  rewrite P1, orb_false_l. destruct (negb (te_pool e)); [split; [holds_by H1|done]|].
  destruct (negb (te_buffers e)); [split; [holds_by H1|done]|].
  destruct (negb (te_venc e)); [split; [holds_by H1|done]|].
  destruct (negb (te_stream_on e)); [split; [holds_by H1|done]|].
  set (s2 := fx_did FStreamOn _). assert (holds s2 = Some streaming) as H2 by (unfold s2; holds_by H1).
  assert (st_pool s2 = true) as P2 by done. clearbody s2.
  destruct (report_holds (te_fps_now e) w h (center_offset (sh_width (te_shared e)) (sh_height (te_shared e)) w h) s2 H2) as [H3 P3].
  destruct (capture_holds (te_frames e) 0 _ H3) as [H4 P4]. apply close_rests; [done|by rewrite P4, P3].
Qed.

Lemma turns_rest turns : ∀ s, at_rest s -> at_rest (fold_left (fun s e => stream_turn e s) turns s).
Proof. induction turns as [|e turns IH]; intros s Hs; [done|]. cbn. by apply IH, turn_rests. Qed.

(** C29: However the calls of the driver and the encoder end, the capture thread
    uses them in the order they need, gives frames to the encoder only while
    everything is set up, and holds nothing between two attempts or at its end. *)
Theorem capture_follows_protocol turns :
  follow (st_fx (run_video_stream turns)) (Some nothing_held) = Some nothing_held /\ st_pool (run_video_stream turns) = false.
Proof. exact (turns_rest turns stream_new (conj eq_refl eq_refl)). Qed.

(** ** Threads *)

Definition timely (e : EventEnv) : Prop := ev_clones e = true /\ ev_detector_done e = true /\ ev_streamer_done e = true.

(** Every thread that runs has its handle, and both run or neither. *)
Definition threads_fine (on : bool) (c : Capture) : Prop :=
  sub_dev c = true /\ detectors c = option_list (detector c) /\ streamers c = option_list (streamer c)
  /\ (if on then is_Some (detector c) /\ is_Some (streamer c) /\ should_exit c = false /\ streaming_flag c = true
      else detector c = None /\ streamer c = None).

Definition wanted (on : bool) (status : HdmiConnectionStatus) : bool :=
  match status with Connected => true | Disconnected | NoSignal => false | UnknownStatus => on end.

Lemma hpd_step e status on c : timely e -> threads_fine on c -> threads_fine (wanted on status) (on_hpd e status c).
Proof.
  intros (Hc & Hd & Hs) (Hsub & Hdt & Hst & Hon). destruct c as [ex sf vr dt st dts sts n sd rp]. cbn in *. subst.
  destruct status; cbn [wanted on_hpd]; [| | |done].
  { unfold start_hw_detection, start_streaming. cbn. rewrite Hc.
    destruct on; [destruct Hon as ([? ->] & [? ->] & -> & ->)|destruct Hon as [-> ->]]; cbn; unfold threads_fine; cbn; naive_solver. }
  all: unfold wait_to_exit_hw_detection, stop_streaming; cbn; rewrite Hd, Hs.
  all: destruct on; [destruct Hon as ([? ->] & [? ->] & -> & ->)|destruct Hon as [-> ->]]; cbn; unfold threads_fine; cbn; by rewrite ?Nat.eqb_refl.
Qed.

(** As long as threads end in the time they are given, after any sequence of
    events of the cable both threads run exactly when the last event that says
    something says there is a picture, one of each kind and no other. *)
Theorem threads_follow_cable evs : Forall (fun ev => timely ev.1) evs -> ∀ on c, threads_fine on c ->
  threads_fine (fold_left (fun on ev => wanted on ev.2) evs on) (fold_left (fun c ev => on_hpd ev.1 ev.2 c) evs c).
Proof.
  induction 1 as [|ev evs Hev _ IH]; intros on c Hc; [done|]. cbn. by apply IH, hpd_step.
Qed.

(** ** Frames *)

Lemma detach_lookup role id sinks r :
  detach_if_session role id sinks !! r = if bool_decide (r = role /\ sinks !! r = Some id) then None else sinks !! r.
Proof.
  unfold detach_if_session. destruct (sinks !! role) as [id'|] eqn:E.
  - destruct (String.eqb_spec id' id) as [->|Hne].
    + destruct (decide (r = role)) as [->|Hr].
      * rewrite bool_decide_true by done. apply lookup_delete_eq.
      * rewrite bool_decide_false by naive_solver. by apply lookup_delete_ne.
    + rewrite bool_decide_false; [done|]. intros [-> H]. congruence.
  - rewrite bool_decide_false; [done|]. intros [-> H]. congruence.
Qed.

Definition failed_for (write_ok : SessionRole -> string -> bool) (l : list (SessionRole * string)) (r : SessionRole) (id : string) : bool :=
  existsb (fun e : SessionRole * string => bool_decide (e = (r, id)) && negb (write_ok r id)) l.

Lemma written_lookup (write_ok : SessionRole -> string -> bool) (l : list (SessionRole * string)) :
  ∀ (sinks : gmap SessionRole string) r,
  fold_left (fun sinks e => if write_ok e.1 e.2 then sinks else detach_if_session e.1 e.2 sinks) l sinks !! r
  = match sinks !! r with Some id => if failed_for write_ok l r id then None else Some id | None => None end.
Proof.
  induction l as [|[role id] l IH]; intros sinks r; cbn [fold_left fst snd]; [by destruct (sinks !! r)|].
  rewrite IH. unfold failed_for. cbn [existsb]. destruct (write_ok role id) eqn:Ew.
  - destruct (sinks !! r) as [i|]; [|done]. case_bool_decide as He; [|done]. injection He as -> ->. by rewrite Ew.
  - rewrite detach_lookup. destruct (sinks !! r) as [i|]; [|by case_bool_decide].
    destruct (decide ((role, id) = (r, i))) as [He|Hne].
    + injection He as -> ->. rewrite !bool_decide_true by done. by rewrite Ew.
    + rewrite (bool_decide_false (_ = _)) by done. rewrite bool_decide_false by naive_solver. done.
Qed.

(** A frame goes to every sink of a user, to that of an agent only if it is a
    key frame; a sink leaves the table exactly when it should have got the frame
    and could not take it. *)
Theorem frames_reach_sinks write_ok is_keyframe sinks role id :
  let got := (write_frame write_ok is_keyframe sinks).2 in
  let after := (write_frame write_ok is_keyframe sinks).1 in
  ((role, id) ∈ got <-> sinks !! role = Some id /\ (role = User \/ is_keyframe = true) /\ write_ok role id = true)
  /\ (after !! role = Some id <->
      sinks !! role = Some id /\ ((role ≠ User /\ is_keyframe = false) \/ write_ok role id = true)).
Proof.
  cbn zeta. unfold write_frame. cbn [fst snd].
  assert (∀ r i, (r, i) ∈ frame_receivers sinks is_keyframe <-> sinks !! r = Some i /\ (r = User \/ is_keyframe = true)) as Hrec.
  { intros r i. unfold frame_receivers. rewrite list_elem_of_In, filter_In, <- list_elem_of_In, elem_of_map_to_list. cbn [fst].
    rewrite orb_true_iff, bool_decide_eq_true. done. }
  split.
  - rewrite list_elem_of_In, filter_In, <- list_elem_of_In, Hrec. cbn. naive_solver.
  - rewrite written_lookup. assert (∀ i, failed_for write_ok (frame_receivers sinks is_keyframe) role i = true <->
      (role, i) ∈ frame_receivers sinks is_keyframe /\ write_ok role i = false) as Hf.
    { intros i. unfold failed_for. rewrite existsb_exists. split.
      - intros (e & He & H). apply andb_true_iff in H as [->%bool_decide_eq_true_1 H%negb_true_iff]. by rewrite list_elem_of_In.
      - intros [He Hw]. exists (role, i). rewrite <- list_elem_of_In. rewrite bool_decide_true by done. by rewrite Hw. }
    destruct (sinks !! role) as [i|] eqn:E; [|naive_solver].
    destruct (failed_for write_ok (frame_receivers sinks is_keyframe) role i) eqn:Ef.
    + apply Hf in Ef as [Hr Hw]. apply Hrec in Hr as [_ Hr]. split; [done|]. intros [[= <-] [[? ?]|H]]; [naive_solver|congruence].
    + assert (~ ((role, i) ∈ frame_receivers sinks is_keyframe /\ write_ok role i = false)) as Hn
        by (intros H; apply Hf in H; congruence). rewrite Hrec, E in Hn. split; [|naive_solver].
      intros [= <-]. split; [done|]. destruct (write_ok role i); [by right|]. left.
      destruct (decide (role = User)); [naive_solver|]. destruct is_keyframe; naive_solver.
Qed.

(** ** Quality *)

(** A quality that was set is the one asked for later, before the capture
    started as after; one out of range changes nothing. *)
Theorem quality_is_kept stored quality v :
  let r := update_video_quality stored quality v in
  match r.1.1 with
  | Ok _ => Qle_bool 0 quality && Qle_bool quality 1 = true /\ v_quality r.1.2 = quality
            /\ (get_video_quality r.1.2 == quality)%Q
            /\ r.2 = match v_capture v with Some (c, _) => venc_running c | None => false end
  | Err _ => r.1.2 = v
  end.
Proof.
  unfold update_video_quality. destruct (Qle_bool 0 quality) eqn:E0; [|done]. destruct (Qle_bool quality 1) eqn:E1; [|done].
  cbn [andb negb]. destruct stored; [|done]. cbn [negb]. destruct (v_capture v) as [[c q]|]; [|done].
  unfold set_quality. cbn. repeat split. apply Qle_bool_iff in E0, E1.
  destruct (Qle_bool quality 0) eqn:E2; [apply Qle_bool_iff in E2; by apply Qle_antisym|].
  destruct (Qle_bool 1 quality) eqn:E3; [apply Qle_bool_iff in E3; by apply Qle_antisym|done].
Qed.

(** ** Offsets *)

Lemma Qround_upto q z : (q <= inject_Z z)%Q -> Qround q <= z.
Proof.
  intros H. unfold Qround. transitivity (Qfloor (inject_Z z + (1 # 2))).
  - apply Qfloor_resp_le. by apply Qplus_le_compat; [|apply Qle_refl].
  - assert (Qfloor (inject_Z z + (1 # 2)) < z + 1) as Hlt; [|lia]. rewrite Zlt_Qlt.
    apply Qle_lt_trans with (inject_Z z + (1 # 2))%Q; [apply Qfloor_le|]. rewrite inject_Z_plus. apply Qplus_lt_r. reflexivity.
Qed.

Lemma Qround_nonneg q : (0 <= q)%Q -> 0 <= Qround q.
Proof.
  intros H. unfold Qround. change 0 with (Qfloor 0). apply Qfloor_resp_le.
  apply Qle_trans with q; [done|]. rewrite <- (Qplus_0_r q) at 1. apply Qplus_le_compat; [apply Qle_refl|done].
Qed.

Lemma Qmin_left a b : (Qmin_ a b <= a)%Q.
Proof.
  unfold Qmin_. destruct (Qle_bool a b) eqn:E; [apply Qle_refl|]. destruct (Qlt_le_dec b a) as [H|H]; [by apply Qlt_le_weak|].
  apply Qle_bool_iff in H. congruence.
Qed.
Lemma Qmin_right a b : (Qmin_ a b <= b)%Q.
Proof. unfold Qmin_. destruct (Qle_bool a b) eqn:E; [by apply Qle_bool_iff|apply Qle_refl]. Qed.

Lemma scaled_fits src target scale : 0 < src -> 0 <= target -> (0 <= scale)%Q -> (scale <= inject_Z target / inject_Z src)%Q ->
  0 <= Qround (inject_Z src * scale) <= target.
Proof.
  intros Hs Ht H0 H1. assert (0 < inject_Z src)%Q as Hq by by rewrite <- (Zlt_Qlt 0).
  split.
  - apply Qround_nonneg, Qmult_le_0_compat; [by apply Qlt_le_weak|done].
  - apply Qround_upto. apply Qle_trans with (inject_Z src * (inject_Z target / inject_Z src))%Q.
    + rewrite !(Qmult_comm (inject_Z src)). apply Qmult_le_compat_r; [done|by apply Qlt_le_weak].
    + rewrite Qmult_div_r; [apply Qle_refl|]. intros H. rewrite H in Hq. discriminate Hq.
Qed.

(** The picture is never placed outside the frame: the offsets on both sides
    together are at most the frame's width and height, and never negative. *)
Theorem picture_fits_in_frame hw_w hw_h width height :
  0 < hw_w -> 0 < hw_h -> 0 <= width < 2 ^ 32 -> 0 <= height < 2 ^ 32 ->
  0 <= (center_offset hw_w hw_h width height).1 <= width /\ 0 <= (center_offset hw_w hw_h width height).2 <= height.
Proof.
  intros Hw Hh Hwd Hht. unfold center_offset. destruct (_ =? _); [cbn; lia|]. cbv zeta. cbn [fst snd].
  set (scale := Qmin_ _ _).
  assert (∀ src target, 0 < src -> 0 <= target -> (0 <= inject_Z target / inject_Z src)%Q) as Hdiv.
  { intros src target H1 H2. apply Qle_shift_div_l; [by rewrite <- (Zlt_Qlt 0)|].
    rewrite Qmult_0_l. change 0%Q with (inject_Z 0). by rewrite <- Zle_Qle. }
  assert (0 <= scale)%Q as H0.
  { unfold scale, Qmin_. destruct (Qle_bool _ _); apply Hdiv; lia. }
  destruct (scaled_fits hw_w width scale) as [? ?]; [lia|lia|done|apply Qmin_left|].
  destruct (scaled_fits hw_h height scale) as [? ?]; [lia|lia|done|apply Qmin_right|].
  unfold u32_wrapping_sub, wrap32. rewrite !Z.mod_small by lia. lia.
Qed.

Lemma picture_fits_in_frame_witness :
  0 <= (center_offset 3840 2400 1920 1080).1 <= 1920 /\ 0 <= (center_offset 3840 2400 1920 1080).2 <= 1080
  /\ center_offset 3840 2400 1920 1080 = (192, 0).
Proof.
  destruct (picture_fits_in_frame 3840 2400 1920 1080) as [? ?]; [done|done|done|done|]. split; [done|]. split; [done|reflexivity].
Defined.

(** ** Concrete runs *)

Definition in_time : EventEnv := mkEventEnv true true true.

Lemma threads_follow_cable_witness :
  threads_fine true (fold_left (fun c ev => on_hpd ev.1 ev.2 c)
    [(in_time, Connected); (in_time, NoSignal); (in_time, UnknownStatus); (in_time, Connected)] (init_capture true capture_new)).
Proof.
  apply (threads_follow_cable [(in_time, Connected); (in_time, NoSignal); (in_time, UnknownStatus); (in_time, Connected)]) with (on := false).
  - repeat constructor.
  - repeat split.
Defined.

(** A thread that needs more than three seconds is left behind, and the flag it
    looks at goes up again with the next picture: two threads capture. *)
Lemma slow_stop_leaves_two_streams :
  streamers (fold_left (fun c ev => on_hpd ev.1 ev.2 c)
    [(in_time, Connected); (mkEventEnv true true false, Disconnected); (in_time, Connected)] (init_capture true capture_new)) = [1; 3]%nat.
Proof. reflexivity. Qed.

(** A picture that comes while the capture is shut down puts the flag back up: the
    thread that follows the signal stays. *)
Lemma late_connect_survives_shutdown :
  let c := shutdown in_time [(in_time, Connected)] (on_hpd in_time Connected (init_capture true capture_new)) in
  detectors c = [0%nat] /\ should_exit c = false /\ streamers c = [].
Proof. repeat split. Qed.

(** A number written as 0x... is cut at its x. *)
Lemma hex_resolution_is_not_read : parse_timing_resolution "0x780x0x438p60" = (0, 0).
Proof. vm_compute. reflexivity. Qed.
