(* ===== verification/RtcSession.v ===== *)
(** * Sessions over WebRTC (webrtc/mod.rs, session.rs, web.rs, audio.rs)

    What a session is set up with (ICE servers, codecs, payload types), how the
    candidates of both sides travel over the local WebSocket and the cloud, and
    when the media run.  JSON is a parameter; the peer connection and the sockets
    answer through an environment. *)

From S2P Require Import Prelude Text Session AppState IpForward ControlLease SessionPlane PlaneProofs Config Auth Signaling Words.

(** ** ICE servers *)

Record IceServerConfig := mkIce { is_urls : list string; is_username : string; is_credential : string }.

Definition resolve_ice_servers (credentialed : list IceServerConfig) (bare_urls : list string)
  : option (list IceServerConfig) :=
  match credentialed, bare_urls with
  | _ :: _, _ => Some credentialed
  | [], [] => None
  | [], _ => Some (map (fun url => mkIce [url] "" "") bare_urls)
  end.

Definition is_turn_url (url : string) : bool :=
  let lower := to_ascii_lowercase url in starts_with "turn:" lower || starts_with "turns:" lower.

Definition has_creds (e : IceServerConfig) : bool :=
  negb (is_empty (is_username e)) && negb (is_empty (is_credential e)).

Definition usable_url (e : IceServerConfig) (url : string) : bool := negb (is_turn_url url && negb (has_creds e)).

Definition rtc_ice_server (e : IceServerConfig) : option IceServerConfig :=
  match List.filter (usable_url e) (is_urls e) with
  | [] => None
  | urls => Some (mkIce urls (is_username e) (is_credential e))
  end.

Definition rtc_ice_servers_from_config (servers : list IceServerConfig) : list IceServerConfig :=
  omap rtc_ice_server servers.

(** The servers [new_session] gives to the peer connection. *)
Definition session_ice_servers (is_cloud : bool) (ice_servers : option (list IceServerConfig)) : list IceServerConfig :=
  if is_cloud then match ice_servers with Some servers => rtc_ice_servers_from_config servers | None => [] end else [].

(** ** Codecs *)

Inductive MediaKind : Set := KVideo | KAudio | KOther.

#[export] Instance MediaKind_eq_dec : EqDecision MediaKind.
Proof. solve_decision. Defined.

Record Codec := mkCodec {
  co_mime : string; co_clock_rate : Z; co_channels : Z; co_fmtp : string; co_feedback : list (string * string); co_payload_type : Z }.

Definition video_rtcp_feedback : list (string * string) :=
  [("goog-remb", ""); ("ccm", "fir"); ("nack", ""); ("nack", "pli")].

Definition h264 (mode profile : string) : Z -> Codec :=
  mkCodec "video/H264" 90000 0 ("level-asymmetry-allowed=1;packetization-mode=" +:+ mode +:+ ";profile-level-id=" +:+ profile)
    video_rtcp_feedback.

Definition set_video_codec : list Codec :=
  [mkCodec "video/VP8" 90000 0 "" video_rtcp_feedback 96;
   mkCodec "video/VP9" 90000 0 "profile-id=0" video_rtcp_feedback 98;
   mkCodec "video/VP9" 90000 0 "profile-id=1" video_rtcp_feedback 100;
   h264 "1" "42001f" 102; h264 "0" "42001f" 127; h264 "1" "42e01f" 125; h264 "0" "42e01f" 108;
   h264 "0" "42001f" 127; h264 "1" "640032" 123]%Z.

Definition set_audio_codec (webrtc_clock_rate audio_channels : Z) : list Codec :=
  [mkCodec "audio/opus" webrtc_clock_rate audio_channels "minptime=20" [] 111%Z].

Definition get_webrtc_clock_rate (detected : option Z) : Z :=
  let detected_rate := default 48000%Z detected in
  if existsb (Z.eqb detected_rate) [8000; 12000; 16000; 24000; 48000]%Z then detected_rate else 48000%Z.

(** The senders of the peer connection: the kind of their track and, if they can
    be read, the codecs of their parameters. *)
Fixpoint payload_type_among (kind : MediaKind) (preferred_mime : string) (senders : list (MediaKind * option (list Codec)))
  : option Z :=
  match senders with
  | [] => None
  | (k, codecs) :: senders =>
      if negb (bool_decide (k = kind)) then payload_type_among kind preferred_mime senders
      else match codecs with
           | None => None
           | Some codecs =>
               match List.find (fun c => eq_ignore_ascii_case (co_mime c) preferred_mime) codecs with
               | Some c => Some (co_payload_type c)
               | None => option_map co_payload_type (head codecs)
               end
           end
  end.

Definition negotiated_payload_type (kind : MediaKind) (senders : list (MediaKind * option (list Codec))) : option Z :=
  match kind with
  | KVideo => payload_type_among kind "video/H264" senders
  | KAudio => payload_type_among kind "audio/opus" senders
  | KOther => None
  end.

(** ** The offer of the other side (session.rs) *)

(** The calls of [exchange_offer] in their order; [local]: the local description. *)
Record OfferSteps := mkOfferSteps {
  os_decodes : bool; os_remote : bool; os_answer : bool; os_set_local : bool; os_local : option string }.

(** The value is the username fragment that is kept, if the description has one. *)
Definition exchange_offer (has_peer : bool) (e : OfferSteps) : Result string (option string) :=
  if negb (os_decodes e) then Err "decode"
  else if negb has_peer then Err "No peer connection available for session"
  else if negb (os_remote e) then Err "set_remote_description"
  else if negb (os_answer e) then Err "create_answer"
  else if negb (os_set_local e) then Err "set_local_description"
  else match os_local e with
       | None => Err "Failed to get local description after setting it"
       | Some sdp => Ok (option_map (fun line => trim (default "" (strip_prefix "a=ice-ufrag:" line)))
                           (List.find (starts_with "a=ice-ufrag:") (lines sdp)))
       end.

(** ** Candidates *)

(** [ci_rest]: what is passed on as it is. *)
Record CandidateInit := mkInit { ci_candidate : string; ci_username_fragment : option string; ci_rest : string }.
Record Candidate := mkCand { ca_address : string; ca_foundation : string; ca_init : option CandidateInit }.

(** The plane with what this part adds: the fragments by session, the candidates
    given to peer connections, what went to the cloud and to Socket.IO clients. *)
Record Rtc := mkRtc {
  rt_plane : Plane; rt_ufrags : gmap nat string; rt_remote : list (nat * string);
  rt_cloud_up : bool; rt_cloud : list string; rt_emitted : list (string * string) }.

Definition rset_plane x r := mkRtc x (rt_ufrags r) (rt_remote r) (rt_cloud_up r) (rt_cloud r) (rt_emitted r).
Definition rset_ufrags x r := mkRtc (rt_plane r) x (rt_remote r) (rt_cloud_up r) (rt_cloud r) (rt_emitted r).
Definition rset_remote x r := mkRtc (rt_plane r) (rt_ufrags r) x (rt_cloud_up r) (rt_cloud r) (rt_emitted r).
Definition rset_cloud x r := mkRtc (rt_plane r) (rt_ufrags r) (rt_remote r) (rt_cloud_up r) x (rt_emitted r).
Definition rset_emitted x r := mkRtc (rt_plane r) (rt_ufrags r) (rt_remote r) (rt_cloud_up r) (rt_cloud r) x.

Section Wire.
(** The texts of the frames. *)
Context (local_frame : CandidateInit -> string) (cloud_frame : string -> CandidateInit -> option string -> string).

Definition end_marker (c : Candidate) (init : CandidateInit) : bool :=
  let candidate_sdp := trim (ci_candidate init) in
  (is_empty (ca_address c) && is_empty (ca_foundation c)) || is_empty candidate_sdp || String.eqb candidate_sdp "candidate:".

Definition with_ufrag (session : option Session) (r : Rtc) (init : CandidateInit) : CandidateInit :=
  match ci_username_fragment init, session with
  | None, Some s => mkInit (ci_candidate init) (rt_ufrags r !! session_ptr s) (ci_rest init)
  | _, _ => init
  end.

Definition queue_for (id text : string) (r : Rtc) : Rtc :=
  rset_plane (set_papp (queue_ice_candidate id text (papp (rt_plane r))) (rt_plane r)) r.

(** [emit_ok]: a Socket.IO client takes the frame. *)
Definition send_ice_candidate (emit_ok : bool) (id : string) (c : Candidate) (r : Rtc) : Rtc * Result string unit :=
  match ca_init c with
  | None => (r, Err "candidate")
  | Some init =>
      if end_marker c init then (r, Ok tt)
      else
        let session_opt := get_session_by_id (papp (rt_plane r)) id in
        let init := with_ufrag session_opt r init in
        match session_opt with
        | Some (mkSession _ _ _ _ true client_id) =>
            if rt_cloud_up r then (rset_cloud (rt_cloud r ++ [cloud_frame id init client_id]) r, Ok tt)
            else (r, Err "cloud ws tx not available")
        | _ =>
            let message := local_frame init in
            (match sockets (papp (rt_plane r)) !! id with
             | Some _ => if emit_ok then rset_emitted (rt_emitted r ++ [(id, message)]) r else queue_for id message r
             | None => queue_for id message r
             end, Ok tt)
        end
  end.

(** ** The local WebSocket (web.rs) *)

(** A message after parsing: its type, the text of its data, and the client type
    of the request in the data, if it is one. *)
Record SignalMsg := mkSignal { sm_type : option string; sm_data : option string; sm_request : option (option string) }.

Context (from_str : string -> option SignalMsg).

Inductive Inbound : Type := InText (text : option string) | InClose | InPing (data : list Z) | InOther | InError.

Inductive Sent : Type := SPong | SFrame (f : Frame) | SPongFrame (data : list Z) | SCandidate (text : string).

(** How the calls of a turn go: the session of an offer with its description, the
    candidate for the peer connection, the answer to a ping, and how many queued
    candidates can be sent. *)
Record TurnEnv := mkTurnEnv {
  tv_offer : OfferEnv; tv_steps : OfferSteps; tv_candidate_ok : bool; tv_pong_ok : bool; tv_sends : nat }.

(** The fragment is kept as soon as the descriptions are exchanged. *)
Definition offer_env (e : TurnEnv) : OfferEnv :=
  mkOffer (created (tv_offer e)) (is_ok (exchange_offer true (tv_steps e))) (send_ok (tv_offer e)) (unmount_ok (tv_offer e)).

Definition keep_ufrag (e : TurnEnv) (r : Rtc) : Rtc :=
  match created (tv_offer e), exchange_offer true (tv_steps e) with
  | Some (ptr, _), Ok (Some ufrag) => rset_ufrags (<[ptr := ufrag]> (rt_ufrags r)) r
  | _, _ => r
  end.

Definition handle_webrtc_websocket_message (e : TurnEnv) (connection_id : string) (ws_role : option SessionRole)
    (message : string) (r : Rtc) : Rtc * list Sent * Result string bool :=
  if String.eqb message "ping" then
    (if tv_pong_ok e then (r, [SPong], Ok false) else (r, [], Err "send"))
  else match from_str message with
  | None => (r, [], Err "Invalid JSON")
  | Some m =>
      match sm_type m with
      | Some "offer" =>
          match sm_data m, sm_request m with
          | None, _ => (r, [], Ok false)
          | Some _, None => (r, [], Err "request")
          | Some _, Some client_type =>
              match ws_offer_role ws_role client_type with
              | Ok (Some _) =>
                  let '(p, frames, result) := ws_offer (offer_env e) ws_role client_type connection_id (rt_plane r) in
                  (rset_plane p (keep_ufrag e r), map SFrame frames, result)
              | _ => let '(p, frames, result) := ws_offer (offer_env e) ws_role client_type connection_id (rt_plane r) in
                     (rset_plane p r, map SFrame frames, result)
              end
          end
      | Some "new-ice-candidate" =>
          match sm_data m, get_session_by_id (papp (rt_plane r)) connection_id with
          | Some data, Some s =>
              match peer_connection s with
              | Some peer => (if tv_candidate_ok e then rset_remote (rt_remote r ++ [(peer, data)]) r else r, [], Ok false)
              | None => (r, [], Ok false)
              end
          | _, _ => (r, [], Ok false)
          end
      | Some "client-closing" => (r, [], Ok true)
      | _ => (r, [], Ok false)
      end
  end.

(** The queued candidates; the first send that fails ends the sending, and what is
    left has been taken from the queue. *)
Definition drain_candidates (e : TurnEnv) (connection_id : string) (r : Rtc) : Rtc * list Sent :=
  let '(a, ice_candidates) := get_ice_candidates connection_id (papp (rt_plane r)) in
  (rset_plane (set_papp a (rt_plane r)) r, map SCandidate (take (tv_sends e) ice_candidates)).

(** A turn of the loop: what was sent, and whether the loop goes on. *)
Definition socket_turn (e : TurnEnv) (connection_id : string) (ws_role : option SessionRole) (m : Inbound) (r : Rtc)
  : Rtc * list Sent * bool :=
  let drained '(r, sent) := let '(r, more) := drain_candidates e connection_id r in (r, sent ++ more, true) in
  match m with
  | InError | InClose => (r, [], false)
  | InText None | InOther => drained (r, [])
  | InText (Some text) =>
      match handle_webrtc_websocket_message e connection_id ws_role text r with
      | (r, sent, Ok true) => (r, sent, false)
      | (r, sent, _) => drained (r, sent)
      end
  | InPing data => if tv_pong_ok e then drained (r, [SPongFrame data]) else (r, [], false)
  end.

(** What happens around a socket: a message of its client, or a candidate that a
    peer connection found for some session. *)
Inductive SockEvent : Type :=
| EvIn (e : TurnEnv) (m : Inbound)
| EvGathered (emit_ok : bool) (id : string) (c : Candidate).

(** [k_open]: the loop runs; [k_sent]: what the client was sent. *)
Record Socket := mkSocket { k_rtc : Rtc; k_sent : list Sent; k_open : bool }.

Definition socket_step (id : string) (ws_role : option SessionRole) (k : Socket) (ev : SockEvent) : Socket :=
  match ev with
  | EvGathered emit_ok sid c => mkSocket (send_ice_candidate emit_ok sid c (k_rtc k)).1 (k_sent k) (k_open k)
  | EvIn e m =>
      if negb (k_open k) then k
      else let '(r, sent, goes_on) := socket_turn e id ws_role m (k_rtc k) in
           let r := if goes_on then r else rset_plane (ws_closed (unmount_ok (tv_offer e)) id (rt_plane r)) r in
           mkSocket r (k_sent k ++ sent) goes_on
  end.

(** [handle_webrtc_websocket]: after the metadata of the device could be sent. *)
Definition handle_webrtc_websocket (id : string) (ws_role : option SessionRole) (r : Rtc) (evs : list SockEvent) : Socket :=
  fold_left (socket_step id ws_role) evs (mkSocket r [] true).

(** * Properties *)

(** ** The table of sockets and the queue stay with their owners *)

(** What the plane's operations leave alone in the registry. *)
Definition same_wires (a a' : AppState) : Prop :=
  sockets a' = sockets a /\ websocket_ice_queue a' = websocket_ice_queue a.

Lemma same_wires_refl a : same_wires a a.
Proof. done. Qed.

Lemma same_wires_trans a b c : same_wires a b -> same_wires b c -> same_wires a c.
Proof. intros [? ?] [? ?]. split; congruence. Qed.

Lemma register_wires s p : same_wires (papp p) (papp (new_session_register s p)).
Proof.
  unfold new_session_register, add_session, papp.
  destruct (peer_connection s); cbn; destruct (_ && _)%bool, (sessions _ !! _); done.
Qed.

Lemma claim_wires s p : same_wires (papp p) (papp (claim_and_activate_session s p).1).
Proof.
  destruct (claim_and_activate_session s p) as [p' c] eqn:E. cbn. pose proof (claim_world s p) as (prev & w1 & H).
  rewrite E in H. assert (same_wires (papp p) (claim_role_slot s (papp p)).1) as Hr.
  { pose proof (claim_role_slot_cases s (papp p)) as Hc. unfold claim_role_slot. repeat case_match; done. }
  destruct c as [previous| | |].
  - destruct H as [-> _]. done.
  - unfold papp. rewrite H. done.
  - unfold papp. rewrite H. done.
  - unfold papp. rewrite H. done.
Qed.

Lemma remove_wires ok id p : same_wires (papp p) (papp (remove_and_close_session ok id p).1).
Proof.
  unfold remove_and_close_session, remove_session, remove_session_inner.
  destruct (remove_session_entry id None (papp p)) as [[a removed] count] eqn:E.
  assert (same_wires (papp p) a) as Ha by (unfold remove_session_entry in E; repeat case_match; by simplify_eq/=).
  destruct removed as [s|]; [|done].
  cbn [fst]. unfold papp. rewrite cleanup_same_world. cbn [close_removed_session set_closed world].
  destruct (count =? 0)%nat; cbn;
    match goal with |- context [on_session_removed s ?w] => pose proof (on_session_removed_frame s w) as (Hf & _) end;
    rewrite Hf; exact Ha.
Qed.

(** ** Local sockets have local sessions *)

Definition local_only (id : string) (a : AppState) : Prop := ∀ s, sessions a !! id = Some s -> is_cloud s = false.

Lemma drop_local ok id p : local_only id (papp (remove_and_close_session ok id p).1).
Proof. intros s. by rewrite drop_lookup. Qed.

Lemma offer_wires env ws_role ct id p :
  same_wires (papp p) (papp (ws_offer env ws_role ct id p).1.1)
  /\ (local_only id (papp p) -> local_only id (papp (ws_offer env ws_role ct id p).1.1)).
Proof.
  unfold ws_offer. destruct (ws_offer_role ws_role ct) as [[role|]|]; [|done|done].
  destruct (created env) as [[ptr peer]|]; [|done]. set (s := offer_session id role false None ptr peer).
  pose proof (register_wires s p) as Hreg.
  assert (∀ ok p', same_wires (papp p) (papp p') ->
            same_wires (papp p) (papp (remove_and_close_session ok id p').1)
            /\ (local_only id (papp p) -> local_only id (papp (remove_and_close_session ok id p').1))) as Hdrop.
  { intros ok p' H. split; [eapply same_wires_trans; [exact H|apply remove_wires]|intros _; apply drop_local]. }
  destruct (negb (exchange_ok env)); [by apply Hdrop|].
  pose proof (claim_wires s (new_session_register s p)) as Hcl.
  pose proof (claim_sessions s (new_session_register s p)) as Hs. rewrite register_lookup in Hs.
  destruct (claim_and_activate_session s _) as [p' [prev| | |]]; cbn [fst] in *;
    pose proof (same_wires_trans _ _ _ Hreg Hcl) as Hw; [|by apply Hdrop|by apply Hdrop|by apply Hdrop].
  destruct (negb (send_ok env)); [by apply Hdrop|]. split; [done|]. cbn [fst]. intros _ s'. rewrite Hs.
  change (session_id s) with id. rewrite lookup_insert_eq. by intros [= <-].
Qed.

(** What a turn does to the part of the registry that candidates need. *)
Definition wired (id : string) (r : Rtc) : Prop :=
  sockets (papp (rt_plane r)) !! id = None /\ local_only id (papp (rt_plane r)).

Definition queue_of (id : string) (r : Rtc) : list string := default [] (websocket_ice_queue (papp (rt_plane r)) !! id).

Lemma message_wires e id ws_role text r :
  let r' := (handle_webrtc_websocket_message e id ws_role text r).1.1 in
  (wired id r -> wired id r') /\ queue_of id r' = queue_of id r.
Proof.
  unfold handle_webrtc_websocket_message. destruct (text =? "ping")%string; [by destruct (tv_pong_ok e)|].
  destruct (from_str text) as [m|]; [|done]. destruct (sm_type m) as [ty|]; [|done].
  assert (∀ ct r0, rt_plane r0 = rt_plane r ->
    let r' := rset_plane (ws_offer (offer_env e) ws_role ct id (rt_plane r)).1.1 r0 in
    (wired id r -> wired id r') /\ queue_of id r' = queue_of id r) as Hoffer.
  { intros ct r0 _. destruct (offer_wires (offer_env e) ws_role ct id (rt_plane r)) as [[H1 H2] H3].
    unfold wired, queue_of. cbn [rt_plane rset_plane]. rewrite H1, H2. naive_solver. }
  repeat case_match; try done; cbn [fst].
  all: match goal with H : ws_offer ?env ?rl ?ct _ _ = _ |- _ =>
         specialize (Hoffer ct); rewrite H in Hoffer; cbn [fst] in Hoffer; apply Hoffer end.
  all: unfold keep_ufrag; repeat case_match; done.
Qed.

(** ** Candidates on their way *)

(** The text that is to reach the client of [id]. *)
Definition gathered_text (id : string) (r : Rtc) (ev : SockEvent) : option string :=
  match ev with
  | EvGathered _ sid c =>
      if String.eqb sid id then
        match ca_init c with
        | Some init => if end_marker c init then None
                       else Some (local_frame (with_ufrag (get_session_by_id (papp (rt_plane r)) id) r init))
        | None => None
        end
      else None
  | EvIn _ _ => None
  end.

Fixpoint gathered (id : string) (ws_role : option SessionRole) (k : Socket) (evs : list SockEvent) : list string :=
  match evs with
  | [] => []
  | ev :: evs => option_list (gathered_text id (k_rtc k) ev) ++ gathered id ws_role (socket_step id ws_role k ev) evs
  end.

Definition sent_candidates (l : list Sent) : list string :=
  omap (fun s => match s with SCandidate t => Some t | _ => None end) l.

(** What the client has got and what waits for it. *)
Definition under_way (id : string) (k : Socket) : list string := sent_candidates (k_sent k) ++ queue_of id (k_rtc k).

Lemma gathered_wires id emit_ok sid c r : wired id r ->
  let r' := (send_ice_candidate emit_ok sid c r).1 in
  wired id r' /\ queue_of id r' =
    match gathered_text id r (EvGathered emit_ok sid c) with
    | Some t => (if (MAX_ICE_CANDIDATES <=? length (queue_of id r))%nat then drop 1 (queue_of id r) else queue_of id r) ++ [t]
    | None => queue_of id r
    end.
Proof.
  intros [Hk Hl]. unfold send_ice_candidate, gathered_text. destruct (ca_init c) as [init|]; [|by destruct (sid =? id)%string].
  destruct (end_marker c init); [by destruct (sid =? id)%string|]. cbv zeta.
  assert (∀ t, wired id (queue_for sid t r)) as Hq by done.
  destruct (String.eqb_spec sid id) as [->|Hne].
  - unfold get_session_by_id. rewrite Hk.
    assert (∀ t, queue_of id (queue_for id t r) =
      (if (MAX_ICE_CANDIDATES <=? length (queue_of id r))%nat then drop 1 (queue_of id r) else queue_of id r) ++ [t]) as Ht.
    { intros t. unfold queue_of at 1, queue_for. cbn. by rewrite lookup_insert_eq. }
    destruct (sessions (papp (rt_plane r)) !! id) as [[ptr sid' role peer cloud client]|] eqn:E.
    + specialize (Hl _ E). cbn in Hl. subst cloud. cbn [fst]. by rewrite Ht.
    + cbn [fst]. by rewrite Ht.
  - assert (∀ t, queue_of id (queue_for sid t r) = queue_of id r) as Ht.
    { intros t. unfold queue_of, queue_for. cbn. by rewrite lookup_insert_ne. }
    repeat case_match; cbn [fst]; rewrite ?Ht; done.
Qed.

Lemma drain_wires e id r : wired id r ->
  let r' := (drain_candidates e id r).1 in
  wired id r' /\ queue_of id r' = []
  /\ (drain_candidates e id r).2 = map SCandidate (take (tv_sends e) (queue_of id r)).
Proof.
  intros Hw. unfold drain_candidates. cbn. split; [exact Hw|]. split; [|done].
  unfold queue_of. cbn. by rewrite lookup_delete_eq.
Qed.

Lemma sent_candidates_app a b : sent_candidates (a ++ b) = sent_candidates a ++ sent_candidates b.
Proof. apply omap_app. Qed.

Lemma sent_candidates_all l : sent_candidates (map SCandidate l) = l.
Proof. induction l as [|t l IH]; [done|]. cbn. by f_equal. Qed.

(** Messages of the client are answered without candidates. *)
Lemma message_sends e id ws_role text r :
  sent_candidates (handle_webrtc_websocket_message e id ws_role text r).1.2 = [].
Proof.
  assert (∀ fs, sent_candidates (map SFrame fs) = []) as Hf by (intros fs; by induction fs).
  unfold handle_webrtc_websocket_message. repeat case_match; try done; apply Hf.
Qed.

Lemma turn_wires e id ws_role m r : wired id r ->
  match socket_turn e id ws_role m r with
  | (r', sent, goes_on) =>
      wired id r' /\ if goes_on then queue_of id r' = [] /\ sent_candidates sent = take (tv_sends e) (queue_of id r)
                     else sent_candidates sent = []
  end.
Proof.
  intros Hw. assert (∀ r0 sent, wired id r0 -> queue_of id r0 = queue_of id r -> sent_candidates sent = [] ->
    match (let '(r1, more) := drain_candidates e id r0 in (r1, sent ++ more, true)) with
    | (r', sent', goes_on) => wired id r' /\ if goes_on : bool then queue_of id r' = []
         /\ sent_candidates sent' = take (tv_sends e) (queue_of id r) else sent_candidates sent' = [] end) as Hd.
  { intros r0 sent H0 Hq Hs. destruct (drain_wires e id r0 H0) as (H1 & H2 & H3).
    destruct (drain_candidates e id r0) as [r1 more]. cbn in *. subst more.
    by rewrite sent_candidates_app, Hs, sent_candidates_all, Hq. }
  unfold socket_turn. destruct m as [[text|]| |data| |]; cbv zeta; try done; try (by apply Hd).
  - destruct (message_wires e id ws_role text r) as [H1 H2]. specialize (H1 Hw). pose proof (message_sends e id ws_role text r) as H3.
    destruct (handle_webrtc_websocket_message e id ws_role text r) as [[r0 sent] [[]|]]; cbn in *; try done; by apply Hd.
  - destruct (tv_pong_ok e); [by apply Hd|done].
Qed.

Lemma closed_wires ok id r : let r' := rset_plane (ws_closed ok id (rt_plane r)) r in
  wired id r' /\ queue_of id r' = [] /\ sessions (papp (rt_plane r')) !! id = None.
Proof.
  cbn zeta. pose proof (drop_lookup ok id (rt_plane r)) as H.
  assert (∀ p : Plane, sessions (papp p) !! id = None ->
    let a := papp p in
    let p' := set_papp (mkAppState (sessions a) (role_sessions a) (delete id (sockets a)) (delete id (websocket_ice_queue a))) p in
    sockets (papp p') !! id = None /\ sessions (papp p') !! id = None /\ default [] (websocket_ice_queue (papp p') !! id) = []) as Hc.
  { intros p Hp. cbn. rewrite !lookup_delete_eq. done. }
  destruct (Hc _ H) as (H1 & H2 & H3). unfold wired, queue_of, local_only. cbn [rt_plane rset_plane]. unfold ws_closed. cbv zeta in *.
  split; [split; [exact H1|]|split; [exact H3|exact H2]]. intros s. by rewrite H2.
Qed.

Lemma step_keeps id ws_role k ev : wired id (k_rtc k) ->
  wired id (k_rtc (socket_step id ws_role k ev))
  /\ under_way id (socket_step id ws_role k ev) `sublist_of` under_way id k ++ option_list (gathered_text id (k_rtc k) ev).
Proof.
  intros Hw. unfold under_way. destruct ev as [e m|emit_ok sid c]; cbn [socket_step].
  - cbn [gathered_text option_list]. rewrite app_nil_r. destruct (negb (k_open k)); [done|].
    pose proof (turn_wires e id ws_role m (k_rtc k) Hw) as Ht.
    destruct (socket_turn e id ws_role m (k_rtc k)) as [[r sent] goes_on]. destruct Ht as [H1 H2].
    cbn [k_rtc k_sent]. rewrite sent_candidates_app, <- app_assoc. destruct goes_on.
    + destruct H2 as [-> ->]. rewrite app_nil_r. split; [done|]. apply sublist_app; [done|apply sublist_take].
    + destruct (closed_wires (unmount_ok (tv_offer e)) id r) as (H3 & H4 & _). rewrite H2, H4. split; [done|].
      apply sublist_app; [done|apply sublist_nil_l].
  - destruct (gathered_wires id emit_ok sid c (k_rtc k) Hw) as [H1 H2]. cbn [k_rtc k_sent]. split; [done|]. rewrite H2.
    destruct (gathered_text id (k_rtc k) (EvGathered emit_ok sid c)) as [t|]; cbn [option_list]; [|by rewrite app_nil_r].
    rewrite <- app_assoc. apply sublist_app; [done|]. apply sublist_app; [|done].
    destruct (_ <=? _)%nat; [apply sublist_drop|done].
Qed.

(** C13: Whatever the client sends and however its messages and the candidates
    of the device interleave, the client gets candidates of its own session only,
    in the order in which they were found and each at most once, over offers,
    errors, failed sends and the end of the socket. *)
Theorem candidates_in_order id ws_role r evs :
  wired id r -> queue_of id r = [] ->
  under_way id (handle_webrtc_websocket id ws_role r evs) `sublist_of` gathered id ws_role (mkSocket r [] true) evs.
Proof.
  intros Hw Hq. unfold handle_webrtc_websocket.
  assert (∀ k, wired id (k_rtc k) -> under_way id (fold_left (socket_step id ws_role) evs k)
            `sublist_of` under_way id k ++ gathered id ws_role k evs) as H.
  { induction evs as [|ev evs IH]; intros k Hk; cbn [fold_left gathered]; [by rewrite app_nil_r|].
    destruct (step_keeps id ws_role k ev Hk) as [H1 H2]. etransitivity; [apply (IH _ H1)|]. rewrite app_assoc. by apply sublist_app. }
  specialize (H (mkSocket r [] true) Hw). unfold under_way at 2 in H. cbn [k_rtc k_sent] in H. by rewrite Hq in H.
Qed.

(** Never more than the queue holds between two messages, and every send works. *)
Fixpoint calm (id : string) (waiting : nat) (evs : list SockEvent) : bool :=
  match evs with
  | [] => true
  | EvGathered _ sid _ :: evs =>
      if String.eqb sid id then (waiting <? MAX_ICE_CANDIDATES)%nat && calm id (S waiting) evs else calm id waiting evs
  | EvIn e _ :: evs => (MAX_ICE_CANDIDATES <=? tv_sends e)%nat && calm id 0 evs
  end.

Lemma closed_stays id ws_role evs : ∀ k, k_open (fold_left (socket_step id ws_role) evs k) = true -> k_open k = true.
Proof.
  induction evs as [|ev evs IH]; intros k Hk; [done|]. cbn [fold_left] in Hk. apply IH in Hk.
  destruct ev as [e m|]; cbn [socket_step] in Hk; [|done]. destruct (k_open k) eqn:E; [done|]. cbn in Hk. congruence.
Qed.

Lemma calm_exact id ws_role evs : ∀ k n, wired id (k_rtc k) -> (length (queue_of id (k_rtc k)) <= n <= MAX_ICE_CANDIDATES)%nat ->
  calm id n evs = true -> k_open (fold_left (socket_step id ws_role) evs k) = true ->
  under_way id (fold_left (socket_step id ws_role) evs k) = under_way id k ++ gathered id ws_role k evs.
Proof.
  induction evs as [|ev evs IH]; intros k n Hw Hn Hc Ho; cbn [fold_left gathered] in *; [by rewrite app_nil_r|].
  pose proof (closed_stays _ _ _ _ Ho) as Hk. destruct (step_keeps id ws_role k ev Hw) as [Hw' _].
  assert (∀ n', (length (queue_of id (k_rtc (socket_step id ws_role k ev))) <= n' <= MAX_ICE_CANDIDATES)%nat -> calm id n' evs = true ->
    under_way id (socket_step id ws_role k ev) = under_way id k ++ option_list (gathered_text id (k_rtc k) ev) ->
    under_way id (fold_left (socket_step id ws_role) evs (socket_step id ws_role k ev))
    = under_way id k ++ option_list (gathered_text id (k_rtc k) ev) ++ gathered id ws_role (socket_step id ws_role k ev) evs) as Hgo.
  { intros n' H1 H2 H3. rewrite (IH _ n' Hw' H1 H2 Ho), H3. by rewrite app_assoc. }
  destruct ev as [e m|emit_ok sid c]; cbn [calm] in Hc.
  - apply andb_true_iff in Hc as [Hs Hc]. apply Nat.leb_le in Hs. cbn [socket_step] in *.
    destruct (k_open k) eqn:Ek; cbn [negb] in *; [|congruence].
    pose proof (turn_wires e id ws_role m (k_rtc k) Hw) as Ht.
    destruct (socket_turn e id ws_role m (k_rtc k)) as [[r sent] []]; [|cbn in Hk; congruence]. destruct Ht as (_ & Hq & Hsent).
    apply (Hgo 0%nat); [cbn [k_rtc]; rewrite Hq; cbn; lia|done|].
    unfold under_way. cbn [k_rtc k_sent gathered_text option_list]. rewrite Hq, sent_candidates_app, Hsent, !app_nil_r.
    by rewrite take_ge by lia.
  - destruct (gathered_wires id emit_ok sid c (k_rtc k) Hw) as [_ Hq].
    assert (∀ t, gathered_text id (k_rtc k) (EvGathered emit_ok sid c) = Some t -> (sid =? id)%string = true) as Hid.
    { intros t. cbn. by destruct (sid =? id)%string. }
    cbn [socket_step] in *. destruct (gathered_text id (k_rtc k) (EvGathered emit_ok sid c)) as [t|] eqn:Et.
    + rewrite (Hid t eq_refl) in Hc. apply andb_true_iff in Hc as [Hlt Hc]. apply Nat.ltb_lt in Hlt.
      destruct (Nat.leb_spec MAX_ICE_CANDIDATES (length (queue_of id (k_rtc k)))) as [?|_]; [lia|].
      apply (Hgo (S n)); [cbn [k_rtc]; rewrite Hq, length_app; cbn [length]; lia|done|].
      unfold under_way. cbn [k_rtc k_sent option_list]. by rewrite Hq, app_assoc.
    + destruct (sid =? id)%string.
      * apply andb_true_iff in Hc as [Hlt Hc]. apply Nat.ltb_lt in Hlt.
        apply (Hgo (S n)); [cbn [k_rtc]; rewrite Hq; lia|done|]. unfold under_way. cbn [k_rtc k_sent option_list]. by rewrite Hq, app_nil_r.
      * apply (Hgo n); [cbn [k_rtc]; rewrite Hq; lia|done|]. unfold under_way. cbn [k_rtc k_sent option_list]. by rewrite Hq, app_nil_r.
Qed.

(** While the socket is open, as long as its sends work and at most twenty
    candidates are found between two messages of the client, every one of them
    has been sent or waits for the next message. *)
Theorem every_candidate_arrives id ws_role r evs :
  wired id r -> queue_of id r = [] -> calm id 0 evs = true ->
  let k := handle_webrtc_websocket id ws_role r evs in
  k_open k = true -> under_way id k = gathered id ws_role (mkSocket r [] true) evs.
Proof.
  intros Hw Hq Hc k Ho. unfold k, handle_webrtc_websocket in *.
  rewrite (calm_exact id ws_role evs (mkSocket r [] true) 0 Hw); [|cbn [k_rtc]; rewrite Hq; cbn; lia|done|done].
  unfold under_way at 1. cbn [k_rtc k_sent]. by rewrite Hq.
Qed.

(** However the loop of a socket ends, its session is gone, nothing waits for
    it and the table of sockets does not have it. *)
Theorem socket_end_leaves_nothing id ws_role k e m :
  k_open k = true -> k_open (socket_step id ws_role k (EvIn e m)) = false ->
  let a := papp (rt_plane (k_rtc (socket_step id ws_role k (EvIn e m)))) in
  sessions a !! id = None /\ websocket_ice_queue a !! id = None /\ sockets a !! id = None.
Proof.
  intros Ho Hc. cbn [socket_step] in *. rewrite Ho in *. cbn [negb] in *.
  destruct (socket_turn e id ws_role m (k_rtc k)) as [[r sent] []]; [done|]. cbn [k_rtc].
  destruct (closed_wires (unmount_ok (tv_offer e)) id r) as ((H1 & _) & _ & H3). split; [done|]. split; [|done].
  cbn [rt_plane rset_plane]. unfold ws_closed. cbn. apply lookup_delete_eq.
Qed.

End Wire.

(** ** ICE servers *)

Lemma usable_urls_nonempty e urls u us : rtc_ice_server e = Some (mkIce urls u us) -> urls ≠ [].
Proof. unfold rtc_ice_server. destruct (List.filter _ _) eqn:E; [done|]. intros [= <- _ _]. done. Qed.

(** What the peer connection is given has no entry without addresses and no
    TURN server without a name and a password, and has every other address of the
    cloud, in order and with the credentials it came with. *)
Theorem ice_servers_usable servers :
  (∀ e, e ∈ rtc_ice_servers_from_config servers ->
     is_urls e ≠ [] /\ (∀ url, url ∈ is_urls e -> is_turn_url url = true -> has_creds e = true)
     /\ ∃ s, s ∈ servers /\ is_username e = is_username s /\ is_credential e = is_credential s)
  /\ concat (map is_urls (rtc_ice_servers_from_config servers))
     = concat (map (fun e => List.filter (fun url => negb (is_turn_url url) || has_creds e) (is_urls e)) servers).
Proof.
  unfold rtc_ice_servers_from_config. split.
  - intros e (s & Hs & He)%list_elem_of_omap. unfold rtc_ice_server in He.
    destruct (List.filter (usable_url s) (is_urls s)) as [|u us] eqn:E; [done|]. injection He as <-. cbn [is_urls is_username is_credential].
    split; [done|]. split; [|by exists s]. rewrite <- E. intros url [_ Hu]%list_elem_of_In%filter_In Ht.
    unfold usable_url in Hu. rewrite Ht in Hu. cbn [andb] in Hu. by rewrite negb_involutive in Hu.
  - induction servers as [|s servers IH]; [done|]. cbn [map concat omap list_omap]. rewrite <- IH. clear IH.
    assert (List.filter (usable_url s) (is_urls s) = List.filter (fun url => negb (is_turn_url url) || has_creds s) (is_urls s)) as <-.
    { apply filter_ext. intros url. unfold usable_url. by destruct (is_turn_url url), (has_creds s). }
    unfold rtc_ice_server. destruct (List.filter (usable_url s) (is_urls s)); done.
Qed.

(** ** Payload types *)

(** If the codecs of the first sender of a kind have the one that is encoded,
    its payload type is taken, whatever comes before it. *)
Theorem encoded_codec_preferred kind before codecs after c :
  Forall (fun s => s.1 ≠ kind) before ->
  let mime := match kind with KVideo => "video/H264" | _ => "audio/opus" end in
  c ∈ codecs -> eq_ignore_ascii_case (co_mime c) mime = true -> kind ≠ KOther ->
  ∃ c', c' ∈ codecs /\ eq_ignore_ascii_case (co_mime c') mime = true
        /\ negotiated_payload_type kind (before ++ (kind, Some codecs) :: after) = Some (co_payload_type c').
Proof.
  intros Hb mime Hc Hm Hk.
  assert (negotiated_payload_type kind (before ++ (kind, Some codecs) :: after)
          = payload_type_among kind mime (before ++ (kind, Some codecs) :: after)) as -> by by destruct kind.
  induction Hb as [|[k cs] before Hne _ IH]; cbn [Datatypes.app payload_type_among].
  - rewrite bool_decide_true by done. cbn [negb].
    destruct (List.find (fun c => eq_ignore_ascii_case (co_mime c) mime) codecs) as [c'|] eqn:E.
    + apply find_some in E as [? ?]. exists c'. rewrite list_elem_of_In. done.
    + apply list_elem_of_In in Hc. pose proof (find_none _ _ E c Hc). cbn in *. congruence.
  - cbn in Hne. rewrite bool_decide_false by done. exact IH.
Qed.

(** ** When the media run

    The tasks that the registry spawns take one lock; each looks at the sessions
    that there are when it has it. *)

(** [HDMI_CAPTURE] is set, [AUDIO_RUNNING]. *)
Record Media := mkMedia { m_video : bool; m_audio : bool }.

(** How a task ends: whether each start succeeds in its time, and the stop of
    the video in its own.  Playback may be switched off.  A stop that runs out
    of time leaves the capture where it is; the stop of the sound clears its
    flag before it waits for anything. *)
Record StartEnv := mkStart { sv_video : bool; sv_playback : bool; sv_audio : bool; sv_video_stopped : bool }.

Definition on_first_session_connected (e : StartEnv) (a : AppState) (m : Media) : Media :=
  if (session_count a =? 0)%nat then m
  else mkMedia (m_video m || sv_video e) (m_audio m || sv_playback e && sv_audio e).

Definition on_last_session_disconnected (e : StartEnv) (a : AppState) (m : Media) : Media :=
  if (0 <? session_count a)%nat then m else mkMedia (m_video m && negb (sv_video_stopped e)) false.

Definition run_media_task (t : MediaTask) (e : StartEnv) (a : AppState) (m : Media) : Media :=
  match t with
  | FirstSessionConnected => on_first_session_connected e a m
  | LastSessionDisconnected => on_last_session_disconnected e a m
  end.

(** The handlers of the plane and the tasks, in any order. *)
Inductive LifeEvent : Type :=
| LRegister (s : Session)
| LClaim (s : Session)
| LRemove (unmount_ok : bool) (id : string)
| LIce (unmount_ok : bool) (id : string) (role : SessionRole) (peer : nat) (upgraded : bool) (state : RTCIceConnectionState)
| LDelayedClose (unmount_ok : bool) (i : nat)
| LTask (i : nat) (e : StartEnv).

Definition life_step (s : Plane * Media) (ev : LifeEvent) : Plane * Media :=
  let '(p, m) := s in
  match ev with
  | LRegister s => (new_session_register s p, m)
  | LClaim s => ((claim_and_activate_session s p).1, m)
  | LRemove ok id => ((remove_and_close_session ok id p).1, m)
  | LIce ok id role peer up state => (on_ice_connection_state_change ok id role peer up state p, m)
  | LDelayedClose ok i => (close_previous_session_after_delay ok i p, m)
  | LTask i e =>
      match media_tasks p !! i with
      | None => (p, m)
      | Some t => (set_media_tasks (delete i (media_tasks p)) p, run_media_task t e (papp p) m)
      end
  end.

Definition life_run (evs : list LifeEvent) (s : Plane * Media) : Plane * Media := fold_left life_step evs s.

(** A handler leaves the count alone, or the task is there that the change needs. *)
Definition life_ok (p p' : Plane) : Prop :=
  (∀ t, t ∈ media_tasks p -> t ∈ media_tasks p')
  /\ (session_count (papp p) = 0%nat -> session_count (papp p') = 0%nat \/ FirstSessionConnected ∈ media_tasks p')
  /\ (session_count (papp p) ≠ 0%nat -> session_count (papp p') ≠ 0%nat \/ LastSessionDisconnected ∈ media_tasks p').

Lemma life_same p p' : sessions (papp p') = sessions (papp p) -> media_tasks p' = media_tasks p -> life_ok p p'.
Proof. unfold life_ok, session_count. intros -> ->. split; [done|]. split; by left. Qed.

Lemma life_trans_same p1 p2 p3 : life_ok p1 p2 -> sessions (papp p3) = sessions (papp p2) -> media_tasks p3 = media_tasks p2 -> life_ok p1 p3.
Proof. unfold life_ok, session_count. intros H -> ->. exact H. Qed.

Lemma register_life s p : life_ok p (new_session_register s p).
Proof.
  pose proof (register_lookup s p) as Hs. unfold life_ok, session_count. rewrite Hs.
  assert (size (<[session_id s := s]> (sessions (papp p))) ≠ 0%nat) as Hne.
  { intros H%map_size_empty_inv. by apply insert_non_empty in H. }
  assert (∀ t, t ∈ media_tasks p -> t ∈ media_tasks (new_session_register s p)) as Hmono.
  { intros t Ht. unfold new_session_register, add_session. destruct (peer_connection s), (_ && _)%bool, (sessions _ !! _); cbn;
      rewrite ?elem_of_app; auto. }
  split; [done|]. split; [|by left]. intros H0%map_size_empty_inv. right.
  unfold new_session_register, add_session.
  assert (sessions (papp p) !! session_id s = None) as Hl by (rewrite H0; apply lookup_empty).
  destruct (peer_connection s); cbn; unfold papp in Hl |- *; cbn; rewrite Hl, bool_decide_true by done; cbn [andb];
    unfold papp in H0; rewrite H0, map_size_insert_None by done; cbn; set_solver.
Qed.

Lemma attach_tasks s st p : media_tasks (attach_role_session_sinks_if_connected s st p) = media_tasks p.
Proof. unfold attach_role_session_sinks_if_connected. destruct (negb _); [done|]. by destruct (negb _). Qed.

Lemma kick_tasks s old p : media_tasks (kick_previous s old p) = media_tasks p.
Proof. unfold kick_previous. destruct (ptr_eq old s); [done|]. by destruct (peer_connection old). Qed.

Lemma claim_life s p : life_ok p (claim_and_activate_session s p).1.
Proof.
  apply life_same; [apply claim_sessions|]. unfold claim_and_activate_session.
  destruct (_ && _); [done|]. destruct (claim_role_slot s (papp p)) as [a [[old|]| | |]]; try done;
    cbn [fst set_world media_tasks]; rewrite ?kick_tasks, attach_tasks; done.
Qed.

Lemma remove_life peer id p : life_ok p (remove_session_inner id peer p).1.
Proof.
  unfold remove_session_inner, remove_session_entry.
  set (b := match sessions (papp p) !! id with Some _ => _ | None => _ end).
  destruct b eqn:Eb; cbn [fst snd]; [|by apply life_same].
  destruct (sessions (papp p) !! id) as [s|] eqn:E; [|by unfold b in Eb]. clear b Eb.
  set (n := size (delete id (sessions (papp p)))) in *.
  assert (∀ t : list MediaTask, ∀ p', papp p' = papp (set_papp (retain_roles id (set_sessions (delete id (sessions (papp p))) (papp p))) p) ->
      media_tasks p' = media_tasks p ++ (if (n =? 0)%nat then [LastSessionDisconnected] else []) -> life_ok p p') as H.
  { intros _ p' Ha Ht. unfold life_ok, session_count. rewrite Ha, Ht. cbn [papp set_papp set_world world set_app app retain_roles set_roles sessions set_sessions].
    change (size (delete id (sessions (papp p)))) with n. split; [intros t; rewrite elem_of_app; by left|].
    split; intros Hc.
    - apply map_size_empty_inv in Hc. rewrite Hc in E. by rewrite lookup_empty in E.
    - destruct (Nat.eqb_spec n 0) as [->|?]; [right; rewrite elem_of_app, list_elem_of_singleton; by right|by left]. }
  apply (H []).
  - destruct (n =? 0)%nat; unfold papp; cbn;
      match goal with |- context [on_session_removed s ?w] => destruct (on_session_removed_frame s w) as (-> & _) end; done.
  - destruct (n =? 0)%nat; cbn; by rewrite ?app_nil_r.
Qed.

Lemma cleanup_tasks ok p : media_tasks (cleanup_last_session_resources ok p) = media_tasks p.
Proof. unfold cleanup_last_session_resources. destruct (negb _); [done|]. by destruct (_ && _). Qed.

Lemma remove_peer_life ok id peer p : life_ok p (remove_and_close_session_for_peer ok id peer p).1.
Proof.
  unfold remove_and_close_session_for_peer, remove_session_for_peer. pose proof (remove_life (Some peer) id p) as H.
  destruct (remove_session_inner id (Some peer) p) as [p' [s|]]; [|done]. cbn [fst] in *.
  eapply life_trans_same; [exact H|unfold papp; by rewrite cleanup_same_world|by rewrite cleanup_tasks].
Qed.

Lemma ice_life ok id role peer up st p : life_ok p (on_ice_connection_state_change ok id role peer up st p).
Proof.
  unfold on_ice_connection_state_change. set (p0 := set_ice_states _ p).
  assert (∀ p', life_ok p0 p' -> life_ok p p') as H0 by done. apply H0. clear H0. clearbody p0. clear p.
  assert (∀ p, life_ok p p) as Hr by (intros; by apply life_same).
  destruct st; try done.
  - destruct up; [|done]. unfold ice_connected_task. destruct (negb _); [done|].
    destruct (set_role_slot_if_none role id (papp p0)) as [a occupied] eqn:E.
    assert (sessions a = sessions (papp p0)) as Ha by (unfold set_role_slot_if_none in E; case_match; by simplify_eq/=).
    set (p1 := if occupied then _ else _).
    assert (sessions (papp p1) = sessions (papp p0) /\ media_tasks p1 = media_tasks p0) as [H1 H2] by (by destruct occupied).
    clearbody p1. destruct (negb _); [by apply life_same|]. destruct (negb _); [by apply life_same|].
    destruct (get_session_by_id (papp p1) id) as [s|]; [|by apply life_same].
    apply life_same; [unfold papp; by rewrite attach_same_world|by rewrite attach_tasks].
  - destruct (negb up); [done|]. destruct (negb _); [done|]. by apply life_same.
  - destruct (negb up); [done|]. unfold remove_session_for_peer. pose proof (remove_life (Some peer) id p0) as H.
    destruct (remove_session_inner id (Some peer) p0) as [p' [s|]]; [|done]. cbn [fst] in *.
    eapply life_trans_same; [exact H|unfold papp; by rewrite cleanup_same_world|by rewrite cleanup_tasks].
  - destruct (negb up); [done|]. unfold remove_session_for_peer. pose proof (remove_life (Some peer) id p0) as H.
    destruct (remove_session_inner id (Some peer) p0) as [p' [s|]]; [|done]. cbn [fst] in *.
    eapply life_trans_same; [exact H|unfold papp; by rewrite cleanup_same_world|by rewrite cleanup_tasks].
Qed.

(** Media that run without a session, or do not run with one, wait for a task. *)
Definition life_inv (s : Plane * Media) : Prop :=
  (session_count (papp s.1) ≠ 0%nat -> s.2 = mkMedia true true \/ FirstSessionConnected ∈ media_tasks s.1)
  /\ (session_count (papp s.1) = 0%nat -> s.2 = mkMedia false false \/ LastSessionDisconnected ∈ media_tasks s.1).

Lemma life_ok_inv p p' m : life_ok p p' -> life_inv (p, m) -> life_inv (p', m).
Proof.
  intros (H1 & H2 & H3) [I1 I2]. unfold life_inv in *. cbn [fst snd] in *. split; intros Hc.
  - destruct (decide (session_count (papp p) = 0%nat)) as [H0|H0]; [destruct (H2 H0); [done|by right]|].
    destruct (I1 H0); [by left|right; auto].
  - destruct (decide (session_count (papp p) = 0%nat)) as [H0|H0]; [destruct (I2 H0); [by left|right; auto]|].
    destruct (H3 H0); [done|by right].
Qed.

(** Both starts succeed in time, with playback switched on, and the stop of
    the video ends in time. *)
Definition starts_work (ev : LifeEvent) : Prop :=
  match ev with LTask _ e => e = mkStart true true true true | _ => True end.

Lemma elem_of_delete_other {A} (l : list A) i x y : l !! i = Some x -> y ∈ l -> y ≠ x -> y ∈ delete i l.
Proof.
  intros Hi [j Hj]%list_elem_of_lookup Hne. rewrite delete_take_drop. apply elem_of_app.
  destruct (decide (j < i)%nat) as [H|H].
  - left. apply list_elem_of_lookup. exists j. by rewrite lookup_take_lt.
  - right. apply list_elem_of_lookup. exists (j - S i)%nat. rewrite lookup_drop.
    assert (j ≠ i) by congruence. by replace (S i + (j - S i))%nat with j by lia.
Qed.

Lemma life_step_inv s ev : starts_work ev -> life_inv s -> life_inv (life_step s ev).
Proof.
  intros Hw Hi. destruct s as [p m]. destruct ev as [s|s|ok id|ok id role peer up st|ok i|i e]; cbn [life_step].
  - eapply life_ok_inv; [apply register_life|done].
  - eapply life_ok_inv; [apply claim_life|done].
  - eapply life_ok_inv; [|done]. unfold remove_and_close_session, remove_session. pose proof (remove_life None id p) as H.
    destruct (remove_session_inner id None p) as [p' [s|]]; [|done]. cbn [fst] in *.
    eapply life_trans_same; [exact H|unfold papp; by rewrite cleanup_same_world|by rewrite cleanup_tasks].
  - eapply life_ok_inv; [apply ice_life|done].
  - eapply life_ok_inv; [|done]. unfold close_previous_session_after_delay.
    destruct (delayed_closes p !! i) as [[id peer]|]; [|by apply life_same]. exact (remove_peer_life ok id peer (set_delayed _ p)).
  - destruct (media_tasks p !! i) as [t|] eqn:Et; [|done]. cbn in Hw. subst e. destruct Hi as [I1 I2]. unfold life_inv in *. cbn [fst snd] in *.
    change (papp (set_media_tasks (delete i (media_tasks p)) p)) with (papp p). cbn [media_tasks set_media_tasks].
    destruct t; cbn [run_media_task on_first_session_connected on_last_session_disconnected].
    + unfold on_first_session_connected. split; intros Hc.
      * left. destruct (Nat.eqb_spec (session_count (papp p)) 0) as [?|_]; [done|]. cbn. by rewrite !orb_true_r.
      * rewrite Hc. cbn. destruct (I2 Hc); [by left|right; by apply (elem_of_delete_other _ _ _ _ Et)].
    + unfold on_last_session_disconnected. split; intros Hc.
      * destruct (Nat.ltb_spec 0 (session_count (papp p))); [|lia]. destruct (I1 Hc); [by left|right; by apply (elem_of_delete_other _ _ _ _ Et)].
      * left. rewrite Hc. cbn. by rewrite andb_false_r.
Qed.

(** C11: Over every interleaving of registrations, claims, removals, callbacks and
    the tasks that start and stop the media, once no task is left the media run
    exactly if a session is registered, provided that in every task
    ([starts_work]) both starts succeed within their eight seconds, playback is
    switched on, and the stop of the video ends in its time, and that nothing
    but these tasks starts or stops the media.  A start that fails is not
    repeated ([failed_start_not_retried]), a stop that runs out of time leaves
    the capture on ([slow_stop_keeps_video]). *)
Theorem media_follow_sessions evs p :
  session_count (papp p) = 0%nat -> Forall starts_work evs ->
  let s := life_run evs (p, mkMedia false false) in
  media_tasks s.1 = [] -> s.2 = (if (session_count (papp s.1) =? 0)%nat then mkMedia false false else mkMedia true true).
Proof.
  intros H0 Hev s Ht. assert (life_inv s) as [I1 I2].
  { unfold s, life_run. assert (life_inv (p, mkMedia false false)) as Hi by (split; [done|by left]). clear H0 Ht s. revert Hi.
    generalize (p, mkMedia false false). induction Hev as [|ev evs Hw _ IH]; intros s Hi; [done|]. cbn [fold_left].
    by apply IH, life_step_inv. }
  rewrite Ht in I1, I2. destruct (Nat.eqb_spec (session_count (papp s.1)) 0) as [Hc|Hc].
  - destruct (I2 Hc) as [?|[]%elem_of_nil]; done.
  - destruct (I1 Hc) as [?|[]%elem_of_nil]; done.
Qed.

(** * Concrete runs *)

Definition nobody : Plane := mkPlane (mkWorld app_new control_default 0 0 0 true ∅ [] [] 0) ∅ ∅ ∅ [] [] [] false.
Definition fresh : Rtc := mkRtc nobody ∅ [] true [] [].

(** Frames are the texts of the candidates; a message is its type. *)
Definition bare_local (i : CandidateInit) : string :=
  ci_candidate i +:+ default "" (option_map (fun u => " ufrag " +:+ u) (ci_username_fragment i)).
Definition bare_cloud (id : string) (i : CandidateInit) (client : option string) : string := id +:+ ":" +:+ ci_candidate i.
Definition bare_msg (t : string) : option SignalMsg := Some (mkSignal (Some t) (Some "data") (Some (Some "user"))).

Definition sdp : string := "v=0" +:+ String "010" ("a=ice-ufrag:Kx7" +:+ String "010" "").
Definition all_well : TurnEnv := mkTurnEnv (mkOffer (Some (7, 8)%nat) true true true) (mkOfferSteps true true true true (Some sdp)) true true 20.
Definition cand (n : string) : Candidate := mkCand "10.0.0.1" "1" (Some (mkInit ("candidate:" +:+ n) None "")).

Abbreviation socket_run := (handle_webrtc_websocket bare_local bare_cloud bare_msg "ws1" None fresh).

Definition short_visit : list SockEvent :=
  [EvIn all_well (InText (Some "offer")); EvGathered true "ws1" (cand "1"); EvGathered true "ws1" (cand "2");
   EvIn all_well (InText (Some "ping")); EvGathered true "ws1" (cand "3")].

Lemma candidates_in_order_witness :
  under_way "ws1" (socket_run short_visit) = ["candidate:1 ufrag Kx7"; "candidate:2 ufrag Kx7"; "candidate:3 ufrag Kx7"]
  /\ under_way "ws1" (socket_run short_visit) `sublist_of` gathered bare_local bare_cloud bare_msg "ws1" None (mkSocket fresh [] true) short_visit.
Proof. split; [vm_compute; reflexivity|]. apply candidates_in_order; [by split|done]. Defined.

Lemma every_candidate_arrives_witness :
  under_way "ws1" (socket_run short_visit) = gathered bare_local bare_cloud bare_msg "ws1" None (mkSocket fresh [] true) short_visit.
Proof. apply every_candidate_arrives; [by split|done|vm_compute; reflexivity|vm_compute; reflexivity]. Defined.

Lemma socket_end_leaves_nothing_witness :
  let a := papp (rt_plane (k_rtc (socket_step bare_local bare_cloud bare_msg "ws1" None (socket_run short_visit) (EvIn all_well InClose)))) in
  sessions a !! "ws1" = None /\ websocket_ice_queue a !! "ws1" = None /\ sockets a !! "ws1" = None.
Proof. apply socket_end_leaves_nothing; vm_compute; reflexivity. Defined.

Lemma encoded_codec_preferred_witness :
  ∃ c, c ∈ set_video_codec /\ eq_ignore_ascii_case (co_mime c) "video/H264" = true
       /\ negotiated_payload_type KVideo [(KAudio, None); (KVideo, Some set_video_codec)] = Some (co_payload_type c).
Proof.
  apply (encoded_codec_preferred KVideo [(KAudio, None)] set_video_codec [] (h264 "1" "42001f" 102));
    [by repeat constructor|by do 3 apply list_elem_of_further; apply list_elem_of_here|reflexivity|done].
Defined.

Definition guest (ptr : nat) (id : string) : Session := mkSession ptr id User (Some ptr) false None.

(** The second guest comes before the media of the first are stopped. *)
Definition quick_return : list LifeEvent :=
  [LRegister (guest 1 "a"); LTask 0 (mkStart true true true true); LRemove true "a"; LRegister (guest 2 "b");
   LTask 1 (mkStart true true true true); LTask 0 (mkStart true true true true)].

Lemma media_follow_sessions_witness : (life_run quick_return (nobody, mkMedia false false)).2 = mkMedia true true.
Proof. rewrite (media_follow_sessions quick_return nobody eq_refl); [reflexivity|by repeat constructor|reflexivity]. Defined.

(** ** What the code leaves open *)

(** Candidates are only sent after a message of the client: those that are found
    after the last one wait. *)
Lemma candidates_wait_for_client :
  sent_candidates (k_sent (socket_run (take 3 short_visit))) = [] /\ length (queue_of "ws1" (k_rtc (socket_run (take 3 short_visit)))) = 2%nat.
Proof. split; vm_compute; reflexivity. Qed.

(** A send that fails loses the candidates behind it as well. *)
Lemma failed_send_loses_candidates :
  let e := mkTurnEnv (tv_offer all_well) (tv_steps all_well) true true 0 in
  let k := socket_run (take 3 short_visit ++ [EvIn e InOther; EvIn all_well InOther]) in
  k_open k = true /\ sent_candidates (k_sent k) = [] /\ queue_of "ws1" (k_rtc k) = [].
Proof. repeat split; vm_compute; reflexivity. Qed.

(** A candidate that comes after the socket has closed is queued for nobody. *)
Lemma late_candidate_stays :
  queue_of "ws1" (k_rtc (socket_run (short_visit ++ [EvIn all_well InClose; EvGathered true "ws1" (cand "4")]))) = ["candidate:4"].
Proof. vm_compute. reflexivity. Qed.

(** So is one of a session of the cloud that has been removed. *)
Lemma removed_cloud_session_queues_locally :
  queue_of "uuid" (send_ice_candidate bare_local bare_cloud true "uuid" (cand "1") fresh).1 = ["candidate:1"].
Proof. vm_compute. reflexivity. Qed.

(** A start that fails is not tried again while sessions come and go, until the
    last has left. *)
Lemma failed_start_not_retried :
  let s := life_run [LRegister (guest 1 "a"); LTask 0 (mkStart false true true true); LRegister (guest 2 "b"); LRemove true "a"] (nobody, mkMedia false false) in
  media_tasks s.1 = [] /\ session_count (papp s.1) = 1%nat /\ m_video s.2 = false.
Proof. repeat split; vm_compute; reflexivity. Qed.

(** A stop that runs out of time leaves the capture on, with nobody there. *)
Lemma slow_stop_keeps_video :
  let s := life_run [LRegister (guest 1 "a"); LTask 0 (mkStart true true true true); LRemove true "a"; LTask 0 (mkStart true true true false)]
             (nobody, mkMedia false false) in
  media_tasks s.1 = [] /\ session_count (papp s.1) = 0%nat /\ m_video s.2 = true.
Proof. repeat split; vm_compute; reflexivity. Qed.

(** The same codec is offered twice under one payload type. *)
Lemma payload_type_repeated :
  map co_payload_type set_video_codec = [96; 98; 100; 102; 127; 125; 108; 127; 123]%Z
  /\ set_video_codec !! 4%nat = set_video_codec !! 7%nat.
Proof. split; reflexivity. Qed.
