(* ===== verification/VirtualMic.v ===== *)
(** * The microphone of the host (services/virtual_mic.rs, hardware/usb/mic.rs)

    What a browser says into its microphone comes from the bus as packets, is
    decoded by a thread and goes through a queue to the process that plays the
    microphone of the USB gadget.  A start makes four tasks: the pipeline that takes
    packets from the bus, the thread that decodes, the sender and the watcher of the
    state of the process.  They interleave; the bus and the decoder answer. *)

From S2P Require Import Prelude Words.

#[local] Set Default Proof Using "Type".

(** ** The output (mic.rs) *)

Inductive SenderPhase : Set := SenderProbing | Sending | SenderGone.
Inductive WatcherPhase : Set := WatcherSubscribing | WatcherSyncing | Watching | WatcherGone.

(** [pcm]: the queue of at most [QUEUE] buffers; [published]: what was put on the bus
    for the process. *)
Record AudioOutput := mkOutput {
  sidecar_running : bool; peer_present : bool; cancelled : bool;
  pcm : list (list Z); sender : SenderPhase; watcher : WatcherPhase; published : list (list Z) }.

Definition QUEUE : nat := 32.

Definition output_new : AudioOutput := mkOutput false false false [] SenderProbing WatcherSubscribing [].

Definition is_ready (o : AudioOutput) : bool := sidecar_running o && peer_present o.

Definition set_running (b : bool) (o : AudioOutput) := mkOutput b (peer_present o) (cancelled o) (pcm o) (sender o) (watcher o) (published o).
Definition set_peer (b : bool) (o : AudioOutput) := mkOutput (sidecar_running o) b (cancelled o) (pcm o) (sender o) (watcher o) (published o).
Definition set_pcm (q : list (list Z)) (o : AudioOutput) := mkOutput (sidecar_running o) (peer_present o) (cancelled o) q (sender o) (watcher o) (published o).
Definition set_sender (p : SenderPhase) (o : AudioOutput) := mkOutput (sidecar_running o) (peer_present o) (cancelled o) (pcm o) p (watcher o) (published o).
Definition set_watcher (p : WatcherPhase) (o : AudioOutput) := mkOutput (sidecar_running o) (peer_present o) (cancelled o) (pcm o) (sender o) p (published o).
Definition publish (data : list Z) (o : AudioOutput) := mkOutput (sidecar_running o) (peer_present o) (cancelled o) (pcm o) (sender o) (watcher o) (published o ++ [data]).

Definition shutdown (o : AudioOutput) : AudioOutput :=
  mkOutput (sidecar_running o) (peer_present o) true (pcm o) (sender o) (watcher o) (published o).

(** A full queue drops what comes, as one whose sender is gone. *)
Definition send_data (data : list Z) (o : AudioOutput) : AudioOutput :=
  match sender o with
  | SenderGone => o
  | _ => if (length (pcm o) <? QUEUE)%nat then set_pcm (pcm o ++ [data]) o else o
  end.

(** The end of the sender takes the queue with it. *)
Definition end_sender (o : AudioOutput) : AudioOutput := set_sender SenderGone (set_pcm [] o).

(** One turn of the sender.  [DataReady]: it takes from the queue, and a put, if
    there is one, ends as said; [tx_alive]: someone can still send. *)
Inductive SenderEvent : Set := Probed (present : bool) | DataReady (put_ok : bool) | SenderCancel.

Definition sender_turn (tx_alive : bool) (ev : SenderEvent) (o : AudioOutput) : AudioOutput :=
  match sender o, ev with
  | SenderProbing, Probed b => set_sender Sending (set_peer b o)
  | Sending, Probed b => set_peer b o
  | Sending, SenderCancel => if cancelled o then end_sender o else o
  | Sending, DataReady put_ok =>
      match pcm o with
      | [] => if tx_alive then o else end_sender o
      | data :: rest =>
          let o := set_pcm rest o in
          if is_ready o then (if put_ok then publish data o else set_peer false o) else o
      end
  | _, _ => o
  end.

(** The answer to a query for the state of the process. *)
Record GetMicProcessStateResponse := mkMicState { gm_ok : bool; gm_running : bool }.

Definition query_mic_process_running (reply : option GetMicProcessStateResponse) : option bool :=
  match reply with
  | Some resp => if gm_ok resp then Some (gm_running resp) else None
  | None => None
  end.

Definition sync_sidecar_running (reply : option GetMicProcessStateResponse) (o : AudioOutput) : AudioOutput :=
  match query_mic_process_running reply with Some running => set_running running o | None => o end.

(** [StateEvent None]: an event that cannot be decoded. *)
Inductive WatcherEvent : Set :=
| WatcherSubscribed (subscribes : bool)
| WatcherSynced (reply : option GetMicProcessStateResponse)
| StateEvent (running : option bool)
| StateClosed
| WatcherCancel.

Definition watcher_turn (ev : WatcherEvent) (o : AudioOutput) : AudioOutput :=
  match watcher o, ev with
  | WatcherSubscribing, WatcherSubscribed ok => set_watcher (if ok then WatcherSyncing else WatcherGone) o
  | WatcherSyncing, WatcherSynced reply => set_watcher Watching (sync_sidecar_running reply o)
  | Watching, StateEvent (Some running) => set_running running o
  | Watching, StateClosed => set_watcher WatcherGone o
  | Watching, WatcherCancel => if cancelled o then set_watcher WatcherGone o else o
  | _, _ => o
  end.

(** ** The decoder *)

Definition FRAME : nat := 1920.

(** Words to bytes, as the processor has them. *)
Definition u16_slice_to_le_bytes (data : list Z) : list Z := flat_map (fun v => [v mod 256; v / 256]%Z) data.

Inductive PipePhase : Set := PipeSubscribing | Piping | PipeEnded.
Inductive DecoderPhase : Set := DecoderStarting | Decoding | Clearing | DecoderGone.

(** One start.  [samples]: packets between pipeline and decoder; [slices]: the rest
    of the packet at hand; [decoded]: what the decoder was given so far, which is its
    state; [received]: what the pipeline passed on. *)
Record Start := mkStart {
  pipe : PipePhase; samples : list (list (list Z)); slices : list (list Z);
  decoder : DecoderPhase; decoded : list (list Z); frame_cache : list Z;
  output : AudioOutput; received : list (list Z) }.

Definition start_new : Start := mkStart PipeSubscribing [] [] DecoderStarting [] (replicate FRAME 0%Z) output_new [].

Definition set_pipe (p : PipePhase) (s : Start) : Start :=
  mkStart p (samples s) (slices s) (decoder s) (decoded s) (frame_cache s) (output s) (received s).
Definition set_decoder (p : DecoderPhase) (s : Start) : Start :=
  mkStart (pipe s) (samples s) (slices s) p (decoded s) (frame_cache s) (output s) (received s).
Definition set_output (f : AudioOutput -> AudioOutput) (s : Start) : Start :=
  mkStart (pipe s) (samples s) (slices s) (decoder s) (decoded s) (frame_cache s) (f (output s)) (received s).
Definition push_sample (p : list (list Z)) (s : Start) : Start :=
  mkStart (pipe s) (samples s ++ [p]) (slices s) (decoder s) (decoded s) (frame_cache s) (output s) (received s ++ p).

Section decoding.

(** The codec: the sound of a packet after the packets before it. *)
Context (decode : list (list Z) -> list Z -> option (list Z)).

(** [decode_to_slice]: the sound is written to the front of the cache, if it fits. *)
Definition decode_to_slice (before : list (list Z)) (slice cache : list Z) : option (list Z) :=
  match decode before slice with
  | Some sound => if (length sound <=? length cache)%nat then Some (sound ++ drop (length sound) cache) else None
  | None => None
  end.

(** The next slice: the whole cache goes out. *)
Definition decode_slice (s : Start) : Start :=
  match slices s with
  | [] => s
  | slice :: rest =>
      match decode_to_slice (decoded s) slice (frame_cache s) with
      | None => mkStart (pipe s) (samples s) rest (decoder s) (decoded s ++ [slice]) (frame_cache s) (output s) (received s)
      | Some cache => mkStart (pipe s) (samples s) rest (decoder s) (decoded s ++ [slice]) cache
                        (send_data (u16_slice_to_le_bytes cache) (output s)) (received s)
      end
  end.

(** ** The service (virtual_mic.rs)

    [slot]: the output that an end cancels; [starts]: every start there was. *)

Record VirtualMic := mkVm { RUNNING : bool; NEED_STOP : bool; slot : option nat; starts : list Start }.

Definition vm_new : VirtualMic := mkVm false false None [].

Definition on_start (i : nat) (f : Start -> Start) (m : VirtualMic) : VirtualMic :=
  mkVm (RUNNING m) (NEED_STOP m) (slot m) (alter f i (starts m)).
Definition set_flag (b : bool) (m : VirtualMic) : VirtualMic := mkVm b (NEED_STOP m) (slot m) (starts m).
Definition clear_slot (m : VirtualMic) : VirtualMic := mkVm (RUNNING m) (NEED_STOP m) None (starts m).

Definition service_main (m : VirtualMic) : VirtualMic * Result string unit :=
  if RUNNING m then (m, match slot m with Some _ => Ok tt | None => Err "virtual mic service is still shutting down" end)
  else (mkVm true false (Some (length (starts m))) (starts m ++ [start_new]), Ok tt).

Definition init (m : VirtualMic) : VirtualMic * Result string unit := service_main m.

Definition init_from_saved_config (emulated : bool) (m : VirtualMic) : VirtualMic * Result string unit :=
  if negb emulated then (m, Ok tt) else init m.

(** [uninit] up to its wait, and whether it waits on after so many milliseconds. *)
Definition uninit (m : VirtualMic) : VirtualMic :=
  match slot m with
  | Some i => mkVm (RUNNING m) true None (alter (set_output shutdown) i (starts m))
  | None => mkVm (RUNNING m) true None (starts m)
  end.

Definition UNINIT_WAIT_TIMEOUT : Z := 2000.
Definition uninit_waits (elapsed : Z) (m : VirtualMic) : bool := RUNNING m && (elapsed <? UNINIT_WAIT_TIMEOUT)%Z.

(** The pipeline: the flag first, then what the bus has within 100 ms. *)
Inductive Receive : Type := Sample (payload : list (list Z)) | NoSample | ReceiveError.

(** Nobody takes packets any more once the thread is over. *)
Definition decoder_left (s : Start) : bool := match decoder s with DecoderGone => true | _ => false end.

Definition pipe_turn (need_stop : bool) (r : Receive) (s : Start) : Start :=
  match pipe s with
  | Piping =>
      if need_stop then set_pipe PipeEnded s
      else match r with
           | Sample payload => if decoder_left s then set_pipe PipeEnded s else push_sample payload s
           | NoSample => s
           | ReceiveError => set_pipe PipeEnded s
           end
  | _ => s
  end.

(** A subscription that fails is a panic, which ends the task. *)
Definition pipe_subscribed (subscribes : bool) (s : Start) : Start :=
  match pipe s with PipeSubscribing => set_pipe (if subscribes then Piping else PipeEnded) s | _ => s end.

(** The thread: it makes its decoder, decodes what is at hand, takes the next packet,
    or leaves when no more can come; it leaves in two steps. *)
Definition run_virtual_mic (i : nat) (decoder_ok : bool) (m : VirtualMic) : VirtualMic :=
  match starts m !! i with
  | None => m
  | Some s =>
      match decoder s, slices s, samples s with
      | DecoderStarting, _, _ => if decoder_ok then on_start i (set_decoder Decoding) m else set_flag false (on_start i (set_decoder Clearing) m)
      | Decoding, _ :: _, _ => on_start i decode_slice m
      | Decoding, [], p :: rest =>
          on_start i (fun s => mkStart (pipe s) rest p (decoder s) (decoded s) (frame_cache s) (output s) (received s)) m
      | Decoding, [], [] =>
          match pipe s with PipeEnded => set_flag false (on_start i (set_decoder Clearing) m) | _ => m end
      | Clearing, _, _ => clear_slot (on_start i (set_decoder DecoderGone) m)
      | DecoderGone, _, _ => m
      end
  end.

(** The slot and the thread hold the output. *)
Definition tx_alive (i : nat) (m : VirtualMic) : bool :=
  bool_decide (slot m = Some i) || match starts m !! i with Some s => match decoder s with DecoderGone => false | _ => true end | None => false end.

Inductive MicStep : Type :=
| Init
| Uninit
| Subscribed (i : nat) (subscribes : bool)
| Pipe (i : nat) (r : Receive)
| Decode (i : nat) (decoder_ok : bool)
| SenderTurn (i : nat) (ev : SenderEvent)
| WatcherTurn (i : nat) (ev : WatcherEvent).

Definition mic_step (st : MicStep) (m : VirtualMic) : VirtualMic :=
  match st with
  | Init => (init m).1
  | Uninit => uninit m
  | Subscribed i ok => on_start i (pipe_subscribed ok) m
  | Pipe i r => on_start i (pipe_turn (NEED_STOP m) r) m
  | Decode i ok => run_virtual_mic i ok m
  | SenderTurn i ev => on_start i (set_output (sender_turn (tx_alive i m) ev)) m
  | WatcherTurn i ev => on_start i (set_output (watcher_turn ev)) m
  end.

Definition mic_run (steps : list MicStep) (m : VirtualMic) : VirtualMic := fold_left (fun m st => mic_step st m) steps m.

(** * Properties *)

(** What goes out for packets, one after the other. *)
Fixpoint frames (before : list (list Z)) (cache : list Z) (packets : list (list Z)) : list (list Z) :=
  match packets with
  | [] => []
  | p :: rest =>
      match decode_to_slice before p cache with
      | Some c => u16_slice_to_le_bytes c :: frames (before ++ [p]) c rest
      | None => frames (before ++ [p]) cache rest
      end
  end.

Fixpoint cache_after (before : list (list Z)) (cache : list Z) (packets : list (list Z)) : list Z :=
  match packets with
  | [] => cache
  | p :: rest => cache_after (before ++ [p]) (default cache (decode_to_slice before p cache)) rest
  end.

Abbreviation empty_cache := (replicate FRAME 0%Z).
#[local] Opaque FRAME.

Lemma frames_app before cache l1 l2 :
  frames before cache (l1 ++ l2) = frames before cache l1 ++ frames (before ++ l1) (cache_after before cache l1) l2.
Proof.
  revert before cache. induction l1 as [|p l1 IH]; intros before cache; cbn; [by rewrite app_nil_r|].
  destruct (decode_to_slice before p cache); cbn; rewrite IH, <- app_assoc; done.
Qed.

Lemma cache_after_app before cache l1 l2 :
  cache_after before cache (l1 ++ l2) = cache_after (before ++ l1) (cache_after before cache l1) l2.
Proof.
  revert before cache. induction l1 as [|p l1 IH]; intros before cache; cbn; [by rewrite app_nil_r|].
  by rewrite IH, <- app_assoc.
Qed.

(** ** One start *)

(** What was sent or waits is a part, in order, of what was decoded; nothing gets
    lost on the way to the decoder. *)
Record sounds (s : Start) : Prop := mkSounds {
  so_packets : decoded s ++ slices s ++ concat (samples s) = received s;
  so_cache : frame_cache s = cache_after [] empty_cache (decoded s);
  so_frames : (published (output s) ++ pcm (output s)) `sublist_of` frames [] empty_cache (decoded s);
  so_queue : (length (pcm (output s)) <= QUEUE)%nat }.

Lemma sounds_new : sounds start_new.
Proof. split; cbn; [done|done|constructor|unfold QUEUE; lia]. Qed.

(** Steps of the output that only take from its queue. *)
Definition drains (o o' : AudioOutput) : Prop :=
  (published o' ++ pcm o') `sublist_of` (published o ++ pcm o) /\ (length (pcm o') <= length (pcm o))%nat.

Lemma sounds_drains f s : (∀ o, drains o (f o)) -> sounds s -> sounds (set_output f s).
Proof.
  intros Hf [H1 H2 H3 H4]. destruct (Hf (output s)) as [Hs Hl]. split; cbn; [done|done|by etrans|lia].
Qed.

Lemma drains_same o o' : published o' = published o -> pcm o' = pcm o -> drains o o'.
Proof. intros Hp Hq. split; rewrite ?Hp, Hq; done. Qed.

Lemma end_sender_drains o : drains o (end_sender o).
Proof. split; cbn; [|lia]. rewrite app_nil_r. by apply sublist_inserts_r. Qed.

Lemma sender_drains alive ev o : drains o (sender_turn alive ev o).
Proof.
  unfold sender_turn. destruct (sender o), ev; try (by apply drains_same);
    [|by case_match; [apply end_sender_drains|apply drains_same]].
  destruct (pcm o) as [|data rest] eqn:Eq; [case_match; [by apply drains_same|apply end_sender_drains]|].
  cbv zeta. destruct (is_ready _); [destruct put_ok|]; unfold drains; cbn; rewrite Eq; cbn; split; try lia;
    rewrite <- ?app_assoc; cbn; try done; apply sublist_app; [done|by constructor|done|by constructor].
Qed.

Lemma watcher_drains ev o : drains o (watcher_turn ev o).
Proof.
  unfold watcher_turn, sync_sidecar_running. destruct (watcher o), ev; repeat case_match; by apply drains_same.
Qed.

Lemma shutdown_drains o : drains o (shutdown o).
Proof. by apply drains_same. Qed.

Lemma sounds_pipe need_stop r s : sounds s -> sounds (pipe_turn need_stop r s).
Proof.
  intros Hs. unfold pipe_turn. destruct (pipe s); [done| |done]. destruct need_stop; [by destruct Hs; split|].
  destruct r; [|done|by destruct Hs; split]. destruct (decoder_left s); destruct Hs as [H1 H2 H3 H4]; split; cbn; try done.
  rewrite concat_app. cbn. rewrite app_nil_r, <- H1, <- !app_assoc. done.
Qed.

Lemma sounds_subscribed ok s : sounds s -> sounds (pipe_subscribed ok s).
Proof. intros []. unfold pipe_subscribed. by destruct (pipe s), ok; split. Qed.

Lemma send_data_sends data o :
  (published (send_data data o) ++ pcm (send_data data o)) `sublist_of` ((published o ++ pcm o) ++ [data])
  /\ (length (pcm o) <= QUEUE -> length (pcm (send_data data o)) <= QUEUE)%nat.
Proof.
  assert ((published o ++ pcm o) `sublist_of` ((published o ++ pcm o) ++ [data])) as Hd by by apply sublist_inserts_r.
  unfold send_data. destruct (sender o); [destruct (Nat.ltb_spec (length (pcm o)) QUEUE)..|]; cbn; split; try done;
    rewrite ?app_assoc, ?length_app; cbn; done || lia.
Qed.

Lemma sounds_decode s : sounds s -> sounds (decode_slice s).
Proof.
  intros Hs. unfold decode_slice. destruct (slices s) as [|p rest] eqn:Es; [done|]. destruct Hs as [H1 H2 H3 H4].
  assert ((decoded s ++ [p]) ++ rest ++ concat (samples s) = received s) as Hp by (rewrite <- H1, Es, <- app_assoc; done).
  pose proof (frames_app [] empty_cache (decoded s) [p]) as Hf. pose proof (cache_after_app [] empty_cache (decoded s) [p]) as Hc.
  cbn [frames cache_after app] in Hf, Hc. rewrite <- H2 in Hf, Hc.
  destruct (decode_to_slice (decoded s) p (frame_cache s)) as [c|];
    (split; cbn; [exact Hp|symmetry; exact Hc|rewrite Hf, ?app_nil_r|]; try done).
  - destruct (send_data_sends (u16_slice_to_le_bytes c) (output s)) as [Hd _]. etrans; [exact Hd|]. by apply sublist_app.
  - by apply send_data_sends.
Qed.

(** ** Every start *)

(** The thread of a start takes packets, or will. *)
Definition feeds (s : Start) : bool := match decoder s with DecoderStarting | Decoding => true | _ => false end.

(** At most the last start decodes, and the flag says whether it does. *)
Record one_start (m : VirtualMic) : Prop := mkOneStart {
  os_sounds : Forall sounds (starts m);
  os_feeds : ∀ i s, starts m !! i = Some s -> feeds s = true -> RUNNING m = true /\ S i = length (starts m);
  os_running : RUNNING m = true -> ∃ s, last (starts m) = Some s /\ feeds s = true;
  os_slot : ∀ i, slot m = Some i -> S i = length (starts m) }.

Lemma one_start_new : one_start vm_new.
Proof. by split. Qed.

Lemma last_at {A} (l : list A) i : S i = length l -> last l = l !! i.
Proof. intros Hi. rewrite last_lookup, <- Hi. done. Qed.

(** A change of one start that leaves its thread alone. *)
Lemma one_start_on i f m :
  (∀ s, starts m !! i = Some s -> sounds s -> sounds (f s) /\ feeds (f s) = feeds s) -> one_start m -> one_start (on_start i f m).
Proof.
  intros Hf [H1 H2 H3 H4]. rewrite Forall_lookup in H1. split; cbn.
  - rewrite Forall_lookup. intros j s. rewrite list_lookup_alter. case_decide; [|eauto].
    destruct (starts m !! i) eqn:E; cbn; [|done]. intros [= <-]. apply Hf; eauto.
  - intros j s. rewrite length_alter, list_lookup_alter. case_decide as Hij; [subst|by apply H2].
    destruct (starts m !! j) eqn:E; cbn; [|done]. intros [= <-]. rewrite (proj2 (Hf _ eq_refl (H1 _ _ E))). by apply H2.
  - intros HR. destruct (H3 HR) as (s & Hl & Hfs). rewrite last_lookup, length_alter in *.
    destruct (decide (i = pred (length (starts m)))) as [->|Hne]; [|rewrite list_lookup_alter_ne by done; eauto].
    exists (f s). rewrite list_lookup_alter_eq, Hl. split; [done|]. by rewrite (proj2 (Hf _ Hl (H1 _ _ Hl))).
  - intros j. rewrite length_alter. apply H4.
Qed.

(** The thread of the last start stops taking packets. *)
Lemma one_start_leaves i s m :
  one_start m -> starts m !! i = Some s -> feeds s = true -> one_start (set_flag false (on_start i (set_decoder Clearing) m)).
Proof.
  intros [H1 H2 H3 H4] Hi Hs. destruct (H2 i s Hi Hs) as [_ Hl]. split; cbn.
  - apply Forall_alter; [done|]. intros x _ []. by split.
  - intros j t. rewrite list_lookup_alter. case_decide as Hij; [subst; rewrite Hi; cbn; by intros [= <-]|].
    intros Hj Ht. destruct (H2 j t Hj Ht) as [_ Hl']. lia.
  - done.
  - intros j. rewrite length_alter. apply H4.
Qed.

Lemma one_start_clear m : one_start m -> one_start (clear_slot m).
Proof. intros []. by split. Qed.

Lemma one_start_thread i ok m : one_start m -> one_start (run_virtual_mic i ok m).
Proof.
  intros H. unfold run_virtual_mic. destruct (starts m !! i) as [s|] eqn:Ei; [|done].
  assert (∀ f, (sounds s -> sounds (f s) /\ feeds (f s) = feeds s) -> one_start (on_start i f m)) as Hon.
  { intros f Hf. apply one_start_on; [|done]. intros s' Hs'. rewrite Ei in Hs'. by injection Hs' as <-. }
  destruct (decoder s) eqn:Ed; [destruct ok| |apply one_start_clear|done].
  - apply Hon. intros []. split; [by split|]. unfold feeds. cbn. by rewrite Ed.
  - eapply one_start_leaves; [done|exact Ei|]. unfold feeds. by rewrite Ed.
  - destruct (slices s) as [|p rest] eqn:Esl; [destruct (samples s) as [|p rest] eqn:Esa|].
    + destruct (pipe s); [done..|]. eapply one_start_leaves; [done|exact Ei|]. unfold feeds. by rewrite Ed.
    + apply Hon. intros [H1 H2 H3 H4]. split; [|done]. split; cbn; [|done..]. rewrite <- H1, Esl, Esa. done.
    + apply Hon. intros Hs. split; [by apply sounds_decode|]. unfold decode_slice, feeds. rewrite Esl. by destruct (decode_to_slice _ _ _).
  - apply Hon. intros []. split; [by split|]. unfold feeds. cbn. by rewrite Ed.
Qed.

Lemma one_start_init m : one_start m -> one_start (init m).1.
Proof.
  intros [H1 H2 H3 H4]. unfold init, service_main. destruct (RUNNING m) eqn:ER; cbn; [by split; rewrite ?ER|]. split; cbn.
  - apply Forall_app. split; [done|]. constructor; [apply sounds_new|constructor].
  - intros i s Hi Hs. split; [done|]. rewrite length_app. cbn. apply lookup_app_Some in Hi as [Hi|[Hle Hi]].
    + by destruct (H2 i s Hi Hs).
    + apply list_lookup_singleton_Some in Hi as [? _]. lia.
  - intros _. exists start_new. by rewrite last_snoc.
  - intros i [= <-]. rewrite length_app. cbn. lia.
Qed.

Lemma one_start_uninit m : one_start m -> one_start (uninit m).
Proof.
  intros H. assert (∀ m', one_start m' -> one_start (mkVm (RUNNING m') true None (starts m'))) as Hn by (intros m' []; by split).
  unfold uninit. destruct (slot m) as [i|]; [|by apply Hn].
  apply (Hn (on_start i (set_output shutdown) m)), one_start_on; [|done].
  intros s _ Hs. split; [|done]. apply sounds_drains; [apply shutdown_drains|done].
Qed.

Lemma one_start_step st m : one_start m -> one_start (mic_step st m).
Proof.
  intros H. destruct st; cbn [mic_step]; [by apply one_start_init|by apply one_start_uninit| | |by apply one_start_thread| |];
    apply one_start_on; try done; intros s _ Hs.
  - split; [by apply sounds_subscribed|]. unfold pipe_subscribed. by destruct (pipe s).
  - split; [by apply sounds_pipe|]. unfold pipe_turn. destruct (pipe s); [done| |done].
    destruct (NEED_STOP m), r; try done. by destruct (decoder_left s).
  - split; [|done]. apply sounds_drains; [intros; apply sender_drains|done].
  - split; [|done]. apply sounds_drains; [intros; apply watcher_drains|done].
Qed.

Lemma one_start_run steps m : one_start m -> one_start (mic_run steps m).
Proof. unfold mic_run. revert m. induction steps as [|st steps IH]; intros m H; [done|]. cbn. apply IH. by apply one_start_step. Qed.

(** Over every interleaving of starts, stops, packets and tasks, what the
    process of the microphone gets of a start is, in order and each at most once,
    the sound of packets that came for it; no more than 32 buffers wait; and at
    most one start takes packets, which the flag shows. *)
Theorem microphone_gets_the_sound steps :
  let m := mic_run steps vm_new in
  (∀ i s, starts m !! i = Some s ->
     published (output s) `sublist_of` frames [] empty_cache (received s) /\ (length (pcm (output s)) <= QUEUE)%nat)
  /\ (∀ i j s t, starts m !! i = Some s -> starts m !! j = Some t -> feeds s = true -> feeds t = true -> i = j)
  /\ (RUNNING m = true <-> ∃ i s, starts m !! i = Some s /\ feeds s = true).
Proof.
  pose proof (one_start_run steps vm_new one_start_new) as [H1 H2 H3 _]. rewrite Forall_lookup in H1. cbv zeta. split_and!.
  - intros i s Hi. destruct (H1 i s Hi) as [Hp _ Hf Hq]. split; [|done].
    rewrite <- Hp, frames_app. apply sublist_inserts_r. etrans; [|exact Hf]. by apply sublist_inserts_r.
  - intros i j s t Hi Hj Hs Ht. destruct (H2 i s Hi Hs), (H2 j t Hj Ht). lia.
  - split; [|intros (i & s & Hi & Hs); by destruct (H2 i s Hi Hs)].
    intros HR. destruct (H3 HR) as (s & Hl & Hs). rewrite last_lookup in Hl. eauto.
Qed.

(** The sound of packets, as it comes out of the codec. *)
Fixpoint sounds_of (before packets : list (list Z)) : list (list Z) :=
  match packets with
  | [] => []
  | p :: rest => option_list (u16_slice_to_le_bytes <$> decode before p) ++ sounds_of (before ++ [p]) rest
  end.

(** When every packet that can be decoded fills the cache, what goes out for it is
    its sound. *)
Lemma whole_packets before cache packets :
  length cache = FRAME -> (∀ b p, match decode b p with Some sound => length sound = FRAME | None => True end) ->
  frames before cache packets = sounds_of before packets.
Proof.
  intros Hc Hd. revert before cache Hc. induction packets as [|p rest IH]; intros before cache Hc; [done|]. cbn.
  unfold decode_to_slice. specialize (Hd before p) as Hp. destruct (decode before p) as [sound|]; cbn; [|by apply IH].
  rewrite Hp, Hc, Nat.leb_refl, drop_ge, app_nil_r by lia. f_equal. by apply IH.
Qed.

(** ** The end *)

Lemma on_start_at i f s m : starts m !! i = Some s -> on_start i f m = on_start i (fun _ => f s) m.
Proof. intros Hi. unfold on_start. f_equal. apply list_alter_ext; [|done]. intros x. rewrite Hi. by intros [= <-]. Qed.

(** What the thread still has to do. *)
Lemma thread_drains i s m :
  starts m !! i = Some s -> decoder s = Decoding -> pipe s = PipeEnded ->
  ∃ n, let m' := mic_run (replicate n (Decode i true)) m in
    RUNNING m' = false /\ slot m' = slot m /\ NEED_STOP m' = NEED_STOP m /\ length (starts m') = length (starts m)
    /\ ∃ s', starts m' !! i = Some s' /\ decoder s' = Clearing /\ decoded s' = decoded s ++ slices s ++ concat (samples s).
Proof.
  remember (length (slices s) + length (concat (samples s)) + length (samples s))%nat as k eqn:Ek.
  revert s m Ek. induction (lt_wf k) as [k _ IH]. intros s m Ek Hi Hd Hp.
  destruct (slices s) as [|p rest] eqn:Esl; [destruct (samples s) as [|p rest] eqn:Esa|].
  - exists 1%nat. cbn. unfold run_virtual_mic. rewrite Hi, Hd, Esl, Esa, Hp. cbn. rewrite length_alter. split_and!; try done.
    exists (set_decoder Clearing s). rewrite list_lookup_alter_eq, Hi. split_and!; [done..|]. by rewrite app_nil_r.
  - set (s1 := mkStart (pipe s) rest p (decoder s) (decoded s) (frame_cache s) (output s) (received s)).
    set (m1 := run_virtual_mic i true m).
    assert (m1 = on_start i (fun _ => s1) m) as Hm1 by (unfold m1, run_virtual_mic; rewrite Hi, Hd, Esl, Esa; by erewrite on_start_at).
    destruct (IH (length (slices s1) + length (concat (samples s1)) + length (samples s1))%nat ltac:(subst k; cbn; rewrite length_app; lia) s1 m1 eq_refl)
      as (n & HR & Hs & HN & Hl & s' & Hi' & Hd' & Hdec); [by rewrite Hm1; cbn; rewrite list_lookup_alter_eq, Hi|done|done|].
    exists (S n). cbn in *. fold m1. rewrite Hm1 in *. cbn in *. rewrite length_alter in Hl. split_and!; try done. exists s'. by rewrite Hdec.
  - set (s1 := decode_slice s). set (m1 := run_virtual_mic i true m).
    assert (slices s1 = rest /\ samples s1 = samples s /\ decoder s1 = Decoding /\ pipe s1 = PipeEnded /\ decoded s1 = decoded s ++ [p]) as (H1 & H2 & H3 & H4 & H5).
    { unfold s1, decode_slice. rewrite Esl. by destruct (decode_to_slice _ _ _). }
    assert (m1 = on_start i (fun _ => s1) m) as Hm1 by (unfold m1, run_virtual_mic; rewrite Hi, Hd, Esl; by erewrite on_start_at).
    destruct (IH (length (slices s1) + length (concat (samples s1)) + length (samples s1))%nat ltac:(subst k; rewrite H1, H2; cbn; lia) s1 m1 eq_refl)
      as (n & HR & Hs & HN & Hl & s' & Hi' & Hd' & Hdec); [by rewrite Hm1; cbn; rewrite list_lookup_alter_eq, Hi|done|done|].
    exists (S n). cbn in *. fold m1. rewrite Hm1 in *. cbn in *. rewrite length_alter in Hl. split_and!; try done.
    exists s'. split_and!; [done..|]. rewrite Hdec, H5, H1, H2, <- app_assoc. done.
Qed.

Lemma mic_run_app l1 l2 m : mic_run (l1 ++ l2) m = mic_run l2 (mic_run l1 m).
Proof. unfold mic_run. apply fold_left_app. Qed.

Lemma uninit_keeps_thread i s m :
  starts m !! i = Some s ->
  ∃ s', starts (uninit m) !! i = Some s' /\ decoder s' = decoder s /\ pipe s' = pipe s /\ RUNNING (uninit m) = RUNNING m.
Proof.
  intros Hi. unfold uninit. destruct (slot m) as [k|]; cbn; [|by exists s]. rewrite list_lookup_alter.
  destruct (decide (k = i)) as [->|Hne]; [rewrite Hi; by eexists|by exists s].
Qed.

(** The pipeline of a start ends once it was told to. *)
Lemma pipe_ends i s m :
  starts m !! i = Some s -> NEED_STOP m = true -> feeds s = true ->
  let m' := mic_run [Subscribed i true; Pipe i NoSample] m in
  RUNNING m' = RUNNING m /\ slot m' = slot m /\ NEED_STOP m' = true
  /\ ∃ s', starts m' !! i = Some s' /\ decoder s' = decoder s /\ pipe s' = PipeEnded.
Proof.
  intros Hi HN Hf. cbn. rewrite HN. split_and!; [done..|]. rewrite !list_lookup_alter_eq, Hi. cbn. eexists. split; [done|].
  unfold pipe_subscribed. by destruct (pipe s) eqn:E; cbn; unfold pipe_turn; cbn; rewrite ?E.
Qed.

(** Whatever happened, and whether or not packets still come: after an end the
    tasks, left to run, clear the flag and the slot, and the next start works. *)
Theorem stop_gets_through steps :
  ∃ more, Forall (fun st => st ≠ Init) more /\
    let m := mic_run (steps ++ [Uninit] ++ more) vm_new in
    RUNNING m = false /\ slot m = None /\ (init m).2 = Ok tt.
Proof.
  pose proof (one_start_run steps vm_new one_start_new) as [_ _ H3 _]. set (m0 := mic_run steps vm_new) in *.
  cut (∃ more, Forall (fun st => st ≠ Init) more /\ RUNNING (mic_run more (uninit m0)) = false /\ slot (mic_run more (uninit m0)) = None).
  { intros (more & Hm & HR & Hs). exists more. split; [done|]. rewrite !mic_run_app. cbv zeta. unfold init, service_main.
    change (mic_run [Uninit] (mic_run steps vm_new)) with (uninit m0). by rewrite HR. }
  assert (NEED_STOP (uninit m0) = true /\ slot (uninit m0) = None /\ RUNNING (uninit m0) = RUNNING m0) as (HN & Hsl & HR0)
    by (unfold uninit; by destruct (slot m0)).
  destruct (RUNNING m0) eqn:ER; [|exists []; split; by repeat constructor].
  destruct (H3 eq_refl) as (s & Hl & Hf). rewrite last_lookup in Hl. set (i := pred (length (starts m0))) in *.
  destruct (uninit_keeps_thread i s m0 Hl) as (s1 & Hi1 & Hd1 & Hp1 & _).
  destruct (pipe_ends i s1 (uninit m0) Hi1 HN) as (HR2 & Hs2 & HN2 & s2 & Hi2 & Hd2 & Hp2); [unfold feeds in *; by rewrite Hd1|].
  remember (mic_run [Subscribed i true; Pipe i NoSample] (uninit m0)) as m2 eqn:Em2.
  assert (∃ pre s3, Forall (fun st => st ≠ Init) pre /\ let m3 := mic_run pre m2 in
      slot m3 = None /\ starts m3 !! i = Some s3 /\ decoder s3 = Decoding /\ pipe s3 = PipeEnded) as (pre & s3 & Hpre & Hs3 & Hi3 & Hd3 & Hp3).
  { unfold feeds in Hf. rewrite <- Hd1, <- Hd2 in Hf. destruct (decoder s2) eqn:E2; try done.
    - exists [Decode i true], (set_decoder Decoding s2). split; [by repeat constructor|]. cbn. unfold run_virtual_mic. rewrite Hi2, E2. cbn.
      rewrite list_lookup_alter_eq, Hi2. by rewrite Hs2, Hsl.
    - exists [], s2. split; [constructor|]. cbn. by rewrite Hs2, Hsl. }
  destruct (thread_drains i s3 (mic_run pre m2) Hi3 Hd3 Hp3) as (n & HR4 & Hs4 & _).
  exists ([Subscribed i true; Pipe i NoSample] ++ pre ++ replicate n (Decode i true)). split.
  - rewrite !Forall_app. split_and!; [by repeat constructor|done|by apply Forall_replicate].
  - rewrite !mic_run_app. rewrite <- Em2, HR4, Hs4. done.
Qed.

End decoding.

(** ** The output *)

(** Nothing is put on the bus unless the process runs and a peer is there. *)
Lemma put_only_when_ready alive ev o :
  published (sender_turn alive ev o) = published o
  \/ (is_ready o = true /\ ∃ data, head (pcm o) = Some data /\ published (sender_turn alive ev o) = published o ++ [data]).
Proof.
  unfold sender_turn. destruct (sender o), ev; auto; [|by destruct (cancelled o); left].
  destruct (pcm o) as [|data rest]; [by destruct alive; left|]. cbv zeta. change (is_ready (set_pcm rest o)) with (is_ready o).
  destruct (is_ready o); [destruct put_ok|]; auto. right. by eauto.
Qed.

(** The sender never waits for the process: what is in the queue leaves it. *)
Lemma sender_takes alive put_ok data rest o :
  sender o = Sending -> pcm o = data :: rest -> pcm (sender_turn alive (DataReady put_ok) o) = rest.
Proof. intros Hs Hp. unfold sender_turn. rewrite Hs, Hp. cbv zeta. by destruct (is_ready _), put_ok. Qed.

(** The last event that can be read decides, whatever the query said before. *)
Lemma last_event_decides reply running o :
  watcher o = WatcherSyncing ->
  sidecar_running (watcher_turn (StateEvent (Some running)) (watcher_turn (WatcherSynced reply) o)) = running.
Proof. intros Hw. unfold watcher_turn at 2. rewrite Hw. done. Qed.

Fixpoint le_words (l : list Z) : list Z :=
  match l with a :: b :: l' => (a + 256 * b)%Z :: le_words l' | _ => [] end.

Lemma le_words_read_back data : le_words (u16_slice_to_le_bytes data) = data.
Proof. induction data as [|v data IH]; cbn; [done|]. fold (u16_slice_to_le_bytes data). rewrite IH. f_equal. rewrite (Z.div_mod v 256) at 3 by lia. lia. Qed.

Lemma u16_bytes_are_bytes data :
  Forall (fun v => 0 <= v < 65536)%Z data -> Forall (fun b => 0 <= b < 256)%Z (u16_slice_to_le_bytes data).
Proof.
  induction 1 as [|v data Hv _ IH]; cbn; [done|]. repeat constructor; [apply Z.mod_pos_bound; lia|apply Z.mod_pos_bound; lia| | |exact IH].
  - apply Z.div_pos; lia.
  - apply Z.div_lt_upper_bound; lia.
Qed.

(** ** What the code leaves open *)

(** A codec whose packets are their sound. *)
Abbreviation plain := (fun (_ : list (list Z)) (p : list Z) => Some p).

(** The length of what was decoded is ignored: a packet that is shorter goes out
    with the end of the one before it. *)
Lemma short_packet_repeats_old_sound :
  frames plain [] (replicate FRAME 0%Z) [replicate FRAME 7%Z; [1; 2]%Z]
  = [u16_slice_to_le_bytes (replicate FRAME 7%Z); u16_slice_to_le_bytes ([1; 2]%Z ++ replicate (FRAME - 2) 7%Z)].
Proof. vm_compute. reflexivity. Qed.

(** The thread clears the flag before the slot: a start in between loses its slot,
    is never cancelled, and a further start is refused although nothing shuts down. *)
Lemma late_clear_hides_a_start :
  let m := mic_run plain [Init; Subscribed 0 true; Decode 0 true; Uninit; Pipe 0 NoSample; Decode 0 true; Init; Decode 0 true] vm_new in
  RUNNING m = true /\ slot m = None /\ NEED_STOP m = false
  /\ (init m).2 = Err "virtual mic service is still shutting down"
  /\ (cancelled ∘ output <$> starts (uninit m) !! 1%nat) = Some false.
Proof. vm_compute. by split_and!. Qed.

(** Without its slot a start is over when its pipeline breaks, but its watcher is
    not: nobody cancels it any more. *)
Lemma watcher_left_behind :
  let m := mic_run plain [Init; WatcherTurn 0 (WatcherSubscribed true); WatcherTurn 0 (WatcherSynced None); SenderTurn 0 (Probed true);
                          Subscribed 0 false; Decode 0 true; Decode 0 true; Decode 0 true; SenderTurn 0 (DataReady true);
                          Uninit; WatcherTurn 0 WatcherCancel] vm_new in
  RUNNING m = false
  /\ ((fun s => (decoder s, sender (output s), watcher (output s))) <$> starts m !! 0%nat) = Some (DecoderGone, SenderGone, Watching).
Proof. vm_compute. by split_and!. Qed.
