(* ===== verification/DevMode.v ===== *)
(** * Developer mode and SSH keys (config/mod.rs, network/ssh.rs, jsonrpc.rs)

    The mark of developer mode, the two copies of the keys that open the device (one
    with the data of the user, one where the SSH server looks), and the script that
    starts and stops the server.  What the file system and the script do is the
    environment of an operation.  A [File] of the runtime writes in the background:
    without a flush, what was written may reach the file later or never, and no
    error of it is seen. *)

From S2P Require Import Prelude StateLaws Text.

#[local] Set Default Proof Using "Type".

(** ** State *)

Definition octal (u g o : Z) : Z := 64 * u + 8 * g + o.

Record KeyFile := mkKeyFile { content : string; mode : Z }.

(** [ssh_dir]: the mode of /root/.ssh, if it is there; [late]: a write to the file
    of the user that is still under way. *)
Record DevState := mkDev {
  ssh_dir : option Z; user_dir : bool;
  ssh_file : option KeyFile; user_file : option KeyFile;
  late : option string;
  dev_mode : bool; commands : list string }.

Definition with_ssh_dir (m : option Z) (s : DevState) := mkDev m (user_dir s) (ssh_file s) (user_file s) (late s) (dev_mode s) (commands s).
Definition with_user_dir (b : bool) (s : DevState) := mkDev (ssh_dir s) b (ssh_file s) (user_file s) (late s) (dev_mode s) (commands s).
Definition with_ssh_file (f : option KeyFile) (s : DevState) := mkDev (ssh_dir s) (user_dir s) f (user_file s) (late s) (dev_mode s) (commands s).
Definition with_user_file (f : option KeyFile) (s : DevState) := mkDev (ssh_dir s) (user_dir s) (ssh_file s) f (late s) (dev_mode s) (commands s).
Definition with_late (l : option string) (s : DevState) := mkDev (ssh_dir s) (user_dir s) (ssh_file s) (user_file s) l (dev_mode s) (commands s).
Definition with_dev_mode (b : bool) (s : DevState) := mkDev (ssh_dir s) (user_dir s) (ssh_file s) (user_file s) (late s) b (commands s).
Definition did (c : string) (s : DevState) := mkDev (ssh_dir s) (user_dir s) (ssh_file s) (user_file s) (late s) (dev_mode s) (commands s ++ [c]).

(** Where the bytes of a write are when the file is copied. *)
Inductive WriteFate : Set := Landed | Underway | LostWrite.

(** A copy that breaks off leaves the front of the file. *)
Inductive CopyFate : Set := Copied | NotStarted | TornAfter (n : nat).

Record DevEnv := mkDevEnv {
  user_dir_made : bool; ssh_dir_made : bool; dir_mode_set : bool;
  opened : bool; written : WriteFate; mode_set : bool; copied : CopyFate;
  user_removed : bool; ssh_removed : bool; readable : bool;
  script_there : bool; script_ran : bool; script_ok : bool; script_stderr : string;
  mark_made : bool; mark_removed : bool }.

Definition DevM (A : Type) : Type := SE DevState string A.

Section ops.
Context (e : DevEnv).

(** ** The server (ssh.rs) *)

Definition run_script (verb gerund : string) : DevM unit :=
  se_guard (negb (script_there e)) "SSHD init script not found: /etc/init.d/S91sshd" ;;;
  se_guard (negb (script_ran e)) ("failed to execute SSHD " +:+ verb +:+ " command") ;;;
  se_modify (did verb) ;;;
  se_guard (negb (script_ok e)) ("SSHD " +:+ verb +:+ " failed: " +:+ script_stderr e).

Definition start_sshd : DevM unit := run_script "start" "start".
Definition stop_sshd : DevM unit := run_script "stop" "stop".
Definition restart_sshd : DevM unit := run_script "restart" "restart".

(** ** Keys (ssh.rs) *)

(** The directory is made and then closed to others; one that is there is taken as
    it is. *)
Definition ensure_ssh_dir : DevM unit :=
  let! dir := se_get ssh_dir in
  match dir with
  | Some _ => se_ret tt
  | None =>
      se_guard (negb (ssh_dir_made e)) "io error" ;;;
      se_modify (with_ssh_dir (Some (octal 7 5 5))) ;;;
      se_guard (negb (dir_mode_set e)) "io error" ;;;
      se_modify (with_ssh_dir (Some (octal 7 0 0)))
  end.

(** [fs::copy]: contents and mode. *)
Definition copy_keys : DevM unit :=
  let! source := se_get user_file in
  match source with
  | None => se_throw "io error"
  | Some f =>
      match copied e with
      | Copied => se_modify (with_ssh_file (Some f))
      | NotStarted => se_throw "io error"
      | TornAfter n => se_modify (with_ssh_file (Some (mkKeyFile (substring 0 n (content f)) (mode f)))) ;;; se_throw "io error"
      end
  end.

Definition get_ssh_key : DevM (option string) :=
  let! f := se_get ssh_file in
  se_ret (if readable e then content <$> f else None).

(** What [write_all] leaves in the file that was just opened and emptied. *)
Definition write_keys (key : string) : DevM unit :=
  se_modify (fun s =>
    match user_file s with
    | Some f => match written e with
                | Landed => with_user_file (Some (mkKeyFile key (mode f))) s
                | Underway => with_late (Some key) s
                | LostWrite => s
                end
    | None => s
    end).

Definition write_ssh_key (key : string) : DevM unit :=
  let! there := se_get user_dir in
  se_guard (negb there && negb (user_dir_made e)) "io error" ;;;
  se_modify (with_user_dir true) ;;;
  ensure_ssh_dir ;;;
  se_guard (negb (opened e)) "io error" ;;;
  se_modify (fun s => with_user_file (Some (mkKeyFile "" (default (octal 6 4 4) (mode <$> user_file s)))) s) ;;;
  write_keys key ;;;
  se_guard (negb (mode_set e)) "io error" ;;;
  se_modify (fun s => with_user_file ((fun f => mkKeyFile (content f) (octal 6 0 0)) <$> user_file s) s) ;;;
  copy_keys.

Definition clear_ssh_key : DevM unit :=
  let! user := se_get user_file in
  (if bool_decide (user = None) then se_ret tt
   else se_guard (negb (user_removed e)) "failed to remove SSH key file" ;;; se_modify (with_user_file None)) ;;;
  let! root := se_get ssh_file in
  if bool_decide (root = None) then se_ret tt
  else se_guard (negb (ssh_removed e)) "failed to remove SSH key file" ;;; se_modify (with_ssh_file None).

Definition set_ssh_key (key : option string) : DevM unit :=
  match key with Some k => write_ssh_key k | None => clear_ssh_key end.

(** At the start: with developer mode, keys that the update of the system removed
    come back from the copy of the user. *)
Definition init_ssh_key : DevM unit :=
  let! enabled := se_get dev_mode in
  if negb enabled then stop_sshd
  else
    let! user := se_get user_file in
    match user with
    | None => se_ret tt
    | Some _ =>
        ensure_ssh_dir ;;;
        let! root := se_get ssh_file in
        if match root with Some f => negb (is_empty (content f)) | None => false end then se_ret tt
        else copy_keys
    end.

(** ** Developer mode (config/mod.rs, jsonrpc.rs) *)

Definition get_dev_mode_state (s : DevState) : bool := dev_mode s.

Definition set_dev_mode_state (enabled : bool) : DevM unit :=
  if enabled then se_guard (negb (mark_made e)) "create file failed" ;;; se_modify (with_dev_mode true)
  else
    let! there := se_get dev_mode in
    if negb there then se_ret tt
    else se_guard (negb (mark_removed e)) "remove file failed" ;;; se_modify (with_dev_mode false).

Definition set_dev_mode_state_handler (enabled : bool) : DevM unit :=
  set_dev_mode_state enabled ;;; if enabled then start_sshd else stop_sshd.

Definition get_ssh_key_state : DevM (option string) := get_ssh_key.

Definition set_ssh_key_state (key : string) : DevM unit :=
  let key := trim key in set_ssh_key (if is_empty key then None else Some key).

End ops.

(** Requests, starts of the device, and updates of the system, which take what is
    under /root with them.  A write that is under way is over before the next. *)
Inductive DevOp : Type :=
| SetKey (key : string)
| SetDevMode (enabled : bool)
| Boot
| SystemUpdate.

Definition settle (s : DevState) : DevState :=
  match late s, user_file s with
  | Some key, Some f => with_late None (with_user_file (Some (mkKeyFile key (mode f))) s)
  | _, _ => with_late None s
  end.

Definition dev_op (e : DevEnv) (op : DevOp) : DevM unit :=
  match op with
  | SetKey key => set_ssh_key_state e key
  | SetDevMode enabled => set_dev_mode_state_handler e enabled
  | Boot => init_ssh_key e
  | SystemUpdate => se_modify (fun s => with_ssh_dir None (with_ssh_file None s))
  end.

Definition dev_step (s : DevState) (step : DevEnv * DevOp) : DevState := settle (dev_op step.1 step.2 s).1.

Definition dev_run (steps : list (DevEnv * DevOp)) (s : DevState) : DevState := fold_left dev_step steps s.

(** * Properties *)

(** ** Whose keys open the device *)

(** The front of one of the keys; of no key, nothing. *)
Definition front (keys : list string) (c : string) : Prop := c = "" \/ ∃ key n, key ∈ keys /\ c = substring 0 n key.

Lemma front_whole keys key : key ∈ keys -> front keys key.
Proof. right. exists key, (String.length key). split; [done|]. symmetry. by apply substring_all. Qed.

Lemma front_more keys keys' c : keys ⊆ keys' -> front keys c -> front keys' c.
Proof. intros Hk [->|(key & n & Hin & ->)]; [by left|]. right. exists key, n. split; [by apply Hk|done]. Qed.

(** Both files hold nothing but the keys. *)
Record opened_by (keys : list string) (s : DevState) : Prop := mkOpenedBy {
  ob_ssh f : ssh_file s = Some f -> front keys (content f);
  ob_user f : user_file s = Some f -> content f = "" \/ content f ∈ keys;
  ob_late key : late s = Some key -> key ∈ keys }.

Lemma opened_more keys keys' s : keys ⊆ keys' -> opened_by keys s -> opened_by keys' s.
Proof.
  intros Hk [H1 H2 H3]. split; [intros f Hf; eapply front_more; eauto| |intros k Hl; by apply Hk, H3].
  intros f Hf. destruct (H2 f Hf); [by left|right; by apply Hk].
Qed.

Lemma opened_script keys e verb gerund : keeps (opened_by keys) (run_script e verb gerund).
Proof. unfold run_script. repeat keeps_step; auto with keeps. apply keeps_modify. by intros s []. Qed.

Lemma opened_ssh_dir keys e : keeps (opened_by keys) (ensure_ssh_dir e).
Proof. unfold ensure_ssh_dir. repeat keeps_step; auto with keeps; apply keeps_modify; by intros s []. Qed.

Lemma opened_copy keys e : keeps (opened_by keys) (copy_keys e).
Proof.
  unfold copy_keys. apply keeps_read. intros s [H1 H2 H3]. destruct (user_file s) as [f|] eqn:Ef; [|auto with keeps].
  destruct (H2 f eq_refl) as [Hc|Hc]; destruct (copied e) as [| |n]; repeat keeps_step; auto with keeps; apply keeps_modify;
    intros t [G1 G2 G3]; (split; cbn; [|done..]); intros g [= <-]; cbn.
  - by left.
  - left. rewrite Hc. by destruct n.
  - by apply front_whole.
  - right. by exists (content f), n.
Qed.

Lemma opened_write keys e key : key ∈ keys -> keeps (opened_by keys) (write_ssh_key e key).
Proof.
  intros Hk. unfold write_ssh_key. apply keeps_bind; [auto with keeps|]. intros there. apply keeps_bind; [auto with keeps|]. intros _.
  apply keeps_bind; [apply keeps_modify; by intros s []|]. intros _. apply keeps_bind; [apply opened_ssh_dir|]. intros _.
  apply keeps_bind; [auto with keeps|]. intros _.
  apply keeps_bind; [apply keeps_modify; intros s [H1 H2 H3]; split; cbn; [done| |done]; intros f [= <-]; by left|]. intros _.
  apply keeps_bind.
  { unfold write_keys. apply keeps_modify. intros s Hs. destruct (user_file s) as [f|] eqn:Ef; [|done]. destruct Hs as [H1 H2 H3].
    destruct (written e); (split; cbn; [exact H1| |]); try exact H2; try exact H3;
      [intros g [= <-]; by right|by intros k [= <-]]. }
  intros _. apply keeps_bind; [auto with keeps|]. intros _. apply keeps_bind; [|intros _; apply opened_copy].
  apply keeps_modify. intros s [H1 H2 H3]. split; cbn; [done| |done]. intros g. destruct (user_file s) as [f|]; cbn; [|done].
  intros [= <-]. by apply (H2 f).
Qed.

Lemma opened_clear keys e : keeps (opened_by keys) (clear_ssh_key e).
Proof.
  unfold clear_ssh_key. repeat keeps_step; auto with keeps; apply keeps_modify; intros s [H1 H2 H3]; by split.
Qed.

Definition asked (step : DevEnv * DevOp) : option string :=
  match step.2 with SetKey key => if is_empty (trim key) then None else Some (trim key) | _ => None end.

Lemma opened_op keys e op :
  (∀ key, asked (e, op) = Some key -> key ∈ keys) -> keeps (opened_by keys) (dev_op e op).
Proof.
  intros Hk. destruct op as [key|enabled| |]; cbn [dev_op].
  - unfold set_ssh_key_state, set_ssh_key. unfold asked in Hk. cbn in Hk. cbv zeta. destruct (is_empty (trim key)); [apply opened_clear|].
    by apply opened_write, Hk.
  - unfold set_dev_mode_state_handler, set_dev_mode_state, start_sshd, stop_sshd.
    repeat keeps_step; auto using opened_script with keeps; apply keeps_modify; by intros s [].
  - unfold init_ssh_key, stop_sshd. repeat keeps_step; auto using opened_script, opened_ssh_dir, opened_copy with keeps.
  - apply keeps_modify. intros s [H1 H2 H3]. by split.
Qed.

Lemma opened_settle keys s : opened_by keys s -> opened_by keys (settle s).
Proof.
  intros [H1 H2 H3]. unfold settle. destruct (late s) as [key|]; [|by split]. destruct (user_file s) as [f|] eqn:Ef; (split; cbn; [exact H1| |done]).
  - intros g [= <-]. right. by apply H3.
  - rewrite Ef. exact H2.
Qed.

Lemma opened_run keys steps s :
  opened_by keys s -> opened_by (keys ++ omap asked steps) (dev_run steps s).
Proof.
  unfold dev_run. revert keys s. induction steps as [|[e op] steps IH]; intros keys s Hs; cbn [fold_left omap list_omap]; [by rewrite app_nil_r|].
  set (new := match asked (e, op) with Some key => [key] | None => [] end).
  replace (keys ++ match asked (e, op) with Some y => y :: omap asked steps | None => omap asked steps end)
    with ((keys ++ new) ++ omap asked steps) by (unfold new; rewrite <- app_assoc; by destruct (asked (e, op))).
  apply IH. unfold dev_step. apply opened_settle, opened_op; [|by eapply opened_more, Hs; set_solver].
  intros key Ha. unfold new. cbn [fst snd] in Ha. rewrite Ha. set_solver.
Qed.

Lemma cleared e s : (clear_ssh_key e s).2 = Ok tt -> ssh_file (clear_ssh_key e s).1 = None /\ user_file (clear_ssh_key e s).1 = None.
Proof.
  unfold clear_ssh_key. se_unfold. destruct (user_file s) as [u|] eqn:Eu; cbn; [destruct (user_removed e); cbn; [|done]|].
  all: destruct (ssh_file s) as [f|] eqn:Ef; cbn; [destruct (ssh_removed e); cbn; [|done]|]; done.
Qed.

Lemma settle_none s : late s = None -> settle s = s.
Proof. destruct s. cbn. by intros ->. Qed.

(** Once keys were removed with success, whatever fails later, only keys set
    after that open the device: no start and no update brings the old ones back. *)
Theorem cleared_keys_stay_out e key s steps f :
  is_empty (trim key) = true -> (set_ssh_key_state e key s).2 = Ok tt ->
  ssh_file (dev_run steps (dev_step s (e, SetKey key))) = Some f -> front (omap asked steps) (content f).
Proof.
  intros Hk Hok. assert (opened_by [] (dev_step s (e, SetKey key))) as H0.
  { unfold dev_step. cbn [fst snd dev_op]. unfold set_ssh_key_state, set_ssh_key in *. cbv zeta in *. rewrite Hk in *.
    destruct (cleared e s Hok) as [Hs Hu]. revert Hs Hu. generalize (clear_ssh_key e s).1. intros t Hs Hu.
    unfold settle. rewrite Hu. destruct (late t); split; cbn; rewrite ?Hs, ?Hu; done. }
  intros Hf. apply (ob_ssh _ _ (opened_run [] steps _ H0) f Hf).
Qed.

(** A request to write that succeeds has copied what had reached the file. *)
Lemma write_ok e key s :
  (write_ssh_key e key s).2 = Ok tt ->
  let c := match written e with Landed => key | _ => "" end in
  ssh_file (write_ssh_key e key s).1 = Some (mkKeyFile c (octal 6 0 0)) /\ user_file (write_ssh_key e key s).1 = Some (mkKeyFile c (octal 6 0 0))
  /\ dev_mode (write_ssh_key e key s).1 = dev_mode s
  /\ late (write_ssh_key e key s).1 = match written e with Underway => Some key | _ => late s end.
Proof.
  unfold write_ssh_key, ensure_ssh_dir, write_keys, copy_keys. se_unfold.
  destruct (negb (user_dir s) && negb (user_dir_made e)); [done|]. cbn. destruct (ssh_dir s); cbn; [|destruct (ssh_dir_made e); cbn; [destruct (dir_mode_set e); cbn; [|done]|done]].
  all: destruct (opened e); cbn; [|done]; destruct (written e); cbn; (destruct (mode_set e); cbn; [|done]); destruct (copied e); cbn; done.
Qed.

(** A key that was written and had reached the file opens the device, closed
    to others, and after an update of the system the next start in developer mode
    brings it back. *)
Theorem key_survives_update e e' key s :
  late s = None -> is_empty (trim key) = false -> written e = Landed -> (set_ssh_key_state e key s).2 = Ok tt ->
  dev_mode s = true -> ssh_dir_made e' = true -> dir_mode_set e' = true -> copied e' = Copied ->
  let s1 := dev_step s (e, SetKey key) in
  let s2 := dev_run [(e', SystemUpdate); (e', Boot)] s1 in
  ssh_file s1 = Some (mkKeyFile (trim key) (octal 6 0 0)) /\ ssh_file s2 = ssh_file s1 /\ ssh_dir s2 = Some (octal 7 0 0).
Proof.
  intros Hl Hk Hw Hok Hd H1 H2 H3. cbv zeta. unfold dev_run. cbn [fold_left]. unfold dev_step. cbn [fst snd dev_op].
  unfold set_ssh_key_state, set_ssh_key in *. cbv zeta in *. rewrite Hk in *.
  destruct (write_ok e (trim key) s Hok) as (Hs & Hu & Hm & Hla). rewrite Hw in *. rewrite Hl in Hla.
  set (s1 := (write_ssh_key e (trim key) s).1) in *.
  rewrite (settle_none s1 Hla).
  set (s2 := with_ssh_dir None (with_ssh_file None s1)). change (se_modify _ s1).1 with s2. rewrite (settle_none s2) by done.
  assert ((init_ssh_key e' s2).1 = with_ssh_file (user_file s1) (with_ssh_dir (Some (octal 7 0 0)) (with_ssh_dir (Some (octal 7 5 5)) s2))) as ->.
  { unfold init_ssh_key, ensure_ssh_dir, copy_keys. se_unfold. cbn. rewrite Hm, Hd, Hu. cbn. rewrite H1. cbn. rewrite H2. cbn. rewrite ?Hu, ?H3. cbn. rewrite ?Hu, ?H3. done. }
  rewrite settle_none by done. cbn. by rewrite Hs, Hu.
Qed.

(** The script follows the mode. *)
Lemma server_follows_mode e enabled s s' :
  set_dev_mode_state_handler e enabled s = (s', Ok tt) ->
  get_dev_mode_state s' = enabled /\ last (commands s') = Some (if enabled then "start" else "stop").
Proof.
  assert (∀ verb t t', run_script e verb verb t = (t', Ok tt) -> dev_mode t' = dev_mode t /\ last (commands t') = Some verb) as Hrun.
  { intros verb t t'. unfold run_script. se_unfold. destruct (script_there e), (script_ran e), (script_ok e); cbn; try done.
    intros [= <-]. cbn. by rewrite last_snoc. }
  unfold set_dev_mode_state_handler. intros E. apply bind_ok in E as (d & [] & Hset & E).
  assert (dev_mode d = enabled) as Hd.
  { revert Hset. unfold set_dev_mode_state. se_unfold.
    destruct enabled; [destruct (mark_made e)|destruct (dev_mode s) eqn:Es; cbn; [destruct (mark_removed e)|]]; cbn; try done; by intros [= <-]. }
  unfold get_dev_mode_state. destruct enabled; destruct (Hrun _ _ _ E) as [-> ->]; by rewrite Hd.
Qed.

(** ** Witnesses *)

Definition fine (w : WriteFate) (c : CopyFate) : DevEnv :=
  mkDevEnv true true true true w true c true true true true true true "" true true.
Definition fresh_device : DevState := mkDev None false None None None true [].

Abbreviation set_keys w c key s := (set_ssh_key_state (fine w c) key s).

Lemma cleared_keys_stay_out_witness :
  front ["k2"] "k".
Proof.
  exact (cleared_keys_stay_out (fine Landed Copied) " " (dev_step fresh_device (fine Landed Copied, SetKey "k1"))
    [(fine Landed Copied, SystemUpdate); (fine Landed (TornAfter 1), SetKey "k2")] (mkKeyFile "k" (octal 6 0 0)) eq_refl eq_refl eq_refl).
Defined.

Lemma key_survives_update_witness :
  ssh_file (dev_run [(fine Landed Copied, SystemUpdate); (fine Landed Copied, Boot)] (dev_step fresh_device (fine Landed Copied, SetKey "k1 ")))
  = Some (mkKeyFile "k1" (octal 6 0 0)).
Proof.
  destruct (key_survives_update (fine Landed Copied) (fine Landed Copied) "k1 " fresh_device eq_refl eq_refl eq_refl eq_refl eq_refl eq_refl eq_refl eq_refl)
    as (H1 & H2 & _). rewrite H2. exact H1.
Defined.

(** ** What the code leaves open *)

(** The file is copied without a flush: if the write is still under way, or fails,
    the request succeeds and no key opens the device. *)
Lemma unflushed_key_is_empty w :
  w ≠ Landed ->
  (set_keys w Copied "k1" fresh_device).2 = Ok tt
  /\ content <$> ssh_file (dev_step fresh_device (fine w Copied, SetKey "k1")) = Some "".
Proof. by destruct w. Qed.

(** A directory that could not be closed to others stays open: the next request
    takes it as it is. *)
Lemma open_directory_stays :
  let broken := mkDevEnv true true false true Landed true Copied true true true true true true "" true true in
  let s := dev_step fresh_device (broken, SetKey "k1") in
  (set_keys Landed Copied "k1" s).2 = Ok tt /\ ssh_dir (dev_step s (fine Landed Copied, SetKey "k1")) = Some (octal 7 5 5).
Proof. by split. Qed.

(** The mode is stored before the script is run: an error leaves it on without a
    server. *)
Lemma mode_without_server :
  let broken := mkDevEnv true true true true Landed true Copied true true true false true true "" true true in
  let r := set_dev_mode_state_handler broken true (with_dev_mode false fresh_device) in
  r.2 = Err "SSHD init script not found: /etc/init.d/S91sshd" /\ dev_mode r.1 = true /\ commands r.1 = [].
Proof. by split_and!. Qed.

(** Without a file there is no text, not an empty one. *)
Lemma no_key_is_null e s : ssh_file s = None -> (get_ssh_key_state e s).2 = Ok None.
Proof. intros Hf. unfold get_ssh_key_state, get_ssh_key. se_unfold. rewrite Hf. by destruct (readable e). Qed.
