(* ===== verification/Tls.v ===== *)
(** * TLS (cert.rs, tls.rs, web.rs)

    The certificate authority of the device, the certificate of its server with
    the files they are kept in, the modes, and the reload while the server runs.
    Keys and signatures come from a library: what it makes is an answer of the
    environment, and a ledger records what every certificate was made for. *)

From Stdlib Require Import Sorted.
From S2P Require Import Prelude Text Words NetConf NetIface.

#[local] Set Default Proof Using "Type".

(** ** Names *)

Fixpoint insert_name (x : string) (l : list string) : list string :=
  match l with
  | [] => [x]
  | y :: l' => if String.leb x y then x :: l else y :: insert_name x l'
  end.

Definition sort_names (l : list string) : list string := foldr insert_name [] l.

Fixpoint dedup (l : list string) : list string :=
  match l with
  | x :: l' => match dedup l' with
               | y :: r => if String.eqb x y then y :: r else x :: y :: r
               | [] => [x]
               end
  | [] => []
  end.

Definition clean_names (l : list string) : list string := List.filter (fun d => negb (is_empty d)) (map trim l).

Definition normalize_domains (domains : list string) : list string := dedup (sort_names (clean_names domains)).

(** ** Normal forms of names *)

Definition in_order (x y : string) : Prop := String.leb x y = true.

Lemma insert_in_order x l : Sorted in_order l -> Sorted in_order (insert_name x l).
Proof.
  induction 1 as [|y l Hl IH Hd]; cbn; [by repeat constructor|].
  destruct (String.leb x y) eqn:E; [by repeat constructor|].
  assert (in_order y x) as Hyx by (destruct (String.leb_total x y); [congruence|done]).
  constructor; [done|]. destruct Hd as [|z l Hz]; cbn; [by constructor|]. destruct (String.leb x z); by constructor.
Qed.

Lemma sorted_in_order l : Sorted in_order (sort_names l).
Proof. induction l as [|x l IH]; cbn; [constructor|by apply insert_in_order]. Qed.

Lemma sort_sorted l : Sorted in_order l -> sort_names l = l.
Proof.
  induction 1 as [|x l _ IH Hd]; [done|]. change (sort_names (x :: l)) with (insert_name x (sort_names l)).
  rewrite IH. destruct Hd as [|y l Hy]; cbn; [done|]. by rewrite Hy.
Qed.

Lemma insert_elem x y l : x ∈ insert_name y l <-> x = y \/ x ∈ l.
Proof.
  induction l as [|z l IH]; cbn; [by rewrite list_elem_of_singleton, elem_of_nil; naive_solver|].
  destruct (String.leb y z); rewrite !elem_of_cons, ?IH; naive_solver.
Qed.

Lemma sort_elem x l : x ∈ sort_names l <-> x ∈ l.
Proof.
  induction l as [|y l IH]; [done|]. change (sort_names (y :: l)) with (insert_name y (sort_names l)).
  by rewrite insert_elem, elem_of_cons, IH.
Qed.

Lemma dedup_head x l : ∃ r, dedup (x :: l) = x :: r.
Proof.
  cbn. destruct (dedup l) as [|y r]; [by exists []|]. destruct (String.eqb_spec x y) as [->|]; eauto.
Qed.

Lemma dedup_elem x l : x ∈ dedup l <-> x ∈ l.
Proof.
  induction l as [|y l IH]; cbn; [done|]. rewrite elem_of_cons, <- IH. destruct (dedup l) as [|z r].
  - by rewrite elem_of_cons.
  - destruct (String.eqb_spec y z) as [->|]; rewrite !elem_of_cons; naive_solver.
Qed.

(** Neighbours differ. *)
Definition strictly (x y : string) : Prop := in_order x y /\ x ≠ y.

Lemma dedup_strict l : Sorted in_order l -> Sorted strictly (dedup l).
Proof.
  induction 1 as [|x l Hl IH Hd]; cbn; [constructor|]. destruct Hd as [|y l Hy]; [by repeat constructor|].
  destruct (dedup_head y l) as [r Hr]. rewrite Hr in *. destruct (String.eqb_spec x y) as [->|Hne]; [done|].
  constructor; [done|]. by constructor.
Qed.

Lemma strict_sorted l : Sorted strictly l -> Sorted in_order l.
Proof. induction 1 as [|x l _ IH Hd]; constructor; [done|]. destruct Hd as [|y l [Hy _]]; by constructor. Qed.

Lemma dedup_strict_id l : Sorted strictly l -> dedup l = l.
Proof.
  induction 1 as [|x l _ IH Hd]; cbn; [done|]. rewrite IH. destruct Hd as [|y l [_ Hy]]; [done|].
  by destruct (String.eqb_spec x y).
Qed.

Lemma clean_elem x l : x ∈ clean_names l <-> x ≠ "" /\ ∃ d, d ∈ l /\ x = trim d.
Proof.
  unfold clean_names. rewrite list_elem_of_In, filter_In, <- list_elem_of_In, list_elem_of_fmap. unfold is_empty.
  destruct x; cbn; naive_solver.
Qed.

Lemma clean_id l : Forall (fun d => trim d = d /\ d ≠ "") l -> clean_names l = l.
Proof.
  unfold clean_names. induction 1 as [|d l [Ht Hd] _ IH]; [done|]. cbn [map List.filter]. rewrite Ht, IH. by destruct d.
Qed.

Lemma normalize_elem x l : x ∈ normalize_domains l <-> x ≠ "" /\ ∃ d, d ∈ l /\ x = trim d.
Proof. unfold normalize_domains. by rewrite dedup_elem, sort_elem, clean_elem. Qed.

Lemma normalize_clean l : Forall (fun d => trim d = d /\ d ≠ "") (normalize_domains l).
Proof.
  apply Forall_forall. intros x (Hx & d & _ & ->)%normalize_elem. split; [apply trim_trimmed|done].
Qed.

(** What was normalized once stays as it is. *)
Lemma normalize_normal l : normalize_domains (normalize_domains l) = normalize_domains l.
Proof.
  unfold normalize_domains at 1. rewrite clean_id by apply normalize_clean.
  assert (Sorted strictly (normalize_domains l)) as H by apply dedup_strict, sorted_in_order.
  rewrite sort_sorted by by apply strict_sorted. by apply dedup_strict_id.
Qed.

(** ** The file of names *)

Definition one_line (d : string) : Prop := contains_char LF d = false.

Lemma join_unlines l : l ≠ [] -> str_join (String LF "") l +:+ String LF "" = unlines l.
Proof.
  induction l as [|x l IH]; [done|]. intros _. destruct l as [|y l].
  - cbn. done.
  - change (str_join (String LF "") (x :: y :: l)) with (x +:+ String LF "" +:+ str_join (String LF "") (y :: l)).
    rewrite !str_app_assoc, IH by done. done.
Qed.
(** What is written is read back. *)
Lemma domains_read_back l : Forall one_line l ->
  normalize_domains (clean_names (lines (str_join (String LF "") (normalize_domains l) +:+ String LF ""))) = normalize_domains l.
Proof.
  intros Hl. pose proof (normalize_clean l) as Hc.
  assert (Forall one_line (normalize_domains l)) as Ho.
  { apply Forall_forall. intros x (_ & d & Hd & ->)%normalize_elem. rewrite Forall_forall in Hl. by apply trim_no_char, Hl. }
  destruct (normalize_domains l) as [|x r] eqn:E; [done|]. rewrite join_unlines by done. rewrite <- E in *.
  rewrite lines_unlines by done.
  assert (strip_cr <$> normalize_domains l = normalize_domains l) as ->.
  { rewrite <- (list_fmap_id (normalize_domains l)) at 2. apply list_fmap_ext. intros i d Hd.
    rewrite Forall_lookup in Hc. destruct (Hc i d Hd) as [Ht _]. by apply strip_cr_trimmed. }
  rewrite clean_id by done. apply normalize_normal.
Qed.

(** ** Files and certificates *)

(** The names in a certificate; the addresses among the domains become names too. *)
Inductive San : Set := DnsName (name : string) | IpAddress (addr : string).

Definition server_sans (domains : list string) : list San := map DnsName domains ++ [IpAddress "127.0.0.1"].

Definition Issuer : Set := string * string. (** certificate and key *)

(** Days count from the first one. *)
Record Leaf := mkLeaf { lf_cert : string; lf_key : string; lf_sans : list San; lf_issuer : Issuer; lf_not_after : Z }.

Record CertDir := mkDir { d_ca_cert : option string; d_ca_key : option string;
  d_cert : option string; d_key : option string; d_domains : option string }.

(** The directory, and the ledger of what was issued. *)
Record Certs := mkCerts { ct_dir : CertDir; ct_leaves : list Leaf }.

Definition set_ca (c k : option string) (s : Certs) : Certs :=
  mkCerts (mkDir c k (d_cert (ct_dir s)) (d_key (ct_dir s)) (d_domains (ct_dir s))) (ct_leaves s).
Definition set_server (c k d : option string) (s : Certs) : Certs :=
  mkCerts (mkDir (d_ca_cert (ct_dir s)) (d_ca_key (ct_dir s)) c k d) (ct_leaves s).
Definition issued (l : Leaf) (s : Certs) : Certs := mkCerts (ct_dir s) (ct_leaves s ++ [l]).

(** [fs::write] truncates the file first. *)
Inductive WriteOutcome : Set := Written | Untouched | Torn (content : string).

Definition written (o : WriteOutcome) (new : string) (old : option string) : option string :=
  match o with Written => Some new | Untouched => old | Torn content => Some content end.
Definition wrote (o : WriteOutcome) : bool := match o with Written => true | _ => false end.

(** The day, what the library makes, and how the files are written. *)
Record CertEnv := mkCertEnv {
  ce_now : Z; ce_ca : option Issuer; ce_ca_dir : bool; ce_ca_writes : WriteOutcome * WriteOutcome;
  ce_leaf : option (string * string); ce_dir : bool; ce_writes : WriteOutcome * WriteOutcome * WriteOutcome }.

Section Certs.
(** The parsers of the library. *)
Context (key_ok ca_ok : string -> bool) (pair_ok : string -> string -> bool).

(** The second part is what the caller takes for the certificate. *)
Definition load_ca_cert (d : CertDir) : option (Issuer * string) :=
  match d_ca_cert d, d_ca_key d with
  | Some ca_cert_pem, Some ca_key_pem =>
      if key_ok ca_key_pem && ca_ok ca_cert_pem then Some ((ca_cert_pem, ca_key_pem), ca_key_pem) else None
  | _, _ => None
  end.

Definition save_ca_cert (e : CertEnv) (ca_cert_pem ca_key_pem : string) (s : Certs) : Certs * Result string unit :=
  if negb (ce_ca_dir e) then (s, Err "create_dir_all")
  else
    let s := set_ca (written (ce_ca_writes e).1 ca_cert_pem (d_ca_cert (ct_dir s))) (d_ca_key (ct_dir s)) s in
    if negb (wrote (ce_ca_writes e).1) then (s, Err "write")
    else
      let s := set_ca (d_ca_cert (ct_dir s)) (written (ce_ca_writes e).2 ca_key_pem (d_ca_key (ct_dir s))) s in
      (s, if wrote (ce_ca_writes e).2 then Ok tt else Err "write").

Definition load_or_init_ca (e : CertEnv) (s : Certs) : Certs * Result string (Issuer * string) :=
  match load_ca_cert (ct_dir s) with
  | Some r => (s, Ok r)
  | None =>
      match ce_ca e with
      | None => (s, Err "generate")
      | Some (ca_cert_pem, ca_key_pem) =>
          match save_ca_cert e ca_cert_pem ca_key_pem s with
          | (s, Err m) => (s, Err m)
          | (s, Ok _) => (s, Ok ((ca_cert_pem, ca_key_pem), ca_cert_pem))
          end
      end
  end.

(** Names have to be ASCII; a year from now. *)
Definition generate_server_cert (e : CertEnv) (issuer : Issuer) (domains : list string) : Result string Leaf :=
  if negb (forallb is_ascii domains) then Err "generate server certificate failed"
  else match ce_leaf e with
       | None => Err "generate server certificate failed"
       | Some (cert_pem, key_pem) => Ok (mkLeaf cert_pem key_pem (server_sans domains) issuer (ce_now e + 365))
       end.

Definition load_cached_server_cert (d : CertDir) : option (string * string * list string) :=
  match d_cert d, d_key d, d_domains d with
  | Some cert_pem, Some key_pem, Some domains_raw =>
      if is_empty (trim cert_pem) || is_empty (trim key_pem) then None
      else Some (cert_pem, key_pem, normalize_domains (clean_names (lines domains_raw)))
  | _, _, _ => None
  end.

(** Up to the first write that fails. *)
Definition save_server_cert (e : CertEnv) (cert_pem key_pem : string) (domains : list string) (s : Certs) : Certs :=
  if negb (ce_dir e) then s
  else
    let '(w1, w2, w3) := ce_writes e in
    let d := ct_dir s in
    let s := set_server (written w1 cert_pem (d_cert d)) (d_key d) (d_domains d) s in
    if negb (wrote w1) then s
    else
      let s := set_server (d_cert (ct_dir s)) (written w2 key_pem (d_key d)) (d_domains d) s in
      if negb (wrote w2) then s
      else set_server (d_cert (ct_dir s)) (d_key (ct_dir s)) (written w3 (str_join (String LF "") domains +:+ String LF "") (d_domains d)) s.

Definition get_or_create_server_cert (e : CertEnv) (issuer : Issuer) (domains : list string) (s : Certs)
  : Certs * Result string (string * string) :=
  let wanted := normalize_domains domains in
  let issue s := match generate_server_cert e issuer wanted with
                 | Err m => (s, Err m)
                 | Ok leaf => (save_server_cert e (lf_cert leaf) (lf_key leaf) wanted (issued leaf s),
                               Ok (lf_cert leaf, lf_key leaf))
                 end in
  match load_cached_server_cert (ct_dir s) with
  | Some (cert_pem, key_pem, cached_domains) =>
      if bool_decide (cached_domains = wanted) then (s, Ok (cert_pem, key_pem)) else issue s
  | None => issue s
  end.

Definition get_default_certificate (e : CertEnv) (domains : list string) (s : Certs) : Certs * Result string (string * string) :=
  match load_or_init_ca e s with
  | (s, Err m) => (s, Err m)
  | (s, Ok (ca_issuer, _)) => get_or_create_server_cert e ca_issuer domains s
  end.

(** ** Modes (tls.rs) *)

Inductive TlsMode : Set := TlsDisabled | TlsSelfSigned | TlsCustom (certificate private_key : string).

#[export] Instance TlsMode_eq_dec : EqDecision TlsMode.
Proof. solve_decision. Defined.

Record TlsState := mkTlsState { ts_mode : string; ts_certificate : option string; ts_private_key : option string }.

(** [pair_ok]: what the libraries say of the trimmed texts. *)
Definition validate_custom_certificate (certificate private_key : string) : Result string unit :=
  if pair_ok (trim certificate) (trim private_key) then Ok tt else Err "Certificate and private key validation failed".

Definition get_tls_mode_from_state (state : TlsState) : Result string TlsMode :=
  let mode := trim (to_ascii_lowercase (ts_mode state)) in
  if String.eqb mode "disabled" then Ok TlsDisabled
  else if String.eqb mode "self-signed" then Ok TlsSelfSigned
  else if String.eqb mode "custom" then
    let certificate := trim (default "" (ts_certificate state)) in
    let private_key := trim (default "" (ts_private_key state)) in
    if is_empty certificate || is_empty private_key then Err "certificate and private key are required for custom mode"
    else match validate_custom_certificate certificate private_key with
         | Err m => Err m
         | Ok _ => Ok (TlsCustom certificate private_key)
         end
  else Err ("invalid TLS mode: " +:+ ts_mode state).

Definition get_tls_state_from_mode (mode : TlsMode) : TlsState :=
  match mode with
  | TlsDisabled => mkTlsState "disabled" None None
  | TlsSelfSigned => mkTlsState "self-signed" None None
  | TlsCustom certificate private_key => mkTlsState "custom" (Some certificate) (Some private_key)
  end.

(** [saved]: the configuration is written; it is changed in memory before. *)
Definition set_tls_state (saved : bool) (state : TlsState) (current : TlsMode) : TlsMode * Result string unit :=
  match get_tls_mode_from_state state with
  | Err m => (current, Err m)
  | Ok mode => (mode, if saved then Ok tt else Err "save")
  end.

(** ** What the server is given *)

(** The names a certificate is asked for. *)
Definition served_domains (fqdn : string) (extra_fqdns : list string) (local_ip local_ip_v6 : option string) : list string :=
  let domains := ["localhost"; "127.0.0.1"; "::1"; fqdn] in
  let domains := fold_left (fun domains extra =>
      if negb (is_empty extra) && negb (bool_decide (extra ∈ domains)) then domains ++ [extra] else domains) extra_fqdns domains in
  domains ++ option_list local_ip ++ option_list local_ip_v6.

(** The environment of the network: the name of the device and its addresses. *)
Record NetNames := mkNetNames { nn_fqdn : Result string string; nn_ip : option string; nn_ip_v6 : option string }.

Definition init_rustls_material (e : CertEnv) (n : NetNames) (custom : option (string * string)) (extra_fqdns : list string) (s : Certs)
  : Certs * Result string (string * string) :=
  match nn_fqdn n with
  | Err m => (s, Err m)
  | Ok fqdn =>
      let domains := served_domains fqdn extra_fqdns (nn_ip n) (nn_ip_v6 n) in
      match custom with
      | Some (certificate, private_key) =>
          if is_ok (validate_custom_certificate certificate private_key) then (s, Ok (certificate, private_key))
          else get_default_certificate e domains s
      | None => get_default_certificate e domains s
      end
  end.

Definition build_rustls_config (e : CertEnv) (n : NetNames) (mode : TlsMode) (s : Certs)
  : Certs * Result string (option (string * string)) :=
  match mode with
  | TlsDisabled => (s, Ok None)
  | TlsSelfSigned => let '(s, r) := init_rustls_material e n None [] s in (s, result_map Some r)
  | TlsCustom c k => let '(s, r) := init_rustls_material e n (Some (c, k)) [] s in (s, result_map Some r)
  end.

Definition determine_binding_addresses (local_loopback_only ipv6_available : bool) : string * string :=
  if local_loopback_only then if ipv6_available then ("[::1]:80", "[::1]:443") else ("127.0.0.1:80", "127.0.0.1:443")
  else if ipv6_available then ("[::]:80", "[::]:443") else ("0.0.0.0:80", "0.0.0.0:443").

(** ** Reloading (web.rs)

    [rl_pushed]: what went to the server, which uses the last; [rl_last]: what it
    is taken to use; [rl_marked]: reloads between their two steps. *)
Record Reloads := mkReloads { rl_pushed : list (string * string); rl_last : option (string * string); rl_marked : list (string * string) }.

Definition started (pem : string * string) : Reloads := mkReloads [pem] (Some pem) [].

(** Under the lock. *)
Definition mark_reload (pem : string * string) (r : Reloads) : Reloads :=
  if bool_decide (rl_last r = Some pem) then r else mkReloads (rl_pushed r) (Some pem) (rl_marked r ++ [pem]).

(** [alive]: the server still listens. *)
Definition send_reload (alive : bool) (i : nat) (r : Reloads) : Reloads * Result string unit :=
  match rl_marked r !! i with
  | None => (r, Ok tt)
  | Some pem => if alive then (mkReloads (rl_pushed r ++ [pem]) (rl_last r) (delete i (rl_marked r)), Ok tt)
                 else (mkReloads (rl_pushed r) (rl_last r) (delete i (rl_marked r)), Err "failed to push TLS config reload")
  end.

(** One reload on its own. *)
Definition reload_tls_config_with_fqdn (e : CertEnv) (n : NetNames) (mode : TlsMode) (alive : bool) (extra_fqdn : string)
    (s : Certs) (r : option Reloads) : Certs * option Reloads * Result string unit :=
  match r with
  | None => (s, None, Ok tt)
  | Some r =>
      match mode with
      | TlsSelfSigned =>
          let extra_fqdns := if is_empty (trim extra_fqdn) then [] else [trim extra_fqdn] in
          match init_rustls_material e n None extra_fqdns s with
          | (s, Err m) => (s, Some r, Err m)
          | (s, Ok pem) =>
              if bool_decide (rl_last r = Some pem) then (s, Some r, Ok tt)
              else let '(r, res) := send_reload alive (length (rl_marked r)) (mark_reload pem r) in (s, Some r, res)
          end
      | _ => (s, Some r, Ok tt)
      end
  end.

(** * Properties *)

(** ** The certificate of the server *)

(** What is on disk was issued for the names next to it. *)
Definition files_match (s : Certs) : Prop :=
  match load_cached_server_cert (ct_dir s) with
  | None => True
  | Some (c, k, names) => ∃ leaf, leaf ∈ ct_leaves s /\ lf_cert leaf = c /\ lf_key leaf = k /\ lf_sans leaf = server_sans names
  end.

(** The files are written as a whole or not at all. *)
Definition whole (e : CertEnv) : Prop := (ce_writes e).1.1 = Untouched \/ ce_writes e = (Written, Written, Written).

(** The answer was issued for exactly the names that were asked for. *)
Definition answers (domains : list string) (s : Certs) (pem : string * string) : Prop :=
  ∃ leaf, leaf ∈ ct_leaves s /\ lf_cert leaf = pem.1 /\ lf_key leaf = pem.2 /\ lf_sans leaf = server_sans (normalize_domains domains).

Lemma set_server_id s : set_server (d_cert (ct_dir s)) (d_key (ct_dir s)) (d_domains (ct_dir s)) s = s.
Proof. by destruct s as [[]]. Qed.

Lemma create_ok e issuer domains s : whole e -> Forall one_line domains -> files_match s ->
  let '(s', r) := get_or_create_server_cert e issuer domains s in
  files_match s' /\ match r with Ok pem => answers domains s' pem | Err _ => True end.
Proof.
  intros Hw Hl Hm. unfold get_or_create_server_cert. cbv zeta.
  assert (match (match generate_server_cert e issuer (normalize_domains domains) with
                 | Err m => (s, Err m)
                 | Ok leaf => (save_server_cert e (lf_cert leaf) (lf_key leaf) (normalize_domains domains) (issued leaf s),
                               Ok (lf_cert leaf, lf_key leaf)) end) with
          | (s', r) => files_match s' /\ match r with Ok pem => answers domains s' pem | Err _ => True end end) as Hissue.
  { unfold generate_server_cert. destruct (negb _); [done|]. destruct (ce_leaf e) as [[c k]|]; [|done].
    set (leaf := mkLeaf _ _ _ _ _). assert (leaf ∈ ct_leaves (issued leaf s)) as Hin
      by (apply elem_of_app; right; by apply list_elem_of_singleton).
    assert (files_match (issued leaf s)) as Hm'.
    { unfold files_match in *. cbn [ct_dir issued]. destruct (load_cached_server_cert (ct_dir s)) as [[[c' k'] ns]|]; [|done].
      destruct Hm as (l & Hl1 & Hl2). exists l. split; [apply elem_of_app; by left|done]. }
    assert (∀ s', ct_leaves s' = ct_leaves (issued leaf s) -> answers domains s' (lf_cert leaf, lf_key leaf)) as Ha.
    { intros s' Hs. exists leaf. by rewrite Hs. }
    unfold save_server_cert. destruct (negb (ce_dir e)); [by split; [|apply Ha]|].
    destruct Hw as [Hw|Hw].
    - destruct (ce_writes e) as [[w1 w2] w3]. cbn in Hw. subst w1. cbn [written wrote negb]. rewrite set_server_id. by split; [|apply Ha].
    - rewrite Hw. cbn [written wrote negb]. split; [|by apply Ha]. unfold files_match, load_cached_server_cert. cbn.
      rewrite domains_read_back by done. destruct (_ || _); [done|]. by exists leaf. }
  unfold files_match in Hm. destruct (load_cached_server_cert (ct_dir s)) as [[[c k] names]|] eqn:E; [|exact Hissue].
  case_bool_decide as Hn; [|exact Hissue]. subst names. unfold files_match. rewrite E. split; [exact Hm|exact Hm].
Qed.

(** Nothing else touches these files. *)
Lemma ca_keeps e s : let s' := (load_or_init_ca e s).1 in
  ct_leaves s' = ct_leaves s /\ load_cached_server_cert (ct_dir s') = load_cached_server_cert (ct_dir s).
Proof.
  unfold load_or_init_ca, save_ca_cert. destruct (load_ca_cert (ct_dir s)); [done|]. destruct (ce_ca e) as [[c k]|]; [|done].
  destruct (negb (ce_ca_dir e)); [done|]. destruct (negb (wrote _)); [done|]. by destruct (wrote _).
Qed.

(** A run of requests for certificates. *)
Definition cert_run (reqs : list (CertEnv * list string)) (s : Certs) : Certs :=
  fold_left (fun s q => (get_default_certificate q.1 q.2 s).1) reqs s.

Lemma default_ok e domains s : whole e -> Forall one_line domains -> files_match s ->
  let '(s', r) := get_default_certificate e domains s in
  files_match s' /\ match r with Ok pem => answers domains s' pem | Err _ => True end.
Proof.
  intros Hw Hl Hm. unfold get_default_certificate. destruct (ca_keeps e s) as [H1 H2].
  destruct (load_or_init_ca e s) as [s' [[issuer pem]|m]]; cbn [fst] in *;
    (assert (files_match s') as Hm' by (unfold files_match; by rewrite H1, H2)); [by apply create_ok|done].
Qed.

(** C40: Starting from certificate files that belong together, or none, and
    whatever was asked for before and failed, as long as the three files of a
    certificate are written all or none of them and the names asked for are single
    lines: a request that is answered gets a certificate and its key that were
    issued together, for exactly the names asked for.  (A save that breaks off
    between the files mixes them: [torn_save_mixes_pair].  How old a certificate
    is, and which authority signed it, is not asked: [expired_leaf_reused],
    [leaf_of_lost_ca_reused].) *)
Theorem certificate_is_for_names reqs e domains s :
  files_match s -> Forall (fun q => whole q.1 /\ Forall one_line q.2) reqs -> whole e -> Forall one_line domains ->
  match get_default_certificate e domains (cert_run reqs s) with
  | (s', Ok pem) => answers domains s' pem
  | (_, Err _) => True
  end.
Proof.
  intros Hm Hr Hw Hl. assert (files_match (cert_run reqs s)) as H.
  { unfold cert_run. revert s Hm. induction Hr as [|[e0 d0] reqs [H1 H2] _ IH]; intros s Hm; [done|]. cbn [fold_left fst snd].
    apply IH. pose proof (default_ok e0 d0 s H1 H2 Hm) as H. destruct (get_default_certificate e0 d0 s) as [s' r]. apply H. }
  pose proof (default_ok e domains _ Hw Hl H) as Hd. destruct (get_default_certificate e domains _) as [s' [pem|m]]; [apply Hd|done].
Qed.

(** ** Modes *)

(** A mode that can be set reads back as it was set, and what was read back
    can be set again. *)
Theorem tls_mode_reads_back saved state current mode :
  set_tls_state saved state current = (mode, Ok tt) ->
  get_tls_mode_from_state (get_tls_state_from_mode mode) = Ok mode
  /\ match mode with TlsCustom c k => pair_ok c k = true /\ c ≠ "" /\ k ≠ "" | _ => True end.
Proof.
  unfold set_tls_state. destruct (get_tls_mode_from_state state) as [m|m] eqn:E; [|done]. destruct saved; [|done]. intros [= <-].
  unfold get_tls_mode_from_state in E. cbv zeta in E. destruct (_ =? "disabled")%string; [by injection E as <-|].
  destruct (_ =? "self-signed")%string; [by injection E as <-|]. destruct (_ =? "custom")%string; [|done].
  set (c := trim (default "" (ts_certificate state))) in *. set (k := trim (default "" (ts_private_key state))) in *.
  assert (trim c = c) as Hc by apply trim_trimmed. assert (trim k = k) as Hk by apply trim_trimmed. clearbody c k.
  destruct (is_empty c) eqn:Ec; [done|]. destruct (is_empty k) eqn:Ek; [done|]. cbn [orb] in E.
  unfold validate_custom_certificate in E. rewrite Hc, Hk in E. destruct (pair_ok c k) eqn:Ep; [|done]. injection E as <-.
  split; [|split; [done|]; by split; intros ->]. unfold get_tls_mode_from_state.
  change (trim (to_ascii_lowercase (ts_mode (get_tls_state_from_mode (TlsCustom c k))))) with "custom".
  cbn [get_tls_state_from_mode ts_certificate ts_private_key default from_option String.eqb Ascii.eqb Bool.eqb].
  unfold id, validate_custom_certificate. cbv zeta. by rewrite !Hc, !Hk, Ec, Ek, Ep.
Qed.

(** ** Reloads *)

(** What the server uses is what is taken to be used, and nothing is on its way. *)
Definition settled (r : Reloads) : Prop := last (rl_pushed r) = rl_last r /\ rl_marked r = [].

(** A reload on its own that succeeds with self-signed certificates leaves the
    server with the certificate for the current names, and pushes it only if it
    is another one. *)
Theorem reload_serves_current e n extra s r s' r' :
  settled r -> reload_tls_config_with_fqdn e n TlsSelfSigned true extra s (Some r) = (s', Some r', Ok tt) ->
  ∃ pem, (init_rustls_material e n None (if is_empty (trim extra) then [] else [trim extra]) s).2 = Ok pem
         /\ settled r' /\ last (rl_pushed r') = Some pem
         /\ rl_pushed r' = rl_pushed r ++ (if bool_decide (rl_last r = Some pem) then [] else [pem]).
Proof.
  intros [Hl Hm]. unfold reload_tls_config_with_fqdn. destruct (init_rustls_material _ _ _ _ s) as [s0 [pem|m]]; [|done].
  cbn [snd]. case_bool_decide as Hp.
  - intros [= <- <-]. exists pem. rewrite bool_decide_true by done. rewrite app_nil_r, Hl. by rewrite Hp.
  - unfold mark_reload. rewrite bool_decide_false by done. unfold send_reload. cbn [rl_marked]. rewrite Hm. cbn.
    intros [= <- <-]. exists pem. rewrite bool_decide_false by done. unfold settled. cbn. by rewrite last_snoc.
Qed.

End Certs.

(** * Concrete runs *)

Definition no_files : Certs := mkCerts (mkDir None None None None None) [].
Definition day (n : Z) (tag : string) (writes : WriteOutcome * WriteOutcome * WriteOutcome) : CertEnv :=
  mkCertEnv n (Some ("ca " +:+ tag, "ca key " +:+ tag)) true (Written, Written) (Some ("cert " +:+ tag, "key " +:+ tag)) true writes.
Definition all_written : WriteOutcome * WriteOutcome * WriteOutcome := (Written, Written, Written).
Definition any_text (_ : string) : bool := true.

Abbreviation ask e names s := (get_default_certificate any_text any_text e names s).
Abbreviation after reqs s := (cert_run any_text any_text reqs s).

Lemma certificate_is_for_names_witness :
  (ask (day 9 "2" all_written) ["kvm.local."; "localhost"] (after [(day 1 "1" all_written, ["localhost"])] no_files)).2 = Ok ("cert 2", "key 2")
  /\ answers ["kvm.local."; "localhost"]
       (ask (day 9 "2" all_written) ["kvm.local."; "localhost"] (after [(day 1 "1" all_written, ["localhost"])] no_files)).1 ("cert 2", "key 2").
Proof.
  split; [vm_compute; reflexivity|].
  apply (certificate_is_for_names any_text any_text [(day 1 "1" all_written, ["localhost"])] (day 9 "2" all_written) ["kvm.local."; "localhost"] no_files);
    [exact I|by constructor; [split; [right|repeat constructor]|constructor]|by right|by repeat constructor].
Defined.

Definition custom_state : TlsState := mkTlsState " Custom " (Some " cert ") (Some "key").

Lemma tls_mode_reads_back_witness :
  get_tls_mode_from_state (fun _ _ => true) (get_tls_state_from_mode (TlsCustom "cert" "key")) = Ok (TlsCustom "cert" "key").
Proof. apply (tls_mode_reads_back (fun _ _ => true) true custom_state TlsDisabled). vm_compute. reflexivity. Defined.

Definition at_home : NetNames := mkNetNames (Ok "kvm.local.") (Some "192.168.1.5") None.

Lemma reload_serves_current_witness :
  let r := reload_tls_config_with_fqdn any_text any_text (fun _ _ => true) (day 9 "2" all_written) at_home TlsSelfSigned true "" no_files
             (Some (started ("cert 1", "key 1"))) in
  ∃ r', r.1.2 = Some r' /\ last (rl_pushed r') = Some ("cert 2", "key 2").
Proof.
  destruct (reload_serves_current any_text any_text (fun _ _ => true) (day 9 "2" all_written) at_home "" no_files (started ("cert 1", "key 1"))
    _ _ (conj eq_refl eq_refl) eq_refl) as (pem & Hp & _ & Hl & _).
  eexists. split; [reflexivity|]. rewrite Hl. vm_compute in Hp. by injection Hp as <-.
Defined.

(** ** What the code leaves open *)

(** The certificate on disk is used whatever its age. *)
Lemma expired_leaf_reused :
  let s := after [(day 0 "1" all_written, ["localhost"])] no_files in
  (ask (day 4000 "2" all_written) ["localhost"] s).2 = Ok ("cert 1", "key 1")
  /\ map lf_not_after (ct_leaves s) = [365%Z].
Proof. split; vm_compute; reflexivity. Qed.

(** It is also used after the authority that signed it is gone. *)
Lemma leaf_of_lost_ca_reused :
  let s := after [(day 0 "1" all_written, ["localhost"])] no_files in
  let s' := (ask (day 1 "2" all_written) ["localhost"] (set_ca None None s)).1 in
  (ask (day 1 "2" all_written) ["localhost"] (set_ca None None s)).2 = Ok ("cert 1", "key 1")
  /\ map lf_issuer (ct_leaves s') = [("ca 1", "ca key 1")] /\ d_ca_cert (ct_dir s') = Some "ca 2".
Proof. repeat split; vm_compute; reflexivity. Qed.

(** A save that breaks off leaves a certificate next to the key of another; once
    the names are the old ones again, they are served together. *)
Lemma torn_save_mixes_pair :
  let s := after [(day 0 "1" all_written, ["a.local"]); (day 1 "2" (Written, Untouched, Untouched), ["b.local"])] no_files in
  (ask (day 2 "3" all_written) ["a.local"] s).2 = Ok ("cert 2", "key 1").
Proof. vm_compute. reflexivity. Qed.

(** Addresses are put into the certificate as names of hosts; only the loopback is
    there as an address. *)
Lemma addresses_are_host_names :
  server_sans (normalize_domains (served_domains "kvm.local." [] (Some "192.168.1.5") None))
  = [DnsName "127.0.0.1"; DnsName "192.168.1.5"; DnsName "::1"; DnsName "kvm.local."; DnsName "localhost"; IpAddress "127.0.0.1"].
Proof. vm_compute. reflexivity. Qed.

(** An authority that is loaded comes with its key in the place of its certificate. *)
Lemma loaded_ca_gives_key :
  load_ca_cert any_text any_text (mkDir (Some "ca") (Some "ca key") None None None) = Some (("ca", "ca key"), "ca key").
Proof. reflexivity. Qed.

(** Two reloads whose two steps cross: the server uses the certificate of the first,
    and a reload with that of the second is taken for done. *)
Lemma crossed_reloads_stick :
  let old := ("cert 0", "key 0") in let a := ("cert 1", "key 1") in let b := ("cert 2", "key 2") in
  let r := (send_reload true 0 (send_reload true 1 (mark_reload b (mark_reload a (started old)))).1).1 in
  last (rl_pushed r) = Some a /\ mark_reload b r = r.
Proof. repeat split. Qed.

(** A certificate that could not be pushed is taken for one that was. *)
Lemma failed_push_not_repeated :
  let r := (send_reload false 0 (mark_reload ("cert 1", "key 1") (started ("cert 0", "key 0")))).1 in
  last (rl_pushed r) = Some ("cert 0", "key 0") /\ mark_reload ("cert 1", "key 1") r = r.
Proof. repeat split. Qed.
