(* ===== verification/Gui.v ===== *)
(** * The display (services/gui_pipeline.rs, jsonrpc.rs)

    The commands sent to the process that drives the display, what is read of its
    answers, the task that reports addresses to it, and the requests of the
    browser.  The process at the other end of the socket is a parameter; one that
    does what the comments of the client say is an instance of [DisplayServer]. *)

From S2P Require Import Prelude Text Words DhcpLeases.

Record ServerConfig := mkServerConfig { orientation : Z; luminance : Z; dark_screen_time : Z; sleep_time : Z }.

Definition server_config_default : ServerConfig := mkServerConfig 0 64 0 1800.

Inductive Command : Set :=
| GetConfig
| SetOrientation (value : Z)
| SetLuminance (value : Z)
| SetDarkScreenTime (value : Z)
| SetSleepTime (value : Z)
| ReportIpv6Addresses (addresses : string)
| ReportVlanConfig (config : string)
| ReportVlanIpv6Addresses (addresses : string).

(** [{}] of an [i32]. *)
Definition show_i32 (z : Z) : string := if (z <? 0)%Z then "-" +:+ show_nat (- z) else show_nat z.

Definition to_protocol_string (c : Command) : string :=
  match c with
  | GetConfig => "GET_CONFIG"
  | SetOrientation value => "SCREEN_ORIENTATION=" +:+ show_i32 value
  | SetLuminance value => "SCREEN_LUMINANCE=" +:+ show_i32 value
  | SetDarkScreenTime value => "DARK_SCREEN_TIME=" +:+ show_i32 value
  | SetSleepTime value => "SLEEP_TIME=" +:+ show_i32 value
  | ReportIpv6Addresses addresses => "REPORT_IPV6_ADDRESSES=" +:+ addresses
  | ReportVlanConfig config => "REPORT_VLAN_CONFIG=" +:+ config
  | ReportVlanIpv6Addresses addresses => "REPORT_VLAN_IPV6_ADDRESSES=" +:+ addresses
  end.

(** One part of the answer of the server; other parts are skipped. *)
Definition set_part (config : ServerConfig) (part : string) : ServerConfig :=
  match split_on "=" part with
  | [key; text] =>
      let value := default 0%Z (parse_i32 text) in
      if String.eqb key "ORIENTATION" then mkServerConfig value (luminance config) (dark_screen_time config) (sleep_time config)
      else if String.eqb key "LUMINANCE" then mkServerConfig (orientation config) value (dark_screen_time config) (sleep_time config)
      else if String.eqb key "DARK_SCREEN_TIME" then mkServerConfig (orientation config) (luminance config) value (sleep_time config)
      else if String.eqb key "SLEEP_TIME" then mkServerConfig (orientation config) (luminance config) (dark_screen_time config) value
      else config
  | _ => config
  end.

Definition parse_config (response : string) : ServerConfig :=
  fold_left set_part (split_on "," response) server_config_default.

(** Rotations, and the numbers they stand for on either way; [Upright] is the code's
    [Normal], a name that components of paths have here. *)
Inductive DisplayRotation : Set := Upright | Reverse.

#[export] Instance DisplayRotation_eq_dec : EqDecision DisplayRotation.
Proof. solve_decision. Defined.

Definition i32_of_rotation (r : DisplayRotation) : Z := match r with Upright => 1 | Reverse => 0 end.
Definition rotation_of_i32 (value : Z) : DisplayRotation :=
  if (value =? 0)%Z then Upright else if (value =? 1)%Z then Reverse else Upright.

Record BacklightSettingsParams := mkBacklight { max_brightness : Z; dim_after : Z; off_after : Z }.

Record GuiSettingsResponse := mkGuiSettings {
  gs_rotation : DisplayRotation; gs_max_brightness : Z; gs_dim_after : Z; gs_off_after : Z }.

(** ** The client

    [serve]: what the server gets and what one read of at most 1024 bytes gives of
    its answer; [None] when there is no connection or nothing comes in five seconds. *)

Section client.
Context {S : Type} (serve : string -> S -> S * option string).

Definition GM (A : Type) : Type := SE S string A.

Definition send_command (command : Command) : GM string :=
  fun s => match serve (to_protocol_string command) s with
           | (s, None) => (s, Err "Operation timed out")
           | (s, Some response) =>
               if is_empty response then (s, Err "Connection closed by server")
               else (s, Ok response)
           end.

Definition client_get_config : GM ServerConfig :=
  let! response := send_command GetConfig in
  se_ret (parse_config response).

(** What all commands but the first expect. *)
Definition command_ok (command : Command) : GM unit :=
  let! response := send_command command in
  if String.eqb response "OK" then se_ret tt else se_throw ("Server returned error: " +:+ response).

(** [ready]: the socket was found, so there is a client. *)
Context (ready : bool).

Definition with_pipeline {A} (k : GM A) : GM A := if ready then k else se_throw "GUI_PIPELINE not set".

Definition get_config : GM ServerConfig := with_pipeline client_get_config.
Definition set_orientation (value : Z) : GM unit :=
  with_pipeline (se_catch (command_ok (SetOrientation value)) ;;; se_ret tt).
Definition set_brightness (value : Z) : GM unit :=
  with_pipeline (se_catch (command_ok (SetLuminance value)) ;;; se_ret tt).
Definition set_sleep_time (seconds : Z) : GM unit := with_pipeline (command_ok (SetSleepTime seconds)).
Definition set_dark_screen_time (seconds : Z) : GM unit := with_pipeline (command_ok (SetDarkScreenTime seconds)).

(** ** Requests (jsonrpc.rs) *)

Definition get_gui_config : GM GuiSettingsResponse :=
  let! config := get_config in
  se_ret (mkGuiSettings (rotation_of_i32 (orientation config)) (luminance config) (dark_screen_time config) (sleep_time config)).

Definition set_display_rotation (rotation : DisplayRotation) : GM unit := set_orientation (i32_of_rotation rotation).

Definition set_backlight_settings (params : BacklightSettingsParams) : GM unit :=
  set_brightness (max_brightness params) ;;;
  set_dark_screen_time (dim_after params) ;;;
  set_sleep_time (off_after params).

(** What [reset_config] does to the display. *)
Definition reset_gui : GM unit :=
  set_brightness (luminance server_config_default) ;;;
  set_dark_screen_time (dark_screen_time server_config_default) ;;;
  set_sleep_time (sleep_time server_config_default).

(** ** The task that reports *)

(** The three reports, as the JSON they are sent in; a failure is logged. *)
Definition report_round (ipv6_addresses vlan_config vlan_ipv6_addresses : string) : GM unit :=
  se_catch (command_ok (ReportIpv6Addresses ipv6_addresses)) ;;;
  se_catch (command_ok (ReportVlanConfig vlan_config)) ;;;
  se_catch (command_ok (ReportVlanIpv6Addresses vlan_ipv6_addresses)) ;;;
  se_ret tt.
End client.

(** [GUI_PIPELINE] and [RUNNING] are shared by all tasks. *)
Inductive GuiTask : Set := Looking | Reporting | Ended.
Record GuiState := mkGui { pipeline : bool; running : bool; tasks : list GuiTask }.

Definition init (g : GuiState) : GuiState := mkGui (pipeline g) true (tasks g ++ [Looking]).
Definition uninit (g : GuiState) : GuiState := mkGui (pipeline g) false (tasks g).

(** A task until its next wait; the second result says that it reports. *)
Definition init_turn (exists_ : bool) (i : nat) (g : GuiState) : GuiState * bool :=
  let report p := if running g then (mkGui p true (<[i := Reporting]> (tasks g)), true)
                  else (mkGui p false (<[i := Ended]> (tasks g)), false) in
  match tasks g !! i with
  | Some Looking =>
      if exists_ then report true
      else if running g then (g, false) else (mkGui (pipeline g) false (<[i := Ended]> (tasks g)), false)
  | Some Reporting => report (pipeline g)
  | _ => (g, false)
  end.

(** ** A server that does what the client expects *)

Definition is_i32 (z : Z) : Prop := (-2147483648 <= z <= 2147483647)%Z.

Definition show_config (c : ServerConfig) : string :=
  "ORIENTATION=" +:+ show_i32 (orientation c) +:+ ",LUMINANCE=" +:+ show_i32 (luminance c)
  +:+ ",DARK_SCREEN_TIME=" +:+ show_i32 (dark_screen_time c) +:+ ",SLEEP_TIME=" +:+ show_i32 (sleep_time c).

(** [shown]: what the server has been told. *)
Class DisplayServer {S : Type} (serve : string -> S -> S * option string) (shown : S -> ServerConfig) := {
  serves_get s : serve "GET_CONFIG" s = (s, Some (show_config (shown s)));
  serves_orientation v s : is_i32 v -> ∃ s', serve ("SCREEN_ORIENTATION=" +:+ show_i32 v) s = (s', Some "OK")
    /\ shown s' = mkServerConfig v (luminance (shown s)) (dark_screen_time (shown s)) (sleep_time (shown s));
  serves_luminance v s : is_i32 v -> ∃ s', serve ("SCREEN_LUMINANCE=" +:+ show_i32 v) s = (s', Some "OK")
    /\ shown s' = mkServerConfig (orientation (shown s)) v (dark_screen_time (shown s)) (sleep_time (shown s));
  serves_dark v s : is_i32 v -> ∃ s', serve ("DARK_SCREEN_TIME=" +:+ show_i32 v) s = (s', Some "OK")
    /\ shown s' = mkServerConfig (orientation (shown s)) (luminance (shown s)) v (sleep_time (shown s));
  serves_sleep v s : is_i32 v -> ∃ s', serve ("SLEEP_TIME=" +:+ show_i32 v) s = (s', Some "OK")
    /\ shown s' = mkServerConfig (orientation (shown s)) (luminance (shown s)) (dark_screen_time (shown s)) v }.

(** ** Numbers in texts *)

Definition plain (c : ascii) : bool := match digit_of c with Some _ => true | None => Ascii.eqb c "-" end.

Lemma show_i32_plain z : all_chars plain (show_i32 z) = true.
Proof.
  assert (∀ x, all_chars plain (show_nat x) = true) as H.
  { intros x. destruct (show_nat_digits x) as [Hd _]. revert Hd. generalize (show_nat x) as s.
    induction s as [|a s IH]; cbn; [done|]. intros [Ha Hs]%andb_true_iff. rewrite IH, andb_true_r by done.
    unfold plain. unfold is_digit in Ha. by destruct (digit_of a). }
  unfold show_i32. destruct (z <? 0)%Z; [|apply H]. cbn. apply H.
Qed.

Lemma show_i32_no c z : plain c = false -> contains_char c (show_i32 z) = false.
Proof. intros Hc. by eapply all_chars_no, show_i32_plain. Qed.

Lemma parse_show_i32 z : is_i32 z -> parse_i32 (show_i32 z) = Some z.
Proof.
  intros Hz. unfold is_i32 in Hz. unfold parse_i32, show_i32. destruct (Z.ltb_spec z 0).
  - assert (parse_i64 ("-" +:+ show_nat (- z)) = Some z) as ->.
    { change ("-" +:+ show_nat (- z)) with (String "-" (show_nat (- z))). unfold parse_i64.
      pose proof (parse_show (i64_max + 1) (- z) ltac:(unfold i64_max; lia)) as H1.
      destruct (show_nat_digits (- z)) as [Hd Hne].
      assert (parse_digits 10 (i64_max + 1) digit_of 0 (show_nat (- z)) = Some (- z)%Z) as H2.
      { rewrite <- H1. unfold parse_unsigned. destruct (show_nat (- z)) as [|a s]; [done|].
        cbn in Hd. apply andb_true_iff in Hd as [Ha _]. by destruct a as [[] [] [] [] [] [] [] []]. }
      rewrite H2. destruct (show_nat (- z)); [done|]. cbn. by rewrite Z.opp_involutive. }
    by rewrite (proj2 (Z.leb_le _ _)), (proj2 (Z.leb_le _ _)) by lia.
  - assert (parse_i64 (show_nat z) = Some z) as ->.
    { pose proof (parse_show i64_max z ltac:(unfold i64_max; lia)) as H1. destruct (show_nat_digits z) as [Hd _].
      rewrite <- H1. unfold parse_i64. destruct (show_nat z) as [|a s]; [done|].
      cbn in Hd. apply andb_true_iff in Hd as [Ha _]. by destruct a as [[] [] [] [] [] [] [] []]. }
    by rewrite (proj2 (Z.leb_le _ _)), (proj2 (Z.leb_le _ _)) by lia.
Qed.

Lemma part_split key v : contains_char "=" key = false -> split_on "=" (key +:+ String "=" (show_i32 v)) = [key; show_i32 v].
Proof. intros Hk. by rewrite split_on_app, !split_on_whole by (done || by apply show_i32_no). Qed.

Lemma comma_part key v rest : contains_char "," key = false ->
  split_on "," (key +:+ String "=" (show_i32 v +:+ String "," rest)) = (key +:+ String "=" (show_i32 v)) :: split_on "," rest.
Proof.
  intros Hk. replace (key +:+ String "=" (show_i32 v +:+ String "," rest)) with ((key +:+ String "=" (show_i32 v)) +:+ String "," rest)
    by by rewrite str_app_assoc.
  rewrite split_on_app, split_on_whole; [done|]. rewrite contains_char_app, Hk. cbn. by apply show_i32_no.
Qed.

Definition config_i32 (c : ServerConfig) : Prop :=
  is_i32 (orientation c) /\ is_i32 (luminance c) /\ is_i32 (dark_screen_time c) /\ is_i32 (sleep_time c).

(** The answer in the format of the client's comment is read as what it says. *)
Lemma config_reads_back c : config_i32 c -> parse_config (show_config c) = c.
Proof.
  intros (H1 & H2 & H3 & H4). unfold parse_config.
  assert (split_on "," (show_config c) = ["ORIENTATION" +:+ String "=" (show_i32 (orientation c)); "LUMINANCE" +:+ String "=" (show_i32 (luminance c));
            "DARK_SCREEN_TIME" +:+ String "=" (show_i32 (dark_screen_time c)); "SLEEP_TIME" +:+ String "=" (show_i32 (sleep_time c))]) as ->.
  { change (show_config c) with ("ORIENTATION" +:+ String "=" (show_i32 (orientation c) +:+ String "," ("LUMINANCE" +:+ String "=" (show_i32 (luminance c)
      +:+ String "," ("DARK_SCREEN_TIME" +:+ String "=" (show_i32 (dark_screen_time c) +:+ String "," ("SLEEP_TIME" +:+ String "=" (show_i32 (sleep_time c))))))))).
    rewrite (comma_part "ORIENTATION"), (comma_part "LUMINANCE"), (comma_part "DARK_SCREEN_TIME") by done.
    rewrite split_on_whole; [done|]. rewrite contains_char_app. cbn. by apply show_i32_no. }
  cbn [fold_left]. unfold set_part. rewrite !part_split by done. cbn [String.eqb Ascii.eqb Bool.eqb].
  rewrite !parse_show_i32 by done. by destruct c.
Qed.

(** * Properties *)

Section properties.
Context {S : Type} (serve : string -> S -> S * option string) (shown : S -> ServerConfig) `{!DisplayServer serve shown}.

Definition flipped (r : DisplayRotation) : DisplayRotation := match r with Upright => Reverse | Reverse => Upright end.

(** Evaluates one command on the server. *)
Ltac serve_step lem v :=
  match goal with |- context [serve _ ?st] =>
    let s' := fresh "s" in let E := fresh "E" in let Hs := fresh "Hs" in
    destruct (lem v st ltac:(eassumption)) as (s' & E & Hs); rewrite E; clear E; cbn [is_empty String.eqb Ascii.eqb Bool.eqb]
  end.

(** With a server that does what the client expects, all that was set reads
    back as it was set, except the rotation: it reads back as the other one. *)
Theorem display_reads_back p r s :
  is_i32 (max_brightness p) -> is_i32 (dim_after p) -> is_i32 (off_after p) ->
  ((set_backlight_settings serve true p ;;; set_display_rotation serve true r ;;; get_gui_config serve true) s).2
  = Ok (mkGuiSettings (flipped r) (max_brightness p) (dim_after p) (off_after p)).
Proof.
  intros H1 H2 H3. unfold set_backlight_settings, set_brightness, set_dark_screen_time, set_sleep_time, set_display_rotation, set_orientation,
    get_gui_config, get_config, client_get_config, with_pipeline, command_ok, send_command, se_bind, se_catch, se_ret, se_throw.
  cbn [to_protocol_string]. assert (is_i32 (i32_of_rotation r)) as Hr by (destruct r; unfold is_i32; cbn; lia).
  serve_step (serves_luminance (serve:=serve)) (max_brightness p). serve_step (serves_dark (serve:=serve)) (dim_after p).
  serve_step (serves_sleep (serve:=serve)) (off_after p).
  serve_step (serves_orientation (serve:=serve)) (i32_of_rotation r). rewrite (serves_get (serve:=serve)).
  change (is_empty (show_config (shown s3))) with false. cbn [snd].
  rewrite config_reads_back by by rewrite Hs2, Hs1, Hs0, Hs.
  rewrite Hs2, Hs1, Hs0, Hs. cbn. by destruct r.
Qed.

(** A reset leaves the display with the defaults of the client. *)
Lemma reset_reads_back s : is_i32 (orientation (shown s)) ->
  ((reset_gui serve true ;;; get_config serve true) s).2 = Ok (mkServerConfig (orientation (shown s)) 64 0 1800).
Proof.
  intros Ho.
  assert (is_i32 64 /\ is_i32 0 /\ is_i32 1800) as (H1 & H2 & H3) by (unfold is_i32; lia).
  unfold reset_gui, set_brightness, set_dark_screen_time, set_sleep_time, get_config, client_get_config, with_pipeline, command_ok,
    send_command, se_bind, se_catch, se_ret, se_throw. cbn [to_protocol_string server_config_default luminance dark_screen_time sleep_time].
  serve_step (serves_luminance (serve:=serve)) 64%Z. serve_step (serves_dark (serve:=serve)) 0%Z. serve_step (serves_sleep (serve:=serve)) 1800%Z.
  rewrite (serves_get (serve:=serve)). change (is_empty (show_config (shown s2))) with false. cbn [snd].
  rewrite config_reads_back by by rewrite Hs1, Hs0, Hs. by rewrite Hs1, Hs0, Hs.
Qed.
End properties.

(** * Concrete runs *)

(** A server that stores the numbers it is sent. *)
Definition toy_serve (command : string) (c : ServerConfig) : ServerConfig * option string :=
  match split_once "=" command with
  | None => (c, if String.eqb command "GET_CONFIG" then Some (show_config c) else None)
  | Some (key, text) =>
      let value := default 0%Z (parse_i32 text) in
      let c' := if String.eqb key "SCREEN_ORIENTATION" then mkServerConfig value (luminance c) (dark_screen_time c) (sleep_time c)
        else if String.eqb key "SCREEN_LUMINANCE" then mkServerConfig (orientation c) value (dark_screen_time c) (sleep_time c)
        else if String.eqb key "DARK_SCREEN_TIME" then mkServerConfig (orientation c) (luminance c) value (sleep_time c)
        else if String.eqb key "SLEEP_TIME" then mkServerConfig (orientation c) (luminance c) (dark_screen_time c) value else c in
      (c', Some "OK")
  end.

Lemma toy_command key v : contains_char "=" key = false -> is_i32 v ->
  split_once "=" (key +:+ String "=" (show_i32 v)) = Some (key, show_i32 v) /\ default 0%Z (parse_i32 (show_i32 v)) = v.
Proof. intros Hk Hv. by rewrite split_once_app, parse_show_i32. Qed.

#[export] Instance toy_display : DisplayServer toy_serve id.
Proof.
  split; [done|..]; intros v s Hv; unfold toy_serve.
  - change ("SCREEN_ORIENTATION=" +:+ show_i32 v) with ("SCREEN_ORIENTATION" +:+ String "=" (show_i32 v)).
    destruct (toy_command "SCREEN_ORIENTATION" v eq_refl Hv) as [-> ->]. cbv zeta. by eexists.
  - change ("SCREEN_LUMINANCE=" +:+ show_i32 v) with ("SCREEN_LUMINANCE" +:+ String "=" (show_i32 v)).
    destruct (toy_command "SCREEN_LUMINANCE" v eq_refl Hv) as [-> ->]. cbv zeta. by eexists.
  - change ("DARK_SCREEN_TIME=" +:+ show_i32 v) with ("DARK_SCREEN_TIME" +:+ String "=" (show_i32 v)).
    destruct (toy_command "DARK_SCREEN_TIME" v eq_refl Hv) as [-> ->]. cbv zeta. by eexists.
  - change ("SLEEP_TIME=" +:+ show_i32 v) with ("SLEEP_TIME" +:+ String "=" (show_i32 v)).
    destruct (toy_command "SLEEP_TIME" v eq_refl Hv) as [-> ->]. cbv zeta. by eexists.
Qed.

Lemma display_reads_back_witness :
  ((set_backlight_settings toy_serve true (mkBacklight 80 (-1) 300) ;;; set_display_rotation toy_serve true Upright ;;; get_gui_config toy_serve true)
     server_config_default).2 = Ok (mkGuiSettings Reverse 80 (-1) 300).
Proof. apply (display_reads_back toy_serve id (mkBacklight 80 (-1) 300) Upright server_config_default); unfold is_i32; cbn; lia. Defined.

(** ** What the code leaves open *)

(** A browser that writes back the rotation it read turns the display. *)
Lemma saving_what_was_read_turns v c :
  let r := rotation_of_i32 v in
  v = 0%Z \/ v = 1%Z ->
  orientation (set_display_rotation toy_serve true r (mkServerConfig v (luminance c) (dark_screen_time c) (sleep_time c))).1 = (1 - v)%Z.
Proof. intros r [->| ->]; reflexivity. Qed.

(** Nobody learns that the display did not take the rotation or the brightness;
    for the two times an error is reported. *)
Lemma refused_settings_are_reported_differently (s : unit) :
  let refuses (_ : string) (s : unit) := (s, Some "ERROR") in
  set_display_rotation refuses true Reverse s = (s, Ok tt)
  /\ set_brightness refuses true 80 s = (s, Ok tt)
  /\ set_sleep_time refuses true 300 s = (s, Err "Server returned error: ERROR")
  /\ set_dark_screen_time refuses true 300 s = (s, Err "Server returned error: ERROR").
Proof. by split_and!. Qed.

(** Stopped and started again within one wait, two tasks report to the display. *)
Lemma restart_doubles_the_reports :
  let g := init (uninit (init_turn true 0 (init (mkGui false false []))).1) in
  let g1 := init_turn true 0 g in
  g1.2 = true /\ (init_turn true 1 g1.1).2 = true.
Proof. by split. Qed.
