(* ===== verification/RpcMethods.v ===== *)
(** * The methods of the RPC interface (jsonrpc.rs, module/rtc_request_params.rs)

    The registry with all its methods: which kind of handler each has, what it
    wants to find in the parameters, and which function it calls with them.  The
    functions themselves are in the parts they belong to; here they are an argument,
    except those of the control lease.  Reading a value as a request type is the
    library's and an argument as well. *)

From S2P Require Import Prelude Session AppState IpForward ControlLease LeaseProofs SessionPlane PlaneProofs JsonRpc UsbPrefs Config Hid Gadget Ums Uac NetAdapter Manager ManagerProofs UsbControl UsbControlProofs UsbClient VirtualMedia UsbSettings NetConf Jiggler Tailscale Wol Gui Tls.

(** The state behind the dispatcher. *)
#[local] Abbreviation World := ControlLease.World.

(** ** Values *)

(** Numbers: a [u64], a negative [i64], or the bits of an [f64]. *)
Inductive Number : Set := PosInt (n : Z) | NegInt (n : Z) | Float (bits : Z).

Inductive Value : Type :=
| VNull
| VBool (b : bool)
| VNumber (n : Number)
| VString (s : string)
| VArray (l : list Value)
| VObject (m : list (string * Value)).

Fixpoint obj_field {A} (k : string) (m : list (string * A)) : option A :=
  match m with
  | [] => None
  | (k', v) :: m' => if String.eqb k' k then Some v else obj_field k m'
  end.

(** [get], [as_str], [as_u64], [as_array], [as_object]. *)
Definition get (k : string) (v : Value) : option Value := match v with VObject m => obj_field k m | _ => None end.
Definition as_str (v : Value) : option string := match v with VString s => Some s | _ => None end.
Definition as_u64 (v : Value) : option Z := match v with VNumber (PosInt n) => Some n | _ => None end.
Definition as_array (v : Value) : option (list Value) := match v with VArray l => Some l | _ => None end.
Definition as_object (v : Value) : option (list (string * Value)) := match v with VObject m => Some m | _ => None end.

(** ** What the methods take *)

Record RebootParams := mkReboot { rb_force : bool }.
Record SerialSettings := mkSerial { baud_rate : string; data_bits : string; stop_bits : string; parity : string }.
(** The factor by its bits. *)
Record StreamQualityParams := mkQuality { sq_factor : Z }.
Record SettingSwitchParams := mkSwitch { sw_enabled : bool }.
Record UsbEmulationParams := mkEmulation { em_enabled : bool }.
Record KeyboardReportParams := mkKbReport { kr_modifier : Z; kr_keys : list Z }.
Record AbsMouseReportParams := mkAbsReport { ar_x : Z; ar_y : Z; ar_buttons : Z }.
Record RelMouseReportParams := mkRelReport { rr_dx : Z; rr_dy : Z; rr_buttons : Z }.
Record WheelReportParams := mkWheelReport { wr_wheel_y : Z; wr_wheel_x : Z }.
Record KeyboardLayoutParams := mkLayout { kl_layout : string }.
Record UISwitch := mkUiSwitch { hdmi_audio : bool }.
Record SetUsbDevicesParams := mkSetDevices { sd_devices : UsbDevicesState }.
Record VersionParams := mkVersion { show_ui : bool }.
Record KeyboardMacrosParams := mkMacrosParams { km_macros : list Value }.
Record CloudStateParam := mkCloudState { cs_state : string }.
Record CloudUrlParams := mkCloudUrl { cu_api_url : string; cu_app_url : string }.
Record NetworkSettingsParams := mkNetSettings { ns_settings : NetworkConfig }.
Record VlanSettingsParams := mkVlanParams { vs_settings : VlanSettings }.
Record RenewVlanDhcpLeaseParams := mkRenew { rv_role : string }.
Record LocalLoopbackParams := mkLoopback { ll_enabled : bool }.
Record SetWakeOnLanDevicesParams := mkSetWol { wl_devices : list WakeOnLanDevice }.
Record RemoveVirtualMediaItemParams := mkRemoveItem { ri_name : string }.
Record VirtualMediaListParams := mkMediaList { ml_list : list VirtualMediaItem }.
Record MountHttpParams := mkMountHttp { mh_url : string; mh_mode : string }.
Record MountWebRtcParams := mkMountWebRtc { mw_filename : string; mw_size : Z; mw_mode : string }.
Record MountStorageParams := mkMountStorage { ms_filename : string; ms_mode : string }.
Record MountFileImgParams := mkMountFileImg { mf_target : Pref.FileTransferTarget }.
Record PathParams := mkPath { pp_path : string }.
Record FtFileDownloadParams := mkFtDownload { fd_path : string; fd_name : string; fd_offset : Z }.
Record FileUploadParams := mkFileUpload { fu_path : string; fu_name : string; fu_size : Z }.
Record LocalFileDownloadParams := mkLocalDownload { ld_path : string; ld_offset : Z }.
Record MassStorageModeParams := mkMassMode { mm_mode : string }.
Record CheckMountUrlParams := mkCheckUrl { cm_url : string }.
Record StartUploadParams := mkStartUpload { su_filename : string; su_size : Z }.
Record DeleteStorageFileParams := mkDeleteFile { df_filename : string }.
Record MountBuiltInImageParams := mkBuiltIn { mb_filename : string }.
Record RpcMountBuiltInImageParams := mkRpcBuiltIn { rm_filename : string }.
Record SshKeyParam := mkSshKey { ssh_key : string }.
Record DevModeParams := mkDevMode { dm_enabled : bool }.
Inductive ATXPowerAction : Set := PowerLong | PowerShort | AtxReset.
Record ATXPowerParams := mkAtx { atx_action : ATXPowerAction }.
Record DisplayRotationParams := mkRotation { dr_rotation : DisplayRotation }.

(** The types that are read from values. *)
Inductive ParamType : Type -> Type :=
| TReboot : ParamType RebootParams
| TSerialSettings : ParamType SerialSettings
| TStreamQuality : ParamType StreamQualityParams
| TSettingSwitch : ParamType SettingSwitchParams
| TUsbEmulation : ParamType UsbEmulationParams
| TKeyboardReport : ParamType KeyboardReportParams
| TAbsMouseReport : ParamType AbsMouseReportParams
| TRelMouseReport : ParamType RelMouseReportParams
| TWheelReport : ParamType WheelReportParams
| TKeyboardLayout : ParamType KeyboardLayoutParams
| TUISwitch : ParamType UISwitch
| TJigglerConfig : ParamType JigglerConfig
| TSetUsbDevices : ParamType SetUsbDevicesParams
| TUsbConfig : ParamType Pref.UsbConfig
| TVersion : ParamType VersionParams
| TTlsState : ParamType TlsState
| TKeyboardMacros : ParamType KeyboardMacrosParams
| TCloudState : ParamType CloudStateParam
| TCloudUrl : ParamType CloudUrlParams
| TNetworkSettings : ParamType NetworkSettingsParams
| TVlanSettings : ParamType VlanSettingsParams
| TRenewVlan : ParamType RenewVlanDhcpLeaseParams
| TLocalLoopback : ParamType LocalLoopbackParams
| TSetWol : ParamType SetWakeOnLanDevicesParams
| TSendWol : ParamType SendWOLMagicPacketParams
| TVirtualMediaItem : ParamType VirtualMediaItem
| TRemoveItem : ParamType RemoveVirtualMediaItemParams
| TMediaList : ParamType VirtualMediaListParams
| TMountHttp : ParamType MountHttpParams
| TMountWebRtc : ParamType MountWebRtcParams
| TMountStorage : ParamType MountStorageParams
| TMountFileImg : ParamType MountFileImgParams
| TPath : ParamType PathParams
| TFtDownload : ParamType FtFileDownloadParams
| TFileUpload : ParamType FileUploadParams
| TLocalDownload : ParamType LocalFileDownloadParams
| TMassMode : ParamType MassStorageModeParams
| TCheckUrl : ParamType CheckMountUrlParams
| TStartUpload : ParamType StartUploadParams
| TDeleteFile : ParamType DeleteStorageFileParams
| TBuiltIn : ParamType MountBuiltInImageParams
| TRpcBuiltIn : ParamType RpcMountBuiltInImageParams
| TSshKey : ParamType SshKeyParam
| TDevMode : ParamType DevModeParams
| TAtx : ParamType ATXPowerParams
| TRotation : ParamType DisplayRotationParams
| TBacklight : ParamType BacklightSettingsParams
| TTailscale : ParamType TailscaleParams
| TStartIpForward : ParamType StartIpForwardParams.

(** ** The functions that are called *)

Inductive Call : Type :=
| Ping | GetDeviceId | Reboot (p : RebootParams)
| SetSerialSettings (p : SerialSettings) | GetSerialSettings
| GetStreamQualityFactor | SetStreamQualityFactor (p : StreamQualityParams)
| GetAudioQuality | SetAudioQuality (p : StreamQualityParams)
| GetAutoUpdateState | SetAutoUpdateState (p : SettingSwitchParams)
| GetDefaultEdid | GetEdid | SetEdid (edid : option string)
| GetUsbEmulationState | SetUsbEmulationState (p : UsbEmulationParams)
| KeyboardReport (p : KeyboardReportParams) | AbsMouseReport (p : AbsMouseReportParams)
| RelMouseReport (p : RelMouseReportParams) | WheelReport (p : WheelReportParams)
| GetControlState | RequestControl (session_id : string)
| GrantControl (session_id : string) (request_id : option string)
| DenyControl (session_id : string) (request_id : option string)
| TakeOverControl (session_id : string) | ReleaseControl (session_id : string)
| GetKeyboardLayout | SetKeyboardLayout (p : KeyboardLayoutParams)
| GetMicrophoneEmulation | SetMicrophoneEmulation (p : SettingSwitchParams)
| GetCameraEmulation | SetCameraEmulation (p : SettingSwitchParams)
| GetFileTransfer | SetFileTransfer (p : SettingSwitchParams) | RepairFileTransfer | FormatFileTransfer
| GetAudioPlayback | SetAudioPlayback (p : SettingSwitchParams)
| GetUiSwitch | SetUiSwitch (p : UISwitch)
| GetJigglerState | SetJigglerState (p : SettingSwitchParams)
| GetJigglerConfig | SetJigglerConfig (c : JigglerConfig)
| GetDevChannelState | SetDevChannelState (p : SettingSwitchParams)
| GetUsbDevices | SetUsbDevices (p : SetUsbDevicesParams)
| GetUsbConfig | SetUsbConfig (c : Pref.UsbConfig)
| GetUsbFullSpeed | SetUsbFullSpeed (p : SettingSwitchParams)
| GetMcpEnabled | SetMcpEnabled (p : SettingSwitchParams)
| GetSshForwarding | SetSshForwarding (p : SettingSwitchParams)
| GetUsbState | GetKeyboardLedState
| GetCurrentVersion (show_ui : bool) | GetUpdateStatus | TryUpdate
| GetTlsState | SetTlsState (s : TlsState)
| GetKeyboardMacros | SetKeyboardMacros (p : KeyboardMacrosParams)
| GetCloudState | SetCloudState (p : CloudStateParam) | DeregisterDevice
| ResetConfig | FactoryReset | SetCloudUrl (p : CloudUrlParams)
| GetNetworkState | GetNetworkSettings | SetNetworkSettings (s : NetworkConfig) | RenewDhcpLease
| GetVlanSettings | SetVlanSettings (s : VlanSettings) | RenewVlanDhcpLease (role : string) | ResetNetworkFactory
| GetLocalLoopbackOnly | SetLocalLoopbackOnly (p : LocalLoopbackParams)
| GetWakeOnLanDevices | SetWakeOnLanDevices (p : SetWakeOnLanDevicesParams) | SendWolMagicPacket (p : SendWOLMagicPacketParams)
| GetVirtualMediaState | GetVirtualMediaList | AddVirtualMediaItem (i : VirtualMediaItem)
| RemoveVirtualMediaItem (name : string) | UpdateVirtualMediaList (p : VirtualMediaListParams)
| GetFileTransferState | GetVideoState
| MountWithHttp (p : MountHttpParams) | MountWithWebRtc (p : MountWebRtcParams) | MountWithStorage (p : MountStorageParams)
| UnmountImage | MountKvmWithFileImg | MountUsbWithFileImg | UnmountFileImg
| GetFtFileSystemInfo | GetFtFileList (path : string) | DelFtFile (path : string) | CreateFtFile (path : string)
| DelFtDir (path : string) | CreateFtDir (path : string)
| DownloadFtFile (path name : string) (offset : Z) (session_id : string) | StartFtUpload (path name : string) (size : Z)
| SetMassStorageMode (p : MassStorageModeParams) | GetMassStorageMode | CheckMountUrl (p : CheckMountUrlParams)
| StartStorageFileUpload (p : StartUploadParams) | ListStorageFiles | DeleteStorageFile (p : DeleteStorageFileParams)
| GetStorageSpace | GetStorageDetails | ClearStorageLogs | ClearStorageImages | GetFtStorageDetails | ClearFtUserFiles
| MountBuiltInImage (p : MountBuiltInImageParams) | RpcMountBuiltInImage (p : RpcMountBuiltInImageParams)
| GetSshKeyState | SetSshKeyState (p : SshKeyParam)
| GetDevModeState | SetDevModeState (p : DevModeParams)
| UseMediaSuccess (params : option Value) | OnAtxPowerAction (p : ATXPowerParams)
| GetGuiConfig | SetGuiOrientation (orientation : Z) | SetBacklight (p : BacklightSettingsParams)
| GetTailscaleState | SwitchTailscale (p : TailscaleParams) | RegisterTailscale | RegisterTailscaleForce
| CollectEvidence | GetLocalFileInfo (path : string) | DownloadLocalFile (path : string) (offset : Z) (session_id : string)
| StartIpForward (p : StartIpForwardParams) (session_id : string) | GetUsbNetworkLeases | DeleteCollectedEvidence (path : string).

(** ** Registrations *)

Inductive HandlerKind : Set := NoParamsHandler | TypedHandler | AsyncHandler | AsyncSessionHandler.

#[export] Instance HandlerKind_eq_dec : EqDecision HandlerKind.
Proof. solve_decision. Defined.

(** From the parameters and the session to the call, or the error before it. *)
Definition Route : Type := option Value -> string -> Result string Call.

Record Registration := mkReg { reg_method : string; reg_kind : HandlerKind; reg_route : Route }.

Section registry.
Context (from_value : ∀ P, ParamType P -> Value -> Result string P).

Definition MISSING : string := "Missing required parameters".

(** [convert_parameters] adds to the message, and its caller adds again. *)
Definition convert_parameters {P} (t : ParamType P) (v : Value) : Result string P :=
  result_map_err (fun e => "Parameter conversion failed: " +:+ e) (from_value P t v).

Definition register_no_params (m : string) (c : Call) : Registration := mkReg m NoParamsHandler (fun _ _ => Ok c).

Definition register_typed {P} (m : string) (t : ParamType P) (k : P -> Call) : Registration :=
  mkReg m TypedHandler (fun params _ =>
    match params with
    | Some p => result_map k (result_map_err (fun e => "Parameter conversion failed: " +:+ e) (convert_parameters t p))
    | None => Err MISSING
    end).

Definition register_async (m : string) (f : option Value -> Result string Call) : Registration :=
  mkReg m AsyncHandler (fun params _ => f params).

Definition register_async_with_session (m : string) (f : Route) : Registration := mkReg m AsyncSessionHandler f.

(** The shapes of the closures. *)
Definition ignoring (c : Call) : option Value -> Result string Call := fun _ => Ok c.

Definition reading_or {P} (missing : string) (t : ParamType P) (k : P -> Call) : option Value -> Result string Call :=
  fun params => match params with
                | None => Err missing
                | Some v => result_map k (from_value P t v)
                end.

Definition reading {P} (t : ParamType P) (k : P -> Call) : option Value -> Result string Call := reading_or MISSING t k.

(** The parameters may be wrapped in a field of their own. *)
Definition reading_inner {P} (name : string) (t : ParamType P) (k : P -> Call) : option Value -> Result string Call :=
  fun params => match params with
                | None => Err MISSING
                | Some raw => result_map k (from_value P t (default raw (get name raw)))
                end.

Definition request_id_param (params : option Value) : option string :=
  match params with
  | None => None
  | Some v => match get "requestId" v with Some r => as_str r | None => None end
  end.

Definition edid_param (params : option Value) : Result string Call :=
  match params with
  | None => Err MISSING
  | Some params =>
      let edid := match get "edid" params with Some v => as_str v | None => None end in
      let edid := match edid with Some s => if is_empty (trim s) then None else edid | None => None end in
      Ok (SetEdid edid)
  end.

Definition version_param (params : option Value) : Result string Call :=
  match params with
  | Some value => result_map (fun p => GetCurrentVersion (show_ui p)) (from_value _ TVersion value)
  | None => Ok (GetCurrentVersion false)
  end.

Definition wol_devices_param (params : option Value) : Result string Call :=
  match params with
  | None => Err MISSING
  | Some raw => match get "params" raw with
                | None => Err "Missing field 'params'"
                | Some inner => result_map SetWakeOnLanDevices (from_value _ TSetWol inner)
                end
  end.

Definition file_img_param (params : option Value) : Result string Call :=
  match params with
  | None => Err MISSING
  | Some v => match from_value _ TMountFileImg v with
              | Err e => Err e
              | Ok p => match mf_target p with
                        | Pref.Kvm => Ok MountKvmWithFileImg
                        | Pref.RemoteUsb => Ok MountUsbWithFileImg
                        | Pref.TargetNone => Err "Unsupported file transfer target: None"
                        end
              end
  end.

(** *** The registrations, in the order of the code *)

Definition basic_methods : list Registration := [
  register_no_params "ping" Ping;
  register_no_params "getDeviceID" GetDeviceId;
  register_typed "reboot" TReboot Reboot;
  register_typed "setSerialSettings" TSerialSettings SetSerialSettings;
  register_no_params "getSerialSettings" GetSerialSettings;
  register_async "getStreamQualityFactor" (ignoring GetStreamQualityFactor);
  register_async "setStreamQualityFactor" (reading TStreamQuality SetStreamQualityFactor);
  register_no_params "getAudioQuality" GetAudioQuality;
  register_async "setAudioQuality" (reading TStreamQuality SetAudioQuality);
  register_async "getAutoUpdateState" (ignoring GetAutoUpdateState);
  register_async "setAutoUpdateState" (reading TSettingSwitch SetAutoUpdateState);
  register_no_params "getDefaultEDID" GetDefaultEdid;
  register_async "getEDID" (ignoring GetEdid);
  register_async "setEDID" edid_param ].

Definition input_methods : list Registration := [
  register_async "getUsbEmulationState" (ignoring GetUsbEmulationState);
  register_async "setUsbEmulationState" (reading TUsbEmulation SetUsbEmulationState);
  register_async "keyboardReport" (reading TKeyboardReport KeyboardReport);
  register_async "absMouseReport" (reading TAbsMouseReport AbsMouseReport);
  register_async "relMouseReport" (reading TRelMouseReport RelMouseReport);
  register_async "wheelReport" (reading TWheelReport WheelReport);
  register_async_with_session "getControlState" (fun _ _ => Ok GetControlState);
  register_async_with_session "requestControl" (fun _ sid => Ok (RequestControl sid));
  register_async_with_session "grantControl" (fun params sid => Ok (GrantControl sid (request_id_param params)));
  register_async_with_session "denyControl" (fun params sid => Ok (DenyControl sid (request_id_param params)));
  register_async_with_session "takeOverControl" (fun _ sid => Ok (TakeOverControl sid));
  register_async_with_session "releaseControl" (fun _ sid => Ok (ReleaseControl sid)) ].

Definition emulation_methods : list Registration := [
  register_no_params "getKeyboardLayout" GetKeyboardLayout;
  register_typed "setKeyboardLayout" TKeyboardLayout SetKeyboardLayout;
  register_async "getMicrophoneEmulation" (ignoring GetMicrophoneEmulation);
  register_async "setMicrophoneEmulation" (reading TSettingSwitch SetMicrophoneEmulation);
  register_async "getCameraEmulation" (ignoring GetCameraEmulation);
  register_async "setCameraEmulation" (reading TSettingSwitch SetCameraEmulation);
  register_async "getFileTransfer" (ignoring GetFileTransfer);
  register_async "setFileTransfer" (reading TSettingSwitch SetFileTransfer);
  register_async "repairFileTransfer" (ignoring RepairFileTransfer);
  register_async "formatFileTransfer" (ignoring FormatFileTransfer);
  register_async "getAudioPlayback" (ignoring GetAudioPlayback);
  register_async "setAudioPlayback" (reading TSettingSwitch SetAudioPlayback);
  register_async "getUiSwitch" (ignoring GetUiSwitch);
  register_async "setUiSwitch" (reading TUISwitch SetUiSwitch);
  register_no_params "getJigglerState" GetJigglerState;
  register_async "setJigglerState" (reading TSettingSwitch SetJigglerState);
  register_async "getJigglerConfig" (ignoring GetJigglerConfig);
  register_async "setJigglerConfig" (reading TJigglerConfig SetJigglerConfig);
  register_async "getDevChannelState" (ignoring GetDevChannelState);
  register_async "setDevChannelState" (reading TSettingSwitch SetDevChannelState) ].

Definition usb_methods : list Registration := [
  register_async "getUsbDevices" (ignoring GetUsbDevices);
  register_async "setUsbDevices" (reading_inner "params" TSetUsbDevices SetUsbDevices);
  register_async "getUsbConfig" (ignoring GetUsbConfig);
  register_async "setUsbConfig" (reading_inner "params" TUsbConfig SetUsbConfig);
  register_async "getUsbFullSpeed" (ignoring GetUsbFullSpeed);
  register_async "setUsbFullSpeed" (reading TSettingSwitch SetUsbFullSpeed);
  register_async "getMcpEnabled" (ignoring GetMcpEnabled);
  register_async "setMcpEnabled" (reading TSettingSwitch SetMcpEnabled);
  register_async "getSshForwarding" (ignoring GetSshForwarding);
  register_async "setSshForwarding" (reading TSettingSwitch SetSshForwarding);
  register_no_params "getUSBState" GetUsbState;
  register_no_params "getKeyboardLedState" GetKeyboardLedState;
  register_async "getCurrentVersion" version_param;
  register_async "getUpdateStatus" (ignoring GetUpdateStatus);
  register_async "tryUpdate" (ignoring TryUpdate);
  register_async "getTLSState" (ignoring GetTlsState);
  register_async "setTLSState" (reading_inner "state" TTlsState SetTlsState);
  register_async "getKeyboardMacros" (ignoring GetKeyboardMacros);
  register_async "setKeyboardMacros" (reading TKeyboardMacros SetKeyboardMacros) ].

Definition network_methods : list Registration := [
  register_async "getCloudState" (ignoring GetCloudState);
  register_typed "setCloudState" TCloudState SetCloudState;
  register_async "deregisterDevice" (ignoring DeregisterDevice);
  register_async "resetConfig" (ignoring ResetConfig);
  register_async "facrotyReset" (ignoring FactoryReset);
  register_async "setCloudUrl" (reading TCloudUrl SetCloudUrl);
  register_async "getNetworkState" (ignoring GetNetworkState);
  register_async "getNetworkSettings" (ignoring GetNetworkSettings);
  register_async "setNetworkSettings"
    (reading_or "Missing required parameters(NetworkSettingsParams)" TNetworkSettings (fun p => SetNetworkSettings (ns_settings p)));
  register_async "renewDHCPLease" (ignoring RenewDhcpLease);
  register_async "getVlanSettings" (ignoring GetVlanSettings);
  register_async "setVlanSettings"
    (reading_or "Missing required parameters(VlanSettingsParams)" TVlanSettings (fun p => SetVlanSettings (vs_settings p)));
  register_async "renewVlanDhcpLease"
    (reading_or "Missing required parameters(RenewVlanDhcpLeaseParams)" TRenewVlan (fun p => RenewVlanDhcpLease (rv_role p)));
  register_async "resetNetworkFactory" (ignoring ResetNetworkFactory);
  register_async "getLocalLoopbackOnly" (ignoring GetLocalLoopbackOnly);
  register_async "setLocalLoopbackOnly" (reading TLocalLoopback SetLocalLoopbackOnly);
  register_async "getWakeOnLanDevices" (ignoring GetWakeOnLanDevices);
  register_async "setWakeOnLanDevices" wol_devices_param;
  register_async "sendWOLMagicPacket" (reading TSendWol SendWolMagicPacket) ].

Definition media_methods : list Registration := [
  register_no_params "getVirtualMediaState" GetVirtualMediaState;
  register_async "getVirtualMediaList" (ignoring GetVirtualMediaList);
  register_async "addVirtualMediaItem" (reading TVirtualMediaItem AddVirtualMediaItem);
  register_async "removeVirtualMediaItem" (reading TRemoveItem (fun p => RemoveVirtualMediaItem (ri_name p)));
  register_async "updateVirtualMediaList" (reading TMediaList UpdateVirtualMediaList);
  register_async "getFileTransferState" (ignoring GetFileTransferState);
  register_async "getVideoState" (ignoring GetVideoState);
  register_async "mountWithHTTP" (reading TMountHttp MountWithHttp);
  register_async "mountWithWebRTC" (reading TMountWebRtc MountWithWebRtc);
  register_async "mountWithStorage" (reading TMountStorage MountWithStorage);
  register_async "unmountImage" (ignoring UnmountImage);
  register_async "mountWithFileImg" file_img_param;
  register_async "unmountWithFileImg" (ignoring UnmountFileImg) ].

Definition drive_methods : list Registration := [
  register_async "ftFileSystemInfo" (ignoring GetFtFileSystemInfo);
  register_async "ftListFile" (reading TPath (fun p => GetFtFileList (pp_path p)));
  register_async "ftDelFile" (reading TPath (fun p => DelFtFile (pp_path p)));
  register_async "ftCreateFile" (reading TPath (fun p => CreateFtFile (pp_path p)));
  register_async "ftDelDir" (reading TPath (fun p => DelFtDir (pp_path p)));
  register_async "ftCreateDir" (reading TPath (fun p => CreateFtDir (pp_path p)));
  register_async_with_session "startFtFsDownload"
    (fun params sid => reading TFtDownload (fun p => DownloadFtFile (fd_path p) (fd_name p) (fd_offset p) sid) params);
  register_async "startFtFsUpload" (reading TFileUpload (fun p => StartFtUpload (fu_path p) (fu_name p) (fu_size p))) ].

Definition storage_methods : list Registration := [
  register_async "setMassStorageMode" (reading TMassMode SetMassStorageMode);
  register_async "getMassStorageMode" (ignoring GetMassStorageMode);
  register_typed "checkMountUrl" TCheckUrl CheckMountUrl;
  register_async "startStorageFileUpload" (reading TStartUpload StartStorageFileUpload);
  register_async "listStorageFiles" (ignoring ListStorageFiles);
  register_async "deleteStorageFile" (reading TDeleteFile DeleteStorageFile);
  register_async "getStorageSpace" (ignoring GetStorageSpace);
  register_async "getStorageDetails" (ignoring GetStorageDetails);
  register_async "clearStorageLogs" (ignoring ClearStorageLogs);
  register_async "clearStorageImages" (ignoring ClearStorageImages);
  register_async "getFtStorageDetails" (ignoring GetFtStorageDetails);
  register_async "clearFtUserFiles" (ignoring ClearFtUserFiles);
  register_async "mountBuiltInImage" (reading TBuiltIn MountBuiltInImage);
  register_async "rpcMountBuiltInImage" (reading TRpcBuiltIn RpcMountBuiltInImage) ].

Definition system_methods : list Registration := [
  register_async "getSSHKeyState" (ignoring GetSshKeyState);
  register_async "setSSHKeyState" (reading TSshKey SetSshKeyState);
  register_async "getDevModeState" (ignoring GetDevModeState);
  register_async "setDevModeState" (reading TDevMode SetDevModeState);
  register_async "useMediaSuccess" (fun params => Ok (UseMediaSuccess params));
  register_async "setATXPowerAction" (reading TAtx OnAtxPowerAction);
  register_async "getGuiSettings" (ignoring GetGuiConfig);
  register_async "setDisplayRotation" (reading TRotation (fun p => SetGuiOrientation (i32_of_rotation (dr_rotation p))));
  register_async "setBacklightSettings" (reading TBacklight SetBacklight);
  register_async "getTailscaleState" (ignoring GetTailscaleState);
  register_async "switchTailscale" (reading TTailscale SwitchTailscale);
  register_async "registerTailscale" (ignoring RegisterTailscale);
  register_async "registerTailscaleForce" (ignoring RegisterTailscaleForce);
  register_async "collectEvidence" (ignoring CollectEvidence);
  register_async "getLocalFileInfo" (reading TPath (fun p => GetLocalFileInfo (pp_path p)));
  register_async_with_session "startLocalFileDownload"
    (fun params sid => reading TLocalDownload (fun p => DownloadLocalFile (ld_path p) (ld_offset p) sid) params);
  register_async_with_session "startIpForward" (fun params sid => reading TStartIpForward (fun p => StartIpForward p sid) params);
  register_async "getUsbNetworkLeases" (ignoring GetUsbNetworkLeases);
  register_async "deleteCollectedEvidence" (reading TPath (fun p => DeleteCollectedEvidence (pp_path p))) ].

Definition registrations : list Registration :=
  basic_methods ++ input_methods ++ emulation_methods ++ usb_methods ++ network_methods ++ media_methods ++ drive_methods
  ++ storage_methods ++ system_methods.

(** The map of handlers; a later registration would replace an earlier one. *)
Abbreviation RpcRegistry := (gmap string Registration).

Definition register (r : Registration) (g : RpcRegistry) : RpcRegistry := <[reg_method r := r]> g.

Definition create_default_registry : RpcRegistry := fold_left (fun g r => register r g) registrations ∅.

Definition get_handler (method : string) : option Registration := create_default_registry !! method.

(** ** Calls *)

(** A handler may panic, with a message or without. *)
Inductive Outcome : Type := Returned (r : Result string Value) | Panicked (message : option string).

(** [exec]: the function with its result as a value; the session of the control
    lease is not its concern. *)
Context (new_v4 : nat -> string) (to_value : ControlStateView -> Value).
Context (exec : Call -> World -> World * Outcome).

Definition control (k : SE World string Value) (w : World) : World * Outcome := let '(w, r) := k w in (w, Returned r).

Definition perform (c : Call) : World -> World * Outcome :=
  match c with
  | GetControlState => control (h_view to_value (se_get get_control_state))
  | RequestControl sid => control (h_view to_value (request_control new_v4 sid))
  | GrantControl sid rid => control (h_view to_value (grant_control sid rid))
  | DenyControl sid rid => control (h_view to_value (deny_control sid rid))
  | TakeOverControl sid => control (h_view to_value (take_over_control sid))
  | ReleaseControl sid => control (h_view to_value (release_control sid))
  | c => exec c
  end.

(** Two kinds of handlers catch panics. *)
Definition catch_panic (o : Outcome) : Outcome :=
  match o with
  | Returned r => Returned r
  | Panicked (Some s) => Returned (Err ("Internal error: Handler panicked: " +:+ s))
  | Panicked None => Returned (Err "Internal error: Handler panicked with unknown payload")
  end.

Definition catches (k : HandlerKind) : bool := match k with NoParamsHandler | TypedHandler => true | _ => false end.

Definition call_async (r : Registration) (params : option Value) (sid : string) (w : World) : World * Outcome :=
  match reg_route r params sid with
  | Err e => (w, Returned (Err e))
  | Ok c => let '(w, o) := perform c w in (w, if catches (reg_kind r) then catch_panic o else o)
  end.

(** The registry as the dispatcher sees it; a panic ends its task. *)
Definition as_handler (r : Registration) : option Value -> string -> SE World string Value :=
  fun params sid w => match call_async r params sid w with
                      | (w, Returned x) => (w, x)
                      | (w, Panicked _) => (w, Err "panic")
                      end.

Definition registry (method : string) : option (option Value -> string -> SE World string Value) := as_handler <$> get_handler method.

Section tasks.
Context {Raw : Type} (from_slice : Raw -> option (JsonRpcRequest (V := Value))).

(** The handler that the message reaches, if any, panics. *)
Definition panics (message : Raw) (sid : string) (w : World) : bool :=
  match from_slice message with
  | None => false
  | Some request =>
      if is_hid_method (r_method request) && negb (allows_hid w sid) then false
      else match get_handler (r_method request) with
           | None => false
           | Some r => match (call_async r (r_params request) sid w).2 with Panicked _ => true | Returned _ => false end
           end
  end.

(** The task of a message, on either channel. *)
Definition message_task (message : Raw) (sid : string) (w : World) : World * option (JsonRpcResponse (V := Value)) :=
  let '(w', response) := handle_message from_slice registry message sid w in
  (w', if panics message sid w then None else response).

Definition input_task (message : Raw) (sid : string) (w : World) : World := handle_input_message from_slice registry message sid w.
End tasks.
End registry.

(** * Properties *)

(** ** The registry *)

Section registry_laws.
Context (from_value : ∀ P, ParamType P -> Value -> Result string P).

Lemma register_all l g m r : NoDup (map reg_method l) ->
  fold_left (fun g r => register r g) l g !! m = Some r <->
  (r ∈ l /\ reg_method r = m) \/ (m ∉ map reg_method l /\ g !! m = Some r).
Proof.
  revert g. induction l as [|x l IH]; intros g; cbn [fold_left map].
  - intros _. split; [intros H; right; split; [apply not_elem_of_nil|done]|]. intros [[H _]|[_ H]]; [by apply elem_of_nil in H|done].
  - intros [Hx Hl]%NoDup_cons. rewrite IH by done. unfold register. rewrite !elem_of_cons.
    destruct (decide (reg_method x = m)) as [<-|Hne].
    + rewrite lookup_insert_eq. split.
      * intros [[H1 H2]|[_ [= <-]]]; [by left; auto|]. left. auto.
      * intros [[[->|H1] H2]|[H1 _]]; [by right|by left|]. contradict H1. by left.
    + rewrite lookup_insert_ne by done. split.
      * intros [[H1 H2]|[H1 H2]]; [by left; auto|]. right. split; [|done]. intros [E|H]; [by rewrite E in Hne|done].
      * intros [[[->|H1] H2]|[H1 H2]]; [done|by left|]. right. split; [|done]. intros H. apply H1. by right.
Qed.

Lemma names_distinct : NoDup (map reg_method (registrations from_value)).
Proof. apply (bool_decide_unpack (NoDup _)). vm_compute. exact I. Qed.

(** Every method of the list is found under its name with the handler it was
    registered with, and no other name is found: no registration replaces another. *)
Theorem registry_serves_every_method m r :
  get_handler from_value m = Some r <-> r ∈ registrations from_value /\ reg_method r = m.
Proof.
  unfold get_handler, create_default_registry. rewrite register_all by apply names_distinct. rewrite lookup_empty.
  split; [intros [H|[_ H]]; [exact H|discriminate H]|intros H; left; exact H].
Qed.

Lemma reset_registered :
  get_handler from_value "resetConfig" = Some (register_async "resetConfig" (ignoring ResetConfig)).
Proof.
  apply registry_serves_every_method. split; [|reflexivity]. apply list_elem_of_In.
  unfold registrations. repeat rewrite in_app_iff. cbn. tauto.
Qed.

Lemma registry_size : length (registrations from_value) = 138%nat.
Proof. reflexivity. Qed.

(** ** What the calls are *)

Definition injects (c : Call) : bool :=
  match c with KeyboardReport _ | AbsMouseReport _ | RelMouseReport _ | WheelReport _ => true | _ => false end.

Definition call_session (c : Call) : option string :=
  match c with
  | RequestControl sid | GrantControl sid _ | DenyControl sid _ | TakeOverControl sid | ReleaseControl sid
  | DownloadFtFile _ _ _ sid | DownloadLocalFile _ _ sid | StartIpForward _ sid => Some sid
  | _ => None
  end.

(** What holds of every registration. *)
Definition route_ok (r : Registration) : Prop :=
  ∀ ps sid c, reg_route r ps sid = Ok c ->
    (injects c = true -> is_hid_method (reg_method r) = true)
    /\ (call_session c = None \/ call_session c = Some sid).

Lemma ok_reading {P} missing (t : ParamType P) k ps c : reading_or from_value missing t k ps = Ok c -> ∃ p, c = k p.
Proof. unfold reading_or. destruct ps as [v|]; [|done]. destruct (from_value P t v); [|done]. intros [= <-]. eauto. Qed.

Lemma ok_inner {P} name (t : ParamType P) k ps c : reading_inner from_value name t k ps = Ok c -> ∃ p, c = k p.
Proof. unfold reading_inner. destruct ps as [v|]; [|done]. destruct (from_value P t _); [|done]. intros [= <-]. eauto. Qed.

Lemma ok_typed {P} m (t : ParamType P) k ps sid c : reg_route (register_typed from_value m t k) ps sid = Ok c -> ∃ p, c = k p.
Proof.
  cbn. unfold convert_parameters. destruct ps as [v|]; [|done]. destruct (from_value P t v); [|done]. intros [= <-]. eauto.
Qed.

Ltac route_step :=
  intros ps sid c H; cbn [reg_route register_async register_async_with_session register_no_params ignoring] in H;
  first [ injection H as <-
        | apply ok_reading in H as [p ->] | apply ok_inner in H as [p ->] | apply ok_typed in H as [p ->]
        | unfold edid_param in H; destruct ps; [injection H as <-|done]
        | unfold version_param in H; destruct ps; [destruct (from_value _ _ _); [|done]|]; injection H as <-
        | unfold wol_devices_param in H; repeat case_match; try done; simplify_eq;
            match goal with H : result_map _ ?x = _ |- _ => destruct x; [|done]; injection H as <- end
        | unfold file_img_param in H; repeat case_match; simplify_eq ];
  split; cbn; auto; discriminate.

Lemma routes_ok : Forall route_ok (registrations from_value).
Proof.
  unfold registrations. rewrite !Forall_app. repeat split;
    unfold basic_methods, input_methods, emulation_methods, usb_methods, network_methods, media_methods, drive_methods, storage_methods, system_methods;
    repeat (apply Forall_cons; split); first [exact (List.Forall_nil _) | route_step].
Qed.

(** The four gated methods are registered as this. *)
Lemma registrations_hid : Forall (fun r => is_hid_method (reg_method r) = true ->
    r ∈ [register_async "keyboardReport" (reading from_value TKeyboardReport KeyboardReport);
         register_async "absMouseReport" (reading from_value TAbsMouseReport AbsMouseReport);
         register_async "relMouseReport" (reading from_value TRelMouseReport RelMouseReport);
         register_async "wheelReport" (reading from_value TWheelReport WheelReport)]) (registrations from_value).
Proof.
  unfold registrations. rewrite !Forall_app. repeat split;
    unfold basic_methods, input_methods, emulation_methods, usb_methods, network_methods, media_methods, drive_methods, storage_methods, system_methods;
    repeat (apply Forall_cons; split); first [exact (List.Forall_nil _) | intros H; first [discriminate H | rewrite !elem_of_cons; tauto]].
Qed.

Lemma handler_route_ok m r : get_handler from_value m = Some r -> route_ok r /\ reg_method r = m.
Proof. intros [Hr <-]%registry_serves_every_method. split; [|done]. pose proof routes_ok as H. rewrite Forall_forall in H. by apply H. Qed.
End registry_laws.

#[local] Opaque get_handler registrations.

Section task_laws.
Context (from_value : ∀ P, ParamType P -> Value -> Result string P).
Context (new_v4 : nat -> string) (to_value : ControlStateView -> Value).
Context {Raw : Type} (from_slice : Raw -> option (JsonRpcRequest (V := Value))).

Abbreviation task exec := (message_task from_value new_v4 to_value exec from_slice).
Abbreviation input exec := (input_task from_value new_v4 to_value exec from_slice).

Lemma call_same exec1 exec2 r ps sid w :
  (∀ c w, injects c = false -> exec1 c w = exec2 c w) -> (∀ c, reg_route r ps sid = Ok c -> injects c = false) ->
  call_async new_v4 to_value exec1 r ps sid w = call_async new_v4 to_value exec2 r ps sid w.
Proof.
  intros Hsame Hr. unfold call_async. destruct (reg_route r ps sid) as [c|e]; [|done].
  assert (perform new_v4 to_value exec1 c w = perform new_v4 to_value exec2 c w) as ->; [|done].
  specialize (Hr c eq_refl). destruct c; cbn [perform]; try reflexivity; apply Hsame; exact Hr.
Qed.

(** C5: Whatever a session that does not hold control sends on either channel,
    and whatever the functions behind the methods do: those that inject input are
    not called.  What they would have done makes no difference to the device. *)
Theorem only_controller_injects exec1 exec2 message sid w :
  (∀ c w, injects c = false -> exec1 c w = exec2 c w) -> allows_hid w sid = false ->
  task exec1 message sid w = task exec2 message sid w /\ input exec1 message sid w = input exec2 message sid w.
Proof.
  intros Hsame Hd. unfold message_task, input_task, panics, handle_message, handle_input_message, registry.
  destruct (from_slice message) as [request|]; [|done]. rewrite Hd, andb_true_r.
  destruct (is_hid_method (r_method request)) eqn:Hh; [done|].
  pose proof (handler_route_ok from_value (r_method request)) as Hok. generalize dependent (get_handler from_value (r_method request)).
  intros [r|] Hok; [|done]. cbn [fmap option_fmap option_map]. destruct (Hok r eq_refl) as [Hr Em]. unfold as_handler.
  rewrite (call_same exec1 exec2) by (done || (intros c Hc; destruct (Hr _ _ _ Hc) as [Hi _]; rewrite Em, Hh in Hi; by destruct (injects c); [specialize (Hi eq_refl)|])).
  done.
Qed.

(** The two resets are served to every session, whatever its role and
    whoever has control: an agent's [resetConfig] runs like the user's, and
    takes the password away. *)
Lemma agent_resets_password exec message sid ps id w :
  from_slice message = Some (mkRequest "resetConfig" ps id) ->
  (task exec message sid w).1 = (exec ResetConfig w).1.
Proof.
  intros Hm. unfold message_task, handle_message, registry. rewrite Hm. cbn [r_method r_params r_id].
  assert (is_hid_method "resetConfig" = false) as -> by reflexivity. cbn [andb].
  rewrite reset_registered.
  cbn [fmap option_fmap option_map]. unfold as_handler, call_async. cbn.
  destruct (exec ResetConfig w) as [w' [[v|e]|m]]; destruct id; reflexivity.
Qed.

(** A request with an id is answered, with that id, unless the handler of an
    asynchronous method panics: those of the other methods are caught. *)
Theorem answered_unless_async_panics exec message sid request id w :
  from_slice message = Some request -> r_id request = Some id ->
  ((task exec message sid w).2 = None <->
    is_hid_method (r_method request) && negb (allows_hid w sid) = false
    /\ ∃ r m, get_handler from_value (r_method request) = Some r /\ catches (reg_kind r) = false
              /\ (call_async new_v4 to_value exec r (r_params request) sid w).2 = Panicked m)
  /\ ∀ a, (task exec message sid w).2 = Some a -> p_id a = Some id.
Proof.
  intros Hm Hi. unfold message_task, panics, handle_message, registry. rewrite Hm, Hi.
  generalize (get_handler from_value (r_method request)) as h. intros h.
  destruct (_ && _); [by split; [split; [|naive_solver]|intros a [= <-]]|].
  destruct h as [r|]; cbn [fmap option_fmap option_map];
    [|by split; [split; [|naive_solver]|intros a [= <-]]].
  unfold as_handler. destruct (call_async _ _ _ r _ sid w) as [w' [[v|e]|m]] eqn:Ec; cbn [snd].
  1,2: split; [split; [done|]|by intros a [= <-]]; intros (_ & r' & m & [= <-] & _ & H); rewrite Ec in H; done.
  split; [|done]. split; [intros _|done]. split; [done|]. exists r, m. rewrite Ec. split_and!; try done.
  destruct (catches (reg_kind r)) eqn:Hk; [|done]. exfalso. unfold call_async in Ec.
  destruct (reg_route r _ sid) as [c|]; [|done]. destruct (perform _ _ _ c w) as [w0 o]. rewrite Hk in Ec.
  injection Ec as _ Ec. destruct o as [|[s|]]; done.
Qed.
End task_laws.

(** ** Reports on their way to the devices *)

(** The handlers of the reports, with the client of the bus: what is put on the
    bus, and whether it counts as input of the user. *)
Definition report_command (c : Call) : option ControlCmd :=
  match c with
  | KeyboardReport p => Some (Putkeyboard (kr_modifier p) (kr_keys p))
  | AbsMouseReport p => Some (Putabsmouse (ar_x p) (ar_y p) (ar_buttons p))
  | RelMouseReport p => Some (Putrelmouse (rr_dx p) (rr_dy p) (rr_buttons p))
  | WheelReport p => Some (Putwheel (wrap32 (wr_wheel_y p)) (wrap32 (wr_wheel_x p)))
  | _ => None
  end.

Definition report_handler (usb sent : bool) (c : Call) : option ControlCmd * bool * Result string Value :=
  if negb usb then (None, false, Err "USB service not initialized")
  else if sent then (report_command c, true, Ok VNull)
  else (None, false, Err "Failed to send event").

Definition is_u8 (z : Z) : Prop := (0 <= z <= 255)%Z.
Definition is_i8 (z : Z) : Prop := (-128 <= z <= 127)%Z.

(** What is read as a request type has the types of its fields. *)
Record RustTyped (from_value : ∀ P, ParamType P -> Value -> Result string P) : Prop := mkRustTyped {
  typed_keyboard v p : from_value _ TKeyboardReport v = Ok p -> is_u8 (kr_modifier p) /\ Forall is_u8 (kr_keys p);
  typed_abs v p : from_value _ TAbsMouseReport v = Ok p -> is_u8 (ar_buttons p);
  typed_rel v p : from_value _ TRelMouseReport v = Ok p -> is_i8 (rr_dx p) /\ is_i8 (rr_dy p) /\ is_u8 (rr_buttons p);
  typed_wheel v p : from_value _ TWheelReport v = Ok p -> is_i8 (wr_wheel_y p) /\ is_i8 (wr_wheel_x p) }.

Lemma u8_kept z : is_u8 z -> as_u8 z = z.
Proof. unfold is_u8. intros. apply as_u8_small. lia. Qed.

Lemma as_i8_small z : is_i8 z -> as_i8 z = z.
Proof.
  unfold is_i8, as_i8, wrap8. intros Hz. cbv zeta. destruct (Z.ltb_spec z 0).
  - replace (z mod 256)%Z with (z + 256)%Z by (apply Z.mod_unique with (-1)%Z; lia).
    destruct (Z.ltb_spec (z + 256) 128); lia.
  - rewrite Z.mod_small by lia. destruct (Z.ltb_spec z 128); lia.
Qed.

(** [as u32] and back. *)
Lemma as_i8_wrap32 z : is_i8 z -> as_i8 (wrap32 z) = z.
Proof.
  intros Hz. rewrite <- (as_i8_small z) at 2 by done. unfold as_i8, wrap8, wrap32. cbv zeta.
  replace (z mod 4294967296 mod 256)%Z with (z mod 256)%Z; [done|].
  change 4294967296%Z with (256 * 16777216)%Z. rewrite Z.rem_mul_r by lia.
  by rewrite (Z.mul_comm 256), Z.mod_add, Z.mod_mod by lia.
Qed.

Section reports.
Context (from_value : ∀ P, ParamType P -> Value -> Result string P) (typed : RustTyped from_value).
Context (world : nat -> Manager.World DevEnv) (rehash : list Service -> list Service).

(** What a report is meant to do at its device. *)
Definition intended (c : Call) (s : ControlState) : ControlState * Reply :=
  let dev sv f := (mkControl (update_device sv f (manager s)) (last_usb_info s), RNone) in
  match c with
  | KeyboardReport p =>
      match device_services (manager s) !! HID_KB_SERVICE with
      | Some (DHidKb h) => match kb_keyboard_report (kr_modifier p) (kr_keys p) h with
                           | Some h' => dev HID_KB_SERVICE (fun _ => DHidKb h')
                           | None => (s, RPanic)
                           end
      | _ => (s, RNone)
      end
  | AbsMouseReport p =>
      dev HID_ABS_SERVICE (fun d => match d with DHidAbs h => DHidAbs (abs_submit_report (ar_x p) (ar_y p) (ar_buttons p) h) | d => d end)
  | RelMouseReport p =>
      dev HID_REL_SERVICE (fun d => match d with DHidRel h => DHidRel (rel_submit_report (rr_dx p) (rr_dy p) (rr_buttons p) h) | d => d end)
  | WheelReport p =>
      dev HID_ABS_SERVICE (fun d => match d with DHidAbs h => DHidAbs (abs_submit_wheel (wr_wheel_y p) (wr_wheel_x p) h) | d => d end)
  | _ => (s, RNone)
  end.

(** A keyboard or mouse message that reaches its handler arrives at the
    device with the numbers of the browser: the conversions on the way, through
    unsigned words and back, change none of them. *)
Theorem reports_reach_the_device m r params sid c s :
  get_handler from_value m = Some r -> is_hid_method m = true -> reg_route r params sid = Ok c ->
  ∃ command, report_handler true true c = (Some command, true, Ok VNull)
             /\ control_step world rehash command s = intended c s.
Proof.
  intros Hg Hm Hr. apply registry_serves_every_method in Hg as [Hin <-].
  assert (r ∈ [register_async "keyboardReport" (reading from_value TKeyboardReport KeyboardReport);
               register_async "absMouseReport" (reading from_value TAbsMouseReport AbsMouseReport);
               register_async "relMouseReport" (reading from_value TRelMouseReport RelMouseReport);
               register_async "wheelReport" (reading from_value TWheelReport WheelReport)]) as Hhid.
  { revert Hin Hm. generalize (registrations_hid from_value). rewrite Forall_forall. intros H Hin. by apply H. }
  repeat (apply elem_of_cons in Hhid as [->|Hhid]); [..|by apply elem_of_nil in Hhid];
    cbn [reg_route register_async] in Hr; unfold reading, reading_or in Hr; destruct params as [v|]; try done;
    destruct (from_value _ _ v) as [p|] eqn:Ep; try done; injection Hr as <-; eexists; (split; [reflexivity|]);
    cbn [control_step report_command intended].
  - apply (typed_keyboard _ typed) in Ep as [H1 _]. by rewrite u8_kept.
  - apply (typed_abs _ typed) in Ep. by rewrite u8_kept.
  - apply (typed_rel _ typed) in Ep as (H1 & H2 & H3). by rewrite !as_i8_small, u8_kept.
  - apply (typed_wheel _ typed) in Ep as [H1 H2]. by rewrite !as_i8_wrap32.
Qed.
End reports.

(** * Concrete runs *)

(** A reader of wheel reports with both fields. *)
Definition as_small (v : option Value) : option Z :=
  match v with
  | Some (VNumber (PosInt n)) => if (n <=? 127)%Z then if (0 <=? n)%Z then Some n else None else None
  | Some (VNumber (NegInt n)) => if (-128 <=? n)%Z then if (n <=? -1)%Z then Some n else None else None
  | _ => None
  end.

Definition toy_from_value (P : Type) (t : ParamType P) (v : Value) : Result string P :=
  match t with
  | TWheelReport => match as_small (get "wheelY" v), as_small (get "wheelX" v) with
                    | Some y, Some x => Ok (mkWheelReport y x)
                    | _, _ => Err "invalid wheel report"
                    end
  | _ => Err "not a wheel report"
  end.

Lemma as_small_typed v z : as_small v = Some z -> is_i8 z.
Proof. unfold as_small, is_i8. repeat case_match; try done; intros [= <-]; lia. Qed.

Lemma toy_typed : RustTyped toy_from_value.
Proof.
  split; [done..|]. cbn. intros v p. destruct (as_small (get "wheelY" v)) as [y|] eqn:Ey; [|done].
  destruct (as_small (get "wheelX" v)) as [x|] eqn:Ex; [|done]. intros [= <-]. split; [by apply as_small_typed in Ey|by apply as_small_typed in Ex].
Qed.

Definition scroll_up : Value := VObject [("wheelY", VNumber (NegInt (-3))); ("wheelX", VNumber (PosInt 0))].
Definition scroll_handler : Registration := register_async "wheelReport" (reading toy_from_value TWheelReport WheelReport).
Definition wheel_control : UsbControl.ControlState :=
  UsbControl.mkControl (with_config some_base (mkSwitches false true false false false false false None) (manager_new some_base)) None.

Lemma reports_reach_the_device_witness :
  ∃ command, report_handler true true (WheelReport (mkWheelReport (-3) 0)) = (Some command, true, Ok VNull)
    /\ control_step broken_world id command wheel_control = intended (WheelReport (mkWheelReport (-3) 0)) wheel_control.
Proof.
  apply (reports_reach_the_device toy_from_value toy_typed broken_world id "wheelReport" scroll_handler (Some scroll_up) "s1");
    [vm_compute; reflexivity|reflexivity|vm_compute; reflexivity].
Defined.

(** A world without sessions, and messages that are values already. *)
Definition nobody : World := ControlLease.mkWorld app_new control_default 0 0 0 false ∅ [] [] 0.
Definition as_is (r : JsonRpcRequest (V := Value)) : option (JsonRpcRequest (V := Value)) := Some r.
Definition no_view (_ : ControlStateView) : Value := VNull.
Definition scroll_request : JsonRpcRequest (V := Value) := mkRequest "wheelReport" (Some scroll_up) (Some (VNumber (PosInt 7))).
Definition media_request : JsonRpcRequest (V := Value) := mkRequest "useMediaSuccess" None (Some (VNumber (PosInt 8))).

Definition answers_null (c : Call) (w : World) : World * Outcome := (w, Returned (Ok VNull)).
Definition panics_on_input (c : Call) (w : World) : World * Outcome :=
  (w, if injects c then Panicked None else Returned (Ok VNull)).
Definition always_panics (c : Call) (w : World) : World * Outcome := (w, Panicked (Some "boom")).

Lemma only_controller_injects_witness :
  message_task toy_from_value (fun _ => "") no_view answers_null as_is scroll_request "s1" nobody
  = message_task toy_from_value (fun _ => "") no_view panics_on_input as_is scroll_request "s1" nobody.
Proof.
  apply (only_controller_injects toy_from_value (fun _ => "") no_view as_is answers_null panics_on_input scroll_request "s1" nobody);
    [|reflexivity]. intros c w Hc. unfold panics_on_input, answers_null. by rewrite Hc.
Defined.

Lemma answered_unless_async_panics_witness :
  (message_task toy_from_value (fun _ => "") no_view always_panics as_is media_request "s1" nobody).2 = None.
Proof.
  apply (answered_unless_async_panics toy_from_value (fun _ => "") no_view as_is always_panics media_request "s1" media_request (VNumber (PosInt 8)) nobody);
    [reflexivity|reflexivity|]. split; [reflexivity|]. exists (register_async "useMediaSuccess" (fun params => Ok (UseMediaSuccess params))), (Some "boom").
  split; [vm_compute; reflexivity|]. split; vm_compute; reflexivity.
Defined.
