(* ===== verification/RpcHandlers.v ===== *)
(** * Handlers of the RPC interface (jsonrpc.rs)

    The handlers with logic of their own: states kept by the module itself, the
    serial port, the address of the cloud, keyboard macros, media modes, the
    microphone, the reset of the configuration, power and restart, and the events
    sent to the browser.  Where a handler goes on into another part, it is that
    part's definition that runs. *)

From S2P Require Import Prelude StateLaws Text Words Cloud Session AppState Hid UsbPrefs Config ConfigProofs Auth Gadget Ums NetAdapter UsbControl UsbClient Paths RangeReader VirtualMedia UsbSettings SettingsProofs RpcMethods.

(** ** States of the module *)

(** Cells that are filled at first use. *)
Record RpcStatics := mkStatics {
  usb_state_cell : option string; keyboard_led_cell : option KeyboardState;
  cloud_state_cell : option CloudConnectionState; keyboard_layout_cell : option string }.

Definition statics_new : RpcStatics := mkStatics None None None None.
Definition no_leds : KeyboardState := mkKbState false false false false false.

Definition get_usb_state (st : RpcStatics) : string := default "unknown" (usb_state_cell st).
Definition set_usb_state (state : string) (st : RpcStatics) : RpcStatics :=
  mkStatics (Some state) (keyboard_led_cell st) (cloud_state_cell st) (keyboard_layout_cell st).

Definition get_keyboard_led_state (st : RpcStatics) : KeyboardState := default no_leds (keyboard_led_cell st).
Definition set_keyboard_led_state (state : KeyboardState) (st : RpcStatics) : RpcStatics :=
  mkStatics (usb_state_cell st) (Some state) (cloud_state_cell st) (keyboard_layout_cell st).

Definition set_cloud_state (param : CloudStateParam) (st : RpcStatics) : RpcStatics * Result string Value :=
  match cloud_state_from_str (cs_state param) with
  | None => (st, Err ("invalid cloud state: " +:+ cs_state param))
  | Some new_state => (mkStatics (usb_state_cell st) (keyboard_led_cell st) (Some new_state) (keyboard_layout_cell st), Ok VNull)
  end.

Definition VALID_LAYOUTS : list string := ["us"; "uk"; "de"; "fr"; "es"; "it"; "jp"; "kr"].

Definition get_keyboard_layout (st : RpcStatics) : string := default "us" (keyboard_layout_cell st).
Definition set_keyboard_layout (params : KeyboardLayoutParams) (st : RpcStatics) : RpcStatics * Result string Value :=
  if negb (bool_decide (kl_layout params ∈ VALID_LAYOUTS)) then (st, Err ("Unsupported keyboard layout: " +:+ kl_layout params))
  else (mkStatics (usb_state_cell st) (keyboard_led_cell st) (cloud_state_cell st) (Some (kl_layout params)), Ok VNull).

(** ** The serial port *)

Definition set_serial_settings (settings : SerialSettings) : Result string Value :=
  match parse_u32 (baud_rate settings) with
  | None => Err ("Invalid baud rate: " +:+ baud_rate settings)
  | Some _ =>
      match parse_u8 (data_bits settings) with
      | None => Err ("Invalid data bits: " +:+ data_bits settings)
      | Some bits =>
          if negb ((5 <=? bits) && (bits <=? 8))%Z then Err "Data bits must be between 5 and 8"
          else if negb (bool_decide (stop_bits settings ∈ ["1"; "1.5"; "2"])) then Err ("Invalid stop bits: " +:+ stop_bits settings)
          else if negb (bool_decide (parity settings ∈ ["none"; "odd"; "even"; "mark"; "space"])) then Err ("Invalid parity: " +:+ parity settings)
          else Ok VNull
      end
  end.

Definition get_serial_settings : SerialSettings := mkSerial "115200" "8" "1" "none".

(** ** The address of the cloud

    [url_parse]: the parser of the library; of an address it gives the scheme, the
    origin as text and the address as text. *)

Record ParsedUrl := mkParsed { scheme : string; origin : string; as_text : string }.

Definition check_url_valid (origin url : string) : bool := String.eqb (origin +:+ "/") url || String.eqb origin url.

Definition http_scheme (u : ParsedUrl) : bool := String.eqb (scheme u) "https" || String.eqb (scheme u) "http".

Definition rpc_set_cloud_url (url_parse : string -> option ParsedUrl) (save_ok : bool) (params : CloudUrlParams) : CloudM unit :=
  let api_url := trim (cu_api_url params) in
  let app_url := trim (cu_app_url params) in
  se_guard (is_empty api_url || is_empty app_url) "API URL and app URL cannot be empty" ;;;
  let! api_url := se_of_result (ok_or (url_parse api_url) "url") in
  let! app_url := se_of_result (ok_or (url_parse app_url) "url") in
  se_guard (negb (http_scheme api_url) || negb (http_scheme app_url)) "unsupported url scheme" ;;;
  se_guard (negb (check_url_valid (origin api_url) (as_text api_url)) || negb (check_url_valid (origin app_url) (as_text app_url)))
    "the url is not valid" ;;;
  Cloud.set_cloud_url save_ok (origin api_url) (origin app_url).

(** ** Keyboard macros *)

Definition MACRO : string := "invalid macro at index ".
Definition show_index (i : nat) : string := show_nat (Z.of_nat i).

(** The strings of an array; everything else in it is skipped. *)
Definition strings_of (v : option Value) : list string :=
  match v with
  | Some v => match as_array v with Some l => omap as_str l | None => [] end
  | None => []
  end.

(** A step that is no object is skipped; [as u32] of the delay. *)
Definition parse_step (v : Value) : option KeyboardMacroStep :=
  match as_object v with
  | None => None
  | Some step_obj =>
      let delay := match obj_field "delay" step_obj with
                   | Some d => match as_u64 d with Some n => wrap32 n | None => 0%Z end
                   | None => 0%Z
                   end in
      Some (mkStep (strings_of (obj_field "keys" step_obj)) (strings_of (obj_field "modifiers" step_obj)) delay)
  end.

Definition parse_steps (i : nat) (v : option Value) : Result string (list KeyboardMacroStep) :=
  match v with
  | Some v => match as_array v with
              | Some [] => Err ("macro at index " +:+ show_index i +:+ " must have at least one step")
              | Some l => Ok (omap parse_step l)
              | None => Ok []
              end
  | None => Ok []
  end.

(** [now]: the clock in nanoseconds. *)
Definition parse_macro (now : Z) (i : nat) (v : Value) : Result string KeyboardMacro :=
  match as_object v with
  | None => Err (MACRO +:+ show_index i +:+ ": invalid type")
  | Some macro_obj =>
      let id := match obj_field "id" macro_obj with Some v => as_str v | None => None end in
      let id := default ("macro-" +:+ show_nat now) id in
      let name := default "" (match obj_field "name" macro_obj with Some v => as_str v | None => None end) in
      let sort_order := match obj_field "sortOrder" macro_obj with Some v => as_u64 v | None => None end in
      let sort_order := match sort_order with
                        | Some n => if (n <=? u32_max)%Z then n else wrap32 (Z.of_nat (i + 1))
                        | None => wrap32 (Z.of_nat (i + 1))
                        end in
      match parse_steps i (obj_field "steps" macro_obj) with
      | Err e => Err e
      | Ok steps =>
          let '(macro_item, r) := macro_validate (mkMacro id name steps (Some sort_order)) in
          match r with
          | Some e => Err (MACRO +:+ show_index i +:+ ": " +:+ e)
          | None => Ok macro_item
          end
      end
  end.

Fixpoint parse_macros (now : nat -> Z) (i : nat) (l : list Value) : Result string (list KeyboardMacro) :=
  match l with
  | [] => Ok []
  | v :: l' =>
      match parse_macro (now i) i v with
      | Err e => Err e
      | Ok m => result_map (cons m) (parse_macros now (S i) l')
      end
  end.

Definition set_keyboard_macros (save_ok : bool) (now : nat -> Z) (params : KeyboardMacrosParams) : Config.CM Value :=
  let macros := km_macros params in
  se_guard (bool_decide (length macros = 0%nat)) (ConfigMsg "missing or invalid macros parameter") ;;;
  se_guard (MAX_MACROS_PER_DEVICE <? length macros)%nat (ConfigMsg "too many macros (max 25)") ;;;
  let! new_macros := se_of_result (result_map_err ConfigMsg (parse_macros now 0 macros)) in
  update save_ok (with_macros new_macros) ;;;
  se_ret VNull.

Definition get_keyboard_macros (c : Config) : list KeyboardMacro := keyboard_macros c.

(** What a browser gets for a macro: the fields under their names. *)
Definition step_to_value (s : KeyboardMacroStep) : Value :=
  VObject [("keys", VArray (VString <$> keys s)); ("modifiers", VArray (VString <$> modifiers s));
           ("delay", VNumber (PosInt (delay s)))].

Definition macro_to_value (m : KeyboardMacro) : Value :=
  VObject ([("id", VString (macro_id m)); ("name", VString (macro_name m)); ("steps", VArray (step_to_value <$> steps m))]
           ++ match sort_order m with Some n => [("sort_order", VNumber (PosInt n))] | None => [] end).

(** ** Media modes *)

Definition parse_vm_mode (mode : string) : Result string VirtualMediaMode :=
  if eq_ignore_ascii_case mode "CDROM" then Ok CDROM
  else if eq_ignore_ascii_case mode "DISK" then Ok DISK
  else Err "invalid mode".

Record VirtualMediaStateResponse := mkVmResponse {
  rs_source : string; rs_mode : string; rs_filename : option string; rs_url : option string; rs_size : Z }.

Section media.
Context {S : Type} `{UsbSidecar S} (bus : nat -> Query -> BusOutcome).

Definition get_virtual_media_state (a : App S) : option VirtualMediaStateResponse :=
  (fun st => mkVmResponse
     (match vs_source st with WebRTC => "WebRTC" | HTTP => "HTTP" | Storage => "Storage" end)
     (match vs_mode st with CDROM => "CDROM" | DISK => "Disk" end)
     (vs_filename st) (vs_url st) (vs_size st)) <$> virtual_media a.

Definition rpc_mount_with_http (env : MediaEnv) (params : MountHttpParams) : MediaM S Value :=
  let! mode := se_of_result (parse_vm_mode (mh_mode params)) in
  mount_with_http bus env (mh_url params) mode ;;; se_ret VNull.

Definition rpc_mount_with_webrtc (env : MediaEnv) (params : MountWebRtcParams) : MediaM S Value :=
  let! mode := se_of_result (parse_vm_mode (mw_mode params)) in
  mount_with_webrtc bus env (mw_filename params) (mw_size params) mode ;;; se_ret VNull.

Definition rpc_mount_with_storage (env : MediaEnv) (params : MountStorageParams) : MediaM S Value :=
  let! mode := se_of_result (parse_vm_mode (ms_mode params)) in
  mount_with_storage bus env (ms_filename params) mode ;;; se_ret VNull.

Definition rpc_mount_built_in_image (env : MediaEnv) (params : RpcMountBuiltInImageParams) : MediaM S Value :=
  mount_built_in_image bus env (rm_filename params) ;;; se_ret VNull.

Definition rpc_get_mass_storage_mode : MediaM S string :=
  let! mode := get_vm_mode_from_sidecar bus in
  se_ret (if is_cdrom mode then "cdrom" else "file").

Definition rpc_set_mass_storage_mode (params : MassStorageModeParams) : MediaM S string :=
  let mode := to_ascii_lowercase (mm_mode params) in
  let! cdrom := (if String.eqb mode "cdrom" then se_ret true
                 else if String.eqb mode "file" then se_ret false
                 else se_throw ("invalid mode: " +:+ mm_mode params)) in
  set_mass_storage_mode bus cdrom Usb0Lun0 ;;;
  rpc_get_mass_storage_mode.

(** ** The microphone *)

(** [virtual_mic]: how starting or ending the service of the microphone goes. *)
Definition rpc_set_microphone_emulation (save_ok : bool) (virtual_mic : Result string unit) (params : SettingSwitchParams) : MediaM S Value :=
  let enabled := sw_enabled params in
  let! a := se_get id in
  se_guard (enabled && ssh a) "ssh_forwarding_active: microphone emulation is unavailable while SSH Forwarding is on" ;;;
  se_guard (enabled && negb (Pref.microphone (Pref.usb_devices (prefs a)))) "microphone device is not enabled" ;;;
  se_guard (negb (bool_decide (is_Some (usb a)))) "USB service not initialized" ;;;
  VirtualMedia.with_usb (set_mic_process bus enabled) ;;;
  se_of_result virtual_mic ;;;
  in_config (set_microphone_emulation save_ok enabled) ;;;
  se_ret VNull.

(** ** Reset of the configuration *)

(** How the parts of a reset go; [rs_rest]: the EDID, the three settings of the
    display and the reset of Tailscale. *)
Record ResetEnv := mkResetEnv {
  rs_mic_saved : bool; rs_virtual_mic : Result string unit; rs_mcp : SettingsEnv; rs_devices : SettingsEnv; rs_speed : SettingsEnv;
  rs_saved : bool; rs_rest : list (Result string unit) }.

Definition DM (A : Type) : Type := SE (Device S) string A.

Definition on_app {A} (k : MediaM S A) : DM A :=
  fun d => let '(a, r) := k (d_app d) in (mkDevice a (d_plane d), r).

Definition default_devices : UsbDevicesState :=
  let d := Pref.usb_devices (cfg_usb config_default) in
  mkDevState (Pref.absolute_mouse d) (Pref.relative_mouse d) (Pref.keyboard d) (Pref.mass_storage_vm d) (Pref.microphone d)
    (Pref.network_adapter d).

Fixpoint all_of (l : list (Result string unit)) : DM unit :=
  match l with
  | [] => se_ret tt
  | r :: l' => se_of_result r ;;; all_of l'
  end.

Definition reset_config (e : ResetEnv) : DM Value :=
  on_app (rpc_set_microphone_emulation (rs_mic_saved e) (rs_virtual_mic e)
            (mkSwitch (default false (microphone_emulation config_default)))) ;;;
  UsbSettings.set_mcp_enabled bus (rs_mcp e) false ;;;
  on_app (rpc_set_usb_devices bus (rs_devices e) default_devices) ;;;
  on_app (rpc_set_usb_full_speed bus (rs_speed e) false) ;;;
  on_app (in_config (update (rs_saved e) reset_config_fields)) ;;;
  all_of (rs_rest e) ;;;
  se_ret VNull.
End media.

(** ** Power and restart *)

(** [spawned]: the command is started; the process ends five seconds later. *)
Definition reboot (spawned : Result string unit) (params : RebootParams) : list string * Result string Value :=
  let cmd := if rb_force params then ["reboot"; "-f"] else ["reboot"] in
  match spawned with
  | Ok _ => (cmd, Ok VNull)
  | Err e => (cmd, Err ("Failed to execute reboot command: " +:+ e))
  end.

Definition RESET_DIRS : list string := ["/userdata/arkkvm"; "/root/.ssh"; "/ota/img"].

(** [existing]: the paths there are; [kept]: what is left when a directory could
    not be removed. *)
Definition below (dir path : string) : bool := String.eqb path dir || starts_with (dir +:+ "/") path.

Definition remove_dir_all (kept : option (gset string)) (dir : string) (existing : gset string) : gset string :=
  match kept with
  | None => filter (fun p => below dir p = false) existing
  | Some kept => filter (fun p => below dir p = false \/ p ∈ kept) existing
  end.

Definition factory_reset (kept : string -> option (gset string)) (spawned : Result string unit) (existing : gset string)
  : gset string * (list string * Result string Value) :=
  (fold_left (fun existing path => remove_dir_all (kept path) path existing) RESET_DIRS existing, reboot spawned (mkReboot false)).

(** A message that cannot be put on the bus is an [unwrap]. *)
Definition on_atx_power_action (put_ok : bool) (params : ATXPowerParams) : option string * Outcome :=
  let topic := match atx_action params with
               | PowerLong => "extension/atx/action/pwr-btn-long-press"
               | PowerShort => "extension/atx/action/pwr-btn-short-press"
               | AtxReset => "extension/atx/action/rst-btn-short-press"
               end in
  if put_ok then (Some topic, Returned (Ok VNull)) else (None, Panicked (Some "called `Result::unwrap()` on an `Err` value")).

(** ** Events *)

Record JsonRpcEvent := mkEvent { ev_method : string; ev_params : option Value }.

(** [channel]: the channel of the session, if it has one, and whether it sends. *)
Definition send_event (channel : option bool) (method : string) (params : option Value) : option JsonRpcEvent * Result string unit :=
  match channel with
  | Some true => (Some (mkEvent method params), Ok tt)
  | Some false => (None, Err "Failed to send RPC event")
  | None => (None, Ok tt)
  end.

Section events.
Context (channel : Session -> option bool) (led_value : KeyboardState -> Value).

(** To the session of the user, with its id. *)
Definition to_user (app : AppState) (method : string) (params : Value) : option (string * JsonRpcEvent) * option (Result string unit) :=
  match get_session_for_role app User with
  | None => (None, None)
  | Some s => let '(sent, r) := send_event (channel s) method (Some params) in (pair (session_id s) <$> sent, Some r)
  end.

Definition broadcast_usb_state (app : AppState) (state : string) (st : RpcStatics) : RpcStatics * option (string * JsonRpcEvent) :=
  (set_usb_state state st, (to_user app "usbState" (VString state)).1).

Definition broadcast_keyboard_led_state (app : AppState) (state : KeyboardState) (st : RpcStatics)
  : RpcStatics * option (string * JsonRpcEvent) :=
  (set_keyboard_led_state state st, (to_user app "keyboardLedState" (led_value state)).1).

Definition broadcast_atx_led_state (app : AppState) (state : Value) : option (string * JsonRpcEvent) * Result string unit :=
  match to_user app "atxState" state with
  | (sent, Some r) => (sent, r)
  | (sent, None) => (sent, Err "No session found")
  end.

Definition broadcast_ota_state (app : AppState) (state : Value) : option (string * JsonRpcEvent) := (to_user app "otaState" state).1.
End events.

(** * Properties *)

(** ** Keyboard macros *)

Lemma strings_back l : strings_of (Some (VArray (VString <$> l))) = l.
Proof. cbn. induction l as [|x l IH]; [done|]. cbn. by f_equal. Qed.

Lemma step_back s : step_valid s -> parse_step (step_to_value s) = Some s.
Proof.
  intros [_ Hd]. unfold parse_step, step_to_value. cbn [as_object obj_field String.eqb Ascii.eqb Bool.eqb as_u64].
  rewrite !strings_back. unfold MIN_STEP_DELAY, MAX_STEP_DELAY in Hd. unfold wrap32. rewrite Z.mod_small by lia. by destruct s.
Qed.

Lemma steps_back i l : l ≠ [] -> Forall step_valid l -> parse_steps i (Some (VArray (step_to_value <$> l))) = Ok l.
Proof.
  intros Hne Hl. unfold parse_steps. cbn [as_array].
  assert (omap parse_step (step_to_value <$> l) = l) as Ho.
  { clear Hne. induction Hl as [|s l Hs _ IH]; [done|]. cbn [fmap list_fmap omap list_omap]. rewrite step_back by done. f_equal. exact IH. }
  destruct l as [|s l]; [done|]. cbn [fmap list_fmap] in Ho |- *. by rewrite Ho.
Qed.

Definition numbered (i : nat) (m : KeyboardMacro) : KeyboardMacro :=
  mkMacro (macro_id m) (macro_name m) (steps m) (Some (wrap32 (Z.of_nat (i + 1)))).

Lemma macro_back now i m : macro_valid m -> parse_macro now i (macro_to_value m) = Ok (numbered i m).
Proof.
  intros Hm. pose proof Hm as (Hn & Hl & Hs). unfold parse_macro, macro_to_value. cbn [as_object].
  assert (∀ k (l : list (string * Value)) o, obj_field k (l ++ match o with Some n => [("sort_order", VNumber (PosInt n))] | None => [] end)
            = match obj_field k l with Some v => Some v | None => match o with Some n => if String.eqb "sort_order" k then Some (VNumber (PosInt n)) else None | None => None end end) as Hf.
  { intros k l o. induction l as [|[k' v] l IH]; cbn; [by destruct o; cbn; [destruct (String.eqb "sort_order" k)|]|].
    by destruct (String.eqb k' k). }
  rewrite !Hf. cbn [obj_field String.eqb Ascii.eqb Bool.eqb as_str default from_option].
  assert ((match sort_order m with Some _ => None | None => None end : option Value) = None) as -> by by destruct (sort_order m).
  rewrite steps_back; [|intros E; rewrite E in Hl; cbn in Hl; lia|done]. unfold id.
  change (mkMacro (macro_id m) (macro_name m) (steps m) (Some (wrap32 (Z.of_nat (i + 1))))) with (numbered i m).
  by rewrite (macro_validate_fix (numbered i m)).
Qed.

Lemma macros_back now i l : Forall macro_valid l -> parse_macros now i (macro_to_value <$> l) = Ok (imap (fun k => numbered (i + k)) l).
Proof.
  intros Hl. revert i. induction Hl as [|m l Hm _ IH]; intros i; [done|]. cbn [fmap list_fmap parse_macros].
  rewrite macro_back, IH by done. cbn. f_equal. rewrite Nat.add_0_r. f_equal. apply imap_ext. intros k x _. cbn. by rewrite Nat.add_succ_r.
Qed.

Lemma numbered_valid i l : Forall macro_valid l -> Forall macro_valid (imap (fun k => numbered (i + k)) l).
Proof.
  intros Hl. revert i. induction Hl as [|m l Hm _ IH]; intros i; cbn; [constructor|]. constructor; [exact Hm|].
  erewrite imap_ext; [apply (IH (S i))|]. intros k x _. cbn. by rewrite Nat.add_succ_r.
Qed.

(** Storing the list of macros a browser was given keeps every macro, its
    steps and the order of the list, and the rest of the configuration; only the
    numbers macros were sorted by are replaced by their places in the list. *)
Theorem macros_stored_again s now :
  config_valid (mem s) -> keyboard_macros (mem s) ≠ [] ->
  set_keyboard_macros true now (mkMacrosParams (macro_to_value <$> get_keyboard_macros (mem s))) s
  = (let c := with_macros (imap numbered (keyboard_macros (mem s))) (mem s) in (mkManager c c, Ok VNull)).
Proof.
  intros Hv Hne. unfold set_keyboard_macros, get_keyboard_macros. cbn [km_macros]. se_unfold.
  rewrite length_fmap. rewrite bool_decide_false by by destruct (keyboard_macros (mem s)).
  pose proof (cv_count _ Hv) as Hc. destruct (Nat.ltb_spec MAX_MACROS_PER_DEVICE (length (keyboard_macros (mem s)))); [lia|].
  rewrite macros_back by apply (cv_macros _ Hv). cbn [result_map_err]. unfold update, update_locked. se_unfold.
  rewrite validate_of_valid; [done|]. destruct Hv as [H1 H2 H3 H4]. split; cbn; [|by apply (numbered_valid 0)|done|done].
  by rewrite length_imap.
Qed.

Lemma parsed_valid now i l l' : parse_macros now i l = Ok l' -> Forall macro_valid l' /\ length l' = length l.
Proof.
  revert i l'. induction l as [|v l IH]; intros i l'; cbn [parse_macros]; [intros [= <-]; by split|].
  destruct (parse_macro (now i) i v) as [m|e] eqn:Em; [|done]. destruct (parse_macros now (S i) l) as [r|e] eqn:Er; [|done].
  intros [= <-]. destruct (IH _ _ Er) as [H1 H2]. split; [|cbn; by rewrite H2]. constructor; [|done].
  unfold parse_macro in Em. destruct (as_object v); [|done]. cbv zeta in Em. destruct (parse_steps _ _); [|done].
  destruct (macro_validate _) as [m' r'] eqn:Ev. destruct r'; [done|]. injection Em as <-. by apply macro_validate_spec in Ev.
Qed.

(** Whatever a browser sends as macros: either the list in the configuration
    becomes one valid macro for each of the 1 to 25 values sent, in memory and on
    disk, or the file is as it was. *)
Theorem stored_macros_are_valid ok now p s :
  match set_keyboard_macros ok now p s with
  | (s', Ok _) => Forall macro_valid (keyboard_macros (mem s')) /\ length (keyboard_macros (mem s')) = length (km_macros p)
                  /\ (1 <= length (km_macros p) <= MAX_MACROS_PER_DEVICE)%nat /\ disk s' = mem s'
  | (s', Err _) => disk s' = disk s
  end.
Proof.
  unfold set_keyboard_macros. se_unfold. case_bool_decide as Hl; [done|].
  destruct (Nat.ltb_spec MAX_MACROS_PER_DEVICE (length (km_macros p))); [done|].
  destruct (parse_macros now 0 (km_macros p)) as [l|e] eqn:Ep; cbn [result_map_err]; [|done].
  apply parsed_valid in Ep as [Hv Hn]. pose proof (update_cases ok (with_macros l) s) as Hu.
  destruct (update ok (with_macros l) s) as [s' [[]|err]]; destruct Hu as [Hm Hu].
  - destruct Hu as (_ & _ & Hd). assert (keyboard_macros (mem s') = l) as ->.
    { rewrite Hm. unfold validate. cbn [keyboard_macros with_macros]. by rewrite macros_validate_fix. }
    split_and!; [done|done|lia|lia|done].
  - destruct err; [apply Hu|apply Hu|done].
Qed.

(** ** The address of the cloud *)

Definition bare (u : ParsedUrl) : Prop :=
  http_scheme u = true /\ (as_text u = origin u \/ as_text u = origin u +:+ "/").

Lemma valid_bare u : http_scheme u = true -> check_url_valid (origin u) (as_text u) = true -> bare u.
Proof. intros Hs [H%String.eqb_eq|H%String.eqb_eq]%orb_true_iff; split; auto. Qed.

(** The addresses of the cloud are only ever set to the origins of two
    addresses that are nothing but an [http] or [https] origin; otherwise nothing
    changes. *)
Theorem cloud_addresses_are_origins url_parse ok p s :
  (rpc_set_cloud_url url_parse ok p s).1 = s
  \/ ∃ api app, url_parse (trim (cu_api_url p)) = Some api /\ url_parse (trim (cu_app_url p)) = Some app
       /\ bare api /\ bare app
       /\ cconfig (rpc_set_cloud_url url_parse ok p s).1
          = mkCloudConfig (origin api) (origin app) (cloud_token (cconfig s)) (owner_user_id (cconfig s)).
Proof.
  unfold rpc_set_cloud_url. cbv zeta. se_unfold. destruct (_ || _); [by left|].
  destruct (url_parse (trim (cu_api_url p))) as [api|]; cbn [ok_or]; [|by left].
  destruct (url_parse (trim (cu_app_url p))) as [app|]; cbn [ok_or]; [|by left].
  destruct (negb (http_scheme api) || negb (http_scheme app)) eqn:Hs; [by left|].
  destruct (negb (check_url_valid _ _) || negb (check_url_valid _ _)) eqn:Hc; [by left|].
  apply orb_false_iff in Hs as [Hs1%negb_false_iff Hs2%negb_false_iff].
  apply orb_false_iff in Hc as [Hc1%negb_false_iff Hc2%negb_false_iff].
  right. exists api, app. split_and!; auto using valid_bare. unfold set_cloud_url, update_cloud. se_unfold.
  destruct (String.eqb _ _), ok; reflexivity.
Qed.

(** ** Reset *)

Section reset.
Context {S : Type} `{UsbSidecar S} (bus : nat -> Query -> BusOutcome).

Lemma in_config_ok (k : Config.CM unit) (a a' : App S) u : in_config k a = (a', Ok u) -> k (config a) = (config a', Ok u) /\ a' = set_config (config a') a.
Proof. unfold in_config. destruct (k (config a)) as [c [[]|e]]; [|done]. by intros [= <- <-]. Qed.

Lemma on_app_ok {A} (k : MediaM S A) (d d' : Device S) x : on_app k d = (d', Ok x) -> k (d_app d) = (d_app d', Ok x).
Proof. unfold on_app. destruct (k (d_app d)) as [a r]. by intros [= <- ->]. Qed.

Lemma all_of_same l (d d' : Device S) u : all_of l d = (d', Ok u) -> d' = d.
Proof.
  revert d. induction l as [|r l IH]; intros d; cbn [all_of]; [by intros [= <-]|]. intros E. repeat ok_step. by apply IH in E.
Qed.

Lemma reset_fields_valid c : config_valid (reset_config_fields c).
Proof. split; cbn; [lia|constructor|lia|set_solver]. Qed.

Definition is_default (c : Config) : Prop :=
  keyboard_macros c = [] /\ hashed_password c = None /\ auth_token (user_slot c) = None
  /\ Pref.usb_devices (cfg_usb c) = Pref.usb_devices (cfg_usb config_default)
  /\ Pref.file_transfer_target (cfg_usb c) = Pref.file_transfer_target (cfg_usb config_default)
  /\ (cfg_mcp_enabled c, cfg_ssh_forwarding_enabled c) = (false, false) /\ virtual_media_list c = None
  /\ effective_microphone_emulation c = false /\ is_setup c = false.

Lemma reset_fields_default c : is_default (reset_config_fields c).
Proof. repeat split. Qed.

(** A reset that succeeds leaves the configuration, in memory and on disk,
    with the defaults: no macros, no password, no token of the user, the default
    devices and switches; the device has to be set up again. *)
Theorem reset_reaches_defaults e d d' :
  reset_config bus e d = (d', Ok VNull) ->
  is_default (mem (config (d_app d'))) /\ disk (config (d_app d')) = mem (config (d_app d')).
Proof.
  unfold reset_config. intros E. repeat ok_step. injection E as <-.
  repeat match goal with H : on_app _ _ = _ |- _ => apply on_app_ok in H end.
  match goal with H : all_of _ _ = _ |- _ => apply all_of_same in H; subst end.
  match goal with H : in_config (update _ _) _ = _ |- _ => apply in_config_ok in H as [Hu _]; rename Hu into Hup end.
  match type of Hup with update ?o ?f ?c = _ => pose proof (update_cases o f c) as Hc; rewrite Hup in Hc end.
  destruct Hc as (Hm & _ & _ & Hd). split; [|exact Hd]. rewrite Hm, validate_of_valid by apply reset_fields_valid.
  apply reset_fields_default.
Qed.

(** Storing a switch sets it in memory. *)
Lemma stored_ssh ok (f : Config -> Config) b (a a' : App S) u :
  (∀ c, cfg_ssh_forwarding_enabled (f c) = b) -> in_config (update ok f) a = (a', Ok u) -> ssh a' = b.
Proof.
  intros Hf [Hu _]%in_config_ok. pose proof (update_cases ok f (config a)) as Hc. rewrite Hu in Hc. destruct Hc as [Hm _].
  unfold ssh. rewrite Hm. unfold validate. destruct (macros_validate 0 _). apply Hf.
Qed.

Lemma ssh_attempts_ok more env uc x y m b (a a' : App S) u : ssh_attempts bus more env uc x y m b a = (a', Ok u) -> ssh a' = b.
Proof.
  revert a. induction more as [|more IH]; intros a; cbn [ssh_attempts]; intros E; ok_step;
    match goal with r : Result _ _ |- _ => destruct r as [[]|e] end; try done; try (by eapply IH); repeat ok_step;
    by refine (stored_ssh _ _ _ _ _ _ _ E).
Qed.

(** Without the switches set the other way round, the reset is not refused for
    the virtual network adapter: turning MCP off has turned it off. *)
Lemma mcp_off_ends_ssh env (d d' : Device S) u :
  (ssh (d_app d) = true -> mcp (d_app d) = true) -> UsbSettings.set_mcp_enabled bus env false d = (d', Ok u) -> ssh (d_app d') = false.
Proof.
  intros Hi. unfold UsbSettings.set_mcp_enabled.
  assert (∀ d0 : Device S, ssh (d_app (disconnect_agent_for_mcp_off bus d0)) = ssh (d_app d0)) as Hdis.
  { intros d0. unfold disconnect_agent_for_mcp_off. destruct (get_session_for_role _ _); [|done]. cbn [d_app].
    destruct (_ && _); [|done]. unfold unmount_image, ssh. by destruct (usb (d_app d0)). }
  destruct (ssh (d_app d)) eqn:Es; [rewrite Hi by done|]; [|destruct (mcp (d_app d)); [|by intros [= <- _]]]; cbn [Bool.eqb].
  - destruct (apply_ssh_forwarding_state bus env false false (d_app d)) as [a [[]|e]] eqn:Ea; [|done]. intros [= <- _].
    rewrite Hdis. cbn [d_app]. unfold apply_ssh_forwarding_state in Ea. repeat ok_step. by eapply ssh_attempts_ok.
  - destruct (in_config _ (d_app d)) as [a [[]|e]] eqn:Ea; [|done]. intros [= <- _]. rewrite Hdis. cbn [d_app].
    apply in_config_ok in Ea as [Hu _]. unfold Config.set_mcp_enabled in Hu.
    match type of Hu with update ?o ?f ?c = _ => pose proof (update_cases o f c) as Hc; rewrite Hu in Hc end.
    destruct Hc as (Hm & _). unfold ssh. rewrite Hm. unfold validate. destruct (macros_validate 0 _). exact Es.
Qed.

Lemma mic_keeps_switches ok vm p (a a' : App S) v :
  rpc_set_microphone_emulation bus ok vm p a = (a', Ok v) -> ssh a' = ssh a /\ mcp a' = mcp a.
Proof.
  unfold rpc_set_microphone_emulation. intros E. repeat ok_step.
  repeat match goal with H : se_get _ _ = _ |- _ => injection H as <- <- end.
  match goal with H : VirtualMedia.with_usb _ ?x = (?y, _) |- _ =>
    assert (config y = config x) as Hc by (unfold VirtualMedia.with_usb in H; destruct (usb x); [|done];
      match type of H with context [let '(_, _) := ?k in _] => destruct k end; by injection H as <- _) end.
  match goal with H : in_config _ _ = _ |- _ => apply in_config_ok in H as [Hu _] end. unfold set_microphone_emulation in Hu.
  match type of Hu with update ?o ?f ?c = _ => pose proof (update_cases o f c) as Hv; rewrite Hu in Hv end.
  destruct Hv as (Hm & _). unfold ssh, mcp. rewrite Hm, Hc. unfold validate. destruct (macros_validate 0 _). by split.
Qed.

(** The devices a state of the interface asks for. *)
Definition asked_devices (state : UsbDevicesState) (a : App S) : Pref.UsbDevices :=
  Pref.mkDevices (st_absolute_mouse state) (st_relative_mouse state) (st_keyboard state) (st_mass_storage state) (st_mass_storage state)
    (st_microphone state) (Pref.camera (Pref.usb_devices (prefs a))) (st_network_adapter state).

Lemma devices_lock env state (a : App S) :
  rpc_set_usb_devices bus env state a
  = if Bool.eqb (Pref.enable (st_network_adapter state)) (ssh a)
    then (store_devices env (asked_devices state a) ;;; reconcile_with_ssh_overlay bus env) a
    else (a, Err "network_adapter_locked").
Proof. unfold rpc_set_usb_devices, se_bind, se_get, se_guard. by destruct (Bool.eqb _ _). Qed.

(** As long as SSH forwarding is only on together with MCP, a reset is not
    refused at its devices: turning MCP off first has turned forwarding off, and
    the default devices go through. *)
Theorem reset_passes_the_adapter_lock e d d1 d2 v u :
  (ssh (d_app d) = true -> mcp (d_app d) = true) ->
  on_app (rpc_set_microphone_emulation bus (rs_mic_saved e) (rs_virtual_mic e) (mkSwitch false)) d = (d1, Ok v) ->
  UsbSettings.set_mcp_enabled bus (rs_mcp e) false d1 = (d2, Ok u) ->
  rpc_set_usb_devices bus (rs_devices e) default_devices (d_app d2)
  = (store_devices (rs_devices e) (asked_devices default_devices (d_app d2)) ;;; reconcile_with_ssh_overlay bus (rs_devices e)) (d_app d2).
Proof.
  intros Hi Em Eo. apply on_app_ok, mic_keeps_switches in Em as [H1 H2]. rewrite devices_lock.
  by rewrite (mcp_off_ends_ssh _ _ _ _ ltac:(by rewrite H1, H2) Eo).
Qed.

(** With the switches the other way round the reset is refused, every time. *)
Lemma reset_locked e d d1 v :
  ssh (d_app d) = true -> mcp (d_app d) = false ->
  on_app (rpc_set_microphone_emulation bus (rs_mic_saved e) (rs_virtual_mic e) (mkSwitch false)) d = (d1, Ok v) ->
  (reset_config bus e d).2 = Err "network_adapter_locked".
Proof.
  intros Hs Hm Em. unfold reset_config. change (default false (microphone_emulation config_default)) with false.
  unfold se_bind at 1. rewrite Em. apply on_app_ok, mic_keeps_switches in Em as [H1 H2]. unfold se_bind at 1.
  unfold UsbSettings.set_mcp_enabled. rewrite H2, Hm. cbn [Bool.eqb]. unfold se_bind at 1. unfold on_app at 1.
  by rewrite devices_lock, H1, Hs.
Qed.

End reset.

Lemma update_of_valid ok f s : config_valid (f (mem s)) ->
  update ok f s = if ok then (mkManager (f (mem s)) (f (mem s)), Ok tt) else (mkManager (f (mem s)) (disk s), Err SaveFailed).
Proof. intros Hv. unfold update, update_locked. se_unfold. rewrite validate_of_valid by done. unfold save. by destruct ok. Qed.

(** Turning MCP off stores the switches one after the other: when the second save
    fails, the file is left with forwarding on and MCP off. *)
Lemma torn_switches c :
  config_valid c -> cfg_mcp_enabled c = true -> cfg_ssh_forwarding_enabled c = true ->
  let s1 := (Config.set_mcp_enabled true false (mkManager c c)).1 in
  let s2 := (set_ssh_forwarding_enabled false false s1).1 in
  cfg_mcp_enabled (disk s2) = false /\ cfg_ssh_forwarding_enabled (disk s2) = true.
Proof.
  intros Hv _ Hs. assert (∀ m b, config_valid (with_switches m b c)) as H by (intros; destruct Hv; by split).
  unfold Config.set_mcp_enabled, set_ssh_forwarding_enabled. rewrite (update_of_valid true _ (mkManager c c)) by apply H. cbv zeta. cbn [fst].
  rewrite update_of_valid; [cbn; by rewrite Hs|]. destruct Hv. by split.
Qed.

(** ** Modes and states *)

(** What a state says of its mode is understood where a mode is asked for. *)
Lemma mode_understood {S} (a : App S) r st : virtual_media a = Some st -> get_virtual_media_state a = Some r -> parse_vm_mode (rs_mode r) = Ok (vs_mode st).
Proof. unfold get_virtual_media_state. intros -> [= <-]. by destruct st as [src []]. Qed.

(** Settings of the serial port are checked and then forgotten. *)
Lemma serial_settings_forgotten :
  let s := mkSerial "9600" "7" "2" "even" in set_serial_settings s = Ok VNull /\ get_serial_settings ≠ s.
Proof. by split. Qed.

(** What is stored as the state of the cloud is not what is asked for. *)
Lemma stored_cloud_state_unread st p :
  get_usb_state (set_cloud_state p st).1 = get_usb_state st /\ get_keyboard_layout (set_cloud_state p st).1 = get_keyboard_layout st
  /\ get_keyboard_led_state (set_cloud_state p st).1 = get_keyboard_led_state st.
Proof. unfold set_cloud_state. by destruct (cloud_state_from_str _). Qed.

(** The number macros are sorted by is sent under a name that is not read: the
    first macro of the list becomes number one. *)
Lemma sort_number_lost :
  let m := mkMacro "m1" "paste" [mkStep ["KeyV"] ["ControlLeft"] 50] (Some 7%Z) in
  get "sort_order" (macro_to_value m) = Some (VNumber (PosInt 7))
  /\ parse_macro 0 0 (macro_to_value m) = Ok (mkMacro "m1" "paste" [mkStep ["KeyV"] ["ControlLeft"] 50] (Some 1%Z)).
Proof. split; vm_compute; reflexivity. Qed.

(** The last macro cannot be removed. *)
Lemma no_empty_list ok now s : (set_keyboard_macros ok now (mkMacrosParams []) s).2 = Err (ConfigMsg "missing or invalid macros parameter").
Proof. reflexivity. Qed.

(** A delay is cut to its low half before it is brought into bounds. *)
Lemma long_delay_becomes_short :
  let v := VObject [("delay", VNumber (PosInt 4294967297)); ("keys", VArray [VString "KeyA"])] in
  delay <$> parse_step v = Some 1%Z.
Proof. vm_compute. reflexivity. Qed.

(** A message that the bus does not take ends the task of the request without an
    answer. *)
Lemma power_button_panics p : ∃ m, (on_atx_power_action false p).2 = Panicked m.
Proof. by eexists. Qed.

(** A factory reset says it worked when nothing could be removed. *)
Lemma failed_reset_succeeds existing : (factory_reset (fun _ => Some existing) (Ok tt) existing).2.2 = Ok VNull
  /\ (factory_reset (fun _ => Some existing) (Ok tt) existing).1 = existing.
Proof.
  split; [done|]. unfold factory_reset, RESET_DIRS. cbn [fst fold_left].
  assert (∀ d, remove_dir_all (Some existing) d existing = existing) as H by (intros d; apply set_eq; cbn; set_solver).
  by rewrite !H.
Qed.

(** Without failures nothing is left of the directories, and the rest stays. *)
Lemma factory_reset_removes spawned existing p :
  p ∈ (factory_reset (fun _ => None) spawned existing).1 <-> p ∈ existing /\ Forall (fun d => below d p = false) RESET_DIRS.
Proof.
  unfold factory_reset, RESET_DIRS. cbn [fst fold_left remove_dir_all]. rewrite !elem_of_filter, !Forall_cons, Forall_nil. naive_solver.
Qed.

(** ** Events *)

(** Events go to the session of the user, and a state is kept whether or not
    anyone is told. *)
Lemma events_for_the_user channel app state st :
  get_usb_state (broadcast_usb_state channel app state st).1 = state
  /\ ∀ sid ev, (broadcast_usb_state channel app state st).2 = Some (sid, ev) ->
       ∃ s, get_session_for_role app User = Some s /\ session_id s = sid /\ ev = mkEvent "usbState" (Some (VString state)).
Proof.
  split; [done|]. intros sid ev. unfold broadcast_usb_state, to_user. destruct (get_session_for_role app User) as [s|]; [|done].
  unfold send_event. destruct (channel s) as [[]|]; cbn; [|done..]. intros [= <- <-]. by exists s.
Qed.
