(* ===== verification/CmdSocket.v ===== *)
(** * The command socket of the display (services/cmd_socket.rs)

    One request and one answer per connection.  A reset waits for other parts of the
    program and only one may run; its two ends are two steps, between which other
    clients are served.  The other commands are one step each. *)

From S2P Require Import Prelude StateLaws Text Words IpAddr NetConf Cloud NetSettings Config RpcMethods RpcHandlers.

#[local] Set Default Proof Using "Type".

(** ** Requests *)

Inductive Command : Set :=
| ResetNetworkFactory
| FactoryReset
| SetHostname (value : option string)
| ReapplyVlan
| SetVlanPrimaryId (value : option string)
| ApplyVlanDhcp (value : option string)
| ApplyVlanOff
| UnknownCommand (key : string).

(** KEY or KEY=VALUE. *)
Definition parse_command (req : string) : Command :=
  let '(key, value) := match split_once "=" req with
                       | Some (k, v) => (trim k, Some (trim v))
                       | None => (trim req, None)
                       end in
  if String.eqb key "RESET_NETWORK_FACTORY" then ResetNetworkFactory
  else if String.eqb key "FACTORY_RESET" then FactoryReset
  else if String.eqb key "SET_HOSTNAME" then SetHostname value
  else if String.eqb key "REAPPLY_VLAN" then ReapplyVlan
  else if String.eqb key "SET_VLAN_PRIMARY_ID" then SetVlanPrimaryId value
  else if String.eqb key "APPLY_VLAN_DHCP" then ApplyVlanDhcp value
  else if String.eqb key "APPLY_VLAN_OFF" then ApplyVlanOff
  else UnknownCommand key.

Definition not_empty (value : option string) : option string :=
  match value with Some v => if is_empty v then None else Some v | None => None end.

(** ** Commands on the network *)

Section network.
Context (e : NetEnv).

Definition is_ascii (s : string) : bool := forallb (fun c => (nat_of_ascii c <? 128)%nat) (list_ascii_of_string s).

Definition valid_hostname (h : string) : bool :=
  is_ascii h && (String.length h <=? 63)%nat
  && negb (contains_char "/" h) && negb (contains_char "\" h) && negb (contains_char " " h).

Definition answer {A} (ok : A -> string) (m : NetM A) : NetM string :=
  let! r := se_catch m in
  se_ret (match r with Ok a => ok a | Err err => "ERROR=" +:+ err end).

Definition set_hostname (value : option string) : NetM string :=
  match not_empty value with
  | None => se_ret "ERROR=missing hostname"
  | Some hostname =>
      if negb (valid_hostname hostname) then se_ret "ERROR=invalid hostname"
      else
        let! cfg := get_network_settings e in
        answer (fun _ => "OK hostname=" +:+ hostname) (set_network_settings e (with_names (Some hostname) (domain cfg) cfg))
  end.

Abbreviation Redirect := (option (Z * string * option string) * option (Z * string * option string))%type.

Definition primary_ipv4 (r : Redirect) : string :=
  match r.1 with Some (_, _, Some ipv4) => ipv4 | _ => "-" end.
Definition primary_id (r : Redirect) : string :=
  match r.1 with Some (id, _, _) => show_nat id | None => "-" end.

Definition reapply_vlan : NetM string :=
  answer (fun r => "OK vlan_id=" +:+ primary_id r +:+ " ipv4=" +:+ primary_ipv4 r) (reapply_current_vlan_settings e).

Definition set_vlan_primary_id (value : option string) : NetM string :=
  match not_empty value with
  | None => se_ret "ERROR=missing vlan_id"
  | Some raw =>
      match parse_u16 raw with
      | None => se_ret "ERROR=invalid vlan_id"
      | Some id => answer (fun r => "OK vlan_id=" +:+ show_nat id +:+ " ipv4=" +:+ primary_ipv4 r) (set_primary_vlan_id_and_apply e id)
      end
  end.

Definition apply_vlan_dhcp (value : option string) : NetM string :=
  match not_empty value with
  | None => se_ret "ERROR=missing vlan ids (e.g. 6 or 6,5)"
  | Some raw =>
      let run primary_id secondary_id :=
        answer (fun r => "OK primary=" +:+ show_nat primary_id +:+ " secondary="
                         +:+ match secondary_id with Some v => show_nat v | None => "-" end +:+ " ipv4=" +:+ primary_ipv4 r)
               (apply_vlan_dhcp_lab e primary_id secondary_id) in
      match List.filter (fun p => negb (is_empty p)) (map trim (split_on "," raw)) with
      | [p] => match parse_u16 p with
               | Some primary_id => run primary_id None
               | None => se_ret "ERROR=invalid primary vlan_id"
               end
      | [p; q] => match parse_u16 p with
                  | Some primary_id => match parse_u16 q with
                                       | Some secondary_id => run primary_id (Some secondary_id)
                                       | None => se_ret "ERROR=invalid secondary vlan_id"
                                       end
                  | None => se_ret "ERROR=invalid primary vlan_id"
                  end
      | _ => se_ret "ERROR=expected APPLY_VLAN_DHCP=<primary>[,<secondary>]"
      end
  end.

Definition apply_vlan_off : NetM string := answer (fun _ => "OK vlan_enabled=false") (apply_vlan_off_lab e).
End network.

(** ** Dispatch

    [busy]: the flag of the resets; [files]: the paths there are; [rebooting]: the
    commands started to restart the device. *)

Record CmdState := mkCmd { net : NetState; busy : bool; files : gset string; rebooting : list (list string) }.

Definition with_net (n : NetState) (s : CmdState) : CmdState := mkCmd n (busy s) (files s) (rebooting s).
Definition with_busy (b : bool) (s : CmdState) : CmdState := mkCmd (net s) b (files s) (rebooting s).

Inductive Reset : Set := NetworkReset | FullReset.

(** A request is answered at once, or begins a reset. *)
Definition on_net (m : NetM string) (s : CmdState) : CmdState * (string + Reset) :=
  let '(n, r) := m (net s) in (with_net n s, inl (match r with Ok text => text | Err err => "ERROR=" +:+ err end)).

Definition begin_reset (kind : Reset) (s : CmdState) : CmdState * (string + Reset) :=
  if busy s then (s, inl "ERROR=busy") else (with_busy true s, inr kind).

Definition dispatch (e : NetEnv) (req : string) (s : CmdState) : CmdState * (string + Reset) :=
  match parse_command req with
  | ResetNetworkFactory => begin_reset NetworkReset s
  | FactoryReset => begin_reset FullReset s
  | SetHostname value => on_net (set_hostname e value) s
  | ReapplyVlan => on_net (reapply_vlan e) s
  | SetVlanPrimaryId value => on_net (set_vlan_primary_id e value) s
  | ApplyVlanDhcp value => on_net (apply_vlan_dhcp e value) s
  | ApplyVlanOff => on_net (apply_vlan_off e) s
  | UnknownCommand key => (s, inl ("ERROR=Unknown command: " +:+ key))
  end.

(** The end of a reset.  [kept]: what is left of a directory that could not be
    removed; [spawned]: whether the restart could be started.  After a full reset
    the flag stays. *)
Record FinishEnv := mkFinish { fe_net : NetEnv; fe_kept : string -> option (gset string); fe_spawned : Result string unit }.

Definition finish_reset (e : FinishEnv) (kind : Reset) (s : CmdState) : CmdState * string :=
  match kind with
  | NetworkReset =>
      let '(n, r) := reset_network_to_factory (fe_net e) (net s) in
      (mkCmd n false (files s) (rebooting s), match r with Ok _ => "OK" | Err err => "ERROR=" +:+ err end)
  | FullReset =>
      let '(remaining, (command, r)) := factory_reset (fe_kept e) (fe_spawned e) (files s) in
      match r with
      | Ok _ => (mkCmd (net s) (busy s) remaining (rebooting s ++ [command]), "OK")
      | Err err => (mkCmd (net s) false remaining (rebooting s), "ERROR=" +:+ err)
      end
  end.

(** ** Clients

    One read of at most 512 bytes; [lossy]: what is not UTF-8 is replaced. *)

Inductive Client : Set := Hung | Waiting (kind : Reset) | Answered (text : string).

Record Clients := mkClients { cmd : CmdState; clients : list Client }.

Section clients.
Context (lossy : string -> string).

Definition handle_client (e : NetEnv) (sent : string) (c : Clients) : Clients :=
  if is_empty sent then mkClients (cmd c) (clients c ++ [Hung])
  else
    let '(s, r) := dispatch e (trim (lossy (substring 0 512 sent))) (cmd c) in
    mkClients s (clients c ++ [match r with inl text => Answered text | inr kind => Waiting kind end]).

Definition finish_client (e : FinishEnv) (i : nat) (c : Clients) : Clients :=
  match clients c !! i with
  | Some (Waiting kind) => let '(s, text) := finish_reset e kind (cmd c) in mkClients s (<[i := Answered text]> (clients c))
  | _ => c
  end.

Inductive CmdStep : Type :=
| Arrives (e : NetEnv) (sent : string)
| Finishes (e : FinishEnv) (i : nat).

Definition cmd_step (c : Clients) (st : CmdStep) : Clients :=
  match st with
  | Arrives e sent => handle_client e sent c
  | Finishes e i => finish_client e i c
  end.

Definition cmd_run (steps : list CmdStep) (c : Clients) : Clients := fold_left cmd_step steps c.

(** ** The server

    [serving]: the servers that were started, and whether they still accept; the
    path of the socket leads to at most one of them. *)
Inductive ServerPc : Set := Binding | Accepting | Ended.

Record Server := mkServer { running : bool; serving : list ServerPc; path : option nat }.

Definition init (s : Server) : Server :=
  if running s then s else mkServer true (serving s ++ [Binding]) (path s).

Definition uninit (s : Server) : Server := mkServer false (serving s) None.

(** [run_server]: what is at the path is replaced; when the server ends the flag
    falls. *)
Definition server_binds (i : nat) (ok : bool) (s : Server) : Server :=
  match serving s !! i with
  | Some Binding =>
      if ok then (if running s then mkServer true (<[i := Accepting]> (serving s)) (Some i)
                  else mkServer false (<[i := Ended]> (serving s)) (Some i))
      else mkServer false (<[i := Ended]> (serving s)) None
  | _ => s
  end.

(** One [accept]: the flag is looked at after a failure and before the next; the
    client that was accepted is served in any case. *)
Definition server_accepts (i : nat) (ok : bool) (s : Server) : Server * bool :=
  match serving s !! i with
  | Some Accepting => (if running s then s else mkServer false (<[i := Ended]> (serving s)) (path s), ok)
  | _ => (s, false)
  end.

(** * Properties *)

(** ** Resets *)

(** At most one client waits for a reset; the flag is up exactly while one does, or
    when the device is about to restart. *)
Record resets_alone (c : Clients) : Prop := mkResetsAlone {
  ra_one : ∀ i j k l, clients c !! i = Some (Waiting k) -> clients c !! j = Some (Waiting l) -> i = j;
  ra_busy : ∀ i k, clients c !! i = Some (Waiting k) -> busy (cmd c) = true;
  ra_free : busy (cmd c) = true -> (∃ i k, clients c !! i = Some (Waiting k)) \/ rebooting (cmd c) ≠ [] }.

Lemma resets_alone_more c s new :
  (∀ k, new ≠ Waiting k) -> busy s = busy (cmd c) -> rebooting s = rebooting (cmd c) ->
  resets_alone c -> resets_alone (mkClients s (clients c ++ [new])).
Proof.
  intros Hnew Hb Hr [H1 H2 H3].
  assert (∀ i k, (clients c ++ [new]) !! i = Some (Waiting k) -> clients c !! i = Some (Waiting k)) as Hold.
  { intros i k [Hi|[_ Hi]]%lookup_app_Some; [done|]. apply list_lookup_singleton_Some in Hi as [_ Hi]. by destruct (Hnew k). }
  split; cbn; rewrite ?Hb, ?Hr.
  - intros i j k l Hi Hj. eauto.
  - intros i k Hi. eauto.
  - intros Hbusy. destruct (H3 Hbusy) as [(i & k & Hi)|Hre]; [left|by right]. exists i, k. by apply lookup_app_l_Some.
Qed.

Lemma dispatch_cases e req s :
  (∃ text, (dispatch e req s).2 = inl text /\ busy (dispatch e req s).1 = busy s /\ rebooting (dispatch e req s).1 = rebooting s)
  \/ (∃ kind, dispatch e req s = (with_busy true s, inr kind) /\ busy s = false).
Proof.
  unfold dispatch. destruct (parse_command req); unfold begin_reset, on_net;
    try (destruct (busy s) eqn:Eb; [left; by eexists|right; by eexists]); left;
    try (by eexists); match goal with |- context[let '(_, _) := ?m in _] => destruct m end; by eexists.
Qed.

Lemma resets_alone_step c st : resets_alone c -> resets_alone (cmd_step c st).
Proof.
  intros H. destruct st as [e sent|e i]; cbn.
  - unfold handle_client. destruct (is_empty sent); [by apply resets_alone_more|].
    destruct (dispatch_cases e (trim (lossy (substring 0 512 sent))) (cmd c)) as [(text & Hr & Hb & Hre)|(kind & -> & Hb)].
    + destruct (dispatch _ _ _) as [s r]. cbn in *. subst r. by apply resets_alone_more.
    + destruct H as [H1 H2 H3].
      assert (∀ j k, clients c !! j ≠ Some (Waiting k)) as Hno by (intros j k Hj; apply H2 in Hj; congruence).
      assert (∀ j k, (clients c ++ [Waiting kind]) !! j = Some (Waiting k) -> j = length (clients c)) as Hnew.
      { intros j k [Hj|[Hle Hj]]%lookup_app_Some; [by destruct (Hno j k)|]. apply list_lookup_singleton_Some in Hj as [? _]. lia. }
      split; cbn; [|done|].
      * intros i j k l Hi Hj. by rewrite (Hnew _ _ Hi), (Hnew _ _ Hj).
      * intros _. left. exists (length (clients c)), kind. by apply list_lookup_middle.
  - unfold finish_client. destruct (clients c !! i) as [[|kind|text]|] eqn:Ei; try done. destruct H as [H1 H2 H3].
    destruct (finish_reset e kind (cmd c)) as [s text] eqn:Ef.
    assert (∀ j k, <[i := Answered text]> (clients c) !! j ≠ Some (Waiting k)) as Hno.
    { intros j k Hj. apply list_lookup_insert_Some in Hj as [(_ & ? & _)|(Hne & Hj)]; [done|]. by destruct Hne; eauto. }
    split; cbn; [by intros ???? []%Hno|by intros ?? []%Hno|]. intros Hb. right. revert Ef Hb. unfold finish_reset.
    destruct kind; [destruct (reset_network_to_factory _ _) as [n r]; by intros [= <- _]|].
    destruct (factory_reset _ _ _) as [remaining [command r]]. destruct r; intros [= <- _]; cbn; [|done]. by destruct (rebooting (cmd c)).
Qed.

Lemma resets_alone_run steps c : resets_alone c -> resets_alone (cmd_run steps c).
Proof. unfold cmd_run. revert c. induction steps as [|st steps IH]; intros c H; [done|]. cbn. by apply IH, resets_alone_step. Qed.

(** However requests and the ends of resets interleave, no two resets run at
    the same time, and one is refused only while another runs or the device is
    about to restart. *)
Theorem one_reset_at_a_time steps n fs e sent :
  let c := cmd_run steps (mkClients (mkCmd n false fs []) []) in
  (∀ i j k l, clients c !! i = Some (Waiting k) -> clients c !! j = Some (Waiting l) -> i = j)
  /\ (last (clients (handle_client e sent c)) = Some (Answered "ERROR=busy") ->
      parse_command (trim (lossy (substring 0 512 sent))) ∈ [ResetNetworkFactory; FactoryReset] ->
      (∃ i k, clients c !! i = Some (Waiting k)) \/ rebooting (cmd c) ≠ []).
Proof.
  assert (resets_alone (mkClients (mkCmd n false fs []) [])) as H0 by by split.
  pose proof (resets_alone_run steps _ H0) as [H1 H2 H3]. cbv zeta. split; [exact H1|].
  intros Hl Hp. apply H3. revert Hl. unfold handle_client. destruct (is_empty sent); [cbn; by rewrite last_snoc|].
  unfold dispatch. rewrite !elem_of_cons in Hp. unfold begin_reset.
  destruct Hp as [->|[->|[]%elem_of_nil]]; (destruct (busy _); [done|]); cbn; by rewrite last_snoc.
Qed.
End clients.

(** ** Names *)

(** Settings that are taken are stored. *)
Lemma set_network_stores e c s s' : set_network_settings e c s = (s', Ok tt) -> enc s' = adopted c (enc s).
Proof.
  unfold set_network_settings. unfold se_bind at 1, se_get. case_bool_decide as Hd; [by intros [= <-]|].
  intros E. apply bind_ok in E as (d & a & _ & E). revert E. unfold update_network. se_unfold. cbn.
  destruct (negb (save_ok e)); [done|]. by intros [= <-].
Qed.

Lemma adopted_hostname c old : hostname (adopted c old) = hostname c.
Proof. unfold adopted. destruct (http_proxy c) as [p|]; [destruct (is_empty p)|]; by case_match. Qed.

(** A name that is confirmed is a name the checks allow, and the one the device
    is configured with from then on. *)
Theorem confirmed_name_is_stored e req s s' name :
  dispatch e req s = (s', inl ("OK hostname=" +:+ name)) -> parse_command req = SetHostname (Some name) ->
  valid_hostname name = true /\ hostname (enc (net s')) = Some name.
Proof.
  unfold dispatch. intros E Hp. rewrite Hp in E. revert E. unfold on_net, set_hostname, not_empty.
  destruct (is_empty name); [done|]. destruct (valid_hostname name); [cbn [negb]|done].
  unfold se_bind at 1. destruct (get_network_settings e (net s)) as [n1 [cfg|err]] eqn:Eg; [|done].
  unfold answer, se_catch. unfold se_bind at 1.
  destruct (set_network_settings e _ n1) as [n2 [[]|err]] eqn:Es; cbn; [|done]. intros [= <-]. split; [done|]. cbn.
  by rewrite (set_network_stores _ _ _ _ Es), adopted_hostname.
Qed.

(** What is answered says how it went. *)
Lemma answers_are_marked {A} ok (m : NetM A) s : ∃ text, (answer ok m s).2 = Ok text /\ ((∃ a, text = ok a) \/ starts_with "ERROR=" text = true).
Proof. unfold answer, se_catch, se_bind, se_ret. destruct (m s) as [s' [a|err]]; cbn.
  - exists (ok a). split; [done|left; by exists a].
  - exists ("ERROR=" +:+ err). split; [done|right; apply starts_with_app].
Qed.

(** A network reset that fails can be asked for again; a full one has restarted the
    device or can be asked for again. *)
Lemma failed_reset_repeats e kind s :
  (finish_reset e kind s).2 ≠ "OK" -> busy (finish_reset e kind s).1 = false.
Proof.
  unfold finish_reset. destruct kind; [by destruct (reset_network_to_factory _ _) as [n r]|].
  destruct (factory_reset _ _ _) as [remaining [command [v|err]]]; done.
Qed.

(** ** Witnesses *)

Definition good_net : NetEnv :=
  mkNetEnv (fun _ => true) true true true true true true true true true true true (fun _ => None).
Definition online : Cloud :=
  mkCloud gate_default Connected Online true false (mkCloudConfig "https://c" "https://a" (Some "secret") (Some 7%Z)).
Definition device (c : NetworkConfig) : NetState :=
  mkNetState c (Some (network_config_to_ini c "committed")) None None None "" online 0 [].
Definition at_home : CmdState := mkCmd (device network_default) false {["/userdata/arkkvm/config.json"]} [].
Definition finish_fine : FinishEnv := mkFinish good_net (fun _ => None) (Ok tt).

Abbreviation run steps := (cmd_run id steps (mkClients at_home [])).

Lemma confirmed_name_is_stored_witness :
  hostname (enc (net (dispatch good_net " SET_HOSTNAME = office-kvm" at_home).1)) = Some "office-kvm".
Proof.
  apply (confirmed_name_is_stored good_net " SET_HOSTNAME = office-kvm" at_home (dispatch good_net " SET_HOSTNAME = office-kvm" at_home).1 "office-kvm");
    vm_compute; reflexivity.
Defined.

Lemma one_reset_at_a_time_witness :
  ∃ i k, clients (run [Arrives good_net "FACTORY_RESET"]) !! i = Some (Waiting k).
Proof.
  destruct (proj2 (one_reset_at_a_time id [Arrives good_net "FACTORY_RESET"] (net at_home) (files at_home) good_net "RESET_NETWORK_FACTORY"))
    as [H|[]]; [vm_compute; reflexivity|by left|exact H|vm_compute; reflexivity].
Defined.

(** ** Runs *)

(** A network reset is over before the next begins; after a full reset there is no
    other before the restart. *)
Lemma resets_in_turn :
  clients (run [Arrives good_net "RESET_NETWORK_FACTORY"; Arrives good_net "FACTORY_RESET"; Finishes finish_fine 0;
                Arrives good_net "FACTORY_RESET"; Finishes finish_fine 2; Arrives good_net "RESET_NETWORK_FACTORY"])
  = [Answered "OK"; Answered "ERROR=busy"; Answered "OK"; Answered "ERROR=busy"].
Proof. vm_compute. reflexivity. Qed.

(** ** What the code leaves open *)

(** A line break inside the name passes the checks and writes a line of its own into
    network.conf: here it opens a section, and the domain is lost when the file is
    read. *)
Lemma line_break_writes_settings :
  let name := "kvm" +:+ String LF "[mine]" in
  let s := (dispatch good_net ("SET_HOSTNAME=" +:+ name) at_home).1 in
  valid_hostname name = true /\ domain (enc (net s)) = Some "dhcp"
  /\ ((fun c => (hostname c, domain c)) ∘ ini_to_network_config <$> conf (net s)) = Some (Some "kvm", None).
Proof. split_and!; vm_compute; reflexivity. Qed.

(** Stopped and started again, the old server still waits at a path that leads to
    the new one. *)
Lemma old_server_waits :
  let s := server_binds 1 true (init (uninit (server_binds 0 true (init (mkServer false [] None))))) in
  serving s = [Accepting; Accepting] /\ path s = Some 1%nat.
Proof. by split. Qed.
