(* ===== verification/Audio.v ===== *)
(** * Audio to the browsers (audio.rs, jsonrpc.rs)

    The sinks of the sessions, the task that pipes the packets of the audio service
    to them, its start and stop, and the switch of the interface.  The steps of the
    tasks interleave; the service, the tracks and the file of the configuration
    answer through the steps. *)

From S2P Require Import Prelude Session.

#[local] Set Default Proof Using "Type".

(** ** Sinks *)

Record SinkEntry := mkSink { session_id : string; ssrc : Z; payload_type : Z }.
Abbreviation Sinks := (gmap SessionRole SinkEntry).

Definition attach_webrtc_sink (role : SessionRole) (entry : SinkEntry) (sinks : Sinks) : Sinks := <[role := entry]> sinks.

Definition detach_if_session (role : SessionRole) (sid : string) (sinks : Sinks) : Sinks :=
  match sinks !! role with
  | Some entry => if String.eqb (session_id entry) sid then delete role sinks else sinks
  | None => sinks
  end.

Definition detach_webrtc_sink (role : SessionRole) (sinks : Sinks) : Sinks := delete role sinks.
Definition detach_all_webrtc_sinks (_ : Sinks) : Sinks := ∅.

(** ** Packets: eight bytes of time, then the sound *)

Definition audio_data (payload : list Z) : option (list Z) :=
  if (8 <=? length payload)%nat then match drop 8 payload with [] => None | data => Some data end else None.

(** ** The task and its switch

    A task waits for a packet, or writes what it read to the sinks there were;
    [starting]: starts that wait for their subscription; [delivered]: what tracks
    took. *)

Inductive TaskPc : Type := Waiting | Writing (data : list Z) (entries : list (SessionRole * string)) | Ended.

Record Audio := mkAudio {
  sinks : Sinks; running : bool; tasks : list TaskPc; starting : nat; handle : option nat;
  delivered : list (SessionRole * string * list Z) }.

Definition audio_new : Audio := mkAudio ∅ false [] 0 None [].

Definition set_sinks (s : Sinks) (a : Audio) : Audio := mkAudio s (running a) (tasks a) (starting a) (handle a) (delivered a).
Definition set_task (i : nat) (t : TaskPc) (a : Audio) : Audio :=
  mkAudio (sinks a) (running a) (<[i := t]> (tasks a)) (starting a) (handle a) (delivered a).

(** [start_native_audio] up to the subscription; [enabled]: the switch. *)
Definition start_native_audio (enabled : bool) (a : Audio) : Audio * Result string unit :=
  if negb enabled then (a, Err "Audio playback is disabled")
  else if running a then (a, Ok tt)
  else (mkAudio (sinks a) true (tasks a) (S (starting a)) (handle a) (delivered a), Ok tt).

(** The rest of it; [None]: a subscription that fails is a panic. *)
Definition start_subscribed (subscribes : bool) (a : Audio) : option Audio :=
  if subscribes
  then Some (mkAudio (sinks a) (running a) (tasks a ++ [Waiting]) (pred (starting a)) (Some (length (tasks a))) (delivered a))
  else None.

(** After a panic the flag stays. *)
Definition start_panicked (a : Audio) : Audio := mkAudio (sinks a) (running a) (tasks a) (pred (starting a)) (handle a) (delivered a).

(** The flag, and whose end is waited for, two seconds at most. *)
Definition stop_native_audio (a : Audio) : Audio * option nat :=
  (mkAudio (sinks a) false (tasks a) (starting a) None (delivered a), handle a).

Definition shutdown_native_audio (a : Audio) : Audio := set_sinks (detach_all_webrtc_sinks (sinks a)) (stop_native_audio a).1.

(** A waiting task sees the flag first, then a packet. *)
Definition task_turn (i : nat) (packet : option (list Z)) (a : Audio) : Audio :=
  match tasks a !! i with
  | Some Waiting =>
      if negb (running a) then set_task i Ended a
      else match packet with
           | None => a
           | Some payload =>
               if bool_decide (sinks a = ∅) then a
               else match audio_data payload with
                    | None => a
                    | Some data => set_task i (Writing data ((fun '(role, entry) => (role, session_id entry)) <$> map_to_list (sinks a))) a
                    end
           end
  | _ => a
  end.

(** The next write; one that fails, or takes longer than a second, costs the
    session its sink. *)
Definition task_write (i : nat) (write_ok : bool) (a : Audio) : Audio :=
  match tasks a !! i with
  | Some (Writing data []) => set_task i Waiting a
  | Some (Writing data ((role, sid) :: rest)) =>
      let a := set_task i (Writing data rest) a in
      if write_ok then mkAudio (sinks a) (running a) (tasks a) (starting a) (handle a) (delivered a ++ [(role, sid, data)])
      else set_sinks (detach_if_session role sid (sinks a)) a
  | _ => a
  end.

Inductive AudioStep : Type :=
| Attach (role : SessionRole) (entry : SinkEntry)
| DetachIf (role : SessionRole) (sid : string)
| DetachRole (role : SessionRole)
| Start (enabled : bool)
| Subscribed (subscribes : bool)
| Stop
| Shutdown
| Turn (i : nat) (packet : option (list Z))
| Write (i : nat) (write_ok : bool).

Definition audio_step (st : AudioStep) (a : Audio) : Audio :=
  match st with
  | Attach role entry => set_sinks (attach_webrtc_sink role entry (sinks a)) a
  | DetachIf role sid => set_sinks (detach_if_session role sid (sinks a)) a
  | DetachRole role => set_sinks (detach_webrtc_sink role (sinks a)) a
  | Start enabled => (start_native_audio enabled a).1
  | Subscribed subscribes => match starting a with
                             | O => a
                             | _ => default (start_panicked a) (start_subscribed subscribes a)
                             end
  | Stop => (stop_native_audio a).1
  | Shutdown => shutdown_native_audio a
  | Turn i packet => task_turn i packet a
  | Write i ok => task_write i ok a
  end.

Definition audio_run (steps : list AudioStep) (a : Audio) : Audio := fold_left (fun a st => audio_step st a) steps a.

(** ** The switch of the interface (jsonrpc.rs, config/manager.rs)

    [playback]: the setting in memory, and on disk. *)

Record Playback := mkPlayback { in_memory : bool; on_disk : bool }.

(** [None]: it could not be saved, but is changed in memory. *)
Definition set_emulation_audio_playback (save_ok enabled : bool) (p : Playback) : Playback * option bool :=
  let has_changed := negb (Bool.eqb (in_memory p) enabled) in
  if save_ok then (mkPlayback enabled enabled, Some has_changed) else (mkPlayback enabled (on_disk p), None).

(** What is asked of the engine, if anything, and the answer up to that. *)
Inductive Engine : Set := StartEngine | StopEngine.

Definition set_audio_playback (save_ok enabled : bool) (p : Playback) : Playback * option Engine * Result string unit :=
  match set_emulation_audio_playback save_ok enabled p with
  | (p, None) => (p, None, Err "Failed to set audio playback")
  | (p, Some false) => (p, None, Ok tt)
  | (p, Some true) => (p, Some (if enabled then StartEngine else StopEngine), Ok tt)
  end.

(** * Properties *)

(** Who was attached, and which packets came, in a run. *)
Definition attached (steps : list AudioStep) (role : SessionRole) (sid : string) : Prop :=
  ∃ entry, Attach role entry ∈ steps /\ session_id entry = sid.
Definition came (steps : list AudioStep) (data : list Z) : Prop :=
  ∃ i payload, Turn i (Some payload) ∈ steps /\ audio_data payload = Some data.

Lemma audio_data_some payload data : audio_data payload = Some data -> data = drop 8 payload /\ data ≠ [] /\ (8 < length payload)%nat.
Proof.
  unfold audio_data. destruct (Nat.leb_spec 8 (length payload)); [|done]. destruct (drop 8 payload) as [|b l] eqn:E; [done|].
  intros [= <-]. split_and!; [done..|]. pose proof (f_equal length E) as Hl. rewrite length_drop in Hl. cbn in Hl. lia.
Qed.

Section facts.
Context (A : SessionRole -> string -> Prop) (D : list Z -> Prop).

(** What a state owes to its past. *)
Record owes (a : Audio) : Prop := mkOwes {
  ow_sinks role entry : sinks a !! role = Some entry -> A role (session_id entry);
  ow_tasks data entries : Writing data entries ∈ tasks a -> D data /\ Forall (fun e => A e.1 e.2) entries;
  ow_delivered : Forall (fun d => A d.1.1 d.1.2 /\ D d.2) (delivered a) }.

Lemma owes_sinks s a : owes a -> (∀ role entry, s !! role = Some entry -> A role (session_id entry)) -> owes (set_sinks s a).
Proof. intros [H1 H2 H3] Hs. by split. Qed.

Lemma owes_task i t a : owes a -> (∀ data entries, t = Writing data entries -> D data /\ Forall (fun e => A e.1 e.2) entries) -> owes (set_task i t a).
Proof.
  intros [H1 H2 H3] Ht. split; cbn; [done| |done]. intros data entries Hin.
  apply list_elem_of_lookup in Hin as [k Hk]. destruct (decide (k = i)) as [->|Hne].
  - destruct (decide (i < length (tasks a))%nat).
    + rewrite list_lookup_insert_eq in Hk by done. injection Hk as ->. by apply Ht.
    + rewrite list_insert_ge in Hk by lia. eapply H2, list_elem_of_lookup_2, Hk.
  - rewrite list_lookup_insert_ne in Hk by done. eapply H2, list_elem_of_lookup_2, Hk.
Qed.

Lemma detached_from role sid s r e : detach_if_session role sid s !! r = Some e -> s !! r = Some e.
Proof.
  unfold detach_if_session. destruct (s !! role) as [x|]; [|done]. destruct (String.eqb _ _); [|done]. by intros [_ H]%lookup_delete_Some.
Qed.

Lemma owes_step st a :
  (∀ role entry, st = Attach role entry -> A role (session_id entry)) ->
  (∀ i payload data, st = Turn i (Some payload) -> audio_data payload = Some data -> D data) ->
  owes a -> owes (audio_step st a).
Proof.
  intros Ha Hd Ho. pose proof Ho as [H1 H2 H3]. destruct st; cbn [audio_step].
  - apply owes_sinks; [done|]. intros r e. unfold attach_webrtc_sink. rewrite lookup_insert. case_decide; [subst; intros [= <-]; by apply Ha|apply H1].
  - apply owes_sinks; [done|]. intros r e Hr%detached_from. by apply H1.
  - apply owes_sinks; [done|]. intros r e. unfold detach_webrtc_sink. intros [_ Hr]%lookup_delete_Some. by apply H1.
  - unfold start_native_audio. destruct (negb enabled); [done|]. by destruct (running a); [|split].
  - destruct (starting a); [done|]. unfold start_subscribed. destruct subscribes; cbn; [|by split].
    split; cbn; [done| |done]. intros data entries [Hin|Hin%list_elem_of_singleton]%elem_of_app; [by apply H2|done].
  - by split.
  - apply owes_sinks; [by split|]. intros r e. unfold detach_all_webrtc_sinks. by rewrite lookup_empty.
  - unfold task_turn. destruct (tasks a !! i) as [[|d l|]|]; try done. destruct (negb (running a)); [by apply owes_task|].
    destruct packet as [payload|]; [|done]. case_bool_decide; [done|]. destruct (audio_data payload) as [data|] eqn:E; [|done].
    apply owes_task; [done|]. intros data' entries [= <- <-]. split; [by eapply Hd|]. apply Forall_forall. intros [r sid] Hin.
    apply list_elem_of_fmap in Hin as ([r' e] & [= -> ->] & Hin). apply elem_of_map_to_list in Hin. cbn. by apply H1.
  - unfold task_write. destruct (tasks a !! i) as [[|data [|[role sid] rest]|]|] eqn:E; try done; [by apply owes_task|].
    apply list_elem_of_lookup_2, H2 in E as [HD [HA Hrest]%Forall_cons].
    assert (owes (set_task i (Writing data rest) a)) as Ht by (apply owes_task; [done|]; by intros d l [= <- <-]).
    destruct write_ok.
    + destruct Ht as [T1 T2 T3]. split; cbn; [done|done|]. apply Forall_app. split; [done|]. by constructor.
    + apply owes_sinks; [done|]. intros r e Hr%detached_from. by apply H1.
Qed.

Lemma owes_run steps a :
  (∀ role entry, Attach role entry ∈ steps -> A role (session_id entry)) ->
  (∀ i payload data, Turn i (Some payload) ∈ steps -> audio_data payload = Some data -> D data) ->
  owes a -> owes (audio_run steps a).
Proof.
  unfold audio_run. revert a. induction steps as [|st l IH]; intros a Ha Hd Ho; [done|]. cbn [fold_left]. apply IH.
  - intros r e Hin. apply Ha. by right.
  - intros i p d Hin. apply (Hd i). by right.
  - apply owes_step; [| |done].
    + intros r e ->. apply Ha. by left.
    + intros i p d ->. apply (Hd i). by left.
Qed.
End facts.

(** Over every interleaving of sessions, starts, stops and tasks, what a track
    is given is the sound of a packet that came, without its time and never
    empty, and the session was attached for that role. *)
Theorem sound_reaches_sessions_only steps role sid data :
  (role, sid, data) ∈ delivered (audio_run steps audio_new) ->
  attached steps role sid /\ ∃ i payload, Turn i (Some payload) ∈ steps /\ data = drop 8 payload /\ data ≠ [].
Proof.
  intros Hin. assert (owes (attached steps) (came steps) (audio_run steps audio_new)) as [_ _ H3].
  { apply owes_run; [intros r e He; by exists e|intros i p d Hp Hd; by exists i, p|].
    split; cbn; [intros r e; by rewrite lookup_empty|by intros d l []%elem_of_nil|constructor]. }
  rewrite Forall_forall in H3. apply H3 in Hin as [Ha (i & payload & Hp & Hd)]. split; [exact Ha|]. exists i, payload. split; [exact Hp|].
  cbn in Hd. apply audio_data_some in Hd as (-> & Hne & _). split; [reflexivity|exact Hne].
Qed.

(** A write that fails takes the sink of its session only. *)
Lemma failed_write_detaches_its_session i a role sid data rest :
  tasks a !! i = Some (Writing data ((role, sid) :: rest)) ->
  sinks (task_write i false a) = detach_if_session role sid (sinks a) /\ delivered (task_write i false a) = delivered a
  /\ ∀ entry, sinks a !! role = Some entry -> session_id entry ≠ sid -> sinks (task_write i false a) = sinks a.
Proof.
  intros Ht. unfold task_write. rewrite Ht. cbn. split_and!; [done..|]. intros entry He Hne. unfold detach_if_session. rewrite He.
  by rewrite (proj2 (String.eqb_neq _ _) Hne).
Qed.

Definition sound_run : list AudioStep :=
  [Attach User (mkSink "s1" 7 111); Start true; Subscribed true; Turn 0 (Some [0; 0; 0; 0; 0; 0; 0; 1; 42]%Z); Write 0 true].

Lemma sound_reaches_sessions_only_witness : attached sound_run User "s1".
Proof. apply (sound_reaches_sessions_only sound_run User "s1" [42]%Z). vm_compute. by left. Defined.

(** ** What the code leaves open *)

(** Switched off and on again before the task has looked at the flag, two tasks
    pipe: every packet goes out twice. *)
Lemma quick_restart_doubles_the_sound :
  let packet := Some [0; 0; 0; 0; 0; 0; 0; 1; 42]%Z in
  let steps := [Attach User (mkSink "s1" 7 111); Start true; Subscribed true; Stop; Start true; Subscribed true;
                Turn 0 packet; Turn 1 packet; Write 0 true; Write 1 true] in
  delivered (audio_run steps audio_new) = [(User, "s1", [42]%Z); (User, "s1", [42]%Z)].
Proof. vm_compute. reflexivity. Qed.

(** After a subscription that failed, a start does nothing and says that it worked. *)
Lemma failed_start_sticks :
  let a := audio_run [Start true; Subscribed false] audio_new in
  start_native_audio true a = (a, Ok tt) /\ tasks a = [] /\ starting a = 0%nat.
Proof. vm_compute. by split_and!. Qed.

(** A switch that could not be saved is taken for made when it is asked for
    again: the request succeeds and the engine is not started. *)
Lemma unsaved_switch_not_repeated :
  let p := mkPlayback false false in
  let '(p1, e1, r1) := set_audio_playback false true p in
  (e1, r1) = (None, Err "Failed to set audio playback") /\ set_audio_playback true true p1 = (mkPlayback true true, None, Ok tt).
Proof. by split. Qed.
