(* ===== verification/Witnesses.v ===== *)
(** * Concrete instances: sessions, control, configuration, authentication

    Each lemma applies a theorem of the development at concrete values, with
    its hypotheses checked by evaluation. *)

From S2P Require Import Prelude.
From S2P Require Import StateLaws.
From S2P Require Import Session.
From S2P Require Import AppState.
From S2P Require Import IpForward.
From S2P Require Import ControlLease.
From S2P Require Import LeaseProofs.
From S2P Require Import SessionPlane.
From S2P Require Import PlaneProofs.
From S2P Require Import JsonRpc.
From S2P Require Import UsbPrefs.
From S2P Require Import Config.
From S2P Require Import ConfigProofs.
From S2P Require Import Persist.
From S2P Require Import Auth.
From S2P Require Import Auth.
From S2P Require Import Signaling.

(** ** Sessions and control *)

Definition uuid_of (n : nat) : string := pretty n.

#[export] Instance uuid_of_inj : Inj eq eq uuid_of.
Proof. unfold uuid_of. apply _. Qed.

Definition alice : Session := mkSession 1 "u" User (Some 11%nat) false None.
Definition robot : Session := mkSession 2 "a" Agent (Some 12%nat) false None.

(** The user and the agent are connected and the user has control. *)
Definition app0 : AppState :=
  mkAppState {["u" := alice; "a" := robot]} {[User := "u"; Agent := "a"]} ∅ ∅.
Definition w_idle : World := mkWorld app_new control_default 0 0 0 true ∅ [] [] 0.
Definition w_user : World := mkWorld app0 (mkControl (Some User) None) 0 0 0 true ∅ [] [] 0.
Definition p_user : Plane := mkPlane w_user ∅ ∅ ∅ [] [] [] true.

(** The agent asks for control. *)
Definition acts0 : list LeaseAct := [ActClaim User false false true; ActRequest Agent true true].
Definition w_asked : World := lease_run uuid_of acts0 w_idle.
Definition asked : PendingRequest :=
  mkPending (uuid_of 0) Agent GrantRequester 0 120000 "humanHasControl".

Lemma w_asked_inv : LeaseInv uuid_of w_asked.
Proof. apply lease_run_inv, fresh_inv; try apply _; reflexivity. Qed.

Lemma w_asked_pending : pending (lease w_asked) = Some asked.
Proof. vm_compute. reflexivity. Qed.

Lemma arbitration_well_formed_witness :
  ∃ o, owner (lease (lease_run uuid_of acts0 w_idle)) = Some o /\ requester asked ≠ o.
Proof.
  destruct (arbitration_well_formed uuid_of w_idle acts0 asked eq_refl eq_refl w_asked_pending)
    as (o & H1 & H2 & _).
  by exists o.
Defined.

Lemma lease_refines_arbiter_witness :
  arbiter_of (lease (lease_act uuid_of ActTakeOver w_asked))
  = arb_next (abs_event w_asked ActTakeOver) (arbiter_of (lease w_asked)).
Proof. exact (lease_refines_arbiter uuid_of ActTakeOver w_asked w_asked_inv). Defined.

Lemma user_to_agent_causes_witness :
  let a := ActResolve User None true in
  owner (lease w_asked) = Some User /\ owner (lease (lease_act uuid_of a w_asked)) = Some Agent
  /\ ∃ p, pending (lease w_asked) = Some p /\ requester p = Agent.
Proof.
  intros a. split; [reflexivity|]. split; [vm_compute; reflexivity|].
  destruct (user_to_agent_causes uuid_of w_asked a w_asked_inv eq_refl) as (_ & _ & H);
    [vm_compute; reflexivity|exact H].
Defined.

Lemma silence_grants_agent_witness :
  ∃ i, lease (lease_run uuid_of [ActTick 120000; ActTimeout i true] w_asked)
       = mkControl (Some Agent) None.
Proof.
  apply (silence_grants_agent uuid_of w_asked asked 120000 w_asked_inv w_asked_pending);
    [reflexivity|vm_compute; discriminate].
Defined.

(** The user denies; the timer of the old request then does nothing. *)
Definition w_denied : World := lease_act uuid_of (ActResolve User None false) w_asked.

Lemma stale_timer_inert_witness :
  retired uuid_of (uuid_of 0) w_denied
  /\ on_timeout_locked 0 (uuid_of 0) true w_denied = (w_denied, None).
Proof.
  assert (Hr : retired uuid_of (uuid_of 0) w_denied).
  { split; [exists 0%nat; split; [vm_compute; lia|reflexivity]|]. intros p Hp. vm_compute in Hp. done. }
  split; [exact Hr|]. exact (stale_timer_inert uuid_of w_denied (uuid_of 0) [] 0 true Hr).
Defined.

Definition w_claimed : World :=
  set_lease (mkControl (Some User) None)
    (set_app (claim_role_slot alice (add_session alice app_new).1.1).1
       (set_app (add_session alice app_new).1.1 w_idle)).

Lemma hid_gate_exclusive_witness :
  allows_hid w_claimed "u" = true /\ (allows_hid w_claimed "a" = true -> "a" = "u").
Proof.
  assert (H : allows_hid w_claimed "u" = true) by (vm_compute; reflexivity).
  split; [exact H|].
  refine (proj1 (hid_gate_exclusive [("u", User); ("u", User)] w_idle w_claimed "u" "a" eq_refl _ _ H)).
  - eapply (plane_run_cons (Some _) [_]); [apply (ws_register alice)|].
    eapply (plane_run_cons (Some _) []); [apply (ws_claim alice)|].
    apply (plane_run_cons None [] _ w_claimed); [apply ws_other; reflexivity|constructor].
  - intros id r r' H1 H2. rewrite !elem_of_cons, elem_of_nil in H1, H2.
    destruct H1 as [[= -> ->]|[[= -> ->]|[]]], H2 as [[= ->]|[[= ->]|[]]]; reflexivity.
Defined.

Lemma removal_is_complete_witness :
  ∃ p', remove_session "u" p_user = (p', Some alice) /\ allows_hid (world p') "u" = false.
Proof.
  eexists. split; [reflexivity|].
  eapply (removal_is_complete "u" p_user _ alice). reflexivity.
Defined.

Lemma stale_callback_harmless_witness :
  session_owns_peer (papp p_user) "u" 99 = false
  /\ remove_and_close_session_for_peer true "u" 99 p_user = (p_user, false).
Proof.
  split; [reflexivity|].
  exact (proj2 (stale_callback_harmless true "u" User 99 true IceClosed p_user eq_refl)).
Defined.

Lemma user_claim_outcome_witness :
  ∃ p' previous, claim_and_activate_session alice p_user = (p', Accepted previous)
                 /\ role_sessions (papp p') !! User = Some "u".
Proof.
  destruct (user_claim_outcome alice p_user eq_refl) as (p' & prev & H1 & H2 & _); [reflexivity|].
  exists p', prev. split; [exact H1|exact H2].
Defined.

Lemma take_over_gives_control_witness :
  let '(w', r) := take_over_control "u" w_user in is_ok r = true /\ allows_hid w' "u" = true.
Proof.
  pose proof (take_over_gives_control w_user alice eq_refl eq_refl eq_refl) as H.
  change (session_id alice) with "u" in H.
  destruct (take_over_control "u" w_user) as [w' r]. destruct H as (H1 & H2 & _). split; assumption.
Defined.

(** ** JSON-RPC *)

(** Values are strings; a message is a request. *)
Definition keyboard_request : JsonRpcRequest (V := string) :=
  mkRequest "keyboardReport" None (Some "1").

Lemma hid_denied_has_no_effect_witness :
  allows_hid w_user "a" = false
  /\ handle_input_message Some (fun _ => None) keyboard_request "a" w_user = note_hid_denied w_user.
Proof.
  split; [reflexivity|].
  exact (proj1 (hid_denied_has_no_effect Some (fun _ => None) keyboard_request "a" keyboard_request
                  w_user eq_refl eq_refl eq_refl)).
Defined.

Definition w_conflict : World :=
  mkWorld app0 (mkControl (Some User) (Some asked)) 0 1 0 true ∅ [] [] 0.

Lemma self_grant_denied_witness :
  ∃ e, handle_message (fun _ : unit => Some (mkRequest "grantControl" (None : option string) (Some "1")))
         (control_registry uuid_of (fun _ => "") (fun _ => None)) tt "a" w_conflict
       = (w_conflict, Some (error_response e (Some "1"))).
Proof.
  destruct (self_grant_denied uuid_of (fun _ => "") (fun _ => None)
              (fun _ => Some (mkRequest "grantControl" (None : option string) (Some "1")))
              "a" robot asked "1" None w_conflict) as (e & H & _);
    [reflexivity|reflexivity|reflexivity|reflexivity|discriminate|].
  exists e. exact H.
Defined.

(** ** Signaling *)

Definition env_ok : OfferEnv := mkOffer (Some (3%nat, 13%nat)) true true true.

Lemma offers_leave_no_orphan_witness :
  sessions (papp p_user) !! "new" = None
  /\ match handle_webrtc_session env_ok "new" (Some "user") (Some User) p_user with
     | (p', Ok _) => ∃ role, parse_client_type (Some "user") = Ok role /\ holds_slot p' "new" role
     | (p', Err _) => sessions (papp p') !! "new" = None
     end.
Proof.
  split; [reflexivity|].
  exact (proj1 (offers_leave_no_orphan env_ok "new" (Some "user") (Some User) None "c" None p_user eq_refl)).
Defined.

Lemma bound_socket_keeps_role_witness :
  ws_upgrade (Some "agent") (Some Agent) = Ok (Some Agent)
  /\ ws_offer_role (Some Agent) (Some "agent") = Ok (Some Agent) /\ Agent = Agent.
Proof.
  split; [reflexivity|]. split; [reflexivity|].
  apply (bound_socket_keeps_role "agent" Agent (Some Agent) (Some "agent") Agent); reflexivity.
Defined.

(** ** Configuration *)

Definition c_password : Config :=
  mkConfig (Some "hash") "password" empty_slot empty_slot [] [] 64 120 1800 false false
    (Pref.prefs_default "") (Some false) None.

Lemma c_password_valid : config_valid c_password.
Proof. split; cbn; [unfold MAX_MACROS_PER_DEVICE; lia|constructor|lia|set_solver]. Qed.

Lemma disk_always_valid_witness :
  config_valid (disk (config_run (fun _ => true) [(OpSetAuthMode "noPassword", true)]
                        (Config.mkManager c_password c_password))).
Proof.
  apply (proj1 (disk_always_valid (fun _ => true) (Config.mkManager c_password c_password) c_password_valid)).
Defined.

(** A sealed configuration as one number. *)
#[local] Instance slot_eq_dec : EqDecision AuthSlot.
Proof. solve_decision. Qed.
#[local] Instance slot_countable : Countable AuthSlot.
Proof.
  apply (inj_countable' (fun s => (auth_token s, csrf_token s, expires_at s))
           (fun '(a, b, c) => mkSlot a b c)). by intros [].
Qed.
#[local] Instance wol_eq_dec : EqDecision WakeOnLanDevice.
Proof. solve_decision. Qed.
#[local] Instance wol_countable : Countable WakeOnLanDevice.
Proof.
  apply (inj_countable' (fun s => (wol_name s, mac_address s, broadcast_address s, wol_port s))
           (fun '(a, b, c, d) => mkWol a b c d)). by intros [].
Qed.
#[local] Instance step_eq_dec : EqDecision KeyboardMacroStep.
Proof. solve_decision. Qed.
#[local] Instance step_countable : Countable KeyboardMacroStep.
Proof.
  apply (inj_countable' (fun s => (keys s, modifiers s, delay s)) (fun '(a, b, c) => mkStep a b c)).
  by intros [].
Qed.
#[local] Instance macro_eq_dec : EqDecision KeyboardMacro.
Proof. solve_decision. Qed.
#[local] Instance macro_countable : Countable KeyboardMacro.
Proof.
  apply (inj_countable' (fun s => (macro_id s, macro_name s, steps s, sort_order s))
           (fun '(a, b, c, d) => mkMacro a b c d)). by intros [].
Qed.
#[local] Instance media_eq_dec : EqDecision VirtualMediaItem.
Proof. solve_decision. Qed.
#[local] Instance media_countable : Countable VirtualMediaItem.
Proof.
  apply (inj_countable' (fun s => (vm_name s, vm_url s, vm_icon_key s)) (fun '(a, b, c) => mkMedia a b c)).
  by intros [].
Qed.
#[local] Instance config_eq_dec : EqDecision Config.
Proof. solve_decision. Qed.
#[local] Instance config_countable : Countable Config.
Proof.
  apply (inj_countable'
    (fun c => (hashed_password c, local_auth_mode c, user_slot c, agent_slot c, wake_on_lan_devices c,
               keyboard_macros c,
               (display_max_brightness c, display_dim_after_sec c, display_off_after_sec c,
                cfg_mcp_enabled c, cfg_ssh_forwarding_enabled c, cfg_usb c,
                microphone_emulation c, virtual_media_list c)))
    (fun '(a, b, c, d, e, f, (g, h, i, j, k, l, m, n)) => mkConfig a b c d e f g h i j k l m n)).
  by intros [].
Qed.

Definition seal (_ : nat) (c : Config) : list Z := [Z.pos (encode c)].
Definition unseal (b : list Z) : option Config :=
  match b with [Z.pos p] => decode p | _ => None end.

Lemma unseal_seal n c : unseal (seal n c) = Some c.
Proof. apply decode_encode. Qed.
Lemma seal_nonempty n c : seal n c ≠ [].
Proof. done. Qed.

Definition files0 : Files := mkFiles (Some (seal 0 c_password)) None None.

Lemma files0_loads : load_from_file unseal (primary files0) = Some c_password.
Proof. apply (load_encoded seal unseal unseal_seal seal_nonempty 0), c_password_valid. Qed.

(** The program ends while the temporary file is half written. *)
Lemma save_crash_safe_witness :
  let cut := mkSaves true good_write true (mkWrite true [0%nat] true) true in
  let '(fs', _) := after 8 (save_file seal cut 1 c_password) files0 in
  tmp fs' = Some [] /\ (load unseal id fs').2 = c_password.
Proof.
  intros cut. split; [reflexivity|].
  destruct (save_crash_safe seal unseal unseal_seal seal_nonempty id cut 1 c_password c_password files0
              c_password_valid files0_loads) as [H _].
  destruct (H 8%nat) as [G|G]; exact G.
Defined.

Lemma load_recovers_from_backup_witness :
  let fs := mkFiles (Some [0%Z]) (Some (seal 0 c_password)) None in
  (load unseal (fun b => b) fs).2 = c_password.
Proof.
  intros fs.
  pose proof (load_recovers_from_backup seal unseal unseal_seal seal_nonempty 0 c_password fs [0%Z] None
                c_password_valid eq_refl eq_refl eq_refl) as H.
  destruct (load unseal (fun b => b) fs) as [fs' c]. exact (proj1 H).
Defined.

(** ** Authentication *)

Definition http0 (user csrf : option string) : HttpRequest :=
  mkHttp POST "" (Some "kvm.local") None None None user None csrf None false.
Definition henv0 : HttpEnv := mkEnv 1000 "tok" "csrf" true true true.
Definition hash0 (p : string) : option string := Some ("h" +:+ p).
Definition verify0 (p h : string) : bool := String.eqb h "hash".
Definition cm0 : ConfigManager := Config.mkManager c_password c_password.

Lemma login_opens_session_witness :
  ∃ s', serve hash0 verify0 henv0 (http0 None None) (RLogin "pw" None) cm0
        = (s', Ok (mkApi "Login successful" (Some (User, "tok")) (Some "csrf"))).
Proof.
  destruct (login_opens_session hash0 verify0 henv0 (http0 None None) "pw" None User cm0
              c_password_valid eq_refl) as (s' & H & _);
    [reflexivity|reflexivity|reflexivity|reflexivity|discriminate|discriminate|reflexivity|].
  exists s'. exact H.
Defined.


Definition c_logged_in : Config :=
  mkConfig (Some "hash") "password" (mkSlot (Some "tok") (Some "csrf") (Some 900000%Z)) empty_slot [] []
    64 120 1800 false false (Pref.prefs_default "") (Some false) None.
Definition cm1 : ConfigManager := Config.mkManager c_logged_in c_logged_in.

Lemma logout_revokes_witness :
  let '(s', r) := serve hash0 verify0 henv0 (http0 (Some "tok") (Some "csrf")) RLogout cm1 in
  is_ok r = true /\ validate_auth_token_for_role 1001 User "tok" (mem s') = false.
Proof.
  destruct (serve hash0 verify0 henv0 (http0 (Some "tok") (Some "csrf")) RLogout cm1) as [s' r] eqn:E.
  assert (Hr : is_ok r = true) by (apply (f_equal snd) in E; vm_compute in E; by subst).
  split; [exact Hr|]. destruct r as [resp|]; [|discriminate Hr].
  refine (proj1 (logout_revokes hash0 verify0 henv0 (http0 (Some "tok") (Some "csrf")) cm1 s' resp User _ eq_refl eq_refl E 1001 "tok")).
  split; cbn; [unfold MAX_MACROS_PER_DEVICE; lia|constructor|lia|set_solver].
Defined.

Lemma setup_without_password_locks_out_witness :
  let '(s1, res) := serve hash0 verify0 henv0 (http0 None None)
                      (RSetup (mkSetupEnv true true true true) (mkSetup "password" None None))
                      (Config.mkManager config_default config_default) in
  res = Err (BadRequest, "Password is required for password mode").
Proof.
  pose proof (setup_without_password_locks_out hash0 verify0 henv0 (mkSetupEnv true true true true)
    (http0 None None) None None (Config.mkManager config_default config_default) []
    eq_refl eq_refl (or_introl eq_refl) eq_refl eq_refl eq_refl eq_refl) as H.
  destruct (serve _ _ _ _ _ _) as [s1 res]. exact (proj1 H).
Defined.

(** ** Tickets *)

Definition ticket0 : PendingTicket := mkTicket "u" (mkForwardParams "10.0.0.2" 22 Tcp) 5000.

Lemma ticket_single_use_witness :
  consume 0 0 "ipfwd-1" "u" {["ipfwd-1" := ticket0]} = (∅, Ok (tk_params ticket0))
  /\ ∃ e, (consume 1 1 "ipfwd-1" "u" ∅).2 = Err e.
Proof.
  assert (H : consume 0 0 "ipfwd-1" "u" {["ipfwd-1" := ticket0]} = (∅, Ok (tk_params ticket0)))
    by (vm_compute; reflexivity).
  split; [exact H|]. exact (proj2 (ticket_single_use 0 0 1 1 _ _ "u" _ _ _ H)).
Defined.

Lemma ticket_bound_to_session_witness :
  ∃ e, (consume 0 0 "ipfwd-1" "a" {["ipfwd-1" := ticket0]}).2 = Err e.
Proof.
  refine (proj1 (ticket_bound_to_session 0 0 "ipfwd-1" "a" {["ipfwd-1" := ticket0]} ticket0 _ _));
    [reflexivity|discriminate].
Defined.
