(* ===== verification/UsbWitnesses.v ===== *)
(** * Concrete instances: the USB service

    Each lemma applies a theorem on the USB service at concrete values, with a
    world in which every system call succeeds. *)

From S2P Require Import Prelude.
From S2P Require Import Hid.
From S2P Require Import Gadget.
From S2P Require Import Ums.
From S2P Require Import Uac.
From S2P Require Import NetAdapter.
From S2P Require Import Manager.
From S2P Require Import ManagerProofs.
From S2P Require Import UsbControl.
From S2P Require Import UsbControlProofs.

(** The image is there, the LUN attribute and the device nodes are found. *)
Definition ums_ok : UmsEnv := mkUmsEnv (fun _ => true) (Ok "/lun/file") true (Ok tt).
Definition net_ok : NetEnv := mkNetEnv (fun _ => Some "usb0") (fun _ => true) true (fun _ => true).
Definition good_world (_ : nat) : World DevEnv :=
  mkWorld (mkDevEnv ums_ok ums_ok true (Some "/dev/hidg0") (Some "/dev/hidg1") (Some "/dev/hidg2") net_ok)
    true (Ok tt) (Ok tt) (Ok tt) (Ok tt).

Definition id_perm (l : list Service) : id l ≡ₚ l := Permutation_refl l.

(** Keyboard, virtual media and an RNDIS adapter. *)
Definition switches0 : DeviceSwitches :=
  mkSwitches true false false true false false false (Some (mkNetSwitch true 1)).
Definition ops0 : list (MOp (H := DeviceService)) := [MApply None (Some switches0); MEmulate true].

Local Abbreviation m0 := (mrun good_world id ops0 (manager_new some_base)).

Lemma m0_bound : is_Some (active_gadget m0).
Proof. vm_compute. eauto. Qed.

Lemma bound_gadget_matches_switches_witness :
  ∃ g, active_gadget m0 = Some g /\ ((gadget_eps g).1 <= 6)%Z /\ ((gadget_eps g).2 <= 5)%Z.
Proof.
  destruct m0_bound as [g Hg]. exists g. split; [exact Hg|].
  exact (proj2 (proj2 (bound_gadget_matches_switches good_world id id_perm ops0 some_base g Hg))).
Defined.

Lemma switch_change_atomic_witness :
  let sw := mkSwitches true false false false false false false None in
  match apply_switches good_world id None (Some sw) m0 with
  | (m', Ok _) => m_switches m' = sw
  | (m', Err _) => m_switches m' = m_switches m0
  end.
Proof.
  intros sw. pose proof (switch_change_atomic good_world id id_perm ops0 some_base None (Some sw)) as H.
  cbv zeta in H.
  destruct (apply_switches good_world id None (Some sw) m0) as [m' [[]|]].
  - exact (proj1 (proj2 H)).
  - exact (proj1 (proj2 H)).
Defined.

Lemma teardown_only_when_quiet_witness :
  let '(m', r) := request_change_approval good_world m0 in
  r = Ok tt /\ ∀ s h, device_services m' !! s = Some h -> device_quiet h.
Proof.
  pose proof (teardown_only_when_quiet good_world id id_perm ops0 some_base) as H.
  assert (Hr : (request_change_approval good_world m0).2 = Ok tt) by (vm_compute; reflexivity).
  cbv zeta in H. destruct (request_change_approval good_world m0) as [m' r]. cbn in Hr. subst r.
  split; [reflexivity|exact (proj2 H)].
Defined.

Lemma m0_idle s h : device_services m0 !! s = Some h -> dev_updating h = false.
Proof.
  intros Hs. destruct s; vm_compute in Hs; injection Hs as <-; reflexivity.
Qed.

Lemma devices_resume_after_change_witness :
  let m := (apply_switches good_world id None (Some switches0) m0).1 in
  is_Some (device_services m !! HID_KB_SERVICE)
  /\ ∀ s h, device_services m !! s = Some h -> dev_updating h = false.
Proof.
  split; [vm_compute; eauto|].
  exact (devices_resume_after_change good_world id id_perm ops0 some_base None (Some switches0)
           m0_idle (fun _ => eq_refl)).
Defined.

(** ** The control service *)

Definition info0 : UsbDeviceInfo := mkUsbInfo (Some switches0) VM_DISK "/images/a.iso" "" None.

Lemma control_service_refines_manager_witness :
  let c := control_run good_world id [Apply info0; SetUsbEmulationState true]
             (mkControl (manager_new some_base) None) in
  is_Some (active_gadget (manager c))
  /\ ∀ g, active_gadget (manager c) = Some g -> ((gadget_eps g).1 <= 6)%Z.
Proof.
  intros c. split; [vm_compute; eauto|]. intros g Hg.
  exact (proj1 (proj2 (proj2 (control_service_refines_manager good_world id id_perm
    [Apply info0; SetUsbEmulationState true] some_base) g Hg))).
Defined.

Lemma vm_mount_visible_witness :
  let '(m', r) := ums_vm_mount good_world id "/images/a.img" VM_DISK m0 in
  ur_ok r = true /\ ums_vm_mount_state m' = mkUmsResp true None true "/images/a.img" VM_DISK.
Proof.
  destruct (ums_vm_mount good_world id "/images/a.img" VM_DISK m0) as [m' r] eqn:E.
  assert (Hr : ur_ok r = true) by (apply (f_equal snd) in E; vm_compute in E; by subst).
  split; [exact Hr|]. exact (vm_mount_visible good_world id "/images/a.img" VM_DISK m0 m' r E Hr).
Defined.

(** ** Devices *)

Definition kb0 : HidKbHandle := hid_new true.

Lemma reports_flow_after_change_witness :
  written (drain (fun _ => true) (fold_left (fun h d => submit d h) [[0%Z]; [1%Z]]
             (on_change_request (Some "/dev/hidg0") ChangeCompleted kb0).1))
  = [("/dev/hidg0", [0%Z]); ("/dev/hidg0", [1%Z])].
Proof.
  exact (reports_flow_after_change (fun _ => true) ChangeCompleted "/dev/hidg0" kb0 [[0%Z]; [1%Z]]
           (or_introl eq_refl) eq_refl eq_refl eq_refl).
Defined.

Definition raw0 : RawLease :=
  mkRaw 3600 2886729828 [17; 34; 51; 68; 85; 102]%Z (112%Z :: 99%Z :: replicate 18 0%Z) [0; 0]%Z.

Lemma lease_file_roundtrip_witness :
  parse_lease_file (replicate 8 7%Z ++ encode_lease raw0)
  = [mkEntry 2886729828 [17; 34; 51; 68; 85; 102]%Z "pc" 3600].
Proof.
  destruct (lease_file_roundtrip (replicate 8 7%Z) [raw0]) as [H _]; [reflexivity| |].
  - constructor; [|constructor]. unfold raw_ok; cbn; split_and!; lia.
  - cbn [fmap list_fmap List.concat] in H. rewrite app_nil_r in H. rewrite H. vm_compute. reflexivity.
Defined.


Definition turns0 : list UacTurn :=
  [TCmd (UacSyncState true true) true; TDied 0; TTimeout Exited true].

Lemma mic_single_process_witness :
  plausible_run turns0 mic_new
  /\ ∀ p q, p ∈ alive (uac_run turns0 mic_new) -> q ∈ alive (uac_run turns0 mic_new) -> p = q.
Proof.
  assert (H : plausible_run turns0 mic_new).
  { cbn. split_and!; try done. }
  split; [exact H|]. exact (proj1 (mic_single_process turns0 H)).
Defined.
