(* ===== verification/StorageWitnesses.v ===== *)
(** * Concrete instances: image files, remote images, uploads

    Each lemma applies a theorem of the development at concrete values, with
    its hypotheses checked by evaluation. *)

From S2P Require Import Prelude Text Paths RangeReader Nbd Uploads.

(** ** A remote image of two bytes *)

Definition tiny_image : list Z := [7; 8]%Z.
Definition tiny_probe (k : nat) : option HttpResponse :=
  Some (mkResponse 206 (Some "bytes 0-0/2") [Chunk [7]%Z]).

(** A server that answers the whole image and nothing else. *)
Definition tiny_server (seq : Z) (k : nat) (off end_ : Z) : option HttpResponse :=
  if ((off =? 0) && (end_ =? 1))%Z
  then Some (mkResponse 206 (Some "bytes 0-1/2") [Chunk [7]%Z; Chunk [8]%Z]) else None.

Lemma tiny_server_honest : honest tiny_server tiny_image.
Proof.
  intros seq k off end_ resp s e t. unfold tiny_server.
  destruct (Z.eqb_spec off 0) as [->|]; [|done]. destruct (Z.eqb_spec end_ 1) as [->|]; [|done].
  intros [= <-]. assert (Hp : parse_content_range "bytes 0-1/2" = Some (0, 1, 2)%Z) by reflexivity.
  cbn [content_range mbind option_bind]. rewrite Hp. intros [= <- <- <-] _.
  split; [done|]. by exists 2%nat.
Defined.

Lemma tiny_fits : fits 32 tiny_image.
Proof. by split. Defined.

Definition tiny_reader : HttpRangeReader := mkReader 0 prefetch_new.

Lemma tiny_reader_new : reader_new "http://host/a.iso" tiny_probe = Ok (2%Z, tiny_reader).
Proof. reflexivity. Qed.

(** The second read is answered from the cache. *)
Lemma http_reads_equal_image_witness :
  http_reads 32 tiny_server tiny_image [(0%Z, 2%nat); (0%Z, 2%nat)] tiny_reader !! 1%nat = Some (Ok [7; 8]%Z)
  /\ ∃ off want, [(0%Z, 2%nat); (0%Z, 2%nat)] !! 1%nat = Some (off, want)
                 /\ [7; 8]%Z = slice tiny_image off want /\ length [7; 8]%Z = want.
Proof.
  assert (H : http_reads 32 tiny_server tiny_image [(0%Z, 2%nat); (0%Z, 2%nat)] tiny_reader !! 1%nat
              = Some (Ok [7; 8]%Z)) by (vm_compute; reflexivity).
  split; [exact H|].
  apply (http_reads_equal_image 32 tiny_server tiny_image tiny_server_honest tiny_fits
           "http://host/a.iso" tiny_probe tiny_reader _ 1 [7; 8]%Z tiny_reader_new); [|exact H].
  assert (Hb : block_read tiny_image 0 2) by (split_and!; [done|lia|done|by exists 0%Z|by right]).
  constructor; [exact Hb|constructor; [exact Hb|constructor]].
Defined.

Lemma nbd_serves_http_image_witness :
  ∃ off len, [(0%Z, Z.to_nat 4096)] !! 0%nat = Some (off, len)
    /\ [7; 8]%Z ++ zeros 4094 = slice (tiny_image ++ zeros 4094) off len.
Proof.
  apply (nbd_serves_http_image 32 tiny_server tiny_image "http://host/a.iso" tiny_probe tiny_reader
           [(0%Z, Z.to_nat 4096)] 0 ([7; 8]%Z ++ zeros 4094) tiny_server_honest tiny_fits);
    [reflexivity|reflexivity|exact tiny_reader_new| |vm_compute; reflexivity].
  constructor; [|constructor]. split_and!; [done|by exists 0%Z|by exists 1%Z|done].
Defined.

(** ** Reads the reader does not support *)

Definition part_server (seq : Z) (k : nat) (off end_ : Z) : option HttpResponse :=
  Some (mkResponse 206 (Some "bytes 512-1023/4096") [Chunk (replicate (Z.to_nat 512) 1%Z)]).

Lemma unaligned_read_poisons_cache_witness :
  ∃ r1, (http_read_at 32 part_server 4096 0 512 r1).2 = Ok (zeros 512).
Proof.
  eexists. apply (unaligned_read_poisons_cache 32 part_server 4096 (replicate (Z.to_nat 512) 1%Z)
                    (http_read_at 32 part_server 4096 512 512 (mkReader 0 prefetch_new)).1).
  rewrite (surjective_pairing (http_read_at _ _ _ _ _ _)). cbn [fst]. apply f_equal. vm_compute. reflexivity.
Defined.

Definition ones_reader : RemoteImageReader unit unit :=
  {| read_at _ n u := (u, Ok (replicate n 1%Z)) |}.

Lemma nbd_zeroes_on_32_bit_witness :
  (device_read (H := ones_reader) 32 (Z.to_nat 4096)
     (mkDevice tt (2 ^ 32 + 2048)%Z (align_export_size (2 ^ 32 + 2048)%Z) 0)).2
  = Ok (replicate (Z.to_nat 2048) 1%Z ++ zeros 2048).
Proof.
  by apply (nbd_zeroes_on_32_bit (H := ones_reader) tt tt _ 0);
    [|exists 0%Z|..|rewrite length_replicate].
Defined.

(** ** An upload in two attempts *)

Definition file_src : list Z := [1; 2; 3; 4]%Z.

(** The first connection breaks after two bytes. *)
Definition broken_attempt : Attempt :=
  mkAttempt start_fine complete_fine
    (fun offset => [DataFrame WroteAll (take 2 (drop (Z.to_nat offset) file_src)); FrameError]).
Definition good_attempt : Attempt :=
  mkAttempt start_fine complete_fine
    (fun offset => [DataFrame WroteAll (drop (Z.to_nat offset) file_src)]).

(** One that loses a write and does not hear of it. *)
Definition deaf_attempt : Attempt :=
  mkAttempt start_fine (mkCompleteEnv false true true true true true true)
    (fun offset => [DataFrame (WriteLost 1) (drop (Z.to_nat offset) file_src)]).

(** The next attempt hears of it, the one after finishes. *)
Lemma resumed_upload_is_exact_witness :
  let try_ := attempt uuid_num any_order "a.iso" file_src in
  let run := try_ deaf_attempt (try_ broken_attempt no_files) in
  fs_read (upload_path_of "a.iso") (ufs run) = Some [1; 2; 3]%Z
  /\ fs_read (final_path_of "a.iso") (ufs run) = None
  /\ fs_read (final_path_of "a.iso") (ufs (try_ good_attempt run)) = None
  /\ fs_read (final_path_of "a.iso") (ufs (try_ good_attempt (try_ good_attempt run))) = Some file_src.
Proof.
  assert (Hn : fs_read (final_path_of "a.iso")
                 (ufs (attempt uuid_num any_order "a.iso" file_src deaf_attempt
                    (attempt uuid_num any_order "a.iso" file_src broken_attempt no_files))) = None)
    by reflexivity.
  intros try_ run. split; [reflexivity|]. split; [exact Hn|]. split; [reflexivity|].
  assert (Hfol : Forall (follows_protocol file_src) [broken_attempt; deaf_attempt]).
  { constructor; [|constructor; [|constructor]]; intros offset; [exists 2%nat|exists 4%nat]; cbn; rewrite app_nil_r; [done|].
    rewrite take_ge; [done|]. rewrite length_drop. cbn. lia. }
  assert (Hgood : faultless file_src good_attempt).
  { split; [by split_and!|]. split; [by split_and!|]. intros offset. split; [done|]. cbn. by rewrite app_nil_r. }
  assert (Hinj : Inj eq eq uuid_num) by (unfold uuid_num; apply _).
  assert (Hname : sanitize_filename "a.iso" = Ok "a.iso") by done.
  pose proof (resumed_upload_is_exact uuid_num any_order "a.iso" "a.iso" file_src (mkFs ∅ ∅ 0)
           [broken_attempt; deaf_attempt] good_attempt Hinj ltac:(done) Hname) as H.
  cbv zeta in H. cbn [fold_left] in H. fold no_files in H. unfold run, try_. by apply H.
Defined.
