(* ===== verification/SettingsWitnesses.v ===== *)
(** * Concrete instances: drives and settings

    Each lemma applies a theorem on the drives or the USB settings to a device
    whose sidecar is the control service with a world in which every system
    call succeeds. *)

From S2P Require Import Prelude StateLaws Text Hid Gadget Ums Uac NetAdapter Manager ManagerProofs Session AppState IpForward ControlLease SessionPlane PlaneProofs UsbPrefs Config ConfigProofs UsbControl UsbControlProofs UsbClient Sidecar Paths RangeReader VirtualMedia MediaProofs UsbSettings SettingsProofs DriveProofs PrefsProofs UsbWitnesses Witnesses StorageWitnesses.

(** ** The device *)

Definition bus_ok (_ : nat) (_ : Query) : BusOutcome := Answered.
(** No query is sent after the third. *)
Definition bus_cut (n : nat) (_ : Query) : BusOutcome := if (n <? 3)%nat then Answered else NotSent.
Definition fs_ok : FsEnv := mkFsEnv true true true (Some "/dev/loop0") true true true true.
Definition fs_no_detach : FsEnv := mkFsEnv true true true (Some "/dev/loop0") true true true false.
Definition env_with (nbd : bool) (fs : FsEnv) : MediaEnv :=
  mkMediaEnv true (Some 4096%Z) tiny_probe nbd true true true None true fs.
Definition env_ok : MediaEnv := env_with true fs_ok.
Definition settings_env (mcp_saved : bool) : SettingsEnv := mkSettingsEnv env_ok true true mcp_saved true true.

Local Abbreviation Side := UsbControl.ControlState.
#[local] Instance side : UsbSidecar Side := control_service good_world id.
#[local] Instance side_laws : UsbSidecarLaws Side := control_service_laws good_world id.

Definition cfg_with (ssh : bool) : Config :=
  with_switches true ssh (Config.with_usb (Pref.with_devices (Pref.with_adapter_enable ssh Pref.devices_default)
    (cfg_usb config_default)) config_default).
Definition app_init (ssh : bool) : App Side :=
  mkApp (Some (mkClient (UsbControl.mkControl (manager_new some_base) None) no_usb_info 0)) None None None
    remote_fs_new ∅ (mkManager (cfg_with ssh) (cfg_with ssh)).
Definition dev (ssh : bool) : Device Side := mkDevice (app_init ssh) p_user.
Definition boot : DeviceOp := OpOverlay (settings_env true).

Lemma cfg_with_valid ssh : config_valid (cfg_with ssh).
Proof. split; cbn; [lia|constructor|lia|set_solver]. Qed.

Lemma dev_settled ssh : settled (d_app (dev ssh)).
Proof. split; [apply cfg_with_valid|by destruct ssh]. Qed.

Lemma dev_safe : drive_safe (d_app (dev false)).
Proof. split; [done|]. by intros c [= <-]. Qed.

Lemma p_user_inv : PlaneInv (fun id => if String.eqb id "a" then Agent else User) w_user.
Proof.
  split; cbn.
  - intros id s. rewrite lookup_insert. case_decide as Hd; [subst; by intros [= <-]|].
    rewrite lookup_singleton_Some. by intros [<- <-].
  - intros r id. rewrite lookup_insert. case_decide as Hd; [subst; by intros [= <-]|].
    rewrite lookup_singleton_Some. by intros [<- <-].
Qed.

(** The state after a run. *)
Local Abbreviation after bus ops := (d_app (device_run bus ops (dev false))).

(** ** Media *)

Lemma mounted_media_is_served_witness :
  ∃ a', mount_with_http bus_ok env_ok "http://host/a.iso" DISK (after bus_ok [boot; OpFtLoad env_ok]) = (a', Ok tt)
        /\ serves a' "/dev/nbd0" DISK.
Proof.
  destruct (mount_with_http bus_ok env_ok "http://host/a.iso" DISK (after bus_ok [boot; OpFtLoad env_ok]))
    as [a' r] eqn:E.
  assert (Hr : r = Ok tt).
  { change r with (a', r).2. rewrite <- E. vm_compute. reflexivity. }
  subst r. exists a'. split; [reflexivity|].
  destruct (mounted_media_is_served bus_ok [boot; OpFtLoad env_ok] (dev false) eq_refl) as [H _].
  destruct (H env_ok "http://host/a.iso" DISK a' E) as (size & rd & _ & _ & _ & Hs). exact Hs.
Defined.

Lemma failed_mount_haunts_witness :
  ∃ a1 e, mount_with_http bus_ok (env_with false fs_ok) "http://host/a.iso" DISK (after bus_ok [boot]) = (a1, Err e)
    /\ ∀ a', mount_with_http bus_ok env_ok "http://host/b.iso" DISK a1 ≠ (a', Ok tt).
Proof.
  destruct (mount_with_http bus_ok (env_with false fs_ok) "http://host/a.iso" DISK (after bus_ok [boot]))
    as [a1 r] eqn:E.
  assert (Hr : (r, bool_decide (is_Some (virtual_media a1))) = (Err "failed to start nbd device", true)).
  { change (((a1, r).2, bool_decide (is_Some (virtual_media (a1, r).1))) = (Err "failed to start nbd device", true)).
    rewrite <- E. vm_compute. reflexivity. }
  injection Hr as -> Hv. exists a1, "failed to start nbd device". split; [reflexivity|].
  assert (Hn : virtual_media a1 ≠ None) by (apply bool_decide_eq_true in Hv; intros Hx; rewrite Hx in Hv; by destruct Hv).
  refine (fun a' => proj1 (failed_mount_haunts bus_ok (env_with false fs_ok) "http://host/a.iso" DISK (after bus_ok [boot]) a1
    "failed to start nbd device" _ _ eq_refl E Hn) env_ok "http://host/b.iso" DISK a'); vm_compute; reflexivity.
Defined.

(** ** The file transfer drive *)

Lemma ft_image_never_shared_witness :
  let a := after bus_ok [boot; OpFtLoad env_ok; OpFtMount env_ok] in
  ∃ c, usb a = Some c /\ ft_mounted_at FT_IMAGE (sidecar c) = true /\ kernel_mounted (remote_fs a) ≠ true.
Proof.
  intros a. destruct (usb a) as [c|] eqn:Hu.
  - exists c. assert (Hh : ft_mounted_at FT_IMAGE (sidecar c) = true).
    { assert (H : option_map (fun c => ft_mounted_at FT_IMAGE (sidecar c)) (usb a) = Some true)
        by (vm_compute; reflexivity). rewrite Hu in H. by injection H. }
    split; [reflexivity|]. split; [exact Hh|]. intros Hk.
    exact (ft_image_never_shared bus_ok (fun _ => eq_refl) [boot; OpFtLoad env_ok; OpFtMount env_ok] (dev false)
             dev_safe c Hu (conj Hk Hh)).
  - exfalso. assert (H : bool_decide (is_Some (usb a)) = true) by (vm_compute; reflexivity). by rewrite Hu in H.
Defined.

Lemma lost_query_shares_image_witness :
  let a' := (load_with_file_img bus_cut env_ok (after bus_cut [boot; OpFtMount env_ok])).1 in
  ∃ c', usb a' = Some c' /\ ft_mounted_at FT_IMAGE (sidecar c') = true /\ kernel_mounted (remote_fs a') = true.
Proof.
  set (a := after bus_cut [boot; OpFtMount env_ok]).
  destruct (usb a) as [c|] eqn:Hu.
  - assert (H : option_map (fun c => (ft_mounted_at FT_IMAGE (sidecar c), queries c)) (usb a) = Some (true, 3%nat))
      by (vm_compute; reflexivity).
    rewrite Hu in H. injection H as Hh Hq.
    apply (lost_query_shares_image bus_cut env_ok a c Hu Hh); [vm_compute; reflexivity..| |vm_compute; reflexivity].
    rewrite Hq. reflexivity.
  - exfalso. assert (H : bool_decide (is_Some (usb a)) = true) by (vm_compute; reflexivity). by rewrite Hu in H.
Defined.

Lemma failed_detach_wedges_drive_witness :
  ∃ a1 e, unmount_file_img bus_ok (env_with true fs_no_detach) (after bus_ok [boot; OpFtLoad env_ok]) = (a1, Err e)
          /\ kernel_mounted (remote_fs a1) = false /\ load_with_file_img bus_ok env_ok a1 = (a1, Ok tt).
Proof.
  destruct (failed_detach_wedges_drive bus_ok (env_with true fs_no_detach) (after bus_ok [boot; OpFtLoad env_ok])
    "/dev/loop0") as (a1 & e & H1 & H2 & H3); [vm_compute; reflexivity..|].
  exists a1, e. split; [exact H1|]. split; [exact H2|]. exact (proj2 (proj2 (H3 env_ok))).
Defined.

(** ** Settings *)

Lemma switches_consistent_witness :
  let a := after bus_ok [boot; OpSsh (settings_env true) true; OpMcp (settings_env true) false] in
  config_valid (cfg a) /\ nic a = ssh a /\ (ssh a = true -> mcp a = true).
Proof.
  exact (switches_consistent bus_ok [boot; OpSsh (settings_env true) true; OpMcp (settings_env true) false] (dev false)
           (dev_settled false) eq_refl).
Defined.

(** ** Requests that overlap *)

(** Two requests for the drive at once: both find it with nobody, the host gets
    the image, and then the device mounts it as well. *)
Lemma overlapping_requests_share_image :
  let '(a, ts) := scheduled [0; 1; 0; 0; 0; 0; 1; 1]%nat (after bus_ok [boot])
                    [mount_with_file_img_steps bus_ok env_ok; load_with_file_img_steps bus_ok env_ok] in
  (∀ c, usb a = Some c -> ft_mounted_at FT_IMAGE (sidecar c) = true)
  /\ is_Some (usb a) /\ kernel_mounted (remote_fs a) = true /\ ts = [Done (Ok tt); Done (Ok tt)].
Proof. vm_compute. split_and!; [intros c [= <-]; reflexivity|by eexists|reflexivity..]. Qed.

(** MCP switched off while SSH forwarding is being switched on, before its last
    save: forwarding is stored as on, with MCP off. *)
Lemma overlapping_switches_disagree :
  let '(d, ts) := scheduled (replicate 10 0%nat ++ replicate 4 1%nat ++ [0%nat]) (device_run bus_ok [boot] (dev false))
                    [in_app (set_ssh_forwarding_steps bus_ok (settings_env true) true);
                     set_mcp_enabled_steps bus_ok (settings_env true) false] in
  ssh (d_app d) = true /\ mcp (d_app d) = false /\ ts = [Done (Ok tt); Done (Ok tt)].
Proof. vm_compute. auto. Qed.

Lemma ssh_toggle_restores_witness :
  ∃ a1 a2, set_ssh_forwarding bus_ok (settings_env true) true (app_init false) = (a1, Ok tt)
    /\ set_ssh_forwarding bus_ok (settings_env true) false a1 = (a2, Ok tt)
    /\ Pref.usb_devices (prefs a2) = Pref.devices_default.
Proof.
  destruct (set_ssh_forwarding bus_ok (settings_env true) true (app_init false)) as [a1 r1] eqn:E1.
  destruct (set_ssh_forwarding bus_ok (settings_env true) false a1) as [a2 r2] eqn:E2.
  assert (H1 : r1 = Ok tt).
  { change r1 with (a1, r1).2. rewrite <- E1. vm_compute. reflexivity. }
  assert (H2 : r2 = Ok tt).
  { change r2 with (a2, r2).2. rewrite <- E2. change a1 with (a1, r1).1. rewrite <- E1. vm_compute. reflexivity. }
  subst r1 r2. exists a1, a2. split; [reflexivity|]. split; [exact E2|].
  exact (proj1 (proj2 (ssh_toggle_restores bus_ok (settings_env true) (settings_env true) (app_init false) a1 a2
    (dev_settled false) eq_refl E1 E2))).
Defined.

Lemma mcp_off_ends_agent_witness :
  ∃ d', UsbSettings.set_mcp_enabled bus_ok (settings_env true) false (dev true) = (d', Ok tt)
    /\ get_session_for_role (papp (d_plane d')) Agent = None /\ ssh (d_app d') = false.
Proof.
  destruct (UsbSettings.set_mcp_enabled bus_ok (settings_env true) false (dev true)) as [d' r] eqn:E.
  assert (Hr : r = Ok tt).
  { change r with (d', r).2. rewrite <- E. vm_compute. reflexivity. }
  subst r. exists d'. split; [reflexivity|].
  destruct (mcp_off_ends_agent bus_ok _ (settings_env true) (dev true) d' (dev_settled true) p_user_inv eq_refl E)
    as (_ & H1 & _ & _ & _ & H2). exact (conj H1 H2).
Defined.

Lemma failed_mcp_save_keeps_agent_witness :
  ∃ d' e, UsbSettings.set_mcp_enabled bus_ok (settings_env false) false (dev true) = (d', Err e)
    /\ mcp (d_app d') = false /\ get_session_for_role (papp (d_plane d')) Agent = Some robot.
Proof.
  destruct (reconcile_usb_runtime bus_ok (Pref.usb_config (prefs (d_app (dev true))))
    (devices_for_apply (Pref.usb_devices (prefs (d_app (dev true)))) false) (d_app (dev true))) as [a1 r] eqn:E.
  assert (Hr : r = Ok tt).
  { change r with (a1, r).2. rewrite <- E. vm_compute. reflexivity. }
  subst r.
  destruct (failed_mcp_save_keeps_agent bus_ok (settings_env false) (dev true) a1 (dev_settled true) eq_refl eq_refl E
    eq_refl eq_refl) as (d' & e & H1 & H2 & _ & _ & H3 & _).
  exists d', e. split; [exact H1|]. split; [exact H2|]. rewrite H3. vm_compute. reflexivity.
Defined.

(** ** A rebuild of the gadget drops the image

    The application describes the drives to the sidecar with paths from a cache
    that only ever holds what it sent, which is empty: after a change of the USB
    speed nothing is mounted, while the application still reports the image. *)
Lemma rebuild_drops_image :
  let mounted := after bus_ok [boot; OpStorage env_ok "a.iso" CDROM] in
  let rebuilt := after bus_ok [boot; OpStorage env_ok "a.iso" CDROM; OpFullSpeed (settings_env true) true] in
  let on_host a := option_map (fun c => ur_mounted (mount_state UMS_VM (sidecar c))) (usb a) in
  on_host mounted = Some true /\ on_host rebuilt = Some false
  /\ virtual_media rebuilt = virtual_media mounted /\ is_Some (virtual_media rebuilt).
Proof. vm_compute. eauto. Qed.
