(* ===== verification/NetWitnesses.v ===== *)
(** * Network and cloud on concrete inputs

    Each theorem about the network and the cloud connection applied to one
    input where its hypotheses hold, and inputs on which the code does
    something its comments and its callers do not expect. *)

From S2P Require Import Prelude Text Words IpAddr NetConf Cloud NetSettings NetSettingsProofs.

Definition home_v4 : StaticIpConfig := mkStatic "192.168.1.10" "255.255.255.0" "192.168.1.1" ["9.9.9.9"; "1.1.1.1"].
Definition home_net : NetworkConfig := with_ipv4 StaticV4 (Some home_v4) (with_names (Some "kvm") (Some "lan") network_default).
Definition home_vlan : VlanSettings := mkVlan true (Some (dhcp_ep 6)) (Some (mkEndpoint 5 StaticV4 (Some Slaac) (Some home_v4) None)).
Definition vlan_net : NetworkConfig := with_vlan home_vlan network_default.

Definition paired : Cloud :=
  mkCloud gate_default Connected Online true false (mkCloudConfig "https://c" "https://a" (Some "secret") (Some 7%Z)).
Definition good_env : NetEnv :=
  mkNetEnv (fun _ => true) true true true true true true true true true true true (fun _ => None).
Definition net0 (c : NetworkConfig) : NetState :=
  mkNetState c (Some (network_config_to_ini c "committed")) None None None "" paired 0 [].

Ltac decide_word := split; [done|vm_compute; reflexivity].
Ltac decide_words := repeat (apply Forall_cons_2; [decide_word|]); apply Forall_nil_2.
Ltac decide_clean := split; vm_compute; reflexivity.

Lemma home_v4_clean : clean_static home_v4.
Proof. apply clean_static_intro; [decide_clean..|decide_words]. Qed.

Lemma home_net_clean : clean_config home_net.
Proof. split_and!; try done; try decide_clean. apply home_v4_clean. Qed.

Lemma home_net_normal : normal home_net.
Proof. by split_and!. Qed.

Lemma conf_roundtrip_witness :
  ini_to_network_config (network_config_to_ini home_net "committed") = stored home_net.
Proof. apply (conf_roundtrip home_net "committed"); [apply home_net_clean|decide_clean]. Defined.

Lemma conf_normal_form_witness :
  let c := ini_to_network_config ("[ipv4]" +:+ String LF ("mode = static" +:+ String LF "address= 10.0.0.7 ")) in
  ini_to_network_config (network_config_to_ini c "committed")
  = with_names (Some (default "arkkvm" (hostname c))) (Some (default "dhcp" (domain c))) c.
Proof. apply (conf_normal_form _ "committed"). decide_clean. Defined.

Lemma gate_open_between_operations_witness :
  paused (gate (cloud (net_ops [(good_env, SetSettings home_net); (good_env, SetVlan home_vlan)] (net0 network_default)))) = false.
Proof. apply gate_open_between_operations. reflexivity. Defined.

Lemma settings_read_back_witness :
  ∃ s', set_network_settings good_env home_net (net0 network_default) = (s', Ok tt) /\ enc s' = home_net
    /\ conf s' = Some (network_config_to_ini home_net "committed") /\ Refreshed (conf s') ∈ fx s'
    /\ get_network_settings good_env s' = (s', Ok home_net).
Proof.
  apply (settings_read_back good_env home_net (net0 network_default));
    [by split_and!|vm_compute; reflexivity..|apply home_net_clean|apply home_net_normal|done|done].
Defined.

Lemma vlan_mode_keeps_l3_witness :
  let request := with_names (Some "rack7") (Some "lan") vlan_net in
  ∃ t', conf (set_network_settings good_env request (net0 vlan_net)).1 = Some t'
    /\ l3 (ini_to_network_config t') = l3 (ini_to_network_config (network_config_to_ini vlan_net "committed")).
Proof.
  apply (vlan_mode_keeps_l3 good_env (with_names (Some "rack7") (Some "lan") vlan_net) (net0 vlan_net));
    [reflexivity|reflexivity|reflexivity|decide_clean|decide_clean].
Defined.

Lemma home_vlan_clean : clean_config (with_vlan home_vlan network_default).
Proof. split_and!; try done; try decide_clean. split; [done|apply home_v4_clean]. Qed.

Lemma vlan_apply_commits_witness :
  let '(s', r) := set_vlan_settings good_env home_vlan (net0 network_default) in
  ∃ answer, r = Ok answer /\ vlan_valid home_vlan /\ answer = build_vlan_redirect good_env home_vlan
    /\ enc s' = with_vlan home_vlan network_default.
Proof.
  destruct (set_vlan_settings good_env home_vlan (net0 network_default)) as [s' r] eqn:E.
  assert (Hr : r = Ok (build_vlan_redirect good_env home_vlan)) by (apply (f_equal snd) in E; symmetry; exact E).
  subst r. destruct (vlan_apply_commits good_env home_vlan (net0 network_default) s' _ home_vlan_clean ltac:(by split) E) as (H1 & H2 & H3 & _). by eexists.
Defined.

(** A device with a static_ip.conf and no network.conf. *)
Definition old_device : NetState :=
  mkNetState network_default None None
    (Some ("ip=10.0.0.7" +:+ String LF ("DNS = 9.9.9.9 1.1.1.1" +:+ String LF "gateway='10.0.0.1'")))
    None "" paired 0 [].

Lemma migration_settles_witness :
  let s' := (maybe_migrate_legacy_network_config good_env old_device).1 in
  (maybe_migrate_legacy_network_config good_env s').1 = s'.
Proof.
  apply (migration_settles good_env good_env old_device); [vm_compute; reflexivity| |done].
  intros t. vm_compute. intros [= <-]. reflexivity.
Defined.

Lemma migration_adopts_static_witness :
  let s' := (maybe_migrate_legacy_network_config good_env old_device).1 in
  ∃ t, conf s' = Some t /\ ipv4_mode (ini_to_network_config t) = StaticV4
    /\ static_ipv4 (ini_to_network_config t) = Some (mkStatic "10.0.0.7" "255.255.255.0" "10.0.0.1" ["9.9.9.9"; "1.1.1.1"])
    /\ Refreshed (Some t) ∈ fx s' /\ static_conf s' = None.
Proof.
  apply (migration_adopts_static good_env old_device);
    [vm_compute; reflexivity|vm_compute; reflexivity| |done|done|].
  - apply clean_static_intro; [decide_clean..|decide_words].
  - split_and!; try done; decide_clean.
Defined.

Lemma gate_refines_flight_witness :
  let ops := [GBegin; GBegin; GEnd 0] in
  paused (gate_ops ops).1 = bool_decide ((in_flight ops).2 ≠ None) /\ (end_ 2 (gate_ops ops).1).2 = true.
Proof.
  destruct (gate_refines_flight [GBegin; GBegin; GEnd 0] ltac:(done)) as [H1 H2]. split; [exact H1|].
  exact (H2 1%nat 2%Z eq_refl).
Defined.

Lemma state_never_overclaims_witness :
  ∃ s, cloud_events [LoopTop; LoopTop; LoopConnect; HandshakeDone (Ok tt)] (cloud_default (cconfig paired)) = Some s
    /\ claims_hold s.
Proof.
  eexists. split; [reflexivity|].
  eapply (state_never_overclaims [LoopTop; LoopTop; LoopConnect; HandshakeDone (Ok tt)] (cconfig paired)). reflexivity.
Defined.

Lemma closed_gate_holds_loop_witness :
  ∃ s', cloud_events [LoopTop; BeginTransition; LoopTop]
          (mkCloud (mkGate 1 true) Disconnected Top false false (cconfig paired)) = Some s'
    /\ pc s' = Top /\ paused (gate s') = true.
Proof.
  eexists. split; [reflexivity|].
  eapply (closed_gate_holds_loop [LoopTop; BeginTransition; LoopTop]
            (mkCloud (mkGate 1 true) Disconnected Top false false (cconfig paired))); reflexivity.
Defined.

Lemma unpaired_never_rests_witness :
  ∃ s', cloud_events [Deregister (Some 200%Z) true true; Socket CloseFrame; LoopTop; LoopConnect; LoopTop] paired = Some s'
    /\ cloud_token (cconfig s') = None /\ (pc s' = Top \/ pc s' = Passed) /\ cstate s' = Disconnected.
Proof.
  eexists. split; [reflexivity|].
  eapply (unpaired_never_rests [LoopTop; LoopConnect; LoopTop] 200 paired _ CloseFrame); [done|done|done|lia|done|done|reflexivity].
Defined.

Lemma register_then_connects_witness :
  ∃ s', cloud_events [Register (fun _ => Some ("secret", None)) true true "https://c"; LoopTop; LoopConnect; HandshakeDone (Ok tt)]
          (cloud_default (mkCloudConfig "" "" None None)) = Some s'
    /\ get_cloud_state s' = true /\ cloud_url (cconfig s') = "https://c" /\ cloud_token (cconfig s') = Some "secret"
    /\ owner_user_id (cconfig s') = None /\ cstate s' = Connected /\ ws_tx s' = true.
Proof.
  apply (register_then_connects (fun _ => Some ("secret", None)) "https://c" (cloud_default (mkCloudConfig "" "" None None)));
    reflexivity || done.
Defined.

(** ** Inputs that surprise *)

(** The request is compared with the copy in the configuration, not with what
    the device uses and shows: a request to go back to DHCP does nothing after
    a tool has put a static address into the file. *)
Lemma stale_copy_swallows_settings :
  let s := mkNetState network_default (Some (network_config_to_ini home_net "committed")) None None None "" paired 0 [] in
  set_network_settings good_env network_default s = (s, Ok tt)
  /\ ipv4_mode <$> result_ok (get_network_settings good_env s).2 = Some StaticV4.
Proof. by vm_compute. Qed.

(** A proxy that is refused takes the working one away; the configuration still
    names it. *)
Lemma refused_proxy_clears_the_old_one :
  let enc0 := with_proxy (Some "http://proxy") network_default in
  let s := mkNetState enc0 (conf (net0 enc0)) None None (Some "http://proxy") "" paired 0 [] in
  let e := mkNetEnv (fun p => String.eqb p "http://proxy") true true true true true true true true true true true (fun _ => None) in
  let '(s', r) := set_network_settings e (with_proxy (Some "nonsense") network_default) s in
  r = Err "Invalid proxy URL: nonsense" /\ proxy_env s' = None /\ http_proxy (enc s') = Some "http://proxy".
Proof. by vm_compute. Qed.

(** In VLAN mode an address change is accepted and kept, and not shown. *)
Lemma flat_edit_hidden_in_vlan_mode :
  let request := with_ipv4 StaticV4 (Some home_v4) vlan_net in
  let '(s', r) := set_network_settings good_env request (net0 vlan_net) in
  r = Ok tt /\ enc s' = request /\ result_ok (get_network_settings good_env s').2 = Some vlan_net.
Proof. by vm_compute. Qed.

(** Static IPv6 settings of a VLAN are accepted and gone when the settings are
    next read: the file does not hold them, and the file is right. *)
Lemma vlan_static_ipv6_lost :
  let v6 := mkStatic "2001:db8::2" "" "2001:db8::1" [] in
  let v := mkVlan true (Some (mkEndpoint 6 Dhcp (Some StaticV6) None (Some v6))) None in
  let '(s', r) := set_vlan_settings good_env v (net0 network_default) in
  is_ok r = true
  /\ (primary_vlan <$> (result_ok (get_vlan_settings_response good_env s').2 ≫= fun a => Some a.1))
     = Some (Some (mkEndpoint 6 Dhcp (Some StaticV6) None None)).
Proof. by vm_compute. Qed.

(** Only the addresses of the mode in use are checked: a line break in an
    address that DHCP mode leaves unused sets the mode and the address. *)
Lemma unchecked_text_becomes_settings :
  let smuggled := "x" +:+ String LF ("mode=static" +:+ String LF "address=6.6.6.6") in
  let request := with_ipv4 Dhcp (Some (mkStatic smuggled "" "" [])) network_default in
  let '(s', r) := set_network_settings good_env request (net0 network_default) in
  r = Ok tt /\ validate_flat_ipv4 request = Ok tt
  /\ match get_network_settings good_env s' with
     | (_, Ok c) => ipv4_mode c = StaticV4 /\ (ip_address <$> static_ipv4 c) = Some "6.6.6.6"
     | _ => False
     end.
Proof. by vm_compute. Qed.
