(* ===== verification/UpdateWitnesses.v ===== *)
(** * Updates at concrete values

    The theorems on downloads and updates applied to a file of three bytes, and
    runs of the update tasks that the code leaves open. *)

From S2P Require Import Prelude Download Ota.

(** ** A toy signature

    The hash of a file spells its bytes, one letter each; a signature is the
    bytes of the hash it signs. *)

Fixpoint spell (l : list Z) : string :=
  match l with [] => EmptyString | b :: l => String (ascii_of_nat (Z.to_nat b)) (spell l) end.

Fixpoint bytes_of (s : string) : list Z :=
  match s with EmptyString => [] | String c s => byte_of c :: bytes_of s end.

#[export] Instance toy_crypto : Crypto := {
  sha256_hex := spell;
  public_key_parses := true;
  base64_decode s := Some (bytes_of s);
  signature_parses _ := true;
  rsa_verifies sig h := bool_decide (sig = bytes_of h) }.

Definition file_a : list Z := [97; 98; 99]%Z.
Definition file_b : list Z := [100; 101]%Z.

(** Breaks off after two bytes, fails once, then sends the rest. *)
Definition broken_server (n : nat) (off : Z) : Attempt :=
  if negb ((0 <=? off) && (off <? 3))%Z then Answer 416 [] true else
  let rest := drop (Z.to_nat off) file_a in
  match n with
  | 0 => Answer 200 [take 2 rest] false
  | 1 => SendFailed
  | _ => Answer 206 [rest] true
  end.

Definition good_disk (_ _ : nat) : bool := true.

Lemma broken_server_serves : serves file_a broken_server.
Proof.
  intros n off status chunks ends. unfold broken_server.
  destruct (negb ((0 <=? off) && (off <? 3))%Z) eqn:E; [by intros [= <- <- <-]|].
  assert (Hoff : (off = 0 \/ off = 1 \/ off = 2)%Z) by lia.
  destruct n as [|[|n]]; [|done|]; destruct Hoff as [->|[->| ->]]; cbn; intros [= <- <- <-] _; split_and!;
    try done; try (by repeat constructor); solve [by exists []|by exists [99%Z]].
Qed.

Lemma download_ends_exact_witness :
  serves file_a broken_server
  /\ download_file broken_server good_disk (download_fuel file_a) (Ok 3%Z) spell = Some (Some file_a, Ok "abc")
  /\ ∃ content r, download_file broken_server good_disk (download_fuel file_a) (Ok 3%Z) spell = Some (Some content, r)
     /\ content `prefix_of` file_a /\ ∀ h, r = Ok h -> content = file_a /\ h = spell file_a.
Proof.
  split; [exact broken_server_serves|split; [reflexivity|]].
  exact (download_ends_exact file_a broken_server good_disk spell broken_server_serves).
Defined.

(** ** Runs *)

Definition release (sig : string) : OtaInfo := mkOtaInfo None None None (Some "2.0") None (Some "https://host/os.tar") (Some sig).
Definition versions : VersionInfo := mkVersionInfo "1.0" "1.0" "1.0".

(** Everything succeeds; nobody is there. *)
Definition fine (sig : string) : Answers :=
  mkAnswers true true FetchDone false 0 true true true true false (Ok versions) (Ok (release sig)).
(** A user is at the device. *)
Definition busy (sig : string) : Answers :=
  mkAnswers true true FetchDone true 5 true true true true false (Ok versions) (Ok (release sig)).
(** The command fails. *)
Definition broken (sig : string) : Answers :=
  mkAnswers true true FetchDone false 0 true true false true false (Ok versions) (Ok (release sig)).

Definition nightly : list Action :=
  [Do false (SetAuto true true); Go 0 (fine "abc"); Go 0 (fine "abc"); Go 0 (fine "abc"); Go 1 (fine "abc");
   Go 1 (with_fetch (FetchWrite file_a) (fine "abc")); Go 1 (fine "abc"); Go 1 (fine "abc"); Go 1 (fine "abc"); Go 1 (fine "abc"); Go 1 (fine "abc")].

Lemma commands_run_verified_witness :
  Forall (one_release "abc") nightly
  /\ ota_log (ota_run (booted false None false) (Go 0 (fine "abc") :: nightly)).1
     = [Launch "abc" (Some file_a) false true false 0; Command (Some file_a)]
  /\ Forall (command_verified "abc") (ota_log (ota_run (booted false None false) (Go 0 (fine "abc") :: nightly)).1).
Proof.
  assert (Hr : Forall (one_release "abc") nightly)
    by (repeat apply Forall_cons_2; try apply Forall_nil_2; try exact I;
        (split; [reflexivity|intros info E; injection E as <-; right; reflexivity])).
  split; [exact Hr|split; [vm_compute; reflexivity|]].
  refine (commands_run_verified "abc" false None (fine "abc") nightly _ Hr). repeat constructor.
Defined.

(** A device that has been told of a release. *)
Definition told : OTA := mkOTA (Some (release "abc")) false false false false false 0 false (Some file_b) false [].

Lemma asked_update_installs_witness :
  need_download (fine "abc") "abc" told = (with_package None told, true)
  /\ ∃ o', ota_run (told, []) (Do false TryUpdateByUser :: update_steps 0 (fine "abc") file_a) = (o', [])
    /\ ota_log o' = [Launch "abc" (Some file_a) true false false 0; Command (Some file_a); Reboot]
    /\ AUTO_UPDATE_WAITTING o' = false /\ OTA_UPDATEING o' = false /\ package o' = Some file_a.
Proof.
  split; [reflexivity|].
  exact (asked_update_installs told [] (release "abc") "https://host/os.tar" "abc" file_a broken_server good_disk file_a "abc" (fine "abc")
           eq_refl eq_refl eq_refl eq_refl eq_refl eq_refl broken_server_serves eq_refl eq_refl eq_refl eq_refl eq_refl eq_refl).
Defined.

(** ** What the code leaves open *)

(** A release published while an installation is on its way: asking again
    deletes the verified package and downloads over it; the update command
    starts on the half of the new one. *)
Lemma new_release_under_install :
  let xs := [Do false TryUpdateByUser] ++ take 7 (update_steps 0 (fine "abc") file_a) (* launched, the directory made *)
    ++ [Do false CheckUpdate; Go 1 (fine "de"); Do false TryUpdateByUser; Go 1 (fine "de"); Go 1 (fine "de");
        Go 1 (with_fetch (FetchWrite [100%Z]) (fine "de")); Go 0 (fine "de")] in
  ota_log (ota_run (told, []) xs).1 = [Launch "abc" (Some file_a) true false false 0; Command (Some [100%Z])]
  /\ ~ verified "abc" (Some [100%Z]) /\ ~ verified "de" (Some [100%Z]).
Proof. vm_compute. split; [reflexivity|split; intros (c & E & V); injection E as <-; discriminate V]. Qed.

(** Two threads at the same flag: the request is made twice at once, and both
    start an update.  The second downloads over the package that the first has
    verified, and the update command starts on the half of it. *)
Lemma stale_flag_installs_unverified :
  let xs := [Do false TryUpdateByUser; Do true TryUpdateByUser; Go 0 (fine "abc"); Go 0 (fine "abc"); Go 0 (fine "abc"); Go 0 (fine "abc");
             Go 0 (with_fetch (FetchWrite file_a) (fine "abc")); Go 1 (fine "abc"); Go 1 (fine "abc"); Go 1 (fine "abc"); Go 1 (fine "abc");
             Go 0 (with_fetch (FetchWrite [100%Z]) (fine "abc")); Go 0 (fine "abc")] in
  Forall (one_release "abc") xs
  /\ ota_log (ota_run (told, []) xs).1 = [Launch "abc" (Some file_a) true false false 0; Command (Some [100%Z])]
  /\ ~ verified "abc" (Some [100%Z]).
Proof.
  split; [|vm_compute; split; [reflexivity|intros (c & E & V); injection E as <-; discriminate V]].
  repeat apply Forall_cons_2; try apply Forall_nil_2; try exact I;
    (split; [reflexivity|intros info E; injection E as <-; right; reflexivity]).
Qed.

(** One request of the user stays: when that update fails, every later
    automatic one is installed at once, in the middle of a session and as if the
    user had asked. *)
Lemma request_is_never_forgotten :
  let failed := ota_run (told, []) (Do false TryUpdateByUser :: update_steps 0 (broken "abc") file_a) in
  let later := [Do false (SetAuto true true); Go 0 (busy "abc"); Go 0 (busy "abc"); Go 0 (busy "abc"); Go 1 (busy "abc"); Go 1 (busy "abc")] in
  failed.2 = [] /\ UPDATE_BY_USER failed.1 = true
  /\ List.last (ota_log (ota_run failed later).1) Reboot = Launch "abc" (Some file_a) true true true 5.
Proof. vm_compute. auto. Qed.

(** Automatic updates that are switched off but cannot be saved: the handler
    fails, the configuration reads off, and the update that was waiting is
    installed all the same. *)
Lemma unsaved_switch_off_installs :
  let s := ota_run (booted false None false) (Go 0 (fine "abc") :: take 8 nightly ++ [Do false (SetAuto false false); Go 1 (fine "abc")]) in
  auto_update_enabled s.1 = false /\ ota_log s.1 = [Launch "abc" (Some file_a) false true false 0].
Proof. vm_compute. auto. Qed.
