(* ===== verification/DriveWitnesses.v ===== *)
(** * The file transfer drive and served files at concrete values

    The theorems on the drive's files and uploads applied to a drive with a
    directory and a file, those on ranges and downloads to small files, and runs
    in which the code does not do what it means to. *)

From S2P Require Import Prelude StateLaws Text Paths Uploads FtUploads FileTree RemoteFs RemoteFsProofs TimeSync Words FileServing.

(** ** A drive *)

Definition small_tree : Tree :=
  <[["docs"] := Dir]> (<[["docs"; "a.txt"] := File [1; 2; 3]%Z]> ∅).

Lemma small_closed : closed small_tree.
Proof.
  split; [reflexivity|]. intros p n H. unfold small_tree in H.
  apply lookup_insert_Some in H as [[<- _]|[_ H]]; [reflexivity|].
  apply lookup_insert_Some in H as [[<- _]|[_ H]]; [reflexivity|]. by rewrite lookup_empty in H.
Qed.

(** The kernel takes writes byte by byte at first. *)
Definition slow_disk : Disk := mkDisk small_tree [Fine; Fine; Short 1; Short 1].

Lemma slow_disk_keeps : nothing_lost slow_disk.
Proof. repeat constructor; done. Qed.

Abbreviation same_name := (fun s : string => s).

(** A copy that fails half way, then a rename. *)
Definition mixed_ops : list DriveOp :=
  [CreateDirectory "/x/y"; CopyFile "/docs/a.txt" "/x/y/b.txt"; Rename "/docs" "/x/old"; DeleteDirectory "/x/y"].

Lemma drive_stays_a_tree_witness :
  closed (tree (drive_run true same_name mixed_ops (mkDisk small_tree [Fine; Fine; Fine; Fine; Short 2; Fault; Fine])))
  /\ tree (drive_run true same_name mixed_ops (mkDisk small_tree [Fine; Fine; Fine; Fine; Short 2; Fault; Fine])) !! ["x"; "old"; "a.txt"]
     = Some (File [1; 2; 3]%Z).
Proof. split; [|vm_compute; reflexivity]. apply drive_stays_a_tree. exact small_closed. Defined.

(** A write behind the end leaves a gap of zeros. *)
Lemma written_range_is_read_witness :
  let r := write_file_range true same_name "/docs/a.txt" 5 [7; 8; 9]%Z slow_disk in
  r.2 = Ok 3
  /\ ∃ p : OsPath, resolves same_name "/docs/a.txt" p /\ 3 = 3 /\ only p.1 (tree slow_disk) (tree r.1)
    /\ node_at (tree r.1) p.1 = Some (File (splice 5 [7; 8; 9]%Z (default [] (node_at (tree slow_disk) p.1 ≫= content_of))))
    /\ ∀ d1, tree d1 = tree r.1 -> no_fault d1 -> (read_file_range true same_name "/docs/a.txt" 5 3 d1).2 = Ok [7; 8; 9]%Z.
Proof.
  intros r. split; [vm_compute; reflexivity|].
  apply (written_range_is_read true same_name "/docs/a.txt" 5 [7; 8; 9]%Z slow_disk r.1 3);
    [exact small_closed|exact slow_disk_keeps|]. vm_compute. reflexivity.
Defined.

(** Two pieces after the bytes that are there. *)
Lemma stream_is_read_back_witness :
  ∃ d1 w d2 w', create_async_writer true same_name "/docs/a.txt" 4096 3 slow_disk = (d1, Ok w)
  /\ write_all w [[4]; [5; 6]]%Z d1 = (d2, Ok w')
  /\ ∃ p : OsPath, resolves same_name "/docs/a.txt" p /\ only p.1 (tree slow_disk) (tree d2)
    /\ let file := (if (3 =? 0)%nat then [] else default [] (node_at (tree slow_disk) p.1 ≫= content_of)) ++ List.concat [[4]; [5; 6]]%Z in
       node_at (tree d2) p.1 = Some (File file)
       /\ ∀ chunk d3, 0 < chunk -> tree d3 = tree d2 -> no_fault d3 ->
          ∃ r d4 chunks, create_async_reader true same_name 0%Z (fun _ => None) "/docs/a.txt" chunk d3 = (d4, Ok r)
            /\ (read_all (S (length file)) r file d4).2 = Ok chunks /\ List.concat chunks = file
            /\ Forall (fun b => 0 < length b <= chunk) chunks.
Proof.
  do 4 eexists. split; [vm_compute; reflexivity|]. split; [vm_compute; reflexivity|].
  eapply (stream_is_read_back true same_name 0%Z (fun _ => None) "/docs/a.txt" 4096 3 [[4]; [5; 6]]%Z slow_disk);
    [exact small_closed|exact slow_disk_keeps|vm_compute; reflexivity..].
Defined.

(** A directory moves with what is below it. *)
Lemma rename_moves_witness :
  let r := rename true same_name "/docs" "/new/docs" slow_disk in
  r.2 = Ok tt
  /\ ∃ p q : OsPath, resolves same_name "/docs" p /\ resolves same_name "/new/docs" q /\ is_Some (tree slow_disk !! p.1)
    /\ (∀ r', tree r.1 !! (q.1 ++ r') = tree slow_disk !! (p.1 ++ r'))
    /\ (∀ k, is_under p.1 k = true -> is_under q.1 k = false -> tree r.1 !! k = None)
    /\ ∀ k, is_under p.1 k = false -> is_under q.1 k = false ->
         tree r.1 !! k = tree slow_disk !! k \/ tree slow_disk !! k = None /\ tree r.1 !! k = Some Dir /\ is_under k q.1 = true.
Proof.
  intros r. split; [vm_compute; reflexivity|].
  apply (rename_moves true same_name "/docs" "/new/docs" slow_disk r.1); [exact small_closed|vm_compute; reflexivity].
Defined.

(** The medium fails before the directory itself is removed. *)
Lemma delete_directory_is_exact_witness :
  let d := mkDisk small_tree [Fine; Fine; Fault] in
  (delete_directory true same_name "/docs" d).2 = Err "Failed to delete directory"
  /\ node_at (tree (delete_directory true same_name "/docs" d).1) ["docs"; "a.txt"] = None
  /\ closed (tree (delete_directory true same_name "/docs" d).1).
Proof.
  split; [vm_compute; reflexivity|]. split; [vm_compute; reflexivity|].
  pose proof (delete_directory_is_exact true same_name "/docs" (mkDisk small_tree [Fine; Fine; Fault]) small_closed) as H.
  destruct (delete_directory _ _ _ _). apply H.
Defined.

(** *** What the file operations leave open *)

(** A write that fails in the background after the kernel took it over is
    reported by nobody: [sync_all] succeeds, the answer says three bytes, and the
    file is as it was. *)
Lemma lost_write_succeeds :
  let '(d, r) := write_file_range true same_name "/docs/a.txt" 0 [7; 8; 9]%Z
                   (mkDisk small_tree [Fine; Fine; Fine; Lost 3 0]) in
  r = Ok 3 /\ tree d !! ["docs"; "a.txt"] = Some (File [1; 2; 3]%Z).
Proof. vm_compute. by split. Qed.

(** Deleting the root of the drive empties it before it fails on the mount point. *)
Lemma delete_root_empties :
  let '(d, r) := delete_directory true same_name "/" (mkDisk small_tree []) in
  is_ok r = false /\ tree d = ∅.
Proof. vm_compute. by split. Qed.

(** A copy onto itself empties the file and reports success. *)
Lemma copy_onto_itself_empties :
  let '(d, r) := copy_file true same_name "/docs/a.txt" "docs/a.txt" (mkDisk small_tree []) in
  r = Ok tt /\ tree d !! ["docs"; "a.txt"] = Some (File []).
Proof. vm_compute. by split. Qed.

(** A failed query counts as absent: deleting a file then reports success and
    leaves it. *)
Lemma unseen_file_stays :
  let '(d, r) := delete_file true same_name "/docs/a.txt" (mkDisk small_tree [Fault]) in
  r = Ok tt /\ tree d !! ["docs"; "a.txt"] = Some (File [1; 2; 3]%Z).
Proof. vm_compute. by split. Qed.

(** ** Uploads *)

Definition ft_src : list Z := [1; 2; 3; 4]%Z.
Definition ft_id (n : nat) : string := String (ascii_of_nat (97 + n)) EmptyString.
Definition ft_order (m : gmap string FtPendingUpload) : list (string * FtPendingUpload) := map_to_list m.
Definition empty_drive : FtState := mkFt (mkFs ∅ ∅ 0) true ∅ ∅ ∅ 0.
Definition ft_fine : FtStartEnv := mkFtStart true true true true true true true true.
Definition ft_done : FtCompleteEnv := mkFtComplete true true true true.

(** The first connection breaks after two bytes. *)
Definition ft_broken : FtAttempt :=
  mkFtAttempt ft_fine ft_done (fun off => [DataFrame WroteAll (take 2 (drop (Z.to_nat off) ft_src)); FrameError]).
(** The second loses a write, and hears of it with the next. *)
Definition ft_lossy : FtAttempt :=
  mkFtAttempt ft_fine ft_done (fun off => match drop (Z.to_nat off) ft_src with
                                          | b :: c :: bytes => [DataFrame (WriteLost 0) [b]; DataFrame WroteAll (c :: bytes)]
                                          | bytes => [DataFrame WroteAll bytes]
                                          end).
Definition ft_good : FtAttempt :=
  mkFtAttempt ft_fine ft_done (fun off => [DataFrame WroteAll (drop (Z.to_nat off) ft_src)]).

Lemma ft_upload_is_exact_witness :
  let try_ := ft_attempt ft_id ft_order "/docs" "a.iso" ft_src in
  let run := try_ ft_lossy (try_ ft_broken empty_drive) in
  fs_read "/mnt/ft_disk/docs/a.iso.ftcache" (ft_fs run) = Some [1; 2]%Z
  /\ fs_read "/mnt/ft_disk/docs/a.iso" (ft_fs run) = None
  /\ fs_read "/mnt/ft_disk/docs/a.iso" (ft_fs (try_ ft_good run)) = Some ft_src.
Proof.
  intros try_ run.
  assert (Hn : fs_read "/mnt/ft_disk/docs/a.iso" (ft_fs run) = None) by (vm_compute; reflexivity).
  assert (Hbody : ∀ off, body_data (fa_body ft_lossy off) = drop (Z.to_nat off) ft_src /\ reported false (fa_body ft_lossy off) = true).
  { intros off. cbn [fa_body ft_lossy]. destruct (drop (Z.to_nat off) ft_src) as [|b [|c l]]; cbn; rewrite ?app_nil_r; by split. }
  assert (Hfol : Forall (ft_follows ft_src) [ft_broken; ft_lossy]).
  { constructor; [|constructor; [|constructor]]; (split; [done|]); intros off.
    - split; [exists 2; cbn; by rewrite app_nil_r|]. cbn. by destruct (drop _ _).
    - destruct (Hbody off) as [-> ?]. split; [exists 4; rewrite take_ge; [done|]; rewrite length_drop; cbn; lia|done]. }
  assert (Hlast : ft_follows ft_src ft_good).
  { split; [done|]. intros off. split; [exists 4; cbn; rewrite app_nil_r, take_ge; [done|]; rewrite length_drop; cbn; lia|].
    cbn. by destruct (drop _ _). }
  assert (Hgood : ft_faultless ft_src ft_good).
  { split; [by split_and!|]. split; [done|]. intros off. split; [done|]. cbn. by rewrite app_nil_r. }
  split; [vm_compute; reflexivity|]. split; [exact Hn|].
  pose proof (ft_upload_is_exact ft_id ft_order "/docs" "a.iso" "/mnt/ft_disk/docs/a.iso" "/mnt/ft_disk/docs/a.iso.ftcache" ft_src (mkFs ∅ ∅ 0) ∅
           [ft_broken; ft_lossy] ft_good ltac:(done) ltac:(done) ltac:(done) ltac:(done) ltac:(done) ltac:(done) ltac:(done) Hfol Hlast Hgood) as H.
  cbv zeta in H. cbn [fold_left] in H. fold empty_drive in H. unfold run, try_. by apply H.
Defined.

(** *** What the uploads leave open *)

(** A start with another size goes on with the closed session of the old one and
    its size: a file of six bytes is cut to four, and the answer says completed. *)
Definition six : list Z := [1; 2; 3; 4; 5; 6]%Z.

Lemma other_size_cuts_file :
  let s := ft_attempt ft_id ft_order "/docs" "a.iso" ft_src ft_broken empty_drive in
  let '(s, r) := start_ft_file_upload ft_id ft_order ft_fine "/docs" "a.iso" 6 s in
  r = Ok (2%Z, "ft_upload_a")
  /\ let '(s, reply) := handle_ft_upload ft_done "ft_upload_a" [DataFrame WroteAll (drop 2 six)] s in
     reply = FtCompleted /\ fs_read "/mnt/ft_disk/docs/a.iso" (ft_fs s) = Some [1; 2; 3; 4]%Z.
Proof. vm_compute. by repeat split. Qed.

(** A last write that fails in the background: [sync_all] leaves the failure,
    [shutdown]'s is logged, and a cut file is shown as complete. *)
Lemma lost_last_write_completes :
  let '(s, r) := start_ft_file_upload ft_id ft_order ft_fine "/docs" "a.iso" 4 empty_drive in
  r = Ok (0%Z, "ft_upload_a")
  /\ let '(s, reply) := handle_ft_upload ft_done "ft_upload_a" [DataFrame WroteAll [1; 2]%Z; DataFrame (WriteLost 1) [3; 4]%Z] s in
     reply = FtCompleted /\ fs_read "/mnt/ft_disk/docs/a.iso" (ft_fs s) = Some [1; 2; 3]%Z.
Proof. vm_compute. by repeat split. Qed.

(** Over a data channel a chunk that could not be written is skipped: the next
    lands in its place, and the upload that goes on from there completes a file
    that was never sent. *)
Lemma skipped_chunk_corrupts_drive_file :
  let '(s, r) := start_ft_file_upload ft_id ft_order ft_fine "/docs" "a.iso" 4 empty_drive in
  r = Ok (0%Z, "ft_upload_a")
  /\ let s := handle_ft_upload_channel ft_done "ft_upload_a" [OnMessage (WriteFailed 0) [1; 2]%Z; OnMessage WroteAll [3; 4]%Z; OnClose] s in
     let s := ft_attempt ft_id ft_order "/docs" "a.iso" ft_src ft_good s in
     fs_read "/mnt/ft_disk/docs/a.iso" (ft_fs s) = Some [3; 4; 3; 4]%Z.
Proof. vm_compute. by split. Qed.

(** Deleting a file with an unfinished upload looks for the part on the device:
    it stays on the drive, and a file of that path on the device is gone. *)
Lemma cancel_removes_on_device :
  let s := set_root {[ "/docs/a.iso.ftcache" ]} (ft_attempt ft_id ft_order "/docs" "a.iso" ft_src ft_broken empty_drive) in
  let '(s, r) := fs_del_file_with_file_img ft_order true true true "/docs/a.iso" s in
  r = Ok tt /\ fs_read "/mnt/ft_disk/docs/a.iso.ftcache" (ft_fs s) = Some [1; 2]%Z /\ root_files s = ∅.
Proof. vm_compute. by repeat split. Qed.

(** ** Serving files *)

Definition ten : list Z := seqZ 0 10.
Definition ten_info : FileInfoAnswer := mkInfo "a.zip" 10.

Lemma file_served_exactly_witness :
  rs_body (answered (Some "bytes=2-4") ten_info ten) = [2; 3; 4]%Z
  /\ let r := answered (Some "bytes=2-4") ten_info ten in
     (rs_status r = 416%Z /\ rs_body r = [] /\ is_Some (Some "bytes=2-4"))
     \/ rs_content_length r = Some (bytes_len (rs_body r))
        /\ (rs_status r = 200%Z /\ rs_body r = ten /\ rs_content_range r = None
            \/ rs_status r = 206%Z /\ ∃ a b, (0 <= a <= b)%Z /\ (b < bytes_len ten)%Z
               /\ rs_body r = take (Z.to_nat (b - a + 1)) (drop (Z.to_nat a) ten)
               /\ rs_content_range r = Some ("bytes " +:+ show_nat a +:+ "-" +:+ show_nat b +:+ "/" +:+ show_nat (bytes_len ten))).
Proof. split; [vm_compute; reflexivity|]. apply (file_served_exactly (Some "bytes=2-4") ten_info ten). reflexivity. Defined.

(** Three bytes at a time. *)
Lemma pieces_make_file_witness :
  (rs_body ∘ (fun r => answered (Some (range_header r)) ten_info ten)) <$> piece_ranges 11 3 0 10 = [[0; 1; 2]; [3; 4; 5]; [6; 7; 8]; [9]]%Z
  /\ List.concat ((fun r => rs_body (answered (Some (range_header r)) ten_info ten)) <$> piece_ranges (S (length ten)) 3 0 (bytes_len ten)) = ten.
Proof. split; [vm_compute; reflexivity|]. apply (pieces_make_file 3 ten_info ten); [lia|reflexivity|vm_compute; congruence]. Defined.

Definition quiet : Disk := mkDisk ∅ [].

Lemma local_download_is_exact_witness :
  local_send_file 32 10 7 (Ok "/userdata/arkkvm/a.zip") ten [] quiet = [Header 10 7 3 1 4096; Chunk [7; 8; 9]%Z; Finished 7 3]
  /\ exact_download ten 7 (local_send_file 32 (bytes_len ten) (Z.of_nat 7) (Ok "/userdata/arkkvm/a.zip") ten [] quiet).
Proof.
  split; [vm_compute; reflexivity|].
  apply (local_download_is_exact 32 (Ok "/userdata/arkkvm/a.zip") ten 7 [] quiet); try (vm_compute; reflexivity).
  - vm_compute. lia.
  - constructor.
  - constructor.
Defined.

(** ** Requests *)

(** A range that begins in the file and ends beyond it, which a server should cut
    to the file, and an unknown unit, which it should ignore, are refused. *)
Lemma long_range_refused : rs_status (answered (Some "bytes=0-99") ten_info ten) = 416%Z.
Proof. vm_compute. reflexivity. Qed.

Lemma unknown_unit_refused : rs_status (answered (Some "lines=1-2") ten_info ten) = 416%Z.
Proof. vm_compute. reflexivity. Qed.

(** With 32 bits the length of a range of four gibibytes is cut to nothing: the
    first chunk says that the file is at its end. *)
Lemma four_gibibytes_are_nothing start file d :
  (local_next_chunk 32 (mkLocalReader 4096 start start (start + 2 ^ 32 - 1) (start + 2 ^ 32)) file d).2
  = Ok (mkLocalReader 4096 start start (start + 2 ^ 32 - 1) (start + 2 ^ 32), None).
Proof.
  unfold local_next_chunk. cbn [lr_end lr_position lr_chunk_size]. destruct (Z.ltb_spec (start + 2 ^ 32 - 1) start); [lia|].
  replace (start + 2 ^ 32 - 1 - start + 1)%Z with (2 ^ 32)%Z by lia. reflexivity.
Qed.

(** A path with the words of the error in it is answered as if the drive were not
    mounted. *)
Lemma path_decides_status env : serve_ft_file env (Some ("../not mounted", "a")) None false = bare 503.
Proof. vm_compute. reflexivity. Qed.
